(* ===== verification/_CoqProject ===== *)
-Q . S2P
Prelude.v
Memory.v
Spinlock.v
Riscv.v
Kalloc.v
PageTable.v
AddrSpace.v
Uvm.v
UserMem.v
UserCopy.v
ProcMem.v
Proc.v
ProcInv.v
ProcOps.v
Fork.v
ProcCtl.v
Wait.v
Exit.v
Syscall.v
SysSpec.v
SysCalls.v
Sched.v
VmTheorems.v
ProcTheorems.v
Boot.v
Witness.v
FsState.v
Bio.v
BioSpec.v
Log.v
LogSpec.v
BioTheorems.v
LogTheorems.v
FsBoot.v
Pipe.v
PipeSpec.v
FileSpec.v
PipeWitness.v
Console.v
Virtio.v
FsWitness.v
UserIO.v
Printf.v
Wc.v
Echo.v
Grep.v
Sh.v
ShSpec.v
ShParse.v
ShGrammar.v
Fs.v
FsOp.v
FsBitmap.v
FsAlloc.v
FsInode.v
FsGrow.v
FsWrite.v
FsWritei.v
FsTable.v
FsDir.v
FsTree.v
FsNamex.v
FsTrunc.v
FsTheorems.v
FsDemo.v
Cat.v
HeadTail.v
CustomGrep.v
Shell.v
PosixFs.v
Rm.v
Cp.v
Mv.v
PosixDemo.v
Ls.v
Umalloc.v
FsTx.v
SysFile.v
FsFile.v
Exec.v
