(* ===== verification/Prelude.v ===== *)
(** * Verification of the xv6 kernel with custom system calls, and of its
      user programs

    The repository has two projects.  Project 1 is xv6 for RISC-V (kernel/ and
    user/) with five added system calls (kernel/sysproc_custom.c); Project 2 is
    a set of re-implemented UNIX utilities.  This library is a shallow embedding
    of both: a C function is a Rocq function of the same name, in the state
    monad [M] below where it has state, and every theorem is about those
    functions.

    ** How the code is represented

    A computation [M S A] maps a state to an [outcome]: [Ok] with a result and
    a new state, [Panic] with the message of [panic], [Crash] for an access to
    memory or an array that C leaves undefined, [Spin] for a lock that can
    never be had, or [NoFuel] for a loop that used up its bound.  [wp m s Q] is
    total correctness: [m] returns from [s], and [Q] holds of the result; so a
    theorem [wp m s Q] also says that there is no panic, no bad access and no
    exhausted bound.  [wpe m s Q E] allows the panics in [E].  C integers are
    [Z] with the conversions [u8] ... [i64] written where C converts.

    Loops are [loop fuel body x].  The fuel is never a hypothesis on the input
    of a pure loop: it is written in the definition from the quantity that
    decreases (the number of pages, of table entries, of buffers, of
    characters) plus one, and the proofs show that it suffices.  Only loops
    that wait for other processes (sleep locks, pipes, the log, [kwait]) take
    their fuel as an argument, the number of times the process is woken.

    ** The kernel: files, state and correspondence

    - [Memory]: RAM as bytes, little-endian words, kernel/string.c.
    - [Spinlock]: kernel/spinlock.c on all CPUs, an interleaved step relation
      of its atomic accesses, and the per-CPU set of held locks that the other
      files use, with the refinement between them.
    - [Riscv]: riscv.h and memlayout.h.  [Kalloc]: kernel/kalloc.c, the free
      list threaded through RAM.
    - [PageTable], [AddrSpace], [Uvm], [UserMem], [UserCopy], [VmTheorems]:
      kernel/vm.c.
      Page tables are bytes of RAM; theorems use the view of an address space
      as a map from addresses to bytes.
    - [Proc], [ProcMem], [ProcInv], [ProcOps], [Fork], [ProcCtl], [Wait],
      [Exit], [ProcTheorems]: kernel/proc.c.  The state [kernel F] is RAM, locks, the process
      table and the state [F] of the file layer, of which proc.c sees the class
      [FileLayer].  The context switch is a parameter with the contract
      [switch_ok]: what other processes do while this one is off the CPU.
      [kinv] is the invariant: pages are owned once, pids are distinct.
    - [Syscall], [SysSpec], [SysCalls]: kernel/syscall.c, kernel/sysproc.c and
      kernel/sysproc_custom.c.
    - [Sched]: several CPUs on one process table, as steps on entries.
    - [FsState], [Bio], [BioSpec], [BioTheorems]: kernel/sleeplock.c and
      kernel/bio.c.  [caches] relates the linked buffers to an abstract
      cache of blocks.  The disk driver is a parameter with the contract
      [driver_ok].
    - [Log], [LogSpec], [LogTheorems]: kernel/log.c on the buffer cache.
    - [Virtio]: kernel/virtio_disk.c, as steps of the processes, the device and
      the interrupt handler in any order.  The device is a parameter with the
      contract [device_ok].
    - [Pipe], [PipeSpec], [FileSpec]: kernel/pipe.c and the allocation half of
      kernel/file.c.
    - [Fs]: all of kernel/fs.c on the log and the buffer cache.  An inode
      pointer is an index of the inode table.  [FsOp] is what holds inside a
      transaction ([inop]: the blocks as the transaction sees them, those it
      has logged, those held by callers), and the layers of fs.c are verified
      on it: [FsBitmap] and [FsAlloc] the block bitmap, [FsInode], [FsGrow],
      [FsWrite], [FsWritei] and [FsTrunc] the contents of files and the inodes
      on disk, [FsTable] the inode table, [FsDir] directories, [FsTree] and
      [FsNamex] paths as walks over the directories on disk.  [FsTheorems]
      has the results.
    - [FsTx]: where a transaction begins and ends, and user memory as source
      and destination.  [SysFile]: kernel/sysfile.c, the rest of kernel/file.c
      and sys_pipe2.  [FsFile]: read and write on them.
    - [Exec]: kernel/exec.c and elf.h.  The abstract loader [exec_image] is a
      function of the contents of the file and the arguments alone.
    - [Console]: kernel/console.c and the output of kernel/uart.c.
    - [Printf]: kernel/printf.c and user/printf.c.
    - [Boot], [Witness], [FsBoot], [FsWitness], [PipeWitness], [FsDemo]:
      concrete machines and disks, reached by the modelled code itself, on which the
      theorems are applied.

    ** User programs

    - [UserIO]: strings and streams.  [Grep]: user/grep.c.  [Sh], [ShSpec],
      [ShParse], [ShGrammar]: the parser of user/sh.c.  [Wc]: user/wc.c and
      custom_wc.c.  [Echo]: custom_echo.c.  [Cat], [HeadTail], [CustomGrep],
      [Ls], [Shell]: the programs of Project 2 that read and print; what they
      print is a list, the files and directories they read are arguments.
    - [Umalloc]: user/umalloc.c; the heap is a map from addresses to headers,
      sbrk a parameter with its contract.
    - [PosixFs]: the file system calls that custom_rm, custom_cp and custom_mv
      make, as the classes [Posix] (a tree of directories) and [Files] (inodes
      and descriptors) with the documented behaviour as laws.  [Rm], [Cp] and
      [Mv] are verified against them; [PosixDemo] has instances.

    ** What the theorems show

    - Locks: mutual exclusion under all interleavings, and that the per-CPU
      view is what acquire and release do.
    - Memory: the allocator keeps every page once; building, copying and
      freeing address spaces neither leaks nor shares a page; copyout and
      copyin act on the user's bytes and are inverse.
    - Processes: fork copies the parent, exit leaves a zombie and hands the
      children to init, wait reaps it, growth is all or nothing; a process is
      on at most one CPU, except after the added SIGSTOP, for which the
      theorem gives the run that breaks it.
    - System calls: getpinfo, thread_create, the mutex calls and sendsig, with
      the ways in which they differ from their descriptions.
    - File system: reads return the last write through any eviction; a commit
      is atomic for a crash after any of its disk writes, provided
      [recover_from_log] runs; initlog does not run it, and the theorem shows
      the half-installed transaction that stays; end_op commits; a transaction
      that fills the log makes commit panic.
    - Files and directories: what writei stores readi gives back, in a file
      that may grow, and other files keep their bytes; balloc, bfree and itrunc
      account for every block; a name linked is found and no other name
      changes; namex gives the inode of the walk over the directories and
      leaves the reference counts of the inode table right.
    - The disk driver: whatever the order of calls, transfers and interrupts,
      a call returns with its transfer done, and the driver neither panics nor
      leaves its tables; two processes that wait for descriptors can keep
      waking each other.
    - read and write: the bytes of the caller's buffer are on the disk when
      write returns, in as many transactions as it takes, and read gives them
      back.
    - exec: the new address space and registers are the image of the abstract
      loader and the old one is freed; a failure leaves the old program, and
      every page, inode and lock, as before.
    - Pipes are bounded queues, the console is a line editor.
    - User programs: sh.c parses exactly its grammar, grep's matcher decides
      the regular expressions, wc and echo do what their manuals say, printf
      of kernel and library agree and atoi reads what printf prints; the
      blocks that malloc hands out never overlap, except after a request
      large enough to wrap around.
    - Utilities: custom_cat, custom_grep, custom_head_tail, custom_ls and the
      shell print or run what their options and input ask for; custom_rm stays
      inside the tree it is given and reports success only when it is gone;
      custom_cp copies or reports; custom_mv never loses a file.

    ** Not modelled

    Traps (kernel/trap.c), whose registers and assembly are outside this state;
    start-up code and the interrupt controller (start.c, main.c, plic.c) and
    uart.c's registers; the kernel's own page table in kernel/vm.c.  Of the
    user programs, those that only make system calls, and the tests. *)

From stdpp Require Export base tactics numbers list gmap strings relations.
From Stdlib Require Export ZArith Lia Bool.

Open Scope Z_scope.

(** ** Machine-width integers

    Every C integer is a [Z]; conversions to a type wrap explicitly. *)

Definition u8 (z : Z) : Z := z mod 2 ^ 8.
Definition u16 (z : Z) : Z := z mod 2 ^ 16.
Definition u32 (z : Z) : Z := z mod 2 ^ 32.
Definition u64 (z : Z) : Z := z mod 2 ^ 64.
Definition i16 (z : Z) : Z := (z + 2 ^ 15) mod 2 ^ 16 - 2 ^ 15.
Definition i32 (z : Z) : Z := (z + 2 ^ 31) mod 2 ^ 32 - 2 ^ 31.
Definition i64 (z : Z) : Z := (z + 2 ^ 63) mod 2 ^ 64 - 2 ^ 63.

(** [lia] on goals with [/] and [mod] by constants. *)
Ltac dlia := zify; Z.to_euclidean_division_equations; lia.

Lemma u8_range z : 0 <= u8 z < 256.
Proof. unfold u8. dlia. Qed.

Lemma u32_range z : 0 <= u32 z < 2 ^ 32.
Proof. unfold u32. dlia. Qed.

Lemma u64_range z : 0 <= u64 z < 2 ^ 64.
Proof. unfold u64. dlia. Qed.

Lemma i32_range z : - 2 ^ 31 <= i32 z < 2 ^ 31.
Proof. unfold i32. dlia. Qed.

Lemma u8_id z : 0 <= z < 256 -> u8 z = z.
Proof. intros. unfold u8. apply Z.mod_small. lia. Qed.

Lemma u16_id z : 0 <= z < 2 ^ 16 -> u16 z = z.
Proof. intros. unfold u16. apply Z.mod_small. lia. Qed.

Lemma u32_id z : 0 <= z < 2 ^ 32 -> u32 z = z.
Proof. intros. unfold u32. apply Z.mod_small. lia. Qed.

Lemma u64_id z : 0 <= z < 2 ^ 64 -> u64 z = z.
Proof. intros. unfold u64. apply Z.mod_small. lia. Qed.

Lemma i32_id z : - 2 ^ 31 <= z < 2 ^ 31 -> i32 z = z.
Proof. intros. unfold i32. rewrite Z.mod_small; lia. Qed.

(** Two's-complement reinterpretation keeps a 32-bit value. *)
Lemma i32_u32 z : - 2 ^ 31 <= z < 2 ^ 31 -> i32 (u32 z) = z.
Proof. intros. unfold i32, u32. rewrite Z.add_mod_idemp_l by lia.
  rewrite Z.mod_small; lia. Qed.

Lemma i64_id z : - 2 ^ 63 <= z < 2 ^ 63 -> i64 z = z.
Proof. intros. unfold i64. rewrite Z.mod_small; lia. Qed.

Create Rewrite HintDb width.
#[export] Hint Rewrite u8_id u16_id u32_id u64_id i32_id using lia : width.

(** ** Outcomes of kernel code

    [Panic] is a call of [panic], which never returns; [Crash] is undefined
    behaviour (a null dereference, say); [Spin] is a CPU spinning on a lock
    it can never get; [NoFuel] is a model-level loop that ran out of its
    bound, which the termination theorems exclude. *)

Inductive outcome (A : Type) : Type :=
| Ok (a : A)
| Panic (msg : string)
| Crash
| Spin
| NoFuel.
Arguments Ok {A} a.
Arguments Panic {A} msg.
Arguments Crash {A}.
Arguments Spin {A}.
Arguments NoFuel {A}.

(** A state monad over [outcome]. *)
Definition M (S A : Type) : Type := S -> outcome (A * S).

Definition ret {S A} (a : A) : M S A := fun s => Ok (a, s).

Definition bind {S A B} (m : M S A) (k : A -> M S B) : M S B :=
  fun s =>
    match m s with
    | Ok (a, s') => k a s'
    | Panic e => Panic e
    | Crash => Crash
    | Spin => Spin
    | NoFuel => NoFuel
    end.

Definition get {S} : M S S := fun s => Ok (s, s).
Definition put {S} (s : S) : M S unit := fun _ => Ok (tt, s).
Definition gets {S A} (f : S -> A) : M S A := fun s => Ok (f s, s).
Definition modify {S} (f : S -> S) : M S unit := fun s => Ok (tt, f s).
Definition panic {S A} (msg : string) : M S A := fun _ => Panic msg.
Definition crash {S A} : M S A := fun _ => Crash.
Definition spin {S A} : M S A := fun _ => Spin.

Declare Scope kernel_scope.
Delimit Scope kernel_scope with K.

Notation "x <- m ;; k" := (bind m (fun x => k))
  (at level 100, m at next level, right associativity) : kernel_scope.
Notation "m >>> k" := (bind m (fun _ => k))
  (at level 100, right associativity) : kernel_scope.
Open Scope kernel_scope.

(** [assert_panic b msg]: the idiom [if(!b) panic(msg)]. *)
Definition panic_unless {S} (b : bool) (msg : string) : M S unit :=
  if b then ret tt else panic msg.

(** Run a computation on a component [T] of a larger state [S]. *)
Definition zoom {S T A} (proj : S -> T) (upd : T -> S -> S) (m : M T A) : M S A :=
  fun s =>
    match m (proj s) with
    | Ok (a, t) => Ok (a, upd t s)
    | Panic e => Panic e
    | Crash => Crash
    | Spin => Spin
    | NoFuel => NoFuel
    end.

(** A C loop: [body] either continues with new locals ([inl]) or leaves the
    loop ([inr]).  [fuel] bounds the number of iterations. *)
Fixpoint loop {S X R} (fuel : nat) (body : X -> M S (X + R)) (x : X) : M S R :=
  match fuel with
  | O => fun _ => NoFuel
  | S f => r <- body x ;; match r with inl x' => loop f body x' | inr v => ret v end
  end.

(** ** Total-correctness triples

    [wp m s Q]: running [m] in [s] returns normally, in a result and state
    satisfying [Q].  It excludes panics, crashes, spinning and lack of fuel. *)

Definition wp {S A} (m : M S A) (s : S) (Q : A -> S -> Prop) : Prop :=
  match m s with
  | Ok (a, s') => Q a s'
  | _ => False
  end.

Section wp_rules.
Context {S : Type}.
Implicit Types s : S.

(** Execution is deterministic: two triples join. *)
Lemma wp_and {A} (m : M S A) s P Q : wp m s P -> wp m s Q -> wp m s (fun a s' => P a s' /\ Q a s').
Proof. unfold wp. by destruct (m s) as [[a s']| | | |]. Qed.

Lemma wp_Ok {A} (m : M S A) s Q :
  wp m s Q <-> exists a s', m s = Ok (a, s') /\ Q a s'.
Proof. unfold wp. split.
  - destruct (m s) as [[a s']| | | |]; [eauto|done..].
  - by intros (a & s' & -> & HQ). Qed.

Lemma wp_ret {A} (a : A) s (Q : A -> S -> Prop) : Q a s -> wp (ret a) s Q.
Proof. done. Qed.

Lemma wp_get s (Q : S -> S -> Prop) : Q s s -> wp get s Q.
Proof. done. Qed.

Lemma wp_gets {A} (f : S -> A) s (Q : A -> S -> Prop) : Q (f s) s -> wp (gets f) s Q.
Proof. done. Qed.

Lemma wp_put s s' (Q : unit -> S -> Prop) : Q tt s' -> wp (put s') s Q.
Proof. done. Qed.

Lemma wp_modify f s (Q : unit -> S -> Prop) : Q tt (f s) -> wp (modify f) s Q.
Proof. done. Qed.

Lemma wp_bind {A B} (m : M S A) (k : A -> M S B) s Q :
  wp m s (fun a s' => wp (k a) s' Q) -> wp (bind m k) s Q.
Proof. unfold wp, bind. by destruct (m s) as [[a s']| | | |]. Qed.

Lemma wp_mono {A} (m : M S A) s (P Q : A -> S -> Prop) :
  wp m s P -> (forall a s', P a s' -> Q a s') -> wp m s Q.
Proof. unfold wp. destruct (m s) as [[a s']| | | |]; auto. Qed.

Lemma wp_panic_unless b msg s (Q : unit -> S -> Prop) :
  b = true -> Q tt s -> wp (panic_unless b msg) s Q.
Proof. by intros ->. Qed.

(** The loop rule: [I] holds at every iteration and [meas] decreases. *)
Lemma wp_loop_st {X R} (I : X -> S -> Prop) (meas : X -> S -> nat)
    (body : X -> M S (X + R)) (Q : R -> S -> Prop) :
  (forall x s, I x s ->
     wp (body x) s (fun r s' =>
       match r with
       | inl x' => I x' s' /\ (meas x' s' < meas x s)%nat
       | inr v => Q v s'
       end)) ->
  forall fuel x s, I x s -> (meas x s < fuel)%nat -> wp (loop fuel body x) s Q.
Proof.
  intros Hbody fuel; induction fuel as [|f IH]; intros x s Hx Hlt; [lia|].
  cbn [loop]. apply wp_bind. eapply wp_mono; [by apply Hbody|].
  intros [x'|v] s'; cbn; [|done]. intros [HI Hm]. apply IH; [done|lia].
Qed.

(** The same with a measure of the loop's locals alone. *)
Lemma wp_loop {X R} (I : X -> S -> Prop) (meas : X -> nat)
    (body : X -> M S (X + R)) (Q : R -> S -> Prop) :
  (forall x s, I x s ->
     wp (body x) s (fun r s' =>
       match r with
       | inl x' => I x' s' /\ (meas x' < meas x)%nat
       | inr v => Q v s'
       end)) ->
  forall fuel x s, I x s -> (meas x < fuel)%nat -> wp (loop fuel body x) s Q.
Proof. intros Hbody. by apply (wp_loop_st I (fun x _ => meas x)). Qed.

(** The same with a bound on the iterations left that is not a function of the
    state. *)
Lemma wp_loop_nat {X R} (I : nat -> X -> S -> Prop) (body : X -> M S (X + R)) (Q : R -> S -> Prop) :
  (forall n x s, I n x s ->
     wp (body x) s (fun r s' =>
       match r with
       | inl x' => exists m, (m < n)%nat /\ I m x' s'
       | inr v => Q v s'
       end)) ->
  forall fuel n x s, I n x s -> (n < fuel)%nat -> wp (loop fuel body x) s Q.
Proof.
  intros Hbody fuel; induction fuel as [|f IH]; intros n x s Hx Hlt; [lia|].
  cbn [loop]. apply wp_bind. eapply wp_mono; [by apply (Hbody n)|].
  intros [x'|v] s'; cbn; [|done]. intros (m & Hm & HI). apply (IH m); [done|lia].
Qed.

(** A loop that never leaves [I] runs out of any fuel. *)
Lemma loop_diverges {X R} (I : X -> S -> Prop) (body : X -> M S (X + R)) :
  (forall x s, I x s -> wp (body x) s (fun r s' => exists x', r = inl x' /\ I x' s')) ->
  forall fuel x s, I x s -> loop fuel body x s = NoFuel.
Proof.
  intros Hb fuel; induction fuel as [|f IH]; intros x s Hx; [done|].
  destruct (proj1 (wp_Ok _ _ _) (Hb x s Hx)) as (r & s' & E & x' & -> & Hx').
  cbn [loop]. unfold bind at 1. rewrite E. by apply IH.
Qed.
End wp_rules.

(** [wpe m s Q E]: [m] returns with [Q] or panics with a message in [E]. *)
Definition wpe {S A} (m : M S A) (s : S) (Q : A -> S -> Prop) (E : string -> Prop) : Prop :=
  match m s with
  | Ok (a, s') => Q a s'
  | Panic e => E e
  | _ => False
  end.

Section wpe_rules.
Context {S : Type}.
Implicit Types s : S.

Lemma wpe_wp {A} (m : M S A) s Q E : wp m s Q -> wpe m s Q E.
Proof. unfold wp, wpe. by destruct (m s) as [[a s']| | | |]. Qed.

Lemma wpe_ret {A} (a : A) s (Q : A -> S -> Prop) E : Q a s -> wpe (ret a) s Q E.
Proof. done. Qed.

Lemma wpe_gets {A} (f : S -> A) s (Q : A -> S -> Prop) E : Q (f s) s -> wpe (gets f) s Q E.
Proof. done. Qed.

Lemma wpe_modify f s (Q : unit -> S -> Prop) E : Q tt (f s) -> wpe (modify f) s Q E.
Proof. done. Qed.

Lemma wpe_panic {A} msg s (Q : A -> S -> Prop) (E : string -> Prop) : E msg -> wpe (panic msg) s Q E.
Proof. done. Qed.

Lemma wpe_bind {A B} (m : M S A) (k : A -> M S B) s Q E :
  wpe m s (fun a s' => wpe (k a) s' Q E) E -> wpe (bind m k) s Q E.
Proof. unfold wpe, bind. by destruct (m s) as [[a s']| | | |]. Qed.

(** A statement that cannot panic. *)
Lemma wpe_then {A B} (m : M S A) (k : A -> M S B) s P Q E :
  wp m s P -> (forall a s', P a s' -> wpe (k a) s' Q E) -> wpe (bind m k) s Q E.
Proof.
  intros Hm Hk. unfold wp in Hm. unfold wpe, bind.
  destruct (m s) as [[a s']| | | |]; try done. apply (Hk _ _ Hm).
Qed.

Lemma wpe_mono {A} (m : M S A) s (P Q : A -> S -> Prop) (E E' : string -> Prop) :
  wpe m s P E -> (forall a s', P a s' -> Q a s') -> (forall e, E e -> E' e) -> wpe m s Q E'.
Proof. unfold wpe. destruct (m s) as [[a s']| | | |]; auto. Qed.

Lemma wpe_loop {X R} (I : X -> S -> Prop) (meas : X -> S -> nat)
    (body : X -> M S (X + R)) (Q : R -> S -> Prop) (E : string -> Prop) :
  (forall x s, I x s ->
     wpe (body x) s (fun r s' =>
       match r with
       | inl x' => I x' s' /\ (meas x' s' < meas x s)%nat
       | inr v => Q v s'
       end) E) ->
  forall fuel x s, I x s -> (meas x s < fuel)%nat -> wpe (loop fuel body x) s Q E.
Proof.
  intros Hbody fuel; induction fuel as [|f IH]; intros x s Hx Hlt; [lia|].
  cbn [loop]. apply wpe_bind. eapply wpe_mono; [by apply Hbody| |done].
  intros [x'|v] s'; cbn; [|done]. intros [HI Hm]. apply IH; [done|lia].
Qed.
End wpe_rules.

(** [reach m s c P]: running [m] in [s] comes down to running [c] in a state
    that satisfies [P]; the form of code up to a context switch. *)
Definition reach {S A} (m : M S A) (s : S) (c : M S A) (P : S -> Prop) : Prop :=
  exists s', P s' /\ m s = c s'.

Section reach_rules.
Context {S : Type}.

Lemma reach_here {A} (c : M S A) s (P : S -> Prop) : P s -> reach c s c P.
Proof. intros HP. by exists s. Qed.

Lemma reach_bind {A B} (m : M S A) (f : A -> M S B) s c P :
  wp m s (fun a s' => reach (f a) s' c P) -> reach (bind m f) s c P.
Proof.
  rewrite wp_Ok. intros (a & s1 & E & s2 & HP & E2). exists s2. split; [done|]. unfold bind. by rewrite E.
Qed.

Lemma reach_then {A B} (m : M S A) (f : A -> M S B) s c P :
  reach m s c P -> reach (bind m f) s (bind c f) P.
Proof. intros (s1 & HP & E). exists s1. split; [done|]. unfold bind. by rewrite E. Qed.
End reach_rules.

(** The state a computation ends in, and its result, for concrete runs. *)
Definition final {S A} (m : M S A) (s : S) : S := match m s with Ok (_, s') => s' | _ => s end.
Definition returns {S A} (m : M S A) (s : S) : option A := match m s with Ok (a, _) => Some a | _ => None end.

Lemma wp_final {S A} (m : M S A) s Q a : wp m s Q -> returns m s = Some a -> Q a (final m s).
Proof. unfold wp, returns, final. destruct (m s) as [[b s']| | | |]; try done. intros HQ Hr. congruence. Qed.

(** Zooming into a component. *)
Lemma wp_zoom {S T A} (proj : S -> T) (upd : T -> S -> S) (m : M T A) s Q :
  wp m (proj s) (fun a t => Q a (upd t s)) -> wp (zoom proj upd m) s Q.
Proof. unfold wp, zoom. by destruct (m (proj s)) as [[a t]| | | |]. Qed.

Create HintDb wp.
#[export] Hint Resolve wp_ret wp_get wp_gets wp_put wp_modify : wp.

(** [wp_step]: run the next primitive statement. *)
Ltac wp_step :=
  cbn beta iota;
  lazymatch goal with
  | |- wp (bind _ _) _ _ => apply wp_bind
  | |- wp (ret _) _ _ => apply wp_ret
  | |- wp get _ _ => apply wp_get
  | |- wp (gets _) _ _ => apply wp_gets
  | |- wp (put _) _ _ => apply wp_put
  | |- wp (modify _) _ _ => apply wp_modify
  | |- wp (zoom _ _ _) _ _ => apply wp_zoom
  end.
Ltac wp_steps := repeat wp_step; cbn beta iota.

(** Split the [&&], [||], comparison tests of C conditions into hypotheses. *)
Ltac bool_simp :=
  repeat match goal with
  | H : andb _ _ = true |- _ => apply andb_true_iff in H; destruct H
  | H : orb _ _ = false |- _ => apply orb_false_iff in H; destruct H
  | H : andb _ _ = false |- _ => apply andb_false_iff in H; destruct H
  | H : orb _ _ = true |- _ => apply orb_true_iff in H; destruct H
  | H : negb _ = true |- _ => apply negb_true_iff in H
  | H : negb _ = false |- _ => apply negb_false_iff in H
  | H : (_ =? _) = true |- _ => apply Z.eqb_eq in H
  | H : (_ =? _) = false |- _ => apply Z.eqb_neq in H
  | H : (_ <? _) = true |- _ => apply Z.ltb_lt in H
  | H : (_ <? _) = false |- _ => apply Z.ltb_ge in H
  | H : (_ <=? _) = true |- _ => apply Z.leb_le in H
  | H : (_ <=? _) = false |- _ => apply Z.leb_gt in H
  | H : bool_decide _ = true |- _ => apply bool_decide_eq_true in H
  | H : bool_decide _ = false |- _ => apply bool_decide_eq_false in H
  end.

(** Case on the scrutinee of the goal's next [if]. *)
Ltac case_if :=
  match goal with
  | |- context [if ?b then _ else _] =>
      lazymatch type of b with
      | bool => let E := fresh "E" in destruct b eqn:E; bool_simp
      end
  end.

(** All cases of the goal's [if]s, closing the arithmetic ones. *)
Ltac cases := repeat case_if; try lia; try done.

(** ** Shared list lemmas *)

Lemma filter_ne_cons_self {A} `{EqDecision A} (x : A) (l : list A) :
  x ∉ l -> filter (fun y => y <> x) (x :: l) = l.
Proof.
  intros Hx. rewrite filter_cons_False by (intros Hn; by apply Hn).
  induction l as [|y l IH]; [done|].
  apply not_elem_of_cons in Hx as [Hne Hx].
  rewrite filter_cons_True by done. by rewrite IH.
Qed.

Lemma filter_ne_notin {A} `{EqDecision A} (x : A) (l : list A) :
  x ∉ l -> filter (fun y => y <> x) l = l.
Proof.
  intros Hx. rewrite <- (filter_ne_cons_self x l Hx) at 2.
  by rewrite filter_cons_False by (intros Hn; by apply Hn).
Qed.

Lemma filter_ne_length {A} `{EqDecision A} (x : A) (l : list A) :
  NoDup l -> x ∈ l -> S (length (filter (fun y => y <> x) l)) = length l.
Proof.
  induction 1 as [|y l Hy Hl IH]; intros Hx; [by apply not_elem_of_nil in Hx|].
  apply elem_of_cons in Hx as [->|Hx].
  - by rewrite filter_ne_cons_self.
  - rewrite filter_cons_True by (intros ->; done). cbn. by rewrite IH.
Qed.

(** Updating an array entry through its old value. *)
Lemma alter_insert {A} (f : A -> A) (l : list A) i x :
  l !! i = Some x -> alter f i l = <[i := f x]> l.
Proof.
  revert i; induction l as [|y l IH]; intros [|i] Hi; try done.
  - by injection Hi as ->.
  - change (y :: alter f i l = y :: <[i := f x]> l). by rewrite IH.
Qed.

(** Updating a function at a point. *)
Definition upd {K V} `{EqDecision K} (f : K -> V) (k : K) (v : V) : K -> V :=
  fun x => if decide (x = k) then v else f x.

Lemma upd_eq {K V} `{EqDecision K} (f : K -> V) k v : upd f k v k = v.
Proof. unfold upd. by rewrite decide_True. Qed.

Lemma upd_ne {K V} `{EqDecision K} (f : K -> V) k v x : x <> k -> upd f k v x = f x.
Proof. intros. unfold upd. by rewrite decide_False. Qed.

Lemma upd_self {K V} `{EqDecision K} (f : K -> V) k x : upd f k (f k) x = f x.
Proof. unfold upd. by case_decide; subst. Qed.
