(* ===== verification/Memory.v ===== *)
(** * Byte memory, little-endian words and kernel/string.c

    Physical memory is a map from byte addresses to bytes.  Multi-byte C
    objects are read and written in little-endian order, as RISC-V does.
    The second half translates kernel/string.c and relates each routine to
    a specification on byte ranges and on NUL-terminated strings. *)

From S2P Require Import Prelude.

Definition memory : Type := Z -> Z.

Definition st8 (m : memory) (a v : Z) : memory :=
  fun x => if x =? a then u8 v else m x.

(** [ld n m a]: the [n]-byte little-endian integer at [a]. *)
Fixpoint ld (n : nat) (m : memory) (a : Z) : Z :=
  match n with
  | O => 0
  | S n' => m a + 256 * ld n' m (a + 1)
  end.

(** [st n m a v]: store the low [n] bytes of [v] at [a]. *)
Fixpoint st (n : nat) (m : memory) (a v : Z) : memory :=
  match n with
  | O => m
  | S n' => st n' (st8 m a v) (a + 1) (v / 256)
  end.

Abbreviation ld32 := (ld 4).
Abbreviation st32 := (st 4).
Abbreviation ld64 := (ld 8).
Abbreviation st64 := (st 8).

Definition bytes_ok (m : memory) : Prop := forall a, 0 <= m a < 256.

(** Agreement of two memories on the range [[a, a + n)]. *)
Definition agree (a n : Z) (m m' : memory) : Prop :=
  forall x, a <= x < a + n -> m' x = m x.

Lemma st8_same m a v : st8 m a v a = u8 v.
Proof. unfold st8. by rewrite Z.eqb_refl. Qed.

Lemma st8_other m a v x : x <> a -> st8 m a v x = m x.
Proof. intros. unfold st8. by rewrite (proj2 (Z.eqb_neq x a)). Qed.

Lemma st8_bytes_ok m a v : bytes_ok m -> bytes_ok (st8 m a v).
Proof. intros H x. unfold st8. case_if; apply u8_range || apply H. Qed.

Lemma st_bytes_ok n m a v : bytes_ok m -> bytes_ok (st n m a v).
Proof. revert m a v; induction n; intros; cbn; auto using st8_bytes_ok. Qed.

Lemma st_other n m a v x :
  x < a \/ a + Z.of_nat n <= x -> st n m a v x = m x.
Proof.
  revert m a v; induction n as [|n IH]; intros m a v Hx; cbn; [done|].
  rewrite IH by lia. apply st8_other; lia.
Qed.

Lemma ld_agree n m m' a :
  (forall x, a <= x < a + Z.of_nat n -> m' x = m x) -> ld n m' a = ld n m a.
Proof.
  revert a; induction n as [|n IH]; intros a H; cbn; [done|].
  rewrite H, IH by lia || (intros; apply H; lia). done.
Qed.

Lemma ld_st_other n k m a v b :
  b + Z.of_nat n <= a \/ a + Z.of_nat k <= b -> ld n (st k m a v) b = ld n m b.
Proof. intros. apply ld_agree. intros. apply st_other. lia. Qed.

Lemma ld_range n m a : bytes_ok m -> 0 <= ld n m a < 256 ^ Z.of_nat n.
Proof.
  intros Hm; revert a; induction n as [|n IH]; intros a; cbn [ld]; [done|].
  specialize (Hm a). specialize (IH (a + 1)).
  rewrite Nat2Z.inj_succ, Z.pow_succ_r by lia. lia.
Qed.

Lemma ld_st_same n m a v : ld n (st n m a v) a = v mod 256 ^ Z.of_nat n.
Proof.
  revert m a v; induction n as [|n IH]; intros m a v.
  { cbn. by rewrite Z.mod_1_r. }
  cbn [ld st]. rewrite IH, st_other by lia. rewrite st8_same.
  rewrite Nat2Z.inj_succ, Z.pow_succ_r by lia.
  rewrite Z.rem_mul_r by (try apply Z.pow_pos_nonneg; lia). done.
Qed.

Lemma ld64_range m a : bytes_ok m -> 0 <= ld64 m a < 2 ^ 64.
Proof. apply (ld_range 8). Qed.

Lemma ld64_st64 m a v : 0 <= v < 2 ^ 64 -> ld64 (st64 m a v) a = v.
Proof. intros. rewrite ld_st_same. by apply Z.mod_small. Qed.

Lemma st_zero n : forall m a x, a <= x < a + Z.of_nat n -> st n m a 0 x = 0.
Proof.
  induction n as [|n IH]; intros m a x Hx; [lia|]. cbn [st]. change (0 / 256) with 0.
  destruct (decide (x = a)) as [->|Hne].
  - rewrite st_other by lia. apply st8_same.
  - apply IH. lia.
Qed.

Lemma ld_zero n m a :
  (forall x, a <= x < a + Z.of_nat n -> m x = 0) -> ld n m a = 0.
Proof.
  revert a; induction n as [|n IH]; intros a H; cbn; [done|].
  rewrite H, IH by lia || (intros; apply H; lia). done.
Qed.

#[export] Hint Resolve st8_bytes_ok st_bytes_ok : wp.

#[global] Arguments ld : simpl never.
#[global] Arguments st : simpl never.

(** ** kernel/string.c *)

(** [memset]: [for(i = 0; i < n; i++) cdst[i] = c]. *)
Fixpoint memset_loop (k : nat) (m : memory) (cdst c : Z) : memory :=
  match k with
  | O => m
  | S k' => memset_loop k' (st8 m cdst c) (cdst + 1) c
  end.
Definition memset (m : memory) (dst c n : Z) : memory :=
  memset_loop (Z.to_nat n) m dst c.

Fixpoint memcmp_loop (k : nat) (m : memory) (s1 s2 : Z) : Z :=
  match k with
  | O => 0
  | S k' => if negb (m s1 =? m s2) then m s1 - m s2
            else memcmp_loop k' m (s1 + 1) (s2 + 1)
  end.
Definition memcmp (m : memory) (v1 v2 n : Z) : Z := memcmp_loop (Z.to_nat n) m v1 v2.

(** The two copy loops of [memmove]: ascending and, for a destination that
    overlaps the end of the source, descending. *)
Fixpoint copy_up (k : nat) (m : memory) (d s : Z) : memory :=
  match k with
  | O => m
  | S k' => copy_up k' (st8 m d (m s)) (d + 1) (s + 1)
  end.
Fixpoint copy_down (k : nat) (m : memory) (d s : Z) : memory :=
  match k with
  | O => m
  | S k' => copy_down k' (st8 m (d - 1) (m (s - 1))) (d - 1) (s - 1)
  end.
Definition memmove (m : memory) (dst src n : Z) : memory :=
  if n =? 0 then m
  else if (src <? dst) && (dst <? src + n)
  then copy_down (Z.to_nat n) m (dst + n) (src + n)
  else copy_up (Z.to_nat n) m dst src.

Definition memcpy (m : memory) (dst src n : Z) : memory := memmove m dst src n.

Fixpoint strncmp_loop (n : nat) (m : memory) (p q : Z) : Z :=
  match n with
  | O => 0
  | S n' => if negb (m p =? 0) && (m p =? m q) then strncmp_loop n' m (p + 1) (q + 1)
            else m p - m q
  end.
Definition strncmp (m : memory) (p q n : Z) : Z := strncmp_loop (Z.to_nat n) m p q.

(** First loop of [strncpy]; the second one pads with NULs. *)
Fixpoint strncpy_loop (n : nat) (m : memory) (s t : Z) : memory :=
  match n with
  | O => m
  | S n' => let c := m t in
            if c =? 0 then memset_loop n' (st8 m s c) (s + 1) 0
            else strncpy_loop n' (st8 m s c) (s + 1) (t + 1)
  end.
Definition strncpy (m : memory) (s t n : Z) : memory := strncpy_loop (Z.to_nat n) m s t.

(** [safestrcpy]: [while(--n > 0 && ( *s++ = *t++ ) != 0); *s = 0]. *)
Fixpoint safestrcpy_loop (n : nat) (m : memory) (s t : Z) : memory :=
  match n with
  | O => st8 m s 0
  | S n' => let c := m t in
            if c =? 0 then st8 (st8 m s c) (s + 1) 0
            else safestrcpy_loop n' (st8 m s c) (s + 1) (t + 1)
  end.
Definition safestrcpy (m : memory) (s t n : Z) : memory :=
  if n <=? 0 then m else safestrcpy_loop (Z.to_nat (n - 1)) m s t.

(** [strlen]: [for(n = 0; s[n]; n++)], with a bound on the scan. *)
Fixpoint strlen_loop (fuel : nat) (m : memory) (s n : Z) : outcome Z :=
  match fuel with
  | O => NoFuel
  | S f => if m (s + n) =? 0 then Ok n else strlen_loop f m s (i32 (n + 1))
  end.
Definition strlen (fuel : nat) (m : memory) (s : Z) : outcome Z := strlen_loop fuel m s 0.

(** ** Specifications *)

(** What [memmove] promises, whatever the overlap. *)
Definition move_spec (m : memory) (dst src n : Z) : memory :=
  fun x => if (dst <=? x) && (x <? dst + n) then m (src + (x - dst)) else m x.

(** [cstr m a l]: a NUL-terminated string with the non-NUL bytes [l] at [a]. *)
Fixpoint cstr (m : memory) (a : Z) (l : list Z) : Prop :=
  match l with
  | [] => m a = 0
  | c :: l' => m a = c /\ c <> 0 /\ cstr m (a + 1) l'
  end.

Lemma memset_loop_spec k m p c x :
  memset_loop k m p c x = if (p <=? x) && (x <? p + Z.of_nat k) then u8 c else m x.
Proof.
  revert m p; induction k as [|k IH]; intros m p; cbn [memset_loop].
  { cases. }
  rewrite IH. unfold st8. cases.
Qed.

(** [memset] fills exactly its range. *)
Lemma memset_spec m dst c n x :
  memset m dst c n x = if (dst <=? x) && (x <? dst + n) then u8 c else m x.
Proof. unfold memset. rewrite memset_loop_spec. cases. Qed.

Lemma memset_in m dst c n x : dst <= x < dst + n -> memset m dst c n x = u8 c.
Proof. intros. rewrite memset_spec. cases. Qed.

Lemma memset_out m dst c n x : x < dst \/ dst + n <= x -> memset m dst c n x = m x.
Proof. intros. rewrite memset_spec. cases. Qed.

Lemma memset_bytes_ok m dst c n : bytes_ok m -> bytes_ok (memset m dst c n).
Proof. intros H x. rewrite memset_spec. case_if; apply u8_range || apply H. Qed.

Lemma ld_memset_zero k m dst n a :
  dst <= a -> a + Z.of_nat k <= dst + n -> ld k (memset m dst 0 n) a = 0.
Proof. intros. apply ld_zero. intros. by rewrite memset_in by lia. Qed.

Lemma ld_memset_out k m dst c n a :
  a + Z.of_nat k <= dst \/ dst + n <= a -> ld k (memset m dst c n) a = ld k m a.
Proof. intros. apply ld_agree. intros. apply memset_out; lia. Qed.

#[export] Hint Resolve memset_bytes_ok : wp.

(** The ascending loop is right unless it overwrites source bytes it has
    yet to read, the descending one likewise. *)
Lemma copy_up_spec k m d s x :
  bytes_ok m -> d <= s \/ s + Z.of_nat k <= d ->
  copy_up k m d s x = move_spec m d s (Z.of_nat k) x.
Proof.
  revert m d s; induction k as [|k IH]; intros m d s Hm Hov; cbn [copy_up].
  { unfold move_spec. cases. }
  rewrite IH by (auto using st8_bytes_ok || lia).
  unfold move_spec, st8. cases.
  - f_equal. lia.
  - rewrite u8_id by apply Hm. f_equal. lia.
Qed.

Lemma copy_down_spec k m d s x :
  bytes_ok m -> s <= d \/ d + Z.of_nat k <= s ->
  copy_down k m d s x = move_spec m (d - Z.of_nat k) (s - Z.of_nat k) (Z.of_nat k) x.
Proof.
  revert m d s; induction k as [|k IH]; intros m d s Hm Hov; cbn [copy_down].
  { unfold move_spec. cases. }
  rewrite IH by (auto using st8_bytes_ok || lia).
  unfold move_spec, st8. cases.
  - f_equal. lia.
  - rewrite u8_id by apply Hm. f_equal. lia.
Qed.

Lemma memmove_move m dst src n x :
  bytes_ok m -> 0 <= n -> memmove m dst src n x = move_spec m dst src n x.
Proof.
  intros Hm Hn. unfold memmove. repeat case_if.
  { unfold move_spec. cases. }
  { rewrite copy_down_spec by (auto || lia). rewrite Z2Nat.id by done.
    by rewrite !Z.add_simpl_r. }
  all: rewrite copy_up_spec, Z2Nat.id; auto; lia.
Qed.

Lemma memmove_bytes_ok m dst src n :
  bytes_ok m -> 0 <= n -> bytes_ok (memmove m dst src n).
Proof.
  intros Hm Hn x. rewrite memmove_move by done. unfold move_spec. case_if; apply Hm.
Qed.

Lemma memmove_out m dst src n x :
  bytes_ok m -> 0 <= n -> x < dst \/ dst + n <= x -> memmove m dst src n x = m x.
Proof. intros. rewrite memmove_move by done. unfold move_spec. cases. Qed.

Lemma memmove_in m dst src n x :
  bytes_ok m -> dst <= x < dst + n -> memmove m dst src n x = m (src + (x - dst)).
Proof. intros. rewrite memmove_move by (done || lia). unfold move_spec. cases. Qed.

#[export] Hint Resolve memmove_bytes_ok : wp.

Lemma memcmp_loop_zero k m s1 s2 :
  memcmp_loop k m s1 s2 = 0 <->
  forall i, 0 <= i < Z.of_nat k -> m (s1 + i) = m (s2 + i).
Proof.
  revert s1 s2; induction k as [|k IH]; intros s1 s2; cbn [memcmp_loop].
  { split; [lia|done]. }
  case_if.
  - split; [lia|]. intros H. specialize (H 0 ltac:(lia)). rewrite !Z.add_0_r in H. lia.
  - rewrite IH. split; intros H i Hi.
    + destruct (decide (i = 0)) as [->|]; [by rewrite !Z.add_0_r|].
      specialize (H (i - 1) ltac:(lia)).
      by replace (s1 + 1 + (i - 1)) with (s1 + i) in H by lia;
        replace (s2 + 1 + (i - 1)) with (s2 + i) in H by lia.
    + specialize (H (i + 1) ltac:(lia)).
      by replace (s1 + 1 + i) with (s1 + (i + 1)) by lia;
        replace (s2 + 1 + i) with (s2 + (i + 1)) by lia.
Qed.

(** ** NUL-terminated strings *)

Lemma cstr_agree m m' a l :
  cstr m a l -> agree a (Z.of_nat (length l) + 1) m m' -> cstr m' a l.
Proof.
  revert a; induction l as [|c l IH]; intros a; cbn [cstr length].
  - intros Hm H. rewrite H by lia. done.
  - intros (Hc & Hnz & Hl) H. rewrite H by lia. split_and!; [done..|].
    apply IH; [done|]. intros x Hx. apply H. lia.
Qed.

Lemma strncmp_loop_zero n m p q l1 l2 :
  bytes_ok m -> cstr m p l1 -> cstr m q l2 ->
  strncmp_loop n m p q = 0 <-> take n l1 = take n l2.
Proof.
  intros Hm; revert p q l1 l2; induction n as [|n IH]; intros p q l1 l2 H1 H2.
  { cbn. done. }
  cbn [strncmp_loop].
  destruct l1 as [|c1 l1], l2 as [|c2 l2]; cbn in H1, H2 |- *;
    destruct_and?; subst.
  - rewrite H1, H2. done.
  - rewrite H1. cbn. split; [lia|done].
  - rewrite H2, (proj2 (Z.eqb_neq (m p) 0)) by done. cbn. split; [lia|done].
  - rewrite (proj2 (Z.eqb_neq (m p) 0)) by done. cbn. case_if.
    + rewrite IH by done. rewrite E. split; [by intros ->|by intros [=]].
    + split; [lia|]. by intros [=].
Qed.

Lemma safestrcpy_loop_out n m s t x :
  x < s \/ s + Z.of_nat n < x -> safestrcpy_loop n m s t x = m x.
Proof.
  revert m s t; induction n as [|n IH]; intros m s t Hx; cbn [safestrcpy_loop].
  - apply st8_other; lia.
  - case_if; [by rewrite !st8_other by lia|]. by rewrite IH, st8_other by lia.
Qed.

Lemma safestrcpy_loop_cstr n m s t l :
  bytes_ok m -> cstr m t l ->
  s + Z.of_nat n < t \/ t + Z.of_nat (length l) < s ->
  cstr (safestrcpy_loop n m s t) s (take n l).
Proof.
  revert m s t l; induction n as [|n IH]; intros m s t l Hm Hl Hd; cbn [safestrcpy_loop].
  { rewrite take_0. cbn [cstr]. by rewrite st8_same. }
  destruct l as [|c l]; cbn [cstr firstn length] in *.
  - rewrite Hl. cbn [Z.eqb]. by rewrite st8_other, st8_same by lia.
  - destruct Hl as (Hc & Hnz & Hl). rewrite Hc.
    rewrite (proj2 (Z.eqb_neq c 0)) by done. split_and!; [|done|].
    + rewrite safestrcpy_loop_out, st8_same by lia. rewrite u8_id; [done|].
      rewrite <- Hc. apply Hm.
    + apply IH; [by apply st8_bytes_ok| |lia].
      eapply cstr_agree; [done|]. intros x Hx. apply st8_other. lia.
Qed.

Lemma strlen_loop_cstr fuel m s n l :
  cstr m (s + n) l -> 0 <= n -> n + Z.of_nat (length l) < 2 ^ 31 ->
  (length l < fuel)%nat -> strlen_loop fuel m s n = Ok (n + Z.of_nat (length l)).
Proof.
  revert n l; induction fuel as [|f IH]; intros n l Hl Hn Hb Hf; [lia|].
  cbn [strlen_loop]. destruct l as [|c l]; cbn [cstr length] in *.
  - rewrite Hl. cbn. f_equal. lia.
  - destruct Hl as (Hc & Hnz & Hl). rewrite Hc, (proj2 (Z.eqb_neq c 0)) by done.
    rewrite i32_id by lia. rewrite IH with (l := l); [f_equal; lia|..]; try lia.
    by replace (s + (n + 1)) with (s + n + 1) by lia.
Qed.

(** ** Theorems *)

(** [memmove] copies as if through a buffer, whatever the overlap of source
    and destination, and writes nothing else. *)
Theorem memmove_overlap_safe m dst src n x :
  bytes_ok m -> 0 <= n -> memmove m dst src n x = move_spec m dst src n x.
Proof. apply memmove_move. Qed.

Lemma memmove_overlap_safe_witness :
  memmove (fun a => a mod 256) 2 0 4 5 = 3 /\ memmove (fun a => a mod 256) 0 2 4 3 = 5.
Proof.
  assert (Hb : bytes_ok (fun a => a mod 256)) by (intros a; apply Z.mod_pos_bound; lia).
  split.
  - exact (memmove_overlap_safe _ 2 0 4 5 Hb ltac:(lia)).
  - exact (memmove_overlap_safe _ 0 2 4 3 Hb ltac:(lia)).
Defined.

(** [safestrcpy] leaves a NUL-terminated string: the source, cut to [n - 1]
    bytes; nothing beyond the [n] bytes of the destination is written, and
    [strlen] of the copy is its length. *)
Theorem safestrcpy_terminates m s t n l :
  bytes_ok m -> cstr m t l -> 0 < n -> n < 2 ^ 31 -> s + n <= t \/ t + Z.of_nat (length l) < s ->
  let m' := safestrcpy m s t n in
  cstr m' s (take (Z.to_nat (n - 1)) l) /\
  (forall x, x < s \/ s + n <= x -> m' x = m x) /\
  strlen (Z.to_nat n) m' s = Ok (Z.min (n - 1) (Z.of_nat (length l))).
Proof.
  intros Hb Hl Hn Hn2 Hd m'. unfold m', safestrcpy. rewrite (proj2 (Z.leb_gt n 0)) by done.
  assert (Hc : cstr (safestrcpy_loop (Z.to_nat (n - 1)) m s t) s (take (Z.to_nat (n - 1)) l)).
  { apply safestrcpy_loop_cstr; [done..|]. rewrite Z2Nat.id by lia. lia. }
  split_and!; [done| |].
  - intros x Hx. apply safestrcpy_loop_out. rewrite Z2Nat.id by lia. lia.
  - unfold strlen. rewrite strlen_loop_cstr with (l := take (Z.to_nat (n - 1)) l);
      rewrite ?length_take; try lia; [f_equal; lia|]. by rewrite Z.add_0_r.
Qed.

Lemma safestrcpy_terminates_witness :
  let m := fun a => if a =? 100 then 65 else if a =? 101 then 66 else 0 in
  strlen 8 (safestrcpy m 0 100 8) 0 = Ok 2.
Proof.
  cbn zeta. set (m := fun a => if a =? 100 then 65 else if a =? 101 then 66 else 0).
  assert (Hb : bytes_ok m) by (intros a; unfold m; cases).
  assert (Hc : cstr m 100 [65; 66]) by (by vm_compute).
  exact (proj2 (proj2 (safestrcpy_terminates m 0 100 8 [65; 66] Hb Hc ltac:(lia) ltac:(lia) ltac:(lia)))).
Defined.
