(* ===== verification/Spinlock.v ===== *)
(** * Spin locks: kernel/spinlock.c

    Part 1 runs [push_off], [pop_off], [acquire], [release] and [holding]
    on the state of all CPUs and all locks.  Part 2 splits [acquire] and
    [release] at their atomic memory accesses and lets the CPUs interleave:
    the invariant gives mutual exclusion and interrupts-off while a lock is
    held.  Part 3 is the view one CPU has of its own locks, the interface
    the other components are written against, with the refinement theorem
    that part 1 implements it. *)

From S2P Require Import Prelude.

(** The kernel's spin locks. *)
Inductive lockid : Type :=
| KmemLock | PidLock | WaitLock | FtableLock | TicksLock | LogLock
| BcacheLock | ItableLock | ConsLock | PrLock | TxLock | VdiskLock
| ProcLock (i : nat) | PipeLock (pi : Z) | SleepLk (id : Z).

#[export] Instance lockid_eq_dec : EqDecision lockid.
Proof. solve_decision. Defined.

(** ** Part 1: the code on the hardware state *)

(** [struct spinlock]: [locked] and the holder, for [holding]. *)
Record spinlock := Spinlock { locked : Z; lk_cpu : option nat }.

(** The fields of [struct cpu] used here, with the interrupt-enable bit
    of the hart ([intr_get], [intr_on], [intr_off]). *)
Record cpu := Cpu { noff : Z; intena : bool; sie : bool }.

Record hw := Hw { hw_locks : lockid -> spinlock; hw_cpus : nat -> cpu }.

Definition set_cpu (c : nat) (v : cpu) (s : hw) : hw :=
  Hw (hw_locks s) (upd (hw_cpus s) c v).
Definition set_lock (l : lockid) (v : spinlock) (s : hw) : hw :=
  Hw (upd (hw_locks s) l v) (hw_cpus s).

Definition initlock (l : lockid) : M hw unit := modify (set_lock l (Spinlock 0 None)).

Definition push_off_cpu (v : cpu) : cpu :=
  let old := sie v in
  Cpu (noff v + 1) (if noff v =? 0 then old else intena v) false.

Definition push_off (c : nat) : M hw unit :=
  modify (fun s => set_cpu c (push_off_cpu (hw_cpus s c)) s).

Definition pop_off_cpu (v : cpu) : cpu :=
  let n := noff v - 1 in
  Cpu n (intena v) (if (n =? 0) && intena v then true else sie v).

Definition pop_off (c : nat) : M hw unit :=
  v <- gets (fun s => hw_cpus s c) ;;
  if sie v then panic "pop_off - interruptible"
  else if noff v <? 1 then panic "pop_off"
  else modify (set_cpu c (pop_off_cpu v)).

Definition holding (c : nat) (l : lockid) (s : hw) : bool :=
  negb (locked (hw_locks s l) =? 0) && bool_decide (lk_cpu (hw_locks s l) = Some c).

(** A run of [acquire] with no other CPU moving: if another CPU has the lock,
    the test-and-set loop spins for ever. *)
Definition acquire (c : nat) (l : lockid) : M hw unit :=
  push_off c >>>
  h <- gets (holding c l) ;;
  if h then panic "acquire"
  else
    lk <- gets (fun s => hw_locks s l) ;;
    if negb (locked lk =? 0) then spin
    else modify (set_lock l (Spinlock 1 (lk_cpu lk))) >>>
         modify (fun s => set_lock l (Spinlock (locked (hw_locks s l)) (Some c)) s).

Definition release (c : nat) (l : lockid) : M hw unit :=
  h <- gets (holding c l) ;;
  if negb h then panic "release"
  else
    modify (fun s => set_lock l (Spinlock (locked (hw_locks s l)) None) s) >>>
    modify (fun s => set_lock l (Spinlock 0 (lk_cpu (hw_locks s l))) s) >>>
    pop_off c.

(** ** Part 2: interleaved CPUs

    Where a CPU is inside [acquire] or [release]; the CPU's own [struct cpu]
    is private to it, so [push_off] and [pop_off] need no splitting. *)
Inductive pc : Type :=
| Run                  (* outside the lock code *)
| Spinning (l : lockid)   (* after push_off and the holding test *)
| Won (l : lockid)        (* the amoswap returned 0 *)
| Cleared (l : lockid).   (* release: lk->cpu = 0 done, locked still 1 *)

Record world := World {
  hwst : hw;
  pcs : nat -> pc;
  owned : nat -> list lockid;  (* acquired and not yet released *)
  pushes : nat -> Z            (* push_offs of the CPU outside the lock code *)
}.

Inductive step : world -> world -> Prop :=
| step_push s p o u c :
    p c = Run ->
    step (World s p o u) (World (set_cpu c (push_off_cpu (hw_cpus s c)) s) p o (upd u c (u c + 1)))
| step_pop s p o u c :
    p c = Run -> 0 < u c ->
    step (World s p o u) (World (set_cpu c (pop_off_cpu (hw_cpus s c)) s) p o (upd u c (u c - 1)))
| step_intr_on s p o u c :   (* intr_on() by code that holds nothing *)
    p c = Run -> noff (hw_cpus s c) = 0 ->
    step (World s p o u)
         (World (set_cpu c (Cpu 0 (intena (hw_cpus s c)) true) s) p o u)
| step_intr_off s p o u c :
    p c = Run ->
    step (World s p o u)
         (World (set_cpu c (Cpu (noff (hw_cpus s c)) (intena (hw_cpus s c)) false) s) p o u)
| step_acquire s p o u c l :
    p c = Run -> holding c l s = false ->
    step (World s p o u)
         (World (set_cpu c (push_off_cpu (hw_cpus s c)) s) (upd p c (Spinning l)) o u)
| step_swap_busy s p o u c l :
    p c = Spinning l -> locked (hw_locks s l) <> 0 ->
    step (World s p o u) (World (set_lock l (Spinlock 1 (lk_cpu (hw_locks s l))) s) p o u)
| step_swap s p o u c l :
    p c = Spinning l -> locked (hw_locks s l) = 0 ->
    step (World s p o u)
         (World (set_lock l (Spinlock 1 (lk_cpu (hw_locks s l))) s) (upd p c (Won l)) o u)
| step_setcpu s p o u c l :
    p c = Won l ->
    step (World s p o u)
         (World (set_lock l (Spinlock (locked (hw_locks s l)) (Some c)) s)
                (upd p c Run) (upd o c (l :: o c)) u)
| step_release s p o u c l :
    p c = Run -> holding c l s = true ->
    step (World s p o u)
         (World (set_lock l (Spinlock (locked (hw_locks s l)) None) s)
                (upd p c (Cleared l)) (upd o c (filter (fun x => x <> l) (o c))) u)
| step_unlock s p o u c l :
    p c = Cleared l ->
    step (World s p o u)
         (World (set_cpu c (pop_off_cpu (hw_cpus s c))
                   (set_lock l (Spinlock 0 (lk_cpu (hw_locks s l))) s))
                (upd p c Run) o u).

(** Boot: no lock taken, interrupts off, nothing pushed. *)
Definition boot : world :=
  World (Hw (fun _ => Spinlock 0 None) (fun _ => Cpu 0 false false))
        (fun _ => Run) (fun _ => []) (fun _ => 0).

(** CPU [c] is responsible for [l]: it owns it or is between the two stores. *)
Definition has (w : world) (c : nat) (l : lockid) : Prop :=
  l ∈ owned w c \/ pcs w c = Won l \/ pcs w c = Cleared l.

(** How many [push_off]s are due to the lock code. *)
Definition in_lock_code (p : pc) : Z := match p with Run => 0 | _ => 1 end.

Record lock_inv (w : world) : Prop := {
  inv_unique c1 c2 l : has w c1 l -> has w c2 l -> c1 = c2;
  inv_locked c l : has w c l -> locked (hw_locks (hwst w) l) = 1;
  inv_cpu c l : lk_cpu (hw_locks (hwst w) l) = Some c <-> l ∈ owned w c;
  inv_nodup c : NoDup (owned w c);
  inv_pc c l : pcs w c = Won l \/ pcs w c = Cleared l -> l ∉ owned w c;
  inv_noff c : noff (hw_cpus (hwst w) c)
               = Z.of_nat (length (owned w c)) + in_lock_code (pcs w c) + pushes w c;
  inv_pushes c : 0 <= pushes w c;
  inv_intr c : 0 < noff (hw_cpus (hwst w) c) -> sie (hw_cpus (hwst w) c) = false
}.

Lemma lock_inv_boot : lock_inv boot.
Proof.
  split; cbn; try done.
  - intros c1 c2 l [H|[H|H]]; [by apply not_elem_of_nil in H|done..].
  - intros c l [H|[H|H]]; [by apply not_elem_of_nil in H|done..].
  - intros. split; [done|]. intros H. by apply not_elem_of_nil in H.
  - intros. constructor.
  - by intros c l [?|?].
Qed.

(** Case on [upd]s at CPU or lock keys. *)
Ltac upd_cases :=
  repeat match goal with
  | H : context [upd _ ?k _ ?x] |- _ =>
      destruct (decide (x = k)) as [->|?];
      [rewrite !upd_eq in *|rewrite !(upd_ne _ k) in * by done]
  | |- context [upd _ ?k _ ?x] =>
      destruct (decide (x = k)) as [->|?];
      [rewrite !upd_eq in *|rewrite !(upd_ne _ k) in * by done]
  end.

(** Steps that change neither locks, nor [pc]s, nor ownership. *)
Lemma lock_inv_private s p o u u' c v :
  lock_inv (World s p o u) ->
  noff v = Z.of_nat (length (o c)) + in_lock_code (p c) + u' ->
  0 <= u' -> (0 < noff v -> sie v = false) ->
  lock_inv (World (set_cpu c v s) p o (upd u c u')).
Proof.
  intros [H1 H2 H3 H4 H5 H6 H7 H8] Hn Hu Hs; split; cbn in *; try done.
  all: intros c'; upd_cases; auto.
Qed.

Lemma lock_inv_ext_pushes s p o u u' :
  (forall c, u c = u' c) -> lock_inv (World s p o u) -> lock_inv (World s p o u').
Proof.
  intros He [H1 H2 H3 H4 H5 H6 H7 H8]; split; cbn in *; try done.
  - intros c. by rewrite <- He.
  - intros c. by rewrite <- He.
Qed.

Lemma holding_true c l s :
  holding c l s = true -> locked (hw_locks s l) <> 0 /\ lk_cpu (hw_locks s l) = Some c.
Proof. unfold holding. intros. bool_simp. done. Qed.

Lemma push_off_cpu_noff v : noff (push_off_cpu v) = noff v + 1.
Proof. done. Qed.
Lemma pop_off_cpu_noff v : noff (pop_off_cpu v) = noff v - 1.
Proof. done. Qed.
Lemma pop_off_cpu_sie v :
  sie v = false -> 0 < noff (pop_off_cpu v) -> sie (pop_off_cpu v) = false.
Proof. cbn. intros. cases. Qed.

(** A step after which nobody is responsible for more locks. *)
Lemma lock_inv_shrink w w' :
  lock_inv w ->
  (forall c l, has w' c l -> has w c l) ->
  (forall c l, has w' c l -> locked (hw_locks (hwst w') l) = locked (hw_locks (hwst w) l)) ->
  (forall c l, lk_cpu (hw_locks (hwst w') l) = Some c <-> l ∈ owned w' c) ->
  (forall c, NoDup (owned w' c)) ->
  (forall c l, pcs w' c = Won l \/ pcs w' c = Cleared l -> l ∉ owned w' c) ->
  (forall c, noff (hw_cpus (hwst w') c)
             = Z.of_nat (length (owned w' c)) + in_lock_code (pcs w' c) + pushes w' c) ->
  (forall c, 0 <= pushes w' c) ->
  (forall c, 0 < noff (hw_cpus (hwst w') c) -> sie (hw_cpus (hwst w') c) = false) ->
  lock_inv w'.
Proof.
  intros [H1 H2 H3 H4 H5 H6 H7 H8] Hhas Hlk **; split; eauto.
  intros c l Hc. rewrite (Hlk c) by done. eauto.
Qed.

Lemma lock_inv_acquire s p o u c l :
  p c = Run -> lock_inv (World s p o u) ->
  lock_inv (World (set_cpu c (push_off_cpu (hw_cpus s c)) s) (upd p c (Spinning l)) o u).
Proof.
  intros Hp HI. pose proof HI as [H1 H2 H3 H4 H5 H6 H7 H8]; cbn in *.
  eapply lock_inv_shrink; [exact HI|..]; unfold has; cbn; try done.
  - intros c' l' [?|[?|?]]; upd_cases; auto; done.
  - intros c' l' [?|?]; upd_cases; auto; done.
  - intros c'. specialize (H6 c'). upd_cases; cbn; [rewrite Hp in H6; cbn in H6; lia|done].
  - intros c'. upd_cases; [done|apply H8].
Qed.

Lemma lock_inv_swap_busy s p o u c l :
  p c = Spinning l -> locked (hw_locks s l) <> 0 -> lock_inv (World s p o u) ->
  lock_inv (World (set_lock l (Spinlock 1 (lk_cpu (hw_locks s l))) s) p o u).
Proof.
  intros Hp Hl HI. pose proof HI as [H1 H2 H3 H4 H5 H6 H7 H8]; cbn in *.
  eapply lock_inv_shrink; [exact HI|..]; cbn; try done.
  - intros c' l' H. upd_cases; cbn; [|done]. symmetry. by eapply H2.
  - intros c' l'. upd_cases; cbn; apply H3.
Qed.

Lemma lock_inv_swap s p o u c l :
  p c = Spinning l -> locked (hw_locks s l) = 0 -> lock_inv (World s p o u) ->
  lock_inv (World (set_lock l (Spinlock 1 (lk_cpu (hw_locks s l))) s) (upd p c (Won l)) o u).
Proof.
  intros Hp Hl HI. pose proof HI as [H1 H2 H3 H4 H5 H6 H7 H8]; cbn in *.
  assert (Hfree : forall c', ~ has (World s p o u) c' l).
  { intros c' H. apply H2 in H. lia. }
  assert (Hhas : forall c' l', has (World (set_lock l (Spinlock 1 (lk_cpu (hw_locks s l))) s)
                                     (upd p c (Won l)) o u) c' l' ->
                 has (World s p o u) c' l' \/ (c' = c /\ l' = l)).
  { unfold has; cbn. intros c' l' [?|[?|?]]; upd_cases; simplify_eq; auto. }
  split; cbn.
  - intros c1 c2 l' [Ha|[-> ->]]%Hhas [Hb|[-> Heq]]%Hhas; subst; eauto; by apply Hfree in Ha || apply Hfree in Hb.
  - intros c' l' H%Hhas. upd_cases; [done|]. destruct H as [H|[-> ->]]; [by eapply H2|done].
  - intros c' l'. upd_cases; cbn; apply H3.
  - done.
  - intros c' l' [H|H]; upd_cases; simplify_eq; auto.
    intros Hin. apply (Hfree c). by left.
  - intros c'. specialize (H6 c'). upd_cases; cbn; [rewrite Hp in H6; cbn in H6; lia|done].
  - done.
  - done.
Qed.

Lemma lock_inv_setcpu s p o u c l :
  p c = Won l -> lock_inv (World s p o u) ->
  lock_inv (World (set_lock l (Spinlock (locked (hw_locks s l)) (Some c)) s)
                  (upd p c Run) (upd o c (l :: o c)) u).
Proof.
  intros Hp HI. pose proof HI as [H1 H2 H3 H4 H5 H6 H7 H8]; cbn in *.
  assert (Hc : has (World s p o u) c l) by (right; left; done).
  assert (Hno : forall c', l ∉ o c').
  { intros c' Hin. destruct (decide (c' = c)) as [->|Hne].
    - apply (H5 c l); auto.
    - apply Hne, (H1 c' c l); [by left|done]. }
  eapply lock_inv_shrink; [exact HI|..]; cbn; try done.
  - unfold has; cbn. intros c' l' [H|[H|H]]; upd_cases; try done; auto.
    apply elem_of_cons in H as [->|H]; auto.
  - intros c' l' H. upd_cases; done.
  - intros c' l'. destruct (decide (l' = l)) as [->|Hl]; [rewrite upd_eq|rewrite upd_ne by done]; cbn.
    + upd_cases; [split; [intros; apply elem_of_cons; by left|done]|].
      split; [congruence|]. intros H. by apply Hno in H.
    + rewrite H3. upd_cases; [|done]. rewrite elem_of_cons. split; [auto|]. by intros [?|?].
  - intros c'. upd_cases; [constructor; auto|done].
  - intros c' l' [H|H]; upd_cases; try done; auto.
  - intros c'. specialize (H6 c'). upd_cases; cbn; [rewrite Hp in H6; cbn in H6; lia|done].
Qed.

Lemma lock_inv_release s p o u c l :
  p c = Run -> holding c l s = true -> lock_inv (World s p o u) ->
  lock_inv (World (set_lock l (Spinlock (locked (hw_locks s l)) None) s)
                  (upd p c (Cleared l)) (upd o c (filter (fun x => x <> l) (o c))) u).
Proof.
  intros Hp [Hl Hcpu]%holding_true HI. pose proof HI as [H1 H2 H3 H4 H5 H6 H7 H8]; cbn in *.
  assert (Hown : l ∈ o c) by (by apply H3).
  eapply lock_inv_shrink; [exact HI|..]; cbn; try done.
  - unfold has; cbn. intros c' l' [H|[H|H]]; upd_cases; simplify_eq; auto.
    apply list_elem_of_filter in H as [_ H]. auto.
  - intros c' l' H. upd_cases; done.
  - intros c' l'. destruct (decide (l' = l)) as [->|Hl']; [rewrite upd_eq|rewrite upd_ne by done]; cbn.
    + split; [done|]. upd_cases.
      * intros H. by apply list_elem_of_filter in H as [? _].
      * intros H. exfalso. apply n, (H1 c' c l); by left.
    + rewrite H3. upd_cases; [|done]. rewrite list_elem_of_filter. split; [auto|]. by intros [_ ?].
  - intros c'. upd_cases; [by apply NoDup_filter|done].
  - intros c' l' [H|H]; upd_cases; simplify_eq; auto.
    rewrite list_elem_of_filter. by intros [? _].
  - intros c'. specialize (H6 c'). upd_cases; cbn; [|done]. rewrite Hp in H6; cbn in H6.
    assert (Hlen := filter_ne_length l (o c) (H4 c) Hown). lia.
Qed.

Lemma lock_inv_unlock s p o u c l :
  p c = Cleared l -> lock_inv (World s p o u) ->
  lock_inv (World (set_cpu c (pop_off_cpu (hw_cpus s c))
                     (set_lock l (Spinlock 0 (lk_cpu (hw_locks s l))) s))
                  (upd p c Run) o u).
Proof.
  intros Hp HI. pose proof HI as [H1 H2 H3 H4 H5 H6 H7 H8]; cbn in *.
  assert (Hc : has (World s p o u) c l) by (right; right; done).
  eapply lock_inv_shrink; [exact HI|..]; cbn; try done.
  - unfold has; cbn. intros c' l' [H|[H|H]]; upd_cases; try done; auto.
  - unfold has; cbn. intros c' l' H. destruct (decide (l' = l)) as [->|]; [|by rewrite upd_ne].
    exfalso. assert (Hc' : has (World s p o u) c' l).
    { unfold has; cbn. destruct H as [H|[H|H]]; upd_cases; try done; auto. }
    assert (c' = c) as -> by eauto. rewrite !upd_eq in H.
    destruct H as [H|[H|H]]; try done. apply (H5 c l); auto.
  - intros c' l'. upd_cases; cbn; apply H3.
  - intros c' l' [H|H]; upd_cases; try done; auto.
  - intros c'. specialize (H6 c'). upd_cases; cbn; [rewrite Hp in H6; cbn in H6; lia|done].
  - intros c'. upd_cases; [|apply H8]. apply pop_off_cpu_sie.
    apply H8. specialize (H6 c). rewrite Hp in H6. cbn in H6. specialize (H7 c). lia.
Qed.

Lemma lock_inv_step w w' : step w w' -> lock_inv w -> lock_inv w'.
Proof.
  destruct 1 as [s p o u c Hp|s p o u c Hp Hu|s p o u c Hp Hn|s p o u c Hp
    | | | | | | ];
    eauto using lock_inv_acquire, lock_inv_swap_busy, lock_inv_swap, lock_inv_setcpu,
      lock_inv_release, lock_inv_unlock;
    intros HI; pose proof HI as [H1 H2 H3 H4 H5 H6 H7 H8]; cbn in *;
    pose proof (H6 c) as Hnoff; pose proof (H7 c) as Hpush; rewrite Hp in Hnoff; cbn in Hnoff.
  - apply lock_inv_private; [done| |lia|done]. rewrite Hp. cbn. lia.
  - apply lock_inv_private; [done| |lia|].
    + rewrite Hp. cbn. lia.
    + apply pop_off_cpu_sie. apply H8. lia.
  - eapply lock_inv_ext_pushes; [apply upd_self|].
    apply (lock_inv_private _ _ _ _ (u c) c); [done| |lia|cbn; lia]. rewrite Hp. cbn. lia.
  - eapply lock_inv_ext_pushes; [apply upd_self|].
    apply (lock_inv_private _ _ _ _ (u c) c); [done| |lia|done]. rewrite Hp. cbn. lia.
Qed.

Lemma lock_inv_reachable w : rtc step boot w -> lock_inv w.
Proof.
  apply (rtc_ind_r (fun w => lock_inv w)); [apply lock_inv_boot|].
  intros w1 w2 _ Hst HI. by eapply lock_inv_step.
Qed.

(** ** Part 3: one CPU's view of its locks

    Kernel code is written against this interface: the state of a component
    carries the locks the running CPU holds, latest first. *)

Class HasLocks (S : Type) := {
  held : S -> list lockid;
  set_held : list lockid -> S -> S;
  held_set L s : held (set_held L s) = L;
  set_held_set L L' s : set_held L (set_held L' s) = set_held L s;
  set_held_held s : set_held (held s) s = s
}.

#[export] Program Instance list_locks : HasLocks (list lockid) :=
  {| held := id; set_held := fun L _ => L |}.
Solve Obligations with done.

Definition lock_acquire {S} `{HasLocks S} (l : lockid) : M S unit :=
  fun s => if decide (l ∈ held s) then Panic "acquire"
           else Ok (tt, set_held (l :: held s) s).

Definition lock_release {S} `{HasLocks S} (l : lockid) : M S unit :=
  fun s => if decide (l ∈ held s) then Ok (tt, set_held (filter (fun x => x <> l) (held s)) s)
           else Panic "release".

(** [noff] as the kernel code sees it. *)
Definition lock_depth {S} `{HasLocks S} (s : S) : Z := Z.of_nat (length (held s)).

Section lock_rules.
Context {S : Type} `{HasLocks S}.
Implicit Types s : S.

Lemma wp_lock_acquire l s (Q : unit -> S -> Prop) :
  l ∉ held s -> Q tt (set_held (l :: held s) s) -> wp (lock_acquire l) s Q.
Proof. intros Hl HQ. unfold wp, lock_acquire. by rewrite decide_False. Qed.

Lemma wp_lock_release l s (Q : unit -> S -> Prop) :
  l ∈ held s -> Q tt (set_held (filter (fun x => x <> l) (held s)) s) ->
  wp (lock_release l) s Q.
Proof. intros Hl HQ. unfold wp, lock_release. by rewrite decide_True. Qed.

(** Releasing the lock just taken leaves the others as they were. *)
Lemma held_release_top l s :
  l ∉ held s -> filter (fun x => x <> l) (l :: held s) = held s.
Proof. apply filter_ne_cons_self. Qed.
End lock_rules.

(** [s] is a state of the machine in which CPU [c] holds the locks [L] and
    no other CPU holds any. *)
Record cpu_view (c : nat) (s : hw) (L : list lockid) : Prop := {
  view_nodup : NoDup L;
  view_cpu l : lk_cpu (hw_locks s l) = Some c <-> l ∈ L;
  view_locked l : l ∈ L -> locked (hw_locks s l) = 1;
  view_free l : l ∉ L -> locked (hw_locks s l) = 0;
  view_noff : noff (hw_cpus s c) = lock_depth L;
  view_intr : L <> [] -> sie (hw_cpus s c) = false
}.

Lemma cpu_view_holding c s L l :
  cpu_view c s L -> holding c l s = bool_decide (l ∈ L).
Proof.
  intros [Hd Hc Hl Hf Hn Hi]. unfold holding. destruct (decide (l ∈ L)) as [Hx|Hx].
  - rewrite (bool_decide_eq_true_2 (l ∈ L)) by done. rewrite Hl by done. cbn.
    by apply bool_decide_eq_true_2, Hc.
  - rewrite (bool_decide_eq_false_2 (l ∈ L)) by done. rewrite Hf by done. done.
Qed.

(** The code of [acquire] does on the machine what [lock_acquire] says. *)
Lemma acquire_view c s L l :
  cpu_view c s L ->
  match lock_acquire l L with
  | Ok (_, L') => exists s', acquire c l s = Ok (tt, s') /\ cpu_view c s' L'
  | Panic e => acquire c l s = Panic e
  | _ => False
  end.
Proof.
  intros HV. pose proof HV as [Hd Hc Hl Hf Hn Hi].
  unfold lock_acquire, held; cbn. unfold acquire, push_off, bind, modify, gets.
  assert (Hh : holding c l (set_cpu c (push_off_cpu (hw_cpus s c)) s) = bool_decide (l ∈ L))
    by (by apply (cpu_view_holding c s L l)).
  rewrite Hh. case_decide as Hx.
  - by rewrite bool_decide_eq_true_2.
  - rewrite bool_decide_eq_false_2 by done. cbn. rewrite Hf by done. cbn.
    eexists; split; [done|]. unfold lock_depth, held in *; cbn in *; unfold id in *. split; cbn.
    + by constructor.
    + intros l'. rewrite elem_of_cons. upd_cases; cbn; [tauto|]. rewrite Hc. tauto.
    + intros l'. rewrite elem_of_cons. upd_cases; cbn; [done|]. intros [?|?]; [done|auto].
    + intros l' Hl'. apply not_elem_of_cons in Hl' as [? ?]. rewrite !upd_ne by done. auto.
    + rewrite upd_eq. unfold lock_depth, held. cbn. unfold id. lia.
    + rewrite upd_eq. done.
Qed.

Lemma release_view c s L l :
  cpu_view c s L ->
  match lock_release l L with
  | Ok (_, L') => exists s', release c l s = Ok (tt, s') /\ cpu_view c s' L'
  | Panic e => release c l s = Panic e
  | _ => False
  end.
Proof.
  intros HV. pose proof HV as [Hd Hc Hl Hf Hn Hi].
  unfold lock_release, held; cbn. unfold release, pop_off, bind, modify, gets.
  rewrite (cpu_view_holding c s L l HV). case_decide as Hx.
  - rewrite bool_decide_eq_true_2 by done. cbn.
    assert (HL : L <> []) by (intros ->; by apply not_elem_of_nil in Hx).
    rewrite Hi by done. assert (Hlen := filter_ne_length l L Hd Hx).
    unfold lock_depth, held in *; cbn in *; unfold id in *.
    rewrite (proj2 (Z.ltb_ge _ _)) by lia. eexists; split; [done|]. split; cbn.
    + by apply NoDup_filter.
    + intros l'. rewrite list_elem_of_filter. upd_cases; cbn; [|rewrite Hc; tauto].
      split; [done|tauto].
    + intros l'. rewrite list_elem_of_filter. upd_cases; cbn; [tauto|]. intros [_ ?]. auto.
    + intros l' Hl'. upd_cases; cbn; [done|]. apply Hf. intros Hin. apply Hl'.
      by apply list_elem_of_filter.
    + rewrite upd_eq. unfold lock_depth, held. cbn. unfold id. lia.
    + rewrite upd_eq. intros HL'. apply pop_off_cpu_sie; [by apply Hi|].
      cbn. destruct (filter _ L); [done|]. cbn in Hlen. lia.
  - by rewrite bool_decide_eq_false_2.
Qed.

(** ** Properties of the lock code *)

(** Popping undoes pushing, except for the saved [intena]. *)
Lemma pop_push_cpu v :
  0 <= noff v -> (0 < noff v -> sie v = false) ->
  noff (pop_off_cpu (push_off_cpu v)) = noff v /\ sie (pop_off_cpu (push_off_cpu v)) = sie v.
Proof.
  intros Hn Hs. split; [cbn; lia|]. unfold pop_off_cpu, push_off_cpu. cbn.
  replace (noff v + 1 - 1) with (noff v) by lia.
  destruct (noff v =? 0) eqn:E; cbn; bool_simp.
  - by destruct (sie v).
  - rewrite Hs by lia. done.
Qed.

(** [n] calls of a procedure. *)
Fixpoint times {S} (n : nat) (m : M S unit) : M S unit :=
  match n with O => ret tt | S n' => m >>> times n' m end.

(** Everything but CPU [c]'s own [struct cpu] is the same. *)
Definition same_but_cpu (c : nat) (s s' : hw) : Prop :=
  (forall c', c' <> c -> hw_cpus s' c' = hw_cpus s c') /\ hw_locks s' = hw_locks s.

Lemma same_but_cpu_set c v s0 s : same_but_cpu c s0 s -> same_but_cpu c s0 (set_cpu c v s).
Proof. intros [H1 H2]. split; [|done]. intros c' Hc. cbn. rewrite upd_ne by done. auto. Qed.

Lemma wp_times_push c n s s0 k :
  same_but_cpu c s0 s -> 0 <= noff (hw_cpus s0 c) -> 0 <= k ->
  noff (hw_cpus s c) = noff (hw_cpus s0 c) + k ->
  (0 < noff (hw_cpus s c) -> sie (hw_cpus s c) = false) ->
  (noff (hw_cpus s0 c) = 0 ->
     (if k =? 0 then sie (hw_cpus s c) else intena (hw_cpus s c)) = sie (hw_cpus s0 c)) ->
  wp (times n (push_off c)) s (fun _ s' =>
    same_but_cpu c s0 s' /\ noff (hw_cpus s' c) = noff (hw_cpus s0 c) + k + Z.of_nat n /\
    (0 < noff (hw_cpus s' c) -> sie (hw_cpus s' c) = false) /\
    (noff (hw_cpus s0 c) = 0 ->
       (if k + Z.of_nat n =? 0 then sie (hw_cpus s' c) else intena (hw_cpus s' c))
       = sie (hw_cpus s0 c))).
Proof.
  revert s k; induction n as [|n IH]; intros s k Hsame H0 Hk Hn Hs Hi; cbn [times].
  - wp_steps. rewrite !Z.add_0_r. auto.
  - wp_steps. unfold push_off. wp_steps. eapply wp_mono.
    + apply (IH _ (k + 1)); cbn; rewrite ?upd_eq; cbn; try lia; try done.
      * by apply same_but_cpu_set.
      * intros Hz. specialize (Hi Hz). destruct (k =? 0) eqn:Ek; bool_simp; cases.
    + cbn. intros _ s' (?&?&?&Hz). rewrite Nat2Z.inj_succ.
      split_and!; [done|lia|done|]. by replace (k + Z.succ (Z.of_nat n)) with (k + 1 + Z.of_nat n) by lia.
Qed.

Lemma wp_times_pop c n s s0 :
  same_but_cpu c s0 s -> 0 <= noff (hw_cpus s0 c) ->
  noff (hw_cpus s c) = noff (hw_cpus s0 c) + Z.of_nat n ->
  (0 < noff (hw_cpus s c) -> sie (hw_cpus s c) = false) ->
  (noff (hw_cpus s0 c) = 0 ->
     (if Z.of_nat n =? 0 then sie (hw_cpus s c) else intena (hw_cpus s c)) = sie (hw_cpus s0 c)) ->
  wp (times n (pop_off c)) s (fun _ s' =>
    same_but_cpu c s0 s' /\ noff (hw_cpus s' c) = noff (hw_cpus s0 c) /\
    (noff (hw_cpus s0 c) = 0 -> sie (hw_cpus s' c) = sie (hw_cpus s0 c)) /\
    (0 < noff (hw_cpus s0 c) -> sie (hw_cpus s' c) = false)).
Proof.
  revert s; induction n as [|n IH]; intros s Hsame H0 Hn Hs Hi; cbn [times].
  - wp_steps. cbn in Hi. split_and!; auto; [lia|]. intros. apply Hs. lia.
  - wp_steps. unfold pop_off. wp_steps. rewrite Hs by lia.
    rewrite (proj2 (Z.ltb_ge _ _)) by lia. wp_steps.
    apply IH; cbn; rewrite ?upd_eq; cbn; auto using same_but_cpu_set.
    + lia.
    + intros. rewrite (proj2 (Z.eqb_neq _ _)) by lia. cbn. apply Hs. lia.
    + intros Hz. specialize (Hi Hz). rewrite (proj2 (Z.eqb_neq (Z.of_nat (S n)) 0)) in Hi by lia.
      rewrite Hi. replace (noff (hw_cpus s c) - 1) with (Z.of_nat n) by lia.
      rewrite (Hs ltac:(lia)). by destruct (Z.of_nat n =? 0), (sie (hw_cpus s0 c)).
Qed.


(** A CPU that owns a spin lock has interrupts disabled, and [holding]
    answers exactly whether it owns the lock. *)
Theorem spinlock_intr_off w c l :
  rtc step boot w -> l ∈ owned w c ->
  sie (hw_cpus (hwst w) c) = false /\ holding c l (hwst w) = true.
Proof.
  intros HI%lock_inv_reachable Hl. destruct HI as [H1 H2 H3 H4 H5 H6 H7 H8]. split.
  - apply H8. rewrite H6. specialize (H7 c). unfold in_lock_code.
    destruct (owned w c); [by apply not_elem_of_nil in Hl|]. cbn. destruct (pcs w c); lia.
  - unfold holding. rewrite (H2 c l) by (by left). cbn. by apply bool_decide_eq_true_2, H3.
Qed.

(** [push_off] and [pop_off] nest: [n] of one then [n] of the other
    never panic and restore the interrupt state and the nesting depth. *)
Theorem push_pop_nest c n s :
  0 <= noff (hw_cpus s c) -> (0 < noff (hw_cpus s c) -> sie (hw_cpus s c) = false) ->
  wp (times n (push_off c) >>> times n (pop_off c)) s (fun _ s' =>
    noff (hw_cpus s' c) = noff (hw_cpus s c) /\ sie (hw_cpus s' c) = sie (hw_cpus s c) /\
    (forall c', c' <> c -> hw_cpus s' c' = hw_cpus s c') /\ hw_locks s' = hw_locks s).
Proof.
  intros Hn Hs. apply wp_bind. eapply wp_mono.
  - apply (wp_times_push c n s s 0); auto; [by split|lia..].
  - cbn. intros _ s' (Hsame & Hnoff & Hs' & Hz). eapply wp_mono.
    + apply (wp_times_pop c n s' s); auto. lia.
    + cbn. intros _ s'' ([? ?] & ? & ? & Hp). split_and!; auto.
      destruct (decide (noff (hw_cpus s c) = 0)); [auto|]. rewrite Hp, Hs by lia. done.
Qed.

(** Refinement: on a machine state where CPU [c] holds exactly the locks
    [L], the code of [acquire] and [release] returns, panics and updates
    [struct spinlock] and [struct cpu] exactly as the abstract lock set says. *)
Theorem lock_code_refines c s L l :
  cpu_view c s L ->
  match lock_acquire l L with
  | Ok (_, L') => exists s', acquire c l s = Ok (tt, s') /\ cpu_view c s' L'
  | Panic e => acquire c l s = Panic e
  | _ => False
  end /\
  match lock_release l L with
  | Ok (_, L') => exists s', release c l s = Ok (tt, s') /\ cpu_view c s' L'
  | Panic e => release c l s = Panic e
  | _ => False
  end.
Proof. intros HV. split; [by apply acquire_view|by apply release_view]. Qed.

(** *** Witnesses *)

(** CPU 0 takes [kmem.lock]. *)
Definition boot_locked : world :=
  World (set_lock KmemLock (Spinlock 1 (Some 0%nat))
          (set_lock KmemLock (Spinlock 1 None)
             (set_cpu 0 (Cpu 1 false false) (hwst boot))))
        (upd (upd (upd (fun _ => Run) 0%nat (Spinning KmemLock)) 0%nat (Won KmemLock)) 0%nat Run)
        (upd (fun _ => []) 0%nat [KmemLock]) (fun _ => 0).

Lemma boot_locked_reachable : rtc step boot boot_locked.
Proof.
  eapply rtc_l; [by apply (step_acquire _ _ _ _ 0%nat KmemLock)|].
  eapply rtc_l; [by apply (step_swap _ _ _ _ 0%nat KmemLock)|].
  eapply rtc_l; [by apply (step_setcpu _ _ _ _ 0%nat KmemLock)|].
  apply rtc_refl.
Qed.


Lemma spinlock_intr_off_witness :
  sie (hw_cpus (hwst boot_locked) 0) = false /\ holding 0 KmemLock (hwst boot_locked) = true.
Proof.
  apply (spinlock_intr_off boot_locked 0 KmemLock boot_locked_reachable).
  apply elem_of_cons. by left.
Defined.

Lemma push_pop_nest_witness :
  wp (times 3 (push_off 0) >>> times 3 (pop_off 0))
     (Hw (fun _ => Spinlock 0 None) (fun _ => Cpu 0 false true))
     (fun _ s' => noff (hw_cpus s' 0) = 0 /\ sie (hw_cpus s' 0) = true).
Proof.
  eapply wp_mono.
  - apply (push_pop_nest 0 3 (Hw (fun _ => Spinlock 0 None) (fun _ => Cpu 0 false true)));
      cbn; lia.
  - cbn. tauto.
Defined.

Lemma boot_view : cpu_view 0 (hwst boot) [].
Proof.
  split; cbn; try done.
  - apply NoDup_nil_2.
  - intros l. split; [done|]. intros H. by apply not_elem_of_nil in H.
  - intros l H. by apply not_elem_of_nil in H.
Qed.

Lemma lock_code_refines_witness :
  exists s', acquire 0 KmemLock (hwst boot) = Ok (tt, s') /\ cpu_view 0 s' [KmemLock].
Proof. exact (proj1 (lock_code_refines 0 (hwst boot) [] KmemLock boot_view)). Defined.
