(* ===== verification/Riscv.v ===== *)
(** * Constants and address arithmetic: riscv.h, memlayout.h, param.h

    The macros on 64-bit addresses and page-table entries, with the lemmas
    that relate the bit operations to arithmetic. *)

From S2P Require Import Prelude.

(** riscv.h *)
Definition PGSIZE : Z := 4096.
Definition PGSHIFT : Z := 12.
Definition PGROUNDUP (sz : Z) : Z := Z.land (u64 (sz + PGSIZE - 1)) (Z.lnot (PGSIZE - 1)).
Definition PGROUNDDOWN (a : Z) : Z := Z.land a (Z.lnot (PGSIZE - 1)).

Definition PTE_V : Z := Z.shiftl 1 0.
Definition PTE_R : Z := Z.shiftl 1 1.
Definition PTE_W : Z := Z.shiftl 1 2.
Definition PTE_X : Z := Z.shiftl 1 3.
Definition PTE_U : Z := Z.shiftl 1 4.

Definition PA2PTE (pa : Z) : Z := u64 (Z.shiftl (Z.shiftr pa 12) 10).
Definition PTE2PA (pte : Z) : Z := u64 (Z.shiftl (Z.shiftr pte 10) 12).
Definition PTE_FLAGS (pte : Z) : Z := Z.land pte 0x3FF.

Definition PXMASK : Z := 0x1FF.
Definition PXSHIFT (level : Z) : Z := PGSHIFT + 9 * level.
Definition PX (level va : Z) : Z := Z.land (Z.shiftr va (PXSHIFT level)) PXMASK.

Definition MAXVA : Z := Z.shiftl 1 (9 + 9 + 9 + 12 - 1).

(** memlayout.h *)
Definition KERNBASE : Z := 0x80000000.
Definition PHYSTOP : Z := KERNBASE + 128 * 1024 * 1024.
Definition TRAMPOLINE : Z := MAXVA - PGSIZE.
Definition KSTACK (p : Z) : Z := TRAMPOLINE - (p + 1) * 2 * PGSIZE.
Definition TRAPFRAME : Z := TRAMPOLINE - PGSIZE.

(** param.h *)
Definition NPROC : nat := 64.
Definition NOFILE : nat := 16.
Definition NFILE : nat := 100.
Definition NDEV : Z := 10.
Definition MAXARG : nat := 32.
Definition MAXOPBLOCKS : Z := 10.
Definition LOGBLOCKS : Z := MAXOPBLOCKS * 3.
Definition NBUF : nat := 30.

(** A flag test [pte & f]. *)
Definition has_flag (pte f : Z) : bool := negb (Z.land pte f =? 0).

(** ** Arithmetic readings *)

Lemma land_lnot_page a : Z.land a (Z.lnot (PGSIZE - 1)) = a - a mod PGSIZE.
Proof.
  change (PGSIZE - 1) with (Z.ones 12). rewrite <- Z.ldiff_land.
  rewrite Z.ldiff_ones_r by lia. rewrite Z.shiftr_div_pow2, Z.shiftl_mul_pow2 by lia.
  change PGSIZE with (2 ^ 12). dlia.
Qed.

Lemma PGROUNDDOWN_eq a : PGROUNDDOWN a = a - a mod PGSIZE.
Proof. apply land_lnot_page. Qed.

Lemma PGROUNDUP_eq a :
  0 <= a -> a + PGSIZE <= 2 ^ 64 -> PGROUNDUP a = (a + 4095) / 4096 * 4096.
Proof.
  intros H1 H2. unfold PGROUNDUP. rewrite land_lnot_page. unfold PGSIZE in *.
  rewrite u64_id by lia. dlia.
Qed.

Lemma PGROUNDDOWN_aligned a : PGROUNDDOWN a mod PGSIZE = 0.
Proof. rewrite PGROUNDDOWN_eq. unfold PGSIZE. dlia. Qed.

Lemma PGROUNDDOWN_bounds a : PGROUNDDOWN a <= a < PGROUNDDOWN a + PGSIZE.
Proof. rewrite PGROUNDDOWN_eq. unfold PGSIZE. dlia. Qed.

Lemma PGROUNDDOWN_id a : a mod PGSIZE = 0 -> PGROUNDDOWN a = a.
Proof. rewrite PGROUNDDOWN_eq. lia. Qed.

Lemma PX_eq level va : 0 <= level -> PX level va = va / 2 ^ (12 + 9 * level) mod 512.
Proof.
  intros. unfold PX, PXSHIFT, PGSHIFT, PXMASK. change 0x1FF with (Z.ones 9).
  rewrite Z.land_ones by lia. rewrite Z.shiftr_div_pow2 by lia. done.
Qed.

Lemma PX_range level va : 0 <= level -> 0 <= PX level va < 512.
Proof. intros. rewrite PX_eq by done. dlia. Qed.

(** The three indices determine the page of an address. *)
Lemma PX_inj va va' :
  0 <= va < 2 ^ 39 -> 0 <= va' < 2 ^ 39 ->
  va mod PGSIZE = 0 -> va' mod PGSIZE = 0 ->
  PX 2 va = PX 2 va' -> PX 1 va = PX 1 va' -> PX 0 va = PX 0 va' -> va = va'.
Proof.
  intros H1 H2 H3 H4 E2 E1 E0. rewrite !PX_eq in * by lia.
  unfold PGSIZE in *.
  change (12 + 9 * 2) with 30 in *. change (12 + 9 * 1) with 21 in *.
  change (12 + 9 * 0) with 12 in *.
  change (2 ^ 30) with 1073741824 in *. change (2 ^ 21) with 2097152 in *.
  change (2 ^ 12) with 4096 in *. change (2 ^ 39) with 549755813888 in *.
  dlia.
Qed.

Lemma lor_low a f n : 0 <= n -> 0 <= f < 2 ^ n -> Z.lor (Z.shiftl a n) f = a * 2 ^ n + f.
Proof.
  intros Hn Hf. rewrite <- Z.shiftl_mul_pow2 by done.
  assert (Hand : Z.land (Z.shiftl a n) f = 0).
  { apply Z.bits_inj'. intros i Hi. rewrite Z.land_spec, Z.bits_0.
    destruct (decide (i < n)) as [Hlt|Hge].
    - rewrite Z.shiftl_spec_low by done. done.
    - rewrite <- (Z.mod_small f (2 ^ n)) by done. rewrite Z.mod_pow2_bits_high by lia.
      by rewrite andb_false_r. }
  rewrite <- Z.lxor_lor by done. by rewrite <- Z.add_nocarry_lxor.
Qed.

Lemma PA2PTE_eq pa : 0 <= pa < 2 ^ 56 -> PA2PTE pa = Z.shiftl (pa / 4096) 10.
Proof.
  intros. unfold PA2PTE. rewrite Z.shiftr_div_pow2 by lia. apply u64_id.
  rewrite Z.shiftl_mul_pow2 by lia. change (2 ^ 12) with 4096. change (2 ^ 10) with 1024. dlia.
Qed.

(** Building a PTE and taking it apart. *)
Lemma PTE2PA_mk pa f :
  0 <= pa < 2 ^ 56 -> pa mod PGSIZE = 0 -> 0 <= f < 1024 ->
  PTE2PA (Z.lor (PA2PTE pa) f) = pa.
Proof.
  intros. unfold PTE2PA, PGSIZE in *. rewrite PA2PTE_eq by done.
  rewrite lor_low by (change (2 ^ 10) with 1024; lia).
  rewrite Z.shiftr_div_pow2, Z.shiftl_mul_pow2 by lia.
  change (2 ^ 10) with 1024. change (2 ^ 12) with 4096.
  rewrite u64_id; dlia.
Qed.

Lemma PTE_FLAGS_mk pa f :
  0 <= pa < 2 ^ 56 -> 0 <= f < 1024 -> PTE_FLAGS (Z.lor (PA2PTE pa) f) = f.
Proof.
  intros. unfold PTE_FLAGS. rewrite PA2PTE_eq by done.
  rewrite lor_low by (change (2 ^ 10) with 1024; lia).
  change 0x3FF with (Z.ones 10). rewrite Z.land_ones by lia.
  change (2 ^ 10) with 1024. dlia.
Qed.

Lemma PTE_mk_range pa f :
  0 <= pa < 2 ^ 56 -> 0 <= f < 1024 -> 0 <= Z.lor (PA2PTE pa) f < 2 ^ 64.
Proof.
  intros. rewrite PA2PTE_eq by done. rewrite lor_low by (change (2 ^ 10) with 1024; lia).
  change (2 ^ 10) with 1024. dlia.
Qed.

Lemma has_flag_bit pte n : 0 <= n -> has_flag pte (Z.shiftl 1 n) = Z.testbit pte n.
Proof.
  intros Hn. unfold has_flag. rewrite Z.shiftl_1_l.
  destruct (Z.testbit pte n) eqn:E.
  - apply negb_true_iff, Z.eqb_neq. intros H0.
    assert (Hb := f_equal (fun x => Z.testbit x n) H0). cbn in Hb.
    rewrite Z.land_spec, Z.pow2_bits_true, E, Z.bits_0 in Hb by done. done.
  - apply negb_false_iff, Z.eqb_eq. apply Z.bits_inj'. intros i Hi.
    rewrite Z.land_spec, Z.bits_0. destruct (decide (i = n)) as [->|].
    + by rewrite E.
    + rewrite Z.pow2_bits_false by lia. apply andb_false_r.
Qed.

Lemma has_flag_flags pte n : 0 <= n < 10 -> has_flag (PTE_FLAGS pte) (Z.shiftl 1 n) = has_flag pte (Z.shiftl 1 n).
Proof.
  intros Hn. rewrite !has_flag_bit by lia. unfold PTE_FLAGS. change 0x3FF with (Z.ones 10).
  rewrite Z.land_spec, Z.ones_spec_low by lia. apply andb_true_r.
Qed.

Lemma has_flag_mk pa f n :
  0 <= pa < 2 ^ 56 -> 0 <= f < 1024 -> 0 <= n < 10 ->
  has_flag (Z.lor (PA2PTE pa) f) (Z.shiftl 1 n) = has_flag f (Z.shiftl 1 n).
Proof. intros. by rewrite <- has_flag_flags, PTE_FLAGS_mk by lia. Qed.

Lemma has_flag_0 f : has_flag 0 f = false.
Proof. done. Qed.

Lemma has_V_mk pa f :
  0 <= pa < 2 ^ 56 -> 0 <= f < 1024 -> has_flag (Z.lor (PA2PTE pa) f) PTE_V = has_flag f PTE_V.
Proof. intros. apply (has_flag_mk pa f 0); lia. Qed.

Lemma has_U_mk pa f :
  0 <= pa < 2 ^ 56 -> 0 <= f < 1024 -> has_flag (Z.lor (PA2PTE pa) f) PTE_U = has_flag f PTE_U.
Proof. intros. apply (has_flag_mk pa f 4); lia. Qed.

Lemma has_W_mk pa f :
  0 <= pa < 2 ^ 56 -> 0 <= f < 1024 -> has_flag (Z.lor (PA2PTE pa) f) PTE_W = has_flag f PTE_W.
Proof. intros. apply (has_flag_mk pa f 2); lia. Qed.

Lemma PTE_V_range : 0 <= PTE_V < 1024.
Proof. by vm_compute. Qed.

(** Permission bits stay below the page number. *)
Lemma lor_range f g : 0 <= f < 1024 -> 0 <= g < 1024 -> 0 <= Z.lor f g < 1024.
Proof.
  intros Hf Hg. split; [apply Z.lor_nonneg; lia|].
  assert (Hb : Z.lor f g = Z.lor f g mod 2 ^ 10).
  { apply Z.bits_inj'. intros i Hi. destruct (decide (i < 10)) as [Hlt|Hge].
    - by rewrite Z.mod_pow2_bits_low.
    - rewrite Z.mod_pow2_bits_high by lia. rewrite Z.lor_spec.
      rewrite <- (Z.mod_small f (2 ^ 10)), <- (Z.mod_small g (2 ^ 10)) by done.
      by rewrite !Z.mod_pow2_bits_high by lia. }
  rewrite Hb. change 1024 with (2 ^ 10). apply Z.mod_pos_bound. done.
Qed.

Lemma has_V_lor f : 0 <= f -> has_flag (Z.lor f PTE_V) PTE_V = true.
Proof.
  intros. unfold PTE_V at 2. rewrite has_flag_bit by lia. rewrite Z.lor_spec. cbn.
  apply orb_true_r.
Qed.
