(* ===== verification/Kalloc.v ===== *)
(** * The physical page allocator: kernel/kalloc.c

    Free pages form a linked list threaded through the pages themselves:
    [r->next] is the first word of page [r].  [fl_rep] relates that list in
    memory to a Rocq list of page addresses; the theorems state what
    [kinit], [kalloc] and [kfree] do to the list and to memory. *)

From S2P Require Import Prelude Memory Spinlock Riscv.

(** Addresses the linker fixes (kernel.ld): [end], the first address after
    the kernel, the page-aligned trampoline page below it, and the code of
    [forkret]. *)
Class LinkerSyms := {
  sym_end : Z;
  sym_trampoline : Z;
  sym_forkret : Z;
  sym_end_range : KERNBASE < sym_end <= PHYSTOP;
  sym_trampoline_aligned : sym_trampoline mod PGSIZE = 0;
  sym_trampoline_range : KERNBASE <= sym_trampoline /\ sym_trampoline + PGSIZE <= sym_end
}.

(** RAM, [kmem.freelist], and the locks this CPU holds. *)
Record machine := Machine { mem : memory; freelist : Z; mheld : list lockid }.

Definition set_mem (m : memory) (s : machine) : machine := Machine m (freelist s) (mheld s).
Definition set_freelist (r : Z) (s : machine) : machine := Machine (mem s) r (mheld s).

#[export] Program Instance machine_locks : HasLocks machine :=
  {| held := mheld; set_held := fun L s => Machine (mem s) (freelist s) L |}.
Next Obligation. done. Qed.
Next Obligation. done. Qed.
Next Obligation. by intros []. Qed.

Section kalloc.
Context `{LinkerSyms}.

Definition is_valid_pa (pa : Z) : bool :=
  (pa mod PGSIZE =? 0) && (sym_end <=? pa) && (pa <? PHYSTOP).

Definition freelist_push (r : Z) : M machine unit :=
  modify (fun s => set_mem (st64 (mem s) r (freelist s)) s) >>>
  modify (set_freelist r).

Definition freelist_pop : M machine Z :=
  r <- gets freelist ;;
  if negb (r =? 0) then modify (fun s => set_freelist (ld64 (mem s) r) s) >>> ret r
  else ret r.

Definition kfree (pa : Z) : M machine unit :=
  if negb (is_valid_pa pa) then panic "kfree"
  else
    modify (fun s => set_mem (memset (mem s) pa 1 PGSIZE) s) >>>
    lock_acquire KmemLock >>>
    freelist_push pa >>>
    lock_release KmemLock.

Definition kalloc : M machine Z :=
  lock_acquire KmemLock >>>
  r <- freelist_pop ;;
  lock_release KmemLock >>>
  (if negb (r =? 0) then modify (fun s => set_mem (memset (mem s) r 5 PGSIZE) s) else ret tt) >>>
  ret r.

Definition freerange (pa_start pa_end : Z) : M machine unit :=
  loop (Z.to_nat (pa_end / PGSIZE + 2))
    (fun p =>
       if p + PGSIZE <=? pa_end then kfree p >>> ret (inl (p + PGSIZE)) else ret (inr tt))
    (PGROUNDUP pa_start).

Definition kinit : M machine unit :=
  modify (fun s => set_held (filter (fun x => x <> KmemLock) (held s)) s) >>>
  freerange sym_end PHYSTOP.

(** ** The free list in memory *)

Fixpoint fl_rep (m : memory) (h : Z) (l : list Z) : Prop :=
  match l with
  | [] => h = 0
  | p :: l' => h = p /\ fl_rep m (ld64 m p) l'
  end.

Definition page_disjoint (p q : Z) : Prop := p + PGSIZE <= q \/ q + PGSIZE <= p.

Lemma page_disjoint_ne p q :
  p mod PGSIZE = 0 -> q mod PGSIZE = 0 -> p <> q -> page_disjoint p q.
Proof. unfold page_disjoint, PGSIZE. intros. dlia. Qed.

(** The allocator's invariant: [l] are the free pages, in list order. *)
Record kmem_inv (s : machine) (l : list Z) : Prop := {
  km_bytes : bytes_ok (mem s);
  km_rep : fl_rep (mem s) (freelist s) l;
  km_nodup : NoDup l;
  km_valid : Forall (fun p => is_valid_pa p = true) l;
  km_lock : KmemLock ∉ mheld s
}.

(** [m'] is [m] outside the page [p]. *)
Definition mem_frame (p : Z) (m m' : memory) : Prop :=
  forall x, x < p \/ p + PGSIZE <= x -> m' x = m x.

Lemma is_valid_pa_spec p :
  is_valid_pa p = true <-> p mod PGSIZE = 0 /\ sym_end <= p < PHYSTOP.
Proof.
  unfold is_valid_pa. split; intros Hp.
  - bool_simp. auto.
  - destruct Hp as (? & ? & ?). apply andb_true_iff; split; [apply andb_true_iff; split|].
    + by apply Z.eqb_eq.
    + by apply Z.leb_le.
    + by apply Z.ltb_lt.
Qed.

Lemma is_valid_pa_pos p : is_valid_pa p = true -> 0 < p < 2 ^ 56.
Proof.
  intros Hp%is_valid_pa_spec. pose proof sym_end_range.
  unfold PHYSTOP, KERNBASE in *. lia.
Qed.

Lemma valid_disjoint p q :
  is_valid_pa p = true -> is_valid_pa q = true -> p <> q -> page_disjoint p q.
Proof. intros [? _]%is_valid_pa_spec [? _]%is_valid_pa_spec. by apply page_disjoint_ne. Qed.

Lemma fl_rep_frame m m' p h l :
  fl_rep m h l -> mem_frame p m m' -> is_valid_pa p = true ->
  Forall (fun q => is_valid_pa q = true) l -> p ∉ l -> fl_rep m' h l.
Proof.
  intros Hrep Hf Hp. revert h Hrep; induction l as [|q l IH]; intros h Hrep Hv Hn; [done|].
  destruct Hrep as [-> Hrep]. apply Forall_cons in Hv as [Hq Hv].
  apply not_elem_of_cons in Hn as [Hne Hn]. split; [done|].
  rewrite (ld_agree 8 m m' q); [by apply IH|].
  intros x Hx. apply Hf. destruct (valid_disjoint p q Hp Hq Hne); unfold PGSIZE in *; lia.
Qed.

(** ** Behaviour of the operations *)

Lemma kfree_spec s l pa :
  kmem_inv s l -> is_valid_pa pa = true -> pa ∉ l ->
  wp (kfree pa) s (fun _ s' =>
    kmem_inv s' (pa :: l) /\ mem_frame pa (mem s) (mem s') /\ mheld s' = mheld s).
Proof.
  intros [Hb Hrep Hnd Hv Hlk] Hpa Hnl. unfold kfree. rewrite Hpa. cbn [negb].
  pose proof (is_valid_pa_pos pa Hpa) as Hpos.
  assert (Hf : mem_frame pa (mem s) (st64 (memset (mem s) pa 1 PGSIZE) pa (freelist s))).
  { intros x Hx. unfold PGSIZE in *. rewrite st_other, memset_out by lia. done. }
  assert (Hfl : 0 <= freelist s < 2 ^ 64).
  { destruct l as [|q l]; cbn in Hrep; [subst; lia|]. destruct Hrep as [-> _].
    apply Forall_cons in Hv as [Hq _]. apply is_valid_pa_pos in Hq. lia. }
  wp_steps. apply wp_lock_acquire; [done|]. wp_steps. unfold freelist_push. wp_steps.
  apply wp_lock_release; [cbn; apply elem_of_cons; by left|].
  cbn [held set_held machine_locks mem freelist mheld set_mem set_freelist].
  rewrite filter_ne_cons_self by done. split_and!; [split; cbn|done..].
  - auto with wp.
  - split; [done|]. rewrite ld64_st64 by done. by eapply fl_rep_frame.
  - by constructor.
  - by constructor.
  - done.
Qed.

Lemma kfree_invalid s pa : is_valid_pa pa = false -> kfree pa s = Panic "kfree".
Proof. intros Hp. unfold kfree. by rewrite Hp. Qed.

Lemma fl_rep_unique m l : forall h l', fl_rep m h l -> fl_rep m h l' -> Forall (fun p => is_valid_pa p = true) l ->
  Forall (fun p => is_valid_pa p = true) l' -> l = l'.
Proof.
  induction l as [|p l IH]; intros h [|p' l'] H1 H2 V1 V2; cbn in *; [done|..].
  - destruct H2 as [-> _]. apply Forall_cons in V2 as [V2 _]. apply is_valid_pa_pos in V2. lia.
  - destruct H1 as [-> _]. apply Forall_cons in V1 as [V1 _]. apply is_valid_pa_pos in V1. lia.
  - destruct H1 as [-> H1], H2 as [-> H2]. apply Forall_cons in V1 as [_ V1], V2 as [_ V2]. f_equal. by eapply IH.
Qed.

(** The free pages are those of the list in memory. *)
Lemma kmem_unique s l l' : kmem_inv s l -> kmem_inv s l' -> l = l'.
Proof. intros [_ R1 _ V1 _] [_ R2 _ V2 _]. by eapply fl_rep_unique. Qed.

Lemma kalloc_cons s p l :
  kmem_inv s (p :: l) ->
  wp kalloc s (fun r s' =>
    r = p /\ kmem_inv s' l /\ mem_frame p (mem s) (mem s') /\ mheld s' = mheld s /\
    (forall x, p <= x < p + PGSIZE -> mem s' x = 5)).
Proof.
  intros [Hb Hrep Hnd Hv Hlk]. destruct Hrep as [Hh Hrep].
  apply Forall_cons in Hv as [Hp Hv]. apply NoDup_cons in Hnd as [Hnp Hnd].
  pose proof (is_valid_pa_pos p Hp) as Hpos.
  unfold kalloc. wp_steps. apply wp_lock_acquire; [done|].
  unfold freelist_pop. wp_steps. cbn [freelist set_held machine_locks]. rewrite Hh.
  rewrite (proj2 (Z.eqb_neq p 0)) by lia. cbn [negb]. wp_steps.
  apply wp_lock_release; [cbn; apply elem_of_cons; by left|]. wp_steps.
  rewrite (proj2 (Z.eqb_neq p 0)) by lia. cbn [negb]. wp_steps.
  cbn [held set_held machine_locks mem freelist mheld set_mem set_freelist].
  rewrite filter_ne_cons_self by done.
  assert (Hf : mem_frame p (mem s) (memset (mem s) p 5 PGSIZE)).
  { intros x Hx. by apply memset_out. }
  split_and!; [done|split; cbn|done|done|].
  - auto with wp.
  - by eapply fl_rep_frame.
  - done.
  - done.
  - done.
  - intros x Hx. by rewrite memset_in.
Qed.

Lemma kalloc_nil s : kmem_inv s [] -> wp kalloc s (fun r s' => r = 0 /\ s' = s).
Proof.
  intros [Hb Hrep Hnd Hv Hlk]. cbn in Hrep. unfold kalloc. wp_steps.
  apply wp_lock_acquire; [done|]. unfold freelist_pop. wp_steps.
  cbn [freelist set_held machine_locks]. rewrite Hrep. cbn [Z.eqb negb]. wp_steps.
  apply wp_lock_release; [cbn; apply elem_of_cons; by left|]. wp_steps.
  split; [done|]. cbn [held set_held machine_locks mem freelist mheld].
  rewrite filter_ne_cons_self by done. destruct s; cbn in *. by subst.
Qed.

(** Both cases in one rule, for the callers that test the result for 0. *)
Lemma kalloc_spec s l (Q : Z -> machine -> Prop) :
  kmem_inv s l ->
  (l = [] -> Q 0 s) ->
  (forall p l' s', l = p :: l' -> p <> 0 -> is_valid_pa p = true -> p ∉ l' ->
     kmem_inv s' l' -> mem_frame p (mem s) (mem s') -> mheld s' = mheld s ->
     (forall x, p <= x < p + PGSIZE -> mem s' x = 5) -> Q p s') ->
  wp kalloc s Q.
Proof.
  intros Hs Hnil Hcons. destruct l as [|p l].
  - eapply wp_mono; [by apply kalloc_nil|]. intros r s' [-> ->]. auto.
  - eapply wp_mono; [by apply kalloc_cons|]. intros r s' (-> & ? & ? & ? & ?).
    pose proof (km_valid _ _ Hs) as Hv. pose proof (km_nodup _ _ Hs) as Hd.
    apply Forall_cons in Hv as [Hv _]. apply NoDup_cons in Hd as [Hd _].
    pose proof (is_valid_pa_pos p Hv). eapply Hcons; eauto. lia.
Qed.

(** Writing a page that is not free keeps the invariant. *)
Lemma kmem_inv_write s l q m' :
  kmem_inv s l -> mem_frame q (mem s) m' -> is_valid_pa q = true -> q ∉ l -> bytes_ok m' ->
  kmem_inv (set_mem m' s) l.
Proof.
  intros [Hb Hrep Hnd Hval Hlk] Hf Hq Hl Hb'. split; cbn; auto. by eapply fl_rep_frame.
Qed.

(** The [n] pages from [a] on. *)
Fixpoint pages (a : Z) (n : nat) : list Z :=
  match n with O => [] | S n' => a :: pages (a + PGSIZE) n' end.

Lemma elem_of_pages a n p :
  p ∈ pages a n <-> a <= p < a + Z.of_nat n * PGSIZE /\ (p - a) mod PGSIZE = 0.
Proof.
  revert a; induction n as [|n IH]; intros a; cbn [pages].
  - rewrite elem_of_nil. lia.
  - rewrite elem_of_cons, IH. unfold PGSIZE. rewrite Nat2Z.inj_succ.
    split; intros Hp; [destruct Hp as [->|Hp]|]; dlia.
Qed.

(** [freerange] frees the [n] whole pages of its range, lowest first. *)
Lemma freerange_spec n a pa_end s l :
  kmem_inv s l -> a mod PGSIZE = 0 -> sym_end <= a ->
  a + Z.of_nat n * PGSIZE <= pa_end < a + Z.of_nat n * PGSIZE + PGSIZE -> pa_end <= PHYSTOP ->
  (forall p, p ∈ pages a n -> p ∉ l) ->
  forall fuel, (n < fuel)%nat ->
  wp (loop fuel
       (fun p => if p + PGSIZE <=? pa_end then kfree p >>> ret (inl (p + PGSIZE))
                 else ret (inr tt)) a) s
     (fun _ s' => kmem_inv s' (reverse (pages a n) ++ l) /\ mheld s' = mheld s).
Proof.
  revert a s l; induction n as [|n IH]; intros a s l Hs Ha Hend Hr Hstop Hdis fuel Hfuel.
  - destruct fuel as [|f]; [lia|]. cbn [loop]. rewrite (proj2 (Z.leb_gt _ _)) by lia. wp_steps.
    auto.
  - destruct fuel as [|f]; [lia|]. cbn [loop]. unfold PGSIZE in Hr.
    rewrite (proj2 (Z.leb_le _ _)) by (unfold PGSIZE; lia). wp_steps.
    eapply wp_mono; [apply kfree_spec; [exact Hs| |]|].
    + apply is_valid_pa_spec. split; [done|]. lia.
    + apply Hdis. cbn. apply elem_of_cons. by left.
    + intros _ s1 (Hs1 & _ & Hh). wp_steps. eapply wp_mono.
      * apply (IH (a + PGSIZE) s1 (a :: l)); try done; unfold PGSIZE in *; try lia.
        -- dlia.
        -- intros p Hp. apply not_elem_of_cons. split.
           ++ apply elem_of_pages in Hp as [Hp _]. unfold PGSIZE in Hp. lia.
           ++ apply Hdis. cbn. apply elem_of_cons. by right.
      * intros _ s2 [Hs2 Hh2]. cbn [pages]. rewrite reverse_cons, <- app_assoc.
        split; [done|congruence].
Qed.

(** The pages between [end] and [PHYSTOP]. *)
Definition boot_pages : list Z :=
  pages (PGROUNDUP sym_end) (Z.to_nat ((PHYSTOP - PGROUNDUP sym_end) / PGSIZE)).

Lemma sym_end_up : PGROUNDUP sym_end = (sym_end + 4095) / 4096 * 4096.
Proof.
  pose proof sym_end_range. unfold PHYSTOP, KERNBASE in *.
  apply PGROUNDUP_eq; unfold PGSIZE; lia.
Qed.

Lemma elem_of_boot_pages p : p ∈ boot_pages <-> is_valid_pa p = true.
Proof.
  unfold boot_pages. rewrite elem_of_pages, is_valid_pa_spec, sym_end_up.
  pose proof sym_end_range. unfold PGSIZE, PHYSTOP, KERNBASE in *.
  rewrite Z2Nat.id by dlia. dlia.
Qed.

Lemma kinit_spec s :
  bytes_ok (mem s) -> freelist s = 0 ->
  wp kinit s (fun _ s' =>
    kmem_inv s' (reverse boot_pages) /\
    mheld s' = filter (fun x => x <> KmemLock) (mheld s)).
Proof.
  intros Hb Hf. unfold kinit. wp_steps. unfold freerange.
  pose proof sym_end_up as Hup. pose proof sym_end_range as Hr.
  unfold PHYSTOP, KERNBASE in Hr.
  eapply wp_mono.
  - apply (freerange_spec (Z.to_nat ((PHYSTOP - PGROUNDUP sym_end) / PGSIZE)) _ _ _ []).
    + split; cbn; try done; [apply NoDup_nil_2|].
      rewrite list_elem_of_filter. by intros [? _].
    + rewrite Hup. unfold PGSIZE. dlia.
    + rewrite Hup. dlia.
    + rewrite Hup. unfold PGSIZE, PHYSTOP, KERNBASE. rewrite Z2Nat.id by dlia. dlia.
    + lia.
    + intros p _. apply not_elem_of_nil.
    + rewrite Hup. unfold PGSIZE, PHYSTOP, KERNBASE. dlia.
  - intros _ s' [Hs' Hh]. by rewrite app_nil_r in Hs'.
Qed.

(** [kinit] turns RAM above the kernel into the free list: afterwards the
    list in memory is well formed, holds every page [kfree] accepts exactly
    once, highest address first, and no lock is left held. *)
Theorem kinit_frees_all s :
  bytes_ok (mem s) -> freelist s = 0 ->
  wp kinit s (fun _ s' =>
    kmem_inv s' (reverse boot_pages) /\ NoDup boot_pages /\
    (forall p, p ∈ boot_pages <-> is_valid_pa p = true) /\
    mheld s' = filter (fun x => x <> KmemLock) (mheld s)).
Proof.
  intros Hb Hf. eapply wp_mono; [by apply kinit_spec|]. intros _ s' [Hs' Hh].
  split_and!; [done| |apply elem_of_boot_pages|done].
  apply km_nodup in Hs'. by rewrite reverse_Permutation in Hs'.
Qed.

(** [kalloc] takes the page at the head of the list, hands it out filled
    with 5s, changes no other byte and no other free page, and answers 0
    exactly when there is none, leaving the state alone. *)
Theorem kalloc_takes_head s l :
  kmem_inv s l ->
  wp kalloc s (fun r s' =>
    match l with
    | [] => r = 0 /\ s' = s
    | p :: l' => r = p /\ is_valid_pa p = true /\ kmem_inv s' l' /\ (p ∉ l') /\
                 mem_frame p (mem s) (mem s') /\ mheld s' = mheld s /\
                 forall x, p <= x < p + PGSIZE -> mem s' x = 5
    end).
Proof.
  intros Hs. apply (kalloc_spec s l); [done|by intros ->|].
  intros p l' s' -> **. split_and!; auto.
Qed.

(** [kfree] refuses, by panicking, exactly the addresses that are not page
    aligned or lie outside [end, PHYSTOP); any other page not already free
    goes to the head of the list, and the next [kalloc] returns it. *)
Theorem kfree_kalloc_roundtrip s l pa :
  kmem_inv s l -> pa ∉ l ->
  if is_valid_pa pa
  then wp (kfree pa >>> kalloc) s (fun r s' =>
         r = pa /\ kmem_inv s' l /\ mem_frame pa (mem s) (mem s') /\ mheld s' = mheld s)
  else kfree pa s = Panic "kfree".
Proof.
  intros Hs Hn. destruct (is_valid_pa pa) eqn:Hp; [|by apply kfree_invalid].
  apply wp_bind. eapply wp_mono; [by apply kfree_spec|].
  intros _ s1 (Hs1 & Hf1 & Hh1). eapply wp_mono; [by apply kalloc_cons|].
  intros r s2 (-> & Hs2 & Hf2 & Hh2 & _). split_and!; [done..| |congruence].
  intros x Hx. rewrite Hf2, Hf1 by done. done.
Qed.

End kalloc.

(** *** Witnesses: a kernel that leaves sixteen pages of RAM free *)

#[export] Program Instance small_ram : LinkerSyms :=
  {| sym_end := PHYSTOP - 16 * PGSIZE; sym_trampoline := KERNBASE; sym_forkret := KERNBASE |}.
Solve Obligations with (vm_compute; intuition congruence).

Definition blank : machine := Machine (fun _ => 0) 0 [].

(** What [kinit] computes on it. *)
Definition booted : machine :=
  match kinit blank with Ok (_, s) => s | _ => blank end.

Lemma blank_bytes : bytes_ok (mem blank).
Proof. intros a. cbn. lia. Qed.

Lemma booted_inv : kmem_inv booted (reverse boot_pages).
Proof.
  destruct (proj1 (wp_Ok _ _ _) (kinit_spec blank blank_bytes eq_refl)) as (u & s & E & Hs & _).
  unfold booted. by rewrite E.
Qed.

(** The free list after boot starts at the top of RAM. *)
Lemma boot_list : reverse boot_pages = PHYSTOP - PGSIZE :: tail (reverse boot_pages).
Proof. by vm_compute. Qed.

Lemma kinit_frees_all_witness :
  wp kinit blank (fun _ s' => kmem_inv s' (reverse boot_pages)).
Proof.
  eapply wp_mono; [exact (kinit_frees_all blank blank_bytes eq_refl)|].
  intros ? s' [Hk _]. exact Hk.
Defined.

Lemma kalloc_takes_head_witness :
  wp kalloc booted (fun r s' => r = PHYSTOP - PGSIZE).
Proof.
  eapply wp_mono; [exact (kalloc_takes_head booted (reverse boot_pages) booted_inv)|].
  rewrite boot_list. intros r s' (-> & _). reflexivity.
Defined.

(** An empty list: nothing is free, and one page is given back. *)
Lemma blank_inv : kmem_inv blank [].
Proof.
  split; [apply blank_bytes|done|apply NoDup_nil_2|constructor|apply not_elem_of_nil].
Qed.

Lemma kfree_kalloc_roundtrip_witness :
  wp (kfree (PHYSTOP - PGSIZE) >>> kalloc) blank (fun r s' => r = PHYSTOP - PGSIZE) /\
  kfree 12 blank = Panic "kfree".
Proof.
  split.
  - eapply wp_mono;
      [exact (kfree_kalloc_roundtrip blank [] (PHYSTOP - PGSIZE) blank_inv (not_elem_of_nil _))|].
    intros r s' (-> & _). reflexivity.
  - exact (kfree_kalloc_roundtrip blank [] 12 blank_inv (not_elem_of_nil _)).
Defined.
