(* ===== verification/PageTable.v ===== *)
(** * Sv39 page tables: the table half of kernel/vm.c

    [walk], [walkaddr], [mappages], [uvmcreate], [uvmunmap], [uvmalloc],
    [uvmdealloc], [freewalk], [uvmfree], [uvmclear] and [ismapped] run on
    physical memory: a page table is the address of its root page and every
    entry is eight bytes of RAM.  The theorems go through a logical view,
    [page_at]: the page reached from a root by a path of table indices. *)

From S2P Require Import Prelude Memory Spinlock Riscv Kalloc.

(** Loads, stores and the string.c routines on RAM. *)
Definition load64 (a : Z) : M machine Z := gets (fun s => ld64 (mem s) a).
Definition store64 (a v : Z) : M machine unit :=
  modify (fun s => set_mem (st64 (mem s) a v) s).
Definition mset (dst c n : Z) : M machine unit :=
  modify (fun s => set_mem (memset (mem s) dst c n) s).
Definition mmove (dst src n : Z) : M machine unit :=
  modify (fun s => set_mem (memmove (mem s) dst src n) s).

(** ** The code *)

Section code.
Context `{LinkerSyms}.

Definition walk (pagetable va : Z) (alloc : bool) : M machine Z :=
  if MAXVA <=? va then panic "walk"
  else
    loop 3 (fun '(level, pagetable) =>
      if 0 <? level then
        let pte := pagetable + 8 * PX level va in
        v <- load64 pte ;;
        if has_flag v PTE_V then ret (inl (level - 1, PTE2PA v))
        else if negb alloc then ret (inr 0)
        else
          n <- kalloc ;;
          if n =? 0 then ret (inr 0)
          else
            mset n 0 PGSIZE >>>
            store64 pte (Z.lor (PA2PTE n) PTE_V) >>>
            ret (inl (level - 1, n))
      else ret (inr (pagetable + 8 * PX 0 va)))
    (2, pagetable).

Definition walkaddr (pagetable va : Z) : M machine Z :=
  if MAXVA <=? va then ret 0
  else
    pte <- walk pagetable va false ;;
    if pte =? 0 then ret 0
    else
      v <- load64 pte ;;
      if negb (has_flag v PTE_V) then ret 0
      else if negb (has_flag v PTE_U) then ret 0
      else ret (PTE2PA v).

(** One iteration of [mappages]: install the entry for page [a]. *)
Definition mappages_step (pagetable last perm : Z) (x : Z * Z) : M machine ((Z * Z) + Z) :=
  let '(a, pa) := x in
  pte <- walk pagetable a true ;;
  if pte =? 0 then ret (inr (-1))
  else
    v <- load64 pte ;;
    if has_flag v PTE_V then panic "mappages: remap"
    else
      store64 pte (Z.lor (Z.lor (PA2PTE pa) perm) PTE_V) >>>
      if a =? last then ret (inr 0)
      else ret (inl (u64 (a + PGSIZE), u64 (pa + PGSIZE))).

Definition mappages (pagetable va size pa perm : Z) : M machine Z :=
  if negb (va mod PGSIZE =? 0) then panic "mappages: va not aligned"
  else if negb (size mod PGSIZE =? 0) then panic "mappages: size not aligned"
  else if size =? 0 then panic "mappages: size"
  else
    let last := u64 (va + size - PGSIZE) in
    loop (S (Z.to_nat (size / PGSIZE))) (mappages_step pagetable last perm) (va, pa).

Definition uvmcreate : M machine Z :=
  pagetable <- kalloc ;;
  if pagetable =? 0 then ret 0
  else mset pagetable 0 PGSIZE >>> ret pagetable.

(** One iteration of [uvmunmap], for the page at [a]. *)
Definition uvmunmap_step (pagetable a : Z) (do_free : bool) : M machine unit :=
  pte <- walk pagetable a false ;;
  if pte =? 0 then ret tt
  else
    v <- load64 pte ;;
    if negb (has_flag v PTE_V) then ret tt
    else
      (if do_free then kfree (PTE2PA v) else ret tt) >>>
      store64 pte 0.

Definition uvmunmap (pagetable va npages : Z) (do_free : bool) : M machine unit :=
  if negb (va mod PGSIZE =? 0) then panic "uvmunmap: not aligned"
  else
    loop (S (Z.to_nat npages)) (fun a =>
      if a <? u64 (va + npages * PGSIZE)
      then uvmunmap_step pagetable a do_free >>> ret (inl (u64 (a + PGSIZE)))
      else ret (inr tt))
    va.

Definition uvmdealloc (pagetable oldsz newsz : Z) : M machine Z :=
  if oldsz <=? newsz then ret oldsz
  else
    (if PGROUNDUP newsz <? PGROUNDUP oldsz then
       let npages := i32 ((PGROUNDUP oldsz - PGROUNDUP newsz) / PGSIZE) in
       uvmunmap pagetable (PGROUNDUP newsz) (u64 npages) true
     else ret tt) >>>
    ret newsz.

(** One iteration of [uvmalloc]: a zeroed page at [a], or [inr 0]. *)
Definition uvmalloc_step (pagetable oldsz xperm a : Z) : M machine (Z + Z) :=
  mem <- kalloc ;;
  if mem =? 0 then uvmdealloc pagetable a oldsz >>> ret (inr 0)
  else
    mset mem 0 PGSIZE >>>
    rc <- mappages pagetable a PGSIZE mem (Z.lor (Z.lor PTE_R PTE_U) xperm) ;;
    if negb (rc =? 0)
    then kfree mem >>> uvmdealloc pagetable a oldsz >>> ret (inr 0)
    else ret (inl (u64 (a + PGSIZE))).

Definition uvmalloc (pagetable oldsz newsz xperm : Z) : M machine Z :=
  if newsz <? oldsz then ret oldsz
  else
    let oldsz := PGROUNDUP oldsz in
    loop (S (Z.to_nat ((newsz - oldsz) / PGSIZE + 1))) (fun a =>
      if a <? newsz then uvmalloc_step pagetable oldsz xperm a else ret (inr newsz))
    oldsz.

(** [freewalk] recurses to the depth of the table. *)
Fixpoint freewalk (depth : nat) (pagetable : Z) : M machine unit :=
  match depth with
  | O => fun _ => NoFuel
  | S d =>
      loop 513 (fun i =>
        if i <? 512 then
          pte <- load64 (pagetable + 8 * i) ;;
          if has_flag pte PTE_V && negb (has_flag pte (Z.lor PTE_R (Z.lor PTE_W PTE_X))) then
            freewalk d (PTE2PA pte) >>>
            store64 (pagetable + 8 * i) 0 >>>
            ret (inl (i + 1))
          else if has_flag pte PTE_V then panic "freewalk: leaf"
          else ret (inl (i + 1))
        else ret (inr tt)) 0 >>>
      kfree pagetable
  end.

Definition uvmfree (pagetable sz : Z) : M machine unit :=
  (if 0 <? sz then uvmunmap pagetable 0 (PGROUNDUP sz / PGSIZE) true else ret tt) >>>
  freewalk 3 pagetable.

(** One iteration of [uvmcopy]; [inr (Some i)] is the jump to [err]. *)
Definition uvmcopy_step (old new i : Z) : M machine (Z + option Z) :=
  pte <- walk old i false ;;
  if pte =? 0 then ret (inl (u64 (i + PGSIZE)))
  else
    v <- load64 pte ;;
    if negb (has_flag v PTE_V) then ret (inl (u64 (i + PGSIZE)))
    else
      mem <- kalloc ;;
      if mem =? 0 then ret (inr (Some i))
      else
        mmove mem (PTE2PA v) PGSIZE >>>
        rc <- mappages new i PGSIZE mem (PTE_FLAGS v) ;;
        if negb (rc =? 0) then kfree mem >>> ret (inr (Some i))
        else ret (inl (u64 (i + PGSIZE))).

Definition uvmcopy (old new sz : Z) : M machine Z :=
  i <- loop (S (Z.to_nat (sz / PGSIZE + 1))) (fun i =>
    if i <? sz then uvmcopy_step old new i else ret (inr None)) 0 ;;
  match i with
  | None => ret 0
  | Some i => uvmunmap new 0 (i / PGSIZE) true >>> ret (-1)
  end.

Definition uvmclear (pagetable va : Z) : M machine unit :=
  pte <- walk pagetable va false ;;
  if pte =? 0 then panic "uvmclear"
  else
    v <- load64 pte ;;
    store64 pte (Z.land v (Z.lnot PTE_U)).

Definition ismapped (pagetable va : Z) : M machine bool :=
  pte <- walk pagetable va false ;;
  if pte =? 0 then ret false
  else v <- load64 pte ;; ret (has_flag v PTE_V).

(** ** The logical view *)

Definition pte_at (m : memory) (p i : Z) : Z := ld64 m (p + 8 * i).

(** The page reached from table page [r] along a path of indices. *)
Fixpoint page_at (m : memory) (r : Z) (π : list Z) : option Z :=
  match π with
  | [] => Some r
  | i :: π' =>
      if has_flag (pte_at m r i) PTE_V then page_at m (PTE2PA (pte_at m r i)) π' else None
  end.

(** A path of at most [d] table indices. *)
Definition path_ok (d : nat) (π : list Z) : Prop :=
  (length π <= d)%nat /\ Forall (fun i => 0 <= i < 512) π.

Definition PTE_RWX : Z := Z.lor PTE_R (Z.lor PTE_W PTE_X).

(** The pages at depth at most [d] below [r] form a tree: each is a page of
    RAM the allocator handed out, reached by one path only, and the entries
    that point to table pages carry no permission bits. *)
Record ptree (d : nat) (m : memory) (r : Z) (l : list Z) : Prop := {
  pt_inj π1 π2 p : path_ok d π1 -> path_ok d π2 ->
    page_at m r π1 = Some p -> page_at m r π2 = Some p -> π1 = π2;
  pt_valid π p : path_ok d π -> page_at m r π = Some p -> is_valid_pa p = true /\ p ∉ l;
  pt_dir σ i p : path_ok d (σ ++ [i]) -> page_at m r σ = Some p ->
    has_flag (pte_at m p i) PTE_V = true -> has_flag (pte_at m p i) PTE_RWX = false
}.

(** The entry that maps [va], valid or not, if its table page exists. *)
Definition pte_slot (m : memory) (r va : Z) : option Z :=
  p ← page_at m r [PX 2 va; PX 1 va]; Some (p + 8 * PX 0 va).

(** The valid entry that maps [va]. *)
Definition xlate (m : memory) (r va : Z) : option Z :=
  a ← pte_slot m r va; if has_flag (ld64 m a) PTE_V then Some (ld64 m a) else None.

Lemma page_at_app m r π1 π2 :
  page_at m r (π1 ++ π2) = p ← page_at m r π1; page_at m p π2.
Proof.
  revert r; induction π1 as [|i π1 IH]; intros r; [done|]. cbn. by case_if.
Qed.

Lemma page_at_snoc m r π i :
  page_at m r (π ++ [i]) =
  p ← page_at m r π;
  if has_flag (pte_at m p i) PTE_V then Some (PTE2PA (pte_at m p i)) else None.
Proof. by rewrite page_at_app. Qed.

Lemma path_ok_nil d : path_ok d [].
Proof. split; [cbn; lia|constructor]. Qed.

Lemma path_ok_snoc d π i : path_ok (S d) (π ++ [i]) <-> path_ok d π /\ 0 <= i < 512.
Proof.
  unfold path_ok. rewrite length_app, Forall_app, Forall_singleton. cbn.
  split; intros; destruct_and!; split_and!; auto; lia.
Qed.

Lemma path_ok_pair i j : 0 <= i < 512 -> 0 <= j < 512 -> path_ok 2 [i; j].
Proof. intros. split; [cbn; lia|]. rewrite !Forall_cons. auto using Forall_nil_2. Qed.

Lemma path_ok_le d d' π : (d <= d')%nat -> path_ok d π -> path_ok d' π.
Proof. intros ? [? ?]. split; [lia|done]. Qed.

Lemma path_ok_init d σ i : path_ok d (σ ++ [i]) -> path_ok d σ /\ 0 <= i < 512.
Proof.
  destruct d as [|d].
  - intros [Hl _]. rewrite length_app in Hl. cbn in Hl. lia.
  - rewrite path_ok_snoc. intros [? ?]. split; [|done]. apply (path_ok_le d); [lia|done].
Qed.

(** The frame lemma: if no entry of the tree changes, except perhaps the one
    at path [e], then pages not below [e] are where they were. *)
Lemma page_at_frame d m m' r e :
  (forall σ p j, path_ok d σ -> page_at m r σ = Some p -> 0 <= j < 512 ->
     σ ++ [j] <> e -> pte_at m' p j = pte_at m p j) ->
  forall π, path_ok (S d) π -> ~ e `prefix_of` π -> page_at m' r π = page_at m r π.
Proof.
  intros Hag π. induction π as [|j σ IH] using rev_ind; intros Hok Hne; [done|].
  apply path_ok_snoc in Hok as [Hσ Hj]. rewrite !page_at_snoc.
  assert (Hne' : ~ e `prefix_of` σ) by (intros Hp; apply Hne; by apply prefix_app_r).
  rewrite IH; [|apply (path_ok_le d); [lia|done]|done].
  destruct (page_at m r σ) as [p|] eqn:Hp; [|done]. cbn.
  rewrite (Hag σ p j); try done. intros <-. by apply Hne.
Qed.

(** [m'] agrees with [m] on the pages of the tree. *)
Definition tree_agree (d : nat) (m m' : memory) (r : Z) : Prop :=
  forall σ p, path_ok d σ -> page_at m r σ = Some p -> agree p PGSIZE m m'.

Lemma pte_at_agree m m' p i :
  agree p PGSIZE m m' -> 0 <= i < 512 -> pte_at m' p i = pte_at m p i.
Proof.
  intros Ha Hi. apply ld_agree. intros x Hx. apply Ha. unfold PGSIZE. lia.
Qed.

Lemma page_at_agree d m m' r π :
  tree_agree d m m' r -> path_ok (S d) π -> page_at m' r π = page_at m r π.
Proof.
  intros Ha Hπ. apply (page_at_frame d m m' r [-1]); [|done|].
  - intros. by apply pte_at_agree; [eapply Ha|].
  - intros [k ->]. destruct Hπ as [_ Hπ]. apply Forall_cons in Hπ as [? _]. lia.
Qed.

Lemma ptree_agree d m m' r l :
  ptree d m r l -> tree_agree d m m' r -> ptree d m' r l.
Proof.
  intros [Hinj Hval Hdir] Ha.
  assert (He : forall π, path_ok d π -> page_at m' r π = page_at m r π).
  { intros π Hπ. apply (page_at_agree d); [done|]. apply (path_ok_le d); [lia|done]. }
  split.
  - intros π1 π2 p H1 H2. rewrite !He by done. by apply Hinj.
  - intros π p H1. rewrite He by done. by apply Hval.
  - intros σ i p H1. destruct (path_ok_init d σ i H1) as [Hσ Hi]. rewrite He by done. intros Hp.
    rewrite (pte_at_agree m m') by eauto. by eapply Hdir.
Qed.

(** Dropping pages from the free list keeps the tree. *)
Lemma ptree_sub d m r l l' :
  ptree d m r l -> (forall p, p ∈ l' -> p ∈ l) -> ptree d m r l'.
Proof.
  intros [Hinj Hval Hdir] Hsub. split; [done| |done]. intros π p H1 H2.
  destruct (Hval π p H1 H2). auto.
Qed.

(** A page outside the tree may change freely. *)
Lemma tree_agree_frame d m m' r l q :
  ptree d m r l -> mem_frame q m m' -> q mod PGSIZE = 0 ->
  (forall π, path_ok d π -> page_at m r π <> Some q) -> tree_agree d m m' r.
Proof.
  intros [_ Hval _] Hf Hq Hn σ p Hσ Hp x Hx. apply Hf.
  destruct (Hval σ p Hσ Hp) as [[Ha _]%is_valid_pa_spec _].
  assert (p <> q) by (intros ->; by apply (Hn σ)).
  destruct (page_disjoint_ne p q); unfold PGSIZE in *; auto; lia.
Qed.

(** The valid leaf entry at indices [i], [j], [k]. *)
Definition leaf (m : memory) (r i j k : Z) : option Z :=
  p ← page_at m r [i; j]; if has_flag (pte_at m p k) PTE_V then Some (pte_at m p k) else None.

Lemma xlate_leaf m r va : xlate m r va = leaf m r (PX 2 va) (PX 1 va) (PX 0 va).
Proof.
  unfold xlate, pte_slot, leaf. by destruct (page_at m r [PX 2 va; PX 1 va]).
Qed.

(** No mapping changes. *)
Definition same_xlate (m m' : memory) (r : Z) : Prop :=
  forall va, xlate m' r va = xlate m r va.

(** Two entries of distinct slots do not overlap. *)
Lemma slot_disjoint q j p i :
  q mod PGSIZE = 0 -> p mod PGSIZE = 0 -> 0 <= j < 512 -> 0 <= i < 512 ->
  (q <> p \/ j <> i) -> q + 8 * j + 8 <= p + 8 * i \/ p + 8 * i + 8 <= q + 8 * j.
Proof.
  intros Hq Hp Hj Hi Hne. destruct (decide (q = p)) as [->|Hn]; [lia|].
  destruct (page_disjoint_ne q p Hq Hp Hn); unfold PGSIZE in *; lia.
Qed.

Lemma PTE_FLAGS_RWX pte : Z.land (PTE_FLAGS pte) PTE_RWX = Z.land pte PTE_RWX.
Proof. unfold PTE_FLAGS. by rewrite <- Z.land_assoc. Qed.

Section grow.
Context (m m' : memory) (r : Z) (l : list Z) (n : Z) (σ : list Z) (p i : Z).
Hypothesis Htree : ptree 2 m r (n :: l).
Hypothesis Hn : is_valid_pa n = true.
Hypothesis Hnl : n ∉ l.
Hypothesis Hσ : path_ok 1 σ.
Hypothesis Hp : page_at m r σ = Some p.
Hypothesis Hi : 0 <= i < 512.
Hypothesis Hinvalid : has_flag (pte_at m p i) PTE_V = false.
Hypothesis Hframe : forall x, (x < n \/ n + PGSIZE <= x) ->
  (x < p + 8 * i \/ p + 8 * i + 8 <= x) -> m' x = m x.
Hypothesis Hzero : forall k, 0 <= k < 512 -> pte_at m' n k = 0.
Hypothesis Hentry : pte_at m' p i = Z.lor (PA2PTE n) PTE_V.

Lemma grow_entry τ q j :
  path_ok 2 τ -> page_at m r τ = Some q -> 0 <= j < 512 -> τ ++ [j] <> σ ++ [i] ->
  pte_at m' q j = pte_at m q j.
Proof.
  intros Hτ Hq Hj Hne. destruct Htree as [Hinj Hval _].
  destruct (Hval τ q Hτ Hq) as [Hvq Hql]. apply not_elem_of_cons in Hql as [Hqn _].
  destruct (Hval σ p (path_ok_le 1 2 σ ltac:(lia) Hσ) Hp) as [Hvp _].
  apply ld_agree. intros x Hx. apply Hframe.
  - destruct (valid_disjoint q n Hvq Hn Hqn); unfold PGSIZE in *; lia.
  - apply is_valid_pa_spec in Hvq as [Hvq _]. apply is_valid_pa_spec in Hvp as [Hvp _].
    destruct (slot_disjoint q j p i Hvq Hvp Hj Hi) as [?|?]; try lia.
    destruct (decide (q = p)) as [->|?]; [right|by left]. intros ->. apply Hne.
    f_equal. apply (Hinj τ σ p); auto. by apply (path_ok_le 1 2); [lia|].
Qed.

Lemma grow_old π :
  path_ok 3 π -> ~ (σ ++ [i]) `prefix_of` π -> page_at m' r π = page_at m r π.
Proof. apply page_at_frame. intros τ q j **. by apply (grow_entry τ). Qed.

Lemma grow_not_prefix : ~ (σ ++ [i]) `prefix_of` σ.
Proof. intros [k Hk]. apply (f_equal length) in Hk. rewrite !length_app in Hk. cbn in Hk. lia. Qed.

Lemma grow_new : page_at m' r (σ ++ [i]) = Some n.
Proof.
  rewrite page_at_snoc. rewrite grow_old; [|by apply (path_ok_le 1 3); [lia|]|apply grow_not_prefix].
  rewrite Hp. cbn. rewrite Hentry. pose proof (is_valid_pa_pos n Hn).
  apply is_valid_pa_spec in Hn as [Ha _].
  pose proof PTE_V_range. rewrite has_V_mk, PTE2PA_mk by (done || lia). done.
Qed.

Lemma grow_below π j : 0 <= j < 512 -> page_at m' r ((σ ++ [i]) ++ j :: π) = None.
Proof. intros Hj. rewrite page_at_app, grow_new. cbn. by rewrite Hzero. Qed.

Lemma grow_was_none π : page_at m r ((σ ++ [i]) ++ π) = None.
Proof. rewrite page_at_app, page_at_snoc, Hp. cbn. by rewrite Hinvalid. Qed.

(** Where every path leads after growing. *)
Lemma grow_page π q :
  path_ok 3 π -> page_at m' r π = Some q ->
  (π = σ ++ [i] /\ q = n) \/ (~ (σ ++ [i]) `prefix_of` π /\ page_at m r π = Some q).
Proof.
  intros Hπ Hq. destruct (decide ((σ ++ [i]) `prefix_of` π)) as [[k ->]|Hno].
  - left. destruct k as [|j k].
    + rewrite app_nil_r in *. rewrite grow_new in Hq. by simplify_eq.
    + rewrite grow_below in Hq; [done|]. destruct Hπ as [_ Hall].
      apply Forall_app in Hall as [_ Hall]. by apply Forall_cons in Hall as [? _].
  - right. by rewrite <- grow_old.
Qed.

Lemma grow_dir τ j q :
  path_ok 2 (τ ++ [j]) -> page_at m' r τ = Some q ->
  has_flag (pte_at m' q j) PTE_V = true -> has_flag (pte_at m' q j) PTE_RWX = false.
Proof.
  intros Hτj Hq HV. destruct (path_ok_init _ _ _ Hτj) as [Hτ Hj].
  destruct (grow_page τ q) as [[-> ->]|[Hno Hq']]; auto.
  - by apply (path_ok_le 2 3); [lia|].
  - by rewrite Hzero in HV.
  - destruct (decide (τ ++ [j] = σ ++ [i])) as [Heq|Hne].
    + apply app_inj_2 in Heq as [-> [= ->]]; [|done]. assert (q = p) as -> by congruence.
      rewrite Hentry. pose proof (is_valid_pa_pos n Hn). pose proof PTE_V_range.
      unfold has_flag. by rewrite <- PTE_FLAGS_RWX, PTE_FLAGS_mk by lia.
    + rewrite (grow_entry τ q j) in * by done. by apply (pt_dir _ _ _ _ Htree τ).
Qed.

Lemma tree_grow :
  ptree 2 m' r l /\ same_xlate m m' r /\
  (forall π q, path_ok 2 π -> page_at m r π = Some q -> page_at m' r π = Some q) /\
  page_at m' r (σ ++ [i]) = Some n /\
  forall π q, path_ok 2 π -> page_at m' r π = Some q -> page_at m r π = Some q \/ q = n.
Proof.
  destruct Htree as [Hinj Hval Hdir].
  assert (H23 : forall π, path_ok 2 π -> path_ok 3 π) by (intros; by apply (path_ok_le 2 3); [lia|]).
  split_and!; [split|..|apply grow_new|].
  - intros π1 π2 q H1 H2 Hq1 Hq2.
    destruct (grow_page π2 q (H23 _ H2) Hq2) as [[-> ->]|[Hn2 Hq2']];
      destruct (grow_page π1 _ (H23 _ H1) Hq1) as [[-> Hx]|[Hn1 Hq1']]; eauto.
    + destruct (Hval π1 n H1 Hq1') as [_ Hx]. apply not_elem_of_cons in Hx. tauto.
    + subst q. destruct (Hval π2 n H2 Hq2') as [_ Hx]. apply not_elem_of_cons in Hx. tauto.
  - intros π q H1 Hq. destruct (grow_page π q) as [[-> ->]|[Hn1 Hq']]; auto.
    destruct (Hval π q H1 Hq') as [? Hx]. apply not_elem_of_cons in Hx. tauto.
  - apply grow_dir.
  - intros va. rewrite !xlate_leaf.
    set (a := PX 2 va). set (b := PX 1 va). set (k := PX 0 va).
    assert (Ha : 0 <= a < 512) by (apply PX_range; lia).
    assert (Hb : 0 <= b < 512) by (apply PX_range; lia).
    assert (Hk : 0 <= k < 512) by (apply PX_range; lia). clearbody a b k.
    assert (Hab : path_ok 2 [a; b]) by (by apply path_ok_pair).
    unfold leaf. destruct (decide ((σ ++ [i]) `prefix_of` [a; b])) as [[k' Hk']|Hno].
    + rewrite Hk', grow_was_none. cbn. destruct k' as [|c k'].
      * rewrite app_nil_r, grow_new. cbn. by rewrite Hzero.
      * rewrite grow_below; [done|]. destruct Hab as [_ Hall]. rewrite Hk' in Hall.
        apply Forall_app in Hall as [_ Hall]. by apply Forall_cons in Hall as [? _].
    + rewrite grow_old by auto. destruct (page_at m r [a; b]) as [q|] eqn:Hq; [|done]. cbn.
      rewrite (grow_entry [a; b] q k); try done. intros Heq.
      apply (f_equal length) in Heq. rewrite length_app in Heq. destruct Hσ as [? _]. cbn in *.
      rewrite length_app in Heq. cbn in Heq. lia.
  - intros π q H1 Hq. rewrite grow_old; auto. intros [k ->]. by rewrite grow_was_none in Hq.
  - intros π q H1 Hq. destruct (grow_page π q) as [[-> ->]|[? ?]]; auto.
Qed.
End grow.

(** ** walk *)

Lemma walk_noalloc r va s (Q : Z -> machine -> Prop) :
  va < MAXVA -> Q (default 0 (pte_slot (mem s) r va)) s -> wp (walk r va false) s Q.
Proof.
  intros Hva. unfold walk. rewrite (proj2 (Z.leb_gt _ _)) by done.
  unfold pte_slot. cbn [loop Z.ltb Z.compare page_at]. unfold load64, pte_at. intros HQ. wp_steps.
  revert HQ. case_if; intros HQ; wp_steps; [|done].
  revert HQ. change (2 - 1) with 1. cbn [Z.ltb Z.compare]. intros HQ. wp_steps. revert HQ.
  case_if; intros HQ; wp_steps; done.
Qed.

(** What allocating walks do to the table of [r]: table pages stay, new ones
    come from the free list, and pages that are neither free nor part of the
    table are not written. *)
Record tbl_post (m m' : memory) (r : Z) (l l' : list Z) : Prop := {
  tb_page π p : path_ok 2 π -> page_at m r π = Some p -> page_at m' r π = Some p;
  tb_tree : ptree 2 m' r l';
  tb_used : exists used, l = used ++ l';
  tb_new π q : path_ok 2 π -> page_at m' r π = Some q -> page_at m r π = Some q \/ q ∈ l;
  tb_kept q : q ∈ l -> q ∈ l' \/ exists π, path_ok 2 π /\ page_at m' r π = Some q;
  tb_out q : q mod PGSIZE = 0 -> q ∉ l ->
    (forall π, path_ok 2 π -> page_at m r π <> Some q) -> agree q PGSIZE m m'
}.

Lemma tbl_post_refl m r l : ptree 2 m r l -> tbl_post m m r l l.
Proof. split; auto. - by exists []. - by intros. Qed.

Lemma tbl_post_trans m1 m2 m3 r l1 l2 l3 :
  tbl_post m1 m2 r l1 l2 -> tbl_post m2 m3 r l2 l3 -> tbl_post m1 m3 r l1 l3.
Proof.
  intros [G1 T1 [u1 ->] N1 K1 O1] [G2 T2 [u2 ->] N2 K2 O2]. split; [eauto|done|..].
  - exists (u1 ++ u2). by rewrite app_assoc.
  - intros π q Hπ Hq. destruct (N2 π q Hπ Hq) as [Hq'|Hq'].
    + eauto.
    + right. apply elem_of_app. by right.
  - intros q Hq. destruct (K1 q Hq) as [?|(π & ? & ?)]; eauto.
  - intros q Ha Hl Hn x Hx. apply not_elem_of_app in Hl as [Hl1 Hl2].
    rewrite (O2 q), (O1 q); auto.
    + by apply not_elem_of_app.
    + intros π Hπ Hq. destruct (N1 π q Hπ Hq) as [Hq'|Hq']; [by eapply Hn|].
      apply elem_of_app in Hq' as [?|?]; done.
Qed.

Lemma same_xlate_trans m1 m2 m3 r :
  same_xlate m1 m2 r -> same_xlate m2 m3 r -> same_xlate m1 m3 r.
Proof. intros H1 H2 va. by rewrite H2, H1. Qed.

Lemma walk_level r σ p i lv s l :
  kmem_inv s l -> ptree 2 (mem s) r l -> path_ok 1 σ -> page_at (mem s) r σ = Some p ->
  0 <= i < 512 ->
  wp (v <- load64 (p + 8 * i) ;;
      if has_flag v PTE_V then ret (inl (lv, PTE2PA v))
      else if negb true then ret (inr 0)
      else
        n <- kalloc ;;
        if n =? 0 then ret (inr 0)
        else
          mset n 0 PGSIZE >>>
          store64 (p + 8 * i) (Z.lor (PA2PTE n) PTE_V) >>>
          ret (inl (lv, n))) s
     (fun (res : Z * Z + Z) s' => exists l', kmem_inv s' l' /\
        tbl_post (mem s) (mem s') r l l' /\ same_xlate (mem s) (mem s') r /\
        mheld s' = mheld s /\ (length l <= length l' + 1)%nat /\
        ((res = inr 0 /\ l' = []) \/
         exists n, res = inl (lv, n) /\ page_at (mem s') r (σ ++ [i]) = Some n)).
Proof.
  intros Hs Ht Hσ Hp Hi. unfold load64. wp_steps. fold (pte_at (mem s) p i).
  destruct (has_flag (pte_at (mem s) p i) PTE_V) eqn:Hv.
  { wp_steps. exists l. split_and!; auto using tbl_post_refl; try done; [lia|]. right. eexists; split; [done|].
    by rewrite page_at_snoc, Hp; cbn; rewrite Hv. }
  cbn [negb]. wp_steps. apply (kalloc_spec s l); [done|..].
  { intros ->. wp_steps. exists []. split_and!; auto using tbl_post_refl; try done. cbn; lia. }
  intros n l' s1 -> Hn0 Hn Hnl Hs1 Hf1 Hh1 _. rewrite (proj2 (Z.eqb_neq n 0)) by done.
  unfold mset, store64. wp_steps. cbn [mem set_mem mheld].
  destruct (pt_valid _ _ _ _ Ht σ p (path_ok_le 1 2 σ ltac:(lia) Hσ) Hp) as [Hvp Hpl].
  apply not_elem_of_cons in Hpl as [Hpn Hpl].
  pose proof (is_valid_pa_pos n Hn). pose proof PTE_V_range as HV.
  pose proof (PTE_mk_range n PTE_V ltac:(lia) HV) as Hmk.
  set (m2 := st64 (memset (mem s1) n 0 PGSIZE) (p + 8 * i) (Z.lor (PA2PTE n) PTE_V)).
  assert (Hsep : p + PGSIZE <= n \/ n + PGSIZE <= p) by (by apply valid_disjoint).
  assert (Hfr : forall x, (x < n \/ n + PGSIZE <= x) ->
                          (x < p + 8 * i \/ p + 8 * i + 8 <= x) -> m2 x = mem s x).
  { intros x Hx1 Hx2. unfold m2. rewrite st_other by lia. rewrite memset_out by lia. by apply Hf1. }
  destruct (tree_grow (mem s) m2 r l' n σ p i) as (Ht2 & Hx2 & Hg2 & Hp2 & Hnew); auto.
  { intros k Hk. unfold pte_at, m2. unfold PGSIZE in *.
    rewrite ld_st_other by lia. apply ld_memset_zero; lia. }
  { unfold pte_at, m2. by apply ld64_st64. }
  exists l'. split_and!; [|split; auto|done|done|cbn; lia|right; eauto].
  - unfold PGSIZE in *. change (kmem_inv (set_mem m2 (set_mem (memset (mem s1) n 0 4096) s1)) l').
    eapply (kmem_inv_write _ _ p); [eapply (kmem_inv_write _ _ n); [done|..]|..]; auto.
    + intros x Hx. by apply memset_out.
    + apply memset_bytes_ok. by apply km_bytes in Hs1.
    + intros x Hx. unfold m2. unfold PGSIZE in *. cbn. apply st_other. lia.
    + apply st_bytes_ok, memset_bytes_ok. by apply km_bytes in Hs1.
  - by exists [n].
  - intros π q Hπ Hq. destruct (Hnew π q Hπ Hq) as [?| ->]; [by left|].
    right. apply elem_of_cons. by left.
  - intros q [->|?]%elem_of_cons; [|by left]. right. exists (σ ++ [i]). split; [|done].
    by apply path_ok_snoc.
  - intros q Ha Hl Hno x Hx. apply not_elem_of_cons in Hl as [Hqn Hl].
    assert (Hqp : q <> p) by (intros ->; by apply (Hno σ); [apply (path_ok_le 1 2); [lia|]|]).
    apply is_valid_pa_spec in Hvp as [Hap _]. apply is_valid_pa_spec in Hn as [Han _].
    destruct (page_disjoint_ne q p Ha Hap Hqp), (page_disjoint_ne q n Ha Han Hqn);
      unfold PGSIZE in *; apply Hfr; lia.
Qed.

Lemma walk_alloc r va s l :
  kmem_inv s l -> ptree 2 (mem s) r l -> va < MAXVA ->
  wp (walk r va true) s (fun a s' => exists l', kmem_inv s' l' /\
    tbl_post (mem s) (mem s') r l l' /\ same_xlate (mem s) (mem s') r /\ mheld s' = mheld s /\
    (length l <= length l' + 2)%nat /\ ((a = 0 /\ l' = []) \/ pte_slot (mem s') r va = Some a)).
Proof.
  intros Hs Ht Hva. unfold walk. rewrite (proj2 (Z.leb_gt _ _)) by done.
  cbn [loop Z.ltb Z.compare]. apply wp_bind. eapply wp_mono.
  { apply (walk_level r [] r _ _ s l); auto using path_ok_nil. apply PX_range. lia. }
  intros res s1 (l1 & Hs1 & Hk1 & Hx1 & Hh1 & Hn1' & [[-> ->]|(n1 & -> & Hn1)]); cbn beta iota.
  { wp_steps. exists []. split_and!; auto. lia. }
  change (2 - 1) with 1. cbn [Z.ltb Z.compare]. apply wp_bind. eapply wp_mono.
  { apply (walk_level r [PX 2 va] n1 _ _ s1 l1); eauto using tb_tree.
    - apply (path_ok_snoc 0 []). split; [apply path_ok_nil|]. apply PX_range. lia.
    - apply PX_range. lia. }
  intros res s2 (l2 & Hs2 & Hk2 & Hx2 & Hh2 & Hn2' & [[-> ->]|(n2 & -> & Hn2)]);
    cbn [Z.ltb Z.compare Z.sub Z.pos_sub Z.opp Z.add Pos.pred_double]; wp_steps.
  { exists []. split_and!; eauto using tbl_post_trans, same_xlate_trans; [congruence|lia]. }
  exists l2. split_and!; eauto using tbl_post_trans, same_xlate_trans; [congruence|lia|].
  right. unfold pte_slot. cbn [app] in Hn2. by rewrite Hn2.
Qed.
(** ** Writing a leaf entry *)

(** Page-aligned virtual addresses. *)
Definition va_ok (va : Z) : Prop := 0 <= va < 2 ^ 39 /\ va mod PGSIZE = 0.

Lemma PX_path va : path_ok 2 [PX 2 va; PX 1 va].
Proof. apply path_ok_pair; apply PX_range; lia. Qed.

Lemma slot_page m r l va a : ptree 2 m r l -> pte_slot m r va = Some a ->
  exists p, page_at m r [PX 2 va; PX 1 va] = Some p /\ a = p + 8 * PX 0 va /\
    is_valid_pa p = true /\ (p ∉ l).
Proof.
  intros Htree. unfold pte_slot. destruct (page_at m r _) as [p|] eqn:Hp; [|done].
  cbn. intros [= <-]. exists p. by destruct (pt_valid _ _ _ _ Htree _ p (PX_path va) Hp).
Qed.

Section leaf_store.
Context (m : memory) (r : Z) (l : list Z) (va a v : Z).
Hypothesis Htree : ptree 2 m r l.
Hypothesis Hslot : pte_slot m r va = Some a.
Hypothesis Hv : 0 <= v < 2 ^ 64.
Hypothesis Hva : va_ok va.
Let m' := st64 m a v.

Lemma leaf_store_frame : exists p, is_valid_pa p = true /\ (p ∉ l) /\ mem_frame p m m' /\
  page_at m r [PX 2 va; PX 1 va] = Some p.
Proof.
  destruct (slot_page m r l va a Htree Hslot) as (p & Hp & -> & Hvp & Hl). exists p. split_and!; auto.
  intros x Hx. unfold m'. pose proof (PX_range 0 va ltac:(lia)). unfold PGSIZE in *.
  apply st_other. lia.
Qed.

Lemma leaf_store_entry q j τ :
  path_ok 2 τ -> page_at m r τ = Some q -> 0 <= j < 512 ->
  τ <> [PX 2 va; PX 1 va] \/ j <> PX 0 va -> pte_at m' q j = pte_at m q j.
Proof.
  intros Hτ Hq Hj Hne. destruct (slot_page m r l va a Htree Hslot) as (p & Hp & Ha & Hvp & Hl).
  destruct (pt_valid _ _ _ _ Htree τ q Hτ Hq) as [Hvq _].
  apply is_valid_pa_spec in Hvq as [Hvq _]. apply is_valid_pa_spec in Hvp as [Hvp _].
  unfold pte_at, m'. rewrite Ha. apply ld_st_other. cbn.
  destruct (slot_disjoint q j p (PX 0 va) Hvq Hvp Hj) as [?|?]; [apply PX_range; lia| |lia|lia].
  destruct Hne as [Hne|Hne]; [left|by right]. intros ->.
  by apply Hne, (pt_inj _ _ _ _ Htree _ _ p); [|apply PX_path|..].
Qed.

Lemma leaf_store_page π : path_ok 2 π -> page_at m' r π = page_at m r π.
Proof.
  intros Hπ. apply (page_at_frame 1 m m' r [-1]); [|done|].
  - intros σ p j Hσ Hp Hj _. apply (leaf_store_entry p j σ); auto.
    + apply (path_ok_le 1 2); [lia|done].
    + left. intros ->. destruct Hσ as [Hlen _]. cbn in Hlen. lia.
  - intros [k ->]. destruct Hπ as [_ Hπ]. apply Forall_cons in Hπ as [? _]. lia.
Qed.

Lemma leaf_store_tree : ptree 2 m' r l.
Proof.
  split.
  - intros π1 π2 p H1 H2. rewrite !leaf_store_page by done. by apply (pt_inj _ _ _ _ Htree).
  - intros π p H1. rewrite leaf_store_page by done. by apply (pt_valid _ _ _ _ Htree).
  - intros σ i p Hσi. destruct (path_ok_init _ _ _ Hσi) as [Hσ Hi].
    rewrite leaf_store_page by done. intros Hp. rewrite (leaf_store_entry p i σ); auto.
    + by apply (pt_dir _ _ _ _ Htree σ).
    + left. intros ->. destruct Hσi as [Hl _]. cbn in Hl. lia.
Qed.

Lemma leaf_store_slot va' : pte_slot m' r va' = pte_slot m r va'.
Proof. unfold pte_slot. by rewrite leaf_store_page by apply PX_path. Qed.

Lemma leaf_store_other va' : va_ok va' -> va' <> va -> xlate m' r va' = xlate m r va'.
Proof.
  intros [Hb Hal] Hne. rewrite !xlate_leaf. unfold leaf.
  rewrite leaf_store_page by apply PX_path.
  destruct (page_at m r [PX 2 va'; PX 1 va']) as [q|] eqn:Hq; [|done]. cbn.
  rewrite (leaf_store_entry q (PX 0 va') [PX 2 va'; PX 1 va']); auto using PX_path.
  - apply PX_range. lia.
  - destruct (decide (PX 0 va' = PX 0 va)) as [E0|?]; [left|by right]. intros [= E2 E1].
    destruct Hva. apply Hne. by apply PX_inj.
Qed.

Lemma leaf_store_same : xlate m' r va = if has_flag v PTE_V then Some v else None.
Proof.
  unfold xlate. rewrite leaf_store_slot, Hslot. cbn. unfold m'. by rewrite ld64_st64.
Qed.

Lemma leaf_store_post : tbl_post m m' r l l.
Proof.
  split; [|by apply leaf_store_tree|by exists []|..].
  - intros π p Hπ. by rewrite leaf_store_page.
  - intros π q Hπ. rewrite leaf_store_page by done. auto.
  - auto.
  - intros q Hq Hl Hno x Hx. destruct leaf_store_frame as (p & Hvp & _ & Hf & Hp).
    apply Hf. apply is_valid_pa_spec in Hvp as [Hap _].
    assert (Hne : q <> p) by (intros ->; by apply (Hno _ (PX_path va))).
    destruct (page_disjoint_ne q p Hq Hap Hne); unfold PGSIZE in *; lia.
Qed.
End leaf_store.

Lemma leaf_store_inv s r l va a v :
  kmem_inv s l -> ptree 2 (mem s) r l -> pte_slot (mem s) r va = Some a ->
  kmem_inv (set_mem (st64 (mem s) a v) s) l.
Proof.
  intros Hs Ht Hslot. destruct (leaf_store_frame _ r l va a v Ht Hslot) as (p & Hvp & Hl & Hf & _).
  eapply (kmem_inv_write _ _ p); eauto. apply st_bytes_ok. by apply km_bytes in Hs.
Qed.


Lemma MAXVA_eq : MAXVA = 2 ^ 38.
Proof. done. Qed.

(** ** mappages *)

(** The entry [mappages] writes. *)
Definition mk_pte (pa perm : Z) : Z := Z.lor (Z.lor (PA2PTE pa) perm) PTE_V.

Lemma mk_pte_eq pa perm : mk_pte pa perm = Z.lor (PA2PTE pa) (Z.lor perm PTE_V).
Proof. unfold mk_pte. by rewrite Z.lor_assoc. Qed.

Lemma mk_pte_range pa perm :
  0 <= pa < 2 ^ 56 -> 0 <= perm < 1024 -> 0 <= mk_pte pa perm < 2 ^ 64.
Proof.
  intros. rewrite mk_pte_eq. apply PTE_mk_range; [done|]. apply lor_range; [done|apply PTE_V_range].
Qed.

Lemma mk_pte_V pa perm : 0 <= pa < 2 ^ 56 -> 0 <= perm < 1024 -> has_flag (mk_pte pa perm) PTE_V = true.
Proof.
  intros. apply has_V_lor. apply (PTE_mk_range pa perm); done.
Qed.

Lemma mk_pte_PA pa perm :
  0 <= pa < 2 ^ 56 -> pa mod PGSIZE = 0 -> 0 <= perm < 1024 -> PTE2PA (mk_pte pa perm) = pa.
Proof.
  intros. rewrite mk_pte_eq. apply PTE2PA_mk; try done. apply lor_range; [done|apply PTE_V_range].
Qed.

(** In [m'], the table [r] maps the [size] bytes from [va] on to [pa], and
    everything else as in [m]. *)
Definition mapped_to (m m' : memory) (r va size pa perm : Z) : Prop :=
  forall va', va_ok va' ->
    xlate m' r va' =
    if (va <=? va') && (va' <? va + size) then Some (mk_pte (pa + (va' - va)) perm)
    else xlate m r va'.

Lemma mapped_to_0 m m' r va pa perm : same_xlate m m' r -> mapped_to m m' r va 0 pa perm.
Proof. intros H0 va' _. rewrite H0. cases. Qed.

Lemma mapped_to_cons m1 m2 m3 r va size pa perm :
  va_ok va -> 0 <= size -> mapped_to m1 m2 r va PGSIZE pa perm ->
  mapped_to m2 m3 r (va + PGSIZE) size (pa + PGSIZE) perm ->
  mapped_to m1 m3 r va (PGSIZE + size) pa perm.
Proof.
  intros Hva Hs H1 H2 va' Hva'. rewrite H2, H1 by done. unfold PGSIZE in *.
  cases; do 2 f_equal; lia.
Qed.

Lemma map_one r last va pa perm s l :
  kmem_inv s l -> ptree 2 (mem s) r l -> va_ok va -> va < MAXVA ->
  0 <= perm < 1024 -> 0 <= pa < 2 ^ 56 -> xlate (mem s) r va = None ->
  wp (mappages_step r last perm (va, pa)) s (fun res s' => exists l', kmem_inv s' l' /\
    tbl_post (mem s) (mem s') r l l' /\ mheld s' = mheld s /\ (length l <= length l' + 2)%nat /\
    ((res = inr (-1) /\ l' = [] /\ same_xlate (mem s) (mem s') r) \/
     (res = (if va =? last then inr 0 else inl (u64 (va + PGSIZE), u64 (pa + PGSIZE))) /\
      mapped_to (mem s) (mem s') r va PGSIZE pa perm))).
Proof.
  intros Hs Ht Hva HvaM Hperm Hpa Hnone. unfold mappages_step. apply wp_bind.
  eapply wp_mono; [by apply walk_alloc|].
  intros a s1 (l1 & Hs1 & Hp1 & Hx1 & Hh1 & Hn1 & [[-> ->]|Hslot]).
  { rewrite Z.eqb_refl. apply wp_ret. exists []. split_and!; auto. }
  pose proof (tb_tree _ _ _ _ _ Hp1) as Ht1.
  destruct (slot_page (mem s1) r l1 va a Ht1 Hslot) as (p & Hpg & Ha & Hvp & Hpl).
  pose proof (is_valid_pa_pos p Hvp). pose proof (PX_range 0 va ltac:(lia)).
  rewrite (proj2 (Z.eqb_neq a 0)) by lia. apply wp_bind. unfold load64. apply wp_gets.
  assert (Hinv : has_flag (ld64 (mem s1) a) PTE_V = false).
  { rewrite <- Hx1 in Hnone. unfold xlate in Hnone. rewrite Hslot in Hnone. cbn in Hnone.
    by destruct (has_flag _ PTE_V). }
  rewrite Hinv. apply wp_bind. unfold store64. apply wp_modify. fold (mk_pte pa perm).
  pose proof (mk_pte_range pa perm Hpa Hperm) as Hr.
  assert (Hm : mapped_to (mem s) (st64 (mem s1) a (mk_pte pa perm)) r va PGSIZE pa perm).
  { intros va' Hva'. destruct (decide (va' = va)) as [->|Hne].
    - rewrite (leaf_store_same _ _ l1 va a _) by done. rewrite mk_pte_V by done.
      unfold PGSIZE. rewrite (proj2 (Z.leb_le _ _)), (proj2 (Z.ltb_lt _ _)) by lia.
      cbn [andb]. do 2 f_equal. lia.
    - rewrite (leaf_store_other _ _ l1 va a _) by done. rewrite Hx1.
      destruct Hva, Hva'. unfold PGSIZE in *. cases. exfalso. dlia. }
  case_if; apply wp_ret; exists l1; (split_and!; [by eapply leaf_store_inv| |done|done|right; done]);
    cbn [mem set_mem]; eapply tbl_post_trans; eauto; by eapply leaf_store_post.
Qed.

Lemma mappages_loop r perm last n va pa :
  va_ok va -> 0 <= perm < 1024 -> va + Z.of_nat (S n) * PGSIZE <= MAXVA ->
  last = va + Z.of_nat n * PGSIZE -> 0 <= pa -> pa + Z.of_nat (S n) * PGSIZE <= 2 ^ 56 ->
  forall s l, kmem_inv s l -> ptree 2 (mem s) r l ->
  (forall va', va_ok va' -> va <= va' <= last -> xlate (mem s) r va' = None) ->
  forall fuel, (n < fuel)%nat ->
  wp (loop fuel (mappages_step r last perm) (va, pa)) s
     (fun rc s' => exists l', kmem_inv s' l' /\ tbl_post (mem s) (mem s') r l l' /\
        mheld s' = mheld s /\
        exists k : nat, mapped_to (mem s) (mem s') r va (Z.of_nat k * PGSIZE) pa perm /\
        ((rc = 0 /\ k = S n) \/ (rc = -1 /\ l' = [] /\ (k <= n)%nat))).
Proof.
  revert va pa; induction n as [|n IH]; intros va pa Hva Hperm Hmax Hlast Hpa Hpa2
    s l Hs Ht Hnone fuel Hfuel; (destruct fuel as [|fuel]; [lia|]); cbn [loop]; apply wp_bind.
  all: assert (HvaM : va < MAXVA /\ 0 <= pa < 2 ^ 56) by (unfold PGSIZE in *; lia).
  all: destruct HvaM; eapply wp_mono;
    [apply (map_one r last va pa perm s l); auto; apply Hnone; [done|unfold PGSIZE in *; lia]|].
  all: intros res s1 (l1 & Hs1 & Hp1 & Hh1 & _ & [(-> & -> & Hx)|[-> Hm]]).
  1,3: apply wp_ret; exists []; split_and!; auto; exists 0%nat; split; [by apply mapped_to_0|];
       right; split_and!; auto; lia.
  - rewrite (proj2 (Z.eqb_eq va last)) by (unfold PGSIZE in *; lia). apply wp_ret.
    exists l1. split_and!; auto. exists 1%nat. split; [|by left].
    by replace (Z.of_nat 1 * PGSIZE) with PGSIZE by done.
  - rewrite (proj2 (Z.eqb_neq va last)) by (unfold PGSIZE in *; lia).
    rewrite MAXVA_eq in *. rewrite !u64_id by (destruct Hva; unfold PGSIZE in *; lia).
    eapply wp_mono; [apply (IH (va + PGSIZE) (pa + PGSIZE)) with (l := l1); eauto using tb_tree|].
    all: try (unfold PGSIZE in *; lia).
    + destruct Hva. unfold va_ok, PGSIZE in *. split; [lia|dlia].
    + intros va' Hva' Hr. rewrite Hm by done. unfold PGSIZE in *.
      cases; apply Hnone; try done; lia.
    + cbn beta. intros rc s2 (l2 & Hs2 & Hp2 & Hh2 & k & Hk & Hrc). exists l2.
      split_and!; [done|by eapply tbl_post_trans|congruence|].
      exists (S k). split.
      * replace (Z.of_nat (S k) * PGSIZE) with (PGSIZE + Z.of_nat k * PGSIZE) by lia.
        eapply mapped_to_cons; eauto. unfold PGSIZE. lia.
      * destruct Hrc as [[-> ->]|(-> & -> & ?)]; [by left|right]. split_and!; auto. lia.
Qed.

Lemma mappages_spec r va size pa perm s l :
  kmem_inv s l -> ptree 2 (mem s) r l -> va_ok va -> size mod PGSIZE = 0 -> 0 < size ->
  va + size <= MAXVA -> 0 <= perm < 1024 -> 0 <= pa -> pa + size <= 2 ^ 56 ->
  (forall va', va_ok va' -> va <= va' < va + size -> xlate (mem s) r va' = None) ->
  wp (mappages r va size pa perm) s
     (fun rc s' => exists l', kmem_inv s' l' /\ tbl_post (mem s) (mem s') r l l' /\
        mheld s' = mheld s /\
        exists done, mapped_to (mem s) (mem s') r va done pa perm /\ done mod PGSIZE = 0 /\
        ((rc = 0 /\ done = size) \/ (rc = -1 /\ l' = [] /\ 0 <= done < size))).
Proof.
  intros Hs Ht Hva Hsz Hsz0 Hmax Hperm Hpa Hpa2 Hnone. unfold mappages.
  destruct Hva as [Hb Hal]. rewrite MAXVA_eq in *.
  rewrite Hal, Hsz, (proj2 (Z.eqb_neq size 0)) by lia. cbn [Z.eqb negb].
  rewrite u64_id by (unfold PGSIZE in *; dlia).
  assert (Hn : exists n, size = Z.of_nat (S n) * PGSIZE).
  { exists (Z.to_nat (size / PGSIZE - 1)). unfold PGSIZE in *. dlia. }
  destruct Hn as [n ->].
  eapply wp_mono; [apply (mappages_loop r perm _ n va pa) with (l := l); eauto|].
  - done.
  - unfold PGSIZE. lia.
  - intros va' Hva' Hr. apply Hnone; [done|]. unfold PGSIZE in *. lia.
  - rewrite Z.div_mul by done. lia.
  - cbn beta. intros rc s' (l' & Hs' & Hp & Hh & k & Hk & Hrc). exists l'. split_and!; auto.
    eexists; split_and!; [exact Hk|by apply Z.mod_mul|]. unfold PGSIZE in *.
    destruct Hrc as [[-> ->]|(-> & -> & ?)]; [by left|right]. split_and!; auto; lia.
Qed.

(** Mapping one page takes two pages at most for the table. *)
Lemma mappages_uses r va pa perm s l :
  kmem_inv s l -> ptree 2 (mem s) r l -> va_ok va -> va < MAXVA -> 0 <= perm < 1024 -> 0 <= pa < 2 ^ 56 -> xlate (mem s) r va = None ->
  wp (mappages r va PGSIZE pa perm) s (fun rc s' => exists l', kmem_inv s' l' /\ (length l' <= length l <= length l' + 2)%nat /\ (rc <> 0 -> l' = [])).
Proof.
  intros Hs Ht Hva HvaM Hperm Hpa Hnone. unfold mappages. pose proof Hva as [Hb Hal]. rewrite Hal. cbn [Z.eqb negb].
  change (PGSIZE mod PGSIZE =? 0) with true. change (PGSIZE =? 0) with false. cbn [negb].
  rewrite MAXVA_eq in *. rewrite u64_id by (unfold PGSIZE in *; lia). replace (va + PGSIZE - PGSIZE) with va by lia.
  change (Z.to_nat (PGSIZE / PGSIZE)) with 1%nat. cbn [loop]. apply wp_bind. eapply wp_mono; [by apply (map_one r va va pa perm s l)|].
  cbn beta. intros res s' (l' & Hs' & Hp & _ & Hn & Hres).
  assert (Hle : (length l' <= length l)%nat) by (destruct (tb_used _ _ _ _ _ Hp) as [u ->]; rewrite length_app; lia).
  destruct Hres as [(-> & -> & _)|[-> _]].
  - apply wp_ret. by exists [].
  - rewrite Z.eqb_refl. apply wp_ret. exists l'. split; [done|]. split; [lia|]. by intros [].
Qed.
End code.
