(* ===== verification/AddrSpace.v ===== *)
(** User address spaces: what [uvmunmap], [uvmdealloc], [uvmalloc],
    [freewalk], [uvmfree] and [uvmcopy] of vm.c do to the mappings, to the
    pages behind them and to the free list. *)

From S2P Require Import Prelude.
From S2P Require Import Memory.
From S2P Require Import Spinlock.
From S2P Require Import Riscv.
From S2P Require Import Kalloc.
From S2P Require Import PageTable.

Section space.
Context `{LinkerSyms}.

(** The physical page behind a user address. *)
Definition upage (m : memory) (r va : Z) : option Z := PTE2PA <$> xlate m r va.

(** [q] is no page of the table of [r]. *)
Definition off_table (m : memory) (r q : Z) : Prop :=
  forall π, path_ok 2 π -> page_at m r π <> Some q.

(** A well-formed user address space below [top]: the table is a tree, and
    the mapped pages are distinct RAM pages that are neither free nor part of
    the table. *)
Record uspace (top : Z) (m : memory) (r : Z) (l : list Z) : Prop := {
  us_tree : ptree 2 m r l;
  us_leaf va p : va_ok va -> va < top -> upage m r va = Some p ->
    is_valid_pa p = true /\ (p ∉ l) /\ off_table m r p;
  us_inj va1 va2 p : va_ok va1 -> va_ok va2 -> va1 < top -> va2 < top ->
    upage m r va1 = Some p -> upage m r va2 = Some p -> va1 = va2
}.

(** The mappings of [lo, hi) are gone, the others are as before. *)
Definition unmapped (m m' : memory) (r lo hi : Z) : Prop :=
  forall va, va_ok va ->
    xlate m' r va = if (lo <=? va) && (va <? hi) then None else xlate m r va.

(** What unmapping [lo, hi) and freeing its pages does. *)
Record unmap_post (m m' : memory) (r : Z) (l l' : list Z) (lo hi : Z) : Prop := {
  un_xlate : unmapped m m' r lo hi;
  un_page π : path_ok 2 π -> page_at m' r π = page_at m r π;
  un_free q : q ∈ l' <->
    q ∈ l \/ exists va, va_ok va /\ lo <= va < hi /\ upage m r va = Some q;
  un_out q : q mod PGSIZE = 0 -> q ∉ l' -> off_table m r q -> agree q PGSIZE m m'
}.

Lemma unmapped_upage m m' r lo hi va :
  unmapped m m' r lo hi -> va_ok va ->
  upage m' r va = if (lo <=? va) && (va <? hi) then None else upage m r va.
Proof. intros Hu Hva. unfold upage. rewrite Hu by done. by case_if. Qed.

Lemma unmap_post_refl m r l lo hi :
  (forall va, va_ok va -> lo <= va < hi -> xlate m r va = None) ->
  unmap_post m m r l l lo hi.
Proof.
  intros Hn. split; auto.
  - intros va Hva. cases. by apply Hn.
  - intros q. split; [auto|]. intros [?|(va & Hva & Hr & Hu)]; [done|].
    unfold upage in Hu. by rewrite Hn in Hu.
  - by intros.
Qed.

Lemma unmap_post_trans m1 m2 m3 r l1 l2 l3 lo mid hi :
  lo <= mid <= hi -> unmap_post m1 m2 r l1 l2 lo mid -> unmap_post m2 m3 r l2 l3 mid hi ->
  unmap_post m1 m3 r l1 l3 lo hi.
Proof.
  intros Hle [X1 P1 F1 O1] [X2 P2 F2 O2]. split.
  - intros va Hva. rewrite X2, X1 by done. cases.
  - intros π Hπ. by rewrite P2, P1.
  - intros q. rewrite F2, F1. split.
    + intros [[?|(va & ? & ? & ?)]|(va & Hva & ? & Hu)]; [by left|right; exists va; split_and!; auto; lia|].
      right. exists va. rewrite (unmapped_upage _ _ _ _ _ _ X1 Hva) in Hu. revert Hu.
      cases; intros; split_and!; auto; lia.
    + intros [?|(va & Hva & ? & Hu)]; [by left; left|]. destruct (decide (va < mid)).
      * left; right. exists va. split_and!; auto; lia.
      * right. exists va. rewrite (unmapped_upage _ _ _ _ _ _ X1 Hva). split_and!; auto; try lia. cases.
  - intros q Hq Hl Hoff x Hx. rewrite (O2 q), (O1 q); auto.
    + rewrite F2 in Hl. tauto.
    + intros π Hπ. rewrite P1 by done. auto.
Qed.

(** A write outside the table leaves the mappings alone. *)
Lemma tree_agree_slot m m' r va :
  tree_agree 2 m m' r -> pte_slot m' r va = pte_slot m r va.
Proof.
  intros Ha. unfold pte_slot. rewrite (page_at_agree 2 m m'); auto.
  apply (path_ok_le 2 3); [lia|apply PX_path].
Qed.

Lemma tree_agree_xlate m m' r : tree_agree 2 m m' r -> same_xlate m m' r.
Proof.
  intros Ha va. rewrite !xlate_leaf. unfold leaf. rewrite (page_at_agree 2 m m'); auto.
  - destruct (page_at m r _) as [p|] eqn:Hp; [|done]. cbn.
    rewrite (pte_at_agree m m'); [done| |apply PX_range; lia]. apply (Ha _ p (PX_path va) Hp).
  - apply (path_ok_le 2 3); [lia|apply PX_path].
Qed.

Lemma same_upage m m' r va : same_xlate m m' r -> upage m' r va = upage m r va.
Proof. intros Hx. unfold upage. by rewrite Hx. Qed.

Lemma ptree_cons m r l q : ptree 2 m r l -> off_table m r q -> ptree 2 m r (q :: l).
Proof.
  intros [Hi Hv Hd] Hq. split; auto. intros π p Hπ Hp. destruct (Hv π p Hπ Hp). split; [done|].
  apply not_elem_of_cons. split; [|done]. intros ->. by apply (Hq π).
Qed.

(** Freeing a page off the table. *)
Lemma kfree_off_table r q s l :
  kmem_inv s l -> ptree 2 (mem s) r l -> is_valid_pa q = true -> q ∉ l -> off_table (mem s) r q ->
  wp (kfree q) s (fun _ s' => kmem_inv s' (q :: l) /\ mem_frame q (mem s) (mem s') /\
    mheld s' = mheld s /\ tree_agree 2 (mem s) (mem s') r /\ ptree 2 (mem s') r (q :: l)).
Proof.
  intros Hs Ht Hq Hl Hoff. eapply wp_mono; [by apply (kfree_spec s l)|].
  intros _ s1 (Hs1 & Hf & Hh). assert (Hag : tree_agree 2 (mem s) (mem s1) r).
  { eapply tree_agree_frame; eauto. by apply is_valid_pa_spec in Hq as [? _]. }
  split_and!; auto. apply (ptree_agree 2 (mem s)); [by apply ptree_cons|done].
Qed.

Lemma frame_agree q p m m' :
  mem_frame q m m' -> q mod PGSIZE = 0 -> p mod PGSIZE = 0 -> p <> q -> agree p PGSIZE m m'.
Proof.
  intros Hf Hq Hp Hne x Hx. apply Hf.
  destruct (page_disjoint_ne p q Hp Hq Hne); unfold PGSIZE in *; lia.
Qed.

Lemma uspace_unmap top m m' r l va q :
  uspace top m r l -> va_ok va -> va < top -> upage m r va = Some q -> ptree 2 m' r (q :: l) ->
  unmapped m m' r va (va + PGSIZE) -> (forall π, path_ok 2 π -> page_at m' r π = page_at m r π) ->
  uspace top m' r (q :: l).
Proof.
  intros Hu Hva Hvt Hq Ht Hun Hpg. split; [done|..].
  - intros va' p Hva' Hvt'. rewrite (unmapped_upage _ _ _ _ _ _ Hun Hva'). case_if; [done|..].
    all: intros Hp; destruct (us_leaf _ _ _ _ Hu va' p) as (? & ? & Hoff); auto.
    all: split_and!; [done| |by intros π Hπ; rewrite Hpg by done; apply Hoff].
    all: apply not_elem_of_cons; split; [|done]; intros ->.
    all: assert (va' = va) by (by apply (us_inj _ _ _ _ Hu va' va q)); unfold PGSIZE in *; lia.
  - intros va1 va2 p Ha1 Ha2 Hl1 Hl2. rewrite !(unmapped_upage _ _ _ _ _ _ Hun) by done.
    intros H1 H2. apply (us_inj _ _ _ _ Hu va1 va2 p); auto.
    + revert H1. by case_if.
    + revert H2. by case_if.
Qed.

(** One page. *)
Lemma unmap_one top r va s l :
  kmem_inv s l -> uspace top (mem s) r l -> va_ok va -> va < top -> top <= MAXVA ->
  wp (uvmunmap_step r va true) s (fun _ s' => exists l', kmem_inv s' l' /\
    uspace top (mem s') r l' /\ unmap_post (mem s) (mem s') r l l' va (va + PGSIZE) /\
    mheld s' = mheld s).
Proof.
  intros Hs Hu Hva Hvt Htop. unfold uvmunmap_step. apply wp_bind, walk_noalloc; [lia|].
  assert (Hone : forall va', va_ok va' -> va <= va' < va + PGSIZE -> va' = va).
  { intros va' [_ ?] ?. destruct Hva. unfold PGSIZE in *. dlia. }
  assert (Hskip : xlate (mem s) r va = None ->
    exists l', kmem_inv s l' /\ uspace top (mem s) r l' /\
      unmap_post (mem s) (mem s) r l l' va (va + PGSIZE) /\ mheld s = mheld s).
  { intros Hn. exists l. split_and!; auto. apply unmap_post_refl. intros va' ??. by rewrite (Hone va'). }
  destruct (pte_slot (mem s) r va) as [a|] eqn:Hslot; cbn [default from_option id].
  2: { apply wp_ret, Hskip. unfold xlate. by rewrite Hslot. }
  pose proof (us_tree _ _ _ _ Hu) as Ht.
  destruct (slot_page _ _ _ _ _ Ht Hslot) as (t & Hpg & Hat & Hvt' & Htl).
  pose proof (is_valid_pa_pos t Hvt'). pose proof (PX_range 0 va ltac:(lia)).
  rewrite (proj2 (Z.eqb_neq a 0)) by lia. apply wp_bind. unfold load64. apply wp_gets.
  set (v := ld64 (mem s) a). destruct (has_flag v PTE_V) eqn:HV; cbn [negb].
  2: { apply wp_ret, Hskip. unfold xlate. rewrite Hslot. cbn. fold v. by rewrite HV. }
  assert (Hup : upage (mem s) r va = Some (PTE2PA v)).
  { unfold upage, xlate. rewrite Hslot. cbn. fold v. by rewrite HV. }
  destruct (us_leaf _ _ _ _ Hu va _ Hva Hvt Hup) as (Hq & Hql & Hoff).
  set (q := PTE2PA v) in *. apply wp_bind. eapply wp_mono; [by apply (kfree_off_table r q s l)|].
  intros _ s1 (Hs1 & Hf1 & Hh1 & Hag & Ht1). unfold store64. apply wp_modify.
  pose proof (tree_agree_xlate _ _ _ Hag) as Hx1. rewrite <- (tree_agree_slot _ _ _ va Hag) in Hslot.
  set (m2 := st64 (mem s1) a 0).
  assert (Hun : unmapped (mem s) m2 r va (va + PGSIZE)).
  { intros va' Hva'. destruct (decide (va' = va)) as [->|Hne].
    - unfold m2. rewrite (leaf_store_same _ _ (q :: l) va a 0) by done. cbn.
      unfold PGSIZE. by rewrite (proj2 (Z.leb_le _ _)), (proj2 (Z.ltb_lt _ _)) by lia.
    - unfold m2. rewrite (leaf_store_other _ _ (q :: l) va a 0) by done. rewrite Hx1.
      cases. by destruct Hne; apply Hone. }
  pose proof (leaf_store_post _ _ _ va a 0 Ht1 Hslot) as Hpost.
  assert (Hpg2 : forall π, path_ok 2 π -> page_at m2 r π = page_at (mem s) r π).
  { intros π Hπ. unfold m2. rewrite (leaf_store_page _ _ (q :: l) va a 0) by done.
    apply (page_at_agree 2); [done|]. by apply (path_ok_le 2 3); [lia|]. }
  exists (q :: l). split_and!; [by eapply leaf_store_inv|..|done]; cbn [mem set_mem]; fold m2.
  - apply (uspace_unmap top (mem s) m2 r l va q); auto. by apply tb_tree in Hpost.
  - split; auto.
    + intros p. rewrite elem_of_cons. split.
      * intros [->|?]; [|by left]. right. exists va. split_and!; auto; unfold PGSIZE; lia.
      * intros [?|(va' & Hva' & Hr & Hu')]; [by right|]. left. rewrite (Hone va') in Hu' by done. congruence.
    + intros p Hp Hpl Hpo x Hx. apply not_elem_of_cons in Hpl as [Hpq Hpl].
      unfold m2. rewrite (tb_out _ _ _ _ _ Hpost p); auto.
      * apply (frame_agree q p); auto. by apply is_valid_pa_spec in Hq as [? _].
      * by apply not_elem_of_cons.
      * intros π Hπ. rewrite (page_at_agree 2 (mem s)); auto. by apply (path_ok_le 2 3); [lia|].
Qed.

Lemma va_ok_next va : va_ok va -> va + PGSIZE <= MAXVA -> va_ok (va + PGSIZE).
Proof. intros [? ?] ?. rewrite MAXVA_eq in *. unfold va_ok, PGSIZE in *. split; [lia|dlia]. Qed.

Lemma uvmunmap_loop top r hi n : forall va s l,
  kmem_inv s l -> uspace top (mem s) r l -> va_ok va -> hi = va + Z.of_nat n * PGSIZE ->
  hi <= top -> top <= MAXVA ->
  forall fuel, (n < fuel)%nat ->
  wp (loop fuel (fun a =>
        if a <? hi then uvmunmap_step r a true >>> ret (inl (u64 (a + PGSIZE))) else ret (inr tt)) va) s
     (fun _ s' => exists l', kmem_inv s' l' /\ uspace top (mem s') r l' /\
        unmap_post (mem s) (mem s') r l l' va hi /\ mheld s' = mheld s).
Proof.
  induction n as [|n IH]; intros va s l Hs Hu Hva Hhi Htop Hmax fuel Hfuel;
    (destruct fuel as [|fuel]; [lia|]); cbn [loop]; apply wp_bind.
  - rewrite (proj2 (Z.ltb_ge va hi)) by lia. apply wp_ret, wp_ret.
    exists l. split_and!; auto. apply unmap_post_refl. intros. lia.
  - pose proof (va_ok_next va Hva) as Hnext. rewrite MAXVA_eq in *. unfold PGSIZE in *.
    rewrite (proj2 (Z.ltb_lt va hi)) by lia.
    apply wp_bind. eapply wp_mono; [apply (unmap_one top r va s l); auto; rewrite ?MAXVA_eq; lia|].
    intros _ s1 (l1 & Hs1 & Hu1 & Hp1 & Hh1). apply wp_ret.
    destruct Hva as [? ?]. rewrite u64_id by lia.
    eapply wp_mono; [apply (IH (va + 4096) s1 l1); auto; try lia; apply Hnext; lia|].
    cbn beta. intros _ s2 (l2 & Hs2 & Hu2 & Hp2 & Hh2). exists l2. split_and!; auto; [|congruence].
    eapply unmap_post_trans; [|exact Hp1|exact Hp2]. unfold PGSIZE. lia.
Qed.

Lemma uvmunmap_spec top r va npages s l :
  kmem_inv s l -> uspace top (mem s) r l -> va_ok va -> 0 <= npages ->
  va + npages * PGSIZE <= top -> top <= MAXVA ->
  wp (uvmunmap r va npages true) s (fun _ s' => exists l', kmem_inv s' l' /\
    uspace top (mem s') r l' /\
    unmap_post (mem s) (mem s') r l l' va (va + npages * PGSIZE) /\ mheld s' = mheld s).
Proof.
  intros Hs Hu Hva Hn Htop Hmax. unfold uvmunmap. destruct Hva as [Hb Hal]. rewrite Hal. cbn [Z.eqb negb].
  rewrite MAXVA_eq in *. rewrite u64_id by (unfold PGSIZE in *; lia).
  apply (uvmunmap_loop top r _ (Z.to_nat npages)); auto; rewrite ?MAXVA_eq; try lia; try done.
  by rewrite Z2Nat.id.
Qed.

Lemma PGROUNDUP_props a :
  0 <= a <= MAXVA -> va_ok (PGROUNDUP a) /\ a <= PGROUNDUP a < a + PGSIZE /\ PGROUNDUP a <= MAXVA.
Proof.
  rewrite MAXVA_eq. intros Ha. rewrite PGROUNDUP_eq by (unfold PGSIZE; lia).
  unfold va_ok, PGSIZE. split_and!; dlia.
Qed.

(** [uvmdealloc] shrinks the space to [newsz]. *)
Lemma uvmdealloc_spec top r oldsz newsz s l :
  kmem_inv s l -> uspace top (mem s) r l -> 0 <= newsz -> 0 <= oldsz -> PGROUNDUP oldsz <= top ->
  oldsz <= MAXVA -> top <= MAXVA ->
  wp (uvmdealloc r oldsz newsz) s (fun rc s' => exists l', kmem_inv s' l' /\
    uspace top (mem s') r l' /\ rc = Z.min oldsz newsz /\ mheld s' = mheld s /\
    unmap_post (mem s) (mem s') r l l' (PGROUNDUP (Z.min oldsz newsz)) (PGROUNDUP oldsz)).
Proof.
  intros Hs Hu Hn Ho Htop Ho' Hmax. unfold uvmdealloc. case_if.
  { apply wp_ret. exists l. rewrite Z.min_l by lia. split_and!; auto. apply unmap_post_refl. intros; lia. }
  rewrite Z.min_r by lia. apply wp_bind.
  destruct (PGROUNDUP_props newsz) as ([? ?] & ? & ?); [lia|].
  destruct (PGROUNDUP_props oldsz) as ([? ?] & ? & ?); [lia|].
  case_if.
  - set (np := (PGROUNDUP oldsz - PGROUNDUP newsz) / PGSIZE).
    assert (Hnp : 0 <= np < 2 ^ 31 /\ PGROUNDUP newsz + np * PGSIZE = PGROUNDUP oldsz).
    { unfold np. rewrite MAXVA_eq in *. unfold PGSIZE in *. dlia. }
    destruct Hnp as [? Hnp]. rewrite i32_id, u64_id by lia.
    eapply wp_mono; [apply (uvmunmap_spec top r _ _ s l); auto; try lia; done|].
    intros _ s' (l' & ? & ? & ? & ?). apply wp_ret. exists l'. rewrite Hnp in *. split_and!; auto.
  - apply wp_ret, wp_ret. exists l. split_and!; auto. apply unmap_post_refl. intros; lia.
Qed.
(** ** Growing *)

(** The pages of the free list, the table and the mappings below [top]:
    what an operation may move around but must not lose. *)
Definition owned (top : Z) (m : memory) (r : Z) (l : list Z) (q : Z) : Prop :=
  q ∈ l \/ (exists π, path_ok 2 π /\ page_at m r π = Some q) \/
  exists va, va_ok va /\ va < top /\ upage m r va = Some q.

Lemma owned_unmap top m m' r l l' lo hi q :
  unmap_post m m' r l l' lo hi -> hi <= top -> owned top m' r l' q <-> owned top m r l q.
Proof.
  intros [X P F _] Hhi. unfold owned. rewrite F. split.
  - intros [[?|(va & ? & ? & ?)]|[(π & Hπ & Hq)|(va & Hva & Hlt & Hu)]]; [by left| |..].
    + right; right. exists va. split_and!; auto. lia.
    + right; left. exists π. by rewrite <- P.
    + right; right. exists va. rewrite (unmapped_upage _ _ _ _ _ _ X Hva) in Hu.
      revert Hu. by case_if.
  - intros [?|[(π & Hπ & Hq)|(va & Hva & Hlt & Hu)]]; [by left; left|..].
    + right; left. exists π. by rewrite P.
    + destruct (decide (lo <= va < hi)).
      * left; right. eauto.
      * right; right. exists va. rewrite (unmapped_upage _ _ _ _ _ _ X Hva). split_and!; auto. cases.
Qed.

(** Pages off the free list and the table keep their place and contents. *)
Definition kept (m m' : memory) (r : Z) (l l' : list Z) : Prop :=
  forall q, q mod PGSIZE = 0 -> q ∉ l -> off_table m r q ->
    (q ∉ l') /\ off_table m' r q /\ agree q PGSIZE m m'.

Lemma kept_refl m r l : kept m m r l l.
Proof. intros q ???. split_and!; auto. by intros. Qed.

Lemma kept_trans m1 m2 m3 r l1 l2 l3 :
  kept m1 m2 r l1 l2 -> kept m2 m3 r l2 l3 -> kept m1 m3 r l1 l3.
Proof.
  intros H1 H2 q Hq Hl Ho. destruct (H1 q Hq Hl Ho) as (Hl2 & Ho2 & Ha2).
  destruct (H2 q Hq Hl2 Ho2) as (Hl3 & Ho3 & Ha3). split_and!; auto.
  intros x Hx. by rewrite Ha3, Ha2.
Qed.

Lemma tbl_post_kept m m' r l l' : tbl_post m m' r l l' -> kept m m' r l l'.
Proof.
  intros Hp q Hq Hl Ho. destruct (tb_used _ _ _ _ _ Hp) as [u ->]. split_and!.
  - apply not_elem_of_app in Hl. tauto.
  - intros π Hπ Hpg. destruct (tb_new _ _ _ _ _ Hp π q Hπ Hpg); [|done]. by apply (Ho π).
  - by apply (tb_out _ _ _ _ _ Hp).
Qed.

(** [xlate] at page addresses is all an address space is. *)
Definition same_map (m m' : memory) (r : Z) : Prop :=
  forall va, va_ok va -> xlate m' r va = xlate m r va.

Lemma uspace_same top m m' r l l' :
  uspace top m r l -> tbl_post m m' r l l' -> same_map m m' r -> uspace top m' r l'.
Proof.
  intros Hu Hp Hx. split; [by apply (tb_tree _ _ _ _ _ Hp)|..].
  - intros va q Hva Hlt. unfold upage. rewrite Hx by done. intros Hq.
    destruct (us_leaf _ _ _ _ Hu va q Hva Hlt Hq) as (Hv & Hl & Ho).
    destruct (tbl_post_kept _ _ _ _ _ Hp q) as (? & ? & _); auto.
    by apply is_valid_pa_spec in Hv as [? _].
  - intros va1 va2 q H1 H2. unfold upage. rewrite !Hx by done. by apply (us_inj _ _ _ _ Hu).
Qed.

Lemma owned_same top m m' r l l' q :
  tbl_post m m' r l l' -> same_map m m' r -> owned top m' r l' q <-> owned top m r l q.
Proof.
  intros Hp Hx. unfold owned. split.
  - intros [Hq|[(π & Hπ & Hq)|(va & Hva & Hlt & Hu)]].
    + left. destruct (tb_used _ _ _ _ _ Hp) as [u ->]. apply elem_of_app. by right.
    + destruct (tb_new _ _ _ _ _ Hp π q Hπ Hq); [right; left; eauto|by left].
    + right; right. exists va. split_and!; auto. unfold upage in *. by rewrite <- Hx.
  - intros [Hq|[(π & Hπ & Hq)|(va & Hva & Hlt & Hu)]].
    + destruct (tb_kept _ _ _ _ _ Hp q Hq); auto.
    + right; left. exists π. split; [done|]. by apply (tb_page _ _ _ _ _ Hp).
    + right; right. exists va. split_and!; auto. unfold upage in *. by rewrite Hx.
Qed.

(** [q] is a RAM page that nothing uses: not free, not in the table of [r],
    not mapped below [top]. *)
Record spare (top : Z) (m : memory) (r : Z) (l : list Z) (q : Z) : Prop := {
  sp_valid : is_valid_pa q = true;
  sp_free : q ∉ l;
  sp_off : off_table m r q;
  sp_map va : va_ok va -> va < top -> upage m r va <> Some q
}.

(** The two memories show the same table and mappings. *)
Record same_space (m m' : memory) (r : Z) : Prop := {
  ss_page π : path_ok 2 π -> page_at m' r π = page_at m r π;
  ss_xlate : same_xlate m m' r
}.

Lemma same_space_agree m m' r : tree_agree 2 m m' r -> same_space m m' r.
Proof.
  intros Ha. split; [|by apply tree_agree_xlate].
  intros π Hπ. apply (page_at_agree 2); [done|]. by apply (path_ok_le 2 3); [lia|].
Qed.

Lemma same_space_off m m' r q : same_space m m' r -> off_table m r q -> off_table m' r q.
Proof. intros Hs Ho π Hπ. rewrite (ss_page _ _ _ Hs) by done. auto. Qed.

Lemma owned_space top m m' r l q : same_space m m' r -> owned top m' r l q <-> owned top m r l q.
Proof.
  intros Hs. unfold owned. f_equiv. f_equiv.
  - f_equiv. intros π. split; intros [Hπ Hp]; (split; [done|]);
      [rewrite <- (ss_page _ _ _ Hs)|rewrite (ss_page _ _ _ Hs)]; done.
  - f_equiv. intros va. by rewrite (same_upage m m') by apply Hs.
Qed.

(** Writes to a page off the table. *)
Lemma frame_space m m' r l q :
  ptree 2 m r l -> mem_frame q m m' -> q mod PGSIZE = 0 -> off_table m r q ->
  same_space m m' r /\ ptree 2 m' r l.
Proof.
  intros Ht Hf Hq Ho. assert (Ha : tree_agree 2 m m' r) by (by eapply tree_agree_frame).
  split; [by apply same_space_agree|by eapply ptree_agree].
Qed.

Lemma uspace_space top m m' r l :
  uspace top m r l -> same_space m m' r -> ptree 2 m' r l -> uspace top m' r l.
Proof.
  intros Hu Hs Ht. split; [done|..].
  - intros va p Hva Hlt. rewrite (same_upage m m') by apply Hs. intros Hp.
    destruct (us_leaf _ _ _ _ Hu va p) as (? & ? & ?); auto. eauto using same_space_off.
  - intros va1 va2 p H1 H2. rewrite !(same_upage m m') by apply Hs. by apply (us_inj _ _ _ _ Hu).
Qed.

Lemma spare_space top m m' r l q : spare top m r l q -> same_space m m' r -> spare top m' r l q.
Proof.
  intros [Hv Hl Ho Hm] Hs. split; eauto using same_space_off.
  intros va Hva Hlt. rewrite (same_upage m m') by apply Hs. auto.
Qed.

Lemma uspace_frame top m m' r l q :
  uspace top m r l -> mem_frame q m m' -> spare top m r l q ->
  uspace top m' r l /\ same_space m m' r /\ spare top m' r l q.
Proof.
  intros Hu Hf Hq. destruct (frame_space m m' r l q) as [Hs Ht]; auto.
  - apply (us_tree _ _ _ _ Hu).
  - by apply (is_valid_pa_spec q), Hq.
  - apply Hq.
  - split_and!; [by eapply uspace_space|done|by eapply spare_space].
Qed.

(** A page moves between the free list and being spare. *)
Lemma uspace_take top m r l q :
  uspace top m r (q :: l) -> is_valid_pa q = true -> q ∉ l -> uspace top m r l /\ spare top m r l q.
Proof.
  intros Hu Hv Hl. split.
  - split; [|..|apply Hu].
    + apply (ptree_sub 2 m r (q :: l)); [apply Hu|]. intros. apply elem_of_cons. by right.
    + intros va p Hva Hlt Hp. destruct (us_leaf _ _ _ _ Hu va p Hva Hlt Hp) as (? & Hx & ?).
      apply not_elem_of_cons in Hx. tauto.
  - split; [done|done|..].
    + intros π Hπ Hp. destruct (pt_valid _ _ _ _ (us_tree _ _ _ _ Hu) π q Hπ Hp) as [_ Hx].
      apply not_elem_of_cons in Hx. tauto.
    + intros va Hva Hlt Hp. destruct (us_leaf _ _ _ _ Hu va q Hva Hlt Hp) as (_ & Hx & _).
      apply not_elem_of_cons in Hx. tauto.
Qed.

Lemma uspace_give top m r l q : uspace top m r l -> spare top m r l q -> uspace top m r (q :: l).
Proof.
  intros Hu [Hv Hl Ho Hm]. split; [by apply ptree_cons; [apply Hu|]|..|apply Hu].
  intros va p Hva Hlt Hp. destruct (us_leaf _ _ _ _ Hu va p Hva Hlt Hp) as (? & ? & ?).
  split_and!; auto. apply not_elem_of_cons. split; [|done]. intros ->. by apply (Hm va).
Qed.

Lemma spare_post top m m' r l l' q :
  spare top m r l q -> tbl_post m m' r l l' -> same_map m m' r ->
  spare top m' r l' q /\ agree q PGSIZE m m'.
Proof.
  intros [Hv Hl Ho Hm] Hp Hx.
  destruct (tbl_post_kept _ _ _ _ _ Hp q) as (? & ? & ?); auto.
  { by apply is_valid_pa_spec in Hv as [? _]. }
  split; [|done]. split; auto. intros va Hva Hlt. unfold upage. rewrite Hx by done. by apply Hm.
Qed.

Lemma owned_cons top m r l q p : owned top m r (q :: l) p <-> p = q \/ owned top m r l p.
Proof. unfold owned. rewrite elem_of_cons. tauto. Qed.

(** In [m'] the page at [va] is mapped to [q], the rest is as in [m]. *)
Definition mapped_page (m m' : memory) (r va q perm : Z) : Prop :=
  forall va', va_ok va' ->
    xlate m' r va' = if va' =? va then Some (mk_pte q perm) else xlate m r va'.

Lemma mapped_to_page m m' r va q perm :
  va_ok va -> mapped_to m m' r va PGSIZE q perm -> mapped_page m m' r va q perm.
Proof.
  intros [? Hal] Hm va' Hva'. rewrite Hm by done. destruct Hva' as [? Hal']. unfold PGSIZE in *.
  cases; try (exfalso; dlia). do 2 f_equal. lia.
Qed.

Lemma mapped_upage m m' r va q perm va' :
  mapped_page m m' r va q perm -> is_valid_pa q = true -> 0 <= perm < 1024 -> va_ok va' ->
  upage m' r va' = if va' =? va then Some q else upage m r va'.
Proof.
  intros Hm Hq Hp Hva'. unfold upage. rewrite Hm by done. case_if; [|done].
  pose proof (is_valid_pa_pos q Hq). apply is_valid_pa_spec in Hq as [? _].
  cbn. by rewrite mk_pte_PA by (done || lia).
Qed.

Section map_spare.
Context (top : Z) (m m' : memory) (r : Z) (l l' : list Z) (va q perm : Z).
Hypothesis Hu : uspace top m r l.
Hypothesis Hq : spare top m r l q.
Hypothesis Hpost : tbl_post m m' r l l'.
Hypothesis Hmap : mapped_page m m' r va q perm.
Hypothesis Hperm : 0 <= perm < 1024.
Hypothesis Hva : va_ok va.
Hypothesis Hlt : va < top.
Hypothesis Hnone : xlate m r va = None.

Lemma uspace_map : uspace top m' r l'.
Proof.
  pose proof (tbl_post_kept _ _ _ _ _ Hpost) as Hk. split; [apply Hpost|..].
  - intros va' p Hva' Hlt'. rewrite (mapped_upage _ _ _ _ _ _ _ Hmap) by (done || apply Hq).
    intros Hp. assert (Hx : is_valid_pa p = true /\ (p ∉ l) /\ off_table m r p).
    { revert Hp. case_if; [intros [= <-]; by destruct Hq|]. by apply Hu. }
    destruct Hx as (Hv & Hl & Ho). destruct (Hk p) as (? & ? & _); auto.
    by apply is_valid_pa_spec in Hv as [? _].
  - intros va1 va2 p H1 H2 Hl1 Hl2. rewrite !(mapped_upage _ _ _ _ _ _ _ Hmap) by (done || apply Hq).
    repeat case_if; subst; auto.
    + intros [= <-] Hx. by destruct (sp_map _ _ _ _ _ Hq va2 H2 Hl2).
    + intros Hx [= <-]. by destruct (sp_map _ _ _ _ _ Hq va1 H1 Hl1).
    + by apply (us_inj _ _ _ _ Hu).
Qed.

Lemma owned_map p : owned top m' r l' p <-> owned top m r (q :: l) p.
Proof.
  rewrite owned_cons. unfold owned. split.
  - intros [Hp|[(π & Hπ & Hp)|(va' & Hva' & Hlt' & Hp)]].
    + right; left. destruct (tb_used _ _ _ _ _ Hpost) as [u ->]. apply elem_of_app. by right.
    + destruct (tb_new _ _ _ _ _ Hpost π p Hπ Hp); [right; right; left; eauto|by right; left].
    + rewrite (mapped_upage _ _ _ _ _ _ _ Hmap) in Hp by (done || apply Hq). revert Hp.
      case_if; [intros [= <-]; by left|intros; right; right; right; eauto].
  - intros [->|[Hp|[(π & Hπ & Hp)|(va' & Hva' & Hlt' & Hp)]]].
    + right; right. exists va. rewrite (mapped_upage _ _ _ _ _ _ _ Hmap) by (done || apply Hq).
      by rewrite Z.eqb_refl.
    + destruct (tb_kept _ _ _ _ _ Hpost p Hp); auto.
    + right; left. exists π. split; [done|]. by apply (tb_page _ _ _ _ _ Hpost).
    + right; right. exists va'. rewrite (mapped_upage _ _ _ _ _ _ _ Hmap) by (done || apply Hq).
      case_if; [|done]. subst. unfold upage in Hp. by rewrite Hnone in Hp.
Qed.
End map_spare.

(** Mapping a spare page: success, or failure with the page still spare. *)
Lemma map_spare_spec top r va q perm s l :
  kmem_inv s l -> uspace top (mem s) r l -> spare top (mem s) r l q ->
  va_ok va -> va < top -> top <= MAXVA -> xlate (mem s) r va = None -> 0 <= perm < 1024 ->
  wp (mappages r va PGSIZE q perm) s (fun rc s' => exists l', kmem_inv s' l' /\
    uspace top (mem s') r l' /\ mheld s' = mheld s /\ kept (mem s) (mem s') r l l' /\
    agree q PGSIZE (mem s) (mem s') /\ (exists u, l = u ++ l') /\
    ((rc = 0 /\ mapped_page (mem s) (mem s') r va q perm /\
      forall p, owned top (mem s') r l' p <-> owned top (mem s) r (q :: l) p) \/
     (rc = -1 /\ l' = [] /\ same_map (mem s) (mem s') r /\ spare top (mem s') r l' q /\
      forall p, owned top (mem s') r (q :: l') p <-> owned top (mem s) r (q :: l) p))).
Proof.
  intros Hs Hu Hq Hva Hlt Htop Hnone Hperm.
  pose proof (is_valid_pa_pos q (sp_valid _ _ _ _ _ Hq)) as Hpos.
  assert (Hal : q mod PGSIZE = 0) by (by apply (is_valid_pa_spec q), Hq).
  assert (Hqtop : q + PGSIZE <= 2 ^ 56) by (unfold PGSIZE in *; dlia).
  assert (Hvatop : va + PGSIZE <= MAXVA).
  { destruct Hva. rewrite MAXVA_eq in *. unfold PGSIZE in *. dlia. }
  eapply wp_mono; [apply (mappages_spec r va PGSIZE q perm s l); auto; try done; try lia|].
  { apply Hu. }
  { intros va' Hva' Hr. replace va' with va; [done|]. destruct Hva, Hva'. unfold PGSIZE in *. dlia. }
  cbn beta. intros rc s' (l' & Hs' & Hp & Hh & dn & Hm & Hdn & Hrc). exists l'.
  pose proof (tbl_post_kept _ _ _ _ _ Hp) as Hk.
  destruct Hrc as [[-> ->]|(-> & -> & Hr)].
  - apply (mapped_to_page _ _ _ _ _ _ Hva) in Hm.
    split_and!; auto; [by eapply uspace_map|by apply Hk; [..|apply Hq]; [|apply Hq]|apply Hp|].
    left. split_and!; auto. intros p. by eapply owned_map.
  - assert (Hx : same_map (mem s) (mem s') r).
    { intros va' Hva'. rewrite Hm by done. replace dn with 0 by (unfold PGSIZE in *; dlia). cases. }
    destruct (spare_post _ _ _ _ _ _ _ Hq Hp Hx) as [Hq' Ha].
    split_and!; auto; [by eapply uspace_same|apply Hp|]. right. split_and!; auto.
    intros p. rewrite !owned_cons. f_equiv. by apply owned_same.
Qed.

(** ** Filling a range *)

(** What a range is to be filled with: permissions and contents per page. *)
Definition filling : Type := Z -> option (Z * (Z -> Z)).

Definition filling_ok (F : filling) : Prop := forall va perm c, F va = Some (perm, c) -> 0 <= perm < 1024.

(** In [m'] the pages of [lo, hi) that [F] fills are mapped to pages taken
    from the free list [l], with the contents of [F]; the rest is as in [m]. *)
Definition filled (F : filling) (m m' : memory) (r : Z) (l : list Z) (lo hi : Z) : Prop :=
  forall va, va_ok va ->
    match (if (lo <=? va) && (va <? hi) then F va else None) with
    | Some (perm, c) =>
        exists p, xlate m' r va = Some (mk_pte p perm) /\ p ∈ l /\ is_valid_pa p = true /\
          (forall x, 0 <= x < PGSIZE -> m' (p + x) = c x)
    | None => xlate m' r va = xlate m r va
    end.

Record grow_post (top : Z) (F : filling) (m m' : memory) (r : Z) (l l' : list Z) (lo hi : Z) : Prop := {
  gp_map : filled F m m' r l lo hi;
  gp_own p : owned top m' r l' p <-> owned top m r l p;
  gp_kept : kept m m' r l l';
  gp_sub p : p ∈ l' -> p ∈ l
}.

(** The mappings of [lo, hi) are gone, and no page is lost. *)
Record shrink_post (top : Z) (m m' : memory) (r : Z) (l l' : list Z) (lo hi : Z) : Prop := {
  sk_map : unmapped m m' r lo hi;
  sk_own p : owned top m' r l' p <-> owned top m r l p;
  sk_out q : q mod PGSIZE = 0 -> q ∉ l -> off_table m r q ->
    (forall va, va_ok va -> lo <= va < hi -> upage m r va <> Some q) ->
    (q ∉ l') /\ off_table m' r q /\ agree q PGSIZE m m'
}.

Lemma unmap_shrink top m m' r l l' lo hi :
  unmap_post m m' r l l' lo hi -> hi <= top -> shrink_post top m m' r l l' lo hi.
Proof.
  intros Hp Hhi. split; [apply Hp|by intros; eapply owned_unmap|]. intros q Hq Hl Ho Hm.
  assert (Hl' : q ∉ l').
  { rewrite (un_free _ _ _ _ _ _ _ Hp). intros [?|(va & ? & ? & ?)]; [done|]. by apply (Hm va). }
  split_and!; [done| |by apply (un_out _ _ _ _ _ _ _ Hp)].
  intros π Hπ. rewrite (un_page _ _ _ _ _ _ _ Hp) by done. auto.
Qed.

Lemma grow_post_refl top F m r l lo : grow_post top F m m r l l lo lo.
Proof. split; auto using kept_refl. - intros va _. cases. Qed.

(** A page that [F] does not fill. *)
Lemma grow_post_skip top F m r l va :
  va_ok va -> F va = None -> grow_post top F m m r l l va (va + PGSIZE).
Proof.
  intros Hva HF. split; auto using kept_refl. intros va' Hva'. cases.
  assert (va' = va) as -> by (destruct Hva, Hva'; unfold PGSIZE in *; dlia). by rewrite HF.
Qed.

Lemma mk_pte_upage m r va p perm :
  xlate m r va = Some (mk_pte p perm) -> is_valid_pa p = true -> 0 <= perm < 1024 ->
  upage m r va = Some p.
Proof.
  intros Hx Hv Hp. pose proof (is_valid_pa_pos p Hv). apply is_valid_pa_spec in Hv as [? _].
  unfold upage. rewrite Hx. cbn. by rewrite mk_pte_PA by (done || lia).
Qed.

Lemma grow_post_trans top F m1 m2 m3 r l1 l2 l3 lo mid hi :
  lo <= mid <= hi -> uspace top m2 r l2 -> hi <= top -> filling_ok F ->
  grow_post top F m1 m2 r l1 l2 lo mid -> grow_post top F m2 m3 r l2 l3 mid hi ->
  grow_post top F m1 m3 r l1 l3 lo hi.
Proof.
  intros Hle Hu Hhi HF [M1 O1 K1 S1] [M2 O2 K2 S2]. split; eauto using kept_trans.
  - intros va Hva. specialize (M1 va Hva). specialize (M2 va Hva). revert M1 M2.
    destruct (F va) as [[perm c]|] eqn:EF; cases.
    + intros (p & Hx & Hp & Hv & Hz) Hx3. exists p. rewrite Hx3. split_and!; auto.
      intros x Hxp. rewrite <- (Hz x Hxp).
      destruct (us_leaf _ _ _ _ Hu va p) as (? & ? & ?); auto; [lia|..].
      * by eapply mk_pte_upage; [..|eapply HF].
      * apply (K2 p); auto; [by apply is_valid_pa_spec in Hv as [? _]|lia].
    + by intros -> ->.
    + intros Hx (p & Hx3 & Hp & Hv & Hz). exists p. split_and!; auto.
    + by intros -> ->.
    + by intros -> ->.
    + by intros -> ->.
    + by intros -> ->.
    + by intros -> ->.
  - intros p. by rewrite O2, O1.
Qed.

(** Nothing a process can see has changed. *)
Record quiet (top : Z) (m m' : memory) (r : Z) (l l' : list Z) : Prop := {
  qu_map : same_map m m' r;
  qu_own p : owned top m' r l' p <-> owned top m r l p;
  qu_kept : kept m m' r l l'
}.

Lemma quiet_shrink top m1 m2 m3 r l1 l2 l3 lo hi :
  quiet top m1 m2 r l1 l2 -> shrink_post top m2 m3 r l2 l3 lo hi -> shrink_post top m1 m3 r l1 l3 lo hi.
Proof.
  intros [X1 O1 K1] [M2 O2 K2]. split.
  - intros va Hva. rewrite M2, X1 by done. done.
  - intros p. by rewrite O2, O1.
  - intros q Hq Hl Ho Hm. destruct (K1 q Hq Hl Ho) as (Hl2 & Ho2 & Ha2).
    destruct (K2 q Hq Hl2 Ho2) as (? & ? & Ha3).
    + intros va Hva Hr. unfold upage. rewrite X1 by done. by apply Hm.
    + split_and!; auto. intros x Hx. by rewrite Ha3, Ha2.
Qed.

Lemma grow_shrink top F m1 m2 m3 r l1 l2 l3 lo hi :
  uspace top m2 r l2 -> hi <= top -> filling_ok F ->
  (forall va, va_ok va -> lo <= va < hi -> xlate m1 r va = None) ->
  grow_post top F m1 m2 r l1 l2 lo hi -> shrink_post top m2 m3 r l2 l3 lo hi ->
  quiet top m1 m3 r l1 l3.
Proof.
  intros Hu Hhi HF Hnone [M1 O1 K1 S1] [M2 O2 K2]. split.
  - intros va Hva. rewrite M2 by done. specialize (M1 va Hva). revert M1. cases.
    intros _. by rewrite Hnone.
  - intros p. by rewrite O2, O1.
  - intros q Hq Hl Ho. destruct (K1 q Hq Hl Ho) as (Hl2 & Ho2 & Ha2).
    destruct (K2 q Hq Hl2 Ho2) as (? & ? & Ha3).
    + intros va Hva Hr Hup. specialize (M1 va Hva).
      rewrite (proj2 (Z.leb_le _ _)), (proj2 (Z.ltb_lt _ _)) in M1 by lia. cbn [andb] in M1.
      destruct (F va) as [[perm c]|] eqn:EF.
      * destruct M1 as (p & Hx & Hp & Hv & _). apply Hl. replace q with p; [done|].
        apply (mk_pte_upage m2 r va) in Hx; [congruence|done|by eapply HF].
      * unfold upage in Hup. rewrite M1, Hnone in Hup by done. done.
    + split_and!; auto. intros x Hx. by rewrite Ha3, Ha2.
Qed.

(** ** Taking a page, filling it, mapping it *)

(** After [kalloc] and any writes [m1] to the new page. *)
Record taken (top : Z) (s s1 : machine) (r : Z) (l l1 : list Z) (q : Z) : Prop := {
  tk_list : l = q :: l1;
  tk_inv : kmem_inv s1 l1;
  tk_space : uspace top (mem s1) r l1;
  tk_spare : spare top (mem s1) r l1 q;
  tk_same : same_space (mem s) (mem s1) r;
  tk_frame : mem_frame q (mem s) (mem s1);
  tk_held : mheld s1 = mheld s
}.

Lemma kalloc_taken top r s l (Q : Z -> machine -> Prop) :
  kmem_inv s l -> uspace top (mem s) r l -> (l = [] -> Q 0 s) ->
  (forall q l1 s1, q <> 0 -> taken top s s1 r l l1 q -> Q q s1) -> wp kalloc s Q.
Proof.
  intros Hs Hu Hnil HQ. apply (kalloc_spec s l); auto.
  intros q l1 s1 -> H0 Hv Hl Hs1 Hf Hh _. apply (HQ q l1 s1); [done|].
  destruct (uspace_take top (mem s) r l1 q Hu Hv Hl) as [Hu1 Hsp].
  destruct (uspace_frame top (mem s) (mem s1) r l1 q) as (? & ? & ?); auto. split; auto.
Qed.

Lemma taken_write top r s s1 l l1 q m1 :
  taken top s s1 r l l1 q -> mem_frame q (mem s1) m1 -> bytes_ok m1 ->
  taken top s (set_mem m1 s1) r l l1 q.
Proof.
  intros [Hl Hi Hu Hsp Hsame Hf Hh] Hf1 Hb.
  destruct (uspace_frame top (mem s1) m1 r l1 q) as (? & Hs1 & ?); auto.
  split; cbn [mem set_mem mheld]; auto.
  - eapply (kmem_inv_write s1 l1 q); eauto; apply Hsp.
  - split.
    + intros π Hπ. by rewrite (ss_page _ _ _ Hs1), (ss_page _ _ _ Hsame).
    + apply (same_xlate_trans _ (mem s1)); [apply Hsame|apply Hs1].
  - intros x Hx. by rewrite Hf1, Hf.
Qed.

Lemma taken_kept top s s1 r l l1 q : taken top s s1 r l l1 q -> kept (mem s) (mem s1) r l l1.
Proof.
  intros [-> _ _ Hsp Hsame Hf _] p Hp Hl Ho. apply not_elem_of_cons in Hl as [Hpq Hl].
  split_and!; [done|by eapply same_space_off|]. apply (frame_agree q p); auto.
  by apply (is_valid_pa_spec q), Hsp.
Qed.

Lemma taken_owned top s s1 r l l1 q p :
  taken top s s1 r l l1 q -> owned top (mem s1) r (q :: l1) p <-> owned top (mem s) r l p.
Proof. intros [-> _ _ _ Hsame _ _]. by apply owned_space. Qed.

(** Mapping the new page at [va], relative to the state before [kalloc]. *)
Lemma map_taken top r va q perm s s1 l l1 :
  taken top s s1 r l l1 q -> va_ok va -> va < top -> top <= MAXVA ->
  xlate (mem s) r va = None -> 0 <= perm < 1024 ->
  wp (mappages r va PGSIZE q perm) s1 (fun rc s' => exists l', kmem_inv s' l' /\
    uspace top (mem s') r l' /\ mheld s' = mheld s /\ kept (mem s) (mem s') r l l' /\
    agree q PGSIZE (mem s1) (mem s') /\ (forall p, p ∈ l' -> p ∈ l) /\
    ((rc = 0 /\ mapped_page (mem s) (mem s') r va q perm /\
      forall p, owned top (mem s') r l' p <-> owned top (mem s) r l p) \/
     (rc = -1 /\ same_map (mem s) (mem s') r /\ spare top (mem s') r l' q /\
      forall p, owned top (mem s') r (q :: l') p <-> owned top (mem s) r l p))).
Proof.
  intros Htk Hva Hlt Htop Hnone Hperm. pose proof (ss_xlate _ _ _ (tk_same _ _ _ _ _ _ _ Htk)) as Hx.
  eapply wp_mono; [apply (map_spare_spec top r va q perm s1 l1); auto; try apply Htk; by rewrite Hx|].
  cbn beta. intros rc s' (l' & Hs' & Hu' & Hh & Hk & Ha & [u Hsuf] & Hrc). exists l'.
  split_and!; auto.
  - by rewrite Hh, (tk_held _ _ _ _ _ _ _ Htk).
  - eapply kept_trans; [by eapply taken_kept|done].
  - intros p Hp. rewrite (tk_list _ _ _ _ _ _ _ Htk), Hsuf. apply elem_of_cons. right.
    apply elem_of_app. by right.
  - destruct Hrc as [(-> & Hm & Ho)|(-> & -> & Hm & Hsp & Ho)]; [left|right]; split_and!; auto.
    + intros va' Hva'. by rewrite Hm, Hx.
    + intros p. rewrite Ho. by eapply taken_owned.
    + intros va' Hva'. by rewrite Hm, Hx.
    + intros p. rewrite Ho. by eapply taken_owned.
Qed.

(** Returning the page when the mapping failed leaves no trace. *)
Lemma kfree_spare top r q s s1 l l1 :
  kmem_inv s1 l1 -> uspace top (mem s1) r l1 -> spare top (mem s1) r l1 q -> q ∈ l ->
  kept (mem s) (mem s1) r l l1 -> same_map (mem s) (mem s1) r ->
  (forall p, owned top (mem s1) r (q :: l1) p <-> owned top (mem s) r l p) ->
  wp (kfree q) s1 (fun _ s' => kmem_inv s' (q :: l1) /\ uspace top (mem s') r (q :: l1) /\
    mheld s' = mheld s1 /\ quiet top (mem s) (mem s') r l (q :: l1)).
Proof.
  intros Hs1 Hu Hsp Hql Hk Hx Ho.
  eapply wp_mono; [apply (kfree_spec s1 l1); auto; apply Hsp|].
  intros _ s' (Hs' & Hf & Hh). destruct (uspace_frame top (mem s1) (mem s') r l1 q) as (Hu' & Hss & Hsp'); auto.
  split_and!; auto; [by apply uspace_give|]. split.
  - intros va Hva. by rewrite (ss_xlate _ _ _ Hss), Hx.
  - intros p. rewrite <- Ho. by apply owned_space.
  - intros p Hp Hl Hoff. destruct (Hk p Hp Hl Hoff) as (? & ? & Ha).
    assert (Hne : p <> q) by congruence.
    split_and!; [by apply not_elem_of_cons|by eapply same_space_off|].
    intros x Hx'. rewrite <- (Ha x Hx'). apply (frame_agree q p); auto.
    by apply (is_valid_pa_spec q), Hsp.
Qed.

(** Mapping the new page, with contents [c], is one step of filling. *)
Lemma grow_post_one top F r va q perm c s s1 s2 l l1 l2 :
  taken top s s1 r l l1 q -> va_ok va -> F va = Some (perm, c) ->
  (forall x, 0 <= x < PGSIZE -> mem s1 (q + x) = c x) ->
  kept (mem s) (mem s2) r l l2 -> agree q PGSIZE (mem s1) (mem s2) -> (forall p, p ∈ l2 -> p ∈ l) ->
  mapped_page (mem s) (mem s2) r va q perm ->
  (forall p, owned top (mem s2) r l2 p <-> owned top (mem s) r l p) ->
  grow_post top F (mem s) (mem s2) r l l2 va (va + PGSIZE).
Proof.
  intros Htk Hva HF Hc Hk Ha Hsub Hm Ho. split; auto. intros va' Hva'. rewrite Hm by done.
  destruct (decide (va' = va)) as [->|Hne].
  - rewrite Z.leb_refl, Z.eqb_refl, (proj2 (Z.ltb_lt _ _)) by (unfold PGSIZE; lia). cbn [andb].
    rewrite HF. exists q. split_and!; [done| |apply Htk|].
    + rewrite (tk_list _ _ _ _ _ _ _ Htk). apply elem_of_cons. by left.
    + intros x Hx. rewrite Ha by lia. by apply Hc.
  - rewrite (proj2 (Z.eqb_neq va' va)) by done. case_if; [|done..].
    destruct Hva, Hva'. unfold PGSIZE in *. exfalso. dlia.
Qed.
End space.
