(* ===== verification/Uvm.v ===== *)
(** The user-memory operations of vm.c: specifications of [uvmalloc],
    [freewalk], [uvmfree] and [uvmcopy], and the properties of the page-table
    layer. *)

From S2P Require Import Prelude.
From S2P Require Import Memory.
From S2P Require Import Spinlock.
From S2P Require Import Riscv.
From S2P Require Import Kalloc.
From S2P Require Import PageTable.
From S2P Require Import AddrSpace.

Section uvm.
Context `{LinkerSyms}.

Lemma PGROUNDUP_id a : va_ok a -> PGROUNDUP a = a.
Proof. intros [? ?]. rewrite PGROUNDUP_eq by (unfold PGSIZE; lia). unfold PGSIZE in *. dlia. Qed.

(** ** uvmalloc *)

Definition uperm (xperm : Z) : Z := Z.lor (Z.lor PTE_R PTE_U) xperm.

Lemma uperm_range xperm : 0 <= xperm < 1024 -> 0 <= uperm xperm < 1024.
Proof. intros. apply lor_range; [by vm_compute|done]. Qed.

(** Zeroed pages with the permissions [uvmalloc] gives. *)
Definition zero_fill (xperm : Z) : filling := fun _ => Some (uperm xperm, fun _ => 0).

Lemma zero_fill_ok xperm : 0 <= xperm < 1024 -> filling_ok (zero_fill xperm).
Proof. intros Hx va perm c [= <- <-]. by apply uperm_range. Qed.

Lemma page_end top va : va_ok va -> va_ok top -> va < top -> va + PGSIZE <= top.
Proof. intros [? ?] [? ?] ?. unfold PGSIZE in *. dlia. Qed.

Lemma uvmdealloc_shrink top r a lo s l :
  kmem_inv s l -> uspace top (mem s) r l -> va_ok a -> va_ok lo -> lo <= a -> a < top -> top <= MAXVA ->
  wp (uvmdealloc r a lo) s (fun _ s' => exists l', kmem_inv s' l' /\ uspace top (mem s') r l' /\
    mheld s' = mheld s /\ shrink_post top (mem s) (mem s') r l l' lo a).
Proof.
  intros Hs Hu Ha Hlo Hle Hlt Htop. pose proof Ha as [? _]. pose proof Hlo as [? _].
  eapply wp_mono; [apply (uvmdealloc_spec top r a lo s l); auto; rewrite ?PGROUNDUP_id by done; try lia|].
  cbn beta. intros _ s' (l' & ? & ? & _ & ? & Hp). rewrite Z.min_r, !PGROUNDUP_id in Hp by (done || lia).
  exists l'. split_and!; auto. eapply unmap_shrink; [done|lia].
Qed.

Lemma uvmalloc_step_spec top r lo xperm a s l :
  kmem_inv s l -> uspace top (mem s) r l -> va_ok a -> va_ok lo -> lo <= a -> a < top ->
  top <= MAXVA -> xlate (mem s) r a = None -> 0 <= xperm < 1024 ->
  wp (uvmalloc_step r lo xperm a) s (fun res s' => exists l', kmem_inv s' l' /\
    uspace top (mem s') r l' /\ mheld s' = mheld s /\
    ((res = inl (a + PGSIZE) /\ (length l' < length l <= length l' + 3)%nat /\
      grow_post top (zero_fill xperm) (mem s) (mem s') r l l' a (a + PGSIZE)) \/
     (res = inr 0 /\ (length l <= 3)%nat /\ shrink_post top (mem s) (mem s') r l l' lo a))).
Proof.
  intros Hs Hu Ha Hlo Hle Hlt Htop Hnone Hx. pose proof (uperm_range xperm Hx) as Hperm.
  unfold uvmalloc_step. apply wp_bind, (kalloc_taken top r s l); auto.
  { intros ->. cbn [Z.eqb]. apply wp_bind. eapply wp_mono; [by apply (uvmdealloc_shrink top r a lo s [])|].
    cbn beta. intros _ s' (l' & ? & ? & ? & ?). apply wp_ret. exists l'. split_and!; auto. right. split_and!; auto; cbn; lia. }
  intros q l1 s1 Hq0 Htk. rewrite (proj2 (Z.eqb_neq q 0)) by done.
  apply wp_bind. unfold mset. apply wp_modify.
  set (m1 := memset (mem s1) q 0 PGSIZE).
  assert (Htk1 : taken top s (set_mem m1 s1) r l l1 q).
  { apply taken_write; auto.
    - intros x ?. by apply memset_out.
    - apply memset_bytes_ok. by apply (km_bytes s1 l1), Htk. }
  apply wp_bind. fold (uperm xperm).
  eapply wp_mono; [apply wp_and; [by apply (map_taken top r a q (uperm xperm) s (set_mem m1 s1) l l1)|]|].
  { apply (mappages_uses r a q (uperm xperm) (set_mem m1 s1) l1); auto; [apply Htk1|apply (us_tree _ _ _ _ (tk_space _ _ _ _ _ _ _ Htk1))|lia| |].
    - pose proof (is_valid_pa_pos q (sp_valid _ _ _ _ _ (tk_spare _ _ _ _ _ _ _ Htk1))). lia.
    - by rewrite (ss_xlate _ _ _ (tk_same _ _ _ _ _ _ _ Htk1)). }
  cbn beta. intros rc s2 [(l2 & Hs2 & Hu2 & Hh2 & Hk2 & Hag & Hsub & Hrc) (l2' & Hs2' & Hlen & Hnil)].
  rewrite (kmem_unique _ _ _ Hs2' Hs2) in Hlen, Hnil. clear l2' Hs2'. assert (El : length l = S (length l1)) by (by rewrite (tk_list _ _ _ _ _ _ _ Htk)).
  destruct Hrc as [(-> & Hm & Ho)|(-> & Hm & Hsp & Ho)]; cbn [Z.eqb negb].
  - apply wp_ret. exists l2. split_and!; auto. left. split_and!.
    { destruct Ha. rewrite MAXVA_eq in *. by rewrite u64_id by (unfold PGSIZE; lia). } { lia. } { lia. }
    eapply (grow_post_one top _ r a q (uperm xperm) (fun _ => 0)); eauto.
    intros x Hx'. cbn [mem set_mem]. unfold m1. apply memset_in. lia.
  - apply wp_bind. eapply wp_mono; [apply (kfree_spare top r q s s2 l l2); auto|].
    { rewrite (tk_list _ _ _ _ _ _ _ Htk). apply elem_of_cons. by left. }
    intros _ s3 (Hs3 & Hu3 & Hh3 & Hq3). apply wp_bind.
    eapply wp_mono; [by apply (uvmdealloc_shrink top r a lo s3 (q :: l2))|].
    cbn beta. intros _ s4 (l4 & ? & ? & ? & ?). apply wp_ret. exists l4. split_and!; auto; [congruence|].
    right. rewrite (Hnil ltac:(done)) in Hlen. cbn in Hlen. split_and!; [done|lia|]. by eapply quiet_shrink.
Qed.

Lemma uvmalloc_spec top r oldsz newsz xperm s l :
  kmem_inv s l -> uspace top (mem s) r l -> 0 <= oldsz <= newsz ->
  PGROUNDUP newsz <= top -> newsz <= MAXVA -> top <= MAXVA -> 0 <= xperm < 1024 ->
  (forall va, va_ok va -> PGROUNDUP oldsz <= va < PGROUNDUP newsz -> xlate (mem s) r va = None) ->
  wp (uvmalloc r oldsz newsz xperm) s (fun rc s' => exists l', kmem_inv s' l' /\
    uspace top (mem s') r l' /\ mheld s' = mheld s /\
    ((rc = newsz /\ grow_post top (zero_fill xperm) (mem s) (mem s') r l l'
                      (PGROUNDUP oldsz) (PGROUNDUP newsz)) \/
     (rc = 0 /\ quiet top (mem s) (mem s') r l l'))).
Proof.
  intros Hs Hu Hsz Htop Hn Hmax Hx Hnone. pose proof (uperm_range xperm Hx) as Hperm.
  unfold uvmalloc. rewrite (proj2 (Z.ltb_ge newsz oldsz)) by lia.
  destruct (PGROUNDUP_props oldsz) as (Hlo & Hlo1 & Hlo2); [lia|].
  destruct (PGROUNDUP_props newsz) as (Hhi & Hhi1 & Hhi2); [lia|].
  assert (Hlohi : PGROUNDUP oldsz <= PGROUNDUP newsz).
  { destruct Hlo, Hhi. unfold PGSIZE in *. dlia. }
  set (lo := PGROUNDUP oldsz) in *. set (hi := PGROUNDUP newsz) in *.
  apply (wp_loop (fun a s1 => va_ok a /\ lo <= a <= hi /\ exists l1, kmem_inv s1 l1 /\
    uspace top (mem s1) r l1 /\ mheld s1 = mheld s /\
    grow_post top (zero_fill xperm) (mem s) (mem s1) r l l1 lo a)
    (fun a => Z.to_nat ((hi - a) / PGSIZE))).
  - intros a s1 (Ha & Hr & l1 & Hs1 & Hu1 & Hh1 & Hg1). case_if.
    + assert (Hlt : a < hi) by lia. pose proof (page_end hi a Ha Hhi Hlt) as Hend.
      eapply wp_mono; [apply (uvmalloc_step_spec top r lo xperm a s1 l1); auto; try lia|].
      { pose proof (gp_map _ _ _ _ _ _ _ _ _ Hg1 a Ha) as Hm.
        rewrite Z.ltb_irrefl, andb_false_r in Hm. rewrite Hm. apply Hnone; [done|lia]. }
      cbn beta. intros res s2 (l2 & Hs2 & Hu2 & Hh2 & [(-> & _ & Hg2)|(-> & _ & Hsk)]).
      * split_and!; [apply va_ok_next; [done|lia]|unfold PGSIZE; lia|lia| |unfold PGSIZE in *; dlia].
        exists l2. split_and!; auto; [congruence|].
        eapply grow_post_trans; [|exact Hu1|..|exact Hg1|exact Hg2]; auto using zero_fill_ok;
          unfold PGSIZE in *; lia.
      * exists l2. split_and!; auto; [congruence|]. right. split; [done|].
        eapply grow_shrink; [exact Hu1|..|exact Hg1|exact Hsk]; auto using zero_fill_ok; [lia|].
        intros va Hva Hra. apply Hnone; [done|lia].
    + apply wp_ret. exists l1. split_and!; auto. left. split; [done|].
      replace a with hi in Hg1; [done|]. destruct Ha, Hhi. unfold PGSIZE in *. dlia.
  - split_and!; auto; try lia. exists l. split_and!; auto using grow_post_refl.
  - unfold PGSIZE in *. dlia.
Qed.

(** A request of any size: where the free pages cannot reach [top], memory
    runs out first.  A page takes three pages at most. *)
Lemma uvmalloc_room top r oldsz newsz xperm s l :
  kmem_inv s l -> uspace top (mem s) r l -> 0 <= oldsz <= newsz -> top <= MAXVA -> 0 <= xperm < 1024 ->
  PGROUNDUP oldsz + PGSIZE * Z.of_nat (length l) < top -> oldsz <= MAXVA ->
  (forall va, va_ok va -> PGROUNDUP oldsz <= va < top -> xlate (mem s) r va = None) ->
  wp (uvmalloc r oldsz newsz xperm) s (fun rc s' => exists l', kmem_inv s' l' /\
    uspace top (mem s') r l' /\ mheld s' = mheld s /\
    ((rc = newsz /\ newsz <= MAXVA /\ PGROUNDUP newsz + PGSIZE * Z.of_nat (length l') <= PGROUNDUP oldsz + PGSIZE * Z.of_nat (length l) /\
      PGSIZE * Z.of_nat (length l) <= PGSIZE * Z.of_nat (length l') + 3 * (PGROUNDUP newsz - PGROUNDUP oldsz) /\
      grow_post top (zero_fill xperm) (mem s) (mem s') r l l' (PGROUNDUP oldsz) (PGROUNDUP newsz)) \/
     (rc = 0 /\ PGSIZE * Z.of_nat (length l) < 3 * (newsz - PGROUNDUP oldsz + PGSIZE) /\ quiet top (mem s) (mem s') r l l'))).
Proof.
  intros Hs Hu Hsz Hmax Hx Hroom Hold Hnone. pose proof (uperm_range xperm Hx) as Hperm.
  unfold uvmalloc. rewrite (proj2 (Z.ltb_ge newsz oldsz)) by lia.
  destruct (PGROUNDUP_props oldsz) as (Hlo & Hlo1 & Hlo2); [lia|]. set (lo := PGROUNDUP oldsz) in *.
  apply (wp_loop (fun a s1 => va_ok a /\ lo <= a /\ (a < newsz + PGSIZE) /\ exists l1, kmem_inv s1 l1 /\
    uspace top (mem s1) r l1 /\ mheld s1 = mheld s /\ a + PGSIZE * Z.of_nat (length l1) <= lo + PGSIZE * Z.of_nat (length l) /\
    PGSIZE * Z.of_nat (length l) <= PGSIZE * Z.of_nat (length l1) + 3 * (a - lo) /\
    grow_post top (zero_fill xperm) (mem s) (mem s1) r l l1 lo a)
    (fun a => Z.to_nat ((newsz - a) / PGSIZE + 1))).
  - intros a s1 (Ha & Hr & Han & l1 & Hs1 & Hu1 & Hh1 & Hc1 & Hd1 & Hg1). rewrite MAXVA_eq in *. destruct (Z.ltb_spec a newsz) as [Hlt|Hge].
    + eapply wp_mono; [apply (uvmalloc_step_spec top r lo xperm a s1 l1); auto; rewrite ?MAXVA_eq; try lia|].
      { unfold PGSIZE in *. lia. }
      { pose proof (gp_map _ _ _ _ _ _ _ _ _ Hg1 a Ha) as Hm.
        rewrite Z.ltb_irrefl, andb_false_r in Hm. rewrite Hm. apply Hnone; [done|unfold PGSIZE in *; lia]. }
      cbn beta. intros res s2 (l2 & Hs2 & Hu2 & Hh2 & [(-> & Hl2 & Hg2)|(-> & Hl2 & Hsk)]).
      * split; [|unfold PGSIZE in *; dlia]. split; [apply va_ok_next; [done|rewrite MAXVA_eq; unfold PGSIZE in *; lia]|].
        split; [unfold PGSIZE; lia|]. split; [lia|].
        exists l2. split_and!; auto; [congruence|unfold PGSIZE in *; lia|unfold PGSIZE in *; lia|].
        eapply grow_post_trans; [|exact Hu1|..|exact Hg1|exact Hg2]; auto using zero_fill_ok; unfold PGSIZE in *; lia.
      * exists l2. split_and!; auto; [congruence|]. right. split_and!; [done|unfold PGSIZE in *; lia|].
        eapply grow_shrink; [exact Hu1|..|exact Hg1|exact Hsk]; auto using zero_fill_ok; [unfold PGSIZE in *; lia|].
        intros va Hva Hra. apply Hnone; [done|unfold PGSIZE in *; lia].
    + assert (Hn : newsz <= MAXVA) by (rewrite MAXVA_eq; unfold PGSIZE in *; lia). destruct (PGROUNDUP_props newsz) as (Hhi & Hhi1 & Hhi2); [lia|].
      assert (PGROUNDUP newsz = a) as -> by (destruct Ha, Hhi; unfold PGSIZE in *; dlia).
      apply wp_ret. exists l1. split_and!; [done..|]. left. split_and!; [done|done|lia|lia|done].
  - split_and!; auto; try lia. exists l. split_and!; auto using grow_post_refl; lia.
  - unfold PGSIZE in *. dlia.
Qed.
(** ** freewalk and uvmfree *)

(** No entry at the last level of the tree of depth [d] is valid. *)
Definition no_leaves (d : nat) (m : memory) (p : Z) : Prop :=
  forall σ q j, path_ok d σ -> length σ = d -> page_at m p σ = Some q -> 0 <= j < 512 ->
    has_flag (pte_at m q j) PTE_V = false.

(** The pages of the tree of depth [d] below [p]. *)
Definition in_tree (d : nat) (m : memory) (p q : Z) : Prop :=
  exists π, path_ok d π /\ page_at m p π = Some q.

(** After freeing, the pages that are not free are untouched. *)
Definition others_kept (m m' : memory) (l' : list Z) : Prop :=
  forall q, is_valid_pa q = true -> q ∉ l' -> agree q PGSIZE m m'.

Lemma path_ok_cons d i π : path_ok (S d) (i :: π) <-> 0 <= i < 512 /\ path_ok d π.
Proof. unfold path_ok. rewrite Forall_cons. cbn. split; intros; destruct_and!; split_and!; auto; lia. Qed.

Section subtree.
Context (d : nat) (m : memory) (p : Z) (l : list Z) (i : Z).
Hypothesis Ht : ptree (S d) m p l.
Hypothesis Hi : 0 <= i < 512.
Hypothesis HV : has_flag (pte_at m p i) PTE_V = true.
Let c := PTE2PA (pte_at m p i).

Lemma sub_page π : page_at m p (i :: π) = page_at m c π.
Proof. cbn. by rewrite HV. Qed.

Lemma sub_rwx : has_flag (pte_at m p i) PTE_RWX = false.
Proof.
  apply (pt_dir _ _ _ _ Ht [] i p); auto. apply path_ok_cons. split; [done|apply path_ok_nil].
Qed.

Lemma sub_tree : ptree d m c l.
Proof.
  split.
  - intros π1 π2 q H1 H2 E1 E2. assert (E : i :: π1 = i :: π2); [|by injection E].
    apply (pt_inj _ _ _ _ Ht _ _ q); rewrite ?path_ok_cons, ?sub_page; auto.
  - intros π q H1 E1. apply (pt_valid _ _ _ _ Ht (i :: π)); rewrite ?path_ok_cons, ?sub_page; auto.
  - intros σ j q H1 E1. apply (pt_dir _ _ _ _ Ht (i :: σ)); rewrite ?sub_page; auto.
    change ((i :: σ) ++ [j]) with (i :: σ ++ [j]). by rewrite path_ok_cons.
Qed.

Lemma sub_no_leaves : no_leaves (S d) m p -> no_leaves d m c.
Proof.
  intros Hn σ q j H1 H2 E Hj. apply (Hn (i :: σ) q j); rewrite ?path_ok_cons, ?sub_page; auto.
  cbn. by rewrite H2.
Qed.

Lemma sub_not_root π : path_ok d π -> page_at m c π <> Some p.
Proof.
  intros Hπ E. rewrite <- sub_page in E.
  assert (Hx : i :: π = []); [|done]. apply (pt_inj _ _ _ _ Ht _ _ p); auto.
  - by rewrite path_ok_cons.
  - apply path_ok_nil.
Qed.
End subtree.

(** The tree is read from its pages only. *)
Lemma no_leaves_agree d m m' p :
  no_leaves d m p -> tree_agree d m m' p -> no_leaves d m' p.
Proof.
  intros Hn Ha σ q j H1 H2 E Hj. rewrite (page_at_agree d m m') in E; auto.
  - rewrite (pte_at_agree m m'); [by eapply Hn| |done]. by eapply Ha.
  - by apply (path_ok_le d); [lia|].
Qed.

Lemma in_tree_agree d m m' p q : tree_agree d m m' p -> in_tree d m' p q <-> in_tree d m p q.
Proof.
  intros Ha. unfold in_tree. f_equiv. intros π.
  split; intros [Hπ E]; (split; [done|]); rewrite <- E; [symmetry|];
    (apply (page_at_agree d); [done|]); by apply (path_ok_le d); [lia|].
Qed.

(** What [freewalk] on a tree of depth [d] promises. *)
Definition freewalk_ok (d : nat) : Prop :=
  forall p s l, kmem_inv s l -> ptree d (mem s) p l -> no_leaves d (mem s) p ->
    wp (freewalk (S d) p) s (fun _ s' => exists l', kmem_inv s' l' /\ mheld s' = mheld s /\
      (forall q, q ∈ l' <-> q ∈ l \/ in_tree d (mem s) p q) /\ others_kept (mem s) (mem s') l').

(** The state of [freewalk] before entry [i]: the subtrees of the earlier
    entries have been freed. *)
Record walk_at (d : nat) (p : Z) (s0 : machine) (l0 : list Z) (i : Z) (s : machine) (l : list Z) : Prop := {
  wa_inv : kmem_inv s l;
  wa_held : mheld s = mheld s0;
  wa_free q : q ∈ l <-> q ∈ l0 \/
    exists j π, 0 <= j < i /\ path_ok d (j :: π) /\ page_at (mem s0) p (j :: π) = Some q;
  wa_kept q : is_valid_pa q = true -> q <> p -> q ∉ l -> agree q PGSIZE (mem s0) (mem s);
  wa_entry j : i <= j < 512 -> pte_at (mem s) p j = pte_at (mem s0) p j
}.

Section freewalk.
Context (d : nat) (p : Z) (s0 : machine) (l0 : list Z).
Hypothesis Ht : ptree d (mem s0) p l0.
Hypothesis Hn : no_leaves d (mem s0) p.
Hypothesis IH : forall d', d = S d' -> freewalk_ok d'.

Lemma root_valid : is_valid_pa p = true /\ (p ∉ l0).
Proof. by apply (pt_valid _ _ _ _ Ht []); [apply path_ok_nil|]. Qed.

Lemma root_not_freed i s l : walk_at d p s0 l0 i s l -> p ∉ l.
Proof.
  intros Hw. rewrite (wa_free _ _ _ _ _ _ _ Hw). destruct root_valid as [_ Hl].
  intros [?|(j & π & Hj & Hπ & E)]; [done|].
  assert (Hx : j :: π = []); [|done]. apply (pt_inj _ _ _ _ Ht _ _ p); auto. apply path_ok_nil.
Qed.

Lemma walk_skip i s l :
  walk_at d p s0 l0 i s l -> has_flag (pte_at (mem s0) p i) PTE_V = false ->
  walk_at d p s0 l0 (i + 1) s l.
Proof.
  intros Hw Hv. destruct Hw as [? ? Hf ? He]. split; auto.
  - intros q. rewrite Hf. f_equiv. split; intros (j & π & Hj & Hπ & E); exists j, π; split_and!; auto; try lia.
    destruct (decide (j = i)) as [->|?]; [|lia]. cbn in E. by rewrite Hv in E.
  - intros j Hj. apply He. lia.
Qed.

Section entry.
Context (d' : nat) (i : Z) (s : machine) (l : list Z).
Hypothesis Hd : d = S d'.
Hypothesis Hw : walk_at d p s0 l0 i s l.
Hypothesis Hi : 0 <= i < 512.
Hypothesis HV : has_flag (pte_at (mem s0) p i) PTE_V = true.
Let c := PTE2PA (pte_at (mem s0) p i).

Lemma sub_fresh π q :
  path_ok d' π -> page_at (mem s0) c π = Some q -> is_valid_pa q = true /\ q <> p /\ (q ∉ l).
Proof.
  intros Hπ E. pose proof Ht as Ht'. rewrite Hd in Ht'.
  destruct (pt_valid _ _ _ _ (sub_tree d' _ p l0 i Ht' Hi HV) π q Hπ E) as [Hv Hl].
  assert (Hqp : q <> p) by (intros ->; by apply (sub_not_root d' _ p l0 i Ht' Hi HV π)).
  split_and!; auto. rewrite (wa_free _ _ _ _ _ _ _ Hw).
  intros [?|(j & π' & Hj & Hπ' & E')]; [done|].
  unfold c in E. rewrite <- (sub_page _ _ _ HV) in E.
  assert (Hx : i :: π = j :: π') by (apply (pt_inj _ _ _ _ Ht _ _ q); auto; rewrite Hd; by apply path_ok_cons).
  injection Hx as -> _. lia.
Qed.

Lemma sub_agree : tree_agree d' (mem s0) (mem s) c.
Proof. intros σ q Hσ E. destruct (sub_fresh σ q Hσ E) as (? & ? & ?). by apply (wa_kept _ _ _ _ _ _ _ Hw). Qed.

Lemma sub_tree_now : ptree d' (mem s) c l /\ no_leaves d' (mem s) c.
Proof.
  pose proof Ht as Ht'. pose proof Hn as Hn'. rewrite Hd in Ht', Hn'. pose proof sub_agree as Ha. split.
  - apply (ptree_agree d' (mem s0)); [|done].
    destruct (sub_tree d' _ p l0 i Ht' Hi HV) as [Hinj _ Hdir]. split; auto.
    intros π q Hπ E. by destruct (sub_fresh π q Hπ E) as (? & ? & ?).
  - apply (no_leaves_agree d' (mem s0)); [|done]. by apply (sub_no_leaves d' _ p i).
Qed.

Lemma walk_sub_free (l1 : list Z) q :
  (forall q, q ∈ l1 <-> q ∈ l \/ in_tree d' (mem s) c q) ->
  q ∈ l1 <-> q ∈ l0 \/
    exists j π, 0 <= j < i + 1 /\ path_ok d (j :: π) /\ page_at (mem s0) p (j :: π) = Some q.
Proof.
  intros Hf. rewrite Hf, (wa_free _ _ _ _ _ _ _ Hw), (in_tree_agree d' (mem s0)) by apply sub_agree.
  split.
  - intros [[?|(j & π & ? & ? & ?)]|(π & Hπ & E)]; [by left|right; exists j, π; split_and!; auto; lia|].
    right. exists i, π. rewrite (sub_page _ _ _ HV), Hd, path_ok_cons. split_and!; auto; lia.
  - intros [?|(j & π & Hj & Hπ & E)]; [by left; left|]. destruct (decide (j = i)) as [->|?].
    + right. exists π. rewrite (sub_page _ _ _ HV) in E. rewrite Hd in Hπ. by apply path_ok_cons in Hπ as [_ ?].
    + left; right. exists j, π. split_and!; auto; lia.
Qed.

Lemma walk_sub :
  wp (freewalk (S d') c >>> store64 (p + 8 * i) 0 >>> ret (inl (i + 1) : Z + unit)) s
     (fun res s' => res = inl (i + 1) /\ exists l', walk_at d p s0 l0 (i + 1) s' l').
Proof.
  destruct sub_tree_now as [Htn Hnn]. destruct root_valid as [Hvp Hpl].
  pose proof (root_not_freed i s l Hw) as Hpl'.
  apply wp_bind. eapply wp_mono; [apply (IH d' Hd c s l); auto; apply Hw|].
  intros _ s1 (l1 & Hs1 & Hh1 & Hf1 & Hk1). unfold store64. apply wp_bind, wp_modify, wp_ret.
  pose proof (walk_sub_free l1) as Hfree.
  assert (Hpl1 : p ∉ l1).
  { rewrite Hf1. intros [?|(π & Hπ & E)]; [done|].
    rewrite (page_at_agree d' (mem s0)) in E by (apply sub_agree || by apply (path_ok_le d'); [lia|]).
    by destruct (sub_fresh π p Hπ E) as (_ & ? & _). }
  assert (Hfr : mem_frame p (mem s1) (st64 (mem s1) (p + 8 * i) 0)).
  { intros x Hx. unfold PGSIZE in *. apply st_other. lia. }
  split; [done|]. exists l1. split; cbn [mem set_mem mheld].
  - eapply (kmem_inv_write s1 l1 p); eauto. apply st_bytes_ok. by apply km_bytes in Hs1.
  - rewrite Hh1. apply Hw.
  - intros q. by apply Hfree.
  - intros q Hvq Hqp Hql x Hx. rewrite (frame_agree p q _ _ Hfr); auto.
    + rewrite (Hk1 q) by done. apply (wa_kept _ _ _ _ _ _ _ Hw q); auto. rewrite Hf1 in Hql. tauto.
    + by apply is_valid_pa_spec in Hvp as [? _].
    + by apply is_valid_pa_spec in Hvq as [? _].
  - intros j Hj. rewrite <- (wa_entry _ _ _ _ _ _ _ Hw) by lia. unfold pte_at at 1. rewrite ld_st_other by lia.
    apply pte_at_agree; [by apply Hk1|lia].
Qed.
End entry.

Lemma freewalk_pages s l q :
  walk_at d p s0 l0 512 s l -> q = p \/ q ∈ l <-> q ∈ l0 \/ in_tree d (mem s0) p q.
Proof.
  intros Hw. rewrite (wa_free _ _ _ _ _ _ _ Hw). unfold in_tree. split.
  - intros [->|[?|(j & π & ? & ? & ?)]]; [|by left|right; eauto].
    right. exists []. split; [apply path_ok_nil|done].
  - intros [?|(π & Hπ & E)]; [by right; left|]. destruct π as [|j π].
    + left. cbn in E. congruence.
    + right; right. exists j, π. split_and!; auto; destruct Hπ as [_ Hπ]; apply Forall_cons in Hπ as [? _]; lia.
Qed.
End freewalk.

Lemma freewalk_spec d : freewalk_ok d.
Proof.
  induction d as [d IHd] using lt_wf_ind. intros p s0 l0 Hs Ht Hn.
  assert (IH : forall d', d = S d' -> freewalk_ok d') by (intros d' ->; apply IHd; lia).
  cbn [freewalk]. apply wp_bind.
  apply (wp_loop (fun i s => 0 <= i <= 512 /\ exists l, walk_at d p s0 l0 i s l)
                 (fun i => Z.to_nat (512 - i))).
  - intros i s (Hi & l & Hw). case_if.
    + apply wp_bind. unfold load64. apply wp_gets. fold (pte_at (mem s) p i).
      rewrite (wa_entry _ _ _ _ _ _ _ Hw) by lia.
      destruct (has_flag (pte_at (mem s0) p i) PTE_V) eqn:HV; cbn [andb].
      * destruct d as [|d'].
        { pose proof (Hn [] p i (path_ok_nil 0) eq_refl eq_refl ltac:(lia)). congruence. }
        fold PTE_RWX. rewrite (sub_rwx d' (mem s0) p l0 i) by (auto; lia). cbn [negb].
        eapply wp_mono; [apply (walk_sub (S d') p s0 l0 Ht Hn IH d' i s l); auto; lia|].
        cbn beta. intros res s1 [-> Hw1]. split; [|lia]. split; [lia|done].
      * apply wp_ret. split; [|lia]. split; [lia|]. exists l. by apply walk_skip.
    + apply wp_ret. destruct (root_valid d p s0 l0 Ht) as [Hvp _].
      pose proof (root_not_freed d p s0 l0 Ht i s l Hw) as Hpl.
      replace i with 512 in * by lia.
      eapply wp_mono; [apply (kfree_spec s l); auto; apply Hw|].
      cbn beta. intros _ s1 (Hs1 & Hf1 & Hh1). exists (p :: l). split_and!; auto.
      * rewrite Hh1. apply Hw.
      * intros q. rewrite elem_of_cons. by apply (freewalk_pages d p s0 l0 s l).
      * intros q Hvq Hql x Hx. apply not_elem_of_cons in Hql as [Hqp Hql].
        rewrite (frame_agree p q _ _ Hf1); auto; [by apply (wa_kept _ _ _ _ _ _ _ Hw q)|..].
        -- by apply is_valid_pa_spec in Hvp as [? _].
        -- by apply is_valid_pa_spec in Hvq as [? _].
  - split; [lia|]. exists l0. split; auto.
    + intros q. split; [by left|]. intros [?|(j & π & ? & _)]; [done|lia].
    + by intros.
  - lia.
Qed.

(** A space with no mapping at all has no leaves. *)
Lemma va_of_indices i j k :
  0 <= i < 512 -> 0 <= j < 512 -> 0 <= k < 512 ->
  exists va, va_ok va /\ PX 2 va = i /\ PX 1 va = j /\ PX 0 va = k.
Proof.
  intros. exists (i * 2 ^ 30 + j * 2 ^ 21 + k * 2 ^ 12). rewrite !PX_eq by lia.
  unfold va_ok, PGSIZE. change (12 + 9 * 2) with 30. change (12 + 9 * 1) with 21.
  change (12 + 9 * 0) with 12. split_and!; dlia.
Qed.

Lemma no_mapping_no_leaves m r :
  (forall va, va_ok va -> xlate m r va = None) -> no_leaves 2 m r.
Proof.
  intros Hx σ q k [Hlen Hσ] Hl Hq Hk. destruct σ as [|i [|j [|? ?]]]; try done.
  apply Forall_cons in Hσ as [Hi Hσ]. apply Forall_cons in Hσ as [Hj _].
  destruct (va_of_indices i j k Hi Hj Hk) as (va & Hva & Ei & Ej & Ek).
  specialize (Hx va Hva). rewrite xlate_leaf in Hx. unfold leaf in Hx.
  rewrite Ei, Ej, Ek, Hq in Hx. cbn in Hx. by destruct (has_flag _ PTE_V).
Qed.

(** [uvmfree] of a space whose mappings all lie below [sz]. *)
Lemma uvmfree_spec top r sz s l :
  kmem_inv s l -> uspace top (mem s) r l -> 0 <= sz <= MAXVA -> PGROUNDUP sz <= top -> top <= MAXVA ->
  (forall va, va_ok va -> xlate (mem s) r va <> None -> va < sz) ->
  wp (uvmfree r sz) s (fun _ s' => exists l', kmem_inv s' l' /\ mheld s' = mheld s /\
    (forall q, q ∈ l' <-> owned top (mem s) r l q) /\ others_kept (mem s) (mem s') l').
Proof.
  intros Hs Hu Hsz Htop Hmax Hall. unfold uvmfree.
  destruct (PGROUNDUP_props sz) as (Hup & Hb & _); [lia|].
  apply wp_bind.
  assert (Hunmap : wp (if 0 <? sz then uvmunmap r 0 (PGROUNDUP sz / PGSIZE) true else ret tt) s
    (fun _ s' => exists l', kmem_inv s' l' /\ uspace top (mem s') r l' /\
       unmap_post (mem s) (mem s') r l l' 0 (PGROUNDUP sz) /\ mheld s' = mheld s)).
  { case_if.
    - assert (He : PGROUNDUP sz / PGSIZE * PGSIZE = PGROUNDUP sz).
      { destruct Hup. unfold PGSIZE in *. dlia. }
      eapply wp_mono; [apply (uvmunmap_spec top r 0 (PGROUNDUP sz / PGSIZE) s l); auto; try done|].
      + destruct Hup. unfold PGSIZE in *. dlia.
      + lia.
      + by rewrite Z.add_0_l, He.
    - apply wp_ret. exists l. split_and!; auto. apply unmap_post_refl.
      intros va Hva Hr. destruct (xlate (mem s) r va) eqn:Ex; [|done].
      assert (va < sz) by (apply Hall; [done|congruence]). destruct Hva. lia. }
  eapply wp_mono; [exact Hunmap|].
  intros _ s1 (l1 & Hs1 & Hu1 & Hp1 & Hh1).
  eapply wp_mono; [apply (freewalk_spec 2 r s1 l1); auto; [apply Hu1|]|].
  { apply no_mapping_no_leaves. intros va Hva. rewrite (un_xlate _ _ _ _ _ _ _ Hp1) by done.
    destruct (xlate (mem s) r va) eqn:Ex; [|by case_if].
    assert (va < sz) by (apply Hall; [done|congruence]). destruct Hva. cases. }
  cbn beta. intros _ s2 (l2 & Hs2 & Hh2 & Hf2 & Hk2). exists l2. split_and!; auto; [congruence|..].
  - intros q. rewrite Hf2, <- (owned_unmap top _ _ _ _ _ _ _ q Hp1) by lia. unfold owned, in_tree.
    split; [tauto|]. intros [?|[?|(va & Hva & Hlt & Hq)]]; auto. exfalso.
    rewrite (unmapped_upage _ _ _ _ _ _ (un_xlate _ _ _ _ _ _ _ Hp1) Hva) in Hq.
    revert Hq. case_if; [done|..]; intros Hq.
    all: assert (va < sz) by (apply Hall; [done|]; intros E'; unfold upage in Hq; by rewrite E' in Hq).
    all: destruct Hva; lia.
  - intros q Hq Hl x Hx. rewrite (Hk2 q) by done. apply (un_out _ _ _ _ _ _ _ Hp1 q); auto.
    + by apply is_valid_pa_spec in Hq as [? _].
    + rewrite Hf2 in Hl. tauto.
    + intros π Hπ Hpg. apply Hl, Hf2. right. exists π. split; [done|].
      by rewrite (un_page _ _ _ _ _ _ _ Hp1).
Qed.

(** ** uvmcopy *)

(** The pages of one space are off the table of the other. *)
Definition apart (top : Z) (m : memory) (ro rn : Z) : Prop :=
  (forall q, in_tree 2 m ro q -> off_table m rn q) /\
  (forall va q, va_ok va -> va < top -> upage m ro va = Some q -> off_table m rn q).

(** Working on the table [rn] leaves the space of [ro] alone. *)
Lemma other_space top m m' ro rn l l' :
  uspace top m ro l -> apart top m ro rn -> kept m m' rn l l' ->
  uspace top m' ro l' /\ same_space m m' ro /\ apart top m' ro rn /\
  forall va p, va_ok va -> va < top -> upage m ro va = Some p -> agree p PGSIZE m m' /\ (p ∉ l').
Proof.
  intros Hu [Ha1 Ha2] Hk.
  assert (Htree : forall σ q, path_ok 2 σ -> page_at m ro σ = Some q ->
    (q ∉ l') /\ off_table m' rn q /\ agree q PGSIZE m m').
  { intros σ q Hσ E. destruct (pt_valid _ _ _ _ (us_tree _ _ _ _ Hu) σ q Hσ E) as [Hv Hl].
    apply Hk; auto; [by apply is_valid_pa_spec in Hv as [? _]|]. apply Ha1. by exists σ. }
  assert (Hmap : forall va p, va_ok va -> va < top -> upage m ro va = Some p ->
    (p ∉ l') /\ off_table m' rn p /\ agree p PGSIZE m m').
  { intros va p Hva Hlt E. destruct (us_leaf _ _ _ _ Hu va p Hva Hlt E) as (Hv & Hl & Ho).
    apply Hk; eauto. by apply is_valid_pa_spec in Hv as [? _]. }
  assert (Hag : tree_agree 2 m m' ro) by (intros σ q Hσ E; by apply (Htree σ)).
  pose proof (same_space_agree _ _ _ Hag) as Hss. split_and!; auto.
  - apply (uspace_space top m); [|done|].
    + destruct Hu as [[Hti Htv Htd] Hl Hi]. split; [|..|done].
      * split; auto. intros π q Hπ E. split; [by apply (Htv π)|by apply (Htree π)].
      * intros va p Hva Hlt E. destruct (Hl va p Hva Hlt E) as (? & _ & ?).
        destruct (Hmap va p Hva Hlt E) as (? & _ & _). done.
    + apply (ptree_agree 2 m); [|done]. destruct Hu as [[Hti Htv Htd] _ _]. split; auto.
      intros π q Hπ E. split; [by apply (Htv π)|by apply (Htree π)].
  - split.
    + intros q (π & Hπ & E). rewrite (ss_page _ _ _ Hss) in E by done. by apply (Htree π).
    + intros va q Hva Hlt E. rewrite (same_upage m m') in E by apply Hss. by apply (Hmap va).
  - intros va p Hva Hlt E. by destruct (Hmap va p Hva Hlt E) as (? & ? & ?).
Qed.

(** Filled with the same pages. *)
Definition fill_eq (x y : option (Z * (Z -> Z))) : Prop :=
  match x, y with
  | Some (p1, c1), Some (p2, c2) => p1 = p2 /\ forall i, 0 <= i < PGSIZE -> c1 i = c2 i
  | None, None => True
  | _, _ => False
  end.

Lemma grow_post_ext top F F' m m' r l l' lo hi :
  (forall va, va_ok va -> lo <= va < hi -> fill_eq (F va) (F' va)) ->
  grow_post top F m m' r l l' lo hi -> grow_post top F' m m' r l l' lo hi.
Proof.
  intros HF [M O K S]. split; auto. intros va Hva. specialize (M va Hva). revert M. case_if; [|done..].
  assert (HFv : fill_eq (F va) (F' va)) by (apply HF; auto).
  destruct (F va) as [[p1 c1]|], (F' va) as [[p2 c2]|]; try done.
  destruct HFv as [-> Hc]. intros (p & ? & ? & ? & Hx). exists p. split_and!; auto.
  intros x Hx'. by rewrite Hx, Hc.
Qed.

(** The contents of the space of [ro]. *)
Definition copy_fill (m : memory) (ro : Z) : filling := fun va =>
  match xlate m ro va with
  | Some v => Some (PTE_FLAGS v, fun x => m (PTE2PA v + x))
  | None => None
  end.

Lemma PTE_FLAGS_range v : 0 <= PTE_FLAGS v < 1024.
Proof. unfold PTE_FLAGS. change 0x3FF with (Z.ones 10). rewrite Z.land_ones by lia. dlia. Qed.

Lemma copy_fill_ok m ro : filling_ok (copy_fill m ro).
Proof.
  intros va perm c. unfold copy_fill. destruct (xlate m ro va); [|done].
  intros [= <- _]. apply PTE_FLAGS_range.
Qed.

(** The lookup idiom of vm.c: walk, test for a null entry, load, test [PTE_V]. *)
Lemma wp_lookup {A} r va s l (k0 k1 : M machine A) (k : Z -> Z -> M machine A) Q :
  ptree 2 (mem s) r l -> va < MAXVA ->
  (xlate (mem s) r va = None -> wp k0 s Q) -> (xlate (mem s) r va = None -> wp k1 s Q) ->
  (forall a v, pte_slot (mem s) r va = Some a -> xlate (mem s) r va = Some v -> ld64 (mem s) a = v ->
     has_flag v PTE_V = true -> wp (k a v) s Q) ->
  wp (pte <- walk r va false ;;
      if pte =? 0 then k0
      else v <- load64 pte ;; if negb (has_flag v PTE_V) then k1 else k pte v) s Q.
Proof.
  intros Ht Hva H0 H1 Hk. apply wp_bind, walk_noalloc; [done|].
  destruct (pte_slot (mem s) r va) as [a|] eqn:Hs; cbn [default from_option id].
  - destruct (slot_page _ _ _ _ _ Ht Hs) as (p & _ & Ha & Hv & _).
    pose proof (is_valid_pa_pos p Hv). pose proof (PX_range 0 va ltac:(lia)).
    rewrite (proj2 (Z.eqb_neq a 0)) by lia. apply wp_bind. unfold load64. apply wp_gets.
    assert (Hx : xlate (mem s) r va =
      if has_flag (ld64 (mem s) a) PTE_V then Some (ld64 (mem s) a) else None).
    { unfold xlate. by rewrite Hs. }
    destruct (has_flag (ld64 (mem s) a) PTE_V) eqn:HV; cbn [negb]; auto.
  - apply H0. unfold xlate. by rewrite Hs.
Qed.

Lemma uvmcopy_step_spec top ro rn i s l :
  kmem_inv s l -> uspace top (mem s) ro l -> uspace top (mem s) rn l -> apart top (mem s) ro rn ->
  va_ok i -> i < top -> top <= MAXVA -> xlate (mem s) rn i = None ->
  wp (uvmcopy_step ro rn i) s (fun res s' => exists l', kmem_inv s' l' /\
    uspace top (mem s') rn l' /\ mheld s' = mheld s /\
    ((res = inl (i + PGSIZE) /\
      grow_post top (copy_fill (mem s) ro) (mem s) (mem s') rn l l' i (i + PGSIZE)) \/
     (res = inr (Some i) /\ quiet top (mem s) (mem s') rn l l'))).
Proof.
  intros Hs Huo Hun Hap Hi Hlt Htop Hnone. unfold uvmcopy_step.
  assert (Hnext : u64 (i + PGSIZE) = i + PGSIZE).
  { destruct Hi. rewrite MAXVA_eq in *. apply u64_id. unfold PGSIZE. lia. }
  assert (Hskip : xlate (mem s) ro i = None -> forall res, res = inl (i + PGSIZE) ->
    exists l', kmem_inv s l' /\ uspace top (mem s) rn l' /\ mheld s = mheld s /\
      ((res = inl (i + PGSIZE) /\
        grow_post top (copy_fill (mem s) ro) (mem s) (mem s) rn l l' i (i + PGSIZE)) \/
       (res = inr (Some i) /\ quiet top (mem s) (mem s) rn l l'))).
  { intros Hx res ->. exists l. split_and!; auto. left. split; [done|]. apply grow_post_skip; [done|].
    unfold copy_fill. by rewrite Hx. }
  apply (wp_lookup ro i s l); [apply Huo|lia|intros; apply wp_ret; auto; apply Hskip; auto; by rewrite Hnext..|].
  intros a v _ Hx _ _. pose proof (PTE_FLAGS_range v) as Hfl.
  assert (Hup : upage (mem s) ro i = Some (PTE2PA v)) by (unfold upage; by rewrite Hx).
  destruct (us_leaf _ _ _ _ Huo i _ Hi Hlt Hup) as (Hvp & Hpl & _).
  apply wp_bind, (kalloc_taken top rn s l); auto.
  { intros ->. cbn [Z.eqb]. apply wp_ret. exists []. split_and!; auto. right. split; [done|].
    split; auto using kept_refl. by intros. }
  intros q l1 s1 Hq0 Htk. rewrite (proj2 (Z.eqb_neq q 0)) by done. apply wp_bind. unfold mmove. apply wp_modify.
  pose proof (km_bytes _ _ (tk_inv _ _ _ _ _ _ _ Htk)) as Hb1.
  set (m1 := memmove (mem s1) q (PTE2PA v) PGSIZE).
  assert (Htk1 : taken top s (set_mem m1 s1) rn l l1 q).
  { apply taken_write; auto.
    - intros x ?. by apply memmove_out.
    - by apply memmove_bytes_ok. }
  assert (Hcopy : forall x, 0 <= x < PGSIZE -> m1 (q + x) = mem s (PTE2PA v + x)).
  { intros x Hx'. unfold m1. rewrite memmove_in by (done || lia). replace (q + x - q) with x by lia.
    apply (frame_agree q (PTE2PA v) _ _ (tk_frame _ _ _ _ _ _ _ Htk)); try lia.
    - by apply (is_valid_pa_spec q), (sp_valid _ _ _ _ _ (tk_spare _ _ _ _ _ _ _ Htk)).
    - by apply is_valid_pa_spec in Hvp as [? _].
    - intros Heq. apply Hpl. rewrite (tk_list _ _ _ _ _ _ _ Htk), Heq. apply elem_of_cons. by left. }
  apply wp_bind. eapply wp_mono; [by apply (map_taken top rn i q (PTE_FLAGS v) s (set_mem m1 s1) l l1)|].
  cbn beta. intros rc s2 (l2 & Hs2 & Hu2 & Hh2 & Hk2 & Hag & Hsub & Hrc).
  destruct Hrc as [(-> & Hm & Ho)|(-> & Hm & Hsp & Ho)]; cbn [Z.eqb negb].
  - apply wp_ret. exists l2. rewrite Hnext. split_and!; auto. left. split; [done|].
    eapply (grow_post_one top _ rn i q (PTE_FLAGS v) (fun x => mem s (PTE2PA v + x))); eauto.
    unfold copy_fill. by rewrite Hx.
  - apply wp_bind. eapply wp_mono; [apply (kfree_spare top rn q s s2 l l2); auto|].
    { rewrite (tk_list _ _ _ _ _ _ _ Htk). apply elem_of_cons. by left. }
    intros _ s3 (Hs3 & Hu3 & Hh3 & Hq3). apply wp_ret. exists (q :: l2). split_and!; auto. congruence.
Qed.

(** The space of [ro] keeps its contents while [rn] is filled. *)
Lemma copy_fill_stable top m m' ro rn l l' va :
  uspace top m ro l -> apart top m ro rn -> kept m m' rn l l' -> va_ok va -> va < top ->
  fill_eq (copy_fill m' ro va) (copy_fill m ro va).
Proof.
  intros Hu Ha Hk Hva Hlt. destruct (other_space top m m' ro rn l l') as (_ & Hss & _ & Hc); auto.
  unfold copy_fill. rewrite (ss_xlate _ _ _ Hss). destruct (xlate m ro va) as [v|] eqn:E; [|done].
  cbn. split; [done|]. intros i Hi. destruct (Hc va (PTE2PA v)) as [Hag _]; auto.
  - unfold upage. by rewrite E.
  - apply Hag. lia.
Qed.

Lemma uvmcopy_loop top ro rn sz s l :
  kmem_inv s l -> uspace top (mem s) ro l -> uspace top (mem s) rn l -> apart top (mem s) ro rn ->
  0 <= sz <= MAXVA -> PGROUNDUP sz <= top -> top <= MAXVA ->
  (forall va, va_ok va -> va < PGROUNDUP sz -> xlate (mem s) rn va = None) ->
  wp (loop (S (Z.to_nat (sz / PGSIZE + 1))) (fun i =>
        if i <? sz then uvmcopy_step ro rn i else ret (inr None)) 0) s
     (fun res s' => exists l', kmem_inv s' l' /\ uspace top (mem s') rn l' /\ mheld s' = mheld s /\
        ((res = None /\ grow_post top (copy_fill (mem s) ro) (mem s) (mem s') rn l l' 0 (PGROUNDUP sz)) \/
         exists i m1 l1, res = Some i /\ va_ok i /\ i < PGROUNDUP sz /\ uspace top m1 rn l1 /\
           grow_post top (copy_fill (mem s) ro) (mem s) m1 rn l l1 0 i /\
           quiet top m1 (mem s') rn l1 l')).
Proof.
  intros Hs Huo Hun Hap Hsz Htop Hmax Hnone.
  destruct (PGROUNDUP_props sz) as (Hhi & Hhi1 & Hhi2); [lia|]. set (hi := PGROUNDUP sz) in *.
  apply (wp_loop (fun i s1 => va_ok i /\ 0 <= i <= hi /\ exists l1, kmem_inv s1 l1 /\
    uspace top (mem s1) rn l1 /\ mheld s1 = mheld s /\
    grow_post top (copy_fill (mem s) ro) (mem s) (mem s1) rn l l1 0 i)
    (fun i => Z.to_nat ((hi - i) / PGSIZE))).
  - intros i s1 (Hi & Hr & l1 & Hs1 & Hu1 & Hh1 & Hg1).
    pose proof (gp_kept _ _ _ _ _ _ _ _ _ Hg1) as Hk1. case_if.
    + assert (Hlt : i < hi) by lia. pose proof (page_end hi i Hi Hhi Hlt) as Hend.
      destruct (other_space top (mem s) (mem s1) ro rn l l1) as (Huo1 & _ & Hap1 & _); auto.
      eapply wp_mono; [apply (uvmcopy_step_spec top ro rn i s1 l1); auto; try lia|].
      { pose proof (gp_map _ _ _ _ _ _ _ _ _ Hg1 i Hi) as Hm.
        rewrite Z.ltb_irrefl, andb_false_r in Hm. rewrite Hm. apply Hnone; [done|lia]. }
      cbn beta. intros res s2 (l2 & Hs2 & Hu2 & Hh2 & [[-> Hg2]|[-> Hq]]).
      * split_and!; [apply va_ok_next; [done|lia]|unfold PGSIZE; lia|lia| |unfold PGSIZE in *; dlia].
        exists l2. split_and!; auto; [congruence|].
        eapply grow_post_trans; [|exact Hu1|..|exact Hg1|]; auto using copy_fill_ok;
          [unfold PGSIZE; lia|lia|].
        eapply grow_post_ext; [|exact Hg2]. intros va Hva Hrv.
        eapply (copy_fill_stable top); eauto; unfold PGSIZE in *; lia.
      * exists l2. split_and!; auto; [congruence|]. right. exists i, (mem s1), l1. by split_and!.
    + apply wp_ret. exists l1. split_and!; auto. left. split; [done|].
      replace i with hi in Hg1; [done|]. destruct Hi, Hhi. unfold PGSIZE in *. dlia.
  - split_and!; auto; try lia; try done. exists l. split_and!; auto using grow_post_refl.
  - unfold PGSIZE in *. dlia.
Qed.

Lemma uvmcopy_spec top ro rn sz s l :
  kmem_inv s l -> uspace top (mem s) ro l -> uspace top (mem s) rn l -> apart top (mem s) ro rn ->
  0 <= sz <= MAXVA -> PGROUNDUP sz <= top -> top <= MAXVA ->
  (forall va, va_ok va -> va < PGROUNDUP sz -> xlate (mem s) rn va = None) ->
  wp (uvmcopy ro rn sz) s (fun rc s' => exists l', kmem_inv s' l' /\
    uspace top (mem s') rn l' /\ mheld s' = mheld s /\
    ((rc = 0 /\ grow_post top (copy_fill (mem s) ro) (mem s) (mem s') rn l l' 0 (PGROUNDUP sz)) \/
     (rc = -1 /\ quiet top (mem s) (mem s') rn l l'))).
Proof.
  intros Hs Huo Hun Hap Hsz Htop Hmax Hnone. unfold uvmcopy. apply wp_bind.
  eapply wp_mono; [by apply (uvmcopy_loop top ro rn sz s l)|].
  cbn beta. intros res s1 (l1 & Hs1 & Hu1 & Hh1 & [[-> Hg]|(i & m1 & l' & -> & Hi & Hlt & Hu' & Hg & Hq)]).
  - apply wp_ret. exists l1. split_and!; auto.
  - assert (He : i / PGSIZE * PGSIZE = i) by (destruct Hi; unfold PGSIZE in *; dlia).
    apply wp_bind. eapply wp_mono; [apply (uvmunmap_spec top rn 0 (i / PGSIZE) s1 l1); auto|].
    + done.
    + destruct Hi. unfold PGSIZE. dlia.
    + lia.
    + cbn beta. rewrite Z.add_0_l, He. intros _ s2 (l2 & Hs2 & Hu2 & Hp2 & Hh2). apply wp_ret.
      exists l2. split_and!; auto; [congruence|]. right. split; [done|].
      apply (unmap_shrink top) in Hp2; [|lia].
      eapply grow_shrink; [exact Hu'|..|exact Hg|by eapply quiet_shrink]; auto using copy_fill_ok; [lia|].
      intros va Hva Hr. apply Hnone; [done|lia].
Qed.
End uvm.
