(* ===== verification/UserMem.v ===== *)
(** User memory as a process sees it: [walkaddr], [vmfault], [copyout],
    [copyin] and [copyinstr] of vm.c, specified on the view of the user
    address space as a map from addresses to bytes. *)

From S2P Require Import Prelude.
From S2P Require Import Memory.
From S2P Require Import Spinlock.
From S2P Require Import Riscv.
From S2P Require Import Kalloc.
From S2P Require Import PageTable.
From S2P Require Import AddrSpace.
From S2P Require Import Uvm.

(** Copying a kernel buffer into RAM, and out of it. *)
Fixpoint write_bytes (m : memory) (a : Z) (bs : list Z) : memory :=
  match bs with
  | [] => m
  | b :: bs' => write_bytes (st8 m a b) (a + 1) bs'
  end.

Fixpoint read_bytes (m : memory) (a : Z) (n : nat) : list Z :=
  match n with
  | O => []
  | S n' => m a :: read_bytes m (a + 1) n'
  end.

(** What [vmfault] reads of [myproc()]. *)
Record procview := ProcView { pv_sz : Z; pv_pagetable : Z }.

Section code.
Context `{LinkerSyms}.

Definition vmfault (p : procview) (pagetable va : Z) : M machine Z :=
  if pv_sz p <=? va then ret 0
  else
    let va := PGROUNDDOWN va in
    b <- ismapped pagetable va ;;
    if b then ret 0
    else
      mem <- kalloc ;;
      if mem =? 0 then ret 0
      else
        mset mem 0 PGSIZE >>>
        rc <- mappages (pv_pagetable p) va PGSIZE mem (Z.lor PTE_W (Z.lor PTE_U PTE_R)) ;;
        if negb (rc =? 0) then kfree mem >>> ret 0 else ret mem.

(** [walkaddr], then [vmfault] if that fails. *)
Definition user_page (p : procview) (pagetable va0 : Z) : M machine Z :=
  pa0 <- walkaddr pagetable va0 ;;
  if pa0 =? 0 then vmfault p pagetable va0 else ret pa0.

(** One round of [copyout]: [inr] is a return, [inl] the state of the loop. *)
Definition copyout_step (p : procview) (pagetable : Z) (x : Z * list Z) : M machine ((Z * list Z) + Z) :=
  let '(dstva, src) := x in
  let va0 := PGROUNDDOWN dstva in
  if MAXVA <=? va0 then ret (inr (-1))
  else
    pa0 <- user_page p pagetable va0 ;;
    if pa0 =? 0 then ret (inr (-1))
    else
      pte <- walk pagetable va0 false ;;
      if pte =? 0 then crash
      else
        v <- load64 pte ;;
        if negb (has_flag v PTE_W) then ret (inr (-1))
        else
          let n := Z.min (PGSIZE - (dstva - va0)) (Z.of_nat (length src)) in
          modify (fun s => set_mem
            (write_bytes (mem s) (pa0 + (dstva - va0)) (take (Z.to_nat n) src)) s) >>>
          ret (inl (u64 (va0 + PGSIZE), drop (Z.to_nat n) src)).

Definition copyout (p : procview) (pagetable dstva : Z) (src : list Z) : M machine Z :=
  loop (S (length src)) (fun x =>
    match x.2 with
    | [] => ret (inr 0)
    | _ => copyout_step p pagetable x
    end) (dstva, src).

(** [copyin] returns the bytes it has put into [dst] beside its result. *)
Definition copyin_step (p : procview) (pagetable : Z) (x : Z * nat * list Z)
    : M machine ((Z * nat * list Z) + (Z * list Z)) :=
  let '(srcva, len, got) := x in
  let va0 := PGROUNDDOWN srcva in
  pa0 <- user_page p pagetable va0 ;;
  if pa0 =? 0 then ret (inr (-1, got))
  else
    let n := Z.to_nat (Z.min (PGSIZE - (srcva - va0)) (Z.of_nat len)) in
    bs <- gets (fun s => read_bytes (mem s) (pa0 + (srcva - va0)) n) ;;
    ret (inl (u64 (va0 + PGSIZE), (len - n)%nat, got ++ bs)).

Definition copyin (p : procview) (pagetable srcva : Z) (len : nat) : M machine (Z * list Z) :=
  loop (S len) (fun x =>
    match x with
    | (_, O, got) => ret (inr (0, got))
    | _ => copyin_step p pagetable x
    end) (srcva, len, []).

(** The inner loop of [copyinstr]: at most [n] bytes from [p] on, up to a NUL;
    the bytes stored (the NUL included) and whether a NUL was found. *)
Fixpoint scan_str (m : memory) (p : Z) (n : nat) : list Z * bool :=
  match n with
  | O => ([], false)
  | S n' =>
      if m p =? 0 then ([0], true)
      else let '(bs, b) := scan_str m (p + 1) n' in (m p :: bs, b)
  end.

Definition copyinstr_step (pagetable : Z) (x : Z * nat * list Z)
    : M machine ((Z * nat * list Z) + (Z * list Z)) :=
  let '(srcva, max, got) := x in
  let va0 := PGROUNDDOWN srcva in
  pa0 <- walkaddr pagetable va0 ;;
  if pa0 =? 0 then ret (inr (-1, got))
  else
    let n := Z.to_nat (Z.min (PGSIZE - (srcva - va0)) (Z.of_nat max)) in
    r <- gets (fun s => scan_str (mem s) (pa0 + (srcva - va0)) n) ;;
    if r.2 then ret (inr (0, got ++ r.1))
    else ret (inl (u64 (va0 + PGSIZE), (max - n)%nat, got ++ r.1)).

Definition copyinstr (pagetable srcva : Z) (max : nat) : M machine (Z * list Z) :=
  loop (S max) (fun x =>
    match x with
    | (_, O, got) => ret (inr (-1, got))
    | _ => copyinstr_step pagetable x
    end) (srcva, max, []).

(** ** The address space of a process *)

(** The page table [r] of a process of size [sz] with trapframe page [tf]:
    user pages below [sz], the trapframe and the trampoline at the top, and
    nothing else. *)
Record proc_space (m : memory) (r : Z) (l : list Z) (sz tf : Z) : Prop := {
  ps_user : uspace TRAPFRAME m r l;
  ps_sz : 0 <= sz <= TRAPFRAME;
  ps_above va : va_ok va -> sz <= va -> va <> TRAPFRAME -> va <> TRAMPOLINE -> xlate m r va = None;
  ps_tf : xlate m r TRAPFRAME = Some (mk_pte tf (Z.lor PTE_R PTE_W));
  ps_tramp : xlate m r TRAMPOLINE = Some (mk_pte sym_trampoline (Z.lor PTE_R PTE_X));
  ps_spare : spare TRAPFRAME m r l tf
}.

Lemma page_only va va' : va_ok va -> va_ok va' -> va <= va' < va + PGSIZE -> va' = va.
Proof. intros [? ?] [? ?] ?. unfold PGSIZE in *. dlia. Qed.

Lemma TRAPFRAME_ok : va_ok TRAPFRAME /\ TRAPFRAME < MAXVA.
Proof. by vm_compute. Qed.

Lemma TRAMPOLINE_ok : va_ok TRAMPOLINE /\ TRAPFRAME < TRAMPOLINE < MAXVA.
Proof. by vm_compute. Qed.

(** A page that is kept, and not newly mapped, stays spare. *)
Lemma spare_kept top m m' r l l' q :
  spare top m r l q -> kept m m' r l l' ->
  (forall va, va_ok va -> va < top -> upage m' r va = Some q -> upage m r va = Some q \/ q ∈ l) ->
  spare top m' r l' q.
Proof.
  intros [Hv Hl Ho Hm] Hk Hx. destruct (Hk q) as (? & ? & _); auto.
  { by apply is_valid_pa_spec in Hv as [? _]. }
  split; auto. intros va Hva Hlt E. destruct (Hx va Hva Hlt E); [|done]. by apply (Hm va).
Qed.

Lemma filled_upage F m m' r l lo hi va q :
  filled F m m' r l lo hi -> filling_ok F -> va_ok va -> upage m' r va = Some q ->
  upage m r va = Some q \/ q ∈ l.
Proof.
  intros Hf HF Hva. specialize (Hf va Hva).
  destruct (if (lo <=? va) && (va <? hi) then F va else None) as [[perm c]|] eqn:E.
  - destruct Hf as (p & Hx & Hp & Hv & _). rewrite (mk_pte_upage _ _ _ _ _ Hx Hv).
    + intros [= <-]. by right.
    + destruct ((lo <=? va) && (va <? hi)); [by eapply HF|done].
  - unfold upage. rewrite Hf. by left.
Qed.

Lemma filled_other F m m' r l lo hi va :
  filled F m m' r l lo hi -> va_ok va -> ~ lo <= va < hi -> xlate m' r va = xlate m r va.
Proof. intros Hf Hva Hr. specialize (Hf va Hva). revert Hf. cases. Qed.

Lemma proc_space_grow F m m' r l l' sz sz' tf lo hi :
  proc_space m r l sz tf -> uspace TRAPFRAME m' r l' ->
  grow_post TRAPFRAME F m m' r l l' lo hi -> filling_ok F ->
  sz <= sz' <= TRAPFRAME -> (forall va, va_ok va -> lo <= va < hi -> va < sz') ->
  proc_space m' r l' sz' tf.
Proof.
  intros [Hu Hsz Hab Htf Htr Hsp] Hu' Hg HF Hsz' Hhi. pose proof (gp_map _ _ _ _ _ _ _ _ _ Hg) as Hf.
  destruct TRAPFRAME_ok, TRAMPOLINE_ok.
  assert (Hsame : forall va, va_ok va -> sz' <= va -> xlate m' r va = xlate m r va).
  { intros va Hva Hge. eapply filled_other; eauto. intros Hr. specialize (Hhi va Hva Hr). lia. }
  split; auto.
  - lia.
  - intros va Hva Hge ? ?. rewrite Hsame by done. apply Hab; auto. lia.
  - rewrite Hsame by (done || lia). done.
  - rewrite Hsame by (done || lia). done.
  - apply (spare_kept _ m m' r l); auto; [apply Hg|]. intros va Hva _ E. by eapply filled_upage.
Qed.

Lemma proc_space_quiet m m' r l l' sz tf :
  proc_space m r l sz tf -> uspace TRAPFRAME m' r l' -> quiet TRAPFRAME m m' r l l' ->
  proc_space m' r l' sz tf.
Proof.
  intros [Hu Hsz Hab Htf Htr Hsp] Hu' [Hx Ho Hk]. destruct TRAPFRAME_ok, TRAMPOLINE_ok.
  split; auto.
  - intros va Hva. rewrite Hx by done. auto.
  - rewrite Hx by done. done.
  - rewrite Hx by done. done.
  - apply (spare_kept _ m m' r l); auto. intros va Hva _. unfold upage. rewrite Hx by done. auto.
Qed.

(** Writes to pages that belong to no table. *)
Lemma proc_space_same m m' r l sz tf :
  proc_space m r l sz tf -> same_space m m' r -> ptree 2 m' r l -> proc_space m' r l sz tf.
Proof.
  intros [Hu Hsz Hab Htf Htr Hsp] Hs Ht. pose proof (ss_xlate _ _ _ Hs) as Hx. split; auto.
  - by eapply uspace_space.
  - intros va ????. rewrite Hx. auto.
  - by rewrite Hx.
  - by rewrite Hx.
  - by eapply spare_space.
Qed.

(** ** walkaddr and vmfault *)

(** The user-accessible page at [va], 0 if none. *)
Definition user_pa (m : memory) (r va : Z) : Z :=
  match xlate m r va with
  | Some v => if has_flag v PTE_U then PTE2PA v else 0
  | None => 0
  end.

Lemma walkaddr_spec r va s l (Q : Z -> machine -> Prop) :
  ptree 2 (mem s) r l -> Q (if MAXVA <=? va then 0 else user_pa (mem s) r va) s ->
  wp (walkaddr r va) s Q.
Proof.
  intros Ht. unfold walkaddr. case_if; intros HQ; [by apply wp_ret|].
  apply (wp_lookup r va s l); auto.
  - intros Hx. apply wp_ret. unfold user_pa in HQ. by rewrite Hx in HQ.
  - intros Hx. apply wp_ret. unfold user_pa in HQ. by rewrite Hx in HQ.
  - intros a v _ Hx _ _. unfold user_pa in HQ. rewrite Hx in HQ.
    destruct (has_flag v PTE_U); by apply wp_ret.
Qed.

Definition URW : Z := Z.lor PTE_W (Z.lor PTE_U PTE_R).

(** Zeroed pages where nothing is mapped yet. *)
Definition lazy_fill (m : memory) (r : Z) : filling := fun va =>
  match xlate m r va with Some _ => None | None => Some (URW, fun _ => 0) end.

Lemma lazy_fill_ok m r : filling_ok (lazy_fill m r).
Proof. intros va perm c. unfold lazy_fill. destruct (xlate m r va); [done|]. by intros [= <- _]. Qed.

Lemma ismapped_spec r va s l (Q : bool -> machine -> Prop) :
  ptree 2 (mem s) r l -> va < MAXVA -> Q (bool_decide (xlate (mem s) r va <> None)) s ->
  wp (ismapped r va) s Q.
Proof.
  intros Ht Hva HQ. unfold ismapped. apply wp_bind, walk_noalloc; [done|].
  unfold xlate in HQ. destruct (pte_slot (mem s) r va) as [a|] eqn:Hs; cbn [default from_option id].
  - destruct (slot_page _ _ _ _ _ Ht Hs) as (p & _ & Ha & Hv & _).
    pose proof (is_valid_pa_pos p Hv). pose proof (PX_range 0 va ltac:(lia)).
    rewrite (proj2 (Z.eqb_neq a 0)) by lia. apply wp_bind. unfold load64. apply wp_gets, wp_ret.
    cbn in HQ. destruct (has_flag (ld64 (mem s) a) PTE_V); exact HQ.
  - apply wp_ret. exact HQ.
Qed.

Lemma vmfault_spec r va s l sz tf :
  kmem_inv s l -> proc_space (mem s) r l sz tf -> va_ok va ->
  wp (vmfault (ProcView sz r) r va) s (fun a s' => exists l', kmem_inv s' l' /\
    proc_space (mem s') r l' sz tf /\ mheld s' = mheld s /\
    ((a = 0 /\ quiet TRAPFRAME (mem s) (mem s') r l l') \/
     (va < sz /\ xlate (mem s) r va = None /\ a <> 0 /\
      xlate (mem s') r va = Some (mk_pte a URW) /\ is_valid_pa a = true /\
      grow_post TRAPFRAME (lazy_fill (mem s) r) (mem s) (mem s') r l l' va (va + PGSIZE)))).
Proof.
  intros Hs Hps Hva. unfold vmfault. cbn [pv_sz pv_pagetable].
  assert (Hq : exists l', kmem_inv s l' /\ proc_space (mem s) r l' sz tf /\ mheld s = mheld s /\
    quiet TRAPFRAME (mem s) (mem s) r l l').
  { exists l. split_and!; auto. split; auto using kept_refl. by intros. }
  destruct Hq as (lq & ? & ? & ? & ?).
  destruct (ps_sz _ _ _ _ _ Hps). destruct TRAPFRAME_ok as [? ?].
  case_if; [apply wp_ret; exists lq; split_and!; auto|].
  pose proof Hva as [? Hal]. rewrite PGROUNDDOWN_id by done.
  pose proof (ps_user _ _ _ _ _ Hps) as Hu.
  apply wp_bind, (ismapped_spec r va s l); [apply Hu|lia|].
  case_bool_decide as Hmap; [apply wp_ret; exists lq; split_and!; auto|].
  assert (Hnone : xlate (mem s) r va = None) by (destruct (xlate (mem s) r va); [by destruct Hmap|done]).
  apply wp_bind, (kalloc_taken TRAPFRAME r s l); auto.
  { intros ->. cbn [Z.eqb]. apply wp_ret. exists lq. split_and!; auto. }
  intros q l1 s1 Hq0 Htk. rewrite (proj2 (Z.eqb_neq q 0)) by done. apply wp_bind. unfold mset. apply wp_modify.
  set (m1 := memset (mem s1) q 0 PGSIZE).
  assert (Htk1 : taken TRAPFRAME s (set_mem m1 s1) r l l1 q).
  { apply taken_write; auto.
    - intros x ?. by apply memset_out.
    - apply memset_bytes_ok. by apply (km_bytes s1 l1), Htk. }
  apply wp_bind. eapply wp_mono; [apply (map_taken TRAPFRAME r va q URW s (set_mem m1 s1) l l1); auto; try lia; done|].
  cbn beta. intros rc s2 (l2 & Hs2 & Hu2 & Hh2 & Hk2 & Hag & Hsub & Hrc).
  destruct Hrc as [(-> & Hm & Ho)|(-> & Hm & Hsp & Ho)]; cbn [Z.eqb negb].
  - assert (Hg : grow_post TRAPFRAME (lazy_fill (mem s) r) (mem s) (mem s2) r l l2 va (va + PGSIZE)).
    { eapply (grow_post_one _ _ r va q URW (fun _ => 0)); eauto.
      - unfold lazy_fill. by rewrite Hnone.
      - intros x Hx. cbn [mem set_mem]. unfold m1. apply memset_in. lia. }
    apply wp_ret. exists l2. split_and!; auto.
    + apply (proc_space_grow (lazy_fill (mem s) r) (mem s) (mem s2) r l l2 sz sz tf va (va + PGSIZE));
        auto using lazy_fill_ok; [lia|].
      intros va' Hva' Hr. rewrite (page_only va va') by done. lia.
    + right. split_and!; auto; [rewrite Hm by done; by rewrite Z.eqb_refl|apply Htk].
  - apply wp_bind. eapply wp_mono; [apply (kfree_spare TRAPFRAME r q s s2 l l2); auto|].
    { rewrite (tk_list _ _ _ _ _ _ _ Htk). apply elem_of_cons. by left. }
    intros _ s3 (Hs3 & Hu3 & Hh3 & Hq3). apply wp_ret. exists (q :: l2).
    split_and!; auto; [by eapply proc_space_quiet; [exact Hps|..]|congruence].
Qed.

(** The pages at the top of the table are not for user code. *)
Lemma ps_valid_user m r l sz tf va v :
  proc_space m r l sz tf -> va_ok va -> xlate m r va = Some v -> ~ va < TRAPFRAME ->
  has_flag v PTE_U = false.
Proof.
  intros Hps Hva Hx Hge. destruct (decide (va = TRAPFRAME)) as [->|Hn1].
  - rewrite (ps_tf _ _ _ _ _ Hps) in Hx. injection Hx as <-.
    pose proof (is_valid_pa_pos tf (sp_valid _ _ _ _ _ (ps_spare _ _ _ _ _ Hps))).
    rewrite mk_pte_eq, has_U_mk by (done || lia). done.
  - destruct (decide (va = TRAMPOLINE)) as [->|Hn2].
    + rewrite (ps_tramp _ _ _ _ _ Hps) in Hx. injection Hx as <-.
      destruct sym_trampoline_range, sym_end_range.
      rewrite mk_pte_eq, has_U_mk; [done| |done]. unfold PHYSTOP, KERNBASE, PGSIZE in *. lia.
    + rewrite (ps_above _ _ _ _ _ Hps) in Hx; auto; [done|].
      destruct (ps_sz _ _ _ _ _ Hps). lia.
Qed.

Lemma user_page_spec r va s l sz tf :
  kmem_inv s l -> proc_space (mem s) r l sz tf -> va_ok va ->
  wp (user_page (ProcView sz r) r va) s (fun a s' => exists l', kmem_inv s' l' /\
    proc_space (mem s') r l' sz tf /\ mheld s' = mheld s /\
    ((a = 0 /\ quiet TRAPFRAME (mem s) (mem s') r l l' /\
      (va < TRAPFRAME -> user_pa (mem s') r va = 0)) \/
     (va < TRAPFRAME /\ a <> 0 /\
      (exists v, xlate (mem s') r va = Some v /\ a = PTE2PA v /\ has_flag v PTE_U = true) /\
      (xlate (mem s) r va = None -> va < sz) /\
      grow_post TRAPFRAME (lazy_fill (mem s) r) (mem s) (mem s') r l l' va (va + PGSIZE)))).
Proof.
  intros Hs Hps Hva. unfold user_page. apply wp_bind, (walkaddr_spec r va s l); [apply Hps|].
  destruct (MAXVA <=? va) eqn:E; bool_simp.
  - (* beyond the table: vmfault refuses as well *)
    rewrite Z.eqb_refl. eapply wp_mono; [by apply vmfault_spec|].
    cbn beta. intros a s' (l' & ? & ? & ? & [[-> ?]|(Hlt & _)]).
    + exists l'. split_and!; auto. left. split_and!; auto. destruct TRAPFRAME_ok. lia.
    + destruct (ps_sz _ _ _ _ _ Hps), TRAPFRAME_ok. lia.
  - unfold user_pa. destruct (xlate (mem s) r va) as [v|] eqn:Hx; [destruct (has_flag v PTE_U) eqn:HU|].
    + assert (Hlt : va < TRAPFRAME).
      { destruct (decide (va < TRAPFRAME)) as [?|Hge]; [done|]. exfalso.
        pose proof (ps_valid_user (mem s) r l sz tf va v Hps Hva Hx Hge). congruence. }
      assert (Hup : upage (mem s) r va = Some (PTE2PA v)) by (unfold upage; by rewrite Hx).
      destruct (us_leaf _ _ _ _ (ps_user _ _ _ _ _ Hps) va _ Hva Hlt Hup) as (Hv & _).
      apply is_valid_pa_pos in Hv. rewrite (proj2 (Z.eqb_neq (PTE2PA v) 0)) by lia. apply wp_ret.
      exists l. split_and!; auto. right. split_and!; auto; [lia|eauto|done|].
      apply grow_post_skip; [done|]. unfold lazy_fill. by rewrite Hx.
    + rewrite Z.eqb_refl. eapply wp_mono; [by apply vmfault_spec|].
      cbn beta. intros a s' (l' & ? & ? & ? & [[-> Hq]|(_ & Hn & _)]); [|congruence].
      exists l'. split_and!; auto. left. split_and!; auto. intros _. unfold user_pa.
      by rewrite (qu_map _ _ _ _ _ _ Hq), Hx, HU by done.
    + rewrite Z.eqb_refl. eapply wp_mono; [by apply vmfault_spec|].
      cbn beta. intros a s' (l' & ? & ? & ? & [[-> Hq]|(Hlt & _ & H0 & Hx' & Hv & ?)]).
      * exists l'. split_and!; auto. left. split_and!; auto. intros _. unfold user_pa.
        by rewrite (qu_map _ _ _ _ _ _ Hq), Hx by done.
      * exists l'. split_and!; auto. right. destruct (ps_sz _ _ _ _ _ Hps).
        pose proof (is_valid_pa_pos a Hv). apply is_valid_pa_spec in Hv as [Hal _].
        split_and!; auto; [lia|]. exists (mk_pte a URW). split_and!; auto.
        -- by rewrite mk_pte_PA by (done || lia).
        -- rewrite mk_pte_eq, has_U_mk by (done || lia). done.
Qed.

(** Addresses beyond the table. *)
Lemma user_page_high r va s l sz tf (Q : Z -> machine -> Prop) :
  proc_space (mem s) r l sz tf -> MAXVA <= va -> Q 0 s -> wp (user_page (ProcView sz r) r va) s Q.
Proof.
  intros Hps Hva HQ. unfold user_page. apply wp_bind, (walkaddr_spec r va s l); [apply Hps|].
  rewrite (proj2 (Z.leb_le MAXVA va)) by done. rewrite Z.eqb_refl. unfold vmfault. cbn [pv_sz].
  destruct (ps_sz _ _ _ _ _ Hps), TRAPFRAME_ok. rewrite (proj2 (Z.leb_le sz va)) by lia. by apply wp_ret.
Qed.
End code.
