(* ===== verification/UserCopy.v ===== *)
(** The user address space as a map from addresses to bytes, and the copy
    routines of vm.c as operations on that map: [copyout] overwrites a range,
    [copyin] reads one, [copyinstr] reads up to a NUL. *)

From S2P Require Import Prelude.
From S2P Require Import Memory.
From S2P Require Import Spinlock.
From S2P Require Import Riscv.
From S2P Require Import Kalloc.
From S2P Require Import PageTable.
From S2P Require Import AddrSpace.
From S2P Require Import Uvm.
From S2P Require Import UserMem.

(** ** Byte ranges *)

Definition byte_list (bs : list Z) : Prop := Forall (fun b => 0 <= b < 256) bs.

Lemma write_bytes_spec bs : forall m a x, byte_list bs ->
  write_bytes m a bs x =
  if (a <=? x) && (x <? a + Z.of_nat (length bs)) then nth (Z.to_nat (x - a)) bs 0 else m x.
Proof.
  induction bs as [|b bs IH]; intros m a x Hbs; cbn [write_bytes length].
  - cases.
  - apply Forall_cons in Hbs as [Hb Hbs]. rewrite IH by done. clear IH.
    destruct (decide (x = a)) as [->|Hne].
    + rewrite (proj2 (Z.leb_gt (a + 1) a)) by lia. cbn [andb]. rewrite st8_same, u8_id by done.
      rewrite Z.leb_refl, (proj2 (Z.ltb_lt _ _)) by lia. cbn [andb]. by rewrite Z.sub_diag.
    + rewrite st8_other by done. cases.
      replace (Z.to_nat (x - a)) with (S (Z.to_nat (x - (a + 1)))) by lia. done.
Qed.

Lemma write_bytes_ok bs : forall m a, bytes_ok m -> bytes_ok (write_bytes m a bs).
Proof. induction bs as [|b bs IH]; intros m a Hm; cbn; [done|]. apply IH, (st_bytes_ok 1), Hm. Qed.

Lemma read_bytes_length m a n : length (read_bytes m a n) = n.
Proof. revert a; induction n as [|n IH]; intros a; cbn; [done|]. by rewrite IH. Qed.

Lemma read_bytes_nth n : forall m a i, (i < n)%nat -> nth i (read_bytes m a n) 0 = m (a + Z.of_nat i).
Proof.
  induction n as [|n IH]; intros m a [|i] Hi; cbn [read_bytes nth]; [lia|lia|f_equal; lia|].
  rewrite IH by lia. f_equal. lia.
Qed.

(** ** Views *)

(** The flags and the contents of each mapped user address. *)
Definition uview : Type := Z -> option (Z * Z).

Section view.
Context `{LinkerSyms}.

Definition ubyte (m : memory) (r : Z) : uview := fun va =>
  match xlate m r (PGROUNDDOWN va) with
  | Some pte => Some (PTE_FLAGS pte, m (PTE2PA pte + va mod PGSIZE))
  | None => None
  end.

Definition view_eq (e e' : uview) : Prop := forall va, 0 <= va < TRAPFRAME -> e' va = e va.

(** [e'] is [e], but zeroed pages may have appeared below [sz]. *)
Definition lazy_ext (sz : Z) (e e' : uview) : Prop :=
  forall va, 0 <= va < TRAPFRAME ->
    e' va = e va \/ (e va = None /\ PGROUNDDOWN va < sz /\ e' va = Some (Z.lor URW PTE_V, 0)).

Definition overwrite (e : uview) (dst : Z) (bs : list Z) : uview := fun va =>
  if (dst <=? va) && (va <? dst + Z.of_nat (length bs))
  then match e va with
       | Some (fl, _) => Some (fl, nth (Z.to_nat (va - dst)) bs 0)
       | None => None
       end
  else e va.

(** User code may read, or write, the byte at [va]. *)
Definition readable (e : uview) (va : Z) : Prop :=
  exists fl b, e va = Some (fl, b) /\ has_flag fl PTE_U = true.
Definition writable (e : uview) (va : Z) : Prop :=
  exists fl b, e va = Some (fl, b) /\ has_flag fl PTE_U = true /\ has_flag fl PTE_W = true.

(** [e'] is [e] with [bs] written at [dst], all of it to writable user memory. *)
Definition out_to (sz dst : Z) (bs : list Z) (e e' : uview) : Prop :=
  (bs <> [] -> dst + Z.of_nat (length bs) <= TRAPFRAME) /\
  exists e1, lazy_ext sz e e1 /\
    (forall va, dst <= va < dst + Z.of_nat (length bs) -> writable e1 va) /\
    view_eq (overwrite e1 dst bs) e'.

Lemma lazy_ext_eq sz e e' : view_eq e e' -> lazy_ext sz e e'.
Proof. intros He va Hva. left. auto. Qed.

Lemma lazy_ext_trans sz e1 e2 e3 : lazy_ext sz e1 e2 -> lazy_ext sz e2 e3 -> lazy_ext sz e1 e3.
Proof.
  intros H1 H2 va Hva. destruct (H1 va Hva) as [E1|(E1 & ? & E1')], (H2 va Hva) as [E2|(E2 & ? & E2')].
  - left. congruence.
  - right. split_and!; auto. congruence.
  - right. split_and!; auto. congruence.
  - congruence.
Qed.

Lemma out_to_lazy sz dst bs e e1 e2 :
  0 <= dst -> out_to sz dst bs e e1 -> lazy_ext sz e1 e2 -> out_to sz dst bs e e2.
Proof.
  intros Hd (Hle & x & Hx & Hw & Hv) He. split; [done|].
  exists (fun va => match x va with Some _ => x va | None => e2 va end). split_and!.
  - intros va Hva. destruct (Hx va Hva) as [E|(E & ? & E')].
    + rewrite E. destruct (e va) as [b|] eqn:Ee; [by left|].
      destruct (He va Hva) as [E2|(E2 & ? & E2')].
      * left. rewrite E2, Hv by done. unfold overwrite. rewrite E. by case_if.
      * right. split_and!; auto.
    + rewrite E'. by right.
  - intros va Hr. destruct (Hw va Hr) as (fl & b & E & ?). exists fl, b. by rewrite E.
  - intros va Hva. destruct (He va Hva) as [E2|(E2 & ? & E2')].
    + rewrite E2, Hv by done. unfold overwrite. case_if.
      * destruct (Hw va ltac:(lia)) as (fl & b & E & _). by rewrite E.
      * destruct (x va) eqn:Ex; [done|]. rewrite E2, Hv by done. unfold overwrite. rewrite Ex. by case_if.
      * destruct (x va) eqn:Ex; [done|]. rewrite E2, Hv by done. unfold overwrite. rewrite Ex. by case_if.
    + rewrite Hv in E2 by done. unfold overwrite in *. destruct (x va) as [[fl b]|] eqn:Ex.
      * revert E2. by case_if.
      * case_if; [|done..]. destruct (Hw va ltac:(lia)) as (fl & b & E & _). congruence.
Qed.

Lemma out_to_nil sz dst e : out_to sz dst [] e e.
Proof.
  split; [done|]. exists e. split_and!.
  - by apply lazy_ext_eq.
  - cbn. intros. lia.
  - intros va _. unfold overwrite. cbn. cases.
Qed.

(** Writing on where the last write ended. *)
Lemma out_to_app sz dst bs cs e e1 e2 :
  0 <= dst -> out_to sz dst bs e e1 -> out_to sz (dst + Z.of_nat (length bs)) cs e1 e2 ->
  out_to sz dst (bs ++ cs) e e2.
Proof.
  intros Hd H1 (Hle & x & Hx & Hw & Hv).
  destruct (out_to_lazy sz dst bs e e1 x Hd H1 Hx) as (Hle1 & y & Hy & Hw1 & Hv1).
  assert (Hne : (0 < length cs)%nat -> cs <> []) by (destruct cs; cbn; [lia|done]).
  split.
  { intros Happ. rewrite length_app. destruct cs as [|c cs]; [|specialize (Hle ltac:(done)); lia].
    rewrite app_nil_r in Happ. specialize (Hle1 Happ). cbn. lia. }
  exists y.
  assert (Hyx : forall va, dst + Z.of_nat (length bs) <= va < dst + Z.of_nat (length bs) + Z.of_nat (length cs) -> x va = y va).
  { intros va Hr. specialize (Hle (Hne ltac:(lia))). rewrite Hv1 by lia. unfold overwrite. cases. }
  rewrite length_app. split_and!; auto.
  - intros va Hr. destruct (decide (va < dst + Z.of_nat (length bs))) as [?|?]; [apply Hw1; lia|].
    unfold writable. rewrite <- Hyx by lia. apply Hw. lia.
  - intros va Hva. rewrite Hv by done. unfold overwrite at 1.
    case_if.
    + unfold overwrite. rewrite Hyx by lia. rewrite length_app, app_nth2 by lia.
      replace (Z.to_nat (va - dst) - length bs)%nat with (Z.to_nat (va - (dst + Z.of_nat (length bs)))) by lia. cases.
    + rewrite Hv1 by done. unfold overwrite. rewrite length_app. cases. by rewrite app_nth1 by lia.
    + rewrite Hv1 by done. unfold overwrite. rewrite length_app. cases.
Qed.

(** ** The view of memory *)

Lemma page_of va : 0 <= va < TRAPFRAME -> va_ok (PGROUNDDOWN va) /\ PGROUNDDOWN va < TRAPFRAME.
Proof.
  intros Hva. pose proof (PGROUNDDOWN_bounds va). pose proof (PGROUNDDOWN_aligned va) as Hal.
  assert (0 <= PGROUNDDOWN va) by (rewrite PGROUNDDOWN_eq; unfold PGSIZE; dlia).
  change TRAPFRAME with (2 ^ 38 - 8192) in *. unfold va_ok. split_and!; auto; lia.
Qed.

Lemma page_split va : va = PGROUNDDOWN va + va mod PGSIZE /\ 0 <= va mod PGSIZE < PGSIZE.
Proof. rewrite PGROUNDDOWN_eq. unfold PGSIZE. dlia. Qed.

(** Mapped pages are kept. *)
Lemma kept_leaf m m' r l l' va pte :
  uspace TRAPFRAME m r l -> kept m m' r l l' -> va_ok va -> va < TRAPFRAME ->
  xlate m r va = Some pte -> agree (PTE2PA pte) PGSIZE m m'.
Proof.
  intros Hu Hk Hva Hlt Hx. destruct (us_leaf _ _ _ _ Hu va (PTE2PA pte)) as (Hv & Hl & Ho); auto.
  { unfold upage. by rewrite Hx. }
  apply (Hk (PTE2PA pte)); auto. by apply is_valid_pa_spec in Hv as [? _].
Qed.

Lemma quiet_view m m' r l l' :
  uspace TRAPFRAME m r l -> quiet TRAPFRAME m m' r l l' -> view_eq (ubyte m r) (ubyte m' r).
Proof.
  intros Hu [Hx _ Hk] va Hva. destruct (page_of va Hva) as [Hp Hlt]. unfold ubyte.
  rewrite Hx by done. destruct (xlate m r (PGROUNDDOWN va)) as [pte|] eqn:E; [|done].
  do 2 f_equal. destruct (page_split va). by eapply kept_leaf; [..|exact E|lia].
Qed.

Lemma grow_view m m' r l l' va0 sz :
  uspace TRAPFRAME m r l -> va_ok va0 -> (xlate m r va0 = None -> va0 < sz) ->
  grow_post TRAPFRAME (lazy_fill m r) m m' r l l' va0 (va0 + PGSIZE) ->
  lazy_ext sz (ubyte m r) (ubyte m' r).
Proof.
  intros Hu Hva0 Hsz Hg va Hva. destruct (page_of va Hva) as [Hp Hlt]. destruct (page_split va).
  pose proof (gp_map _ _ _ _ _ _ _ _ _ Hg _ Hp) as Hf. unfold ubyte, lazy_fill in *.
  destruct (xlate m r (PGROUNDDOWN va)) as [pte|] eqn:E.
  - left. assert (Hx : xlate m' r (PGROUNDDOWN va) = Some pte) by (revert Hf; by case_if). rewrite Hx.
    do 2 f_equal. eapply kept_leaf; [..|exact E|lia]; eauto. apply Hg.
  - revert Hf. case_if; [|by intros ->; left..].
    intros (p & Hx & _ & Hv & Hz). right. rewrite Hx.
    pose proof (is_valid_pa_pos p Hv). apply is_valid_pa_spec in Hv as [Hal _].
    rewrite mk_pte_PA, Hz, mk_pte_eq, PTE_FLAGS_mk by (done || lia). split_and!; auto.
    assert (Heq : PGROUNDDOWN va = va0) by (by apply page_only).
    rewrite Heq in E |- *. auto.
Qed.

(** A write of user memory. *)
Section uwrite.
Context (m : memory) (r : Z) (l : list Z) (va0 v o : Z) (bs : list Z).
Hypothesis Hu : uspace TRAPFRAME m r l.
Hypothesis Hva0 : va_ok va0.
Hypothesis Hlt : va0 < TRAPFRAME.
Hypothesis Hx : xlate m r va0 = Some v.
Hypothesis Ho : 0 <= o.
Hypothesis Hlen : o + Z.of_nat (length bs) <= PGSIZE.
Hypothesis Hbs : byte_list bs.
Let m' := write_bytes m (PTE2PA v + o) bs.

Lemma uwrite_leaf : is_valid_pa (PTE2PA v) = true /\ (PTE2PA v ∉ l) /\ off_table m r (PTE2PA v) /\
  PTE2PA v mod PGSIZE = 0.
Proof.
  destruct (us_leaf _ _ _ _ Hu va0 (PTE2PA v)) as (Hv & ? & ?); auto.
  { unfold upage. by rewrite Hx. }
  split_and!; auto. by apply is_valid_pa_spec in Hv as [? _].
Qed.

Lemma uwrite_frame : mem_frame (PTE2PA v) m m'.
Proof. intros x Hr. unfold m'. rewrite write_bytes_spec by done. cases. Qed.

Lemma uwrite_space : same_space m m' r /\ ptree 2 m' r l.
Proof.
  destruct uwrite_leaf as (? & ? & ? & ?). apply (frame_space m m' r l (PTE2PA v)); auto.
  - apply Hu.
  - apply uwrite_frame.
Qed.

Lemma uwrite_view : view_eq (overwrite (ubyte m r) (va0 + o) bs) (ubyte m' r).
Proof.
  intros va Hva. destruct (page_of va Hva) as [Hp Hplt]. destruct (page_split va) as [Hsp Hmod].
  destruct uwrite_space as [Hss _]. destruct uwrite_leaf as (Hvv & _ & _ & Hal).
  unfold overwrite, ubyte. rewrite (ss_xlate _ _ _ Hss).
  destruct (decide (PGROUNDDOWN va = va0)) as [Heq|Hne].
  - rewrite Heq, Hx. unfold m'. rewrite write_bytes_spec by done.
    cases; do 3 f_equal; lia.
  - assert (Hout : ~ (va0 + o <= va < va0 + o + Z.of_nat (length bs))).
    { intros Hr. apply Hne. apply (page_only va0); auto. destruct Hva0, Hp. unfold PGSIZE in *. dlia. }
    destruct (xlate m r (PGROUNDDOWN va)) as [pte|] eqn:E; [|cases].
    assert (Hother : m' (PTE2PA pte + va mod PGSIZE) = m (PTE2PA pte + va mod PGSIZE)).
    { apply (frame_agree (PTE2PA v) (PTE2PA pte) _ _ uwrite_frame); [done|..|lia].
      - destruct (us_leaf _ _ _ _ Hu (PGROUNDDOWN va) (PTE2PA pte)) as (Hv' & _); auto.
        { unfold upage. by rewrite E. }
        by apply is_valid_pa_spec in Hv' as [? _].
      - intros Heq. apply Hne. apply (us_inj _ _ _ _ Hu _ _ (PTE2PA v)); auto; unfold upage.
        + by rewrite E, <- Heq.
        + by rewrite Hx. }
    rewrite Hother. cases.
Qed.
End uwrite.

(** ** copyout *)

(** The operation moves pages only within the process and the free list, and
    writes no page of anyone else. *)
Record contained (m m' : memory) (r : Z) (l l' : list Z) : Prop := {
  ct_own q : owned TRAPFRAME m' r l' q <-> owned TRAPFRAME m r l q;
  ct_out q : q mod PGSIZE = 0 -> ~ owned TRAPFRAME m r l q -> agree q PGSIZE m m'
}.

Lemma contained_trans m1 m2 m3 r l1 l2 l3 :
  contained m1 m2 r l1 l2 -> contained m2 m3 r l2 l3 -> contained m1 m3 r l1 l3.
Proof.
  intros [O1 A1] [O2 A2]. split.
  - intros q. by rewrite O2, O1.
  - intros q Hq Hn x Hx. rewrite (A2 q), (A1 q); auto. by rewrite O1.
Qed.

Lemma contained_refl m r l : contained m m r l l.
Proof. split; by intros. Qed.

Lemma kept_contained m m' r l l' :
  kept m m' r l l' -> (forall q, owned TRAPFRAME m' r l' q <-> owned TRAPFRAME m r l q) ->
  contained m m' r l l'.
Proof.
  intros Hk Ho. split; [done|]. intros q Hq Hn. apply (Hk q); auto.
  - intros ?. apply Hn. by left.
  - intros π Hπ E. apply Hn. right; left. eauto.
Qed.

Lemma uwrite_contained m r l va0 v o bs :
  uspace TRAPFRAME m r l -> va_ok va0 -> va0 < TRAPFRAME -> xlate m r va0 = Some v -> 0 <= o ->
  o + Z.of_nat (length bs) <= PGSIZE -> byte_list bs ->
  contained m (write_bytes m (PTE2PA v + o) bs) r l l.
Proof.
  intros Hu Hva Hlt Hx Ho Hlen Hbs.
  destruct (uwrite_space m r l va0 v o bs) as [Hss _]; auto.
  destruct (uwrite_leaf m r l va0 v) as (? & ? & ? & ?); auto.
  split; [intros; by apply owned_space|]. intros q Hq Hn.
  apply (frame_agree (PTE2PA v)); auto; [by eapply uwrite_frame|].
  intros ->. apply Hn. right; right. exists va0. split_and!; auto. unfold upage. by rewrite Hx.
Qed.

(** Where [user_page] has found a page. *)
Lemma has_W_flags v : has_flag (PTE_FLAGS v) PTE_W = has_flag v PTE_W.
Proof. apply (has_flag_flags v 2). lia. Qed.

Lemma has_U_flags v : has_flag (PTE_FLAGS v) PTE_U = has_flag v PTE_U.
Proof. apply (has_flag_flags v 4). lia. Qed.

(** A write to a writable user page, seen as one step of [copyout]. *)
Lemma uwrite_out sz m r l va0 v dst bs :
  uspace TRAPFRAME m r l -> va_ok va0 -> va0 < TRAPFRAME -> xlate m r va0 = Some v ->
  has_flag v PTE_U = true -> has_flag v PTE_W = true -> va0 <= dst ->
  dst - va0 + Z.of_nat (length bs) <= PGSIZE -> byte_list bs ->
  out_to sz dst bs (ubyte m r) (ubyte (write_bytes m (PTE2PA v + (dst - va0)) bs) r).
Proof.
  intros Hu Hva Hlt Hx HU HW Hd Hlen Hbs. destruct TRAPFRAME_ok as [Htf _].
  pose proof (page_end TRAPFRAME va0 Hva Htf Hlt). split; [intros _; lia|].
  exists (ubyte m r). split_and!.
  - by apply lazy_ext_eq.
  - intros va Hr. unfold writable, ubyte. destruct (page_of va) as [Hp _]; [destruct Hva; lia|].
    assert (Heq : PGROUNDDOWN va = va0).
    { destruct (page_split va), Hva, Hp. unfold PGSIZE in *. dlia. }
    rewrite Heq, Hx. do 2 eexists. split; [done|]. by rewrite has_U_flags, has_W_flags.
  - replace dst with (va0 + (dst - va0)) at 1 by lia. apply (uwrite_view _ _ l); auto. lia.
Qed.

(** The entry [copyout] checks for [PTE_W] is there. *)
Lemma copyout_entry r va s l v :
  uspace TRAPFRAME (mem s) r l -> va < TRAPFRAME -> xlate (mem s) r va = Some v ->
  exists pte, pte_slot (mem s) r va = Some pte /\ pte <> 0 /\ ld64 (mem s) pte = v.
Proof.
  intros Hu Hlt Hx. unfold xlate in Hx. destruct (pte_slot (mem s) r va) as [a|] eqn:Hs; [|done].
  destruct (slot_page _ _ _ _ _ (us_tree _ _ _ _ Hu) Hs) as (p & _ & Ha & Hv & _).
  pose proof (is_valid_pa_pos p Hv). pose proof (PX_range 0 va ltac:(lia)).
  exists a. cbn in Hx. destruct (has_flag (ld64 (mem s) a) PTE_V); [|done].
  split_and!; [done|lia|congruence].
Qed.

Lemma user_pa_unreadable m r l va fl b :
  uspace TRAPFRAME m r l -> 0 <= va < TRAPFRAME -> user_pa m r (PGROUNDDOWN va) = 0 ->
  ubyte m r va = Some (fl, b) -> has_flag fl PTE_U = true -> False.
Proof.
  intros Hu Hva Hno. unfold ubyte, user_pa in *. destruct (page_of va Hva) as [Hp Hlt].
  destruct (xlate m r (PGROUNDDOWN va)) as [v|] eqn:Hx; [|done]. intros [= <- _]. rewrite has_U_flags.
  destruct (has_flag v PTE_U) eqn:HU; [intros _|done].
  destruct (us_leaf _ _ _ _ Hu (PGROUNDDOWN va) (PTE2PA v)) as (Hv & _); auto.
  { unfold upage. by rewrite Hx. }
  apply is_valid_pa_pos in Hv. lia.
Qed.

Lemma copyout_step_spec r dstva src s l sz tf :
  kmem_inv s l -> proc_space (mem s) r l sz tf -> 0 <= dstva < 2 ^ 64 -> src <> [] -> byte_list src ->
  wp (copyout_step (ProcView sz r) r (dstva, src)) s (fun res s' => exists l', kmem_inv s' l' /\
    proc_space (mem s') r l' sz tf /\ mheld s' = mheld s /\ contained (mem s) (mem s') r l l' /\
    ((res = inr (-1) /\ lazy_ext sz (ubyte (mem s) r) (ubyte (mem s') r) /\
      (dstva < TRAPFRAME -> ~ writable (ubyte (mem s') r) dstva)) \/
     exists n next, (0 < n <= length src)%nat /\ res = inl (next, drop n src) /\
       ((n < length src)%nat -> next = dstva + Z.of_nat n) /\
       out_to sz dstva (take n src) (ubyte (mem s) r) (ubyte (mem s') r))).
Proof.
  intros Hs Hps Hd Hne Hbs. unfold copyout_step.
  pose proof (PGROUNDDOWN_bounds dstva) as Hb. pose proof (PGROUNDDOWN_aligned dstva) as Hal.
  assert (Hnn : 0 <= PGROUNDDOWN dstva) by (rewrite PGROUNDDOWN_eq; unfold PGSIZE; dlia).
  set (va0 := PGROUNDDOWN dstva) in *. case_if.
  { apply wp_ret. exists l. split_and!; auto using contained_refl. left. split_and!; [done|by apply lazy_ext_eq|].
    destruct TRAPFRAME_ok. lia. }
  rewrite MAXVA_eq in *. assert (Hva0 : va_ok va0) by (split; [lia|done]).
  apply wp_bind. eapply wp_mono; [by apply user_page_spec|].
  cbn beta. intros a s1 (l1 & Hs1 & Hps1 & Hh1 & [(-> & Hq & Hno)|(Hlt & Ha0 & (v & Hx & -> & HU) & Hsz & Hg)]).
  { rewrite Z.eqb_refl. apply wp_ret. exists l1. split_and!; auto; [by apply kept_contained; apply Hq|].
    left. split_and!; [done|apply lazy_ext_eq; eapply quiet_view; [apply Hps|done]|].
    intros Hlt (fl & b & Eb & HU & _). eapply (user_pa_unreadable (mem s1) r l1 dstva);
      [apply Hps1|lia|apply Hno; lia|exact Eb|exact HU]. }
  rewrite (proj2 (Z.eqb_neq (PTE2PA v) 0)) by done.
  assert (Hc1 : contained (mem s) (mem s1) r l l1) by (apply kept_contained; apply Hg).
  assert (Hl1 : lazy_ext sz (ubyte (mem s) r) (ubyte (mem s1) r)) by (eapply grow_view; eauto; apply Hps).
  pose proof (ps_user _ _ _ _ _ Hps1) as Hu1.
  destruct (copyout_entry r va0 s1 l1 v Hu1 Hlt Hx) as (pte & Hslot & Hpte & Hld).
  apply wp_bind, walk_noalloc; [rewrite MAXVA_eq; lia|]. rewrite Hslot. cbn [default from_option id].
  rewrite (proj2 (Z.eqb_neq pte 0)) by done. apply wp_bind. unfold load64. apply wp_gets. rewrite Hld.
  destruct (has_flag v PTE_W) eqn:HW; cbn [negb].
  2: { apply wp_ret. exists l1. split_and!; auto. left. split_and!; auto.
       intros _ (fl & b & Eb & _ & HW'). unfold ubyte in Eb. fold va0 in Eb. rewrite Hx in Eb.
       injection Eb as <- _. rewrite has_W_flags in HW'. congruence. }
  set (n := Z.min (PGSIZE - (dstva - va0)) (Z.of_nat (length src))).
  assert (Hlen : (length src <> 0)%nat) by (by destruct src).
  assert (Hn : 0 < n <= Z.of_nat (length src)) by lia.
  assert (Htk : length (take (Z.to_nat n) src) = Z.to_nat n) by (rewrite length_take; lia).
  assert (Hbt : byte_list (take (Z.to_nat n) src)) by (by apply Forall_take).
  apply wp_bind, wp_modify, wp_ret.
  assert (Hfit : (dstva - va0) + Z.of_nat (length (take (Z.to_nat n) src)) <= PGSIZE) by lia.
  destruct (uwrite_space (mem s1) r l1 va0 v (dstva - va0) (take (Z.to_nat n) src)) as [Hss Ht2]; auto; try lia.
  destruct (uwrite_leaf (mem s1) r l1 va0 v) as (? & ? & ? & ?); auto.
  exists l1. cbn [mem set_mem mheld]. split_and!; auto.
  - eapply (kmem_inv_write s1 l1 (PTE2PA v)); eauto.
    + eapply uwrite_frame; eauto; lia.
    + apply write_bytes_ok. by apply km_bytes in Hs1.
  - by eapply proc_space_same.
  - eapply contained_trans; [done|]. apply (uwrite_contained _ _ _ va0); auto; lia.
  - right. exists (Z.to_nat n), (u64 (va0 + PGSIZE)). split_and!; [lia|lia|done| |].
    + intros Hlt'. rewrite u64_id by (unfold PGSIZE; lia). unfold PGSIZE in *. lia.
    + replace (take (Z.to_nat n) src) with ([] ++ take (Z.to_nat n) src) by done.
      apply (out_to_app sz dstva [] _ _ (ubyte (mem s1) r)); [lia|..].
      * apply (out_to_lazy _ _ _ _ (ubyte (mem s) r)); [lia|apply out_to_nil|done].
      * cbn [length]. rewrite Z.add_0_r. apply (uwrite_out _ _ _ l1); auto; lia.
Qed.

Lemma copyout_spec r dstva src s l sz tf :
  kmem_inv s l -> proc_space (mem s) r l sz tf -> 0 <= dstva < 2 ^ 64 -> byte_list src ->
  wp (copyout (ProcView sz r) r dstva src) s (fun rc s' => exists l', kmem_inv s' l' /\
    proc_space (mem s') r l' sz tf /\ mheld s' = mheld s /\ contained (mem s) (mem s') r l l' /\
    exists k, out_to sz dstva (take k src) (ubyte (mem s) r) (ubyte (mem s') r) /\
      ((rc = 0 /\ k = length src) \/
       (rc = -1 /\ (k < length src)%nat /\
        (dstva + Z.of_nat k < TRAPFRAME -> ~ writable (ubyte (mem s') r) (dstva + Z.of_nat k))))).
Proof.
  intros Hs Hps Hd Hbs. unfold copyout.
  apply (wp_loop (fun x s1 => exists k l1, (k <= length src)%nat /\ x.2 = drop k src /\
      ((k < length src)%nat -> x.1 = dstva + Z.of_nat k) /\
      kmem_inv s1 l1 /\ proc_space (mem s1) r l1 sz tf /\ mheld s1 = mheld s /\
      contained (mem s) (mem s1) r l l1 /\
      out_to sz dstva (take k src) (ubyte (mem s) r) (ubyte (mem s1) r))
    (fun x => length x.2)).
  - intros [dv sr] s1 (k & l1 & Hk & Hsr & Hdv & Hs1 & Hps1 & Hh1 & Hc1 & Ho1). cbn [fst snd] in *.
    assert (Hlen : length sr = (length src - k)%nat) by (by rewrite Hsr, length_drop).
    destruct sr as [|b sr'].
    { apply wp_ret. exists l1. split_and!; auto. cbn in Hlen. exists k. split; [done|]. left. split; [done|lia]. }
    cbn in Hlen. rewrite (Hdv ltac:(lia)), Hsr in *. clear Hdv.
    assert (Hrange : 0 <= dstva + Z.of_nat k < 2 ^ 64).
    { destruct k as [|k]; [lia|]. destruct Ho1 as [Hle _]. rewrite length_take in Hle.
      change TRAPFRAME with (2 ^ 38 - 8192) in Hle. specialize (Hle ltac:(destruct src; done)). lia. }
    eapply wp_mono; [apply (copyout_step_spec r _ (drop k src) s1 l1 sz tf); auto|].
    { intros E. by rewrite E in Hsr. }
    { by apply Forall_drop. }
    cbn beta. intros res s2 (l2 & Hs2 & Hps2 & Hh2 & Hc2 & Hres).
    destruct Hres as [(-> & Hl & Hno)|(n & next & Hn & -> & Hnext & Ho2)].
    + exists l2. split_and!; auto; [congruence|by eapply contained_trans|].
      exists k. split; [|right; split_and!; [done|lia|done]]. by eapply out_to_lazy; [lia|..].
    + rewrite length_drop in *. split.
      * exists (k + n)%nat, l2. cbn [fst snd]. rewrite drop_drop. split_and!; auto; try lia; try congruence.
        -- by eapply contained_trans.
        -- rewrite <- take_take_drop. eapply out_to_app; [lia|exact Ho1|]. rewrite length_take, Nat.min_l by lia. done.
      * cbn [snd]. rewrite !length_drop. lia.
  - exists 0%nat, l. cbn [fst snd]. split_and!; auto using contained_refl; try lia. rewrite take_0. apply out_to_nil.
  - cbn. lia.
Qed.

(** ** copyin and copyinstr *)

(** [bs] is what user code would read at [src]. *)
Definition reads (e : uview) (src : Z) (bs : list Z) : Prop :=
  (bs <> [] -> src + Z.of_nat (length bs) <= TRAPFRAME) /\
  forall i, (i < length bs)%nat ->
    exists fl, e (src + Z.of_nat i) = Some (fl, nth i bs 0) /\ has_flag fl PTE_U = true.

Lemma reads_nil e src : reads e src [].
Proof. split; [done|]. cbn. lia. Qed.

Lemma reads_app e src bs cs :
  reads e src bs -> reads e (src + Z.of_nat (length bs)) cs -> reads e src (bs ++ cs).
Proof.
  intros [Hb Hbs] [Hc Hcs]. split.
  - rewrite length_app. destruct cs as [|c cs]; [rewrite app_nil_r; cbn; intros; specialize (Hb ltac:(done)); lia|].
    intros _. specialize (Hc ltac:(done)). lia.
  - rewrite length_app. intros i Hi. destruct (decide (i < length bs)%nat) as [Hlt|Hge].
    + rewrite app_nth1 by done. auto.
    + rewrite app_nth2 by lia. destruct (Hcs (i - length bs)%nat ltac:(lia)) as (fl & E & ?).
      exists fl. split; [|done]. rewrite <- E. f_equal. lia.
Qed.

Lemma reads_lazy sz e e' src bs : 0 <= src -> reads e src bs -> lazy_ext sz e e' -> reads e' src bs.
Proof.
  intros Hs [Hb Hbs] Hl. split; [done|]. intros i Hi. destruct (Hbs i Hi) as (fl & E & ?).
  exists fl. split; [|done].
  assert (Hne : bs <> []) by (destruct bs; cbn in *; [lia|done]). specialize (Hb Hne).
  destruct (Hl (src + Z.of_nat i)) as [->|(E' & _)]; [lia|done|congruence].
Qed.

(** Reading part of one user page. *)
Lemma reads_page m r l va0 v src n :
  uspace TRAPFRAME m r l -> va_ok va0 -> va0 < TRAPFRAME -> xlate m r va0 = Some v ->
  has_flag v PTE_U = true -> va0 <= src -> src - va0 + Z.of_nat n <= PGSIZE ->
  forall bs, length bs = n -> (forall i, (i < n)%nat -> nth i bs 0 = m (PTE2PA v + (src - va0) + Z.of_nat i)) ->
  reads (ubyte m r) src bs.
Proof.
  intros Hu Hva Hlt Hx HU Hs Hn bs <- Hbs. destruct TRAPFRAME_ok as [Htf _].
  pose proof (page_end TRAPFRAME va0 Hva Htf Hlt). split; [intros; lia|].
  intros i Hi. exists (PTE_FLAGS v). rewrite has_U_flags. split; [|done].
  destruct (page_of (src + Z.of_nat i)) as [Hp _]; [destruct Hva; lia|].
  destruct (page_split (src + Z.of_nat i)) as [Hsp Hmod].
  assert (Heq : PGROUNDDOWN (src + Z.of_nat i) = va0).
  { destruct Hva, Hp. unfold PGSIZE in *. dlia. }
  unfold ubyte. rewrite Heq, Hx, Hbs by done. do 3 f_equal. lia.
Qed.

Lemma copyin_step_spec r srcva len got s l sz tf :
  kmem_inv s l -> proc_space (mem s) r l sz tf -> 0 <= srcva < 2 ^ 64 -> (0 < len)%nat ->
  wp (copyin_step (ProcView sz r) r (srcva, len, got)) s (fun res s' => exists l', kmem_inv s' l' /\
    proc_space (mem s') r l' sz tf /\ mheld s' = mheld s /\ contained (mem s) (mem s') r l l' /\
    lazy_ext sz (ubyte (mem s) r) (ubyte (mem s') r) /\
    ((res = inr (-1, got) /\ (srcva < TRAPFRAME -> ~ readable (ubyte (mem s') r) srcva)) \/
     exists bs next, (0 < length bs <= len)%nat /\ res = inl (next, (len - length bs)%nat, got ++ bs) /\
       ((length bs < len)%nat -> next = srcva + Z.of_nat (length bs)) /\
       reads (ubyte (mem s') r) srcva bs)).
Proof.
  intros Hs Hps Hd Hlen. unfold copyin_step.
  pose proof (PGROUNDDOWN_bounds srcva) as Hb. pose proof (PGROUNDDOWN_aligned srcva) as Hal.
  assert (Hnn : 0 <= PGROUNDDOWN srcva) by (rewrite PGROUNDDOWN_eq; unfold PGSIZE; dlia).
  set (va0 := PGROUNDDOWN srcva) in *. destruct (decide (MAXVA <= va0)) as [Hhi|Hlo].
  { apply wp_bind, (user_page_high r va0 s l sz tf); auto. rewrite Z.eqb_refl. apply wp_ret. exists l.
    split_and!; auto using contained_refl; [by apply lazy_ext_eq|]. left. split; [done|].
    destruct TRAPFRAME_ok. lia. }
  rewrite MAXVA_eq in Hlo. assert (Hva0 : va_ok va0) by (split; [lia|done]).
  apply wp_bind. eapply wp_mono; [by apply user_page_spec|].
  cbn beta. intros a s1 (l1 & Hs1 & Hps1 & Hh1 & [(-> & Hq & Hno)|(Hlt & Ha0 & (v & Hx & -> & HU) & Hsz & Hg)]).
  { rewrite Z.eqb_refl. apply wp_ret. exists l1.
    split_and!; auto; [by apply kept_contained; apply Hq|apply lazy_ext_eq; eapply quiet_view; [apply Hps|done]|].
    left. split; [done|]. intros Hlt (fl & b & Eb & HU). eapply (user_pa_unreadable (mem s1) r l1 srcva);
      [apply Hps1|lia|apply Hno; lia|exact Eb|exact HU]. }
  rewrite (proj2 (Z.eqb_neq (PTE2PA v) 0)) by done.
  apply wp_bind, wp_gets, wp_ret.
  set (n := Z.to_nat (Z.min (PGSIZE - (srcva - va0)) (Z.of_nat len))).
  assert (Hn : (0 < n <= len)%nat) by lia.
  exists l1. split_and!; auto; [by apply kept_contained; apply Hg|by eapply grow_view; eauto; apply Hps|].
  right. exists (read_bytes (mem s1) (PTE2PA v + (srcva - va0)) n), (u64 (va0 + PGSIZE)).
  rewrite read_bytes_length. split_and!; auto; try lia.
  - intros Hlt'. rewrite u64_id by (unfold PGSIZE; lia). unfold PGSIZE in *. lia.
  - eapply (reads_page _ _ l1 va0 v srcva n); auto; [apply Hps1|lia|lia|apply read_bytes_length|].
    intros i Hi. by apply read_bytes_nth.
Qed.

Lemma copyin_spec r srcva len s l sz tf :
  kmem_inv s l -> proc_space (mem s) r l sz tf -> 0 <= srcva < 2 ^ 64 ->
  wp (copyin (ProcView sz r) r srcva len) s (fun res s' => exists l', kmem_inv s' l' /\
    proc_space (mem s') r l' sz tf /\ mheld s' = mheld s /\ contained (mem s) (mem s') r l l' /\
    lazy_ext sz (ubyte (mem s) r) (ubyte (mem s') r) /\ reads (ubyte (mem s') r) srcva res.2 /\
    ((res.1 = 0 /\ length res.2 = len) \/
     (res.1 = -1 /\ (length res.2 < len)%nat /\
      (srcva + Z.of_nat (length res.2) < TRAPFRAME ->
       ~ readable (ubyte (mem s') r) (srcva + Z.of_nat (length res.2)))))).
Proof.
  intros Hs Hps Hd. unfold copyin.
  apply (wp_loop (fun x s1 => let '(va, n, got) := x in exists l1, (length got + n = len)%nat /\
      ((0 < n)%nat -> va = srcva + Z.of_nat (length got)) /\
      kmem_inv s1 l1 /\ proc_space (mem s1) r l1 sz tf /\ mheld s1 = mheld s /\
      contained (mem s) (mem s1) r l l1 /\ lazy_ext sz (ubyte (mem s) r) (ubyte (mem s1) r) /\
      reads (ubyte (mem s1) r) srcva got)
    (fun x => x.1.2)).
  - intros [[va n] got] s1 (l1 & Hn & Hva & Hs1 & Hps1 & Hh1 & Hc1 & Hl1 & Hr1).
    destruct n as [|n].
    { apply wp_ret. exists l1. cbn [fst snd]. split_and!; auto. left. split; [done|lia]. }
    rewrite (Hva ltac:(lia)). clear Hva.
    assert (Hrange : 0 <= srcva + Z.of_nat (length got) < 2 ^ 64).
    { destruct got as [|b got]; [cbn; lia|]. destruct Hr1 as [Hle _]. specialize (Hle ltac:(done)).
      change TRAPFRAME with (2 ^ 38 - 8192) in Hle. lia. }
    eapply wp_mono; [by apply (copyin_step_spec r _ (S n) got s1 l1 sz tf); [..|lia]|].
    cbn beta. intros res s2 (l2 & Hs2 & Hps2 & Hh2 & Hc2 & Hl2 & Hres).
    assert (Hr2 : reads (ubyte (mem s2) r) srcva got) by (eapply reads_lazy; eauto; lia).
    destruct Hres as [[-> Hno]|(bs & next & Hbs & -> & Hnext & Hrd)].
    + exists l2. cbn [fst snd]. split_and!; eauto using contained_trans, lazy_ext_trans; [congruence|].
      right. split_and!; auto. lia.
    + cbn [fst snd]. split; [|lia]. exists l2. rewrite length_app.
      split_and!; eauto using contained_trans, lazy_ext_trans, reads_app; try lia; congruence.
  - exists l. cbn. split_and!; auto using contained_refl, reads_nil; try lia. by apply lazy_ext_eq.
  - cbn. lia.
Qed.

Lemma scan_str_spec n : forall m p,
  let '(bs, b) := scan_str m p n in
  (length bs <= n)%nat /\
  (forall i, (i < length bs)%nat -> nth i bs 0 = m (p + Z.of_nat i)) /\
  (if b then exists str, bs = str ++ [0] /\ 0 ∉ str else length bs = n /\ 0 ∉ bs).
Proof.
  induction n as [|n IH]; intros m p; cbn [scan_str].
  { split_and!; cbn; auto; try lia. apply not_elem_of_nil. }
  destruct (m p =? 0) eqn:E; bool_simp.
  { split_and!; cbn; try lia; [|exists []; split; [done|apply not_elem_of_nil]].
    intros [|i] Hi; [|lia]. by rewrite Z.add_0_r. }
  specialize (IH m (p + 1)). destruct (scan_str m (p + 1) n) as [bs b]. destruct IH as (Hl & Hn & Hb).
  split_and!; cbn [length]; [lia|..].
  - intros [|i] Hi; cbn [nth]; [by rewrite Z.add_0_r|]. rewrite Hn by lia. f_equal. lia.
  - destruct b.
    + destruct Hb as (str & -> & Hz). exists (m p :: str). split; [done|]. by apply not_elem_of_cons.
    + destruct Hb as [-> Hz]. split; [done|]. by apply not_elem_of_cons.
Qed.

(** What [copyinstr] has read when it returns. *)
Definition str_read (e : uview) (srcva : Z) (max : nat) (res : Z * list Z) : Prop :=
  reads e srcva res.2 /\ (length res.2 <= max)%nat /\
  ((res.1 = 0 /\ exists str, res.2 = str ++ [0] /\ 0 ∉ str) \/
   (res.1 = -1 /\ (0 ∉ res.2) /\
    (length res.2 = max \/
     (srcva + Z.of_nat (length res.2) < TRAPFRAME -> ~ readable e (srcva + Z.of_nat (length res.2)))))).

Lemma copyinstr_step_spec r srcva n got s l sz tf :
  proc_space (mem s) r l sz tf -> 0 <= srcva < 2 ^ 64 -> (0 < n)%nat ->
  wp (copyinstr_step r (srcva, n, got)) s (fun res s' => s' = s /\
    ((res = inr (-1, got) /\ (srcva < TRAPFRAME -> ~ readable (ubyte (mem s) r) srcva)) \/
     (exists str, res = inr (0, got ++ str ++ [0]) /\ (0 ∉ str) /\ (S (length str) <= n)%nat /\
        reads (ubyte (mem s) r) srcva (str ++ [0])) \/
     (exists bs next, (0 < length bs <= n)%nat /\ res = inl (next, (n - length bs)%nat, got ++ bs) /\
       ((length bs < n)%nat -> next = srcva + Z.of_nat (length bs)) /\ (0 ∉ bs) /\
       reads (ubyte (mem s) r) srcva bs))).
Proof.
  intros Hps Hd Hn. unfold copyinstr_step.
  pose proof (PGROUNDDOWN_bounds srcva) as Hb. pose proof (PGROUNDDOWN_aligned srcva) as Hal.
  assert (Hnn : 0 <= PGROUNDDOWN srcva) by (rewrite PGROUNDDOWN_eq; unfold PGSIZE; dlia).
  set (va0 := PGROUNDDOWN srcva) in *. apply wp_bind, (walkaddr_spec r va0 s l); [apply Hps|].
  destruct (MAXVA <=? va0) eqn:Ehi; bool_simp.
  { rewrite Z.eqb_refl. apply wp_ret. split; [done|]. left. split; [done|]. destruct TRAPFRAME_ok. lia. }
  rewrite MAXVA_eq in Ehi. assert (Hva0 : va_ok va0) by (split; [lia|done]).
  destruct (user_pa (mem s) r va0 =? 0) eqn:E0; bool_simp.
  { apply wp_ret. split; [done|]. left. split; [done|]. intros Hlt (fl & b & Eb & HU).
    eapply (user_pa_unreadable (mem s) r l srcva); [apply Hps|lia|exact E0|exact Eb|exact HU]. }
  unfold user_pa in E0 |- *. destruct (xlate (mem s) r va0) as [v|] eqn:Hx; [|done].
  destruct (has_flag v PTE_U) eqn:HU; [|done].
  assert (Hlt : va0 < TRAPFRAME).
  { destruct (decide (va0 < TRAPFRAME)) as [?|Hge]; [done|].
    pose proof (ps_valid_user (mem s) r l sz tf va0 v Hps Hva0 Hx Hge). congruence. }
  apply wp_bind, wp_gets.
  set (k := Z.to_nat (Z.min (PGSIZE - (srcva - va0)) (Z.of_nat n))).
  pose proof (scan_str_spec k (mem s) (PTE2PA v + (srcva - va0))) as Hsc.
  destruct (scan_str _ _ k) as [bs b]. destruct Hsc as (Hl & Hnth & Hres). cbn [fst snd].
  assert (Hk : (0 < k <= n)%nat) by lia.
  assert (Hrd : reads (ubyte (mem s) r) srcva bs).
  { eapply (reads_page _ _ l va0 v srcva (length bs)); auto; [apply Hps|lia|lia]. }
  destruct b; apply wp_ret; (split; [done|]).
  - destruct Hres as (str & -> & Hz). right; left. exists str. rewrite length_app in *. cbn [length] in *. split_and!; auto. lia.
  - destruct Hres as [Hlen Hz]. right; right. exists bs, (u64 (va0 + PGSIZE)).
    rewrite Hlen in *. split_and!; auto; try lia. intros Hlt'. rewrite u64_id by (unfold PGSIZE; lia).
    unfold PGSIZE in *. lia.
Qed.

Lemma copyinstr_spec r srcva max s l sz tf :
  proc_space (mem s) r l sz tf -> 0 <= srcva < 2 ^ 64 ->
  wp (copyinstr r srcva max) s (fun res s' => s' = s /\ str_read (ubyte (mem s) r) srcva max res).
Proof.
  intros Hps Hd. unfold copyinstr.
  apply (wp_loop (fun x s1 => let '(va, n, got) := x in s1 = s /\ (length got + n = max)%nat /\
      ((0 < n)%nat -> va = srcva + Z.of_nat (length got)) /\ (0 ∉ got) /\
      reads (ubyte (mem s) r) srcva got)
    (fun x => x.1.2)).
  - intros [[va n] got] s1 (-> & Hn & Hva & Hz & Hr).
    destruct n as [|n].
    { apply wp_ret. split; [done|]. unfold str_read. cbn [fst snd]. split_and!; auto; [lia|].
      right. split_and!; auto. left. lia. }
    rewrite (Hva ltac:(lia)). clear Hva.
    assert (Hrange : 0 <= srcva + Z.of_nat (length got) < 2 ^ 64).
    { destruct got as [|b got]; [cbn; lia|]. destruct Hr as [Hle _]. specialize (Hle ltac:(done)).
      change TRAPFRAME with (2 ^ 38 - 8192) in Hle. lia. }
    eapply wp_mono; [by eapply (copyinstr_step_spec r _ (S n) got s l sz tf); [..|lia]|].
    cbn beta. intros res s2 (-> & [[-> Hno]|[(str & -> & Hs0 & Hl & Hrd)|(bs & next & Hbs & -> & Hnext & Hb0 & Hrd)]]).
    + split; [done|]. unfold str_read. cbn [fst snd]. split_and!; auto; try lia.
    + split; [done|]. unfold str_read. cbn [fst snd]. split_and!; [by apply reads_app|rewrite !length_app; cbn; lia|].
      left. split; [done|]. exists (got ++ str). rewrite app_assoc. split; [done|]. by apply not_elem_of_app.
    + cbn [fst snd]. split; [|lia]. rewrite length_app.
      split_and!; auto using reads_app; try lia. by apply not_elem_of_app.
  - cbn. split_and!; auto using reads_nil; try lia. apply not_elem_of_nil.
  - cbn. lia.
Qed.

Lemma reads_readable e src bs i : reads e src bs -> (i < length bs)%nat -> readable e (src + Z.of_nat i).
Proof. intros [_ Hr] Hi. destruct (Hr i Hi) as (fl & E & HU). by exists fl, (nth i bs 0). Qed.

Lemma reads_inj e src bs cs : reads e src bs -> reads e src cs -> length bs = length cs -> bs = cs.
Proof.
  intros [_ Hb] [_ Hc] Hl. apply (nth_ext _ _ 0 0); [done|]. intros i Hi.
  destruct (Hb i Hi) as (fl & E & _), (Hc i ltac:(lia)) as (fl' & E' & _). congruence.
Qed.

(** The result of [copyin] where [bs] can be read. *)
Lemma reads_full e src bs rc cs :
  reads e src bs -> reads e src cs ->
  (rc = 0 /\ length cs = length bs) \/
  (rc = -1 /\ (length cs < length bs)%nat /\
   (src + Z.of_nat (length cs) < TRAPFRAME -> ~ readable e (src + Z.of_nat (length cs)))) ->
  (rc, cs) = (0, bs).
Proof.
  intros Hb Hc [[-> Hlen]|(-> & Hlen & Hno)]; [f_equal; by eapply reads_inj|].
  exfalso. apply Hno; [|by apply (reads_readable _ _ bs)]. destruct Hb as [Hb _].
  assert (bs <> []) by (by destruct bs; cbn in *; [lia|]). specialize (Hb ltac:(done)). lia.
Qed.
End view.
