(* ===== verification/ProcMem.v ===== *)
(** The address-space half of proc.c: [proc_pagetable] and
    [proc_freepagetable], which build and tear down the page table of a
    process. *)

From S2P Require Import Prelude.
From S2P Require Import Memory.
From S2P Require Import Spinlock.
From S2P Require Import Riscv.
From S2P Require Import Kalloc.
From S2P Require Import PageTable.
From S2P Require Import AddrSpace.
From S2P Require Import Uvm.
From S2P Require Import UserMem.
From S2P Require Import UserCopy.

Section procmem.
Context `{LinkerSyms}.

Definition proc_pagetable (trapframe : Z) : M machine Z :=
  pagetable <- uvmcreate ;;
  if pagetable =? 0 then ret 0
  else
    rc <- mappages pagetable TRAMPOLINE PGSIZE sym_trampoline (Z.lor PTE_R PTE_X) ;;
    if rc <? 0 then uvmfree pagetable 0 >>> ret 0
    else
      rc <- mappages pagetable TRAPFRAME PGSIZE trapframe (Z.lor PTE_R PTE_W) ;;
      if rc <? 0 then
        uvmunmap pagetable TRAMPOLINE 1 false >>> uvmfree pagetable 0 >>> ret 0
      else ret pagetable.

Definition proc_freepagetable (pagetable sz : Z) : M machine unit :=
  uvmunmap pagetable TRAMPOLINE 1 false >>>
  uvmunmap pagetable TRAPFRAME 1 false >>>
  uvmfree pagetable sz.

(** ** An empty table *)

Lemma zero_table m r i :
  (forall x, r <= x < r + PGSIZE -> m x = 0) -> 0 <= i < 512 -> pte_at m r i = 0.
Proof. intros Hz Hi. apply ld_zero. intros x Hx. apply Hz. unfold PGSIZE. lia. Qed.

Lemma zero_page_at m r i π :
  (forall x, r <= x < r + PGSIZE -> m x = 0) -> 0 <= i < 512 -> page_at m r (i :: π) = None.
Proof. intros Hz Hi. cbn. by rewrite zero_table. Qed.

Lemma zero_xlate m r va : (forall x, r <= x < r + PGSIZE -> m x = 0) -> xlate m r va = None.
Proof.
  intros Hz. unfold xlate, pte_slot. rewrite zero_page_at; [done|done|]. apply PX_range. lia.
Qed.

Lemma zero_tree m r l :
  (forall x, r <= x < r + PGSIZE -> m x = 0) -> is_valid_pa r = true -> r ∉ l -> ptree 2 m r l.
Proof.
  intros Hz Hv Hl.
  assert (Hp : forall π q, path_ok 2 π -> page_at m r π = Some q -> π = [] /\ q = r).
  { intros [|i π] q Hπ E; [by injection E|]. apply path_ok_cons in Hπ as [Hi _].
    by rewrite zero_page_at in E. }
  split.
  - intros π1 π2 p H1 H2 E1 E2. destruct (Hp π1 p H1 E1), (Hp π2 p H2 E2). congruence.
  - intros π p H1 E1. by destruct (Hp π p H1 E1) as [_ ->].
  - intros σ i p H1 E1 HV. destruct (path_ok_init _ _ _ H1) as [Hσ Hi].
    destruct (Hp σ p Hσ E1) as [_ ->]. by rewrite zero_table in HV.
Qed.

(** Nothing mapped below [top]. *)
Lemma uspace_empty top m r l :
  ptree 2 m r l -> (forall va, va_ok va -> va < top -> xlate m r va = None) -> uspace top m r l.
Proof.
  intros Ht Hx. split; [done|..].
  - intros va p Hva Hlt E. unfold upage in E. by rewrite Hx in E.
  - intros va1 va2 p H1 H2 Hl1 Hl2 E. unfold upage in E. by rewrite Hx in E.
Qed.

Lemma uvmcreate_spec s l (Q : Z -> machine -> Prop) :
  kmem_inv s l -> (l = [] -> Q 0 s) ->
  (forall r l' s', l = r :: l' -> r <> 0 -> kmem_inv s' l' -> ptree 2 (mem s') r l' ->
     (forall va, xlate (mem s') r va = None) ->
     (forall π q, path_ok 2 π -> page_at (mem s') r π = Some q -> q = r) ->
     mem_frame r (mem s) (mem s') -> mheld s' = mheld s -> is_valid_pa r = true -> Q r s') ->
  wp uvmcreate s Q.
Proof.
  intros Hs Hnil HQ. unfold uvmcreate. apply wp_bind, (kalloc_spec s l); auto.
  intros r l' s1 -> H0 Hv Hl Hs1 Hf Hh _. rewrite (proj2 (Z.eqb_neq r 0)) by done.
  apply wp_bind. unfold mset. apply wp_modify, wp_ret.
  assert (Hz : forall x, r <= x < r + PGSIZE -> memset (mem s1) r 0 PGSIZE x = 0).
  { intros x Hx. by apply memset_in. }
  apply (HQ r l'); cbn [mem set_mem mheld]; auto.
  - eapply (kmem_inv_write s1 l' r); eauto.
    + intros x Hx. by apply memset_out.
    + apply memset_bytes_ok. by apply km_bytes in Hs1.
  - by apply zero_tree.
  - intros va. by apply zero_xlate.
  - intros [|i π] q Hπ E; [by injection E|]. apply path_ok_cons in Hπ as [Hi _].
    by rewrite zero_page_at in E.
  - intros x Hx. rewrite memset_out by done. by apply Hf.
Qed.

(** ** Unmapping without freeing *)

(** A change of [r]'s table that keeps its pages and the free list. *)
Record entry_gone (s s' : machine) (r : Z) (l : list Z) (va : Z) : Prop := {
  eg_inv : kmem_inv s' l;
  eg_held : mheld s' = mheld s;
  eg_post : tbl_post (mem s) (mem s') r l l;
  eg_map : unmapped (mem s) (mem s') r va (va + PGSIZE);
  eg_page π : path_ok 2 π -> page_at (mem s') r π = page_at (mem s) r π
}.

Lemma unmap_step_nofree r va s l :
  kmem_inv s l -> ptree 2 (mem s) r l -> va_ok va -> va < MAXVA ->
  wp (uvmunmap_step r va false) s (fun _ s' => entry_gone s s' r l va).
Proof.
  intros Hs Ht Hva Hlt. unfold uvmunmap_step.
  assert (Hskip : xlate (mem s) r va = None -> entry_gone s s r l va).
  { intros Hx. split; auto using tbl_post_refl. intros va' Hva'. cases.
    by rewrite (page_only va va') by done. }
  apply (wp_lookup r va s l); auto; [by intros; apply wp_ret; auto..|].
  intros a v Hslot Hx _ _. apply wp_bind, wp_ret. unfold store64. apply wp_modify.
  split; cbn [mem set_mem mheld]; auto.
  - by eapply leaf_store_inv.
  - by eapply leaf_store_post.
  - intros va' Hva'. destruct (decide (va' = va)) as [->|Hne].
    + rewrite (leaf_store_same _ _ l va a 0) by done. unfold PGSIZE. cases.
    + rewrite (leaf_store_other _ _ l va a 0) by done. cases. by destruct Hne; apply page_only.
  - intros π Hπ. by apply (leaf_store_page _ _ l va a 0).
Qed.

Lemma unmap_nofree r va s l :
  kmem_inv s l -> ptree 2 (mem s) r l -> va_ok va -> va < MAXVA ->
  wp (uvmunmap r va 1 false) s (fun _ s' => entry_gone s s' r l va).
Proof.
  intros Hs Ht Hva Hlt. unfold uvmunmap. pose proof Hva as [Hb Hal]. rewrite Hal. cbn [Z.eqb negb].
  rewrite MAXVA_eq in *. change (1 * PGSIZE) with PGSIZE. rewrite u64_id by (unfold PGSIZE; lia).
  apply (wp_loop (fun a s' => (a = va /\ s' = s) \/ (a = va + PGSIZE /\ entry_gone s s' r l va))
                 (fun a => if a =? va then 1%nat else 0%nat)).
  - intros a s' [[-> ->]|[-> Hg]].
    + rewrite (proj2 (Z.ltb_lt va _)) by (unfold PGSIZE; lia). apply wp_bind.
      eapply wp_mono; [by apply (unmap_step_nofree r va s l)|].
      cbn beta. intros _ s1 Hg. apply wp_ret. rewrite u64_id by (unfold PGSIZE; lia). split; [by right|].
      rewrite Z.eqb_refl, (proj2 (Z.eqb_neq (va + PGSIZE) va)) by (unfold PGSIZE; lia). lia.
    + rewrite Z.ltb_irrefl. by apply wp_ret.
  - by left.
  - case_if; lia.
Qed.

(** ** proc_pagetable *)

(** No mapping but at [vas]. *)
Definition only_at (m : memory) (r : Z) (vas : list Z) : Prop :=
  forall va, va_ok va -> va ∉ vas -> xlate m r va = None.

(** Giving up a table whose mappings have been removed. *)
Lemma uvmfree_empty r s l :
  kmem_inv s l -> ptree 2 (mem s) r l -> only_at (mem s) r [] ->
  wp (uvmfree r 0) s (fun _ s' => exists l', kmem_inv s' l' /\ mheld s' = mheld s /\
    (forall q, q ∈ l' <-> q ∈ l \/ in_tree 2 (mem s) r q) /\ others_kept (mem s) (mem s') l').
Proof.
  intros Hs Ht Hx. assert (Hx' : forall va, va_ok va -> xlate (mem s) r va = None).
  { intros va Hva. apply Hx; [done|apply not_elem_of_nil]. }
  eapply wp_mono; [apply (uvmfree_spec TRAPFRAME r 0 s l); auto|].
  - apply uspace_empty; auto.
  - by vm_compute.
  - by vm_compute.
  - by vm_compute.
  - intros va Hva Hn. by rewrite Hx' in Hn.
  - cbn beta. intros _ s' (l' & ? & ? & Hf & ?). exists l'. split_and!; auto. intros q. rewrite Hf.
    unfold owned, in_tree. split; [|tauto]. intros [?|[?|(va & Hva & _ & E)]]; auto.
    unfold upage in E. by rewrite Hx' in E.
Qed.

(** The table pages account for what left the free list. *)
Definition table_from (m' : memory) (r : Z) (l l' : list Z) : Prop :=
  forall q, q ∈ l <-> q ∈ l' \/ in_tree 2 m' r q.

Lemma table_from_post m m' r l0 l l' :
  table_from m r l0 l -> tbl_post m m' r l l' -> table_from m' r l0 l'.
Proof.
  intros Hf Hp q. rewrite (Hf q). unfold in_tree. split.
  - intros [Hq|(π & Hπ & E)]; [by apply (tb_kept _ _ _ _ _ Hp)|].
    right. exists π. split; [done|]. by apply (tb_page _ _ _ _ _ Hp).
  - intros [Hq|(π & Hπ & E)].
    + left. destruct (tb_used _ _ _ _ _ Hp) as [u ->]. apply elem_of_app. by right.
    + destruct (tb_new _ _ _ _ _ Hp π q Hπ E); eauto.
Qed.

(** Pages outside the original free list are untouched. *)
Definition outside_kept (m m' : memory) (l : list Z) : Prop :=
  forall q, is_valid_pa q = true -> q ∉ l -> agree q PGSIZE m m'.

(** Building the table of a process, step by step: the state [s'] reached
    from [s] when the table of [r] maps [vas]. *)
Record building (s : machine) (l : list Z) (r : Z) (vas : list Z) (s' : machine) (l' : list Z) : Prop := {
  bd_inv : kmem_inv s' l';
  bd_held : mheld s' = mheld s;
  bd_tree : ptree 2 (mem s') r l';
  bd_map : only_at (mem s') r vas;
  bd_from : table_from (mem s') r l l';
  bd_kept : outside_kept (mem s) (mem s') l
}.

Lemma building_map r va pa perm s l vas s1 l1 :
  building s l r vas s1 l1 -> va_ok va -> va < MAXVA -> va ∉ vas ->
  0 <= pa -> pa + PGSIZE <= 2 ^ 56 -> 0 <= perm < 1024 ->
  wp (mappages r va PGSIZE pa perm) s1 (fun rc s2 => exists l2,
    (rc = 0 /\ building s l r (va :: vas) s2 l2 /\ xlate (mem s2) r va = Some (mk_pte pa perm) /\
     (forall va', va_ok va' -> va' <> va -> xlate (mem s2) r va' = xlate (mem s1) r va') /\ (length l2 <= length l1 <= length l2 + 2)%nat) \/
    (rc = -1 /\ building s l r vas s2 l2 /\ (length l1 <= 2)%nat)).
Proof.
  intros [Hi Hh Ht Hm Hf Hk] Hva Hlt Hnew Hpa Hpa2 Hperm.
  assert (Hend : va + PGSIZE <= MAXVA) by (destruct Hva; rewrite MAXVA_eq in *; unfold PGSIZE in *; dlia).
  eapply wp_mono; [apply wp_and; [apply (mappages_spec r va PGSIZE pa perm s1 l1); auto; try done|apply (mappages_uses r va pa perm s1 l1); auto]|].
  { intros va' Hva' Hr. rewrite (page_only va va') by done. auto. }
  { unfold PGSIZE in *. lia. }
  cbn beta. intros rc s2 [(l2 & Hs2 & Hp2 & Hh2 & dn & Hm2 & Hdn & Hrc) (l2' & Hs2' & Hlen & Hnil)]. exists l2.
  rewrite (kmem_unique _ _ _ Hs2' Hs2) in Hlen, Hnil. clear l2' Hs2'.
  assert (Hk2 : outside_kept (mem s) (mem s2) l).
  { intros q Hv Hq x Hx. rewrite (tb_out _ _ _ _ _ Hp2 q), (Hk q); auto.
    - by apply is_valid_pa_spec in Hv as [? _].
    - intros Hq1. apply Hq, Hf. by left.
    - intros π Hπ E. apply Hq, Hf. right. by exists π. }
  destruct Hrc as [[-> ->]|(-> & -> & Hr)]; [left|right].
  - apply (mapped_to_page _ _ _ _ _ _ Hva) in Hm2. split; [done|]. split; [|split; [|split; [|done]]].
    + split; auto; [congruence|by apply (tb_tree _ _ _ _ _ Hp2)| |by eapply table_from_post].
      intros va' Hva' Hn. apply not_elem_of_cons in Hn as [Hn1 Hn2]. rewrite Hm2 by done.
      rewrite (proj2 (Z.eqb_neq va' va)) by done. auto.
    + rewrite Hm2 by done. by rewrite Z.eqb_refl.
    + intros va' Hva' Hn. rewrite Hm2 by done. by rewrite (proj2 (Z.eqb_neq va' va)).
  - split; [done|]. split; [|specialize (Hnil ltac:(done)); subst; cbn in *; lia].
    split; auto; [congruence|by apply (tb_tree _ _ _ _ _ Hp2)| |by eapply table_from_post].
    intros va' Hva' Hn. rewrite Hm2 by done. replace dn with 0 by (unfold PGSIZE in *; dlia). cases; auto.
Qed.

Lemma building_free r s l s1 l1 :
  building s l r [] s1 l1 ->
  wp (uvmfree r 0 >>> ret 0) s1 (fun rc s' => rc = 0 /\ exists l', kmem_inv s' l' /\ mheld s' = mheld s /\
    (forall q, q ∈ l' <-> q ∈ l) /\ outside_kept (mem s) (mem s') l).
Proof.
  intros [Hi Hh Ht Hm Hf Hk]. apply wp_bind. eapply wp_mono; [by apply (uvmfree_empty r s1 l1)|].
  cbn beta. intros _ s' (l' & Hs' & Hh' & Hf' & Hk'). apply wp_ret. split; [done|]. exists l'.
  assert (Heq : forall q, q ∈ l' <-> q ∈ l) by (intros q; by rewrite (Hf' q), (Hf q)).
  split_and!; auto; [congruence|]. intros q Hv Hq x Hx.
  rewrite (Hk' q), (Hk q); auto. by rewrite Heq.
Qed.

Lemma building_start r s l s1 l1 :
  l = r :: l1 -> kmem_inv s1 l1 -> ptree 2 (mem s1) r l1 -> (forall va, xlate (mem s1) r va = None) ->
  (forall π q, path_ok 2 π -> page_at (mem s1) r π = Some q -> q = r) ->
  mem_frame r (mem s) (mem s1) -> mheld s1 = mheld s -> is_valid_pa r = true ->
  building s l r [] s1 l1.
Proof.
  intros -> Hi Ht Hx Hp Hf Hh Hv. split; auto.
  - intros va _ _. apply Hx.
  - intros q. rewrite elem_of_cons. unfold in_tree. split.
    + intros [->|?]; [right|by left]. exists []. split; [apply path_ok_nil|done].
    + intros [?|(π & Hπ & E)]; [by right|left]. by eapply Hp.
  - intros q Hq Hl. apply not_elem_of_cons in Hl as [Hl _].
    apply (frame_agree r); auto; by apply (is_valid_pa_spec).
Qed.

Lemma building_unmap r va s l s1 l1 :
  building s l r [va] s1 l1 -> va_ok va -> va < MAXVA ->
  wp (uvmunmap r va 1 false) s1 (fun _ s2 => building s l r [] s2 l1).
Proof.
  intros [Hi Hh Ht Hm Hf Hk] Hva Hlt. eapply wp_mono; [by apply (unmap_nofree r va s1 l1)|].
  cbn beta. intros _ s2 [Hi2 Hh2 Hp2 Hu2 Hpg2]. split; auto.
  - congruence.
  - by apply (tb_tree _ _ _ _ _ Hp2).
  - intros va' Hva' _. rewrite Hu2 by done. case_if; [done|..]; apply Hm; auto.
    all: apply not_elem_of_cons; split; [|apply not_elem_of_nil]; unfold PGSIZE in *; lia.
  - by eapply table_from_post.
  - intros q Hv Hq x Hx. rewrite (tb_out _ _ _ _ _ Hp2 q), (Hk q); auto.
    + by apply is_valid_pa_spec in Hv as [? _].
    + intros Hq1. apply Hq, Hf. by left.
    + intros π Hπ E. apply Hq, Hf. right. by exists π.
Qed.

Lemma trampoline_pa : 0 <= sym_trampoline /\ sym_trampoline + PGSIZE <= 2 ^ 56.
Proof.
  destruct sym_trampoline_range, sym_end_range. unfold PHYSTOP, KERNBASE, PGSIZE in *. lia.
Qed.

Lemma building_space r s l s' l' tf :
  building s l r [TRAPFRAME; TRAMPOLINE] s' l' -> is_valid_pa tf = true -> tf ∉ l ->
  xlate (mem s') r TRAPFRAME = Some (mk_pte tf (Z.lor PTE_R PTE_W)) ->
  xlate (mem s') r TRAMPOLINE = Some (mk_pte sym_trampoline (Z.lor PTE_R PTE_X)) ->
  proc_space (mem s') r l' 0 tf.
Proof.
  intros [Hi Hh Ht Hm Hf Hk] Htf Hl Hx1 Hx2. destruct TRAMPOLINE_ok as [_ ?].
  assert (Hn : forall va, va_ok va -> va < TRAPFRAME -> xlate (mem s') r va = None).
  { intros va Hva Hlt. apply Hm; [done|]. rewrite !not_elem_of_cons.
    split_and!; [lia..|apply not_elem_of_nil]. }
  split; auto.
  - by apply uspace_empty.
  - by vm_compute.
  - intros va Hva _ H1 H2. apply Hm; [done|]. rewrite !not_elem_of_cons.
    split_and!; [done..|apply not_elem_of_nil].
  - split; auto.
    + intros Hq. apply Hl, Hf. by left.
    + intros π Hπ E. apply Hl, Hf. right. by exists π.
    + intros va Hva Hlt E. unfold upage in E. by rewrite Hn in E.
Qed.

(** A table for the trapframe page [tf], or 0 and nothing lost. *)
Lemma proc_pagetable_spec tf s l :
  kmem_inv s l -> is_valid_pa tf = true -> tf ∉ l ->
  wp (proc_pagetable tf) s (fun r s' => exists l', kmem_inv s' l' /\ mheld s' = mheld s /\
    outside_kept (mem s) (mem s') l /\
    ((r = 0 /\ (length l <= 5)%nat /\ forall q, q ∈ l' <-> q ∈ l) \/
     (r <> 0 /\ (length l' < length l <= length l' + 5)%nat /\ proc_space (mem s') r l' 0 tf /\ table_from (mem s') r l l' /\
      forall va, va_ok va -> va < TRAPFRAME -> xlate (mem s') r va = None))).
Proof.
  intros Hs Htf Hl. unfold proc_pagetable. apply wp_bind, (uvmcreate_spec s l); auto.
  { intros ->. cbn [Z.eqb]. apply wp_ret. exists []. split_and!; [done..|by intros|left; split_and!; [done|cbn; lia|done]]. }
  intros r l1 s1 -> H0 Hs1 Ht1 Hx1 Hp1 Hf1 Hh1 Hv1. rewrite (proj2 (Z.eqb_neq r 0)) by done.
  pose proof (building_start r s _ s1 l1 eq_refl Hs1 Ht1 Hx1 Hp1 Hf1 Hh1 Hv1) as Hb1.
  destruct TRAPFRAME_ok as [Htfo Htfm], TRAMPOLINE_ok as [Htro Htrm], trampoline_pa as [Htr1 Htr2].
  pose proof (is_valid_pa_pos tf Htf) as Htfp. pose proof Htf as [Htfa _]%is_valid_pa_spec.
  apply wp_bind. eapply wp_mono; [apply (building_map r TRAMPOLINE sym_trampoline _ s (r :: l1) [] s1 l1); auto; try lia|].
  { apply not_elem_of_nil. } { by vm_compute. }
  cbn beta. intros rc s2 (l2 & [(-> & Hb2 & Hx2 & Ho2 & Hn2)|(-> & Hb2 & Hn2)]); cbn [Z.ltb Z.compare].
  2: { eapply wp_mono; [by eapply (building_free r)|].
       cbn beta. intros rc s3 (-> & l3 & ? & ? & ? & ?). exists l3. split_and!; auto. left. split_and!; [done|cbn; lia|done]. }
  apply wp_bind. eapply wp_mono; [apply (building_map r TRAPFRAME tf _ s (r :: l1) [TRAMPOLINE] s2 l2); auto|].
  { apply not_elem_of_cons. split; [lia|apply not_elem_of_nil]. } { lia. }
  { unfold PGSIZE in *. dlia. } { by vm_compute. }
  cbn beta. intros rc s3 (l3 & [(-> & Hb3 & Hx3 & Ho3 & Hn3)|(-> & Hb3 & Hn3)]); cbn [Z.ltb Z.compare].
  2: { apply wp_bind. eapply wp_mono; [by apply (building_unmap r TRAMPOLINE s (r :: l1) s3 l3); [..|lia]|].
       cbn beta. intros _ s4 Hb4. eapply wp_mono; [by eapply (building_free r)|].
       cbn beta. intros rc s5 (-> & l5 & ? & ? & ? & ?). exists l5. split_and!; auto. left. split_and!; [done|cbn; lia|done]. }
  apply wp_ret. destruct Hb3 as [Hs3 Hh3 Ht3 Hm3 Hf3 Hk3].
  exists l3. split_and!; auto. right. split_and!; auto; [cbn; lia|cbn; lia|..].
  - apply (building_space r s (r :: l1) s3 l3 tf); auto; [by split|]. rewrite Ho3 by (done || lia). done.
  - intros va Hva Hlt. apply Hm3; [done|]. rewrite !not_elem_of_cons. split_and!; [lia..|apply not_elem_of_nil].
Qed.

(** ** proc_freepagetable *)

(** Removing the two top entries leaves the user part alone. *)
Lemma entry_gone_user s s' r l va :
  uspace TRAPFRAME (mem s) r l -> entry_gone s s' r l va -> TRAPFRAME <= va ->
  uspace TRAPFRAME (mem s') r l /\
  (forall q, owned TRAPFRAME (mem s') r l q <-> owned TRAPFRAME (mem s) r l q) /\
  (forall q, is_valid_pa q = true -> ~ owned TRAPFRAME (mem s) r l q -> agree q PGSIZE (mem s) (mem s')).
Proof.
  intros Hu [Hi Hh Hp Hm Hpg] Hge.
  assert (Hx : forall va', va_ok va' -> va' < TRAPFRAME -> upage (mem s') r va' = upage (mem s) r va').
  { intros va' Hva' Hlt. rewrite (unmapped_upage _ _ _ _ _ _ Hm) by done. cases. }
  split_and!.
  - split; [by apply (tb_tree _ _ _ _ _ Hp)|..].
    + intros va' p Hva' Hlt. rewrite Hx by done. intros E.
      destruct (us_leaf _ _ _ _ Hu va' p) as (? & ? & Ho); auto. split_and!; auto.
      intros π Hπ. rewrite Hpg by done. auto.
    + intros va1 va2 p H1 H2 Hl1 Hl2. rewrite !Hx by done. by apply (us_inj _ _ _ _ Hu).
  - intros q. unfold owned. f_equiv. f_equiv.
    + f_equiv. intros π. split; intros [Hπ E]; (split; [done|]); [rewrite <- Hpg|rewrite Hpg]; done.
    + split; intros (va' & Hva' & Hlt & E); exists va'; (split_and!; [done..|]);
        [rewrite <- Hx|rewrite Hx]; done.
  - intros q Hv Hn. apply (tb_out _ _ _ _ _ Hp q).
    + by apply is_valid_pa_spec in Hv as [? _].
    + intros ?. apply Hn. by left.
    + intros π Hπ E. apply Hn. right; left. eauto.
Qed.

(** [proc_freepagetable] returns every page of the process but the trapframe
    to the free list. *)
Lemma proc_freepagetable_spec r sz s l :
  kmem_inv s l -> uspace TRAPFRAME (mem s) r l -> 0 <= sz <= TRAPFRAME ->
  (forall va, va_ok va -> sz <= va -> va <> TRAPFRAME -> va <> TRAMPOLINE -> xlate (mem s) r va = None) ->
  wp (proc_freepagetable r sz) s (fun _ s' => exists l', kmem_inv s' l' /\ mheld s' = mheld s /\
    (forall q, q ∈ l' <-> owned TRAPFRAME (mem s) r l q) /\ others_kept (mem s) (mem s') l').
Proof.
  intros Hs Hu [Hsz1 Hsz2] Hab. unfold proc_freepagetable.
  destruct TRAPFRAME_ok as [Htfo Htfm], TRAMPOLINE_ok as [Htro Htrm].
  apply wp_bind. eapply wp_mono; [apply (unmap_nofree r TRAMPOLINE s l); auto; apply Hu || lia|].
  cbn beta. intros _ s1 Hg1. destruct (entry_gone_user s s1 r l TRAMPOLINE Hu Hg1) as (Hu1 & Ho1 & Hk1); [lia|].
  apply wp_bind. eapply wp_mono; [apply (unmap_nofree r TRAPFRAME s1 l); auto; [apply Hg1|apply Hu1]|].
  cbn beta. intros _ s2 Hg2. destruct (entry_gone_user s1 s2 r l TRAPFRAME Hu1 Hg2) as (Hu2 & Ho2 & Hk2); [lia|].
  eapply wp_mono; [apply (uvmfree_spec TRAPFRAME r sz s2 l); auto; try lia; [apply Hg2|..]|].
  - pose proof (PGROUNDUP_props sz ltac:(lia)) as (Hup & Hb & _).
    destruct Hup, Htfo. unfold PGSIZE in *. dlia.
  - intros va Hva Hne. destruct (decide (va < sz)) as [?|Hge]; [done|]. exfalso. apply Hne.
    rewrite (eg_map _ _ _ _ _ Hg2) by done. case_if; [done|..]; rewrite (eg_map _ _ _ _ _ Hg1) by done.
    all: case_if; [done|..]; apply Hab; auto; unfold PGSIZE in *; try lia.
  - cbn beta. intros _ s3 (l3 & Hs3 & Hh3 & Hf3 & Hk3). exists l3. split_and!; auto.
    + rewrite Hh3, (eg_held _ _ _ _ _ Hg2). apply Hg1.
    + intros q. by rewrite Hf3, Ho2, Ho1.
    + intros q Hv Hq x Hx. assert (Hno : ~ owned TRAPFRAME (mem s) r l q) by (rewrite <- Ho1, <- Ho2, <- Hf3; done).
      rewrite (Hk3 q), (Hk2 q), (Hk1 q); auto. by rewrite Ho1.
Qed.
End procmem.
