(* ===== verification/Proc.v ===== *)
(** The process table: proc.h and proc.c.

    [kernel F] is the kernel state: RAM and locks ([machine]), the process
    table, and the state [F] of the file layer, of which proc.c uses only the
    operations in class [FileLayer].  [swtch], the context switch, is a
    parameter: code between two switches is a function of the state, and what
    other processes do meanwhile is an arbitrary [swtch] that satisfies
    [switch_ok] (file ProcInv). *)

From S2P Require Import Prelude.
From S2P Require Import Memory.
From S2P Require Import Spinlock.
From S2P Require Import Riscv.
From S2P Require Import Kalloc.
From S2P Require Import PageTable.
From S2P Require Import UserMem.
From S2P Require Import ProcMem.

(** ** Data *)

Inductive procstate := UNUSED | USED | SLEEPING | RUNNABLE | RUNNING | ZOMBIE.

#[export] Instance procstate_eq_dec : EqDecision procstate.
Proof. solve_decision. Defined.

(** The values of the C enum. *)
Definition procstate_num (st : procstate) : Z :=
  match st with
  | UNUSED => 0 | USED => 1 | SLEEPING => 2 | RUNNABLE => 3 | RUNNING => 4 | ZOMBIE => 5
  end.

(** Sleep channels: the addresses the kernel sleeps on. *)
Inductive channel :=
| NoChan | ProcChan (i : nat) | TicksChan | PipeReadChan (pi : Z) | PipeWriteChan (pi : Z)
| LogChan | SleepLockChan (id : Z) | ConsChan | TxChan | DiskChan (id : Z).

#[export] Instance channel_eq_dec : EqDecision channel.
Proof. solve_decision. Defined.

(** [struct context]: [ra], [sp] and the callee-saved registers. *)
Record context := Context_ { c_ra : Z; c_sp : Z; c_s : list Z }.

(** [struct proc]; pointers to processes are indices into the table, and the
    lock of entry [i] is [ProcLock i]. *)
Record proc := Proc {
  p_state : procstate;
  p_chan : channel;
  p_killed : Z;
  p_xstate : Z;
  p_pid : Z;
  p_pending_sig : Z;
  p_sig_handler : Z;
  p_parent : option nat;
  p_kstack : Z;
  p_sz : Z;
  p_pagetable : Z;
  p_trapframe : Z;
  p_context : context;
  p_ofile : list Z;
  p_cwd : Z;
  p_name : list Z
}.

Definition set_state (x : procstate) (p : proc) : proc :=
  Proc x (p_chan p) (p_killed p) (p_xstate p) (p_pid p) (p_pending_sig p) (p_sig_handler p)
    (p_parent p) (p_kstack p) (p_sz p) (p_pagetable p) (p_trapframe p) (p_context p) (p_ofile p)
    (p_cwd p) (p_name p).
Definition set_chan (x : channel) (p : proc) : proc :=
  Proc (p_state p) x (p_killed p) (p_xstate p) (p_pid p) (p_pending_sig p) (p_sig_handler p)
    (p_parent p) (p_kstack p) (p_sz p) (p_pagetable p) (p_trapframe p) (p_context p) (p_ofile p)
    (p_cwd p) (p_name p).
Definition set_killed (x : Z) (p : proc) : proc :=
  Proc (p_state p) (p_chan p) x (p_xstate p) (p_pid p) (p_pending_sig p) (p_sig_handler p)
    (p_parent p) (p_kstack p) (p_sz p) (p_pagetable p) (p_trapframe p) (p_context p) (p_ofile p)
    (p_cwd p) (p_name p).
Definition set_xstate (x : Z) (p : proc) : proc :=
  Proc (p_state p) (p_chan p) (p_killed p) x (p_pid p) (p_pending_sig p) (p_sig_handler p)
    (p_parent p) (p_kstack p) (p_sz p) (p_pagetable p) (p_trapframe p) (p_context p) (p_ofile p)
    (p_cwd p) (p_name p).
Definition set_pid (x : Z) (p : proc) : proc :=
  Proc (p_state p) (p_chan p) (p_killed p) (p_xstate p) x (p_pending_sig p) (p_sig_handler p)
    (p_parent p) (p_kstack p) (p_sz p) (p_pagetable p) (p_trapframe p) (p_context p) (p_ofile p)
    (p_cwd p) (p_name p).
Definition set_pending_sig (x : Z) (p : proc) : proc :=
  Proc (p_state p) (p_chan p) (p_killed p) (p_xstate p) (p_pid p) x (p_sig_handler p)
    (p_parent p) (p_kstack p) (p_sz p) (p_pagetable p) (p_trapframe p) (p_context p) (p_ofile p)
    (p_cwd p) (p_name p).
Definition set_parent (x : option nat) (p : proc) : proc :=
  Proc (p_state p) (p_chan p) (p_killed p) (p_xstate p) (p_pid p) (p_pending_sig p) (p_sig_handler p)
    x (p_kstack p) (p_sz p) (p_pagetable p) (p_trapframe p) (p_context p) (p_ofile p)
    (p_cwd p) (p_name p).
Definition set_kstack (x : Z) (p : proc) : proc :=
  Proc (p_state p) (p_chan p) (p_killed p) (p_xstate p) (p_pid p) (p_pending_sig p) (p_sig_handler p)
    (p_parent p) x (p_sz p) (p_pagetable p) (p_trapframe p) (p_context p) (p_ofile p)
    (p_cwd p) (p_name p).
Definition set_sz (x : Z) (p : proc) : proc :=
  Proc (p_state p) (p_chan p) (p_killed p) (p_xstate p) (p_pid p) (p_pending_sig p) (p_sig_handler p)
    (p_parent p) (p_kstack p) x (p_pagetable p) (p_trapframe p) (p_context p) (p_ofile p)
    (p_cwd p) (p_name p).
Definition set_pagetable (x : Z) (p : proc) : proc :=
  Proc (p_state p) (p_chan p) (p_killed p) (p_xstate p) (p_pid p) (p_pending_sig p) (p_sig_handler p)
    (p_parent p) (p_kstack p) (p_sz p) x (p_trapframe p) (p_context p) (p_ofile p)
    (p_cwd p) (p_name p).
Definition set_trapframe (x : Z) (p : proc) : proc :=
  Proc (p_state p) (p_chan p) (p_killed p) (p_xstate p) (p_pid p) (p_pending_sig p) (p_sig_handler p)
    (p_parent p) (p_kstack p) (p_sz p) (p_pagetable p) x (p_context p) (p_ofile p)
    (p_cwd p) (p_name p).
Definition set_context (x : context) (p : proc) : proc :=
  Proc (p_state p) (p_chan p) (p_killed p) (p_xstate p) (p_pid p) (p_pending_sig p) (p_sig_handler p)
    (p_parent p) (p_kstack p) (p_sz p) (p_pagetable p) (p_trapframe p) x (p_ofile p)
    (p_cwd p) (p_name p).
Definition set_ofile (x : list Z) (p : proc) : proc :=
  Proc (p_state p) (p_chan p) (p_killed p) (p_xstate p) (p_pid p) (p_pending_sig p) (p_sig_handler p)
    (p_parent p) (p_kstack p) (p_sz p) (p_pagetable p) (p_trapframe p) (p_context p) x
    (p_cwd p) (p_name p).
Definition set_cwd (x : Z) (p : proc) : proc :=
  Proc (p_state p) (p_chan p) (p_killed p) (p_xstate p) (p_pid p) (p_pending_sig p) (p_sig_handler p)
    (p_parent p) (p_kstack p) (p_sz p) (p_pagetable p) (p_trapframe p) (p_context p) (p_ofile p)
    x (p_name p).
Definition set_name (x : list Z) (p : proc) : proc :=
  Proc (p_state p) (p_chan p) (p_killed p) (p_xstate p) (p_pid p) (p_pending_sig p) (p_sig_handler p)
    (p_parent p) (p_kstack p) (p_sz p) (p_pagetable p) (p_trapframe p) (p_context p) (p_ofile p)
    (p_cwd p) x.

(** [safestrcpy] on two [char] arrays of the kernel's own data, the buffers
    being lists: up to [n - 1] bytes and a NUL; what follows stays. *)
Fixpoint str_copy (dst src : list Z) (n : nat) : list Z :=
  match n, dst with
  | O, _ => dst
  | _, [] => []
  | S O, _ :: dst' => 0 :: dst'
  | S n', _ :: dst' =>
      match src with
      | [] => 0 :: dst'
      | c :: src' => if c =? 0 then 0 :: dst' else c :: str_copy dst' src' n'
      end
  end.

(** Offsets into [struct trapframe]. *)
Definition TF_SIZE : Z := 288.
Definition TF_epc : Z := 24.
Definition TF_sp : Z := 48.
Definition TF_a0 : Z := 112.
Definition TF_a7 : Z := 168.

(** ** The kernel state *)

Record kernel (F : Type) := Kernel {
  k_m : machine;
  k_procs : list proc;
  k_nextpid : Z;
  k_initproc : option nat;
  k_cur : option nat;
  k_ticks : Z;
  k_files : F
}.
Arguments Kernel {_} _ _ _ _ _ _ _.
Arguments k_m {_} _.
Arguments k_procs {_} _.
Arguments k_nextpid {_} _.
Arguments k_initproc {_} _.
Arguments k_cur {_} _.
Arguments k_ticks {_} _.
Arguments k_files {_} _.

Section setters.
Context {F : Type}.
Implicit Types k : kernel F.
Definition set_k_m x k : kernel F :=
  Kernel x (k_procs k) (k_nextpid k) (k_initproc k) (k_cur k) (k_ticks k) (k_files k).
Definition set_k_procs x k : kernel F :=
  Kernel (k_m k) x (k_nextpid k) (k_initproc k) (k_cur k) (k_ticks k) (k_files k).
Definition set_k_nextpid x k : kernel F :=
  Kernel (k_m k) (k_procs k) x (k_initproc k) (k_cur k) (k_ticks k) (k_files k).
Definition set_k_initproc x k : kernel F :=
  Kernel (k_m k) (k_procs k) (k_nextpid k) x (k_cur k) (k_ticks k) (k_files k).
Definition set_k_cur x k : kernel F :=
  Kernel (k_m k) (k_procs k) (k_nextpid k) (k_initproc k) x (k_ticks k) (k_files k).
Definition set_k_ticks x k : kernel F :=
  Kernel (k_m k) (k_procs k) (k_nextpid k) (k_initproc k) (k_cur k) x (k_files k).
Definition set_k_files x k : kernel F :=
  Kernel (k_m k) (k_procs k) (k_nextpid k) (k_initproc k) (k_cur k) (k_ticks k) x.
End setters.

#[export] Program Instance kernel_locks {F} : HasLocks (kernel F) :=
  {| held := fun k => mheld (k_m k); set_held := fun L k => set_k_m (set_held L (k_m k)) k |}.
Next Obligation. done. Qed.
Next Obligation. done. Qed.
Next Obligation. by intros F [[? ? ?] ? ? ? ? ? ?]. Qed.

(** What proc.c calls of file.c, fs.c and log.c. *)
Class FileLayer (F : Type) := {
  filedup : Z -> M F Z;
  idup : Z -> M F Z;
  namei_root : M F Z;
  fileclose : Z -> M (kernel F) unit;
  iput : Z -> M (kernel F) unit;
  begin_op : M (kernel F) unit;
  end_op : M (kernel F) unit
}.

Section code.
Context {F : Type} `{FileLayer F} `{LinkerSyms}.
(** The context switch out of the current process and back. *)
Context (swtch : M (kernel F) unit).
Abbreviation K := (M (kernel F)).

(** Code that works on RAM and the free list, or on the file layer. *)
Definition on_m {A} (m : M machine A) : K A := zoom k_m set_k_m m.
Definition on_files {A} (m : M F A) : K A := zoom k_files set_k_files m.

(** Entry [i] of the table; the table is a C array, so an index out of range
    is undefined. *)
Definition getp (i : nat) : K proc := fun k =>
  match k_procs k !! i with Some p => Ok (p, k) | None => Crash end.
Definition setp (i : nat) (f : proc -> proc) : K unit :=
  modify (fun k => set_k_procs (alter f i (k_procs k)) k).

(** [for(p = proc; p < &proc[NPROC]; p++)]: [body] returns [None] to go on. *)
Definition for_procs {A} (body : nat -> K (option A)) (done : A) : K A :=
  loop (S NPROC) (fun i =>
    if (i <? NPROC)%nat then
      r <- body i ;;
      match r with Some a => ret (inr a) | None => ret (inl (S i)) end
    else ret (inr done)) 0%nat.

Definition myproc : K nat := fun k =>
  match k_cur k with Some i => Ok (i, k) | None => Crash end.

Definition procinit : K unit :=
  for_procs (fun i =>
    setp i (fun p => set_kstack (KSTACK (Z.of_nat i)) (set_state UNUSED p)) >>> ret None) tt.

Definition allocpid : K Z :=
  lock_acquire PidLock >>>
  pid <- gets k_nextpid ;;
  modify (set_k_nextpid (i32 (pid + 1))) >>>
  lock_release PidLock >>>
  ret pid.

Definition freeproc (i : nat) : K unit :=
  p <- getp i ;;
  (if negb (p_trapframe p =? 0) then on_m (kfree (p_trapframe p)) else ret tt) >>>
  setp i (set_trapframe 0) >>>
  (if negb (p_pagetable p =? 0) then on_m (proc_freepagetable (p_pagetable p) (p_sz p)) else ret tt) >>>
  setp i (fun p =>
    set_state UNUSED (set_xstate 0 (set_killed 0 (set_chan NoChan
      (set_name (<[0%nat := 0]> (p_name p))
        (set_parent None (set_pid 0 (set_sz 0 (set_pagetable 0 p))))))))).

(** The label [found] of [allocproc]. *)
Definition allocproc_found (i : nat) : K (option nat) :=
  pid <- allocpid ;;
  setp i (fun p => set_state USED (set_pid pid p)) >>>
  tf <- on_m kalloc ;;
  setp i (set_trapframe tf) >>>
  if tf =? 0 then freeproc i >>> lock_release (ProcLock i) >>> ret None
  else
    pt <- on_m (proc_pagetable tf) ;;
    setp i (set_pagetable pt) >>>
    if pt =? 0 then freeproc i >>> lock_release (ProcLock i) >>> ret None
    else
      setp i (fun p =>
        set_context (Context_ sym_forkret (u64 (p_kstack p + PGSIZE)) (replicate 12 0)) p) >>>
      ret (Some i).

Definition find_unused : K (option nat) :=
  for_procs (fun i =>
    lock_acquire (ProcLock i) >>>
    p <- getp i ;;
    if decide (p_state p = UNUSED) then ret (Some (Some i))
    else lock_release (ProcLock i) >>> ret None) None.

Definition allocproc : K (option nat) :=
  r <- find_unused ;;
  match r with
  | None => ret None
  | Some i => allocproc_found i
  end.

Definition userinit : K unit :=
  r <- allocproc ;;
  modify (set_k_initproc r) >>>
  match r with
  | None => crash
  | Some i =>
      cwd <- on_files namei_root ;;
      setp i (set_cwd cwd) >>>
      setp i (set_state RUNNABLE) >>>
      lock_release (ProcLock i)
  end.

(** [myproc()] as [vmfault] sees it. *)
Definition pview (p : proc) : procview := ProcView (p_sz p) (p_pagetable p).

Definition growproc (n : Z) : K Z :=
  i <- myproc ;;
  p <- getp i ;;
  let sz := p_sz p in
  if 0 <? n then
    if TRAPFRAME <? u64 (sz + n) then ret (-1)
    else
      sz' <- on_m (uvmalloc (p_pagetable p) sz (u64 (sz + n)) PTE_W) ;;
      if sz' =? 0 then ret (-1) else setp i (set_sz sz') >>> ret 0
  else if n <? 0 then
    sz' <- on_m (uvmdealloc (p_pagetable p) sz (u64 (sz + n))) ;;
    setp i (set_sz sz') >>> ret 0
  else setp i (set_sz sz) >>> ret 0.

(** The file descriptors of a child: [filedup] of each open one. *)
Fixpoint dup_files (old new : list Z) : K (list Z) :=
  match old, new with
  | f :: old', g :: new' =>
      h <- (if negb (f =? 0) then on_files (filedup f) else ret g) ;;
      rest <- dup_files old' new' ;;
      ret (h :: rest)
  | _, _ => ret new
  end.

(** [*(np->trapframe) = *(p->trapframe)]. *)
Definition copy_trapframe (dst src : Z) : M machine unit := mmove dst src TF_SIZE.

(** Files, directory and name of the child. *)
Definition inherit (p np : proc) (j : nat) : K unit :=
  files <- dup_files (p_ofile p) (p_ofile np) ;;
  setp j (set_ofile files) >>>
  cwd <- on_files (idup (p_cwd p)) ;;
  setp j (set_cwd cwd) >>>
  setp j (set_name (str_copy (p_name np) (p_name p) 16)).

(** The end of [kfork]: link the child to its parent and make it runnable. *)
Definition publish (i j : nat) : K Z :=
  np <- getp j ;;
  let pid := p_pid np in
  lock_release (ProcLock j) >>>
  lock_acquire WaitLock >>>
  setp j (set_parent (Some i)) >>>
  lock_release WaitLock >>>
  lock_acquire (ProcLock j) >>>
  setp j (set_state RUNNABLE) >>>
  lock_release (ProcLock j) >>>
  ret pid.

(** [kfork] after the memory has been copied. *)
Definition kfork_tail (i : nat) (p np : proc) (j : nat) : K Z :=
  on_m (copy_trapframe (p_trapframe np) (p_trapframe p)) >>>
  on_m (store64 (p_trapframe np + TF_a0) 0) >>>
  inherit p np j >>>
  publish i j.

Definition kfork : K Z :=
  i <- myproc ;;
  r <- allocproc ;;
  match r with
  | None => ret (-1)
  | Some j =>
      p <- getp i ;;
      np <- getp j ;;
      rc <- on_m (uvmcopy (p_pagetable p) (p_pagetable np) (p_sz p)) ;;
      if rc <? 0 then freeproc j >>> lock_release (ProcLock j) >>> ret (-1)
      else setp j (set_sz (p_sz p)) >>> kfork_tail i p np j
  end.

Definition wakeup (chan : channel) : K unit :=
  for_procs (fun j =>
    i <- gets k_cur ;;
    if decide (i = Some j) then ret None
    else
      lock_acquire (ProcLock j) >>>
      p <- getp j ;;
      (if decide (p_state p = SLEEPING /\ p_chan p = chan)
       then setp j (set_state RUNNABLE) else ret tt) >>>
      lock_release (ProcLock j) >>>
      ret None) tt.

(** The channel of a process pointer; [wakeup(0)] wakes no sleeper. *)
Definition proc_chan (p : option nat) : channel :=
  match p with Some i => ProcChan i | None => NoChan end.

Definition reparent (i : nat) : K unit :=
  for_procs (fun j =>
    pp <- getp j ;;
    if decide (p_parent pp = Some i) then
      init <- gets k_initproc ;;
      setp j (set_parent init) >>>
      wakeup (proc_chan init) >>>
      ret None
    else ret None) tt.

(** [sched]: the checks, then the switch.  Interrupts are off whenever a lock
    is held ([spinlock_intr_off]), so the check of [intr_get] is the second one. *)
Definition sched : K unit :=
  i <- myproc ;;
  L <- gets held ;;
  if negb (bool_decide (ProcLock i ∈ L)) then panic "sched p->lock"
  else
    n <- gets lock_depth ;;
    if negb (n =? 1) then panic "sched locks"
    else
      p <- getp i ;;
      if decide (p_state p = RUNNING) then panic "sched RUNNING"
      else swtch.

Definition close_files (i : nat) : K unit :=
  loop (S NOFILE) (fun fd =>
    if (fd <? NOFILE)%nat then
      p <- getp i ;;
      match p_ofile p !! fd with
      | None => crash
      | Some f =>
          (if negb (f =? 0)
           then fileclose f >>> setp i (fun p => set_ofile (<[fd := 0]> (p_ofile p)) p)
           else ret tt) >>>
          ret (inl (S fd))
      end
    else ret (inr tt)) 0%nat.

Definition kexit {A} (status : Z) : K A :=
  i <- myproc ;;
  init <- gets k_initproc ;;
  if decide (Some i = init) then panic "init exiting"
  else
    close_files i >>>
    begin_op >>>
    p <- getp i ;;
    iput (p_cwd p) >>>
    end_op >>>
    setp i (set_cwd 0) >>>
    lock_acquire WaitLock >>>
    reparent i >>>
    p <- getp i ;;
    wakeup (proc_chan (p_parent p)) >>>
    lock_acquire (ProcLock i) >>>
    setp i (fun p => set_state ZOMBIE (set_xstate status p)) >>>
    lock_release WaitLock >>>
    sched >>>
    panic "zombie exit".

Definition killed (i : nat) : K Z :=
  lock_acquire (ProcLock i) >>>
  p <- getp i ;;
  lock_release (ProcLock i) >>>
  ret (p_killed p).

Definition setkilled (i : nat) : K unit :=
  lock_acquire (ProcLock i) >>>
  setp i (set_killed 1) >>>
  lock_release (ProcLock i).

Definition sleep (chan : channel) (lk : lockid) : K unit :=
  i <- myproc ;;
  lock_acquire (ProcLock i) >>>
  lock_release lk >>>
  setp i (fun p => set_state SLEEPING (set_chan chan p)) >>>
  sched >>>
  setp i (set_chan NoChan) >>>
  lock_release (ProcLock i) >>>
  lock_acquire lk.

Definition yield : K unit :=
  i <- myproc ;;
  lock_acquire (ProcLock i) >>>
  setp i (set_state RUNNABLE) >>>
  sched >>>
  lock_release (ProcLock i).

(** The bytes of a 32-bit integer in memory. *)
Definition bytes32 (v : Z) : list Z :=
  [u8 v; u8 (u32 v / 2 ^ 8); u8 (u32 v / 2 ^ 16); u8 (u32 v / 2 ^ 24)].

(** A pass of [kwait] over the table, with [wait_lock] held: [inl rc] is a
    return, [inr havekids] the end of the loop. *)
Definition kwait_scan (i : nat) (addr : Z) : K (Z + bool) :=
  loop (S NPROC) (fun x =>
    let '(j, havekids) := x in
    if (j <? NPROC)%nat then
      pp <- getp j ;;
      if decide (p_parent pp = Some i) then
        lock_acquire (ProcLock j) >>>
        pp <- getp j ;;
        if decide (p_state pp = ZOMBIE) then
          let pid := p_pid pp in
          p <- getp i ;;
          rc <- (if negb (addr =? 0)
                 then on_m (copyout (pview p) (p_pagetable p) addr (bytes32 (p_xstate pp)))
                 else ret 0) ;;
          if negb (addr =? 0) && (rc <? 0) then
            lock_release (ProcLock j) >>> lock_release WaitLock >>> ret (inr (inl (-1)))
          else
            freeproc j >>>
            lock_release (ProcLock j) >>>
            lock_release WaitLock >>>
            ret (inr (inl pid))
        else lock_release (ProcLock j) >>> ret (inl (S j, true))
      else ret (inl (S j, havekids))
    else ret (inr (inr havekids))) (0%nat, false).

Definition kwait (fuel : nat) (addr : Z) : K Z :=
  i <- myproc ;;
  lock_acquire WaitLock >>>
  loop fuel (fun _ =>
    r <- kwait_scan i addr ;;
    match r with
    | inl rc => ret (inr rc)
    | inr havekids =>
        kl <- (if havekids then killed i else ret 0) ;;
        if negb havekids || negb (kl =? 0)
        then lock_release WaitLock >>> ret (inr (-1))
        else sleep (ProcChan i) WaitLock >>> ret (inl tt)
    end) tt.

(** One pass of [scheduler] over the table; [run] is the switch into the
    chosen process and back.  The result is [found]. *)
Definition scheduler_pass (run : K unit) : K bool :=
  loop (S NPROC) (fun x =>
    let '(j, found) := x in
    if (j <? NPROC)%nat then
      lock_acquire (ProcLock j) >>>
      p <- getp j ;;
      found' <- (if decide (p_state p = RUNNABLE) then
        setp j (set_state RUNNING) >>>
        modify (set_k_cur (Some j)) >>>
        run >>>
        modify (set_k_cur None) >>>
        ret true
      else ret found) ;;
      lock_release (ProcLock j) >>>
      ret (inl (S j, found'))
    else ret (inr found)) (0%nat, false).

Definition kkill (pid : Z) : K Z :=
  for_procs (fun j =>
    lock_acquire (ProcLock j) >>>
    p <- getp j ;;
    if p_pid p =? pid then
      setp j (set_killed 1) >>>
      (if decide (p_state p = SLEEPING) then setp j (set_state RUNNABLE) else ret tt) >>>
      lock_release (ProcLock j) >>>
      ret (Some 0)
    else lock_release (ProcLock j) >>> ret None) (-1).

Definition kthread_create (fn arg stack : Z) : K Z :=
  i <- myproc ;;
  r <- allocproc ;;
  match r with
  | None => ret (-1)
  | Some j =>
      p <- getp i ;;
      np <- getp j ;;
      setp j (fun q => set_sz (p_sz p) (set_pagetable (p_pagetable p) q)) >>>
      on_m (copy_trapframe (p_trapframe np) (p_trapframe p)) >>>
      on_m (store64 (p_trapframe np + TF_epc) fn) >>>
      on_m (store64 (p_trapframe np + TF_a0) arg) >>>
      on_m (store64 (p_trapframe np + TF_sp) stack) >>>
      inherit p np j >>>
      publish i j
  end.

(** [either_copyout] and [either_copyin] for a user address; the kernel side
    of the other case is a buffer of the caller. *)
Definition either_copyout_user (dst : Z) (src : list Z) : K Z :=
  i <- myproc ;;
  p <- getp i ;;
  on_m (copyout (pview p) (p_pagetable p) dst src).

Definition either_copyin_user (src : Z) (len : nat) : K (Z * list Z) :=
  i <- myproc ;;
  p <- getp i ;;
  on_m (copyin (pview p) (p_pagetable p) src len).

End code.
