(* ===== verification/ProcInv.v ===== *)
(** The invariant of the process table: every page of RAM belongs to the free
    list or to at most one process, every process has a well-formed address
    space, and live processes have distinct pids. *)

From S2P Require Import Prelude.
From S2P Require Import Memory.
From S2P Require Import Spinlock.
From S2P Require Import Riscv.
From S2P Require Import Kalloc.
From S2P Require Import PageTable.
From S2P Require Import AddrSpace.
From S2P Require Import Uvm.
From S2P Require Import UserMem.
From S2P Require Import UserCopy.
From S2P Require Import ProcMem.
From S2P Require Import Proc.

(** ** Pages of a process *)

Section pages.
Context `{LinkerSyms}.

(** The pages of a page table and of the user memory it maps. *)
Definition used (m : memory) (r q : Z) : Prop :=
  in_tree 2 m r q \/ exists va, va_ok va /\ va < TRAPFRAME /\ upage m r va = Some q.

Lemma owned_used m r l q : owned TRAPFRAME m r l q <-> q ∈ l \/ used m r q.
Proof. done. Qed.

(** All pages of a process. *)
Definition foot (m : memory) (p : proc) (q : Z) : Prop :=
  (p_trapframe p <> 0 /\ q = p_trapframe p) \/ (p_pagetable p <> 0 /\ used m (p_pagetable p) q).

(** The memory of a process is in order. *)
Definition proc_mem (m : memory) (l : list Z) (p : proc) : Prop :=
  if p_pagetable p =? 0
  then p_trapframe p <> 0 -> is_valid_pa (p_trapframe p) = true /\ p_trapframe p ∉ l
  else p_trapframe p <> 0 /\ proc_space m (p_pagetable p) l (p_sz p) (p_trapframe p).

Record procs_mem (m : memory) (l : list Z) (ps : list proc) : Prop := {
  pm_proc i p : ps !! i = Some p -> proc_mem m l p;
  pm_disj i j p p' q : i <> j -> ps !! i = Some p -> ps !! j = Some p' ->
    foot m p q -> foot m p' q -> False
}.

Lemma used_valid m r l sz tf q :
  proc_space m r l sz tf -> used m r q -> is_valid_pa q = true /\ (q ∉ l) /\ q <> tf.
Proof.
  intros Hps [(π & Hπ & E)|(va & Hva & Hlt & E)].
  - destruct (pt_valid _ _ _ _ (us_tree _ _ _ _ (ps_user _ _ _ _ _ Hps)) π q Hπ E).
    split_and!; auto. intros ->. by apply (sp_off _ _ _ _ _ (ps_spare _ _ _ _ _ Hps) π).
  - destruct (us_leaf _ _ _ _ (ps_user _ _ _ _ _ Hps) va q Hva Hlt E) as (? & ? & _).
    split_and!; auto. intros ->. by apply (sp_map _ _ _ _ _ (ps_spare _ _ _ _ _ Hps) va).
Qed.

Lemma foot_valid m l p q : proc_mem m l p -> foot m p q -> is_valid_pa q = true /\ (q ∉ l).
Proof.
  unfold proc_mem. case_if.
  - intros Hm [[Ht ->]|[Hp _]]; [by apply Hm|done].
  - intros [Ht Hps] [[_ ->]|[_ Hu]].
    + split; apply (ps_spare _ _ _ _ _ Hps).
    + by destruct (used_valid _ _ _ _ _ _ Hps Hu) as (? & ? & _).
Qed.

(** ** Frame rules *)

(** The table and mappings of [r] are read from its own pages. *)
Lemma used_space m m' r q : same_space m m' r -> used m' r q <-> used m r q.
Proof.
  intros Hs. unfold used, in_tree. f_equiv.
  - f_equiv. intros π. split; intros [Hπ E]; (split; [done|]);
      [rewrite <- (ss_page _ _ _ Hs)|rewrite (ss_page _ _ _ Hs)]; done.
  - f_equiv. intros va. by rewrite (same_upage m m') by apply Hs.
Qed.

Lemma proc_space_frame m m' r l l' sz tf :
  proc_space m r l sz tf -> (forall q, used m r q -> agree q PGSIZE m m' /\ (q ∉ l')) -> tf ∉ l' ->
  proc_space m' r l' sz tf /\ same_space m m' r.
Proof.
  intros Hps Hag Htf. pose proof (ps_user _ _ _ _ _ Hps) as Hu.
  assert (Hss : same_space m m' r).
  { apply same_space_agree. intros σ q Hσ E. apply Hag. left. by exists σ. }
  assert (Hps' : proc_space m r l' sz tf).
  { destruct Hps as [[Ht Hl Hi] Hsz Hab Htfx Htr [Hv Hfr Hoff Hmp]]. split; auto; [|by split].
    split; auto.
    - destruct Ht as [Hti Htv Htd]. split; auto. intros π q Hπ E. split; [by apply (Htv π)|].
      apply Hag. left. by exists π.
    - intros va q Hva Hlt E. destruct (Hl va q Hva Hlt E) as (? & _ & ?). split_and!; auto.
      apply Hag. right. eauto. }
  split; [|done]. apply (proc_space_same m); auto.
  apply (ptree_agree 2 m); [apply Hps'|]. intros σ q Hσ E. apply Hag. left. by exists σ.
Qed.

Lemma proc_mem_frame m m' l l' p :
  proc_mem m l p -> (forall q, foot m p q -> agree q PGSIZE m m' /\ (q ∉ l')) ->
  proc_mem m' l' p /\ forall q, foot m' p q <-> foot m p q.
Proof.
  unfold proc_mem, foot. intros Hm Hag. case_if.
  - split.
    + intros Ht. destruct (Hm Ht). split; [done|]. apply Hag. by left.
    + intros q. split; (intros [?|[? _]]; [by left|done]).
  - destruct Hm as [Ht Hps].
    destruct (proc_space_frame m m' (p_pagetable p) l l' (p_sz p) (p_trapframe p)) as [Hps' Hss]; auto.
    { apply Hag. by left. }
    split; [done|]. intros q. by rewrite (used_space m m').
Qed.

(** A process whose memory changes while the others' is untouched. *)
Lemma procs_mem_step m m' l l' ps i p p' :
  procs_mem m l ps -> ps !! i = Some p -> proc_mem m' l' p' ->
  (forall q, foot m' p' q -> q ∈ l \/ foot m p q) ->
  (forall q, is_valid_pa q = true -> q ∉ l -> ~ foot m p q -> agree q PGSIZE m m' /\ (q ∉ l')) ->
  procs_mem m' l' (<[i := p']> ps).
Proof.
  intros [Hpm Hdj] Hi Hp' Hsub Hout. pose proof (lookup_lt_Some _ _ _ Hi) as Hlt.
  assert (Hother : forall j pj, j <> i -> ps !! j = Some pj ->
    proc_mem m' l' pj /\ forall q, foot m' pj q <-> foot m pj q).
  { intros j pj Hne Hj. apply (proc_mem_frame m m' l); [eauto|]. intros q Hq.
    destruct (foot_valid m l pj q) as [Hv Hl]; [eauto..|]. apply Hout; auto.
    intros Hqi. by apply (Hdj i j p pj q). }
  assert (Hcross : forall j pj q, j <> i -> ps !! j = Some pj -> foot m' p' q -> foot m' pj q -> False).
  { intros j pj q Hne Hj H1 H2. destruct (Hother j pj Hne Hj) as [_ Hf]. rewrite Hf in H2.
    destruct (Hsub q H1) as [Hq|Hq].
    - destruct (foot_valid m l pj q) as [_ Hl]; [eauto..|]. done.
    - by apply (Hdj i j p pj q). }
  split.
  - intros j q Hj. destruct (decide (j = i)) as [->|Hne].
    + rewrite list_lookup_insert_eq in Hj by done. by simplify_eq.
    + rewrite list_lookup_insert_ne in Hj by done. by apply (Hother j q).
  - intros j k pj pk q Hne Hj Hk. destruct (decide (j = i)) as [->|Hji].
    + rewrite list_lookup_insert_eq in Hj by done. rewrite list_lookup_insert_ne in Hk by done. simplify_eq. eauto.
    + rewrite list_lookup_insert_ne in Hj by done. destruct (decide (k = i)) as [->|Hki].
      * rewrite list_lookup_insert_eq in Hk by done. simplify_eq. intros ??. eauto.
      * rewrite list_lookup_insert_ne in Hk by done. destruct (Hother j pj) as [_ H1]; auto.
        destruct (Hother k pk) as [_ H2]; auto. rewrite H1, H2. eauto.
Qed.

(** The special case of an operation on the user memory of process [i]. *)
Lemma procs_mem_contained m m' l l' ps i p sz :
  procs_mem m l ps -> ps !! i = Some p -> p_pagetable p <> 0 -> p_trapframe p <> 0 ->
  contained m m' (p_pagetable p) l l' ->
  proc_space m' (p_pagetable p) l' sz (p_trapframe p) ->
  procs_mem m' l' (<[i := set_sz sz p]> ps).
Proof.
  intros Hpm Hi Hpt Htf [Ho Ha] Hps'.
  pose proof (pm_proc _ _ _ Hpm i p Hi) as Hp. unfold proc_mem in Hp.
  rewrite (proj2 (Z.eqb_neq _ 0)) in Hp by done. destruct Hp as [_ Hps].
  eapply procs_mem_step; eauto.
  - unfold proc_mem. cbn. rewrite (proj2 (Z.eqb_neq _ 0)) by done. done.
  - intros q [[_ ->]|[_ Hu]]; cbn in *; [right; by left|].
    assert (Hq : owned TRAPFRAME m (p_pagetable p) l q) by (apply Ho; by right).
    apply owned_used in Hq as [?|?]; [by left|right; by right].
  - intros q Hv Hl Hf.
    assert (Hn : ~ owned TRAPFRAME m (p_pagetable p) l q).
    { rewrite owned_used. intros [?|?]; [done|]. apply Hf. by right. }
    split; [apply Ha; [by apply is_valid_pa_spec in Hv as [? _]|done]|].
    intros Hq. apply Hn, Ho. by left.
Qed.

(** Changing fields that do not concern memory. *)
Lemma procs_mem_same m l ps i p p' :
  procs_mem m l ps -> ps !! i = Some p ->
  p_pagetable p' = p_pagetable p -> p_trapframe p' = p_trapframe p -> p_sz p' = p_sz p ->
  procs_mem m l (<[i := p']> ps).
Proof.
  intros Hpm Hi H1 H2 H3. pose proof (pm_proc _ _ _ Hpm i p Hi) as Hp.
  eapply procs_mem_step; eauto.
  - unfold proc_mem in *. by rewrite H1, H2, H3.
  - intros q. unfold foot. rewrite H1, H2. by right.
  - intros q Hv Hl Hf. split; [by intros|done].
Qed.
End pages.

(** ** Rules for the process-table primitives *)

Section rules.
Context {F : Type} `{FileLayer F} `{LinkerSyms}.
Implicit Types k : kernel F.

Lemma wp_getp i p k (Q : proc -> kernel F -> Prop) :
  k_procs k !! i = Some p -> Q p k -> wp (getp i) k Q.
Proof. intros Hi HQ. unfold wp, getp. by rewrite Hi. Qed.

Lemma wp_setp i f p k (Q : unit -> kernel F -> Prop) :
  k_procs k !! i = Some p -> Q tt (set_k_procs (<[i := f p]> (k_procs k)) k) -> wp (setp i f) k Q.
Proof.
  intros Hi HQ. unfold setp. apply wp_modify. by rewrite (alter_insert f _ i p).
Qed.

Lemma wp_on_m {A} (m : M machine A) k (Q : A -> kernel F -> Prop) :
  wp m (k_m k) (fun a s => Q a (set_k_m s k)) -> wp (on_m m) k Q.
Proof. apply wp_zoom. Qed.

Lemma wp_on_files {A} (m : M F A) k (Q : A -> kernel F -> Prop) :
  wp m (k_files k) (fun a s => Q a (set_k_files s k)) -> wp (on_files m) k Q.
Proof. apply wp_zoom. Qed.

Lemma wp_myproc i k (Q : nat -> kernel F -> Prop) : k_cur k = Some i -> Q i k -> wp myproc k Q.
Proof. intros Hc HQ. unfold wp, myproc. by rewrite Hc. Qed.

Lemma wp_for_procs {A} (I : nat -> kernel F -> Prop) (body : nat -> M (kernel F) (option A)) done k Q :
  I 0%nat k ->
  (forall i k, (i < NPROC)%nat -> I i k ->
     wp (body i) k (fun r k' => match r with Some a => Q a k' | None => I (S i) k' end)) ->
  (forall k, I NPROC k -> Q done k) ->
  wp (for_procs body done) k Q.
Proof.
  intros Hstart Hb Hd. unfold for_procs.
  apply (wp_loop (fun i k => (i <= NPROC)%nat /\ I i k) (fun i => NPROC - i)%nat).
  - intros i k' [Hi HI]. destruct (i <? NPROC)%nat eqn:E.
    + apply Nat.ltb_lt in E. apply wp_bind. eapply wp_mono; [by apply Hb|].
      intros [a|] k'' HQ; apply wp_ret; [done|]. split; [split; [lia|done]|lia].
    + apply Nat.ltb_ge in E. apply wp_ret, Hd. by replace NPROC with i by lia.
  - split; [lia|done].
  - lia.
Qed.
End rules.

(** ** The invariant *)

Record proc_wf (nextpid : Z) (i : nat) (p : proc) : Prop := {
  wf_unused : p_state p = UNUSED ->
    p_pid p = 0 /\ p_pagetable p = 0 /\ p_trapframe p = 0 /\ p_sz p = 0 /\ p_parent p = None;
  wf_live : p_state p <> UNUSED ->
    0 < p_pid p < nextpid /\ p_pagetable p <> 0 /\ p_trapframe p <> 0;
  wf_closed : p_state p = UNUSED \/ p_state p = ZOMBIE -> p_ofile p = replicate NOFILE 0;
  wf_ofile : length (p_ofile p) = NOFILE;
  wf_name : length (p_name p) = 16%nat;
  wf_kstack : p_kstack p = KSTACK (Z.of_nat i)
}.

Record procs_wf (nextpid : Z) (ps : list proc) : Prop := {
  pw_len : length ps = NPROC;
  pw_proc i p : ps !! i = Some p -> proc_wf nextpid i p;
  pw_pids i j p q : ps !! i = Some p -> ps !! j = Some q -> i <> j ->
    p_state p <> UNUSED -> p_pid p <> p_pid q
}.

Lemma procs_wf_lookup n ps i : procs_wf n ps -> (i < NPROC)%nat -> exists p, ps !! i = Some p.
Proof. intros Hw Hi. apply lookup_lt_is_Some_2. by rewrite (pw_len _ _ Hw). Qed.

Lemma proc_wf_mono n n' i p : proc_wf n i p -> n <= n' -> proc_wf n' i p.
Proof.
  intros [Hu Hl Hc Ho Hn Hk] Hle. split; auto. intros Hs. destruct (Hl Hs) as (? & ? & ?).
  split_and!; auto; lia.
Qed.

(** Replacing an entry. *)
Lemma procs_wf_insert n n' ps i p p' :
  procs_wf n ps -> ps !! i = Some p -> n <= n' -> proc_wf n' i p' ->
  (p_state p' <> UNUSED -> p_pid p' = p_pid p /\ p_state p <> UNUSED \/ p_pid p' = n) ->
  procs_wf n' (<[i := p']> ps).
Proof.
  intros Hw Hi Hle Hp' Hpid. pose proof (lookup_lt_Some _ _ _ Hi) as Hlt.
  assert (Hback : forall j q, <[i := p']> ps !! j = Some q -> (j = i /\ q = p') \/ (j <> i /\ ps !! j = Some q)).
  { intros j q Hj. destruct (decide (j = i)) as [->|Hne].
    - rewrite list_lookup_insert_eq in Hj by done. left. by simplify_eq.
    - rewrite list_lookup_insert_ne in Hj by done. by right. }
  (* a live pid of the old table is below [n], a free entry has pid 0 *)
  assert (Hold : forall j q, ps !! j = Some q -> p_pid q < n \/ p_pid q = 0).
  { intros j q Hj. pose proof (pw_proc _ _ Hw j q Hj) as Hq.
    destruct (decide (p_state q = UNUSED)) as [E|E].
    - right. by apply (wf_unused _ _ _ Hq).
    - left. by apply (wf_live _ _ _ Hq). }
  split.
  - rewrite length_insert. apply Hw.
  - intros j q Hj. destruct (Hback j q Hj) as [[-> ->]|[Hne Hj']]; [done|].
    eapply proc_wf_mono; [by eapply pw_proc|done].
  - intros j k q1 q2 Hj Hk Hne Hl. destruct (Hback j q1 Hj) as [[-> ->]|[Hne1 Hj']],
      (Hback k q2 Hk) as [[-> ->]|[Hne2 Hk']]; try done.
    + destruct (Hpid Hl) as [[-> Hl0]|Heq]; [by apply (pw_pids _ _ Hw i k)|].
      destruct (wf_live _ _ _ Hp' Hl) as (? & _). destruct (Hold k q2 Hk'); lia.
    + destruct (decide (p_state p' = UNUSED)) as [E|E].
      * destruct (wf_unused _ _ _ Hp' E) as [-> _].
        destruct (wf_live _ _ _ (pw_proc _ _ Hw j q1 Hj') Hl). lia.
      * destruct (wf_live _ _ _ (pw_proc _ _ Hw j q1 Hj') Hl) as [? _].
        destruct (Hpid E) as [[-> Hl0]| ->]; [|lia]. by apply (pw_pids _ _ Hw j i).
    + by apply (pw_pids _ _ Hw j k).
Qed.

Section kinv.
Context {F : Type} `{FileLayer F} `{LinkerSyms}.
Implicit Types k : kernel F.

(** The invariant, with the free list [l]. *)
Record kinv (k : kernel F) (l : list Z) : Prop := {
  ki_kmem : kmem_inv (k_m k) l;
  ki_mem : procs_mem (mem (k_m k)) l (k_procs k);
  ki_wf : procs_wf (k_nextpid k) (k_procs k);
  ki_pid : 0 < k_nextpid k < 2 ^ 31
}.

(** No process lock is held. *)
Definition no_proc_locks (k : kernel F) : Prop := forall i, ProcLock i ∉ held k.

(** [k'] differs from [k] in RAM, the free list and entry [i] only. *)
Record only_proc (k k' : kernel F) (i : nat) (p' : proc) : Prop := {
  op_procs : k_procs k' = <[i := p']> (k_procs k);
  op_next : k_nextpid k' = k_nextpid k;
  op_init : k_initproc k' = k_initproc k;
  op_cur : k_cur k' = k_cur k;
  op_ticks : k_ticks k' = k_ticks k;
  op_files : k_files k' = k_files k;
  op_held : held k' = held k
}.

(** What [freeproc] leaves of an entry. *)
Definition cleared (p : proc) : proc :=
  Proc UNUSED NoChan 0 0 0 (p_pending_sig p) (p_sig_handler p) None (p_kstack p) 0 0 0
    (p_context p) (p_ofile p) (p_cwd p) (<[0%nat := 0]> (p_name p)).

Lemma cleared_wf n i p :
  p_ofile p = replicate NOFILE 0 -> length (p_name p) = 16%nat -> p_kstack p = KSTACK (Z.of_nat i) ->
  proc_wf n i (cleared p).
Proof.
  intros Ho Hn Hk. split; cbn; auto; try done.
  - by rewrite Ho.
  - by rewrite length_insert.
Qed.
End kinv.
