(* ===== verification/ProcOps.v ===== *)
(** What the operations of proc.c do to the process table and to memory:
    each preserves the invariant [kinv], and allocates and frees exactly the
    pages of the processes it creates and destroys. *)

From S2P Require Import Prelude.
From S2P Require Import Memory.
From S2P Require Import Spinlock.
From S2P Require Import Riscv.
From S2P Require Import Kalloc.
From S2P Require Import PageTable.
From S2P Require Import AddrSpace.
From S2P Require Import Uvm.
From S2P Require Import UserMem.
From S2P Require Import UserCopy.
From S2P Require Import ProcMem.
From S2P Require Import Proc.
From S2P Require Import ProcInv.

Section ops.
Context {F : Type} `{FileLayer F} `{LinkerSyms}.
Implicit Types k : kernel F.

Lemma set_k_procs_id k ps : k_procs k = ps -> set_k_procs ps k = k.
Proof. intros <-. by destruct k. Qed.

(** A conditional step on RAM. *)
Lemma wp_if_on_m (b : bool) (m : M machine unit) k (Q : unit -> kernel F -> Prop) :
  wp (if b then m else ret tt) (k_m k) (fun a s => Q a (set_k_m s k)) ->
  wp (if b then on_m m else ret tt) k Q.
Proof. destruct b; [apply wp_on_m|]. by destruct k. Qed.

(** ** freeproc *)

(** The memory freed by [freeproc], as a program on RAM alone. *)
Lemma free_trapframe s l p :
  kmem_inv s l -> proc_mem (mem s) l p ->
  wp (if negb (p_trapframe p =? 0) then kfree (p_trapframe p) else ret tt) s (fun _ s1 => exists l1,
    kmem_inv s1 l1 /\ mheld s1 = mheld s /\
    (forall q, q ∈ l1 <-> q ∈ l \/ (p_trapframe p <> 0 /\ q = p_trapframe p)) /\
    others_kept (mem s) (mem s1) l1 /\
    (p_pagetable p <> 0 -> uspace TRAPFRAME (mem s1) (p_pagetable p) l1 /\
       same_space (mem s) (mem s1) (p_pagetable p))).
Proof.
  intros Hs Hp. destruct (p_trapframe p =? 0) eqn:E; cbn [negb]; bool_simp.
  { apply wp_ret. exists l. split_and!; auto.
    - intros q. rewrite E. tauto.
    - by intros.
    - intros Hpt. unfold proc_mem in Hp. rewrite (proj2 (Z.eqb_neq _ 0)) in Hp by done. tauto. }
  assert (Hv : is_valid_pa (p_trapframe p) = true /\ (p_trapframe p ∉ l)).
  { apply (foot_valid (mem s) l p); [done|]. by left. }
  destruct Hv as [Hv Hl]. eapply wp_mono; [by apply (kfree_spec s l)|].
  cbn beta. intros _ s1 (Hs1 & Hf & Hh). exists (p_trapframe p :: l). split_and!; auto.
  - intros q. rewrite elem_of_cons. tauto.
  - intros q Hq Hql. apply not_elem_of_cons in Hql as [Hne _].
    apply (frame_agree (p_trapframe p)); auto; by apply is_valid_pa_spec.
  - intros Hpt. unfold proc_mem in Hp. rewrite (proj2 (Z.eqb_neq _ 0)) in Hp by done. destruct Hp as [_ Hps].
    destruct (uspace_frame TRAPFRAME (mem s) (mem s1) (p_pagetable p) l (p_trapframe p)) as (Hu & Hss & Hsp);
      auto; try apply Hps.
    split; [by apply uspace_give|done].
Qed.

Lemma free_pagetable s l p s1 l1 :
  proc_mem (mem s) l p -> kmem_inv s1 l1 ->
  (p_pagetable p <> 0 -> uspace TRAPFRAME (mem s1) (p_pagetable p) l1 /\
     same_space (mem s) (mem s1) (p_pagetable p)) ->
  wp (if negb (p_pagetable p =? 0) then proc_freepagetable (p_pagetable p) (p_sz p) else ret tt) s1
    (fun _ s2 => exists l2, kmem_inv s2 l2 /\ mheld s2 = mheld s1 /\
      (forall q, q ∈ l2 <-> q ∈ l1 \/ (p_pagetable p <> 0 /\ used (mem s) (p_pagetable p) q)) /\
      others_kept (mem s1) (mem s2) l2).
Proof.
  intros Hp Hs1 Hu1. destruct (p_pagetable p =? 0) eqn:E; cbn [negb]; bool_simp.
  { apply wp_ret. exists l1. split_and!; auto.
    - intros q. rewrite E. tauto.
    - by intros. }
  destruct (Hu1 E) as [Hu Hss]. unfold proc_mem in Hp. rewrite (proj2 (Z.eqb_neq _ 0)) in Hp by done.
  destruct Hp as [_ Hps].
  eapply wp_mono; [apply (proc_freepagetable_spec (p_pagetable p) (p_sz p) s1 l1); auto|].
  - apply Hps.
  - intros va Hva Hge H1 H2. rewrite (ss_xlate _ _ _ Hss). by apply (ps_above _ _ _ _ _ Hps).
  - cbn beta. intros _ s2 (l2 & Hs2 & Hh & Hf & Hk). exists l2. split_and!; auto.
    intros q. rewrite Hf, owned_used, (used_space _ _ _ _ Hss). tauto.
Qed.

Lemma freeproc_spec i p k l :
  kmem_inv (k_m k) l -> procs_mem (mem (k_m k)) l (k_procs k) -> k_procs k !! i = Some p ->
  wp (freeproc i) k (fun _ k' => exists l', kmem_inv (k_m k') l' /\
    procs_mem (mem (k_m k')) l' (k_procs k') /\ only_proc k k' i (cleared p) /\
    (forall q, q ∈ l' <-> q ∈ l \/ foot (mem (k_m k)) p q) /\
    others_kept (mem (k_m k)) (mem (k_m k')) l').
Proof.
  intros Hs Hpm Hi. pose proof (pm_proc _ _ _ Hpm i p Hi) as Hp. pose proof (lookup_lt_Some _ _ _ Hi) as Hlt.
  unfold freeproc. apply wp_bind, (wp_getp i p); [done|]. apply wp_bind.
  apply wp_if_on_m. eapply wp_mono; [by apply (free_trapframe (k_m k) l p)|].
  cbn beta. intros _ s1 (l1 & Hs1 & Hh1 & Hf1 & Hk1 & Hu1).
  apply wp_bind. eapply wp_setp; [exact Hi|]. apply wp_bind.
  apply wp_if_on_m. eapply wp_mono; [by apply (free_pagetable (k_m k) l p s1 l1)|].
  cbn beta. intros _ s2 (l2 & Hs2 & Hh2 & Hf2 & Hk2).
  eapply wp_setp; [cbn; by apply list_lookup_insert_eq|]. cbn [k_m k_procs set_k_m set_k_procs].
  rewrite list_insert_insert_eq. fold (cleared p).
  assert (Hfree : forall q, q ∈ l2 <-> q ∈ l \/ foot (mem (k_m k)) p q).
  { intros q. rewrite Hf2, Hf1. unfold foot. tauto. }
  assert (Hkept : others_kept (mem (k_m k)) (mem s2) l2).
  { intros q Hv Hq x Hx. rewrite (Hk2 q), (Hk1 q); auto. intros Hq1. apply Hq, Hf2. by left. }
  exists l2. split_and!; auto.
  - eapply procs_mem_step; eauto.
    + unfold proc_mem. cbn. done.
    + intros q [[? _]|[? _]]; done.
    + intros q Hv Hl Hn. assert (Hq : q ∉ l2) by (rewrite Hfree; tauto). split; [by apply Hkept|done].
  - split; try done. cbn. by rewrite Hh2, Hh1.
Qed.

(** ** allocproc *)

(** Taking and releasing a lock around code that leaves the others alone. *)
Lemma set_held_release lk k : lk ∉ held k ->
  set_held (filter (fun x => x <> lk) (held (set_held (lk :: held k) k))) (set_held (lk :: held k) k) = k.
Proof.
  intros Hl. destruct k as [[km kf kh] kp kn ki kc kt kfs].
  cbn [held set_held kernel_locks machine_locks k_m set_k_m mheld mem freelist] in *.
  by rewrite filter_ne_cons_self.
Qed.

Lemma allocpid_spec k (Q : Z -> kernel F -> Prop) :
  PidLock ∉ held k -> Q (k_nextpid k) (set_k_nextpid (i32 (k_nextpid k + 1)) k) -> wp allocpid k Q.
Proof.
  intros Hl HQ. unfold allocpid. apply wp_bind, wp_lock_acquire; [done|]. apply wp_bind, wp_gets.
  apply wp_bind, wp_modify. apply wp_bind, wp_lock_release; [cbn; apply elem_of_cons; by left|].
  apply wp_ret. destruct k as [[km kf kh] kp kn ki kc kt kfs].
  cbn [held set_held kernel_locks machine_locks k_m set_k_m mheld mem freelist set_k_nextpid k_nextpid] in *.
  rewrite filter_ne_cons_self by done. exact HQ.
Qed.

(** The entry of a new process. *)
Definition new_proc (p : proc) (pid tf pt : Z) : proc :=
  Proc USED (p_chan p) (p_killed p) (p_xstate p) pid (p_pending_sig p) (p_sig_handler p) (p_parent p)
    (p_kstack p) (p_sz p) pt tf (Context_ sym_forkret (u64 (p_kstack p + PGSIZE)) (replicate 12 0))
    (p_ofile p) (p_cwd p) (p_name p).

(** [k'] is [k] but for RAM, the free list, entry [i] and [nextpid]. *)
Record only_alloc (k k' : kernel F) (i : nat) (p' : proc) : Prop := {
  oa_procs : k_procs k' = <[i := p']> (k_procs k);
  oa_next : k_nextpid k' = k_nextpid k + 1;
  oa_init : k_initproc k' = k_initproc k;
  oa_cur : k_cur k' = k_cur k;
  oa_ticks : k_ticks k' = k_ticks k;
  oa_files : k_files k' = k_files k
}.

(** What [allocproc] gives back for entry [i]. *)
Definition alloc_ok (k k' : kernel F) (L : list lockid) (l : list Z) (i : nat) (p : proc) (r : option nat) : Prop :=
  exists l', kinv k' l' /\ outside_kept (mem (k_m k)) (mem (k_m k')) l /\
    ((r = None /\ only_alloc k k' i (cleared p) /\ held k' = L /\ forall q, q ∈ l' <-> q ∈ l) \/
     (exists tf pt, r = Some i /\ only_alloc k k' i (new_proc p (k_nextpid k) tf pt) /\
        held k' = ProcLock i :: L /\
        (forall q, q ∈ l <-> q ∈ l' \/ foot (mem (k_m k')) (new_proc p (k_nextpid k) tf pt) q) /\
        forall va, va_ok va -> va < TRAPFRAME -> xlate (mem (k_m k')) pt va = None)).

(** Entry [i] gets a trapframe page. *)
Lemma give_trapframe m m1 l l1 ps i p tf :
  procs_mem m l ps -> ps !! i = Some p -> p_pagetable p = 0 -> p_trapframe p = 0 ->
  l = tf :: l1 -> is_valid_pa tf = true -> tf ∉ l1 -> mem_frame tf m m1 ->
  procs_mem m1 l1 (<[i := set_trapframe tf p]> ps).
Proof.
  intros Hpm Hi Hpt Htf -> Hv Hl Hf. eapply procs_mem_step; eauto.
  - unfold proc_mem. cbn. rewrite Hpt. by cbn.
  - intros q [[_ ->]|[? _]]; cbn in *; [|done]. left. apply elem_of_cons. by left.
  - intros q Hvq Hq _. apply not_elem_of_cons in Hq as [Hne Hq]. split; [|done].
    apply (frame_agree tf q); auto; by apply is_valid_pa_spec.
Qed.

(** ... and a page table. *)
Lemma give_pagetable m m1 l l1 ps i p pt :
  procs_mem m l ps -> ps !! i = Some p -> p_pagetable p = 0 -> p_trapframe p <> 0 -> p_sz p = 0 ->
  outside_kept m m1 l -> pt <> 0 -> proc_space m1 pt l1 0 (p_trapframe p) -> table_from m1 pt l l1 ->
  (forall va, va_ok va -> va < TRAPFRAME -> xlate m1 pt va = None) ->
  procs_mem m1 l1 (<[i := set_pagetable pt p]> ps).
Proof.
  intros Hpm Hi Hpt Htf Hsz Hk Hpt1 Hps Hfrom Hempty. eapply procs_mem_step; eauto.
  - unfold proc_mem. cbn. rewrite (proj2 (Z.eqb_neq _ 0)) by done. by rewrite Hsz.
  - intros q [[_ ->]|[_ [Hq|(va & Hva & Hlt & E)]]]; cbn in *.
    + right. by left.
    + left. apply Hfrom. by right.
    + unfold upage in E. by rewrite Hempty in E.
  - intros q Hvq Hq _. split; [by apply Hk|]. intros Hq1. apply Hq, Hfrom. by left.
Qed.

(** The way out of [allocproc] when memory is short. *)
Lemma alloc_fail k1 (k : kernel F) L l l1 i p p1 :
  kinv k l -> k_procs k !! i = Some p -> p_state p = UNUSED -> ProcLock i ∉ L ->
  kmem_inv (k_m k1) l1 -> procs_mem (mem (k_m k1)) l1 (k_procs k1) -> k_procs k1 = <[i := p1]> (k_procs k) ->
  cleared p1 = cleared p -> k_nextpid k1 = k_nextpid k + 1 -> k_nextpid k + 1 < 2 ^ 31 ->
  k_initproc k1 = k_initproc k -> k_cur k1 = k_cur k -> k_ticks k1 = k_ticks k -> k_files k1 = k_files k ->
  held k1 = ProcLock i :: L -> outside_kept (mem (k_m k)) (mem (k_m k1)) l ->
  (forall q, q ∈ l <-> q ∈ l1 \/ foot (mem (k_m k1)) p1 q) ->
  wp (freeproc i >>> lock_release (ProcLock i) >>> ret None) k1 (fun r k' => alloc_ok k k' L l i p r).
Proof.
  intros [Hki Hpm Hwf Hpid] Hi Hst HL Hs1 Hpm1 Hps1 Hcl Hn1 Hn Hinit Hcur Hticks Hfiles Hh1 Hk1 Hl1.
  pose proof (lookup_lt_Some _ _ _ Hi) as Hlt.
  assert (Hi1 : k_procs k1 !! i = Some p1) by (rewrite Hps1; by apply list_lookup_insert_eq).
  apply wp_bind. eapply wp_mono; [by apply (freeproc_spec i p1 k1 l1)|].
  cbn beta. intros _ k2 (l2 & Hs2 & Hpm2 & [Ho1 Ho2 Ho3 Ho4 Ho5 Ho6 Ho7] & Hf2 & Hk2).
  apply wp_bind, wp_lock_release; [rewrite Ho7, Hh1; apply elem_of_cons; by left|]. apply wp_ret.
  rewrite Ho7, Hh1, filter_ne_cons_self by done.
  assert (Heq : forall q, q ∈ l2 <-> q ∈ l) by (intros q; rewrite (Hf2 q), (Hl1 q); tauto).
  rewrite Hps1, Hcl, list_insert_insert_eq in Ho1.
  exists l2. split_and!.
  - split; cbn.
    + destruct Hs2 as [? ? ? ? Hlk]. split; auto. cbn. intros Hin. apply Hlk.
      change (KmemLock ∈ held k2). rewrite Ho7, Hh1. apply elem_of_cons. by right.
    + done.
    + rewrite Ho1, Ho2, Hn1. eapply procs_wf_insert; [done|done|lia| |done].
      pose proof (pw_proc _ _ Hwf i p Hi) as Hp. apply cleared_wf; [|apply Hp..].
      apply (wf_closed _ _ _ Hp). by left.
    + lia.
  - intros q Hv Hq x Hx. cbn. rewrite (Hk2 q), (Hk1 q); auto. by rewrite Heq.
  - left. split_and!; auto. split; cbn; congruence.
Qed.

(** The rest of [allocproc] once the trapframe page is there. *)
Lemma alloc_with_trapframe k1 (k : kernel F) L l1 i p tf :
  kinv k (tf :: l1) -> k_procs k !! i = Some p -> p_state p = UNUSED -> ProcLock i ∉ L ->
  k_nextpid k + 1 < 2 ^ 31 -> tf <> 0 -> is_valid_pa tf = true -> tf ∉ l1 ->
  let p1 := set_trapframe tf (set_state USED (set_pid (k_nextpid k) p)) in
  kmem_inv (k_m k1) l1 -> procs_mem (mem (k_m k1)) l1 (k_procs k1) -> only_alloc k k1 i p1 ->
  held k1 = ProcLock i :: L -> outside_kept (mem (k_m k)) (mem (k_m k1)) (tf :: l1) ->
  wp (pt <- on_m (proc_pagetable tf) ;;
      setp i (set_pagetable pt) >>>
      if pt =? 0 then freeproc i >>> lock_release (ProcLock i) >>> ret None
      else
        setp i (fun p =>
          set_context (Context_ sym_forkret (u64 (p_kstack p + PGSIZE)) (replicate 12 0)) p) >>>
        ret (Some i)) k1 (fun r k' => alloc_ok k k' L (tf :: l1) i p r).
Proof.
  intros Hk Hi Hst HL Hn Htf0 Hv Hl p1 Hs1 Hpm1 [Ho1 Ho2 Ho3 Ho4 Ho5 Ho6] Hh1 Hk1.
  pose proof Hk as [Hki Hpm Hwf Hpid]. pose proof (lookup_lt_Some _ _ _ Hi) as Hlt.
  pose proof (pw_proc _ _ Hwf i p Hi) as Hp. destruct (wf_unused _ _ _ Hp Hst) as (_ & Hpt & Htf & Hsz & Hpar).
  assert (Hi1 : k_procs k1 !! i = Some p1) by (rewrite Ho1; by apply list_lookup_insert_eq).
  apply wp_bind, wp_on_m. eapply wp_mono; [by apply (proc_pagetable_spec tf (k_m k1) l1)|].
  cbn beta. intros pt s2 (l2 & Hs2 & Hh2 & Hk2 & Hres).
  assert (Hk2' : outside_kept (mem (k_m k)) (mem s2) (tf :: l1)).
  { intros q Hvq Hq x Hx. rewrite (Hk2 q), (Hk1 q); auto. apply not_elem_of_cons in Hq. tauto. }
  apply wp_bind. eapply wp_setp; [exact Hi1|]. cbn [k_procs set_k_m]. rewrite Ho1, list_insert_insert_eq.
  destruct Hres as [(-> & _ & Heq)|(Hpt0 & _ & Hps & Hfrom & Hempty)].
  - cbn [Z.eqb]. eapply (alloc_fail _ k L (tf :: l1) l2 i p (set_pagetable 0 p1)); eauto; cbn; auto.
    + rewrite <- (list_insert_insert_eq (k_procs k) i (set_pagetable 0 p1) p1), <- Ho1.
      eapply procs_mem_step; [exact Hpm1|exact Hi1|..].
      * unfold proc_mem. cbn. intros _. split; [done|]. by rewrite (Heq tf).
      * intros q [[? ->]|[? _]]; [|done]. right. by left.
      * intros q Hvq Hq _. rewrite (Heq q). split; [by apply Hk2|done].
    + by rewrite Hh2.
    + intros q. rewrite (Heq q), elem_of_cons. unfold foot. cbn. tauto.
  - rewrite (proj2 (Z.eqb_neq pt 0)) by done. apply wp_bind.
    eapply wp_setp; [cbn; by apply list_lookup_insert_eq|]. apply wp_ret.
    cbn [k_procs set_k_m set_k_procs]. rewrite list_insert_insert_eq.
    change (set_context _ _) with (new_proc p (k_nextpid k) tf pt).
    set (np := new_proc p (k_nextpid k) tf pt).
    assert (Hpm3 : procs_mem (mem s2) l2 (<[i := set_pagetable pt p1]> (k_procs k1))).
    { eapply give_pagetable; [exact Hpm1|exact Hi1|..]; eauto. }
    assert (Hpm4 : procs_mem (mem s2) l2 (<[i := np]> (k_procs k))).
    { eapply (procs_mem_same _ _ _ i _ np) in Hpm3;
        [|apply list_lookup_insert_eq; by rewrite Ho1, length_insert|done..].
      by rewrite list_insert_insert_eq, Ho1, list_insert_insert_eq in Hpm3. }
    assert (Hwf4 : procs_wf (k_nextpid k + 1) (<[i := np]> (k_procs k))).
    { eapply procs_wf_insert; [done|done|lia| |by right].
      split; cbn; try done; try apply Hp.
      - intros _. split_and!; auto; lia.
      - intros [?|?]; done. }
    exists l2. split_and!; auto.
    + split; cbn; [done|done|by rewrite Ho2|lia].
    + right. exists tf, pt. split_and!; auto.
      * split; cbn; done || congruence.
      * cbn. by rewrite Hh2.
      * intros q. rewrite elem_of_cons, (Hfrom q).
        unfold foot, used, new_proc. cbn [p_trapframe p_pagetable k_m set_k_m set_k_procs]. split.
        -- intros [->|[?|?]]; [right; by left|by left|right; right; split; [done|by left]].
        -- intros [?|[[_ ->]|[_ [?|(va & Hva & Hlt' & E)]]]]; [by right; left|by left|by right; right|].
           unfold upage in E. by rewrite Hempty in E.
Qed.

Lemma allocproc_found_spec k L l i p :
  kinv k l -> k_procs k !! i = Some p -> p_state p = UNUSED -> held k = ProcLock i :: L ->
  ProcLock i ∉ L -> PidLock ∉ L -> k_nextpid k + 1 < 2 ^ 31 ->
  wp (allocproc_found i) k (fun r k' => alloc_ok k k' L l i p r).
Proof.
  intros Hk Hi Hst Hh HL HpL Hn. pose proof Hk as [Hki Hpm Hwf Hpid].
  pose proof (lookup_lt_Some _ _ _ Hi) as Hlt. pose proof (pw_proc _ _ Hwf i p Hi) as Hp.
  destruct (wf_unused _ _ _ Hp Hst) as (_ & Hpt & Htf & Hsz & _).
  unfold allocproc_found. apply wp_bind, allocpid_spec; [rewrite Hh; by apply not_elem_of_cons|].
  rewrite i32_id by lia. apply wp_bind. eapply wp_setp; [exact Hi|]. cbn [k_procs set_k_nextpid].
  set (p1 := set_state USED (set_pid (k_nextpid k) p)).
  assert (Hpm1 : procs_mem (mem (k_m k)) l (<[i := p1]> (k_procs k))) by (by eapply procs_mem_same).
  apply wp_bind, wp_on_m, (kalloc_spec (k_m k) l); [done|..].
  { intros ->. apply wp_bind. eapply wp_setp; [cbn; by apply list_lookup_insert_eq|]. cbn [Z.eqb].
    eapply (alloc_fail _ k L [] [] i p (set_trapframe 0 p1)); eauto; cbn; try done.
    - rewrite list_insert_insert_eq. eapply procs_mem_same; [exact Hpm|exact Hi|..]; cbn; congruence.
    - by rewrite list_insert_insert_eq.
    - intros q. unfold foot. cbn. rewrite Hpt. tauto. }
  intros tf l1 s1 -> Htf0 Hv Hl Hs1 Hf1 Hh1 _. apply wp_bind. eapply wp_setp; [cbn; by apply list_lookup_insert_eq|].
  cbn [k_procs set_k_m set_k_procs set_k_nextpid]. rewrite list_insert_insert_eq.
  rewrite (proj2 (Z.eqb_neq tf 0)) by done.
  assert (Hpm2 : procs_mem (mem s1) l1 (<[i := set_trapframe tf p1]> (k_procs k))).
  { rewrite <- (list_insert_insert_eq (k_procs k) i (set_trapframe tf p1) p1).
    eapply give_trapframe; eauto. by apply list_lookup_insert_eq. }
  apply (alloc_with_trapframe _ k L l1 i p tf); auto.
  - by split.
  - cbn. by rewrite Hh1.
  - intros q Hvq Hq. apply not_elem_of_cons in Hq as [Hq _].
    apply (frame_agree tf); auto; by apply is_valid_pa_spec.
Qed.

(** The search for a free entry. *)
(** The entries before [i] are in use. *)
Definition used_below (ps : list proc) (i : nat) : Prop :=
  forall j q, (j < i)%nat -> ps !! j = Some q -> p_state q <> UNUSED.

Lemma find_unused_spec k (Q : option nat -> kernel F -> Prop) :
  procs_wf (k_nextpid k) (k_procs k) -> no_proc_locks k ->
  ((forall i p, k_procs k !! i = Some p -> p_state p <> UNUSED) -> Q None k) ->
  (forall i p, k_procs k !! i = Some p -> p_state p = UNUSED -> used_below (k_procs k) i ->
     Q (Some i) (set_held (ProcLock i :: held k) k)) ->
  wp find_unused k Q.
Proof.
  intros Hwf Hnl Hnone Hsome. unfold find_unused.
  apply (wp_for_procs (fun i k' => k' = k /\
    forall j p, (j < i)%nat -> k_procs k !! j = Some p -> p_state p <> UNUSED)).
  - split; [done|]. intros. lia.
  - intros i k' Hi [-> Hbefore]. apply wp_bind, wp_lock_acquire; [apply Hnl|].
    destruct (procs_wf_lookup _ _ i Hwf Hi) as [p Hp].
    apply wp_bind, (wp_getp i p); [done|]. destruct (decide (p_state p = UNUSED)) as [E|E].
    + apply wp_ret. eauto.
    + apply wp_bind, wp_lock_release; [cbn; apply elem_of_cons; by left|]. apply wp_ret.
      rewrite set_held_release by apply Hnl. split; [done|]. intros j pj Hj Hpj.
      destruct (decide (j = i)) as [->|Hne]; [congruence|]. apply (Hbefore j); [lia|done].
  - intros k' [-> Hall]. apply Hnone. intros i p Hp. apply (Hall i); [|done].
    rewrite <- (pw_len _ _ Hwf). by eapply lookup_lt_Some.
Qed.

Lemma kinv_set_held k l L : kinv k l -> KmemLock ∉ L -> kinv (set_held L k) l.
Proof. intros [[? ? ? ? ?] ? ? ?] HL. split; cbn; auto. by split. Qed.

Lemma allocproc_spec k l (Q : option nat -> kernel F -> Prop) :
  kinv k l -> no_proc_locks k -> PidLock ∉ held k -> k_nextpid k + 1 < 2 ^ 31 ->
  ((forall i p, k_procs k !! i = Some p -> p_state p <> UNUSED) -> Q None k) ->
  (forall r k' i p, k_procs k !! i = Some p -> p_state p = UNUSED -> used_below (k_procs k) i ->
     alloc_ok k k' (held k) l i p r -> Q r k') ->
  wp allocproc k Q.
Proof.
  intros Hk Hnl Hpid Hn Hnone Hres. unfold allocproc. apply wp_bind, find_unused_spec; auto; [apply Hk|].
  intros i p Hi Hst Hbelow. pose proof (km_lock _ _ (ki_kmem _ _ Hk)) as Hkl.
  eapply wp_mono; [apply (allocproc_found_spec _ (held k) l i p); auto|].
  - apply kinv_set_held; [done|]. apply not_elem_of_cons. by split.
  - cbn beta. intros r k' Hok. apply (Hres r k' i p); auto.
    destruct Hok as (l' & Hk' & Hout & Hor). exists l'. split_and!; auto.
    destruct Hor as [(-> & [] & ? & ?)|(tf & pt & -> & [] & ? & ? & ?)]; [left|right].
    + split_and!; auto. by split.
    + exists tf, pt. split_and!; auto. by split.
Qed.

(** ** Trapframes *)

(** A write to the trapframe page of a live process touches nothing else. *)
Lemma write_trapframe s l ps i p m' :
  kmem_inv s l -> procs_mem (mem s) l ps -> ps !! i = Some p -> p_pagetable p <> 0 -> p_trapframe p <> 0 ->
  mem_frame (p_trapframe p) (mem s) m' -> bytes_ok m' ->
  kmem_inv (set_mem m' s) l /\ procs_mem m' l ps.
Proof.
  intros Hs Hpm Hi Hpt Htf Hf Hb. pose proof (pm_proc _ _ _ Hpm i p Hi) as Hp.
  destruct (foot_valid _ _ _ (p_trapframe p) Hp) as [Hv Hl]; [by left|].
  split; [by eapply (kmem_inv_write s l (p_trapframe p))|].
  rewrite <- (list_insert_id ps i p Hi). eapply procs_mem_step; eauto.
  - unfold proc_mem in *. rewrite (proj2 (Z.eqb_neq _ 0)) in * by done. destruct Hp as [_ Hps]. split; [done|].
    destruct (frame_space (mem s) m' (p_pagetable p) l (p_trapframe p)) as [Hss Ht]; auto.
    + apply Hps.
    + by apply is_valid_pa_spec in Hv as [? _].
    + apply Hps.
    + by eapply proc_space_same.
  - intros q Hq. right. destruct Hq as [?|[_ Hu]]; [by left|]. right. split; [done|].
    unfold proc_mem in Hp. rewrite (proj2 (Z.eqb_neq _ 0)) in Hp by done. destruct Hp as [_ Hps].
    destruct (frame_space (mem s) m' (p_pagetable p) l (p_trapframe p)) as [Hss _]; auto.
    + apply Hps.
    + by apply is_valid_pa_spec in Hv as [? _].
    + apply Hps.
    + by rewrite <- (used_space _ _ _ _ Hss).
  - intros q Hvq Hq Hn. split; [|done]. apply (frame_agree (p_trapframe p)); auto; try by apply is_valid_pa_spec.
    intros ->. apply Hn. by left.
Qed.

(** The memory a process sees is read from its own pages. *)
Lemma view_frame m m' l p :
  proc_mem m l p -> p_pagetable p <> 0 -> (forall q, foot m p q -> q <> p_trapframe p -> agree q PGSIZE m m') ->
  view_eq (ubyte m (p_pagetable p)) (ubyte m' (p_pagetable p)).
Proof.
  intros Hp Hpt Hag. unfold proc_mem in Hp. rewrite (proj2 (Z.eqb_neq _ 0)) in Hp by done. destruct Hp as [Htf Hps].
  assert (Hu : forall q, used m (p_pagetable p) q -> agree q PGSIZE m m').
  { intros q Hq. apply Hag; [by right|]. by destruct (used_valid _ _ _ _ _ _ Hps Hq) as (_ & _ & ?). }
  assert (Hss : same_space m m' (p_pagetable p)).
  { apply same_space_agree. intros σ q Hσ E. apply Hu. left. by exists σ. }
  intros va Hva. destruct (page_of va Hva) as [Hpg Hlt]. destruct (page_split va) as [_ Hmod].
  unfold ubyte. rewrite (ss_xlate _ _ _ Hss). destruct (xlate m _ (PGROUNDDOWN va)) as [v|] eqn:E; [|done].
  do 2 f_equal. apply (Hu (PTE2PA v)); [|lia]. right. exists (PGROUNDDOWN va). split_and!; auto.
  unfold upage. by rewrite E.
Qed.
End ops.

(** ** The laws of the file layer *)

(** [fl_open s f]: file [f] is open in state [s].  Duplicating an open file
    returns it and leaves open files open. *)
Class FileLaws (F : Type) `{FileLayer F} := {
  fl_open : F -> Z -> Prop;
  filedup_law f s : fl_open s f ->
    wp (filedup f) s (fun r s' => r = f /\ forall g, fl_open s g -> fl_open s' g);
  idup_law ip s : wp (idup ip) s (fun r s' => r = ip /\ forall g, fl_open s g -> fl_open s' g)
}.

Section fork.
Context {F : Type} `{FileLaws F} `{LinkerSyms}.
Implicit Types k : kernel F.

(** The descriptors in [fs] are open. *)
Definition files_open (s : F) (fs : list Z) : Prop := forall f, f ∈ fs -> f <> 0 -> fl_open s f.

Lemma dup_files_spec old : forall k,
  files_open (k_files k) old ->
  wp (dup_files old (replicate (length old) 0)) k (fun r k' =>
    r = old /\ exists fs, k' = set_k_files fs k /\ forall g, fl_open (k_files k) g -> fl_open fs g).
Proof.
  induction old as [|f old IH]; intros k Hop; cbn [dup_files length replicate].
  { apply wp_ret. split; [done|]. exists (k_files k). split; [by destruct k|done]. }
  assert (Hold : forall fs, (forall g, fl_open (k_files k) g -> fl_open fs g) -> files_open fs old).
  { intros fs Hfs g Hg Hg0. apply Hfs, Hop; [|done]. apply elem_of_cons. by right. }
  apply wp_bind. destruct (f =? 0) eqn:E; cbn [negb]; bool_simp.
  - apply wp_ret. apply wp_bind. eapply wp_mono; [apply IH; by apply Hold|].
    cbn beta. intros r k' (-> & fs & -> & Hfs). apply wp_ret. split; [by rewrite E|]. eauto.
  - apply wp_on_files. eapply wp_mono; [apply filedup_law, Hop; [apply elem_of_cons; by left|done]|].
    cbn beta. intros r fs (-> & Hfs). apply wp_bind. eapply wp_mono; [apply IH; cbn; by apply Hold|].
    cbn beta. intros r k' (-> & fs' & -> & Hfs'). apply wp_ret. split; [done|]. exists fs'.
    split; [done|]. intros g Hg. by apply Hfs', Hfs.
Qed.
End fork.
