(* ===== verification/Fork.v ===== *)
(** [kfork]: the child gets a copy of the parent's memory, registers, open
    files and name, and on failure nothing is lost. *)

From S2P Require Import Prelude.
From S2P Require Import Memory.
From S2P Require Import Spinlock.
From S2P Require Import Riscv.
From S2P Require Import Kalloc.
From S2P Require Import PageTable.
From S2P Require Import AddrSpace.
From S2P Require Import Uvm.
From S2P Require Import UserMem.
From S2P Require Import UserCopy.
From S2P Require Import ProcMem.
From S2P Require Import Proc.
From S2P Require Import ProcInv.
From S2P Require Import ProcOps.

Section copy.
Context `{LinkerSyms}.

Lemma flags_keep_V v : has_flag v PTE_V = true -> Z.lor (PTE_FLAGS v) PTE_V = PTE_FLAGS v.
Proof.
  intros HV. change PTE_V with (Z.shiftl 1 0) in *. rewrite <- has_flag_flags, has_flag_bit in HV by lia.
  apply Z.bits_inj'. intros n Hn. rewrite Z.lor_spec. destruct (decide (n = 0)) as [->|Hne].
  - rewrite HV. done.
  - change (Z.shiftl 1 0) with 1. replace (Z.testbit 1 n) with false; [apply orb_false_r|].
    symmetry. destruct n; [done| |lia]. done.
Qed.

Lemma xlate_V m r va v : xlate m r va = Some v -> has_flag v PTE_V = true.
Proof.
  unfold xlate. destruct (pte_slot m r va) as [a|]; [|done]. cbn.
  destruct (has_flag (ld64 m a) PTE_V) eqn:E; [|done]. by intros [= <-].
Qed.

(** After [uvmcopy] both tables show the same memory. *)
Lemma copy_view m m' ro rn l l' sz tf tf' :
  proc_space m ro l sz tf -> proc_space m rn l 0 tf' ->
  grow_post TRAPFRAME (copy_fill m ro) m m' rn l l' 0 (PGROUNDUP sz) ->
  view_eq (ubyte m ro) (ubyte m' rn).
Proof.
  intros Hpo Hpn Hg va Hva. destruct (page_of va Hva) as [Hpg Hlt]. destruct (page_split va) as [_ Hmod].
  pose proof (gp_map _ _ _ _ _ _ _ _ _ Hg _ Hpg) as Hf. unfold ubyte, copy_fill in *.
  destruct (PGROUNDUP_props sz) as (Hup & Hb & _).
  { destruct (ps_sz _ _ _ _ _ Hpo), TRAPFRAME_ok. lia. }
  destruct Hpg as [Hpg0 Hal].
  assert (Hnew : xlate m rn (PGROUNDDOWN va) = None).
  { destruct TRAMPOLINE_ok as [_ ?]. apply (ps_above _ _ _ _ _ Hpn); [done|lia..]. }
  rewrite (proj2 (Z.leb_le 0 _)) in Hf by lia. cbn [andb] in Hf.
  destruct (xlate m ro (PGROUNDDOWN va)) as [v|] eqn:E.
  - rewrite (proj2 (Z.ltb_lt _ _)) in Hf.
    2: { destruct (decide (PGROUNDDOWN va < sz)); [lia|].
         destruct TRAMPOLINE_ok as [_ ?]. rewrite (ps_above _ _ _ _ _ Hpo) in E; [done|done|lia..]. }
    destruct Hf as (p & Hx & _ & Hv & Hc). rewrite Hx.
    pose proof (is_valid_pa_pos p Hv). pose proof (PTE_FLAGS_range v). apply is_valid_pa_spec in Hv as [? _].
    rewrite mk_pte_PA, mk_pte_eq, PTE_FLAGS_mk by (done || lia || (apply lor_range; [done|apply PTE_V_range])).
    rewrite flags_keep_V by (by eapply xlate_V). by rewrite Hc by lia.
  - assert (Hx : xlate m' rn (PGROUNDDOWN va) = None) by (rewrite <- Hnew; revert Hf; by case_if).
    by rewrite Hx.
Qed.

(** The pages of distinct processes are apart. *)
Lemma procs_apart m l ps i j p np :
  procs_mem m l ps -> ps !! i = Some p -> ps !! j = Some np -> i <> j ->
  p_pagetable p <> 0 -> p_pagetable np <> 0 -> apart TRAPFRAME m (p_pagetable p) (p_pagetable np).
Proof.
  intros Hpm Hi Hj Hne Hp Hnp. split.
  - intros q Hq π Hπ E. apply (pm_disj _ _ _ Hpm i j p np q); auto; right; (split; [done|]); left; [done|by exists π].
  - intros va q Hva Hlt Hq π Hπ E. apply (pm_disj _ _ _ Hpm i j p np q); auto; right; (split; [done|]).
    + right. eauto.
    + left. by exists π.
Qed.

Lemma proc_mem_space m l p :
  proc_mem m l p -> p_pagetable p <> 0 -> proc_space m (p_pagetable p) l (p_sz p) (p_trapframe p).
Proof. unfold proc_mem. intros Hp Hn. rewrite (proj2 (Z.eqb_neq _ 0)) in Hp by done. tauto. Qed.

(** Copying the memory of process [i] into the empty process [j]. *)
Lemma copy_memory s l ps i j p np :
  kmem_inv s l -> procs_mem (mem s) l ps -> ps !! i = Some p -> ps !! j = Some np -> i <> j ->
  p_pagetable p <> 0 -> p_pagetable np <> 0 -> p_trapframe np <> 0 -> p_sz np = 0 ->
  wp (uvmcopy (p_pagetable p) (p_pagetable np) (p_sz p)) s (fun rc s' => exists l',
    kmem_inv s' l' /\ mheld s' = mheld s /\ contained (mem s) (mem s') (p_pagetable np) l l' /\
    ((rc = 0 /\ procs_mem (mem s') l' (<[j := set_sz (p_sz p) np]> ps) /\
      view_eq (ubyte (mem s) (p_pagetable p)) (ubyte (mem s') (p_pagetable np))) \/
     (rc = -1 /\ procs_mem (mem s') l' ps))).
Proof.
  intros Hs Hpm Hi Hj Hne Hpt Hnpt Hntf Hnsz.
  pose proof (proc_mem_space _ _ _ (pm_proc _ _ _ Hpm i p Hi) Hpt) as Hpo.
  pose proof (proc_mem_space _ _ _ (pm_proc _ _ _ Hpm j np Hj) Hnpt) as Hpn. rewrite Hnsz in Hpn.
  destruct (ps_sz _ _ _ _ _ Hpo) as [Hsz1 Hsz2]. destruct TRAPFRAME_ok as [Htfo Htfm].
  destruct (PGROUNDUP_props (p_sz p)) as (Hup & Hb & _); [lia|].
  assert (Htop : PGROUNDUP (p_sz p) <= TRAPFRAME) by (destruct Hup, Htfo; unfold PGSIZE in *; dlia).
  eapply wp_mono; [apply (uvmcopy_spec TRAPFRAME (p_pagetable p) (p_pagetable np) (p_sz p) s l); auto; try lia|].
  - apply Hpo.
  - apply Hpn.
  - by eapply procs_apart.
  - intros va Hva Hlt. destruct TRAMPOLINE_ok as [_ ?], Hva as [? ?].
    apply (ps_above _ _ _ _ _ Hpn); [done|lia..].
  - cbn beta. intros rc s' (l' & Hs' & Hu' & Hh & [[-> Hg]|[-> Hq]]); exists l'.
    + assert (Hc : contained (mem s) (mem s') (p_pagetable np) l l') by (apply kept_contained; apply Hg).
      split_and!; auto. left. split_and!; auto.
      * eapply procs_mem_contained; eauto.
        apply (proc_space_grow (copy_fill (mem s) (p_pagetable p)) (mem s) (mem s') _ l l' 0 (p_sz p) _ 0 (PGROUNDUP (p_sz p)));
          auto using copy_fill_ok.
        intros va Hva Hr. destruct Hva, Hup. unfold PGSIZE in *. dlia.
      * by eapply copy_view.
    + assert (Hc : contained (mem s) (mem s') (p_pagetable np) l l') by (apply kept_contained; apply Hq).
      split_and!; auto. right. split; [done|].
      assert (Hps' : proc_space (mem s') (p_pagetable np) l' 0 (p_trapframe np)) by (by eapply proc_space_quiet).
      eapply (procs_mem_contained _ _ _ _ _ j np 0) in Hc; eauto.
      rewrite list_insert_id in Hc; [done|]. rewrite Hj. f_equal. rewrite <- Hnsz. by destruct np.
Qed.
End copy.

Section regs.
Context `{LinkerSyms}.

(** Writing the trapframe of a live process. *)
Record tf_written (s s' : machine) (l : list Z) (ps : list proc) (tf : Z) : Prop := {
  tw_inv : kmem_inv s' l;
  tw_mem : procs_mem (mem s') l ps;
  tw_held : mheld s' = mheld s;
  tw_frame : mem_frame tf (mem s) (mem s')
}.

Lemma tf_written_trans s1 s2 s3 l ps tf :
  tf_written s1 s2 l ps tf -> tf_written s2 s3 l ps tf -> tf_written s1 s3 l ps tf.
Proof.
  intros [? ? ? Hf1] [? ? ? Hf2]. split; auto; [congruence|]. intros x Hx. by rewrite Hf2, Hf1.
Qed.

Lemma store_tf s l ps j np o v :
  kmem_inv s l -> procs_mem (mem s) l ps -> ps !! j = Some np -> p_pagetable np <> 0 -> p_trapframe np <> 0 ->
  0 <= o -> o + 8 <= PGSIZE ->
  wp (store64 (p_trapframe np + o) v) s (fun _ s' =>
    tf_written s s' l ps (p_trapframe np) /\ mem s' = st64 (mem s) (p_trapframe np + o) v).
Proof.
  intros Hs Hpm Hj Hpt Htf Ho1 Ho2. unfold store64. apply wp_modify.
  assert (Hf : mem_frame (p_trapframe np) (mem s) (st64 (mem s) (p_trapframe np + o) v)).
  { intros x Hx. unfold PGSIZE in *. apply st_other. lia. }
  destruct (write_trapframe s l ps j np (st64 (mem s) (p_trapframe np + o) v)) as [Hs' Hpm']; auto.
  { apply st_bytes_ok. by apply km_bytes in Hs. }
  split; [by split|done].
Qed.

Lemma copy_tf s l ps j np src :
  kmem_inv s l -> procs_mem (mem s) l ps -> ps !! j = Some np -> p_pagetable np <> 0 -> p_trapframe np <> 0 ->
  wp (copy_trapframe (p_trapframe np) src) s (fun _ s' =>
    tf_written s s' l ps (p_trapframe np) /\
    forall o, 0 <= o < TF_SIZE -> mem s' (p_trapframe np + o) = mem s (src + o)).
Proof.
  intros Hs Hpm Hj Hpt Htf. unfold copy_trapframe, mmove. apply wp_modify.
  pose proof (km_bytes _ _ Hs) as Hb.
  assert (Hf : mem_frame (p_trapframe np) (mem s) (memmove (mem s) (p_trapframe np) src TF_SIZE)).
  { intros x Hx. apply memmove_out; [done|done|]. unfold TF_SIZE, PGSIZE in *. lia. }
  destruct (write_trapframe s l ps j np (memmove (mem s) (p_trapframe np) src TF_SIZE)) as [Hs' Hpm']; auto.
  { by apply memmove_bytes_ok. }
  split; [done|]. intros o Ho. cbn [mem set_mem]. rewrite memmove_in by (done || lia). f_equal. lia.
Qed.
End regs.

Lemma str_copy_length dst : forall src n, length (str_copy dst src n) = length dst.
Proof.
  induction dst as [|d dst IH]; intros src [|[|n]]; cbn; try done.
  destruct src as [|c src]; [done|]. case_if; [done|]. cbn. f_equal. apply (IH src (S n)).
Qed.

Section fork.
Context {F : Type} `{FileLaws F} `{LinkerSyms}.
Implicit Types k : kernel F.

(** The entry of the child: parent entry [p] at index [i], free entry [q]. *)
Definition fork_child (p q : proc) (i : nat) (pid tf pt : Z) : proc :=
  Proc RUNNABLE (p_chan q) (p_killed q) (p_xstate q) pid (p_pending_sig q) (p_sig_handler q) (Some i)
    (p_kstack q) (p_sz p) pt tf (Context_ sym_forkret (u64 (p_kstack q + PGSIZE)) (replicate 12 0))
    (p_ofile p) (p_cwd p) (str_copy (p_name q) (p_name p) 16).

(** The result of a fork-like call that copies the memory of process [i],
    with entry [p], and gives the child the registers [regs]. *)
Definition fork_post (k : kernel F) (l : list Z) (i : nat) (p : proc) (regs : Z -> Z) (rc : Z) (k' : kernel F) : Prop :=
  exists l', kinv k' l' /\ held k' = held k /\ k_cur k' = k_cur k /\ k_initproc k' = k_initproc k /\
    k_ticks k' = k_ticks k /\ outside_kept (mem (k_m k)) (mem (k_m k')) l /\
    ((rc = -1 /\ k_files k' = k_files k /\ (forall q, q ∈ l' <-> q ∈ l) /\
      (k_procs k' = k_procs k \/ exists j q q', k_procs k !! j = Some q /\ p_state q = UNUSED /\
         k_procs k' = <[j := cleared q']> (k_procs k))) \/
     (exists j q tf pt, rc = k_nextpid k /\ k_procs k !! j = Some q /\ p_state q = UNUSED /\ used_below (k_procs k) j /\
        k_procs k' = <[j := fork_child p q i (k_nextpid k) tf pt]> (k_procs k) /\
        (forall g, fl_open (k_files k) g -> fl_open (k_files k') g) /\
        view_eq (ubyte (mem (k_m k)) (p_pagetable p)) (ubyte (mem (k_m k')) pt) /\
        forall o, 0 <= o < TF_SIZE -> mem (k_m k') (tf + o) = regs o)).

(** The state between [allocproc] and the publication of the child: the lock
    of entry [j] is held, its memory is a copy of the parent's. *)
Record copied (k : kernel F) (l : list Z) (i j : nat) (p q : proc) (tf pt : Z) (k1 : kernel F) (l1 : list Z) : Prop := {
  cp_kmem : kmem_inv (k_m k1) l1;
  cp_mem : procs_mem (mem (k_m k1)) l1 (k_procs k1);
  cp_procs : k_procs k1 = <[j := set_sz (p_sz p) (new_proc q (k_nextpid k) tf pt)]> (k_procs k);
  cp_next : k_nextpid k1 = k_nextpid k + 1;
  cp_init : k_initproc k1 = k_initproc k;
  cp_cur : k_cur k1 = k_cur k;
  cp_ticks : k_ticks k1 = k_ticks k;
  cp_files : k_files k1 = k_files k;
  cp_held : held k1 = ProcLock j :: held k;
  cp_kept : outside_kept (mem (k_m k)) (mem (k_m k1)) l;
  cp_view : view_eq (ubyte (mem (k_m k)) (p_pagetable p)) (ubyte (mem (k_m k1)) pt);
  cp_nz : tf <> 0 /\ pt <> 0 /\ tf ∈ l
}.

(** The failure result, with the free list as it was. *)
Definition fork_failed (k : kernel F) (l : list Z) (k' : kernel F) : Prop :=
  exists l', kinv k' l' /\ held k' = held k /\ k_cur k' = k_cur k /\ k_initproc k' = k_initproc k /\
    k_ticks k' = k_ticks k /\ outside_kept (mem (k_m k)) (mem (k_m k')) l /\
    k_files k' = k_files k /\ (forall q, q ∈ l' <-> q ∈ l) /\
    (k_procs k' = k_procs k \/ exists j q q', k_procs k !! j = Some q /\ p_state q = UNUSED /\
       k_procs k' = <[j := cleared q']> (k_procs k)).

Lemma fork_failed_post k l i p regs k' : fork_failed k l k' -> fork_post k l i p regs (-1) k'.
Proof.
  intros (l' & ? & ? & ? & ? & ? & ? & ? & ? & ?). exists l'. split_and!; auto.
Qed.

Section prefix.
Context (k : kernel F) (l : list Z) (i : nat) (p : proc).
Hypothesis Hk : kinv k l.
Hypothesis Hi : k_procs k !! i = Some p.
Hypothesis Hlive : p_state p <> UNUSED.
Hypothesis Hnl : no_proc_locks k.
Hypothesis Hpl : PidLock ∉ held k.
Hypothesis Hnext : k_nextpid k + 1 < 2 ^ 31.

(** What [allocproc] has set up, before the copy. *)
Context (k1 : kernel F) (l1 : list Z) (j : nat) (q : proc) (tf pt : Z).
Hypothesis Hk1 : kinv k1 l1.
Hypothesis Hout1 : outside_kept (mem (k_m k)) (mem (k_m k1)) l.
Hypothesis Hj : k_procs k !! j = Some q.
Hypothesis Hq : p_state q = UNUSED.
Let np := new_proc q (k_nextpid k) tf pt.
Hypothesis Hoa : only_alloc k k1 j np.
Hypothesis Hheld1 : held k1 = ProcLock j :: held k.
Hypothesis Hl1 : forall x, x ∈ l <-> x ∈ l1 \/ foot (mem (k_m k1)) np x.

Lemma fork_ne : i <> j.
Proof. intros ->. congruence. Qed.

Lemma fork_parent : k_procs k1 !! i = Some p.
Proof. rewrite (oa_procs _ _ _ _ Hoa). by rewrite list_lookup_insert_ne by (apply not_eq_sym, fork_ne). Qed.

Lemma fork_entry : k_procs k1 !! j = Some np.
Proof. rewrite (oa_procs _ _ _ _ Hoa). apply list_lookup_insert_eq. by eapply lookup_lt_Some. Qed.

Lemma fork_facts : p_pagetable p <> 0 /\ p_trapframe p <> 0 /\ pt <> 0 /\ tf <> 0 /\ p_sz q = 0.
Proof.
  destruct (wf_live _ _ _ (pw_proc _ _ (ki_wf _ _ Hk) i p Hi) Hlive) as (_ & ? & ?).
  destruct (wf_live _ _ _ (pw_proc _ _ (ki_wf _ _ Hk1) j np fork_entry)) as (_ & ? & ?); [done|].
  destruct (wf_unused _ _ _ (pw_proc _ _ (ki_wf _ _ Hk) j q Hj) Hq) as (_ & _ & _ & ? & _). by split_and!.
Qed.

(** The parent's memory is not affected by the allocation. *)
Lemma fork_parent_view : view_eq (ubyte (mem (k_m k)) (p_pagetable p)) (ubyte (mem (k_m k1)) (p_pagetable p)).
Proof.
  destruct fork_facts as (? & _). pose proof (pm_proc _ _ _ (ki_mem _ _ Hk) i p Hi) as Hp.
  eapply view_frame; eauto. intros x Hx _. destruct (foot_valid _ _ _ x Hp Hx). by apply Hout1.
Qed.

Lemma fork_give_up s2 l2 :
  kmem_inv s2 l2 -> mheld s2 = mheld (k_m k1) -> contained (mem (k_m k1)) (mem s2) pt l1 l2 ->
  procs_mem (mem s2) l2 (k_procs k1) ->
  wp (freeproc j >>> lock_release (ProcLock j) >>> ret (-1)) (set_k_m s2 k1)
     (fun rc k' => rc = -1 /\ fork_failed k l k').
Proof.
  intros Hs2 Hh2 [Ho Ha] Hpm2. destruct fork_facts as (_ & _ & Hpt & Htf & Hsz).
  pose proof Hoa as [Ho1 Ho2 Ho3 Ho4 Ho5 Ho6].
  apply wp_bind. eapply wp_mono; [apply (freeproc_spec j np (set_k_m s2 k1) l2); auto; apply fork_entry|].
  cbn beta. intros _ k3 (l3 & Hs3 & Hpm3 & [P1 P2 P3 P4 P5 P6 P7] & Hf3 & Hk3).
  cbn [k_m set_k_m k_procs k_nextpid k_initproc k_cur k_ticks k_files] in *.
  assert (Hh3 : held k3 = ProcLock j :: held k) by (rewrite P7; cbn; by rewrite Hh2).
  apply wp_bind, wp_lock_release; [rewrite Hh3; apply elem_of_cons; by left|]. apply wp_ret. split; [done|].
  rewrite Hh3, filter_ne_cons_self by apply Hnl.
  assert (Heq : forall x, x ∈ l3 <-> x ∈ l).
  { intros x. rewrite (Hf3 x), (Hl1 x). unfold foot. cbn. specialize (Ho x). rewrite !owned_used in Ho. tauto. }
  rewrite Ho1, list_insert_insert_eq in P1.
  exists l3. cbn. split_and!; auto; try congruence.
  - split; cbn; auto.
    + destruct Hs3 as [? ? ? ? Hlk]. split; auto. cbn. intros Hin. apply Hlk.
      change (KmemLock ∈ held k3). rewrite Hh3. apply elem_of_cons. by right.
    + rewrite P1, P2, Ho2. eapply procs_wf_insert; [apply Hk|done|lia| |done].
      pose proof (pw_proc _ _ (ki_wf _ _ Hk) j q Hj) as Hwq. apply cleared_wf; [|apply Hwq..].
      apply (wf_closed _ _ _ Hwq). by left.
    + rewrite P2, Ho2. destruct (ki_pid _ _ Hk). lia.
  - intros x Hv Hx y Hy. rewrite (Hk3 x); auto; [|by rewrite Heq]. rewrite (Ha x); [by apply (Hout1 x)|..|done].
    + by apply is_valid_pa_spec in Hv as [? _].
    + rewrite owned_used. intros Hox. apply Hx, Hl1. destruct Hox; [by left|right; right; by split].
  - right. exists j, q, np. by split_and!.
Qed.

Lemma fork_copied s2 l2 :
  kmem_inv s2 l2 -> mheld s2 = mheld (k_m k1) -> contained (mem (k_m k1)) (mem s2) pt l1 l2 ->
  procs_mem (mem s2) l2 (<[j := set_sz (p_sz p) np]> (k_procs k1)) ->
  view_eq (ubyte (mem (k_m k1)) (p_pagetable p)) (ubyte (mem s2) pt) ->
  copied k l i j p q tf pt (set_k_procs (<[j := set_sz (p_sz p) np]> (k_procs k1)) (set_k_m s2 k1)) l2.
Proof.
  intros Hs2 Hh2 [Ho Ha] Hpm2 Hv2. destruct fork_facts as (_ & _ & Hpt & Htf & _).
  pose proof Hoa as [Ho1 Ho2 Ho3 Ho4 Ho5 Ho6]. split; cbn; auto.
  - by rewrite Ho1, list_insert_insert_eq.
  - by rewrite Hh2.
  - intros x Hv Hx y Hy. rewrite (Ha x); [by apply (Hout1 x)|..|done].
    + by apply is_valid_pa_spec in Hv as [? _].
    + rewrite owned_used. intros Hox. apply Hx, Hl1. destruct Hox; [by left|right; right; by split].
  - intros va Hva. rewrite Hv2 by done. by apply fork_parent_view.
  - split_and!; auto. apply Hl1. right. by left.
Qed.
End prefix.

(** The common beginning of [kfork] and [sys_thread_create]. *)
Lemma fork_prefix k l i p (rest : proc -> proc -> nat -> M (kernel F) Z) (Q : Z -> kernel F -> Prop) :
  kinv k l -> k_procs k !! i = Some p -> p_state p <> UNUSED -> no_proc_locks k -> PidLock ∉ held k ->
  k_nextpid k + 1 < 2 ^ 31 ->
  (forall k', fork_failed k l k' -> Q (-1) k') ->
  (forall j q tf pt k1 l1, k_procs k !! j = Some q -> p_state q = UNUSED -> used_below (k_procs k) j -> i <> j ->
     copied k l i j p q tf pt k1 l1 -> wp (rest p (new_proc q (k_nextpid k) tf pt) j) k1 Q) ->
  wp (r <- allocproc ;;
      match r with
      | None => ret (-1)
      | Some j =>
          p <- getp i ;;
          np <- getp j ;;
          rc <- on_m (uvmcopy (p_pagetable p) (p_pagetable np) (p_sz p)) ;;
          if rc <? 0 then freeproc j >>> lock_release (ProcLock j) >>> ret (-1)
          else setp j (set_sz (p_sz p)) >>> rest p np j
      end) k Q.
Proof.
  intros Hk Hi Hlive Hnl Hpl Hnext Hfail Hrest.
  assert (Hfull : fork_failed k l k -> wp (ret (-1)) k Q) by (intros; apply wp_ret; auto).
  apply wp_bind, (allocproc_spec k l); auto.
  { intros _. apply Hfull. exists l. split_and!; auto. by intros. }
  intros r k1 j q Hj Hq Hub (l1 & Hk1 & Hout & [(-> & Hoa & Hh & Heq)|(tf & pt & -> & Hoa & Hh & Hl1 & Hempty)]).
  { apply wp_ret, Hfail. destruct Hoa. exists l1. split_and!; auto. right. by exists j, q, q. }
  pose proof (fork_parent k i p Hi Hlive k1 j q tf pt Hj Hq Hoa) as Hi1.
  pose proof (fork_entry k k1 j q tf pt Hj Hoa) as Hj1.
  assert (Hne : i <> j) by (intros ->; congruence).
  destruct (fork_facts k l i p Hk Hi Hlive k1 l1 j q tf pt Hk1 Hj Hq Hoa) as (Hpt & Htf & Hnpt & Hntf & Hsz).
  apply wp_bind, (wp_getp i p); [done|]. apply wp_bind, (wp_getp j (new_proc q (k_nextpid k) tf pt)); [done|].
  apply wp_bind, wp_on_m.
  eapply wp_mono; [apply (copy_memory (k_m k1) l1 (k_procs k1) i j p (new_proc q (k_nextpid k) tf pt)); auto; apply Hk1|].
  cbn beta. intros rc s2 (l2 & Hs2 & Hh2 & Hc2 & [(-> & Hpm2 & Hv2)|(-> & Hpm2)]); cbn [Z.ltb Z.compare].
  - apply wp_bind. eapply wp_setp; [exact Hj1|]. cbn [k_procs set_k_m].
    eapply (Hrest j q tf pt); auto. by eapply fork_copied.
  - eapply wp_mono; [by apply (fork_give_up k l i p Hk Hi Hlive Hnl Hnext k1 l1 j q tf pt Hk1 Hout Hj Hq Hoa Hh Hl1 s2 l2)|].
    cbn beta. intros rc k' [-> Hf]. auto.
Qed.

Section tail.
Context (k : kernel F) (l : list Z) (i j : nat) (p q : proc) (tf pt : Z).
Hypothesis Hj : k_procs k !! j = Some q.
Let c0 := set_sz (p_sz p) (new_proc q (k_nextpid k) tf pt).

Lemma copied_entry k1 l1 : copied k l i j p q tf pt k1 l1 -> k_procs k1 !! j = Some c0.
Proof. intros C. rewrite (cp_procs _ _ _ _ _ _ _ _ _ _ C). apply list_lookup_insert_eq. by eapply lookup_lt_Some. Qed.

(** Writing the registers keeps the copy. *)
Lemma copied_write k1 l1 s2 :
  copied k l i j p q tf pt k1 l1 -> tf_written (k_m k1) s2 l1 (k_procs k1) tf ->
  copied k l i j p q tf pt (set_k_m s2 k1) l1.
Proof.
  intros C [W1 W2 W3 W4]. pose proof (copied_entry k1 l1 C) as He.
  destruct C as [C1 C2 C3 C4 C5 C6 C7 C8 C9 C10 C11 (C12 & C13 & C14)].
  pose proof (pm_proc _ _ _ C2 j c0 He) as Hm. destruct (foot_valid _ _ _ tf Hm) as [Hv _]; [by left|].
  apply is_valid_pa_spec in Hv as [Hal _]. split; cbn; auto.
  - by rewrite W3.
  - intros x Hv Hx y Hy. rewrite <- (C10 x Hv Hx y Hy). apply (frame_agree tf x _ _ W4); auto.
    + by apply is_valid_pa_spec in Hv as [? _].
    + intros ->. done.
  - intros va Hva. rewrite <- (C11 va Hva).
    apply (view_frame (mem (k_m k1)) (mem s2) l1 c0); auto. intros x Hx Hne.
    destruct (foot_valid _ _ _ x Hm Hx) as [Hv _]. apply is_valid_pa_spec in Hv as [? _].
    by apply (frame_agree tf x _ _ W4).
Qed.

(** The final states, after files and name have been set and the child has
    been published. *)
Definition child : proc := fork_child p q i (k_nextpid k) tf pt.

Lemma publish_wf k1 l1 :
  kinv k l -> p_state q = UNUSED -> length (p_name q) = 16%nat -> p_state p <> UNUSED ->
  length (p_ofile p) = NOFILE -> copied k l i j p q tf pt k1 l1 ->
  procs_wf (k_nextpid k + 1) (<[j := child]> (k_procs k)).
Proof.
  intros Hk Hq Hn Hp Ho C. destruct (ki_pid _ _ Hk). destruct (cp_nz _ _ _ _ _ _ _ _ _ _ C) as (? & ? & _).
  eapply procs_wf_insert; [apply Hk|done|lia| |by right].
  split; cbn; try done.
  - intros _. split_and!; auto; lia.
  - intros [?|?]; done.
  - by rewrite str_copy_length.
  - apply (wf_kstack _ _ _ (pw_proc _ _ (ki_wf _ _ Hk) j q Hj)).
Qed.
End tail.

Lemma inherit_spec k1 j c p np :
  k_procs k1 !! j = Some c -> p_ofile np = replicate NOFILE 0 -> length (p_ofile p) = NOFILE ->
  files_open (k_files k1) (p_ofile p) ->
  wp (inherit p np j) k1 (fun _ k2 => exists fs, (forall g, fl_open (k_files k1) g -> fl_open fs g) /\
    k2 = set_k_files fs (set_k_procs
      (<[j := set_name (str_copy (p_name np) (p_name p) 16) (set_cwd (p_cwd p) (set_ofile (p_ofile p) c))]>
         (k_procs k1)) k1)).
Proof.
  intros Hc Hnp Hlen Hop. pose proof (lookup_lt_Some _ _ _ Hc) as Hlt. unfold inherit.
  rewrite Hnp, <- Hlen. apply wp_bind. eapply wp_mono; [by apply dup_files_spec|].
  cbn beta. intros r k2 (-> & fs & -> & Hfs). apply wp_bind. eapply wp_setp; [exact Hc|].
  apply wp_bind, wp_on_files. eapply wp_mono; [apply idup_law|].
  cbn beta. intros r fs' (-> & Hfs'). apply wp_bind.
  eapply wp_setp; [cbn; by apply list_lookup_insert_eq|]. cbn [k_procs set_k_files set_k_procs].
  rewrite list_insert_insert_eq. eapply wp_setp; [cbn; by apply list_lookup_insert_eq|].
  cbn [k_procs set_k_files set_k_procs]. rewrite list_insert_insert_eq.
  exists fs'. split; [|by destruct k1]. intros g Hg. by apply Hfs', Hfs.
Qed.

Lemma publish_spec k2 i j c L :
  k_procs k2 !! j = Some c -> held k2 = ProcLock j :: L -> ProcLock j ∉ L -> WaitLock ∉ L ->
  wp (publish i j) k2 (fun rc k3 => rc = p_pid c /\
    k3 = set_held L (set_k_procs (<[j := set_state RUNNABLE (set_parent (Some i) c)]> (k_procs k2)) k2)).
Proof.
  intros Hc Hh HL Hw. pose proof (lookup_lt_Some _ _ _ Hc) as Hlt. unfold publish.
  destruct k2 as [[km kf kh] kp kn ki kc kt kfs].
  cbn [held set_held kernel_locks machine_locks k_m set_k_m mheld mem freelist k_procs] in *. subst kh.
  apply wp_bind, (wp_getp j c); [done|]. apply wp_bind, wp_lock_release; [cbn; apply elem_of_cons; by left|].
  cbn [held set_held kernel_locks machine_locks k_m set_k_m mheld mem freelist k_procs].
  rewrite filter_ne_cons_self by done.
  apply wp_bind, wp_lock_acquire; [done|]. apply wp_bind. eapply wp_setp; [exact Hc|].
  apply wp_bind, wp_lock_release; [cbn; apply elem_of_cons; by left|].
  cbn [held set_held kernel_locks machine_locks k_m set_k_m mheld mem freelist k_procs set_k_procs].
  rewrite filter_ne_cons_self by done.
  apply wp_bind, wp_lock_acquire; [done|]. apply wp_bind.
  eapply wp_setp; [cbn; by apply list_lookup_insert_eq|].
  apply wp_bind, wp_lock_release; [cbn; apply elem_of_cons; by left|].
  cbn [held set_held kernel_locks machine_locks k_m set_k_m mheld mem freelist k_procs set_k_procs].
  rewrite filter_ne_cons_self, list_insert_insert_eq by done. by apply wp_ret.
Qed.

(** From the copy to the result. *)
Lemma fork_done k l i j p q tf pt k1 l1 fs regs rc :
  kinv k l -> k_procs k !! j = Some q -> p_state q = UNUSED -> used_below (k_procs k) j -> p_state p <> UNUSED ->
  length (p_ofile p) = NOFILE -> ProcLock j ∉ held k -> k_nextpid k + 1 < 2 ^ 31 ->
  copied k l i j p q tf pt k1 l1 ->
  (forall g, fl_open (k_files k1) g -> fl_open fs g) ->
  (forall o, 0 <= o < TF_SIZE -> mem (k_m k1) (tf + o) = regs o) -> rc = k_nextpid k ->
  fork_post k l i p regs rc
    (set_held (held k) (set_k_procs (<[j := fork_child p q i (k_nextpid k) tf pt]> (k_procs k)) (set_k_files fs k1))).
Proof.
  intros Hk Hj Hq Hub Hp Ho HL Hn C Hfs Hregs ->. pose proof (copied_entry k l i j p q tf pt Hj k1 l1 C) as He.
  assert (Hwf := publish_wf k l i j p q tf pt Hj k1 l1 Hk Hq
    (wf_name _ _ _ (pw_proc _ _ (ki_wf _ _ Hk) j q Hj)) Hp Ho C).
  destruct C as [C1 C2 C3 C4 C5 C6 C7 C8 C9 C10 C11 (C12 & C13 & C14)]. destruct (ki_pid _ _ Hk).
  exists l1. cbn. split_and!; auto.
  - split; cbn; auto.
    + destruct C1 as [? ? ? ? Hlk]. split; auto. cbn. apply (km_lock _ _ (ki_kmem _ _ Hk)).
    + eapply (procs_mem_same _ _ _ j _ (fork_child p q i (k_nextpid k) tf pt)) in C2; [|exact He|done..].
      by rewrite C3, list_insert_insert_eq in C2.
    + by rewrite C4.
    + lia.
  - right. exists j, q, tf, pt. split_and!; auto. intros g Hg. apply Hfs. by rewrite C8.
Qed.

(** The parent's trapframe is not affected. *)
Lemma parent_regs k l i j p q tf pt k1 l1 o :
  kinv k l -> k_procs k !! i = Some p -> p_state p <> UNUSED -> copied k l i j p q tf pt k1 l1 ->
  0 <= o < TF_SIZE -> mem (k_m k1) (p_trapframe p + o) = mem (k_m k) (p_trapframe p + o).
Proof.
  intros Hk Hi Hlive C Ho. destruct (wf_live _ _ _ (pw_proc _ _ (ki_wf _ _ Hk) i p Hi) Hlive) as (_ & ? & ?).
  destruct (foot_valid _ _ _ (p_trapframe p) (pm_proc _ _ _ (ki_mem _ _ Hk) i p Hi)) as [Hv Hl]; [by left|].
  apply (cp_kept _ _ _ _ _ _ _ _ _ _ C (p_trapframe p)); auto. unfold TF_SIZE, PGSIZE in *. lia.
Qed.

Lemma kfork_spec k l i p :
  kinv k l -> k_cur k = Some i -> k_procs k !! i = Some p -> p_state p <> UNUSED -> no_proc_locks k ->
  PidLock ∉ held k -> WaitLock ∉ held k -> k_nextpid k + 1 < 2 ^ 31 -> files_open (k_files k) (p_ofile p) ->
  wp kfork k (fork_post k l i p (fun o =>
    if (TF_a0 <=? o) && (o <? TF_a0 + 8) then 0 else mem (k_m k) (p_trapframe p + o))).
Proof.
  intros Hk Hcur Hi Hlive Hnl Hpl Hwl Hn Hop. unfold kfork. apply wp_bind, (wp_myproc i); [done|].
  pose proof (pw_proc _ _ (ki_wf _ _ Hk) i p Hi) as Hwp.
  apply (fork_prefix k l i p (kfork_tail i)); auto.
  { intros k'. apply fork_failed_post. }
  intros j q tf pt k1 l1 Hj Hq Hub Hne C. set (np := new_proc q (k_nextpid k) tf pt).
  pose proof (copied_entry k l i j p q tf pt Hj k1 l1 C) as He.
  destruct (cp_nz _ _ _ _ _ _ _ _ _ _ C) as (Htf & Hpt & Htfl).
  unfold kfork_tail. cbn [p_trapframe np new_proc]. apply wp_bind, wp_on_m.
  eapply wp_mono; [by apply (copy_tf (k_m k1) l1 (k_procs k1) j _ (p_trapframe p) (cp_kmem _ _ _ _ _ _ _ _ _ _ C) (cp_mem _ _ _ _ _ _ _ _ _ _ C) He)|].
  cbn beta. intros _ s2 [W2 Hregs2]. pose proof (copied_write k l i j p q tf pt Hj k1 l1 s2 C W2) as C2.
  apply wp_bind, wp_on_m. cbn [k_m set_k_m].
  eapply wp_mono; [apply (store_tf s2 l1 (k_procs k1) j (set_sz (p_sz p) np) TF_a0 0); auto; try apply W2; by vm_compute|].
  cbn beta. intros _ s3 [W3 Hregs3].
  pose proof (copied_write k l i j p q tf pt Hj _ l1 s3 C2 W3) as C3. cbn [set_k_m] in C3.
  apply wp_bind. eapply wp_mono; [apply (inherit_spec _ j (set_sz (p_sz p) np) p np)|].
  { exact He. }
  { apply (wf_closed _ _ _ (pw_proc _ _ (ki_wf _ _ Hk) j q Hj)). by left. }
  { apply Hwp. }
  { cbn. by rewrite (cp_files _ _ _ _ _ _ _ _ _ _ C). }
  cbn beta. intros _ k4 (fs & Hfs & ->). eapply wp_mono.
  { eapply (publish_spec _ i j); [cbn; apply list_lookup_insert_eq; by eapply lookup_lt_Some| |apply Hnl|done].
    apply (cp_held _ _ _ _ _ _ _ _ _ _ C3). }
  cbn beta. intros rc k5 [-> ->].
  pose proof (fork_done k l i j p q tf pt _ l1 fs (fun o => if (TF_a0 <=? o) && (o <? TF_a0 + 8) then 0 else mem (k_m k) (p_trapframe p + o))
    (k_nextpid k) Hk Hj Hq Hub Hlive (wf_ofile _ _ _ Hwp) (Hnl j) Hn C3 Hfs) as Hdone.
  cbn [k_m k_procs set_k_m set_k_procs set_k_files p_pid p_trapframe set_name set_cwd set_ofile set_sz np new_proc] in *.
  rewrite (cp_procs _ _ _ _ _ _ _ _ _ _ C), !list_insert_insert_eq. apply Hdone; [|done].
  intros o Ho. rewrite Hregs3. case_if.
  - apply st_zero. unfold TF_a0 in *. lia.
  - rewrite st_other by (unfold TF_a0 in *; lia). rewrite Hregs2 by done. by eapply parent_regs.
  - rewrite st_other by (unfold TF_a0 in *; lia). rewrite Hregs2 by done. by eapply parent_regs.
Qed.
End fork.
