(* ===== verification/ProcCtl.v ===== *)
(** Process control: [growproc], [wakeup], [kkill], [setkilled], [reparent],
    [sched], [sleep], [yield], [kwait], [kexit] and the scheduler. *)

From S2P Require Import Prelude.
From S2P Require Import Memory.
From S2P Require Import Spinlock.
From S2P Require Import Riscv.
From S2P Require Import Kalloc.
From S2P Require Import PageTable.
From S2P Require Import AddrSpace.
From S2P Require Import Uvm.
From S2P Require Import UserMem.
From S2P Require Import UserCopy.
From S2P Require Import ProcMem.
From S2P Require Import Proc.
From S2P Require Import ProcInv.
From S2P Require Import ProcOps.
From S2P Require Import Fork.

Section ctl.
Context {F : Type} `{FileLayer F} `{LinkerSyms}.
Implicit Types k : kernel F.

(** ** Changes of an entry that keep the invariant *)

(** [p'] may replace [p]: the memory, the pid, and whether the entry is in
    use stay. *)
Record same_core (p p' : proc) : Prop := {
  sc_pt : p_pagetable p' = p_pagetable p;
  sc_tf : p_trapframe p' = p_trapframe p;
  sc_sz : p_sz p' = p_sz p;
  sc_pid : p_pid p' = p_pid p;
  sc_used : p_state p' = UNUSED <-> p_state p = UNUSED;
  sc_zombie : p_state p' = ZOMBIE -> p_state p = ZOMBIE;
  sc_parent : p_state p = UNUSED -> p_parent p' = p_parent p;
  sc_ofile : p_ofile p' = p_ofile p;
  sc_name : p_name p' = p_name p;
  sc_kstack : p_kstack p' = p_kstack p
}.

Lemma same_core_wf n i p p' : proc_wf n i p -> same_core p p' -> proc_wf n i p'.
Proof.
  intros [Hu Hl Hc Ho Hn Hk] [C1 C2 C3 C4 C5 C6 C7 C8 C9 C10]. split.
  - intros E. apply C5 in E. rewrite C1, C2, C3, C4, C7 by done. auto.
  - intros E. rewrite C1, C2, C4. apply Hl. by rewrite <- C5.
  - intros [E|E]; rewrite C8; apply Hc; [left; by apply C5|right; auto].
  - by rewrite C8.
  - by rewrite C9.
  - by rewrite C10.
Qed.

(** Replacing every entry by one with the same core. *)
Lemma procs_mem_map m l ps ps' :
  procs_mem m l ps -> Forall2 same_core ps ps' -> procs_mem m l ps'.
Proof.
  intros [Hp Hd] Hf.
  assert (Hback : forall i p', ps' !! i = Some p' -> exists p, ps !! i = Some p /\ same_core p p').
  { intros i p' Hi. destruct (Forall2_lookup_r _ _ _ _ _ Hf Hi) as (p & ? & ?). eauto. }
  assert (Hfoot : forall p p' q, same_core p p' -> foot m p' q <-> foot m p q).
  { intros p p' q [C1 C2 _ _ _ _ _ _ _ _]. unfold foot. by rewrite C1, C2. }
  split.
  - intros i p' Hi. destruct (Hback i p' Hi) as (p & Hi' & C). specialize (Hp i p Hi').
    unfold proc_mem in *. by rewrite (sc_pt _ _ C), (sc_tf _ _ C), (sc_sz _ _ C).
  - intros i j p' q' x Hne Hi Hj. destruct (Hback i p' Hi) as (p & Hi' & C), (Hback j q' Hj) as (q & Hj' & C').
    rewrite (Hfoot p p'), (Hfoot q q') by done. eauto.
Qed.

Lemma procs_wf_map n ps ps' : procs_wf n ps -> Forall2 same_core ps ps' -> procs_wf n ps'.
Proof.
  intros [Hl Hp Hd] Hf. split.
  - rewrite <- Hl. symmetry. by eapply Forall2_length.
  - intros i p' Hi. destruct (Forall2_lookup_r _ _ _ _ _ Hf Hi) as (p & Hi' & C).
    eapply same_core_wf; eauto.
  - intros i j p' q' Hi Hj Hne Hs. destruct (Forall2_lookup_r _ _ _ _ _ Hf Hi) as (p & Hi' & C).
    destruct (Forall2_lookup_r _ _ _ _ _ Hf Hj) as (q & Hj' & C').
    rewrite (sc_pid _ _ C), (sc_pid _ _ C'). apply (Hd i j); auto. by rewrite <- (sc_used _ _ C).
Qed.

Lemma kinv_map k l ps' : kinv k l -> Forall2 same_core (k_procs k) ps' -> kinv (set_k_procs ps' k) l.
Proof.
  intros [? ? ? ?] Hf. split; cbn; auto; [by eapply procs_mem_map|by eapply procs_wf_map].
Qed.

Lemma same_core_refl p : same_core p p.
Proof. by split. Qed.

Lemma Forall2_core_insert ps i p p' :
  ps !! i = Some p -> same_core p p' -> Forall2 same_core ps (<[i := p']> ps).
Proof.
  intros Hi C. apply Forall2_same_length_lookup. rewrite length_insert. split; [done|].
  intros j x y Hx Hy. destruct (decide (j = i)) as [->|Hne].
  - rewrite list_lookup_insert_eq in Hy by (by eapply lookup_lt_Some). by simplify_eq.
  - rewrite list_lookup_insert_ne in Hy by done. simplify_eq. apply same_core_refl.
Qed.

(** ** Loops that map a function over the table *)

Lemma for_procs_map {A} (body : nat -> M (kernel F) (option A)) (f : nat -> proc -> proc) done k Q :
  length (k_procs k) = NPROC ->
  (forall j p ps, (j < NPROC)%nat -> length ps = NPROC -> ps !! j = Some p -> k_procs k !! j = Some p ->
     wp (body j) (set_k_procs ps k) (fun r k' => r = None /\ k' = set_k_procs (<[j := f j p]> ps) k)) ->
  Q done (set_k_procs (imap f (k_procs k)) k) ->
  wp (for_procs body done) k Q.
Proof.
  intros Hlen Hb HQ.
  apply (wp_for_procs (fun i k' => k' = set_k_procs
    (imap (fun j p => if (j <? i)%nat then f j p else p) (k_procs k)) k)).
  - destruct k as [km ps]. unfold set_k_procs. cbn. f_equal. symmetry.
    apply list_eq. intros j. rewrite list_lookup_imap. by destruct (ps !! j).
  - intros j k' Hj ->. destruct (lookup_lt_is_Some_2 (k_procs k) j) as [p Hp]; [by rewrite Hlen|].
    eapply wp_mono; [apply (Hb j p); auto|].
    + by rewrite length_imap.
    + rewrite list_lookup_imap, Hp. cbn [fmap option_fmap option_map]. by rewrite Nat.ltb_irrefl.
    + cbn beta. intros r k' [-> ->]. f_equal. apply list_eq. intros n.
      destruct (decide (n = j)) as [->|Hne].
      * rewrite list_lookup_insert_eq by (by rewrite length_imap, Hlen). rewrite list_lookup_imap, Hp. cbn [fmap option_fmap option_map].
        by rewrite (proj2 (Nat.ltb_lt j (S j))) by lia.
      * rewrite list_lookup_insert_ne by done. rewrite !list_lookup_imap. destruct (k_procs k !! n); [|done].
        cbn [fmap option_fmap option_map].
        destruct (n <? j)%nat eqn:E1, (n <? S j)%nat eqn:E2; try done;
          rewrite ?Nat.ltb_lt, ?Nat.ltb_ge in *; lia.
  - intros k' ->. replace (imap _ (k_procs k)) with (imap f (k_procs k)); [done|].
    apply list_eq. intros n. rewrite !list_lookup_imap. destruct (k_procs k !! n) eqn:E; [|done].
    cbn [fmap option_fmap option_map].
    rewrite (proj2 (Nat.ltb_lt n NPROC)); [done|]. rewrite <- Hlen. by eapply lookup_lt_Some.
Qed.

(** ** wakeup *)

Definition woken (cur : option nat) (c : channel) (j : nat) (p : proc) : proc :=
  if decide (cur = Some j) then p
  else if decide (p_state p = SLEEPING /\ p_chan p = c) then set_state RUNNABLE p else p.

(** No process lock is held, but perhaps that of the current process. *)
Definition others_unlocked (k : kernel F) : Prop := forall j, k_cur k <> Some j -> ProcLock j ∉ held k.

Lemma wakeup_spec c k (Q : unit -> kernel F -> Prop) :
  length (k_procs k) = NPROC -> others_unlocked k ->
  Q tt (set_k_procs (imap (woken (k_cur k) c) (k_procs k)) k) -> wp (wakeup c) k Q.
Proof.
  intros Hlen Hnl HQ. apply (for_procs_map _ (woken (k_cur k) c)); [done| |done].
  intros j p ps Hj Hps Hp _. apply wp_bind, wp_gets. cbn [k_cur set_k_procs]. unfold woken.
  destruct (decide (k_cur k = Some j)) as [E|E].
  { apply wp_ret. split; [done|]. by rewrite list_insert_id. }
  apply wp_bind, wp_lock_acquire; [by apply Hnl|]. apply wp_bind, (wp_getp j p); [done|].
  set (k1 := set_held _ _). apply wp_bind.
  assert (Hmid : wp (if decide (p_state p = SLEEPING /\ p_chan p = c)
       then setp j (set_state RUNNABLE) else ret tt) k1
    (fun _ k2 => k2 = set_k_procs (<[j := if decide (p_state p = SLEEPING /\ p_chan p = c)
       then set_state RUNNABLE p else p]> ps) k1)).
  { case_decide.
    - by eapply wp_setp.
    - apply wp_ret. by rewrite list_insert_id, set_k_procs_id. }
  eapply wp_mono; [exact Hmid|]. cbn beta. intros _ k2 ->.
  apply wp_bind, wp_lock_release; [cbn; apply elem_of_cons; by left|]. apply wp_ret. split; [done|].
  unfold k1. destruct k as [[km kf kh] kp kn ki kc kt kfs].
  cbn [held set_held kernel_locks machine_locks k_m set_k_m mheld mem freelist set_k_procs k_procs] in *.
  rewrite filter_ne_cons_self by (by apply (Hnl j)). done.
Qed.

Lemma woken_core cur c j p : same_core p (woken cur c j p).
Proof.
  unfold woken. repeat case_decide; auto using same_core_refl. destruct H2 as [E _].
  split; cbn; try done; by rewrite E.
Qed.

Lemma Forall2_imap_core f ps : (forall j p, same_core p (f j p)) -> Forall2 same_core ps (imap f ps).
Proof.
  intros Hf. apply Forall2_same_length_lookup. rewrite length_imap. split; [done|].
  intros j x y Hx. rewrite list_lookup_imap, Hx. cbn. intros [= <-]. apply Hf.
Qed.

(** ** kkill *)

Definition kill_entry (p : proc) : proc :=
  if decide (p_state p = SLEEPING) then set_state RUNNABLE (set_killed 1 p) else set_killed 1 p.

Lemma kill_entry_core p : same_core p (kill_entry p).
Proof.
  unfold kill_entry. case_decide as E; split; cbn; try done; by rewrite E.
Qed.

(** [j] is the first entry with pid [pid]. *)
Definition first_pid (ps : list proc) (pid : Z) (j : nat) (p : proc) : Prop :=
  ps !! j = Some p /\ p_pid p = pid /\
  forall j' p', (j' < j)%nat -> ps !! j' = Some p' -> p_pid p' <> pid.

(** Scans that lock each entry, act on the first that satisfies a test, and
    leave the others alone. *)
Lemma for_procs_first {A} (body : nat -> M (kernel F) (option A)) (test : proc -> bool) done k Q :
  length (k_procs k) = NPROC ->
  (forall j p, (j < NPROC)%nat -> k_procs k !! j = Some p -> test p = false ->
     wp (body j) k (fun r k' => r = None /\ k' = k)) ->
  (forall j p, (j < NPROC)%nat -> k_procs k !! j = Some p -> test p = true ->
     (forall j' p', (j' < j)%nat -> k_procs k !! j' = Some p' -> test p' = false) ->
     wp (body j) k (fun r k' => exists a, r = Some a /\ Q a k')) ->
  ((forall j p, k_procs k !! j = Some p -> test p = false) -> Q done k) ->
  wp (for_procs body done) k Q.
Proof.
  intros Hlen Hno Hyes Hdone.
  apply (wp_for_procs (fun i k' => k' = k /\
    forall j p, (j < i)%nat -> k_procs k !! j = Some p -> test p = false)).
  - split; [done|]. intros. lia.
  - intros j k' Hj [-> Hb]. destruct (lookup_lt_is_Some_2 (k_procs k) j) as [p Hp]; [by rewrite Hlen|].
    destruct (test p) eqn:E.
    + eapply wp_mono; [by apply (Hyes j p)|]. cbn beta. by intros r k' (a & -> & ?).
    + eapply wp_mono; [by apply (Hno j p)|]. cbn beta. intros r k' [-> ->]. split; [done|].
      intros j' p' Hj' Hp'. destruct (decide (j' = j)) as [->|Hne]; [congruence|]. apply (Hb j'); [lia|done].
  - intros k' [-> Hb]. apply Hdone. intros j p Hp. apply (Hb j); [|done].
    rewrite <- Hlen. by eapply lookup_lt_Some.
Qed.

(** Locking an entry, reading it, and unlocking it again. *)
Lemma wp_locked_read {A} j p k (body : proc -> M (kernel F) A) Q :
  ProcLock j ∉ held k -> k_procs k !! j = Some p ->
  wp (body p) (set_held (ProcLock j :: held k) k) Q ->
  wp (lock_acquire (ProcLock j) >>> p <- getp j ;; body p) k Q.
Proof.
  intros Hl Hp Hb. apply wp_bind, wp_lock_acquire; [done|]. by apply wp_bind, (wp_getp j p).
Qed.

Lemma wp_unlock_top {A} lk k (m : M (kernel F) A) Q :
  lk ∉ held k -> wp m k Q -> wp (lock_release lk >>> m) (set_held (lk :: held k) k) Q.
Proof.
  intros Hl Hm. apply wp_bind, wp_lock_release; [cbn; apply elem_of_cons; by left|].
  by rewrite set_held_release.
Qed.

(** Updating the entry under its lock. *)
Lemma wp_unlock_set {A} j ps k (m : M (kernel F) A) Q :
  ProcLock j ∉ held k -> wp m (set_k_procs ps k) Q ->
  wp (lock_release (ProcLock j) >>> m) (set_k_procs ps (set_held (ProcLock j :: held k) k)) Q.
Proof.
  intros Hl Hm. apply wp_bind, wp_lock_release; [cbn; apply elem_of_cons; by left|].
  destruct k as [[km kf kh] kp kn ki kc kt kfs].
  cbn [held set_held kernel_locks machine_locks k_m set_k_m mheld mem freelist set_k_procs k_procs] in *.
  by rewrite filter_ne_cons_self.
Qed.

Lemma kkill_spec pid k (Q : Z -> kernel F -> Prop) :
  length (k_procs k) = NPROC -> no_proc_locks k ->
  (forall j p, first_pid (k_procs k) pid j p ->
     Q 0 (set_k_procs (<[j := kill_entry p]> (k_procs k)) k)) ->
  ((forall j p, k_procs k !! j = Some p -> p_pid p <> pid) -> Q (-1) k) ->
  wp (kkill pid) k Q.
Proof.
  intros Hlen Hnl Hyes Hno. apply (for_procs_first _ (fun p => p_pid p =? pid)); auto.
  - intros j p Hj Hp E. apply (wp_locked_read j p); auto. rewrite E.
    apply wp_unlock_top; [apply Hnl|]. by apply wp_ret.
  - intros j p Hj Hp E Hb. apply (wp_locked_read j p); auto. rewrite E. bool_simp.
    apply wp_bind. eapply wp_setp; [exact Hp|]. cbn [k_procs set_held kernel_locks set_k_m].
    assert (Hf : first_pid (k_procs k) pid j p).
    { split_and!; auto. intros j' p' Hj' Hp'. specialize (Hb j' p' Hj' Hp'). by bool_simp. }
    apply wp_bind. specialize (Hyes j p Hf). unfold kill_entry in Hyes. case_decide.
    + eapply wp_setp; [cbn; apply list_lookup_insert_eq; by eapply lookup_lt_Some|].
      cbn [k_procs set_k_procs]. rewrite list_insert_insert_eq.
      apply (wp_unlock_set j _ k); [apply Hnl|]. apply wp_ret. eauto.
    + apply wp_ret. apply (wp_unlock_set j _ k); [apply Hnl|]. apply wp_ret. eauto.
  - intros Hb. apply Hno. intros j p Hp. specialize (Hb j p Hp). by bool_simp.
Qed.

Lemma killed_spec i p k (Q : Z -> kernel F -> Prop) :
  ProcLock i ∉ held k -> k_procs k !! i = Some p -> Q (p_killed p) k -> wp (killed i) k Q.
Proof.
  intros Hl Hp HQ. unfold killed. apply (wp_locked_read i p); auto.
  apply wp_unlock_top; [done|]. by apply wp_ret.
Qed.

(** ** growproc *)

(** The view after the pages of [lo, hi) have been filled with zeroes. *)
Definition zeroed (perm lo hi : Z) (e e' : uview) : Prop :=
  forall va, 0 <= va < TRAPFRAME ->
    e' va = if (lo <=? va) && (va <? hi) then Some (Z.lor (uperm perm) PTE_V, 0) else e va.

(** ... or unmapped. *)
Definition dropped (lo hi : Z) (e e' : uview) : Prop :=
  forall va, 0 <= va < TRAPFRAME -> e' va = if (lo <=? va) && (va <? hi) then None else e va.

Lemma page_in lo hi va : va_ok lo -> va_ok hi -> 0 <= va < TRAPFRAME ->
  (lo <=? PGROUNDDOWN va) && (PGROUNDDOWN va <? hi) = (lo <=? va) && (va <? hi).
Proof.
  intros [? ?] [? ?] Hva. destruct (page_of va Hva) as [[? ?] _]. pose proof (PGROUNDDOWN_bounds va).
  apply eq_true_iff_eq. rewrite !andb_true_iff, !Z.leb_le, !Z.ltb_lt. unfold PGSIZE in *. split; intros; dlia.
Qed.

Lemma zero_view m m' r l l' lo hi xperm :
  uspace TRAPFRAME m r l -> va_ok lo -> va_ok hi -> 0 <= xperm < 1024 ->
  grow_post TRAPFRAME (zero_fill xperm) m m' r l l' lo hi -> zeroed xperm lo hi (ubyte m r) (ubyte m' r).
Proof.
  intros Hu Hlo Hhi Hx Hg va Hva. destruct (page_of va Hva) as [Hp Hlt]. destruct (page_split va) as [_ Hmod].
  pose proof (gp_map _ _ _ _ _ _ _ _ _ Hg _ Hp) as Hf. rewrite <- (page_in lo hi va) by done.
  unfold ubyte, zero_fill in *. destruct ((lo <=? PGROUNDDOWN va) && (PGROUNDDOWN va <? hi)).
  - destruct Hf as (p & Hxl & _ & Hv & Hz). rewrite Hxl. pose proof (is_valid_pa_pos p Hv).
    pose proof (uperm_range xperm Hx). pose proof (lor_range (uperm xperm) PTE_V ltac:(done) PTE_V_range).
    apply is_valid_pa_spec in Hv as [? _].
    by rewrite mk_pte_PA, Hz, mk_pte_eq, PTE_FLAGS_mk by (done || lia).
  - rewrite Hf. destruct (xlate m r (PGROUNDDOWN va)) as [v|] eqn:E; [|done].
    do 2 f_equal. eapply kept_leaf; [..|exact E|lia]; eauto. apply Hg.
Qed.

Lemma drop_view m m' r l l' lo hi :
  uspace TRAPFRAME m r l -> uspace TRAPFRAME m' r l' -> va_ok lo -> va_ok hi -> hi <= TRAPFRAME ->
  unmap_post m m' r l l' lo hi -> dropped lo hi (ubyte m r) (ubyte m' r).
Proof.
  intros Hu Hu' Hlo Hhi Htop Hp va Hva. destruct (page_of va Hva) as [Hpg Hlt]. destruct (page_split va) as [_ Hmod].
  rewrite <- (page_in lo hi va) by done. unfold ubyte.
  pose proof (un_xlate _ _ _ _ _ _ _ Hp _ Hpg) as Hx. rewrite Hx.
  destruct ((lo <=? PGROUNDDOWN va) && (PGROUNDDOWN va <? hi)) eqn:E; [done|].
  destruct (xlate m r (PGROUNDDOWN va)) as [v|] eqn:Ev; [|done]. do 2 f_equal.
  destruct (us_leaf _ _ _ _ Hu (PGROUNDDOWN va) (PTE2PA v)) as (Hv & _ & Ho); auto.
  { unfold upage. by rewrite Ev. }
  destruct (us_leaf _ _ _ _ Hu' (PGROUNDDOWN va) (PTE2PA v)) as (_ & Hl' & _); auto.
  { unfold upage. by rewrite Hx. }
  apply (un_out _ _ _ _ _ _ _ Hp (PTE2PA v)); auto; [by apply is_valid_pa_spec in Hv as [? _]|lia].
Qed.

Lemma shrink_contained m m' r l l' lo hi :
  shrink_post TRAPFRAME m m' r l l' lo hi -> hi <= TRAPFRAME -> contained m m' r l l'.
Proof.
  intros [Hm Ho Hk] Hhi. split; [done|]. intros q Hq Hn. apply (Hk q); auto.
  - intros ?. apply Hn. by left.
  - intros π Hπ E. apply Hn. right; left. eauto.
  - intros va Hva Hr E. apply Hn. right; right. exists va. split_and!; auto. lia.
Qed.

(** Shrinking keeps the process in order. *)
Lemma proc_space_drop m m' r l l' sz sz' tf :
  proc_space m r l sz tf -> uspace TRAPFRAME m' r l' -> 0 <= sz' <= sz ->
  unmap_post m m' r l l' (PGROUNDUP sz') (PGROUNDUP sz) -> proc_space m' r l' sz' tf.
Proof.
  intros Hps Hu' Hsz Hp. pose proof Hps as [Hu Hsz0 Hab Htf Htr Hsp]. destruct TRAPFRAME_ok as [Ht1 Ht2], TRAMPOLINE_ok as [Ht3 Ht4].
  destruct (PGROUNDUP_props sz) as (Hup & Hb & _); [lia|].
  destruct (PGROUNDUP_props sz') as (Hup' & Hb' & _); [lia|].
  assert (Htop : PGROUNDUP sz <= TRAPFRAME) by (destruct Hup, Ht1; unfold PGSIZE in *; dlia).
  pose proof (un_xlate _ _ _ _ _ _ _ Hp) as Hx. split; auto; [lia|..].
  - intros va Hva Hge H1 H2. rewrite Hx by done. case_if; [done|..]; apply Hab; auto.
    all: destruct Hva, Hup, Hup'; unfold PGSIZE in *; dlia.
  - rewrite Hx by done. cases.
  - rewrite Hx by done. cases.
  - destruct Hsp as [Hv Hl Ho Hm]. assert (Hl' : tf ∉ l').
    { rewrite (un_free _ _ _ _ _ _ _ Hp). intros [?|(va & Hva & Hr & E)]; [done|].
      apply (Hm va); auto. lia. }
    split; auto.
    + intros π Hπ. rewrite (un_page _ _ _ _ _ _ _ Hp) by done. auto.
    + intros va Hva Hlt. rewrite (unmapped_upage _ _ _ _ _ _ Hx Hva). case_if; [done|..]; auto.
Qed.

(** [k'] is [k] but for RAM, the free list and entry [i]; no other process is
    affected. *)
Record private_step (k : kernel F) (l : list Z) (i : nat) (r : Z) (p' : proc) (k' : kernel F) (l' : list Z) : Prop := {
  pv_inv : kinv k' l';
  pv_only : only_proc k k' i p';
  pv_cont : contained (mem (k_m k)) (mem (k_m k')) r l l'
}.

Lemma private_step_intro k l i p sz s' l' :
  kinv k l -> k_procs k !! i = Some p -> p_state p <> UNUSED ->
  kmem_inv s' l' -> mheld s' = mheld (k_m k) -> contained (mem (k_m k)) (mem s') (p_pagetable p) l l' ->
  proc_space (mem s') (p_pagetable p) l' sz (p_trapframe p) ->
  private_step k l i (p_pagetable p) (set_sz sz p) (set_k_procs (<[i := set_sz sz p]> (k_procs k)) (set_k_m s' k)) l'.
Proof.
  intros Hk Hi Hlive Hs' Hh Hc Hps. pose proof (pw_proc _ _ (ki_wf _ _ Hk) i p Hi) as Hw.
  destruct (wf_live _ _ _ Hw Hlive) as (Hpid & Hpt & Htf). split; [split; cbn|split; cbn; auto|done].
  - done.
  - eapply procs_mem_contained; eauto. apply Hk.
  - eapply procs_wf_insert; [apply Hk|done|lia| |by left].
    destruct Hw as [Hu Hl Hcl Ho Hn Hks]. split; cbn; auto. intros E. congruence.
  - apply Hk.
Qed.

Definition grow_result (k : kernel F) (l : list Z) (i : nat) (p : proc) (n rc : Z) (k' : kernel F) : Prop :=
  let e := ubyte (mem (k_m k)) (p_pagetable p) in
  let e' := ubyte (mem (k_m k')) (p_pagetable p) in
  exists l', 
    (rc = -1 /\ 0 < n /\ private_step k l i (p_pagetable p) p k' l' /\ view_eq e e') \/
    (rc = 0 /\ 0 <= n /\ private_step k l i (p_pagetable p) (set_sz (p_sz p + n) p) k' l' /\
     zeroed PTE_W (PGROUNDUP (p_sz p)) (PGROUNDUP (p_sz p + n)) e e') \/
    (rc = 0 /\ n < 0 /\
     let sz' := if p_sz p + n <? 0 then p_sz p else p_sz p + n in
     private_step k l i (p_pagetable p) (set_sz sz' p) k' l' /\
     dropped (PGROUNDUP sz') (PGROUNDUP (p_sz p)) e e').

Lemma set_sz_id p : set_sz (p_sz p) p = p.
Proof. by destruct p. Qed.

Lemma private_step_refl k l i p :
  kinv k l -> k_procs k !! i = Some p -> private_step k l i (p_pagetable p) p k l.
Proof. intros Hk Hi. split; [done|split; auto|apply contained_refl]. by rewrite list_insert_id. Qed.

Section grow.
Context (k : kernel F) (l : list Z) (i : nat) (p : proc) (n : Z).
Hypothesis Hk : kinv k l.
Hypothesis Hcur : k_cur k = Some i.
Hypothesis Hi : k_procs k !! i = Some p.
Hypothesis Hlive : p_state p <> UNUSED.
Hypothesis Hn : - 2 ^ 31 <= n < 2 ^ 31.

Lemma grow_space : proc_space (mem (k_m k)) (p_pagetable p) l (p_sz p) (p_trapframe p).
Proof.
  apply proc_mem_space; [by apply (pm_proc _ _ _ (ki_mem _ _ Hk) i)|].
  by apply (wf_live _ _ _ (pw_proc _ _ (ki_wf _ _ Hk) i p Hi)).
Qed.

Lemma grow_up : 0 < n ->
  wp (if TRAPFRAME <? u64 (p_sz p + n) then ret (-1)
      else
        sz' <- on_m (uvmalloc (p_pagetable p) (p_sz p) (u64 (p_sz p + n)) PTE_W) ;;
        if sz' =? 0 then ret (-1) else setp i (set_sz sz') >>> ret 0) k (grow_result k l i p n).
Proof.
  intros Hpos. pose proof grow_space as Hps. destruct (ps_sz _ _ _ _ _ Hps) as [Hs1 Hs2].
  destruct TRAPFRAME_ok as [Ht1 Ht2]. rewrite MAXVA_eq in Ht2. rewrite u64_id by lia. case_if.
  { apply wp_ret. exists l. left. split_and!; auto using private_step_refl. done. }
  destruct (PGROUNDUP_props (p_sz p)) as (Hup & Hb & _); [rewrite MAXVA_eq; lia|].
  destruct (PGROUNDUP_props (p_sz p + n)) as (Hup' & Hb' & _); [rewrite MAXVA_eq; lia|].
  assert (Htop : PGROUNDUP (p_sz p + n) <= TRAPFRAME) by (destruct Hup', Ht1; unfold PGSIZE in *; dlia).
  apply wp_bind, wp_on_m.
  eapply wp_mono; [apply (uvmalloc_spec TRAPFRAME (p_pagetable p) (p_sz p) (p_sz p + n) PTE_W (k_m k) l); auto|].
  { apply Hk. } { apply Hps. } { lia. } { rewrite MAXVA_eq. lia. } { rewrite MAXVA_eq. lia. } { by vm_compute. }
  { intros va Hva Hr. destruct TRAMPOLINE_ok as [_ ?]. apply (ps_above _ _ _ _ _ Hps); auto; lia. }
  cbn beta. intros rc s' (l' & Hs' & Hu' & Hh & [[-> Hg]|[-> Hq]]).
  - rewrite (proj2 (Z.eqb_neq _ 0)) by lia. apply wp_bind. eapply wp_setp; [exact Hi|]. apply wp_ret.
    exists l'. right; left. split_and!; [done|lia| |].
    + apply (private_step_intro k l i p (p_sz p + n) s' l'); auto; [by apply kept_contained; apply Hg|].
      eapply proc_space_grow; [exact Hps|done|exact Hg|by apply zero_fill_ok|lia|].
      intros va Hva Hr. destruct Hva, Hup'. unfold PGSIZE in *. dlia.
    + eapply zero_view; eauto; [apply Hps|by vm_compute].
  - cbn [Z.eqb]. apply wp_ret. exists l'. left. split_and!; auto.
    + pose proof (private_step_intro k l i p (p_sz p) s' l' Hk Hi Hlive Hs' Hh) as Hstep.
      rewrite set_sz_id, list_insert_id in Hstep by done. rewrite set_k_procs_id in Hstep by done.
      apply Hstep; [by apply kept_contained; apply Hq|by eapply proc_space_quiet].
    + eapply quiet_view; [apply Hps|done].
Qed.

Lemma grow_down : n < 0 ->
  wp (sz' <- on_m (uvmdealloc (p_pagetable p) (p_sz p) (u64 (p_sz p + n))) ;;
      setp i (set_sz sz') >>> ret 0) k (grow_result k l i p n).
Proof.
  intros Hneg. pose proof grow_space as Hps. destruct (ps_sz _ _ _ _ _ Hps) as [Hs1 Hs2].
  destruct TRAPFRAME_ok as [Ht1 Ht2]. rewrite MAXVA_eq in Ht2.
  destruct (PGROUNDUP_props (p_sz p)) as (Hup & Hb & _); [rewrite MAXVA_eq; lia|].
  assert (Htop : PGROUNDUP (p_sz p) <= TRAPFRAME) by (destruct Hup, Ht1; unfold PGSIZE in *; dlia).
  assert (Hmin : Z.min (p_sz p) (u64 (p_sz p + n)) = if p_sz p + n <? 0 then p_sz p else p_sz p + n).
  { unfold u64. cases; dlia. }
  apply wp_bind, wp_on_m.
  eapply wp_mono; [apply (uvmdealloc_spec TRAPFRAME (p_pagetable p) (p_sz p) (u64 (p_sz p + n)) (k_m k) l); auto|].
  { apply Hk. } { apply Hps. } { apply u64_range. } { rewrite MAXVA_eq. lia. } { rewrite MAXVA_eq. lia. }
  cbn beta. rewrite Hmin. set (sz' := if p_sz p + n <? 0 then p_sz p else p_sz p + n).
  assert (Hsz' : 0 <= sz' <= p_sz p) by (unfold sz'; cases).
  intros rc s' (l' & Hs' & Hu' & -> & Hh & Hp). apply wp_bind. eapply wp_setp; [exact Hi|]. apply wp_ret.
  exists l'. right; right. split_and!; auto. split.
  - apply (private_step_intro k l i p sz' s' l'); auto.
    + eapply shrink_contained; [by eapply unmap_shrink|done].
    + by eapply proc_space_drop.
  - destruct (PGROUNDUP_props sz') as (Hup' & _); [rewrite MAXVA_eq; lia|].
    eapply drop_view; eauto. apply Hps.
Qed.

Lemma growproc_spec : wp (growproc n) k (grow_result k l i p n).
Proof.
  unfold growproc. apply wp_bind, (wp_myproc i); [done|]. apply wp_bind, (wp_getp i p); [done|].
  case_if; [by apply grow_up|]. case_if; [by apply grow_down|].
  assert (n = 0) as -> by lia. apply wp_bind. eapply wp_setp; [exact Hi|]. apply wp_ret.
  rewrite set_sz_id, list_insert_id, set_k_procs_id by done.
  exists l. right; left. rewrite Z.add_0_r, set_sz_id. split_and!; [done|lia|by apply private_step_refl|].
  intros va Hva. cases.
Qed.
End grow.

(** ** Copies to and from the memory of a process *)

(** The result of [copyout] to process [i]. *)
Definition copyout_result (k : kernel F) (l : list Z) (i : nat) (p : proc) (dst : Z) (src : list Z)
    (rc : Z) (k' : kernel F) : Prop :=
  exists s' l' n, k' = set_k_m s' k /\ private_step k l i (p_pagetable p) p k' l' /\
    out_to (p_sz p) dst (take n src) (ubyte (mem (k_m k)) (p_pagetable p)) (ubyte (mem s') (p_pagetable p)) /\
    ((rc = 0 /\ n = length src) \/
     (rc = -1 /\ (n < length src)%nat /\
      (dst + Z.of_nat n < TRAPFRAME -> ~ writable (ubyte (mem s') (p_pagetable p)) (dst + Z.of_nat n)))).

Lemma proc_copyout k l i p dst src :
  kinv k l -> k_procs k !! i = Some p -> p_state p <> UNUSED -> 0 <= dst < 2 ^ 64 -> byte_list src ->
  wp (on_m (copyout (pview p) (p_pagetable p) dst src)) k (copyout_result k l i p dst src).
Proof.
  intros Hk Hi Hlive Hd Hb. apply wp_on_m.
  eapply wp_mono; [apply (copyout_spec (p_pagetable p) dst src (k_m k) l (p_sz p) (p_trapframe p)); auto|].
  { apply Hk. } { by eapply grow_space. }
  cbn beta. intros rc s' (l' & Hs' & Hps' & Hh & Hc & n & Ho & Hrc). exists s', l', n. split_and!; auto.
  pose proof (private_step_intro k l i p (p_sz p) s' l' Hk Hi Hlive Hs' Hh Hc Hps') as Hst.
  by rewrite set_sz_id, list_insert_id, set_k_procs_id in Hst by done.
Qed.

Definition copyin_result (k : kernel F) (l : list Z) (i : nat) (p : proc) (src : Z) (len : nat)
    (res : Z * list Z) (k' : kernel F) : Prop :=
  exists s' l', k' = set_k_m s' k /\ private_step k l i (p_pagetable p) p k' l' /\
    lazy_ext (p_sz p) (ubyte (mem (k_m k)) (p_pagetable p)) (ubyte (mem s') (p_pagetable p)) /\
    reads (ubyte (mem s') (p_pagetable p)) src res.2 /\
    ((res.1 = 0 /\ length res.2 = len) \/
     (res.1 = -1 /\ (length res.2 < len)%nat /\
      (src + Z.of_nat (length res.2) < TRAPFRAME ->
       ~ readable (ubyte (mem s') (p_pagetable p)) (src + Z.of_nat (length res.2))))).

Lemma proc_copyin k l i p src len :
  kinv k l -> k_procs k !! i = Some p -> p_state p <> UNUSED -> 0 <= src < 2 ^ 64 ->
  wp (on_m (copyin (pview p) (p_pagetable p) src len)) k (copyin_result k l i p src len).
Proof.
  intros Hk Hi Hlive Hd. apply wp_on_m.
  eapply wp_mono; [apply (copyin_spec (p_pagetable p) src len (k_m k) l (p_sz p) (p_trapframe p)); auto|].
  { apply Hk. } { by eapply grow_space. }
  cbn beta. intros rc s' (l' & Hs' & Hps' & Hh & Hc & Hl & Hr & Hrc). exists s', l'. split_and!; auto.
  pose proof (private_step_intro k l i p (p_sz p) s' l' Hk Hi Hlive Hs' Hh Hc Hps') as Hst.
  by rewrite set_sz_id, list_insert_id, set_k_procs_id in Hst by done.
Qed.
End ctl.
