(* ===== verification/Wait.v ===== *)
(** [kwait], [kexit] and the context switch of proc.c. *)

From S2P Require Import Prelude.
From S2P Require Import Memory.
From S2P Require Import Spinlock.
From S2P Require Import Riscv.
From S2P Require Import Kalloc.
From S2P Require Import PageTable.
From S2P Require Import AddrSpace.
From S2P Require Import Uvm.
From S2P Require Import UserMem.
From S2P Require Import UserCopy.
From S2P Require Import ProcMem.
From S2P Require Import Proc.
From S2P Require Import ProcInv.
From S2P Require Import ProcOps.
From S2P Require Import Fork.
From S2P Require Import ProcCtl.

Lemma bytes32_ok v : byte_list (bytes32 v).
Proof. unfold bytes32, byte_list. rewrite !Forall_cons. split_and!; try apply u8_range. constructor. Qed.

Section wait.
Context {F : Type} `{FileLayer F} `{LinkerSyms}.
Implicit Types k : kernel F.

(** [j] is the first zombie child of [i]. *)
Definition zombie_child (i : nat) (p : proc) : Prop := p_parent p = Some i /\ p_state p = ZOMBIE.

Definition first_zombie (ps : list proc) (i j : nat) (pp : proc) : Prop :=
  ps !! j = Some pp /\ zombie_child i pp /\
  forall j' p', (j' < j)%nat -> ps !! j' = Some p' -> ~ zombie_child i p'.

Definition has_child (ps : list proc) (i : nat) : Prop := exists j p, ps !! j = Some p /\ p_parent p = Some i.

(** The zombie at [j] has been reaped: its entry is free, its pages are on
    the free list. *)
Record reaped (k : kernel F) (l : list Z) (j : nat) (pp : proc) (L : list lockid) (k' : kernel F) (l' : list Z) : Prop := {
  rp_inv : kinv k' l';
  rp_procs : k_procs k' = <[j := cleared pp]> (k_procs k);
  rp_free q : q ∈ l' <-> q ∈ l \/ foot (mem (k_m k)) pp q;
  rp_kept : others_kept (mem (k_m k)) (mem (k_m k')) l';
  rp_held : held k' = L;
  rp_cur : k_cur k' = k_cur k
}.

Lemma reap_spec k l j pp L :
  kinv k l -> k_procs k !! j = Some pp -> p_state pp = ZOMBIE -> held k = WaitLock :: L ->
  ProcLock j ∉ held k -> WaitLock ∉ L ->
  wp (freeproc j >>> lock_release (ProcLock j) >>> lock_release WaitLock >>> ret (inr (inl (p_pid pp)) : (nat * bool) + (Z + bool)))
     (set_held (ProcLock j :: held k) k)
     (fun res k' => res = inr (inl (p_pid pp)) /\ exists l', reaped k l j pp L k' l').
Proof.
  intros Hk Hj Hz Hh Hjl Hw. pose proof (km_lock _ _ (ki_kmem _ _ Hk)) as Hkl.
  pose proof (pw_proc _ _ (ki_wf _ _ Hk) j pp Hj) as Hwp.
  assert (Hk1 : kinv (set_held (ProcLock j :: held k) k) l).
  { apply kinv_set_held; [done|]. by apply not_elem_of_cons. }
  apply wp_bind. eapply wp_mono; [apply (freeproc_spec j pp _ l); [apply Hk1|apply Hk1|done]|].
  cbn beta. intros _ k2 (l2 & Hs2 & Hpm2 & [P1 P2 P3 P4 P5 P6 P7] & Hf2 & Hk2).
  assert (Hh2 : held k2 = ProcLock j :: WaitLock :: L) by (rewrite P7; cbn; by rewrite <- Hh).
  apply wp_bind, wp_lock_release; [rewrite Hh2; apply elem_of_cons; by left|].
  rewrite Hh2, filter_ne_cons_self by (by rewrite <- Hh).
  apply wp_bind, wp_lock_release; [cbn; apply elem_of_cons; by left|]. apply wp_ret. split; [done|].
  rewrite held_set, filter_ne_cons_self, set_held_set by done. exists l2. split; cbn; auto.
  split; cbn; auto.
  - destruct Hs2 as [? ? ? ? Hlk]. split; auto. cbn. intros Hin. apply Hkl. change (KmemLock ∈ held k).
    rewrite Hh. apply elem_of_cons. by right.
  - rewrite P1, P2. eapply procs_wf_insert; [apply Hk|done|cbn; lia| |done].
    apply cleared_wf; [|apply Hwp..]. apply (wf_closed _ _ _ Hwp). by right.
  - rewrite P2. apply Hk.
Qed.

(** The results of a scan of [kwait] with [wait_lock] on top of [L]. *)
Definition scan_result (k : kernel F) (l : list Z) (i : nat) (p : proc) (addr : Z) (L : list lockid)
    (res : Z + bool) (k' : kernel F) : Prop :=
  match res with
  | inr false => k' = k /\ ~ has_child (k_procs k) i
  | inr true => k' = k /\ has_child (k_procs k) i /\
      forall j p', k_procs k !! j = Some p' -> ~ zombie_child i p'
  | inl rc => exists j pp, first_zombie (k_procs k) i j pp /\
      ((addr = 0 /\ rc = p_pid pp /\ exists l', reaped k l j pp L k' l') \/
       (addr <> 0 /\ exists k1 rc1,
          copyout_result (set_held (ProcLock j :: held k) k) l i p addr (bytes32 (p_xstate pp)) rc1 k1 /\
          ((rc1 = 0 /\ rc = p_pid pp /\ exists l1 l', kinv k1 l1 /\ reaped k1 l1 j pp L k' l') \/
           (rc1 = -1 /\ rc = -1 /\ k' = set_held L k1))))
  end.

Section scan.
Context (k : kernel F) (l : list Z) (i : nat) (p : proc) (addr : Z) (L : list lockid).
Hypothesis Hk : kinv k l.
Hypothesis Hi : k_procs k !! i = Some p.
Hypothesis Hlive : p_state p = RUNNING.
Hypothesis Hh : held k = WaitLock :: L.
Hypothesis HL : forall j, ProcLock j ∉ held k.
Hypothesis Hw : WaitLock ∉ L.
Hypothesis Haddr : 0 <= addr < 2 ^ 64.

Lemma scan_zombie j pp :
  first_zombie (k_procs k) i j pp ->
  wp (p <- getp i ;;
      rc <- (if negb (addr =? 0)
             then on_m (copyout (pview p) (p_pagetable p) addr (bytes32 (p_xstate pp)))
             else ret 0) ;;
      if negb (addr =? 0) && (rc <? 0) then
        lock_release (ProcLock j) >>> lock_release WaitLock >>> ret (inr (inl (-1)))
      else
        freeproc j >>>
        lock_release (ProcLock j) >>>
        lock_release WaitLock >>>
        ret (inr (inl (p_pid pp)))) (set_held (ProcLock j :: held k) k)
    (fun (res : (nat * bool) + (Z + bool)) k' => exists res', res = inr res' /\ scan_result k l i p addr L res' k').
Proof.
  intros Hf. pose proof Hf as (Hj & [Hpar Hz] & _). apply wp_bind, (wp_getp i p); [done|].
  apply wp_bind. destruct (addr =? 0) eqn:E; cbn [negb andb]; bool_simp.
  - apply wp_ret. eapply wp_mono; [by apply (reap_spec k l j pp L)|].
    cbn beta. intros res k' [-> Hr]. eexists; split; [done|]. exists j, pp. split; [done|]. left. by split_and!.
  - set (k0 := set_held (ProcLock j :: held k) k).
    assert (Hk0 : kinv k0 l).
    { apply kinv_set_held; [done|]. apply not_elem_of_cons. split; [done|]. apply (km_lock _ _ (ki_kmem _ _ Hk)). }
    eapply wp_mono; [apply (proc_copyout k0 l i p addr (bytes32 (p_xstate pp))); auto using bytes32_ok; congruence|].
    intros rc1 k1 Hc. pose proof Hc as (s1 & l1 & n & -> & Hst & _ & Hrc).
    assert (Hh1 : mheld s1 = ProcLock j :: held k) by (apply (op_held _ _ _ _ (pv_only _ _ _ _ _ _ _ Hst))).
    destruct Hrc as [[-> _]|(-> & _)]; cbn [Z.ltb Z.compare].
    + assert (Hk1 : kinv (set_held (held k) (set_k_m s1 k0)) l1).
      { apply kinv_set_held; [apply Hst|]. apply (km_lock _ _ (ki_kmem _ _ Hk)). }
      pose proof (reap_spec _ l1 j pp L Hk1 Hj Hz Hh (HL j) Hw) as Hr.
      rewrite held_set, set_held_set in Hr.
      assert (Heq : set_held (ProcLock j :: held k) (set_k_m s1 k0) = set_k_m s1 k0).
      { unfold k0. destruct s1 as [? ? ?], k as [[? ? ?] ? ? ? ? ? ?]. cbn in *. by rewrite Hh1. }
      rewrite Heq in Hr. eapply wp_mono; [exact Hr|].
      cbn beta. intros res k' [-> (l' & [R1 R2 R3 R4 R5 R6])]. eexists; split; [done|]. exists j, pp. split; [done|].
      right. split; [done|]. exists (set_k_m s1 k0), 0. split; [done|]. left. split_and!; auto.
      exists l1, l'. split; [apply Hst|]. by split.
    + apply wp_bind, wp_lock_release; [cbn; rewrite Hh1; apply elem_of_cons; by left|].
      cbn [held kernel_locks k_m set_k_m]. rewrite Hh1, filter_ne_cons_self by apply HL.
      apply wp_bind, wp_lock_release; [rewrite held_set, Hh; apply elem_of_cons; by left|]. apply wp_ret.
      rewrite held_set, set_held_set. rewrite Hh, filter_ne_cons_self by done.
      eexists; split; [done|]. exists j, pp. split; [done|]. right. split; [done|].
      exists (set_k_m s1 k0), (-1). split; [done|]. right. by split_and!.
Qed.

Lemma kwait_scan_spec : wp (kwait_scan i addr) k (scan_result k l i p addr L).
Proof.
  unfold kwait_scan. pose proof (pw_len _ _ (ki_wf _ _ Hk)) as Hlen.
  apply (wp_loop (fun '(j, hk) k' => k' = k /\ (j <= NPROC)%nat /\
      (hk = true <-> exists j' p', (j' < j)%nat /\ k_procs k !! j' = Some p' /\ p_parent p' = Some i) /\
      forall j' p', (j' < j)%nat -> k_procs k !! j' = Some p' -> ~ zombie_child i p')
    (fun x => NPROC - x.1)%nat).
  - intros [j hk] k' (-> & Hj & Hhk & Hnz). destruct (j <? NPROC)%nat eqn:E.
    + apply Nat.ltb_lt in E. destruct (lookup_lt_is_Some_2 (k_procs k) j) as [pp Hp]; [by rewrite Hlen|].
      apply wp_bind, (wp_getp j pp); [done|]. destruct (decide (p_parent pp = Some i)) as [Hpar|Hpar].
      * apply (wp_locked_read j pp); auto. destruct (decide (p_state pp = ZOMBIE)) as [Hz|Hz].
        { eapply wp_mono; [by apply (scan_zombie j pp)|].
          cbn beta. intros res k' (res' & -> & Hr). done. }
        apply wp_unlock_top; [apply HL|]. apply wp_ret. cbn [fst]. split; [|lia]. split_and!; auto; try lia.
        -- split; [|done]. intros _. exists j, pp. split_and!; auto; lia.
        -- intros j' p' Hj' Hp' [? ?]. destruct (decide (j' = j)) as [->|?]; [congruence|].
           apply (Hnz j' p'); [lia|done|by split].
      * apply wp_ret. cbn [fst]. split; [|lia]. split_and!; auto; try lia.
        -- rewrite Hhk. split; intros (j' & p' & Hlt & Hp' & ?); exists j', p'; split_and!; auto; try lia.
           destruct (decide (j' = j)) as [->|?]; [congruence|lia].
        -- intros j' p' Hj' Hp' [? ?]. destruct (decide (j' = j)) as [->|?]; [congruence|].
           apply (Hnz j' p'); [lia|done|by split].
    + apply Nat.ltb_ge in E. apply wp_ret.
      assert (Hall : forall j' p', k_procs k !! j' = Some p' -> (j' < j)%nat).
      { intros j' p' Hp'. apply lookup_lt_Some in Hp'. lia. }
      destruct hk; cbn.
      * split_and!; auto; [|eauto]. destruct (proj1 Hhk eq_refl) as (j' & p' & _ & ? & ?). by exists j', p'.
      * split; [done|]. intros (j' & p' & Hp' & ?). assert (Hx : false = true); [|done]. apply Hhk. eauto 6.
  - split_and!; auto; try lia. split; [done|]. intros (? & ? & ? & _). lia.
  - cbn [fst]. lia.
Qed.
End scan.

(** ** kwait *)

(** What [kwait] leaves when it returns. *)
Definition kwait_result (k : kernel F) (l : list Z) (i : nat) (p : proc) (addr rc : Z) (k' : kernel F) : Prop :=
  (exists j pp, first_zombie (k_procs k) i j pp /\
     scan_result (set_held [WaitLock] k) l i p addr [] (inl rc) k') \/
  (rc = -1 /\ k' = k /\ (forall j pp, k_procs k !! j = Some pp -> ~ zombie_child i pp) /\
   (~ has_child (k_procs k) i \/ p_killed p <> 0)).

Section kwait.
Context (swtch : M (kernel F) unit).
Context (k : kernel F) (l : list Z) (i : nat) (p : proc) (addr : Z).
Hypothesis Hk : kinv k l.
Hypothesis Hcur : k_cur k = Some i.
Hypothesis Hi : k_procs k !! i = Some p.
Hypothesis Hlive : p_state p = RUNNING.
Hypothesis Hh : held k = [].
Hypothesis Haddr : 0 <= addr < 2 ^ 64.

Lemma kwait_enter fuel Q :
  wp (kwait_scan i addr) (set_held [WaitLock] k) (fun r k' =>
    wp (match r with
     | inl rc => ret (inr rc)
     | inr havekids =>
         kl <- (if havekids then killed i else ret 0) ;;
         if negb havekids || negb (kl =? 0)
         then lock_release WaitLock >>> ret (inr (-1))
         else sleep swtch (ProcChan i) WaitLock >>> ret (inl tt)
     end) k' (fun r k' => exists rc, r = inr rc /\ Q rc k')) ->
  wp (kwait swtch (S fuel) addr) k Q.
Proof.
  intros Hs. unfold kwait. apply wp_bind, (wp_myproc i); [done|].
  apply wp_bind, wp_lock_acquire; [rewrite Hh; apply not_elem_of_nil|].
  rewrite Hh. cbn [loop]. apply wp_bind, wp_bind. eapply wp_mono; [exact Hs|]. cbn beta.
  intros r k' Hr. eapply wp_mono; [exact Hr|]. cbn beta. intros r' k'' (rc & -> & HQ). by apply wp_ret.
Qed.

(** C12. [kwait] with a zombie child, without children, or in a killed process,
    returns without sleeping: it reaps the first zombie child, giving its pages
    to the free list, clearing its entry and returning its pid, after copying
    the exit status to the address given, if any; a failed copy leaves the child
    a zombie and yields -1.  With no zombie it returns -1 and changes
    nothing. *)
Theorem kwait_reaps fuel :
  ~ (has_child (k_procs k) i /\ p_killed p = 0 /\
     forall j pp, k_procs k !! j = Some pp -> ~ zombie_child i pp) ->
  wp (kwait swtch (S fuel) addr) k (kwait_result k l i p addr).
Proof.
  intros Hnow. set (k1 := set_held [WaitLock] k).
  assert (Hnw : forall j, ProcLock j ∉ held k1).
  { intros j Hin. by apply list_elem_of_singleton in Hin. }
  assert (Hk1 : kinv k1 l).
  { apply kinv_set_held; [done|]. intros Hin. by apply list_elem_of_singleton in Hin. }
  assert (Hback : set_held [] k1 = k).
  { unfold k1. rewrite set_held_set, <- Hh. apply set_held_held. }
  apply kwait_enter. eapply wp_mono; [apply (kwait_scan_spec k1 l i p addr []); auto using not_elem_of_nil|].
  intros [rc|[]] k' Hr.
  - apply wp_ret. exists rc. split; [done|]. left. destruct Hr as (j & pp & Hf & Hr). exists j, pp.
    split; [done|]. by exists j, pp.
  - destruct Hr as (-> & Hc & Hnz). apply wp_bind, (killed_spec i p); [done..|]. cbn [negb orb].
    destruct (p_killed p =? 0) eqn:E; bool_simp; cbn [negb]; [by destruct Hnow|].
    apply wp_bind, wp_lock_release; [by apply list_elem_of_singleton|]. apply wp_ret. exists (-1). split; [done|].
    right. split_and!; auto.
  - destruct Hr as (-> & Hc). apply wp_bind, wp_ret. cbn [negb orb].
    apply wp_bind, wp_lock_release; [by apply list_elem_of_singleton|]. apply wp_ret. exists (-1). split; [done|].
    right. split_and!; auto. intros j pp Hp [? ?]. apply Hc. by exists j, pp.
Qed.
End kwait.
End wait.
