(* ===== verification/Exit.v ===== *)
(** [sched], [sleep], [yield], [reparent] and [kexit] of proc.c: the state in
    which a process leaves the CPU. *)

From S2P Require Import Prelude.
From S2P Require Import Memory.
From S2P Require Import Spinlock.
From S2P Require Import Riscv.
From S2P Require Import Kalloc.
From S2P Require Import PageTable.
From S2P Require Import AddrSpace.
From S2P Require Import Uvm.
From S2P Require Import UserMem.
From S2P Require Import UserCopy.
From S2P Require Import ProcMem.
From S2P Require Import Proc.
From S2P Require Import ProcInv.
From S2P Require Import ProcOps.
From S2P Require Import Fork.
From S2P Require Import ProcCtl.
From S2P Require Import Wait.

Section switch.
Context {F : Type} `{FileLayer F} `{LinkerSyms}.
Context (swtch : M (kernel F) unit).
Implicit Types k : kernel F.

(** ** sched *)

(** The checks of [sched], all passed. *)
Lemma sched_ok k i p :
  k_cur k = Some i -> k_procs k !! i = Some p -> p_state p <> RUNNING -> held k = [ProcLock i] ->
  sched swtch k = swtch k.
Proof.
  intros Hc Hp Hs Hh. unfold sched, bind, myproc, getp, gets, lock_depth. rewrite Hc, Hh.
  rewrite bool_decide_eq_true_2 by (by apply list_elem_of_singleton).
  cbn [negb]. rewrite Hh. change (Z.of_nat (length [ProcLock i]) =? 1) with true. cbn [negb].
  rewrite Hp. by rewrite decide_False.
Qed.

(** [sched] with a second lock held. *)
Lemma sched_locks k i :
  k_cur k = Some i -> ProcLock i ∈ held k -> (1 < length (held k))%nat ->
  sched swtch k = Panic "sched locks".
Proof.
  intros Hc Hin Hn. unfold sched, bind, myproc, gets, lock_depth. rewrite Hc.
  rewrite bool_decide_eq_true_2 by done. cbn [negb].
  destruct (Z.of_nat (length (held k)) =? 1) eqn:E; [bool_simp; lia|done].
Qed.

(** ** sleep and yield *)

(** The kernel with lock set [L] and entry [i] replaced by [p']. *)
Definition at_switch (k : kernel F) (i : nat) (p' : proc) : kernel F :=
  set_held [ProcLock i] (set_k_procs (<[i := p']> (k_procs k)) k).

(** What [sleep] does when it is scheduled again. *)
Definition sleep_rest (i : nat) (lk : lockid) : M (kernel F) unit :=
  setp i (set_chan NoChan) >>> lock_release (ProcLock i) >>> lock_acquire lk.

Lemma sleep_to_switch k i p chan lk :
  k_cur k = Some i -> k_procs k !! i = Some p -> held k = [lk] -> lk <> ProcLock i ->
  sleep swtch chan lk k =
    (swtch >>> sleep_rest i lk) (at_switch k i (set_state SLEEPING (set_chan chan p))).
Proof.
  intros Hc Hp Hh Hlk.
  assert (Hr : reach (sleep swtch chan lk) k (swtch >>> sleep_rest i lk)
    (fun k' => k' = at_switch k i (set_state SLEEPING (set_chan chan p)))); [|by destruct Hr as (k' & -> & E)].
  apply reach_bind, (wp_myproc i); [done|].
  apply reach_bind, wp_lock_acquire; [rewrite Hh; by apply not_elem_of_cons; split; [|apply not_elem_of_nil]|].
  apply reach_bind, wp_lock_release.
  { rewrite held_set, Hh. apply elem_of_cons. right. by apply list_elem_of_singleton. }
  rewrite held_set, Hh, set_held_set, filter_cons_True, filter_cons_False, filter_nil by naive_solver.
  apply reach_bind. eapply wp_setp; [exact Hp|]. apply reach_then.
  eexists; split; [|apply (sched_ok _ i (set_state SLEEPING (set_chan chan p)))].
  - by destruct k as [[? ? ?] ? ? ? ? ? ?].
  - done.
  - cbn. apply list_lookup_insert_eq. by eapply lookup_lt_Some.
  - done.
  - done.
Qed.

(** Scheduled again with its own lock held, [sleep] returns with [lk]. *)
Lemma sleep_rest_ok k i p lk :
  k_procs k !! i = Some p -> held k = [ProcLock i] -> lk <> ProcLock i ->
  sleep_rest i lk k = Ok (tt, set_held [lk] (set_k_procs (<[i := set_chan NoChan p]> (k_procs k)) k)).
Proof.
  intros Hp Hh Hlk.
  assert (Hw : wp (sleep_rest i lk) k (fun u k' => u = tt /\
    k' = set_held [lk] (set_k_procs (<[i := set_chan NoChan p]> (k_procs k)) k))).
  { apply wp_bind. eapply wp_setp; [exact Hp|]. destruct k as [[? ? kh] ? ? ? ? ? ?]. cbn in Hh. subst kh.
    apply wp_bind, wp_lock_release; [by apply list_elem_of_singleton|].
    apply wp_lock_acquire.
    - rewrite held_set. cbn. rewrite decide_False by naive_solver. apply not_elem_of_nil.
    - cbn. rewrite decide_False by naive_solver. done. }
  apply wp_Ok in Hw as ([] & k' & E & _ & ->). done.
Qed.

(** [sleep] gives up the CPU with the process SLEEPING on the channel, the
    caller's lock released and only the lock of the process held, so that no
    [wakeup] is lost in between; back on the CPU it clears the channel and
    returns with the caller's lock held again. *)
Theorem sleep_swaps_locks k i p chan lk :
  k_cur k = Some i -> k_procs k !! i = Some p -> held k = [lk] -> lk <> ProcLock i ->
  let k1 := set_held [ProcLock i] (set_k_procs (<[i := set_state SLEEPING (set_chan chan p)]> (k_procs k)) k) in
  sleep swtch chan lk k = (swtch >>> sleep_rest i lk) k1 /\
  forall k2 p2, k_procs k2 !! i = Some p2 -> held k2 = [ProcLock i] ->
    sleep_rest i lk k2 = Ok (tt, set_held [lk] (set_k_procs (<[i := set_chan NoChan p2]> (k_procs k2)) k2)).
Proof.
  intros Hc Hp Hh Hlk k1. split; [by apply sleep_to_switch|]. intros k2 p2 Hp2 Hh2. by apply sleep_rest_ok.
Qed.

Lemma yield_to_switch k i p :
  k_cur k = Some i -> k_procs k !! i = Some p -> held k = [] ->
  yield swtch k = (swtch >>> lock_release (ProcLock i)) (at_switch k i (set_state RUNNABLE p)).
Proof.
  intros Hc Hp Hh.
  assert (Hr : reach (yield swtch) k (swtch >>> lock_release (ProcLock i))
    (fun k' => k' = at_switch k i (set_state RUNNABLE p))); [|by destruct Hr as (k' & -> & E)].
  apply reach_bind, (wp_myproc i); [done|].
  apply reach_bind, wp_lock_acquire; [rewrite Hh; apply not_elem_of_nil|].
  apply reach_bind. eapply wp_setp; [exact Hp|]. apply reach_then.
  eexists; split; [|apply (sched_ok _ i (set_state RUNNABLE p))]; try done.
  - rewrite Hh. by destruct k as [[? ? ?] ? ? ? ? ? ?].
  - cbn. apply list_lookup_insert_eq. by eapply lookup_lt_Some.
  - cbn. by rewrite <- Hh.
Qed.
End switch.

(** ** reparent *)

Section reparent.
Context {F : Type} `{FileLayer F} `{LinkerSyms}.
Implicit Types k : kernel F.

(** A child of [i] becomes a child of [init]. *)
Definition adopt (i : nat) (init : option nat) (p : proc) : proc :=
  if decide (p_parent p = Some i) then set_parent init p else p.

(** Entry [j] after the entries below [n] have been looked at; [w] says
    whether [init] has been woken. *)
Definition rp_entry (cur : option nat) (i : nat) (init : option nat) (w : bool) (n j : nat) (p : proc) : proc :=
  let p' := if (j <? n)%nat then adopt i init p else p in
  if w then woken cur (proc_chan init) j p' else p'.

Lemma woken_parent cur c j p : p_parent (woken cur c j p) = p_parent p.
Proof. unfold woken. by repeat case_decide. Qed.

Lemma woken_set_parent cur c j x p : woken cur c j (set_parent x p) = set_parent x (woken cur c j p).
Proof. unfold woken. by repeat case_decide. Qed.

Lemma woken_idem cur c j p : woken cur c j (woken cur c j p) = woken cur c j p.
Proof. unfold woken. repeat (case_decide; cbn in * ); try done; by destruct_and?. Qed.

Lemma rp_entry_S cur i init w n j p : j <> n -> rp_entry cur i init w (S n) j p = rp_entry cur i init w n j p.
Proof.
  intros Hne. unfold rp_entry. destruct (j <? n)%nat eqn:E1, (j <? S n)%nat eqn:E2; try done;
    rewrite ?Nat.ltb_lt, ?Nat.ltb_ge in *; lia.
Qed.

Lemma rp_entry_last cur i init w n p :
  rp_entry cur i init w (S n) n p = if w then woken cur (proc_chan init) n (adopt i init p) else adopt i init p.
Proof. unfold rp_entry. by rewrite (proj2 (Nat.ltb_lt n (S n))) by lia. Qed.

Lemma rp_entry_next cur i init w n p :
  rp_entry cur i init w n n p = if w then woken cur (proc_chan init) n p else p.
Proof. unfold rp_entry. by rewrite Nat.ltb_irrefl. Qed.

Lemma rp_entry_wake cur i init w n j p :
  woken cur (proc_chan init) j (rp_entry cur i init w n j p) = rp_entry cur i init true n j p.
Proof. unfold rp_entry. destruct w; [by rewrite woken_idem|done]. Qed.

(** The table after [reparent]. *)
Definition reparented (k : kernel F) (i : nat) (w : bool) : list proc :=
  imap (rp_entry (k_cur k) i (k_initproc k) w NPROC) (k_procs k).

Lemma reparent_spec i k (Q : unit -> kernel F -> Prop) :
  length (k_procs k) = NPROC -> others_unlocked k ->
  (forall w, w = true <-> has_child (k_procs k) i -> Q tt (set_k_procs (reparented k i w) k)) ->
  wp (reparent i) k Q.
Proof.
  intros Hlen Hnl HQ. set (E := rp_entry (k_cur k) i (k_initproc k)).
  apply (wp_for_procs (fun n k' => exists w, k' = set_k_procs (imap (E w n) (k_procs k)) k /\
    (w = true <-> exists j p, (j < n)%nat /\ k_procs k !! j = Some p /\ p_parent p = Some i))).
  - exists false. split; [|split; [done|intros (? & ? & ? & _); lia]].
    replace (imap _ _) with (k_procs k); [by rewrite set_k_procs_id|].
    apply list_eq. intros j. rewrite list_lookup_imap. by destruct (k_procs k !! j).
  - intros n k' Hn (w & -> & Hw). destruct (lookup_lt_is_Some_2 (k_procs k) n) as [p Hp]; [by rewrite Hlen|].
    assert (Hl : imap (E w n) (k_procs k) !! n = Some (E w n n p)) by (by rewrite list_lookup_imap, Hp).
    apply wp_bind, (wp_getp n (E w n n p)); [done|].
    assert (Hpar : p_parent (E w n n p) = p_parent p).
    { unfold E. rewrite rp_entry_next. destruct w; [apply woken_parent|done]. }
    assert (Hbelow : p_parent p <> Some i ->
      (exists j p, (j < n)%nat /\ k_procs k !! j = Some p /\ p_parent p = Some i) <->
      (exists j p, (j < S n)%nat /\ k_procs k !! j = Some p /\ p_parent p = Some i)).
    { intros Hne. split; intros (j & p' & ? & ? & ?); exists j, p'; split_and!; auto.
      destruct (decide (j = n)) as [->|]; [congruence|lia]. }
    rewrite Hpar. destruct (decide (p_parent p = Some i)) as [Hch|Hch].
    + apply wp_bind, wp_gets. apply wp_bind. eapply wp_setp; [exact Hl|]. apply wp_bind.
      apply wakeup_spec; [cbn; by rewrite length_insert, length_imap|done|]. apply wp_ret.
      exists true. split; [|split; [|done]; intros _; exists n, p; split_and!; auto; lia].
      cbn [k_procs set_k_procs k_cur k_initproc].
      match goal with |- _ (imap ?f ?a) _ = _ =>
        change (set_k_procs (imap f a) k = set_k_procs (imap (E true (S n)) (k_procs k)) k) end.
      f_equal. apply list_eq. intros j.
      rewrite !list_lookup_imap. destruct (decide (j = n)) as [->|Hne].
      * rewrite list_lookup_insert_eq by (by rewrite length_imap, Hlen). rewrite Hp.
        cbn [fmap option_fmap option_map]. f_equal. unfold E. rewrite rp_entry_last, rp_entry_next.
        unfold adopt. rewrite decide_True by done. rewrite woken_set_parent.
        destruct w; by rewrite ?woken_idem, woken_set_parent.
      * rewrite list_lookup_insert_ne, list_lookup_imap by done. destruct (k_procs k !! j); [|done].
        cbn [fmap option_fmap option_map]. f_equal. unfold E. by rewrite rp_entry_wake, rp_entry_S.
    + apply wp_ret. exists w. split; [|by rewrite Hw, Hbelow]. f_equal. apply list_eq. intros j.
      rewrite !list_lookup_imap. destruct (k_procs k !! j) eqn:Ej; [|done]. cbn [fmap option_fmap option_map].
      f_equal. unfold E. destruct (decide (j = n)) as [->|Hne]; [|by rewrite rp_entry_S].
      rewrite rp_entry_last, rp_entry_next. simplify_eq. unfold adopt. by rewrite decide_False.
  - intros k' (w & -> & Hw). apply HQ. rewrite Hw. split.
    + intros (j & p & _ & ? & ?). by exists j, p.
    + intros (j & p & Hp & ?). exists j, p. split_and!; auto. rewrite <- Hlen. by eapply lookup_lt_Some.
Qed.

Lemma same_core_trans p1 p2 p3 : same_core p1 p2 -> same_core p2 p3 -> same_core p1 p3.
Proof.
  intros [A1 A2 A3 A4 A5 A6 A7 A8 A9 A10] [B1 B2 B3 B4 B5 B6 B7 B8 B9 B10]. split; try congruence.
  - by rewrite B5.
  - auto.
  - intros E. rewrite B7, A7; [done..|]. by apply A5.
Qed.

Lemma rp_entry_core cur i init w n j p :
  (p_state p = UNUSED -> p_parent p = None) -> same_core p (rp_entry cur i init w n j p).
Proof.
  intros Hu. assert (Ha : same_core p (adopt i init p)).
  { unfold adopt. case_decide as E; [|apply same_core_refl]. split; cbn; try done.
    intros Es. rewrite (Hu Es) in E. done. }
  unfold rp_entry. destruct (j <? n)%nat, w; auto using woken_core, same_core_refl.
  eapply same_core_trans; [exact Ha|apply woken_core].
Qed.

Lemma rp_entry_parent cur i init w n j p :
  (j < n)%nat -> p_parent (rp_entry cur i init w n j p) = if decide (p_parent p = Some i) then init else p_parent p.
Proof.
  intros Hj. unfold rp_entry. rewrite (proj2 (Nat.ltb_lt j n) Hj). unfold adopt.
  destruct w; rewrite ?woken_parent; by case_decide.
Qed.

Lemma rp_entry_cur i init w n j p :
  rp_entry (Some j) i init w n j p = if (j <? n)%nat then adopt i init p else p.
Proof. unfold rp_entry, woken. destruct w; [by rewrite decide_True|done]. Qed.
End reparent.

(** ** kexit *)

(** What a call into the file layer that may sleep leaves of the caller's
    own entry: others may kill it, or give it another parent. *)
Record same_private (p p' : proc) : Prop := {
  sp_core : same_core p p';
  sp_state : p_state p' = p_state p;
  sp_cwd : p_cwd p' = p_cwd p
}.

(** [k'] is [k] after process [i] has perhaps slept: the other processes have
    moved on, the invariant holds, and [i] has its CPU and locks back. *)
Record calm {F} `{FileLayer F} `{LinkerSyms} (i : nat) (p : proc) (k k' : kernel F) : Prop := {
  cm_inv : exists l', kinv k' l';
  cm_held : held k' = held k;
  cm_cur : k_cur k' = k_cur k;
  cm_init : k_initproc k' = k_initproc k;
  cm_self : exists p', k_procs k' !! i = Some p' /\ same_private p p'
}.

(** What [kexit] relies on of file.c, fs.c and log.c.  [fl_owns s fs c]: the
    references that the descriptors [fs] (0 where closed) and the directory
    [c] stand for are counted in [s]; [fl_intx s]: a system call of the log
    is under way. *)
Class ExitLaws (F : Type) `{FileLayer F} `{LinkerSyms} := {
  fl_owns : F -> list Z -> Z -> Prop;
  fl_intx : F -> Prop;
  fileclose_law i p k l fs c fd f :
    kinv k l -> k_cur k = Some i -> k_procs k !! i = Some p -> p_state p = RUNNING -> held k = [] ->
    fl_owns (k_files k) fs c -> fs !! fd = Some f -> f <> 0 ->
    wp (fileclose f) k (fun _ k' => calm i p k k' /\ fl_owns (k_files k') (<[fd := 0]> fs) c);
  begin_op_law i p k l fs c :
    kinv k l -> k_cur k = Some i -> k_procs k !! i = Some p -> p_state p = RUNNING -> held k = [] ->
    fl_owns (k_files k) fs c ->
    wp begin_op k (fun _ k' => calm i p k k' /\ fl_owns (k_files k') fs c /\ fl_intx (k_files k'));
  iput_law i p k l fs c :
    kinv k l -> k_cur k = Some i -> k_procs k !! i = Some p -> p_state p = RUNNING -> held k = [] ->
    fl_owns (k_files k) fs c -> fl_intx (k_files k) ->
    wp (iput c) k (fun _ k' => calm i p k k' /\ fl_owns (k_files k') fs 0 /\ fl_intx (k_files k'));
  end_op_law i p k l fs c :
    kinv k l -> k_cur k = Some i -> k_procs k !! i = Some p -> p_state p = RUNNING -> held k = [] ->
    fl_owns (k_files k) fs c -> fl_intx (k_files k) ->
    wp end_op k (fun _ k' => calm i p k k' /\ fl_owns (k_files k') fs c)
}.

Section kexit.
Context {F : Type} `{ExitLaws F}.
Context (swtch : M (kernel F) unit).
Implicit Types k : kernel F.

(** Replacing a live entry by one with the same memory and pid. *)
Lemma kinv_set_live k l i p p' :
  kinv k l -> k_procs k !! i = Some p -> p_state p <> UNUSED -> p_state p' <> UNUSED ->
  p_pagetable p' = p_pagetable p -> p_trapframe p' = p_trapframe p -> p_sz p' = p_sz p -> p_pid p' = p_pid p ->
  (p_state p' = ZOMBIE -> p_ofile p' = replicate NOFILE 0) -> length (p_ofile p') = NOFILE ->
  p_name p' = p_name p -> p_kstack p' = p_kstack p ->
  kinv (set_k_procs (<[i := p']> (k_procs k)) k) l.
Proof.
  intros [K1 K2 K3 K4] Hi Hs Hs' Ept Etf Esz Epid Hz Ho En Ek. pose proof (pw_proc _ _ K3 i p Hi) as Hw.
  split; cbn; auto.
  - by apply (procs_mem_same _ _ _ i p).
  - eapply procs_wf_insert; [exact K3|exact Hi|lia| |auto]. split; try done.
    + intros _. rewrite Epid, Ept, Etf. by apply (wf_live _ _ _ Hw).
    + intros [?|?]; [done|auto].
    + rewrite En. apply (wf_name _ _ _ Hw).
    + rewrite Ek. apply (wf_kstack _ _ _ Hw).
Qed.

(** The identity, memory and directory of a process. *)
Record still (p p' : proc) : Prop := {
  st_cwd : p_cwd p' = p_cwd p;
  st_pid : p_pid p' = p_pid p;
  st_pt : p_pagetable p' = p_pagetable p;
  st_tf : p_trapframe p' = p_trapframe p;
  st_sz : p_sz p' = p_sz p
}.

(** Process [i] is running kernel code without locks, its entry being [p];
    it holds references to its open files and to the directory [c]. *)
Record running (k : kernel F) (i : nat) (init : option nat) (p : proc) (c : Z) : Prop := {
  ru_inv : exists l, kinv k l;
  ru_cur : k_cur k = Some i;
  ru_self : k_procs k !! i = Some p;
  ru_state : p_state p = RUNNING;
  ru_held : held k = [];
  ru_init : k_initproc k = init;
  ru_owns : fl_owns (k_files k) (p_ofile p) c
}.

(** A call into the file layer keeps a process running. *)
Lemma calm_running k k' i init p c :
  running k i init p c -> calm i p k k' ->
  exists p' l', k_procs k' !! i = Some p' /\ kinv k' l' /\ same_private p p' /\
    k_cur k' = Some i /\ k_initproc k' = init /\ held k' = [] /\ p_state p' = RUNNING.
Proof.
  intros R [[l' Hk'] Hh Hc Hin (p' & Hp' & Hsp)]. exists p', l'. split_and!; auto.
  - rewrite Hc. apply R.
  - rewrite Hin. apply R.
  - rewrite Hh. apply R.
  - rewrite (sp_state _ _ Hsp). apply R.
Qed.

Lemma still_private p p' : same_private p p' -> still p p'.
Proof. intros [[? ? ? ? ? ? ? ? ? ?] _ ?]. by split. Qed.

Lemma still_trans p1 p2 p3 : still p1 p2 -> still p2 p3 -> still p1 p3.
Proof. intros [? ? ? ? ?] [? ? ? ? ?]. split; congruence. Qed.

(** Closing one descriptor. *)
Lemma close_one k i init p c fd f :
  running k i init p c -> p_ofile p !! fd = Some f -> f <> 0 ->
  wp (fileclose f >>> setp i (fun p => set_ofile (<[fd := 0]> (p_ofile p)) p)) k (fun _ k' =>
    exists p', running k' i init p' c /\ still p p' /\ p_ofile p' = <[fd := 0]> (p_ofile p)).
Proof.
  intros R Hfd Hf. pose proof R as [[l Hk] Hc Hi Hs Hh Hin Hown]. apply wp_bind.
  eapply wp_mono; [by apply (fileclose_law i p k l (p_ofile p) c fd f)|].
  intros _ k' [Hcalm Hown']. destruct (calm_running _ _ _ _ _ _ R Hcalm) as (p' & l' & Hp' & Hk' & Hsp & ? & ? & ? & Hs').
  pose proof (sp_core _ _ Hsp) as Hco. eapply wp_setp; [exact Hp'|].
  exists (set_ofile (<[fd := 0]> (p_ofile p')) p'). split_and!.
  - split; cbn; auto.
    + exists l'. apply (kinv_set_live k' l' i p'); auto; cbn; try congruence.
      rewrite length_insert. apply (wf_ofile _ _ _ (pw_proc _ _ (ki_wf _ _ Hk') i p' Hp')).
    + apply list_lookup_insert_eq. by eapply lookup_lt_Some.
    + by rewrite (sc_ofile _ _ Hco).
  - destruct (still_private _ _ Hsp). by split.
  - cbn. by rewrite (sc_ofile _ _ Hco).
Qed.

Lemma close_files_spec k i init p c :
  running k i init p c ->
  wp (close_files i) k (fun _ k' => exists p', running k' i init p' c /\ still p p' /\ p_ofile p' = replicate NOFILE 0).
Proof.
  intros R. unfold close_files.
  apply (wp_loop (fun fd k' => exists p', running k' i init p' c /\ still p p' /\ (fd <= NOFILE)%nat /\
      forall n, (n < fd)%nat -> p_ofile p' !! n = Some 0) (fun fd => NOFILE - fd)%nat).
  - intros fd k' (p' & R' & Hst & Hfd & Hz). pose proof R' as [[l' Hk'] Hc' Hi' Hs' Hh' Hin' Hown'].
    pose proof (wf_ofile _ _ _ (pw_proc _ _ (ki_wf _ _ Hk') i p' Hi')) as Hlen.
    destruct (fd <? NOFILE)%nat eqn:E.
    + apply Nat.ltb_lt in E. apply wp_bind, (wp_getp i p'); [done|].
      destruct (lookup_lt_is_Some_2 (p_ofile p') fd) as [f Hf]; [by rewrite Hlen|]. rewrite Hf.
      apply wp_bind. destruct (f =? 0) eqn:Ef; bool_simp; cbn [negb].
      * apply wp_ret, wp_ret. split; [|lia]. exists p'. split_and!; auto. intros n Hn.
        destruct (decide (n = fd)) as [->|]; [congruence|apply Hz; lia].
      * eapply wp_mono; [by apply (close_one k' i init p' c fd f)|]. cbn beta.
        intros _ k2 (p2 & R2 & Hst2 & Eo). apply wp_ret. split; [|lia]. exists p2.
        split_and!; auto; [by eapply still_trans|]. intros n Hn. rewrite Eo.
        destruct (decide (n = fd)) as [->|]; [apply list_lookup_insert_eq; lia|].
        rewrite list_lookup_insert_ne by done. apply Hz. lia.
    + apply Nat.ltb_ge in E. apply wp_ret. exists p'. split_and!; auto. apply list_eq. intros n.
      destruct (decide (n < NOFILE)%nat) as [Hn|Hn].
      * rewrite Hz by lia. symmetry. by apply lookup_replicate_2.
      * rewrite !lookup_ge_None_2; rewrite ?length_replicate; [done|lia..].
  - exists p. split_and!; auto; [by split|lia|]. intros n Hn. lia.
  - lia.
Qed.

(** Letting go of the current directory. *)
Lemma drop_cwd_spec k i init p :
  running k i init p (p_cwd p) ->
  wp begin_op k (fun _ k1 => exists p1, k_procs k1 !! i = Some p1 /\
    wp (iput (p_cwd p1)) k1 (fun _ k2 => wp end_op k2 (fun _ k3 => exists p3,
      running k3 i init p3 0 /\ still p p3 /\ p_ofile p3 = p_ofile p))).
Proof.
  intros R. pose proof R as [[l Hk] Hc Hi Hs Hh Hin Hown].
  eapply wp_mono; [by apply (begin_op_law i p k l (p_ofile p) (p_cwd p))|].
  intros _ k1 (C1 & O1 & X1). destruct (calm_running _ _ _ _ _ _ R C1) as (p1 & l1 & P1 & K1 & S1 & ? & ? & ? & ?).
  exists p1. split; [done|]. rewrite (sp_cwd _ _ S1).
  assert (R1 : running k1 i init p1 (p_cwd p)).
  { split; eauto. by rewrite (sc_ofile _ _ (sp_core _ _ S1)). }
  eapply wp_mono; [apply (iput_law i p1 k1 l1 (p_ofile p1) (p_cwd p)); auto; apply R1|].
  intros _ k2 (C2 & O2 & X2). destruct (calm_running _ _ _ _ _ _ R1 C2) as (p2 & l2 & P2 & K2 & S2 & ? & ? & ? & ?).
  assert (R2 : running k2 i init p2 0).
  { split; eauto. by rewrite (sc_ofile _ _ (sp_core _ _ S2)). }
  eapply wp_mono; [apply (end_op_law i p2 k2 l2 (p_ofile p2) 0); auto; apply R2|].
  intros _ k3 (C3 & O3). destruct (calm_running _ _ _ _ _ _ R2 C3) as (p3 & l3 & P3 & K3 & S3 & ? & ? & ? & ?).
  exists p3. split_and!.
  - split; eauto. by rewrite (sc_ofile _ _ (sp_core _ _ S3)).
  - apply (still_trans p p1); [|apply (still_trans p1 p2)]; by apply still_private.
  - by rewrite (sc_ofile _ _ (sp_core _ _ S3)), (sc_ofile _ _ (sp_core _ _ S2)), (sc_ofile _ _ (sp_core _ _ S1)).
Qed.

(** The state in which process [i] leaves the CPU for the last time. *)
Record exited (k : kernel F) (i : nat) (p : proc) (status : Z) (k' : kernel F) : Prop := {
  ex_inv : exists l', kinv k' l';
  ex_held : held k' = [ProcLock i];
  ex_init : k_initproc k' = k_initproc k;
  ex_self : exists p', k_procs k' !! i = Some p' /\ p_state p' = ZOMBIE /\ p_xstate p' = status /\
    p_ofile p' = replicate NOFILE 0 /\ p_cwd p' = 0 /\ p_pid p' = p_pid p /\
    p_pagetable p' = p_pagetable p /\ p_trapframe p' = p_trapframe p /\ p_sz p' = p_sz p /\
    forall j q, p_parent p' = Some j -> j <> i -> k_procs k' !! j = Some q ->
      ~ (p_state q = SLEEPING /\ p_chan q = ProcChan j);
  ex_orphans : forall j q, k_procs k' !! j = Some q -> p_parent q <> Some i;
  ex_files : fl_owns (k_files k') (replicate NOFILE 0) 0
}.

(** The end of [kexit]: hand the children to [init], wake the parent, become
    a zombie. *)
Definition exit_tail {A} (i : nat) (status : Z) : M (kernel F) A :=
  lock_acquire WaitLock >>>
  reparent i >>>
  p <- getp i ;;
  wakeup (proc_chan (p_parent p)) >>>
  lock_acquire (ProcLock i) >>>
  setp i (fun p => set_state ZOMBIE (set_xstate status p)) >>>
  lock_release WaitLock >>>
  sched swtch >>>
  panic "zombie exit".

(** The table after [reparent] and the [wakeup] of the parent. *)
Definition exit_procs (ps : list proc) (i : nat) (init : option nat) (p : proc) (w : bool) : list proc :=
  imap (woken (Some i) (proc_chan (p_parent (adopt i init p)))) (imap (rp_entry (Some i) i init w NPROC) ps).

Section tail.
Context (k : kernel F) (l : list Z) (i : nat) (init : option nat) (p : proc) (w : bool).
Hypothesis Hk : kinv k l.
Hypothesis Hi : k_procs k !! i = Some p.
Hypothesis Hlive : p_state p = RUNNING.

Lemma exit_rp_self : imap (rp_entry (Some i) i init w NPROC) (k_procs k) !! i = Some (adopt i init p).
Proof.
  rewrite list_lookup_imap, Hi. cbn [fmap option_fmap option_map]. rewrite rp_entry_cur.
  rewrite (proj2 (Nat.ltb_lt i NPROC)); [done|]. rewrite <- (pw_len _ _ (ki_wf _ _ Hk)). by eapply lookup_lt_Some.
Qed.

Lemma exit_procs_self : exit_procs (k_procs k) i init p w !! i = Some (adopt i init p).
Proof.
  unfold exit_procs. rewrite list_lookup_imap, exit_rp_self. cbn. unfold woken. by rewrite decide_True.
Qed.

Lemma exit_procs_core : Forall2 same_core (k_procs k) (exit_procs (k_procs k) i init p w).
Proof.
  apply Forall2_same_length_lookup. unfold exit_procs. split; [by rewrite !length_imap|].
  intros j q q' Hq. rewrite !list_lookup_imap, Hq. cbn. intros [= <-].
  eapply same_core_trans; [|apply woken_core]. apply rp_entry_core.
  intros E. by apply (wf_unused _ _ _ (pw_proc _ _ (ki_wf _ _ Hk) j q Hq)).
Qed.

Lemma exit_procs_parent j q : init <> Some i ->
  exit_procs (k_procs k) i init p w !! j = Some q -> p_parent q <> Some i.
Proof.
  intros Hne. unfold exit_procs. rewrite !list_lookup_imap. destruct (k_procs k !! j) as [q0|] eqn:E; [|done].
  cbn. intros [= <-]. rewrite woken_parent, rp_entry_parent; [by case_decide|].
  rewrite <- (pw_len _ _ (ki_wf _ _ Hk)). by eapply lookup_lt_Some.
Qed.

Lemma exit_procs_woken j q :
  p_parent (adopt i init p) = Some j -> j <> i -> exit_procs (k_procs k) i init p w !! j = Some q ->
  ~ (p_state q = SLEEPING /\ p_chan q = ProcChan j).
Proof.
  intros Hp Hne. unfold exit_procs. rewrite Hp, !list_lookup_imap. destruct (k_procs k !! j) as [q0|]; [|done].
  cbn [fmap option_fmap option_map proc_chan]. intros [= <-]. unfold woken.
  rewrite decide_False by congruence. case_decide as Ed; cbn; [|done]. by intros [? _].
Qed.

Lemma exit_final status :
  p_ofile p = replicate NOFILE 0 -> p_cwd p = 0 -> fl_owns (k_files k) (p_ofile p) 0 -> init <> Some i ->
  held k = [] -> exited k i p status
    (at_switch (set_k_procs (exit_procs (k_procs k) i init p w) k) i
       (set_state ZOMBIE (set_xstate status (adopt i init p)))).
Proof.
  intros Hof Hcwd Hown Hne Hh. set (ps := exit_procs (k_procs k) i init p w).
  assert (Ha : same_core p (adopt i init p) /\ p_cwd (adopt i init p) = p_cwd p /\ p_state (adopt i init p) = p_state p).
  { unfold adopt. case_decide; split_and!; auto using same_core_refl. split; cbn; try done. congruence. }
  destruct Ha as (Hco & Hcw & Hst). pose proof exit_procs_self as Hs. fold ps in Hs.
  assert (Hlt : (i < length ps)%nat) by (by eapply lookup_lt_Some).
  split; try done.
  - exists l. apply kinv_set_held; [|apply not_elem_of_cons; split; [done|apply not_elem_of_nil]].
    apply (kinv_set_live (set_k_procs ps k) l i (adopt i init p)); try done; cbn; try congruence.
    + apply kinv_map; [done|apply exit_procs_core].
    + intros _. by rewrite (sc_ofile _ _ Hco).
    + rewrite (sc_ofile _ _ Hco), Hof. apply length_replicate.
  - eexists. cbn. split; [by apply list_lookup_insert_eq|]. cbn. split_and!; auto.
    + by rewrite (sc_ofile _ _ Hco).
    + congruence.
    + apply Hco.
    + apply Hco.
    + apply Hco.
    + apply Hco.
    + intros j q Hp Hne' Hq. rewrite list_lookup_insert_ne in Hq by done. by apply exit_procs_woken.
  - cbn. intros j q Hq. destruct (decide (j = i)) as [->|Hji].
    + rewrite list_lookup_insert_eq in Hq by done. injection Hq as <-. by apply (exit_procs_parent i (adopt i init p)).
    + rewrite list_lookup_insert_ne in Hq by done. by apply (exit_procs_parent j).
  - change (fl_owns (k_files k) (replicate NOFILE 0) 0). by rewrite <- Hof.
Qed.
End tail.

Lemma exit_tail_reach {A} k i init p status :
  running k i init p 0 -> p_ofile p = replicate NOFILE 0 -> p_cwd p = 0 -> init <> Some i ->
  reach (exit_tail (A := A) i status) k (swtch >>> panic "zombie exit") (exited k i p status).
Proof.
  intros [[l Hk] Hc Hi Hs Hh Hin Hown] Hof Hcwd Hne. unfold exit_tail.
  pose proof (pw_len _ _ (ki_wf _ _ Hk)) as Hlen.
  apply reach_bind, wp_lock_acquire; [rewrite Hh; apply not_elem_of_nil|]. rewrite Hh.
  apply reach_bind, reparent_spec; [done|intros j _ Hj; by apply list_elem_of_singleton in Hj|].
  cbn [k_procs set_held kernel_locks set_k_m k_initproc]. intros w _. unfold reparented.
  cbn [k_procs set_held kernel_locks set_k_m k_initproc k_cur]. rewrite Hc, Hin.
  apply reach_bind, (wp_getp i (adopt i init p)); [by apply (exit_rp_self k l)|].
  apply reach_bind, wakeup_spec;
    [cbn; by rewrite length_imap|intros j _ Hj; by apply list_elem_of_singleton in Hj|].
  cbn [k_procs set_k_procs set_held kernel_locks set_k_m k_cur]. rewrite Hc.
  fold (exit_procs (k_procs k) i init p w). set (ps := exit_procs (k_procs k) i init p w).
  assert (Hps : ps !! i = Some (adopt i init p)) by (by apply (exit_procs_self k l)).
  apply reach_bind, wp_lock_acquire; [intros Hj; by apply list_elem_of_singleton in Hj|].
  apply reach_bind. eapply wp_setp; [exact Hps|]. apply reach_bind, wp_lock_release.
  { apply elem_of_cons. right. by apply list_elem_of_singleton. }
  apply reach_then. set (pz := set_state ZOMBIE (set_xstate status (adopt i init p))).
  match goal with |- reach _ ?k0 _ _ => assert (Ek : k0 = at_switch (set_k_procs ps k) i pz) end.
  { destruct k as [[km kf kh] kp kn ki kc kt kfs]. cbn in Hh. subst kh. reflexivity. }
  rewrite Ek. clear Ek.
  eexists; split; [|apply (sched_ok swtch _ i pz)]; try done;
    [by apply (exit_final k l i init p w)|apply list_lookup_insert_eq; by eapply lookup_lt_Some].
Qed.

End kexit.
