(* ===== verification/Syscall.v ===== *)
(** syscall.c, sysproc.c and sysproc_custom.c: the arguments of a system call,
    its dispatch, and the calls on processes, the custom ones included. *)

From S2P Require Import Prelude.
From S2P Require Import Memory.
From S2P Require Import Spinlock.
From S2P Require Import Riscv.
From S2P Require Import Kalloc.
From S2P Require Import PageTable.
From S2P Require Import UserMem.
From S2P Require Import Proc.

(** The registers [a1] to [a5] of [struct trapframe]. *)
Definition TF_a1 : Z := 120.
Definition TF_a2 : Z := 128.
Definition TF_a3 : Z := 136.
Definition TF_a4 : Z := 144.
Definition TF_a5 : Z := 152.

(** The little-endian value of bytes copied in. *)
Fixpoint le_bytes (bs : list Z) : Z :=
  match bs with [] => 0 | b :: bs' => b + 256 * le_bytes bs' end.

(** [strlen] of a kernel buffer. *)
Fixpoint str_len (bs : list Z) : Z :=
  match bs with [] => 0 | b :: bs' => if b =? 0 then 0 else 1 + str_len bs' end.

(** [vm.h]. *)
Definition SBRK_EAGER : Z := 1.

(** [struct pinfo] in memory. *)
Record pinfo := Pinfo { pi_pid : Z; pi_state : Z; pi_ppid : Z; pi_name : list Z }.

Section code.
Context {F : Type} `{FileLayer F} `{LinkerSyms}.
Context (swtch : M (kernel F) unit).
Abbreviation K := (M (kernel F)).

(** ** syscall.c *)

Definition argraw (n : Z) : K Z :=
  i <- myproc ;;
  p <- getp i ;;
  match n with
  | 0 => on_m (load64 (p_trapframe p + TF_a0))
  | 1 => on_m (load64 (p_trapframe p + TF_a1))
  | 2 => on_m (load64 (p_trapframe p + TF_a2))
  | 3 => on_m (load64 (p_trapframe p + TF_a3))
  | 4 => on_m (load64 (p_trapframe p + TF_a4))
  | 5 => on_m (load64 (p_trapframe p + TF_a5))
  | _ => panic "argraw"
  end.

Definition argint (n : Z) : K Z := v <- argraw n ;; ret (i32 v).

Definition argaddr (n : Z) : K Z := argraw n.

(** The result and the value of [ip]. *)
Definition fetchaddr (addr : Z) : K (Z * Z) :=
  i <- myproc ;;
  p <- getp i ;;
  if (p_sz p <=? addr) || (p_sz p <? u64 (addr + 8)) then ret (-1, 0)
  else
    r <- on_m (copyin (pview p) (p_pagetable p) addr 8) ;;
    if negb (r.1 =? 0) then ret (-1, 0) else ret (0, le_bytes r.2).

(** The result and what has been written to [buf]. *)
Definition fetchstr (addr : Z) (max : nat) : K (Z * list Z) :=
  i <- myproc ;;
  p <- getp i ;;
  r <- on_m (copyinstr (p_pagetable p) addr max) ;;
  if r.1 <? 0 then ret (-1, r.2) else ret (str_len r.2, r.2).

Definition argstr (n : Z) (max : nat) : K (Z * list Z) :=
  addr <- argaddr n ;;
  fetchstr addr max.

(** ** sysproc.c *)

Definition sys_exit : K Z :=
  n <- argint 0 ;;
  kexit swtch n.

Definition sys_getpid : K Z :=
  i <- myproc ;;
  p <- getp i ;;
  ret (u64 (p_pid p)).

Definition sys_fork : K Z := rc <- kfork ;; ret (u64 rc).

Definition sys_wait (fuel : nat) : K Z :=
  p <- argaddr 0 ;;
  rc <- kwait swtch fuel p ;;
  ret (u64 rc).

Definition sys_sbrk : K Z :=
  n <- argint 0 ;;
  t <- argint 1 ;;
  i <- myproc ;;
  p <- getp i ;;
  let addr := p_sz p in
  if (t =? SBRK_EAGER) || (n <? 0) then
    rc <- growproc n ;;
    if rc <? 0 then ret (u64 (-1)) else ret addr
  else if u64 (addr + n) <? addr then ret (u64 (-1))
  else if TRAPFRAME <? u64 (addr + n) then ret (u64 (-1))
  else
    setp i (fun p => set_sz (u64 (p_sz p + n)) p) >>>
    ret addr.

Definition sys_pause (fuel : nat) : K Z :=
  n <- argint 0 ;;
  let n := if n <? 0 then 0 else n in
  lock_acquire TicksLock >>>
  ticks0 <- gets k_ticks ;;
  loop fuel (fun _ =>
    ticks <- gets k_ticks ;;
    if u32 (ticks - ticks0) <? u32 n then
      i <- myproc ;;
      kl <- killed i ;;
      if negb (kl =? 0) then lock_release TicksLock >>> ret (inr (u64 (-1)))
      else sleep swtch TicksChan TicksLock >>> ret (inl tt)
    else lock_release TicksLock >>> ret (inr 0)) tt.

Definition sys_kill : K Z :=
  pid <- argint 0 ;;
  rc <- kkill pid ;;
  ret (u64 rc).

Definition sys_uptime : K Z :=
  lock_acquire TicksLock >>>
  xticks <- gets k_ticks ;;
  lock_release TicksLock >>>
  ret (u32 xticks).

(** ** sysproc_custom.c *)

Definition pinfo_bytes (info : pinfo) : list Z :=
  bytes32 (pi_pid info) ++ bytes32 (pi_state info) ++ bytes32 (pi_ppid info) ++ pi_name info.

(** [stack] is what the local [info.name] holds before it is written. *)
Definition sys_getpinfo (stack : list Z) : K Z :=
  pid <- argint 0 ;;
  addr <- argaddr 1 ;;
  if addr =? 0 then ret (u64 (-1))
  else
    for_procs (fun j =>
      lock_acquire (ProcLock j) >>>
      p <- getp j ;;
      if p_pid p =? pid then
        ppid <- match p_parent p with
                | Some q => pq <- getp q ;; ret (p_pid pq)
                | None => ret 0
                end ;;
        let info := Pinfo (p_pid p) (procstate_num (p_state p)) ppid (str_copy stack (p_name p) 16) in
        lock_release (ProcLock j) >>>
        i <- myproc ;;
        caller <- getp i ;;
        rc <- on_m (copyout (pview caller) (p_pagetable caller) addr (pinfo_bytes info)) ;;
        ret (Some (if rc <? 0 then u64 (-1) else 0))
      else lock_release (ProcLock j) >>> ret None) (u64 (-1)).

(** [sys_thread_create] after the memory has been copied. *)
Definition thread_tail (i : nat) (fcn arg stack : Z) (parent t : proc) (j : nat) : K Z :=
  on_m (copy_trapframe (p_trapframe t) (p_trapframe parent)) >>>
  on_m (store64 (p_trapframe t + TF_epc) fcn) >>>
  on_m (store64 (p_trapframe t + TF_sp) stack) >>>
  on_m (store64 (p_trapframe t + TF_a0) arg) >>>
  inherit parent t j >>>
  t <- getp j ;;
  let tid := p_pid t in
  setp j (set_parent (Some i)) >>>
  setp j (set_state RUNNABLE) >>>
  lock_release (ProcLock j) >>>
  ret tid.

Definition sys_thread_create : K Z :=
  fcn <- argaddr 0 ;;
  arg <- argaddr 1 ;;
  stack <- argaddr 2 ;;
  if stack =? 0 then ret (u64 (-1))
  else
    i <- myproc ;;
    rc <- (r <- allocproc ;;
           match r with
           | None => ret (-1)
           | Some j =>
               parent <- getp i ;;
               t <- getp j ;;
               rc <- on_m (uvmcopy (p_pagetable parent) (p_pagetable t) (p_sz parent)) ;;
               if rc <? 0 then freeproc j >>> lock_release (ProcLock j) >>> ret (-1)
               else setp j (set_sz (p_sz parent)) >>> thread_tail i fcn arg stack parent t j
           end) ;;
    ret (u64 rc).

Definition sys_mutex_lock (fuel : nat) : K Z :=
  addr <- argaddr 0 ;;
  if addr =? 0 then ret (u64 (-1))
  else
    i <- myproc ;;
    loop fuel (fun _ =>
      p <- getp i ;;
      r <- on_m (copyin (pview p) (p_pagetable p) addr 4) ;;
      if r.1 <? 0 then ret (inr (u64 (-1)))
      else if i32 (le_bytes r.2) =? 0 then
        rc <- on_m (copyout (pview p) (p_pagetable p) addr (bytes32 1)) ;;
        ret (inr (if rc <? 0 then u64 (-1) else 0))
      else yield swtch >>> ret (inl tt)) tt.

Definition sys_mutex_unlock : K Z :=
  addr <- argaddr 0 ;;
  if addr =? 0 then ret (u64 (-1))
  else
    i <- myproc ;;
    p <- getp i ;;
    rc <- on_m (copyout (pview p) (p_pagetable p) addr (bytes32 0)) ;;
    ret (if rc <? 0 then u64 (-1) else 0).

(** What [sys_sendsig] does to the entry of its target. *)
Definition deliver (signum : Z) (p : proc) : proc :=
  let p := set_pending_sig signum p in
  if signum =? 1 then
    let p := set_killed 1 p in
    if decide (p_state p = SLEEPING) then set_state RUNNABLE p else p
  else if signum =? 2 then
    if decide (p_state p = RUNNABLE \/ p_state p = RUNNING) then set_state SLEEPING p else p
  else if signum =? 3 then
    if decide (p_state p = SLEEPING) then set_state RUNNABLE p else p
  else p.

Definition sys_sendsig : K Z :=
  pid <- argint 0 ;;
  signum <- argint 1 ;;
  if (pid <=? 0) || (signum <=? 0) then ret (u64 (-1))
  else
    for_procs (fun j =>
      lock_acquire (ProcLock j) >>>
      p <- getp j ;;
      if (p_pid p =? pid) && negb (bool_decide (p_state p = UNUSED)) then
        setp j (deliver signum) >>>
        lock_release (ProcLock j) >>>
        ret (Some 0)
      else lock_release (ProcLock j) >>> ret None) (u64 (-1)).

(** ** Dispatch *)

(** The calls of sysfile.c and [sys_pipe2], by number. *)
Context (file_calls : Z -> option (K Z)).

Definition syscalls (fuel : nat) (stack : list Z) (num : Z) : option (K Z) :=
  match num with
  | 1 => Some sys_fork
  | 2 => Some sys_exit
  | 3 => Some (sys_wait fuel)
  | 6 => Some sys_kill
  | 11 => Some sys_getpid
  | 12 => Some sys_sbrk
  | 13 => Some (sys_pause fuel)
  | 14 => Some sys_uptime
  | 22 => Some (sys_getpinfo stack)
  | 24 => Some sys_thread_create
  | 25 => Some (sys_mutex_lock fuel)
  | 26 => Some sys_mutex_unlock
  | 27 => Some sys_sendsig
  | _ => file_calls num
  end.

(** [NELEM(syscalls)]. *)
Definition NSYSCALLS : Z := 28.

(** [syscall]; the message about an unknown call is left out. *)
Definition syscall (fuel : nat) (stack : list Z) : K unit :=
  i <- myproc ;;
  p <- getp i ;;
  a7 <- on_m (load64 (p_trapframe p + TF_a7)) ;;
  let num := i32 a7 in
  match (if (0 <? num) && (num <? NSYSCALLS) then syscalls fuel stack num else None) with
  | Some call =>
      v <- call ;;
      on_m (store64 (p_trapframe p + TF_a0) v)
  | None => on_m (store64 (p_trapframe p + TF_a0) (u64 (-1)))
  end.
End code.
