(* ===== verification/SysSpec.v ===== *)
(** The behaviour of the system calls of sysproc.c and sysproc_custom.c. *)

From S2P Require Import Prelude.
From S2P Require Import Memory.
From S2P Require Import Spinlock.
From S2P Require Import Riscv.
From S2P Require Import Kalloc.
From S2P Require Import PageTable.
From S2P Require Import AddrSpace.
From S2P Require Import Uvm.
From S2P Require Import UserMem.
From S2P Require Import UserCopy.
From S2P Require Import ProcMem.
From S2P Require Import Proc.
From S2P Require Import ProcInv.
From S2P Require Import ProcOps.
From S2P Require Import Fork.
From S2P Require Import ProcCtl.
From S2P Require Import Wait.
From S2P Require Import Exit.
From S2P Require Import Syscall.

(** ** Words as bytes *)

Lemma le_bytes32 v : le_bytes (bytes32 v) = u32 v.
Proof.
  unfold bytes32, le_bytes, u8, u32. dlia.
Qed.

(** A store to a trapframe at [t] is a store to the registers. *)
Lemma st_shift n : forall m m' t a v o, m (t + o) = m' o -> st n m (t + a) v (t + o) = st n m' a v o.
Proof.
  induction n as [|n IH]; intros m m' t a v o E; [done|].
  change (st n (st8 m (t + a) v) (t + a + 1) (v / 256) (t + o) = st n (st8 m' a v) (a + 1) (v / 256) o).
  rewrite <- Z.add_assoc. apply (IH _ _ t (a + 1)). unfold st8. repeat case_if; auto; lia.
Qed.

Section spec.
Context {F : Type} `{FileLayer F} `{LinkerSyms}.
Implicit Types k : kernel F.

(** ** Isolation *)

(** An operation on the memory of process [i] leaves the memory of the others alone. *)
Lemma private_others k l i p p' k' l' j q :
  kinv k l -> k_procs k !! i = Some p -> private_step k l i (p_pagetable p) p' k' l' -> p_pagetable p <> 0 ->
  i <> j -> k_procs k !! j = Some q -> p_pagetable q <> 0 ->
  view_eq (ubyte (mem (k_m k)) (p_pagetable q)) (ubyte (mem (k_m k')) (p_pagetable q)).
Proof.
  intros Hk Hi [_ _ [_ Hag]] Hpt Hne Hj Hq. pose proof (ki_mem _ _ Hk) as Hpm.
  eapply view_frame; [by eapply (pm_proc _ _ _ Hpm j)|done|].
  intros x Hx _. destruct (foot_valid _ _ _ _ (pm_proc _ _ _ Hpm j q Hj) Hx) as [Hv Hl].
  apply Hag; [by apply is_valid_pa_spec in Hv as [? _]|]. rewrite owned_used. intros [?|Hu]; [done|].
  apply (pm_disj _ _ _ Hpm i j p q x); auto. by right.
Qed.

(** ** Arguments *)

(** Register [a]n of process [p]. *)
Definition arg (k : kernel F) (p : proc) (n : Z) : Z := ld64 (mem (k_m k)) (p_trapframe p + TF_a0 + 8 * n).

Section args.
Context (k : kernel F) (i : nat) (p : proc).
Hypothesis Hcur : k_cur k = Some i.
Hypothesis Hi : k_procs k !! i = Some p.

Lemma argraw_spec n (Q : Z -> kernel F -> Prop) : 0 <= n < 6 -> Q (arg k p n) k -> wp (argraw n) k Q.
Proof.
  intros Hn HQ. unfold argraw. apply wp_bind, (wp_myproc i); [done|]. apply wp_bind, (wp_getp i p); [done|].
  assert (Hld : forall o, p_trapframe p + o = p_trapframe p + TF_a0 + 8 * n ->
    wp (on_m (load64 (p_trapframe p + o))) k Q).
  { intros o ->. apply wp_on_m, wp_gets. fold (arg k p n). by destruct k. }
  assert (Hc : n = 0 \/ n = 1 \/ n = 2 \/ n = 3 \/ n = 4 \/ n = 5) by lia.
  destruct Hc as [->|[->|[->|[->|[->| ->]]]]]; apply Hld; unfold TF_a0, TF_a1, TF_a2, TF_a3, TF_a4, TF_a5; lia.
Qed.

Lemma argint_spec n (Q : Z -> kernel F -> Prop) : 0 <= n < 6 -> Q (i32 (arg k p n)) k -> wp (argint n) k Q.
Proof. intros Hn HQ. apply wp_bind, argraw_spec; [done|]. by apply wp_ret. Qed.

Lemma argaddr_spec n (Q : Z -> kernel F -> Prop) : 0 <= n < 6 -> Q (arg k p n) k -> wp (argaddr n) k Q.
Proof. apply argraw_spec. Qed.
End args.

(** ** sys_getpinfo *)

(** What [getpinfo] reports about entry [p]. *)
Definition pinfo_of (ps : list proc) (stack : list Z) (p : proc) : pinfo :=
  Pinfo (p_pid p) (procstate_num (p_state p))
    (match p_parent p with Some q => match ps !! q with Some pq => p_pid pq | None => 0 end | None => 0 end)
    (str_copy stack (p_name p) 16).

Definition parents_ok (ps : list proc) : Prop :=
  forall j p q, ps !! j = Some p -> p_parent p = Some q -> (q < NPROC)%nat.

Definition getpinfo_result (k : kernel F) (l : list Z) (i : nat) (c : proc) (pid addr : Z) (stack : list Z)
    (rc : Z) (k' : kernel F) : Prop :=
  (rc = 2 ^ 64 - 1 /\ k' = k /\ (addr = 0 \/ forall j p, k_procs k !! j = Some p -> p_pid p <> pid)) \/
  (exists j p rc1, addr <> 0 /\ first_pid (k_procs k) pid j p /\
     copyout_result k l i c addr (pinfo_bytes (pinfo_of (k_procs k) stack p)) rc1 k' /\
     rc = if rc1 <? 0 then 2 ^ 64 - 1 else 0).

Definition names_ok (ps : list proc) : Prop := forall j p, ps !! j = Some p -> byte_list (p_name p).

Lemma str_copy_bytes n : forall dst src, byte_list dst -> byte_list src -> byte_list (str_copy dst src n).
Proof.
  induction n as [|n IH]; intros dst src Hd Hs; [by destruct dst|].
  destruct dst as [|d dst]; [by destruct n|]. apply Forall_cons in Hd as [Hd0 Hd].
  destruct n as [|n]; [cbn; apply Forall_cons; split; [lia|done]|].
  destruct src as [|c src]; cbn [str_copy]; [apply Forall_cons; split; [lia|done]|].
  apply Forall_cons in Hs as [Hc Hs]. case_if; apply Forall_cons; split; [lia|done|done|by apply IH].
Qed.

Lemma arg_range k l p n : kinv k l -> 0 <= arg k p n < 2 ^ 64.
Proof. intros Hk. apply ld64_range. apply (km_bytes _ _ (ki_kmem _ _ Hk)). Qed.

(** C39. [sys_getpinfo] copies to the caller the pid, the state, the pid of the
    parent (0 if none) and the name of the first entry with the pid, and
    returns 0; it returns -1 for a null address, an unknown pid, or if the copy
    fails.  No process but the caller is affected. *)
Theorem getpinfo_reports k l i c stack :
  kinv k l -> k_cur k = Some i -> k_procs k !! i = Some c -> p_state c <> UNUSED -> no_proc_locks k ->
  parents_ok (k_procs k) -> names_ok (k_procs k) -> byte_list stack ->
  wp (sys_getpinfo stack) k (getpinfo_result k l i c (i32 (arg k c 0)) (arg k c 1) stack).
Proof.
  intros Hk Hcur Hi Hlive Hnl Hpar Hnm Hst. pose proof (pw_len _ _ (ki_wf _ _ Hk)) as Hlen.
  unfold sys_getpinfo. apply wp_bind, (argint_spec k i c); [done..|].
  apply wp_bind, (argaddr_spec k i c); [done..|]. destruct (arg k c 1 =? 0) eqn:Ea; bool_simp.
  { apply wp_ret. left. split_and!; auto. }
  apply (for_procs_first _ (fun p => p_pid p =? i32 (arg k c 0))); auto.
  - intros j p Hj Hp E. apply (wp_locked_read j p); auto. rewrite E.
    apply wp_unlock_top; [apply Hnl|]. by apply wp_ret.
  - intros j p Hj Hp E Hb. apply (wp_locked_read j p); auto. rewrite E. apply wp_bind.
    assert (Hpp : wp (match p_parent p with Some q => pq <- getp q ;; ret (p_pid pq) | None => ret 0 end)
      (set_held (ProcLock j :: held k) k) (fun r k' => r = pi_ppid (pinfo_of (k_procs k) stack p) /\
        k' = set_held (ProcLock j :: held k) k)).
    { unfold pinfo_of. cbn [pi_ppid]. destruct (p_parent p) as [q|] eqn:Eq; [|by apply wp_ret].
      destruct (lookup_lt_is_Some_2 (k_procs k) q) as [pq Hq]; [rewrite Hlen; eauto|]. rewrite Hq.
      apply wp_bind, (wp_getp q pq); [done|]. by apply wp_ret. }
    eapply wp_mono; [exact Hpp|]. cbn beta. intros ppid k1 [-> ->]. apply wp_unlock_top; [apply Hnl|].
    apply wp_bind, (wp_myproc i); [done|]. apply wp_bind, (wp_getp i c); [done|]. apply wp_bind.
    change (Pinfo _ _ _ _) with (pinfo_of (k_procs k) stack p).
    eapply wp_mono; [apply (proc_copyout k l i c); auto; [by eapply arg_range|]|].
    + unfold pinfo_bytes, byte_list. rewrite !Forall_app. split_and!; try apply bytes32_ok.
      apply str_copy_bytes; [done|by eapply Hnm].
    + intros rc1 k' Hc. apply wp_ret. eexists; split; [done|]. right. exists j, p, rc1. split_and!; auto.
      bool_simp. split_and!; auto. intros j' p' Hj' Hp'. specialize (Hb j' p' Hj' Hp'). by bool_simp.
  - intros Hb. left. split_and!; auto. right. intros j p Hp. specialize (Hb j p Hp). by bool_simp.
Qed.
End spec.

(** ** sys_thread_create *)

Section thread.
Context {F : Type} `{FileLaws F} `{LinkerSyms}.
Implicit Types k : kernel F.

(** The registers of the new thread: the caller's, but for the entry point,
    the stack and the argument. *)
Definition thread_regs (k : kernel F) (p : proc) (fcn arg stack : Z) : Z -> Z :=
  st64 (st64 (st64 (fun o => mem (k_m k) (p_trapframe p + o)) TF_epc fcn) TF_sp stack) TF_a0 arg.

(** Linking the thread to its creator. *)
Lemma link_spec k2 i j c L :
  k_procs k2 !! j = Some c -> held k2 = ProcLock j :: L -> ProcLock j ∉ L ->
  wp (t <- getp j ;;
      setp j (set_parent (Some i)) >>>
      setp j (set_state RUNNABLE) >>>
      lock_release (ProcLock j) >>>
      ret (p_pid t)) k2 (fun rc k3 => rc = p_pid c /\
    k3 = set_held L (set_k_procs (<[j := set_state RUNNABLE (set_parent (Some i) c)]> (k_procs k2)) k2)).
Proof.
  intros Hc Hh HL. pose proof (lookup_lt_Some _ _ _ Hc) as Hlt.
  destruct k2 as [[km kf kh] kp kn ki kc kt kfs].
  cbn [held set_held kernel_locks machine_locks k_m set_k_m mheld mem freelist k_procs] in *. subst kh.
  apply wp_bind, (wp_getp j c); [done|]. apply wp_bind. eapply wp_setp; [exact Hc|].
  apply wp_bind. eapply wp_setp; [cbn; by apply list_lookup_insert_eq|].
  apply wp_bind, wp_lock_release; [cbn; apply elem_of_cons; by left|].
  cbn [held set_held kernel_locks machine_locks k_m set_k_m mheld mem freelist k_procs set_k_procs].
  rewrite filter_ne_cons_self, list_insert_insert_eq by done. by apply wp_ret.
Qed.

(** The trapframe of the thread. *)
Lemma thread_tf {A} k l i j p q tf pt k1 l1 fcn arg stack (rest : M (kernel F) A) (Q : A -> kernel F -> Prop) :
  kinv k l -> k_procs k !! i = Some p -> p_state p <> UNUSED -> k_procs k !! j = Some q ->
  copied k l i j p q tf pt k1 l1 ->
  (forall s2, copied k l i j p q tf pt (set_k_m s2 k1) l1 ->
     (forall o, 0 <= o < TF_SIZE -> mem s2 (tf + o) = thread_regs k p fcn arg stack o) -> wp rest (set_k_m s2 k1) Q) ->
  wp (on_m (copy_trapframe tf (p_trapframe p)) >>>
      on_m (store64 (tf + TF_epc) fcn) >>>
      on_m (store64 (tf + TF_sp) stack) >>>
      on_m (store64 (tf + TF_a0) arg) >>>
      rest) k1 Q.
Proof.
  intros Hk Hi Hlive Hj C HQ. set (c0 := set_sz (p_sz p) (new_proc q (k_nextpid k) tf pt)).
  pose proof (copied_entry k l i j p q tf pt Hj k1 l1 C) as He.
  destruct (cp_nz _ _ _ _ _ _ _ _ _ _ C) as (Htf & Hpt & Htfl). apply wp_bind, wp_on_m.
  eapply wp_mono; [by apply (copy_tf (k_m k1) l1 (k_procs k1) j c0 (p_trapframe p) (cp_kmem _ _ _ _ _ _ _ _ _ _ C) (cp_mem _ _ _ _ _ _ _ _ _ _ C) He)|].
  cbn beta. intros [] s2 [W2 R2]. pose proof (copied_write k l i j p q tf pt Hj k1 l1 s2 C W2) as C2.
  assert (Hstore : forall s o v (Q' : unit -> kernel F -> Prop), 0 <= o -> o + 8 <= PGSIZE ->
    copied k l i j p q tf pt (set_k_m s k1) l1 ->
    (forall s', copied k l i j p q tf pt (set_k_m s' k1) l1 -> mem s' = st64 (mem s) (tf + o) v -> Q' tt (set_k_m s' k1)) ->
    wp (on_m (store64 (tf + o) v)) (set_k_m s k1) Q').
  { intros s o v Q' Ho1 Ho2 Cs HQ'. apply wp_on_m. cbn [k_m set_k_m].
    eapply wp_mono; [apply (store_tf s l1 (k_procs k1) j c0 o v); auto;
      [apply (cp_kmem _ _ _ _ _ _ _ _ _ _ Cs)|apply (cp_mem _ _ _ _ _ _ _ _ _ _ Cs)]|].
    cbn beta. intros [] s' [W E]. apply HQ'; [|done].
    by pose proof (copied_write k l i j p q tf pt Hj _ l1 s' Cs W). }
  apply wp_bind, Hstore; [done..|]. intros s3 C3 E3. apply wp_bind, Hstore; [done..|]. intros s4 C4 E4.
  apply wp_bind, Hstore; [done..|]. intros s5 C5 E5. apply HQ; [done|]. intros o Ho.
  rewrite E5, E4, E3. unfold thread_regs. do 3 apply st_shift. cbn in R2. rewrite R2 by done. by eapply parent_regs.
Qed.

End thread.

(** ** The mutex calls *)

Section mutex.
Context {F : Type} `{FileLayer F} `{LinkerSyms}.
Context (swtch : M (kernel F) unit).
Implicit Types k : kernel F.

(** [copyin] of mapped memory reads it. *)
Lemma copyin_mapped k l i p src bs r k' :
  copyin_result k l i p src (length bs) r k' -> 0 <= src ->
  reads (ubyte (mem (k_m k)) (p_pagetable p)) src bs -> r = (0, bs).
Proof.
  intros (s' & l' & -> & _ & Hlz & Hr & Hrc) Hsrc Hb. pose proof (reads_lazy _ _ _ _ _ Hsrc Hb Hlz) as Hb'.
  destruct r as [rc cs]. by eapply reads_full.
Qed.

(** The bytes of the user word at [addr] are writable. *)
Definition writable_word (e : uview) (addr : Z) (n : nat) : Prop :=
  addr + Z.of_nat n <= TRAPFRAME /\ forall i, (i < n)%nat -> writable e (addr + Z.of_nat i).

Lemma writable_lazy sz e e' addr n : 0 <= addr -> writable_word e addr n -> lazy_ext sz e e' -> writable_word e' addr n.
Proof.
  intros Ha [Hle Hw] Hl. split; [done|]. intros i Hi. destruct (Hw i Hi) as (fl & b & E & ?).
  exists fl, b. destruct (Hl (addr + Z.of_nat i)) as [->|(E' & _)]; [lia|done|congruence].
Qed.

(** [copyout] to mapped writable memory writes all of it. *)
Lemma copyout_mapped k l i p dst src rc k' :
  copyout_result k l i p dst src rc k' -> 0 <= dst ->
  writable_word (ubyte (mem (k_m k)) (p_pagetable p)) dst (length src) ->
  rc = 0 /\ out_to (p_sz p) dst src (ubyte (mem (k_m k)) (p_pagetable p)) (ubyte (mem (k_m k')) (p_pagetable p)).
Proof.
  intros (s' & l' & n & -> & _ & Ho & Hrc) Hd [Hle Hw]. destruct Hrc as [[-> ->]|(-> & Hn & Hno)].
  { rewrite firstn_all in Ho. done. }
  exfalso. apply Hno; [lia|]. destruct Ho as (_ & e1 & Hlz & _ & Hv).
  assert (Hw1 : writable_word e1 dst (length src)) by (by eapply writable_lazy; [|split|]).
  destruct (proj2 Hw1 n Hn) as (fl & b & E & HU). exists fl, b. split; [|done].
  rewrite Hv by lia. unfold overwrite. rewrite length_take, Nat.min_l by lia. case_if; [lia|done..].
Qed.

Section call.
Context (k : kernel F) (l : list Z) (i : nat) (p : proc).
Hypothesis Hk : kinv k l.
Hypothesis Hcur : k_cur k = Some i.
Hypothesis Hi : k_procs k !! i = Some p.
Hypothesis Hlive : p_state p <> UNUSED.
Let addr := arg k p 0.
Let view k' := ubyte (mem (k_m k')) (p_pagetable p).

(** The other processes do not see the call. *)
Definition invisible (k' : kernel F) : Prop :=
  forall j q, i <> j -> k_procs k !! j = Some q -> p_pagetable q <> 0 ->
    view_eq (ubyte (mem (k_m k)) (p_pagetable q)) (ubyte (mem (k_m k')) (p_pagetable q)).

Lemma live_table : p_pagetable p <> 0.
Proof. by apply (wf_live _ _ _ (pw_proc _ _ (ki_wf _ _ Hk) i p Hi)). Qed.

Lemma copyout_frame k1 l1 rc k' src :
  kinv k1 l1 -> k_procs k1 = k_procs k -> invisible k1 -> copyout_result k1 l1 i p addr src rc k' ->
  (exists l', kinv k' l') /\ k_procs k' = k_procs k /\ held k' = held k1 /\ invisible k'.
Proof.
  intros Hk1 Hp1 Hv1 (s' & l' & n & -> & Hst & _). pose proof (pv_only _ _ _ _ _ _ _ Hst) as Hon.
  split_and!; [exists l'; apply Hst|done|apply Hon|].
  intros j q Hne Hj Hq va Hva. rewrite <- (Hv1 j q Hne Hj Hq va Hva).
  eapply (private_others k1 l1 i p p _ l' j q); eauto using live_table; by rewrite Hp1.
Qed.

(** [sys_mutex_unlock] sets the word at the address to 0 in the memory of
    the caller; no other process sees it. *)
Theorem mutex_unlock_clears :
  addr <> 0 -> writable_word (view k) addr 4 ->
  wp sys_mutex_unlock k (fun v k' => v = 0 /\ (exists l', kinv k' l') /\ k_procs k' = k_procs k /\
    held k' = held k /\ out_to (p_sz p) addr (bytes32 0) (view k) (view k') /\ invisible k').
Proof.
  intros Ha Hw. unfold sys_mutex_unlock. apply wp_bind, (argaddr_spec k i p); [done..|]. fold addr.
  rewrite (proj2 (Z.eqb_neq addr 0)) by done. apply wp_bind, (wp_myproc i); [done|].
  apply wp_bind, (wp_getp i p); [done|]. pose proof (arg_range k l p 0 Hk) as Hr. fold addr in Hr.
  apply wp_bind. eapply wp_mono; [apply (proc_copyout k l i p); auto using bytes32_ok|].
  intros rc k' Hc. apply wp_ret. destruct (copyout_mapped _ _ _ _ _ _ _ _ Hc) as [-> Ho]; [lia|done|].
  destruct (copyout_frame k l 0 k' (bytes32 0) Hk) as (? & ? & ? & ?); [done|by intros j q _ _ _ va _|exact Hc|].
  by split_and!.
Qed.

(** [sys_mutex_lock] on a word that is 0 sets it to 1 and returns 0 at
    once; the other bytes of the caller stay, and no other process sees it. *)
Theorem mutex_lock_takes_free fuel :
  addr <> 0 -> reads (view k) addr (bytes32 0) -> writable_word (view k) addr 4 ->
  wp (sys_mutex_lock swtch (S fuel)) k (fun v k' => v = 0 /\ (exists l', kinv k' l') /\ k_procs k' = k_procs k /\
    held k' = held k /\ out_to (p_sz p) addr (bytes32 1) (view k) (view k') /\ invisible k').
Proof.
  intros Ha Hz Hw. unfold sys_mutex_lock. apply wp_bind, (argaddr_spec k i p); [done..|]. fold addr.
  rewrite (proj2 (Z.eqb_neq addr 0)) by done. apply wp_bind, (wp_myproc i); [done|].
  pose proof (arg_range k l p 0 Hk) as Hr. fold addr in Hr. cbn [loop].
  apply wp_bind, wp_bind, (wp_getp i p); [done|]. apply wp_bind.
  eapply wp_mono; [apply (proc_copyin k l i p addr 4); auto|].
  intros r k1 Hc. pose proof (copyin_mapped k l i p addr (bytes32 0) r k1 Hc ltac:(lia) Hz) as ->.
  destruct Hc as (s1 & l1 & -> & Hst & Hlz & _). cbn [fst snd]. change (i32 (le_bytes (bytes32 0)) =? 0) with true.
  cbn [Z.ltb Z.compare]. pose proof (pv_inv _ _ _ _ _ _ _ Hst) as Hk1. pose proof (pv_only _ _ _ _ _ _ _ Hst) as Hon.
  apply wp_bind. eapply wp_mono; [apply (proc_copyout _ l1 i p); eauto using bytes32_ok|].
  intros rc k' Hc. apply wp_ret, wp_ret.
  destruct (copyout_mapped _ _ _ _ _ _ _ _ Hc) as [-> Ho]; [lia|by eapply writable_lazy; [lia|..]|].
  destruct (copyout_frame (set_k_m s1 k) l1 0 k' (bytes32 1) Hk1) as (? & ? & Hh & ?); [done| |exact Hc|].
  { intros j q Hne Hj Hq. eapply (private_others k l i p p _ l1 j q); eauto using live_table. }
  split_and!; auto; [rewrite Hh; apply Hon|].
  destruct Ho as (Hle & e1 & Hl1 & Hw1 & Hv1). split; [done|]. exists e1. split_and!; auto. by eapply lazy_ext_trans.
Qed.

(** ** A taken mutex *)

(** What a context switch guarantees the process that made it: it comes back
    running, with its lock, its table entry and its memory. *)
Definition switch_back : Prop := forall k1 l1 p1,
  kinv k1 l1 -> k_cur k1 = Some i -> k_procs k1 !! i = Some p1 -> p_state p1 = RUNNABLE -> held k1 = [ProcLock i] ->
  wp swtch k1 (fun _ k2 => exists l2 p2, kinv k2 l2 /\ k_cur k2 = Some i /\ held k2 = [ProcLock i] /\
    k_procs k2 !! i = Some p2 /\ p_state p2 = RUNNING /\ p_pagetable p2 = p_pagetable p1 /\ p_sz p2 = p_sz p1 /\
    view_eq (ubyte (mem (k_m k1)) (p_pagetable p1)) (ubyte (mem (k_m k2)) (p_pagetable p1))).

(** The process is running and [bs] is in its memory at [a]. *)
Definition waiting (a : Z) (bs : list Z) (k' : kernel F) : Prop := exists l' p',
  kinv k' l' /\ k_cur k' = Some i /\ held k' = [] /\ k_procs k' !! i = Some p' /\ p_state p' = RUNNING /\
  p_pagetable p' = p_pagetable p /\ reads (ubyte (mem (k_m k')) (p_pagetable p)) a bs.

Lemma reads_eq e e' a bs : 0 <= a -> reads e a bs -> view_eq e e' -> reads e' a bs.
Proof. intros Ha Hr Hv. eapply (reads_lazy 0); [done|exact Hr|]. by apply lazy_ext_eq. Qed.

Lemma yield_waiting a bs k1 : 0 <= a -> switch_back -> waiting a bs k1 -> wp (yield swtch) k1 (fun _ => waiting a bs).
Proof.
  intros Ha Hsw (l1 & p1 & K1 & C1 & H1 & P1 & S1 & T1 & R1).
  pose proof (pw_proc _ _ (ki_wf _ _ K1) i p1 P1) as Hw1. set (p1' := set_state RUNNABLE p1).
  assert (Hlt : (i < length (k_procs k1))%nat) by (by eapply lookup_lt_Some).
  unfold wp. rewrite (yield_to_switch swtch k1 i p1) by done. fold p1'.
  apply (wp_bind swtch (fun _ => lock_release (ProcLock i)) (at_switch k1 i p1')). eapply wp_mono.
  { apply (Hsw (at_switch k1 i p1') l1 p1'); auto.
    - apply kinv_set_held; [|apply not_elem_of_cons; split; [done|apply not_elem_of_nil]].
      apply (kinv_set_live k1 l1 i p1); auto; cbn; try congruence. apply Hw1.
    - by apply list_lookup_insert_eq. }
  cbn beta. intros _ k2 (l2 & p2 & K2 & C2 & H2 & P2 & S2 & T2 & _ & V2).
  apply wp_lock_release; [rewrite H2; by apply list_elem_of_singleton|].
  exists l2, p2. rewrite H2, filter_cons_False by naive_solver. split_and!; auto.
  - apply kinv_set_held; [done|apply not_elem_of_nil].
  - rewrite T2. exact T1.
  - change (p_pagetable p1') with (p_pagetable p1) in V2. rewrite T1 in V2. exact (reads_eq _ _ _ _ Ha R1 V2).
Qed.

(** C38. [sys_mutex_lock] on a word that is not 0 never returns, whatever the
    other processes do, as long as a context switch gives the process its own
    memory back: there is no bound on its rounds within which it gets the
    lock.  No other process can release the mutex, for none shares the word. *)
Theorem mutex_lock_spins fuel bs :
  switch_back -> p_state p = RUNNING -> held k = [] -> addr <> 0 -> length bs = 4%nat ->
  reads (view k) addr bs -> i32 (le_bytes bs) <> 0 ->
  sys_mutex_lock swtch fuel k = NoFuel.
Proof.
  intros Hsw Hrun Hh Ha Hlen Hr Hnz. pose proof (arg_range k l p 0 Hk) as Hrg. fold addr in Hrg.
  assert (Hstuck : reach (sys_mutex_lock swtch fuel) k (fun _ => NoFuel) (fun _ => True)); [|by destruct Hstuck as (? & _ & E)].
  unfold sys_mutex_lock. apply reach_bind, (argaddr_spec k i p); [done..|]. fold addr.
  rewrite (proj2 (Z.eqb_neq addr 0)) by done. apply reach_bind, (wp_myproc i); [done|].
  exists k. split; [done|]. apply (loop_diverges (fun _ => waiting addr bs)).
  2: { exists l, p. by split_and!. }
  intros _ k1 W1. pose proof W1 as (l1 & p1 & K1 & C1 & H1 & P1 & S1 & T1 & R1).
  apply wp_bind, (wp_getp i p1); [done|]. apply wp_bind.
  eapply wp_mono; [apply (proc_copyin k1 l1 i p1 addr 4); auto; congruence|].
  intros r k2 Hc. rewrite <- T1 in R1. rewrite <- Hlen in Hc.
  pose proof (copyin_mapped k1 l1 i p1 addr bs r k2 Hc ltac:(lia) R1) as ->. cbn [fst snd Z.ltb Z.compare].
  rewrite (proj2 (Z.eqb_neq (i32 (le_bytes bs)) 0)) by done. destruct Hc as (s2 & l2 & -> & Hst & Hlz & _).
  pose proof (pv_only _ _ _ _ _ _ _ Hst) as Hon. apply wp_bind.
  eapply wp_mono; [apply (yield_waiting addr bs); [lia|done|]|].
  - exists l2, p1. split_and!; auto; [apply Hst|by rewrite (op_held _ _ _ _ Hon)|].
    rewrite <- T1. eapply reads_lazy; [|exact R1|exact Hlz]. lia.
  - cbn beta. intros _ k3 W3. apply wp_ret. by exists tt.
Qed.
End call.
End mutex.
