(* ===== verification/SysCalls.v ===== *)
(** sys_sbrk, sys_sendsig, fetchaddr, fetchstr and the dispatch of system calls. *)

From S2P Require Import Prelude.
From S2P Require Import Memory.
From S2P Require Import Spinlock.
From S2P Require Import Riscv.
From S2P Require Import Kalloc.
From S2P Require Import PageTable.
From S2P Require Import AddrSpace.
From S2P Require Import Uvm.
From S2P Require Import UserMem.
From S2P Require Import UserCopy.
From S2P Require Import ProcMem.
From S2P Require Import Proc.
From S2P Require Import ProcInv.
From S2P Require Import ProcOps.
From S2P Require Import Fork.
From S2P Require Import ProcCtl.
From S2P Require Import Wait.
From S2P Require Import Exit.
From S2P Require Import Syscall.
From S2P Require Import SysSpec.

Section calls.
Context {F : Type} `{FileLayer F} `{LinkerSyms}.
Implicit Types k : kernel F.

(** ** sys_sendsig *)

(** The first live entry with [pid]. *)
Definition first_live (ps : list proc) (pid : Z) (j : nat) (p : proc) : Prop :=
  ps !! j = Some p /\ p_pid p = pid /\ p_state p <> UNUSED /\
  forall j' p', (j' < j)%nat -> ps !! j' = Some p' -> ~ (p_pid p' = pid /\ p_state p' <> UNUSED).

Lemma deliver_core signum p : p_state p <> UNUSED -> same_core p (deliver signum p).
Proof.
  intros Hl. unfold deliver. repeat case_if; repeat case_decide; split; cbn in *; try done; try tauto; congruence.
Qed.

Lemma sendsig_spec k l i c (Q : Z -> kernel F -> Prop) :
  kinv k l -> k_cur k = Some i -> k_procs k !! i = Some c -> no_proc_locks k ->
  let pid := i32 (arg k c 0) in
  let signum := i32 (arg k c 1) in
  (forall j p, 0 < pid -> 0 < signum -> first_live (k_procs k) pid j p ->
     Q 0 (set_k_procs (<[j := deliver signum p]> (k_procs k)) k)) ->
  (pid <= 0 \/ signum <= 0 \/ (forall j p, k_procs k !! j = Some p -> ~ (p_pid p = pid /\ p_state p <> UNUSED)) ->
     Q (2 ^ 64 - 1) k) ->
  wp sys_sendsig k Q.
Proof.
  intros Hk Hcur Hi Hnl pid signum Hyes Hno. unfold sys_sendsig.
  apply wp_bind, (argint_spec k i c); [done..|]. apply wp_bind, (argint_spec k i c); [done..|].
  fold pid signum. destruct ((pid <=? 0) || (signum <=? 0)) eqn:E; bool_simp.
  { apply wp_ret. apply Hno. by left. }
  { apply wp_ret. apply Hno. right. by left. }
  apply (for_procs_first _ (fun p => (p_pid p =? pid) && negb (bool_decide (p_state p = UNUSED)))).
  - apply (pw_len _ _ (ki_wf _ _ Hk)).
  - intros j p Hj Hp Et. apply (wp_locked_read j p); auto. rewrite Et.
    apply wp_unlock_top; [apply Hnl|]. by apply wp_ret.
  - intros j p Hj Hp Et Hb. apply (wp_locked_read j p); auto. rewrite Et. apply wp_bind.
    eapply wp_setp; [exact Hp|]. apply wp_unlock_set; [apply Hnl|]. apply wp_ret. eexists; split; [done|].
    bool_simp. apply Hyes; [done..|]. split_and!; auto. intros j' p' Hj' Hp' [Hpid Hl].
    specialize (Hb j' p' Hj' Hp'). bool_simp; [done|]. by bool_simp.
  - intros Hb. apply Hno. right; right. intros j p Hp [Hpid Hl]. specialize (Hb j p Hp). bool_simp; [done|].
    by bool_simp.
Qed.

(** [sys_sendsig] with a positive pid and signal delivers the signal to the
    first live entry with the pid, records it as pending and returns 0; in every
    other case it returns -1 and changes nothing. *)
Theorem sendsig_delivers k l i c :
  kinv k l -> k_cur k = Some i -> k_procs k !! i = Some c -> no_proc_locks k ->
  let pid := i32 (arg k c 0) in
  let signum := i32 (arg k c 1) in
  wp sys_sendsig k (fun v k' =>
    (v = 0 /\ kinv k' l /\ exists j p, 0 < pid /\ 0 < signum /\ first_live (k_procs k) pid j p /\
       p_pending_sig (deliver signum p) = signum /\
       k' = set_k_procs (<[j := deliver signum p]> (k_procs k)) k) \/
    (v = 2 ^ 64 - 1 /\ k' = k /\ (pid <= 0 \/ signum <= 0 \/
       forall j p, k_procs k !! j = Some p -> ~ (p_pid p = pid /\ p_state p <> UNUSED)))).
Proof.
  intros Hk Hcur Hi Hnl pid signum. apply (sendsig_spec k l i c); auto.
  intros j p Hp Hs Hf. left. pose proof Hf as (Hj & _ & Hlive & _). split_and!; auto.
  - apply kinv_map; [done|]. eapply Forall2_core_insert; [exact Hj|by apply deliver_core].
  - exists j, p. split_and!; auto. unfold deliver. repeat case_if; repeat case_decide; done.
Qed.

(** ** sys_sbrk *)

(** [sys_sbrk] in lazy mode by a non-negative amount adds it to the size of
    the process without mapping anything and returns the old size, or returns
    -1 and changes nothing if the new size would reach into the trapframe. *)
Theorem sbrk_lazy_grows k l i p :
  kinv k l -> k_cur k = Some i -> k_procs k !! i = Some p -> p_state p <> UNUSED ->
  let n := i32 (arg k p 0) in
  i32 (arg k p 1) <> SBRK_EAGER -> 0 <= n ->
  wp sys_sbrk k (fun v k' =>
    (p_sz p + n <= TRAPFRAME /\ v = p_sz p /\ kinv k' l /\
     k' = set_k_procs (<[i := set_sz (p_sz p + n) p]> (k_procs k)) k) \/
    (TRAPFRAME < p_sz p + n /\ v = 2 ^ 64 - 1 /\ k' = k)).
Proof.
  intros Hk Hcur Hi Hlive n Ht Hn. unfold sys_sbrk.
  apply wp_bind, (argint_spec k i p); [done..|]. apply wp_bind, (argint_spec k i p); [done..|].
  apply wp_bind, (wp_myproc i); [done|]. apply wp_bind, (wp_getp i p); [done|]. fold n. unfold n in *.
  rewrite (proj2 (Z.eqb_neq _ _)), (proj2 (Z.ltb_ge _ 0)) by done. cbn [orb].
  pose proof (grow_space k l i p Hk Hi Hlive) as Hps. destruct (ps_sz _ _ _ _ _ Hps) as [Hs1 Hs2].
  pose proof (i32_range (arg k p 0)) as Hr. change TRAPFRAME with (2 ^ 38 - 8192) in *.
  rewrite u64_id by lia. rewrite (proj2 (Z.ltb_ge _ (p_sz p))) by lia. case_if.
  { apply wp_ret. right. by split_and!. }
  apply wp_bind. eapply wp_setp; [exact Hi|]. apply wp_ret. left. rewrite u64_id by lia. split_and!; auto.
  assert (Hst := private_step_intro k l i p (p_sz p + i32 (arg k p 0)) (k_m k) l Hk Hi Hlive (ki_kmem _ _ Hk) eq_refl
    (contained_refl _ _ _)). destruct Hst as [Hk' _ _]; [|by destruct k].
  destruct Hps as [? ? ? ? ? ?]. split; auto; [change TRAPFRAME with (2 ^ 38 - 8192); lia|].
  intros va Hva Hle. apply ps_above; [done|lia].
Qed.

(** The eager case, and negative sizes: [growproc]. *)
Lemma sbrk_eager k l i p :
  kinv k l -> k_cur k = Some i -> k_procs k !! i = Some p -> p_state p <> UNUSED ->
  let n := i32 (arg k p 0) in
  i32 (arg k p 1) = SBRK_EAGER \/ n < 0 ->
  wp sys_sbrk k (fun v k' => exists rc, grow_result k l i p n rc k' /\
    v = if rc <? 0 then 2 ^ 64 - 1 else p_sz p).
Proof.
  intros Hk Hcur Hi Hlive n Ht. unfold sys_sbrk.
  apply wp_bind, (argint_spec k i p); [done..|]. apply wp_bind, (argint_spec k i p); [done..|].
  apply wp_bind, (wp_myproc i); [done|]. apply wp_bind, (wp_getp i p); [done|]. fold n.
  assert (Hb : (i32 (arg k p 1) =? SBRK_EAGER) || (n <? 0) = true).
  { apply orb_true_iff. destruct Ht; [left; by apply Z.eqb_eq|right; by apply Z.ltb_lt]. }
  rewrite Hb. apply wp_bind. eapply wp_mono; [apply (growproc_spec k l i p n); auto; apply i32_range|].
  intros rc k' Hg. destruct (rc <? 0) eqn:E; apply wp_ret; exists rc; by rewrite E.
Qed.

(** ** fetchaddr and fetchstr *)

Lemma fetchaddr_spec k l i p addr :
  kinv k l -> k_cur k = Some i -> k_procs k !! i = Some p -> p_state p <> UNUSED -> 0 <= addr < 2 ^ 64 ->
  wp (fetchaddr addr) k (fun res k' =>
    (res = (-1, 0) /\ k' = k /\ p_sz p < addr + 8) \/
    (addr + 8 <= p_sz p /\ exists r, copyin_result k l i p addr 8 r k' /\
       ((r.1 = 0 /\ res = (0, le_bytes r.2)) \/ (r.1 = -1 /\ res = (-1, 0))))).
Proof.
  intros Hk Hcur Hi Hlive Ha. unfold fetchaddr. apply wp_bind, (wp_myproc i); [done|].
  apply wp_bind, (wp_getp i p); [done|].
  destruct (ps_sz _ _ _ _ _ (grow_space k l i p Hk Hi Hlive)) as [Hs1 Hs2]. change TRAPFRAME with (2 ^ 38 - 8192) in Hs2.
  destruct ((p_sz p <=? addr) || (p_sz p <? u64 (addr + 8))) eqn:E; bool_simp.
  - apply wp_ret. left. split_and!; auto. lia.
  - apply wp_ret. left. split_and!; auto. destruct (decide (addr + 8 < 2 ^ 64)) as [Hlt|Hge].
    + by rewrite u64_id in H1 by lia.
    + lia.
  - rewrite u64_id in H2 by lia. apply wp_bind.
    eapply wp_mono; [apply (proc_copyin k l i p addr 8); auto|]. intros r k' Hc. pose proof Hc as (s' & l' & _ & _ & _ & _ & Hrc).
    destruct Hrc as [[Er _]|(Er & _)]; rewrite Er; apply wp_ret; right; (split; [done|]); exists r; auto.
Qed.

Lemma str_len_app str : 0 ∉ str -> str_len (str ++ [0]) = Z.of_nat (length str).
Proof.
  induction str as [|c str IH]; intros Hz; [done|]. apply not_elem_of_cons in Hz as [Hc Hz]. cbn [str_len app].
  rewrite (proj2 (Z.eqb_neq c 0)) by done. rewrite IH by done. cbn [length]. lia.
Qed.

(** [fetchstr] returns the length, without the NUL, of the string at the
    user address and its bytes, if a NUL occurs within the limit and all bytes
    up to it are readable by the user; otherwise -1.  It changes nothing. *)
Theorem fetchstr_reads k l i p addr max :
  kinv k l -> k_cur k = Some i -> k_procs k !! i = Some p -> p_state p <> UNUSED -> 0 <= addr < 2 ^ 64 ->
  wp (fetchstr addr max) k (fun res k' => k' = k /\ exists rc,
    str_read (ubyte (mem (k_m k)) (p_pagetable p)) addr max (rc, res.2) /\
    ((rc = 0 /\ exists str, res.2 = str ++ [0] /\ (0 ∉ str) /\ res.1 = Z.of_nat (length str)) \/
     (rc = -1 /\ res.1 = -1))).
Proof.
  intros Hk Hcur Hi Hlive Ha. unfold fetchstr. apply wp_bind, (wp_myproc i); [done|].
  apply wp_bind, (wp_getp i p); [done|]. apply wp_bind, wp_on_m.
  eapply wp_mono; [by apply (copyinstr_spec (p_pagetable p) addr max (k_m k) l (p_sz p) (p_trapframe p)); [eapply grow_space|]|].
  cbn beta. intros [rc bs] s' [-> Hs]. cbn [fst snd]. pose proof Hs as (_ & _ & Hrc). cbn [fst snd] in Hrc.
  assert (Hid : set_k_m (k_m k) k = k) by (by destruct k).
  destruct Hrc as [(-> & str & -> & Hz)|(-> & _)]; cbn [Z.ltb Z.compare]; apply wp_ret; rewrite Hid; (split; [done|]).
  - exists 0. split; [done|]. left. split; [done|]. exists str. cbn [fst snd]. by rewrite str_len_app.
  - exists (-1). split; [done|]. by right.
Qed.

(** ** Dispatch *)

Section dispatch.
Context (swtch : M (kernel F) unit) (file_calls : Z -> option (M (kernel F) Z)).

(** A system call number without a handler gives the caller -1 in [a0], and
    changes nothing else of the kernel or of RAM. *)
Theorem syscall_unknown k l i p fuel stack :
  kinv k l -> k_cur k = Some i -> k_procs k !! i = Some p -> p_state p <> UNUSED ->
  let num := i32 (ld64 (mem (k_m k)) (p_trapframe p + TF_a7)) in
  ~ (0 < num < NSYSCALLS) \/ syscalls swtch file_calls fuel stack num = None ->
  wp (syscall swtch file_calls fuel stack) k (fun _ k' => kinv k' l /\ arg k' p 0 = 2 ^ 64 - 1 /\
    exists s', k' = set_k_m s' k /\ mheld s' = mheld (k_m k) /\
      forall a, (a < p_trapframe p + TF_a0 \/ p_trapframe p + TF_a0 + 8 <= a) -> mem s' a = mem (k_m k) a).
Proof.
  intros Hk Hcur Hi Hlive num Hnum. unfold syscall. apply wp_bind, (wp_myproc i); [done|].
  apply wp_bind, (wp_getp i p); [done|]. apply wp_bind, wp_on_m, wp_gets.
  assert (Hid : set_k_m (k_m k) k = k) by (by destruct k). rewrite Hid. fold num.
  assert (Hnone : (if (0 <? num) && (num <? NSYSCALLS) then syscalls swtch file_calls fuel stack num else None) = None).
  { case_if; [|done..]. destruct Hnum as [Hnum|Hnum]; [|done]. exfalso. apply Hnum. by split. }
  rewrite Hnone. apply wp_on_m. destruct (wf_live _ _ _ (pw_proc _ _ (ki_wf _ _ Hk) i p Hi) Hlive) as (_ & Hpt & Htf).
  eapply wp_mono; [by apply (store_tf (k_m k) l (k_procs k) i p TF_a0 _ (ki_kmem _ _ Hk) (ki_mem _ _ Hk))|].
  cbn beta. intros _ s' [[W1 W2 W3 W4] E]. split_and!.
  - split; cbn; auto; apply Hk.
  - unfold arg. cbn [k_m set_k_m]. rewrite E, Z.mul_0_r, Z.add_0_r. by apply ld64_st64.
  - exists s'. split_and!; auto. intros a Ha. rewrite E. by apply st_other.
Qed.
End dispatch.
End calls.
