(* ===== verification/Sched.v ===== *)
(** Several CPUs and one process table: which process runs where.

    Each step below is a critical section of proc.c or sysproc_custom.c on one
    entry, made under the lock of that entry (spinlock.c, [Spinlock]), so
    the steps of different CPUs interleave but do not overlap. *)

From S2P Require Import Prelude.
From S2P Require Import Memory.
From S2P Require Import Spinlock.
From S2P Require Import Riscv.
From S2P Require Import Proc.
From S2P Require Import ProcCtl.
From S2P Require Import Syscall.

(** The table, and [cpu->proc] of every CPU. *)
Record cpus := Cpus { cs_procs : list proc; cs_cpu : nat -> option nat }.

Definition on_cpu (c : nat) (x : option nat) (f : nat -> option nat) : nat -> option nat :=
  fun c' => if decide (c' = c) then x else f c'.

Section steps.
(** The signals that [sendsig] is used with. *)
Context (signals : Z -> Prop).

Inductive sched_step : cpus -> cpus -> Prop :=
| step_scheduler s c j p :
    (* scheduler: an idle CPU picks a runnable process *)
    cs_cpu s c = None -> cs_procs s !! j = Some p -> p_state p = RUNNABLE ->
    sched_step s (Cpus (<[j := set_state RUNNING p]> (cs_procs s)) (on_cpu c (Some j) (cs_cpu s)))
| step_yield s c j p :
    cs_cpu s c = Some j -> cs_procs s !! j = Some p ->
    sched_step s (Cpus (<[j := set_state RUNNABLE p]> (cs_procs s)) (on_cpu c None (cs_cpu s)))
| step_sleep s c j p chan :
    cs_cpu s c = Some j -> cs_procs s !! j = Some p ->
    sched_step s (Cpus (<[j := set_state SLEEPING (set_chan chan p)]> (cs_procs s)) (on_cpu c None (cs_cpu s)))
| step_exit s c j p status :
    cs_cpu s c = Some j -> cs_procs s !! j = Some p ->
    sched_step s (Cpus (<[j := set_state ZOMBIE (set_xstate status p)]> (cs_procs s)) (on_cpu c None (cs_cpu s)))
| step_wakeup s c j p chan :
    (* one entry of wakeup's loop on CPU c *)
    cs_procs s !! j = Some p ->
    sched_step s (Cpus (<[j := woken (cs_cpu s c) chan j p]> (cs_procs s)) (cs_cpu s))
| step_kill s j p :
    cs_procs s !! j = Some p ->
    sched_step s (Cpus (<[j := kill_entry p]> (cs_procs s)) (cs_cpu s))
| step_alloc s j p :
    cs_procs s !! j = Some p -> p_state p = UNUSED ->
    sched_step s (Cpus (<[j := set_state USED p]> (cs_procs s)) (cs_cpu s))
| step_publish s j p :
    (* the end of kfork, userinit and sys_thread_create *)
    cs_procs s !! j = Some p -> p_state p = USED ->
    sched_step s (Cpus (<[j := set_state RUNNABLE p]> (cs_procs s)) (cs_cpu s))
| step_free s j p :
    (* freeproc, of a new process or of a zombie *)
    cs_procs s !! j = Some p -> p_state p = USED \/ p_state p = ZOMBIE ->
    sched_step s (Cpus (<[j := set_state UNUSED p]> (cs_procs s)) (cs_cpu s))
| step_sendsig s j p signum :
    cs_procs s !! j = Some p -> p_state p <> UNUSED -> signals signum ->
    sched_step s (Cpus (<[j := deliver signum p]> (cs_procs s)) (cs_cpu s)).

(** Every process on a CPU is RUNNING, every RUNNING process is on a CPU, and
    no process is on two. *)
Record placed (s : cpus) : Prop := {
  pl_cpu c j : cs_cpu s c = Some j -> exists p, cs_procs s !! j = Some p /\ p_state p = RUNNING;
  pl_one c c' j : cs_cpu s c = Some j -> cs_cpu s c' = Some j -> c = c';
  pl_run j p : cs_procs s !! j = Some p -> p_state p = RUNNING -> exists c, cs_cpu s c = Some j
}.

(** A change of an entry that keeps RUNNING and does not introduce it. *)
Lemma placed_entry s j p p' :
  placed s -> cs_procs s !! j = Some p -> (p_state p' = RUNNING <-> p_state p = RUNNING) ->
  placed (Cpus (<[j := p']> (cs_procs s)) (cs_cpu s)).
Proof.
  intros [P1 P2 P3] Hj Hst. assert (Hlt : (j < length (cs_procs s))%nat) by (by eapply lookup_lt_Some).
  split; cbn; [|done|].
  - intros c n Hc. destruct (P1 c n Hc) as (q & Hq & Hr). destruct (decide (n = j)) as [->|Hne].
    + exists p'. split; [by apply list_lookup_insert_eq|]. apply Hst. by simplify_eq.
    + exists q. by rewrite list_lookup_insert_ne.
  - intros n q Hq Hr. destruct (decide (n = j)) as [->|Hne].
    + rewrite list_lookup_insert_eq in Hq by done. simplify_eq. by apply (P3 j p); [|apply Hst].
    + rewrite list_lookup_insert_ne in Hq by done. eauto.
Qed.

(** A process leaves its CPU. *)
Lemma placed_leave s c j p p' :
  placed s -> cs_cpu s c = Some j -> cs_procs s !! j = Some p -> p_state p' <> RUNNING ->
  placed (Cpus (<[j := p']> (cs_procs s)) (on_cpu c None (cs_cpu s))).
Proof.
  intros [P1 P2 P3] Hc Hj Hst. assert (Hlt : (j < length (cs_procs s))%nat) by (by eapply lookup_lt_Some).
  unfold on_cpu. split; cbn.
  - intros c' n. case_decide; [done|]. intros Hc'. destruct (P1 c' n Hc') as (q & Hq & Hr). exists q.
    rewrite list_lookup_insert_ne; [done|]. intros <-. by assert (c' = c) by eauto.
  - intros c1 c2 n. repeat case_decide; try done. eauto.
  - intros n q Hq Hr. destruct (decide (n = j)) as [->|Hne].
    + rewrite list_lookup_insert_eq in Hq by done. by simplify_eq.
    + rewrite list_lookup_insert_ne in Hq by done. destruct (P3 n q Hq Hr) as [c' Hc']. exists c'.
      rewrite decide_False; [done|]. intros ->. congruence.
Qed.

(** An idle CPU takes a process that is on none. *)
Lemma placed_enter s c j p :
  placed s -> cs_cpu s c = None -> cs_procs s !! j = Some p -> p_state p <> RUNNING ->
  placed (Cpus (<[j := set_state RUNNING p]> (cs_procs s)) (on_cpu c (Some j) (cs_cpu s))).
Proof.
  intros [P1 P2 P3] Hc Hj Hst. assert (Hlt : (j < length (cs_procs s))%nat) by (by eapply lookup_lt_Some).
  assert (Hoff : forall c', cs_cpu s c' <> Some j).
  { intros c' Hc'. destruct (P1 c' j Hc') as (q & Hq & ?). congruence. }
  unfold on_cpu. split; cbn.
  - intros c' n. case_decide; intros Hc'.
    + simplify_eq. eexists. split; [by apply list_lookup_insert_eq|done].
    + destruct (P1 c' n Hc') as (q & Hq & Hr). exists q. rewrite list_lookup_insert_ne; [done|].
      intros <-. by apply (Hoff c').
  - intros c1 c2 n. repeat case_decide; intros H1 H2; simplify_eq; eauto; exfalso; by eapply Hoff.
  - intros n q Hq Hr. destruct (decide (n = j)) as [->|Hne].
    + exists c. by rewrite decide_True.
    + rewrite list_lookup_insert_ne in Hq by done. destruct (P3 n q Hq Hr) as [c' Hc']. exists c'.
      rewrite decide_False; [done|]. intros ->. congruence.
Qed.

Lemma woken_running cur c j p : p_state (woken cur c j p) = RUNNING <-> p_state p = RUNNING.
Proof. unfold woken. repeat case_decide; cbn; intuition congruence. Qed.

Lemma kill_running p : p_state (kill_entry p) = RUNNING <-> p_state p = RUNNING.
Proof. unfold kill_entry. repeat case_decide; cbn; intuition congruence. Qed.

(** Only SIGSTOP takes RUNNING away from a process. *)
Lemma deliver_running signum p : signum <> 2 -> p_state (deliver signum p) = RUNNING <-> p_state p = RUNNING.
Proof.
  intros Hs. unfold deliver. destruct (signum =? 1) eqn:E1; bool_simp; cbn; [case_decide; cbn; intuition congruence|].
  rewrite (proj2 (Z.eqb_neq signum 2)) by done. case_if; [|done]. case_decide; cbn in *; intuition congruence.
Qed.

Lemma placed_step s s' : (forall n, signals n -> n <> 2) -> placed s -> sched_step s s' -> placed s'.
Proof.
  intros Hsig Hp Hs. destruct Hs.
  - apply (placed_enter s c j p); congruence.
  - by apply (placed_leave s c j p).
  - by apply (placed_leave s c j p).
  - by apply (placed_leave s c j p).
  - apply (placed_entry s j p); auto using woken_running.
  - apply (placed_entry s j p); auto using kill_running.
  - apply (placed_entry s j p); auto. cbn. intuition congruence.
  - apply (placed_entry s j p); auto. cbn. intuition congruence.
  - apply (placed_entry s j p); auto. cbn. intuition congruence.
  - apply (placed_entry s j p); auto using deliver_running.
Qed.
End steps.


(** Two CPUs, and a process that runs on the first. *)
Definition sig_proc : proc :=
  Proc RUNNING NoChan 0 0 1 0 0 None 0 0 0 0 (Context_ 0 0 []) [] 0 [].
Definition sig_start : cpus := Cpus [sig_proc] (fun c => if decide (c = 0%nat) then Some 0%nat else None).

Lemma sig_start_placed : placed sig_start.
Proof.
  unfold sig_start. split; cbn.
  - intros c j. case_decide; [intros [= <-]; by exists sig_proc|done].
  - intros c c' j. repeat case_decide; congruence.
  - intros [|j] p [= <-] _. exists 0%nat. done.
Qed.

(** C15. With SIGSTOP and SIGCONT of [sys_sendsig] the same process can be made
    to run on two CPUs at once: stopping a process that is running marks it
    SLEEPING although it has not left its CPU, continuing it makes it RUNNABLE,
    and an idle CPU takes it. *)
Theorem sigstop_runs_twice :
  placed sig_start /\
  exists s, rtc (sched_step (fun n => n = 2 \/ n = 3)) sig_start s /\
    cs_cpu s 0%nat = Some 0%nat /\ cs_cpu s 1%nat = Some 0%nat.
Proof.
  split; [apply sig_start_placed|]. eexists. split.
  - eapply rtc_l; [apply (step_sendsig _ _ 0%nat sig_proc 2); by auto|].
    eapply rtc_l; [apply (step_sendsig _ _ 0%nat (deliver 2 sig_proc) 3); by auto|].
    eapply rtc_l; [by apply (step_scheduler _ _ 1%nat 0%nat (deliver 3 (deliver 2 sig_proc)))|]. apply rtc_refl.
  - done.
Qed.

