(* ===== verification/VmTheorems.v ===== *)
(** The theorems on page tables and user memory (vm.c) and on the memory of a
    process (proc.c). *)

From S2P Require Import Prelude.
From S2P Require Import Memory.
From S2P Require Import Spinlock.
From S2P Require Import Riscv.
From S2P Require Import Kalloc.
From S2P Require Import PageTable.
From S2P Require Import AddrSpace.
From S2P Require Import Uvm.
From S2P Require Import UserMem.
From S2P Require Import UserCopy.
From S2P Require Import ProcMem.
From S2P Require Import Proc.
From S2P Require Import ProcInv.
From S2P Require Import ProcOps.

Section vm.
Context `{LinkerSyms}.

(** [mappages] on an unmapped range installs the mapping of every page of
    the range, in order, and changes no other mapping; if it runs out of pages
    for the table, the pages mapped so far are a prefix of the range, the free
    list is empty and the result is -1.  The table stays a tree of distinct
    pages, and RAM outside the table and the free list is not written. *)
Theorem mappages_installs r va size pa perm s l :
  kmem_inv s l -> ptree 2 (mem s) r l -> va_ok va -> size mod PGSIZE = 0 -> 0 < size ->
  va + size <= MAXVA -> 0 <= perm < 1024 -> 0 <= pa -> pa + size <= 2 ^ 56 ->
  (forall va', va_ok va' -> va <= va' < va + size -> xlate (mem s) r va' = None) ->
  wp (mappages r va size pa perm) s
     (fun rc s' => exists l', kmem_inv s' l' /\ tbl_post (mem s) (mem s') r l l' /\
        mheld s' = mheld s /\
        exists done, mapped_to (mem s) (mem s') r va done pa perm /\ done mod PGSIZE = 0 /\
        ((rc = 0 /\ done = size) \/ (rc = -1 /\ l' = [] /\ 0 <= done < size))).
Proof. apply mappages_spec. Qed.

(** [uvmalloc] either maps a zeroed page of its own, with the permissions
    asked for, at every page of the new range and returns the new size, or
    gives back all it took, leaves every mapping as it was and returns 0. *)
Theorem uvmalloc_all_or_nothing top r oldsz newsz xperm s l :
  kmem_inv s l -> uspace top (mem s) r l -> 0 <= oldsz <= newsz ->
  PGROUNDUP newsz <= top -> newsz <= MAXVA -> top <= MAXVA -> 0 <= xperm < 1024 ->
  (forall va, va_ok va -> PGROUNDUP oldsz <= va < PGROUNDUP newsz -> xlate (mem s) r va = None) ->
  wp (uvmalloc r oldsz newsz xperm) s (fun rc s' => exists l', kmem_inv s' l' /\
    uspace top (mem s') r l' /\ mheld s' = mheld s /\
    ((rc = newsz /\ grow_post top (zero_fill xperm) (mem s) (mem s') r l l'
                      (PGROUNDUP oldsz) (PGROUNDUP newsz)) \/
     (rc = 0 /\ quiet top (mem s) (mem s') r l l'))).
Proof. apply uvmalloc_spec. Qed.

(** [uvmcopy] gives the child a copy of every mapped page of the parent,
    with the same contents and permissions, or, short of memory, undoes the
    copies made so far and returns -1. *)
Theorem uvmcopy_copies top ro rn sz s l :
  kmem_inv s l -> uspace top (mem s) ro l -> uspace top (mem s) rn l -> apart top (mem s) ro rn ->
  0 <= sz <= MAXVA -> PGROUNDUP sz <= top -> top <= MAXVA ->
  (forall va, va_ok va -> va < PGROUNDUP sz -> xlate (mem s) rn va = None) ->
  wp (uvmcopy ro rn sz) s (fun rc s' => exists l', kmem_inv s' l' /\
    uspace top (mem s') rn l' /\ mheld s' = mheld s /\
    ((rc = 0 /\ grow_post top (copy_fill (mem s) ro) (mem s) (mem s') rn l l' 0 (PGROUNDUP sz)) \/
     (rc = -1 /\ quiet top (mem s) (mem s') rn l l'))).
Proof. apply uvmcopy_spec. Qed.

(** C10. [uvmfree] leaks nothing and frees nothing else: afterwards the free
    list holds the old free pages, the user pages and the pages of the table
    itself, each once, and no other page of RAM has changed. *)
Theorem uvmfree_no_leak top r sz s l :
  kmem_inv s l -> uspace top (mem s) r l -> 0 <= sz <= MAXVA -> PGROUNDUP sz <= top -> top <= MAXVA ->
  (forall va, va_ok va -> xlate (mem s) r va <> None -> va < sz) ->
  wp (uvmfree r sz) s (fun _ s' => exists l', kmem_inv s' l' /\ mheld s' = mheld s /\
    (forall q, q ∈ l' <-> owned top (mem s) r l q) /\ others_kept (mem s) (mem s') l').
Proof. apply uvmfree_spec. Qed.

(** [vmfault], on a page-aligned address, maps one zeroed, writable user
    page exactly when the address is below the size of the process, nothing is
    mapped there and memory is left; otherwise it returns 0 and changes no
    mapping. *)
Theorem vmfault_maps_one r va s l sz tf :
  kmem_inv s l -> proc_space (mem s) r l sz tf -> va_ok va ->
  wp (vmfault (ProcView sz r) r va) s (fun a s' => exists l', kmem_inv s' l' /\
    proc_space (mem s') r l' sz tf /\ mheld s' = mheld s /\
    ((a = 0 /\ quiet TRAPFRAME (mem s) (mem s') r l l') \/
     (va < sz /\ xlate (mem s) r va = None /\ a <> 0 /\
      xlate (mem s') r va = Some (mk_pte a URW) /\ is_valid_pa a = true /\
      grow_post TRAPFRAME (lazy_fill (mem s) r) (mem s) (mem s') r l l' va (va + PGSIZE)))).
Proof. apply vmfault_spec. Qed.

(** C8. [copyout], for any 64-bit address, writes the bytes to the user memory
    of the process and nothing else: the view of the user changes exactly at
    the destination, pages below the size may be filled in lazily, and on
    failure a prefix has been written up to the first byte that is not
    writable by the user. *)
Theorem copyout_writes r dstva src s l sz tf :
  kmem_inv s l -> proc_space (mem s) r l sz tf -> 0 <= dstva < 2 ^ 64 -> byte_list src ->
  wp (copyout (ProcView sz r) r dstva src) s (fun rc s' => exists l', kmem_inv s' l' /\
    proc_space (mem s') r l' sz tf /\ mheld s' = mheld s /\ contained (mem s) (mem s') r l l' /\
    exists k, out_to sz dstva (take k src) (ubyte (mem s) r) (ubyte (mem s') r) /\
      ((rc = 0 /\ k = length src) \/
       (rc = -1 /\ (k < length src)%nat /\
        (dstva + Z.of_nat k < TRAPFRAME -> ~ writable (ubyte (mem s') r) (dstva + Z.of_nat k))))).
Proof. apply copyout_spec. Qed.

Lemma overwrite_reads e dst bs e' :
  0 <= dst -> (bs <> [] -> dst + Z.of_nat (length bs) <= TRAPFRAME) ->
  (forall va, dst <= va < dst + Z.of_nat (length bs) -> writable e va) ->
  view_eq (overwrite e dst bs) e' -> reads e' dst bs.
Proof.
  intros Hd Hle Hw Hv. split; [done|]. intros i Hi. destruct (Hw (dst + Z.of_nat i)) as (fl & b & E & HU & _); [lia|].
  exists fl. split; [|done]. assert (bs <> []) by (destruct bs; cbn in *; [lia|done]).
  rewrite Hv by (specialize (Hle ltac:(done)); lia). unfold overwrite. rewrite E. case_if; [|lia..].
  do 3 f_equal. lia.
Qed.

(** What [copyout] has written, [copyin] reads back: if the copy out
    succeeded, copying the same number of bytes in from the same address
    succeeds and yields the same bytes. *)
Theorem copyout_copyin_roundtrip r va src s l sz tf :
  kmem_inv s l -> proc_space (mem s) r l sz tf -> 0 <= va < 2 ^ 64 -> byte_list src ->
  wp (rc <- copyout (ProcView sz r) r va src ;;
      if rc =? 0 then res <- copyin (ProcView sz r) r va (length src) ;; ret (Some res) else ret None) s
    (fun res s' => res = Some (0, src) \/ res = None).
Proof.
  intros Hs Hps Hva Hb. apply wp_bind. eapply wp_mono; [by apply copyout_spec|].
  cbn beta. intros rc s1 (l1 & Hs1 & Hps1 & _ & _ & k & Ho & [[-> ->]|(-> & _)]); [|apply wp_ret; by right].
  rewrite firstn_all in Ho. destruct Ho as (Hle & e1 & _ & Hw & Hv).
  pose proof (overwrite_reads e1 va src _ ltac:(lia) Hle Hw Hv) as Hr. cbn [Z.eqb].
  apply wp_bind. eapply wp_mono; [by apply copyin_spec|].
  cbn beta. intros [rc bs] s2 (l2 & _ & _ & _ & _ & Hlz & Hr2 & Hrc). cbn [fst snd] in *. apply wp_ret. left. f_equal.
  eapply (reads_full _ va); [eapply reads_lazy; [|exact Hr|exact Hlz]; lia|exact Hr2|exact Hrc].
Qed.

(** [proc_pagetable] builds a table that maps the trapframe and the
    trampoline, and nothing else, out of free pages, or gives back what it
    took; [proc_freepagetable] then returns the free list to the pages it had.
    RAM outside the free list is not touched by either. *)
Theorem pagetable_roundtrip tf s l :
  kmem_inv s l -> is_valid_pa tf = true -> tf ∉ l ->
  wp (proc_pagetable tf) s (fun r s1 => outside_kept (mem s) (mem s1) l /\ mheld s1 = mheld s /\ exists l1,
    kmem_inv s1 l1 /\
    ((r = 0 /\ forall q, q ∈ l1 <-> q ∈ l) \/
     (proc_space (mem s1) r l1 0 tf /\
      wp (proc_freepagetable r 0) s1 (fun _ s2 => exists l2, kmem_inv s2 l2 /\ mheld s2 = mheld s /\
        (forall q, q ∈ l2 <-> q ∈ l) /\ outside_kept (mem s) (mem s2) l)))).
Proof.
  intros Hs Htf Hl. eapply wp_mono; [by apply proc_pagetable_spec|].
  cbn beta. intros r s1 (l1 & Hs1 & Hh1 & Hk1 & Hor). split_and!; auto. exists l1. split; [done|].
  destruct Hor as [(-> & _ & Hfail)|(Hr & _ & Hps & Hfrom & Hno)]; [by left|]. right. split; [done|].
  eapply wp_mono; [apply (proc_freepagetable_spec r 0 s1 l1); auto; [apply Hps| |apply Hps]|].
  { split; [lia|]. by vm_compute. }
  cbn beta. intros _ s2 (l2 & Hs2 & Hh2 & Hown & Hk2).
  assert (Heq : forall q, q ∈ l2 <-> q ∈ l).
  { intros q. rewrite Hown, (Hfrom q). unfold owned, in_tree, upage. split.
    - intros [?|[?|(va & Hva & Hlt & E)]]; [by left|by right|]. by rewrite Hno in E.
    - intros [?|?]; [by left|right; by left]. }
  exists l2. split_and!; auto; [congruence|]. intros q Hv Hq x Hx. rewrite (Hk2 q), (Hk1 q); auto. by rewrite Heq.
Qed.
End vm.
