(* ===== verification/ProcTheorems.v ===== *)
(** The theorems on the process table (proc.c). *)

From S2P Require Import Prelude.
From S2P Require Import Memory.
From S2P Require Import Spinlock.
From S2P Require Import Riscv.
From S2P Require Import Kalloc.
From S2P Require Import PageTable.
From S2P Require Import AddrSpace.
From S2P Require Import Uvm.
From S2P Require Import UserMem.
From S2P Require Import UserCopy.
From S2P Require Import ProcMem.
From S2P Require Import Proc.
From S2P Require Import ProcInv.
From S2P Require Import ProcOps.
From S2P Require Import Fork.
From S2P Require Import ProcCtl.
From S2P Require Import Wait.
From S2P Require Import Exit.
From S2P Require Import Syscall.
From S2P Require Import SysSpec.

Section proc.
Context {F : Type} `{FileLaws F} `{LinkerSyms}.
Implicit Types k : kernel F.

(** [allocproc] turns the first unused entry into a new process with the
    next pid, a trapframe and an empty address space, with the lock of the entry
    held; short of memory or entries it leaves the free list as it was.
    [freeproc] on the new process returns the free list to the pages it had
    and the entry to [UNUSED]. *)
Theorem allocproc_freeproc k l :
  kinv k l -> no_proc_locks k -> PidLock ∉ held k -> k_nextpid k + 1 < 2 ^ 31 ->
  wp allocproc k (fun r k1 =>
    match r with
    | None => exists l1, kinv k1 l1 /\ held k1 = held k /\ forall q, q ∈ l1 <-> q ∈ l
    | Some i => exists l1 p tf pt, k_procs k !! i = Some p /\ p_state p = UNUSED /\ used_below (k_procs k) i /\
        kinv k1 l1 /\ held k1 = ProcLock i :: held k /\
        only_alloc k k1 i (new_proc p (k_nextpid k) tf pt) /\
        wp (freeproc i) k1 (fun _ k2 => exists l2, kmem_inv (k_m k2) l2 /\ (forall q, q ∈ l2 <-> q ∈ l) /\
          k_procs k2 = <[i := cleared (new_proc p (k_nextpid k) tf pt)]> (k_procs k))
    end).
Proof.
  intros Hk Hnl Hpl Hn. apply (allocproc_spec k l); auto.
  { intros _. exists l. by split_and!. }
  intros r k1 i p Hi Hst Hub (l1 & Hk1 & _ & [(-> & _ & Hh & Heq)|(tf & pt & -> & Hoa & Hh & Heq & _)]).
  { by exists l1. }
  exists l1, p, tf, pt. split_and!; auto. set (np := new_proc p (k_nextpid k) tf pt) in *.
  assert (Hi1 : k_procs k1 !! i = Some np).
  { rewrite (oa_procs _ _ _ _ Hoa). apply list_lookup_insert_eq. by eapply lookup_lt_Some. }
  eapply wp_mono; [apply (freeproc_spec i np k1 l1); auto; apply Hk1|].
  cbn beta. intros _ k2 (l2 & Hs2 & _ & Hop & Hf & _). exists l2. split_and!; auto.
  - intros q. by rewrite (Hf q), (Heq q).
  - rewrite (op_procs _ _ _ _ Hop), (oa_procs _ _ _ _ Hoa). by rewrite list_insert_insert_eq.
Qed.

(** C7. [kfork] gives the child a copy of the parent: the same bytes and
    permissions at every user address in pages of its own, the same registers
    but for [a0], which is 0, the open files and the directory, and the
    caller as its parent; it returns the new pid.  If memory or entries run out
    it returns -1 and the free list is as before.  In both cases the memory
    of every other process is untouched. *)
Theorem kfork_copies_parent k l i p :
  kinv k l -> k_cur k = Some i -> k_procs k !! i = Some p -> p_state p <> UNUSED -> no_proc_locks k ->
  PidLock ∉ held k -> WaitLock ∉ held k -> k_nextpid k + 1 < 2 ^ 31 -> files_open (k_files k) (p_ofile p) ->
  wp kfork k (fork_post k l i p (fun o =>
    if (TF_a0 <=? o) && (o <? TF_a0 + 8) then 0 else mem (k_m k) (p_trapframe p + o))).
Proof. apply kfork_spec. Qed.

(** [growproc] by a positive amount adds zeroed writable pages up to the
    new size or fails with -1 and no change; by a negative amount it unmaps and
    frees the pages above the new size; in each case no other process is
    affected.  A negative amount larger than the size succeeds and
    changes nothing. *)
Theorem growproc_resizes k l i p n :
  kinv k l -> k_cur k = Some i -> k_procs k !! i = Some p -> p_state p <> UNUSED -> - 2 ^ 31 <= n < 2 ^ 31 ->
  wp (growproc n) k (grow_result k l i p n).
Proof. apply growproc_spec. Qed.

(** [wakeup] makes every process but the caller that sleeps on the channel
    runnable, and changes nothing else. *)
Theorem wakeup_channel k l c :
  kinv k l -> others_unlocked k ->
  wp (wakeup c) k (fun _ k' => kinv k' l /\ k' = set_k_procs (imap (woken (k_cur k) c) (k_procs k)) k).
Proof.
  intros Hk Hu. apply wakeup_spec; [apply (pw_len _ _ (ki_wf _ _ Hk))|done|]. split; [|done].
  apply kinv_map; [done|]. apply Forall2_imap_core. intros. apply woken_core.
Qed.

(** [kkill] marks the first entry with the pid as killed, wakes it if it
    sleeps, and returns 0; without such an entry it returns -1 and changes
    nothing. *)
Theorem kkill_marks k l pid :
  kinv k l -> no_proc_locks k ->
  wp (kkill pid) k (fun rc k' =>
    (rc = 0 /\ kinv k' l /\ exists j p, first_pid (k_procs k) pid j p /\
       k' = set_k_procs (<[j := kill_entry p]> (k_procs k)) k) \/
    (rc = -1 /\ k' = k /\ forall j p, k_procs k !! j = Some p -> p_pid p <> pid)).
Proof.
  intros Hk Hnl. apply kkill_spec; auto; [apply (pw_len _ _ (ki_wf _ _ Hk))|].
  intros j p Hf. left. split_and!; auto; [|eauto]. apply kinv_map; [done|].
  eapply Forall2_core_insert; [apply Hf|apply kill_entry_core].
Qed.

(** C40. [kill(0)] succeeds and marks an unused entry as killed, and the next
    child forked into it is killed from its birth: pid 0 is that of every
    unused entry, and neither [allocproc] nor [kfork] clears the mark. *)
Theorem kill_zero_poisons k l i p :
  kinv k l -> k_cur k = Some i -> k_procs k !! i = Some p -> p_state p <> UNUSED -> no_proc_locks k ->
  PidLock ∉ held k -> WaitLock ∉ held k -> k_nextpid k + 1 < 2 ^ 31 -> files_open (k_files k) (p_ofile p) ->
  (exists j q, k_procs k !! j = Some q /\ p_state q = UNUSED) ->
  wp (kkill 0) k (fun rc k1 => rc = 0 /\ wp kfork k1 (fun pid k2 =>
    pid = -1 \/ exists j c, k_procs k2 !! j = Some c /\ p_pid c = pid /\ p_state c = RUNNABLE /\ p_killed c = 1)).
Proof.
  intros Hk Hcur Hi Hlive Hnl Hpl Hwl Hn Hop (j0 & q0 & Hj0 & Hq0). pose proof (ki_wf _ _ Hk) as Hw.
  assert (Hzero : forall j q, k_procs k !! j = Some q -> p_pid q = 0 <-> p_state q = UNUSED).
  { intros j q Hj. pose proof (pw_proc _ _ Hw j q Hj) as Hq. split; [|apply Hq].
    intros E. destruct (decide (p_state q = UNUSED)) as [|Hne]; [done|].
    destruct (wf_live _ _ _ Hq Hne). lia. }
  apply kkill_spec; auto; [apply (pw_len _ _ Hw)| |].
  2: { intros Hno. exfalso. apply (Hno j0 q0 Hj0). by apply (Hzero j0). }
  intros j q (Hj & Hpid & Hfirst). apply (Hzero j q Hj) in Hpid as Hun. split; [done|].
  assert (Ekill : kill_entry q = set_killed 1 q).
  { unfold kill_entry. rewrite decide_False; [done|]. cbn. by rewrite Hun. }
  assert (Hne : i <> j) by (intros ->; congruence). rewrite Ekill.
  set (k1 := set_k_procs (<[j := set_killed 1 q]> (k_procs k)) k).
  assert (Hk1 : kinv k1 l).
  { apply kinv_map; [done|]. rewrite <- Ekill. eapply Forall2_core_insert; [exact Hj|apply kill_entry_core]. }
  assert (Hi1 : k_procs k1 !! i = Some p) by (cbn; by rewrite list_lookup_insert_ne).
  eapply wp_mono; [by apply (kfork_spec k1 l i p)|].
  intros pid k2 (l2 & _ & _ & _ & _ & _ & _ & [(-> & _)|(j' & q' & tf & pt & -> & Hj' & Hq' & Hub & Hps & _)]); [by left|].
  right. assert (Hjj : j' = j).
  { destruct (lt_eq_lt_dec j' j) as [[Hlt|]|Hgt]; [exfalso|done|exfalso].
    - cbn in Hj'. rewrite list_lookup_insert_ne in Hj' by lia. apply (Hfirst j' q' Hlt Hj'). by apply (Hzero j').
    - apply (Hub j (set_killed 1 q)); [done| |done]. cbn. apply list_lookup_insert_eq. by eapply lookup_lt_Some. }
  subst j'. cbn in Hj'. rewrite list_lookup_insert_eq in Hj' by (by eapply lookup_lt_Some). injection Hj' as <-.
  eexists j, _. rewrite Hps. split; [apply list_lookup_insert_eq; cbn; rewrite length_insert; by eapply lookup_lt_Some|].
  by split_and!.
Qed.
End proc.
