(* ===== verification/Boot.v ===== *)
(** A concrete machine for the witnesses: sixteen pages of RAM, a file layer
    that counts references, and the states that the kernel's own code reaches
    from boot on it. *)

From S2P Require Import Prelude.
From S2P Require Import Memory.
From S2P Require Import Spinlock.
From S2P Require Import Riscv.
From S2P Require Import Kalloc.
From S2P Require Import PageTable.
From S2P Require Import AddrSpace.
From S2P Require Import Uvm.
From S2P Require Import UserMem.
From S2P Require Import UserCopy.
From S2P Require Import ProcMem.
From S2P Require Import Proc.
From S2P Require Import ProcInv.
From S2P Require Import ProcOps.
From S2P Require Import Fork.
From S2P Require Import ProcCtl.
From S2P Require Import Wait.
From S2P Require Import Exit.

(** ** A file layer that counts references *)

Record counts := Counts { fc_ref : Z -> nat; fc_iref : Z -> nat; fc_tx : bool }.

Definition bump (f : nat -> nat) (x : Z) (r : Z -> nat) : Z -> nat := fun y => if y =? x then f (r y) else r y.

#[export] Instance count_files : FileLayer counts := {|
  filedup f := fun s =>
    match fc_ref s f with O => Panic "filedup" | _ => Ok (f, Counts (bump S f (fc_ref s)) (fc_iref s) (fc_tx s)) end;
  idup ip := fun s => Ok (ip, Counts (fc_ref s) (bump S ip (fc_iref s)) (fc_tx s));
  namei_root := fun s => Ok (1, Counts (fc_ref s) (bump S 1 (fc_iref s)) (fc_tx s));
  fileclose f := fun k =>
    match fc_ref (k_files k) f with
    | O => Panic "fileclose"
    | _ => Ok (tt, set_k_files (Counts (bump pred f (fc_ref (k_files k))) (fc_iref (k_files k)) (fc_tx (k_files k))) k)
    end;
  iput ip := fun k =>
    if fc_tx (k_files k)
    then Ok (tt, set_k_files (Counts (fc_ref (k_files k)) (bump pred ip (fc_iref (k_files k))) true) k)
    else Panic "iput";
  begin_op := fun k => Ok (tt, set_k_files (Counts (fc_ref (k_files k)) (fc_iref (k_files k)) true) k);
  end_op := fun k => Ok (tt, set_k_files (Counts (fc_ref (k_files k)) (fc_iref (k_files k)) false) k)
|}.

(** ** The kernel after [kinit] and [procinit] *)

Definition free_proc (j : nat) : proc :=
  Proc UNUSED NoChan 0 0 0 0 0 None (KSTACK (Z.of_nat j)) 0 0 0 (Context_ 0 0 (replicate 12 0))
    (replicate NOFILE 0) 0 (replicate 16 0).


(** RAM whose free pages are linked, highest first, as [kinit] leaves them,
    and otherwise zero. *)
Definition boot_mem : memory := fun a =>
  let page := a - a mod PGSIZE in
  let next := if page =? sym_end then 0 else page - PGSIZE in
  if (sym_end <=? a) && (a <? PHYSTOP) && (a mod PGSIZE <? 8) then (next / 256 ^ (a mod PGSIZE)) mod 256 else 0.

Definition boot_machine : machine := Machine boot_mem (PHYSTOP - PGSIZE) [].

Definition boot_kernel : kernel counts :=
  Kernel boot_machine (map free_proc (seq 0 NPROC)) 1 None None 0 (Counts (fun _ => 0%nat) (fun _ => 0%nat) false).

(** The free pages. *)
Definition boot_list16 : list Z := map (fun i => PHYSTOP - PGSIZE * Z.of_nat i) (seq 1 16).

Lemma boot_machine_inv : kmem_inv boot_machine boot_list16.
Proof.
  split.
  - intros a. cbn [mem boot_machine]. unfold boot_mem. case_if; [|lia..]. apply Z.mod_pos_bound. lia.
  - vm_compute. repeat split; done.
  - apply (bool_decide_unpack _). by vm_compute.
  - apply (bool_decide_unpack _). by vm_compute.
  - apply not_elem_of_nil.
Qed.

Lemma boot_inv : kinv boot_kernel boot_list16.
Proof.
  assert (Hl : forall j p, k_procs boot_kernel !! j = Some p -> p = free_proc j).
  { intros j p Hj. unfold boot_kernel in Hj. cbn [k_procs] in Hj. rewrite list_lookup_fmap in Hj.
    destruct (seq 0 NPROC !! j) as [n|] eqn:E; [|done]. apply lookup_seq in E as [-> _]. by injection Hj. }
  split; [apply boot_machine_inv| | |done].
  - split.
    + by intros j p ->%Hl.
    + intros i j p q x _ ->%Hl ->%Hl [[? _]|[? _]]; done.
  - split; [done| |].
    + by intros j p ->%Hl.
    + by intros i j p q ->%Hl.
Qed.

(** ** A running process *)

(** The kernel after [allocproc]. *)
Definition alloc_kernel : kernel counts :=
  final allocproc boot_kernel.

Lemma alloc_some : returns allocproc boot_kernel = Some (Some 0%nat).
Proof. by vm_compute. Qed.

Lemma alloc_kernel_ok : exists l tf pt,
  kinv alloc_kernel l /\ held alloc_kernel = [ProcLock 0] /\
  only_alloc boot_kernel alloc_kernel 0 (new_proc (free_proc 0) 1 tf pt) /\
  forall va, va_ok va -> va < TRAPFRAME -> xlate (mem (k_m alloc_kernel)) pt va = None.
Proof.
  assert (Hw : wp allocproc boot_kernel (fun r k' => exists i p, k_procs boot_kernel !! i = Some p /\
    alloc_ok boot_kernel k' [] boot_list16 i p r)).
  { apply (allocproc_spec _ boot_list16); [apply boot_inv|intros i; apply not_elem_of_nil|apply not_elem_of_nil|done| |].
    - intros Hn. by destruct (Hn 0%nat (free_proc 0)).
    - intros r k' i p Hi _ _ Ha. eauto. }
  pose proof (wp_final _ _ _ _ Hw alloc_some) as Hf. unfold alloc_kernel. clear Hw.
  generalize dependent (final allocproc boot_kernel). intros k (i & p & Hi & l & Hk & _ & Hor).
  destruct Hor as [(? & _)|(tf & pt & [= <-] & Hoa & Hh & _ & Hx)]; [done|].
  injection Hi as <-. by exists l, tf, pt.
Qed.

(** The scheduler has started it: [RUNNING], current, no locks. *)
Definition start_entry (p : proc) : proc := set_state RUNNING (set_cwd 1 p).

Definition start (k : kernel counts) : kernel counts :=
  set_k_cur (Some 0%nat) (set_held [] (set_k_procs (alter start_entry 0%nat (k_procs k)) k)).

Definition started : kernel counts := start alloc_kernel.

(** Process 0 is running, alone and without locks, with [sz] bytes of memory. *)
Record alone (k : kernel counts) (l : list Z) (p : proc) (sz : Z) : Prop := {
  al_inv : kinv k l;
  al_cur : k_cur k = Some 0%nat;
  al_proc : k_procs k !! 0%nat = Some p;
  al_state : p_state p = RUNNING;
  al_sz : p_sz p = sz;
  al_pid : p_pid p = 1;
  al_ofile : p_ofile p = replicate NOFILE 0;
  al_cwd : p_cwd p = 1;
  al_killed : p_killed p = 0;
  al_parent : p_parent p = None;
  al_next : k_nextpid k = 2;
  al_held : held k = [];
  al_others j q : j <> 0%nat -> k_procs k !! j = Some q -> p_state q = UNUSED;
  al_names j q : k_procs k !! j = Some q -> byte_list (p_name q);
  al_init : k_initproc k = None;
  al_files : k_files k = Counts (fun _ => 0%nat) (fun _ => 0%nat) false
}.

Lemma zero_bytes n : byte_list (replicate n 0).
Proof. apply Forall_replicate. lia. Qed.

Lemma start_ok k l tf pt :
  kinv k l -> held k = [ProcLock 0] -> only_alloc boot_kernel k 0 (new_proc (free_proc 0) 1 tf pt) ->
  alone (start k) l (start_entry (new_proc (free_proc 0) 1 tf pt)) 0.
Proof.
  intros Hk Hh [Hp Hn H1 H2 H3 H4]. set (np := new_proc (free_proc 0) 1 tf pt) in *.
  assert (Hi : k_procs k !! 0%nat = Some np) by (by rewrite Hp).
  split; auto.
  - assert (Hk2 : kinv (set_k_procs (alter start_entry 0%nat (k_procs k)) k) l).
    { rewrite (alter_insert start_entry _ _ _ Hi). by apply (kinv_set_live k l 0 np (start_entry np)). }
    apply (kinv_set_held _ _ []) in Hk2; [|apply not_elem_of_nil]. destruct Hk2 as [? ? ? ?]. by split.
  - cbn. rewrite (alter_insert start_entry _ _ _ Hi). by rewrite Hp.
  - intros j q Hj. cbn. rewrite (alter_insert start_entry _ _ _ Hi), Hp, !list_lookup_insert_ne by done.
    unfold boot_kernel. cbn [k_procs]. rewrite list_lookup_fmap. destruct (seq 0 NPROC !! j); [|done].
    by intros [= <-].
  - intros j q. cbn. rewrite (alter_insert start_entry _ _ _ Hi), Hp.
    destruct (decide (j = 0%nat)) as [->|Hj].
    + rewrite list_lookup_insert_eq by (by vm_compute; lia). intros [= <-]. apply zero_bytes.
    + rewrite !list_lookup_insert_ne by done. unfold boot_kernel. cbn [k_procs]. rewrite list_lookup_fmap.
      destruct (seq 0 NPROC !! j); [|done]. intros [= <-]. apply zero_bytes.
Qed.

Lemma started_ok : exists l p, alone started l p 0 /\
  forall va, 0 <= va < TRAPFRAME -> ubyte (mem (k_m started)) (p_pagetable p) va = None.
Proof.
  destruct alloc_kernel_ok as (l & tf & pt & Hk & Hh & Ho & Hx). unfold started.
  generalize dependent alloc_kernel. intros k Hk Hh Ho Hx.
  exists l, (start_entry (new_proc (free_proc 0) 1 tf pt)). split; [by apply start_ok|].
  intros va Hva. destruct (page_of va Hva) as [Hpg Hlt]. unfold ubyte.
  change (p_pagetable (start_entry _)) with pt. change (mem (k_m (start k))) with (mem (k_m k)). by rewrite Hx.
Qed.

(** ... and has two pages of memory. *)
Definition grown : kernel counts := final (growproc 8192) started.

Lemma grow_returns : returns (growproc 8192) started = Some 0.
Proof. by vm_compute. Qed.

Lemma grown_ok : exists l p, alone grown l p 8192 /\
  forall va, 0 <= va < 8192 ->
    ubyte (mem (k_m grown)) (p_pagetable p) va = Some (Z.lor (uperm PTE_W) PTE_V, 0).
Proof.
  destruct started_ok as (l & p & [A1 A2 A3 A4 A5 A6 A7 A8 A9 A9' A10 A11 A12 A12' A13 A14] & _).
  assert (Hlive : p_state p <> UNUSED) by congruence.
  pose proof (wp_final _ _ _ _ (growproc_spec started l 0 p 8192 A1 A2 A3 Hlive ltac:(lia)) grow_returns) as Hg.
  unfold grown. generalize dependent (final (growproc 8192) started). intros k Hg. generalize dependent started. intros k0 **.
  destruct Hg as (l' & [(? & _)|[(_ & _ & [Hk [Hp Hn Hin Hc _ Hf Hh] _] & Hz)|(_ & ? & _)]]); [done| |lia].
  exists l', (set_sz (p_sz p + 8192) p). split.
  - split; auto; try congruence.
    + by rewrite Hp, list_lookup_insert_eq by (by eapply lookup_lt_Some).
    + cbn. lia.
    + intros j q Hj. rewrite Hp, list_lookup_insert_ne by done. by apply A12.
    + intros j q. rewrite Hp. destruct (decide (j = 0%nat)) as [->|Hj].
      * rewrite list_lookup_insert_eq by (by eapply lookup_lt_Some). intros [= <-]. by apply (A12' 0%nat p).
      * rewrite list_lookup_insert_ne by done. apply A12'.
  - intros va Hva. rewrite Hz by (change TRAPFRAME with (2 ^ 38 - 8192); lia). rewrite A5.
    change (PGROUNDUP 0) with 0. change (PGROUNDUP (0 + 8192)) with 8192. case_if; [done|lia..].
Qed.

(** ** Registers *)

(** [k] with register [o] of the trapframe at [tf] set to [v]. *)
Definition poke (k : kernel counts) (tf o v : Z) : kernel counts :=
  set_k_m (set_mem (st64 (mem (k_m k)) (tf + o) v) (k_m k)) k.

Lemma poke_ok k l p sz o v :
  alone k l p sz -> 0 <= o -> o + 8 <= PGSIZE ->
  alone (poke k (p_trapframe p) o v) l p sz /\
  view_eq (ubyte (mem (k_m k)) (p_pagetable p)) (ubyte (mem (k_m (poke k (p_trapframe p) o v))) (p_pagetable p)).
Proof.
  intros [A1 A2 A3 A4 A5 A6 A7 A8 A9 A9' A10 A11 A12 A12' A13 A14] Ho1 Ho2.
  destruct (wf_live _ _ _ (pw_proc _ _ (ki_wf _ _ A1) 0 p A3)) as (_ & Hpt & Htf); [congruence|].
  assert (Hf : mem_frame (p_trapframe p) (mem (k_m k)) (st64 (mem (k_m k)) (p_trapframe p + o) v)).
  { intros x Hx. unfold PGSIZE in *. apply st_other. lia. }
  assert (Hb : bytes_ok (st64 (mem (k_m k)) (p_trapframe p + o) v)).
  { apply st_bytes_ok. apply (km_bytes _ _ (ki_kmem _ _ A1)). }
  destruct (write_trapframe (k_m k) l (k_procs k) 0 p _ (ki_kmem _ _ A1) (ki_mem _ _ A1) A3 Hpt Htf Hf Hb) as [Hs Hpm].
  split; [split; auto; split; cbn; auto; apply A1|].
  pose proof (pm_proc _ _ _ (ki_mem _ _ A1) 0 p A3) as Hp.
  eapply view_frame; [exact Hp|done|]. intros q Hq Hne.
  destruct (foot_valid _ _ _ _ Hp Hq) as [[Hqa _]%is_valid_pa_spec _].
  destruct (foot_valid _ _ _ (p_trapframe p) Hp) as [[Hta _]%is_valid_pa_spec _]; [by left|].
  by eapply (frame_agree (p_trapframe p)).
Qed.

Lemma poke_read k tf o v : 0 <= v < 2 ^ 64 -> ld64 (mem (k_m (poke k tf o v))) (tf + o) = v.
Proof. intros Hv. by apply ld64_st64. Qed.

Lemma poke_other k tf o v o' : o + 8 <= o' \/ o' + 8 <= o ->
  ld64 (mem (k_m (poke k tf o v))) (tf + o') = ld64 (mem (k_m k)) (tf + o').
Proof. intros Ho. apply ld_st_other. lia. Qed.

(** What the running process satisfies. *)
Lemma alone_live k l p sz : alone k l p sz -> p_state p <> UNUSED.
Proof. intros A. rewrite (al_state _ _ _ _ A). done. Qed.

Lemma alone_space k l p sz : alone k l p sz -> proc_space (mem (k_m k)) (p_pagetable p) l sz (p_trapframe p).
Proof. intros A. rewrite <- (al_sz _ _ _ _ A). eapply grow_space; try apply A. by eapply alone_live. Qed.

Lemma alone_unlocked k l p sz : alone k l p sz -> forall lk, lk ∉ held k.
Proof. intros A lk. rewrite (al_held _ _ _ _ A). apply not_elem_of_nil. Qed.

(** ** The laws of the file layer hold *)

#[export] Program Instance count_laws : FileLaws counts :=
  {| fl_open := fun s f => (0 < fc_ref s f)%nat |}.
Next Obligation.
  cbn. intros f s Hf. unfold wp, filedup, count_files. destruct (fc_ref s f) eqn:E; [lia|].
  split; [done|]. intros g Hg. cbn. unfold bump. case_if; [subst; lia|done].
Qed.
Next Obligation. intros ip s. unfold wp, idup, count_files. cbn. split; [done|by intros]. Qed.

Lemma count_open k l p sz : alone k l p sz -> files_open (k_files k) (p_ofile p).
Proof. intros A f Hf Hn. rewrite (al_ofile _ _ _ _ A) in Hf. apply elem_of_replicate in Hf as [-> _]. done. Qed.

(** How often [f] occurs in the descriptors. *)
Definition occurs (f : Z) (fs : list Z) : nat := length (filter (fun g => g = f) fs).

Lemma occurs_cons f g fs : occurs f (g :: fs) = ((if decide (g = f) then 1 else 0) + occurs f fs)%nat.
Proof. unfold occurs. rewrite filter_cons. by case_decide. Qed.

Lemma occurs_close fs fd f g : fs !! fd = Some f -> f <> 0 -> g <> 0 ->
  (occurs g fs = (if decide (g = f) then 1 else 0) + occurs g (<[fd := 0%Z]> fs))%nat.
Proof.
  revert fd. induction fs as [|h fs IH]; intros [|fd] Hfd Hf Hg; try done.
  - injection Hfd as ->. change (<[0%nat := 0]> (f :: fs)) with (0 :: fs). rewrite !occurs_cons. repeat case_decide; try lia; congruence.
  - change (<[S fd := 0]> (h :: fs)) with (h :: <[fd := 0]> fs). rewrite !occurs_cons, (IH fd) by done. lia.
Qed.

Lemma occurs_closed f n : f <> 0 -> occurs f (replicate n 0) = 0%nat.
Proof. intros Hf. induction n as [|n IH]; [done|]. cbn [replicate]. rewrite occurs_cons, decide_False by done. done. Qed.

Lemma kinv_files k l fs : kinv k l -> kinv (set_k_files (F := counts) fs k) l.
Proof. intros [? ? ? ?]. by split. Qed.

Lemma calm_files k l i p fs :
  kinv k l -> k_procs k !! i = Some p -> calm i p k (set_k_files (F := counts) fs k).
Proof. intros Hk Hi. split; auto; [exists l; by apply kinv_files|]. exists p. split; [done|]. by split. Qed.

#[export] Program Instance count_exit : ExitLaws counts :=
  {| fl_owns := fun s fs _ => forall f, f <> 0 -> (occurs f fs <= fc_ref s f)%nat;
     fl_intx := fun s => fc_tx s = true |}.
Next Obligation.
  cbn. intros i p k l fs _ fd f Hk _ Hi _ _ Hown Hfd Hf. unfold wp, fileclose, count_files.
  pose proof (occurs_close fs fd f f Hfd Hf Hf) as Hc. rewrite decide_True in Hc by done.
  specialize (Hown f Hf) as Hf'. destruct (fc_ref (k_files k) f) eqn:E; [lia|].
  split; [by eapply calm_files|]. intros g Hg. cbn. unfold bump.
  specialize (Hown g Hg). rewrite (occurs_close fs fd f g Hfd Hf Hg) in Hown. case_if.
  - subst. rewrite decide_True in Hown by done. lia.
  - rewrite decide_False in Hown by done. lia.
Qed.
Next Obligation. cbn. intros i p k l fs _ Hk _ Hi _ _ Hown. split_and!; auto. by eapply calm_files. Qed.
Next Obligation.
  cbn. intros i p k l fs c Hk _ Hi _ _ Hown Htx. unfold wp, iput, count_files. rewrite Htx.
  split_and!; auto. by eapply calm_files.
Qed.
Next Obligation. cbn. intros i p k l fs _ Hk _ Hi _ _ Hown _. split; auto. by eapply calm_files. Qed.
