(* ===== verification/Witness.v ===== *)
(** The theorems applied to the states of [Boot]. *)

From S2P Require Import Prelude.
From S2P Require Import Memory.
From S2P Require Import Spinlock.
From S2P Require Import Riscv.
From S2P Require Import Kalloc.
From S2P Require Import PageTable.
From S2P Require Import AddrSpace.
From S2P Require Import Uvm.
From S2P Require Import UserMem.
From S2P Require Import UserCopy.
From S2P Require Import ProcMem.
From S2P Require Import Proc.
From S2P Require Import ProcInv.
From S2P Require Import ProcOps.
From S2P Require Import Fork.
From S2P Require Import ProcCtl.
From S2P Require Import Wait.
From S2P Require Import Exit.
From S2P Require Import Syscall.
From S2P Require Import SysSpec.

From S2P Require Import SysCalls.
From S2P Require Import VmTheorems.
From S2P Require Import ProcTheorems.
From S2P Require Import Boot.

(** Forget how a state was computed. *)
Ltac abstract_state st := let k := fresh "k" in generalize dependent st; intros k; intros.

Lemma unmapped_xlate m r va : ubyte m r va = None -> va_ok va -> xlate m r va = None.
Proof.
  intros Hu [_ Hal]. unfold ubyte in Hu. replace (PGROUNDDOWN va) with va in Hu by (rewrite PGROUNDDOWN_eq; dlia).
  by destruct (xlate m r va).
Qed.

Lemma started_unmapped : exists k l p, alone k l p 0 /\
  forall va, va_ok va -> va < TRAPFRAME -> xlate (mem (k_m k)) (p_pagetable p) va = None.
Proof.
  destruct started_ok as (l & p & A & Hv). exists started, l, p. split; [exact A|].
  generalize dependent started. intros k A Hv va Hva Hlt. apply unmapped_xlate; [|done]. apply Hv. destruct Hva. lia.
Qed.

(** ** vm.c *)

Lemma mappages_installs_witness : exists s l r, kmem_inv s l /\
  wp (mappages r 0 PGSIZE 0 PTE_R) s (fun rc s' => rc = 0 \/ rc = -1).
Proof.
  destruct started_unmapped as (k & l & p & A & Hv). pose proof (alone_space _ _ _ _ A) as Hps.
  exists (k_m k), l, (p_pagetable p). split; [apply A|].
  assert (Hlt : PGSIZE < TRAPFRAME) by (by vm_compute).
  eapply wp_mono; [apply (mappages_installs (p_pagetable p) 0 PGSIZE 0 PTE_R (k_m k) l)|].
  - apply A.
  - apply Hps.
  - split; [lia|done].
  - done.
  - done.
  - by vm_compute.
  - done.
  - lia.
  - done.
  - intros va Hva Hr. apply Hv; [done|lia].
  - cbn beta. intros rc s' (l' & _ & _ & _ & done & _ & _ & [[-> _]|(-> & _)]); auto.
Defined.

Lemma uvmalloc_all_or_nothing_witness : exists s l r, kmem_inv s l /\
  wp (uvmalloc r 0 PGSIZE PTE_W) s (fun rc s' => rc = PGSIZE \/ rc = 0).
Proof.
  destruct started_unmapped as (k & l & p & A & Hv). pose proof (alone_space _ _ _ _ A) as Hps.
  exists (k_m k), l, (p_pagetable p). split; [apply A|].
  assert (Hlt : PGROUNDUP PGSIZE < TRAPFRAME) by (by vm_compute).
  eapply wp_mono; [apply (uvmalloc_all_or_nothing TRAPFRAME (p_pagetable p) 0 PGSIZE PTE_W (k_m k) l)|].
  - apply A.
  - apply Hps.
  - split; done.
  - lia.
  - by vm_compute.
  - by vm_compute.
  - done.
  - intros va Hva Hr. apply Hv; [done|lia].
  - cbn beta. intros rc s' (l' & _ & _ & _ & [[-> _]|[-> _]]); auto.
Defined.

Lemma vmfault_maps_one_witness : exists s l r sz, kmem_inv s l /\
  wp (vmfault (ProcView sz r) r 0) s (fun a s' => exists l', kmem_inv s' l').
Proof.
  destruct grown_ok as (l & p & A & _). pose proof (alone_space _ _ _ _ A) as Hps.
  exists (k_m grown), l, (p_pagetable p), 8192. generalize dependent grown. intros k A Hps. split; [apply A|].
  eapply wp_mono; [apply (vmfault_maps_one (p_pagetable p) 0 (k_m k) l 8192 (p_trapframe p)); [apply A|exact Hps|split; [lia|done]]|].
  cbn beta. intros a s' (l' & Hs' & _). by exists l'.
Defined.

Lemma bytes123 : byte_list [1; 2; 3].
Proof. unfold byte_list. rewrite !Forall_cons. split_and!; try lia. constructor. Qed.

Lemma copyout_writes_witness : exists s l r, kmem_inv s l /\
  wp (copyout (ProcView 8192 r) r 4095 [1; 2; 3]) s (fun rc s' => exists l', kmem_inv s' l').
Proof.
  destruct grown_ok as (l & p & A & _). pose proof (alone_space _ _ _ _ A) as Hps.
  exists (k_m grown), l, (p_pagetable p). generalize dependent grown. intros k A Hps. split; [apply A|].
  eapply wp_mono; [apply (copyout_writes (p_pagetable p) 4095 [1; 2; 3] (k_m k) l 8192 (p_trapframe p));
    [apply A|exact Hps|lia|exact bytes123]|].
  cbn beta. intros rc s' (l' & Hs' & _). by exists l'.
Defined.

Lemma copyout_copyin_roundtrip_witness : exists s r,
  wp (rc <- copyout (ProcView 8192 r) r 4095 [1; 2; 3] ;;
      if rc =? 0 then res <- copyin (ProcView 8192 r) r 4095 3 ;; ret (Some res) else ret None) s
    (fun res s' => res = Some (0, [1; 2; 3]) \/ res = None).
Proof.
  destruct grown_ok as (l & p & A & _). pose proof (alone_space _ _ _ _ A) as Hps.
  exists (k_m grown), (p_pagetable p). generalize dependent grown. intros k A Hps.
  apply (copyout_copyin_roundtrip (p_pagetable p) 4095 [1; 2; 3] (k_m k) l 8192 (p_trapframe p));
    [apply A|exact Hps|lia|exact bytes123].
Defined.

(** A page has been taken for the trapframe. *)
Lemma tf_returns : returns kalloc boot_machine = Some (PHYSTOP - PGSIZE).
Proof. by vm_compute. Qed.

Lemma tf_taken : exists s l, kmem_inv s l /\ is_valid_pa (PHYSTOP - PGSIZE) = true /\ (PHYSTOP - PGSIZE ∉ l) /\ length l = 15%nat.
Proof.
  assert (Hw : wp kalloc boot_machine (fun r s => exists l, r :: l = boot_list16 /\ kmem_inv s l /\ is_valid_pa r = true /\ r ∉ l)).
  { apply (kalloc_spec _ boot_list16 _ boot_machine_inv); [done|]. intros p l s E _ Hv Hn Hs _ _ _. by exists l. }
  pose proof (wp_final _ _ _ _ Hw tf_returns) as (l & E & Hs & Hv & Hn). exists (final kalloc boot_machine), l.
  split_and!; auto. apply (f_equal length) in E. by injection E.
Qed.

Lemma pagetable_roundtrip_witness : exists s l, length l = 15%nat /\
  wp (proc_pagetable (PHYSTOP - PGSIZE)) s (fun r s1 => outside_kept (mem s) (mem s1) l).
Proof.
  destruct tf_taken as (s & l & Hs & Hv & Hl & Hlen). exists s, l. split; [exact Hlen|].
  eapply wp_mono; [exact (pagetable_roundtrip (PHYSTOP - PGSIZE) s l Hs Hv Hl)|]. cbn beta. by intros r s1 [Ho _].
Defined.

(** An empty table. *)
Lemma empty_table : exists s l r, kmem_inv s l /\ ptree 2 (mem s) r l /\ forall va, xlate (mem s) r va = None.
Proof.
  assert (Hw : wp uvmcreate boot_machine (fun r s => exists l, kmem_inv s l /\ ptree 2 (mem s) r l /\
    forall va, xlate (mem s) r va = None)).
  { apply (uvmcreate_spec _ boot_list16 _ boot_machine_inv); [done|]. intros r l s _ _ Hs Ht Hx _ _ _ _. by exists l. }
  apply wp_Ok in Hw as (r & s & _ & l & Hs). by exists s, l, r.
Qed.

Lemma uvmfree_no_leak_witness : exists s l r, kmem_inv s l /\
  wp (uvmfree r 0) s (fun _ s' => exists l', kmem_inv s' l' /\ r ∈ l').
Proof.
  destruct empty_table as (s & l & r & Hs & Ht & Hx). exists s, l, r. split; [exact Hs|].
  eapply wp_mono; [apply (uvmfree_no_leak 0 r 0 s l)|].
  - exact Hs.
  - by apply uspace_empty.
  - split; [lia|]. by vm_compute.
  - by vm_compute.
  - by vm_compute.
  - intros va _ Hn. by rewrite Hx in Hn.
  - cbn beta. intros _ s' (l' & Hs' & _ & Hown & _). exists l'. split; [exact Hs'|]. apply Hown. right. left.
    exists []. split; [apply path_ok_nil|done].
Defined.

(** A second process beside the running one. *)
Definition second : kernel counts := final allocproc grown.

Lemma second_returns : returns allocproc grown = Some (Some 1%nat).
Proof. by vm_compute. Qed.

Lemma second_ok : exists l p q,
  kinv second l /\ k_procs second !! 0%nat = Some p /\ k_procs second !! 1%nat = Some q /\
  p_pagetable p <> 0 /\ p_pagetable q <> 0 /\ p_sz p = 8192 /\
  forall va, va_ok va -> va < TRAPFRAME -> xlate (mem (k_m second)) (p_pagetable q) va = None.
Proof.
  destruct grown_ok as (l & p & A & _). unfold second. pose proof second_returns as Hr.
  generalize dependent grown. intros k A Hr.
  assert (Hw : wp allocproc k (fun r k' => r = None \/ exists i q, i <> 0%nat /\ alloc_ok k k' [] l i q r /\ k_procs k !! i = Some q)).
  { apply (allocproc_spec k l); try apply A.
    - intros j. by eapply alone_unlocked.
    - by eapply alone_unlocked.
    - by rewrite (al_next _ _ _ _ A).
    - by left.
    - intros r k' i q Hi Hst _ Ha. right. exists i, q. rewrite (al_held _ _ _ _ A) in Ha. split_and!; auto.
      intros ->. rewrite (al_proc _ _ _ _ A) in Hi. injection Hi as <-. by rewrite (al_state _ _ _ _ A) in Hst. }
  pose proof (wp_final _ _ _ _ Hw Hr) as [?|(i & q & Hi & (l' & Hk' & _ & [(? & _)|(tf & pt & [= <-] & Hoa & _ & _ & Hx)]) & Hq)]; [done..|].
  generalize dependent (final allocproc k). intros k2 Hk2 Hoa Hx.
  assert (H0 : k_procs k2 !! 0%nat = Some p) by (rewrite (oa_procs _ _ _ _ Hoa), list_lookup_insert_ne by done; apply A).
  assert (H1 : k_procs k2 !! 1%nat = Some (new_proc q (k_nextpid k) tf pt)).
  { rewrite (oa_procs _ _ _ _ Hoa). apply list_lookup_insert_eq. by eapply lookup_lt_Some. }
  exists l', p, (new_proc q (k_nextpid k) tf pt). split_and!; auto.
  - apply (wf_live _ _ _ (pw_proc _ _ (ki_wf _ _ Hk2) 0 p H0)). by eapply alone_live.
  - by apply (wf_live _ _ _ (pw_proc _ _ (ki_wf _ _ Hk2) 1 _ H1)).
  - apply A.
Qed.

Lemma uvmcopy_copies_witness : exists s l ro rn, kmem_inv s l /\
  wp (uvmcopy ro rn 8192) s (fun rc s' => rc = 0 \/ rc = -1).
Proof.
  destruct second_ok as (l & p & q & Hk & H0 & H1 & Hp & Hq & Hsz & Hx).
  generalize dependent second. intros k Hk H0 H1 Hx. exists (k_m k), l, (p_pagetable p), (p_pagetable q).
  pose proof (ki_mem _ _ Hk) as Hpm. split; [apply Hk|].
  eapply wp_mono; [apply (uvmcopy_copies TRAPFRAME (p_pagetable p) (p_pagetable q) 8192 (k_m k) l)|].
  - apply Hk.
  - eapply ps_user, proc_mem_space; [by apply (pm_proc _ _ _ Hpm 0)|done].
  - eapply ps_user, proc_mem_space; [by apply (pm_proc _ _ _ Hpm 1)|done].
  - by apply (procs_apart _ l (k_procs k) 0 1).
  - split; [lia|]. by vm_compute.
  - by vm_compute.
  - by vm_compute.
  - intros va Hva Hlt. apply Hx; [done|]. change (PGROUNDUP 8192) with 8192 in Hlt.
    change TRAPFRAME with (2 ^ 38 - 8192). lia.
  - cbn beta. intros rc s' (l' & _ & _ & _ & [[-> _]|[-> _]]); auto.
Defined.

(** ** proc.c *)

(** The running process, as a kernel state. *)
Lemma running_ok : exists (k : kernel counts) l p, alone k l p 8192 /\
  forall va, 0 <= va < 8192 -> ubyte (mem (k_m k)) (p_pagetable p) va = Some (Z.lor (uperm PTE_W) PTE_V, 0).
Proof. destruct grown_ok as (l & p & A & Hv). by exists grown, l, p. Qed.

Lemma allocproc_freeproc_witness : wp allocproc boot_kernel (fun r k1 => exists l1, kinv k1 l1).
Proof.
  eapply wp_mono; [apply (allocproc_freeproc boot_kernel boot_list16 boot_inv)|].
  - intros i. apply not_elem_of_nil.
  - apply not_elem_of_nil.
  - done.
  - intros [i|] k1; [intros (l1 & p & tf & pt & _ & _ & _ & Hk & _); by exists l1|intros (l1 & Hk & _); by exists l1].
Defined.

Lemma kfork_copies_parent_witness : exists k : kernel counts, wp kfork k (fun rc k' => exists l', kinv k' l').
Proof.
  destruct running_ok as (k & l & p & A & _). exists k. eapply wp_mono; [apply (kfork_copies_parent k l 0 p)|].
  - apply A.
  - apply A.
  - apply A.
  - by eapply alone_live.
  - intros j. by eapply alone_unlocked.
  - by eapply alone_unlocked.
  - by eapply alone_unlocked.
  - by rewrite (al_next _ _ _ _ A).
  - by eapply count_open.
  - intros rc k' (l' & Hk' & _). by exists l'.
Defined.

Lemma growproc_resizes_witness : exists (k : kernel counts) l p, alone k l p 8192 /\
  wp (growproc (-4096)) k (grow_result k l 0 p (-4096)).
Proof.
  destruct running_ok as (k & l & p & A & _). exists k, l, p. split; [exact A|].
  apply (growproc_resizes k l 0 p (-4096)); [apply A..|by eapply alone_live|lia].
Defined.

Lemma wakeup_channel_witness : exists (k : kernel counts) l, wp (wakeup (ProcChan 0)) k (fun _ k' => kinv k' l).
Proof.
  destruct running_ok as (k & l & p & A & _). exists k, l. eapply wp_mono; [apply (wakeup_channel k l (ProcChan 0))|].
  - apply A.
  - intros j _. by eapply alone_unlocked.
  - cbn beta. by intros _ k' [Hk' _].
Defined.

Lemma kkill_marks_witness : exists k : kernel counts, wp (kkill 1) k (fun rc k' => rc = 0 \/ rc = -1).
Proof.
  destruct running_ok as (k & l & p & A & _). exists k. eapply wp_mono; [apply (kkill_marks k l 1)|].
  - apply A.
  - intros j. by eapply alone_unlocked.
  - cbn beta. intros rc k' [(-> & _)|(-> & _)]; auto.
Defined.

Lemma kill_zero_poisons_witness : exists k : kernel counts, wp (kkill 0) k (fun rc k1 => rc = 0 /\ wp kfork k1 (fun pid k2 =>
    pid = -1 \/ exists j c, k_procs k2 !! j = Some c /\ p_pid c = pid /\ p_state c = RUNNABLE /\ p_killed c = 1)).
Proof.
  destruct running_ok as (k & l & p & A & _). exists k. apply (kill_zero_poisons k l 0 p).
  - apply A.
  - apply A.
  - apply A.
  - by eapply alone_live.
  - intros j. by eapply alone_unlocked.
  - by eapply alone_unlocked.
  - by eapply alone_unlocked.
  - by rewrite (al_next _ _ _ _ A).
  - by eapply count_open.
  - destruct (procs_wf_lookup _ _ 1 (ki_wf _ _ (al_inv _ _ _ _ A))) as [q Hq]; [by vm_compute; lia|].
    exists 1%nat, q. split; [exact Hq|]. by apply (al_others _ _ _ _ A 1).
Defined.

(** A switch that resumes the process at once. *)
Definition resume (i : nat) : M (kernel counts) unit := setp i (set_state RUNNING).

Lemma kwait_reaps_witness : exists (k : kernel counts) l p, alone k l p 8192 /\
  wp (kwait (resume 0) 1 0) k (kwait_result k l 0 p 0).
Proof.
  destruct running_ok as (k & l & p & A & _). exists k, l, p. split; [exact A|].
  apply (kwait_reaps (resume 0) k l 0 p 0).
  - apply A.
  - apply A.
  - apply A.
  - apply A.
  - apply A.
  - lia.
  - intros ((j & q & Hj & Hpar) & _). destruct (decide (j = 0%nat)) as [->|Hne].
    + (* nobody's parent but init's is unset *)
      rewrite (al_proc _ _ _ _ A) in Hj. injection Hj as <-. by rewrite (al_parent _ _ _ _ A) in Hpar.
    + pose proof (al_others _ _ _ _ A j q Hne Hj) as Hun.
      destruct (wf_unused _ _ _ (pw_proc _ _ (ki_wf _ _ (al_inv _ _ _ _ A)) j q Hj) Hun) as (_ & _ & _ & _ & E).
      by rewrite E in Hpar.
Defined.

Lemma sleep_swaps_locks_witness : exists (k : kernel counts) p, k_procs k !! 0%nat = Some p /\
  sleep (resume 0) TicksChan TicksLock k = (resume 0 >>> sleep_rest 0 TicksLock)
    (set_held [ProcLock 0] (set_k_procs (<[0%nat := set_state SLEEPING (set_chan TicksChan p)]> (k_procs k)) k)).
Proof.
  destruct running_ok as (k & l & p & A & _). exists (set_held [TicksLock] k), p. split; [apply A|].
  apply (sleep_swaps_locks (resume 0) (set_held [TicksLock] k) 0 p TicksChan TicksLock); [apply A|apply A|done|done].
Defined.


(** ** System calls *)

(** The running process with the system call arguments [a] and [b]. *)
Lemma calling_ok a b : 0 <= a < 2 ^ 64 -> 0 <= b < 2 ^ 64 ->
  exists (k : kernel counts) l p, alone k l p 8192 /\ arg k p 0 = a /\ arg k p 1 = b /\
    forall va, 0 <= va < 8192 -> ubyte (mem (k_m k)) (p_pagetable p) va = Some (Z.lor (uperm PTE_W) PTE_V, 0).
Proof.
  intros Ha Hb. destruct running_ok as (k & l & p & A & Hv).
  destruct (poke_ok k l p 8192 TF_a0 a A ltac:(by vm_compute) ltac:(by vm_compute)) as [A1 V1].
  set (k1 := poke k (p_trapframe p) TF_a0 a) in *.
  destruct (poke_ok k1 l p 8192 TF_a1 b A1 ltac:(by vm_compute) ltac:(by vm_compute)) as [A2 V2].
  exists (poke k1 (p_trapframe p) TF_a1 b), l, p. split_and!; auto.
  - unfold arg. rewrite Z.mul_0_r, Z.add_0_r, poke_other by (unfold TF_a0, TF_a1; lia). by apply poke_read.
  - unfold arg. rewrite <- Z.add_assoc. change (TF_a0 + 8 * 1) with TF_a1. by apply poke_read.
  - intros va Hva. assert (Hlt : 8192 < TRAPFRAME) by (by vm_compute). rewrite V2, V1 by lia. auto.
Qed.

Lemma alone_entry k l p sz j q : alone k l p sz -> k_procs k !! j = Some q ->
  (j = 0%nat /\ q = p) \/ (p_parent q = None /\ p_state q = UNUSED).
Proof.
  intros A Hj. destruct (decide (j = 0%nat)) as [->|Hne].
  - left. rewrite (al_proc _ _ _ _ A) in Hj. by injection Hj.
  - right. pose proof (al_others _ _ _ _ A j q Hne Hj) as Hun. split; [|done].
    by apply (wf_unused _ _ _ (pw_proc _ _ (ki_wf _ _ (al_inv _ _ _ _ A)) j q Hj)).
Qed.

Lemma alone_parents k l p sz : alone k l p sz -> parents_ok (k_procs k).
Proof.
  intros A j q r Hj. destruct (alone_entry _ _ _ _ _ _ A Hj) as [[_ ->]|[-> _]]; [|done].
  by rewrite (al_parent _ _ _ _ A).
Qed.

Lemma zero_reads k p : (forall va, 0 <= va < 8192 -> ubyte (mem (k_m k)) (p_pagetable p) va = Some (Z.lor (uperm PTE_W) PTE_V, 0)) ->
  reads (ubyte (mem (k_m (F := counts) k)) (p_pagetable p)) 16 (bytes32 0) /\
  writable_word (ubyte (mem (k_m k)) (p_pagetable p)) 16 4.
Proof.
  intros Hv. assert (Hlt : 8192 < TRAPFRAME) by (by vm_compute). split; split; cbn [length bytes32].
  - lia.
  - intros i Hi. exists (Z.lor (uperm PTE_W) PTE_V). rewrite Hv by (cbn in Hi; lia).
    split; [|by vm_compute]. by destruct i as [|[|[|[|]]]]; [..|cbn in Hi; lia].
  - lia.
  - intros i Hi. exists (Z.lor (uperm PTE_W) PTE_V), 0. rewrite Hv by lia. by vm_compute.
Qed.

Lemma mutex_lock_takes_free_witness : exists k : kernel counts,
  wp (sys_mutex_lock (resume 0) 1) k (fun v k' => v = 0).
Proof.
  destruct (calling_ok 16 0) as (k & l & p & A & H0 & _ & Hv); [lia..|]. destruct (zero_reads k p Hv) as [Hr Hw].
  exists k. eapply wp_mono; [apply (mutex_lock_takes_free (resume 0) k l 0 p)|].
  - apply A.
  - apply A.
  - apply A.
  - by eapply alone_live.
  - by rewrite H0.
  - rewrite H0. exact Hr.
  - rewrite H0. exact Hw.
  - cbn beta. by intros v k' [-> _].
Defined.

Lemma mutex_unlock_clears_witness : exists k : kernel counts, wp sys_mutex_unlock k (fun v k' => v = 0).
Proof.
  destruct (calling_ok 16 0) as (k & l & p & A & H0 & _ & Hv); [lia..|]. destruct (zero_reads k p Hv) as [_ Hw].
  exists k. eapply wp_mono; [apply (mutex_unlock_clears k l 0 p)|].
  - apply A.
  - apply A.
  - apply A.
  - by eapply alone_live.
  - by rewrite H0.
  - rewrite H0. exact Hw.
  - cbn beta. by intros v k' [-> _].
Defined.

Lemma sbrk_lazy_grows_witness : exists k : kernel counts, wp sys_sbrk k (fun v k' => v = 8192 \/ v = 2 ^ 64 - 1).
Proof.
  destruct (calling_ok 4096 2) as (k & l & p & A & H0 & H1 & Hv); [lia..|].
  exists k. eapply wp_mono; [apply (sbrk_lazy_grows k l 0 p)|].
  - apply A.
  - apply A.
  - apply A.
  - by eapply alone_live.
  - by rewrite H1.
  - by rewrite H0.
  - cbn beta. rewrite (al_sz _ _ _ _ A). intros v k' [(_ & -> & _)|(_ & -> & _)]; auto.
Defined.

Lemma sendsig_delivers_witness : exists k : kernel counts, wp sys_sendsig k (fun v k' => v = 0 \/ v = 2 ^ 64 - 1).
Proof.
  destruct (calling_ok 1 2) as (k & l & p & A & H0 & H1 & Hv); [lia..|].
  exists k. eapply wp_mono; [apply (sendsig_delivers k l 0 p)|].
  - apply A.
  - apply A.
  - apply A.
  - intros j. by eapply alone_unlocked.
  - cbn beta. intros v k' [(-> & _)|(-> & _)]; auto.
Defined.

Lemma fetchstr_reads_witness : exists k : kernel counts, wp (fetchstr 16 8) k (fun res k' => k' = k).
Proof.
  destruct (calling_ok 0 0) as (k & l & p & A & _); [lia..|].
  exists k. eapply wp_mono; [apply (fetchstr_reads k l 0 p 16 8)|].
  - apply A.
  - apply A.
  - apply A.
  - by eapply alone_live.
  - lia.
  - cbn beta. by intros res k' [-> _].
Defined.


Lemma getpinfo_reports_witness : exists (k : kernel counts) l p,
  wp (sys_getpinfo (replicate 16 0)) k (getpinfo_result k l 0 p 1 64 (replicate 16 0)).
Proof.
  destruct (calling_ok 1 64) as (k & l & p & A & H0 & H1 & _); [lia..|]. exists k, l, p.
  pose proof (getpinfo_reports k l 0 p (replicate 16 0)) as Hw. rewrite H0, H1 in Hw. apply Hw.
  - apply A.
  - apply A.
  - apply A.
  - by eapply alone_live.
  - intros j. by eapply alone_unlocked.
  - by eapply alone_parents.
  - intros j q Hj. by eapply (al_names _ _ _ _ A).
  - apply zero_bytes.
Defined.

Lemma syscall_unknown_witness : exists k : kernel counts,
  wp (syscall (resume 0) (fun _ => None) 1 []) k (fun _ k' => exists l', kinv k' l').
Proof.
  destruct running_ok as (k & l & p & A & _).
  destruct (poke_ok k l p 8192 TF_a7 99 A ltac:(by vm_compute) ltac:(by vm_compute)) as [A1 _].
  pose proof (poke_read k (p_trapframe p) TF_a7 99 ltac:(lia)) as Hn.
  exists (poke k (p_trapframe p) TF_a7 99). generalize dependent (poke k (p_trapframe p) TF_a7 99). intros k1 A1 Hn.
  eapply wp_mono; [apply (syscall_unknown (resume 0) (fun _ => None) k1 l 0 p 1 [])|].
  - apply A1.
  - apply A1.
  - apply A1.
  - by eapply alone_live.
  - left. rewrite Hn. by vm_compute; intros [_ ?].
  - cbn beta. intros _ k' [Hk' _]. by exists l.
Defined.

(** The running process has taken the mutex at 16. *)
Lemma locked_ok : exists (k : kernel counts) l p, alone k l p 8192 /\ arg k p 0 = 16 /\
  reads (ubyte (mem (k_m k)) (p_pagetable p)) 16 (bytes32 1).
Proof.
  destruct running_ok as (k & l & p & A & Hv). destruct (zero_reads k p Hv) as [_ Hw].
  pose proof (proc_copyout k l 0 p 16 (bytes32 1) (al_inv _ _ _ _ A) (al_proc _ _ _ _ A)
    (alone_live _ _ _ _ A) ltac:(lia) (bytes32_ok 1)) as Hc.
  apply wp_Ok in Hc as (rc & k1 & _ & Hc). destruct (copyout_mapped _ _ _ _ _ _ _ _ Hc ltac:(lia) Hw) as [_ Ho].
  destruct Hc as (s1 & l1 & n & -> & [Hk1 [_ _ _ _ _ _ Hh] _] & _). destruct Ho as (Hle & e1 & _ & Hwr & Hv1).
  pose proof (overwrite_reads e1 16 (bytes32 1) _ ltac:(lia) Hle Hwr Hv1) as Hr.
  assert (A1 : alone (set_k_m s1 k) l1 p 8192).
  { destruct A. split; auto. rewrite Hh. done. }
  destruct (poke_ok _ l1 p 8192 TF_a0 16 A1 ltac:(by vm_compute) ltac:(by vm_compute)) as [A2 V2].
  exists (poke (set_k_m s1 k) (p_trapframe p) TF_a0 16), l1, p. split_and!; auto.
  - unfold arg. rewrite Z.mul_0_r, Z.add_0_r. by apply poke_read.
  - eapply reads_eq; [lia|exact Hr|exact V2].
Qed.

Lemma resume_back : switch_back (resume 0) 0.
Proof.
  intros k1 l1 p1 K1 C1 P1 S1 H1. eapply wp_setp; [exact P1|]. exists l1, (set_state RUNNING p1).
  pose proof (pw_proc _ _ (ki_wf _ _ K1) 0 p1 P1) as Hw.
  split_and!; auto.
  - apply (kinv_set_live k1 l1 0 p1); auto; cbn; try congruence. apply Hw.
  - cbn. apply list_lookup_insert_eq. by eapply lookup_lt_Some.
  - by intros va _.
Qed.

Lemma mutex_lock_spins_witness : exists k : kernel counts, sys_mutex_lock (resume 0) 1000 k = NoFuel.
Proof.
  destruct locked_ok as (k & l & p & A & H0 & Hr). exists k.
  apply (mutex_lock_spins (resume 0) k l 0 p) with (bs := bytes32 1).
  - apply A.
  - apply A.
  - apply A.
  - exact resume_back.
  - apply A.
  - apply A.
  - by rewrite H0.
  - done.
  - rewrite H0. exact Hr.
  - by vm_compute.
Defined.
