(* ===== verification/FsState.v ===== *)
(** The state of the file system code: the disk, the buffer cache, the log,
    the inode and file tables, pipes and the console (buf.h, sleeplock.h,
    fs.h, file.h and the static data of bio.c, log.c, fs.c, file.c, pipe.c and
    console.c), with 32-bit integers in disk blocks. *)

From S2P Require Import Prelude.
From S2P Require Import Proc.

(** ** Constants *)

Definition BSIZE : nat := 1024.
Definition MAXOPBLOCKS : Z := 10.
Definition LOGBLOCKS : Z := MAXOPBLOCKS * 3.
Definition NBUF : nat := 30.
Definition NINODE : nat := 50.
Definition NFILE : nat := 100.
Definition NDEV : Z := 10.
Definition NDIRECT : nat := 12.
Definition NINDIRECT : nat := 256.
Definition PIPESIZE : nat := 512.
Definition INPUT_BUF_SIZE : nat := 128.

(** ** Disk blocks *)

Abbreviation block := (list Z).

(** The integer of four bytes at offset [o], unsigned. *)
Definition get32 (d : block) (o : nat) : Z :=
  match d !! o, d !! (o + 1)%nat, d !! (o + 2)%nat, d !! (o + 3)%nat with
  | Some a, Some b, Some c, Some e => a + 256 * (b + 256 * (c + 256 * e))
  | _, _, _, _ => 0
  end.

Definition put32 (d : block) (o : nat) (v : Z) : block :=
  <[(o + 3)%nat := u8 (u32 v / 2 ^ 24)]> (<[(o + 2)%nat := u8 (u32 v / 2 ^ 16)]>
    (<[(o + 1)%nat := u8 (u32 v / 2 ^ 8)]> (<[o := u8 v]> d))).

Lemma put32_length d o v : length (put32 d o v) = length d.
Proof. unfold put32. by rewrite !length_insert. Qed.

Lemma bytes_u32 v :
  u8 v + 256 * (u8 (u32 v / 2 ^ 8) + 256 * (u8 (u32 v / 2 ^ 16) + 256 * u8 (u32 v / 2 ^ 24))) = u32 v.
Proof.
  assert (u8 v = u8 (u32 v)) as ->.
  { unfold u8, u32. change (2 ^ 32) with (2 ^ 8 * 2 ^ 24). rewrite Z.rem_mul_r by lia.
    rewrite Z.mul_comm, Z_mod_plus_full, Z.mod_mod; lia. }
  pose proof (u32_range v) as Hr. set (w := u32 v) in *. clearbody w. unfold u8.
  change (2 ^ 8) with 256. change (2 ^ 16) with 65536. change (2 ^ 24) with 16777216.
  change (2 ^ 32) with 4294967296 in Hr. dlia.
Qed.

Lemma get32_put32 d o v : (o + 4 <= length d)%nat -> get32 (put32 d o v) o = u32 v.
Proof.
  intros Hl. unfold get32.
  assert (put32 d o v !! o = Some (u8 v)) as ->.
  { unfold put32. by rewrite !(list_lookup_insert_ne _ _ o), list_lookup_insert_eq by (rewrite ?length_insert; lia). }
  assert (put32 d o v !! (o + 1)%nat = Some (u8 (u32 v / 2 ^ 8))) as ->.
  { unfold put32. by rewrite !(list_lookup_insert_ne _ _ (o + 1)), list_lookup_insert_eq
      by (rewrite ?length_insert; lia). }
  assert (put32 d o v !! (o + 2)%nat = Some (u8 (u32 v / 2 ^ 16))) as ->.
  { unfold put32. by rewrite (list_lookup_insert_ne _ _ (o + 2)), list_lookup_insert_eq
      by (rewrite ?length_insert; lia). }
  assert (put32 d o v !! (o + 3)%nat = Some (u8 (u32 v / 2 ^ 24))) as ->.
  { unfold put32. by rewrite list_lookup_insert_eq by (rewrite ?length_insert; lia). }
  apply bytes_u32.
Qed.

Lemma get32_put32_ne d o o' v : (o' + 4 <= o \/ o + 4 <= o')%nat -> get32 (put32 d o v) o' = get32 d o'.
Proof. intros Hne. unfold get32, put32. by rewrite !list_lookup_insert_ne by lia. Qed.

(** ** Data *)

Record sleeplock := Sleeplock { sl_locked : Z; sl_pid : Z }.

Record buf := Buf { b_valid : Z; b_dev : Z; b_blockno : Z; b_refcnt : Z; b_data : block }.

(** The cache: the buffers, and their list through [next] and [prev], where
    index [NBUF] is [bcache.head]. *)
Record bcache := Bcache { bc_buf : list buf; bc_next : nat -> nat; bc_prev : nat -> nat }.

(** The device: its blocks, and the writes it has completed, in order. *)
Record disk := Disk { d_block : Z -> block; d_writes : list (Z * block) }.

Record log := Log {
  lg_start : Z; lg_outstanding : Z; lg_committing : Z; lg_dev : Z; lh_n : Z; lh_block : list Z
}.

Record superblock := Superblock {
  sb_magic : Z; sb_size : Z; sb_nblocks : Z; sb_ninodes : Z; sb_nlog : Z;
  sb_logstart : Z; sb_inodestart : Z; sb_bmapstart : Z
}.

Record inode := Inode {
  i_dev : Z; i_inum : Z; i_ref : Z; i_valid : Z;
  i_type : Z; i_major : Z; i_minor : Z; i_nlink : Z; i_size : Z; i_addrs : list Z
}.

Inductive filetype := FD_NONE | FD_PIPE | FD_INODE | FD_DEVICE.

#[export] Instance filetype_eq_dec : EqDecision filetype.
Proof. solve_decision. Defined.

(** [struct file]; [f_pipe] is the address of the pipe, [f_ip] the index of
    the inode. *)
Record file := File {
  f_type : filetype; f_ref : Z; f_readable : Z; f_writable : Z;
  f_pipe : Z; f_ip : Z; f_off : Z; f_major : Z
}.

Record pipe := Pipe { pi_data : list Z; pi_nread : Z; pi_nwrite : Z; pi_readopen : Z; pi_writeopen : Z }.

Record console := Console { c_buf : list Z; c_r : Z; c_w : Z; c_e : Z }.

(** The UART: the bytes written to its transmit register, and [tx_busy]. *)
Record uart := Uart { u_sent : list Z; u_busy : Z }.

Record fsys := Fsys {
  fs_disk : disk;
  fs_sl : Z -> sleeplock;
  fs_bc : bcache;
  fs_log : log;
  fs_sb : superblock;
  fs_inode : list inode;
  fs_file : list file;
  fs_pipe : gmap Z pipe;
  fs_cons : console;
  fs_uart : uart
}.

Definition set_fs_disk x s := Fsys x (fs_sl s) (fs_bc s) (fs_log s) (fs_sb s) (fs_inode s) (fs_file s) (fs_pipe s) (fs_cons s) (fs_uart s).
Definition set_fs_sl x s := Fsys (fs_disk s) x (fs_bc s) (fs_log s) (fs_sb s) (fs_inode s) (fs_file s) (fs_pipe s) (fs_cons s) (fs_uart s).
Definition set_fs_bc x s := Fsys (fs_disk s) (fs_sl s) x (fs_log s) (fs_sb s) (fs_inode s) (fs_file s) (fs_pipe s) (fs_cons s) (fs_uart s).
Definition set_fs_log x s := Fsys (fs_disk s) (fs_sl s) (fs_bc s) x (fs_sb s) (fs_inode s) (fs_file s) (fs_pipe s) (fs_cons s) (fs_uart s).
Definition set_fs_inode x s := Fsys (fs_disk s) (fs_sl s) (fs_bc s) (fs_log s) (fs_sb s) x (fs_file s) (fs_pipe s) (fs_cons s) (fs_uart s).
Definition set_fs_file x s := Fsys (fs_disk s) (fs_sl s) (fs_bc s) (fs_log s) (fs_sb s) (fs_inode s) x (fs_pipe s) (fs_cons s) (fs_uart s).
Definition set_fs_pipe x s := Fsys (fs_disk s) (fs_sl s) (fs_bc s) (fs_log s) (fs_sb s) (fs_inode s) (fs_file s) x (fs_cons s) (fs_uart s).
Definition set_fs_cons x s := Fsys (fs_disk s) (fs_sl s) (fs_bc s) (fs_log s) (fs_sb s) (fs_inode s) (fs_file s) (fs_pipe s) x (fs_uart s).
Definition set_fs_uart x s := Fsys (fs_disk s) (fs_sl s) (fs_bc s) (fs_log s) (fs_sb s) (fs_inode s) (fs_file s) (fs_pipe s) (fs_cons s) x.
Definition set_fs_sb x s := Fsys (fs_disk s) (fs_sl s) (fs_bc s) (fs_log s) x (fs_inode s) (fs_file s) (fs_pipe s) (fs_cons s) (fs_uart s).

Definition set_bc_buf x c := Bcache x (bc_next c) (bc_prev c).
Definition set_bc_next x c := Bcache (bc_buf c) x (bc_prev c).
Definition set_bc_prev x c := Bcache (bc_buf c) (bc_next c) x.

Definition set_b_valid x b := Buf x (b_dev b) (b_blockno b) (b_refcnt b) (b_data b).
Definition set_b_refcnt x b := Buf (b_valid b) (b_dev b) (b_blockno b) x (b_data b).
Definition set_b_data x b := Buf (b_valid b) (b_dev b) (b_blockno b) (b_refcnt b) x.
