(* ===== verification/Bio.v ===== *)
(** Circular doubly linked lists, as bcache keeps its buffers. *)

From S2P Require Import Prelude.
From S2P Require Import Spinlock.
From S2P Require Import Proc.
From S2P Require Import FsState.

(** The links from [x] through [l] to [y]. *)
Fixpoint seg (n p : nat -> nat) (x : nat) (l : list nat) (y : nat) : Prop :=
  match l with
  | [] => n x = y /\ p y = x
  | a :: l' => n x = a /\ p a = x /\ seg n p a l' y
  end.

(** The ring of [h] and the elements of [l], in the order of [next]. *)
Definition ring (h : nat) (n p : nat -> nat) (l : list nat) : Prop := seg n p h l h /\ NoDup (h :: l).

Lemma seg_app n p x l1 a l2 y : seg n p x (l1 ++ a :: l2) y <-> seg n p x l1 a /\ seg n p a l2 y.
Proof.
  revert x. induction l1 as [|b l1 IH]; intros x; cbn [app seg]; [tauto|]. rewrite IH. tauto.
Qed.

Lemma seg_ext n p n' p' x l y :
  (forall z, z ∈ x :: l -> n' z = n z) -> (forall z, z ∈ l ++ [y] -> p' z = p z) ->
  seg n p x l y -> seg n' p' x l y.
Proof.
  revert x. induction l as [|a l IH]; intros x Hn Hp; cbn [seg].
  - intros [Hx Hy]. rewrite Hn by (apply elem_of_cons; by left).
    rewrite Hp by (by apply list_elem_of_singleton). done.
  - intros (Hx & Ha & Hs). split_and!.
    + rewrite Hn; [done|]. apply elem_of_cons; by left.
    + rewrite Hp; [done|]. apply elem_of_cons; by left.
    + apply IH; [| |done]; intros z Hz; [apply Hn|apply Hp]; apply elem_of_cons; by right.
Qed.

(** The ends of a segment are linked to its elements. *)
Lemma seg_prev n p x l y : seg n p x l y -> p y ∈ x :: l.
Proof.
  revert x. induction l as [|a l IH]; intros x; cbn [seg].
  - intros [_ ->]. by apply list_elem_of_singleton.
  - intros (_ & _ & Hs). apply elem_of_cons. right. by apply IH.
Qed.

Lemma seg_next n p x l y : seg n p x l y -> n x ∈ l ++ [y].
Proof. destruct l as [|a l]; cbn [seg app]; [intros [-> _]|intros [-> _]]; apply elem_of_cons; by left. Qed.

Lemma seg_unlink n p x l1 b l2 y :
  seg n p x l1 b -> seg n p b l2 y -> NoDup (x :: l1 ++ b :: l2) -> y ∉ l1 ++ b :: l2 ->
  seg (upd n (p b) (n b)) (upd p (n b) (p b)) x (l1 ++ l2) y.
Proof.
  revert x. induction l1 as [|c l1 IH]; intros x H1 H2 Hd Hy; cbn [app seg] in *.
  - destruct H1 as [Hx Hb]. rewrite Hb. apply NoDup_cons in Hd as [Hxn Hd]. apply NoDup_cons in Hd as [Hbn Hd].
    destruct l2 as [|a l2]; cbn [seg] in *; destruct H2 as [Hnb H2]; rewrite Hnb, !upd_eq; [done|].
    destruct H2 as [Ha H2]. split_and!; [done|done|]. apply NoDup_cons in Hd as [Han Hd].
    eapply seg_ext; [| |exact H2]; intros z Hz; apply upd_ne; intros ->; set_solver.
  - destruct H1 as (Hx & Hc & H1). apply NoDup_cons in Hd as [Hxn Hd].
    pose proof (seg_prev _ _ _ _ _ H1) as Hpb. pose proof (seg_next _ _ _ _ _ H2) as Hnb.
    split_and!.
    + rewrite upd_ne; [done|]. intros ->. set_solver.
    + rewrite upd_ne; [done|]. intros E. rewrite <- E in Hnb. apply NoDup_cons in Hd as [Hcn _]. set_solver.
    + apply IH; [done|done|done|set_solver].
Qed.

(** [b->next->prev = b->prev; b->prev->next = b->next]. *)
Lemma unlink h n p l1 b l2 :
  ring h n p (l1 ++ b :: l2) -> ring h (upd n (p b) (n b)) (upd p (n b) (p b)) (l1 ++ l2).
Proof.
  intros [Hs Hd]. apply seg_app in Hs as [H1 H2]. split.
  - apply seg_unlink; [done|done|done|]. by apply NoDup_cons in Hd as [? _].
  - rewrite !NoDup_cons, !NoDup_app, NoDup_cons in *. set_solver.
Qed.

(** Linking a new element after the head. *)
Lemma link h n p l b :
  ring h n p l -> b ∉ h :: l -> ring h (upd (upd n b (n h)) h b) (upd (upd p b h) (n h) b) (b :: l).
Proof.
  intros [Hs Hd] Hb. pose proof (seg_next _ _ _ _ _ Hs) as Hn.
  assert (Hbh : b <> h) by set_solver. assert (Hnb : n h <> b) by (intros E; rewrite E in Hn; set_solver).
  split.
  - cbn [seg]. rewrite upd_eq, upd_ne, upd_eq by done. split_and!; [done|done|].
    apply NoDup_cons in Hd as [Hh Hd]. destruct l as [|a l]; cbn [seg] in *.
    + destruct Hs as [-> _]. rewrite upd_ne, !upd_eq by done. done.
    + destruct Hs as (-> & _ & Hs). rewrite upd_ne, !upd_eq by done. split_and!; [done|done|].
      apply NoDup_cons in Hd as [Ha Hd].
      eapply seg_ext; [| |exact Hs]; intros z Hz; rewrite !upd_ne; try done; intros ->; set_solver.
  - apply NoDup_cons in Hd as [Hh Hd]. rewrite !NoDup_cons. set_solver.
Qed.

(** A ring of one: the head alone. *)
Lemma ring_nil h n p : n h = h -> p h = h -> ring h n p [].
Proof. intros. split; [done|]. apply NoDup_singleton. Qed.

(** The ring read through [prev]. *)
Lemma seg_rev n p x l y : seg n p x l y -> seg p n y (rev l) x.
Proof.
  revert x. induction l as [|a l IH]; intros x; cbn [seg rev].
  - intros [? ?]. done.
  - intros (Hx & Ha & Hs). rewrite <- (rev_involutive l) in *. apply seg_app. split; [|done].
    rewrite rev_involutive in *. by apply IH.
Qed.

(** * Sleep locks and the buffer cache: sleeplock.c and bio.c.

    The lock of buffer [i] has the identifier [i]; the lock of inode [j] has
    [INODE_LOCK j].  [fuel] bounds how often a process is woken while the
    lock it waits for is taken by others.  [virtio_disk_rw], the disk driver,
    is a parameter: file BioSpec states what it promises. *)

Definition INODE_LOCK (j : Z) : Z := 1000 + j.

Section code.
Context (swtch : M (kernel fsys) unit) (fuel : nat).
Context (virtio_disk_rw : nat -> bool -> M (kernel fsys) unit).
Abbreviation K := (M (kernel fsys)).

(** The file system's state in the kernel's. *)
Definition fgets {A} (f : fsys -> A) : K A := gets (fun k => f (k_files k)).
Definition fmod (f : fsys -> fsys) : K unit := modify (fun k => set_k_files (f (k_files k)) k).

(** ** sleeplock.c *)

Definition set_sl (id : Z) (l : sleeplock) : K unit := fmod (fun s => set_fs_sl (upd (fs_sl s) id l) s).

Definition initsleeplock (id : Z) : K unit := set_sl id (Sleeplock 0 0).

(** [myproc()->pid]. *)
Definition mypid : K Z := i <- myproc ;; p <- getp i ;; ret (p_pid p).

Definition acquiresleep (id : Z) : K unit :=
  lock_acquire (SleepLk id) >>>
  loop fuel (fun _ =>
    l <- fgets (fun s => fs_sl s id) ;;
    if negb (sl_locked l =? 0)
    then sleep swtch (SleepLockChan id) (SleepLk id) >>> ret (inl tt)
    else ret (inr tt)) tt >>>
  pid <- mypid ;;
  set_sl id (Sleeplock 1 pid) >>>
  lock_release (SleepLk id).

Definition releasesleep (id : Z) : K unit :=
  lock_acquire (SleepLk id) >>>
  set_sl id (Sleeplock 0 0) >>>
  wakeup (SleepLockChan id) >>>
  lock_release (SleepLk id).

Definition holdingsleep (id : Z) : K bool :=
  lock_acquire (SleepLk id) >>>
  l <- fgets (fun s => fs_sl s id) ;;
  pid <- mypid ;;
  lock_release (SleepLk id) >>>
  ret (negb (sl_locked l =? 0) && (sl_pid l =? pid)).

(** ** bio.c *)

Definition getb (i : nat) : K buf := fun k =>
  match bc_buf (fs_bc (k_files k)) !! i with Some b => Ok (b, k) | None => Crash end.
Definition setb (i : nat) (f : buf -> buf) : K unit :=
  fmod (fun s => set_fs_bc (set_bc_buf (alter f i (bc_buf (fs_bc s))) (fs_bc s)) s).
Definition next (i : nat) : K nat := fgets (fun s => bc_next (fs_bc s) i).
Definition prev (i : nat) : K nat := fgets (fun s => bc_prev (fs_bc s) i).
Definition set_next (i j : nat) : K unit :=
  fmod (fun s => set_fs_bc (set_bc_next (upd (bc_next (fs_bc s)) i j) (fs_bc s)) s).
Definition set_prev (i j : nat) : K unit :=
  fmod (fun s => set_fs_bc (set_bc_prev (upd (bc_prev (fs_bc s)) i j) (fs_bc s)) s).

(** [&bcache.head]. *)
Definition head_buf : nat := NBUF.

(** Insert [b] after the head: the end of [binit]'s loop and of [brelse]. *)
Definition link_front (b : nat) : K unit :=
  h <- next head_buf ;;
  set_prev h b >>>
  set_next head_buf b.

Definition binit : K unit :=
  set_prev head_buf head_buf >>>
  set_next head_buf head_buf >>>
  loop (S NBUF) (fun b =>
    if (b <? NBUF)%nat then
      h <- next head_buf ;;
      set_next b h >>>
      set_prev b head_buf >>>
      initsleeplock (Z.of_nat b) >>>
      link_front b >>>
      ret (inl (S b))
    else ret (inr tt)) 0%nat.

(** The two scans of [bget]. *)
Definition bget_cached (dev blockno : Z) : K (option nat) :=
  b <- next head_buf ;;
  loop (S NBUF) (fun b =>
    if (b =? head_buf)%nat then ret (inr None)
    else
      x <- getb b ;;
      if (b_dev x =? dev) && (b_blockno x =? blockno) then ret (inr (Some b))
      else b' <- next b ;; ret (inl b')) b.

Definition bget_unused : K (option nat) :=
  b <- prev head_buf ;;
  loop (S NBUF) (fun b =>
    if (b =? head_buf)%nat then ret (inr None)
    else
      x <- getb b ;;
      if b_refcnt x =? 0 then ret (inr (Some b))
      else b' <- prev b ;; ret (inl b')) b.

Definition bget (dev blockno : Z) : K nat :=
  lock_acquire BcacheLock >>>
  r <- bget_cached dev blockno ;;
  match r with
  | Some b =>
      setb b (fun x => set_b_refcnt (u32 (b_refcnt x + 1)) x) >>>
      lock_release BcacheLock >>>
      acquiresleep (Z.of_nat b) >>>
      ret b
  | None =>
      r <- bget_unused ;;
      match r with
      | Some b =>
          setb b (fun x => Buf 0 dev blockno 1 (b_data x)) >>>
          lock_release BcacheLock >>>
          acquiresleep (Z.of_nat b) >>>
          ret b
      | None => panic "bget: no buffers"
      end
  end.

Definition bread (dev blockno : Z) : K nat :=
  b <- bget dev blockno ;;
  x <- getb b ;;
  (if b_valid x =? 0
   then virtio_disk_rw b false >>> setb b (set_b_valid 1)
   else ret tt) >>>
  ret b.

Definition bwrite (b : nat) : K unit :=
  h <- holdingsleep (Z.of_nat b) ;;
  if negb h then panic "bwrite" else virtio_disk_rw b true.

Definition brelse (b : nat) : K unit :=
  h <- holdingsleep (Z.of_nat b) ;;
  if negb h then panic "brelse"
  else
    releasesleep (Z.of_nat b) >>>
    lock_acquire BcacheLock >>>
    setb b (fun x => set_b_refcnt (u32 (b_refcnt x - 1)) x) >>>
    x <- getb b ;;
    (if b_refcnt x =? 0 then
       n <- next b ;; p <- prev b ;; set_prev n p >>>
       p <- prev b ;; n <- next b ;; set_next p n >>>
       h <- next head_buf ;; set_next b h >>>
       set_prev b head_buf >>>
       link_front b
     else ret tt) >>>
    lock_release BcacheLock.

Definition bpin (b : nat) : K unit :=
  lock_acquire BcacheLock >>>
  setb b (fun x => set_b_refcnt (u32 (b_refcnt x + 1)) x) >>>
  lock_release BcacheLock.

Definition bunpin (b : nat) : K unit :=
  lock_acquire BcacheLock >>>
  setb b (fun x => set_b_refcnt (u32 (b_refcnt x - 1)) x) >>>
  lock_release BcacheLock.

End code.
