(* ===== verification/BioSpec.v ===== *)
(** The buffer cache implements a cache of blocks.

    The abstract cache [cache] has the contents [cv] every process sees, the
    contents [cd] on disk, the references [cr] to blocks and the completed
    disk writes.  [caches dev fs A L] relates it to bio.c's state, [L] giving
    the blocks the running process has locked and their buffers. *)

From S2P Require Import Prelude.
From S2P Require Import Memory.
From S2P Require Import Spinlock.
From S2P Require Import Riscv.
From S2P Require Import Kalloc.
From S2P Require Import Proc.
From S2P Require Import ProcInv.
From S2P Require Import ProcOps.
From S2P Require Import ProcCtl.
From S2P Require Import FsState.
From S2P Require Import Bio.

(** ** The process that runs the code *)

(** Process [i] with the given pid runs, holding no spin lock. *)
Record host (i : nat) (pid : Z) (k : kernel fsys) : Prop := {
  ho_cur : k_cur k = Some i;
  ho_len : length (k_procs k) = NPROC;
  ho_held : held k = [];
  ho_self : exists p, k_procs k !! i = Some p /\ p_pid p = pid
}.

(** [k'] is [k] with sleeping processes woken, and other file system state. *)
Record woke (k k' : kernel fsys) : Prop := {
  wk_m : k_m k' = k_m k;
  wk_nextpid : k_nextpid k' = k_nextpid k;
  wk_initproc : k_initproc k' = k_initproc k;
  wk_cur : k_cur k' = k_cur k;
  wk_ticks : k_ticks k' = k_ticks k;
  wk_len : length (k_procs k') = length (k_procs k);
  wk_proc j p : k_procs k !! j = Some p -> exists p', k_procs k' !! j = Some p' /\
    (p' = p \/ (k_cur k <> Some j /\ p_state p = SLEEPING /\ p' = set_state RUNNABLE p))
}.

Lemma woke_files k fs : woke k (set_k_files fs k).
Proof. split; try done. intros j p Hp. exists p. auto. Qed.

Lemma woke_refl k : woke k k.
Proof. split; try done. intros j p Hp. exists p. auto. Qed.

Lemma woke_trans k1 k2 k3 : woke k1 k2 -> woke k2 k3 -> woke k1 k3.
Proof.
  intros [] []. split; try congruence. intros j p Hp.
  destruct (wk_proc0 j p Hp) as (p2 & Hp2 & H2). destruct (wk_proc1 j p2 Hp2) as (p3 & Hp3 & H3).
  exists p3. split; [done|]. destruct H2 as [->|(Hc & Hs & ->)], H3 as [->|(Hc' & Hs' & ->)]; auto.
  right. split_and!; [congruence|done|done].
Qed.

Lemma woke_host i pid k k' : woke k k' -> host i pid k -> host i pid k'.
Proof.
  intros W [Hc Hl Hh (p & Hp & Hpid)]. split.
  - by rewrite (wk_cur _ _ W).
  - by rewrite (wk_len _ _ W).
  - change (mheld (k_m k') = []). by rewrite (wk_m _ _ W).
  - destruct (wk_proc _ _ W i p Hp) as (p' & Hp' & [->|(_ & _ & ->)]); [by exists p|by exists (set_state RUNNABLE p)].
Qed.

#[export] Hint Resolve woke_files woke_refl woke_trans woke_host : wp.

(** ** Sleep locks *)

Section sleeplock.
Context (swtch : M (kernel fsys) unit) (fuel : nat) (i : nat) (pid : Z).
Implicit Types k : kernel fsys.

Lemma wp_mypid k (Q : Z -> kernel fsys -> Prop) :
  k_cur k = Some i -> (exists p, k_procs k !! i = Some p /\ p_pid p = pid) -> Q pid k -> wp mypid k Q.
Proof.
  intros Hc (p & Hp & Hpid) HQ. unfold mypid. apply wp_bind. unfold wp at 1, myproc. rewrite Hc.
  apply wp_bind. unfold wp at 1, getp. rewrite Hp. apply wp_ret. by rewrite Hpid.
Qed.

(** Releasing the only lock. *)
Lemma release_only l k (Q : unit -> kernel fsys -> Prop) :
  held k = [l] -> Q tt (set_held [] k) -> wp (lock_release l) k Q.
Proof.
  intros Hh HQ. apply wp_lock_release; [rewrite Hh; by apply list_elem_of_singleton|].
  by rewrite Hh, filter_cons_False by (by intros ?).
Qed.

Lemma acquire_first l k (Q : unit -> kernel fsys -> Prop) :
  held k = [] -> Q tt (set_held [l] k) -> wp (lock_acquire l) k Q.
Proof. intros Hh HQ. apply wp_lock_acquire; rewrite Hh; [apply not_elem_of_nil|done]. Qed.

Lemma set_held_files L L' f k :
  held k = L -> set_held L (set_k_files f (set_held L' k)) = set_k_files f k.
Proof. destruct k as [[m fl h] ps np ip c t s]. cbn. by intros ->. Qed.

Lemma wp_fmod f k (Q : unit -> kernel fsys -> Prop) :
  Q tt (set_k_files (f (k_files k)) k) -> wp (fmod f) k Q.
Proof. done. Qed.

Lemma wp_fgets {A} (f : fsys -> A) k (Q : A -> kernel fsys -> Prop) : Q (f (k_files k)) k -> wp (fgets f) k Q.
Proof. done. Qed.

(** A free sleep lock is taken at once. *)
Lemma acquiresleep_spec id k (Q : unit -> kernel fsys -> Prop) :
  host i pid k -> sl_locked (fs_sl (k_files k) id) = 0 -> (0 < fuel)%nat ->
  Q tt (set_k_files (set_fs_sl (upd (fs_sl (k_files k)) id (Sleeplock 1 pid)) (k_files k)) k) ->
  wp (acquiresleep swtch fuel id) k Q.
Proof.
  intros [Hc Hl Hh Hself] Hfree Hf HQ. unfold acquiresleep.
  apply wp_bind, acquire_first; [done|]. apply wp_bind.
  destruct fuel as [|f]; [lia|]. cbn [loop]. apply wp_bind, wp_bind, wp_fgets.
  change (k_files (set_held _ k)) with (k_files k). rewrite Hfree. cbn [negb Z.eqb]. apply wp_ret, wp_ret.
  apply wp_bind, wp_mypid; [done|done|]. apply wp_bind, wp_fmod, release_only; [done|].
  by rewrite set_held_files.
Qed.

Lemma holdingsleep_spec id k (Q : bool -> kernel fsys -> Prop) :
  host i pid k ->
  Q (negb (sl_locked (fs_sl (k_files k) id) =? 0) && (sl_pid (fs_sl (k_files k) id) =? pid)) k ->
  wp (holdingsleep id) k Q.
Proof.
  intros [Hc Hl Hh Hself] HQ. unfold holdingsleep. apply wp_bind, acquire_first; [done|].
  apply wp_bind, wp_fgets, wp_bind, wp_mypid; [done|done|]. apply wp_bind, release_only; [done|].
  apply wp_ret. rewrite set_held_set, <- Hh, set_held_held. exact HQ.
Qed.

Lemma releasesleep_spec id k (Q : unit -> kernel fsys -> Prop) :
  host i pid k ->
  (forall k', woke k k' -> k_files k' = set_fs_sl (upd (fs_sl (k_files k)) id (Sleeplock 0 0)) (k_files k) ->
    Q tt k') ->
  wp (releasesleep id) k Q.
Proof.
  intros [Hc Hl Hh Hself] HQ. unfold releasesleep. apply wp_bind, acquire_first; [done|].
  apply wp_bind, wp_fmod, wp_bind, wakeup_spec; [done| |].
  { intros j _. cbn. intros [?|?]%elem_of_cons; [done|by eapply not_elem_of_nil]. }
  apply release_only; [done|]. apply HQ; [|done]. split; try done.
  - cbn. rewrite <- Hh. by destruct k as [[]].
  - cbn. by rewrite length_imap.
  - intros j p Hp. cbn. rewrite list_lookup_imap, Hp. cbn. eexists. split; [done|]. unfold woken.
    rewrite Hc. destruct (decide (Some i = Some j)); [by left|].
    destruct (decide _) as [[? ?]|]; [by right|by left].
Qed.
End sleeplock.

(** ** The abstract cache *)

Record cache := Cache {
  cv : Z -> block;            (* contents as processes see them *)
  cd : Z -> block;            (* contents on disk *)
  cr : gmap Z nat;            (* references to blocks, none zero *)
  cw : list (Z * block)       (* completed writes *)
}.

(** Buffer [i] is for block [b]. *)
Definition buf_for (dev : Z) (fs : fsys) (i : nat) (b : Z) (x : buf) : Prop :=
  bc_buf (fs_bc fs) !! i = Some x /\ b_dev x = dev /\ b_blockno x = b.

Record caches (dev pid : Z) (fs : fsys) (A : cache) (L : gmap Z nat) : Prop := {
  ca_len : length (bc_buf (fs_bc fs)) = NBUF;
  ca_ring : exists l, ring head_buf (bc_next (fs_bc fs)) (bc_prev (fs_bc fs)) l /\ l ≡ₚ seq 0 NBUF;
  ca_uniq i j b x y : buf_for dev fs i b x -> buf_for dev fs j b y -> i = j;
  ca_cr b n : cr A !! b = Some n <-> (0 < n)%nat /\ exists i x, buf_for dev fs i b x /\ b_refcnt x = Z.of_nat n;
  ca_ref i x : bc_buf (fs_bc fs) !! i = Some x -> 0 <= b_refcnt x < 2 ^ 32 /\
    (b_refcnt x <> 0 -> b_dev x = dev /\ b_valid x = 1);
  ca_valid i x : bc_buf (fs_bc fs) !! i = Some x -> b_valid x = 0 \/ b_valid x = 1;
  ca_view i b x : buf_for dev fs i b x -> b_valid x <> 0 -> b_data x = cv A b /\
    (b_refcnt x = 0 -> cv A b = cd A b);
  ca_none b : (forall i x, buf_for dev fs i b x -> b_valid x = 0) -> cv A b = cd A b;
  ca_disk b : d_block (fs_disk fs) b = cd A b;
  ca_writes : d_writes (fs_disk fs) = cw A;
  ca_lock i : (i < NBUF)%nat -> (forall b, L !! b <> Some i) -> sl_locked (fs_sl fs (Z.of_nat i)) = 0;
  ca_mine b i : L !! b = Some i -> fs_sl fs (Z.of_nat i) = Sleeplock 1 pid /\
    exists x, buf_for dev fs i b x /\ b_refcnt x <> 0
}.

(** The other parts of the file system's state. *)
Record same_rest (fs fs' : fsys) : Prop := {
  sr_sl id : Z.of_nat NBUF <= id -> fs_sl fs' id = fs_sl fs id;
  sr_log : fs_log fs' = fs_log fs;
  sr_sb : fs_sb fs' = fs_sb fs;
  sr_inode : fs_inode fs' = fs_inode fs;
  sr_file : fs_file fs' = fs_file fs;
  sr_pipe : fs_pipe fs' = fs_pipe fs;
  sr_cons : fs_cons fs' = fs_cons fs;
  sr_uart : fs_uart fs' = fs_uart fs
}.

Lemma same_rest_refl fs : same_rest fs fs.
Proof. done. Qed.

Lemma same_rest_trans f1 f2 f3 : same_rest f1 f2 -> same_rest f2 f3 -> same_rest f1 f3.
Proof. intros [S1] [S2]. split; try congruence. intros id Hid. by rewrite S2, S1. Qed.

(** Only a buffer's lock and the cache change. *)
Ltac rest_lock := split; try done; intros id Hid; cbn; apply upd_ne; lia.

Definition with_buf (j : nat) (x : buf) (fs : fsys) : fsys :=
  set_fs_bc (set_bc_buf (<[j := x]> (bc_buf (fs_bc fs))) (fs_bc fs)) fs.

(** The operations of the cache. *)
Definition refs (A : cache) (b : Z) : nat := default 0%nat (cr A !! b).
Lemma refs_pos A b : (0 < refs A b)%nat -> cr A !! b = Some (refs A b).
Proof. unfold refs. destruct (cr A !! b); [done|]. cbn. lia. Qed.

Definition a_take (b : Z) (A : cache) : cache := Cache (cv A) (cd A) (<[b := S (refs A b)]> (cr A)) (cw A).
Definition a_drop (b : Z) (A : cache) : cache :=
  Cache (cv A) (cd A)
    (if decide (refs A b = 1%nat) then delete b (cr A) else <[b := pred (refs A b)]> (cr A)) (cw A).
Definition a_set (b : Z) (d : block) (A : cache) : cache := Cache (upd (cv A) b d) (cd A) (cr A) (cw A).
Definition a_write (b : Z) (A : cache) : cache :=
  Cache (cv A) (upd (cd A) b (cv A b)) (cr A) (cw A ++ [(b, cv A b)]).

(** What the disk driver promises: a read fills the buffer with the block, a
    write replaces the block by the buffer. *)
Definition transferred (b : nat) (x : buf) (write : bool) (fs : fsys) : fsys :=
  if write
  then set_fs_disk (Disk (upd (d_block (fs_disk fs)) (b_blockno x) (b_data x))
         (d_writes (fs_disk fs) ++ [(b_blockno x, b_data x)])) fs
  else set_fs_bc (set_bc_buf (<[b := set_b_data (d_block (fs_disk fs) (b_blockno x)) x]> (bc_buf (fs_bc fs)))
         (fs_bc fs)) fs.

Definition driver_ok (rw : nat -> bool -> M (kernel fsys) unit) : Prop :=
  forall i pid b w k x,
    host i pid k -> bc_buf (fs_bc (k_files k)) !! b = Some x -> fs_sl (k_files k) (Z.of_nat b) = Sleeplock 1 pid ->
    wp (rw b w) k (fun _ k' => woke k k' /\ k_files k' = transferred b x w (k_files k)).

Lemma ca_find dev pid fs A L b :
  caches dev pid fs A L -> cr A !! b = None -> forall i x, buf_for dev fs i b x -> b_refcnt x = 0.
Proof.
  intros C Hn i x Hb. destruct (decide (b_refcnt x = 0)) as [|Hne]; [done|]. exfalso.
  destruct (ca_ref _ _ _ _ _ C i x) as [Hr _]; [apply Hb|].
  assert (cr A !! b = Some (Z.to_nat (b_refcnt x))); [|congruence].
  apply (ca_cr _ _ _ _ _ C). split; [lia|]. exists i, x. split; [done|lia].
Qed.

(** With fewer referenced blocks than buffers, some buffer is unused. *)
Lemma ca_free dev pid fs A L :
  caches dev pid fs A L -> (size (cr A) < NBUF)%nat ->
  exists i x, bc_buf (fs_bc fs) !! i = Some x /\ b_refcnt x = 0.
Proof.
  intros C Hsz. destruct (decide (Exists (fun x => b_refcnt x = 0) (bc_buf (fs_bc fs)))) as [He|Hn].
  { apply Exists_exists in He as (x & Hx & H0). apply list_elem_of_lookup in Hx as [i Hi]. eauto. }
  exfalso. rewrite <- Forall_Exists_neg in Hn. rewrite Forall_lookup in Hn.
  assert (Hin : forall i x, bc_buf (fs_bc fs) !! i = Some x -> b_blockno x ∈ dom (cr A)).
  { intros i x Hx. destruct (ca_ref _ _ _ _ _ C i x Hx) as [Hr Hd]. specialize (Hn i x Hx).
    apply elem_of_dom. exists (Z.to_nat (b_refcnt x)). apply (ca_cr _ _ _ _ _ C). split; [lia|].
    exists i, x. split; [split_and!; [done|by apply Hd|done]|lia]. }
  assert (Hnd : NoDup (map b_blockno (bc_buf (fs_bc fs)))).
  { apply NoDup_alt. intros i j b Hi Hj. rewrite list_lookup_fmap in Hi, Hj.
    apply fmap_Some in Hi as (x & Hx & ->). apply fmap_Some in Hj as (y & Hy & E).
    destruct (ca_ref _ _ _ _ _ C i x Hx) as [_ Hdx]. destruct (ca_ref _ _ _ _ _ C j y Hy) as [_ Hdy].
    destruct (Hdx (Hn i x Hx)) as [Hdx1 _]. destruct (Hdy (Hn j y Hy)) as [Hdy1 _].
    eapply (ca_uniq _ _ _ _ _ C i j (b_blockno x)); split_and!; done. }
  pose proof (ca_len _ _ _ _ _ C) as Hlen.
  assert (list_to_set (map b_blockno (bc_buf (fs_bc fs))) ⊆ dom (cr A)) as Hsub.
  { intros b Hb. apply elem_of_list_to_set, list_elem_of_fmap in Hb as (x & -> & Hx).
    apply list_elem_of_lookup in Hx as [i Hi]. by eapply Hin. }
  apply subseteq_size in Hsub. rewrite size_list_to_set, length_fmap, size_dom, Hlen in Hsub by done. lia.
Qed.

(** ** bget *)

(** The loop of [acquiresleep] runs at least once. *)
Definition can_wait (fuel : nat) : Prop := (0 < fuel)%nat.

Section bio.
Context (swtch : M (kernel fsys) unit) (fuel : nat) (Hfuel : can_wait fuel).
Context (rw : nat -> bool -> M (kernel fsys) unit) (Hrw : driver_ok rw).
Context (i : nat) (pid dev : Z).
Implicit Types k : kernel fsys.

Lemma wp_getb j x k (Q : buf -> kernel fsys -> Prop) :
  bc_buf (fs_bc (k_files k)) !! j = Some x -> Q x k -> wp (getb j) k Q.
Proof. intros Hx HQ. unfold wp, getb. by rewrite Hx. Qed.

(** A scan of the ring in one direction for a buffer that passes [test]. *)
Lemma scan_spec (step : nat -> M (kernel fsys) nat) nf pf (test : buf -> bool) l k :
  (forall j, step j k = Ok (nf j, k)) -> seg nf pf head_buf l head_buf -> (length l <= NBUF)%nat ->
  (forall j, j ∈ l -> j <> head_buf /\ is_Some (bc_buf (fs_bc (k_files k)) !! j)) ->
  wp (b <- step head_buf ;;
      loop (S NBUF) (fun b =>
        if (b =? head_buf)%nat then ret (inr None)
        else
          x <- getb b ;;
          if test x then ret (inr (Some b)) else b' <- step b ;; ret (inl b')) b) k
    (fun r k' => k' = k /\
      match r with
      | Some j => exists x, bc_buf (fs_bc (k_files k)) !! j = Some x /\ test x = true
      | None => forall j x, j ∈ l -> bc_buf (fs_bc (k_files k)) !! j = Some x -> test x = false
      end).
Proof.
  intros Hstep Hs Hlen Hin. apply wp_bind. unfold wp at 1. rewrite Hstep.
  assert (Hf : (length l < S NBUF)%nat) by lia. clear Hlen. revert Hf. generalize (S NBUF) as f.
  cbn beta. revert Hs. generalize head_buf at 1 4 as a. induction l as [|c l IH]; intros a Hs f Hf;
    (destruct f as [|f]; [lia|]); cbn [loop seg length] in *; apply wp_bind.
  - destruct Hs as [-> _]. rewrite Nat.eqb_refl. apply wp_ret. split; [done|].
    intros j x Hj. by apply not_elem_of_nil in Hj.
  - destruct Hs as (-> & _ & Hs). destruct (Hin c) as [Hc [x Hx]]; [apply elem_of_cons; by left|].
    rewrite (proj2 (Nat.eqb_neq c head_buf)) by done. apply wp_bind, (wp_getb c x); [done|].
    destruct (test x) eqn:Et; [apply wp_ret; split; [done|by exists x]|]. apply wp_bind. unfold wp at 1. rewrite Hstep. apply wp_ret.
    eapply wp_mono; [apply IH; [|done|lia]; intros j Hj; apply Hin, elem_of_cons; by right|]. cbn beta.
    intros r k' [-> Hr]. split; [done|]. destruct r as [j|]; [done|].
    intros j y Hj Hy. apply elem_of_cons in Hj as [->|Hj]; [congruence|by eapply Hr].
Qed.

(** Every buffer is on the list. *)
Lemma ring_all fs A L l :
  caches dev pid fs A L -> l ≡ₚ seq 0 NBUF ->
  forall j, j ∈ l <-> (j < NBUF)%nat.
Proof. intros C Hl j. rewrite Hl, elem_of_seq. lia. Qed.

Lemma scan_pre fs A L l :
  caches dev pid fs A L -> l ≡ₚ seq 0 NBUF ->
  (length l <= NBUF)%nat /\ forall j, j ∈ l -> j <> head_buf /\ is_Some (bc_buf (fs_bc fs) !! j).
Proof.
  intros C Hl. split; [by rewrite Hl, length_seq|]. intros j Hj. apply (ring_all fs A L l C Hl) in Hj.
  split; [unfold head_buf; lia|]. apply lookup_lt_is_Some. by rewrite (ca_len _ _ _ _ _ C).
Qed.

Lemma bget_cached_spec b k A L :
  caches dev pid (k_files k) A L ->
  wp (bget_cached dev b) k (fun r k' => k' = k /\
    match r with
    | Some j => exists x, buf_for dev (k_files k) j b x
    | None => forall j x, ~ buf_for dev (k_files k) j b x
    end).
Proof.
  intros C. destruct (ca_ring _ _ _ _ _ C) as (l & [Hs Hd] & Hl). destruct (scan_pre _ _ _ _ C Hl) as [H1 H2].
  eapply wp_mono; [by apply (scan_spec next (bc_next (fs_bc (k_files k))) (bc_prev (fs_bc (k_files k))) (fun x => (b_dev x =? dev) && (b_blockno x =? b)) l)|]. cbn beta.
  intros r k' [-> Hr]. split; [done|]. destruct r as [j|].
  - destruct Hr as (x & Hx & Ht). exists x. bool_simp. by split_and!.
  - intros j x (Hx & Hdx & Hbx). specialize (Hr j x). rewrite (ring_all _ _ _ l C Hl) in Hr.
    assert (j < NBUF)%nat by (rewrite <- (ca_len _ _ _ _ _ C); by eapply lookup_lt_Some).
    rewrite Hdx, Hbx, !Z.eqb_refl in Hr. by specialize (Hr ltac:(done) Hx).
Qed.

Lemma bget_unused_spec k A L :
  caches dev pid (k_files k) A L -> (size (cr A) < NBUF)%nat ->
  wp bget_unused k (fun r k' => k' = k /\
    exists j x, r = Some j /\ bc_buf (fs_bc (k_files k)) !! j = Some x /\ b_refcnt x = 0).
Proof.
  intros C Hsz. destruct (ca_ring _ _ _ _ _ C) as (l & [Hs Hd] & Hl). destruct (scan_pre _ _ _ _ C Hl) as [H1 H2].
  apply seg_rev in Hs.
  eapply wp_mono; [apply (scan_spec prev (bc_prev (fs_bc (k_files k))) (bc_next (fs_bc (k_files k)))
    (fun x => b_refcnt x =? 0) (rev l)); [done|done|by rewrite length_rev|]|].
  { intros j Hj. apply H2. by rewrite <- (Permutation_rev l) in Hj. }
  cbn beta. intros r k' [-> Hr]. split; [done|]. destruct r as [j|].
  - destruct Hr as (x & Hx & Ht). exists j, x. bool_simp. done.
  - exfalso. destruct (ca_free _ _ _ _ _ C Hsz) as (j & x & Hx & H0). specialize (Hr j x).
    rewrite <- (Permutation_rev l), (ring_all _ _ _ l C Hl) in Hr.
    assert (j < NBUF)%nat by (rewrite <- (ca_len _ _ _ _ _ C); by eapply lookup_lt_Some).
    rewrite H0 in Hr. by specialize (Hr ltac:(done) Hx).
Qed.
(** Replacing buffer [j], which is for [b] or unused, by [x'], for [b]. *)
Section update.
Context (fs fs' : fsys) (A A' : cache) (L L' : gmap Z nat) (j : nat) (b : Z) (x x' : buf).
Context (C : caches dev pid fs A L) (Hx : bc_buf (fs_bc fs) !! j = Some x).
Context (Hold : (b_dev x = dev /\ b_blockno x = b) \/ (b_refcnt x = 0 /\ forall j' y, ~ buf_for dev fs j' b y)).
Context (Hbufs : bc_buf (fs_bc fs') = <[j := x']> (bc_buf (fs_bc fs))).
Context (Hd' : b_dev x' = dev) (Hb' : b_blockno x' = b) (Hv' : b_valid x' = 1).

Lemma upd_other j' b' y : j' <> j -> buf_for dev fs' j' b' y <-> buf_for dev fs j' b' y.
Proof. intros Hne. unfold buf_for. by rewrite Hbufs, list_lookup_insert_ne. Qed.

Lemma upd_here b' y : buf_for dev fs' j b' y <-> y = x' /\ b' = b.
Proof.
  unfold buf_for. rewrite Hbufs, list_lookup_insert_eq by (by eapply lookup_lt_Some). split.
  - intros ([= <-] & _ & <-). done.
  - by intros [-> ->].
Qed.

(** No other buffer is for [b]. *)
Lemma upd_alone j' y : buf_for dev fs j' b y -> j' = j.
Proof.
  intros Hy. destruct Hold as [[Hd Hb]|[_ Hn]]; [|by apply Hn in Hy].
  by apply (ca_uniq _ _ _ _ _ C j' j b y x).
Qed.

(** If buffer [j] was for another block, that block was unreferenced. *)
Lemma upd_evicted b' : b' <> b -> buf_for dev fs j b' x -> b_refcnt x = 0.
Proof. intros Hne (_ & _ & Hbx). destruct Hold as [[_ ?]|[? _]]; congruence. Qed.

Lemma upd_notmine b' : b' <> b -> L !! b' <> Some j.
Proof.
  intros Hne HL. destruct (ca_mine _ _ _ _ _ C _ _ HL) as (_ & y & Hy & Hr).
  assert (y = x) as -> by (destruct Hy as (Hy & _); congruence). by apply Hr, (upd_evicted b').
Qed.

Lemma upd_cr n b' :
  0 <= b_refcnt x' ->
  cr A' = (if decide (b_refcnt x' = 0) then delete b (cr A) else <[b := Z.to_nat (b_refcnt x')]> (cr A)) ->
  cr A' !! b' = Some n <-> (0 < n)%nat /\ exists j' y, buf_for dev fs' j' b' y /\ b_refcnt y = Z.of_nat n.
Proof.
  intros H0 ->. destruct (decide (b' = b)) as [->|Hne].
  - transitivity (b_refcnt x' = Z.of_nat n /\ (0 < n)%nat).
    + case_decide; [rewrite lookup_delete_eq; split; [done|lia]|].
      rewrite lookup_insert_eq. split; [intros [= <-]; lia|intros [-> ?]; by rewrite Nat2Z.id].
    + split.
      * intros [Hn ?]. split; [done|]. exists j, x'. split; [by apply upd_here|done].
      * intros (Hn & j' & y & Hy & Hr). split; [|done]. destruct (decide (j' = j)) as [->|Hj].
        { apply upd_here in Hy as [-> _]. done. }
        { apply upd_other in Hy; [|done]. by apply upd_alone in Hy. }
  - transitivity (cr A !! b' = Some n).
    { case_decide; [by rewrite lookup_delete_ne|by rewrite lookup_insert_ne]. }
    rewrite (ca_cr _ _ _ _ _ C). split; intros (Hn & j' & y & Hy & Hr); (split; [done|]); exists j', y;
      (split; [|done]); destruct (decide (j' = j)) as [->|Hj].
    + exfalso. assert (y = x) as -> by (destruct Hy as (Hy & _); congruence).
      apply (upd_evicted b') in Hy; [lia|done].
    + by apply upd_other.
    + apply upd_here in Hy as [_ ->]. done.
    + by apply upd_other in Hy.
Qed.

Lemma upd_none b' :
  b' <> b -> (forall j' y, buf_for dev fs' j' b' y -> b_valid y = 0) -> cv A b' = cd A b'.
Proof.
  intros Hne Hn. destruct (decide (b_dev x = dev /\ b_blockno x = b')) as [[Hdx Hbx]|Hno].
  - assert (Hxb : buf_for dev fs j b' x) by done. destruct (decide (b_valid x = 0)) as [Hv|Hv].
    + apply (ca_none _ _ _ _ _ C). intros j' y Hy. destruct (decide (j' = j)) as [->|Hj].
      * destruct Hy as (Hy & _). congruence.
      * apply (Hn j'). by apply upd_other.
    + apply (ca_view _ _ _ _ _ C _ _ _ Hxb Hv). by apply (upd_evicted b').
  - apply (ca_none _ _ _ _ _ C). intros j' y Hy. apply (Hn j'). destruct (decide (j' = j)) as [->|Hj].
    + exfalso. apply Hno. destruct Hy as (Hy & ? & ?). assert (y = x) as <- by congruence. done.
    + by apply upd_other.
Qed.

Lemma caches_update :
  (exists l, ring head_buf (bc_next (fs_bc fs')) (bc_prev (fs_bc fs')) l /\ l ≡ₚ seq 0 NBUF) ->
  cr A' = (if decide (b_refcnt x' = 0) then delete b (cr A) else <[b := Z.to_nat (b_refcnt x')]> (cr A)) ->
  0 <= b_refcnt x' < 2 ^ 32 ->
  (forall b', b' <> b -> cv A' b' = cv A b' /\ cd A' b' = cd A b') ->
  b_data x' = cv A' b -> (b_refcnt x' = 0 -> cv A' b = cd A' b) ->
  (forall b', d_block (fs_disk fs') b' = cd A' b') -> d_writes (fs_disk fs') = cw A' ->
  (forall j', j' <> j -> fs_sl fs' (Z.of_nat j') = fs_sl fs (Z.of_nat j')) ->
  (forall b', b' <> b -> L' !! b' = L !! b') ->
  ((L' !! b = Some j /\ fs_sl fs' (Z.of_nat j) = Sleeplock 1 pid /\ b_refcnt x' <> 0) \/
   (L' !! b = None /\ sl_locked (fs_sl fs' (Z.of_nat j)) = 0)) ->
  caches dev pid fs' A' L'.
Proof.
  intros Hring Hcr Hr Hoth Hdat Hcl Hdisk Hwr Hsl HL Hmine. split.
  - rewrite Hbufs, length_insert. apply (ca_len _ _ _ _ _ C).
  - done.
  - intros j1 j2 b1 y1 y2 H1 H2. destruct (decide (j1 = j)) as [->|N1], (decide (j2 = j)) as [->|N2]; [done|..].
    + apply upd_here in H1 as [_ ->]. apply upd_other in H2; [|done]. by apply upd_alone in H2.
    + apply upd_here in H2 as [_ ->]. apply upd_other in H1; [|done]. by apply upd_alone in H1.
    + apply upd_other in H1, H2; try done. by apply (ca_uniq _ _ _ _ _ C j1 j2 b1 y1 y2).
  - intros b1 n. apply upd_cr; [lia|done].
  - intros j1 y Hy. rewrite Hbufs in Hy. destruct (decide (j1 = j)) as [->|N1].
    + rewrite list_lookup_insert_eq in Hy by (by eapply lookup_lt_Some). injection Hy as <-. done.
    + rewrite list_lookup_insert_ne in Hy by done. by apply (ca_ref _ _ _ _ _ C j1).
  - intros j1 y Hy. rewrite Hbufs in Hy. destruct (decide (j1 = j)) as [->|N1].
    + rewrite list_lookup_insert_eq in Hy by (by eapply lookup_lt_Some). injection Hy as <-. by right.
    + rewrite list_lookup_insert_ne in Hy by done. by apply (ca_valid _ _ _ _ _ C j1).
  - intros j1 b1 y Hy Hv. destruct (decide (j1 = j)) as [->|N1].
    + apply upd_here in Hy as [-> ->]. done.
    + apply upd_other in Hy; [|done]. assert (b1 <> b) as Hne by (intros ->; by apply upd_alone in Hy).
      destruct (Hoth b1 Hne) as [-> ->]. by apply (ca_view _ _ _ _ _ C j1).
  - intros b1 Hn. destruct (decide (b1 = b)) as [->|Hne].
    + assert (b_valid x' = 0); [|congruence]. apply (Hn j). by apply upd_here.
    + destruct (Hoth b1 Hne) as [-> ->]. by apply upd_none.
  - done.
  - done.
  - intros j1 Hj Hfree. destruct (decide (j1 = j)) as [->|N1].
    + destruct Hmine as [(E & _)|(_ & ?)]; [by apply Hfree in E|done].
    + rewrite Hsl by done. apply (ca_lock _ _ _ _ _ C); [done|]. intros b1 E.
      destruct (decide (b1 = b)) as [->|Hne]; [|apply (Hfree b1); by rewrite HL].
      destruct (ca_mine _ _ _ _ _ C _ _ E) as (_ & y & Hy & _). by apply upd_alone in Hy.
  - intros b1 j1 E. destruct (decide (b1 = b)) as [->|Hne].
    + destruct Hmine as [(E' & Hs & Hne)|(E' & _)]; [|congruence]. assert (j1 = j) as -> by congruence.
      split; [done|]. exists x'. split; [by apply upd_here|done].
    + rewrite HL in E by done. destruct (ca_mine _ _ _ _ _ C _ _ E) as (Hs & y & Hy & Hr1).
      assert (j1 <> j) as Hj by (intros ->; by apply (upd_notmine b1) in E).
      rewrite Hsl by done. split; [done|]. exists y. split; [by apply upd_other|done].
Qed.
End update.

Lemma wp_setb j x f k (Q : unit -> kernel fsys -> Prop) :
  bc_buf (fs_bc (k_files k)) !! j = Some x -> Q tt (set_k_files (with_buf j (f x) (k_files k)) k) ->
  wp (setb j f) k Q.
Proof. intros Hx HQ. apply wp_fmod. unfold with_buf in HQ. by rewrite (alter_insert _ _ _ x). Qed.

Lemma set_files_held L L' f k :
  set_held L (set_k_files f (set_held L' k)) = set_k_files f (set_held L k).
Proof. by destruct k as [[m fl h] ps np ip c t s]. Qed.

Lemma set_held_nil k : held k = [] -> set_held [] k = k.
Proof. intros Hh. rewrite <- Hh. apply set_held_held. Qed.

(** Buffer [j], as [bget] finds it, and as it leaves it. *)
Definition usable (fs : fsys) (b : Z) (j : nat) (x : buf) : Prop :=
  bc_buf (fs_bc fs) !! j = Some x /\
  ((b_dev x = dev /\ b_blockno x = b) \/ (b_refcnt x = 0 /\ forall j' y, ~ buf_for dev fs j' b y)).

Definition gotten (A : cache) (b : Z) (x1 : buf) : Prop :=
  b_dev x1 = dev /\ b_blockno x1 = b /\ b_refcnt x1 = Z.of_nat (S (refs A b)) /\
  ((b_valid x1 = 1 /\ b_data x1 = cv A b) \/ (b_valid x1 = 0 /\ cv A b = cd A b)).

Lemma refs_buf fs A L b j x :
  caches dev pid fs A L -> buf_for dev fs j b x -> b_refcnt x = Z.of_nat (refs A b).
Proof.
  intros C Hx. unfold refs. destruct (cr A !! b) as [n|] eqn:E; cbn.
  - apply (ca_cr _ _ _ _ _ C) in E as (Hn & j' & y & Hy & Hr).
    assert (j' = j) as -> by (by apply (ca_uniq _ _ _ _ _ C j' j b y x)).
    destruct Hy as (Hy & _), Hx as (Hx & _). congruence.
  - by apply (ca_find _ _ _ _ _ _ C E j).
Qed.

(** The end of both branches of [bget]. *)
Lemma bget_finish k L A b j x x1 (Q : nat -> kernel fsys -> Prop) :
  host i pid k -> caches dev pid (k_files k) A L -> L !! b = None -> usable (k_files k) b j x ->
  Q j (set_k_files (set_fs_sl (upd (fs_sl (k_files k)) (Z.of_nat j) (Sleeplock 1 pid))
         (with_buf j x1 (k_files k))) k) ->
  wp (lock_release BcacheLock >>> acquiresleep swtch fuel (Z.of_nat j) >>> ret j)
    (set_k_files (with_buf j x1 (k_files k)) (set_held [BcacheLock] k)) Q.
Proof.
  intros Hh C HL [Hx Hu] HQ. apply wp_bind, release_only; [done|].
  rewrite set_files_held, (set_held_nil k) by apply Hh.
  apply wp_bind, (acquiresleep_spec swtch fuel i pid); [by eapply woke_host; [apply woke_files|]| |done|by apply wp_ret].
  cbn [k_files set_k_files fs_sl with_buf set_fs_bc].
  apply (ca_lock _ _ _ _ _ C); [rewrite <- (ca_len _ _ _ _ _ C); by eapply lookup_lt_Some|].
  intros b' E. destruct (ca_mine _ _ _ _ _ C _ _ E) as (_ & y & (Hy & _ & Hby) & Hr).
  assert (y = x) as -> by congruence. destruct Hu as [[_ Hbx]|[? _]]; congruence.
Qed.

Lemma bget_spec b k A L :
  host i pid k -> caches dev pid (k_files k) A L -> L !! b = None ->
  is_Some (cr A !! b) \/ (size (cr A) < NBUF)%nat -> Z.of_nat (refs A b) + 1 < 2 ^ 32 ->
  wp (bget swtch fuel dev b) k (fun j k' => exists x x1, usable (k_files k) b j x /\ gotten A b x1 /\
    k' = set_k_files (set_fs_sl (upd (fs_sl (k_files k)) (Z.of_nat j) (Sleeplock 1 pid))
           (with_buf j x1 (k_files k))) k).
Proof.
  intros Hh C HL Hroom Hmax. unfold bget. apply wp_bind, acquire_first; [apply Hh|].
  apply wp_bind. eapply wp_mono; [by apply (bget_cached_spec b _ A L)|]. cbn beta. intros r k1 [-> Hr].
  change (k_files (set_held _ k)) with (k_files k) in Hr. destruct r as [j|].
  - destruct Hr as (x & Hx). pose proof (refs_buf _ _ _ _ _ _ C Hx) as Href.
    apply wp_bind, (wp_setb j x); [apply Hx|].
    change (k_files (set_held _ k)) with (k_files k).
    apply (bget_finish k L A b j x); [done|done|done|by split; [apply Hx|left; apply Hx]|].
    exists x. eexists. split_and!; [by split; [apply Hx|left; apply Hx]| |done].
    destruct Hx as (Hx & Hdx & Hbx). split_and!; cbn; try done.
    + rewrite Href, u32_id by lia. lia.
    + destruct (ca_valid _ _ _ _ _ C j x Hx) as [Hv|Hv].
      * right. split; [done|]. apply (ca_none _ _ _ _ _ C). intros j' y Hy.
        assert (j' = j) as -> by (by apply (ca_uniq _ _ _ _ _ C j' j b y x)). destruct Hy as (Hy & _). congruence.
      * left. split; [done|]. apply (ca_view _ _ _ _ _ C j b x); [done|lia].
  - assert (refs A b = 0%nat) as Href.
    { unfold refs. destruct (cr A !! b) as [n|] eqn:E; [|done]. apply (ca_cr _ _ _ _ _ C) in E as (_ & j & y & Hy & _).
      by apply Hr in Hy. }
    assert (size (cr A) < NBUF)%nat as Hsz.
    { destruct Hroom as [[n Hn]|?]; [|done]. unfold refs in Href. rewrite Hn in Href. cbn in Href.
      apply (ca_cr _ _ _ _ _ C) in Hn as (? & _). lia. }
    apply wp_bind. eapply wp_mono; [by apply (bget_unused_spec _ A L)|]. cbn beta.
    intros r k1 (-> & j & x & -> & Hx & H0). change (k_files (set_held _ k)) with (k_files k) in Hx.
    apply wp_bind, (wp_setb j x); [done|]. change (k_files (set_held _ k)) with (k_files k).
    apply (bget_finish k L A b j x); [done|done|done|by split; [|right]|].
    exists x. eexists. split_and!; [by split; [|right]| |done]. split_and!; try done.
    + cbn. by rewrite Href.
    + right. split; [done|]. apply (ca_none _ _ _ _ _ C). intros j' y Hy. by apply Hr in Hy.
Qed.
(** ** The operations on the abstract cache *)

Lemma caches_take k A L b j x x1 :
  caches dev pid (k_files k) A L -> usable (k_files k) b j x -> Z.of_nat (refs A b) + 1 < 2 ^ 32 ->
  b_dev x1 = dev -> b_blockno x1 = b -> b_refcnt x1 = Z.of_nat (S (refs A b)) -> b_valid x1 = 1 ->
  b_data x1 = cv A b ->
  caches dev pid (set_fs_sl (upd (fs_sl (k_files k)) (Z.of_nat j) (Sleeplock 1 pid)) (with_buf j x1 (k_files k)))
    (a_take b A) (<[b := j]> L).
Proof.
  intros C [Hx Hu] Hmax Hd Hb Hr Hv Hdat.
  apply (caches_update (k_files k) _ A _ L _ j b x x1); try done.
  - apply (ca_ring _ _ _ _ _ C).
  - cbn. rewrite Hr, decide_False by lia. by rewrite Nat2Z.id.
  - lia.
  - lia.
  - cbn. apply (ca_disk _ _ _ _ _ C).
  - cbn. apply (ca_writes _ _ _ _ _ C).
  - intros j' Hj. cbn. apply upd_ne. lia.
  - intros b' Hne. by apply lookup_insert_ne.
  - left. rewrite lookup_insert_eq. cbn. rewrite upd_eq. split_and!; [done|done|lia].
Qed.

(** [bread]: the block is locked and referenced, its contents are visible. *)
Lemma bread_spec b k A L :
  host i pid k -> caches dev pid (k_files k) A L -> L !! b = None ->
  is_Some (cr A !! b) \/ (size (cr A) < NBUF)%nat -> Z.of_nat (refs A b) + 1 < 2 ^ 32 ->
  wp (bread swtch fuel rw dev b) k (fun j k' => woke k k' /\ same_rest (k_files k) (k_files k') /\
    caches dev pid (k_files k') (a_take b A) (<[b := j]> L)).
Proof.
  intros Hh C HL Hroom Hmax. unfold bread. apply wp_bind. eapply wp_mono; [by apply (bget_spec b k A L)|]. cbn beta.
  intros j k1 (x & x1 & Hu & (Hd & Hb & Hr & Hv) & ->).
  assert (Hj : (j < length (bc_buf (fs_bc (k_files k))))%nat) by (destruct Hu as [Hx _]; by eapply lookup_lt_Some).
  pose proof (ca_len _ _ _ _ _ C) as Hlen.
  apply wp_bind, (wp_getb j x1); [by apply list_lookup_insert_eq|]. apply wp_bind.
  destruct Hv as [[Hv Hdat]|[Hv Hcl]]; rewrite Hv; cbn [Z.eqb].
  - apply wp_ret, wp_ret. split; [apply woke_files|]. cbn [k_files set_k_files]. split; [rest_lock|].
    by eapply caches_take.
  - apply wp_bind. eapply wp_mono.
    { apply (Hrw i pid j false _ x1); [by eapply woke_host; [apply woke_files|]|by apply list_lookup_insert_eq|].
      cbn. by rewrite upd_eq. }
    cbn beta. intros _ k2 [W2 E2]. eapply wp_setb.
    { rewrite E2. cbn. apply list_lookup_insert_eq. by rewrite length_insert. }
    apply wp_ret. split; [eapply woke_trans; [|apply woke_files]; eapply woke_trans; [apply woke_files|exact W2]|].
    cbn [k_files set_k_files]. rewrite E2. cbn [k_files set_k_files].
    set (x2 := set_b_valid 1 _). match goal with |- _ /\ caches _ _ ?f _ _ =>
      assert (f = set_fs_sl (upd (fs_sl (k_files k)) (Z.of_nat j) (Sleeplock 1 pid)) (with_buf j x2 (k_files k))) as ->
    end.
    { unfold with_buf, transferred. cbn. by rewrite !list_insert_insert_eq. }
    split; [rest_lock|]. eapply caches_take; try done. cbn. rewrite (ca_disk _ _ _ _ _ C), Hb. done.
Qed.
(** The buffer of a block the process has locked. *)
Lemma mine_buf fs A L b j :
  caches dev pid fs A L -> L !! b = Some j ->
  exists x, buf_for dev fs j b x /\ b_refcnt x = Z.of_nat (refs A b) /\ (0 < refs A b)%nat /\
    b_valid x = 1 /\ b_data x = cv A b /\ fs_sl fs (Z.of_nat j) = Sleeplock 1 pid.
Proof.
  intros C HL. destruct (ca_mine _ _ _ _ _ C _ _ HL) as (Hsl & x & Hx & Hne). exists x.
  pose proof (refs_buf _ _ _ _ _ _ C Hx) as Hr. destruct (ca_ref _ _ _ _ _ C j x) as [_ Hv]; [apply Hx|].
  destruct (Hv Hne) as [_ Hv1]. split_and!; try done; [lia|].
  apply (ca_view _ _ _ _ _ C j b x); [done|lia].
Qed.

Lemma holding_mine k A L b j (Q : bool -> kernel fsys -> Prop) :
  host i pid k -> caches dev pid (k_files k) A L -> L !! b = Some j ->
  Q true k -> wp (holdingsleep (Z.of_nat j)) k Q.
Proof.
  intros Hh C HL HQ. apply (holdingsleep_spec i pid); [done|].
  destruct (ca_mine _ _ _ _ _ C _ _ HL) as (-> & _). cbn. by rewrite Z.eqb_refl.
Qed.

(** Writing into a locked buffer. *)
Lemma setdata_spec b j f g k A L :
  caches dev pid (k_files k) A L -> L !! b = Some j -> (forall x, f x = set_b_data (g (b_data x)) x) ->
  wp (setb j f) k (fun _ k' => woke k k' /\ same_rest (k_files k) (k_files k') /\
    caches dev pid (k_files k') (a_set b (g (cv A b)) A) L).
Proof.
  intros C HL Hf. destruct (mine_buf _ _ _ _ _ C HL) as (x & Hx & Hr & Hpos & Hv & Hdat & Hsl).
  pose proof (ca_ref _ _ _ _ _ C j x ltac:(apply Hx)) as [Hrange _].
  apply (wp_setb j x); [apply Hx|]. split; [apply woke_files|]. split; [done|]. destruct Hx as (Hx & Hd & Hb).
  rewrite Hf, Hdat. set (d := g (cv A b)).
  apply (caches_update (k_files k) _ A _ L _ j b x (set_b_data d x)); try done.
  - by left.
  - apply (ca_ring _ _ _ _ _ C).
  - cbn. rewrite decide_False by lia. rewrite Hr, Nat2Z.id. symmetry. by apply insert_id, refs_pos.
  - intros b' Hne. cbn. by rewrite upd_ne.
  - cbn. by rewrite upd_eq.
  - cbn. lia.
  - apply (ca_disk _ _ _ _ _ C).
  - apply (ca_writes _ _ _ _ _ C).
  - left. split_and!; try done. cbn. lia.
Qed.

(** [bwrite]: the visible contents go to disk. *)
Lemma bwrite_spec b j k A L :
  host i pid k -> caches dev pid (k_files k) A L -> L !! b = Some j ->
  wp (bwrite rw j) k (fun _ k' => woke k k' /\ same_rest (k_files k) (k_files k') /\
    caches dev pid (k_files k') (a_write b A) L).
Proof.
  intros Hh C HL. destruct (mine_buf _ _ _ _ _ C HL) as (x & Hx & Hr & Hpos & Hv & Hdat & Hsl).
  pose proof (ca_ref _ _ _ _ _ C j x ltac:(apply Hx)) as [Hrange _].
  unfold bwrite. apply wp_bind, (holding_mine k A L b); [done|done|done|]. cbn [negb].
  eapply wp_mono; [apply (Hrw i pid j true k x); [done|apply Hx|done]|]. cbn beta. intros _ k' [W E].
  split; [done|]. rewrite E. split; [done|]. destruct Hx as (Hx & Hd & Hb). subst b.
  apply (caches_update (k_files k) _ A _ L _ j (b_blockno x) x x); try done.
  - by left.
  - cbn. by rewrite list_insert_id.
  - apply (ca_ring _ _ _ _ _ C).
  - cbn. rewrite decide_False by lia. rewrite Hr, Nat2Z.id. symmetry. by apply insert_id, refs_pos.
  - intros b' Hne. cbn. by rewrite upd_ne.
  - cbn. rewrite upd_eq. done.
  - intros b'. cbn. unfold upd. case_decide; [done|]. apply (ca_disk _ _ _ _ _ C).
  - cbn. by rewrite (ca_writes _ _ _ _ _ C), Hdat.
  - left. split_and!; try done. lia.
Qed.

(** [bpin] and [bunpin] of a locked buffer. *)
Lemma bpin_spec b j k A L :
  BcacheLock ∉ held k -> caches dev pid (k_files k) A L -> L !! b = Some j -> Z.of_nat (refs A b) + 1 < 2 ^ 32 ->
  wp (bpin j) k (fun _ k' => woke k k' /\ same_rest (k_files k) (k_files k') /\
    caches dev pid (k_files k') (a_take b A) L).
Proof.
  intros Hh C HL Hmax. destruct (mine_buf _ _ _ _ _ C HL) as (x & (Hx & Hd & Hb) & Hr & Hpos & Hv & Hdat & Hsl).
  unfold bpin. apply wp_bind, wp_lock_acquire; [done|]. apply wp_bind, (wp_setb j x); [done|].
  apply wp_lock_release; [apply elem_of_cons; by left|].
  replace (held (set_k_files _ _)) with (BcacheLock :: held k) by done.
  rewrite held_release_top, set_files_held, set_held_held by done.
  change (k_files (set_held _ k)) with (k_files k).
  split; [apply woke_files|]. split; [done|].
  apply (caches_update (k_files k) _ A _ L _ j b x (set_b_refcnt (u32 (b_refcnt x + 1)) x)); try done.
  - by left.
  - apply (ca_ring _ _ _ _ _ C).
  - cbn. rewrite u32_id by lia. rewrite decide_False by lia. f_equal. lia.
  - cbn. rewrite u32_id by lia. lia.
  - cbn. rewrite u32_id by lia. lia.
  - apply (ca_disk _ _ _ _ _ C).
  - apply (ca_writes _ _ _ _ _ C).
  - left. split_and!; try done. cbn. rewrite u32_id by lia. lia.
Qed.

Lemma bunpin_spec b j k A L :
  host i pid k -> caches dev pid (k_files k) A L -> L !! b = Some j -> (1 < refs A b)%nat ->
  wp (bunpin j) k (fun _ k' => woke k k' /\ same_rest (k_files k) (k_files k') /\
    caches dev pid (k_files k') (a_drop b A) L).
Proof.
  intros Hh C HL Hmin. destruct (mine_buf _ _ _ _ _ C HL) as (x & (Hx & Hd & Hb) & Hr & Hpos & Hv & Hdat & Hsl).
  pose proof (ca_ref _ _ _ _ _ C j x Hx) as [Hrange _].
  unfold bunpin. apply wp_bind, acquire_first; [apply Hh|]. apply wp_bind, (wp_setb j x); [done|].
  apply release_only; [done|]. rewrite set_files_held, (set_held_nil k) by apply Hh.
  change (k_files (set_held _ k)) with (k_files k).
  split; [apply woke_files|]. split; [done|].
  apply (caches_update (k_files k) _ A _ L _ j b x (set_b_refcnt (u32 (b_refcnt x - 1)) x)); try done.
  - by left.
  - apply (ca_ring _ _ _ _ _ C).
  - cbn. rewrite u32_id by lia. rewrite !decide_False by lia. f_equal. lia.
  - cbn. rewrite u32_id by lia. lia.
  - cbn. rewrite u32_id by lia. lia.
  - apply (ca_disk _ _ _ _ _ C).
  - apply (ca_writes _ _ _ _ _ C).
  - left. split_and!; try done. cbn. rewrite u32_id by lia. lia.
Qed.
(** Moving buffer [j] to the front of the list. *)
Definition to_front (n p : nat -> nat) (j : nat) : (nat -> nat) * (nat -> nat) :=
  let p1 := upd p (n j) (p j) in
  let n1 := upd n (p1 j) (n j) in
  let n2 := upd n1 j (n1 head_buf) in
  let p2 := upd p1 j head_buf in
  (upd n2 head_buf j, upd p2 (n2 head_buf) j).

Lemma to_front_ring n p l j :
  ring head_buf n p l -> j ∈ l ->
  exists l', ring head_buf (fst (to_front n p j)) (snd (to_front n p j)) l' /\ l' ≡ₚ l.
Proof.
  intros R Hj. apply list_elem_of_split in Hj as (l1 & l2 & ->). pose proof (unlink _ _ _ _ _ _ R) as R1.
  destruct R as [Hs Hd]. apply seg_app in Hs as [Hs1 Hs2]. pose proof (seg_next _ _ _ _ _ Hs2) as Hn.
  assert (Hne : j <> head_buf /\ n j <> j /\ j ∉ head_buf :: l1 ++ l2).
  { rewrite NoDup_cons, NoDup_app, NoDup_cons in Hd. split_and!; [set_solver| |set_solver].
    intros E. rewrite E in Hn. set_solver. }
  destruct Hne as (Hjh & Hnj & Hnot). exists (j :: l1 ++ l2). split; [|by rewrite <- Permutation_middle].
  unfold to_front. cbn [fst snd]. rewrite (upd_ne _ (n j) (p j) j) by done.
  rewrite (upd_ne _ j _ head_buf) by done. by apply link.
Qed.

Definition with_links (np : (nat -> nat) * (nat -> nat)) (c : bcache) : bcache :=
  Bcache (bc_buf c) (fst np) (snd np).

(** The statements of [brelse] that do it. *)
Lemma front_code j k (Q : unit -> kernel fsys -> Prop) :
  Q tt (set_k_files (set_fs_bc (with_links (to_front (bc_next (fs_bc (k_files k))) (bc_prev (fs_bc (k_files k))) j)
         (fs_bc (k_files k))) (k_files k)) k) ->
  wp (n <- next j ;; p <- prev j ;; set_prev n p >>>
      p <- prev j ;; n <- next j ;; set_next p n >>>
      h <- next head_buf ;; set_next j h >>>
      set_prev j head_buf >>>
      link_front j) k Q.
Proof.
  destruct k as [m ps np ip c t [d sl [bf n p] lg sb ino fl pp cn ua]]. intros HQ.
  do 2 apply wp_bind, wp_fgets. apply wp_bind, wp_fmod. do 2 apply wp_bind, wp_fgets. apply wp_bind, wp_fmod.
  apply wp_bind, wp_fgets. do 2 apply wp_bind, wp_fmod. apply wp_bind, wp_fgets. apply wp_bind, wp_fmod.
  apply wp_fmod. exact HQ.
Qed.

Lemma caches_drop fs fs2 A L b j x bc1 :
  caches dev pid fs A L -> L !! b = Some j -> buf_for dev fs j b x ->
  b_refcnt x = Z.of_nat (refs A b) -> (0 < refs A b)%nat -> b_valid x = 1 -> b_data x = cv A b ->
  (refs A b = 1%nat -> cv A b = cd A b) ->
  fs2 = set_fs_sl (upd (fs_sl fs) (Z.of_nat j) (Sleeplock 0 0)) fs ->
  bc_buf bc1 = <[j := set_b_refcnt (u32 (b_refcnt x - 1)) x]> (bc_buf (fs_bc fs)) ->
  (exists l, ring head_buf (bc_next bc1) (bc_prev bc1) l /\ l ≡ₚ seq 0 NBUF) ->
  caches dev pid (set_fs_bc bc1 fs2) (a_drop b A) (delete b L).
Proof.
  intros C HL (Hx & Hd & Hb) Hr Hpos Hv Hdat Hcl -> Hbuf Hring.
  pose proof (ca_ref _ _ _ _ _ C j x Hx) as [Hrange _].
  apply (caches_update fs _ A _ L _ j b x (set_b_refcnt (u32 (b_refcnt x - 1)) x)); try done.
  - by left.
  - cbn. rewrite u32_id by lia. destruct (decide (refs A b = 1%nat)) as [E|E].
    + by rewrite decide_True by lia.
    + rewrite decide_False by lia. f_equal. lia.
  - cbn. rewrite u32_id by lia. lia.
  - cbn. rewrite u32_id by lia. intros E. apply Hcl. lia.
  - apply (ca_disk _ _ _ _ _ C).
  - apply (ca_writes _ _ _ _ _ C).
  - intros j' Hj. cbn. apply upd_ne. lia.
  - intros b' Hne. by apply lookup_delete_ne.
  - right. split; [by apply lookup_delete_eq|]. cbn. by rewrite upd_eq.
Qed.

(** [brelse]: unlocks the block and drops a reference; a block that loses its
    last one must be clean, as it may be evicted. *)
Lemma brelse_spec b j k A L :
  host i pid k -> caches dev pid (k_files k) A L -> L !! b = Some j ->
  (refs A b = 1%nat -> cv A b = cd A b) ->
  wp (brelse j) k (fun _ k' => woke k k' /\ same_rest (k_files k) (k_files k') /\
    caches dev pid (k_files k') (a_drop b A) (delete b L)).
Proof.
  intros Hh C HL Hcl. destruct (mine_buf _ _ _ _ _ C HL) as (x & Hx & Hr & Hpos & Hv & Hdat & Hsl).
  pose proof (ca_ref _ _ _ _ _ C j x ltac:(apply Hx)) as [Hrange _].
  assert (Hjl : (j < length (bc_buf (fs_bc (k_files k))))%nat) by (eapply lookup_lt_Some; apply Hx).
  unfold brelse. apply wp_bind, (holding_mine k A L b); [done|done|done|]. cbn [negb].
  apply wp_bind, (releasesleep_spec i pid); [done|]. intros k1 W1 E1.
  assert (Hh1 : host i pid k1) by (by eapply woke_host).
  apply wp_bind, acquire_first; [apply Hh1|].
  set (x1 := set_b_refcnt (u32 (b_refcnt x - 1)) x).
  apply wp_bind, (wp_setb j x); [cbn; rewrite E1; apply Hx|].
  apply wp_bind, (wp_getb j x1); [cbn; rewrite E1; by apply list_lookup_insert_eq|].
  assert (Hend : forall bc1, bc_buf bc1 = <[j := x1]> (bc_buf (fs_bc (k_files k))) ->
    (exists l, ring head_buf (bc_next bc1) (bc_prev bc1) l /\ l ≡ₚ seq 0 NBUF) ->
    wp (lock_release BcacheLock) (set_k_files (set_fs_bc bc1 (k_files k1)) (set_held [BcacheLock] k1))
      (fun _ k' => woke k k' /\ same_rest (k_files k) (k_files k') /\
         caches dev pid (k_files k') (a_drop b A) (delete b L))).
  { intros bc1 Hb1 Hring. apply release_only; [done|].
    rewrite set_files_held, (set_held_nil k1) by apply Hh1.
    split; [eapply woke_trans; [done|apply woke_files]|]. cbn [k_files set_k_files]. rewrite E1.
    pose proof (ca_len _ _ _ _ _ C). split; [rest_lock|]. by apply (caches_drop (k_files k) _ A L b j x). }
  destruct (ca_ring _ _ _ _ _ C) as (l & R & Hl). apply wp_bind. destruct (b_refcnt x1 =? 0).
  - destruct (to_front_ring _ _ l j R) as (l' & R' & Hl').
    { rewrite Hl, elem_of_seq. rewrite (ca_len _ _ _ _ _ C) in Hjl. lia. }
    apply front_code. set (k2 := set_k_files _ (set_held _ k1)).
    assert (E2 : k_files k2 = with_buf j x1 (k_files k1)) by done.
    set (tf := to_front _ _ _). assert (tf = to_front (bc_next (fs_bc (k_files k))) (bc_prev (fs_bc (k_files k))) j) as Etf.
    { unfold tf. rewrite E2, E1. done. }
    rewrite E2. unfold k2. clearbody tf. subst tf.
    apply (Hend (with_links _ (fs_bc (with_buf j x1 (k_files k1))))).
    + cbn. by rewrite E1.
    + exists l'. split; [done|]. by rewrite Hl'.
  - apply wp_ret. apply (Hend (set_bc_buf (<[j := x1]> (bc_buf (fs_bc (k_files k1)))) (fs_bc (k_files k1)))).
    + cbn. by rewrite E1.
    + exists l. cbn. by rewrite E1.
Qed.
(** ** binit *)

(** One round of [binit]'s loop. *)
Lemma binit_round {X} b (m : M (kernel fsys) X) k (Q : X -> kernel fsys -> Prop) :
  (let c := fs_bc (k_files k) in
   let n1 := upd (bc_next c) b (bc_next c head_buf) in
   let p1 := upd (bc_prev c) b head_buf in
   wp m (set_k_files (set_fs_sl (upd (fs_sl (k_files k)) (Z.of_nat b) (Sleeplock 0 0))
          (set_fs_bc (Bcache (bc_buf c) (upd n1 head_buf b) (upd p1 (n1 head_buf) b)) (k_files k))) k) Q) ->
  wp (h <- next head_buf ;; set_next b h >>> set_prev b head_buf >>> initsleeplock (Z.of_nat b) >>>
      link_front b >>> m) k Q.
Proof.
  destruct k as [ms ps np ip c t [d sl [bf n p] lg sb ino fl pp cn ua]]. intros HQ.
  apply wp_bind, wp_fgets. do 3 apply wp_bind, wp_fmod. apply wp_bind, wp_bind, wp_fgets. apply wp_bind, wp_fmod.
  apply wp_fmod. exact HQ.
Qed.

Lemma caches_boot fs sl nx pv d0 :
  dev <> 0 -> ring head_buf nx pv (rev (seq 0 NBUF)) ->
  (forall j, (j < NBUF)%nat -> sl (Z.of_nat j) = Sleeplock 0 0) ->
  caches dev pid (set_fs_sl sl (set_fs_bc (Bcache (replicate NBUF (Buf 0 0 0 0 d0)) nx pv) fs))
    (Cache (d_block (fs_disk fs)) (d_block (fs_disk fs)) ∅ (d_writes (fs_disk fs))) ∅.
Proof.
  intros Hdev R Hsl.
  assert (Hno : forall j b x, ~ buf_for dev (set_fs_sl sl (set_fs_bc (Bcache (replicate NBUF (Buf 0 0 0 0 d0)) nx pv) fs)) j b x).
  { intros j b x (Hx & Hd & _). apply lookup_replicate in Hx as [-> _]. by apply Hdev. }
  split; cbn [cv cd cr cw]; try done.
  - exists (rev (seq 0 NBUF)). split; [done|]. by rewrite <- Permutation_rev.
  - intros j1 j2 b x y Hx. by apply Hno in Hx.
  - intros b n. rewrite lookup_empty. split; [done|]. intros (_ & j & x & Hx & _). by apply Hno in Hx.
  - intros j x Hx. apply lookup_replicate in Hx as [-> _]. cbn. split; [lia|done].
  - intros j x Hx. apply lookup_replicate in Hx as [-> _]. by left.
  - intros j b x Hx. by apply Hno in Hx.
  - intros j Hj _. cbn. by rewrite Hsl.
Qed.

Lemma binit_spec k d0 :
  dev <> 0 -> bc_buf (fs_bc (k_files k)) = replicate NBUF (Buf 0 0 0 0 d0) ->
  wp binit k (fun _ k' => woke k k' /\ same_rest (k_files k) (k_files k') /\
    caches dev pid (k_files k')
      (Cache (d_block (fs_disk (k_files k))) (d_block (fs_disk (k_files k))) ∅ (d_writes (fs_disk (k_files k)))) ∅).
Proof.
  intros Hdev Hb. unfold binit. do 2 apply wp_bind, wp_fmod.
  eapply (wp_loop_st (fun n k' => (n <= NBUF)%nat /\ exists sl nx pv,
    k' = set_k_files (set_fs_sl sl (set_fs_bc (Bcache (replicate NBUF (Buf 0 0 0 0 d0)) nx pv) (k_files k))) k /\
    ring head_buf nx pv (rev (seq 0 n)) /\ (forall j, (j < n)%nat -> sl (Z.of_nat j) = Sleeplock 0 0) /\
    forall id, Z.of_nat NBUF <= id -> sl id = fs_sl (k_files k) id)
    (fun n _ => (NBUF - n)%nat)).
  - intros n k' (Hn & sl & nx & pv & -> & R & Hsl & Hother). destruct (Nat.ltb_spec n NBUF) as [Hlt|Hge].
    + apply binit_round. apply wp_ret. split; [|lia]. split; [lia|]. do 3 eexists. split; [done|]. split_and!.
      * rewrite seq_S, rev_app_distr. cbn [rev app fs_bc set_k_files k_files set_fs_sl set_fs_bc bc_next bc_prev].
        rewrite (upd_ne _ n _ head_buf) by (unfold head_buf; lia). apply link; [done|].
        rewrite elem_of_cons, <- Permutation_rev, elem_of_seq. unfold head_buf. lia.
      * intros j Hj. cbn. unfold upd. case_decide; [done|]. apply Hsl. lia.
      * intros id Hid. cbn. rewrite upd_ne by lia. by apply Hother.
    + apply wp_ret. assert (n = NBUF) as -> by lia. split; [apply woke_files|]. split; [by split|].
      by apply caches_boot.
  - split; [unfold NBUF; lia|]. exists (fs_sl (k_files k)), (upd (bc_next (fs_bc (k_files k))) head_buf head_buf),
      (upd (bc_prev (fs_bc (k_files k))) head_buf head_buf).
    split; [rewrite <- Hb; by destruct k as [? ? ? ? ? ? [? ? [] ? ? ? ? ? ? ?]]|]. split_and!; [|lia|done].
    apply ring_nil; [by rewrite upd_eq|]. cbn. by rewrite upd_eq.
  - lia.
Qed.
End bio.
