(* ===== verification/Log.v ===== *)
(** The log of the file system: log.c. *)

From S2P Require Import Prelude.
From S2P Require Import Spinlock.
From S2P Require Import Proc.
From S2P Require Import FsState.
From S2P Require Import Bio.

Definition set_lg_start x l := Log x (lg_outstanding l) (lg_committing l) (lg_dev l) (lh_n l) (lh_block l).
Definition set_lg_outstanding x l := Log (lg_start l) x (lg_committing l) (lg_dev l) (lh_n l) (lh_block l).
Definition set_lg_committing x l := Log (lg_start l) (lg_outstanding l) x (lg_dev l) (lh_n l) (lh_block l).
Definition set_lg_dev x l := Log (lg_start l) (lg_outstanding l) (lg_committing l) x (lh_n l) (lh_block l).
Definition set_lh_n x l := Log (lg_start l) (lg_outstanding l) (lg_committing l) (lg_dev l) x (lh_block l).
Definition set_lh_block x l := Log (lg_start l) (lg_outstanding l) (lg_committing l) (lg_dev l) (lh_n l) x.

(** [sizeof(struct logheader)]: [n] and [LOGBLOCKS] block numbers. *)
Definition sizeof_logheader : Z := 4 + 4 * LOGBLOCKS.

Section code.
Context (swtch : M (kernel fsys) unit) (fuel : nat).
Context (virtio_disk_rw : nat -> bool -> M (kernel fsys) unit).
Abbreviation K := (M (kernel fsys)).
Abbreviation bread := (bread swtch fuel virtio_disk_rw).
Abbreviation bwrite := (bwrite virtio_disk_rw).

Definition lgets {A} (f : log -> A) : K A := fgets (fun s => f (fs_log s)).
Definition lmod (f : log -> log) : K unit := fmod (fun s => set_fs_log (f (fs_log s)) s).

(** [log.lh.block[i]] and an assignment to it; the array has [LOGBLOCKS]
    entries. *)
Definition log_block (i : nat) : K Z := fun k =>
  match lh_block (fs_log (k_files k)) !! i with Some b => Ok (b, k) | None => Crash end.
Definition set_log_block (i : nat) (b : Z) : K unit := fun k =>
  if (i <? length (lh_block (fs_log (k_files k))))%nat
  then lmod (fun l => set_lh_block (<[i := b]> (lh_block l)) l) k else Crash.

(** [for(int i = 0; i < log.lh.n; i++)]. *)
Definition for_log (body : nat -> K unit) : K unit :=
  loop (S (Z.to_nat LOGBLOCKS)) (fun i =>
    n <- lgets lh_n ;;
    if Z.of_nat i <? n then body i >>> ret (inl (S i)) else ret (inr tt)) 0%nat.

(** [memmove(dst->data, src->data, BSIZE)]. *)
Definition copy_buf (dst src : nat) : K unit :=
  x <- getb src ;; setb dst (set_b_data (b_data x)).

Definition read_head : K unit :=
  l <- lgets id ;;
  buf <- bread (lg_dev l) (lg_start l) ;;
  x <- getb buf ;;
  lmod (set_lh_n (i32 (get32 (b_data x) 0))) >>>
  for_log (fun i => x <- getb buf ;; set_log_block i (i32 (get32 (b_data x) (4 + 4 * i)))) >>>
  brelse buf.

Definition write_head : K unit :=
  l <- lgets id ;;
  buf <- bread (lg_dev l) (lg_start l) ;;
  setb buf (fun x => set_b_data (put32 (b_data x) 0 (lh_n l)) x) >>>
  for_log (fun i => b <- log_block i ;; setb buf (fun x => set_b_data (put32 (b_data x) (4 + 4 * i) b) x)) >>>
  bwrite buf >>>
  brelse buf.

(** The message printed while recovering is left out. *)
Definition install_trans (recovering : bool) : K unit :=
  for_log (fun i =>
    l <- lgets id ;;
    b <- log_block i ;;
    lbuf <- bread (lg_dev l) (lg_start l + Z.of_nat i + 1) ;;
    dbuf <- bread (lg_dev l) (u32 b) ;;
    copy_buf dbuf lbuf >>>
    bwrite dbuf >>>
    (if negb recovering then bunpin dbuf else ret tt) >>>
    brelse lbuf >>>
    brelse dbuf).

Definition initlog (dev : Z) : K unit :=
  if Z.of_nat BSIZE <=? sizeof_logheader then panic "initlog: too big logheader"
  else
    sb <- fgets fs_sb ;;
    lmod (fun l => set_lg_dev dev (set_lg_start (sb_logstart sb) l)) >>>
    install_trans true.

Definition recover_from_log : K unit :=
  read_head >>>
  install_trans true >>>
  lmod (set_lh_n 0) >>>
  write_head.

Definition log_begin_op : K unit :=
  lock_acquire LogLock >>>
  loop fuel (fun _ =>
    l <- lgets id ;;
    if negb (lg_committing l =? 0) then sleep swtch LogChan LogLock >>> ret (inl tt)
    else if LOGBLOCKS <? lh_n l + (lg_outstanding l + 1) * MAXOPBLOCKS
    then sleep swtch LogChan LogLock >>> ret (inl tt)
    else
      lmod (fun l => set_lg_outstanding (lg_outstanding l + 1) l) >>>
      lock_release LogLock >>>
      ret (inr tt)) tt.

Definition write_log : K unit :=
  for_log (fun i =>
    l <- lgets id ;;
    to <- bread (lg_dev l) (lg_start l + Z.of_nat i + 1) ;;
    b <- log_block i ;;
    from <- bread (lg_dev l) (u32 b) ;;
    copy_buf to from >>>
    bwrite to >>>
    brelse from >>>
    brelse to).

Definition commit : K unit :=
  n <- lgets lh_n ;;
  if n =? 0 then ret tt
  else
    write_log >>>
    write_head >>>
    install_trans false >>>
    lmod (set_lh_n 0) >>>
    write_head.

Definition log_end_op : K unit :=
  lock_acquire LogLock >>>
  lmod (fun l => set_lg_outstanding (lg_outstanding l - 1) l) >>>
  l <- lgets id ;;
  if negb (lg_committing l =? 0) then panic "log.committing"
  else
    do_commit <- (if lg_outstanding l =? 0
                  then lmod (set_lg_committing 1) >>> ret true
                  else wakeup LogChan >>> ret false) ;;
    lock_release LogLock >>>
    if do_commit then
      commit >>>
      lock_acquire LogLock >>>
      lmod (set_lg_committing 0) >>>
      wakeup LogChan >>>
      lock_release LogLock
    else ret tt.

(** The absorption loop of [log_write]: the index of the block in the log, or
    the first free one. *)
Definition absorb (blockno : Z) : K nat :=
  loop (S (Z.to_nat LOGBLOCKS)) (fun i =>
    n <- lgets lh_n ;;
    if Z.of_nat i <? n then
      b <- log_block i ;;
      if u32 b =? blockno then ret (inr i) else ret (inl (S i))
    else ret (inr i)) 0%nat.

Definition log_write (b : nat) : K unit :=
  lock_acquire LogLock >>>
  l <- lgets id ;;
  if LOGBLOCKS <=? lh_n l then panic "too big transaction"
  else if lg_outstanding l <? 1 then panic "log_write outside transaction"
  else
    x <- getb b ;;
    i <- absorb (b_blockno x) ;;
    set_log_block i (i32 (b_blockno x)) >>>
    n <- lgets lh_n ;;
    (if Z.of_nat i =? n
     then bpin b >>> lmod (fun l => set_lh_n (lh_n l + 1) l)
     else ret tt) >>>
    lock_release LogLock.

End code.
