(* ===== verification/LogSpec.v ===== *)
(** What the log of the file system does to the disk: the writes of a commit,
    recovery from a crash between any two of them, and the transactions
    [begin_op] admits. *)

From S2P Require Import Prelude.
From S2P Require Import Spinlock.
From S2P Require Import Riscv.
From S2P Require Import Proc.
From S2P Require Import ProcCtl.
From S2P Require Import FsState.
From S2P Require Import Bio.
From S2P Require Import BioSpec.
From S2P Require Import Log.

(** ** The header block *)

Fixpoint put_blocks (d : block) (o : nat) (bs : list Z) : block :=
  match bs with
  | [] => d
  | b :: bs' => put_blocks (put32 d o b) (o + 4) bs'
  end.

(** The header of a transaction on the blocks [bs], over old contents [d]. *)
Definition put_header (d : block) (bs : list Z) : block :=
  put_blocks (put32 d 0 (Z.of_nat (length bs))) 4 bs.

Definition header_n (d : block) : Z := i32 (get32 d 0).
Definition header_block (d : block) (i : nat) : Z := i32 (get32 d (4 + 4 * i)).

Lemma put_blocks_snoc d o bs b : put_blocks d o (bs ++ [b]) = put32 (put_blocks d o bs) (o + 4 * length bs) b.
Proof.
  revert d o. induction bs as [|c bs IH]; intros d o; cbn [put_blocks app length].
  - f_equal. lia.
  - rewrite IH. f_equal. lia.
Qed.

Lemma put_blocks_length d o bs : length (put_blocks d o bs) = length d.
Proof. revert d o. induction bs as [|b bs IH]; intros d o; cbn; [done|]. by rewrite IH, put32_length. Qed.

Lemma put_blocks_below d o bs o' : (o' + 4 <= o)%nat -> get32 (put_blocks d o bs) o' = get32 d o'.
Proof.
  revert d o. induction bs as [|b bs IH]; intros d o Ho; cbn; [done|].
  rewrite IH by lia. apply get32_put32_ne. lia.
Qed.

Lemma put_blocks_get d o bs i b :
  bs !! i = Some b -> (o + 4 * length bs <= length d)%nat ->
  get32 (put_blocks d o bs) (o + 4 * i) = u32 b.
Proof.
  revert d o i. induction bs as [|c bs IH]; intros d o i Hi Hl; [done|]. cbn [put_blocks length] in *.
  destruct i as [|i].
  - injection Hi as ->. rewrite Nat.mul_0_r, Nat.add_0_r, put_blocks_below by lia. apply get32_put32. lia.
  - replace (o + 4 * S i)%nat with (o + 4 + 4 * i)%nat by lia. apply IH; [done|]. rewrite put32_length. lia.
Qed.

(** Reading back a header. *)
Lemma header_n_put d bs :
  (length bs <= 30)%nat -> (4 + 4 * length bs <= length d)%nat -> header_n (put_header d bs) = Z.of_nat (length bs).
Proof.
  intros Hn Hl. unfold header_n, put_header. rewrite put_blocks_below, get32_put32 by lia. apply i32_u32. lia.
Qed.

Lemma header_block_put d bs i b :
  bs !! i = Some b -> 0 <= b < 2 ^ 31 -> (4 + 4 * length bs <= length d)%nat ->
  header_block (put_header d bs) i = b.
Proof.
  intros Hi Hb Hl. unfold header_block, put_header. rewrite (put_blocks_get _ _ _ _ b) by (done || rewrite put32_length; done).
  apply i32_u32. lia.
Qed.

(** ** Abstract cache algebra *)

(** Contents [d] for block [b], in the cache and on disk. *)
Definition a_put (b : Z) (d : block) (A : cache) : cache :=
  Cache (upd (cv A) b d) (upd (cd A) b d) (cr A) (cw A ++ [(b, d)]).

(** Reference counts are positive. *)
Definition refs_ok (A : cache) : Prop := forall b n, cr A !! b = Some n -> (0 < n)%nat.

Lemma caches_refs dev pid fs A L : caches dev pid fs A L -> refs_ok A.
Proof. intros C b n Hn. by apply (ca_cr _ _ _ _ _ C) in Hn as [? _]. Qed.

Lemma refs_take A b : refs (a_take b A) b = S (refs A b).
Proof. unfold refs at 1. cbn. by rewrite lookup_insert_eq. Qed.

Lemma refs_take_ne A b b' : b <> b' -> refs (a_take b A) b' = refs A b'.
Proof. intros. unfold refs at 1. cbn. by rewrite lookup_insert_ne. Qed.

(** Dropping what was taken, for the reference counts. *)
Lemma cr_drop_take A B b : refs_ok A -> cr B = cr (a_take b A) -> cr (a_drop b B) = cr A.
Proof.
  intros Hok HB. assert (refs B b = S (refs A b)) as Hr by (unfold refs at 1; rewrite HB; apply refs_take).
  cbn. rewrite Hr, HB. cbn. destruct (cr A !! b) as [n|] eqn:E.
  - pose proof (Hok b n E) as Hn. unfold refs. rewrite E. cbn. rewrite decide_False by lia.
    rewrite insert_insert_eq. by apply insert_id.
  - unfold refs. rewrite E. cbn. by rewrite delete_insert_eq, delete_id.
Qed.

Lemma refs_ok_take A b : refs_ok A -> refs_ok (a_take b A).
Proof. intros Hok b' n Hn. cbn in Hn. apply lookup_insert_Some in Hn as [[_ <-]|[_ Hn]]; [lia|by eapply Hok]. Qed.

Lemma refs_cr A B b : cr A = cr B -> refs A b = refs B b.
Proof. unfold refs. by intros ->. Qed.

Lemma cr_drop_cr A B b : cr A = cr B -> cr (a_drop b A) = cr (a_drop b B).
Proof. intros E. cbn. by rewrite (refs_cr A B), E. Qed.

Lemma size_take A b : refs_ok A -> (0 < refs A b)%nat -> size (cr (a_take b A)) = size (cr A).
Proof. intros Hok Hr. cbn. rewrite map_size_insert. by rewrite (refs_pos _ _ Hr). Qed.

(** ** Sequences of writes *)

Definition apply_writes (ps : list (Z * block)) (d : Z -> block) : Z -> block :=
  foldl (fun d p => upd d (fst p) (snd p)) d ps.

Definition a_puts (ps : list (Z * block)) (A : cache) : cache :=
  foldl (fun A p => a_put (fst p) (snd p) A) A ps.

(** Writes of blocks that may be unpinned afterwards. *)
Definition a_install (unpin : bool) (A : cache) (p : Z * block) : cache :=
  let B := a_put (fst p) (snd p) A in if unpin then a_drop (fst p) B else B.
Definition a_installs (unpin : bool) (ps : list (Z * block)) (A : cache) : cache := foldl (a_install unpin) A ps.

Lemma apply_writes_ne ps d b : b ∉ map fst ps -> apply_writes ps d b = d b.
Proof.
  revert d. induction ps as [|[c x] ps IH]; intros d Hb; [done|]. cbn [map fst] in Hb.
  apply not_elem_of_cons in Hb as [Hne Hb]. change (apply_writes ps (upd d c x) b = d b).
  rewrite IH by done. by apply upd_ne.
Qed.

Lemma apply_writes_in ps d j b x :
  NoDup (map fst ps) -> ps !! j = Some (b, x) -> apply_writes ps d b = x.
Proof.
  revert d j. induction ps as [|[c y] ps IH]; intros d j Hd Hj; [done|]. cbn [map fst] in Hd.
  apply NoDup_cons in Hd as [Hc Hd]. change (apply_writes ps (upd d c y) b = x). destruct j as [|j].
  - injection Hj as -> ->. rewrite apply_writes_ne by done. apply upd_eq.
  - by apply (IH _ j).
Qed.

Lemma apply_writes_app ps qs d : apply_writes (ps ++ qs) d = apply_writes qs (apply_writes ps d).
Proof. apply foldl_app. Qed.

Lemma a_puts_eq ps A :
  cv (a_puts ps A) = apply_writes ps (cv A) /\ cd (a_puts ps A) = apply_writes ps (cd A) /\
  cr (a_puts ps A) = cr A /\ cw (a_puts ps A) = cw A ++ ps.
Proof.
  revert A. induction ps as [|[b x] ps IH]; intros A; [by rewrite app_nil_r|].
  destruct (IH (a_put b x A)) as (E1 & E2 & E3 & E4). cbn [a_puts foldl fst snd]. fold (a_puts ps (a_put b x A)).
  rewrite E1, E2, E3, E4. cbn [a_put cw]. by rewrite <- app_assoc.
Qed.

Lemma a_installs_eq u ps A :
  cv (a_installs u ps A) = apply_writes ps (cv A) /\ cd (a_installs u ps A) = apply_writes ps (cd A) /\
  cw (a_installs u ps A) = cw A ++ ps.
Proof.
  revert A. induction ps as [|[b x] ps IH]; intros A; [by rewrite app_nil_r|].
  destruct (IH (a_install u A (b, x))) as (E1 & E2 & E4). cbn [a_installs foldl].
  fold (a_installs u ps (a_install u A (b, x))). rewrite E1, E2, E4. unfold a_install.
  destruct u; cbn [a_put a_drop cw cv cd fst snd]; by rewrite <- app_assoc.
Qed.

Lemma a_puts_snoc ps p A : a_puts (ps ++ [p]) A = a_put (fst p) (snd p) (a_puts ps A).
Proof. unfold a_puts. by rewrite foldl_app. Qed.

Lemma a_installs_snoc u ps p A : a_installs u (ps ++ [p]) A = a_install u (a_installs u ps A) p.
Proof. unfold a_installs. by rewrite foldl_app. Qed.

(** The copies [write_log] makes, and those of [install_trans]. *)
Definition log_writes (start : Z) (bs : list Z) (v : Z -> block) : list (Z * block) :=
  imap (fun j b => (start + Z.of_nat j + 1, v b)) bs.
Definition install_writes (start : Z) (bs : list Z) (v : Z -> block) : list (Z * block) :=
  imap (fun j b => (b, v (start + Z.of_nat j + 1))) bs.

Lemma log_writes_lookup start bs v j b :
  bs !! j = Some b -> log_writes start bs v !! j = Some (start + Z.of_nat j + 1, v b).
Proof. intros Hb. unfold log_writes. by rewrite list_lookup_imap, Hb. Qed.

Lemma log_writes_in start bs v x : x ∈ map fst (log_writes start bs v) -> start < x <= start + Z.of_nat (length bs).
Proof.
  intros Hx. apply list_elem_of_fmap in Hx as ([y d] & -> & Hy). apply list_elem_of_lookup in Hy as [j Hj].
  unfold log_writes in Hj. rewrite list_lookup_imap in Hj. destruct (bs !! j) as [b|] eqn:E; [|done].
  injection Hj as <- _. apply lookup_lt_Some in E. cbn. lia.
Qed.

Lemma log_writes_nodup start bs v : NoDup (map fst (log_writes start bs v)).
Proof.
  apply NoDup_alt. intros j1 j2 x H1 H2. rewrite list_lookup_fmap in H1, H2.
  apply fmap_Some in H1 as (y1 & H1 & E1). apply fmap_Some in H2 as (y2 & H2 & E2).
  unfold log_writes in H1, H2. rewrite list_lookup_imap in H1, H2.
  destruct (bs !! j1), (bs !! j2); try done. injection H1 as <-. injection H2 as <-. cbn in *. lia.
Qed.

Lemma cache_eq A B : cv A = cv B -> cd A = cd B -> cr A = cr B -> cw A = cw B -> A = B.
Proof. destruct A, B. cbn. by intros -> -> -> ->. Qed.

(** An unreferenced block is the same in the cache and on disk. *)
Lemma unref_clean dev pid fs A L b : caches dev pid fs A L -> refs A b = 0%nat -> cv A b = cd A b.
Proof.
  intros C Hr. destruct (decide (Exists (fun x => b_dev x = dev /\ b_blockno x = b /\ b_valid x <> 0) (bc_buf (fs_bc fs)))) as [He|Hn].
  - apply Exists_exists in He as (x & Hx & Hd & Hb & Hv). apply list_elem_of_lookup in Hx as [j Hj].
    assert (Hbf : buf_for dev fs j b x) by done.
    apply (ca_view _ _ _ _ _ C j b x Hbf Hv). rewrite (refs_buf pid dev _ _ _ _ _ _ C Hbf), Hr. done.
  - apply (ca_none _ _ _ _ _ C). intros j x (Hx & Hd & Hb).
    destruct (decide (b_valid x = 0)) as [|Hv]; [done|]. exfalso. apply Hn, Exists_exists. exists x.
    split; [by eapply list_elem_of_lookup_2|done].
Qed.

Lemma two_empty (b1 b2 : Z) (j1 j2 : nat) :
  delete b1 (delete b2 (<[b2 := j2]> {[b1 := j1]})) = (∅ : gmap Z nat).
Proof.
  apply map_empty. intros b. rewrite !lookup_delete_None.
  destruct (decide (b1 = b)); [by left|right]. destruct (decide (b2 = b)); [by left|right].
  by rewrite lookup_insert_ne, lookup_singleton_ne.
Qed.

(** Dropping two different blocks, in any order. *)
Lemma cr_drop_swap A b1 b2 : b1 <> b2 -> cr (a_drop b1 (a_drop b2 A)) = cr (a_drop b2 (a_drop b1 A)).
Proof.
  intros Hne. assert (Hr : forall a b, a <> b -> refs (a_drop a A) b = refs A b).
  { intros a b Hab. unfold refs at 1. cbn. case_decide; by rewrite ?lookup_delete_ne, ?lookup_insert_ne. }
  cbn [a_drop cr]. rewrite !Hr by done.
  repeat case_decide; first [by rewrite delete_delete|by rewrite delete_insert_ne|by rewrite insert_insert_ne|done].
Qed.

Section log.
Context (swtch : M (kernel fsys) unit) (fuel : nat) (Hfuel : can_wait fuel).
Context (rw : nat -> bool -> M (kernel fsys) unit) (Hrw : driver_ok rw).
Context (i : nat) (pid dev : Z).
Implicit Types k : kernel fsys.
Abbreviation bread := (bread swtch fuel rw).
Abbreviation bwrite := (bwrite rw).

(** The state while process [i] runs file system code that began in [k0]. *)
Record here (k0 : kernel fsys) (A : cache) (L : gmap Z nat) (k : kernel fsys) : Prop := {
  he_host : host i pid k;
  he_woke : woke k0 k;
  he_rest : same_rest (k_files k0) (k_files k);
  he_cache : caches dev pid (k_files k) A L
}.

Lemma here_step {X} k0 A L k (m : M (kernel fsys) X) (P : X -> fsys -> Prop) (Q : X -> kernel fsys -> Prop) :
  here k0 A L k ->
  wp m k (fun r k' => woke k k' /\ same_rest (k_files k) (k_files k') /\ P r (k_files k')) ->
  (forall r k', host i pid k' -> woke k0 k' -> same_rest (k_files k0) (k_files k') -> P r (k_files k') -> Q r k') ->
  wp m k Q.
Proof.
  intros [Hh W R C] Hm HQ. eapply wp_mono; [exact Hm|]. cbn beta. intros r k' (W' & R' & HP). apply HQ.
  - by eapply woke_host.
  - by eapply woke_trans.
  - by eapply same_rest_trans.
  - done.
Qed.

Lemma here_bread k0 A L k b (Q : nat -> kernel fsys -> Prop) :
  here k0 A L k -> L !! b = None -> (0 < refs A b)%nat \/ (size (cr A) < NBUF)%nat -> Z.of_nat (refs A b) + 1 < 2 ^ 32 ->
  (forall j k', here k0 (a_take b A) (<[b := j]> L) k' -> Q j k') ->
  wp (bread dev b) k Q.
Proof.
  intros H HL Hroom Hmax HQ.
  eapply (here_step k0 A L k _ (fun j fs => caches dev pid fs (a_take b A) (<[b := j]> L))); [done| |].
  - apply (bread_spec swtch fuel Hfuel rw Hrw i pid dev); try done; [apply H|apply H|].
    destruct Hroom as [Hr|?]; [left; eexists; by apply refs_pos|by right].
  - intros j k' Hh W R C. by apply HQ.
Qed.

Lemma here_bwrite k0 A L k b j (Q : unit -> kernel fsys -> Prop) :
  here k0 A L k -> L !! b = Some j -> (forall k', here k0 (a_write b A) L k' -> Q tt k') ->
  wp (bwrite j) k Q.
Proof.
  intros H HL HQ. eapply (here_step k0 A L k _ (fun _ fs => caches dev pid fs (a_write b A) L)); [done| |].
  - apply (bwrite_spec rw Hrw i pid dev); try done; apply H.
  - intros [] k' Hh W R C. by apply HQ.
Qed.

Lemma here_brelse k0 A L k b j (Q : unit -> kernel fsys -> Prop) :
  here k0 A L k -> L !! b = Some j -> (refs A b = 1%nat -> cv A b = cd A b) ->
  (forall k', here k0 (a_drop b A) (delete b L) k' -> Q tt k') ->
  wp (brelse j) k Q.
Proof.
  intros H HL Hcl HQ. eapply (here_step k0 A L k _ (fun _ fs => caches dev pid fs (a_drop b A) (delete b L))); [done| |].
  - eapply brelse_spec; try done; apply H.
  - intros [] k' Hh W R C. by apply HQ.
Qed.

Lemma here_bunpin k0 A L k b j (Q : unit -> kernel fsys -> Prop) :
  here k0 A L k -> L !! b = Some j -> (1 < refs A b)%nat ->
  (forall k', here k0 (a_drop b A) L k' -> Q tt k') ->
  wp (bunpin j) k Q.
Proof.
  intros H HL Hr HQ. eapply (here_step k0 A L k _ (fun _ fs => caches dev pid fs (a_drop b A) L)); [done| |].
  - apply (bunpin_spec i pid dev); try done; apply H.
  - intros [] k' Hh W R C. by apply HQ.
Qed.

Lemma here_set k0 A L k b j f g (Q : unit -> kernel fsys -> Prop) :
  here k0 A L k -> L !! b = Some j -> (forall x, f x = set_b_data (g (b_data x)) x) ->
  (forall k', here k0 (a_set b (g (cv A b)) A) L k' -> Q tt k') ->
  wp (setb j f) k Q.
Proof.
  intros H HL Hf HQ. eapply (here_step k0 A L k _ (fun _ fs => caches dev pid fs (a_set b (g (cv A b)) A) L)); [done| |].
  - apply (setdata_spec pid dev); try done; apply H.
  - intros [] k' Hh W R C. by apply HQ.
Qed.

Lemma here_getb k0 A L k b j (Q : buf -> kernel fsys -> Prop) :
  here k0 A L k -> L !! b = Some j ->
  (forall x, b_data x = cv A b -> b_blockno x = b -> Q x k) ->
  wp (getb j) k Q.
Proof.
  intros H HL HQ. destruct (mine_buf pid dev _ _ _ _ _ (he_cache _ _ _ _ H) HL) as (x & (Hx & _ & Hb) & _ & _ & _ & Hd & _).
  apply (wp_getb j x); [done|]. by apply HQ.
Qed.

Lemma here_copy k0 A L k b1 j1 b2 j2 (Q : unit -> kernel fsys -> Prop) :
  here k0 A L k -> L !! b1 = Some j1 -> L !! b2 = Some j2 ->
  (forall k', here k0 (a_set b1 (cv A b2) A) L k' -> Q tt k') ->
  wp (copy_buf j1 j2) k Q.
Proof.
  intros H H1 H2 HQ. unfold copy_buf. apply wp_bind. eapply here_getb; [done|exact H2|].
  intros x Hx _. eapply (here_set _ _ _ _ _ _ _ (fun _ => b_data x)); [done|exact H1|done|]. by rewrite Hx.
Qed.
(** ** Copying one block *)

(** The references while blocks [b1] and [b2] are held. *)
Definition fits (A : cache) (b1 b2 : Z) : Prop :=
  b1 <> b2 /\ Z.of_nat (refs A b1) + 1 < 2 ^ 32 /\ Z.of_nat (refs A b2) + 1 < 2 ^ 32 /\
  (size (cr A) < NBUF)%nat /\ ((0 < refs A b1)%nat \/ (0 < refs A b2)%nat \/ (S (size (cr A)) < NBUF)%nat).

Lemma fits_second A b1 b2 :
  refs_ok A -> fits A b1 b2 -> (0 < refs (a_take b1 A) b2)%nat \/ (size (cr (a_take b1 A)) < NBUF)%nat.
Proof.
  intros Hok (Hne & _ & _ & Hsz & [H1|[H2|H3]]).
  - right. by rewrite size_take.
  - left. by rewrite refs_take_ne.
  - right. cbn. rewrite map_size_insert. destruct (cr A !! b1); cbn; lia.
Qed.

(** Reading two blocks. *)
Lemma here_bread2 {X} k0 A k b1 b2 (m : nat -> nat -> M (kernel fsys) X) (Q : X -> kernel fsys -> Prop) :
  here k0 A ∅ k -> fits A b1 b2 ->
  (forall j1 j2 k', here k0 (a_take b2 (a_take b1 A)) (<[b2 := j2]> {[b1 := j1]}) k' -> wp (m j1 j2) k' Q) ->
  wp (j1 <- bread dev b1 ;; j2 <- bread dev b2 ;; m j1 j2) k Q.
Proof.
  intros H Hf Hm. pose proof (caches_refs _ _ _ _ _ (he_cache _ _ _ _ H)) as Hok.
  pose proof (fits_second _ _ _ Hok Hf) as H2. destruct Hf as (Hne & Hm1 & Hm2 & Hsz & _).
  apply wp_bind. eapply here_bread; [done|apply lookup_empty|by right|done|]. intros j1 k1 H1.
  apply wp_bind. eapply here_bread; [done|by rewrite lookup_insert_ne, lookup_empty|done|by rewrite refs_take_ne|].
  intros j2 k2 H3. by apply Hm.
Qed.

(** The order of [write_log]: the target first. *)
Lemma write_one k0 A k b1 b2 j1 j2 (Q : unit -> kernel fsys -> Prop) :
  refs_ok A -> b1 <> b2 -> (refs A b2 = 0%nat -> cv A b2 = cd A b2) ->
  here k0 (a_take b2 (a_take b1 A)) (<[b2 := j2]> {[b1 := j1]}) k ->
  (forall k', here k0 (a_put b1 (cv A b2) A) ∅ k' -> Q tt k') ->
  wp (copy_buf j1 j2 >>> bwrite j1 >>> brelse j2 >>> brelse j1) k Q.
Proof.
  intros Hok Hne Hcl H HQ. set (L := <[b2 := j2]> {[b1 := j1]}) in *.
  assert (HL2 : L !! b2 = Some j2) by (apply lookup_insert_eq).
  assert (HL1 : L !! b1 = Some j1) by (unfold L; rewrite lookup_insert_ne by done; apply lookup_insert_eq).
  apply wp_bind. eapply here_copy; [done|exact HL1|exact HL2|]. intros k1 H1.
  apply wp_bind. eapply here_bwrite; [done|exact HL1|]. intros k2 H2.
  apply wp_bind. eapply here_brelse; [done|exact HL2| |].
  { intros Hr. cbn. rewrite !upd_ne by done. apply Hcl.
    rewrite (refs_cr _ (a_take b2 (a_take b1 A))), refs_take, refs_take_ne in Hr by done. lia. }
  intros k3 H3. eapply here_brelse; [done|by rewrite lookup_delete_ne|intros _; cbn; by rewrite !upd_eq|].
  intros k4 H4. apply HQ. replace (a_put b1 (cv A b2) A) with
    (a_drop b1 (a_drop b2 (a_write b1 (a_set b1 (cv A b2) (a_take b2 (a_take b1 A)))))).
  - unfold L in H4. by rewrite two_empty in H4.
  - apply cache_eq; [done|cbn; by rewrite upd_eq| |cbn; by rewrite upd_eq].
    rewrite (cr_drop_take A); [done|done|]. by rewrite (cr_drop_take (a_take b1 A)) by (done || by apply refs_ok_take).
Qed.

(** The order of [install_trans]: the source first, perhaps unpinning the
    target. *)
Lemma install_one k0 A k b1 b2 j1 j2 (unpin : bool) (Q : unit -> kernel fsys -> Prop) :
  refs_ok A -> b1 <> b2 -> (refs A b1 = 0%nat -> cv A b1 = cd A b1) -> (unpin = true -> (0 < refs A b2)%nat) ->
  here k0 (a_take b2 (a_take b1 A)) (<[b2 := j2]> {[b1 := j1]}) k ->
  (forall k', here k0 (let B := a_put b2 (cv A b1) A in if unpin then a_drop b2 B else B) ∅ k' -> Q tt k') ->
  wp (copy_buf j2 j1 >>> bwrite j2 >>> (if unpin then bunpin j2 else ret tt) >>> brelse j1 >>> brelse j2) k Q.
Proof.
  intros Hok Hne Hcl Hpin H HQ. set (L := <[b2 := j2]> {[b1 := j1]}) in *.
  assert (HL2 : L !! b2 = Some j2) by (apply lookup_insert_eq).
  assert (HL1 : L !! b1 = Some j1) by (unfold L; rewrite lookup_insert_ne by done; apply lookup_insert_eq).
  assert (HLe : delete b2 (delete b1 L) = ∅) by (rewrite delete_delete; apply two_empty).
  apply wp_bind. eapply here_copy; [done|exact HL2|exact HL1|]. intros k1 H1.
  apply wp_bind. eapply here_bwrite; [done|exact HL2|]. intros k2 H2. cbn [a_take cv] in H2.
  set (A2 := a_write b2 (a_set b2 (cv A b1) (a_take b2 (a_take b1 A)))) in H2.
  assert (Hr2 : refs A2 b2 = S (refs A b2)).
  { rewrite (refs_cr _ (a_take b2 (a_take b1 A))) by done. by rewrite refs_take, refs_take_ne. }
  assert (Hr1 : refs A2 b1 = S (refs A b1)).
  { rewrite (refs_cr _ (a_take b2 (a_take b1 A))) by done. by rewrite refs_take_ne, refs_take. }
  assert (Hdrop : cr (a_drop b2 A2) = cr (a_take b1 A)) by (apply cr_drop_take; [by apply refs_ok_take|done]).
  apply wp_bind. destruct unpin.
  - eapply here_bunpin; [done|exact HL2|rewrite Hr2; specialize (Hpin eq_refl); lia|]. intros k3 H3.
    apply wp_bind. eapply here_brelse; [done|exact HL1| |].
    { intros Hr. cbn. rewrite !upd_ne by done. apply Hcl.
      rewrite (refs_cr _ (a_take b1 A)), refs_take in Hr by done. lia. }
    intros k4 H4. eapply here_brelse; [done|by rewrite lookup_delete_ne|intros _; cbn; by rewrite !upd_eq|].
    intros k5 H5. apply HQ. rewrite HLe in H5. cbn zeta.
    replace (a_drop b2 (a_put b2 (cv A b1) A)) with (a_drop b2 (a_drop b1 (a_drop b2 A2))); [done|].
    assert (E : cr (a_drop b1 (a_drop b2 A2)) = cr A) by (by apply cr_drop_take).
    apply cache_eq; [done|cbn; by rewrite upd_eq| |cbn; by rewrite upd_eq].
    by apply cr_drop_cr.
  - apply wp_ret, wp_bind. eapply here_brelse; [done|exact HL1| |].
    { intros Hr. cbn. rewrite !upd_ne by done. apply Hcl. lia. }
    intros k4 H4. eapply here_brelse; [done|by rewrite lookup_delete_ne|intros _; cbn; by rewrite !upd_eq|].
    intros k5 H5. apply HQ. rewrite HLe in H5. cbn zeta.
    replace (a_put b2 (cv A b1) A) with (a_drop b2 (a_drop b1 A2)); [done|].
    apply cache_eq; [done|cbn; by rewrite upd_eq| |cbn; by rewrite upd_eq].
    rewrite cr_drop_swap by done. by apply cr_drop_take.
Qed.
(** ** The loops *)

Lemma for_log_spec (body : nat -> M (kernel fsys) unit) (I : nat -> kernel fsys -> Prop) n k (Q : unit -> kernel fsys -> Prop) :
  (n <= 30)%nat -> (forall j k', I j k' -> lh_n (fs_log (k_files k')) = Z.of_nat n) ->
  (forall j k', (j < n)%nat -> I j k' -> wp (body j) k' (fun _ k'' => I (S j) k'')) ->
  I 0%nat k -> (forall k', I n k' -> Q tt k') -> wp (for_log body) k Q.
Proof.
  intros Hn Hlh Hb H0 HQ. unfold for_log.
  apply (wp_loop_st (fun j k' => (j <= n)%nat /\ I j k') (fun j _ => (n - j)%nat)).
  - intros j k' [Hj HI]. apply wp_bind, wp_fgets. rewrite (Hlh j k' HI).
    destruct (Z.ltb_spec (Z.of_nat j) (Z.of_nat n)) as [Hlt|Hge].
    + apply wp_bind. eapply wp_mono; [apply Hb; [lia|done]|]. cbn beta. intros _ k'' HI'. apply wp_ret.
      split; [split; [lia|done]|lia].
    + apply wp_ret. apply HQ. by replace n with j by lia.
  - split; [lia|done].
  - change (Z.to_nat LOGBLOCKS) with 30%nat. lia.
Qed.

(** The log [l] holds a transaction on the blocks [bs]. *)
Record tx (l : log) (bs : list Z) : Prop := {
  tx_dev : lg_dev l = dev;
  tx_n : lh_n l = Z.of_nat (length bs);
  tx_bs j b : bs !! j = Some b -> lh_block l !! j = Some b;
  tx_max : (length bs <= 30)%nat;
  tx_nodup : NoDup bs;
  tx_range b : b ∈ bs -> 0 <= b < 2 ^ 31;
  tx_away b : b ∈ bs -> b < lg_start l \/ lg_start l + 30 < b
}.

Lemma here_now k0 A L k : here k0 A L k -> here k A L k.
Proof. intros [Hh _ _ C]. split; [done|apply woke_refl|apply same_rest_refl|done]. Qed.

Lemma here_log k0 A L k : here k0 A L k -> fs_log (k_files k) = fs_log (k_files k0).
Proof. intros H. apply (sr_log _ _ (he_rest _ _ _ _ H)). Qed.

Lemma here_log_block k0 A L k bs j b (Q : Z -> kernel fsys -> Prop) :
  here k0 A L k -> tx (fs_log (k_files k0)) bs -> bs !! j = Some b -> Q b k -> wp (log_block j) k Q.
Proof.
  intros H T Hb HQ. unfold wp, log_block. rewrite (here_log _ _ _ _ H), (tx_bs _ _ T _ _ Hb). done.
Qed.

(** References leave room to work. *)
Definition roomy (A : cache) (bs : list Z) : Prop :=
  (size (cr A) < NBUF)%nat /\ (forall b, Z.of_nat (refs A b) + 1 < 2 ^ 32) /\ (forall b, b ∈ bs -> (0 < refs A b)%nat).

Lemma write_log_spec k0 A k bs (Q : unit -> kernel fsys -> Prop) :
  here k0 A ∅ k -> tx (fs_log (k_files k0)) bs -> roomy A bs ->
  (forall k', here k0 (a_puts (log_writes (lg_start (fs_log (k_files k0))) bs (cv A)) A) ∅ k' -> Q tt k') ->
  wp (write_log swtch fuel rw) k Q.
Proof.
  intros H T (Hsz & Hmax & Hpin) HQ. set (start := lg_start _) in *. set (W := log_writes start bs (cv A)) in *.
  unfold write_log. eapply (for_log_spec _ (fun j k' => here k0 (a_puts (take j W) A) ∅ k') (length bs)).
  - apply T.
  - intros j k' H'. rewrite (here_log _ _ _ _ H'). apply T.
  - intros j k' Hj H'. destruct (lookup_lt_is_Some_2 bs j Hj) as [b Hb].
    assert (Hbin : b ∈ bs) by (by eapply list_elem_of_lookup_2).
    destruct (a_puts_eq (take j W) A) as (Ev & Ed & Er & Ew). set (A1 := a_puts (take j W) A) in *.
    assert (Hok : refs_ok A1) by (apply (caches_refs _ _ _ _ _ (he_cache _ _ _ _ H'))).
    assert (Hrefs : forall x, refs A1 x = refs A x) by (intros x; by apply refs_cr).
    pose proof (tx_range _ _ T b Hbin) as Hrange. pose proof (tx_away _ _ T b Hbin) as Haway.
    pose proof (tx_max _ _ T) as Hlen. fold start in Haway.
    apply wp_bind, wp_fgets. unfold id. rewrite (here_log _ _ _ _ H'), (tx_dev _ _ T). fold start.
    apply wp_bind. eapply here_bread; [done|apply lookup_empty|right; by rewrite Er|by rewrite Hrefs|].
    intros j1 k1 H1. apply wp_bind. eapply here_log_block; [exact H1|done|done|].
    rewrite u32_id by lia. apply wp_bind.
    eapply here_bread; [done|rewrite lookup_insert_ne, lookup_empty by lia; done| |rewrite refs_take_ne, Hrefs by lia; done|].
    { left. rewrite refs_take_ne, Hrefs by lia. by apply Hpin. }
    intros j2 k2 H2. eapply (write_one k0 A1); [done| | |exact H2|].
    { lia. }
    { rewrite Hrefs. specialize (Hpin b Hbin). lia. }
    intros k3 H3. rewrite (take_S_r W j (start + Z.of_nat j + 1, cv A b)) by (by apply log_writes_lookup).
    rewrite a_puts_snoc. cbn [fst snd]. fold A1.
    rewrite Ev, apply_writes_ne in H3; [done|]. intros Hin.
    assert (b ∈ map fst W) as Hin' by (rewrite <- (take_drop j W), map_app; apply elem_of_app; by left).
    apply log_writes_in in Hin'. lia.
  - done.
  - intros k' H'. apply HQ. rewrite take_ge in H'; [done|]. unfold W, log_writes. by rewrite length_imap.
Qed.
(** Room for [install_trans]: its blocks are pinned, or there is one more
    free buffer. *)
Definition roomy_for (unpin : bool) (A : cache) (bs : list Z) : Prop :=
  (size (cr A) < NBUF)%nat /\ (forall b, Z.of_nat (refs A b) + 1 < 2 ^ 32) /\
  if unpin then forall b, b ∈ bs -> (0 < refs A b)%nat else (S (size (cr A)) < NBUF)%nat.

Lemma refs_drop_ne A b b' : b <> b' -> refs (a_drop b A) b' = refs A b'.
Proof. intros Hne. unfold refs at 1. cbn. case_decide; by rewrite ?lookup_delete_ne, ?lookup_insert_ne. Qed.

Lemma refs_drop A b : (refs (a_drop b A) b <= refs A b)%nat.
Proof.
  unfold refs at 1. cbn. case_decide; rewrite ?lookup_delete_eq, ?lookup_insert_eq; cbn; lia.
Qed.

Lemma size_drop A b : (0 < refs A b)%nat -> (size (cr (a_drop b A)) <= size (cr A))%nat.
Proof.
  intros Hr. cbn. case_decide.
  - rewrite map_size_delete. destruct (cr A !! b); cbn; lia.
  - rewrite map_size_insert, (refs_pos _ _ Hr). done.
Qed.

Lemma roomy_install u A b x bs :
  b ∉ bs -> roomy_for u A (b :: bs) -> roomy_for u (a_install u A (b, x)) bs.
Proof.
  intros Hb (Hsz & Hmax & Hu). destruct u; cbn [a_install fst snd]; [|done].
  specialize (Hu b ltac:(apply elem_of_cons; by left)) as Hr. change (refs A b) with (refs (a_put b x A) b) in Hr.
  split_and!.
  - eapply Nat.le_lt_trans; [by apply size_drop|done].
  - intros b'. specialize (Hmax b'). destruct (decide (b = b')) as [<-|Hne].
    + pose proof (refs_drop (a_put b x A) b). change (refs (a_put b x A) b) with (refs A b) in *. lia.
    + by rewrite refs_drop_ne.
  - intros b' Hb'. rewrite refs_drop_ne by (intros ->; done). apply Hu, elem_of_cons. by right.
Qed.

Lemma install_writes_lookup start bs v j b :
  bs !! j = Some b -> install_writes start bs v !! j = Some (b, v (start + Z.of_nat j + 1)).
Proof. intros Hb. unfold install_writes. by rewrite list_lookup_imap, Hb. Qed.

Lemma install_writes_fst start bs v : map fst (install_writes start bs v) = bs.
Proof.
  apply list_eq. intros j. rewrite list_lookup_fmap. unfold install_writes. rewrite list_lookup_imap.
  by destruct (bs !! j).
Qed.

Lemma install_trans_spec k0 A k bs (r : bool) (Q : unit -> kernel fsys -> Prop) :
  here k0 A ∅ k -> tx (fs_log (k_files k0)) bs -> roomy_for (negb r) A bs ->
  (let B := a_installs (negb r) (install_writes (lg_start (fs_log (k_files k0))) bs (cv A)) A in
   forall k', here k0 B ∅ k' -> roomy_for (negb r) B [] -> Q tt k') ->
  wp (install_trans swtch fuel rw r) k Q.
Proof.
  intros H T HR HQ. cbn zeta in HQ. set (start := lg_start _) in *. set (W := install_writes start bs (cv A)) in *.
  set (u := negb r) in *. unfold install_trans.
  eapply (for_log_spec _ (fun j k' => here k0 (a_installs u (take j W) A) ∅ k' /\
    roomy_for u (a_installs u (take j W) A) (drop j bs)) (length bs)).
  - apply T.
  - intros j k' [H' _]. rewrite (here_log _ _ _ _ H'). apply T.
  - intros j k' Hj [H' HR']. destruct (lookup_lt_is_Some_2 bs j Hj) as [b Hb].
    assert (Hbin : b ∈ bs) by (by eapply list_elem_of_lookup_2).
    destruct (a_installs_eq u (take j W) A) as (Ev & Ed & Ew). set (A1 := a_installs u (take j W) A) in *.
    assert (Hok : refs_ok A1) by (apply (caches_refs _ _ _ _ _ (he_cache _ _ _ _ H'))).
    pose proof (tx_range _ _ T b Hbin) as Hrange. pose proof (tx_away _ _ T b Hbin) as Haway.
    pose proof (tx_max _ _ T) as Hlen. fold start in Haway. rewrite (drop_S _ _ _ Hb) in HR'.
    assert (Hvl : cv A1 (start + Z.of_nat j + 1) = cv A (start + Z.of_nat j + 1)).
    { rewrite Ev. apply apply_writes_ne. intros Hin.
      assert (start + Z.of_nat j + 1 ∈ map fst W) as Hin' by (rewrite <- (take_drop j W), map_app; apply elem_of_app; by left).
      unfold W in Hin'. rewrite install_writes_fst in Hin'. pose proof (tx_away _ _ T _ Hin'). fold start in H0. lia. }
    apply wp_bind, wp_fgets. unfold id. rewrite (here_log _ _ _ _ H'), (tx_dev _ _ T). fold start.
    apply wp_bind. eapply here_log_block; [exact H'|done|done|]. rewrite u32_id by lia.
    apply (here_bread2 k0 A1); [done| |].
    { destruct HR' as (Hsz & Hmax & Hu). split_and!; [lia|done|done|done|]. destruct u; [|by right; right].
      right; left. apply Hu, elem_of_cons. by left. }
    intros j1 j2 k1 H1. eapply (install_one k0 A1 _ (start + Z.of_nat j + 1) b j1 j2 u); [done|lia| | |exact H1|].
    { by apply (unref_clean dev pid _ _ _ _ (he_cache _ _ _ _ H')). }
    { intros E. destruct HR' as (_ & _ & Hu). rewrite E in Hu. apply Hu, elem_of_cons. by left. }
    intros k2 H2. rewrite Hvl in H2.
    rewrite (take_S_r W j (b, cv A (start + Z.of_nat j + 1))) by (by apply install_writes_lookup).
    rewrite a_installs_snoc. fold A1. split; [exact H2|]. apply roomy_install; [|done].
    pose proof (tx_nodup _ _ T) as Hnd. rewrite <- (take_drop j bs), (drop_S _ _ _ Hb) in Hnd.
    apply NoDup_app in Hnd as (_ & _ & Hnd). by apply NoDup_cons in Hnd as [? _].
  - done.
  - intros k' [H' HR']. rewrite drop_all in HR'.
    assert (E : take (length bs) W = W) by (apply take_ge; unfold W, install_writes; by rewrite length_imap).
    rewrite E in H', HR'. by apply HQ.
Qed.
(** ** The header *)

Lemma here_ext k0 A B L k :
  (forall b, cv A b = cv B b) -> (forall b, cd A b = cd B b) -> cr A = cr B -> cw A = cw B ->
  here k0 A L k -> here k0 B L k.
Proof.
  intros Hv Hd Hr Hw [Hh W R C]. split; try done.
  destruct C as [c1 c2 c3 c4 c5 c6 c7 c8 c9 c10 c11 c12]. split; try done.
  - by rewrite <- Hr.
  - intros j b x Hx Hval. rewrite <- Hv, <- Hd. by apply (c7 j).
  - intros b Hn. rewrite <- Hv, <- Hd. by apply c8.
  - intros b. by rewrite <- Hd.
  - by rewrite <- Hw.
Qed.

(** The kernel with another log. *)
Definition relog (l : log) (k : kernel fsys) : kernel fsys := set_k_files (set_fs_log l (k_files k)) k.

Lemma here_relog k0 A L k l : here k0 A L k -> here (relog l k0) A L (relog l k).
Proof.
  intros [Hh W [] C]. split.
  - eapply woke_host; [apply woke_files|done].
  - destruct W. split; done.
  - split; cbn; done.
  - destruct C. split; done.
Qed.

Lemma relog_log k0 A L k l : here (relog l k0) A L k -> fs_log (k_files k) = l.
Proof. intros H. by rewrite (here_log _ _ _ _ H). Qed.

Lemma wp_lmod f k (Q : unit -> kernel fsys -> Prop) :
  Q tt (relog (f (fs_log (k_files k))) k) -> wp (lmod f) k Q.
Proof. done. Qed.

Lemma relog_relog l l' k : relog l (relog l' k) = relog l k.
Proof. done. Qed.

Lemma write_head_spec k0 A k bs (Q : unit -> kernel fsys -> Prop) :
  here k0 A ∅ k -> tx (fs_log (k_files k0)) bs ->
  (size (cr A) < NBUF)%nat -> Z.of_nat (refs A (lg_start (fs_log (k_files k0)))) + 1 < 2 ^ 32 ->
  (forall k', here k0 (let start := lg_start (fs_log (k_files k0)) in a_put start (put_header (cv A start) bs) A) ∅ k' -> Q tt k') ->
  wp (write_head swtch fuel rw) k Q.
Proof.
  intros H T Hsz Hmax HQ. cbn zeta in HQ. set (start := lg_start _) in *. unfold write_head.
  pose proof (caches_refs _ _ _ _ _ (he_cache _ _ _ _ H)) as Hok.
  apply wp_bind, wp_fgets. unfold id. rewrite (here_log _ _ _ _ H), (tx_dev _ _ T). fold start.
  apply wp_bind. eapply here_bread; [done|apply lookup_empty|by right|done|]. intros jb k1 H1.
  set (L := <[start := jb]> ∅) in *. assert (HL : L !! start = Some jb) by apply lookup_insert_eq.
  set (d0 := put32 (cv A start) 0 (Z.of_nat (length bs))).
  apply wp_bind. rewrite (tx_n _ _ T).
  eapply (here_set _ _ _ _ start jb _ (fun d => put32 d 0 (Z.of_nat (length bs)))); [done|exact HL|done|]. intros k2 H2.
  apply wp_bind.
  eapply (for_log_spec _ (fun j k' => here k0 (a_set start (put_blocks d0 4 (take j bs)) (a_take start A)) L k') (length bs)).
  - apply T.
  - intros j k' H'. rewrite (here_log _ _ _ _ H'). apply T.
  - intros j k' Hj H'. destruct (lookup_lt_is_Some_2 bs j Hj) as [b Hb].
    apply wp_bind. eapply here_log_block; [exact H'|done|done|].
    eapply (here_set _ _ _ _ start jb _ (fun d => put32 d (4 + 4 * j) b)); [exact H'|exact HL|done|]. intros k3 H3.
    rewrite (take_S_r bs j b Hb), put_blocks_snoc, length_take, Nat.min_l by lia.
    eapply here_ext; [| | | |exact H3]; cbn; try done. intros b'. rewrite upd_eq. unfold upd. by case_decide.
  - exact H2.
  - intros k3 H3. rewrite take_ge in H3 by done. fold (put_header (cv A start) bs) in H3.
    apply wp_bind. eapply here_bwrite; [exact H3|exact HL|]. intros k4 H4.
    eapply here_brelse; [exact H4|exact HL|intros _; cbn; by rewrite !upd_eq|]. intros k5 H5. apply HQ.
    assert (E : delete start L = ∅) by (unfold L; by rewrite delete_insert_eq, delete_empty).
    rewrite E in H5. eapply here_ext; [| | | |exact H5]; cbn [a_drop a_write a_set a_take a_put cv cd cw]; try done.
    + intros b'. by rewrite upd_eq.
    + by apply cr_drop_take.
    + by rewrite upd_eq.
Qed.

(** The log a header block describes. *)
Record from_header (d : block) (l l' : log) : Prop := {
  fh_start : lg_start l' = lg_start l;
  fh_outstanding : lg_outstanding l' = lg_outstanding l;
  fh_committing : lg_committing l' = lg_committing l;
  fh_dev : lg_dev l' = lg_dev l;
  fh_n : lh_n l' = header_n d;
  fh_len : length (lh_block l') = length (lh_block l);
  fh_block j : Z.of_nat j < header_n d -> lh_block l' !! j = Some (header_block d j)
}.

Lemma read_head_spec k0 A k (Q : unit -> kernel fsys -> Prop) :
  let l := fs_log (k_files k0) in
  here k0 A ∅ k -> lg_dev l = dev -> length (lh_block l) = 30%nat -> 0 <= header_n (cv A (lg_start l)) <= 30 ->
  (size (cr A) < NBUF)%nat -> Z.of_nat (refs A (lg_start l)) + 1 < 2 ^ 32 ->
  (forall k' l', from_header (cv A (lg_start l)) l l' -> here (relog l' k0) A ∅ k' -> Q tt k') ->
  wp (read_head swtch fuel rw) k Q.
Proof.
  intros l H Hdev Hbl Hhn Hsz Hmax HQ. set (d := cv A (lg_start l)) in *. unfold read_head.
  pose proof (caches_refs _ _ _ _ _ (he_cache _ _ _ _ H)) as Hok.
  apply wp_bind, wp_fgets. unfold id. rewrite (here_log _ _ _ _ H). fold l. rewrite Hdev.
  apply wp_bind. eapply here_bread; [done|apply lookup_empty|by right|done|]. intros jb k1 H1.
  set (L := <[lg_start l := jb]> ∅) in *. assert (HL : L !! lg_start l = Some jb) by apply lookup_insert_eq.
  apply wp_bind. eapply here_getb; [exact H1|exact HL|]. intros x Hx _. cbn [a_take cv] in Hx.
  apply wp_bind, wp_lmod. rewrite (here_log _ _ _ _ H1), Hx. fold l d. fold (header_n d). apply wp_bind.
  eapply (for_log_spec _ (fun j k' => exists bl, let l' := set_lh_block bl (set_lh_n (header_n d) l) in
    here (relog l' k0) (a_take (lg_start l) A) L k' /\ length bl = 30%nat /\
    forall i, (i < j)%nat -> bl !! i = Some (header_block d i)) (Z.to_nat (header_n d))).
  - lia.
  - intros j k' (bl & H' & _). rewrite (relog_log _ _ _ _ _ H'). cbn. lia.
  - intros j k' Hj (bl & H' & Hlen & Hbl'). apply wp_bind. eapply here_getb; [exact H'|exact HL|]. intros y Hy _.
    cbn [a_take cv] in Hy. rewrite Hy. fold d. fold (header_block d j).
    unfold wp, set_log_block. rewrite (relog_log _ _ _ _ _ H'). cbn [lh_block set_lh_block set_lh_n].
    destruct (Nat.ltb_spec j (length bl)) as [Hlt|?]; [|lia].
    change (wp (lmod (fun l0 => set_lh_block (<[j := header_block d j]> (lh_block l0)) l0)) k'
      (fun _ k'' => exists bl0, here (relog (set_lh_block bl0 (set_lh_n (header_n d) l)) k0) (a_take (lg_start l) A) L k'' /\
         length bl0 = 30%nat /\ forall i, (i < S j)%nat -> bl0 !! i = Some (header_block d i))).
    apply wp_lmod. rewrite (relog_log _ _ _ _ _ H'). exists (<[j := header_block d j]> bl).
    split; [|split; [by rewrite length_insert|]].
    + rewrite <- (relog_relog _ (set_lh_block bl (set_lh_n (header_n d) l)) k0). by apply here_relog.
    + intros i' Hi. destruct (decide (i' = j)) as [->|Hne]; [by apply list_lookup_insert_eq|].
      rewrite list_lookup_insert_ne by done. apply Hbl'. lia.
  - exists (lh_block l). split; [|split; [done|lia]].
    apply (here_relog _ _ _ _ (set_lh_n (header_n d) l)) in H1. by destruct l.
  - intros k2 (bl & H2 & Hlen & Hbl'). eapply here_brelse; [exact H2|exact HL| |].
    { rewrite refs_take. intros E. apply (unref_clean dev pid _ _ _ _ (he_cache _ _ _ _ H)). unfold l in *. lia. }
    intros k3 H3. assert (E : delete (lg_start l) L = ∅) by (unfold L; by rewrite delete_insert_eq, delete_empty).
    rewrite E in H3. eapply (HQ k3 (set_lh_block bl (set_lh_n (header_n d) l))).
    + split; try done; [cbn; lia|]. intros j Hj. apply Hbl'. lia.
    + eapply here_ext; [| | | |exact H3]; try done. by apply cr_drop_take.
Qed.
End log.
