(* ===== verification/BioTheorems.v ===== *)
(** The buffer cache keeps what is written, through eviction, and what
    happens when all its buffers are in use. *)

From S2P Require Import Prelude.
From S2P Require Import Spinlock.
From S2P Require Import Proc.
From S2P Require Import FsState.
From S2P Require Import Bio.
From S2P Require Import Log.
From S2P Require Import BioSpec.
From S2P Require Import LogSpec.

Section coherence.
Context (swtch : M (kernel fsys) unit) (fuel : nat) (Hfuel : can_wait fuel).
Context (rw : nat -> bool -> M (kernel fsys) unit) (Hrw : driver_ok rw).
Context (i : nat) (pid dev : Z).
Abbreviation here := (here i pid dev).
Abbreviation K := (M (kernel fsys)).

(** Uses of the cache as file system code makes them. *)
Definition write_block (b : Z) (d : block) : K unit :=
  j <- bread swtch fuel rw dev b ;;
  setb j (set_b_data d) >>>
  bwrite rw j >>>
  brelse j.

Definition read_block (b : Z) : K block :=
  j <- bread swtch fuel rw dev b ;;
  x <- getb j ;;
  brelse j >>>
  ret (b_data x).

Fixpoint read_blocks (bs : list Z) : K unit :=
  match bs with [] => ret tt | b :: bs => read_block b >>> read_blocks bs end.

(** There is a buffer to spare. *)
Definition spare_buf (A : cache) : Prop :=
  (size (cr A) < NBUF)%nat /\ forall b, Z.of_nat (refs A b) + 1 < 2 ^ 32.

Lemma delete_only b (j : nat) : delete b (<[b := j]> (∅ : gmap Z nat)) = ∅.
Proof. by rewrite delete_insert_eq, delete_empty. Qed.

Lemma write_block_spec k0 A k b d (Q : unit -> kernel fsys -> Prop) :
  here k0 A ∅ k -> spare_buf A -> (forall k', here k0 (a_put b d A) ∅ k' -> Q tt k') -> wp (write_block b d) k Q.
Proof.
  intros H [Hsz Hmax] HQ. pose proof (caches_refs _ _ _ _ _ (he_cache _ _ _ _ _ _ _ H)) as Hok. unfold write_block.
  apply wp_bind. eapply (here_bread swtch fuel Hfuel rw Hrw i pid dev); [exact H|apply lookup_empty|by right|apply Hmax|]. intros j k1 H1.
  assert (HL : (<[b := j]> (∅ : gmap Z nat)) !! b = Some j) by apply lookup_insert_eq.
  apply wp_bind. eapply (here_set i pid dev _ _ _ _ b j _ (fun _ => d)); [exact H1|exact HL|done|]. intros k2 H2.
  apply wp_bind. eapply (here_bwrite rw Hrw i pid dev); [exact H2|exact HL|]. intros k3 H3.
  eapply (here_brelse fuel Hfuel rw Hrw i pid dev); [exact H3|exact HL|intros _; cbn; by rewrite !upd_eq|]. intros k4 H4.
  apply HQ. rewrite delete_only in H4. eapply here_ext; [| | | |exact H4]; cbn [a_drop a_write a_set a_take a_put cv cd cw]; try done.
  - intros b'. by rewrite upd_eq.
  - by apply cr_drop_take.
  - by rewrite upd_eq.
Qed.

Lemma read_block_spec k0 A k b (Q : block -> kernel fsys -> Prop) :
  here k0 A ∅ k -> spare_buf A -> (forall k', here k0 A ∅ k' -> Q (cv A b) k') -> wp (read_block b) k Q.
Proof.
  intros H [Hsz Hmax] HQ. pose proof (caches_refs _ _ _ _ _ (he_cache _ _ _ _ _ _ _ H)) as Hok. unfold read_block.
  apply wp_bind. eapply (here_bread swtch fuel Hfuel rw Hrw i pid dev); [exact H|apply lookup_empty|by right|apply Hmax|]. intros j k1 H1.
  assert (HL : (<[b := j]> (∅ : gmap Z nat)) !! b = Some j) by apply lookup_insert_eq.
  apply wp_bind. eapply here_getb; [exact H1|exact HL|]. intros x Hx _. apply wp_bind.
  eapply (here_brelse fuel Hfuel rw Hrw i pid dev); [exact H1|exact HL| |].
  { rewrite refs_take. intros E. apply (unref_clean dev pid _ _ _ _ (he_cache _ _ _ _ _ _ _ H)). lia. }
  intros k2 H2. apply wp_ret. rewrite Hx. apply HQ. rewrite delete_only in H2.
  eapply here_ext; [| | | |exact H2]; try done. by apply cr_drop_take.
Qed.

Lemma read_blocks_spec k0 A bs : forall k (Q : unit -> kernel fsys -> Prop),
  here k0 A ∅ k -> spare_buf A -> (forall k', here k0 A ∅ k' -> Q tt k') -> wp (read_blocks bs) k Q.
Proof.
  induction bs as [|b bs IH]; intros k Q H Hs HQ; cbn [read_blocks]; [apply wp_ret; auto|].
  apply wp_bind. eapply read_block_spec; [exact H|done|]. intros k1 H1. by apply IH.
Qed.

(** C17. The cache is coherent.  A block written through [bread], [bwrite] and
    [brelse] is on disk, and reading it again gives what was written, after
    any other blocks have been read and its buffer recycled any number of
    times. *)
Theorem cache_coherent k A b d bs :
  here k A ∅ k -> spare_buf A ->
  wp (write_block b d >>> read_blocks bs >>> read_block b) k (fun r k' =>
    r = d /\ d_block (fs_disk (k_files k')) b = d /\ here k (a_put b d A) ∅ k').
Proof.
  intros H Hs. apply wp_bind. eapply write_block_spec; [exact H|done|]. intros k1 H1.
  apply wp_bind. eapply read_blocks_spec; [exact H1|done|]. intros k2 H2.
  eapply read_block_spec; [exact H2|done|]. intros k3 H3. cbn [a_put cv]. rewrite upd_eq. split_and!; [done| |done].
  rewrite (ca_disk _ _ _ _ _ (he_cache _ _ _ _ _ _ _ H3)). cbn. by rewrite upd_eq.
Qed.
End coherence.

(** ** A cache without a free buffer *)

Section full.
Context (swtch : M (kernel fsys) unit) (fuel : nat) (rw : nat -> bool -> M (kernel fsys) unit).
Context (i : nat) (pid dev : Z).

Lemma size_of_list (l : list Z) : (size (list_to_set (C := gset Z) l) <= length l)%nat.
Proof.
  induction l as [|x l IH]; [done|]. cbn [list_to_set length].
  pose proof (size_union_alt (C := gset Z) {[x]} (list_to_set l)) as E. rewrite size_singleton in E.
  pose proof (subseteq_size (list_to_set l ∖ {[x]} : gset Z) (list_to_set l) ltac:(set_solver)). lia.
Qed.

(** With as many referenced blocks as buffers, no buffer is unused. *)
Lemma ca_full fs A L j x :
  caches dev pid fs A L -> (NBUF <= size (cr A))%nat -> bc_buf (fs_bc fs) !! j = Some x -> b_refcnt x <> 0.
Proof.
  intros C Hsz Hx H0. set (busy := filter (fun y => b_refcnt y <> 0) (bc_buf (fs_bc fs))).
  assert (Hsub : dom (cr A) ⊆ list_to_set (C := gset Z) (map b_blockno busy)).
  { intros b [n Hn]%elem_of_dom. apply (ca_cr _ _ _ _ _ C) in Hn as (Hpos & q & y & (Hy & _ & Hyb) & Hr).
    apply elem_of_list_to_set, list_elem_of_fmap. exists y. split; [done|]. apply list_elem_of_filter. split; [lia|].
    by eapply list_elem_of_lookup_2. }
  apply subseteq_size in Hsub. rewrite size_dom in Hsub.
  assert (Hle : (size (list_to_set (C := gset Z) (map b_blockno busy)) <= length busy)%nat).
  { rewrite <- (length_map b_blockno busy). apply size_of_list. }
  assert (Hlt : (length busy < length (bc_buf (fs_bc fs)))%nat).
  { unfold busy. apply length_filter_lt with x; [by eapply list_elem_of_lookup_2|by intros ?]. }
  rewrite (ca_len _ _ _ _ _ C) in Hlt. lia.
Qed.

(** [bread] of a block that is not in a full cache. *)
Lemma full_bread k A b :
  here i pid dev k A ∅ k -> (NBUF <= size (cr A))%nat -> refs A b = 0%nat ->
  wpe (bread swtch fuel rw dev b) k (fun _ _ => False) (fun e => e = "bget: no buffers"%string).
Proof.
  intros [Hh _ _ C] Hsz Hb. unfold bread, bget. apply wpe_bind.
  eapply (wpe_then _ _ _ (fun _ k' => k' = set_held [BcacheLock] k)); [apply acquire_first; [apply Hh|done]|]. intros _ k1 ->.
  eapply wpe_then; [by apply (bget_cached_spec pid dev b _ A ∅)|]. cbn beta. intros r k1 [-> Hr].
  change (k_files (set_held _ k)) with (k_files k) in Hr.
  assert (Hno : forall q x, ~ buf_for dev (k_files k) q b x).
  { intros q x Hx. apply (ca_full (k_files k) A ∅ q x C Hsz); [apply Hx|].
    pose proof (refs_buf pid dev _ _ _ _ _ _ C Hx) as E. rewrite E, Hb. done. }
  destruct r as [q|]; [destruct Hr as (x & Hx); by apply Hno in Hx|].
  eapply (wpe_then _ _ _ (fun r k' => r = None)).
  - destruct (ca_ring _ _ _ _ _ C) as (l & [Hs Hd] & Hl). destruct (scan_pre pid dev _ _ _ _ C Hl) as [H1 H2].
    apply seg_rev in Hs.
    eapply wp_mono; [apply (scan_spec prev (bc_prev (fs_bc (k_files k))) (bc_next (fs_bc (k_files k)))
      (fun x => b_refcnt x =? 0) (rev l)); [done|done|by rewrite length_rev|]|].
    { intros q Hq. apply H2. by rewrite <- (Permutation_rev l) in Hq. }
    cbn beta. intros [q|] k' [_ Hq]; [|done]. destruct Hq as (x & Hx & Ht). apply Z.eqb_eq in Ht.
    by apply (ca_full (k_files k) A ∅ q x) in Ht.
  - intros _ k' ->. by apply wpe_panic.
Qed.
(** Every block of a list is in the cache and in use. *)
Lemma pinned_size A bs : NoDup bs -> (forall b, b ∈ bs -> (0 < refs A b)%nat) -> (length bs <= size (cr A))%nat.
Proof.
  intros Hd Hp. rewrite <- size_dom, <- (size_list_to_set (C := gset Z) bs Hd). apply subseteq_size.
  intros b Hb%elem_of_list_to_set. apply elem_of_dom. specialize (Hp b Hb). unfold refs in Hp.
  destruct (cr A !! b); [done|cbn in Hp; lia].
Qed.

(** C18. A transaction that fills the log cannot be committed: [log_write]
    pins a buffer for each of its [LOGBLOCKS] blocks, these are all [NBUF]
    buffers, and [write_log] finds none for the first block of the log. *)
Theorem full_log_panics k A bs :
  let l := fs_log (k_files k) in
  here i pid dev k A ∅ k -> tx dev l bs -> length bs = 30%nat ->
  (forall b, b ∈ bs -> (0 < refs A b)%nat) -> refs A (lg_start l + 1) = 0%nat ->
  wpe (commit swtch fuel rw) k (fun _ _ => False) (fun e => e = "bget: no buffers"%string).
Proof.
  intros l H T Hlen Hp Hfree. pose proof (tx_n _ _ _ T) as Hn. rewrite Hlen in Hn.
  unfold commit. apply wpe_bind, wpe_wp, wp_fgets. fold l. rewrite Hn. cbn [Z.eqb Z.of_nat Pos.of_succ_nat Pos.succ].
  apply wpe_bind. unfold write_log, for_log. cbn [loop]. apply wpe_bind, wpe_bind, wpe_wp, wp_fgets. fold l. rewrite Hn.
  change (Z.of_nat 0 <? Z.of_nat 30) with true. cbn iota.
  apply wpe_bind, wpe_bind, wpe_wp, wp_fgets. fold l. unfold id. rewrite (tx_dev _ _ _ T). change (Z.of_nat 0) with 0. rewrite Z.add_0_r.
  apply wpe_bind. eapply wpe_mono; [apply (full_bread k A); [done| |done]|done|done].
  pose proof (pinned_size A bs (tx_nodup _ _ _ T) Hp). unfold NBUF. lia.
Qed.
End full.
