(* ===== verification/LogTheorems.v ===== *)
(** Crash safety of the log: theorems on [commit], [recover_from_log],
    [initlog], [begin_op] and [log_write] of log.c. *)

From S2P Require Import Prelude.
From S2P Require Import Spinlock.
From S2P Require Import Riscv.
From S2P Require Import Kalloc.
From S2P Require Import Proc.
From S2P Require Import ProcCtl.
From S2P Require Import FsState.
From S2P Require Import Bio.
From S2P Require Import BioSpec.
From S2P Require Import Log.
From S2P Require Import LogSpec.

(** ** The writes of a commit *)

Definition commit_writes (start : Z) (bs : list Z) (v : Z -> block) : list (Z * block) :=
  let h := put_header (v start) bs in
  log_writes start bs v ++ (start, h) :: map (fun b => (b, v b)) bs ++ [(start, put_header h [])].

Lemma installs_logged start bs v w :
  (forall b, b ∈ bs -> b < start \/ start + 30 < b) -> (length bs <= 30)%nat ->
  install_writes start bs (apply_writes [(start, w)] (apply_writes (log_writes start bs v) v)) = map (fun b => (b, v b)) bs.
Proof.
  intros Haway Hlen. apply list_eq. intros j. rewrite list_lookup_fmap.
  destruct (bs !! j) as [b|] eqn:E.
  - rewrite (install_writes_lookup _ _ _ _ b E). cbn. do 2 f_equal.
    rewrite upd_ne by lia. apply (apply_writes_in _ _ j); [apply log_writes_nodup|by apply log_writes_lookup].
  - cbn. unfold install_writes. by rewrite list_lookup_imap, E.
Qed.

Section theorems.
Context (swtch : M (kernel fsys) unit) (fuel : nat) (Hfuel : can_wait fuel).
Context (rw : nat -> bool -> M (kernel fsys) unit) (Hrw : driver_ok rw).
Context (i : nat) (pid dev : Z).
Abbreviation here := (here i pid dev).

(** Blocks outside the log. *)
Definition off_log (start b : Z) : Prop := b < start \/ start + 30 < b.

Lemma tx_clear l bs : tx dev l bs -> tx dev (set_lh_n 0 l) [].
Proof.
  intros T. split; try done.
  - apply T.
  - cbn. lia.
  - constructor.
  - intros b Hb. by apply not_elem_of_nil in Hb.
  - intros b Hb. by apply not_elem_of_nil in Hb.
Qed.

Lemma upd_agree (f g : Z -> block) c x b : f b = g b -> upd f c x b = upd g c x b.
Proof. intros E. unfold upd. by case_decide. Qed.

Lemma writes_agree ps : forall d d' b, b ∈ map fst ps \/ d b = d' b -> apply_writes ps d b = apply_writes ps d' b.
Proof.
  induction ps as [|[c x] ps IH]; intros d d' b Hb; cbn in *.
  - destruct Hb as [Hb|Hb]; [by apply not_elem_of_nil in Hb|done].
  - apply IH. rewrite elem_of_cons in Hb. destruct (decide (b = c)) as [->|Hne]; [right; by rewrite !upd_eq|].
    rewrite !upd_ne by done. naive_solver.
Qed.

Lemma installs_refs u ps : forall A b, (refs (a_installs u ps A) b <= refs A b)%nat.
Proof.
  induction ps as [|[c x] ps IH]; intros A b; [done|]. cbn [a_installs foldl]. fold (a_installs u ps (a_install u A (c, x))).
  etransitivity; [apply IH|]. unfold a_install. cbn [fst snd]. destruct u; [|done].
  destruct (decide (c = b)) as [<-|Hne]; [by etransitivity; [apply refs_drop|]|by rewrite refs_drop_ne].
Qed.

Lemma installs_unpin ps : forall A b, b ∈ map fst ps -> (0 < refs A b)%nat -> (refs (a_installs true ps A) b < refs A b)%nat.
Proof.
  induction ps as [|[c x] ps IH]; intros A b Hb Hr; [by apply not_elem_of_nil in Hb|]. cbn [a_installs foldl].
  fold (a_installs true ps (a_install true A (c, x))). destruct (decide (c = b)) as [->|Hne].
  - eapply Nat.le_lt_trans; [apply installs_refs|]. unfold a_install, refs at 1. cbn. change (refs (a_put b x A) b) with (refs A b).
    case_decide as E; [rewrite lookup_delete_eq; cbn; lia|]. rewrite lookup_insert_eq. cbn. lia.
  - assert (E : refs (a_install true A (c, x)) b = refs A b) by (unfold a_install; by rewrite refs_drop_ne).
    rewrite <- E. apply IH; [|by rewrite E]. cbn in Hb. apply elem_of_cons in Hb as [->|?]; done.
Qed.

Lemma commit_spec k A bs :
  let l := fs_log (k_files k) in
  here k A ∅ k -> tx dev l bs -> bs <> [] -> roomy A bs ->
  wp (commit swtch fuel rw) k (fun _ k' => exists A', here (relog (set_lh_n 0 l) k) A' ∅ k' /\
    cw A' = cw A ++ commit_writes (lg_start l) bs (cv A) /\
    (forall b, cd A' b = apply_writes (commit_writes (lg_start l) bs (cv A)) (cd A) b) /\
    (forall b, off_log (lg_start l) b -> cv A' b = cv A b) /\ (forall b, (refs A' b + (if decide (b ∈ bs) then 1 else 0) <= refs A b)%nat) /\
    (forall b, b ∈ bs \/ cv A b = cd A b -> cv A' b = cd A' b)).
Proof.
  intros l H T Hne (Hsz & Hmax & Hpin). set (start := lg_start l) in *. unfold commit.
  apply wp_bind, wp_fgets. fold l. rewrite (tx_n _ _ _ T).
  destruct (Z.eqb_spec (Z.of_nat (length bs)) 0) as [E0|_]; [by destruct bs|].
  apply wp_bind. eapply (write_log_spec swtch fuel Hfuel rw Hrw i pid dev); [done|done|done|].
  fold l start. set (W1 := log_writes start bs (cv A)). intros k1 H1.
  destruct (a_puts_eq W1 A) as (Ev1 & Ed1 & Er1 & Ew1). set (A1 := a_puts W1 A) in *.
  assert (Hs1 : cv A1 start = cv A start).
  { rewrite Ev1. apply apply_writes_ne. intros Hin. apply log_writes_in in Hin. lia. }
  apply wp_bind. eapply (write_head_spec swtch fuel Hfuel rw Hrw i pid dev); [done|done|by rewrite Er1|by rewrite (refs_cr _ A)|].
  fold l start. cbn zeta. rewrite Hs1. set (h := put_header (cv A start) bs). intros k2 H2.
  set (A2 := a_put start h A1) in *.
  assert (HW : install_writes start bs (cv A2) = map (fun b => (b, cv A b)) bs).
  { cbn [A2 a_put cv]. rewrite Ev1. apply installs_logged; [apply T|apply T]. }
  apply wp_bind. eapply (install_trans_spec swtch fuel Hfuel rw Hrw i pid dev _ A2 _ bs false); [done|done| |].
  { split_and!; cbn; rewrite ?Er1; [done| |]; intros b; rewrite (refs_cr _ A) by done; auto. }
  fold l start. cbn zeta. rewrite HW. set (W2 := map (fun b => (b, cv A b)) bs). intros k3 H3 (Hsz3 & Hmax3 & _).
  destruct (a_installs_eq true W2 A2) as (Ev3 & Ed3 & Ew3). cbn [negb] in *. set (A3 := a_installs true W2 A2) in *.
  assert (Hs3 : cv A3 start = h).
  { rewrite Ev3, apply_writes_ne; [cbn; by rewrite upd_eq|]. unfold W2. rewrite map_map. cbn. rewrite map_id.
    intros Hin. pose proof (tx_away _ _ _ T _ Hin). fold start in H0. lia. }
  apply wp_bind, wp_lmod. rewrite (here_log _ _ _ _ _ _ _ H3). fold l.
  apply (here_relog _ _ _ _ _ _ _ (set_lh_n 0 l)) in H3.
  eapply (write_head_spec swtch fuel Hfuel rw Hrw i pid dev (relog (set_lh_n 0 l) k) A3 _ []); [done|by eapply tx_clear|done|apply Hmax3|].
  change (lg_start (fs_log (k_files (relog (set_lh_n 0 l) k)))) with start. cbn zeta. rewrite Hs3. intros k4 H4.
  eexists. split; [exact H4|]. cbn [a_put cw cd cv]. unfold commit_writes. fold h W1 W2. split_and!.
  - rewrite Ew3. cbn [A2 a_put cw]. rewrite Ew1, <- !app_assoc. done.
  - intros b. rewrite apply_writes_app. cbn [apply_writes foldl]. rewrite foldl_app. cbn [foldl fst snd].
    rewrite Ed3. cbn [A2 a_put cd]. by rewrite Ed1.
  - intros b Hoff. unfold off_log in Hoff. rewrite upd_ne by lia. rewrite Ev3. cbn [A2 a_put cv].
    destruct (decide (b ∈ bs)) as [Hin|Hnin].
    + apply list_elem_of_lookup in Hin as [j Hj]. apply (apply_writes_in _ _ j).
      * unfold W2. rewrite map_map. cbn. rewrite map_id. apply T.
      * unfold W2. rewrite list_lookup_fmap, Hj. done.
    + rewrite apply_writes_ne by (unfold W2; rewrite map_map; cbn; by rewrite map_id).
      rewrite upd_ne by lia. rewrite Ev1. apply apply_writes_ne. intros Hin. apply log_writes_in in Hin.
      pose proof (tx_max _ _ _ T). lia.
  - intros b. change (refs (a_put start (put_header h []) A3) b) with (refs A3 b). pose proof (installs_refs true W2 A2 b) as Hle.
    fold A3 in Hle. rewrite (refs_cr A2 A) in Hle by done. case_decide as Hb; [|lia].
    pose proof (installs_unpin W2 A2 b) as Hlt. fold A3 in Hlt. rewrite (refs_cr A2 A) in Hlt by done.
    ospecialize (Hlt _ _); [unfold W2; rewrite map_map; cbn; by rewrite map_id|by apply Hpin|lia].
  - intros b Hb. apply upd_agree. rewrite Ev3, Ed3. apply writes_agree. destruct Hb as [Hb|Hb]; [left|right].
    + unfold W2. rewrite map_map. cbn. by rewrite map_id.
    + cbn [A2 a_put cv cd]. apply upd_agree. rewrite Ev1, Ed1. apply writes_agree. by right.
Qed.

(** A header block that lists the blocks [bs]. *)
Record lists (start : Z) (d : block) (bs : list Z) : Prop := {
  li_n : header_n d = Z.of_nat (length bs);
  li_bs j b : bs !! j = Some b -> header_block d j = b;
  li_max : (length bs <= 30)%nat;
  li_nodup : NoDup bs;
  li_range b : b ∈ bs -> 0 <= b < 2 ^ 31;
  li_away b : b ∈ bs -> off_log start b
}.

Definition recover_writes (start : Z) (bs : list Z) (d : Z -> block) : list (Z * block) :=
  install_writes start bs d ++ [(start, put_header (d start) [])].

Lemma tx_from_header l l' d bs :
  from_header d l l' -> lg_dev l = dev -> lists (lg_start l) d bs -> tx dev l' bs.
Proof.
  intros F Hdev H. split.
  - by rewrite (fh_dev _ _ _ F).
  - rewrite (fh_n _ _ _ F). apply H.
  - intros j b Hj. rewrite (fh_block _ _ _ F); [by rewrite (li_bs _ _ _ H _ _ Hj)|].
    rewrite (li_n _ _ _ H). apply lookup_lt_Some in Hj. lia.
  - apply H.
  - apply H.
  - apply H.
  - rewrite (fh_start _ _ _ F). apply H.
Qed.

(** A machine that has just booted: nothing is cached, the log is empty. *)
Record booted (start : Z) (d : Z -> block) (k : kernel fsys) : Prop := {
  bo_here : exists w, here k (Cache d d ∅ w) ∅ k;
  bo_dev : lg_dev (fs_log (k_files k)) = dev;
  bo_start : lg_start (fs_log (k_files k)) = start;
  bo_len : length (lh_block (fs_log (k_files k))) = 30%nat
}.

Lemma recover_spec k start d bs :
  booted start d k -> lists start (d start) bs ->
  wp (recover_from_log swtch fuel rw) k (fun _ k' =>
    lh_n (fs_log (k_files k')) = 0 /\
    forall b, d_block (fs_disk (k_files k')) b = apply_writes (recover_writes start bs d) d b).
Proof.
  intros [[w H] Hdev Hst Hlen] HL. set (l := fs_log (k_files k)) in *. set (A := Cache d d ∅ w) in *.
  assert (Hmax : forall b, Z.of_nat (refs A b) + 1 < 2 ^ 32) by (intros b; unfold refs; cbn [A cr]; rewrite lookup_empty; cbn; lia).
  pose proof (li_n _ _ _ HL) as Hn. pose proof (li_max _ _ _ HL) as Hm.
  assert (Hsz : (S (size (cr A)) < NBUF)%nat) by (cbn; rewrite map_size_empty; unfold NBUF; lia).
  unfold recover_from_log. apply wp_bind.
  eapply (read_head_spec swtch fuel Hfuel rw Hrw i pid dev); [exact H|done|done| |lia|apply Hmax|].
  { fold l. rewrite Hst. cbn [A cv]. lia. }
  fold l. rewrite Hst. cbn [A cv]. intros k1 l' F H1. fold A in H1.
  assert (T : tx dev l' bs) by (eapply tx_from_header; [exact F|done|by rewrite Hst]).
  assert (Hs' : lg_start l' = start) by (by rewrite (fh_start _ _ _ F)).
  apply wp_bind. eapply (install_trans_spec swtch fuel Hfuel rw Hrw i pid dev (relog l' k) A _ bs true);
    [exact H1|exact T|split_and!; [lia|exact Hmax|exact Hsz]|].
  change (lg_start (fs_log (k_files (relog l' k)))) with (lg_start l'). rewrite Hs'. cbn [negb A cv]. cbn zeta.
  set (W := install_writes start bs d). fold A. intros k2 H2 (Hsz2 & Hmax2 & _).
  destruct (a_installs_eq false W A) as (Ev & Ed & _). set (B := a_installs false W A) in *.
  apply wp_bind, wp_lmod. rewrite (relog_log _ _ _ _ _ _ _ _ H2).
  apply (here_relog _ _ _ _ _ _ _ (set_lh_n 0 l')) in H2. rewrite relog_relog in H2.
  eapply (write_head_spec swtch fuel Hfuel rw Hrw i pid dev (relog (set_lh_n 0 l') k) B _ []);
    [exact H2|by eapply tx_clear|done|apply Hmax2|].
  change (lg_start (fs_log (k_files (relog (set_lh_n 0 l') k)))) with (lg_start l'). rewrite Hs'. cbn zeta.
  intros k3 H3. split; [by rewrite (relog_log _ _ _ _ _ _ _ _ H3)|].
  intros b. rewrite (ca_disk _ _ _ _ _ (he_cache _ _ _ _ _ _ _ H3)). cbn [a_put cd]. rewrite Ed, Ev.
  unfold recover_writes. rewrite apply_writes_app. fold W. cbn [A cv cd apply_writes foldl fst snd].
  assert (Hs : apply_writes W d start = d start).
  { apply apply_writes_ne. unfold W. rewrite install_writes_fst. intros Hin.
    pose proof (li_away _ _ _ HL _ Hin) as Ho. unfold off_log in Ho. lia. }
  by rewrite Hs.
Qed.

End theorems.

(** ** Crashes *)

(** The disk after a transaction on [bs] that leaves the contents [v]. *)
Definition updated (bs : list Z) (v d : Z -> block) (b : Z) : block := if decide (b ∈ bs) then v b else d b.

(** Recovery finds an empty log. *)
Lemma lists_nil start d : header_n d = 0 -> lists start d [].
Proof.
  intros H. split; try done.
  - cbn. lia.
  - constructor.
  - intros b Hb. by apply not_elem_of_nil in Hb.
  - intros b Hb. by apply not_elem_of_nil in Hb.
Qed.

Lemma lists_put dev start l d bs : (124 <= length d)%nat -> tx dev l bs -> lg_start l = start -> lists start (put_header d bs) bs.
Proof.
  intros Hd T <-. split; try apply T.
  - pose proof (tx_max _ _ _ T). apply header_n_put; lia.
  - intros j b Hj. pose proof (tx_max _ _ _ T).
    apply header_block_put; [done|apply (tx_range _ _ _ T); by eapply list_elem_of_lookup_2|lia].
Qed.

Lemma installed bs v d b :
  NoDup bs -> apply_writes (map (fun b => (b, v b)) bs) d b = updated bs v d b.
Proof.
  intros Hnd. unfold updated. assert (E : map fst (map (fun b => (b, v b)) bs) = bs).
  { rewrite map_map. cbn. apply map_id. }
  case_decide as Hin.
  - apply list_elem_of_lookup in Hin as [j Hj]. apply (apply_writes_in _ _ j); [by rewrite E|].
    by rewrite list_lookup_fmap, Hj.
  - apply apply_writes_ne. by rewrite E.
Qed.

(** Where a crash can leave the disk: before the header is written, while the
    log describes the transaction, or after it has been cleared. *)
Inductive crashed (start : Z) (bs : list Z) (v d d' : Z -> block) (n : nat) : Prop :=
| Before : (n <= length bs)%nat -> d' start = d start -> (forall b, off_log start b -> d' b = d b) -> crashed start bs v d d' n
| Logged : (length bs < n)%nat -> d' start = put_header (v start) bs ->
    (forall j b, bs !! j = Some b -> d' (start + Z.of_nat j + 1) = v b) ->
    (forall b, off_log start b -> b ∉ bs -> d' b = d b) -> crashed start bs v d d' n
| Cleared : (length bs < n)%nat -> d' start = put_header (put_header (v start) bs) [] ->
    (forall b, off_log start b -> d' b = updated bs v d b) -> crashed start bs v d d' n.

(** The writes to the log itself. *)
Lemma logged_only start bs v d ws :
  (length bs <= 30)%nat -> ws `prefix_of` log_writes start bs v ->
  forall b, b <= start \/ start + 30 < b -> apply_writes ws d b = d b.
Proof.
  intros Hlen [rest E] b Ho. apply apply_writes_ne. intros Hb.
  assert (Hb' : b ∈ map fst (log_writes start bs v)) by (rewrite E, map_app; set_solver).
  apply log_writes_in in Hb'. lia.
Qed.

(** The disk once the header is written. *)
Definition with_header (start : Z) (bs : list Z) (v d : Z -> block) : Z -> block :=
  apply_writes (log_writes start bs v ++ [(start, put_header (v start) bs)]) d.

Lemma with_header_off start bs v d b : (length bs <= 30)%nat -> off_log start b -> with_header start bs v d b = d b.
Proof.
  intros Hlen Ho. unfold off_log in Ho. unfold with_header. rewrite apply_writes_app. cbn.
  rewrite upd_ne by lia. apply (logged_only start bs v); [done|done|lia].
Qed.

(** A crash while the blocks are installed. *)
Lemma crash_installing start bs v d ws n :
  (forall b, b ∈ bs -> off_log start b) -> (length bs <= 30)%nat -> (length bs < n)%nat ->
  ws `prefix_of` map (fun b => (b, v b)) bs -> crashed start bs v d (apply_writes ws (with_header start bs v d)) n.
Proof.
  intros Haway Hlen Hn [rest E].
  assert (Hin : forall b, b ∈ map fst ws -> b ∈ bs).
  { intros b Hb. assert (E' : bs = map fst (map (fun b => (b, v b)) bs)) by (rewrite map_map; cbn; by rewrite map_id).
    rewrite E', E, map_app. set_solver. }
  apply Logged; [done| | |].
  - rewrite apply_writes_ne; [unfold with_header; rewrite apply_writes_app; cbn; by rewrite upd_eq|].
    intros Hb%Hin%Haway. unfold off_log in Hb. lia.
  - intros j b Hj. pose proof (lookup_lt_Some _ _ _ Hj). rewrite apply_writes_ne.
    + unfold with_header. rewrite apply_writes_app. cbn. rewrite upd_ne by lia.
      apply (apply_writes_in _ _ j); [apply log_writes_nodup|by apply log_writes_lookup].
    + intros Hb%Hin%Haway. unfold off_log in Hb. lia.
  - intros b Ho Hb. rewrite apply_writes_ne by auto. by apply with_header_off.
Qed.

Lemma crash_after start bs v d ws n :
  (forall b, b ∈ bs -> off_log start b) -> NoDup bs -> (length bs <= 30)%nat -> (length bs < n)%nat ->
  ws `prefix_of` map (fun b => (b, v b)) bs ++ [(start, put_header (put_header (v start) bs) [])] ->
  crashed start bs v d (apply_writes ws (with_header start bs v d)) n.
Proof.
  intros Haway Hnd Hlen Hn [rest E]. apply app_eq_inv in E as [(ws' & E1 & E2)|(ws' & -> & E2)].
  - apply crash_installing; try done. by exists ws'.
  - destruct ws' as [|p ws']; [rewrite app_nil_r; by apply crash_installing|].
    injection E2 as <- E2. symmetry in E2. apply app_eq_nil in E2 as [-> _].
    rewrite apply_writes_app. cbn [apply_writes foldl fst snd]. apply Cleared; [done|by rewrite upd_eq|].
    intros b Ho. rewrite upd_ne by (unfold off_log in Ho; lia).
    fold (apply_writes (map (fun b => (b, v b)) bs) (with_header start bs v d)).
    rewrite installed by done. unfold updated. case_decide; [done|]. by apply with_header_off.
Qed.

Lemma crash_at start bs v d ws :
  (forall b, b ∈ bs -> off_log start b) -> NoDup bs -> (length bs <= 30)%nat ->
  ws `prefix_of` commit_writes start bs v -> crashed start bs v d (apply_writes ws d) (length ws).
Proof.
  intros Haway Hnd Hlen [rest E]. unfold commit_writes in E.
  assert (HLW : length (log_writes start bs v) = length bs) by (unfold log_writes; by rewrite length_imap).
  apply app_eq_inv in E as [(ws' & E1 & E2)|(ws' & -> & E2)].
  - apply Before; [rewrite <- HLW, E1, length_app; lia| |];
      intros; apply (logged_only start bs v); try done; try (by exists ws'); unfold off_log in *; lia.
  - destruct ws' as [|p ws'].
    + rewrite app_nil_r. apply Before; [lia| |];
        intros; apply (logged_only start bs v); try done; unfold off_log in *; lia.
    + injection E2 as <- E2. change (?p :: ws') with ([p] ++ ws').
      rewrite (app_assoc _ [_] ws'), apply_writes_app. apply crash_after; try done; [|by exists rest].
      rewrite !length_app, HLW. cbn. lia.
Qed.
(** All the writes of a commit. *)
Lemma committed start bs v d b :
  NoDup bs -> (length bs <= 30)%nat -> off_log start b -> apply_writes (commit_writes start bs v) d b = updated bs v d b.
Proof.
  intros Hnd Hlen Ho. unfold commit_writes. rewrite cons_middle, app_assoc, apply_writes_app.
  fold (with_header start bs v d). rewrite apply_writes_app. cbn [apply_writes foldl fst snd].
  rewrite upd_ne by (unfold off_log in Ho; lia).
  fold (apply_writes (map (fun b => (b, v b)) bs) (with_header start bs v d)).
  rewrite installed by done. unfold updated. case_decide; [done|]. by apply with_header_off.
Qed.

Section crash.
Context (swtch : M (kernel fsys) unit) (fuel : nat) (Hfuel : can_wait fuel).
Context (rw : nat -> bool -> M (kernel fsys) unit) (Hrw : driver_ok rw).

(** What recovery makes of the disk a crash left. *)
Lemma recover_crashed i pid dev k start l bs v d d' n :
  booted i pid dev start d' k -> tx dev l bs -> lg_start l = start -> crashed start bs v d d' n ->
  (124 <= length (v start))%nat -> header_n (d start) = 0 ->
  wp (recover_from_log swtch fuel rw) k (fun _ k' => forall b, off_log start b ->
    d_block (fs_disk (k_files k')) b = if decide (n <= length bs)%nat then d b else updated bs v d b).
Proof.
  intros B T Hs C Hlen Hclear.
  assert (Hrec : forall bs', lists start (d' start) bs' ->
    (forall b, off_log start b -> apply_writes (recover_writes start bs' d') d' b =
       if decide (n <= length bs)%nat then d b else updated bs v d b) ->
    wp (recover_from_log swtch fuel rw) k (fun _ k' => forall b, off_log start b ->
       d_block (fs_disk (k_files k')) b = if decide (n <= length bs)%nat then d b else updated bs v d b)).
  { intros bs' HL HE. eapply wp_mono; [eapply recover_spec; eauto|]. cbn beta.
    intros _ k' [_ Hd] b Ho. rewrite Hd. by apply HE. }
  destruct C as [Hn H1 H2|Hn H1 H2 H3|Hn H1 H2].
  - apply (Hrec []); [apply lists_nil; by rewrite H1|]. intros b Ho. unfold recover_writes. cbn.
    rewrite decide_True by done. unfold off_log in *. rewrite upd_ne by lia. by apply H2.
  - apply (Hrec bs); [rewrite H1; by eapply lists_put|]. intros b Ho. rewrite decide_False by lia.
    unfold recover_writes. rewrite apply_writes_app. cbn [apply_writes foldl fst snd].
    rewrite upd_ne by (unfold off_log in Ho; lia). fold (apply_writes (install_writes start bs d') d').
    assert (E : install_writes start bs d' = map (fun b => (b, v b)) bs).
    { apply list_eq. intros j. rewrite list_lookup_fmap. destruct (bs !! j) as [c|] eqn:Ej.
      - rewrite (install_writes_lookup _ _ _ _ c Ej). cbn. by rewrite (H2 _ _ Ej).
      - unfold install_writes. by rewrite list_lookup_imap, Ej. }
    rewrite E, installed by apply T. unfold updated. destruct (decide (b ∈ bs)); [done|]. by apply H3.
  - apply (Hrec []); [apply lists_nil; rewrite H1; apply (header_n_put _ []); cbn; [lia|]|].
    { unfold put_header at 1. rewrite put_blocks_length, put32_length. lia. }
    intros b Ho. unfold recover_writes. cbn. rewrite decide_False by lia.
    unfold off_log in *. rewrite upd_ne by lia. by apply H2.
Qed.

(** C1. A transaction is atomic.  [commit] writes the logged blocks home; and
    wherever its sequence of disk writes is cut by a crash, running
    [recover_from_log] on the disk that is left gives, outside the log, all
    of the old contents if the header had not been written, and all of the
    new contents if it had. *)
Theorem commit_crash_safe i pid dev k A bs :
  let l := fs_log (k_files k) in
  here i pid dev k A ∅ k -> tx dev l bs -> bs <> [] -> roomy A bs ->
  (124 <= length (cv A (lg_start l)))%nat -> header_n (cd A (lg_start l)) = 0 ->
  wp (commit swtch fuel rw) k (fun _ k' => exists trace,
    d_writes (fs_disk (k_files k')) = d_writes (fs_disk (k_files k)) ++ trace /\
    lh_n (fs_log (k_files k')) = 0 /\
    (forall b, off_log (lg_start l) b -> d_block (fs_disk (k_files k')) b = updated bs (cv A) (cd A) b) /\
    forall ws i' pid' kb, ws `prefix_of` trace ->
      booted i' pid' dev (lg_start l) (apply_writes ws (cd A)) kb ->
      wp (recover_from_log swtch fuel rw) kb (fun _ kb' => forall b, off_log (lg_start l) b ->
        d_block (fs_disk (k_files kb')) b =
          if decide (length ws <= length bs)%nat then cd A b else updated bs (cv A) (cd A) b)).
Proof.
  intros l H T Hne HR Hlen Hclear. eapply wp_mono; [eapply commit_spec; eauto|]. cbn beta.
  intros _ k' (A' & H' & Ew & Ed & _). fold l in Ew, Ed. set (start := lg_start l) in *.
  exists (commit_writes start bs (cv A)). split_and!.
  - rewrite (ca_writes _ _ _ _ _ (he_cache _ _ _ _ _ _ _ H')), (ca_writes _ _ _ _ _ (he_cache _ _ _ _ _ _ _ H)). done.
  - by rewrite (relog_log _ _ _ _ _ _ _ _ H').
  - intros b Ho. rewrite (ca_disk _ _ _ _ _ (he_cache _ _ _ _ _ _ _ H')), Ed. apply committed; [apply T|apply T|done].
  - intros ws i' pid' kb Hws B. eapply recover_crashed; eauto. apply crash_at; try done; apply T.
Qed.
End crash.

(** ** The operations of a transaction *)

Section ops.
Context (swtch : M (kernel fsys) unit) (fuel : nat) (Hfuel : can_wait fuel).
Context (rw : nat -> bool -> M (kernel fsys) unit) (Hrw : driver_ok rw).
Context (i : nat) (pid dev : Z).
Abbreviation here := (here i pid dev).

(** The log has space for what the running operations may still write. *)
Definition reserved (l : log) : Prop :=
  0 <= lh_n l /\ 0 <= lg_outstanding l /\ lh_n l + lg_outstanding l * MAXOPBLOCKS <= LOGBLOCKS.

Lemma log_block_is k bs q c (Q : Z -> kernel fsys -> Prop) :
  tx dev (fs_log (k_files k)) bs -> bs !! q = Some c -> Q c k -> wp (log_block q) k Q.
Proof. intros T Hq HQ. unfold wp, log_block. by rewrite (tx_bs _ _ _ T _ _ Hq). Qed.

(** The index of a block in the log, or the number of blocks in it. *)
Lemma absorb_spec k bs b (Q : nat -> kernel fsys -> Prop) :
  tx dev (fs_log (k_files k)) bs ->
  (forall q, bs !! q = Some b \/ q = length bs /\ b ∉ bs -> Q q k) ->
  wp (absorb b) k Q.
Proof.
  intros T HQ. unfold absorb. pose proof (tx_max _ _ _ T) as Hm.
  apply (wp_loop_st (fun q k' => k' = k /\ (q <= length bs)%nat /\ b ∉ take q bs) (fun q _ => (length bs - q)%nat)).
  - intros q k' (-> & Hq & Hnin). apply wp_bind, wp_fgets. rewrite (tx_n _ _ _ T).
    destruct (Z.ltb_spec (Z.of_nat q) (Z.of_nat (length bs))) as [Hlt|Hge].
    + destruct (lookup_lt_is_Some_2 bs q) as [c Hc]; [lia|]. apply wp_bind, (log_block_is k bs q c); [done|done|].
      pose proof (tx_range _ _ _ T c (list_elem_of_lookup_2 _ _ _ Hc)). rewrite u32_id by lia.
      destruct (Z.eqb_spec c b) as [->|Hne]; apply wp_ret; [apply HQ; by left|].
      split; [|lia]. split_and!; [done|lia|]. rewrite (take_S_r _ _ _ Hc), elem_of_app, list_elem_of_singleton. naive_solver.
    + apply wp_ret, HQ. right. assert (q = length bs) as -> by lia. by rewrite take_ge in Hnin.
  - split_and!; [done|lia|]. rewrite take_0. apply not_elem_of_nil.
  - change (Z.to_nat LOGBLOCKS) with 30%nat. lia.
Qed.

Definition logged (bs : list Z) (b : Z) : list Z := if decide (b ∈ bs) then bs else bs ++ [b].

Lemma tx_log l bs b :
  tx dev l bs -> b ∉ bs -> (length bs < 30)%nat -> length (lh_block l) = 30%nat -> 0 <= b < 2 ^ 31 -> off_log (lg_start l) b ->
  tx dev (set_lh_n (lh_n l + 1) (set_lh_block (<[length bs := b]> (lh_block l)) l)) (bs ++ [b]).
Proof.
  intros T Hb Hn Hl Hr Ho. split; cbn.
  - apply T.
  - rewrite (tx_n _ _ _ T), length_app. cbn. lia.
  - intros q c [Hq|[Hq Hc]]%lookup_app_Some.
    + rewrite list_lookup_insert_ne by (apply lookup_lt_Some in Hq; lia). by apply (tx_bs _ _ _ T).
    + apply list_lookup_singleton_Some in Hc as [Hc <-]. replace q with (length bs) by lia.
      apply list_lookup_insert_eq. lia.
  - rewrite length_app. cbn. lia.
  - apply NoDup_app. split_and!; [apply T| |apply NoDup_singleton]. intros c Hc ->%list_elem_of_singleton. done.
  - intros c [Hc| ->%list_elem_of_singleton]%elem_of_app; [by apply (tx_range _ _ _ T)|done].
  - intros c [Hc| ->%list_elem_of_singleton]%elem_of_app; [by apply (tx_away _ _ _ T)|done].
Qed.

Lemma wp_set_log_block q b k (Q : unit -> kernel fsys -> Prop) :
  (q < length (lh_block (fs_log (k_files k))))%nat ->
  (let l := fs_log (k_files k) in Q tt (relog (set_lh_block (<[q := b]> (lh_block l)) l) k)) ->
  wp (set_log_block q b) k Q.
Proof.
  intros Hq HQ. unfold wp, set_log_block. destruct (Nat.ltb_spec q (length (lh_block (fs_log (k_files k))))); [|lia].
  exact HQ.
Qed.

(** Setting the log and releasing the only lock. *)
Lemma unlocked lk k0 l l1 k A L :
  host i pid k0 -> woke (relog l1 (set_held [lk] k0)) k -> same_rest (set_fs_log l1 (k_files k0)) (k_files k) ->
  caches dev pid (k_files k) A L -> here (relog l k0) A L (set_held [] (relog l k)).
Proof.
  intros Hh W [] C. destruct Hh as [Hc Hl Hheld Hself].
  assert (W' : woke (relog l k0) (set_held [] (relog l k))).
  { destruct W as [Wm Wn Wi Wc Wt Wl Wp]. split; try done. cbn. rewrite Wm. rewrite <- Hheld. by destruct k0 as [[]]. }
  split; [|done|by split|by destruct C]. eapply woke_host; [exact W'|]. by split.
Qed.

Lemma relog_same k : relog (fs_log (k_files k)) k = k.
Proof. by destruct k as [? ? ? ? ? ? []]. Qed.

(** The log of the same transaction. *)
Definition same_op (l l' : log) : Prop :=
  lg_start l' = lg_start l /\ lg_outstanding l' = lg_outstanding l /\ lg_committing l' = lg_committing l /\
  length (lh_block l') = length (lh_block l).

Lemma log_write_spec k A L b j bs :
  let l := fs_log (k_files k) in
  here k A L k -> L !! b = Some j -> tx dev l bs -> (length bs < 30)%nat -> 1 <= lg_outstanding l ->
  length (lh_block l) = 30%nat -> 0 <= b < 2 ^ 31 -> off_log (lg_start l) b -> Z.of_nat (refs A b) + 1 < 2 ^ 32 ->
  wp (log_write j) k (fun _ k' => exists l',
    here (relog l' k) (if decide (b ∈ bs) then A else a_take b A) L k' /\
    tx dev (fs_log (k_files k')) (logged bs b) /\ same_op l l').
Proof.
  intros l H HL T Hn Hout Hlen Hb Ho Hmax. pose proof (he_host _ _ _ _ _ _ _ H) as Hh.
  unfold log_write. apply wp_bind, acquire_first; [apply Hh|]. set (k1 := set_held [LogLock] k).
  apply wp_bind, wp_fgets. change (fs_log (k_files k1)) with l. unfold id. rewrite (tx_n _ _ _ T).
  change LOGBLOCKS with 30. destruct (Z.leb_spec 30 (Z.of_nat (length bs))); [lia|].
  destruct (Z.ltb_spec (lg_outstanding l) 1); [lia|].
  destruct (mine_buf _ _ _ _ _ _ _ (he_cache _ _ _ _ _ _ _ H) HL) as (x & (Hx & _ & Hxb) & _).
  apply wp_bind, (wp_getb j x); [done|]. rewrite Hxb.
  apply wp_bind, (absorb_spec k1 bs b); [done|]. intros q Hq.
  assert (Hq' : (q < 30)%nat) by (destruct Hq as [Hq%lookup_lt_Some|[-> _]]; lia).
  apply wp_bind, wp_set_log_block; [change (fs_log (k_files k1)) with l; lia|].
  cbn zeta. change (fs_log (k_files k1)) with l. rewrite i32_id by lia.
  apply wp_bind, wp_fgets. cbn [fs_log k_files relog set_k_files set_fs_log lh_n set_lh_block]. rewrite (tx_n _ _ _ T).
  unfold logged. destruct Hq as [Hq|[-> Hnin]].
  - pose proof (lookup_lt_Some _ _ _ Hq). destruct (Z.eqb_spec (Z.of_nat q) (Z.of_nat (length bs))); [lia|].
    apply wp_bind, wp_ret, release_only; [done|]. rewrite decide_True by (by eapply list_elem_of_lookup_2).
    rewrite decide_True by (by eapply list_elem_of_lookup_2). exists l.
    rewrite (list_insert_id (lh_block l)) by (by apply (tx_bs _ _ _ T)).
    replace (set_lh_block (lh_block l) l) with l by (by destruct l). split_and!; [|done|done].
    apply (unlocked LogLock k l l k1); [done| |by split|apply H].
    replace (relog l _) with k1 by (symmetry; apply (relog_same k1)). apply woke_refl.
  - rewrite Z.eqb_refl, !decide_False by done. set (l1 := set_lh_block _ l).
    set (k2 := relog l1 k1). apply wp_bind, wp_bind.
    eapply wp_mono; [apply (bpin_spec pid dev b j k2 A L); [|by destruct (he_cache _ _ _ _ _ _ _ H)|done|done]|].
    { cbn. intros [?|?]%elem_of_cons; [done|by eapply not_elem_of_nil]. }
    cbn beta. intros _ k3 (W & R & C). apply wp_lmod. rewrite (sr_log _ _ R). change (fs_log (k_files k2)) with l1.
    set (l2 := set_lh_n (lh_n l1 + 1) l1).
    apply release_only; [change (mheld (k_m k3) = [LogLock]); by rewrite (wk_m _ _ W)|]. exists l2.
    split_and!; [|by apply (tx_log l bs b)|unfold same_op; cbn; by rewrite length_insert].
    by eapply (unlocked LogLock k l2 l1 k3).
Qed.

(** [log_write] records a block in the running transaction.  A block that
    is already in the log is absorbed: the log and the references do not
    change.  A new block is appended and its buffer pinned, so that it stays
    in the cache until the commit. *)
Theorem log_write_records k A L b j bs :
  let l := fs_log (k_files k) in
  here k A L k -> L !! b = Some j -> tx dev l bs -> (length bs < 30)%nat -> 1 <= lg_outstanding l ->
  length (lh_block l) = 30%nat -> 0 <= b < 2 ^ 31 -> off_log (lg_start l) b -> Z.of_nat (refs A b) + 1 < 2 ^ 32 ->
  wp (log_write j) k (fun _ k' => exists l',
    here (relog l' k) (if decide (b ∈ bs) then A else a_take b A) L k' /\
    tx dev (fs_log (k_files k')) (logged bs b)).
Proof.
  intros l H HL T Hn Hout Hlen Hb Ho Hmax. eapply wp_mono; [by apply (log_write_spec k A L b j bs)|].
  cbn beta. intros _ k' (l' & H' & T' & _). by exists l'.
Qed.

(** A full log, or no running operation, is a panic. *)
Lemma log_write_panics k j :
  let l := fs_log (k_files k) in
  host i pid k -> 30 <= lh_n l \/ lg_outstanding l < 1 ->
  wpe (log_write j) k (fun _ _ => False) (fun e =>
    e = if decide (30 <= lh_n l) then "too big transaction"%string else "log_write outside transaction"%string).
Proof.
  intros l Hh Hbad. unfold log_write.
  eapply (wpe_then _ _ _ (fun _ k' => k' = set_held [LogLock] k)); [apply acquire_first; [apply Hh|done]|].
  intros _ k' ->. apply wpe_bind, wpe_wp, wp_fgets. change (fs_log (k_files (set_held _ k))) with l. unfold id.
  change LOGBLOCKS with 30. destruct (Z.leb_spec 30 (lh_n l)).
  - apply wpe_panic. by rewrite decide_True.
  - destruct (Z.ltb_spec (lg_outstanding l) 1); [|lia]. apply wpe_panic. by rewrite decide_False by lia.
Qed.

(** [begin_op] admits an operation at once when no commit is running and
    the log has room for [MAXOPBLOCKS] more blocks beyond those reserved; the
    log then holds all reservations. *)
Theorem begin_op_reserves k :
  let l := fs_log (k_files k) in
  host i pid k -> lg_committing l = 0 -> 0 <= lh_n l -> 0 <= lg_outstanding l ->
  lh_n l + (lg_outstanding l + 1) * MAXOPBLOCKS <= LOGBLOCKS ->
  wp (log_begin_op swtch fuel) k (fun _ k' =>
    k' = relog (set_lg_outstanding (lg_outstanding l + 1) l) k /\ reserved (fs_log (k_files k'))).
Proof.
  intros l Hh Hc Hn Hout Hroom. unfold log_begin_op. apply wp_bind, acquire_first; [apply Hh|].
  destruct fuel as [|f]; [by apply Nat.lt_irrefl in Hfuel|]. cbn [loop]. apply wp_bind, wp_bind, wp_fgets.
  change (fs_log (k_files (set_held _ k))) with l. unfold id. rewrite Hc. cbn [negb Z.eqb].
  destruct (Z.ltb_spec LOGBLOCKS (lh_n l + (lg_outstanding l + 1) * MAXOPBLOCKS)); [lia|].
  apply wp_bind, wp_lmod, wp_bind, release_only; [done|]. apply wp_ret, wp_ret.
  change (fs_log (k_files (set_held _ k))) with l. unfold relog. rewrite set_held_files by apply Hh.
  split; [done|]. unfold reserved. cbn. lia.
Qed.

(** Waking the processes that wait for the log, and releasing its lock. *)
Lemma wake_release k k0 (Q : unit -> kernel fsys -> Prop) :
  host i pid k0 -> k = set_held [LogLock] k0 ->
  (forall k', woke k0 k' -> k_files k' = k_files k0 -> Q tt k') ->
  wp (wakeup LogChan >>> lock_release LogLock) k Q.
Proof.
  intros [Hc Hl Hh Hself] -> HQ. apply wp_bind, wakeup_spec; [done| |].
  { intros q _. cbn. intros [?|?]%elem_of_cons; [done|by eapply not_elem_of_nil]. }
  apply release_only; [done|]. apply HQ; [|done]. split; try done.
  - cbn. rewrite <- Hh. by destruct k0 as [[]].
  - cbn. by rewrite length_imap.
  - intros q p Hp. cbn. rewrite list_lookup_imap, Hp. cbn. eexists. split; [done|]. unfold woken.
    rewrite Hc. destruct (decide (Some i = Some q)); [by left|].
    destruct (decide _) as [[? ?]|]; [by right|by left].
Qed.

Lemma set_lh_n_id l : lh_n l = 0 -> set_lh_n 0 l = l.
Proof. destruct l. cbn. by intros ->. Qed.

(** The last [end_op] of a transaction, which may be empty. *)
Lemma end_op_spec k A bs (Q : unit -> kernel fsys -> Prop) :
  let l := fs_log (k_files k) in
  here k A ∅ k -> tx dev l bs -> roomy A bs -> lg_outstanding l = 1 -> lg_committing l = 0 ->
  (forall A' k', here (relog (set_lh_n 0 (set_lg_outstanding 0 l)) k) A' ∅ k' ->
     (forall b, off_log (lg_start l) b -> cd A' b = updated bs (cv A) (cd A) b /\ cv A' b = cv A b) ->
     (forall b, (refs A' b + (if decide (b ∈ bs) then 1 else 0) <= refs A b)%nat) -> (forall b, b ∈ bs \/ cv A b = cd A b -> cv A' b = cd A' b) -> Q tt k') ->
  wp (log_end_op swtch fuel rw) k Q.
Proof.
  intros l H T HR Hout Hcom HQ. pose proof (he_host _ _ _ _ _ _ _ H) as Hh. unfold log_end_op.
  apply wp_bind, acquire_first; [apply Hh|]. apply wp_bind, wp_lmod, wp_bind, wp_fgets.
  change (fs_log (k_files (set_held [LogLock] k))) with l. unfold id.
  cbn [fs_log k_files relog set_k_files set_fs_log lg_committing lg_outstanding set_lg_outstanding]. rewrite Hcom, Hout. cbn [negb Z.eqb Z.sub Z.add Z.opp Z.pos_sub].
  apply wp_bind, wp_bind, wp_lmod, wp_ret. cbn [fs_log k_files set_k_files set_fs_log]. set (l1 := set_lg_committing 1 _).
  apply wp_bind, release_only; [done|]. set (k1 := set_held [] _).
  assert (E1 : k1 = relog l1 k).
  { unfold k1, l1, l. destruct Hh as [_ _ Hheld _]. destruct k as [[m f h] ? ? ? ? ? []]. cbn in *. by subst h. }
  rewrite E1. assert (T1 : tx dev l1 bs) by (destruct T; by split). pose proof (here_relog _ _ _ _ _ _ _ l1 H) as H1.
  assert (Hend : forall A' k2, here (relog (set_lh_n 0 l1) k) A' ∅ k2 ->
     (forall b, off_log (lg_start l) b -> cd A' b = updated bs (cv A) (cd A) b /\ cv A' b = cv A b) ->
     (forall b, (refs A' b + (if decide (b ∈ bs) then 1 else 0) <= refs A b)%nat) -> (forall b, b ∈ bs \/ cv A b = cd A b -> cv A' b = cd A' b) ->
     wp (lock_acquire LogLock >>> lmod (set_lg_committing 0) >>> wakeup LogChan >>> lock_release LogLock) k2 Q).
  { intros A' k2 H2 Hd Hr Hnil. pose proof (he_host _ _ _ _ _ _ _ H2) as Hh2.
    apply wp_bind, acquire_first; [apply Hh2|]. apply wp_bind, wp_lmod.
    change (fs_log (k_files (set_held _ k2))) with (fs_log (k_files k2)). rewrite (relog_log _ _ _ _ _ _ _ _ H2). set (l3 := set_lg_committing 0 _).
    apply (wake_release _ (relog l3 k2)); [eapply woke_host; [apply woke_files|done]|done|].
    intros k3 W3 E3. apply (HQ A'); try done. assert (El3 : l3 = set_lh_n 0 (set_lg_outstanding 0 l)) by (unfold l3, l1; clear -Hcom; unfold l in *; destruct (fs_log (k_files k)); cbn in *; by subst).
    rewrite <- El3. apply (here_relog _ _ _ _ _ _ _ l3) in H2. rewrite relog_relog in H2. destruct H2 as [G1 G2 G3 G4]. split.
    - by eapply woke_host.
    - by eapply woke_trans.
    - by rewrite E3.
    - by rewrite E3. }
  apply wp_bind. destruct (decide (bs = [])) as [->|Hne].
  - unfold commit. apply wp_bind, wp_fgets. change (fs_log (k_files (relog l1 k))) with l1. rewrite (tx_n _ _ _ T1). cbn [length Z.of_nat Z.eqb].
    apply wp_ret, (Hend A); try done; [|intros b; rewrite decide_False by apply not_elem_of_nil; lia|intros b [Hb|Hb]; [by apply not_elem_of_nil in Hb|done]].
    rewrite set_lh_n_id by apply (tx_n _ _ _ T1). exact H1.
  - eapply wp_mono; [apply (commit_spec swtch fuel Hfuel rw Hrw i pid dev (relog l1 k) A bs); try done; by apply here_now in H1|].
    cbn beta zeta. intros _ k2 (A' & H2 & _ & Ed & Ev & Hr & Hag). cbn [fs_log k_files relog set_k_files set_fs_log] in Ed, H2, Ev.
    apply (Hend A'); try done. intros b Ho. split; [|by apply Ev]. rewrite Ed. change (lg_start l1) with (lg_start l). apply committed; [apply T|apply T|done].
Qed.

(** The last [end_op] of a transaction commits it: the logged blocks are
    on disk in their places, blocks outside the log and the transaction are
    untouched, and the log is empty and open again. *)
Theorem end_op_commits k A bs :
  let l := fs_log (k_files k) in
  here k A ∅ k -> tx dev l bs -> bs <> [] -> roomy A bs -> lg_outstanding l = 1 -> lg_committing l = 0 ->
  wp (log_end_op swtch fuel rw) k (fun _ k' =>
    lh_n (fs_log (k_files k')) = 0 /\ lg_outstanding (fs_log (k_files k')) = 0 /\ lg_committing (fs_log (k_files k')) = 0 /\
    forall b, off_log (lg_start l) b -> d_block (fs_disk (k_files k')) b = updated bs (cv A) (cd A) b).
Proof.
  intros l H T Hne HR Hout Hcom. apply (end_op_spec k A bs); try done. intros A' k' H' Hd _ _.
  rewrite (relog_log _ _ _ _ _ _ _ _ H'). split_and!; [done|done|done|].
  intros b Ho. rewrite (ca_disk _ _ _ _ _ (he_cache _ _ _ _ _ _ _ H')). by apply Hd.
Qed.

(** [initlog] replays the log with the in-memory header, which is empty after
    a boot, instead of reading the header from disk. *)
Lemma initlog_skips_recovery k :
  lh_n (fs_log (k_files k)) = 0 ->
  wp (initlog swtch fuel rw dev) k (fun _ k' => fs_disk (k_files k') = fs_disk (k_files k)).
Proof.
  intros Hn. unfold initlog. change (Z.of_nat BSIZE <=? sizeof_logheader) with false. cbn [negb].
  apply wp_bind, wp_fgets, wp_bind, wp_lmod. unfold install_trans.
  apply (for_log_spec _ (fun q k' => fs_disk (k_files k') = fs_disk (k_files k) /\ lh_n (fs_log (k_files k')) = 0) 0).
  - lia.
  - by intros q k' [_ ?].
  - lia.
  - done.
  - by intros k' [? _].
Qed.

(** C16. [initlog] does not recover.  If the machine stops while [commit]
    installs the blocks of a transaction, with [m] of them written, then the
    disk after the reboot's [initlog] still has the [m] new blocks and the
    old contents of the others, although the transaction's header was on disk. *)
Theorem initlog_leaves_torn k start bs v d m :
  NoDup bs -> (length bs <= 30)%nat -> (forall b, b ∈ bs -> off_log start b) -> (m <= length bs)%nat ->
  d_block (fs_disk (k_files k)) = apply_writes (take (length bs + 1 + m) (commit_writes start bs v)) d ->
  lh_n (fs_log (k_files k)) = 0 ->
  wp (initlog swtch fuel rw dev) k (fun _ k' => forall q b, bs !! q = Some b ->
    d_block (fs_disk (k_files k')) b = if (q <? m)%nat then v b else d b).
Proof.
  intros Hnd Hlen Haway Hm Hd Hn. eapply wp_mono; [by apply initlog_skips_recovery|]. cbn beta.
  intros _ k' -> q b Hq. rewrite Hd. unfold commit_writes. rewrite cons_middle, app_assoc.
  set (hd := log_writes start bs v ++ _). assert (Hhd : length hd = (length bs + 1)%nat).
  { unfold hd, log_writes. by rewrite length_app, length_imap. }
  rewrite take_app_ge, Hhd, Nat.add_sub' by lia. rewrite apply_writes_app. change (apply_writes hd d) with (with_header start bs v d).
  rewrite take_app_le by (rewrite length_map; lia). rewrite firstn_map.
  assert (Hnd' : NoDup (take m bs)) by (rewrite <- (take_drop m bs) in Hnd; by apply NoDup_app in Hnd as [? _]).
  rewrite installed by done.
  unfold updated. destruct (Nat.ltb_spec q m) as [Hlt|Hge].
  - rewrite decide_True; [done|]. apply list_elem_of_lookup. exists q. by rewrite lookup_take_lt.
  - rewrite decide_False.
    + apply with_header_off; [done|]. apply Haway. by eapply list_elem_of_lookup_2.
    + intros (q' & Hq')%list_elem_of_lookup. apply lookup_take_Some in Hq' as [Hq' ?].
      pose proof (NoDup_lookup _ _ _ _ Hnd Hq Hq'). lia.
Qed.
End ops.
