(* ===== verification/FsBoot.v ===== *)
(** A concrete file system for the witnesses: an ideal disk, and the state
    that [binit] reaches on it. *)

From S2P Require Import Prelude.
From S2P Require Import Memory.
From S2P Require Import Spinlock.
From S2P Require Import Riscv.
From S2P Require Import Kalloc.
From S2P Require Import Proc.
From S2P Require Import ProcCtl.
From S2P Require Import FsState.
From S2P Require Import Bio.
From S2P Require Import BioSpec.
From S2P Require Import Log.
From S2P Require Import LogSpec.
From S2P Require Import LogTheorems.

(** A disk that completes every request at once. *)
Definition ideal_rw (b : nat) (w : bool) : M (kernel fsys) unit := fun k =>
  match bc_buf (fs_bc (k_files k)) !! b with
  | Some x => Ok (tt, set_k_files (transferred b x w (k_files k)) k)
  | None => Crash
  end.

Lemma ideal_ok : driver_ok ideal_rw.
Proof. intros i pid b w k x _ Hx _. unfold wp, ideal_rw. rewrite Hx. split; [apply woke_files|done]. Qed.

Definition no_switch : M (kernel fsys) unit := ret tt.

Definition zeros : block := replicate BSIZE 0.
Definition ones : block := replicate BSIZE 1.

Definition running_proc : proc :=
  Proc RUNNING NoChan 0 0 1 0 0 None 0 0 0 0 (Context_ 0 0 (replicate 12 0)) (replicate NOFILE 0) 0 (replicate 16 0).

(** The file system before [binit]: a blank disk, the log at block 2 of
    device 1, one operation running. *)
Definition blank (d : Z -> block) (l : log) : fsys :=
  Fsys (Disk d []) (fun _ => Sleeplock 0 0) (Bcache (replicate NBUF (Buf 0 0 0 0 zeros)) (fun _ => 0%nat) (fun _ => 0%nat))
    l (Superblock 0 0 0 0 31 2 33 34) [] [] ∅ (Console (replicate 128 0) 0 0 0) (Uart [] 0).

Definition blank_log : log := Log 2 1 0 1 0 (replicate 30 0).

Definition blank_kernel (d : Z -> block) (l : log) : kernel fsys :=
  Kernel (Machine (fun _ => 0) 0 []) (replicate NPROC running_proc) 2 (Some 0%nat) (Some 0%nat) 0 (blank d l).

Lemma blank_host d l : host 0 1 (blank_kernel d l).
Proof. split; try done. by exists running_proc. Qed.

Lemma wp_exists {S A} (m : M S A) s (Q : A -> S -> Prop) : wp m s Q -> exists a s', Q a s'.
Proof. unfold wp. destruct (m s) as [[a s']| | | |]; [eauto|done..]. Qed.

(** Nothing is cached after [binit]. *)
Lemma after_binit k0 d0 :
  host 0 1 k0 -> bc_buf (fs_bc (k_files k0)) = replicate NBUF (Buf 0 0 0 0 d0) ->
  exists k, let d := d_block (fs_disk (k_files k0)) in
    here 0 1 1 k (Cache d d ∅ (d_writes (fs_disk (k_files k0)))) ∅ k /\ fs_log (k_files k) = fs_log (k_files k0).
Proof.
  intros Hh Hb. assert (Hne : 1 <> 0) by lia. pose proof (binit_spec 1 1 k0 d0 Hne Hb) as Hw.
  apply wp_exists in Hw as (u & k & W & R & C). exists k. split; [|exact (sr_log _ _ R)].
  split; [exact (woke_host _ _ _ _ W Hh)|apply woke_refl|apply same_rest_refl|exact C].
Qed.

Lemma fs_ready d l : exists k, here 0 1 1 k (Cache d d ∅ []) ∅ k /\ fs_log (k_files k) = l.
Proof. exact (after_binit (blank_kernel d l) zeros (blank_host d l) eq_refl). Qed.

Lemma fs_booted d : exists k, booted 0 1 1 2 d k.
Proof.
  destruct (fs_ready d blank_log) as (k & H & Hl). exists k. split; [by exists []|by rewrite Hl..].
Qed.

(** Block 100 is locked by the running process. *)
Lemma fs_locked d l : exists k j, here 0 1 1 k (a_take 100 (Cache d d ∅ [])) {[100 := j]} k /\ fs_log (k_files k) = l.
Proof.
  destruct (fs_ready d l) as (k0 & H0 & Hl).
  assert (Hw : wp (bread no_switch 1 ideal_rw 1 100) k0 (fun j k =>
    here 0 1 1 k0 (a_take 100 (Cache d d ∅ [])) (<[100 := j]> ∅) k)).
  { eapply (here_bread no_switch 1 (Nat.lt_0_succ 0) ideal_rw ideal_ok 0 1 1); [exact H0|apply lookup_empty| | |].
    - right. cbn. rewrite map_size_empty. unfold NBUF. lia.
    - unfold refs. cbn [cr]. rewrite lookup_empty. cbn. lia.
    - intros j k H. exact H. }
  apply wp_exists in Hw as (j & k & H). exists k, j. split; [by eapply here_now|]. rewrite <- Hl. by eapply here_log.
Qed.

(** Block 100 holds ones in the cache and is pinned; the log lists it. *)
Definition dirty_log : log := Log 2 1 0 1 1 (100 :: replicate 29 0).
Definition dirty : cache :=
  a_drop 100 (a_take 100 (a_set 100 ones (a_take 100 (Cache (fun _ => zeros) (fun _ => zeros) ∅ [])))).

Lemma fs_dirty : exists k, here 0 1 1 k dirty ∅ k /\ fs_log (k_files k) = dirty_log.
Proof.
  destruct (fs_locked (fun _ => zeros) blank_log) as (k0 & j & H0 & _).
  assert (HL : ({[100 := j]} : gmap Z nat) !! 100 = Some j) by apply lookup_singleton_eq.
  set (A := a_set 100 ones (a_take 100 (Cache (fun _ => zeros) (fun _ => zeros) ∅ []))).
  assert (Hw : wp (setb j (set_b_data ones) >>> bpin j >>> brelse j) k0 (fun _ k => here 0 1 1 k0 dirty ∅ k)).
  { apply wp_bind. eapply (here_set 0 1 1 _ _ _ _ 100 j _ (fun _ => ones)); [exact H0|exact HL|done|]. intros k1 H1.
    fold A in H1. apply wp_bind.
    eapply (here_step 0 1 1 k0 A _ k1 _ (fun _ fs => caches 1 1 fs (a_take 100 A) {[100 := j]})); [exact H1| |].
    - apply bpin_spec; [|apply H1|exact HL|by vm_compute]. rewrite (ho_held _ _ _ (he_host _ _ _ _ _ _ _ H1)).
      apply not_elem_of_nil.
    - intros u k2 Hh W R C. eapply (here_brelse 1 (Nat.lt_0_succ 0) ideal_rw ideal_ok 0 1 1 k0 (a_take 100 A) _ k2 100 j); [by split|exact HL| |].
      + intros E. exfalso. revert E. by vm_compute.
      + intros k3 H3. by rewrite delete_singleton_eq in H3. }
  apply wp_exists in Hw as (u & k & H). exists (relog dirty_log k). split; [|done].
  eapply here_now, here_relog, H.
Qed.

Lemma dirty_tx : tx 1 dirty_log [100].
Proof.
  split; try done.
  - intros j b Hj. apply list_lookup_singleton_Some in Hj as [-> <-]. done.
  - cbn. lia.
  - apply NoDup_singleton.
  - intros b ->%list_elem_of_singleton. lia.
  - intros b ->%list_elem_of_singleton. cbn. lia.
Qed.

Lemma dirty_roomy : roomy dirty [100].
Proof.
  split_and!.
  - apply (bool_decide_unpack _). by vm_compute.
  - intros b. destruct (decide (b = 100)) as [->|Hne]; [by vm_compute|].
    unfold dirty. rewrite refs_drop_ne, refs_take_ne by done.
    rewrite (refs_cr _ (a_take 100 (Cache (fun _ => zeros) (fun _ => zeros) ∅ []))) by done.
    rewrite refs_take_ne by done. unfold refs. cbn [cr]. rewrite lookup_empty. cbn. lia.
  - intros b ->%list_elem_of_singleton. apply (bool_decide_unpack _). by vm_compute.
Qed.

(** Pinning a block that is not in use. *)
Lemma fs_pin k A b :
  here 0 1 1 k A ∅ k -> refs A b = 0%nat -> (size (cr A) < NBUF)%nat ->
  exists k' A', here 0 1 1 k' A' ∅ k' /\ fs_log (k_files k') = fs_log (k_files k) /\ cr A' = <[b := 1%nat]> (cr A).
Proof.
  intros H Hb Hsz. pose proof (caches_refs _ _ _ _ _ (he_cache _ _ _ _ _ _ _ H)) as Hok.
  assert (Hw : wp (j <- bread no_switch 1 ideal_rw 1 b ;; bpin j >>> brelse j) k (fun _ k' =>
    here 0 1 1 k (a_drop b (a_take b (a_take b A))) ∅ k')).
  { apply wp_bind. eapply (here_bread no_switch 1 (Nat.lt_0_succ 0) ideal_rw ideal_ok 0 1 1); [exact H|apply lookup_empty|by right|rewrite Hb; lia|].
    intros j k1 H1. assert (HL : (<[b := j]> ∅ : gmap Z nat) !! b = Some j) by apply lookup_insert_eq. apply wp_bind.
    eapply (here_step 0 1 1 k _ _ k1 _ (fun _ fs => caches 1 1 fs (a_take b (a_take b A)) (<[b := j]> ∅))); [exact H1| |].
    - apply bpin_spec; [|apply H1|exact HL|rewrite refs_take, Hb; lia].
      rewrite (ho_held _ _ _ (he_host _ _ _ _ _ _ _ H1)). apply not_elem_of_nil.
    - intros u k2 Hh W R C. eapply (here_brelse 1 (Nat.lt_0_succ 0) ideal_rw ideal_ok 0 1 1 k (a_take b (a_take b A)) _ k2 b j); [by split|exact HL| |].
      + rewrite !refs_take. lia.
      + intros k3 H3. by rewrite delete_insert_eq, delete_empty in H3. }
  apply wp_exists in Hw as (u & k' & H'). eexists k', _. split_and!; [by eapply here_now|by eapply here_log|].
  rewrite (cr_drop_take (a_take b A)); [cbn; by rewrite Hb|by apply refs_ok_take|done].
Qed.

Lemma fs_pins bs : NoDup bs -> (length bs <= NBUF)%nat ->
  exists k A, here 0 1 1 k A ∅ k /\ fs_log (k_files k) = blank_log /\ size (cr A) = length bs /\
    forall b, refs A b = if decide (b ∈ bs) then 1%nat else 0%nat.
Proof.
  induction bs as [|b bs IH]; intros Hd Hl.
  - destruct (fs_ready (fun _ => zeros) blank_log) as (k & H & E). eexists k, _. split_and!; [exact H|exact E|apply map_size_empty|].
    intros b. rewrite decide_False by apply not_elem_of_nil. unfold refs. cbn [cr]. by rewrite lookup_empty.
  - apply NoDup_cons in Hd as [Hb Hd]. cbn in Hl. destruct (IH Hd ltac:(lia)) as (k & A & H & E & Hs & Hr).
    assert (H0 : refs A b = 0%nat) by (rewrite Hr; by rewrite decide_False).
    destruct (fs_pin k A b H H0 ltac:(lia)) as (k' & A' & H' & E' & Hc).
    exists k', A'. split_and!; [done|congruence| |].
    + rewrite Hc, map_size_insert_None; [cbn; lia|]. unfold refs in H0.
      destruct (cr A !! b) as [n|] eqn:En; [|done].
      pose proof (caches_refs _ _ _ _ _ (he_cache _ _ _ _ _ _ _ H) b n En). cbn in H0. lia.
    + intros c. unfold refs. rewrite Hc. destruct (decide (c = b)) as [->|Hne].
      * rewrite lookup_insert_eq, decide_True by (apply elem_of_cons; by left). done.
      * rewrite lookup_insert_ne by done. change (refs A c = if decide (c ∈ b :: bs) then 1%nat else 0%nat).
        rewrite Hr. apply decide_ext. rewrite elem_of_cons. naive_solver.
Qed.

(** All buffers are pinned, for the blocks of a log that is full. *)
Definition full_blocks : list Z := map (fun j => Z.of_nat j + 100) (seq 0 30).
Definition full_log : log := Log 2 1 0 1 30 full_blocks.

Lemma full_tx : tx 1 full_log full_blocks.
Proof.
  split; try done.
  - apply (bool_decide_unpack _). by vm_compute.
  - intros b (j & -> & ?%elem_of_seq)%list_elem_of_fmap. lia.
  - intros b (j & -> & ?%elem_of_seq)%list_elem_of_fmap. cbn. lia.
Qed.

Lemma fs_full : exists k A, here 0 1 1 k A ∅ k /\ fs_log (k_files k) = full_log /\
  forall b, refs A b = if decide (b ∈ full_blocks) then 1%nat else 0%nat.
Proof.
  destruct (fs_pins full_blocks) as (k & A & H & _ & _ & Hr); [apply full_tx|apply le_n|].
  exists (relog full_log k), A. split_and!; [by eapply here_now, here_relog|done|done].
Qed.
