(* ===== verification/Pipe.v ===== *)
(** Pipes and the file table: pipe.c, and filealloc, filedup and fileclose of
    file.c.

    A pipe is the record that lies in the page [kalloc] gave it, under the
    address of the page; a file pointer is the index in [ftable.file] plus
    one, so that 0 is the null pointer. *)

From S2P Require Import Prelude.
From S2P Require Import Spinlock.
From S2P Require Import Riscv.
From S2P Require Import Kalloc.
From S2P Require Import UserMem.
From S2P Require Import Proc.
From S2P Require Import FsState.
From S2P Require Import Bio.
From S2P Require Import Log.

Definition set_pi_nread x p := Pipe (pi_data p) x (pi_nwrite p) (pi_readopen p) (pi_writeopen p).
Definition set_pi_readopen x p := Pipe (pi_data p) (pi_nread p) (pi_nwrite p) x (pi_writeopen p).
Definition set_pi_writeopen x p := Pipe (pi_data p) (pi_nread p) (pi_nwrite p) (pi_readopen p) x.
Definition set_f_ref x f := File (f_type f) x (f_readable f) (f_writable f) (f_pipe f) (f_ip f) (f_off f) (f_major f).
Definition set_f_type x f := File x (f_ref f) (f_readable f) (f_writable f) (f_pipe f) (f_ip f) (f_off f) (f_major f).

Section code.
Context `{LinkerSyms} (swtch : M (kernel fsys) unit) (fuel : nat).
Context (virtio_disk_rw : nat -> bool -> M (kernel fsys) unit).
Abbreviation K := (M (kernel fsys)).

Definition getpi (pi : Z) : K pipe := fun k =>
  match fs_pipe (k_files k) !! pi with Some x => Ok (x, k) | None => Crash end.
Definition setpi (pi : Z) (f : pipe -> pipe) : K unit :=
  x <- getpi pi ;; fmod (fun s => set_fs_pipe (<[pi := f x]> (fs_pipe s)) s).

Definition getf (f : Z) : K file := fun k =>
  if f <? 1 then Crash
  else match fs_file (k_files k) !! Z.to_nat (f - 1) with Some x => Ok (x, k) | None => Crash end.
Definition setf (f : Z) (g : file -> file) : K unit :=
  x <- getf f ;; fmod (fun s => set_fs_file (<[Z.to_nat (f - 1) := g x]> (fs_file s)) s).

(** ** file.c: the table *)

Definition file_find_free : K Z :=
  loop (S NFILE) (fun f =>
    if f <? 1 + Z.of_nat NFILE then
      x <- getf f ;;
      if f_ref x =? 0 then setf f (set_f_ref 1) >>> ret (inr f) else ret (inl (f + 1))
    else ret (inr 0)) 1.

Definition filealloc : K Z :=
  lock_acquire FtableLock >>>
  f <- file_find_free ;;
  lock_release FtableLock >>>
  ret f.

Definition file_dup (f : Z) : K Z :=
  lock_acquire FtableLock >>>
  x <- getf f ;;
  if f_ref x <? 1 then panic "filedup"
  else
    setf f (set_f_ref (f_ref x + 1)) >>>
    lock_release FtableLock >>>
    ret f.

(** ** pipe.c *)

Definition pipeclose (pi : Z) (writable : Z) : K unit :=
  lock_acquire (PipeLock pi) >>>
  (if negb (writable =? 0)
   then setpi pi (set_pi_writeopen 0) >>> wakeup (PipeReadChan pi)
   else setpi pi (set_pi_readopen 0) >>> wakeup (PipeWriteChan pi)) >>>
  x <- getpi pi ;;
  let should_free := (pi_readopen x =? 0) && (pi_writeopen x =? 0) in
  lock_release (PipeLock pi) >>>
  if should_free
  then fmod (fun s => set_fs_pipe (delete pi (fs_pipe s)) s) >>> on_m (kfree pi)
  else ret tt.

(** [iput] of fs.c is an argument of the code that calls it. *)
Definition file_close (iput : Z -> K unit) (f : Z) : K unit :=
  lock_acquire FtableLock >>>
  x <- getf f ;;
  if f_ref x <? 1 then panic "fileclose"
  else
    setf f (set_f_ref (f_ref x - 1)) >>>
    if 0 <? f_ref x - 1 then lock_release FtableLock
    else
      ff <- getf f ;;
      setf f (set_f_ref 0) >>>
      setf f (set_f_type FD_NONE) >>>
      lock_release FtableLock >>>
      match f_type ff with
      | FD_PIPE => pipeclose (f_pipe ff) (f_writable ff)
      | FD_INODE | FD_DEVICE =>
          log_begin_op swtch fuel >>>
          iput (f_ip ff) >>>
          log_end_op swtch fuel virtio_disk_rw
      | FD_NONE => ret tt
      end.

(** A new pipe; [data] is what [kalloc] left in the page. *)
Definition new_pipe : pipe := Pipe (replicate PIPESIZE 5) 0 0 1 1.

Definition set_end (readable writable pi : Z) (f : file) : file :=
  File FD_PIPE (f_ref f) readable writable pi (f_ip f) (f_off f) (f_major f).

(** The return code and the two files. *)
Definition pipealloc (iput : Z -> K unit) : K (Z * Z * Z) :=
  f0 <- filealloc ;;
  f1 <- (if f0 =? 0 then ret 0 else filealloc) ;;
  pi <- (if (f0 =? 0) || (f1 =? 0) then ret 0 else on_m kalloc) ;;
  if pi =? 0 then
    (if negb (f0 =? 0) then file_close iput f0 else ret tt) >>>
    (if negb (f1 =? 0) then file_close iput f1 else ret tt) >>>
    ret (-1, f0, f1)
  else
    fmod (fun s => set_fs_pipe (<[pi := new_pipe]> (fs_pipe s)) s) >>>
    setf f0 (set_end 1 0 pi) >>>
    setf f1 (set_end 0 1 pi) >>>
    ret (0, f0, f1).

Definition pipe_can_write (x : pipe) : bool := negb (pi_nwrite x =? u32 (pi_nread x + Z.of_nat PIPESIZE)).
Definition pipe_empty (x : pipe) : bool := pi_nread x =? pi_nwrite x.

(** [data[nwrite % PIPESIZE] = ch; nwrite++]. *)
Definition push (ch : Z) (x : pipe) : pipe :=
  Pipe (<[Z.to_nat (pi_nwrite x mod Z.of_nat PIPESIZE) := ch]> (pi_data x)) (pi_nread x) (u32 (pi_nwrite x + 1))
    (pi_readopen x) (pi_writeopen x).

Definition pipewrite (pi addr n : Z) : K Z :=
  p <- myproc ;;
  lock_acquire (PipeLock pi) >>>
  r <- loop fuel (fun i =>
    if i <? n then
      x <- getpi pi ;;
      dead <- (if pi_readopen x =? 0 then ret true else kl <- killed p ;; ret (negb (kl =? 0))) ;;
      if (dead : bool) then lock_release (PipeLock pi) >>> ret (inr (inl (-1)))
      else if negb (pipe_can_write x) then
        wakeup (PipeReadChan pi) >>>
        sleep swtch (PipeWriteChan pi) (PipeLock pi) >>>
        ret (inl i)
      else
        q <- getp p ;;
        c <- on_m (copyin (pview q) (p_pagetable q) (u64 (addr + i)) 1) ;;
        if fst c =? -1 then ret (inr (inr i))
        else
          setpi pi (push (hd 0 (snd c))) >>>
          ret (inl (i + 1))
    else ret (inr (inr i))) 0 ;;
  match r with
  | inl e => ret e
  | inr i =>
      wakeup (PipeReadChan pi) >>>
      lock_release (PipeLock pi) >>>
      ret i
  end.

Definition piperead (pi addr n : Z) : K Z :=
  p <- myproc ;;
  lock_acquire (PipeLock pi) >>>
  stop <- loop fuel (fun _ =>
    x <- getpi pi ;;
    if pipe_empty x && negb (pi_writeopen x =? 0) then
      kl <- killed p ;;
      if negb (kl =? 0) then lock_release (PipeLock pi) >>> ret (inr true)
      else sleep swtch (PipeReadChan pi) (PipeLock pi) >>> ret (inl tt)
    else ret (inr false)) tt ;;
  if (stop : bool) then ret (-1)
  else
    i <- loop fuel (fun i =>
      if i <? n then
        x <- getpi pi ;;
        if pipe_empty x then ret (inr i)
        else
          match pi_data x !! Z.to_nat (pi_nread x mod Z.of_nat PIPESIZE) with
          | None => fun _ => Crash
          | Some ch =>
              q <- getp p ;;
              rc <- on_m (copyout (pview q) (p_pagetable q) (u64 (addr + i)) [ch]) ;;
              if rc =? -1 then ret (inr (if i =? 0 then -1 else i))
              else
                setpi pi (fun x => set_pi_nread (u32 (pi_nread x + 1)) x) >>>
                ret (inl (i + 1))
          end
      else ret (inr i)) 0 ;;
    wakeup (PipeWriteChan pi) >>>
    lock_release (PipeLock pi) >>>
    ret i.
End code.
