(* ===== verification/PipeSpec.v ===== *)
(** A pipe is a bounded queue of bytes.

    [contents] is the queue a [pipe] record represents; [pipewrite] appends to
    it and [piperead] takes from its front. *)

From S2P Require Import Prelude.
From S2P Require Import Memory.
From S2P Require Import Spinlock.
From S2P Require Import Riscv.
From S2P Require Import Kalloc.
From S2P Require Import UserMem.
From S2P Require Import UserCopy.
From S2P Require Import Proc.
From S2P Require Import ProcInv.
From S2P Require Import ProcOps.
From S2P Require Import ProcCtl.
From S2P Require Import SysSpec.
From S2P Require Import FsState.
From S2P Require Import Bio.
From S2P Require Import BioSpec.
From S2P Require Import Pipe.

(** ** The queue *)

Definition count (x : pipe) : nat := Z.to_nat (u32 (pi_nwrite x - pi_nread x)).
Definition slot (x : pipe) (i : nat) : nat := Z.to_nat ((pi_nread x + Z.of_nat i) mod 512).
Definition contents (x : pipe) : list Z := map (fun i => nth (slot x i) (pi_data x) 0) (seq 0 (count x)).

Record pipe_wf (x : pipe) : Prop := {
  pw_data : length (pi_data x) = PIPESIZE;
  pw_read : 0 <= pi_nread x < 2 ^ 32;
  pw_write : 0 <= pi_nwrite x < 2 ^ 32;
  pw_count : (count x <= PIPESIZE)%nat
}.

Lemma contents_length x : length (contents x) = count x.
Proof. unfold contents. by rewrite length_map, length_seq. Qed.

Lemma empty_count x : pipe_wf x -> pipe_empty x = true <-> count x = 0%nat.
Proof.
  intros [_ Hr Hw _]. unfold pipe_empty, count, u32. rewrite Z.eqb_eq. split; [intros ->; rewrite Z.sub_diag; done|].
  dlia.
Qed.

Lemma full_count x : pipe_wf x -> pipe_can_write x = false <-> count x = PIPESIZE.
Proof.
  intros [_ Hr Hw _]. unfold pipe_can_write, count, u32, PIPESIZE. rewrite negb_false_iff, Z.eqb_eq. dlia.
Qed.

(** A slot of the ring is used once. *)
Lemma slot_lt x i : (slot x i < 512)%nat.
Proof. unfold slot. pose proof (Z.mod_pos_bound (pi_nread x + Z.of_nat i) 512). lia. Qed.

Lemma slot_inj x i j : (i < 512)%nat -> (j < 512)%nat -> slot x i = slot x j -> i = j.
Proof. unfold slot. dlia. Qed.

Lemma slot_write x : pipe_wf x -> Z.to_nat (pi_nwrite x mod Z.of_nat PIPESIZE) = slot x (count x).
Proof. intros [_ Hr Hw _]. unfold slot, count, u32, PIPESIZE. dlia. Qed.

Lemma count_push c x : pipe_wf x -> (count x < PIPESIZE)%nat -> count (push c x) = S (count x).
Proof. intros [_ Hr Hw _]. unfold count, push, u32, PIPESIZE. cbn [pi_nwrite pi_nread]. dlia. Qed.

Lemma push_wf c x : pipe_wf x -> (count x < PIPESIZE)%nat -> pipe_wf (push c x).
Proof.
  intros W Hc. pose proof (count_push c x W Hc) as E. destruct W as [Hd Hr Hw _]. split.
  - cbn. by rewrite length_insert.
  - done.
  - cbn. apply u32_range.
  - lia.
Qed.

Lemma contents_push c x : pipe_wf x -> (count x < PIPESIZE)%nat -> contents (push c x) = contents x ++ [c].
Proof.
  intros W Hc. unfold contents. rewrite (count_push c x W Hc), seq_S, map_app. cbn [map Nat.add].
  assert (Hd : length (pi_data x) = 512%nat) by apply W. unfold PIPESIZE in Hc. f_equal.
  - apply map_ext_in. intros i Hi%in_seq. change (slot (push c x) i) with (slot x i). cbn [push pi_data].
    rewrite (slot_write x W), !nth_lookup, list_lookup_insert_ne; [done|].
    intros E%slot_inj; lia.
  - change (slot (push c x) (count x)) with (slot x (count x)). cbn [push pi_data].
    rewrite (slot_write x W), nth_lookup, list_lookup_insert_eq; [done|]. pose proof (slot_lt x (count x)). lia.
Qed.

Definition pop (x : pipe) : pipe := set_pi_nread (u32 (pi_nread x + 1)) x.

Lemma count_pop x : pipe_wf x -> (0 < count x)%nat -> count x = S (count (pop x)).
Proof. intros [_ Hr Hw _]. unfold count, pop, u32. cbn [pi_nwrite pi_nread set_pi_nread]. dlia. Qed.

Lemma pop_wf x : pipe_wf x -> (0 < count x)%nat -> pipe_wf (pop x).
Proof.
  intros W Hc. pose proof (count_pop x W Hc). destruct W as [Hd Hr Hw Hn]. split; [done|cbn; apply u32_range|done|lia].
Qed.

Lemma contents_pop x : pipe_wf x -> (0 < count x)%nat ->
  exists c, pi_data x !! Z.to_nat (pi_nread x mod Z.of_nat PIPESIZE) = Some c /\ contents x = c :: contents (pop x).
Proof.
  intros W Hc. pose proof (count_pop x W Hc) as E. assert (Hd : length (pi_data x) = 512%nat) by apply W.
  assert (Es : Z.to_nat (pi_nread x mod Z.of_nat PIPESIZE) = slot x 0) by (unfold slot; by rewrite Z.add_0_r).
  destruct (lookup_lt_is_Some_2 (pi_data x) (slot x 0)) as [c Hx]; [pose proof (slot_lt x 0); lia|].
  exists c. rewrite Es. split; [done|]. unfold contents at 1. rewrite E. cbn [seq map]. f_equal.
  - by rewrite nth_lookup, Hx.
  - rewrite <- seq_shift, map_map. apply map_ext_in. intros i _. cbn [pop set_pi_nread pi_data]. f_equal.
    unfold slot, pop, u32. cbn [pi_nread set_pi_nread]. destruct W as [_ Hr _ _]. dlia.
Qed.

(** ** The operations *)

Section ops.
Context `{LinkerSyms} (swtch : M (kernel fsys) unit) (fuel : nat).
Implicit Types k : kernel fsys.
Context (i : nat) (p : proc) (pi : Z).
Abbreviation view k := (ubyte (mem (k_m k)) (p_pagetable p)).

(** Process [i] runs, alive and without a lock. *)
Record caller (k : kernel fsys) : Prop := {
  cl_inv : exists l, kinv k l;
  cl_cur : k_cur k = Some i;
  cl_proc : k_procs k !! i = Some p;
  cl_live : p_state p <> UNUSED;
  cl_killed : p_killed p = 0;
  cl_held : held k = []
}.

(** The state inside an operation that began in [k0]: the pipe is [x]. *)
Record inside (k0 : kernel fsys) (x : pipe) (k : kernel fsys) : Prop := {
  in_inv : exists l, kinv k l;
  in_procs : k_procs k = k_procs k0;
  in_cur : k_cur k = k_cur k0;
  in_held : held k = [PipeLock pi];
  in_files : k_files k = set_fs_pipe (<[pi := x]> (fs_pipe (k_files k0))) (k_files k0)
}.

Lemma wp_getpi k x (Q : pipe -> kernel fsys -> Prop) : fs_pipe (k_files k) !! pi = Some x -> Q x k -> wp (getpi pi) k Q.
Proof. intros Hx HQ. unfold wp, getpi. by rewrite Hx. Qed.

Lemma in_pipe k0 x k : inside k0 x k -> fs_pipe (k_files k) !! pi = Some x.
Proof. intros I. rewrite (in_files _ _ _ I). apply lookup_insert_eq. Qed.

Lemma kinv_other_files k l fs : kinv k l -> kinv (set_k_files fs k) l.
Proof. intros [? ? ? ?]. by split. Qed.

Lemma inside_start k x :
  caller k -> fs_pipe (k_files k) !! pi = Some x -> inside k x (set_held [PipeLock pi] k).
Proof.
  intros [[l Hk] Hc Hp Hl Hkl Hh] Hx. split; try done.
  - exists l. apply kinv_set_held; [done|]. by intros [?|?%not_elem_of_nil]%elem_of_cons.
  - cbn. rewrite insert_id by done. by destruct (k_files k).
Qed.

Lemma inside_set k0 x y k : inside k0 x k -> inside k0 y (set_k_files (set_fs_pipe (<[pi := y]> (fs_pipe (k_files k))) (k_files k)) k).
Proof.
  intros [[l Hk] Hp Hc Hh Hf]. split; try done.
  - exists l. by apply kinv_other_files.
  - cbn. rewrite Hf. cbn. by rewrite insert_insert_eq.
Qed.

Lemma wp_setpi k0 x k f (Q : unit -> kernel fsys -> Prop) :
  inside k0 x k -> (forall k', inside k0 (f x) k' -> k_m k' = k_m k -> Q tt k') -> wp (setpi pi f) k Q.
Proof.
  intros I HQ. unfold setpi. apply wp_bind, (wp_getpi k x); [by eapply in_pipe|]. apply wp_fmod. apply HQ; [|done].
  by eapply inside_set.
Qed.

Lemma inside_unlocked k0 x k j : inside k0 x k -> ProcLock j ∉ held k.
Proof. intros I. rewrite (in_held _ _ _ I). by intros [?|?%not_elem_of_nil]%elem_of_cons. Qed.

(** Waking the processes on a channel and leaving. *)
Record left (k0 : kernel fsys) (c : channel) (x : pipe) (k : kernel fsys) : Prop := {
  lf_inv : exists l, kinv k l;
  lf_procs : k_procs k = imap (woken (k_cur k0) c) (k_procs k0);
  lf_cur : k_cur k = k_cur k0;
  lf_held : held k = [];
  lf_files : k_files k = set_fs_pipe (<[pi := x]> (fs_pipe (k_files k0))) (k_files k0)
}.

Lemma leave {A} k0 x k c (r : A) (Q : A -> kernel fsys -> Prop) :
  inside k0 x k -> (forall k', left k0 c x k' -> mem (k_m k') = mem (k_m k) -> Q r k') ->
  wp (wakeup c >>> lock_release (PipeLock pi) >>> ret r) k Q.
Proof.
  intros I HQ. destruct (in_inv _ _ _ I) as [l Hk].
  apply wp_bind, wakeup_spec; [apply (pw_len _ _ (ki_wf _ _ Hk))|intros j _; by eapply inside_unlocked|].
  apply wp_bind, release_only; [apply (in_held _ _ _ I)|]. apply wp_ret, HQ; [|done]. split.
  - exists l. apply kinv_set_held; [|apply not_elem_of_nil]. apply kinv_map; [done|]. apply Forall2_imap_core. intros. apply woken_core.
  - cbn. by rewrite (in_cur _ _ _ I), (in_procs _ _ _ I).
  - apply I.
  - done.
  - apply I.
Qed.

(** One byte from the memory of the caller. *)
Lemma byte_in k0 x k a (Q : Z * list Z -> kernel fsys -> Prop) :
  caller k0 -> inside k0 x k -> 0 <= a < 2 ^ 64 ->
  (forall r k', inside k0 x k' -> lazy_ext (p_sz p) (view k) (view k') ->
     (forall c, reads (view k) a [c] -> r = (0, [c])) -> Q r k') ->
  wp (on_m (copyin (pview p) (p_pagetable p) a 1)) k Q.
Proof.
  intros [_ Hc Hp Hl _ _] I Ha HQ. destruct (in_inv _ _ _ I) as [l Hk].
  assert (Hp' : k_procs k !! i = Some p) by (by rewrite (in_procs _ _ _ I)).
  eapply wp_mono; [apply (proc_copyin k l i p a 1); auto|]. intros r k' Hr. pose proof Hr as (s' & l' & -> & Hst & Hlz & _).
  apply HQ; [|done|].
  - pose proof (pv_only _ _ _ _ _ _ _ Hst) as Hon. destruct I. split; cbn; try done.
    + exists l'. apply Hst.
    + etransitivity; [apply Hon|done].
  - intros c Hrd. eapply (copyin_mapped k l i p a [c]); [exact Hr|lia|done].
Qed.

(** A byte of a string in user memory. *)
Lemma reads_at e a bs j c : reads e a bs -> bs !! j = Some c -> a + Z.of_nat j < TRAPFRAME /\ reads e (a + Z.of_nat j) [c].
Proof.
  intros [Hb Hr] Hj. pose proof (lookup_lt_Some _ _ _ Hj) as Hlt.
  assert (Hne : bs <> []) by (by intros ->). specialize (Hb Hne). split; [lia|]. split; [cbn; lia|].
  cbn. intros q Hq. destruct q; [|lia]. destruct (Hr j Hlt) as (fl & E & ?). exists fl.
  rewrite Z.add_0_r, E, nth_lookup, Hj. done.
Qed.

(** C24. [pipewrite] appends.  While the read end is open and the pipe has room,
    writing [bs] from user memory returns its length; the pipe then holds what
    it held before followed by [bs], the processes waiting to read are
    runnable, and the memory the caller sees is unchanged. *)
Theorem pipewrite_appends k x addr bs :
  caller k -> fs_pipe (k_files k) !! pi = Some x -> pipe_wf x -> pi_readopen x <> 0 ->
  0 <= addr -> reads (view k) addr bs -> (length (contents x) + length bs <= PIPESIZE)%nat -> (length bs < fuel)%nat ->
  wp (pipewrite swtch fuel pi addr (Z.of_nat (length bs))) k (fun r k' => r = Z.of_nat (length bs) /\
    exists x', left k (PipeReadChan pi) x' k' /\ pipe_wf x' /\ contents x' = contents x ++ bs /\
      lazy_ext (p_sz p) (view k) (view k')).
Proof.
  intros C Hx W Hopen Ha Hrd Hroom Hf. pose proof C as [_ Hc Hp Hl Hkl Hh]. unfold pipewrite.
  apply wp_bind, (wp_myproc i); [done|]. apply wp_bind, acquire_first; [done|]. apply wp_bind.
  apply (wp_loop_st (fun n k' => exists j y, n = Z.of_nat j /\ (j <= length bs)%nat /\ inside k y k' /\ pipe_wf y /\
      pi_readopen y <> 0 /\ contents y = contents x ++ take j bs /\ lazy_ext (p_sz p) (view k) (view k'))
    (fun n _ => (length bs - Z.to_nat n)%nat)).
  - intros n k' (j & y & -> & Hj & I & Wy & Hoy & Hcy & Hlz).
    destruct (Z.ltb_spec (Z.of_nat j) (Z.of_nat (length bs))) as [Hlt|Hge].
    2: { apply wp_ret. replace j with (length bs) in * by lia. rewrite take_ge in Hcy by done.
      eapply leave; [exact I|]. intros k2 Hleft Hm. split; [done|]. exists y. split_and!; try done. by rewrite Hm. }
    apply wp_bind, (wp_getpi k' y); [by eapply in_pipe|]. rewrite (proj2 (Z.eqb_neq _ _) Hoy).
    apply wp_bind, wp_bind, (killed_spec i p); [by eapply inside_unlocked|by rewrite (in_procs _ _ _ I)|].
    apply wp_ret. rewrite Hkl. cbn [Z.eqb negb].
    destruct (pipe_can_write y) eqn:Ew; cbn [negb].
    2: { apply full_count in Ew; [|done]. rewrite <- contents_length, Hcy, length_app, length_take in Ew. lia. }
    apply wp_bind, (wp_getp i p); [by rewrite (in_procs _ _ _ I)|]. destruct (lookup_lt_is_Some_2 bs j ltac:(lia)) as [c Hc'].
    pose proof (reads_at _ _ _ _ _ (reads_lazy _ _ _ _ _ Ha Hrd Hlz) Hc') as [Hend Hcc].
    assert (TRAPFRAME < 2 ^ 64) by (by vm_compute). rewrite u64_id by lia.
    apply wp_bind. eapply byte_in; [done|exact I|lia|]. intros r k2 I2 Hlz2 Hr. rewrite (Hr c Hcc). cbn [fst snd Z.eqb hd].
    apply wp_bind. eapply wp_setpi; [exact I2|]. intros k3 I3 Hm. apply wp_ret.
    assert (Hroom' : (count y < PIPESIZE)%nat) by (rewrite <- contents_length, Hcy, length_app, length_take; lia).
    split; [|lia]. exists (S j), (push c y). split_and!; try done; [lia|lia|by apply push_wf| |].
    + rewrite contents_push, Hcy, (take_S_r _ _ _ Hc'), app_assoc by done. done.
    + rewrite Hm. by eapply lazy_ext_trans.
  - exists 0%nat, x. split_and!; try done; [lia|by apply inside_start|by rewrite app_nil_r|by apply lazy_ext_eq].
  - lia.
Qed.

(** One byte to the memory of the caller. *)
Lemma byte_out k0 x k a c (Q : Z -> kernel fsys -> Prop) :
  caller k0 -> inside k0 x k -> 0 <= a < 2 ^ 64 -> 0 <= c < 256 -> writable_word (view k) a 1 ->
  (forall k', inside k0 x k' -> out_to (p_sz p) a [c] (view k) (view k') -> Q 0 k') ->
  wp (on_m (copyout (pview p) (p_pagetable p) a [c])) k Q.
Proof.
  intros [_ Hc Hp Hl _ _] I Ha Hb Hw HQ. destruct (in_inv _ _ _ I) as [l Hk].
  assert (Hp' : k_procs k !! i = Some p) by (by rewrite (in_procs _ _ _ I)).
  eapply wp_mono; [apply (proc_copyout k l i p a [c]); auto; by apply Forall_singleton|]. intros rc k' Hr.
  destruct (copyout_mapped _ _ _ _ _ _ _ _ Hr) as [-> Ho]; [lia|done|]. destruct Hr as (s' & l' & n & -> & Hst & _).
  apply HQ; [|done]. pose proof (pv_only _ _ _ _ _ _ _ Hst) as Hon. destruct I. split; cbn; try done.
  - exists l'. apply Hst.
  - etransitivity; [apply Hon|done].
Qed.

Lemma writable_out sz a bs e e' b n : 0 <= b -> out_to sz a bs e e' -> writable_word e b n -> writable_word e' b n.
Proof.
  intros Hb (_ & e1 & Hlz & _ & Hv) Hw. destruct (writable_lazy _ _ _ _ _ Hb Hw Hlz) as [Hle Hw1]. split; [done|].
  intros q Hq. destruct (Hw1 q Hq) as (fl & v & E & HU & HW). unfold writable.
  rewrite (Hv (b + Z.of_nat q)) by lia. unfold overwrite. rewrite E. case_if; eauto 10.
Qed.

Lemma writable_at e a n q : writable_word e a n -> (q < n)%nat -> a + Z.of_nat q < TRAPFRAME /\ writable_word e (a + Z.of_nat q) 1.
Proof.
  intros [Hle Hw] Hq. split; [lia|]. split; [lia|]. intros r Hr. destruct r; [|lia]. rewrite Z.add_0_r. auto.
Qed.

(** C25. [piperead] takes from the front.  If the pipe holds bytes, or its write
    end is closed, reading [n] bytes does not wait and returns the smaller of
    [n] and the number of bytes held; these are the oldest bytes, in order;
    they are now in user memory and no longer in the pipe, and the processes
    waiting to write are runnable. *)
Theorem piperead_takes k x addr n :
  let m := Nat.min n (length (contents x)) in
  caller k -> fs_pipe (k_files k) !! pi = Some x -> pipe_wf x -> contents x <> [] \/ pi_writeopen x = 0 ->
  Forall (fun b => 0 <= b < 256) (contents x) ->
  0 <= addr -> writable_word (view k) addr m -> (m < fuel)%nat ->
  wp (piperead swtch fuel pi addr (Z.of_nat n)) k (fun r k' => r = Z.of_nat m /\
    exists x', left k (PipeWriteChan pi) x' k' /\ pipe_wf x' /\ contents x' = drop m (contents x) /\
      out_to (p_sz p) addr (take m (contents x)) (view k) (view k')).
Proof.
  intros m C Hx W Hready Hbytes Ha Hw Hf. pose proof C as [_ Hc Hp Hl Hkl Hh]. unfold piperead.
  apply wp_bind, (wp_myproc i); [done|]. apply wp_bind, acquire_first; [done|]. apply wp_bind.
  pose proof (inside_start k x C Hx) as I0. set (k1 := set_held [PipeLock pi] k) in *.
  destruct fuel as [|f] eqn:Ef; [lia|]. rewrite <- Ef in *. rewrite Ef at 1. cbn [loop].
  apply wp_bind, wp_bind, (wp_getpi k1 x); [done|].
  assert (Hgo : pipe_empty x && negb (pi_writeopen x =? 0) = false).
  { destruct (pipe_empty x) eqn:Ee; [|done]. apply empty_count in Ee; [|done]. destruct Hready as [Hne|Hcl].
    - exfalso. apply Hne. apply length_zero_iff_nil. by rewrite contents_length.
    - by rewrite Hcl. }
  rewrite Hgo. apply wp_ret, wp_ret. apply wp_bind.
  apply (wp_loop_st (fun z k' => exists j y, z = Z.of_nat j /\ (j <= m)%nat /\ inside k y k' /\ pipe_wf y /\
      contents y = drop j (contents x) /\ out_to (p_sz p) addr (take j (contents x)) (view k) (view k'))
    (fun z _ => (m - Z.to_nat z)%nat)).
  - intros z k' (j & y & -> & Hj & I & Wy & Hcy & Ho).
    assert (Hdone : j = m -> wp (wakeup (PipeWriteChan pi) >>> lock_release (PipeLock pi) >>> ret (Z.of_nat j)) k' (fun r k' =>
      r = Z.of_nat m /\ exists x', left k (PipeWriteChan pi) x' k' /\ pipe_wf x' /\ contents x' = drop m (contents x) /\
        out_to (p_sz p) addr (take m (contents x)) (view k) (view k'))).
    { intros ->. eapply leave; [exact I|]. intros k2 Hleft Hm. split; [done|]. exists y. rewrite Hm. done. }
    destruct (Z.ltb_spec (Z.of_nat j) (Z.of_nat n)) as [Hlt|Hge]; [|apply wp_ret, Hdone; lia].
    apply wp_bind, (wp_getpi k' y); [by eapply in_pipe|]. destruct (pipe_empty y) eqn:Ee.
    { apply empty_count in Ee; [|done]. apply wp_ret, Hdone. rewrite <- contents_length, Hcy, length_drop in Ee. lia. }
    assert (Hpos : (0 < count y)%nat).
    { destruct (count y) eqn:E0; [|lia]. apply empty_count in E0; [congruence|done]. }
    destruct (contents_pop y Wy Hpos) as (c & Hcd & Hpop). rewrite Hcd. rewrite Hcy in Hpop.
    assert (Hcx : contents x !! j = Some c) by (by rewrite <- (Nat.add_0_r j), <- lookup_drop, Hpop).
    pose proof (lookup_lt_Some _ _ _ Hcx) as Hjl.
    destruct (writable_at _ _ _ j (writable_out _ _ _ _ _ _ _ Ha Ho Hw)) as [Hend Hwj]; [lia|].
    assert (TRAPFRAME < 2 ^ 64) by (by vm_compute). rewrite u64_id by lia.
    apply wp_bind, (wp_getp i p); [by rewrite (in_procs _ _ _ I)|]. apply wp_bind.
    eapply byte_out; [done|exact I|lia|by eapply (Forall_lookup_1 _ _ j c Hbytes)|done|]. intros k2 I2 Ho2.
    cbn [Z.eqb]. apply wp_bind. eapply wp_setpi; [exact I2|]. intros k3 I3 Hm. apply wp_ret.
    split; [|lia]. exists (S j), (pop y). split_and!; try done; [lia|lia|by apply pop_wf| |].
    + rewrite (drop_S _ c j) in Hpop by done. by injection Hpop.
    + rewrite Hm, (take_S_r _ _ _ Hcx). eapply out_to_app; [done|exact Ho|]. rewrite length_take, Nat.min_l by lia. done.
  - exists 0%nat, x. split_and!; try done; [lia|]. rewrite take_0. apply out_to_nil.
  - lia.
Qed.
End ops.
