(* ===== verification/FileSpec.v ===== *)
(** The file table and the life of a pipe: filealloc, filedup and fileclose of
    file.c, pipealloc and pipeclose of pipe.c. *)

From S2P Require Import Prelude.
From S2P Require Import Memory.
From S2P Require Import Spinlock.
From S2P Require Import Riscv.
From S2P Require Import Kalloc.
From S2P Require Import Proc.
From S2P Require Import ProcInv.
From S2P Require Import ProcCtl.
From S2P Require Import FsState.
From S2P Require Import Bio.
From S2P Require Import BioSpec.
From S2P Require Import Log.
From S2P Require Import Pipe.
From S2P Require Import PipeSpec.

Section files.
Context `{LinkerSyms} (swtch : M (kernel fsys) unit) (fuel : nat).
Context (rw : nat -> bool -> M (kernel fsys) unit) (iput : Z -> M (kernel fsys) unit).
Implicit Types k : kernel fsys.

(** File [f] of the table [t]. *)
Definition is_file (t : list file) (f : Z) (x : file) : Prop := 1 <= f /\ t !! Z.to_nat (f - 1) = Some x.

Definition put_file (f : Z) (x : file) (t : list file) : list file := <[Z.to_nat (f - 1) := x]> t.

Lemma wp_getf k f x (Q : file -> kernel fsys -> Prop) : is_file (fs_file (k_files k)) f x -> Q x k -> wp (getf f) k Q.
Proof. intros [Hf Hx] HQ. unfold wp, getf. destruct (Z.ltb_spec f 1); [lia|]. by rewrite Hx. Qed.

Lemma wp_setf k f x g (Q : unit -> kernel fsys -> Prop) :
  is_file (fs_file (k_files k)) f x ->
  Q tt (set_k_files (set_fs_file (put_file f (g x) (fs_file (k_files k))) (k_files k)) k) -> wp (setf f g) k Q.
Proof. intros Hx HQ. unfold setf. apply wp_bind, (wp_getf k f x); [done|]. by apply wp_fmod. Qed.

Lemma is_file_put t f x y : is_file t f x -> is_file (put_file f y t) f y.
Proof. intros [Hf Hx]. split; [done|]. apply list_lookup_insert_eq. by eapply lookup_lt_Some. Qed.

Lemma is_file_put_ne t f g x y : f <> g -> is_file t g x -> 1 <= f -> is_file (put_file f y t) g x.
Proof. intros Hne [Hg Hx] Hf. split; [done|]. unfold put_file. rewrite list_lookup_insert_ne; [done|lia]. Qed.

(** [f] is the first free file. *)
Definition first_free (t : list file) (f : Z) (x : file) : Prop :=
  is_file t f x /\ f_ref x = 0 /\ forall g y, is_file t g y -> g < f -> f_ref y <> 0.

Lemma find_free_spec k (Q : Z -> kernel fsys -> Prop) :
  length (fs_file (k_files k)) = NFILE ->
  (forall f x, first_free (fs_file (k_files k)) f x ->
     Q f (set_k_files (set_fs_file (put_file f (set_f_ref 1 x) (fs_file (k_files k))) (k_files k)) k)) ->
  ((forall f x, is_file (fs_file (k_files k)) f x -> f_ref x <> 0) -> Q 0 k) ->
  wp file_find_free k Q.
Proof.
  intros Hlen Hfound Hnone. unfold file_find_free.
  apply (wp_loop_st (fun f k' => k' = k /\ 1 <= f <= 1 + Z.of_nat NFILE /\
      forall g y, is_file (fs_file (k_files k)) g y -> g < f -> f_ref y <> 0) (fun f _ => Z.to_nat (1 + Z.of_nat NFILE - f))).
  - intros f k' (-> & Hf & Hb). destruct (Z.ltb_spec f (1 + Z.of_nat NFILE)) as [Hlt|Hge].
    + destruct (lookup_lt_is_Some_2 (fs_file (k_files k)) (Z.to_nat (f - 1))) as [x Hx]; [lia|].
      assert (Hfx : is_file (fs_file (k_files k)) f x) by (split; [lia|done]).
      apply wp_bind, (wp_getf k f x); [done|]. destruct (Z.eqb_spec (f_ref x) 0) as [E|E].
      * apply wp_bind, (wp_setf k f x); [done|]. apply wp_ret, Hfound. done.
      * apply wp_ret. split; [|lia]. split_and!; [done|lia|lia|]. intros g y Hg Hgf.
        destruct (decide (g = f)) as [->|Hne]; [|apply (Hb g); [done|lia]].
        destruct Hg as [_ Hg], Hfx as [_ Hfx]. congruence.
    + apply wp_ret, Hnone. intros g y Hg. apply (Hb g); [done|]. destruct Hg as [? Hg].
      apply lookup_lt_Some in Hg. lia.
  - split_and!; [done|lia|lia|]. intros g y [? _]. lia.
  - lia.
Qed.

Lemma filealloc_spec k (Q : Z -> kernel fsys -> Prop) :
  held k = [] -> length (fs_file (k_files k)) = NFILE ->
  (forall f x, first_free (fs_file (k_files k)) f x ->
     Q f (set_k_files (set_fs_file (put_file f (set_f_ref 1 x) (fs_file (k_files k))) (k_files k)) k)) ->
  ((forall f x, is_file (fs_file (k_files k)) f x -> f_ref x <> 0) -> Q 0 k) ->
  wp filealloc k Q.
Proof.
  intros Hh Hlen Hfound Hnone. unfold filealloc. apply wp_bind, acquire_first; [done|].
  apply wp_bind, find_free_spec; [done| |].
  - intros f x Hx. apply wp_bind, release_only; [done|]. apply wp_ret. rewrite set_held_files by done. by apply Hfound.
  - intros Hn. apply wp_bind, release_only; [done|]. apply wp_ret. rewrite set_held_set, <- Hh, set_held_held. by apply Hnone.
Qed.

Abbreviation with_files t k := (set_k_files (set_fs_file t (k_files k)) k).

(** Closing a file that has one reference and no type yet. *)
Lemma close_fresh k f x (Q : unit -> kernel fsys -> Prop) :
  held k = [] -> is_file (fs_file (k_files k)) f x -> f_ref x = 1 -> f_type x = FD_NONE ->
  Q tt (with_files (put_file f (set_f_ref 0 x) (fs_file (k_files k))) k) ->
  wp (file_close swtch fuel rw iput f) k Q.
Proof.
  intros Hh Hx Hr Ht HQ. unfold file_close. apply wp_bind, acquire_first; [done|]. set (k1 := set_held [FtableLock] k).
  apply wp_bind, (wp_getf k1 f x); [done|]. rewrite Hr. cbn [Z.ltb Z.compare Z.sub Z.add Z.opp Z.pos_sub Pos.compare Pos.compare_cont].
  apply wp_bind, (wp_setf k1 f x); [done|]. set (x1 := set_f_ref 0 x).
  assert (H1 : is_file (put_file f x1 (fs_file (k_files k))) f x1) by (by eapply is_file_put).
  apply wp_bind, (wp_getf _ f x1); [exact H1|].
  apply wp_bind, (wp_setf _ f x1); [exact H1|]. apply wp_bind, (wp_setf _ f x1); [by eapply is_file_put|].
  apply wp_bind, release_only; [done|]. change (f_type x1) with (f_type x). rewrite Ht. apply wp_ret.
  cbn [k_files set_k_files set_fs_file fs_file k1 set_held]. unfold put_file. rewrite !list_insert_insert_eq.
  replace (set_f_type FD_NONE x1) with x1 by (unfold x1, set_f_type, set_f_ref; cbn; by rewrite Ht).
  replace (set_held [] _) with (with_files (put_file f x1 (fs_file (k_files k))) k); [exact HQ|].
  destruct k as [[m fl h] ? ? ? ? ? []]. cbn in Hh. by subst h.
Qed.

(** The table of files: free entries have no type. *)
Record table_ok (t : list file) : Prop := {
  tb_len : length t = NFILE;
  tb_free f x : is_file t f x -> f_ref x = 0 -> f_type x = FD_NONE
}.

Lemma put_back t f x : is_file t f x -> f_ref x = 0 -> put_file f (set_f_ref 0 (set_f_ref 1 x)) (put_file f (set_f_ref 1 x) t) = t.
Proof.
  intros [Hf Hx] Hr. unfold put_file. rewrite list_insert_insert_eq. apply list_insert_id. rewrite Hx. f_equal.
  destruct x. cbn in Hr |- *. by subst.
Qed.

Lemma with_files_same k : with_files (fs_file (k_files k)) k = k.
Proof. by destruct k as [? ? ? ? ? ? []]. Qed.

Lemma new_pipe_wf : pipe_wf new_pipe.
Proof. split; cbn [new_pipe pi_data pi_nread pi_nwrite]; [apply length_replicate|lia|lia|]. apply (bool_decide_unpack _). by vm_compute. Qed.

(** A free file found after another was taken. *)
Lemma second_free t f0 x0 f1 x1 :
  first_free t f0 x0 -> first_free (put_file f0 (set_f_ref 1 x0) t) f1 x1 -> f0 <> f1 /\ is_file t f1 x1 /\ f_ref x1 = 0.
Proof.
  intros ([Hf0 Hx0] & _) ([Hf1 Hx1] & Hr1 & _). assert (Hne : f0 <> f1).
  { intros <-. unfold put_file in Hx1. rewrite list_lookup_insert_eq in Hx1 by (by eapply lookup_lt_Some).
    injection Hx1 as <-. done. }
  split_and!; [done| |done]. split; [done|]. unfold put_file in Hx1. rewrite list_lookup_insert_ne in Hx1; [done|lia].
Qed.

(** Undoing two allocations. *)
Lemma put_back2 t f0 x0 f1 x1 :
  is_file t f0 x0 -> f_ref x0 = 0 -> is_file t f1 x1 -> f_ref x1 = 0 -> f0 <> f1 ->
  put_file f1 (set_f_ref 0 (set_f_ref 1 x1)) (put_file f0 (set_f_ref 0 (set_f_ref 1 x0))
    (put_file f1 (set_f_ref 1 x1) (put_file f0 (set_f_ref 1 x0) t))) = t.
Proof.
  intros H0 R0 H1 R1 Hne. unfold put_file. destruct H0 as [? H0], H1 as [? H1].
  rewrite (list_insert_insert_ne _ (Z.to_nat (f0 - 1)) (Z.to_nat (f1 - 1))) by lia.
  rewrite list_insert_insert_eq, list_insert_insert_eq.
  rewrite (list_insert_id _ (Z.to_nat (f0 - 1))), list_insert_id; [done| |].
  - rewrite H1. f_equal. destruct x1. cbn in R1 |- *. by subst.
  - rewrite H0. f_equal. destruct x0. cbn in R0 |- *. by subst.
Qed.

(** [pipealloc] makes a pipe or nothing.  On success two files that were
    free are the read end and the write end of one new, empty pipe, whose page
    came off the free list; the other files are unchanged.  On failure, for
    want of a file or of a page, the state is as it was. *)
Theorem pipealloc_connects k l :
  held k = [] -> table_ok (fs_file (k_files k)) -> kmem_inv (k_m k) l ->
  wp (pipealloc swtch fuel rw iput) k (fun '(rc, f0, f1) k' =>
    (rc = 0 /\ f0 <> f1 /\ exists pi l' x0 x1, l = pi :: l' /\ kmem_inv (k_m k') l' /\
       fs_pipe (k_files k') = <[pi := new_pipe]> (fs_pipe (k_files k)) /\ pipe_wf new_pipe /\ contents new_pipe = [] /\
       is_file (fs_file (k_files k)) f0 x0 /\ f_ref x0 = 0 /\ is_file (fs_file (k_files k)) f1 x1 /\ f_ref x1 = 0 /\
       fs_file (k_files k') = put_file f1 (set_end 0 1 pi (set_f_ref 1 x1))
         (put_file f0 (set_end 1 0 pi (set_f_ref 1 x0)) (fs_file (k_files k)))) \/
    (rc = -1 /\ k' = k)).
Proof.
  intros Hh [Hlen Hfree] Hm. set (t := fs_file (k_files k)) in *. unfold pipealloc.
  apply wp_bind, filealloc_spec; [done|done| |].
  2: { intros _. apply wp_bind, wp_ret, wp_bind, wp_ret. cbn [Z.eqb negb orb]. apply wp_bind, wp_ret, wp_bind, wp_ret, wp_ret. by right. }
  fold t. intros f0 x0 F0. pose proof F0 as (Hf0 & R0 & _). set (t1 := put_file f0 (set_f_ref 1 x0) t).
  assert (E0 : (f0 =? 0) = false) by (apply Z.eqb_neq; destruct Hf0; lia). rewrite E0.
  assert (H01 : is_file t1 f0 (set_f_ref 1 x0)) by (by eapply is_file_put).
  assert (T0 : f_type (set_f_ref 1 x0) = FD_NONE) by (by apply (Hfree f0 x0)).
  apply wp_bind, filealloc_spec; [done|cbn; unfold t1, put_file; by rewrite length_insert| |].
  2: { intros _. apply wp_bind, wp_ret. cbn [Z.eqb negb orb].
    apply wp_bind, (close_fresh _ f0 (set_f_ref 1 x0)); [done|done|done|done|]. apply wp_bind, wp_ret, wp_ret. right. split; [done|].
    cbn [k_files set_k_files fs_file set_fs_file]. unfold t1. rewrite put_back by done. exact (with_files_same k). }
  cbn [k_files set_k_files fs_file set_fs_file]. intros f1 x1 F1.
  destruct (second_free _ _ _ _ _ F0 F1) as (Hne & Hf1 & R1).
  assert (E1 : (f1 =? 0) = false) by (apply Z.eqb_neq; destruct Hf1; lia). rewrite E1. cbn [orb negb].
  assert (H12 : forall y, is_file (put_file f1 y t1) f1 y) by (intros; eapply is_file_put; apply F1).
  assert (H02 : forall y, is_file (put_file f1 y t1) f0 (set_f_ref 1 x0)).
  { intros. apply is_file_put_ne; [done|done|apply Hf1]. }
  assert (T1 : f_type (set_f_ref 1 x1) = FD_NONE) by (by apply (Hfree f1 x1)).
  apply wp_bind, wp_on_m, (kalloc_spec _ l); [done| |].
  - intros _. cbn [Z.eqb]. apply wp_bind, (close_fresh _ f0 (set_f_ref 1 x0)); [done|apply H02|done|done|].
    apply wp_bind, (close_fresh _ f1 (set_f_ref 1 x1)); [done| |done|done|].
    { apply is_file_put_ne; [done|apply H12|apply Hf0]. }
    apply wp_ret. right. split; [done|]. cbn [k_files set_k_files fs_file set_fs_file set_k_m]. unfold t1.
    rewrite put_back2 by done. by destruct k as [? ? ? ? ? ? []].
  - intros pi l' s' -> Hpi _ _ Hm' _ _ _. rewrite (proj2 (Z.eqb_neq pi 0) Hpi). apply wp_bind, wp_fmod.
    apply wp_bind, (wp_setf _ f0 (set_f_ref 1 x0)); [apply H02|].
    apply wp_bind, (wp_setf _ f1 (set_f_ref 1 x1)); [apply is_file_put_ne; [done|apply H12|apply Hf0]|].
    apply wp_ret. left. split_and!; [done|done|]. exists pi, l', x0, x1. split_and!; try done; [apply new_pipe_wf|].
    cbn [k_files set_k_files fs_file set_fs_file set_fs_pipe set_k_m]. unfold t1, put_file.
    rewrite (list_insert_insert_ne _ (Z.to_nat (f0 - 1)) (Z.to_nat (f1 - 1))) by (destruct Hf0, Hf1; lia).
    by rewrite !list_insert_insert_eq.
Qed.

(** [pipeclose] frees a pipe with its last end.  While the other end is
    open the pipe stays and the processes waiting at that end become runnable;
    when both are closed its page is back on the free list. *)
Theorem pipeclose_frees k l pi x w :
  let x' := if w =? 0 then set_pi_readopen 0 x else set_pi_writeopen 0 x in
  let c := if w =? 0 then PipeWriteChan pi else PipeReadChan pi in
  held k = [] -> length (k_procs k) = NPROC -> kmem_inv (k_m k) l -> is_valid_pa pi = true -> pi ∉ l ->
  fs_pipe (k_files k) !! pi = Some x ->
  wp (pipeclose pi w) k (fun _ k' => held k' = [] /\ k_procs k' = imap (woken (k_cur k) c) (k_procs k) /\
    if (pi_readopen x' =? 0) && (pi_writeopen x' =? 0)
    then fs_pipe (k_files k') !! pi = None /\ kmem_inv (k_m k') (pi :: l)
    else fs_pipe (k_files k') !! pi = Some x' /\ kmem_inv (k_m k') l).
Proof.
  intros x' c Hh Hlen Hm Hv Hl Hx. unfold pipeclose. apply wp_bind, acquire_first; [done|].
  apply wp_bind. set (k1 := set_k_files (set_fs_pipe (<[pi := x']> (fs_pipe (k_files k))) (k_files k)) (set_held [PipeLock pi] k)).
  assert (Hw : forall Q, Q tt (set_k_procs (imap (woken (k_cur k) c) (k_procs k)) k1) ->
    wp (if negb (w =? 0) then setpi pi (set_pi_writeopen 0) >>> wakeup (PipeReadChan pi)
        else setpi pi (set_pi_readopen 0) >>> wakeup (PipeWriteChan pi)) (set_held [PipeLock pi] k) Q).
  { intros Q HQ. unfold x', c in *. destruct (w =? 0); cbn [negb]; apply wp_bind, wp_bind, (wp_getpi pi _ x); try done;
      apply wp_fmod, wakeup_spec; try done; intros j _; cbn; by intros [?|?%not_elem_of_nil]%elem_of_cons. }
  apply Hw. apply wp_bind, (wp_getpi pi _ x'); [apply lookup_insert_eq|]. apply wp_bind, release_only; [done|].
  destruct ((pi_readopen x' =? 0) && (pi_writeopen x' =? 0)).
  - apply wp_bind, wp_fmod, wp_on_m. eapply wp_mono; [apply (kfree_spec _ l pi)|].
    + destruct Hm as [? ? ? ? ?]. split; try done. apply not_elem_of_nil.
    + done.
    + done.
    + cbn beta. intros _ s' (Hm' & _ & Hh'). split_and!; [exact Hh'|done|apply lookup_delete_eq|exact Hm'].
  - apply wp_ret. split_and!; [done|done|apply lookup_insert_eq|]. destruct Hm as [? ? ? ? ?]. split; try done. apply not_elem_of_nil.
Qed.
End files.
