(* ===== verification/PipeWitness.v ===== *)
(** The theorems on pipes applied to the machine of [Boot], with a file table
    and one pipe. *)

From S2P Require Import Prelude.
From S2P Require Import Memory.
From S2P Require Import Spinlock.
From S2P Require Import Riscv.
From S2P Require Import Kalloc.
From S2P Require Import UserMem.
From S2P Require Import UserCopy.
From S2P Require Import Proc.
From S2P Require Import ProcInv.
From S2P Require Import ProcCtl.
From S2P Require Import SysSpec.
From S2P Require Import Uvm.
From S2P Require Import Boot.
From S2P Require Import FsState.
From S2P Require Import Log.
From S2P Require Import Pipe.
From S2P Require Import PipeSpec.
From S2P Require Import FileSpec.
From S2P Require Import FsBoot.

(** The machine with another file layer. *)
Definition with_fs {F} (fs : fsys) (k : kernel F) : kernel fsys :=
  Kernel (k_m k) (k_procs k) (k_nextpid k) (k_initproc k) (k_cur k) (k_ticks k) fs.

Definition free_file : file := File FD_NONE 0 0 0 0 0 0 0.
Definition pipes (m : gmap Z pipe) : fsys := set_fs_pipe m (set_fs_file (replicate NFILE free_file) (blank (fun _ => zeros) blank_log)).

(** A process with two pages of zeroes. *)
Lemma pipe_caller fs : exists k l p, caller 0 p k /\ k_files k = fs /\ kmem_inv (k_m k) l /\ length (k_procs k) = NPROC /\
  (exists pi l', l = pi :: l') /\
  forall va, 0 <= va < 8192 -> ubyte (mem (k_m k)) (p_pagetable p) va = Some (Z.lor (uperm PTE_W) PTE_V, 0).
Proof.
  destruct grown_ok as (l & p & A & Hv). assert (Hne : freelist (k_m grown) <> 0) by (by vm_compute).
  generalize dependent grown. intros k A Hv Hne. exists (with_fs fs k), l, p. split_and!.
  - split; try apply A; [|by eapply alone_live]. exists l. destruct (al_inv _ _ _ _ A) as [? ? ? ?]. by split.
  - done.
  - apply (al_inv _ _ _ _ A).
  - apply (pw_len _ _ (ki_wf _ _ (al_inv _ _ _ _ A))).
  - destruct l as [|q l]; [|eauto]. exfalso. by apply Hne, (km_rep _ _ (ki_kmem _ _ (al_inv _ _ _ _ A))).
  - exact Hv.
Qed.

(** The zeroes can be read and overwritten. *)
Lemma zeroes_readable m r :
  (forall va, 0 <= va < 8192 -> ubyte m r va = Some (Z.lor (uperm PTE_W) PTE_V, 0)) ->
  reads (ubyte m r) 16 [0; 0; 0] /\ writable_word (ubyte m r) 16 2.
Proof.
  intros Hv. assert (Hlt : 8192 < TRAPFRAME) by (by vm_compute). split; split; cbn [length].
  - lia.
  - intros i Hi. exists (Z.lor (uperm PTE_W) PTE_V). rewrite Hv by lia. split; [|by vm_compute].
    by destruct i as [|[|[|]]]; [..|lia].
  - lia.
  - intros i Hi. exists (Z.lor (uperm PTE_W) PTE_V), 0. rewrite Hv by lia. by vm_compute.
Qed.

(** A pipe with two bytes in it. *)
Definition two_bytes : pipe := push 8 (push 7 new_pipe).

Lemma two_bytes_wf : pipe_wf two_bytes.
Proof.
  apply push_wf; [apply push_wf; [apply new_pipe_wf|]|]; apply (bool_decide_unpack _); by vm_compute.
Qed.

Lemma pipewrite_appends_witness : exists k,
  wp (pipewrite no_switch 4 7 16 3) k (fun r k' => r = 3 /\
    exists x', fs_pipe (k_files k') !! 7 = Some x' /\ contents x' = [7; 8; 0; 0; 0]).
Proof.
  destruct (pipe_caller (pipes {[7 := two_bytes]})) as (k & l & p & C & Hf & _ & _ & _ & Hv).
  destruct (zeroes_readable _ _ Hv) as [Hr _]. exists k.
  eapply wp_mono; [apply (pipewrite_appends no_switch 4 0 p 7 k two_bytes 16 [0; 0; 0])|].
  - exact C.
  - rewrite Hf. apply lookup_singleton_eq.
  - exact two_bytes_wf.
  - done.
  - lia.
  - exact Hr.
  - apply (bool_decide_unpack _). by vm_compute.
  - cbn. lia.
  - cbn beta. intros r k' (-> & x' & Hl & _ & Hc & _). split; [done|]. exists x'.
    rewrite (lf_files _ _ _ _ _ Hl), Hc. split; [apply lookup_insert_eq|by vm_compute].
Defined.

Lemma piperead_takes_witness : exists k,
  wp (piperead no_switch 4 7 16 5) k (fun r k' => r = 2 /\
    exists x', fs_pipe (k_files k') !! 7 = Some x' /\ contents x' = []).
Proof.
  destruct (pipe_caller (pipes {[7 := two_bytes]})) as (k & l & p & C & Hf & _ & _ & _ & Hv).
  destruct (zeroes_readable _ _ Hv) as [_ Hw]. exists k.
  assert (E : contents two_bytes = [7; 8]) by (by vm_compute).
  eapply wp_mono; [apply (piperead_takes no_switch 4 0 p 7 k two_bytes 16 5)|].
  - exact C.
  - rewrite Hf. apply lookup_singleton_eq.
  - exact two_bytes_wf.
  - left. by rewrite E.
  - rewrite E. repeat constructor; lia.
  - lia.
  - rewrite E. exact Hw.
  - rewrite E. cbn. lia.
  - cbn beta. rewrite E. intros r k' (-> & x' & Hl & _ & Hc & _). split; [done|]. exists x'.
    rewrite (lf_files _ _ _ _ _ Hl), Hc. split; [apply lookup_insert_eq|done].
Defined.

Lemma pipealloc_connects_witness : exists k l,
  wp (pipealloc no_switch 1 ideal_rw (fun _ => ret tt)) k (fun '(rc, f0, f1) k' => rc = 0 /\ f0 <> f1 \/ rc = -1 /\ k' = k) /\ kmem_inv (k_m k) l.
Proof.
  destruct (pipe_caller (pipes ∅)) as (k & l & p & C & Hf & Hm & _). exists k, l. split; [|exact Hm].
  eapply wp_mono; [apply (pipealloc_connects no_switch 1 ideal_rw (fun _ => ret tt) k l)|].
  - apply C.
  - rewrite Hf. split; [apply length_replicate|]. intros f x [_ Hx] _. apply lookup_replicate in Hx as [-> _]. done.
  - exact Hm.
  - cbn beta. intros [[rc f0] f1] k' [(-> & Hne & _)|[-> ->]]; auto.
Defined.

(** Closing the read end of a pipe whose write end is closed. *)
Lemma pipeclose_frees_witness : exists (k : kernel fsys) pi l,
  wp (pipeclose pi 0) k (fun _ k' => fs_pipe (k_files k') !! pi = None /\ kmem_inv (k_m k') (pi :: l)).
Proof.
  destruct (pipe_caller (pipes ∅)) as (k0 & l0 & p & C & _ & Hm & Hlen & (pi & l & ->) & _).
  pose proof (km_valid _ _ Hm) as Hv. pose proof (km_nodup _ _ Hm) as Hnd.
  apply Forall_cons in Hv as [Hv _]. apply NoDup_cons in Hnd as [Hnd _].
  destruct (wp_exists _ _ _ (kalloc_cons _ _ _ Hm)) as (r & s & -> & Hs & _ & Hh & _).
  exists (set_k_m s (with_fs (pipes {[pi := set_pi_writeopen 0 two_bytes]}) k0)), pi, l.
  eapply wp_mono; [apply (pipeclose_frees _ l pi (set_pi_writeopen 0 two_bytes) 0)|].
  - etransitivity; [exact Hh|apply C].
  - exact Hlen.
  - exact Hs.
  - exact Hv.
  - exact Hnd.
  - apply lookup_singleton_eq.
  - cbn beta. intros _ k' (_ & _ & H). exact H.
Defined.
