(* ===== verification/Console.v ===== *)
(** The console: console.c, and the output side of uart.c. *)

From Stdlib Require Import Ascii.
From S2P Require Import Prelude.
From S2P Require Import Spinlock.
From S2P Require Import Riscv.
From S2P Require Import Kalloc.
From S2P Require Import UserMem.
From S2P Require Import Proc.
From S2P Require Import ProcCtl.
From S2P Require Import FsState.
From S2P Require Import Bio.
From S2P Require Import BioSpec.

(** [C(x)]. *)
Definition ctrl (x : Z) : Z := x - 64.
Definition CTRL_D : Z := ctrl 68.
Definition CTRL_H : Z := ctrl 72.
Definition CTRL_P : Z := ctrl 80.
Definition CTRL_U : Z := ctrl 85.
Definition NEWLINE : Z := 10.
Definition RETURN : Z := 13.
Definition DELETE : Z := 127.
Definition BACKSPACE : Z := 256.

Definition set_c_r x c := Console (c_buf c) x (c_w c) (c_e c).
Definition set_c_w x c := Console (c_buf c) (c_r c) x (c_e c).
Definition set_c_e x c := Console (c_buf c) (c_r c) (c_w c) x.

Section code.
Context `{LinkerSyms} (swtch : M (kernel fsys) unit) (fuel : nat).
Abbreviation K := (M (kernel fsys)).

(** [WriteReg(THR, c)]. *)
Definition send (c : Z) : K unit := fmod (fun s => set_fs_uart (Uart (u_sent (fs_uart s) ++ [u8 c]) (u_busy (fs_uart s))) s).

(** The register is taken to be empty when it is polled. *)
Definition uartputc_sync (c : Z) : K unit := send c.

Definition uartwrite (buf : list Z) : K unit :=
  lock_acquire TxLock >>>
  loop (S (length buf)) (fun i =>
    match buf !! i with
    | Some c =>
        loop fuel (fun _ =>
          u <- fgets fs_uart ;;
          if negb (u_busy u =? 0) then sleep swtch TxChan TxLock >>> ret (inl tt) else ret (inr tt)) tt >>>
        send c >>>
        fmod (fun s => set_fs_uart (Uart (u_sent (fs_uart s)) 1) s) >>>
        ret (inl (S i))
    | None => ret (inr tt)
    end) 0%nat >>>
  lock_release TxLock.

Definition consputc (c : Z) : K unit :=
  if c =? BACKSPACE then uartputc_sync 8 >>> uartputc_sync 32 >>> uartputc_sync 8
  else uartputc_sync c.

Definition cget {A} (f : console -> A) : K A := fgets (fun s => f (fs_cons s)).
Definition cmod (f : console -> console) : K unit := fmod (fun s => set_fs_cons (f (fs_cons s)) s).

(** [cons.buf[i % INPUT_BUF_SIZE]]. *)
Definition cons_slot (i : Z) : nat := Z.to_nat (i mod Z.of_nat INPUT_BUF_SIZE).
Definition cons_char (i : Z) : K Z := fun k =>
  match c_buf (fs_cons (k_files k)) !! cons_slot i with Some c => Ok (c, k) | None => Crash end.

(** For a user address, as fileread and filewrite call it. *)
Definition consolewrite (src n : Z) : K Z :=
  loop (S (Z.to_nat n)) (fun i =>
    if i <? n then
      let nn := Z.min 32 (n - i) in
      r <- either_copyin_user (u64 (src + i)) (Z.to_nat nn) ;;
      if fst r =? -1 then ret (inr i)
      else uartwrite (snd r) >>> ret (inl (i + nn))
    else ret (inr i)) 0.

Definition consoleread (dst n : Z) : K Z :=
  let target := n in
  lock_acquire ConsLock >>>
  r <- loop fuel (fun '(dst, n) =>
    if 0 <? n then
      alive <- loop fuel (fun _ =>
        c <- cget id ;;
        if c_r c =? c_w c then
          p <- myproc ;;
          kl <- killed p ;;
          if negb (kl =? 0) then lock_release ConsLock >>> ret (inr false)
          else sleep swtch ConsChan ConsLock >>> ret (inl tt)
        else ret (inr true)) tt ;;
      if negb alive then ret (inr None)
      else
        i <- cget c_r ;;
        c <- cons_char i ;;
        cmod (set_c_r (u32 (i + 1))) >>>
        if c =? CTRL_D then
          (if n <? target then cmod (fun x => set_c_r (u32 (c_r x - 1)) x) else ret tt) >>>
          ret (inr (Some n))
        else
          rc <- either_copyout_user dst [c] ;;
          if rc =? -1 then ret (inr (Some n))
          else if c =? NEWLINE then ret (inr (Some (n - 1)))
          else ret (inl (u64 (dst + 1), n - 1))
    else ret (inr (Some n))) (dst, n) ;;
  match r with
  | None => ret (-1)
  | Some n => lock_release ConsLock >>> ret (target - n)
  end.

(** [procdump] only prints; it is an argument. *)
Definition consoleintr (procdump : K unit) (c : Z) : K unit :=
  lock_acquire ConsLock >>>
  (if c =? CTRL_P then procdump
   else if c =? CTRL_U then
     loop (S INPUT_BUF_SIZE) (fun _ =>
       x <- cget id ;;
       if c_e x =? c_w x then ret (inr tt)
       else
         b <- cons_char (u32 (c_e x - 1)) ;;
         if b =? NEWLINE then ret (inr tt)
         else cmod (fun x => set_c_e (u32 (c_e x - 1)) x) >>> consputc BACKSPACE >>> ret (inl tt)) tt
   else if (c =? CTRL_H) || (c =? DELETE) then
     x <- cget id ;;
     if c_e x =? c_w x then ret tt
     else cmod (fun x => set_c_e (u32 (c_e x - 1)) x) >>> consputc BACKSPACE
   else
     x <- cget id ;;
     if negb (c =? 0) && (u32 (c_e x - c_r x) <? Z.of_nat INPUT_BUF_SIZE) then
       let c := if c =? RETURN then NEWLINE else c in
       consputc c >>>
       cmod (fun x => Console (<[cons_slot (c_e x) := u8 c]> (c_buf x)) (c_r x) (c_w x) (u32 (c_e x + 1))) >>>
       x <- cget id ;;
       if (c =? NEWLINE) || (c =? CTRL_D) || (u32 (c_e x - c_r x) =? Z.of_nat INPUT_BUF_SIZE)
       then cmod (fun x => set_c_w (c_e x) x) >>> wakeup ConsChan
       else ret tt
     else ret tt) >>>
  lock_release ConsLock.
End code.

(** * Line editing on the console.

    The input buffer represents two strings: [ready], the characters that
    consoleread may take, and [editing], the line being typed. *)

(** [n] characters of the ring from index [a] on. *)
Definition span (buf : list Z) (a : Z) (n : nat) : list Z := map (fun i => nth (cons_slot (a + Z.of_nat i)) buf 0) (seq 0 n).

Definition n_ready (x : console) : nat := Z.to_nat (u32 (c_w x - c_r x)).
Definition n_editing (x : console) : nat := Z.to_nat (u32 (c_e x - c_w x)).
Definition ready (x : console) : list Z := span (c_buf x) (c_r x) (n_ready x).
Definition editing (x : console) : list Z := span (c_buf x) (c_w x) (n_editing x).

Record cons_wf (x : console) : Prop := {
  cw_buf : length (c_buf x) = INPUT_BUF_SIZE;
  cw_r : 0 <= c_r x < 2 ^ 32;
  cw_w : 0 <= c_w x < 2 ^ 32;
  cw_e : 0 <= c_e x < 2 ^ 32;
  cw_room : (n_ready x + n_editing x <= INPUT_BUF_SIZE)%nat;
  cw_line : NEWLINE ∉ editing x
}.

(** ** The ring *)

Lemma span_length buf a n : length (span buf a n) = n.
Proof. unfold span. by rewrite length_map, length_seq. Qed.

Lemma slot_bound i : (cons_slot i < 128)%nat.
Proof. unfold cons_slot, INPUT_BUF_SIZE. pose proof (Z.mod_pos_bound i 128). lia. Qed.

Lemma slot_wrap i : cons_slot (u32 i) = cons_slot i.
Proof. unfold cons_slot, u32, INPUT_BUF_SIZE. dlia. Qed.

Lemma span_S buf a n : span buf a (S n) = span buf a n ++ [nth (cons_slot (a + Z.of_nat n)) buf 0].
Proof. unfold span. by rewrite seq_S, map_app. Qed.

Lemma span_app buf a n m : span buf a (n + m) = span buf a n ++ span buf (a + Z.of_nat n) m.
Proof.
  induction m as [|m IH]; [rewrite Nat.add_0_r; unfold span at 3; cbn; by rewrite app_nil_r|].
  rewrite Nat.add_succ_r, !span_S, IH, <- app_assoc. by replace (a + Z.of_nat (n + m)) with (a + Z.of_nat n + Z.of_nat m) by lia.
Qed.

Lemma span_wrap buf a n : span buf (u32 a) n = span buf a n.
Proof.
  unfold span. apply map_ext. intros i. f_equal. rewrite <- (slot_wrap (u32 a + _)), <- (slot_wrap (a + _)). f_equal.
  unfold u32. dlia.
Qed.

(** Storing outside a span. *)
Lemma span_store buf a n j c :
  (forall i, (i < n)%nat -> cons_slot (a + Z.of_nat i) <> cons_slot j) -> span (<[cons_slot j := c]> buf) a n = span buf a n.
Proof.
  intros Hne. apply map_ext_in. intros i Hi%in_seq. rewrite !nth_lookup, list_lookup_insert_ne; [done|].
  apply not_eq_sym, Hne. lia.
Qed.

Lemma slot_ne a b : 0 < b - a < 128 -> cons_slot a <> cons_slot b.
Proof. unfold cons_slot, INPUT_BUF_SIZE. dlia. Qed.

(** ** The abstract console *)

Definition commits (c : Z) (full : bool) : bool := (c =? NEWLINE) || (c =? CTRL_D) || full.

Definition typed (c : Z) (s : list Z * list Z) : list Z * list Z :=
  let '(rd, ed) := s in
  if c =? CTRL_U then (rd, [])
  else if (c =? CTRL_H) || (c =? DELETE) then (rd, removelast ed)
  else if negb (c =? 0) && (length rd + length ed <? INPUT_BUF_SIZE)%nat then
    let c := if c =? RETURN then NEWLINE else c in
    if commits c (length rd + length ed + 1 =? INPUT_BUF_SIZE)%nat then (rd ++ ed ++ [c], []) else (rd, ed ++ [c])
  else (rd, ed).

Definition abs (x : console) : list Z * list Z := (ready x, editing x).

(** Taking back the last character. *)
Definition back (x : console) : console := set_c_e (u32 (c_e x - 1)) x.

Lemma back_n x : cons_wf x -> c_e x <> c_w x -> n_editing x = S (n_editing (back x)).
Proof. intros [_ _ Hw He _ _] Hne. unfold n_editing, back, u32. cbn. dlia. Qed.

Lemma back_editing x : cons_wf x -> c_e x <> c_w x ->
  editing x = editing (back x) ++ [nth (cons_slot (u32 (c_e x - 1))) (c_buf x) 0].
Proof.
  intros W Hne. unfold editing. rewrite (back_n x W Hne), span_S. cbn [back set_c_e c_buf c_w].
  rewrite <- (slot_wrap (c_w x + _)). replace (u32 (c_w x + _)) with (u32 (c_e x - 1)); [done|].
  destruct W as [_ _ Hw He _ _]. unfold n_editing, back, u32. cbn [set_c_e c_e c_w]. dlia.
Qed.

Lemma back_wf x : cons_wf x -> c_e x <> c_w x -> cons_wf (back x).
Proof.
  intros W Hne. pose proof (back_n x W Hne) as Hn. pose proof (back_editing x W Hne) as He. destruct W. split; try done.
  - cbn. apply u32_range.
  - change (n_ready (back x)) with (n_ready x). lia.
  - intros Hin. apply cw_line0. rewrite He. set_solver.
Qed.

Lemma empty_line x : cons_wf x -> c_e x = c_w x -> editing x = [].
Proof. intros _ E. unfold editing, n_editing. by rewrite E, Z.sub_diag. Qed.

(** Storing a character at the end. *)
Definition store (c : Z) (x : console) : console :=
  Console (<[cons_slot (c_e x) := u8 c]> (c_buf x)) (c_r x) (c_w x) (u32 (c_e x + 1)).

Section room.
Context (x : console) (W : cons_wf x) (Hroom : (n_ready x + n_editing x < INPUT_BUF_SIZE)%nat).

Lemma at_end : c_e x = u32 (c_w x + Z.of_nat (n_editing x)) /\ c_w x = u32 (c_r x + Z.of_nat (n_ready x)).
Proof. destruct W as [_ Hr Hw He _ _]. unfold n_editing, n_ready, u32. dlia. Qed.

Lemma store_n c : n_editing (store c x) = S (n_editing x).
Proof. destruct W as [_ Hr Hw He _ _]. unfold n_editing, n_ready, store, u32, INPUT_BUF_SIZE in *. cbn. dlia. Qed.

Lemma store_ready c : ready (store c x) = ready x.
Proof.
  unfold ready. change (n_ready (store c x)) with (n_ready x). cbn [store c_buf c_r]. apply span_store. intros i Hi.
  destruct at_end as [-> ->]. rewrite slot_wrap, <- (slot_wrap (u32 _ + _)).
  replace (u32 (u32 (c_r x + Z.of_nat (n_ready x)) + Z.of_nat (n_editing x))) with (u32 (c_r x + Z.of_nat (n_ready x) + Z.of_nat (n_editing x)))
    by (unfold u32; dlia).
  rewrite slot_wrap. apply slot_ne. unfold INPUT_BUF_SIZE in *. lia.
Qed.

Lemma store_editing c : 0 <= c < 256 -> editing (store c x) = editing x ++ [c].
Proof.
  intros Hc. unfold editing. rewrite store_n, span_S. cbn [store c_buf c_w]. destruct at_end as [E _]. f_equal.
  - apply span_store. intros i Hi. rewrite E, slot_wrap. apply slot_ne. unfold INPUT_BUF_SIZE in *. lia.
  - rewrite E, slot_wrap, nth_lookup, list_lookup_insert_eq; [cbn; by rewrite u8_id|].
    rewrite (cw_buf _ W). apply slot_bound.
Qed.

(** The line is complete. *)
Lemma commit_abs c : 0 <= c < 256 -> abs (set_c_w (c_e (store c x)) (store c x)) = (ready x ++ editing x ++ [c], []).
Proof.
  intros Hc. unfold abs. f_equal.
  - rewrite <- store_editing, <- (store_ready c) by done. unfold ready at 1, editing. cbn [set_c_w c_buf c_r c_w].
    replace (n_ready (set_c_w _ _)) with (n_ready (store c x) + n_editing (store c x))%nat.
    + rewrite span_app. unfold ready. f_equal. rewrite <- span_wrap. f_equal. destruct at_end as [_ E]. symmetry. exact E.
    + rewrite store_n. destruct W as [_ Hr Hw He _ _]. unfold n_ready, n_editing, store, set_c_w, u32, INPUT_BUF_SIZE in *.
      cbn [c_r c_w c_e] in *. dlia.
  - unfold editing, n_editing, set_c_w. cbn. by rewrite Z.sub_diag.
Qed.

Lemma store_wf c : 0 <= c < 256 -> c <> NEWLINE -> cons_wf (store c x).
Proof.
  intros Hc Hn. pose proof (store_n c) as En. pose proof (store_editing c Hc) as Ee. destruct W. split; cbn; try done.
  - by rewrite length_insert.
  - apply u32_range.
  - change (n_ready (store c x)) with (n_ready x). rewrite En. lia.
  - rewrite Ee. set_solver.
Qed.

Lemma commit_wf c : 0 <= c < 256 -> cons_wf (set_c_w (c_e (store c x)) (store c x)).
Proof.
  intros Hc. set (y := set_c_w (c_e (store c x)) (store c x)).
  assert (Er : ready y = ready x ++ editing x ++ [c]) by exact (f_equal fst (commit_abs c Hc)).
  assert (Ee : editing y = []) by exact (f_equal snd (commit_abs c Hc)).
  assert (Hlen : n_ready y = (n_ready x + n_editing x + 1)%nat).
  { apply (f_equal length) in Er. rewrite !length_app in Er. unfold ready, editing in Er. rewrite !span_length in Er. cbn in Er. lia. }
  assert (Hz : n_editing y = 0%nat) by (unfold n_editing, y, set_c_w; cbn; by rewrite Z.sub_diag).
  destruct W. split; cbn; try done.
  - by rewrite length_insert.
  - apply u32_range.
  - apply u32_range.
  - rewrite Hlen, Hz. lia.
  - rewrite Ee. apply not_elem_of_nil.
Qed.

Lemma full_now c : (u32 (c_e (store c x) - c_r x) =? Z.of_nat INPUT_BUF_SIZE) = (length (ready x) + length (editing x) + 1 =? INPUT_BUF_SIZE)%nat.
Proof.
  unfold ready, editing. rewrite !span_length. destruct W as [_ Hr Hw He _ _].
  unfold n_ready, n_editing, store, u32, INPUT_BUF_SIZE in *. cbn [c_e]. apply eq_true_iff_eq. rewrite Z.eqb_eq, Nat.eqb_eq. dlia.
Qed.
End room.

(** ** consoleintr *)

Section intr.
Context (procdump : M (kernel fsys) unit).
Implicit Types k : kernel fsys.

(** Inside the handler: the console is [x], the processes are as in [k0]. *)
Record handling (k0 : kernel fsys) (x : console) (k : kernel fsys) : Prop := {
  hd_held : held k = [ConsLock];
  hd_procs : k_procs k = k_procs k0;
  hd_cur : k_cur k = k_cur k0;
  hd_cons : fs_cons (k_files k) = x
}.

Lemma wp_send k0 x k c (Q : unit -> kernel fsys -> Prop) :
  handling k0 x k -> (forall k', handling k0 x k' -> Q tt k') -> wp (uartputc_sync c) k Q.
Proof. intros [] HQ. unfold uartputc_sync, send. apply wp_fmod, HQ. by split. Qed.

Lemma wp_consputc k0 x k c (Q : unit -> kernel fsys -> Prop) :
  handling k0 x k -> (forall k', handling k0 x k' -> Q tt k') -> wp (consputc c) k Q.
Proof.
  intros H HQ. unfold consputc. destruct (c =? BACKSPACE); [|by eapply wp_send].
  apply wp_bind. eapply wp_send; [exact H|]. intros k1 H1. apply wp_bind. eapply wp_send; [exact H1|]. intros k2 H2.
  by eapply wp_send.
Qed.

Lemma wp_cget {A} (f : console -> A) k0 x k (Q : A -> kernel fsys -> Prop) : handling k0 x k -> Q (f x) k -> wp (cget f) k Q.
Proof. intros [_ _ _ <-] HQ. by apply wp_fgets. Qed.

Lemma wp_cmod f k0 x k (Q : unit -> kernel fsys -> Prop) :
  handling k0 x k -> (forall k', handling k0 (f x) k' -> Q tt k') -> wp (cmod f) k Q.
Proof. intros [? ? ? <-] HQ. apply wp_fmod, HQ. by split. Qed.

Lemma wp_cons_char k0 x k i (Q : Z -> kernel fsys -> Prop) :
  handling k0 x k -> cons_wf x -> Q (nth (cons_slot i) (c_buf x) 0) k -> wp (cons_char i) k Q.
Proof.
  intros [_ _ _ Hx] W HQ. unfold wp, cons_char. rewrite Hx.
  destruct (lookup_lt_is_Some_2 (c_buf x) (cons_slot i)) as [c Hc]; [rewrite (cw_buf _ W); apply slot_bound|].
  rewrite Hc. rewrite nth_lookup, Hc in HQ. exact HQ.
Qed.

(** The line is killed. *)
Lemma kill_line k0 x k (Q : unit -> kernel fsys -> Prop) :
  handling k0 x k -> cons_wf x -> (forall y k', handling k0 y k' -> cons_wf y -> abs y = (ready x, []) -> Q tt k') ->
  wp (loop (S INPUT_BUF_SIZE) (fun _ =>
       x <- cget id ;;
       if c_e x =? c_w x then ret (inr tt)
       else
         b <- cons_char (u32 (c_e x - 1)) ;;
         if b =? NEWLINE then ret (inr tt)
         else cmod (fun x => set_c_e (u32 (c_e x - 1)) x) >>> consputc BACKSPACE >>> ret (inl tt)) tt) k Q.
Proof.
  intros H W HQ.
  apply (wp_loop_st (fun _ k' => exists y, handling k0 y k' /\ cons_wf y /\ ready y = ready x)
    (fun _ k' => n_editing (fs_cons (k_files k')))).
  - intros [] k' (y & Hy & Wy & Hr). apply wp_bind. eapply wp_cget; [exact Hy|]. unfold id.
    destruct (Z.eqb_spec (c_e y) (c_w y)) as [E|E].
    { apply wp_ret. apply (HQ y); [done|done|]. unfold abs. by rewrite (empty_line y), Hr. }
    apply wp_bind. eapply wp_cons_char; [exact Hy|done|]. pose proof (back_editing y Wy E) as Eb.
    destruct (Z.eqb_spec (nth (cons_slot (u32 (c_e y - 1))) (c_buf y) 0) NEWLINE) as [En|_].
    { exfalso. apply (cw_line _ Wy). rewrite Eb, En. set_solver. }
    apply wp_bind. eapply wp_cmod; [exact Hy|]. intros k2 H2. apply wp_bind. eapply wp_consputc; [exact H2|]. intros k3 H3.
    apply wp_ret. change (set_c_e (u32 (c_e y - 1)) y) with (back y) in H3. split.
    + exists (back y). split_and!; [done|by apply back_wf|done].
    + rewrite (hd_cons _ _ _ H3), (hd_cons _ _ _ Hy), (back_n y Wy E). lia.
  - by exists x.
  - rewrite (hd_cons _ _ _ H). pose proof (cw_room _ W). lia.
Qed.

(** A character is stored, and the line handed over if it is complete. *)
Lemma store_char k0 x k c (Q : unit -> kernel fsys -> Prop) :
  handling k0 x k -> cons_wf x -> (n_ready x + n_editing x < INPUT_BUF_SIZE)%nat -> 0 <= c < 256 -> length (k_procs k0) = NPROC ->
  (forall k', held k' = [ConsLock] -> cons_wf (fs_cons (k_files k')) ->
     abs (fs_cons (k_files k')) =
       (if commits c (length (ready x) + length (editing x) + 1 =? INPUT_BUF_SIZE)%nat
        then (ready x ++ editing x ++ [c], []) else (ready x, editing x ++ [c])) -> Q tt k') ->
  wp (consputc c >>>
      cmod (fun x => Console (<[cons_slot (c_e x) := u8 c]> (c_buf x)) (c_r x) (c_w x) (u32 (c_e x + 1))) >>>
      x <- cget id ;;
      if (c =? NEWLINE) || (c =? CTRL_D) || (u32 (c_e x - c_r x) =? Z.of_nat INPUT_BUF_SIZE)
      then cmod (fun x => set_c_w (c_e x) x) >>> wakeup ConsChan
      else ret tt) k Q.
Proof.
  intros H W Hroom Hc Hlen HQ. apply wp_bind. eapply wp_consputc; [exact H|]. intros k1 H1.
  apply wp_bind. eapply wp_cmod; [exact H1|]. fold (store c x). intros k2 H2.
  apply wp_bind. eapply wp_cget; [exact H2|]. unfold id. change (c_r (store c x)) with (c_r x). rewrite full_now by done.
  fold (commits c (length (ready x) + length (editing x) + 1 =? INPUT_BUF_SIZE)%nat). destruct (commits c _) eqn:Ec.
  - apply wp_bind. eapply wp_cmod; [exact H2|]. intros k3 H3. apply wakeup_spec.
    + by rewrite (hd_procs _ _ _ H3).
    + intros j _. rewrite (hd_held _ _ _ H3). by intros [?|?%not_elem_of_nil]%elem_of_cons.
    + apply HQ; [apply H3|by cbn; rewrite (hd_cons _ _ _ H3); apply commit_wf|cbn; rewrite (hd_cons _ _ _ H3); by apply commit_abs].
  - assert (Hn : c <> NEWLINE) by (intros ->; done). apply wp_ret, HQ; [apply H2|rewrite (hd_cons _ _ _ H2); by apply store_wf|].
    rewrite (hd_cons _ _ _ H2). unfold abs. by rewrite store_ready, store_editing.
Qed.

(** C13. The console edits a line as it is typed.  Except for control-P, each
    character that arrives changes the strings [ready] and [editing] as the
    abstract console [typed] does: it is appended, or takes back the last
    character or the whole line, and a newline, a control-D or a full buffer
    hands the line to the readers; the buffer stays consistent. *)
Theorem consoleintr_edits k c :
  held k = [] -> length (k_procs k) = NPROC -> cons_wf (fs_cons (k_files k)) -> 0 <= c < 256 -> c <> CTRL_P ->
  wp (consoleintr procdump c) k (fun _ k' => held k' = [] /\ cons_wf (fs_cons (k_files k')) /\
    abs (fs_cons (k_files k')) = typed c (abs (fs_cons (k_files k)))).
Proof.
  intros Hh Hlen W Hc Hp. set (x := fs_cons (k_files k)) in *. unfold consoleintr.
  apply wp_bind, acquire_first; [done|]. set (k1 := set_held [ConsLock] k).
  assert (H1 : handling k x k1) by (by split). apply wp_bind. remember (typed c (abs x)) as T eqn:ET.
  assert (Hend : forall k', held k' = [ConsLock] -> cons_wf (fs_cons (k_files k')) -> abs (fs_cons (k_files k')) = T ->
    wp (lock_release ConsLock) k' (fun _ k' => held k' = [] /\ cons_wf (fs_cons (k_files k')) /\ abs (fs_cons (k_files k')) = T)).
  { intros k' Hk' Wk' Ek'. by apply release_only. }
  rewrite (proj2 (Z.eqb_neq c CTRL_P) Hp). unfold typed, abs in ET. destruct (c =? CTRL_U).
  { eapply kill_line; [exact H1|done|]. intros y k' Hy Wy Ey. rewrite <- (hd_cons _ _ _ Hy) in Wy, Ey.
    apply Hend; [apply Hy|done|by rewrite Ey, ET]. }
  destruct ((c =? CTRL_H) || (c =? DELETE)).
  - apply wp_bind. eapply wp_cget; [exact H1|]. unfold id. destruct (Z.eqb_spec (c_e x) (c_w x)) as [E|E].
    + apply wp_ret. apply Hend; [apply H1|done|]. rewrite ET. unfold abs. cbn. fold x. by rewrite (empty_line x).
    + apply wp_bind. eapply wp_cmod; [exact H1|]. intros k2 H2. eapply wp_consputc; [exact H2|]. intros k3 H3.
      apply Hend; [apply H3| |]; rewrite (hd_cons _ _ _ H3); [by apply back_wf|].
      rewrite ET, (back_editing x W E), removelast_last. done.
  - apply wp_bind. eapply wp_cget; [exact H1|]. unfold id.
    assert (En : (u32 (c_e x - c_r x) <? Z.of_nat INPUT_BUF_SIZE) = (length (ready x) + length (editing x) <? INPUT_BUF_SIZE)%nat).
    { unfold ready, editing. rewrite !span_length. destruct W as [_ ? ? ? Hroom _]. unfold n_ready, n_editing, u32, INPUT_BUF_SIZE in *.
      apply eq_true_iff_eq. rewrite Z.ltb_lt, Nat.ltb_lt. dlia. }
    rewrite En. destruct (negb (c =? 0) && _) eqn:Eg.
    + apply andb_true_iff in Eg as [_ Hroom%Nat.ltb_lt]. unfold ready, editing in Hroom. rewrite !span_length in Hroom.
      assert (Hc' : 0 <= (if c =? RETURN then NEWLINE else c) < 256) by (unfold NEWLINE; case_if; lia).
      eapply store_char; [exact H1|done|done|done|done|]. intros k' Hk' Wk' Ek'. apply Hend; [done|done|by rewrite Ek', ET].
    + apply wp_ret. apply Hend; [apply H1|done|by rewrite ET].
Qed.
End intr.
