(* ===== verification/Virtio.v ===== *)
(** The disk driver (virtio_disk.c, virtio.h).

    The driver shares a table of descriptors and two rings with the device.  A
    request takes three descriptors; its head goes into the ring [avail], the
    device does the transfer, puts the head into the ring [used] and raises an
    interrupt.  A process runs [virtio_disk_rw] up to a sleep without another
    process or the interrupt handler coming in between, since they all hold
    vdisk_lock; the device runs at any time.  [vstep] is this interleaving, and
    the theorems are about every state it reaches. *)

From S2P Require Import Prelude.
From S2P Require Import Memory.
From S2P Require Import Spinlock.
From S2P Require Import Riscv.
From S2P Require Import Kalloc.
From S2P Require Import FsState.

(** ** virtio.h *)

Definition NUM : nat := 8.
Definition VRING_DESC_F_NEXT : Z := 1.
Definition VRING_DESC_F_WRITE : Z := 2.
Definition VIRTIO_BLK_T_IN : Z := 0.
Definition VIRTIO_BLK_T_OUT : Z := 1.

(** A pointer the driver gives to the device: into [disk.ops], to the data of
    a buffer, or to the status byte of [disk.info]. *)
Inductive vaddr := NullA | OpA (i : nat) | DataA (b : nat) | StatusA (i : nat).

Record virtq_desc := Desc { d_addr : vaddr; d_len : Z; d_flags : Z; d_next : nat }.
Record virtio_blk_req := Req { rq_type : Z; rq_reserved : Z; rq_sector : Z }.
Record vinfo := Info { in_b : option nat; in_status : Z }.

(** [struct buf], as the driver uses it. *)
Record vbuf := Vbuf { vb_blockno : Z; vb_disk : Z; vb_data : block }.

(** [struct disk] and the rings it points to. *)
Record vdisk := Vdisk {
  vd_desc : list virtq_desc; vd_avail : list nat; vd_avail_idx : Z;
  vd_used : list nat; vd_used_end : Z;
  vd_free : list bool; vd_used_idx : Z; vd_info : list vinfo; vd_ops : list virtio_blk_req
}.

(** ** The processes

    A process in [virtio_disk_rw] waits for descriptors or for its request.
    The block [d] is not the program's: it is what the transfer is to leave
    both in the buffer and on the disk. *)

Inductive pc := PcAlloc (b : nat) (w : bool) (d : block) | PcWait (b : nat) (w : bool) (d : block) (idx : list nat).
Inductive thread := Away | Ready (p : pc) | Asleep (p : pc).

Inductive vchan := FreeChan | BufChan (b : nat).
Definition pc_chan (p : pc) : vchan := match p with PcAlloc _ _ _ => FreeChan | PcWait b _ _ _ => BufChan b end.
Definition pc_buf (p : pc) : nat := match p with PcAlloc b _ _ | PcWait b _ _ _ => b end.

#[global] Instance vchan_eq_dec : EqDecision vchan.
Proof. solve_decision. Defined.

(** ** The state

    The device has its blocks, the index up to which it has looked into
    [avail], and the heads it is working on. *)
Record vsys := Vsys {
  vs_q : vdisk; vs_bufs : list vbuf; vs_threads : list thread; vs_lock : bool; vs_mmio : list (Z * Z); vs_m : machine;
  vs_blocks : Z -> block; vs_seen : Z; vs_work : list nat
}.

Definition set_vs_q x s := Vsys x (vs_bufs s) (vs_threads s) (vs_lock s) (vs_mmio s) (vs_m s) (vs_blocks s) (vs_seen s) (vs_work s).
Definition set_vs_bufs x s := Vsys (vs_q s) x (vs_threads s) (vs_lock s) (vs_mmio s) (vs_m s) (vs_blocks s) (vs_seen s) (vs_work s).
Definition set_vs_threads x s := Vsys (vs_q s) (vs_bufs s) x (vs_lock s) (vs_mmio s) (vs_m s) (vs_blocks s) (vs_seen s) (vs_work s).
Definition set_vs_lock x s := Vsys (vs_q s) (vs_bufs s) (vs_threads s) x (vs_mmio s) (vs_m s) (vs_blocks s) (vs_seen s) (vs_work s).
Definition set_vs_mmio x s := Vsys (vs_q s) (vs_bufs s) (vs_threads s) (vs_lock s) x (vs_m s) (vs_blocks s) (vs_seen s) (vs_work s).
Definition set_vs_m x s := Vsys (vs_q s) (vs_bufs s) (vs_threads s) (vs_lock s) (vs_mmio s) x (vs_blocks s) (vs_seen s) (vs_work s).
Definition set_vs_blocks x s := Vsys (vs_q s) (vs_bufs s) (vs_threads s) (vs_lock s) (vs_mmio s) (vs_m s) x (vs_seen s) (vs_work s).
Definition set_vs_seen x s := Vsys (vs_q s) (vs_bufs s) (vs_threads s) (vs_lock s) (vs_mmio s) (vs_m s) (vs_blocks s) x (vs_work s).
Definition set_vs_work x s := Vsys (vs_q s) (vs_bufs s) (vs_threads s) (vs_lock s) (vs_mmio s) (vs_m s) (vs_blocks s) (vs_seen s) x.

Definition set_desc x q := Vdisk x (vd_avail q) (vd_avail_idx q) (vd_used q) (vd_used_end q) (vd_free q) (vd_used_idx q) (vd_info q) (vd_ops q).
Definition set_avail x n q := Vdisk (vd_desc q) x n (vd_used q) (vd_used_end q) (vd_free q) (vd_used_idx q) (vd_info q) (vd_ops q).
Definition set_used x n q := Vdisk (vd_desc q) (vd_avail q) (vd_avail_idx q) x n (vd_free q) (vd_used_idx q) (vd_info q) (vd_ops q).
Definition set_free x q := Vdisk (vd_desc q) (vd_avail q) (vd_avail_idx q) (vd_used q) (vd_used_end q) x (vd_used_idx q) (vd_info q) (vd_ops q).
Definition set_used_idx x q := Vdisk (vd_desc q) (vd_avail q) (vd_avail_idx q) (vd_used q) (vd_used_end q) (vd_free q) x (vd_info q) (vd_ops q).
Definition set_info x q := Vdisk (vd_desc q) (vd_avail q) (vd_avail_idx q) (vd_used q) (vd_used_end q) (vd_free q) (vd_used_idx q) x (vd_ops q).
Definition set_ops x q := Vdisk (vd_desc q) (vd_avail q) (vd_avail_idx q) (vd_used q) (vd_used_end q) (vd_free q) (vd_used_idx q) (vd_info q) x.

Abbreviation V := (M vsys).

Definition qmod (f : vdisk -> vdisk) : V unit := modify (fun s => set_vs_q (f (vs_q s)) s).
(** An array element; out of range is undefined. *)
Definition at_ {A} (proj : vsys -> list A) (i : nat) : V A := fun s => match proj s !! i with Some x => Ok (x, s) | None => Crash end.

(** ** Locks and sleeping *)

(** vdisk_lock, which no CPU takes twice; a process that finds it taken waits
    outside this model. *)
Definition vlock : V unit := l <- gets vs_lock ;; if l then panic "acquire" else modify (set_vs_lock true).
Definition vunlock : V unit := l <- gets vs_lock ;; if l then modify (set_vs_lock false) else panic "release".

Definition wake (c : vchan) (t : thread) : thread :=
  match t with Asleep p => if decide (pc_chan p = c) then Ready p else t | _ => t end.
Definition vwakeup (c : vchan) : V unit := modify (fun s => set_vs_threads (map (wake c) (vs_threads s)) s).
(** [sleep(chan, &disk.vdisk_lock)], up to the switch. *)
Definition vsleep (t : nat) (p : pc) : V unit :=
  vunlock >>> modify (fun s => set_vs_threads (<[t := Asleep p]> (vs_threads s)) s).

(** ** Descriptors *)

Definition alloc_desc : V (option nat) :=
  loop (S NUM) (fun i =>
    if (i <? NUM)%nat then
      f <- at_ (fun s => vd_free (vs_q s)) i ;;
      if (f : bool) then qmod (fun q => set_free (<[i := false]> (vd_free q)) q) >>> ret (inr (Some i))
      else ret (inl (S i))
    else ret (inr None)) 0%nat.

Definition free_desc (i : nat) : V unit :=
  if (NUM <=? i)%nat then panic "free_desc 1"
  else
    f <- at_ (fun s => vd_free (vs_q s)) i ;;
    if (f : bool) then panic "free_desc 2"
    else
      qmod (fun q => set_desc (<[i := Desc NullA 0 0 0]> (vd_desc q)) q) >>>
      qmod (fun q => set_free (<[i := true]> (vd_free q)) q) >>>
      vwakeup FreeChan.

Definition free_chain (i : nat) : V unit :=
  loop (S NUM) (fun i =>
    d <- at_ (fun s => vd_desc (vs_q s)) i ;;
    free_desc i >>>
    ret (if negb (Z.land (d_flags d) VRING_DESC_F_NEXT =? 0) then inl (d_next d) else inr tt)) i.

(** The indices, or [None] for -1. *)
Definition alloc3_desc : V (option (list nat)) :=
  loop 4 (fun idx =>
    if (length idx <? 3)%nat then
      r <- alloc_desc ;;
      match r with
      | Some i => ret (inl (idx ++ [i]))
      | None =>
          loop 4 (fun j => match j with [] => ret (inr tt) | i :: j' => free_desc i >>> ret (inl j') end) idx >>>
          ret (inr None)
      end
    else ret (inr (Some idx))) [].

(** ** virtio_disk_rw *)

Definition dmod (i : nat) (d : virtq_desc) : V unit := at_ (fun s => vd_desc (vs_q s)) i >>> qmod (fun q => set_desc (<[i := d]> (vd_desc q)) q).
Definition imod (i : nat) (f : vinfo -> vinfo) : V unit := x <- at_ (fun s => vd_info (vs_q s)) i ;; qmod (fun q => set_info (<[i := f x]> (vd_info q)) q).
Definition bmod (b : nat) (f : vbuf -> vbuf) : V unit := x <- at_ vs_bufs b ;; modify (fun s => set_vs_bufs (<[b := f x]> (vs_bufs s)) s).
Definition set_vb_disk x b := Vbuf (vb_blockno b) x (vb_data b).
Definition set_vb_data x b := Vbuf (vb_blockno b) (vb_disk b) x.
Definition set_in_b x y := Info x (in_status y).
Definition set_in_status x y := Info (in_b y) x.

Definition VIRTIO_MMIO_QUEUE_NOTIFY : Z := 0x050.
Definition VIRTIO_MMIO_INTERRUPT_STATUS : Z := 0x060.
Definition VIRTIO_MMIO_INTERRUPT_ACK : Z := 0x064.
(** [*R(r) = v]: what is written to the device's registers is kept in order. *)
Definition wreg (r v : Z) : V unit := modify (fun s => set_vs_mmio (vs_mmio s ++ [(r, v)]) s).

(** [b->blockno * (BSIZE / 512)] in 32 bits. *)
Definition sector_of (blockno : Z) : Z := u32 (blockno * (Z.of_nat BSIZE / 512)).

(** From the descriptors to the notification of the device. *)
Definition submit (b : nat) (write : bool) (i0 i1 i2 : nat) : V unit :=
  x <- at_ vs_bufs b ;;
  at_ (fun s => vd_ops (vs_q s)) i0 >>>
  qmod (fun q => set_ops (<[i0 := Req (if write then VIRTIO_BLK_T_OUT else VIRTIO_BLK_T_IN) 0 (sector_of (vb_blockno x))]> (vd_ops q)) q) >>>
  dmod i0 (Desc (OpA i0) 16 VRING_DESC_F_NEXT i1) >>>
  dmod i1 (Desc (DataA b) (Z.of_nat BSIZE) (Z.lor (if write then 0 else VRING_DESC_F_WRITE) VRING_DESC_F_NEXT) i2) >>>
  imod i0 (set_in_status 0xff) >>>
  dmod i2 (Desc (StatusA i0) 1 VRING_DESC_F_WRITE 0) >>>
  bmod b (set_vb_disk 1) >>>
  imod i0 (set_in_b (Some b)) >>>
  qmod (fun q => set_avail (<[Z.to_nat (vd_avail_idx q mod Z.of_nat NUM) := i0]> (vd_avail q)) (vd_avail_idx q) q) >>>
  qmod (fun q => set_avail (vd_avail q) (u16 (vd_avail_idx q + 1)) q) >>>
  wreg VIRTIO_MMIO_QUEUE_NOTIFY 0.

(** [while(b->disk == 1) sleep(b, ...)] and what follows. *)
Definition rw_wait (t b : nat) (write : bool) (d : block) (idx : list nat) : V unit :=
  x <- at_ vs_bufs b ;;
  if vb_disk x =? 1 then vsleep t (PcWait b write d idx)
  else
    match idx with
    | [] => crash
    | i0 :: _ =>
        imod i0 (set_in_b None) >>>
        free_chain i0 >>>
        vunlock >>>
        modify (fun s => set_vs_threads (<[t := Away]> (vs_threads s)) s)
    end.

(** Process [t] runs, from the start or from where it slept. *)
Definition virtio_disk_rw (t : nat) (p : pc) : V unit :=
  vlock >>>
  match p with
  | PcAlloc b write d =>
      r <- alloc3_desc ;;
      match r with
      | None => vsleep t (PcAlloc b write d)
      | Some [i0; i1; i2] => submit b write i0 i1 i2 >>> rw_wait t b write d [i0; i1; i2]
      | Some _ => crash
      end
  | PcWait b write d idx => rw_wait t b write d idx
  end.

(** ** The interrupt handler *)

Section intr.
(** What a register of the device holds after the writes so far. *)
Context (reg : Z -> list (Z * Z) -> Z).
Definition rreg (r : Z) : V Z := gets (fun s => reg r (vs_mmio s)).

Definition virtio_disk_intr : V unit :=
  vlock >>>
  st <- rreg VIRTIO_MMIO_INTERRUPT_STATUS ;;
  wreg VIRTIO_MMIO_INTERRUPT_ACK (Z.land st 3) >>>
  loop (Z.to_nat (2 ^ 16)) (fun _ =>
    q <- gets vs_q ;;
    if vd_used_idx q =? vd_used_end q then ret (inr tt)
    else
      id <- at_ (fun s => vd_used (vs_q s)) (Z.to_nat (vd_used_idx q mod Z.of_nat NUM)) ;;
      x <- at_ (fun s => vd_info (vs_q s)) id ;;
      (if negb (in_status x =? 0) then panic "virtio_disk_intr status" else ret tt) >>>
      match in_b x with
      | None => crash
      | Some b =>
          bmod b (set_vb_disk 0) >>>
          vwakeup (BufChan b) >>>
          qmod (fun q => set_used_idx (u16 (vd_used_idx q + 1)) q) >>>
          ret (inl tt)
      end) tt >>>
  vunlock.

(** ** virtio_disk_init *)

Definition VIRTIO_MMIO_MAGIC_VALUE : Z := 0x000.
Definition VIRTIO_MMIO_VERSION : Z := 0x004.
Definition VIRTIO_MMIO_DEVICE_ID : Z := 0x008.
Definition VIRTIO_MMIO_VENDOR_ID : Z := 0x00c.
Definition VIRTIO_MMIO_DEVICE_FEATURES : Z := 0x010.
Definition VIRTIO_MMIO_DRIVER_FEATURES : Z := 0x020.
Definition VIRTIO_MMIO_QUEUE_SEL : Z := 0x030.
Definition VIRTIO_MMIO_QUEUE_NUM_MAX : Z := 0x034.
Definition VIRTIO_MMIO_QUEUE_NUM : Z := 0x038.
Definition VIRTIO_MMIO_QUEUE_READY : Z := 0x044.
Definition VIRTIO_MMIO_STATUS : Z := 0x070.
Definition VIRTIO_MMIO_QUEUE_DESC_LOW : Z := 0x080.
Definition VIRTIO_MMIO_QUEUE_DESC_HIGH : Z := 0x084.
Definition VIRTIO_MMIO_DRIVER_DESC_LOW : Z := 0x090.
Definition VIRTIO_MMIO_DRIVER_DESC_HIGH : Z := 0x094.
Definition VIRTIO_MMIO_DEVICE_DESC_LOW : Z := 0x0a0.
Definition VIRTIO_MMIO_DEVICE_DESC_HIGH : Z := 0x0a4.
Definition VIRTIO_CONFIG_S_ACKNOWLEDGE : Z := 1.
Definition VIRTIO_CONFIG_S_DRIVER : Z := 2.
Definition VIRTIO_CONFIG_S_DRIVER_OK : Z := 4.
Definition VIRTIO_CONFIG_S_FEATURES_OK : Z := 8.
(** VIRTIO_BLK_F_RO, _SCSI, _CONFIG_WCE, _MQ, VIRTIO_F_ANY_LAYOUT,
    VIRTIO_RING_F_EVENT_IDX and _INDIRECT_DESC. *)
Definition refused_features : list Z := [5; 7; 11; 12; 27; 29; 28].

Definition accepted (features : Z) : Z := fold_left (fun f b => Z.land f (Z.lnot (Z.shiftl 1 b))) refused_features features.

Section init.
Context `{LinkerSyms}.
Definition on_vm {A} (m : M machine A) : V A := zoom vs_m set_vs_m m.

Definition negotiate : V Z :=
  wreg VIRTIO_MMIO_STATUS 0 >>>
  let status := VIRTIO_CONFIG_S_ACKNOWLEDGE in
  wreg VIRTIO_MMIO_STATUS status >>>
  let status := Z.lor status VIRTIO_CONFIG_S_DRIVER in
  wreg VIRTIO_MMIO_STATUS status >>>
  features <- rreg VIRTIO_MMIO_DEVICE_FEATURES ;;
  wreg VIRTIO_MMIO_DRIVER_FEATURES (u32 (accepted features)) >>>
  let status := Z.lor status VIRTIO_CONFIG_S_FEATURES_OK in
  wreg VIRTIO_MMIO_STATUS status >>>
  status <- rreg VIRTIO_MMIO_STATUS ;;
  (if Z.land status VIRTIO_CONFIG_S_FEATURES_OK =? 0 then panic "virtio disk FEATURES_OK unset" else ret tt) >>>
  ret status.

Definition give_page (low high pa : Z) : V unit := wreg low (u32 pa) >>> wreg high (u32 (Z.shiftr pa 32)).

Definition virtio_disk_init : V unit :=
  magic <- rreg VIRTIO_MMIO_MAGIC_VALUE ;;
  version <- rreg VIRTIO_MMIO_VERSION ;;
  device <- rreg VIRTIO_MMIO_DEVICE_ID ;;
  vendor <- rreg VIRTIO_MMIO_VENDOR_ID ;;
  (if negb (magic =? 0x74726976) || negb (version =? 2) || negb (device =? 2) || negb (vendor =? 0x554d4551)
   then panic "could not find virtio disk" else ret tt) >>>
  status <- negotiate ;;
  wreg VIRTIO_MMIO_QUEUE_SEL 0 >>>
  ready <- rreg VIRTIO_MMIO_QUEUE_READY ;;
  (if negb (ready =? 0) then panic "virtio disk should not be ready" else ret tt) >>>
  max <- rreg VIRTIO_MMIO_QUEUE_NUM_MAX ;;
  (if max =? 0 then panic "virtio disk has no queue 0" else ret tt) >>>
  (if max <? Z.of_nat NUM then panic "virtio disk max queue too short" else ret tt) >>>
  desc <- on_vm kalloc ;;
  avail <- on_vm kalloc ;;
  used <- on_vm kalloc ;;
  (if (desc =? 0) || (avail =? 0) || (used =? 0) then panic "virtio disk kalloc" else ret tt) >>>
  on_vm (modify (fun m => set_mem (memset (memset (memset (mem m) desc 0 PGSIZE) avail 0 PGSIZE) used 0 PGSIZE) m)) >>>
  qmod (fun q => set_desc (replicate NUM (Desc NullA 0 0 0)) (set_avail (replicate NUM 0%nat) 0 (set_used (replicate NUM 0%nat) 0 q))) >>>
  wreg VIRTIO_MMIO_QUEUE_NUM (Z.of_nat NUM) >>>
  give_page VIRTIO_MMIO_QUEUE_DESC_LOW VIRTIO_MMIO_QUEUE_DESC_HIGH desc >>>
  give_page VIRTIO_MMIO_DRIVER_DESC_LOW VIRTIO_MMIO_DRIVER_DESC_HIGH avail >>>
  give_page VIRTIO_MMIO_DEVICE_DESC_LOW VIRTIO_MMIO_DEVICE_DESC_HIGH used >>>
  wreg VIRTIO_MMIO_QUEUE_READY 1 >>>
  qmod (set_free (replicate NUM true)) >>>
  wreg VIRTIO_MMIO_STATUS (Z.lor status VIRTIO_CONFIG_S_DRIVER_OK).
End init.
End intr.

(** ** The device

    What the virtio specification says of a block device: it takes the heads
    in the order of [avail], may work on several at once, and for each
    follows the chain of three descriptors, transfers one block, clears the
    status byte and adds the head to [used]. *)

(** The request that the chain from [h] describes: the direction, the first
    sector, the buffer and the status byte. *)
Definition request (q : vdisk) (h : nat) : option (bool * Z * nat * nat) :=
  match vd_desc q !! h with
  | Some (Desc (OpA o) 16 f0 i1) =>
      match vd_ops q !! o, vd_desc q !! i1 with
      | Some op, Some (Desc (DataA b) len f1 i2) =>
          match vd_desc q !! i2 with
          | Some (Desc (StatusA st) 1 f2 _) =>
              let w := rq_type op =? VIRTIO_BLK_T_OUT in
              if (f0 =? VRING_DESC_F_NEXT) && (f2 =? VRING_DESC_F_WRITE) && (len =? Z.of_nat BSIZE) &&
                 (f1 =? Z.lor (if w then 0 else VRING_DESC_F_WRITE) VRING_DESC_F_NEXT)
              then Some (w, rq_sector op, b, st) else None
          | _ => None
          end
      | _, _ => None
      end
  | _ => None
  end.

Definition fetched (s : vsys) : option vsys :=
  if vs_seen s =? vd_avail_idx (vs_q s) then None
  else
    h ← vd_avail (vs_q s) !! Z.to_nat (vs_seen s mod Z.of_nat NUM);
    Some (set_vs_seen (u16 (vs_seen s + 1)) (set_vs_work (vs_work s ++ [h]) s)).

(** The transfer of a whole block; [sector] is its first sector. *)
Definition served (h : nat) (w : bool) (sector : Z) (b st : nat) (s : vsys) : option vsys :=
  x ← vs_bufs s !! b;
  inf ← vd_info (vs_q s) !! st;
  let bn := sector / (Z.of_nat BSIZE / 512) in
  let s1 := if w then set_vs_blocks (upd (vs_blocks s) bn (vb_data x)) s
            else set_vs_bufs (<[b := set_vb_data (vs_blocks s bn) x]> (vs_bufs s)) s in
  let q := set_info (<[st := set_in_status 0 inf]> (vd_info (vs_q s))) (vs_q s) in
  let q := set_used (<[Z.to_nat (vd_used_end q mod Z.of_nat NUM) := h]> (vd_used q)) (u16 (vd_used_end q + 1)) q in
  Some (set_vs_work (filter (fun g => g <> h) (vs_work s)) (set_vs_q q s1)).

(** A device that keeps to the specification; on a chain the driver should
    not have made it may do anything. *)
Definition device_ok (device : vsys -> vsys -> Prop) : Prop :=
  forall s s', device s s' -> fetched s = Some s' \/
    exists h, h ∈ vs_work s /\ forall w sector b st, request (vs_q s) h = Some (w, sector, b, st) -> served h w sector b st s = Some s'.

(** ** The system *)

Section system.
Context (reg : Z -> list (Z * Z) -> Z) (device : vsys -> vsys -> Prop).

Definition active (ts : list thread) (t : nat) (p : pc) : Prop := ts !! t = Some (Ready p) \/ ts !! t = Some (Asleep p).

(** A process calls [virtio_disk_rw] with buffer [b], which it has locked and
    filled; no other process has a buffer for the same block. *)
Definition may_call (b : nat) (blockno : Z) (s : vsys) : Prop :=
  0 <= blockno < 2 ^ 31 /\ forall t p x, active (vs_threads s) t p -> vs_bufs s !! pc_buf p = Some x -> pc_buf p <> b /\ vb_blockno x <> blockno.

Inductive vstep (s : vsys) : vsys -> Prop :=
| vs_call t b w blockno data x :
    vs_threads s !! t = Some Away -> vs_bufs s !! b = Some x -> may_call b blockno s ->
    vstep s (set_vs_threads (<[t := Ready (PcAlloc b w (if (w : bool) then data else vs_blocks s blockno))]> (vs_threads s))
               (set_vs_bufs (<[b := Vbuf blockno (vb_disk x) data]> (vs_bufs s)) s))
| vs_run t p s' : vs_threads s !! t = Some (Ready p) -> virtio_disk_rw t p s = Ok (tt, s') -> vstep s s'
| vs_intr s' : virtio_disk_intr reg s = Ok (tt, s') -> vstep s s'
| vs_device s' : device s s' -> vstep s s'.

(** After [virtio_disk_init], before the first call. *)
Record vstart (s : vsys) : Prop := {
  vt_desc : length (vd_desc (vs_q s)) = NUM;
  vt_rings : length (vd_avail (vs_q s)) = NUM /\ length (vd_used (vs_q s)) = NUM;
  vt_idx : vd_avail_idx (vs_q s) = 0 /\ vd_used_end (vs_q s) = 0 /\ vd_used_idx (vs_q s) = 0 /\ vs_seen s = 0;
  vt_free : vd_free (vs_q s) = replicate NUM true;
  vt_info : length (vd_info (vs_q s)) = NUM /\ length (vd_ops (vs_q s)) = NUM;
  vt_work : vs_work s = [];
  vt_lock : vs_lock s = false;
  vt_threads t th : vs_threads s !! t = Some th -> th = Away;
  vt_bufs b x : vs_bufs s !! b = Some x -> vb_disk x = 0
}.

Inductive vreach : vsys -> Prop :=
| vr_start s : vstart s -> vreach s
| vr_step s s' : vreach s -> vstep s s' -> vreach s'.
End system.

(** ** The rings *)

(** The entries of a ring between two indices, which wrap around at 2^16. *)
Definition queue (ring : list nat) (from to : Z) (l : list nat) : Prop :=
  0 <= from < 2 ^ 16 /\ to = u16 (from + Z.of_nat (length l)) /\
  forall k h, l !! k = Some h -> ring !! Z.to_nat ((from + Z.of_nat k) mod Z.of_nat NUM) = Some h.

Lemma mod16_8 z : u16 z mod Z.of_nat NUM = z mod Z.of_nat NUM.
Proof. unfold u16, NUM. dlia. Qed.

Lemma queue_push ring from to l h :
  queue ring from to l -> length ring = NUM -> (length l < NUM)%nat ->
  queue (<[Z.to_nat (to mod Z.of_nat NUM) := h]> ring) from (u16 (to + 1)) (l ++ [h]).
Proof.
  intros (Hf & -> & Hq) Hr Hl. split; [done|]. split.
  - rewrite length_app. cbn. unfold u16. dlia.
  - rewrite mod16_8. intros k g Hk. destruct (decide (k = length l)) as [->|Hne].
    + rewrite lookup_app_r, Nat.sub_diag in Hk by lia. injection Hk as <-. rewrite list_lookup_insert_eq; [done|]. rewrite Hr. unfold NUM. dlia.
    + pose proof (lookup_lt_Some _ _ _ Hk) as Hlt. rewrite length_app in Hlt. cbn in Hlt. rewrite lookup_app_l in Hk by lia.
      rewrite list_lookup_insert_ne; [by apply Hq|]. unfold NUM in *. dlia.
Qed.

Lemma queue_pop ring from to h l :
  queue ring from to (h :: l) -> ring !! Z.to_nat (from mod Z.of_nat NUM) = Some h /\ queue ring (u16 (from + 1)) to l.
Proof.
  intros (Hf & -> & Hq). split.
  - specialize (Hq 0%nat h eq_refl). by rewrite Z.add_0_r in Hq.
  - split; [unfold u16; dlia|]. split; [cbn [length]; unfold u16; dlia|]. intros k g Hk. specialize (Hq (S k) g Hk).
    rewrite <- Hq. do 2 f_equal. rewrite <- (Zplus_mod_idemp_l (u16 (from + 1))), mod16_8, Zplus_mod_idemp_l. f_equal. lia.
Qed.

Lemma queue_nil ring from to l : queue ring from to l -> (length l <= NUM)%nat -> (from = to <-> l = []).
Proof. intros (Hf & -> & _) Hl. unfold NUM in Hl. split; [|intros ->; cbn; unfold u16; dlia]. intros E. destruct l; [done|]. exfalso. revert E. cbn [length] in *. unfold u16. dlia. Qed.

(** ** The invariant *)

(** Before the transfer, and after it. *)
Definition half (w : bool) (d : block) (x : vbuf) (blocks : Z -> block) : Prop :=
  if w then vb_data x = d else blocks (vb_blockno x) = d.
Definition full (d : block) (x : vbuf) (blocks : Z -> block) : Prop := vb_data x = d /\ blocks (vb_blockno x) = d.

(** The three descriptors of a request. *)
Record chain (q : vdisk) (b : nat) (w : bool) (blockno : Z) (i0 i1 i2 : nat) : Prop := {
  ch_nodup : NoDup [i0; i1; i2];
  ch_taken i : i ∈ [i0; i1; i2] -> vd_free q !! i = Some false;
  ch_0 : vd_desc q !! i0 = Some (Desc (OpA i0) 16 VRING_DESC_F_NEXT i1);
  ch_1 : vd_desc q !! i1 = Some (Desc (DataA b) (Z.of_nat BSIZE) (Z.lor (if w then 0 else VRING_DESC_F_WRITE) VRING_DESC_F_NEXT) i2);
  ch_2 : vd_desc q !! i2 = Some (Desc (StatusA i0) 1 VRING_DESC_F_WRITE 0);
  ch_op : vd_ops q !! i0 = Some (Req (if w then VIRTIO_BLK_T_OUT else VIRTIO_BLK_T_IN) 0 (sector_of blockno));
  ch_info : exists st, vd_info q !! i0 = Some (Info (Some b) st)
}.

(** Where a request is: with the device, finished but not yet reported, or
    reported. *)
Definition stage (q : vdisk) (blocks : Z -> block) (todo comp : list nat) (w : bool) (d : block) (x : vbuf) (h : nat) : Prop :=
  (h ∈ todo /\ vb_disk x = 1 /\ half w d x blocks) \/
  (h ∈ comp /\ vb_disk x = 1 /\ full d x blocks /\ exists b, vd_info q !! h = Some (Info b 0)) \/
  ((h ∉ todo) /\ (h ∉ comp) /\ vb_disk x = 0 /\ full d x blocks).

Record vcore (q : vdisk) (bufs : list vbuf) (ts : list thread) (blocks : Z -> block) (seen : Z) (work pend comp : list nat) : Prop := {
  co_len : length (vd_desc q) = NUM /\ length (vd_avail q) = NUM /\ length (vd_used q) = NUM /\ length (vd_free q) = NUM /\
    length (vd_info q) = NUM /\ length (vd_ops q) = NUM;
  co_pend : queue (vd_avail q) seen (vd_avail_idx q) pend;
  co_comp : queue (vd_used q) (vd_used_idx q) (vd_used_end q) comp;
  co_nodup : NoDup (pend ++ work ++ comp);
  co_buf t p : active ts t p -> exists x, bufs !! pc_buf p = Some x /\ 0 <= vb_blockno x < 2 ^ 31;
  co_own t t' p p' x x' : active ts t p -> active ts t' p' -> bufs !! pc_buf p = Some x -> bufs !! pc_buf p' = Some x' ->
    pc_buf p = pc_buf p' \/ vb_blockno x = vb_blockno x' -> t = t';
  co_alloc t b w d x : active ts t (PcAlloc b w d) -> bufs !! b = Some x -> vb_disk x = 0 /\ half w d x blocks;
  co_wait t b w d idx x : active ts t (PcWait b w d idx) -> bufs !! b = Some x ->
    exists i0 i1 i2, idx = [i0; i1; i2] /\ chain q b w (vb_blockno x) i0 i1 i2 /\ stage q blocks (pend ++ work) comp w d x i0;
  co_disj t t' b w d idx b' w' d' idx' i : active ts t (PcWait b w d idx) -> active ts t' (PcWait b' w' d' idx') -> i ∈ idx -> i ∈ idx' -> t = t';
  co_head h : h ∈ pend ++ work ++ comp -> exists t b w d i1 i2, active ts t (PcWait b w d [h; i1; i2]);
  co_free i : vd_free q !! i = Some false -> exists t b w d idx, active ts t (PcWait b w d idx) /\ i ∈ idx;
  co_idle b x : bufs !! b = Some x -> vb_disk x = 0 \/ exists t p, active ts t p /\ pc_buf p = b
}.

(** No wakeup is lost: who sleeps for descriptors lacks them, and who sleeps
    for a buffer has a request under way. *)
Definition nfree (f : list bool) : nat := length (filter (fun b => b = true) f).

Definition asleep_ok (q : vdisk) (bufs : list vbuf) (ts : list thread) : Prop :=
  (forall t b w d, ts !! t = Some (Asleep (PcAlloc b w d)) -> (nfree (vd_free q) < 3)%nat) /\
  (forall t b w d idx x, ts !! t = Some (Asleep (PcWait b w d idx)) -> bufs !! b = Some x -> vb_disk x = 1).

Record vinv (s : vsys) (pend comp : list nat) : Prop := {
  iv_lock : vs_lock s = false;
  iv_core : vcore (vs_q s) (vs_bufs s) (vs_threads s) (vs_blocks s) (vs_seen s) (vs_work s) pend comp;
  iv_sleep : asleep_ok (vs_q s) (vs_bufs s) (vs_threads s)
}.

(** ** Processes *)

Lemma active_wake c ts t p : active (map (wake c) ts) t p <-> active ts t p.
Proof.
  unfold active. rewrite !list_lookup_fmap. destruct (ts !! t) as [[|p'|p']|]; cbn; try naive_solver.
  case_decide; naive_solver.
Qed.

Lemma active_other ts t t' th p : t <> t' -> active (<[t := th]> ts) t' p <-> active ts t' p.
Proof. intros Hne. unfold active. by rewrite list_lookup_insert_ne. Qed.

Lemma active_away ts t t' p : active (<[t := Away]> ts) t' p -> t <> t' /\ active ts t' p.
Proof.
  intros H. destruct (decide (t = t')) as [<-|Hne]; [|by rewrite active_other in H]. exfalso. unfold active in H.
  destruct (decide (t < length ts)%nat); [rewrite list_lookup_insert_eq in H by done; naive_solver|].
  rewrite lookup_ge_None_2 in H by (rewrite length_insert; lia). naive_solver.
Qed.

Lemma active_same ts t p th : (t < length ts)%nat -> th = Ready p \/ th = Asleep p -> forall p', active (<[t := th]> ts) t p' <-> p' = p.
Proof. intros Hl Hth p'. unfold active. rewrite list_lookup_insert_eq by done. destruct Hth as [-> | ->]; naive_solver. Qed.

Lemma active_fun ts t p p' : active ts t p -> active ts t p' -> p = p'.
Proof. unfold active. naive_solver. Qed.

Lemma vcore_active q bufs ts ts' blocks seen work pend comp :
  (forall t p, active ts' t p <-> active ts t p) -> vcore q bufs ts blocks seen work pend comp -> vcore q bufs ts' blocks seen work pend comp.
Proof.
  intros E [C1 C2 C3 C4 C5 C6 C7 C8 C9 C10 C11 C12]. split; try done.
  - intros t p. rewrite E. apply C5.
  - intros t t' p p' x x'. rewrite !E. apply C6.
  - intros t b w d x. rewrite E. apply C7.
  - intros t b w d idx x. rewrite E. apply C8.
  - intros t t' b w d idx b' w' d' idx' i. rewrite !E. apply C9.
  - intros h Hh. destruct (C10 h Hh) as (t & b & w & d & i1 & i2 & H). exists t, b, w, d, i1, i2. by rewrite E.
  - intros i Hi. destruct (C11 i Hi) as (t & b & w & d & idx & H & Hin). exists t, b, w, d, idx. by rewrite E.
  - intros b x Hx. destruct (C12 b x Hx) as [?|(t & p & H & Hb)]; [by left|right]. exists t, p. by rewrite E.
Qed.

Lemma asleep_wake q bufs ts c : asleep_ok q bufs ts -> asleep_ok q bufs (map (wake c) ts).
Proof.
  intros [A1 A2]. assert (H : forall t p, map (wake c) ts !! t = Some (Asleep p) -> ts !! t = Some (Asleep p)).
  { intros t p. rewrite list_lookup_fmap. destruct (ts !! t) as [[|p'|p']|]; cbn; try done. by case_decide. }
  split; eauto.
Qed.

(** ** How many requests *)

(** Their descriptors are distinct, so there are at most two. *)
Lemma chains_few q bufs ts blocks seen work pend comp hs :
  vcore q bufs ts blocks seen work pend comp -> NoDup hs -> (forall h, h ∈ hs -> exists t b w d i1 i2, active ts t (PcWait b w d [h; i1; i2])) ->
  (3 * length hs <= NUM)%nat.
Proof.
  intros C Hnd Hh. assert (exists l, length l = (3 * length hs)%nat /\ NoDup l /\ (forall i, i ∈ l -> (i < NUM)%nat /\ exists h t b w d i1 i2, h ∈ hs /\ active ts t (PcWait b w d [h; i1; i2]) /\ i ∈ [h; i1; i2])) as (l & El & Hl & Hin).
  { induction hs as [|h hs IH]; [exists []; split_and!; [done|constructor|intros i Hi; by apply not_elem_of_nil in Hi]|].
    apply NoDup_cons in Hnd as [Hnh Hnd]. destruct IH as (l & El & Hl & Hin); [done|intros g Hg; apply Hh, elem_of_cons; by right|].
    destruct (Hh h) as (t & b & w & d & i1 & i2 & Ha); [apply elem_of_cons; by left|].
    destruct (co_buf _ _ _ _ _ _ _ _ C t _ Ha) as (x & Hx & _). destruct (co_wait _ _ _ _ _ _ _ _ C _ _ _ _ _ _ Ha Hx) as (j0 & j1 & j2 & [= <- <- <-] & Hc & _).
    exists ([h; i1; i2] ++ l). split_and!.
    - rewrite length_app, El. cbn [length]. lia.
    - apply NoDup_app. split_and!; [apply Hc| |done]. intros i Hi Hil. destruct (Hin i Hil) as (_ & g & t' & b' & w' & d' & j1 & j2 & Hg & Ha' & Hj).
      assert (t = t') as <- by (by eapply (co_disj _ _ _ _ _ _ _ _ C)). pose proof (active_fun _ _ _ _ Ha Ha') as [= _ _ _ <- _ _]. done.
    - intros i [Hi|Hi]%elem_of_app.
      + split; [|exists h, t, b, w, d, i1, i2; split_and!; [apply elem_of_cons; by left|done|done]].
        pose proof (ch_taken _ _ _ _ _ _ _ Hc i Hi) as Hf. apply lookup_lt_Some in Hf. destruct (co_len _ _ _ _ _ _ _ _ C) as (_ & _ & _ & <- & _). done.
      + destruct (Hin i Hi) as (Hlt & g & t' & b' & w' & d' & j1 & j2 & Hg & Ha' & Hj). split; [done|].
        exists g, t', b', w', d', j1, j2. split_and!; [apply elem_of_cons; by right|done|done]. }
  rewrite <- El, <- (length_seq NUM 0). apply submseteq_length, NoDup_submseteq; [done|]. intros i Hi. apply elem_of_seq. destruct (Hin i Hi). lia.
Qed.

(** ** Allocating and freeing descriptors *)

Lemma wp_at {A} (proj : vsys -> list A) i s x (Q : A -> vsys -> Prop) : proj s !! i = Some x -> Q x s -> wp (at_ proj i) s Q.
Proof. intros Hx HQ. unfold wp, at_. by rewrite Hx. Qed.

Definition with_free (f : list bool) (s : vsys) : vsys := set_vs_q (set_free f (vs_q s)) s.

Lemma alloc_desc_spec s (Q : option nat -> vsys -> Prop) :
  length (vd_free (vs_q s)) = NUM ->
  (forall i, vd_free (vs_q s) !! i = Some true -> Q (Some i) (with_free (<[i := false]> (vd_free (vs_q s))) s)) ->
  ((forall i, vd_free (vs_q s) !! i <> Some true) -> Q None s) -> wp alloc_desc s Q.
Proof.
  intros Hl H1 H2. unfold alloc_desc.
  apply (wp_loop (fun i s' => s' = s /\ (i <= NUM)%nat /\ forall j, (j < i)%nat -> vd_free (vs_q s) !! j <> Some true) (fun i => (NUM - i)%nat)).
  - intros i s' (-> & Hi & Hj). destruct (Nat.ltb_spec i NUM) as [Hlt|Hge].
    + destruct (lookup_lt_is_Some_2 (vd_free (vs_q s)) i) as [f Hf]; [lia|]. apply wp_bind. eapply wp_at; [exact Hf|]. destruct f.
      * apply wp_bind, wp_modify, wp_ret. by apply H1.
      * apply wp_ret. split; [|lia]. split_and!; [done|lia|]. intros j Hlt'. destruct (decide (j = i)) as [->|]; [by rewrite Hf|apply Hj; lia].
    + apply wp_ret, H2. intros j Hjt. destruct (decide (j < i)%nat); [by eapply Hj|]. apply lookup_lt_Some in Hjt. lia.
  - split_and!; [done|lia|]. lia.
  - lia.
Qed.

Lemma nfree_alloc f i : f !! i = Some true -> S (nfree (<[i := false]> f)) = nfree f.
Proof.
  unfold nfree. revert i. induction f as [|b f IH]; intros [|i] Hi; cbn in Hi; simplify_eq; cbn [insert list_insert].
  - by rewrite filter_cons_False, filter_cons_True.
  - destruct b; [rewrite !filter_cons_True by done; cbn; by rewrite IH|rewrite !filter_cons_False by done; by apply IH].
Qed.

Lemma nfree_none f : (forall i, f !! i <> Some true) -> nfree f = 0%nat.
Proof.
  unfold nfree. induction f as [|b f IH]; intros H; [done|]. destruct b; [by specialize (H 0%nat)|]. rewrite filter_cons_False by done.
  apply IH. intros i. apply (H (S i)).
Qed.

(** What freeing descriptors leaves. *)
Record freed (s : vsys) (js : list nat) (s' : vsys) : Prop := {
  fr_state : exists f ds ts, s' = set_vs_threads ts (set_vs_q (set_desc ds (set_free f (vs_q s))) s);
  fr_free j : vd_free (vs_q s') !! j = if decide (j ∈ js) then Some true else vd_free (vs_q s) !! j;
  fr_len : length (vd_free (vs_q s')) = length (vd_free (vs_q s)) /\ length (vd_desc (vs_q s')) = length (vd_desc (vs_q s));
  fr_desc j : j ∉ js -> vd_desc (vs_q s') !! j = vd_desc (vs_q s) !! j;
  fr_active t p : active (vs_threads s') t p <-> active (vs_threads s) t p;
  fr_asleep t p : vs_threads s' !! t = Some (Asleep p) -> vs_threads s !! t = Some (Asleep p) /\ (js = [] \/ pc_chan p <> FreeChan);
  fr_ready t p : vs_threads s !! t = Some (Ready p) -> vs_threads s' !! t = Some (Ready p);
  fr_wake t p : js <> [] -> pc_chan p = FreeChan -> vs_threads s !! t = Some (Asleep p) -> vs_threads s' !! t = Some (Ready p);
  fr_count : length (vs_threads s') = length (vs_threads s)
}.

Lemma freed_none s : freed s [] s.
Proof.
  split; try done.
  - exists (vd_free (vs_q s)), (vd_desc (vs_q s)), (vs_threads s). by destruct s as [[] ? ? ? ? ? ? ? ?].
  - auto.
Qed.

Lemma free_desc_spec s js s1 i (Q : unit -> vsys -> Prop) :
  freed s js s1 -> (i < NUM)%nat -> vd_free (vs_q s) !! i = Some false -> i ∉ js ->
  (forall s', freed s (i :: js) s' -> Q tt s') -> wp (free_desc i) s1 Q.
Proof.
  intros F Hi Hf Hjs HQ. unfold free_desc. rewrite (proj2 (Nat.leb_gt _ _)) by done.
  apply wp_bind. eapply wp_at; [rewrite (fr_free _ _ _ F), decide_False by done; exact Hf|]. cbn beta iota.
  apply wp_bind, wp_modify, wp_bind, wp_modify, wp_modify, HQ. clear HQ.
  destruct F as [(f & ds & ts & ->) F2 [F3 F3'] F4 F5 F6 F6' F6'' F7]. cbn in F2, F3, F3', F4, F5, F6, F6', F6'', F7. pose proof (lookup_lt_Some _ _ _ Hf) as Hlt. split.
  - eexists _, _, _. reflexivity.
  - intros j. cbn. destruct (decide (j = i)) as [->|Hne].
    + rewrite list_lookup_insert_eq by lia. by rewrite decide_True by (apply elem_of_cons; by left).
    + rewrite list_lookup_insert_ne, F2 by done. destruct (decide (j ∈ js)) as [H|H].
      * by rewrite decide_True by (apply elem_of_cons; by right).
      * rewrite decide_False; [done|]. rewrite elem_of_cons. naive_solver.
  - cbn. by rewrite !length_insert.
  - intros j [Hne Hj]%not_elem_of_cons. cbn. rewrite list_lookup_insert_ne by done. by apply F4.
  - intros t p. cbn. rewrite active_wake. apply F5.
  - intros t p. cbn. rewrite list_lookup_fmap. destruct (ts !! t) as [[|p'|p']|] eqn:Et; cbn; try done.
    case_decide; [done|]. intros [= ->]. split; [by apply F6|by right].
  - intros t p Ht. cbn. rewrite list_lookup_fmap, (F6' t p Ht). done.
  - intros t p _ Hc Ht. cbn. rewrite list_lookup_fmap. destruct (decide (js = [])) as [->|Hne]; [|by rewrite (F6'' t p Hne Hc Ht)].
    destruct (F5 t p) as [_ F5']. destruct (F5' ltac:(by right)) as [-> | ->]; cbn; [done|]. by rewrite decide_True.
  - cbn. by rewrite length_map.
Qed.

Lemma free_all_spec s idx : forall js s1 n (Q : unit -> vsys -> Prop),
  freed s js s1 -> (forall i, i ∈ idx -> (i < NUM)%nat /\ vd_free (vs_q s) !! i = Some false /\ i ∉ js) -> NoDup idx -> (length idx < n)%nat ->
  (forall s', freed s (reverse idx ++ js) s' -> Q tt s') ->
  wp (loop n (fun j => match j with [] => ret (inr tt) | i :: j' => free_desc i >>> ret (inl j') end) idx) s1 Q.
Proof.
  induction idx as [|i idx IH]; intros js s1 [|n] Q F Hin Hnd Hn HQ; cbn in Hn; try lia; cbn [loop].
  - apply wp_bind, wp_ret, wp_ret. by apply HQ.
  - apply NoDup_cons in Hnd as [Hni Hnd]. destruct (Hin i) as (Hi & Hf & Hjs); [apply elem_of_cons; by left|].
    apply wp_bind, wp_bind. eapply free_desc_spec; [exact F|done..|]. intros s2 F2. apply wp_ret.
    eapply IH; [exact F2| |done|lia|].
    + intros j Hj. destruct (Hin j) as (Hj1 & Hj2 & Hj3); [apply elem_of_cons; by right|]. split_and!; [done|done|].
      apply not_elem_of_cons. split; [by intros ->|done].
    + intros s' F'. apply HQ. by rewrite reverse_cons, <- app_assoc.
Qed.

Lemma nfree_le i : forall f, (nfree (<[i := false]> f) <= nfree f)%nat.
Proof.
  unfold nfree. induction i as [|i IH]; intros [|b f]; cbn [insert list_insert]; try done.
  - rewrite filter_cons_False by done. destruct b; [rewrite filter_cons_True by done; cbn [length]; lia|by rewrite filter_cons_False].
  - specialize (IH f). destruct b; [rewrite !filter_cons_True by done; by apply le_n_S|by rewrite !filter_cons_False].
Qed.

(** A failed attempt gives everything back. *)
Record unalloc (s s' : vsys) : Prop := {
  ua_state : exists ds ts, s' = set_vs_threads ts (set_vs_q (set_desc ds (vs_q s)) s);
  ua_len : length (vd_desc (vs_q s')) = length (vd_desc (vs_q s));
  ua_desc j : vd_free (vs_q s) !! j <> Some true -> vd_desc (vs_q s') !! j = vd_desc (vs_q s) !! j;
  ua_active t p : active (vs_threads s') t p <-> active (vs_threads s) t p;
  ua_asleep t p : vs_threads s' !! t = Some (Asleep p) -> vs_threads s !! t = Some (Asleep p);
  ua_wake t p : (0 < nfree (vd_free (vs_q s)))%nat -> pc_chan p = FreeChan -> vs_threads s !! t = Some (Asleep p) -> vs_threads s' !! t = Some (Ready p);
  ua_count : length (vs_threads s') = length (vs_threads s)
}.

Definition take_all (idx : list nat) (f : list bool) : list bool := foldl (fun f i => <[i := false]> f) f idx.

Lemma take_all_length idx : forall f, length (take_all idx f) = length f.
Proof. induction idx as [|i idx IH]; intros f; [done|]. change (take_all (i :: idx) f) with (take_all idx (<[i := false]> f)). rewrite IH. apply length_insert. Qed.

Lemma nfree_take idx : forall f, (nfree (take_all idx f) <= nfree f)%nat.
Proof.
  induction idx as [|i idx IH]; intros f; [done|]. change (take_all (i :: idx) f) with (take_all idx (<[i := false]> f)).
  pose proof (nfree_le i f). specialize (IH (<[i := false]> f)). lia.
Qed.

Lemma nfree_three f i0 i1 i2 : NoDup [i0; i1; i2] -> (forall i, i ∈ [i0; i1; i2] -> f !! i = Some true) -> (3 <= nfree f)%nat.
Proof.
  intros Hnd Hf. apply NoDup_cons in Hnd as [K1 [K2 _]%NoDup_cons]. apply not_elem_of_cons in K1 as [K3 [K4 _]%not_elem_of_cons]. apply not_elem_of_cons in K2 as [K5 _].
  rewrite <- (nfree_alloc f i0), <- (nfree_alloc (<[i0 := false]> f) i1), <- (nfree_alloc (<[i1 := false]> (<[i0 := false]> f)) i2); [lia|..];
    rewrite ?list_lookup_insert_ne by done; apply Hf; rewrite !elem_of_cons; auto.
Qed.

Lemma take_all_lookup idx : forall f j, (forall i, i ∈ idx -> (i < length f)%nat) ->
  take_all idx f !! j = if decide (j ∈ idx) then Some false else f !! j.
Proof.
  induction idx as [|i idx IH]; intros f j Hin; [by rewrite decide_False by apply not_elem_of_nil|]. change (take_all (i :: idx) f) with (take_all idx (<[i := false]> f)).
  rewrite IH by (intros i' Hi'; rewrite length_insert; apply Hin, elem_of_cons; by right).
  destruct (decide (j = i)) as [->|Hne].
  - rewrite (decide_True (P := i ∈ i :: idx)) by (apply elem_of_cons; by left). case_decide; [done|].
    apply list_lookup_insert_eq, Hin, elem_of_cons. by left.
  - rewrite list_lookup_insert_ne by done. destruct (decide (j ∈ idx)), (decide (j ∈ i :: idx)) as [H|H]; try done; rewrite elem_of_cons in H; naive_solver.
Qed.

Lemma freed_unalloc s idx s' :
  freed (with_free (take_all idx (vd_free (vs_q s))) s) (reverse idx ++ []) s' -> (forall i, i ∈ idx -> vd_free (vs_q s) !! i = Some true) -> nfree (vd_free (vs_q s)) = length idx -> unalloc s s'.
Proof.
  intros [(f & ds & ts & ->) F2 [F3 F3'] F4 F5 F6 F6' F6'' F7] Hin Hn. cbn in *.
  assert (Hlt : forall i, i ∈ idx -> (i < length (vd_free (vs_q s)))%nat) by (intros i Hi; by eapply lookup_lt_Some, Hin).
  assert (f = vd_free (vs_q s)) as ->.
  { apply list_eq. intros j. rewrite F2, take_all_lookup by done. rewrite app_nil_r. destruct (decide (j ∈ reverse idx)) as [H|H]; rewrite elem_of_reverse in H.
    - by rewrite (Hin j H).
    - by rewrite decide_False by done. }
  split; try done.
  - exists ds, ts. by destruct s as [[] ? ? ? ? ? ? ? ?].
  - intros j Hj. apply F4. rewrite app_nil_r, elem_of_reverse. intros H. by apply Hj, Hin.
  - intros t p Ht. by apply F6.
  - intros t p Hpos Hc Ht. apply F6''; [|done|done]. rewrite app_nil_r. intros E%(f_equal length). rewrite length_reverse in E. cbn in E. lia.
Qed.

Lemma alloc3_desc_spec s (Q : option (list nat) -> vsys -> Prop) :
  length (vd_free (vs_q s)) = NUM ->
  (forall i0 i1 i2, NoDup [i0; i1; i2] -> (forall i, i ∈ [i0; i1; i2] -> vd_free (vs_q s) !! i = Some true) ->
     Q (Some [i0; i1; i2]) (with_free (take_all [i0; i1; i2] (vd_free (vs_q s))) s)) ->
  (forall s', (nfree (vd_free (vs_q s)) < 3)%nat -> unalloc s s' -> Q None s') -> wp alloc3_desc s Q.
Proof.
  intros Hl H1 H2. unfold alloc3_desc.
  apply (wp_loop (fun idx s' => s' = with_free (take_all idx (vd_free (vs_q s))) s /\ NoDup idx /\ (length idx <= 3)%nat /\
      (forall i, i ∈ idx -> vd_free (vs_q s) !! i = Some true) /\ (nfree (take_all idx (vd_free (vs_q s))) + length idx = nfree (vd_free (vs_q s)))%nat)
    (fun idx => (3 - length idx)%nat)).
  - intros idx s' (-> & Hnd & Hle & Hin & Hn). destruct (Nat.ltb_spec (length idx) 3) as [Hlt|Hge].
    + assert (Hlt' : forall i, i ∈ idx -> (i < length (vd_free (vs_q s)))%nat) by (intros i Hi; by eapply lookup_lt_Some, Hin).
      apply wp_bind, alloc_desc_spec; [cbn; by rewrite take_all_length|..].
      * intros i Hi. cbn in Hi. rewrite take_all_lookup in Hi by done. case_decide as Hni; [done|]. apply wp_ret. split; [|rewrite length_app; cbn; lia].
        assert (E : take_all (idx ++ [i]) (vd_free (vs_q s)) = <[i := false]> (take_all idx (vd_free (vs_q s)))) by (unfold take_all; by rewrite foldl_app).
        split_and!.
        -- rewrite E. done.
        -- apply NoDup_app. split_and!; [done|intros j Hj ->%list_elem_of_singleton; done|apply NoDup_singleton].
        -- rewrite length_app. cbn. lia.
        -- intros j [Hj| ->%list_elem_of_singleton]%elem_of_app; auto.
        -- rewrite E, length_app. cbn [length]. rewrite <- Hn. rewrite <- (nfree_alloc (take_all idx (vd_free (vs_q s))) i); [lia|].
           rewrite take_all_lookup by done. by rewrite decide_False.
      * intros Hno. apply wp_bind. eapply (free_all_spec _ idx []); [apply freed_none| |done|lia|].
        -- intros i Hi. cbn. rewrite take_all_lookup, decide_True by done. split_and!; [rewrite <- Hl; by apply Hlt'|done|apply not_elem_of_nil].
        -- rewrite (nfree_none (take_all idx (vd_free (vs_q s)))) in Hn by done. intros s' F. apply wp_ret, H2; [lia|]. by eapply freed_unalloc.
    + apply wp_ret. destruct idx as [|i0 [|i1 [|i2 [|]]]]; cbn in Hge, Hle; try lia. by apply H1.
  - split_and!; [by destruct s as [[] ? ? ? ? ? ? ? ?]|apply NoDup_nil_2|cbn; lia|intros i Hi; by apply not_elem_of_nil in Hi|change (take_all [] (vd_free (vs_q s))) with (vd_free (vs_q s)); cbn [length]; lia].
  - cbn. lia.
Qed.

(** ** Submitting a request *)

Lemma chain_frame q q' b w bn i0 i1 i2 :
  chain q b w bn i0 i1 i2 -> (forall i, i ∈ [i0; i1; i2] -> vd_free q' !! i = vd_free q !! i /\ vd_desc q' !! i = vd_desc q !! i) ->
  vd_ops q' !! i0 = vd_ops q !! i0 -> (exists st, vd_info q' !! i0 = Some (Info (Some b) st)) -> chain q' b w bn i0 i1 i2.
Proof.
  intros [H1 H2 H3 H4 H5 H6 H7] E Eo Ei.
  assert (M0 : i0 ∈ [i0; i1; i2]) by (rewrite !elem_of_cons; auto). assert (M1 : i1 ∈ [i0; i1; i2]) by (rewrite !elem_of_cons; auto).
  assert (M2 : i2 ∈ [i0; i1; i2]) by (rewrite !elem_of_cons; auto).
  split; try done.
  - intros i Hi. rewrite (proj1 (E i Hi)). auto.
  - by rewrite (proj2 (E i0 M0)).
  - by rewrite (proj2 (E i1 M1)).
  - by rewrite (proj2 (E i2 M2)).
  - by rewrite Eo.
Qed.

Lemma stage_frame q q' blocks todo todo' comp w d x h :
  (h ∈ todo' <-> h ∈ todo) -> vd_info q' !! h = vd_info q !! h -> stage q blocks todo comp w d x h -> stage q' blocks todo' comp w d x h.
Proof. intros E Ei. unfold stage. by rewrite E, Ei. Qed.

(** The state after [submit]. *)
Definition submitted_q (b : nat) (w : bool) (bn : Z) (i0 i1 i2 : nat) (q : vdisk) : vdisk :=
  set_avail (<[Z.to_nat (vd_avail_idx q mod Z.of_nat NUM) := i0]> (vd_avail q)) (u16 (vd_avail_idx q + 1))
    (set_info (<[i0 := Info (Some b) 0xff]> (vd_info q))
       (set_desc (<[i2 := Desc (StatusA i0) 1 VRING_DESC_F_WRITE 0]>
          (<[i1 := Desc (DataA b) (Z.of_nat BSIZE) (Z.lor (if w then 0 else VRING_DESC_F_WRITE) VRING_DESC_F_NEXT) i2]>
             (<[i0 := Desc (OpA i0) 16 VRING_DESC_F_NEXT i1]> (vd_desc q))))
          (set_ops (<[i0 := Req (if w then VIRTIO_BLK_T_OUT else VIRTIO_BLK_T_IN) 0 (sector_of bn)]> (vd_ops q)) q))).

Lemma wp_dmod s i d (Q : unit -> vsys -> Prop) :
  (i < length (vd_desc (vs_q s)))%nat -> Q tt (set_vs_q (set_desc (<[i := d]> (vd_desc (vs_q s))) (vs_q s)) s) -> wp (dmod i d) s Q.
Proof. intros Hi HQ. destruct (lookup_lt_is_Some_2 _ _ Hi) as [e He]. apply wp_bind. eapply wp_at; [exact He|]. by apply wp_modify. Qed.

Lemma wp_imod s i f x (Q : unit -> vsys -> Prop) :
  vd_info (vs_q s) !! i = Some x -> Q tt (set_vs_q (set_info (<[i := f x]> (vd_info (vs_q s))) (vs_q s)) s) -> wp (imod i f) s Q.
Proof. intros Hx HQ. apply wp_bind. eapply wp_at; [exact Hx|]. by apply wp_modify. Qed.

Lemma wp_bmod s b f x (Q : unit -> vsys -> Prop) :
  vs_bufs s !! b = Some x -> Q tt (set_vs_bufs (<[b := f x]> (vs_bufs s)) s) -> wp (bmod b f) s Q.
Proof. intros Hx HQ. apply wp_bind. eapply wp_at; [exact Hx|]. by apply wp_modify. Qed.

Lemma submit_spec s b w i0 i1 i2 x (Q : unit -> vsys -> Prop) :
  vs_bufs s !! b = Some x -> (forall i, i ∈ [i0; i1; i2] -> (i < NUM)%nat) -> length (vd_desc (vs_q s)) = NUM -> length (vd_info (vs_q s)) = NUM -> length (vd_ops (vs_q s)) = NUM ->
  Q tt (set_vs_mmio (vs_mmio s ++ [(VIRTIO_MMIO_QUEUE_NOTIFY, 0)]) (set_vs_bufs (<[b := set_vb_disk 1 x]> (vs_bufs s))
          (set_vs_q (submitted_q b w (vb_blockno x) i0 i1 i2 (vs_q s)) s))) ->
  wp (submit b w i0 i1 i2) s Q.
Proof.
  intros Hx Hi Ld Li Lo HQ.
  assert (H0 : (i0 < NUM)%nat) by (apply Hi; rewrite !elem_of_cons; auto). assert (H1 : (i1 < NUM)%nat) by (apply Hi; rewrite !elem_of_cons; auto).
  assert (H2 : (i2 < NUM)%nat) by (apply Hi; rewrite !elem_of_cons; auto).
  destruct (lookup_lt_is_Some_2 (vd_ops (vs_q s)) i0) as [op Hop]; [lia|]. destruct (lookup_lt_is_Some_2 (vd_info (vs_q s)) i0) as [inf Hinf]; [lia|].
  unfold submit. apply wp_bind. eapply wp_at; [exact Hx|]. apply wp_bind. eapply wp_at; [exact Hop|]. apply wp_bind, wp_modify.
  apply wp_bind, wp_dmod; [cbn; lia|]. apply wp_bind, wp_dmod; [cbn; rewrite length_insert; lia|]. apply wp_bind. eapply wp_imod; [exact Hinf|].
  apply wp_bind, wp_dmod; [cbn; rewrite !length_insert; lia|]. apply wp_bind. eapply wp_bmod; [exact Hx|].
  apply wp_bind. eapply wp_imod; [cbn; apply list_lookup_insert_eq; lia|]. apply wp_bind, wp_modify, wp_bind, wp_modify, wp_modify.
  cbn. rewrite list_insert_insert_eq. exact HQ.
Qed.

(** The processes' buffers stay theirs. *)
Lemma own_bufs q bufs ts blocks seen work pend comp t p x y :
  vcore q bufs ts blocks seen work pend comp -> active ts t p -> bufs !! pc_buf p = Some x -> vb_blockno y = vb_blockno x ->
  forall t' p', active ts t' p' -> t' <> t -> <[pc_buf p := y]> bufs !! pc_buf p' = bufs !! pc_buf p'.
Proof.
  intros C Ha Hx Hy t' p' Ha' Hne. apply list_lookup_insert_ne. intros E. apply Hne.
  eapply (co_own _ _ _ _ _ _ _ _ C _ _ _ _ x x); [exact Ha'|exact Ha|by rewrite <- E|exact Hx|by left].
Qed.

(** A process moves on with the buffer it has. *)
Section move.
Context q bufs ts blocks seen work pend comp (C : vcore q bufs ts blocks seen work pend comp).
Context t p (Ha : active ts t p) x (Hx : bufs !! pc_buf p = Some x).

Lemma move_lookup th p' : th = Ready p' \/ th = Asleep p' -> forall t' p2, active (<[t := th]> ts) t' p2 -> t' = t /\ p2 = p' \/ t' <> t /\ active ts t' p2.
Proof.
  intros Hth t' p2 H. destruct (decide (t' = t)) as [->|Hne].
  - left. split; [done|]. eapply active_same; [|exact Hth|exact H]. destruct Ha as [H'|H']; by eapply lookup_lt_Some.
  - right. split; [done|]. by rewrite active_other in H.
Qed.

Lemma move_buf th p' y : th = Ready p' \/ th = Asleep p' -> pc_buf p' = pc_buf p -> vb_blockno y = vb_blockno x ->
  (forall t' p2, active (<[t := th]> ts) t' p2 -> exists x2, <[pc_buf p := y]> bufs !! pc_buf p2 = Some x2 /\ 0 <= vb_blockno x2 < 2 ^ 31) /\
  (forall t1 t2 p1 p2 x1 x2, active (<[t := th]> ts) t1 p1 -> active (<[t := th]> ts) t2 p2 -> <[pc_buf p := y]> bufs !! pc_buf p1 = Some x1 ->
     <[pc_buf p := y]> bufs !! pc_buf p2 = Some x2 -> pc_buf p1 = pc_buf p2 \/ vb_blockno x1 = vb_blockno x2 -> t1 = t2).
Proof.
  intros Hth Hb Hy. pose proof (lookup_lt_Some _ _ _ Hx) as Hlt. destruct (co_buf _ _ _ _ _ _ _ _ C t p Ha) as (x' & Hx' & Hbn). assert (x' = x) as -> by congruence.
  assert (Hsame : forall t' p2, active (<[t := th]> ts) t' p2 -> exists p3 x3, active ts t' p3 /\ pc_buf p3 = pc_buf p2 /\ bufs !! pc_buf p2 = Some x3 /\ 0 <= vb_blockno x3 < 2 ^ 31 /\
     exists x2, <[pc_buf p := y]> bufs !! pc_buf p2 = Some x2 /\ vb_blockno x2 = vb_blockno x3).
  { intros t' p2 H. destruct (move_lookup th p' Hth t' p2 H) as [[-> ->]|[Hne H']].
    - exists p, x. rewrite Hb. split_and!; try done; try lia. exists y. by rewrite list_lookup_insert_eq.
    - destruct (co_buf _ _ _ _ _ _ _ _ C t' p2 H') as (x3 & Hx3 & Hr). exists p2, x3. split_and!; try done; try lia. exists x3. split; [|done].
      rewrite <- Hx3. by eapply (own_bufs _ _ _ _ _ _ _ _ t p x). }
  split.
  - intros t' p2 H. destruct (Hsame t' p2 H) as (p3 & x3 & _ & _ & _ & Hr & x2 & Hx2 & E). exists x2. split; [done|lia].
  - intros t1 t2 p1 p2 x1 x2 H1 H2 E1 E2 Hor. destruct (Hsame t1 p1 H1) as (q1 & z1 & A1 & B1 & F1 & _ & y1 & G1 & K1), (Hsame t2 p2 H2) as (q2 & z2 & A2 & B2 & F2 & _ & y2 & G2 & K2).
    eapply (co_own _ _ _ _ _ _ _ _ C t1 t2 q1 q2 z1 z2); [done|done|by rewrite B1|by rewrite B2|]. simplify_eq. destruct Hor; [left|right]; congruence.
Qed.
End move.

Lemma NoDup_heads q bufs ts blocks seen work pend comp i0 :
  vcore q bufs ts blocks seen work pend comp -> vd_free q !! i0 <> Some false -> i0 ∉ pend ++ work ++ comp.
Proof.
  intros C Hf Hin. destruct (co_head _ _ _ _ _ _ _ _ C i0 Hin) as (t & b & w & d & i1 & i2 & Ha).
  destruct (co_buf _ _ _ _ _ _ _ _ C t _ Ha) as (x & Hx & _). destruct (co_wait _ _ _ _ _ _ _ _ C _ _ _ _ _ _ Ha Hx) as (j0 & j1 & j2 & [= <- <- <-] & Hc & _).
  apply Hf, (ch_taken _ _ _ _ _ _ _ Hc), elem_of_cons. by left.
Qed.

(** A new request. *)
Section submit.
Context q bufs ts blocks seen work pend comp (C : vcore q bufs ts blocks seen work pend comp).
Context t b w d (Ha : active ts t (PcAlloc b w d)) x (Hx : bufs !! b = Some x).
Context i0 i1 i2 (Hnd : NoDup [i0; i1; i2]) (Hfree : forall i, i ∈ [i0; i1; i2] -> vd_free q !! i = Some true).
Let q1 : vdisk := submitted_q b w (vb_blockno x) i0 i1 i2 (set_free (take_all [i0; i1; i2] (vd_free q)) q).

Lemma submit_lt i : i ∈ [i0; i1; i2] -> (i < NUM)%nat.
Proof. intros Hi%Hfree%lookup_lt_Some. destruct (co_len _ _ _ _ _ _ _ _ C) as (_ & _ & _ & <- & _). done. Qed.

Lemma submit_free i : vd_free q1 !! i = if decide (i ∈ [i0; i1; i2]) then Some false else vd_free q !! i.
Proof. apply (take_all_lookup [i0; i1; i2]). intros j Hj%Hfree. by eapply lookup_lt_Some. Qed.

Lemma submit_other i : i ∉ [i0; i1; i2] ->
  vd_free q1 !! i = vd_free q !! i /\ vd_desc q1 !! i = vd_desc q !! i /\ vd_ops q1 !! i = vd_ops q !! i /\ vd_info q1 !! i = vd_info q !! i.
Proof.
  intros Hi. rewrite submit_free, decide_False by done. rewrite !not_elem_of_cons in Hi. destruct Hi as (H0 & H1 & H2 & _).
  cbn. by rewrite !list_lookup_insert_ne by done.
Qed.

Lemma submit_new : chain q1 b w (vb_blockno x) i0 i1 i2.
Proof.
  destruct (co_len _ _ _ _ _ _ _ _ C) as (Ld & La & Lu & Lf & Li & Lo).
  assert (M0 : i0 ∈ [i0; i1; i2]) by (rewrite !elem_of_cons; auto). assert (M1 : i1 ∈ [i0; i1; i2]) by (rewrite !elem_of_cons; auto).
  assert (M2 : i2 ∈ [i0; i1; i2]) by (rewrite !elem_of_cons; auto). pose proof (submit_lt i0 M0). pose proof (submit_lt i1 M1). pose proof (submit_lt i2 M2).
  assert (i0 <> i1 /\ i0 <> i2 /\ i1 <> i2) as (N1 & N2 & N3).
  { apply NoDup_cons in Hnd as [K1 [K2 _]%NoDup_cons]. apply not_elem_of_cons in K1 as [K3 [K4 _]%not_elem_of_cons]. apply not_elem_of_cons in K2 as [K5 _]. done. }
  split; try done; cbn; try (rewrite ?list_lookup_insert_ne by done; rewrite list_lookup_insert_eq by (rewrite ?length_insert; lia); eauto).
  intros i Hi. fold q1. rewrite submit_free. by rewrite decide_True.
Qed.

Lemma submit_core :
  vcore q1 (<[b := set_vb_disk 1 x]> bufs) (<[t := Asleep (PcWait b w d [i0; i1; i2])]> ts) blocks seen work (pend ++ [i0]) comp.
Proof.
  destruct (co_len _ _ _ _ _ _ _ _ C) as (Ld & La & Lu & Lf & Li & Lo). pose proof (lookup_lt_Some _ _ _ Hx) as Hlt.
  assert (M0 : i0 ∈ [i0; i1; i2]) by (rewrite !elem_of_cons; auto).
  assert (Hnew : i0 ∉ pend ++ work ++ comp) by (eapply NoDup_heads; [exact C|rewrite (Hfree i0 M0); done]).
  set (p' := PcWait b w d [i0; i1; i2]). pose proof (move_lookup ts t _ Ha (Asleep p') p' ltac:(by right)) as Hmv.
  destruct (move_buf _ _ _ _ _ _ _ _ C t _ Ha x Hx (Asleep p') p' (set_vb_disk 1 x) ltac:(by right) eq_refl eq_refl) as [Hbuf Hown].
  assert (Hself : active (<[t := Asleep p']> ts) t p') by (right; apply list_lookup_insert_eq; destruct Ha as [H|H]; by eapply lookup_lt_Some).
  assert (Hoth : forall t' p2, active ts t' p2 -> t' <> t -> <[b := set_vb_disk 1 x]> bufs !! pc_buf p2 = bufs !! pc_buf p2).
  { intros t' p2 H Hne. by eapply (own_bufs _ _ _ _ _ _ _ _ t (PcAlloc b w d) x). }
  assert (Hchain : forall t' b' w' d' idx', active ts t' (PcWait b' w' d' idx') -> forall i, i ∈ idx' -> i ∉ [i0; i1; i2]).
  { intros t' b' w' d' idx' H i Hi Hin. destruct (co_buf _ _ _ _ _ _ _ _ C t' _ H) as (y & Hy & _).
    destruct (co_wait _ _ _ _ _ _ _ _ C _ _ _ _ _ _ H Hy) as (j0 & j1 & j2 & -> & Hc & _). pose proof (ch_taken _ _ _ _ _ _ _ Hc i Hi). rewrite (Hfree i Hin) in *. done. }
  split; try done.
  - cbn. by rewrite !length_insert.
  - apply queue_push; [apply C|done|]. pose proof (chains_few _ _ _ _ _ _ _ _ (pend ++ work ++ comp) C (co_nodup _ _ _ _ _ _ _ _ C) (co_head _ _ _ _ _ _ _ _ C)) as Hf. rewrite length_app in Hf. unfold NUM in *. lia.
  - apply C.
  - rewrite <- app_assoc. cbn. pose proof (co_nodup _ _ _ _ _ _ _ _ C) as HN. rewrite <- Permutation_middle. by apply NoDup_cons.
  - intros t' b' w' d' y H Hy. destruct (Hmv t' _ H) as [[_ E]|[Hne H']]; [done|]. pose proof (Hoth _ _ H' Hne) as Eb; cbn in Eb; rewrite Eb in Hy. by eapply (co_alloc _ _ _ _ _ _ _ _ C).
  - intros t' b' w' d' idx y H Hy. destruct (Hmv t' _ H) as [[_ [= -> -> -> ->]]|[Hne H']].
    + rewrite list_lookup_insert_eq in Hy by done. injection Hy as <-. exists i0, i1, i2. split_and!; [done|apply submit_new|]. left. split_and!; [rewrite !elem_of_app; left; right; apply elem_of_cons; by left|done|].
      apply (co_alloc _ _ _ _ _ _ _ _ C t b w d x Ha Hx).
    + pose proof (Hoth _ _ H' Hne) as Eb; cbn in Eb; rewrite Eb in Hy. destruct (co_wait _ _ _ _ _ _ _ _ C _ _ _ _ _ _ H' Hy) as (j0 & j1 & j2 & -> & Hc & Hst). pose proof (Hchain _ _ _ _ _ H') as Hni.
      assert (Hj0 : j0 ∈ [j0; j1; j2]) by (apply elem_of_cons; by left). destruct (submit_other j0 (Hni j0 Hj0)) as (_ & _ & Eo & Ei).
      exists j0, j1, j2. split_and!; [done| |].
      * eapply chain_frame; [exact Hc| |done|rewrite Ei; apply Hc]. intros i Hi. destruct (submit_other i (Hni i Hi)) as (-> & -> & _). done.
      * assert (Hj : j0 <> i0) by (intros ->; by apply (Hni i0 Hj0)). eapply stage_frame; [|exact Ei|exact Hst]. rewrite !elem_of_app, list_elem_of_singleton.
        split; [intros [[?|?]|?]|intros [?|?]]; try done; auto.
  - intros t1 t2 b1 w1 d1 idx1 b2 w2 d2 idx2 i H1 H2 Hi1 Hi2. destruct (Hmv t1 _ H1) as [[-> [= -> -> -> ->]]|[Hne1 H1']], (Hmv t2 _ H2) as [[-> [= -> -> -> ->]]|[Hne2 H2']].
    + done.
    + exfalso. by apply (Hchain _ _ _ _ _ H2' i).
    + exfalso. by apply (Hchain _ _ _ _ _ H1' i).
    + by eapply (co_disj _ _ _ _ _ _ _ _ C).
  - intros h. rewrite <- app_assoc. cbn. rewrite elem_of_app, elem_of_cons. intros Hh. destruct (decide (h = i0)) as [->|Hne]; [by exists t, b, w, d, i1, i2|].
    destruct (co_head _ _ _ _ _ _ _ _ C h) as (t' & b' & w' & d' & j1 & j2 & H); [rewrite elem_of_app; destruct Hh as [?|[?|?]]; auto; done|]. exists t', b', w', d', j1, j2.
    apply active_other; [|done]. intros ->. by pose proof (active_fun _ _ _ _ Ha H).
  - intros i. rewrite submit_free. case_decide as Hi; [intros _; by exists t, b, w, d, [i0; i1; i2]|]. intros Hf.
    destruct (co_free _ _ _ _ _ _ _ _ C i Hf) as (t' & b' & w' & d' & idx & H & Hin). exists t', b', w', d', idx. split; [|done].
    apply active_other; [|done]. intros ->. by pose proof (active_fun _ _ _ _ Ha H).
  - intros b' y Hy. destruct (decide (b' = b)) as [->|Hne]; [right; by exists t, p'|]. rewrite list_lookup_insert_ne in Hy by done.
    destruct (co_idle _ _ _ _ _ _ _ _ C b' y Hy) as [?|(t' & p2 & H & Hb)]; [by left|right]. exists t', p2. split; [|done].
    apply active_other; [|done]. intros ->. apply Hne. rewrite <- Hb. by pose proof (active_fun _ _ _ _ Ha H) as <-.
Qed.
End submit.

(** ** Finishing a request *)

Lemma free_chain_spec s q b w bn i0 i1 i2 (Q : unit -> vsys -> Prop) :
  chain q b w bn i0 i1 i2 -> vd_desc (vs_q s) = vd_desc q -> vd_free (vs_q s) = vd_free q -> length (vd_free (vs_q s)) = NUM ->
  (forall s', freed s [i2; i1; i0] s' -> Q tt s') -> wp (free_chain i0) s Q.
Proof.
  intros [H1 H2 H3 H4 H5 _ _] Ed Ef Hl HQ. rewrite <- Ed in H3, H4, H5. rewrite <- Ef in H2. apply NoDup_cons in H1 as [K1 [K2 _]%NoDup_cons]. apply not_elem_of_cons in K1 as [K3 [K4 _]%not_elem_of_cons]. apply not_elem_of_cons in K2 as [K5 _].
  assert (Hlt : forall i, i ∈ [i0; i1; i2] -> (i < NUM)%nat) by (intros i Hi%H2%lookup_lt_Some; lia).
  assert (M0 : i0 ∈ [i0; i1; i2]) by (rewrite !elem_of_cons; auto). assert (M1 : i1 ∈ [i0; i1; i2]) by (rewrite !elem_of_cons; auto).
  assert (M2 : i2 ∈ [i0; i1; i2]) by (rewrite !elem_of_cons; auto).
  unfold free_chain. cbn [loop]. apply wp_bind, wp_bind. eapply wp_at; [exact H3|]. apply wp_bind.
  eapply free_desc_spec; [apply freed_none|by apply Hlt|by apply H2|apply not_elem_of_nil|]. intros s1 F1. apply wp_ret. cbn [negb Z.eqb Z.land d_flags VRING_DESC_F_NEXT Pos.land d_next].
  apply wp_bind, wp_bind. eapply wp_at; [rewrite (fr_desc _ _ _ F1); [exact H4|by rewrite list_elem_of_singleton]|]. apply wp_bind.
  eapply free_desc_spec; [exact F1|by apply Hlt|by apply H2|by rewrite list_elem_of_singleton|]. intros s2 F2. apply wp_ret.
  replace (negb (Z.land (d_flags _) VRING_DESC_F_NEXT =? 0)) with true by (by destruct w). cbn [d_next].
  apply wp_bind, wp_bind. eapply wp_at; [rewrite (fr_desc _ _ _ F2); [exact H5|rewrite elem_of_cons, list_elem_of_singleton; naive_solver]|]. apply wp_bind.
  eapply free_desc_spec; [exact F2|by apply Hlt|by apply H2|rewrite elem_of_cons, list_elem_of_singleton; naive_solver|]. intros s3 F3. apply wp_ret, wp_ret. by apply HQ.
Qed.

Section finish.
Context q bufs ts blocks seen work pend comp (C : vcore q bufs ts blocks seen work pend comp).
Context t b w d i0 i1 i2 (Ha : active ts t (PcWait b w d [i0; i1; i2])) x (Hx : bufs !! b = Some x) (Hdone : vb_disk x = 0).

Lemma finish_full : full d x blocks /\ i0 ∉ pend ++ work ++ comp.
Proof.
  destruct (co_wait _ _ _ _ _ _ _ _ C _ _ _ _ _ _ Ha Hx) as (j0 & j1 & j2 & [= <- <- <-] & _ & [(_ & E & _)|[(_ & E & _)|(H1 & H2 & _ & Hf)]]); [congruence..|].
  split; [done|]. rewrite app_assoc, elem_of_app. by intros [?|?].
Qed.

Lemma finish_core q' ts' :
  (forall i, i ∉ [i0; i1; i2] -> vd_free q' !! i = vd_free q !! i /\ vd_desc q' !! i = vd_desc q !! i /\ vd_info q' !! i = vd_info q !! i) ->
  (forall i, i ∈ [i0; i1; i2] -> vd_free q' !! i = Some true) -> vd_ops q' = vd_ops q ->
  vd_avail q' = vd_avail q -> vd_avail_idx q' = vd_avail_idx q -> vd_used q' = vd_used q -> vd_used_end q' = vd_used_end q -> vd_used_idx q' = vd_used_idx q ->
  length (vd_desc q') = NUM -> length (vd_free q') = NUM -> length (vd_info q') = NUM ->
  (forall t' p', active ts' t' p' <-> t' <> t /\ active ts t' p') ->
  vcore q' bufs ts' blocks seen work pend comp.
Proof.
  intros Eq Ef Eo E1 E2 E3 E4 E5 L1 L2 L3 Et. destruct finish_full as [_ Hno]. destruct C as [C1 C2 C3 C4 C5 C6 C7 C8 C9 C10 C11 C12].
  assert (Hni : forall t' b' w' d' idx', active ts t' (PcWait b' w' d' idx') -> t' <> t -> forall i, i ∈ idx' -> i ∉ [i0; i1; i2]).
  { intros t' b' w' d' idx' H Hne i Hi Hin. apply Hne. by eapply C9. }
  split; rewrite ?E1, ?E2, ?E3, ?E4, ?E5, ?Eo; try done.
  - tauto.
  - intros t' p'. rewrite Et. intros [_ H]. by apply C5 in H.
  - intros t1 t2 p1 p2 x1 x2. rewrite !Et. intros [_ H1] [_ H2]. eauto.
  - intros t' b' w' d' y. rewrite Et. intros [_ H]. eauto.
  - intros t' b' w' d' idx y. rewrite Et. intros [Hne H] Hy. destruct (C8 _ _ _ _ _ _ H Hy) as (j0 & j1 & j2 & -> & Hc & Hst). pose proof (Hni _ _ _ _ _ H Hne) as Hd.
    destruct (Eq j0) as (_ & _ & Ei); [apply Hd, elem_of_cons; by left|]. exists j0, j1, j2. split_and!; [done| |by eapply stage_frame].
    eapply chain_frame; [exact Hc| |by rewrite Eo|rewrite Ei; apply Hc]. intros i Hi. destruct (Eq i (Hd i Hi)) as (-> & -> & _). done.
  - intros t1 t2 b1 w1 d1 idx1 b2 w2 d2 idx2 i. rewrite !Et. intros [_ H1] [_ H2]. eauto.
  - intros h Hh. destruct (C10 h Hh) as (t' & b' & w' & d' & j1 & j2 & H). exists t', b', w', d', j1, j2. rewrite Et. split; [|done].
    intros ->. pose proof (active_fun _ _ _ _ Ha H) as [= _ _ _ <- _ _]. done.
  - intros i Hf. destruct (decide (i ∈ [i0; i1; i2])) as [Hi|Hi]; [rewrite (Ef i Hi) in Hf; done|]. rewrite (proj1 (Eq i Hi)) in Hf.
    destruct (C11 i Hf) as (t' & b' & w' & d' & idx & H & Hin). exists t', b', w', d', idx. rewrite Et. split; [|done]. split; [|done].
    intros ->. pose proof (active_fun _ _ _ _ Ha H) as [= _ _ _ <-]. done.
  - intros b' y Hy. destruct (C12 b' y Hy) as [?|(t' & p' & H & Hb)]; [by left|]. destruct (decide (t' = t)) as [->|Hne].
    + left. pose proof (active_fun _ _ _ _ Ha H) as <-. cbn in Hb. subst b'. congruence.
    + right. exists t', p'. by rewrite Et.
Qed.
End finish.

(** ** A process runs *)

Lemma wp_vlock s (Q : unit -> vsys -> Prop) : vs_lock s = false -> Q tt (set_vs_lock true s) -> wp vlock s Q.
Proof. intros Hl HQ. unfold vlock. apply wp_bind, wp_gets. rewrite Hl. by apply wp_modify. Qed.
Lemma wp_vunlock s (Q : unit -> vsys -> Prop) : vs_lock s = true -> Q tt (set_vs_lock false s) -> wp vunlock s Q.
Proof. intros Hl HQ. unfold vunlock. apply wp_bind, wp_gets. rewrite Hl. by apply wp_modify. Qed.

Lemma vcore_desc q bufs ts blocks seen work pend comp ds :
  vcore q bufs ts blocks seen work pend comp -> length ds = length (vd_desc q) -> (forall j, vd_free q !! j <> Some true -> ds !! j = vd_desc q !! j) ->
  vcore (set_desc ds q) bufs ts blocks seen work pend comp.
Proof.
  intros [C1 C2 C3 C4 C5 C6 C7 C8 C9 C10 C11 C12] El E. split; try done; [cbn; rewrite El; tauto|].
  intros t b w d idx x H Hx. destruct (C8 _ _ _ _ _ _ H Hx) as (i0 & i1 & i2 & -> & Hc & Hst). exists i0, i1, i2. split_and!; [done| |done].
  eapply chain_frame; [exact Hc| |done|apply Hc]. intros i Hi. split; [done|]. cbn. apply E. rewrite (ch_taken _ _ _ _ _ _ _ Hc i Hi). done.
Qed.

(** The call goes back to sleep in the state it is in. *)
Lemma sleep_again s pend comp t p :
  vinv s pend comp -> vs_threads s !! t = Some (Ready p) \/ vs_threads s !! t = Some (Asleep p) ->
  match p with PcAlloc _ _ _ => (nfree (vd_free (vs_q s)) < 3)%nat | PcWait b _ _ _ => exists x, vs_bufs s !! b = Some x /\ vb_disk x = 1 end ->
  vinv (set_vs_threads (<[t := Asleep p]> (vs_threads s)) s) pend comp.
Proof.
  intros [L C [A1 A2]] Ht Hp. assert (Hlt : (t < length (vs_threads s))%nat) by (destruct Ht as [Ht|Ht]; by eapply lookup_lt_Some).
  assert (E : forall t' p', active (<[t := Asleep p]> (vs_threads s)) t' p' <-> active (vs_threads s) t' p').
  { intros t' p'. destruct (decide (t = t')) as [<-|Hne]; [|by rewrite active_other]. rewrite (active_same _ t p) by auto. unfold active. destruct Ht as [-> | ->]; naive_solver. }
  split; [done|by eapply vcore_active|]. split; cbn.
  - intros t' b w d Hs. destruct (decide (t = t')) as [<-|Hne]; [rewrite list_lookup_insert_eq in Hs by done; by simplify_eq|rewrite list_lookup_insert_ne in Hs by done; eauto].
  - intros t' b w d idx x Hs Hx. destruct (decide (t = t')) as [<-|Hne]; [rewrite list_lookup_insert_eq in Hs by done; simplify_eq; destruct Hp as (y & Hy & ?); congruence|].
    rewrite list_lookup_insert_ne in Hs by done. eauto.
Qed.

Lemma unalloc_inv s s' pend comp : vinv (set_vs_lock false s) pend comp -> unalloc s s' -> vinv (set_vs_lock false s') pend comp.
Proof.
  intros [L C [A1 A2]] [(ds & ts & ->) U2 U3 U4 U5 _ _]. cbn in *. split; [done| |].
  - cbn. eapply vcore_active; [exact U4|]. by apply vcore_desc.
  - split; cbn; intros; eauto.
Qed.

(** The call returns with the block both in the buffer and on the disk. *)
Definition returns_full (t : nat) (p : pc) (s' : vsys) : Prop :=
  match p with
  | PcWait b w d _ => vs_threads s' !! t = Some Away -> exists x, vs_bufs s' !! b = Some x /\ vb_disk x = 0 /\ full d x (vs_blocks s')
  | PcAlloc _ _ _ => vs_threads s' !! t <> Some Away
  end.

Lemma rw_wait_spec s pend comp t b w d idx :
  vs_lock s = true -> vinv (set_vs_lock false s) pend comp -> active (vs_threads s) t (PcWait b w d idx) ->
  wp (rw_wait t b w d idx) s (fun _ s' => vinv s' pend comp /\ returns_full t (PcWait b w d idx) s').
Proof.
  intros Hl I Ht. pose proof (iv_core _ _ _ I) as C. cbn in C. destruct (co_buf _ _ _ _ _ _ _ _ C t _ Ht) as (x & Hx & Hbn). cbn in Hx.
  destruct (co_wait _ _ _ _ _ _ _ _ C _ _ _ _ _ _ Ht Hx) as (i0 & i1 & i2 & -> & Hc & _). assert (Hlt : (t < length (vs_threads s))%nat) by (destruct Ht as [Ht|Ht]; by eapply lookup_lt_Some).
  unfold rw_wait. apply wp_bind. eapply wp_at; [exact Hx|]. destruct (Z.eqb_spec (vb_disk x) 1) as [E|E].
  { unfold vsleep. apply wp_bind, wp_vunlock; [done|]. apply wp_modify. split.
    - apply (sleep_again (set_vs_lock false s)); [done|exact Ht|eauto].
    - cbn. rewrite list_lookup_insert_eq by done. done. }
  assert (Hz : vb_disk x = 0).
  { destruct (co_wait _ _ _ _ _ _ _ _ C _ _ _ _ _ _ Ht Hx) as (j0 & j1 & j2 & _ & _ & [(_ & ? & _)|[(_ & ? & _)|(_ & _ & ? & _)]]); done. }
  destruct (finish_full _ _ _ _ _ _ _ _ C t b w d i0 i1 i2 Ht x Hx Hz) as [Hfull _]. destruct (co_len _ _ _ _ _ _ _ _ C) as (Ld & La & Lu & Lf & Li & Lo).
  destruct (ch_info _ _ _ _ _ _ _ Hc) as [st Hst]. apply wp_bind. eapply wp_imod; [exact Hst|]. apply wp_bind.
  eapply (free_chain_spec _ (vs_q s) b w (vb_blockno x) i0 i1 i2); [done..|]. intros s1 F.
  pose proof F as [(f & ds & ts & ->) F2 [F3 F3'] F4 F5 F6 F6' _ F7]. cbn in F2, F3, F3', F4, F5, F6, F6', F7.
  apply wp_bind, wp_vunlock; [done|]. apply wp_modify.
  assert (Hlt' : (t < length ts)%nat) by lia. assert (M : forall i, i ∈ [i2; i1; i0] <-> i ∈ [i0; i1; i2]) by (intros i; rewrite !elem_of_cons; tauto).
  split.
  - split; [done| |split]; cbn.
    + eapply (finish_core _ _ _ _ _ _ _ _ C t b w d i0 i1 i2 Ht x Hx Hz); try done; cbn; try lia.
      * intros i Hi. split_and!; [rewrite F2, decide_False by (by rewrite M); done|apply F4; by rewrite M|].
        rewrite list_lookup_insert_ne; [done|]. intros ->. apply Hi, elem_of_cons. by left.
      * intros i Hi. rewrite F2, decide_True; [done|by apply M].
      * by rewrite length_insert.
      * intros t' p'. rewrite <- F5. split; [intros H%active_away; naive_solver|]. intros [Hne H]. by apply active_other.
    + intros t' b' w' d' Hs. destruct (decide (t = t')) as [<-|Hne]; [rewrite list_lookup_insert_eq in Hs by done; done|]. rewrite list_lookup_insert_ne in Hs by done.
      destruct (F6 _ _ Hs) as [_ [?|?]]; done.
    + intros t' b' w' d' idx y Hs Hy. destruct (decide (t = t')) as [<-|Hne]; [rewrite list_lookup_insert_eq in Hs by done; done|]. rewrite list_lookup_insert_ne in Hs by done.
      destruct (F6 _ _ Hs) as [Hs' _]. by eapply (proj2 (iv_sleep _ _ _ I)).
  - cbn. intros _. by exists x.
Qed.

Lemma run_spec s pend comp t p :
  vinv s pend comp -> vs_threads s !! t = Some (Ready p) ->
  wp (virtio_disk_rw t p) s (fun _ s' => (exists pend', vinv s' pend' comp) /\ returns_full t p s').
Proof.
  intros I Ht. pose proof I as [L C A]. assert (Hlt : (t < length (vs_threads s))%nat) by (by eapply lookup_lt_Some).
  assert (I1 : vinv (set_vs_lock false (set_vs_lock true s)) pend comp) by (split; [done|done|exact A]).
  unfold virtio_disk_rw. apply wp_bind, wp_vlock; [done|]. destruct p as [b w d|b w d idx].
  - destruct (co_buf _ _ _ _ _ _ _ _ C t (PcAlloc b w d) ltac:(by left)) as (x & Hx & Hbn). cbn in Hx.
    destruct (co_len _ _ _ _ _ _ _ _ C) as (Ld & La & Lu & Lf & Li & Lo).
    apply wp_bind, alloc3_desc_spec; [done| |].
    + intros i0 i1 i2 Hnd Hfree. apply wp_bind. eapply (submit_spec _ b w i0 i1 i2 x); [done|eapply submit_lt; [exact C|exact Hfree]|done..|].
      apply wp_bind. eapply wp_at; [cbn; apply list_lookup_insert_eq; by eapply lookup_lt_Some|]. cbn [vb_disk set_vb_disk Z.eqb Pos.eqb].
      unfold vsleep. apply wp_bind, wp_vunlock; [done|]. apply wp_modify. split; [exists (pend ++ [i0])|cbn; rewrite list_lookup_insert_eq by done; done].
      split; [done| |split]; cbn.
      * exact (submit_core _ _ _ _ _ _ _ _ C t b w d ltac:(by left) x Hx i0 i1 i2 Hnd Hfree).
      * intros t' b' w' d' Hs. destruct (decide (t = t')) as [<-|Hne]; [rewrite list_lookup_insert_eq in Hs by done; done|]. rewrite list_lookup_insert_ne in Hs by done.
        exact (Nat.le_lt_trans _ _ _ (nfree_take [i0; i1; i2] (vd_free (vs_q s))) (proj1 A _ _ _ _ Hs)).
      * intros t' b' w' d' idx y Hs Hy. destruct (decide (t = t')) as [<-|Hne].
        -- rewrite list_lookup_insert_eq in Hs by done. injection Hs as <- <- <- <-. rewrite list_lookup_insert_eq in Hy by (by eapply lookup_lt_Some). by injection Hy as <-.
        -- rewrite list_lookup_insert_ne in Hs by done.
           pose proof (own_bufs _ _ _ _ _ _ _ _ t (PcAlloc b w d) x (set_vb_disk 1 x) C ltac:(by left) Hx eq_refl t' (PcWait b' w' d' idx) ltac:(by right) ltac:(done)) as Eb.
           cbn in Eb. rewrite Eb in Hy. by eapply (proj2 A).
    + intros s' Hn U. pose proof (unalloc_inv _ _ pend comp I1 U) as I2. pose proof U as [(ds & ts & ->) U2 U3 U4 U5 _ U6]. cbn in U4, U6.
      assert (Ht' : active ts t (PcAlloc b w d)) by (apply U4; by left).
      unfold vsleep. apply wp_bind, wp_vunlock; [done|]. apply wp_modify. split; [|cbn; rewrite list_lookup_insert_eq by lia; done].
      exists pend. by apply (sleep_again _ pend comp t (PcAlloc b w d) I2).
  - eapply wp_mono; [apply (rw_wait_spec _ pend comp); [done|exact I1|by left]|]. cbn beta. intros [] s' [I' Hf]. split; [by exists pend|done].
Qed.

(** ** The interrupt handler *)

Lemma active_again ts t p : active ts t p -> forall t' p', active (<[t := Ready p]> ts) t' p' <-> active ts t' p'.
Proof.
  intros Ha t' p'. assert (Hlt : (t < length ts)%nat) by (destruct Ha as [H|H]; by eapply lookup_lt_Some).
  destruct (decide (t = t')) as [<-|Hne]; [|by rewrite active_other]. rewrite (active_same _ t p) by auto.
  split; [by intros ->|]. intros H. by eapply active_fun.
Qed.

(** One completion is reported. *)
Lemma report_core q bufs ts blocks seen work pend h comp t b w d i1 i2 x :
  vcore q bufs ts blocks seen work pend (h :: comp) -> active ts t (PcWait b w d [h; i1; i2]) -> bufs !! b = Some x ->
  vcore (set_used_idx (u16 (vd_used_idx q + 1)) q) (<[b := set_vb_disk 0 x]> bufs) ts blocks seen work pend comp.
Proof.
  intros C Ha Hx. pose proof (lookup_lt_Some _ _ _ Hx) as Hlt. set (p := PcWait b w d [h; i1; i2]) in *.
  destruct (move_buf _ _ _ _ _ _ _ _ C t p Ha x Hx (Ready p) p (set_vb_disk 0 x) ltac:(by left) eq_refl eq_refl) as [Hbuf Hown].
  pose proof (active_again ts t p Ha) as E.
  assert (Hoth : forall t' p2, active ts t' p2 -> t' <> t -> <[b := set_vb_disk 0 x]> bufs !! pc_buf p2 = bufs !! pc_buf p2).
  { intros t' p2 H Hne. by eapply (own_bufs _ _ _ _ _ _ _ _ t p x). }
  destruct C as [C1 C2 C3 C4 C5 C6 C7 C8 C9 C10 C11 C12]. destruct (queue_pop _ _ _ _ _ C3) as [_ C3'].
  assert (Hno : (h ∉ pend ++ work) /\ (h ∉ comp) /\ NoDup (pend ++ work ++ comp)).
  { rewrite app_assoc, <- Permutation_middle, <- app_assoc in C4. apply NoDup_cons in C4 as [Hn C4]. rewrite !not_elem_of_app in Hn. rewrite not_elem_of_app. tauto. }
  destruct Hno as (Hn1 & Hn2 & Hnd). split; try done.
  - intros t' p2 H. apply (Hbuf t'). by rewrite E.
  - intros t1 t2 p1 p2 x1 x2 H1 H2. apply Hown; by rewrite E.
  - intros t' b' w' d' y H Hy. assert (Hne : t' <> t) by (intros ->; by pose proof (active_fun _ _ _ _ Ha H)). pose proof (Hoth _ _ H Hne) as Eb. cbn in Eb. rewrite Eb in Hy. eauto.
  - intros t' b' w' d' idx y H Hy. destruct (decide (t' = t)) as [->|Hne].
    + pose proof (active_fun _ _ _ _ Ha H) as [= <- <- <- <-]. rewrite list_lookup_insert_eq in Hy by done. injection Hy as <-.
      destruct (C8 _ _ _ _ _ _ Ha Hx) as (j0 & j1 & j2 & [= <- <- <-] & Hc & Hst). exists h, i1, i2. split_and!; [done|by destruct Hc|]. right. right. split_and!; try done.
      all: destruct Hst as [(? & _)|[(_ & _ & [? ?] & _)|(_ & Hn & _)]]; [done|done|exfalso; apply Hn, elem_of_cons; by left].
    + pose proof (Hoth _ _ H Hne) as Eb. cbn in Eb. rewrite Eb in Hy. destruct (C8 _ _ _ _ _ _ H Hy) as (j0 & j1 & j2 & -> & Hc & Hst). exists j0, j1, j2. split_and!; [done|by destruct Hc|].
      assert (Hj : j0 <> h) by (intros ->; apply Hne; eapply (C9 _ _ _ _ _ _ _ _ _ _ h); [exact H|exact Ha|apply elem_of_cons; by left|apply elem_of_cons; by left]).
      unfold stage in *. rewrite !elem_of_cons in Hst. cbn [vd_info set_used_idx]. destruct Hst as [?|[([?|?] & ?)|(? & ? & ?)]]; [by left|done|by right; left|right; right]. split_and!; [done|tauto|tauto|tauto].
  - intros g Hg. apply C10. rewrite !elem_of_app, elem_of_cons in *. tauto.
  - intros b' y Hy. destruct (decide (b' = b)) as [->|Hne]; [left; rewrite list_lookup_insert_eq in Hy by done; by injection Hy as <-|].
    rewrite list_lookup_insert_ne in Hy by done. eauto.
Qed.

Lemma report_asleep q q' bufs ts b x :
  asleep_ok q bufs ts -> vd_free q' = vd_free q -> asleep_ok q' (<[b := x]> bufs) (map (wake (BufChan b)) ts).
Proof.
  intros [A1 A2] Ef. split; [intros t b' w d|intros t b' w d idx y]; rewrite list_lookup_fmap; destruct (ts !! t) as [[|p|p]|] eqn:Et; cbn; try done; case_decide as Hc; try done; intros [= ->].
  - rewrite Ef. eauto.
  - rewrite list_lookup_insert_ne by (intros ->; by apply Hc). eauto.
Qed.

(** The handler reports every finished request. *)
Lemma intr_spec reg s pend comp :
  vinv s pend comp -> wp (virtio_disk_intr reg) s (fun _ s' => vinv s' pend [] /\ vd_used_idx (vs_q s') = vd_used_end (vs_q s') /\
    vs_blocks s' = vs_blocks s /\ vs_work s' = vs_work s).
Proof.
  intros [L C A]. unfold virtio_disk_intr. apply wp_bind, wp_vlock; [done|]. apply wp_bind, wp_gets, wp_bind, wp_modify, wp_bind.
  assert (Hfew : forall q bufs ts blocks seen work comp', vcore q bufs ts blocks seen work pend comp' -> (length comp' <= NUM)%nat).
  { intros q bufs ts blocks seen work comp' C'. pose proof (chains_few _ _ _ _ _ _ _ _ _ C' (co_nodup _ _ _ _ _ _ _ _ C') (co_head _ _ _ _ _ _ _ _ C')) as H. rewrite !length_app in H. lia. }
  apply (wp_loop_nat (fun n _ s' => exists comp', n = length comp' /\ vs_lock s' = true /\ vinv (set_vs_lock false s') pend comp' /\ vs_blocks s' = vs_blocks s /\ vs_work s' = vs_work s)
    _ _) with (n := length comp).
  - intros n _ s' (comp' & -> & L' & [_ C' A'] & Eb & Ew). cbn in C', A'. apply wp_bind, wp_gets. pose proof (Hfew _ _ _ _ _ _ _ C') as Hl.
    destruct (Z.eqb_spec (vd_used_idx (vs_q s')) (vd_used_end (vs_q s'))) as [E|E].
    { apply wp_ret, wp_vunlock; [done|]. apply (queue_nil _ _ _ _ (co_comp _ _ _ _ _ _ _ _ C') Hl) in E as E'. subst comp'. split_and!; try done. }
    destruct comp' as [|h comp']; [exfalso; apply E; by apply (queue_nil _ _ _ _ (co_comp _ _ _ _ _ _ _ _ C') Hl)|].
    destruct (co_head _ _ _ _ _ _ _ _ C' h) as (t & b & w & d & i1 & i2 & Ha); [rewrite !elem_of_app, elem_of_cons; auto|].
    destruct (co_buf _ _ _ _ _ _ _ _ C' t _ Ha) as (x & Hx & _). cbn in Hx.
    destruct (co_wait _ _ _ _ _ _ _ _ C' _ _ _ _ _ _ Ha Hx) as (j0 & j1 & j2 & [= <- <- <-] & Hc & Hst). destruct (ch_info _ _ _ _ _ _ _ Hc) as [st Hinf].
    assert (st = 0) as ->.
    { pose proof (co_nodup _ _ _ _ _ _ _ _ C') as HN. rewrite app_assoc, <- Permutation_middle in HN. apply NoDup_cons in HN as [HN _]. rewrite elem_of_app in HN.
      destruct Hst as [(? & _)|[(_ & _ & _ & b' & Hi)|(_ & Hn & _)]]; [exfalso; tauto|congruence|exfalso; apply Hn, elem_of_cons; by left]. }
    apply wp_bind. eapply wp_at; [apply (queue_pop _ _ _ _ _ (co_comp _ _ _ _ _ _ _ _ C'))|]. apply wp_bind. eapply wp_at; [exact Hinf|]. cbn [in_status in_b Z.eqb negb].
    apply wp_bind, wp_ret, wp_bind. eapply wp_bmod; [exact Hx|]. apply wp_bind, wp_modify, wp_bind, wp_modify, wp_ret.
    exists (length comp'). split; [cbn; lia|]. exists comp'. split_and!; try done. split; [done| |].
    + cbn. eapply vcore_active; [intros; apply active_wake|]. by eapply report_core.
    + cbn. by eapply report_asleep.
  - exists comp. split_and!; try done.
  - pose proof (Hfew _ _ _ _ _ _ _ C). unfold NUM in *. lia.
Qed.

(** ** The device *)

Lemma chain_request q b w bn i0 i1 i2 : chain q b w bn i0 i1 i2 -> request q i0 = Some (w, sector_of bn, b, i0).
Proof. intros [_ _ H3 H4 H5 H6 _]. unfold request. rewrite H3, H6, H4, H5. by destruct w. Qed.

Lemma sector_block bn : 0 <= bn < 2 ^ 31 -> sector_of bn / (Z.of_nat BSIZE / 512) = bn.
Proof. intros H. unfold sector_of. change (Z.of_nat BSIZE / 512) with 2. rewrite u32_id by lia. by rewrite Z.div_mul. Qed.

Lemma fetch_inv s s' pend comp : vinv s pend comp -> fetched s = Some s' -> exists pend', vinv s' pend' comp.
Proof.
  intros [L C A]. unfold fetched. destruct (Z.eqb_spec (vs_seen s) (vd_avail_idx (vs_q s))) as [|Hne]; [done|].
  destruct C as [C1 C2 C3 C4 C5 C6 C7 C8 C9 C10 C11 C12]. destruct pend as [|h pend].
  { exfalso. apply Hne. destruct C2 as (Hf & -> & _). cbn. rewrite Z.add_0_r. by rewrite u16_id. }
  destruct (queue_pop _ _ _ _ _ C2) as [Hh C2']. rewrite Hh. cbn. intros [= <-]. exists pend.
  assert (Hp : pend ++ (vs_work s ++ [h]) ++ comp ≡ₚ (h :: pend) ++ vs_work s ++ comp).
  { rewrite <- (app_assoc (vs_work s)). cbn. rewrite <- (Permutation_middle (vs_work s)), <- (Permutation_middle pend). done. }
  assert (Ht : forall g, g ∈ pend ++ vs_work s ++ [h] <-> g ∈ (h :: pend) ++ vs_work s) by (intros g; rewrite !elem_of_app, !elem_of_cons; cbn; rewrite elem_of_nil; tauto).
  split; [done| |done]. split; try done; cbn.
  - by rewrite Hp.
  - intros t b w d idx x H Hx. destruct (C8 _ _ _ _ _ _ H Hx) as (i0 & i1 & i2 & -> & Hc & Hst). exists i0, i1, i2. split_and!; [done|done|].
    eapply stage_frame; [|done|exact Hst]. apply Ht.
  - intros g. rewrite Hp. apply C10.
Qed.

Lemma filter_absent (l : list nat) h : h ∉ l -> filter (fun g => g <> h) l = l.
Proof. induction l as [|g l IH]; [done|]. intros [Hne Hl]%not_elem_of_cons. rewrite filter_cons_True by done. by rewrite IH. Qed.

(** The transfer of the request of one process leaves the others' alone. *)
Section serve.
Context q bufs ts blocks seen work pend comp (C : vcore q bufs ts blocks seen work pend comp).
Context t b w d h i1 i2 (Ha : active ts t (PcWait b w d [h; i1; i2])) x (Hx : bufs !! b = Some x) (Hh : h ∈ work).
Let bufs1 : list vbuf := if w then bufs else <[b := set_vb_data (blocks (vb_blockno x)) x]> bufs.
Let blocks1 : Z -> block := if w then upd blocks (vb_blockno x) (vb_data x) else blocks.

Lemma serve_full : exists x1, bufs1 !! b = Some x1 /\ vb_disk x1 = 1 /\ vb_blockno x1 = vb_blockno x /\ full d x1 blocks1.
Proof.
  destruct (co_wait _ _ _ _ _ _ _ _ C _ _ _ _ _ _ Ha Hx) as (j0 & j1 & j2 & [= <- <- <-] & Hc & Hst).
  assert (Hd : vb_disk x = 1 /\ half w d x blocks).
  { destruct Hst as [(_ & ? & ?)|[(Hin & _)|(Hn & _)]]; [done| |exfalso; apply Hn, elem_of_app; by right].
    exfalso. pose proof (co_nodup _ _ _ _ _ _ _ _ C) as HN. apply NoDup_app in HN as (_ & _ & HN). apply NoDup_app in HN as (_ & HN & _). by apply (HN h). }
  destruct Hd as [Hd Hf]. unfold bufs1, blocks1, full, half in *. destruct w.
  - exists x. split_and!; [done|done|done|done|]. by rewrite upd_eq.
  - exists (set_vb_data (blocks (vb_blockno x)) x). rewrite list_lookup_insert_eq by (by eapply lookup_lt_Some). split_and!; done.
Qed.

Lemma serve_other t' p' y : active ts t' p' -> t' <> t -> bufs !! pc_buf p' = Some y -> bufs1 !! pc_buf p' = Some y /\ blocks1 (vb_blockno y) = blocks (vb_blockno y).
Proof.
  intros H Hne Hy. unfold bufs1, blocks1. destruct w.
  - split; [done|]. apply upd_ne. intros E. apply Hne. by eapply (co_own _ _ _ _ _ _ _ _ C _ _ _ _ y x); [exact H|exact Ha|exact Hy|exact Hx|right].
  - split; [|done]. rewrite <- Hy. by eapply (own_bufs _ _ _ _ _ _ _ _ t (PcWait b false d [h; i1; i2]) x).
Qed.

Lemma serve_lookup c y : bufs1 !! c = Some y -> exists y0, bufs !! c = Some y0 /\ vb_blockno y = vb_blockno y0 /\ vb_disk y = vb_disk y0.
Proof.
  unfold bufs1. destruct w; [by exists y|]. destruct (decide (c = b)) as [->|Hne]; [|rewrite list_lookup_insert_ne by done; by exists y].
  rewrite list_lookup_insert_eq by (by eapply lookup_lt_Some). intros [= <-]. by exists x.
Qed.

Lemma serve_core q1 st :
  vd_desc q1 = vd_desc q -> vd_free q1 = vd_free q -> vd_ops q1 = vd_ops q -> vd_avail q1 = vd_avail q -> vd_avail_idx q1 = vd_avail_idx q -> vd_used_idx q1 = vd_used_idx q ->
  vd_info q !! h = Some (Info (Some b) st) -> vd_info q1 = <[h := Info (Some b) 0]> (vd_info q) ->
  vd_used q1 = <[Z.to_nat (vd_used_end q mod Z.of_nat NUM) := h]> (vd_used q) -> vd_used_end q1 = u16 (vd_used_end q + 1) ->
  vcore q1 bufs1 ts blocks1 seen (filter (fun g => g <> h) work) pend (comp ++ [h]).
Proof.
  intros E1 E2 E3 E4 E5 E6 Hinf E7 E8 E9.
  pose proof (chains_few _ _ _ _ _ _ _ _ _ C (co_nodup _ _ _ _ _ _ _ _ C) (co_head _ _ _ _ _ _ _ _ C)) as Hfew. rewrite !length_app in Hfew.
  pose proof serve_full as (x1 & Hx1 & Hd1 & Hb1 & Hf1). pose proof serve_other as Hoth. pose proof serve_lookup as Hlk.
  destruct C as [C1 C2 C3 C4 C5 C6 C7 C8 C9 C10 C11 C12]. pose proof (lookup_lt_Some _ _ _ Hinf) as Hih.
  assert (Hp : pend ++ filter (fun g => g <> h) work ++ comp ++ [h] ≡ₚ pend ++ work ++ comp).
  { apply NoDup_app in C4 as (_ & _ & N2). apply NoDup_app in N2 as (Nw & _ & _). f_equiv. rewrite (Permutation_app_comm comp [h]), app_assoc. f_equiv.
    clear -Hh Nw. induction work as [|g work' IH]; [by apply not_elem_of_nil in Hh|]. apply NoDup_cons in Nw as [Hg Nw]. destruct (decide (g = h)) as [->|Hne].
    - rewrite filter_cons_False by auto. rewrite filter_absent by done. by rewrite Permutation_app_comm.
    - rewrite filter_cons_True by done. cbn. f_equiv. apply IH; [|done]. apply elem_of_cons in Hh as [->|?]; done. }
  assert (Hch : forall b' w' bn j0 j1 j2, chain q b' w' bn j0 j1 j2 -> (j0 = h -> b' = b) -> chain q1 b' w' bn j0 j1 j2).
  { intros b' w' bn j0 j1 j2 Hc Hb. eapply chain_frame; [exact Hc|by rewrite E1, E2|by rewrite E3|]. rewrite E7. destruct (decide (j0 = h)) as [->|Hne].
    - rewrite (Hb eq_refl), list_lookup_insert_eq by done. eauto.
    - rewrite list_lookup_insert_ne by done. apply Hc. }
  assert (Hwk : forall g, g ∈ pend ++ filter (fun g => g <> h) work <-> g ∈ pend ++ work /\ g <> h).
  { intros g. rewrite !elem_of_app, list_elem_of_filter. split; [|tauto]. intros [Hg|[? ?]]; [|tauto]. split; [tauto|]. intros ->.
    apply NoDup_app in C4 as (_ & HN & _). apply (HN h Hg), elem_of_app. by left. }
  split; try done.
  - rewrite E1, E2, E3, E4, E7, E8, !length_insert. done.
  - by rewrite E4, E5.
  - rewrite E6, E8, E9. apply queue_push; [done|apply C1|]. unfold NUM in *. lia.
  - by rewrite Hp.
  - intros t' p' H. destruct (C5 t' p' H) as (y & Hy & Hr). destruct (decide (t' = t)) as [->|Hne].
    + pose proof (active_fun _ _ _ _ Ha H) as <-. exists x1. cbn in Hy |- *. split; [done|]. rewrite Hb1. congruence.
    + exists y. split; [by apply (Hoth t')|done].
  - intros t1 t2 p1 p2 y1 y2 H1 H2 Hy1 Hy2 Hor. destruct (Hlk _ _ Hy1) as (z1 & Hz1 & F1 & _), (Hlk _ _ Hy2) as (z2 & Hz2 & F2 & _).
    eapply (C6 t1 t2 p1 p2 z1 z2); try done. rewrite <- F1, <- F2. done.
  - intros t' b' w' d' y H Hy. assert (Hne : t' <> t) by (intros ->; by pose proof (active_fun _ _ _ _ Ha H)). destruct (Hlk _ _ Hy) as (z & Hz & _).
    destruct (Hoth t' _ z H Hne Hz) as [Hz' Eb]. assert (z = y) as -> by (cbn in Hz'; congruence). unfold half. rewrite Eb. eapply C7; [exact H|done].
  - intros t' b' w' d' idx y H Hy. destruct (Hlk _ _ Hy) as (z & Hz & Ebn & _). destruct (C8 _ _ _ _ _ _ H Hz) as (j0 & j1 & j2 & -> & Hc & Hst). exists j0, j1, j2.
    destruct (decide (t' = t)) as [->|Hne].
    + pose proof (active_fun _ _ _ _ Ha H) as [= <- <- <- <- <- <-]. assert (x1 = y) as <- by congruence. split_and!; [done|rewrite Ebn; by apply Hch|].
      right. left. split_and!; [apply elem_of_app; right; by apply list_elem_of_singleton|done|exact Hf1|]. exists (Some b). rewrite E7. by apply list_lookup_insert_eq.
    + assert (Hj : j0 <> h) by (intros ->; apply Hne; eapply (C9 _ _ _ _ _ _ _ _ _ _ h); [exact H|exact Ha|apply elem_of_cons; by left|apply elem_of_cons; by left]).
      destruct (Hoth t' _ z H Hne Hz) as [Hz' Eb]. assert (z = y) as -> by (cbn in Hz'; congruence). split_and!; [done|by apply Hch|].
      assert (Hc1 : j0 ∈ comp ++ [h] <-> j0 ∈ comp) by (rewrite elem_of_app, list_elem_of_singleton; tauto).
      unfold stage, half, full in *. rewrite Eb, Hwk, Hc1, E7, list_lookup_insert_ne by done. tauto.
  - intros g. rewrite Hp. apply C10.
  - intros i Hi. rewrite E2 in Hi. eauto.
  - intros c y Hy. destruct (Hlk _ _ Hy) as (z & Hz & _ & ->). eauto.
Qed.
End serve.

Lemma device_inv device s s' pend comp : device_ok device -> vinv s pend comp -> device s s' -> exists pend' comp', vinv s' pend' comp'.
Proof.
  intros Hd I H. destruct (Hd s s' H) as [Hf|(h & Hh & Hs)]; [destruct (fetch_inv _ _ _ _ I Hf) as [pend' I']; eauto|].
  destruct I as [L C A]. destruct (co_head _ _ _ _ _ _ _ _ C h) as (t & b & w & d & i1 & i2 & Ha); [rewrite !elem_of_app; auto|].
  destruct (co_buf _ _ _ _ _ _ _ _ C t _ Ha) as (x & Hx & Hbn). cbn in Hx.
  destruct (co_wait _ _ _ _ _ _ _ _ C _ _ _ _ _ _ Ha Hx) as (j0 & j1 & j2 & [= <- <- <-] & Hc & _). destruct (ch_info _ _ _ _ _ _ _ Hc) as [st Hinf].
  specialize (Hs _ _ _ _ (chain_request _ _ _ _ _ _ _ Hc)). unfold served in Hs. rewrite Hx, Hinf in Hs. cbn in Hs. rewrite sector_block in Hs by done. injection Hs as <-.
  exists pend, (comp ++ [h]). split; [by destruct w| |].
  - pose proof (serve_core _ _ _ _ _ _ _ _ C t b w d h i1 i2 Ha x Hx Hh) as K. destruct w; cbn; by eapply K.
  - cbn. destruct A as [A1 A2]. split; [by destruct w; apply A1|]. destruct w; [by apply A2|]. cbn. intros t' b' w' d' idx y Ht Hy.
    destruct (decide (b' = b)) as [->|Hne]; [|rewrite list_lookup_insert_ne in Hy by done; eauto].
    rewrite list_lookup_insert_eq in Hy by (by eapply lookup_lt_Some). injection Hy as <-. cbn. eauto.
Qed.

(** ** Every reachable state *)

Lemma start_inv s : vstart s -> vinv s [] [].
Proof.
  intros [V1 [V2 V3] (V4 & V5 & V6 & V7) V8 [V9 V10] V11 V12 V13 V14].
  assert (Hno : forall t p, ~ active (vs_threads s) t p) by (intros t p [H|H]; by apply V13 in H).
  split; [done| |split].
  - rewrite V11. split; try (intros; exfalso; by eapply Hno); try done.
    + rewrite V8, length_replicate. done.
    + rewrite V4, V7. split; [lia|]. split; [done|]. done.
    + rewrite V5, V6. split; [lia|]. split; [done|]. done.
    + apply NoDup_nil_2.
    + intros h Hh. by apply not_elem_of_nil in Hh.
    + rewrite V8. intros i Hi. apply lookup_replicate in Hi as [? _]. done.
    + intros b x Hx. left. eauto.
  - intros t b w d H. by apply V13 in H.
  - intros t b w d idx x H. by apply V13 in H.
Qed.

Lemma call_inv s pend comp t b w blockno data x :
  vinv s pend comp -> vs_threads s !! t = Some Away -> vs_bufs s !! b = Some x -> may_call b blockno s ->
  vinv (set_vs_threads (<[t := Ready (PcAlloc b w (if (w : bool) then data else vs_blocks s blockno))]> (vs_threads s))
          (set_vs_bufs (<[b := Vbuf blockno (vb_disk x) data]> (vs_bufs s)) s)) pend comp.
Proof.
  intros [L C A] Ht Hx [Hbn Hmay]. set (d := if w then data else vs_blocks s blockno). pose proof (lookup_lt_Some _ _ _ Hx) as Hlb. pose proof (lookup_lt_Some _ _ _ Ht) as Hlt.
  destruct C as [C1 C2 C3 C4 C5 C6 C7 C8 C9 C10 C11 C12].
  assert (Hnew : forall t' p', active (<[t := Ready (PcAlloc b w d)]> (vs_threads s)) t' p' -> (t' = t /\ p' = PcAlloc b w d) \/ (t' <> t /\ active (vs_threads s) t' p')).
  { intros t' p' H. destruct (decide (t = t')) as [<-|Hne]; [left; split; [done|]; eapply active_same; [exact Hlt| |exact H]; by left|right; by rewrite active_other in H]. }
  assert (Hold : forall t' p', active (vs_threads s) t' p' -> active (<[t := Ready (PcAlloc b w d)]> (vs_threads s)) t' p').
  { intros t' p' H. apply active_other; [|done]. intros <-. destruct H; congruence. }
  assert (Hb : forall t' p' y, active (vs_threads s) t' p' -> <[b := Vbuf blockno (vb_disk x) data]> (vs_bufs s) !! pc_buf p' = Some y -> vs_bufs s !! pc_buf p' = Some y /\ vb_blockno y <> blockno).
  { intros t' p' y H Hy. destruct (C5 t' p' H) as (z & Hz & _). destruct (Hmay t' p' z H Hz) as [Hne Hn]. rewrite list_lookup_insert_ne in Hy by done. assert (z = y) as <- by congruence. done. }
  assert (Hself : <[b := Vbuf blockno (vb_disk x) data]> (vs_bufs s) !! b = Some (Vbuf blockno (vb_disk x) data)) by (by apply list_lookup_insert_eq).
  assert (Hx0 : vb_disk x = 0).
  { destruct (C12 b x Hx) as [?|(t' & p' & H & <-)]; [done|]. destruct (C5 t' p' H) as (z & Hz & _). by destruct (Hmay t' p' z H Hz). }
  split; [done| |].
  - cbn. split; try done.
    + intros t' p' H. destruct (Hnew t' p' H) as [[-> ->]|[Hne H']]; [by eexists|]. destruct (C5 t' p' H') as (z & Hz & Hr). exists z. split; [|done].
      rewrite list_lookup_insert_ne; [done|]. intros E. destruct (Hmay t' p' z H' Hz). congruence.
    + intros t1 t2 p1 p2 y1 y2 H1 H2 Hy1 Hy2 Hor. destruct (Hnew t1 p1 H1) as [[-> ->]|[Hne1 H1']], (Hnew t2 p2 H2) as [[-> ->]|[Hne2 H2']]; try done.
      * cbn in Hy1. rewrite Hself in Hy1. injection Hy1 as <-. destruct (Hb t2 p2 y2 H2' Hy2) as [Hz Hn]. destruct (Hmay t2 p2 y2 H2' Hz). exfalso. cbn in Hor. destruct Hor; congruence.
      * cbn in Hy2. rewrite Hself in Hy2. injection Hy2 as <-. destruct (Hb t1 p1 y1 H1' Hy1) as [Hz Hn]. destruct (Hmay t1 p1 y1 H1' Hz). exfalso. cbn in Hor. destruct Hor; congruence.
      * destruct (Hb t1 p1 y1 H1' Hy1) as [Hz1 _], (Hb t2 p2 y2 H2' Hy2) as [Hz2 _]. by eapply (C6 t1 t2 p1 p2 y1 y2).
    + intros t' b' w' d' y H Hy. destruct (Hnew t' _ H) as [[-> [= -> -> ->]]|[Hne H']].
      * rewrite Hself in Hy. injection Hy as <-. split; [done|]. unfold half, d. by destruct w.
      * destruct (Hb t' _ y H' Hy) as [Hz _]. by eapply C7.
    + intros t' b' w' d' idx y H Hy. destruct (Hnew t' _ H) as [[_ ?]|[Hne H']]; [done|]. destruct (Hb t' _ y H' Hy) as [Hz _]. by eapply C8.
    + intros t1 t2 b1 w1 d1 idx1 b2 w2 d2 idx2 i H1 H2. destruct (Hnew t1 _ H1) as [[_ ?]|[_ H1']], (Hnew t2 _ H2) as [[_ ?]|[_ H2']]; try done. by apply (C9 _ _ _ _ _ _ _ _ _ _ i H1' H2').
    + intros h Hh. destruct (C10 h Hh) as (t' & b' & w' & d' & j1 & j2 & H). exists t', b', w', d', j1, j2. auto.
    + intros i Hi. destruct (C11 i Hi) as (t' & b' & w' & d' & idx & H & Hin). exists t', b', w', d', idx. auto.
    + intros b' y Hy. destruct (decide (b' = b)) as [->|Hne]; [rewrite Hself in Hy; injection Hy as <-; by left|]. rewrite list_lookup_insert_ne in Hy by done.
      destruct (C12 b' y Hy) as [?|(t' & p' & H & ?)]; [by left|right; exists t', p'; auto].
  - destruct A as [A1 A2]. split; cbn.
    + intros t' b' w' d' H. destruct (decide (t = t')) as [<-|Hne]; [rewrite list_lookup_insert_eq in H by done; done|]. rewrite list_lookup_insert_ne in H by done. eauto.
    + intros t' b' w' d' idx y H Hy. destruct (decide (t = t')) as [<-|Hne]; [rewrite list_lookup_insert_eq in H by done; done|]. rewrite list_lookup_insert_ne in H by done.
      destruct (Hb t' (PcWait b' w' d' idx) y ltac:(by right) Hy) as [Hz _]. eauto.
Qed.

Lemma reach_inv reg device s : device_ok device -> vreach reg device s -> exists pend comp, vinv s pend comp.
Proof.
  intros Hd H. induction H as [s Hs|s s' _ (pend & comp & I) Hst]; [exists [], []; by apply start_inv|].
  destruct Hst as [t b w blockno data x Ht Hx Hmay|t p s' Ht E|s' E|s' E].
  - exists pend, comp. by apply call_inv.
  - pose proof (run_spec s pend comp t p I Ht) as W. unfold wp in W. rewrite E in W. destruct W as [[pend' I'] _]. eauto.
  - pose proof (intr_spec reg s pend comp I) as W. unfold wp in W. rewrite E in W. destruct W as [I' _]. eauto.
  - by eapply device_inv.
Qed.

Section theorems.
Context (reg : Z -> list (Z * Z) -> Z) (device : vsys -> vsys -> Prop) (Hdev : device_ok device).


(** C4. The disk driver transfers the block.  When a call of [virtio_disk_rw]
    returns, the buffer and the block of the disk hold the same data, which
    is [d]: for a write, what the buffer held when the call was made; for a
    read, what the disk held then.  That is so whatever other calls,
    completions and interrupts came in between. *)
Theorem disk_rw_transfers s t b w d idx s' :
  vreach reg device s -> vs_threads s !! t = Some (Ready (PcWait b w d idx)) ->
  virtio_disk_rw t (PcWait b w d idx) s = Ok (tt, s') -> vs_threads s' !! t = Some Away ->
  exists x, vs_bufs s' !! b = Some x /\ vb_disk x = 0 /\ vb_data x = d /\ vs_blocks s' (vb_blockno x) = d.
Proof.
  intros (pend & comp & I)%(reach_inv reg device s Hdev) Ht E Ha. pose proof (run_spec s pend comp t _ I Ht) as W. unfold wp in W. rewrite E in W.
  destruct W as [_ Hf]. destruct (Hf Ha) as (x & Hx & Hz & [F1 F2]). by exists x.
Qed.


(** Processes that wait for descriptors keep each other awake.  When an
    attempt fails although a descriptor is free, [alloc3_desc] gives it back
    with [free_desc], which wakes everyone who waits for descriptors: while
    one process goes to sleep, another is made runnable, to fail in turn. *)
Theorem waiters_spin s t1 t2 b1 w1 d1 b2 w2 d2 :
  vreach reg device s -> t1 <> t2 -> vs_threads s !! t1 = Some (Asleep (PcAlloc b1 w1 d1)) -> vs_threads s !! t2 = Some (Ready (PcAlloc b2 w2 d2)) ->
  (0 < nfree (vd_free (vs_q s)))%nat ->
  exists s', virtio_disk_rw t2 (PcAlloc b2 w2 d2) s = Ok (tt, s') /\ vs_threads s' !! t1 = Some (Ready (PcAlloc b1 w1 d1)) /\
    vs_threads s' !! t2 = Some (Asleep (PcAlloc b2 w2 d2)) /\ vd_free (vs_q s') = vd_free (vs_q s).
Proof.
  intros (pend & comp & I)%(reach_inv reg device s Hdev) Hne H1 H2 Hpos. pose proof (proj1 (iv_sleep _ _ _ I) _ _ _ _ H1) as Hn.
  pose proof (lookup_lt_Some _ _ _ H2) as Hlt. destruct (co_len _ _ _ _ _ _ _ _ (iv_core _ _ _ I)) as (_ & _ & _ & Lf & _).
  assert (W : wp (virtio_disk_rw t2 (PcAlloc b2 w2 d2)) s (fun _ s' => vs_threads s' !! t1 = Some (Ready (PcAlloc b1 w1 d1)) /\
    vs_threads s' !! t2 = Some (Asleep (PcAlloc b2 w2 d2)) /\ vd_free (vs_q s') = vd_free (vs_q s))).
  { unfold virtio_disk_rw. apply wp_bind, wp_vlock; [apply I|]. apply wp_bind, alloc3_desc_spec; [done| |].
    - intros i0 i1 i2 Hnd Hf. exfalso. cbn in Hf. pose proof (nfree_three _ i0 i1 i2 Hnd Hf). lia.
    - intros s' _ U. pose proof (ua_wake _ _ U t1 (PcAlloc b1 w1 d1) Hpos eq_refl H1) as Hw. pose proof (ua_count _ _ U) as Hc. cbn in Hc. destruct (ua_state _ _ U) as (ds & ts & ->). cbn in Hw, Hc.
      unfold vsleep. apply wp_bind, wp_vunlock; [done|]. apply wp_modify. cbn. split_and!; [by rewrite list_lookup_insert_ne|apply list_lookup_insert_eq; lia|done]. }
  apply wp_Ok in W as ([] & s' & E & W). by exists s'.
Qed.
End theorems.

(** ** Starting the device *)

(** The registers of a disk that the driver can use. *)
Record disk_there (reg : Z -> list (Z * Z) -> Z) : Prop := {
  dt_magic ws : reg VIRTIO_MMIO_MAGIC_VALUE ws = 0x74726976;
  dt_version ws : reg VIRTIO_MMIO_VERSION ws = 2;
  dt_device ws : reg VIRTIO_MMIO_DEVICE_ID ws = 2;
  dt_vendor ws : reg VIRTIO_MMIO_VENDOR_ID ws = 0x554d4551;
  dt_ok ws : (VIRTIO_MMIO_STATUS, 11) ∈ ws -> Z.land (reg VIRTIO_MMIO_STATUS ws) VIRTIO_CONFIG_S_FEATURES_OK <> 0;
  dt_ready ws : (VIRTIO_MMIO_QUEUE_READY, 1) ∉ ws -> reg VIRTIO_MMIO_QUEUE_READY ws = 0;
  dt_max ws : Z.of_nat NUM <= reg VIRTIO_MMIO_QUEUE_NUM_MAX ws
}.

(** The driver's variables before [virtio_disk_init]. *)
Record unstarted (s : vsys) : Prop := {
  us_info : length (vd_info (vs_q s)) = NUM /\ length (vd_ops (vs_q s)) = NUM;
  us_idx : vd_used_idx (vs_q s) = 0 /\ vs_seen s = 0 /\ vs_work s = [] /\ vs_lock s = false /\ vs_mmio s = [];
  us_threads t th : vs_threads s !! t = Some th -> th = Away;
  us_bufs b x : vs_bufs s !! b = Some x -> vb_disk x = 0
}.

Lemma wp_wreg s r v (Q : unit -> vsys -> Prop) : Q tt (set_vs_mmio (vs_mmio s ++ [(r, v)]) s) -> wp (wreg r v) s Q.
Proof. apply wp_modify. Qed.

Section init_spec.
Context `{LinkerSyms} (reg : Z -> list (Z * Z) -> Z) (Hd : disk_there reg).

Lemma negotiate_spec s (Q : Z -> vsys -> Prop) :
  vs_mmio s = [] -> (forall st ws, (forall r v, (r, v) ∈ ws -> r = VIRTIO_MMIO_STATUS \/ r = VIRTIO_MMIO_DRIVER_FEATURES) -> Q st (set_vs_mmio ws s)) ->
  wp (negotiate reg) s Q.
Proof.
  intros Hw HQ. unfold negotiate. apply wp_bind, wp_wreg, wp_bind, wp_wreg, wp_bind, wp_wreg, wp_bind, wp_gets, wp_bind, wp_wreg, wp_bind, wp_wreg, wp_bind, wp_gets.
  cbn [vs_mmio set_vs_mmio]. rewrite Hw. cbn [app]. apply wp_bind. rewrite (proj2 (Z.eqb_neq _ _)).
  2:{ apply (dt_ok _ Hd). change (Z.lor _ VIRTIO_CONFIG_S_FEATURES_OK) with 11. do 4 (apply elem_of_cons; right). apply elem_of_cons. by left. }
  apply wp_ret, wp_ret, HQ. intros r v. rewrite !elem_of_cons. intros [[= -> _]|[[= -> _]|[[= -> _]|[[= -> _]|[[= -> _]|Hn]]]]]; auto. by apply not_elem_of_nil in Hn.
Qed.

(** [virtio_disk_init] makes the driver ready.  With a disk there and three
    free pages it returns, and the queue is empty, every descriptor is free
    and no block or buffer has changed: the state the other theorems start
    from. *)
Theorem disk_init_ready s p1 p2 p3 l :
  unstarted s -> kmem_inv (vs_m s) (p1 :: p2 :: p3 :: l) ->
  wp (virtio_disk_init reg) s (fun _ s' => vstart s' /\ vs_blocks s' = vs_blocks s /\ vs_bufs s' = vs_bufs s).
Proof.
  intros [U1 (U2 & U3 & U4 & U5 & U6) U7 U8] Hm. unfold virtio_disk_init.
  do 4 apply wp_bind, wp_gets. rewrite (dt_magic _ Hd), (dt_version _ Hd), (dt_device _ Hd), (dt_vendor _ Hd). cbn [Z.eqb Pos.eqb negb orb].
  apply wp_bind, wp_ret, wp_bind, negotiate_spec; [done|]. intros st ws Hws. apply wp_bind, wp_wreg, wp_bind, wp_gets. cbn [vs_mmio set_vs_mmio].
  rewrite (dt_ready _ Hd).
  2:{ rewrite elem_of_app, list_elem_of_singleton. intros [Hin|[=]]. destruct (Hws _ _ Hin); done. }
  cbn [Z.eqb negb]. apply wp_bind, wp_ret, wp_bind, wp_gets. pose proof (dt_max _ Hd (ws ++ [(VIRTIO_MMIO_QUEUE_SEL, 0)])) as Hmax. unfold NUM in Hmax.
  cbn [vs_mmio set_vs_mmio]. rewrite (proj2 (Z.eqb_neq _ 0)) by lia. rewrite (proj2 (Z.ltb_ge _ _)) by (unfold NUM; lia). apply wp_bind, wp_ret, wp_bind, wp_ret.
  pose proof (km_valid _ _ Hm) as Hv. apply Forall_cons in Hv as [Hv1 Hv]. apply Forall_cons in Hv as [Hv2 Hv]. apply Forall_cons in Hv as [Hv3 _].
  apply is_valid_pa_pos in Hv1, Hv2, Hv3.
  apply wp_bind, wp_zoom. eapply wp_mono; [by apply kalloc_cons|]. cbn beta. intros r1 m1 (-> & Hm1 & _). apply wp_bind, wp_zoom. eapply wp_mono; [by apply kalloc_cons|].
  cbn beta. intros r2 m2 (-> & Hm2 & _). apply wp_bind, wp_zoom. eapply wp_mono; [by apply kalloc_cons|]. cbn beta. intros r3 m3 (-> & Hm3 & _).
  rewrite !(proj2 (Z.eqb_neq _ 0)) by lia. cbn [orb]. apply wp_bind, wp_ret, wp_bind, wp_zoom, wp_modify, wp_bind, wp_modify, wp_bind, wp_wreg.
  do 3 (apply wp_bind, wp_bind, wp_wreg, wp_wreg). apply wp_bind, wp_wreg, wp_bind, wp_modify, wp_wreg. split; [|done].
  split; cbn; try done.
Qed.
End init_spec.

(** ** A run

    A device that does what it has to, and a process that writes block 5. *)
Definition plain_device (s s' : vsys) : Prop :=
  fetched s = Some s' \/ exists h w sector b st, h ∈ vs_work s /\ request (vs_q s) h = Some (w, sector, b, st) /\ served h w sector b st s = Some s'.

Lemma plain_device_ok : device_ok plain_device.
Proof. intros s s' [H|(h & w & sector & b & st & Hh & Hr & Hs)]; [by left|right]. exists h. split; [done|]. intros ? ? ? ? E. by simplify_eq. Qed.

Definition plain_reg (r : Z) (ws : list (Z * Z)) : Z :=
  if r =? VIRTIO_MMIO_MAGIC_VALUE then 0x74726976 else if r =? VIRTIO_MMIO_VERSION then 2 else if r =? VIRTIO_MMIO_DEVICE_ID then 2
  else if r =? VIRTIO_MMIO_VENDOR_ID then 0x554d4551 else if r =? VIRTIO_MMIO_STATUS then 11
  else if r =? VIRTIO_MMIO_QUEUE_NUM_MAX then 1024 else 0.

Lemma plain_reg_there : disk_there plain_reg.
Proof. by split. Qed.

Definition off_disk : vsys :=
  Vsys (Vdisk [] [] 0 [] 0 (replicate NUM false) 0 (replicate NUM (Info None 0)) (replicate NUM (Req 0 0 0)))
    [Vbuf 0 0 []; Vbuf 0 0 []; Vbuf 0 0 []; Vbuf 0 0 []] [Away; Away; Away; Away] false [] (Machine (fun _ => 0) 0 []) (fun _ => []) 0 [].

Lemma off_disk_unstarted : unstarted off_disk.
Proof.
  split; [done..| |].
  - intros t th. cbn. intros [->|[->|[->|[->|[]]]]]%list_elem_of_lookup_2%list_elem_of_In; done.
  - intros b x. cbn. intros [<-|[<-|[<-|[<-|[]]]]]%list_elem_of_lookup_2%list_elem_of_In; done.
Qed.

Definition on_disk : vsys :=
  set_vs_q (Vdisk (replicate NUM (Desc NullA 0 0 0)) (replicate NUM 0%nat) 0 (replicate NUM 0%nat) 0 (replicate NUM true) 0
              (replicate NUM (Info None 0)) (replicate NUM (Req 0 0 0))) off_disk.

Lemma on_disk_start : vstart on_disk.
Proof. destruct off_disk_unstarted as [_ _ H1 H2]. by split. Qed.

Definition after {A} (m : V A) (s : vsys) : vsys := match m s with Ok (_, s') => s' | _ => s end.

(** Process 0 calls and sleeps, the device takes the request and does it, the
    interrupt wakes the process. *)
Definition write5 : pc := PcAlloc 1 true [7; 8; 9].
Definition called : vsys := set_vs_threads (<[0%nat := Ready write5]> (vs_threads on_disk)) (set_vs_bufs (<[1%nat := Vbuf 5 0 [7; 8; 9]]> (vs_bufs on_disk)) on_disk).
Definition waiting : vsys := after (virtio_disk_rw 0 write5) called.
Definition taken : vsys := default waiting (fetched waiting).
Definition written : vsys := default taken (served 0 true 10 1 0 taken).
Definition woken : vsys := after (virtio_disk_intr plain_reg) written.

Lemma waiting_reached : vreach plain_reg plain_device waiting.
Proof.
  eapply vr_step; [eapply vr_step; [apply vr_start, on_disk_start|]|].
  - apply (vs_call _ _ _ 0 1 true 5 [7; 8; 9] (Vbuf 0 0 [])); [done..|]. split; [lia|]. intros t p x H. exfalso.
    destruct H as [H|H]; by apply (vt_threads _ on_disk_start) in H.
  - apply (vs_run _ _ _ 0 write5); vm_compute; reflexivity.
Qed.

Lemma woken_reached : vreach plain_reg plain_device woken.
Proof.
  eapply vr_step; [eapply vr_step; [eapply vr_step; [apply waiting_reached|]|]|].
  - apply (vs_device _ _ _ taken). left. vm_compute. reflexivity.
  - apply (vs_device _ _ _ written). right. exists 0%nat, true, 10, 1%nat, 0%nat. split_and!; [|vm_compute; reflexivity..]. apply list_elem_of_In. vm_compute. by left.
  - apply vs_intr. vm_compute. reflexivity.
Qed.


Lemma disk_rw_transfers_witness :
  exists x, vs_bufs (after (virtio_disk_rw 0 (PcWait 1 true [7; 8; 9] [0; 1; 2]%nat)) woken) !! 1%nat = Some x /\ vb_disk x = 0 /\ vb_data x = [7; 8; 9] /\
    vs_blocks (after (virtio_disk_rw 0 (PcWait 1 true [7; 8; 9] [0; 1; 2]%nat)) woken) (vb_blockno x) = [7; 8; 9].
Proof.
  apply (disk_rw_transfers plain_reg plain_device plain_device_ok woken 0 1 true [7; 8; 9] [0; 1; 2]%nat); [exact woken_reached|vm_compute; reflexivity..].
Defined.

