(* ===== verification/FsWitness.v ===== *)
(** The theorems on the file system applied to the states of [FsBoot]. *)

From S2P Require Import Prelude.
From S2P Require Import Spinlock.
From S2P Require Import Proc.
From S2P Require Import FsState.
From S2P Require Import Bio.
From S2P Require Import BioSpec.
From S2P Require Import Log.
From S2P Require Import LogSpec.
From S2P Require Import LogTheorems.
From S2P Require Import BioTheorems.
From S2P Require Import FsBoot.
From S2P Require Import Console.
From S2P Require Import Boot.
From S2P Require Import Virtio.

(** ** bio.c *)

Lemma cache_coherent_witness : exists k,
  wp (write_block no_switch 1 ideal_rw 1 100 ones >>> read_blocks no_switch 1 ideal_rw 1 [200; 100; 300] >>>
      read_block no_switch 1 ideal_rw 1 100) k (fun r k' => r = ones /\ d_block (fs_disk (k_files k')) 100 = ones).
Proof.
  destruct (fs_ready (fun _ => zeros) blank_log) as (k & H & _). exists k.
  eapply wp_mono; [apply (cache_coherent no_switch 1 (Nat.lt_0_succ 0) ideal_rw ideal_ok 0 1 1 k _ 100 ones [200; 100; 300] H)|].
  - split; [cbn; rewrite map_size_empty; unfold NBUF; lia|]. intros b. unfold refs. cbn [cr]. rewrite lookup_empty. cbn. lia.
  - cbn beta. intros r k' (Hr & Hd & _). by split.
Defined.

Lemma full_log_panics_witness : exists k,
  wpe (commit no_switch 1 ideal_rw) k (fun _ _ => False) (fun e => e = "bget: no buffers"%string).
Proof.
  destruct fs_full as (k & A & H & Hl & Hr). exists k.
  apply (full_log_panics no_switch 1 ideal_rw 0 1 1 k A full_blocks).
  - exact H.
  - rewrite Hl. exact full_tx.
  - by vm_compute.
  - intros b Hb. rewrite Hr, decide_True by exact Hb. lia.
  - rewrite Hl, Hr, decide_False; [done|]. apply (bool_decide_unpack _). by vm_compute.
Defined.

(** ** log.c *)

(** A commit, and the recovery of a machine that stopped before its first
    write. *)
Lemma commit_crash_safe_witness : exists k kb,
  wp (commit no_switch 1 ideal_rw) k (fun _ k' => d_block (fs_disk (k_files k')) 100 = ones /\
    wp (recover_from_log no_switch 1 ideal_rw) kb (fun _ kb' => d_block (fs_disk (k_files kb')) 100 = zeros)).
Proof.
  destruct fs_dirty as (k & H & Hl). destruct (fs_booted (fun _ => zeros)) as [kb B]. exists k, kb.
  eapply wp_mono; [apply (commit_crash_safe no_switch 1 (Nat.lt_0_succ 0) ideal_rw ideal_ok 0 1 1 k dirty [100])|].
  - exact H.
  - rewrite Hl. exact dirty_tx.
  - done.
  - exact dirty_roomy.
  - rewrite Hl. apply (bool_decide_unpack _). by vm_compute.
  - rewrite Hl. by vm_compute.
  - cbn beta. rewrite Hl. intros _ k' (trace & _ & _ & Hd & Hrec). assert (Ho : off_log 2 100) by (right; lia).
    split; [rewrite Hd by exact Ho; by vm_compute|].
    eapply wp_mono; [apply (Hrec [] 0%nat 1 kb); [apply prefix_nil|exact B]|]. cbn beta. intros _ kb' Hd'.
    by rewrite Hd' by exact Ho.
Defined.

Lemma end_op_commits_witness : exists k,
  wp (log_end_op no_switch 1 ideal_rw) k (fun _ k' => d_block (fs_disk (k_files k')) 100 = ones).
Proof.
  destruct fs_dirty as (k & H & Hl). exists k.
  eapply wp_mono; [apply (end_op_commits no_switch 1 (Nat.lt_0_succ 0) ideal_rw ideal_ok 0 1 1 k dirty [100])|].
  - exact H.
  - rewrite Hl. exact dirty_tx.
  - done.
  - exact dirty_roomy.
  - by rewrite Hl.
  - by rewrite Hl.
  - cbn beta. intros _ k' (_ & _ & _ & Hd). rewrite Hd; [by vm_compute|]. rewrite Hl. right. cbn. lia.
Defined.

Lemma log_write_records_witness : exists k j,
  wp (log_write j) k (fun _ k' => tx 1 (fs_log (k_files k')) [100]).
Proof.
  destruct (fs_locked (fun _ => zeros) blank_log) as (k & j & H & Hl). exists k, j.
  eapply wp_mono; [apply (log_write_records 0 1 1 k _ {[100 := j]} 100 j [] H)|].
  - apply lookup_singleton_eq.
  - rewrite Hl. split; try done; [cbn; lia|constructor|intros b Hb; by apply not_elem_of_nil in Hb..].
  - cbn. lia.
  - rewrite Hl. cbn. lia.
  - by rewrite Hl.
  - lia.
  - rewrite Hl. right. cbn. lia.
  - by vm_compute.
  - cbn beta. intros _ k' (l' & _ & T). exact T.
Defined.

Lemma begin_op_reserves_witness : exists k,
  wp (log_begin_op no_switch 1) k (fun _ k' => lg_outstanding (fs_log (k_files k')) = 2).
Proof.
  destruct (fs_ready (fun _ => zeros) blank_log) as (k & H & Hl). exists k.
  eapply wp_mono; [apply (begin_op_reserves no_switch 1 (Nat.lt_0_succ 0) 0 1 k)|].
  - apply H.
  - by rewrite Hl.
  - by rewrite Hl.
  - by rewrite Hl.
  - rewrite Hl. by vm_compute.
  - cbn beta. intros _ k' [-> _]. cbn. by rewrite Hl.
Defined.

(** A crash with one of two blocks installed. *)
Lemma initlog_leaves_torn_witness :
  let d := apply_writes (take 4 (commit_writes 2 [100; 101] (fun _ => ones))) (fun _ => zeros) in
  wp (initlog no_switch 1 ideal_rw 1) (blank_kernel d blank_log) (fun _ k' =>
    d_block (fs_disk (k_files k')) 100 = ones /\ d_block (fs_disk (k_files k')) 101 = zeros).
Proof.
  intros d.
  eapply wp_mono; [apply (initlog_leaves_torn no_switch 1 ideal_rw 1 (blank_kernel d blank_log) 2 [100; 101] (fun _ => ones) (fun _ => zeros) 1)|].
  - apply (bool_decide_unpack _). by vm_compute.
  - cbn. lia.
  - intros b [->|[->|Hb%not_elem_of_nil]%elem_of_cons]%elem_of_cons; [right; lia|right; lia|done].
  - cbn. lia.
  - done.
  - done.
  - cbn beta. intros _ k' Hd. split; [by rewrite (Hd 0%nat)|by rewrite (Hd 1%nat)].
Defined.

(** ** console.c *)

Lemma blank_cons_wf : cons_wf (Console (replicate 128 0) 0 0 0).
Proof.
  split; cbn [c_r c_w c_e c_buf]; [apply length_replicate|lia|lia|lia|apply (bool_decide_unpack _); by vm_compute|apply not_elem_of_nil].
Qed.

Lemma consoleintr_edits_witness :
  wp (consoleintr (ret tt) 97) (blank_kernel (fun _ => zeros) blank_log) (fun _ k' =>
    abs (fs_cons (k_files k')) = ([], [97])).
Proof.
  eapply wp_mono; [apply (consoleintr_edits (ret tt) (blank_kernel (fun _ => zeros) blank_log) 97)|].
  - done.
  - by vm_compute.
  - exact blank_cons_wf.
  - lia.
  - done.
  - cbn beta. intros _ k' (_ & _ & ->). by vm_compute.
Defined.

Lemma disk_init_ready_witness : exists s', virtio_disk_init plain_reg (set_vs_m boot_machine off_disk) = Ok (tt, s') /\ vstart s'.
Proof.
  assert (Hu : unstarted (set_vs_m boot_machine off_disk)) by (destruct off_disk_unstarted as [? ? ? ?]; split; assumption).
  pose proof boot_machine_inv as Hm. unfold boot_list16 in Hm. cbn [map seq] in Hm.
  pose proof (disk_init_ready plain_reg plain_reg_there (set_vs_m boot_machine off_disk) _ _ _ _ Hu Hm) as W.
  destruct (proj1 (wp_Ok _ _ _) W) as ([] & s' & E & Hs & _).
  exists s'. exact (conj E Hs).
Defined.
