(* ===== verification/UserIO.v ===== *)
(** User programs: characters, NUL-terminated strings in buffers, and the
    read and write calls the utilities make on files they only stream. *)

From Stdlib Require Import Ascii.
From S2P Require Import Prelude.

(** ** Characters and strings *)

Definition ch (a : ascii) : Z := Z.of_N (N_of_ascii a).

Fixpoint str (s : string) : list Z :=
  match s with
  | EmptyString => []
  | String a s' => ch a :: str s'
  end.

Definition NL : Z := 10.
Definition TAB : Z := 9.

(** The string that starts at the head of a buffer: the bytes up to the NUL
    or the end of the buffer. *)
Fixpoint cstring (b : list Z) : list Z :=
  match b with
  | [] => []
  | c :: b' => if c =? 0 then [] else c :: cstring b'
  end.

Lemma cstring_app s b : Forall (fun c => c <> 0) s -> cstring (s ++ 0 :: b) = s.
Proof.
  induction 1 as [|c s Hc _ IH]; [done|]. cbn. destruct (c =? 0) eqn:E; [bool_simp; lia|]. by rewrite IH.
Qed.

(** Overwriting a range of a buffer, as a [read] into it does. *)
Definition splice (b : list Z) (i : nat) (new : list Z) : list Z :=
  take i b ++ new ++ drop (i + length new) b.

Lemma splice_length b i new : (i + length new <= length b)%nat -> length (splice b i new) = length b.
Proof. intros. unfold splice. rewrite !length_app, length_take, length_drop. lia. Qed.

Lemma take_splice b i new :
  (i + length new <= length b)%nat -> take (i + length new) (splice b i new) = take i b ++ new.
Proof.
  intros. unfold splice. rewrite app_assoc, take_app_le by (rewrite length_app, length_take; lia).
  apply take_ge. rewrite length_app, length_take. lia.
Qed.

(** ** Streams

    A program that reads one file and writes another: what is left of the
    input, the sizes of the next reads as the kernel chooses them (a pipe or
    the console returns fewer bytes than asked), and the output so far. *)
Record io := Io { inp : list Z; chunks : list nat; outp : list Z }.

(** [read(fd, p, n)]: some of the next bytes, at least one unless [n] is 0
    or the input is at its end. *)
Definition read (n : nat) : M io (list Z) := fun s =>
  let k := match chunks s with [] => n | c :: _ => Nat.min n (S c) end in
  Ok (take k (inp s), Io (drop k (inp s)) (tail (chunks s)) (outp s)).

(** [write(fd, p, n)] of the bytes [l]. *)
Definition write (l : list Z) : M io unit :=
  modify (fun s => Io (inp s) (chunks s) (outp s ++ l)).

Lemma read_spec n s :
  wp (read n) s (fun d s' =>
    inp s = d ++ inp s' /\ outp s' = outp s /\ (length d <= n)%nat /\
    (d = [] -> n = 0%nat \/ inp s = [])).
Proof.
  unfold wp, read. cbn [inp outp]. split_and!.
  - by rewrite take_drop.
  - done.
  - rewrite length_take. destruct (chunks s); lia.
  - intros E. apply (f_equal length) in E. rewrite length_take in E. cbn in E.
    destruct (inp s); [by right|]. left. destruct (chunks s); cbn in E; lia.
Qed.

Lemma wp_write l s (Q : unit -> io -> Prop) :
  Q tt (Io (inp s) (chunks s) (outp s ++ l)) -> wp (write l) s Q.
Proof. done. Qed.

(** ** Lines *)

(** The lines of a file, with whether a newline ends them; the last one may
    lack it. *)
Fixpoint file_lines (f : list Z) : list (list Z * bool) :=
  match f with
  | [] => []
  | c :: f' =>
      if c =? NL then ([], true) :: file_lines f'
      else match file_lines f' with (l, e) :: ls => (c :: l, e) :: ls | [] => [([c], false)] end
  end.

Definition line_bytes (le : list Z * bool) : list Z := fst le ++ (if snd le then [NL] else []).

(** The lines of a file: no newline in a line, and only the last may lack its
    end, if it is not empty. *)
Fixpoint proper_lines (ls : list (list Z * bool)) : Prop :=
  match ls with
  | [] => True
  | (l, e) :: ls' => Forall (fun c => c <> NL) l /\ (e = false -> l <> [] /\ ls' = []) /\ proper_lines ls'
  end.

Lemma file_lines_ok f : concat (map line_bytes (file_lines f)) = f /\ proper_lines (file_lines f).
Proof.
  induction f as [|c f [IH1 IH2]]; [done|]. cbn [file_lines]. destruct (Z.eqb_spec c NL) as [->|Hc].
  - cbn. rewrite IH1. split; [done|]. by split_and!.
  - destruct (file_lines f) as [|[l e] ls].
    + cbn in IH1. subst f. split; [done|]. cbn. split_and!; [by repeat constructor|done|done].
    + cbn in IH1, IH2 |- *. destruct IH2 as (H1 & H2 & H3). split; [by rewrite <- IH1|].
      split_and!; [by constructor| |done]. intros He. split; [done|]. by apply H2.
Qed.

Lemma file_lines_length f : (length (file_lines f) <= length f)%nat.
Proof.
  induction f as [|c f IH]; [done|]. cbn [file_lines]. destruct (c =? NL); [cbn; lia|]. destruct (file_lines f) as [|[l e] ls]; cbn in *; lia.
Qed.

(** [fgets] into a buffer of [n + 1] bytes: the bytes up to a newline. *)
Fixpoint c_fgets (n : nat) (f : list Z) : list Z * list Z :=
  match n, f with
  | S n', c :: f' => if c =? NL then ([c], f') else let '(l, r) := c_fgets n' f' in (c :: l, r)
  | _, _ => ([], f)
  end.

Lemma fgets_line l f n : Forall (fun c => c <> NL) l -> (length l < n)%nat -> c_fgets n (l ++ NL :: f) = (l ++ [NL], f).
Proof.
  intros Hl. revert n. induction Hl as [|c l Hc _ IH]; intros [|n] Hn; cbn in Hn; try lia; cbn; [done|].
  rewrite (proj2 (Z.eqb_neq c NL)) by done. by rewrite IH by lia.
Qed.

Lemma fgets_last l n : Forall (fun c => c <> NL) l -> (length l < n)%nat -> c_fgets n l = (l, []).
Proof.
  intros Hl. revert n. induction Hl as [|c l Hc _ IH]; intros [|n] Hn; cbn in Hn; try lia; cbn; [done|].
  rewrite (proj2 (Z.eqb_neq c NL)) by done. by rewrite IH by lia.
Qed.

Lemma cstring_id s : Forall (fun c => c <> 0) s -> cstring s = s.
Proof. induction 1 as [|c s Hc _ IH]; [done|]. cbn. rewrite (proj2 (Z.eqb_neq c 0)) by done. by rewrite IH. Qed.
