(* ===== verification/Printf.v ===== *)
(** Formatted output: kernel/printf.c and user/printf.c.

    Both files have the same functions, over [consputc] with lower-case digits
    in the kernel and over [write] with upper-case digits in user programs, so
    the model has the routine [putc] and the table [digits] as arguments.  The
    arguments of a call are the list of the values [va_arg] takes. *)

From Stdlib Require Import Ascii.
From S2P Require Import Prelude.
From S2P Require Import UserIO.

(** A variable argument: a number of up to 64 bits, or a string pointer. *)
Inductive varg := VNum (z : Z) | VStr (s : option (list Z)).

Definition kdigits : list Z := str "0123456789abcdef".
Definition udigits : list Z := str "0123456789ABCDEF".

(** The size of [buf] in [printint]. *)
Definition PBUF : nat := 20.

Section code.
Context {S : Type} (putc : Z -> M S unit) (digits : list Z).

(** [buf[i++] = c], the buffer filled so far being [buf]. *)
Definition put_buf (buf : list Z) (c : Z) : M S (list Z) :=
  if (length buf <? PBUF)%nat then ret (buf ++ [c]) else fun _ => Crash.

Definition digit (i : Z) : M S Z := fun s =>
  match digits !! Z.to_nat i with Some c => Ok (c, s) | None => Crash end.

(** [do buf[i++] = digits[x % base]; while((x /= base) != 0)]. *)
Definition print_digits (x base : Z) : M S (list Z) :=
  loop 65 (fun '(x, buf) =>
    d <- digit (x mod base) ;;
    buf <- put_buf buf d ;;
    if x / base =? 0 then ret (inr buf) else ret (inl (x / base, buf))) (x, []).

(** [while(--i >= 0) putc(buf[i])]. *)
Fixpoint put_all (cs : list Z) : M S unit :=
  match cs with [] => ret tt | c :: cs => putc c >>> put_all cs end.

(** printf.c of the kernel; [xx] is a [long long]. *)
Definition printint (xx base sign : Z) : M S unit :=
  let neg := negb (sign =? 0) && (xx <? 0) in
  let x := if neg then u64 (- xx) else u64 xx in
  buf <- print_digits x base ;;
  buf <- (if neg then put_buf buf (ch "-") else ret buf) ;;
  put_all (rev buf).

Definition printptr (x : Z) : M S unit :=
  putc (ch "0") >>>
  putc (ch "x") >>>
  loop 17 (fun '(i, x) =>
    if (i <? 16)%nat then
      d <- digit (x / 2 ^ 60) ;;
      putc d >>>
      ret (inl (Datatypes.S i, u64 (x * 16)))
    else ret (inr tt)) (0%nat, x).

(** [va_arg] of a number, and of a string. *)
Definition va_num (ap : list varg) : M S (Z * list varg) := fun s =>
  match ap with VNum z :: ap => Ok (z, ap, s) | _ => Crash end.
Definition va_str (ap : list varg) : M S (option (list Z) * list varg) := fun s =>
  match ap with VStr p :: ap => Ok (p, ap, s) | _ => Crash end.

(** A number printed as the conversion says. *)
Definition print_num (conv : Z -> Z) (base sign : Z) (ap : list varg) : M S (list varg) :=
  r <- va_num ap ;; let '(z, ap) := r in printint (conv z) base sign >>> ret ap.

(** The characters after a [%]: how many more of them belong to the
    conversion, and the arguments left; [None] at the end of the format. *)
Definition conversion (c0 c1 c2 : Z) (ap : list varg) : M S (option (nat * list varg)) :=
  if c0 =? ch "d" then ap <- print_num i32 10 1 ap ;; ret (Some (0%nat, ap))
  else if (c0 =? ch "l") && (c1 =? ch "d") then ap <- print_num i64 10 1 ap ;; ret (Some (1%nat, ap))
  else if (c0 =? ch "l") && (c1 =? ch "l") && (c2 =? ch "d") then ap <- print_num i64 10 1 ap ;; ret (Some (2%nat, ap))
  else if c0 =? ch "u" then ap <- print_num u32 10 0 ap ;; ret (Some (0%nat, ap))
  else if (c0 =? ch "l") && (c1 =? ch "u") then ap <- print_num i64 10 0 ap ;; ret (Some (1%nat, ap))
  else if (c0 =? ch "l") && (c1 =? ch "l") && (c2 =? ch "u") then ap <- print_num i64 10 0 ap ;; ret (Some (2%nat, ap))
  else if c0 =? ch "x" then ap <- print_num u32 16 0 ap ;; ret (Some (0%nat, ap))
  else if (c0 =? ch "l") && (c1 =? ch "x") then ap <- print_num i64 16 0 ap ;; ret (Some (1%nat, ap))
  else if (c0 =? ch "l") && (c1 =? ch "l") && (c2 =? ch "x") then ap <- print_num i64 16 0 ap ;; ret (Some (2%nat, ap))
  else if c0 =? ch "p" then r <- va_num ap ;; let '(z, ap) := r in printptr (u64 z) >>> ret (Some (0%nat, ap))
  else if c0 =? ch "c" then r <- va_num ap ;; let '(z, ap) := r in putc (u32 z) >>> ret (Some (0%nat, ap))
  else if c0 =? ch "s" then
    r <- va_str ap ;; let '(p, ap) := r in
    put_all (match p with Some t => cstring t | None => str "(null)" end) >>>
    ret (Some (0%nat, ap))
  else if c0 =? ch "%" then putc (ch "%") >>> ret (Some (0%nat, ap))
  else if c0 =? 0 then ret None
  else putc (ch "%") >>> putc c0 >>> ret (Some (0%nat, ap)).

(** [fmt[i]], 0 from the end of the string on. *)
Definition at_ (fmt : list Z) (i : nat) : Z := nth i fmt 0.

(** The loop of the kernel's [printf]. *)
Definition kprintf (fmt : list Z) (ap : list varg) : M S unit :=
  loop (Datatypes.S (length fmt)) (fun '(i, ap) =>
    let cx := at_ fmt i in
    if cx =? 0 then ret (inr tt)
    else if negb (cx =? ch "%") then putc cx >>> ret (inl (Datatypes.S i, ap))
    else
      let i := Datatypes.S i in
      let c0 := at_ fmt i in
      let c1 := if c0 =? 0 then 0 else at_ fmt (i + 1) in
      let c2 := if c1 =? 0 then 0 else at_ fmt (i + 2) in
      r <- conversion c0 c1 c2 ap ;;
      match r with
      | None => ret (inr tt)
      | Some (n, ap) => ret (inl (Datatypes.S (i + n), ap))
      end) (0%nat, ap).

(** [vprintf] of user programs, with its state. *)
Definition vprintf (fmt : list Z) (ap : list varg) : M S unit :=
  loop (Datatypes.S (length fmt)) (fun '(i, state, ap) =>
    let c0 := at_ fmt i in
    if c0 =? 0 then ret (inr tt)
    else if state =? 0 then
      if c0 =? ch "%" then ret (inl (Datatypes.S i, ch "%", ap))
      else putc c0 >>> ret (inl (Datatypes.S i, 0, ap))
    else
      let c1 := if c0 =? 0 then 0 else at_ fmt (i + 1) in
      let c2 := if c1 =? 0 then 0 else at_ fmt (i + 2) in
      r <- conversion c0 c1 c2 ap ;;
      match r with
      | None => ret (inr tt)
      | Some (n, ap) => ret (inl (Datatypes.S (i + n), 0, ap))
      end) (0%nat, 0, ap).
End code.

(** ** User programs *)

(** [putc] of user/printf.c on one descriptor. *)
Definition fd_putc (c : Z) : M io unit := write [u8 c].
Definition fd_printint : Z -> Z -> Z -> M io unit := printint fd_putc udigits.
Definition fd_printptr : Z -> M io unit := printptr fd_putc udigits.
Definition fprintf (fmt : list Z) (ap : list varg) : M io unit := vprintf fd_putc udigits (cstring fmt) ap.

(** ** ulib.c *)

Fixpoint atoi_loop (n : Z) (s : list Z) : Z :=
  match s with
  | c :: s => if (ch "0" <=? c) && (c <=? ch "9") then atoi_loop (i32 (n * 10 + c - ch "0")) s else n
  | [] => n
  end.
Definition atoi (s : list Z) : Z := atoi_loop 0 s.

(** * What printf.c prints. *)

(** ** Numerals *)

(** The number with digits [ds], the most significant first. *)
Definition number (base : Z) (ds : list Z) : Z := foldl (fun a d => a * base + d) 0 ds.

(** [cs] is the numeral of [x], without leading zeroes. *)
Definition is_numeral (digits : list Z) (base x : Z) (cs : list Z) : Prop :=
  exists ds, cs = map (fun d => nth (Z.to_nat d) digits 0) ds /\ ds <> [] /\ Forall (fun d => 0 <= d < base) ds /\
    number base ds = x /\ (hd 0 ds <> 0 \/ ds = [0]).

Lemma number_snoc base ds d : number base (ds ++ [d]) = number base ds * base + d.
Proof. unfold number. by rewrite foldl_app. Qed.

Lemma number_cons base d ds : number base (d :: ds) = d * base ^ Z.of_nat (length ds) + number base ds.
Proof.
  induction ds as [|c ds IH] using rev_ind; [unfold number; cbn; lia|].
  rewrite app_comm_cons, !number_snoc, IH, length_app. cbn [length].
  rewrite Nat2Z.inj_add, Z.pow_add_r by lia. change (Z.of_nat 1) with 1. rewrite Z.pow_1_r. lia.
Qed.

(** A number with [n] digits above which something is left. *)
Lemma digits_fit base n y x z :
  10 <= base -> 0 < y -> 0 <= z -> x = y * base ^ Z.of_nat n + z -> x < 2 ^ 64 -> (n < 20)%nat.
Proof.
  intros Hb Hy Hz -> Hx. assert (10 ^ Z.of_nat n <= base ^ Z.of_nat n) by (apply Z.pow_le_mono_l; lia).
  assert (0 < 10 ^ Z.of_nat n) by (apply Z.pow_pos_nonneg; lia).
  assert (10 ^ Z.of_nat n < 10 ^ 20) by nia. apply Z.pow_lt_mono_r_iff in H1; lia.
Qed.

Lemma number_range base ds : 0 < base -> Forall (fun d => 0 <= d < base) ds -> 0 <= number base ds < base ^ Z.of_nat (length ds).
Proof.
  intros Hb. induction ds as [|d ds IH] using rev_ind; [done|]. intros [H1 H2]%Forall_app.
  rewrite Forall_singleton in H2. specialize (IH H1). rewrite number_snoc, length_app. cbn [length].
  rewrite Nat2Z.inj_add, Z.pow_add_r by lia. change (Z.of_nat 1) with 1. rewrite Z.pow_1_r.
  set (B := base ^ _) in *. set (n := number base ds) in *. clearbody B n. assert ((n + 1) * base <= B * base) by (apply Z.mul_le_mono_nonneg_r; lia). nia.
Qed.

Lemma numeral_length base x (buf : list Z) :
  10 <= base -> base ^ (Z.of_nat (length buf) - 1) <= Z.max x 1 -> x < 2 ^ 63 -> (length buf <= 19)%nat.
Proof.
  intros Hb Hl Hx. destruct (decide (length buf <= 19)%nat) as [|Hn]; [done|]. exfalso.
  assert (10 ^ 19 <= base ^ 19) by (apply Z.pow_le_mono_l; lia).
  assert (base ^ 19 <= base ^ (Z.of_nat (length buf) - 1)) by (apply Z.pow_le_mono_r; lia). lia.
Qed.

(** One round of a loop. *)
Lemma loop_S {S X R} f (body : X -> M S (X + R)) x s :
  loop (Datatypes.S f) body x s =
  match body x s with
  | Ok (inl x', s') => loop f body x' s' | Ok (inr v, s') => Ok (v, s')
  | Panic e => Panic e | Crash => Crash | Spin => Spin | NoFuel => NoFuel
  end.
Proof. cbn [loop]. unfold bind. by destruct (body x s) as [[[x'|v] s']| | | |]. Qed.

Section spec.
Context {S : Type} (putc : Z -> M S unit) (digits : list Z) (Hd : length digits = 16%nat).

Lemma digit_spec d (s : S) : 0 <= d < 16 -> digit digits d s = Ok (nth (Z.to_nat d) digits 0, s).
Proof.
  intros H. unfold digit. destruct (lookup_lt_is_Some_2 digits (Z.to_nat d)) as [c Hc]; [lia|].
  by rewrite Hc, nth_lookup, Hc.
Qed.

(** The loop leaves the digits of [x] above those it has written. *)
Lemma print_digits_spec x base (s : S) :
  10 <= base <= 16 -> 0 <= x < 2 ^ 64 ->
  wp (print_digits digits x base) s (fun buf s' => s' = s /\ is_numeral digits base x (rev buf) /\
    base ^ (Z.of_nat (length buf) - 1) <= Z.max x 1).
Proof.
  intros Hb Hx. unfold print_digits.
  apply (wp_loop_st (fun '(y, buf) s' => s' = s /\ 0 <= y < 2 ^ 64 /\ exists ds,
      rev buf = map (fun d => nth (Z.to_nat d) digits 0) ds /\ Forall (fun d => 0 <= d < base) ds /\
      x = y * base ^ Z.of_nat (length ds) + number base ds /\ length ds = length buf /\ (y <> 0 \/ ds = []))
    (fun '(y, buf) _ => Z.to_nat (64 - Z.of_nat (length buf)))).
  - intros [y buf] s' (-> & Hy & ds & Hbuf & Hds & Hxy & Hlen & Hnz).
    assert (Hmod : 0 <= y mod base < base) by (apply Z.mod_pos_bound; lia).
    pose proof (Z.div_mod y base ltac:(lia)) as Hdm. assert (0 <= y / base) by (apply Z.div_pos; lia).
    pose proof (number_range base ds ltac:(lia) Hds) as Hnr.
    assert (Hroom : (length buf < 20)%nat).
    { rewrite <- Hlen. destruct Hnz as [Hy0| ->]; [|cbn; lia].
      apply (digits_fit base _ y x (number base ds)); lia. }
    apply wp_bind. unfold wp at 1. rewrite digit_spec by lia. set (c := nth _ digits 0).
    apply wp_bind. unfold put_buf, PBUF. destruct (Nat.ltb_spec (length buf) 20) as [_|?]; [|lia]. apply wp_ret.
    set (ds' := y mod base :: ds).
    assert (Hrev : rev (buf ++ [c]) = map (fun d => nth (Z.to_nat d) digits 0) ds') by (rewrite rev_app_distr; cbn; by rewrite Hbuf).
    assert (Hds' : Forall (fun d => 0 <= d < base) ds') by (by constructor).
    assert (Hnum : x = y / base * base ^ Z.of_nat (length ds') + number base ds').
    { unfold ds'. rewrite number_cons. cbn [length]. rewrite Nat2Z.inj_succ, Z.pow_succ_r by lia. rewrite Hxy. nia. }
    destruct (Z.eqb_spec (y / base) 0) as [E|E]; apply wp_ret.
    + rewrite E in Hnum, Hdm. split_and!; [done| |].
      * exists ds'. split_and!; [done|done|done|lia|]. cbn [hd ds']. destruct (decide (y = 0)) as [->|Hy0]; [|left; lia].
        destruct Hnz as [?| ->]; [done|]. right. unfold ds'. by rewrite Z.mod_0_l by lia.
      * rewrite length_app. cbn [length]. replace (Z.of_nat (length buf + 1) - 1) with (Z.of_nat (length ds)) by lia.
        destruct Hnz as [Hy0| ->]; [|cbn; lia]. assert (0 < base ^ Z.of_nat (length ds)) by (apply Z.pow_pos_nonneg; lia). nia.
    + split; [|rewrite length_app; cbn; lia]. split_and!; [done|done|nia|].
      exists ds'. split_and!; [done|done|done|rewrite length_app; cbn; lia|by left].
  - split_and!; [done|lia|lia|]. exists []. split_and!; [done|constructor|cbn; unfold number; cbn; lia|done|by right].
  - cbn. lia.
Qed.

Lemma printint_spec xx base sign s :
  - 2 ^ 63 < xx < 2 ^ 63 -> base = 10 \/ base = 16 ->
  let neg := negb (sign =? 0) && (xx <? 0) in
  exists cs, is_numeral digits base (if neg then - xx else u64 xx) cs /\
    printint putc digits xx base sign s = put_all putc ((if neg then [ch "-"] else []) ++ cs) s.
Proof.
  intros Hxx Hb neg. set (x := if neg then - xx else u64 xx).
  assert (Hx : 0 <= x < 2 ^ 64 /\ (neg = true -> x < 2 ^ 63)).
  { unfold x. destruct neg eqn:En; [|split; [apply u64_range|done]]. apply andb_true_iff in En as [_ En%Z.ltb_lt]. lia. }
  assert (Ex : (if neg then u64 (- xx) else u64 xx) = x) by (unfold x; destruct neg; [apply u64_id; lia|done]).
  pose proof (print_digits_spec x base s ltac:(lia) ltac:(lia)) as Hw. unfold wp in Hw.
  destruct (print_digits digits x base s) as [[buf s']| | | |] eqn:E; try done.
  destruct Hw as (-> & Hnum & Hlen). exists (rev buf). split; [done|].
  unfold printint. fold neg. rewrite Ex. unfold bind at 1. rewrite E. destruct neg eqn:En; [|done].
  pose proof (numeral_length base x buf ltac:(lia) Hlen ltac:(lia)) as Hl.
  unfold bind, put_buf, PBUF. destruct (Nat.ltb_spec (length buf) 20); [|lia]. cbn. by rewrite rev_app_distr.
Qed.

(** [printint] prints the numeral.  For every 64-bit number in base 10 or
    16, signed or not, it stays within its buffer of 20 characters and prints
    a minus sign if the number is taken as signed and is negative, and the
    digits of its magnitude without leading zeroes. *)
Theorem printint_prints xx base sign s :
  - 2 ^ 63 < xx < 2 ^ 63 -> base = 10 \/ base = 16 ->
  let neg := negb (sign =? 0) && (xx <? 0) in
  exists cs, is_numeral digits base (if neg then - xx else u64 xx) cs /\
    printint putc digits xx base sign s = put_all putc ((if neg then [ch "-"] else []) ++ cs) s.
Proof. apply printint_spec. Qed.

End spec.

(** The two loops are equivalent.  [printf] of the kernel, which looks
    ahead after a [%], and [vprintf] of user programs, which keeps a state,
    print the same for every format and all arguments. *)
Theorem printf_loops_agree {S} (putc : Z -> M S unit) digits fmt ap s : kprintf putc digits fmt ap s = vprintf putc digits fmt ap s.
Proof.
  unfold kprintf, vprintf.
  set (kb := fun '(i, ap) => _). set (ub := fun '(i, state, ap) => _).
  assert (H : forall m f1 f2 i ap s, (length fmt - i <= m)%nat -> (length fmt - i < f1)%nat -> (length fmt - i < f2)%nat ->
    loop f1 kb (i, ap) s = loop f2 ub (i, 0, ap) s).
  { clear. intros m. induction m as [m IH] using lt_wf_ind. intros [|f1] [|f2] i ap s Hm H1 H2; [lia..|].
    rewrite !loop_S. unfold kb at 1, ub at 1. change (0 =? 0) with true. cbv iota.
    assert (Hlt : forall j, at_ fmt j <> 0 -> (j < length fmt)%nat).
    { intros j Hj. destruct (decide (j < length fmt)%nat) as [|Hge]; [done|]. exfalso. apply Hj. apply nth_overflow. lia. }
    destruct (Z.eqb_spec (at_ fmt i) 0) as [E0|E0]; [done|]. specialize (Hlt i E0) as Hi.
    destruct (Z.eqb_spec (at_ fmt i) (ch "%")) as [Ep|Ep]; cbn [negb].
    2: { unfold bind. destruct (putc (at_ fmt i) s) as [[u s']| | | |]; try done. apply (IH (length fmt - Datatypes.S i)%nat); lia. }
    cbn [ret]. destruct f2 as [|f2]; [lia|]. rewrite loop_S. unfold ub at 1. change (ch "%" =? 0) with false. cbv iota.
    destruct (Z.eqb_spec (at_ fmt (Datatypes.S i)) 0) as [E1|E1]; [rewrite E1; done|]. specialize (Hlt _ E1).
    unfold bind. destruct (conversion _ _ _ _ _ _ s) as [[[[n ap']|] s']| | | |]; try done.
    apply (IH (length fmt - Datatypes.S (Datatypes.S i + n))%nat); lia. }
  apply (H (length fmt)); lia.
Qed.

(** ** Reading a number back *)

Lemma put_all_out cs s : Forall (fun c => 0 <= c < 256) cs ->
  put_all fd_putc cs s = Ok (tt, Io (inp s) (chunks s) (outp s ++ cs)).
Proof.
  intros H. revert s. induction H as [|c cs Hc _ IH]; intros s; cbn [put_all].
  - rewrite app_nil_r. by destruct s.
  - unfold bind, fd_putc, write, modify. cbn. rewrite IH, u8_id by lia. cbn. by rewrite <- app_assoc.
Qed.

Definition digit_char (d : Z) : Z := nth (Z.to_nat d) udigits 0.

Lemma digit_char_val d : 0 <= d < 10 -> digit_char d = 48 + d.
Proof.
  intros H. assert (d = 0 \/ d = 1 \/ d = 2 \/ d = 3 \/ d = 4 \/ d = 5 \/ d = 6 \/ d = 7 \/ d = 8 \/ d = 9) as Hd by lia.
  by repeat (destruct Hd as [->|Hd]); subst.
Qed.

Lemma number_app base ds es : number base (ds ++ es) = number base ds * base ^ Z.of_nat (length es) + number base es.
Proof.
  induction es as [|e es IH] using rev_ind; [rewrite app_nil_r; unfold number; cbn; lia|].
  rewrite app_assoc, !number_snoc, IH, length_app. cbn [length]. rewrite Nat2Z.inj_add, Z.pow_add_r by lia.
  change (Z.of_nat 1) with 1. rewrite Z.pow_1_r. lia.
Qed.

Lemma atoi_number es : forall ds,
  Forall (fun d => 0 <= d < 10) (ds ++ es) -> number 10 (ds ++ es) < 2 ^ 31 ->
  atoi_loop (number 10 ds) (map digit_char es) = number 10 (ds ++ es).
Proof.
  induction es as [|e es IH]; intros ds Hd Hn; cbn [map atoi_loop]; [by rewrite app_nil_r|].
  rewrite (cons_middle e ds es), app_assoc in *. pose proof Hd as [Hde Hes]%Forall_app. pose proof Hde as [Hd0 He]%Forall_app.
  rewrite Forall_singleton in He. rewrite digit_char_val by done. change (ch "0") with 48. change (ch "9") with 57.
  destruct (Z.leb_spec 48 (48 + e)); [|lia]. destruct (Z.leb_spec (48 + e) 57); [|lia]. cbn [andb].
  pose proof (number_range 10 (ds ++ [e]) ltac:(lia) Hde) as Hr. pose proof (number_range 10 es ltac:(lia) Hes) as Hre.
  assert (Hle : number 10 (ds ++ [e]) < 2 ^ 31).
  { rewrite number_app in Hn. assert (0 < 10 ^ Z.of_nat (length es)) by (apply Z.pow_pos_nonneg; lia). nia. }
  replace (number 10 ds * 10 + (48 + e) - 48) with (number 10 (ds ++ [e])) by (rewrite number_snoc; lia).
  rewrite i32_id by lia. by apply IH.
Qed.

(** [atoi] reads what [printint] wrote: for every non-negative [int], the
    characters that [printf("%d")] sends to a descriptor are a string that
    [atoi] converts back to the number. *)
Theorem atoi_printint x s :
  0 <= x < 2 ^ 31 ->
  exists cs, fd_printint x 10 1 s = Ok (tt, Io (inp s) (chunks s) (outp s ++ cs)) /\ atoi cs = x.
Proof.
  intros Hx. destruct (printint_spec fd_putc udigits eq_refl x 10 1 s) as (cs & Hnum & E); [lia|by left|].
  cbn [negb Z.eqb andb] in Hnum, E. destruct (Z.ltb_spec x 0); [lia|]. rewrite u64_id in Hnum by lia. cbn [app] in E.
  destruct Hnum as (ds & -> & _ & Hds & Hn & _). exists (map digit_char ds). split.
  - unfold fd_printint. rewrite E. apply put_all_out. apply Forall_map. eapply Forall_impl; [exact Hds|].
    intros d Hd. cbn beta in Hd |- *. change (0 <= digit_char d < 256). rewrite digit_char_val by done. lia.
  - unfold atoi. change 0 with (number 10 []). rewrite atoi_number; [done|done|]. cbn [app]. lia.
Qed.

Lemma printint_prints_witness : exists cs,
  is_numeral kdigits 16 255 cs /\ printint (S := io) fd_putc kdigits 255 16 0 (Io [] [] []) = put_all fd_putc cs (Io [] [] []).
Proof.
  destruct (printint_prints fd_putc kdigits eq_refl 255 16 0 (Io [] [] [])) as (cs & Hn & E); [lia|by right|].
  exists cs. split; [exact Hn|exact E].
Defined.

Lemma atoi_printint_witness : exists cs, atoi cs = 2147483647.
Proof. destruct (atoi_printint 2147483647 (Io [] [] [])) as (cs & _ & E); [lia|]. exists cs. exact E. Defined.
