(* ===== verification/Wc.v ===== *)
(** Counting lines, words and bytes: user/wc.c and custom_wc.c. *)

From Stdlib Require Import Ascii.
From S2P Require Import Prelude.
From S2P Require Import UserIO.

(** ** user/wc.c *)

(** [" \r\t\n\v"]. *)
Definition wc_space (c : Z) : bool := existsb (Z.eqb c) [32; 13; 9; 10; 11].

Record counters := Counters { n_l : Z; n_w : Z; n_c : Z; n_inword : Z }.

(** The body of the inner loop. *)
Definition wc_char (s : counters) (b : Z) : counters :=
  let c := i32 (n_c s + 1) in
  let l := if b =? NL then i32 (n_l s + 1) else n_l s in
  if wc_space b then Counters l (n_w s) c 0
  else if n_inword s =? 0 then Counters l (i32 (n_w s + 1)) c 1
  else Counters l (n_w s) c (n_inword s).

Definition WCBUF : nat := 512.

(** The loop over the input, up to the call of [printf]. *)
Definition wc (fuel : nat) : M io counters :=
  loop fuel (fun s =>
    d <- read WCBUF ;;
    match d with
    | [] => ret (inr s)
    | _ => ret (inl (fold_left wc_char d s))
    end) (Counters 0 0 0 0).

(** ** custom_wc.c *)

(** [isspace] in the C locale. *)
Definition isspace (c : Z) : bool := (c =? 32) || ((9 <=? c) && (c <=? 13)).

Record tally := Tally { t_lines : Z; t_words : Z; t_bytes : Z; t_curlen : Z; t_maxlen : Z; t_in : Z }.

(** The body of the loop of [wc_file]. *)
Definition wc_file_char (s : tally) (c : Z) : tally :=
  let bytes := i64 (t_bytes s + 1) in
  let '(lines, maxlen, curlen) :=
    if c =? NL then (i64 (t_lines s + 1), if t_maxlen s <? t_curlen s then t_curlen s else t_maxlen s, 0)
    else (t_lines s, t_maxlen s, i64 (t_curlen s + 1)) in
  if isspace c then Tally lines (t_words s) bytes curlen maxlen 0
  else if t_in s =? 0 then Tally lines (i64 (t_words s + 1)) bytes curlen maxlen 1
  else Tally lines (t_words s) bytes curlen maxlen (t_in s).

(** The options, and what is printed: [" %7ld"], [" %s"], [" total"] and the end
    of a line. *)
Record opts := Opts { opt_lines : bool; opt_words : bool; opt_bytes : bool; opt_chars : bool; opt_maxlen : bool }.
Inductive piece := PNum (z : Z) | PName (s : list Z) | PTotal | PEnd.

Definition print_counts (o : opts) (l w b m : Z) : list piece :=
  (if opt_lines o then [PNum l] else []) ++
  (if opt_words o then [PNum w] else []) ++
  (if opt_bytes o || opt_chars o then [PNum b] else []) ++
  (if opt_maxlen o then [PNum m] else []).

(** The totals [*tl], [*tw], [*tb] and [*tmax]. *)
Record totals := Totals { tl : Z; tw : Z; tb : Z; tmax : Z }.

Definition wc_file (o : opts) (file : list Z) (name : option (list Z)) (t : totals) : totals * list piece :=
  let s := fold_left wc_file_char file (Tally 0 0 0 0 0 0) in
  let maxlen := if t_maxlen s <? t_curlen s then t_curlen s else t_maxlen s in
  (Totals (i64 (tl t + t_lines s)) (i64 (tw t + t_words s)) (i64 (tb t + t_bytes s))
     (if tmax t <? maxlen then maxlen else tmax t),
   print_counts o (t_lines s) (t_words s) (t_bytes s) maxlen ++
   (match name with Some n => [PName n] | None => [] end) ++ [PEnd]).

(** Without options, lines, words and bytes. *)
Definition default_opts (o : opts) : opts :=
  if negb (opt_lines o) && negb (opt_words o) && negb (opt_bytes o) && negb (opt_chars o) && negb (opt_maxlen o)
  then Opts true true true (opt_chars o) (opt_maxlen o) else o.

(** [main] after [getopt]: [stdin] is the standard input, and each argument is
    a name and its contents, [None] where [fopen] fails; a name [-] stands for
    the standard input, which is at its end after the first use. *)
Fixpoint wc_args (o : opts) (stdin : list Z) (args : list (list Z * option (list Z))) (t : totals) : totals * list piece :=
  match args with
  | [] => (t, [])
  | (name, file) :: args =>
      if decide (name = str "-") then
        let '(t1, out) := wc_file o stdin (Some name) t in
        let '(t2, out') := wc_args o [] args t1 in (t2, out ++ out')
      else
        match file with
        | None => wc_args o stdin args t
        | Some f =>
            let '(t1, out) := wc_file o f (Some name) t in
            let '(t2, out') := wc_args o stdin args t1 in (t2, out ++ out')
        end
  end.

Definition wc_main (o : opts) (stdin : list Z) (args : list (list Z * option (list Z))) : list piece :=
  let o := default_opts o in
  match args with
  | [] => snd (wc_file o stdin None (Totals 0 0 0 0))
  | _ =>
      let '(t, out) := wc_args o stdin args (Totals 0 0 0 0) in
      out ++ (if (1 <? length args)%nat then print_counts o (tl t) (tw t) (tb t) (tmax t) ++ [PTotal; PEnd] else [])
  end.

(** ** What is counted *)

Definition lines_in (f : list Z) : Z := Z.of_nat (length (filter (fun c => c = NL) f)).

(** The maximal runs of characters that are not spaces. *)
Fixpoint fields (sp : Z -> bool) (f : list Z) : list (list Z) :=
  match f with
  | [] => []
  | c :: f' =>
      if sp c then fields sp f'
      else match f' with
           | d :: _ => if sp d then [c] :: fields sp f'
                       else match fields sp f' with w :: ws => (c :: w) :: ws | [] => [[c]] end
           | [] => [[c]]
           end
  end.
Definition words_in (sp : Z -> bool) (f : list Z) : Z := Z.of_nat (length (fields sp f)).

(** The lines, the last one without its newline included. *)
Fixpoint lines_of (f : list Z) : list (list Z) :=
  match f with
  | [] => [[]]
  | c :: f' => if c =? NL then [] :: lines_of f'
               else match lines_of f' with w :: ws => (c :: w) :: ws | [] => [[c]] end
  end.
Definition longest (ls : list (list Z)) : Z := fold_left Z.max (map (fun l => Z.of_nat (length l)) ls) 0.

(** ** The programs count *)

Definition starts_word (sp : Z -> bool) (f : list Z) : bool := match f with [] => false | c :: _ => negb (sp c) end.

Lemma words_cons sp c f :
  words_in sp (c :: f) = if sp c then words_in sp f else if starts_word sp f then words_in sp f else 1 + words_in sp f.
Proof.
  unfold words_in. cbn [fields]. destruct (sp c) eqn:Ec; [done|]. destruct f as [|d f]; [done|]. cbn [starts_word].
  destruct (sp d) eqn:Ed; cbn [negb]; [cbn [length]; lia|].
  assert (Hne : fields sp (d :: f) <> []).
  { cbn [fields]. rewrite Ed. destruct f as [|e f]; [done|]. destruct (sp e); [done|]. by destruct (fields sp (e :: f)). }
  by destruct (fields sp (d :: f)).
Qed.

Lemma words_bound sp f : 0 <= words_in sp f <= Z.of_nat (length f).
Proof.
  induction f as [|c f IH]; [done|]. rewrite words_cons. cbn [length]. destruct (sp c), (starts_word sp f); lia.
Qed.

Lemma words_start sp f : starts_word sp f = true -> 1 <= words_in sp f.
Proof.
  destruct f as [|c f]; [done|]. cbn [starts_word]. rewrite negb_true_iff. intros E. rewrite words_cons, E.
  pose proof (words_bound sp f). destruct (starts_word sp f) eqn:Es; [|lia].
  unfold words_in. destruct f as [|d f]; [done|]. cbn [starts_word] in Es. rewrite negb_true_iff in Es. cbn [fields]. rewrite Es.
  destruct f as [|e f]; [cbn; lia|]. destruct (sp e); [cbn [length]; lia|]. destruct (fields sp (e :: f)); cbn [length]; lia.
Qed.

Lemma lines_cons c f : lines_in (c :: f) = (if c =? NL then 1 else 0) + lines_in f.
Proof.
  unfold lines_in. rewrite filter_cons. destruct (decide (c = NL)) as [->|Hne]; [cbn; lia|].
  by rewrite (proj2 (Z.eqb_neq c NL) Hne).
Qed.

Lemma lines_bound f : 0 <= lines_in f <= Z.of_nat (length f).
Proof. unfold lines_in. pose proof (length_filter (fun c => c = NL) f). lia. Qed.

(** What counting [f] adds to counters. *)
Definition counted (sp : Z -> bool) (inword : Z) (f : list Z) : Z :=
  words_in sp f - (if negb (inword =? 0) && starts_word sp f then 1 else 0).

Lemma wc_chars f : forall s,
  0 <= n_l s -> 0 <= n_w s -> 0 <= n_c s -> n_l s + Z.of_nat (length f) < 2 ^ 31 -> n_w s + Z.of_nat (length f) < 2 ^ 31 ->
  n_c s + Z.of_nat (length f) < 2 ^ 31 ->
  let s' := fold_left wc_char f s in
  n_l s' = n_l s + lines_in f /\ n_w s' = n_w s + counted wc_space (n_inword s) f /\ n_c s' = n_c s + Z.of_nat (length f).
Proof.
  induction f as [|b f IH]; intros s Hl Hw Hc Bl Bw Bc; cbn [fold_left].
  - unfold counted, words_in, lines_in. cbn. rewrite andb_false_r. lia.
  - cbn [length] in *. destruct s as [l w c iw]. cbn [n_l n_w n_c n_inword] in *.
    specialize (IH (wc_char (Counters l w c iw) b)). unfold wc_char in IH |- *. cbn [n_l n_w n_c n_inword] in IH |- *.
    rewrite !i32_id in IH |- * by lia. rewrite lines_cons. unfold counted in *. rewrite words_cons. cbn [starts_word].
    pose proof (lines_bound f). pose proof (words_bound wc_space f). pose proof (words_start wc_space f).
    destruct (b =? NL), (wc_space b), (iw =? 0) eqn:Ei, (starts_word wc_space f);
      cbn [negb andb n_l n_w n_c n_inword] in *; rewrite ?Ei in IH; cbn [negb andb Z.eqb] in IH;
      destruct IH as (-> & -> & ->); lia.
Qed.

(** [wc] of xv6 counts, however the kernel splits the input over its
    reads: lines are the newlines, words the maximal runs of non-space
    characters, and every byte is counted. *)
Theorem wc_counts s fuel :
  Z.of_nat (length (inp s)) < 2 ^ 31 -> (length (inp s) < fuel)%nat ->
  wp (wc fuel) s (fun r s' => n_l r = lines_in (inp s) /\ n_w r = words_in wc_space (inp s) /\
    n_c r = Z.of_nat (length (inp s)) /\ inp s' = []).
Proof.
  intros Hlen Hf. unfold wc.
  apply (wp_loop_st (fun r s' => exists d, inp s = d ++ inp s' /\ r = fold_left wc_char d (Counters 0 0 0 0))
    (fun _ s' => length (inp s'))).
  - intros r s' (d & Hd & ->). apply wp_bind. eapply wp_mono; [apply read_spec|]. cbn beta.
    intros e s2 (He & _ & _ & Hend). destruct e as [|b e].
    + apply wp_ret. destruct (Hend eq_refl) as [?|E]; [done|]. cbn [app] in He. rewrite E in Hd, He.
      rewrite app_nil_r in Hd. subst d. destruct (wc_chars (inp s) (Counters 0 0 0 0)) as (-> & -> & ->); cbn; try lia.
      unfold counted. cbn [Z.eqb negb andb n_inword]. split_and!; [done|lia|done|done].
    + apply wp_ret. split; [|rewrite He, length_app; cbn; lia]. exists (d ++ b :: e). rewrite fold_left_app. split; [|done].
      by rewrite <- app_assoc, <- He.
  - by exists [].
  - done.
Qed.

(** ** custom_wc.c *)

(** The longest line, if [n] characters precede the text on its first line. *)
Definition longest_from (n : Z) (f : list Z) : Z :=
  match lines_of f with w :: ws => Z.max (n + Z.of_nat (length w)) (longest ws) | [] => n end.

Lemma fold_max l : forall a, 0 <= a -> fold_left Z.max l a = Z.max a (fold_left Z.max l 0).
Proof.
  induction l as [|x l IH]; intros a Ha; cbn [fold_left]; [lia|]. rewrite IH, (IH (Z.max 0 x)) by lia. lia.
Qed.

Lemma longest_cons w ws : longest (w :: ws) = Z.max (Z.of_nat (length w)) (longest ws).
Proof. unfold longest. cbn [map fold_left]. rewrite fold_max by lia. lia. Qed.

Lemma longest_nonneg ls : 0 <= longest ls.
Proof. induction ls as [|w ls IH]; [done|]. rewrite longest_cons. lia. Qed.

Lemma lines_of_ne f : lines_of f <> [].
Proof. destruct f as [|c f]; [done|]. cbn. destruct (c =? NL); [done|]. by destruct (lines_of f). Qed.

Lemma longest_from_cons n c f : 0 <= n ->
  longest_from n (c :: f) = if c =? NL then Z.max n (longest_from 0 f) else longest_from (n + 1) f.
Proof.
  intros Hn. unfold longest_from. cbn [lines_of]. pose proof (lines_of_ne f). destruct (lines_of f) as [|w ws]; [done|].
  destruct (c =? NL); cbn [length]; [rewrite longest_cons|]; pose proof (longest_nonneg ws); lia.
Qed.

Lemma longest_from_bound n f : 0 <= n -> n <= longest_from n f <= n + Z.of_nat (length f).
Proof.
  revert n. induction f as [|c f IH]; intros n Hn; [cbn; lia|]. rewrite longest_from_cons by done. cbn [length].
  destruct (c =? NL); [pose proof (IH 0 ltac:(lia))|pose proof (IH (n + 1) ltac:(lia))]; lia.
Qed.

(** What [wc_file]'s loop computes. *)
Lemma wc_file_chars f : forall s,
  let n := Z.of_nat (length f) in
  0 <= t_lines s -> 0 <= t_words s -> 0 <= t_bytes s -> 0 <= t_curlen s -> 0 <= t_maxlen s ->
  t_lines s + n < 2 ^ 63 -> t_words s + n < 2 ^ 63 -> t_bytes s + n < 2 ^ 63 -> t_curlen s + n < 2 ^ 63 ->
  let s' := fold_left wc_file_char f s in
  t_lines s' = t_lines s + lines_in f /\ t_words s' = t_words s + counted isspace (t_in s) f /\ t_bytes s' = t_bytes s + n /\
  Z.max (t_maxlen s') (t_curlen s') = Z.max (t_maxlen s) (longest_from (t_curlen s) f).
Proof.
  induction f as [|c f IH]; intros s n Hl Hw Hb Hc Hm Bl Bw Bb Bc; unfold n in *; clear n; cbn [fold_left].
  - unfold counted, words_in, lines_in, longest_from. cbn. rewrite andb_false_r. lia.
  - cbn [length] in *. destruct s as [l w b cl m iw]. cbn [t_lines t_words t_bytes t_curlen t_maxlen t_in] in *.
    specialize (IH (wc_file_char (Tally l w b cl m iw) c)). unfold wc_file_char in IH |- *.
    cbn [t_lines t_words t_bytes t_curlen t_maxlen t_in] in IH |- *.
    rewrite !i64_id in IH |- * by lia. rewrite lines_cons, longest_from_cons by lia. unfold counted in *. rewrite words_cons.
    cbn [starts_word]. pose proof (words_bound isspace f). pose proof (words_start isspace f).
    destruct (c =? NL), (isspace c), (iw =? 0) eqn:Ei, (starts_word isspace f), (m <? cl) eqn:Em;
      cbn [negb andb t_lines t_words t_bytes t_curlen t_maxlen t_in] in *; rewrite ?Ei in IH; cbn [negb andb Z.eqb] in IH;
      bool_simp; destruct IH as (-> & -> & -> & ->); lia.
Qed.

(** The report on one file. *)
Definition report (o : opts) (f : list Z) (name : option (list Z)) : list piece :=
  print_counts o (lines_in f) (words_in isspace f) (Z.of_nat (length f)) (longest (lines_of f)) ++
  (match name with Some n => [PName n] | None => [] end) ++ [PEnd].

(** Totals with a file added. *)
Definition add_file (t : totals) (f : list Z) : totals :=
  Totals (tl t + lines_in f) (tw t + words_in isspace f) (tb t + Z.of_nat (length f)) (Z.max (tmax t) (longest (lines_of f))).

(** Totals of [n] bytes at most. *)
Record within (n : Z) (t : totals) : Prop := {
  wi_l : 0 <= tl t <= n; wi_w : 0 <= tw t <= n; wi_b : 0 <= tb t <= n; wi_m : 0 <= tmax t
}.

Lemma longest_from_0 f : longest_from 0 f = longest (lines_of f).
Proof.
  unfold longest_from. pose proof (lines_of_ne f). destruct (lines_of f) as [|w ws]; [done|]. rewrite longest_cons. lia.
Qed.

Lemma within_add n t f : within n t -> within (n + Z.of_nat (length f)) (add_file t f).
Proof.
  intros [? ? ? ?]. pose proof (lines_bound f). pose proof (words_bound isspace f). split; cbn; lia.
Qed.

Lemma wc_file_spec o f name n t :
  within n t -> n + Z.of_nat (length f) < 2 ^ 63 -> wc_file o f name t = (add_file t f, report o f name).
Proof.
  intros [? ? ? ?] Hn. destruct (wc_file_chars f (Tally 0 0 0 0 0 0)) as (El & Ew & Eb & Em); cbn; try lia.
  cbn [t_lines t_words t_bytes t_curlen t_maxlen t_in] in El, Ew, Eb, Em. rewrite longest_from_0 in Em.
  unfold counted in Ew. cbn [Z.eqb negb andb] in Ew. rewrite Z.add_0_l in El, Eb. pose proof (longest_nonneg (lines_of f)).
  pose proof (lines_bound f). pose proof (words_bound isspace f).
  unfold wc_file, report, add_file. set (s := fold_left _ f _) in *.
  replace (if t_maxlen s <? t_curlen s then t_curlen s else t_maxlen s) with (longest (lines_of f)) by (case_if; lia).
  rewrite El, Eb. replace (t_words s) with (words_in isspace f) by lia. rewrite !i64_id by lia. do 2 f_equal. case_if; lia.
Qed.

(** The files among the arguments that can be opened. *)
Definition opened (args : list (list Z * option (list Z))) : list (list Z * list Z) :=
  omap (fun '(name, file) => match file with Some f => Some (name, f) | None => None end) args.

Definition size_of (fs : list (list Z * list Z)) : Z := foldr (fun x n => Z.of_nat (length (snd x)) + n) 0 fs.

Lemma size_nonneg fs : 0 <= size_of fs.
Proof. induction fs as [|x fs IH]; [done|]. cbn. fold (size_of fs). lia. Qed.

Lemma wc_args_spec o stdin args : forall n t,
  Forall (fun x => fst x <> str "-") args -> within n t -> n + size_of (opened args) < 2 ^ 63 ->
  wc_args o stdin args t = (fold_left (fun t x => add_file t (snd x)) (opened args) t,
                            concat (map (fun x => report o (snd x) (Some (fst x))) (opened args))).
Proof.
  induction args as [|[name [f|]] args IH]; intros n t Hns Hw Hn; [done|..]; apply Forall_cons in Hns as [Hne Hns]; cbn in Hne.
  - cbn [wc_args]. rewrite decide_False by done. change (opened ((name, Some f) :: args)) with ((name, f) :: opened args) in *.
    cbn [size_of foldr snd] in Hn. fold (size_of (opened args)) in Hn. pose proof (size_nonneg (opened args)).
    rewrite (wc_file_spec o f (Some name) n) by (done || lia).
    rewrite (IH (n + Z.of_nat (length f))) by (done || (by apply within_add) || lia). done.
  - cbn [wc_args]. rewrite decide_False by done. by apply (IH n).
Qed.

(** [custom_wc] reports each file that can be opened, in order, with its
    lines, words, bytes and longest line as the options ask, and with several
    arguments the sums (and the longest line) over all of them. *)
Theorem custom_wc_reports o stdin args :
  Forall (fun x => fst x <> str "-") args -> args <> [] -> size_of (opened args) < 2 ^ 63 ->
  let o' := default_opts o in
  let t := fold_left (fun t x => add_file t (snd x)) (opened args) (Totals 0 0 0 0) in
  wc_main o stdin args = concat (map (fun x => report o' (snd x) (Some (fst x))) (opened args)) ++
    (if (1 <? length args)%nat then print_counts o' (tl t) (tw t) (tb t) (tmax t) ++ [PTotal; PEnd] else []).
Proof.
  intros Hns Hne Hn o' t. unfold wc_main. destruct args as [|a args]; [done|].
  by rewrite (wc_args_spec o' stdin (a :: args) 0) by (done || lia).
Qed.

Lemma wc_counts_witness :
  wp (wc 20) (Io (str "one two") [2%nat] []) (fun r _ => n_l r = 0 /\ n_w r = 2 /\ n_c r = 7).
Proof.
  eapply wp_mono; [apply (wc_counts (Io (str "one two") [2%nat] []) 20)|].
  - by vm_compute.
  - cbn. lia.
  - cbn beta. intros r s' (-> & -> & -> & _). by vm_compute.
Defined.

Lemma custom_wc_reports_witness :
  wc_main (Opts false false false false false) [] [(str "a", Some (str "x y")); (str "b", None)] =
  [PNum 0; PNum 2; PNum 3; PName (str "a"); PEnd; PNum 0; PNum 2; PNum 3; PTotal; PEnd].
Proof.
  rewrite (custom_wc_reports (Opts false false false false false) [] [(str "a", Some (str "x y")); (str "b", None)]).
  - by vm_compute.
  - repeat constructor; by vm_compute.
  - done.
  - by vm_compute.
Defined.
