(* ===== verification/Echo.v ===== *)
(** custom_echo.c: escapes and options. *)

From Stdlib Require Import Ascii.
From S2P Require Import Prelude.
From S2P Require Import UserIO.

Definition BSLASH : Z := 92.

(** ** process_escapes *)

(** [src[i]], 0 at the end of the string; the buffer has [len + 1] bytes. *)
Definition src_at (src : list Z) (i : nat) : Z := nth i src 0.

Definition put_esc (cap : nat) (buf : list Z) (c : Z) : M unit (list Z) :=
  if (length buf <? cap)%nat then ret (buf ++ [c]) else fun _ => Crash.

Definition is_octal (c : Z) : bool := (ch "0" <=? c) && (c <=? ch "7").

(** [for(k = 0; k < 3 && i+1 < len && src[i+1] is octal; k++)]; the last index
    read and the value. *)
Fixpoint octal_loop (k : nat) (src : list Z) (i : nat) (octal : Z) : nat * Z :=
  match k with
  | O => (i, octal)
  | S k =>
      if (i + 1 <? length src)%nat && is_octal (src_at src (i + 1))
      then octal_loop k src (i + 1) (octal * 8 + (src_at src (i + 1) - ch "0"))
      else (i, octal)
  end.

(** One escape sequence, [i] being the index of its character after the
    backslash. *)
Definition escape (src : list Z) (i : nat) (buf : list Z) : M unit (nat * list Z) :=
  let put := put_esc (length src + 1) in
  let c := src_at src i in
  if c =? BSLASH then buf <- put buf BSLASH ;; ret (i, buf)
  else if c =? ch "n" then buf <- put buf 10 ;; ret (i, buf)
  else if c =? ch "t" then buf <- put buf 9 ;; ret (i, buf)
  else if c =? ch "r" then buf <- put buf 13 ;; ret (i, buf)
  else if c =? ch "a" then buf <- put buf 7 ;; ret (i, buf)
  else if c =? ch "b" then buf <- put buf 8 ;; ret (i, buf)
  else if c =? ch "0" then
    let '(i, octal) := octal_loop 3 src i 0 in
    buf <- put buf (u8 octal) ;; ret (i, buf)
  else
    buf <- put buf BSLASH ;;
    buf <- put buf c ;;
    ret (i, buf).

(** [malloc] is assumed to succeed; otherwise the program exits. *)
Definition process_escapes (src : list Z) : M unit (list Z) :=
  let len := length src in
  let put := put_esc (len + 1) in
  buf <- loop (S len) (fun '(i, buf) =>
    if (i <? len)%nat then
      r <- (if (src_at src i =? BSLASH) && (S i <? len)%nat then escape src (S i) buf
            else buf <- put buf (src_at src i) ;; ret (i, buf)) ;;
      let '(i, buf) := r in ret (inl (S i, buf))
    else ret (inr buf)) (0%nat, []) ;;
  put buf 0.

(** ** main *)

(** The loop over the characters of an option: the flags set so far are kept
    when it meets a character that is none. *)
Fixpoint scan_flags (cs : list Z) (nn ee : bool) : bool * bool * bool :=
  match cs with
  | [] => (true, nn, ee)
  | c :: cs =>
      if c =? ch "n" then scan_flags cs true ee
      else if c =? ch "e" then scan_flags cs nn true
      else if c =? ch "E" then scan_flags cs nn false
      else (false, nn, ee)
  end.

(** What the loop over [argv] ends with: help, version, or the strings to print. *)
Inductive action := Help | Version | Strings (nn ee : bool) (args : list (list Z)).

Fixpoint parse_args (args : list (list Z)) (nn ee : bool) : action :=
  match args with
  | [] => Strings nn ee []
  | a :: rest =>
      if decide (a = str "--help") then Help
      else if decide (a = str "--version") then Version
      else
        match a with
        | c :: d :: cs =>
            if c =? ch "-" then
              let '(valid, nn', ee') := scan_flags (d :: cs) nn ee in
              if (valid : bool) then parse_args rest nn' ee' else Strings nn' ee' args
            else Strings nn ee args
        | _ => Strings nn ee args
        end
  end.

(** [fputs] prints a string up to its NUL. *)
Fixpoint print_strings (ee : bool) (args : list (list Z)) : M unit (list Z) :=
  match args with
  | [] => ret []
  | a :: rest =>
      s <- (if ee then p <- process_escapes a ;; ret (cstring p) else ret a) ;;
      t <- print_strings ee rest ;;
      ret (s ++ match rest with [] => [] | _ => ch " " :: t end)
  end.

(** The output, or [None] for the texts of help and version. *)
Definition echo_main (args : list (list Z)) : M unit (option (list Z)) :=
  match parse_args args false false with
  | Strings nn ee ss =>
      out <- print_strings ee ss ;;
      ret (Some (out ++ if (nn : bool) then [] else [NL]))
  | _ => ret None
  end.

(** ** What the escapes mean *)

Definition simple_escape (c : Z) : option Z :=
  if c =? BSLASH then Some BSLASH else if c =? ch "n" then Some 10 else if c =? ch "t" then Some 9
  else if c =? ch "r" then Some 13 else if c =? ch "a" then Some 7 else if c =? ch "b" then Some 8 else None.

Definition octal_value (ds : list Z) : Z := foldl (fun a d => a * 8 + (d - ch "0")) 0 ds.

(** [t] is the text the string [s] stands for. *)
Inductive expands : list Z -> list Z -> Prop :=
| ex_nil : expands [] []
| ex_plain c s t : c <> BSLASH -> expands s t -> expands (c :: s) (c :: t)
| ex_last : expands [BSLASH] [BSLASH]
| ex_simple c d s t : simple_escape c = Some d -> expands s t -> expands (BSLASH :: c :: s) (d :: t)
| ex_octal ds s t : Forall (fun c => is_octal c = true) ds -> (length ds <= 3)%nat ->
    (length ds = 3%nat \/ forall c, head s = Some c -> is_octal c = false) ->
    expands s t -> expands (BSLASH :: ch "0" :: ds ++ s) (u8 (octal_value ds) :: t)
| ex_other c s t : simple_escape c = None -> c <> ch "0" -> expands s t -> expands (BSLASH :: c :: s) (BSLASH :: c :: t).

Lemma drop_at src i : (i < length src)%nat -> drop i src = src_at src i :: drop (S i) src.
Proof.
  intros Hi. destruct (lookup_lt_is_Some_2 src i Hi) as [c Hc]. rewrite (drop_S _ _ _ Hc). unfold src_at.
  by rewrite nth_lookup, Hc.
Qed.

Lemma octal_loop_spec src : forall k i v, exists ds s,
  drop (S i) src = ds ++ s /\ Forall (fun c => is_octal c = true) ds /\ (length ds <= k)%nat /\
  (length ds = k \/ forall c, head s = Some c -> is_octal c = false) /\
  octal_loop k src i v = ((i + length ds)%nat, foldl (fun a d => a * 8 + (d - ch "0")) v ds).
Proof.
  induction k as [|k IH]; intros i v; cbn [octal_loop].
  { exists [], (drop (S i) src). split_and!; try done; [by left|]. by rewrite Nat.add_0_r. }
  rewrite Nat.add_1_r. destruct (Nat.ltb_spec (S i) (length src)) as [Hlt|Hge]; cbn [andb].
  - destruct (is_octal (src_at src (S i))) eqn:Eo.
    + destruct (IH (S i) (v * 8 + (src_at src (S i) - ch "0"))) as (ds & s & Hd & Ho & Hl & Hend & E).
      exists (src_at src (S i) :: ds), s. rewrite (drop_at src (S i)), Hd, E by done. split_and!; [done|by constructor|cbn; lia| |].
      * destruct Hend; [left; cbn; lia|by right].
      * cbn. f_equal. lia.
    + exists [], (drop (S i) src). split_and!; try done; [cbn; lia| |by rewrite Nat.add_0_r].
      right. rewrite (drop_at src (S i)) by done. by intros c [= <-].
  - exists [], (drop (S i) src). split_and!; try done; [cbn; lia| |by rewrite Nat.add_0_r].
    right. by rewrite drop_ge by lia.
Qed.

Lemma put_esc_ok cap buf c (u : unit) : (length buf < cap)%nat -> put_esc cap buf c u = Ok (buf ++ [c], u).
Proof. intros H. unfold put_esc. by destruct (Nat.ltb_spec (length buf) cap); [|lia]. Qed.

Lemma wp_put_esc (src buf : list Z) c (Q : list Z -> unit -> Prop) :
  (length buf <= length src)%nat -> Q (buf ++ [c]) tt -> wp (put_esc (length src + 1) buf c) tt Q.
Proof. intros Hb HQ. unfold wp. by rewrite put_esc_ok by lia. Qed.

(** An escape sequence appends what it stands for. *)
Lemma escape_spec src i buf :
  (S i < length src)%nat -> (length buf <= i)%nat ->
  wp (escape src (S i) buf) tt (fun '(i', buf') _ => exists bs, buf' = buf ++ bs /\ (S i <= i' < length src)%nat /\
    (length bs <= S i' - i)%nat /\ forall t, expands (drop (S i') src) t -> expands (BSLASH :: drop (S i) src) (bs ++ t)).
Proof.
  intros Hi Hb. rewrite (drop_at src (S i) Hi). set (c := src_at src (S i)).
  assert (Hs : forall d, simple_escape c = Some d ->
    wp (buf <- put_esc (length src + 1) buf d ;; ret (S i, buf)) tt (fun '(i', buf') _ => exists bs, buf' = buf ++ bs /\
      (S i <= i' < length src)%nat /\ (length bs <= S i' - i)%nat /\
      forall t, expands (drop (S i') src) t -> expands (BSLASH :: c :: drop (S (S i)) src) (bs ++ t))).
  { intros d Hd. apply wp_bind, wp_put_esc; [lia|]. apply wp_ret. exists [d]. split_and!; [done|lia|lia|cbn; lia|].
    intros t Ht. by apply ex_simple. }
  unfold escape. fold c. unfold simple_escape in Hs.
  destruct (c =? BSLASH) eqn:E1; [by apply Hs|]. destruct (c =? ch "n") eqn:E2; [by apply Hs|].
  destruct (c =? ch "t") eqn:E3; [by apply Hs|]. destruct (c =? ch "r") eqn:E4; [by apply Hs|].
  destruct (c =? ch "a") eqn:E5; [by apply Hs|]. destruct (c =? ch "b") eqn:E6; [by apply Hs|]. clear Hs.
  destruct (Z.eqb_spec c (ch "0")) as [E0|E0].
  - destruct (octal_loop_spec src 3 (S i) 0) as (ds & s & Hd & Ho & Hl & Hend & ->).
    assert (Hle : (length ds <= length src - S (S i))%nat) by (rewrite <- length_drop, Hd, length_app; lia).
    apply wp_bind, wp_put_esc; [lia|]. apply wp_ret. eexists. split_and!; [done|lia|lia|cbn; lia|]. intros t Ht.
    rewrite E0, Hd. apply ex_octal; try done. replace (drop (S (S i + length ds)) src) with s in Ht; [done|].
    replace (S (S i + length ds)) with (S (S i) + length ds)%nat by lia. rewrite <- drop_drop, Hd. by rewrite drop_app_length.
  - apply wp_bind, wp_put_esc; [lia|]. apply wp_bind, wp_put_esc; [rewrite length_app; cbn; lia|]. apply wp_ret. exists [BSLASH; c].
    split_and!; [by rewrite <- app_assoc|lia|lia|cbn; lia|]. intros t Ht. apply ex_other; [|done|done].
    unfold simple_escape. by rewrite E1, E2, E3, E4, E5, E6.
Qed.

(** The buffer never holds more than was read. *)
Lemma escapes_spec src :
  wp (process_escapes src) tt (fun r _ => exists t, r = t ++ [0] /\ expands src t /\ (length t <= length src)%nat).
Proof.
  unfold process_escapes. apply wp_bind.
  apply (wp_loop_st (fun '(i, buf) _ => (i <= length src)%nat /\ (length buf <= i)%nat /\
      forall t, expands (drop i src) t -> expands src (buf ++ t)) (fun '(i, _) _ => (length src - i)%nat)).
  - intros [i buf] [] (Hi & Hb & Hex). destruct (Nat.ltb_spec i (length src)) as [Hlt|Hge].
    2: { apply wp_ret, wp_put_esc; [lia|]. exists buf. split_and!; [done| |lia]. rewrite <- (app_nil_r buf). apply Hex.
      rewrite drop_ge by lia. constructor. }
    apply wp_bind. eapply (wp_mono _ _ (fun '(i', buf') _ => exists bs, buf' = buf ++ bs /\ (i <= i' < length src)%nat /\
      (length bs <= S i' - i)%nat /\ forall t, expands (drop (S i') src) t -> expands (drop i src) (bs ++ t))).
    2: { intros [i' buf'] [] (bs & -> & Hi' & Hbs & Ht). apply wp_ret. split; [|lia]. split_and!; [lia|rewrite length_app; lia|].
      intros t Het. rewrite <- app_assoc. auto. }
    rewrite (drop_at src i Hlt). destruct (Z.eqb_spec (src_at src i) BSLASH) as [Eb|Eb]; cbn [andb].
    + rewrite Eb. destruct (Nat.ltb_spec (S i) (length src)) as [Hlt2|Hge2].
      * eapply wp_mono; [by apply escape_spec|]. intros [i' buf'] [] (bs & ? & ? & ? & ?). exists bs. split_and!; auto; lia.
      * apply wp_bind, wp_put_esc; [lia|]. apply wp_ret. exists [BSLASH]. split_and!; [done|lia|lia|cbn; lia|].
        intros t. rewrite drop_ge by lia. intros Ht. inversion Ht. apply ex_last.
    + apply wp_bind, wp_put_esc; [lia|]. apply wp_ret. eexists. split_and!; [done|lia|lia|cbn; lia|]. intros t Ht. by constructor.
  - split_and!; [lia|cbn; lia|]. by rewrite drop_0.
  - lia.
Qed.

(** ** The program *)

Definition flag_char (c : Z) : Prop := c = ch "n" \/ c = ch "e" \/ c = ch "E".

(** An option: a dash and flag characters. *)
Definition is_option (a : list Z) : Prop := exists cs, a = ch "-" :: cs /\ cs <> [] /\ Forall flag_char cs.

(** A string that starts no option. *)
Definition not_option (a : list Z) : Prop := head a <> Some (ch "-") \/ a = [ch "-"].

Definition flag (s : bool * bool) (c : Z) : bool * bool :=
  if c =? ch "n" then (true, s.2) else if c =? ch "e" then (s.1, true) else (s.1, false).

(** The flags the options leave. *)
Definition flags (os : list (list Z)) : bool * bool := foldl (fun s o => foldl flag s (tail o)) (false, false) os.

Definition join (ts : list (list Z)) : list Z :=
  match ts with [] => [] | t :: ts => t ++ concat (map (fun u => ch " " :: u) ts) end.

(** How an argument is printed. *)
Definition prints (ee : bool) (a t : list Z) : Prop :=
  if ee then exists u, expands a u /\ t = cstring (u ++ [0]) else t = a.

Lemma scan_flags_ok cs : forall nn ee, Forall flag_char cs ->
  scan_flags cs nn ee = (true, (foldl flag (nn, ee) cs).1, (foldl flag (nn, ee) cs).2).
Proof.
  induction cs as [|c cs IH]; intros nn ee H; [done|]. apply Forall_cons in H as [Hc H]. cbn [scan_flags foldl].
  unfold flag at 2 4. cbn [fst snd]. destruct Hc as [->|[->| ->]]; cbn; by apply IH.
Qed.

Lemma parse_strings args nn ee : (forall a, head args = Some a -> not_option a) -> parse_args args nn ee = Strings nn ee args.
Proof.
  destruct args as [|a rest]; [done|]. intros Hn. specialize (Hn a eq_refl). cbn [parse_args].
  assert (Hd : forall b, head b = Some (ch "-") -> b <> [ch "-"] -> a <> b) by (intros b ? ? ->; destruct Hn; done).
  rewrite !decide_False by (by apply Hd). destruct a as [|c [|d cs]]; [done|done|].
  destruct (Z.eqb_spec c (ch "-")) as [->|]; [|done]. by destruct Hn.
Qed.

Lemma parse_options os args : forall nn ee, Forall is_option os -> (forall a, head args = Some a -> not_option a) ->
  let s := foldl (fun s o => foldl flag s (tail o)) (nn, ee) os in parse_args (os ++ args) nn ee = Strings s.1 s.2 args.
Proof.
  induction os as [|o os IH]; intros nn ee Ho Ha; cbn [app foldl]; [by apply parse_strings|].
  apply Forall_cons in Ho as [(cs & -> & Hne & Hcs) Ho]. cbn [parse_args tail].
  assert (Hd : forall b, Exists (fun c => ~ flag_char c) (tail b) -> ch "-" :: cs <> b).
  { intros b Hb <-. cbn in Hb. rewrite Exists_Forall_neg in Hb by (intros; unfold flag_char; destruct (decide (x = ch "n")), (decide (x = ch "e")), (decide (x = ch "E")); tauto). done. }
  assert (Hx : ~ flag_char (ch "-")) by (intros [?|[?|?]]; done).
  rewrite !decide_False by (apply Hd; by constructor). destruct cs as [|d cs]; [done|].
  change (ch "-" =? ch "-") with true. cbv iota. rewrite scan_flags_ok by done. cbn [foldl] in *.
  rewrite IH by done. by destruct (foldl flag (flag (nn, ee) d) cs).
Qed.

Lemma print_strings_spec ee args :
  wp (print_strings ee args) tt (fun r _ => exists ts, Forall2 (prints ee) args ts /\ r = join ts).
Proof.
  induction args as [|a args IH]; cbn [print_strings]; [apply wp_ret; by exists []|]. apply wp_bind.
  apply (wp_mono _ _ (fun t _ => prints ee a t)).
  - destruct ee; [|by apply wp_ret]. apply wp_bind. eapply wp_mono; [apply escapes_spec|]. cbn beta.
    intros r [] (t & -> & Ht & _). apply wp_ret. by exists t.
  - intros t [] Ht. apply wp_bind. eapply wp_mono; [exact IH|]. cbn beta. intros r [] (ts & Hts & ->). apply wp_ret.
    exists (t :: ts). split; [by constructor|]. destruct Hts as [|b u args ts Hb Hts]; [done|]. done.
Qed.

(** [custom_echo] prints its arguments after the options, separated by
    spaces, with the escapes expanded if [-e] was the last of [-e] and [-E],
    and a newline unless [-n] was given; it stays within its buffers. *)
Theorem echo_prints os args :
  Forall is_option os -> (forall a, head args = Some a -> not_option a) ->
  wp (echo_main (os ++ args)) tt (fun r _ => exists ts, Forall2 (prints (flags os).2) args ts /\
    r = Some (join ts ++ if (flags os).1 then [] else [NL])).
Proof.
  intros Ho Ha. unfold echo_main. rewrite parse_options by done. fold (flags os).
  apply wp_bind. eapply wp_mono; [apply print_strings_spec|]. cbn beta. intros r [] (ts & Hts & ->). apply wp_ret. by exists ts.
Qed.

(** An argument that is no option can still switch the newline off: of the
    string [-n] and a character that is no flag, the [n] is kept although the
    argument is printed as text. *)
Theorem echo_bad_flag_sticks c :
  ~ flag_char c -> echo_main [str "-n" ++ [c]] tt = Ok (Some (str "-n" ++ [c]), tt).
Proof.
  intros Hc. assert (Hn : forall x, flag_char x -> (c =? x) = false) by (intros x Hx; apply Z.eqb_neq; by intros ->).
  unfold echo_main. cbn [parse_args str app]. rewrite !decide_False by done. change (ch "-" =? ch "-") with true. cbv iota.
  cbn [scan_flags]. change (ch "n" =? ch "n") with true. cbv iota. rewrite !Hn by (unfold flag_char; tauto). done.
Qed.

(** A NUL from an octal escape ends the output of its argument. *)
Theorem echo_nul_truncates :
  echo_main [str "-e"; str "a" ++ [BSLASH] ++ str "0b"; str "c"] tt = Ok (Some (str "a c" ++ [NL]), tt).
Proof. by vm_compute. Qed.

Lemma echo_prints_witness :
  wp (echo_main [str "-n"; str "hello"; str "world"]) tt (fun r _ => r = Some (str "hello world")).
Proof.
  eapply wp_mono; [apply (echo_prints [str "-n"] [str "hello"; str "world"])|].
  - repeat constructor. exists [ch "n"]. split_and!; [done|done|]. repeat constructor.
  - intros a [= <-]. by left.
  - cbn beta. intros r s (ts & Hts & ->). inversion Hts as [|? ? ? ? H1 H2]; subst. inversion H2 as [|? ? ? ? H3 H4]; subst.
    inversion H4; subst. change ((flags [str "-n"]).2) with false in *. cbn in H1, H3. by subst.
Defined.

Lemma echo_bad_flag_sticks_witness : echo_main [str "-nx"] tt = Ok (Some (str "-nx"), tt).
Proof. apply (echo_bad_flag_sticks (ch "x")). intros [?|[?|?]]; done. Defined.
