(* ===== verification/Grep.v ===== *)
(** user/grep.c: the Kernighan-Pike matcher and the line loop around it. *)

From Stdlib Require Import Ascii.
From S2P Require Import Prelude.
From S2P Require Import UserIO.

(** ** The matcher

    Patterns and texts are NUL-terminated, so a pointer is the list of the
    characters left and the test for NUL is the test for the empty list. *)

(** The loop of [matchstar]; [here] is [matchhere] of the rest. *)
Fixpoint matchstar (here : list Z -> bool) (c : Z) (text : list Z) : bool :=
  if here text then true
  else
    match text with
    | [] => false
    | t :: text' => if (t =? c) || (c =? ch ".") then matchstar here c text' else false
    end.

Fixpoint matchhere (re text : list Z) : bool :=
  match re with
  | [] => true
  | c :: re1 =>
      let plain :=
        match text with
        | t :: text' => if (c =? ch ".") || (c =? t) then matchhere re1 text' else false
        | [] => false
        end in
      match re1 with
      | c1 :: re2 => if c1 =? ch "*" then matchstar (matchhere re2) c text else plain
      | [] => if c =? ch "$" then match text with [] => true | _ => false end else plain
      end
  end.

(** The [do] loop of [match]: every suffix, the empty one included. *)
Fixpoint match_any (re text : list Z) : bool :=
  if matchhere re text then true
  else match text with [] => false | _ :: text' => match_any re text' end.

Definition match_ (re text : list Z) : bool :=
  match re with
  | c :: re1 => if c =? ch "^" then matchhere re1 text else match_any re text
  | [] => match_any re text
  end.

(** ** The line loop

    The program's state is its streams; [buf], [m] and [p] are the buffer
    and its indices. *)

Definition BUFSZ : nat := 1024.

(** [strchr(buf + p, c)], as an index. *)
Fixpoint strchr_from (b : list Z) (p : nat) (c : Z) : option nat :=
  match b with
  | [] => None
  | x :: b' => if x =? 0 then None else if x =? c then Some p else strchr_from b' (S p) c
  end.
Definition strchr (buf : list Z) (p : nat) (c : Z) : option nat := strchr_from (drop p buf) p c.

(** [while((q = strchr(p, '\n')) != 0)]. *)
Definition grep_lines (pattern : list Z) (buf : list Z) : M io (list Z * nat) :=
  loop (S (length buf)) (fun '(buf, p) =>
    match strchr buf p NL with
    | None => ret (inr (buf, p))
    | Some q =>
        let buf := <[q := 0]> buf in
        if match_ pattern (cstring (drop p buf)) then
          let buf := <[q := NL]> buf in
          write (take (q + 1 - p) (drop p buf)) >>> ret (inl (buf, S q))
        else ret (inl (buf, S q))
    end) (buf, 0%nat).

(** [grep]; [fuel] bounds the number of reads. *)
Definition grep (fuel : nat) (pattern : list Z) (buf : list Z) : M io unit :=
  loop fuel (fun '(buf, m) =>
    d <- read (BUFSZ - m - 1) ;;
    match d with
    | [] => ret (inr tt)
    | _ =>
        let buf := splice buf m d in
        let m := (m + length d)%nat in
        let buf := <[m := 0]> buf in
        r <- grep_lines pattern buf ;;
        let '(buf, p) := r in
        if (0 <? m)%nat then
          let m := (m - p)%nat in
          ret (inl (splice buf 0 (take m (drop p buf)), m))
        else ret (inl (buf, m))
    end) (buf, 0%nat).

(** ** What patterns denote *)

Inductive item := One (c : Z) | Star (c : Z) | Eol.

(** [.] is any character. *)
Definition accepts (c t : Z) : Prop := c = ch "." \/ c = t.

(** The items of a pattern: [c*], a final [$], or a character. *)
Fixpoint items (re : list Z) : list item :=
  match re with
  | [] => []
  | c :: re1 =>
      match re1 with
      | c1 :: re2 => if c1 =? ch "*" then Star c :: items re2 else One c :: items re1
      | [] => if c =? ch "$" then [Eol] else [One c]
      end
  end.

(** [denotes its mid post]: the items match exactly [mid], followed by [post]. *)
Inductive denotes : list item -> list Z -> list Z -> Prop :=
| denotes_nil post : denotes [] [] post
| denotes_one c t its mid post :
    accepts c t -> denotes its mid post -> denotes (One c :: its) (t :: mid) post
| denotes_star c rep its mid post :
    Forall (accepts c) rep -> denotes its mid post -> denotes (Star c :: its) (rep ++ mid) post
| denotes_eol : denotes [Eol] [] [].

(** A text has an occurrence of the pattern, at its start if the pattern
    begins with [^]. *)
Definition occurs_in (re text : list Z) : Prop :=
  match re with
  | c :: re1 =>
      if c =? ch "^" then exists mid post, text = mid ++ post /\ denotes (items re1) mid post
      else exists pre mid post, text = pre ++ mid ++ post /\ denotes (items re) mid post
  | [] => True
  end.

Lemma items_star c re : items (c :: ch "*" :: re) = Star c :: items re.
Proof. done. Qed.

Lemma items_plain c re :
  head re <> Some (ch "*") -> (re <> [] \/ c <> ch "$") -> items (c :: re) = One c :: items re.
Proof.
  intros Hs He. destruct re as [|c1 re].
  - cbn [items]. destruct (c =? ch "$") eqn:E; [|done]. bool_simp. destruct He; congruence.
  - cbn [items]. destruct (c1 =? ch "*") eqn:E; [|done]. bool_simp. subst. done.
Qed.

Lemma matchstar_spec here c its :
  (forall text, here text = true <-> exists mid post, text = mid ++ post /\ denotes its mid post) ->
  forall text, matchstar here c text = true <->
    exists mid post, text = mid ++ post /\ denotes (Star c :: its) mid post.
Proof.
  intros Hh. induction text as [|t text IH]; cbn [matchstar].
  all: case_if.
  1,3: split; [|done]; intros _; apply Hh in E as (mid & post & -> & Hd); exists mid, post;
    (split; [done|]); apply (denotes_star c []); by try constructor.
  - split; [done|]. intros (mid & post & Ht & Hd). inversion Hd; subst.
    symmetry in Ht. apply app_eq_nil in Ht as [Ht ->]. apply app_eq_nil in Ht as [-> ->].
    rewrite <- E. apply Hh. by exists [], [].
  - assert (Hacc : (t =? c) || (c =? ch ".") = true <-> accepts c t).
    { unfold accepts. rewrite orb_true_iff, !Z.eqb_eq. intuition congruence. }
    destruct ((t =? c) || (c =? ch ".")) eqn:Ea.
    + rewrite IH. split.
      * intros (mid & post & -> & Hd). inversion Hd; subst.
        exists ((t :: rep) ++ mid0), post. split; [done|]. constructor; [|done].
        constructor; [by apply Hacc|done].
      * intros (mid & post & Ht & Hd). inversion Hd; subst. destruct rep as [|r rep].
        { exfalso. cbn in Ht. rewrite Ht in E. assert (here (mid0 ++ post) = true) by (apply Hh; eauto).
          congruence. }
        injection Ht as <- ->. apply Forall_cons in H1 as [_ ?]. exists (rep ++ mid0), post.
        by split; [|constructor].
    + split; [done|]. intros (mid & post & Ht & Hd). inversion Hd; subst. destruct rep as [|r rep].
      { exfalso. cbn in Ht. rewrite Ht in E. assert (here (mid0 ++ post) = true) by (apply Hh; eauto).
        congruence. }
      injection Ht as <- ->. apply Hacc. by apply Forall_cons in H1 as [? _].
Qed.

Lemma matchhere_spec re text :
  matchhere re text = true <-> exists mid post, text = mid ++ post /\ denotes (items re) mid post.
Proof.
  revert text. induction re as [re IH] using (induction_ltof1 _ (@length Z)). unfold ltof in IH.
  intros text. destruct re as [|c re1].
  { split; [|done]. intros _. exists [], text. split; [done|constructor]. }
  assert (Hplain : forall its, items (c :: re1) = One c :: its -> items re1 = its ->
    (match text with
     | t :: text' => if (c =? ch ".") || (c =? t) then matchhere re1 text' else false
     | [] => false end = true <->
     exists mid post, text = mid ++ post /\ denotes (items (c :: re1)) mid post)).
  { intros its -> Hits. destruct text as [|t text].
    - split; [done|]. intros (mid & post & Ht & Hd). inversion Hd; subst. done.
    - destruct ((c =? ch ".") || (c =? t)) eqn:Ea.
      + rewrite IH by (cbn; lia). rewrite Hits. split.
        * intros (mid & post & -> & Hd). exists (t :: mid), post. split; [done|].
          constructor; [|done]. unfold accepts. bool_simp; auto.
        * intros (mid & post & Ht & Hd). inversion Hd; subst. injection Ht as <- ->. eauto.
      + split; [done|]. intros (mid & post & Ht & Hd). inversion Hd; subst. injection Ht as <- ->.
        bool_simp. match goal with A : accepts _ _ |- _ => destruct A end; congruence. }
  destruct re1 as [|c1 re2]; cbn [matchhere].
  - destruct (c =? ch "$") eqn:E.
    + bool_simp. subst c. change (items [ch "$"]) with [Eol]. destruct text as [|t text].
      * split; [|done]. intros _. exists [], []. split; [done|constructor].
      * split; [done|]. intros (mid & post & Ht & Hd). inversion Hd; subst. done.
    + apply (Hplain []); [|done]. cbn [items]. by rewrite E.
  - destruct (c1 =? ch "*") eqn:E.
    + bool_simp. subst c1. rewrite items_star. apply matchstar_spec. intros text'.
      apply IH. cbn. lia.
    + apply (Hplain (items (c1 :: re2))); [|done]. cbn [items]. by rewrite E.
Qed.

Lemma match_any_spec re text :
  match_any re text = true <->
  exists pre mid post, text = pre ++ mid ++ post /\ denotes (items re) mid post.
Proof.
  assert (Hh := matchhere_spec re).
  induction text as [|t text IH]; cbn [match_any].
  all: case_if.
  1,3: split; [|done]; intros _; apply Hh in E as (mid & post & -> & Hd); by exists [], mid, post.
  - split; [done|]. intros (pre & mid & post & Ht & Hd). rewrite <- E. apply Hh.
    symmetry in Ht. apply app_eq_nil in Ht as [-> Ht]. by exists mid, post.
  - rewrite IH. split.
    + intros (pre & mid & post & -> & Hd). by exists (t :: pre), mid, post.
    + intros ([|p pre] & mid & post & Ht & Hd).
      * exfalso. enough (matchhere re (t :: text) = true) by congruence. apply Hh. by exists mid, post.
      * injection Ht as <- ->. by exists pre, mid, post.
Qed.

(** C26. [match] of grep.c decides whether the text contains an occurrence of
    the pattern: [c*] is any number of [c], [.] any character, a final [$] the
    end of the text and a leading [^] its start. *)
Theorem match_decides re text : match_ re text = true <-> occurs_in re text.
Proof.
  unfold match_, occurs_in. destruct re as [|c re].
  - split; [done|]. intros _. apply match_any_spec. exists [], [], text. split; [done|constructor].
  - destruct (c =? ch "^"); [apply matchhere_spec|apply match_any_spec].
Qed.

(** ** The line loop: specification *)

(** The lines of a text, and what follows the last newline. *)
Fixpoint split_lines (l : list Z) : list (list Z) * list Z :=
  match l with
  | [] => ([], [])
  | c :: l' =>
      let '(ls, r) := split_lines l' in
      if c =? NL then ([] :: ls, r)
      else match ls with [] => ([], c :: r) | x :: ls' => ((c :: x) :: ls', r) end
  end.

(** The terminated lines that match, each with its newline. *)
Definition matching_lines (pattern file : list Z) : list Z :=
  concat (map (fun l => l ++ [NL]) (filter (fun l => match_ pattern l = true) (fst (split_lines file)))).

(** Every line, with its newline, fits the buffer with a NUL. *)
Definition lines_fit (file : list Z) : Prop :=
  Forall (fun l => (length l + 2 <= BUFSZ)%nat) (fst (split_lines file)) /\
  (length (snd (split_lines file)) + 2 <= BUFSZ)%nat.

Lemma split_lines_app l t :
  NL ∉ l -> split_lines (l ++ NL :: t) = (l :: fst (split_lines t), snd (split_lines t)).
Proof.
  induction l as [|c l IH]; intros Hl; cbn [split_lines app].
  - by destruct (split_lines t).
  - apply not_elem_of_cons in Hl as [Hc Hl]. rewrite IH by done.
    destruct (c =? NL) eqn:E; [bool_simp; congruence|done].
Qed.

Lemma split_lines_none l : NL ∉ l -> split_lines l = ([], l).
Proof.
  induction l as [|c l IH]; intros Hl; [done|]. apply not_elem_of_cons in Hl as [Hc Hl].
  cbn [split_lines]. rewrite IH by done. destruct (c =? NL) eqn:E; [bool_simp; congruence|done].
Qed.

(** Splitting again what was left unfinished. *)
Lemma split_lines_rest a b :
  split_lines (a ++ b) =
  (fst (split_lines a) ++ fst (split_lines (snd (split_lines a) ++ b)),
   snd (split_lines (snd (split_lines a) ++ b))).
Proof.
  induction a as [|c a IH]; cbn [split_lines app fst snd]; [by destruct (split_lines b)|].
  rewrite IH. destruct (split_lines a) as [[|x ls] r]; cbn [fst snd app];
    destruct (c =? NL) eqn:E; cbn [fst snd app split_lines]; rewrite ?E;
    by destruct (split_lines (r ++ b)) as [[|y ls'] r'].
Qed.

Lemma split_lines_snd_notin a : NL ∉ snd (split_lines a).
Proof.
  induction a as [|c a IH]; cbn [split_lines]; [by apply not_elem_of_nil|].
  destruct (split_lines a) as [[|x ls] r]; destruct (c =? NL) eqn:E; cbn [snd] in *; try done.
  bool_simp. by apply not_elem_of_cons.
Qed.


Lemma strchr_from_spec t junk p :
  Forall (fun c => c <> 0) t ->
  match strchr_from (t ++ 0 :: junk) p NL with
  | None => NL ∉ t
  | Some q => (exists l t', t = l ++ NL :: t' /\ (NL ∉ l) /\ q = (p + length l)%nat)
  end.
Proof.
  intros Ht. revert p. induction Ht as [|c t Hc _ IH]; intros p; [apply not_elem_of_nil|].
  cbn [strchr_from app]. destruct (c =? 0) eqn:E0; [bool_simp; done|].
  destruct (c =? NL) eqn:E; bool_simp.
  - subst. exists [], t. split_and!; [done|apply not_elem_of_nil|cbn; lia].
  - specialize (IH (S p)). destruct (strchr_from (t ++ 0 :: junk) (S p) NL) as [q|].
    + destruct IH as (l & t' & -> & Hl & ->). exists (c :: l), t'. split_and!; [done| |cbn; lia].
      by apply not_elem_of_cons.
    + by apply not_elem_of_cons.
Qed.

Lemma insert_mid {A} (pre l rest : list A) x y i :
  i = (length pre + length l)%nat -> <[i := x]> (pre ++ l ++ y :: rest) = pre ++ l ++ x :: rest.
Proof. intros ->. rewrite insert_app_r. f_equal. rewrite <- (Nat.add_0_r (length l)).
  by rewrite insert_app_r. Qed.

(** The inner loop: the matching lines of the text in the buffer go out, and
    [p] ends at what follows the last newline. *)
Lemma grep_lines_spec pattern t junk s :
  Forall (fun c => c <> 0) t ->
  wp (grep_lines pattern (t ++ 0 :: junk)) s (fun r s' =>
    exists pre rest, r = (pre ++ rest ++ 0 :: junk, length pre) /\ rest = snd (split_lines t) /\
      Forall (fun c => c <> 0) rest /\
      (length pre + length rest = length t)%nat /\
      inp s' = inp s /\ outp s' = outp s ++ matching_lines pattern t).
Proof.
  intros Ht. unfold grep_lines.
  eapply (wp_loop_st (fun x s' => exists pre rest,
    x = (pre ++ rest ++ 0 :: junk, length pre) /\ (length pre + length rest = length t)%nat /\
    Forall (fun c => c <> 0) rest /\ snd (split_lines rest) = snd (split_lines t) /\
    inp s' = inp s /\ outp s' ++ matching_lines pattern rest = outp s ++ matching_lines pattern t)
    (fun x _ => (length t - snd x)%nat)).
  2: { exists [], t. by split_and!. }
  2: { cbn [snd]. rewrite length_app. cbn. lia. }
  intros [buf p] s' (pre & rest & [= -> ->] & Hlen & Hr & Hsnd & Hin & Hout). cbn beta iota.
  unfold strchr. rewrite drop_app_length. pose proof (strchr_from_spec rest junk (length pre) Hr) as Hq.
  destruct (strchr_from (rest ++ 0 :: junk) (length pre) NL) as [q|].
  - destruct Hq as (l & t' & -> & Hl & ->). apply Forall_app in Hr as [Hl0 Ht'].
    apply Forall_cons in Ht' as [_ Ht']. rewrite <- app_assoc. cbn [app].
    rewrite insert_mid by done. rewrite drop_app_length, cstring_app by done.
    rewrite split_lines_app in Hsnd by done. cbn [snd] in Hsnd.
    unfold matching_lines in Hout at 1. rewrite split_lines_app in Hout by done.
    cbn [fst] in Hout. rewrite filter_cons in Hout.
    rewrite !length_app in Hlen. cbn [length] in Hlen.
    assert (forall c, exists pre0 rest, (pre ++ l ++ c :: t' ++ 0 :: junk, S (length pre + length l)) =
      (pre0 ++ rest ++ 0 :: junk, length pre0) /\ (length pre0 + length rest = length t)%nat /\
      rest = t') as Hnext.
    { intros c. exists (pre ++ l ++ [c]), t'. rewrite !length_app. cbn. split_and!; [|lia|done].
      f_equal; [by rewrite <- !app_assoc|lia]. }
    destruct (match_ pattern l) eqn:Em; rewrite ?decide_True, ?decide_False in Hout by done.
    + rewrite insert_mid by done. rewrite drop_app_length.
      replace (take _ (l ++ NL :: _)) with (l ++ [NL])
        by (rewrite take_app, take_ge by lia; f_equal;
            by replace (length pre + length l + 1 - length pre - length l)%nat with 1%nat by lia).
      apply wp_bind, wp_write, wp_ret.
      split; [|cbn [snd]; lia].
      destruct (Hnext NL) as (pre0 & r & E & Hl' & ->). exists pre0, t'. split_and!; try done.
      cbn [outp map concat] in *. rewrite <- Hout. by rewrite <- !app_assoc.
    + apply wp_ret. split; [|cbn [snd]; lia].
      destruct (Hnext 0) as (pre0 & r & E & Hl' & ->). by exists pre0, t'.
  - apply wp_ret. exists pre, rest. rewrite split_lines_none in Hsnd by done. cbn [snd] in Hsnd.
    unfold matching_lines in Hout at 1. rewrite split_lines_none in Hout by done.
    cbn [fst filter list_filter map concat] in Hout. rewrite app_nil_r in Hout. by split_and!.
Qed.

Lemma split_lines_prefix part file :
  NL ∉ part ->
  split_lines (part ++ file) =
  match fst (split_lines file) with
  | [] => ([], part ++ snd (split_lines file))
  | x :: ls => ((part ++ x) :: ls, snd (split_lines file))
  end.
Proof.
  induction part as [|c part IH]; intros Hn; cbn [app split_lines].
  - by destruct (split_lines file) as [[|x ls] r].
  - apply not_elem_of_cons in Hn as [Hc Hn]. rewrite IH by done.
    destruct (c =? NL) eqn:E; [bool_simp; congruence|]. by destruct (split_lines file) as [[|x ls] r].
Qed.

(** A started line of a file whose lines fit leaves room to read. *)
Lemma lines_fit_part part file :
  NL ∉ part -> lines_fit (part ++ file) -> (length part + 2 <= BUFSZ)%nat.
Proof.
  intros Hn [Hf Hr]. rewrite split_lines_prefix in Hf, Hr by done.
  destruct (split_lines file) as [[|x ls] r]; cbn [fst snd] in *.
  - rewrite length_app in Hr. lia.
  - apply Forall_cons in Hf as [Hf _]. rewrite length_app in Hf. lia.
Qed.

Lemma lines_fit_rest a b : lines_fit (a ++ b) -> lines_fit (snd (split_lines a) ++ b).
Proof.
  unfold lines_fit. rewrite (split_lines_rest a b). cbn [fst snd]. intros [Hf Hr].
  by apply Forall_app in Hf as [_ Hf].
Qed.

Lemma matching_lines_rest pattern a b :
  matching_lines pattern (a ++ b) =
  matching_lines pattern a ++ matching_lines pattern (snd (split_lines a) ++ b).
Proof.
  unfold matching_lines. rewrite (split_lines_rest a b). cbn [fst].
  by rewrite filter_app, map_app, concat_app.
Qed.

Lemma splice_app part junk d :
  (length d <= length junk)%nat -> splice (part ++ junk) (length part) d = (part ++ d) ++ drop (length d) junk.
Proof.
  intros. unfold splice. rewrite take_app_length, drop_app_ge by lia. rewrite <- app_assoc. do 3 f_equal. lia.
Qed.

(** The buffer after [buf[m] = '\0']. *)
Lemma after_read part junk d :
  (length part + length d < length (part ++ junk))%nat ->
  exists junk', length junk = (length d + S (length junk'))%nat /\
    <[(length part + length d)%nat := 0]> (splice (part ++ junk) (length part) d) = (part ++ d) ++ 0 :: junk'.
Proof.
  rewrite length_app. intros Hl. rewrite splice_app by lia.
  destruct (drop (length d) junk) as [|y junk'] eqn:Ej; apply (f_equal length) in Ej as Ej';
    rewrite length_drop in Ej'; cbn [length] in Ej'; [lia|].
  exists junk'. split; [lia|]. apply (insert_mid [] (part ++ d) junk'). by rewrite length_app.
Qed.

(** C27. On a file without NULs whose lines fit the buffer, [grep] prints
    exactly the newline-terminated lines that match, in order, whatever the
    sizes of the reads, and it stops. *)
Theorem grep_prints_matching pattern buf fuel s :
  length buf = BUFSZ -> Forall (fun c => c <> 0) (inp s) -> lines_fit (inp s) ->
  (length (inp s) < fuel)%nat ->
  wp (grep fuel pattern buf) s (fun _ s' =>
    inp s' = [] /\ outp s' = outp s ++ matching_lines pattern (inp s)).
Proof.
  intros Hb H0 Hfit Hfuel. unfold grep.
  eapply (wp_loop_st (fun x s' => exists part junk,
    x = (part ++ junk, length part) /\ length (part ++ junk) = BUFSZ /\ (NL ∉ part) /\
    Forall (fun c => c <> 0) (part ++ inp s') /\ lines_fit (part ++ inp s') /\
    outp s' ++ matching_lines pattern (part ++ inp s') = outp s ++ matching_lines pattern (inp s))
    (fun _ s' => length (inp s'))); [|exists [], buf; split_and!; try done; apply not_elem_of_nil|done].
  intros [b m] s' (part & junk & [= -> ->] & Hlen & Hn & Hz & Hf & Hout). cbn beta iota.
  pose proof (lines_fit_part _ _ Hn Hf) as Hroom. rewrite length_app in Hlen.
  apply wp_bind. eapply wp_mono; [apply read_spec|]. cbn beta. intros d s1 (Hin & Ho & Hd & He).
  destruct d as [|c d].
  - apply wp_ret. destruct (He eq_refl) as [|E]; [lia|]. rewrite E in Hin. cbn in Hin.
    rewrite E, app_nil_r in Hout. unfold matching_lines in Hout at 1.
    rewrite split_lines_none in Hout by done. cbn in Hout. rewrite app_nil_r in Hout. by rewrite Ho.
  - set (dd := c :: d) in *.
    destruct (after_read part junk dd) as (junk' & Hj & ->); [rewrite length_app; lia|].
    rewrite Hin, app_assoc in Hz, Hf, Hout. apply Forall_app in Hz as [Hz1 Hz2].
    apply wp_bind. eapply wp_mono; [by apply grep_lines_spec|]. cbn beta.
    intros r s2 (pre & rest & -> & Hrest & Hr0 & Hl & Hin2 & Hout2). cbn beta iota.
    destruct (Nat.ltb_spec 0 (length part + length dd)) as [_|?]; [|subst dd; cbn in *; lia].
    apply wp_ret. rewrite length_app in Hl.
    replace (length part + length dd - length pre)%nat with (length rest) by lia.
    rewrite drop_app_length, take_app_length. split; [|rewrite Hin2, Hin, length_app; subst dd; cbn; lia].
    exists rest, (drop (length rest) (pre ++ rest ++ 0 :: junk')). rewrite Hin2.
    split_and!.
    + done.
    + rewrite length_app, length_drop, !length_app. cbn [length]. lia.
    + rewrite Hrest. apply split_lines_snd_notin.
    + by apply Forall_app.
    + rewrite Hrest. by apply lines_fit_rest.
    + rewrite Hout2, Ho, <- Hout, (matching_lines_rest pattern (part ++ dd)), <- Hrest.
      by rewrite <- !app_assoc.
Qed.

Lemma grep_prints_matching_witness :
  let s := Io (str "abc" ++ NL :: str "xyz" ++ [NL]) [1; 0; 7]%nat [] in
  length (replicate BUFSZ 0) = BUFSZ /\
  wp (grep 20 (str "b.*") (replicate BUFSZ 0)) s (fun _ s' =>
    inp s' = [] /\ outp s' = matching_lines (str "b.*") (inp s)).
Proof.
  split; [by rewrite length_replicate|].
  apply (grep_prints_matching (str "b.*") (replicate BUFSZ 0) 20).
  - by rewrite length_replicate.
  - repeat constructor; done.
  - unfold lines_fit, BUFSZ. change (split_lines _) with ([str "abc"; str "xyz"], @nil Z). cbn [fst snd].
    split; [|cbn; lia]. apply Forall_cons. split; [cbn; lia|]. apply Forall_singleton. cbn. lia.
  - cbn. lia.
Defined.
