(* ===== verification/Sh.v ===== *)
(** user/sh.c: the command parser.

    The command line is a buffer of characters and pointers into it are
    indices.  Commands are nodes of a heap that [malloc] extends, since
    [parseexec] fills in a node the redirections already point to. *)

From Stdlib Require Import Ascii.
From S2P Require Import Prelude.
From S2P Require Import UserIO.

(** ** Data *)

Definition MAXARGS : nat := 10.
Definition O_RDONLY : Z := 0.
Definition O_WRONLY : Z := 1.
Definition O_CREATE : Z := 512.
Definition O_TRUNC : Z := 1024.

(** [struct execcmd], [redircmd], [pipecmd], [listcmd] and [backcmd]; a null
    pointer of [argv] is [None]. *)
Inductive node :=
| EXEC (argv eargv : list (option nat))
| REDIR (cmd : nat) (file efile : nat) (mode fd : Z)
| PIPE (left right : nat)
| LIST (left right : nat)
| BACK (cmd : nat).

(** The line, the parser's position [*ps] in it, the nodes, and how many
    more nodes memory has room for. *)
Record parser := Parser { line : list Z; pos : nat; nodes : list node; room : nat }.
Abbreviation P := (M parser).

Definition set_pos (i : nat) (s : parser) : parser := Parser (line s) i (nodes s) (room s).
Definition set_nodes (h : list node) (s : parser) : parser := Parser (line s) (pos s) h (room s).
Definition set_line (b : list Z) (s : parser) : parser := Parser b (pos s) (nodes s) (room s).

(** [line[i]]; outside the buffer the access is undefined. *)
Definition char_at (i : nat) : P Z := fun s =>
  match line s !! i with Some c => Ok (c, s) | None => Crash end.

(** ** Constructors *)

(** [malloc] and [memset], then the fields: [memset] of a null pointer when
    [malloc] fails. *)
Definition new_node (n : node) : P nat := fun s =>
  match room s with
  | O => Crash
  | S r => Ok (length (nodes s), Parser (line s) (pos s) (nodes s ++ [n]) r)
  end.

Definition execcmd : P nat := new_node (EXEC (replicate MAXARGS None) (replicate MAXARGS None)).
Definition redircmd (subcmd file efile : nat) (mode fd : Z) : P nat :=
  new_node (REDIR subcmd file efile mode fd).
Definition pipecmd (left right : nat) : P nat := new_node (PIPE left right).
Definition listcmd (left right : nat) : P nat := new_node (LIST left right).
Definition backcmd (subcmd : nat) : P nat := new_node (BACK subcmd).

(** ** Tokens *)

Definition whitespace : list Z := [32; 9; 13; 10; 11].
Definition symbols : list Z := str "<|>&;()".

(** [strchr] as a test. *)
Definition member (c : Z) (l : list Z) : bool := existsb (Z.eqb c) l.

(** [while(s < es && test( *s )) s++]. *)
Definition skip_while (test : Z -> bool) (es s : nat) : P nat :=
  loop (S es) (fun s =>
    if (s <? es)%nat then
      c <- char_at s ;;
      if test c then ret (inl (S s)) else ret (inr s)
    else ret (inr s)) s.

Definition skip_space (es s : nat) : P nat := skip_while (fun c => member c whitespace) es s.

(** [gettoken(ps, es, &q, &eq)]: the token, [q] and [eq]. *)
Definition gettoken (es : nat) : P (Z * nat * nat) :=
  s <- gets pos ;;
  s <- skip_space es s ;;
  let q := s in
  c <- char_at s ;;
  r <- (if c =? 0 then ret (c, s)
        else if member c (str "|();&<") then ret (c, S s)
        else if c =? ch ">" then
          c1 <- char_at (S s) ;;
          if c1 =? ch ">" then ret (ch "+", S (S s)) else ret (c, S s)
        else
          s <- skip_while (fun c => negb (member c whitespace) && negb (member c symbols)) es s ;;
          ret (ch "a", s)) ;;
  let '(tok, s) := r in
  let eq := s in
  s <- skip_space es s ;;
  modify (set_pos s) >>>
  ret (tok, q, eq).

Definition peek (es : nat) (toks : list Z) : P bool :=
  s <- gets pos ;;
  s <- skip_space es s ;;
  modify (set_pos s) >>>
  c <- char_at s ;;
  ret (negb (c =? 0) && member c toks).

(** ** Parsing *)

Definition parseredirs (es : nat) (cmd : nat) : P nat :=
  loop (S es) (fun cmd =>
    b <- peek es (str "<>") ;;
    if b then
      r <- gettoken es ;;
      let '(tok, _, _) := r in
      r <- gettoken es ;;
      let '(w, q, eq) := r in
      if negb (w =? ch "a") then panic "missing file for redirection"
      else if tok =? ch "<" then cmd <- redircmd cmd q eq O_RDONLY 0 ;; ret (inl cmd)
      else if tok =? ch ">" then
        cmd <- redircmd cmd q eq (Z.lor O_WRONLY (Z.lor O_CREATE O_TRUNC)) 1 ;; ret (inl cmd)
      else if tok =? ch "+" then
        cmd <- redircmd cmd q eq (Z.lor O_WRONLY O_CREATE) 1 ;; ret (inl cmd)
      else ret (inl cmd)
    else ret (inr cmd)) cmd.

(** [cmd->argv[i] = q; cmd->eargv[i] = eq]. *)
Definition set_arg (cmd i : nat) (q eq : option nat) : P unit := fun s =>
  match nodes s !! cmd with
  | Some (EXEC argv eargv) =>
      if (i <? MAXARGS)%nat
      then Ok (tt, set_nodes (<[cmd := EXEC (<[i := q]> argv) (<[i := eq]> eargv)]> (nodes s)) s)
      else Crash
  | _ => Crash
  end.

(** [parseexec], given the parser of a block. *)
Definition parseexec (parseblock : P nat) (es : nat) : P nat :=
  b <- peek es (str "(") ;;
  if b then parseblock
  else
    cmd <- execcmd ;;
    r <- parseredirs es cmd ;;
    loop (S es) (fun '(r, argc) =>
      b <- peek es (str "|)&;") ;;
      if b then set_arg cmd argc None None >>> ret (inr r)
      else
        t <- gettoken es ;;
        let '(tok, q, eq) := t in
        if tok =? 0 then set_arg cmd argc None None >>> ret (inr r)
        else if negb (tok =? ch "a") then panic "syntax"
        else
          set_arg cmd argc (Some q) (Some eq) >>>
          let argc := S argc in
          if (MAXARGS <=? argc)%nat then panic "too many args"
          else r <- parseredirs es r ;; ret (inl (r, argc))) (r, 0%nat).

(** [parsepipe], given [parseexec]. *)
Fixpoint parsepipe (fuel : nat) (exec : P nat) (es : nat) : P nat :=
  match fuel with
  | O => fun _ => NoFuel
  | S f =>
      cmd <- exec ;;
      b <- peek es (str "|") ;;
      if b then
        gettoken es >>>
        right <- parsepipe f exec es ;;
        pipecmd cmd right
      else ret cmd
  end.

(** [parseblock], given [parseline]. *)
Definition parseblock (parseline : P nat) (es : nat) : P nat :=
  b <- peek es (str "(") ;;
  if negb b then panic "parseblock"
  else
    gettoken es >>>
    cmd <- parseline ;;
    b <- peek es (str ")") ;;
    if negb b then panic "syntax - missing )"
    else gettoken es >>> parseredirs es cmd.

(** [while(peek(ps, es, "&"))]. *)
Definition parse_backs (es : nat) (cmd : nat) : P nat :=
  loop (S es) (fun cmd =>
    b <- peek es (str "&") ;;
    if b then gettoken es >>> cmd <- backcmd cmd ;; ret (inl cmd) else ret (inr cmd)) cmd.

Fixpoint parseline (fuel : nat) (es : nat) : P nat :=
  match fuel with
  | O => fun _ => NoFuel
  | S f =>
      cmd <- parsepipe fuel (parseexec (parseblock (parseline f es) es) es) es ;;
      cmd <- parse_backs es cmd ;;
      b <- peek es (str ";") ;;
      if b then
        gettoken es >>>
        right <- parseline f es ;;
        listcmd cmd right
      else ret cmd
  end.

(** [*p = 0]. *)
Definition put_nul (p : nat) : P unit := fun s =>
  if (p <? length (line s))%nat then Ok (tt, set_line (<[p := 0]> (line s)) s) else Crash.

Definition get_node (p : nat) : P node := fun s =>
  match nodes s !! p with Some n => Ok (n, s) | None => Crash end.

(** [for(i = 0; ecmd->argv[i]; i++) *ecmd->eargv[i] = 0]. *)
Fixpoint nul_args (argv eargv : list (option nat)) : P unit :=
  match argv with
  | [] => crash
  | None :: _ => ret tt
  | Some _ :: argv' =>
      match eargv with
      | Some e :: eargv' => put_nul e >>> nul_args argv' eargv'
      | _ => crash
      end
  end.

(** [fuel] bounds the depth of the tree. *)
Fixpoint nulterminate (fuel : nat) (cmd : nat) : P unit :=
  match fuel with
  | O => fun _ => NoFuel
  | S f =>
      n <- get_node cmd ;;
      match n with
      | EXEC argv eargv => nul_args argv eargv
      | REDIR sub _ efile _ _ => nulterminate f sub >>> put_nul efile
      | PIPE l r => nulterminate f l >>> nulterminate f r
      | LIST l r => nulterminate f l >>> nulterminate f r
      | BACK c => nulterminate f c
      end
  end.

(** [strlen(s)]: the index of the NUL; a line without one is read past its
    end. *)
Definition line_strlen : P nat := fun s =>
  if (length (cstring (line s)) <? length (line s))%nat then Ok (length (cstring (line s)), s) else Crash.

(** The text of the message on leftovers is not kept, only the panic. *)
Definition parsecmd (fuel : nat) : P nat :=
  es <- line_strlen ;;
  cmd <- parseline fuel es ;;
  peek es [] >>>
  s <- gets pos ;;
  if negb (s =? es)%nat then panic "syntax"
  else nulterminate fuel cmd >>> ret cmd.
