(* ===== verification/ShSpec.v ===== *)
(** The command language of user/sh.c and what its parser does.

    [lex] is the token list of a line, the relations [line_g], [pipe_g] and
    [exec_g] are the grammar on tokens, [r_line] is a reference parser on
    tokens.  The parser of sh.c computes what the reference parser does
    ([parseline_refines]) and the reference parser accepts exactly the
    grammar. *)

From Stdlib Require Import Ascii.
From S2P Require Import Prelude.
From S2P Require Import UserIO.
From S2P Require Import Sh.

(** ** Tokens *)

Inductive token := TWord (w : list Z) | TSym (c : Z) | TApp.

Definition is_space (c : Z) : bool := member c whitespace.
Definition is_symbol (c : Z) : bool := member c symbols.
(** The characters of words. *)
Definition plain (c : Z) : bool := negb (c =? 0) && negb (is_space c) && negb (is_symbol c).

Fixpoint lex (l : list Z) : list token :=
  match l with
  | [] => []
  | c :: l' =>
      if is_space c then lex l'
      else if c =? ch ">" then
        match l' with
        | c1 :: l'' => if c1 =? ch ">" then TApp :: lex l'' else TSym c :: lex l'
        | [] => [TSym c]
        end
      else if is_symbol c then TSym c :: lex l'
      else
        match l' with
        | c1 :: _ =>
            if plain c1 then
              match lex l' with TWord w :: ts => TWord (c :: w) :: ts | ts => TWord [c] :: ts end
            else TWord [c] :: lex l'
        | [] => [TWord [c]]
        end
  end.

(** What [gettoken] returns for a token. *)
Definition code (t : token) : Z :=
  match t with TWord _ => ch "a" | TSym c => c | TApp => ch "+" end.

(** The first character of a token, if it is a symbol. *)
Definition first_sym (t : token) : option Z :=
  match t with TWord _ => None | TSym c => Some c | TApp => Some (ch ">") end.

Definition starts (ts : list token) (toks : list Z) : bool :=
  match ts with
  | t :: _ => match first_sym t with Some c => member c toks | None => false end
  | [] => false
  end.

(** ** Abstract commands *)

Inductive cmd :=
| CExec (argv : list (list Z))
| CRedir (c : cmd) (file : list Z) (mode fd : Z)
| CPipe (l r : cmd)
| CList (l r : cmd)
| CBack (c : cmd).

Definition redir : Type := list Z * Z * Z.
Definition wrap (rs : list redir) (c : cmd) : cmd :=
  foldr (fun '(f, mode, fd) c => CRedir c f mode fd) c rs.

(** The mode and descriptor of a redirection operator. *)
Definition redir_of (t : token) : option (Z * Z) :=
  match t with
  | TWord _ => None
  | TApp => Some (Z.lor O_WRONLY O_CREATE, 1)
  | TSym c =>
      if c =? ch "<" then Some (O_RDONLY, 0)
      else if c =? ch ">" then Some (Z.lor O_WRONLY (Z.lor O_CREATE O_TRUNC), 1)
      else None
  end.

(** ** The grammar *)

(** Redirections, the last one outermost. *)
Inductive redirs_g : list token -> list redir -> Prop :=
| redirs_nil : redirs_g [] []
| redirs_cons t f mode fd ts rs :
    redir_of t = Some (mode, fd) -> redirs_g ts rs -> redirs_g (t :: TWord f :: ts) (rs ++ [(f, mode, fd)]).

(** A simple command: words and redirections in any order. *)
Inductive simple_g : list token -> list redir -> list (list Z) -> Prop :=
| simple_nil : simple_g [] [] []
| simple_word w ts rs ws : simple_g ts rs ws -> simple_g (TWord w :: ts) rs (w :: ws)
| simple_redir t f mode fd ts rs ws :
    redir_of t = Some (mode, fd) -> simple_g ts rs ws ->
    simple_g (t :: TWord f :: ts) (rs ++ [(f, mode, fd)]) ws.

Definition backs (n : nat) (c : cmd) : cmd := Nat.iter n CBack c.

Inductive line_g : list token -> cmd -> Prop :=
| line_one ts c n : pipe_g ts c -> line_g (ts ++ replicate n (TSym (ch "&"))) (backs n c)
| line_seq ts c n ts' c' :
    pipe_g ts c -> line_g ts' c' ->
    line_g (ts ++ replicate n (TSym (ch "&")) ++ TSym (ch ";") :: ts') (CList (backs n c) c')
with pipe_g : list token -> cmd -> Prop :=
| pipe_one ts c : exec_g ts c -> pipe_g ts c
| pipe_more ts c ts' c' :
    exec_g ts c -> pipe_g ts' c' -> pipe_g (ts ++ TSym (ch "|") :: ts') (CPipe c c')
with exec_g : list token -> cmd -> Prop :=
| exec_simple ts rs ws :
    simple_g ts rs ws -> (length ws < MAXARGS)%nat -> exec_g ts (wrap rs (CExec ws))
| exec_block ts c ts' rs :
    line_g ts c -> redirs_g ts' rs ->
    exec_g (TSym (ch "(") :: ts ++ TSym (ch ")") :: ts') (wrap rs c).

(** ** The reference parser *)

Fixpoint r_redirs (ts : list token) (rs : list redir) : string + (list redir * list token) :=
  match ts with
  | t :: ts1 =>
      match redir_of t with
      | Some (mode, fd) =>
          match ts1 with
          | TWord f :: ts2 => r_redirs ts2 ((f, mode, fd) :: rs)
          | _ => inl "missing file for redirection"%string
          end
      | None => inr (rs, ts)
      end
  | [] => inr (rs, [])
  end.

Fixpoint r_simple (ts : list token) (rs : list redir) (ws : list (list Z)) : string + (cmd * list token) :=
  match ts with
  | t :: ts1 =>
      match redir_of t with
      | Some (mode, fd) =>
          match ts1 with
          | TWord f :: ts2 => r_simple ts2 ((f, mode, fd) :: rs) ws
          | _ => inl "missing file for redirection"%string
          end
      | None =>
          if starts ts (str "|)&;") then inr (wrap rs (CExec ws), ts)
          else
            match t with
            | TWord w =>
                if (MAXARGS <=? S (length ws))%nat then inl "too many args"%string
                else r_simple ts1 rs (ws ++ [w])
            | _ => inl "syntax"%string
            end
      end
  | [] => inr (wrap rs (CExec ws), [])
  end.

Definition then_ {A B} (r : string + A) (f : A -> string + B) : string + B :=
  match r with inl e => inl e | inr a => f a end.

Definition r_block (rl : list token -> string + (cmd * list token)) (ts : list token) :=
  then_ (rl (tail ts)) (fun '(c, ts) =>
    if starts ts (str ")") then
      then_ (r_redirs (tail ts) []) (fun '(rs, ts) => inr (wrap rs c, ts))
    else inl "syntax - missing )"%string).

Definition r_exec (rl : list token -> string + (cmd * list token)) (ts : list token) :=
  if starts ts (str "(") then r_block rl ts else r_simple ts [] [].

Fixpoint r_pipe (fuel : nat) (re : list token -> string + (cmd * list token)) (ts : list token) :=
  match fuel with
  | O => inl "fuel"%string
  | S f =>
      then_ (re ts) (fun '(c, ts) =>
        if starts ts (str "|")
        then then_ (r_pipe f re (tail ts)) (fun '(c', ts) => inr (CPipe c c', ts))
        else inr (c, ts))
  end.

Fixpoint r_backs (ts : list token) (c : cmd) : cmd * list token :=
  match ts with
  | t :: ts' => if starts ts (str "&") then r_backs ts' (CBack c) else (c, ts)
  | [] => (c, [])
  end.

Fixpoint r_line (fuel : nat) (ts : list token) : string + (cmd * list token) :=
  match fuel with
  | O => inl "fuel"%string
  | S f =>
      then_ (r_pipe fuel (r_exec (r_line f)) ts) (fun '(c, ts) =>
        let '(c, ts) := r_backs ts c in
        if starts ts (str ";")
        then then_ (r_line f (tail ts)) (fun '(c', ts) => inr (CList c c', ts))
        else inr (c, ts))
  end.

(** ** Lexing *)

(** The list is empty or its head fails the test. *)
Definition no_head (test : Z -> bool) (l : list Z) : Prop :=
  match l with c :: _ => test c = false | [] => True end.

Lemma lex_space a r : Forall (fun c => is_space c = true) a -> lex (a ++ r) = lex r.
Proof. induction 1 as [|c a Hc _ IH]; [done|]. cbn [app lex]. by rewrite Hc. Qed.

Lemma plain_iff c : plain c = true <-> c <> 0 /\ is_space c = false /\ is_symbol c = false.
Proof. unfold plain. rewrite !andb_true_iff, !negb_true_iff, Z.eqb_neq. tauto. Qed.

Lemma not_symbol_gt c : is_symbol c = false -> (c =? ch ">") = false.
Proof. intros Hc. apply Z.eqb_neq. by intros ->. Qed.

Lemma lex_word w r :
  w <> [] -> Forall (fun c => plain c = true) w -> no_head plain r -> lex (w ++ r) = TWord w :: lex r.
Proof.
  intros Hw Hp Hr. induction Hp as [|c w Hc Hp IH]; [done|].
  apply plain_iff in Hc as (_ & Hs & Hy). cbn [app lex]. rewrite Hs, (not_symbol_gt _ Hy), Hy.
  destruct w as [|c1 w].
  - cbn [app]. destruct r as [|c1 r]; [done|]. cbn [no_head] in Hr. by rewrite Hr.
  - inversion Hp as [|? ? Hc1 _]; subst. cbn [app]. rewrite Hc1. change (c1 :: w ++ r) with ((c1 :: w) ++ r).
    by rewrite IH.
Qed.

Lemma not_member c tk :
  Forall (fun x => is_symbol x = true) tk -> is_symbol c = false -> member c tk = false.
Proof.
  intros Htk Hc. induction Htk as [|x tk Hx _ IH]; [done|]. cbn.
  destruct (c =? x) eqn:E; [bool_simp; congruence|done].
Qed.

Lemma drop_tail_of {A} i (l : list A) c r : drop i l = c :: r -> drop (S i) l = r.
Proof. intros E. by rewrite <- Nat.add_1_r, <- drop_drop, E. Qed.

Lemma drop_cons_lt {A} i (l : list A) c r : drop i l = c :: r -> (i < length l)%nat.
Proof. intros E. apply (f_equal length) in E. rewrite length_drop in E. cbn in E. lia. Qed.

Section line.
Context (txt junk : list Z) (Htxt : Forall (fun c => c <> 0) txt).
Let es := length txt.

(** The parser works on this line, and is within it. *)
Definition on_line (s : parser) : Prop := line s = txt ++ 0 :: junk /\ (pos s <= es)%nat.

(** The tokens from the current position. *)
Definition toks (s : parser) : list token := lex (drop (pos s) txt).

(** Characters [[q, e)] are the word [w], and it ends there. *)
Definition word_at (q e : nat) (w : list Z) : Prop :=
  drop q txt = w ++ drop e txt /\ e = (q + length w)%nat /\ (e <= es)%nat /\
  w <> [] /\ Forall (fun c => plain c = true) w /\ no_head plain (drop e txt).

Lemma drop_nonzero i c r : drop i txt = c :: r -> c <> 0.
Proof. intros E. apply (Forall_drop _ i) in Htxt. rewrite E in Htxt. by apply Forall_cons in Htxt as [? _]. Qed.

Lemma char_in s i (Q : Z -> parser -> Prop) :
  line s = txt ++ 0 :: junk -> (i <= es)%nat ->
  match drop i txt with c :: _ => Q c s | [] => Q 0 s end -> wp (char_at i) s Q.
Proof.
  intros Hl Hi HQ. unfold wp, char_at. rewrite Hl.
  destruct (drop i txt) as [|c r] eqn:E.
  - apply (f_equal length) in E. rewrite length_drop in E. cbn in E.
    replace i with (length txt + 0)%nat by (subst es; lia). by rewrite lookup_app_r, Nat.add_sub' by lia.
  - assert (txt !! i = Some c) as Hc.
    { rewrite <- (take_drop i txt), E. rewrite lookup_app_r; rewrite length_take; [|lia].
      replace (i - i `min` length txt)%nat with 0%nat by (subst es; lia). done. }
    rewrite lookup_app_l by (by apply lookup_lt_Some in Hc). by rewrite Hc.
Qed.

Lemma skip_while_spec test s i :
  line s = txt ++ 0 :: junk -> (i <= es)%nat ->
  wp (skip_while test es i) s (fun j s' =>
    s' = s /\ (j <= es)%nat /\ exists a, drop i txt = a ++ drop j txt /\ j = (i + length a)%nat /\
      Forall (fun c => test c = true) a /\ no_head test (drop j txt)).
Proof.
  intros Hl Hi. unfold skip_while.
  apply (wp_loop_st (fun j s' => s' = s /\ (j <= es)%nat /\
    exists a, drop i txt = a ++ drop j txt /\ j = (i + length a)%nat /\ Forall (fun c => test c = true) a)
    (fun j _ => (es - j)%nat)).
  - intros j s' (-> & Hj & a & Ha & -> & Hall). destruct (Nat.ltb_spec (i + length a) es) as [Hlt|Hge].
    + apply wp_bind, char_in; [done|lia|].
      destruct (drop (i + length a) txt) as [|c r] eqn:E.
      { apply (f_equal length) in E. rewrite length_drop in E. cbn in E. subst es. lia. }
      assert (drop (S (i + length a)) txt = r) as Er by (by apply drop_tail_of in E).
      destruct (test c) eqn:Et; apply wp_ret.
      * split; [|lia]. split_and!; [done|lia|]. exists (a ++ [c]). rewrite Er, <- app_assoc, length_app. cbn.
        split_and!; [done|lia|]. apply Forall_app. split; [done|]. by apply Forall_singleton.
      * split_and!; [done|lia|]. exists a. rewrite E. by split_and!.
    + apply wp_ret. split_and!; [done|lia|]. exists a.
      rewrite (drop_ge txt (i + length a)) in * by (subst es; lia). by split_and!.
  - split_and!; [done|done|]. exists []. by rewrite Nat.add_0_r.
  - subst es. lia.
Qed.
Lemma set_pos_self s : s = set_pos (pos s) s.
Proof. by destruct s. Qed.

(** Skipping spaces keeps the tokens. *)
Lemma skip_space_spec s i :
  line s = txt ++ 0 :: junk -> (i <= es)%nat ->
  wp (skip_space es i) s (fun j s' =>
    s' = s /\ (i <= j <= es)%nat /\ lex (drop j txt) = lex (drop i txt) /\ no_head is_space (drop j txt)).
Proof.
  intros Hl Hi. eapply wp_mono; [by apply skip_while_spec|]. cbn beta.
  intros j s' (-> & Hj & a & -> & -> & Ha & Hn). rewrite lex_space by done.
  split_and!; [done|lia|lia|done|done].
Qed.

Lemma peek_spec tk s :
  on_line s -> Forall (fun c => is_symbol c = true) tk ->
  wp (peek es tk) s (fun b s' =>
    s' = set_pos (pos s') s /\ on_line s' /\ toks s' = toks s /\ b = starts (toks s) tk /\
    no_head is_space (drop (pos s') txt)).
Proof.
  intros [Hl Hp] Htk. unfold peek. wp_step. wp_step. apply wp_bind.
  eapply wp_mono; [by apply skip_space_spec|]. cbn beta. intros j s' (-> & Hj & Hlex & Hn).
  wp_steps. apply char_in; [done|lia|]. unfold toks, on_line. cbn [pos set_pos line]. rewrite <- Hlex.
  destruct (drop j txt) as [|c r] eqn:E; wp_steps; cbn [pos set_pos line]; rewrite ?E;
    split_and!; try done; try lia.
  pose proof (drop_nonzero _ _ _ E) as Hc.
  rewrite (proj2 (Z.eqb_neq c 0)) by done. cbn [negb andb no_head] in *. cbn [lex]. rewrite Hn.
  destruct (c =? ch ">") eqn:Eg.
  - bool_simp. subst c. destruct r as [|c1 r]; [done|]. by destruct (c1 =? ch ">").
  - destruct (is_symbol c) eqn:Ey; [done|].
    transitivity false; [|destruct r as [|c1 r]; [done|destruct (plain c1); [|done];
      by destruct (lex (c1 :: r)) as [|[]]]].
    by apply not_member.
Qed.
Lemma symbol_one c : member c (str "|();&<") = true -> is_symbol c = true /\ (c =? ch ">") = false.
Proof.
  intros E. cbn in E. rewrite !orb_true_iff, !Z.eqb_eq in E.
  by destruct E as [->|[->|[->|[->|[->|[->|?]]]]]].
Qed.

Lemma symbol_split c :
  member c (str "|();&<") = false -> (c =? ch ">") = false -> is_symbol c = false.
Proof.
  cbn. rewrite !orb_false_iff. intros (E1 & E2 & E3 & E4 & E5 & E6 & _) E7.
  by rewrite E1, E2, E3, E4, E5, E6, E7.
Qed.

(** The scan of a word. *)
Lemma word_end s i c r :
  line s = txt ++ 0 :: junk -> drop i txt = c :: r -> is_space c = false -> is_symbol c = false ->
  wp (skip_while (fun c => negb (member c whitespace) && negb (member c symbols)) es i) s (fun j s' =>
    s' = s /\ exists a, word_at i j a /\ lex (drop i txt) = TWord a :: lex (drop j txt)).
Proof.
  intros Hl E Hs Hy. pose proof (drop_cons_lt _ _ _ _ E) as Hlt. fold es in Hlt.
  eapply wp_mono; [apply skip_while_spec; [done|lia]|]. cbn beta. intros j s' (-> & Hj & a & Ha & -> & Hall & Hn).
  assert (Hplain : Forall (fun c => plain c = true) a).
  { assert (Forall (fun c => c <> 0) a) as Hz.
    { apply (Forall_drop _ i) in Htxt. rewrite Ha in Htxt. by apply Forall_app in Htxt as [? _]. }
    apply Forall_forall. intros x Hx. rewrite Forall_forall in Hall, Hz. apply plain_iff.
    specialize (Hall x Hx). specialize (Hz x Hx). bool_simp. done. }
  assert (a <> []) as Hne.
  { intros ->. rewrite Nat.add_0_r, E in Hn. cbn [no_head] in Hn. fold (is_space c) (is_symbol c) in Hn.
    by rewrite Hs, Hy in Hn. }
  assert (no_head plain (drop (i + length a) txt)) as Hnp.
  { destruct (drop (i + length a) txt) as [|x r'] eqn:Ex; [done|]. cbn [no_head] in *. unfold plain.
    fold (is_space x) (is_symbol x) in Hn. rewrite <- andb_assoc, Hn. by destruct (negb (x =? 0)). }
  split; [done|]. exists a. split; [by split_and!|]. rewrite Ha at 1. by apply lex_word.
Qed.

Lemma lex_gt c1 r :
  lex (ch ">" :: c1 :: r) = if c1 =? ch ">" then TApp :: lex r else TSym (ch ">") :: lex (c1 :: r).
Proof. done. Qed.

(** The first token of a text that starts with a character of one. *)
Lemma gettoken_spec s :
  on_line s ->
  wp (gettoken es) s (fun '(tok, q, e) s' =>
    s' = set_pos (pos s') s /\ on_line s' /\
    match toks s with
    | [] => tok = 0 /\ toks s' = []
    | t :: ts => tok = code t /\ toks s' = ts /\ (forall w, t = TWord w -> word_at q e w)
    end).
Proof.
  intros [Hl Hp]. unfold gettoken. wp_step. wp_step. apply wp_bind.
  eapply wp_mono; [by apply skip_space_spec|]. cbn beta. intros i s' (-> & Hi & Hlex & Hn).
  wp_step. apply char_in; [done|lia|]. change (toks s) with (lex (drop (pos s) txt)). rewrite <- Hlex.
  (* the token proper ends at [j] *)
  assert (Hend : forall tok j, (j <= es)%nat ->
    match lex (drop i txt) with
    | [] => tok = 0 /\ lex (drop j txt) = []
    | t :: ts => tok = code t /\ lex (drop j txt) = ts /\ (forall w, t = TWord w -> word_at i j w)
    end ->
    wp (s0 <- skip_space es j ;; modify (set_pos s0) >>> ret (tok, i, j)) s (fun '(tok, q, e) s' =>
    s' = set_pos (pos s') s /\ on_line s' /\
    match lex (drop i txt) with
    | [] => tok = 0 /\ toks s' = []
    | t :: ts => tok = code t /\ toks s' = ts /\ (forall w, t = TWord w -> word_at q e w)
    end)).
  { intros tok j Hj Hm. apply wp_bind. eapply wp_mono; [by apply skip_space_spec|]. cbn beta.
    intros k s' (-> & Hk & Hlex' & _). wp_steps. unfold toks, on_line. cbn [pos set_pos line].
    rewrite Hlex'. split_and!; [done|done|lia|done]. }
  destruct (drop i txt) as [|c r] eqn:E; [apply wp_bind, wp_ret, Hend; [lia|by rewrite E]|].
  pose proof (drop_nonzero _ _ _ E) as Hc. pose proof (drop_cons_lt _ _ _ _ E) as Hlt.
  pose proof (drop_tail_of _ _ _ _ E) as Er. fold es in Hlt.
  apply wp_bind. rewrite (proj2 (Z.eqb_neq c 0)) by done. cbn [no_head] in Hn.
  destruct (member c (str "|();&<")) eqn:Es; [|destruct (c =? ch ">") eqn:Eg].
  - apply wp_ret, Hend; [lia|]. rewrite Er. cbn [lex]. rewrite Hn.
    destruct (symbol_one _ Es) as [-> ->]. by split_and!.
  - bool_simp. subst c. apply wp_bind, char_in; [done|lia|]. rewrite Er. destruct r as [|c1 r].
    + change (0 =? ch ">") with false. apply wp_ret, Hend; [lia|]. by rewrite Er.
    + pose proof (drop_cons_lt _ _ _ _ Er) as Hlt1. pose proof (drop_tail_of _ _ _ _ Er) as Er1. fold es in Hlt1.
      rewrite lex_gt in Hend. rewrite lex_gt.
      destruct (c1 =? ch ">"); apply wp_ret, Hend; try lia; rewrite ?Er1, ?Er; by split_and!.
  - apply wp_bind. eapply wp_mono; [apply (word_end s i c r Hl E Hn (symbol_split _ Es Eg))|]. cbn beta.
    intros j s' (-> & a & Hw & Hlexw). apply wp_ret. rewrite E in Hlexw. rewrite Hlexw in Hend |- *.
    apply Hend; [apply Hw|]. split_and!; [done|done|]. by intros w [= <-].
Qed.
End line.
