(* ===== verification/ShParse.v ===== *)
(** The parser of user/sh.c computes what the reference parser on tokens
    does: same errors, and a tree of nodes that represents the same command. *)

From Stdlib Require Import Ascii.
From S2P Require Import Prelude.
From S2P Require Import UserIO.
From S2P Require Import Sh.
From S2P Require Import ShSpec.

(** ** Facts on tokens *)

(** Symbol tokens are symbols. *)
Definition tok_ok (t : token) : Prop :=
  match t with TSym c => is_symbol c = true | _ => True end.

Lemma lex_ok l : Forall tok_ok (lex l).
Proof.
  induction l as [l IH] using (induction_ltof1 _ (@length Z)). unfold ltof in IH.
  destruct l as [|c l]; [constructor|]. cbn [lex].
  assert (Hl : Forall tok_ok (lex l)) by (apply IH; cbn; lia).
  destruct (is_space c); [done|].
  destruct (c =? ch ">") eqn:Eg.
  { bool_simp. subst c. destruct l as [|c1 l]; [by repeat constructor|].
    destruct (c1 =? ch ">"); constructor; try done. apply IH. cbn. lia. }
  destruct (is_symbol c) eqn:Ey; [by constructor|].
  destruct l as [|c1 l]; [by repeat constructor|].
  destruct (plain c1); [|by constructor].
  destruct (lex (c1 :: l)) as [|[] ts]; by repeat constructor || (inversion Hl; subst; by repeat constructor).
Qed.

Lemma lex_length l : (length (lex l) <= length l)%nat.
Proof.
  induction l as [l IH] using (induction_ltof1 _ (@length Z)). unfold ltof in IH.
  destruct l as [|c l]; [done|]. cbn [lex].
  assert (Hl : (length (lex l) <= length l)%nat) by (apply IH; cbn; lia).
  destruct (is_space c); [cbn; lia|].
  destruct (c =? ch ">").
  { destruct l as [|c1 l]; [cbn; lia|].
    assert (length (lex l) <= length l)%nat by (apply IH; cbn; lia).
    destruct (c1 =? ch ">"); cbn [length] in *; lia. }
  destruct (is_symbol c); [cbn [length]; lia|].
  destruct l as [|c1 l]; [cbn; lia|].
  destruct (plain c1); [|cbn [length] in *; lia].
  destruct (lex (c1 :: l)) as [|[] ts]; cbn [length] in *; lia.
Qed.

(** Only words have code ['a'], and no token has code 0. *)
Lemma code_word t : tok_ok t -> (code t =? ch "a") = match t with TWord _ => true | _ => false end.
Proof.
  destruct t as [w|c|]; try done. cbn [tok_ok code]. intros Hc. apply Z.eqb_neq. by intros ->.
Qed.

Lemma code_nonzero t : tok_ok t -> (code t =? 0) = false.
Proof.
  destruct t as [w|c|]; try done. cbn [tok_ok code]. intros Hc. apply Z.eqb_neq. by intros ->.
Qed.

(** [starts] with one symbol. *)
Lemma starts_one ts c :
  c <> ch ">" -> starts ts [c] = true -> exists ts', ts = TSym c :: ts'.
Proof.
  intros Hne. destruct ts as [|[w|d|] ts]; try done; cbn [starts first_sym member existsb].
  - rewrite orb_false_r, Z.eqb_eq. intros ->. by exists ts.
  - rewrite orb_false_r, Z.eqb_eq. by intros <-.
Qed.

(** A redirection operator, by its code. *)
Lemma starts_redir t ts :
  starts (t :: ts) (str "<>") = match redir_of t with Some _ => true | None => false end.
Proof.
  destruct t as [w|c|]; try done. cbn [starts first_sym member existsb str redir_of].
  destruct (c =? ch "<"), (c =? ch ">"); done.
Qed.

Section heap.
Context (txt junk : list Z) (Htxt : Forall (fun c => c <> 0) txt).
Abbreviation es := (length txt).
Abbreviation toks := (toks txt).
Abbreviation word_at := (word_at txt).

(** ** Nodes that represent a command *)

(** [argv] and [eargv] delimit the words [ws]. *)
Definition args_at (ws : list (list Z)) (argv eargv : list (option nat)) : Prop :=
  exists qs, Forall2 (fun qe w => word_at (fst qe) (snd qe) w) qs ws /\
    argv = map (fun qe => Some (fst qe)) qs ++ replicate (MAXARGS - length qs) None /\
    eargv = map (fun qe => Some (snd qe)) qs ++ replicate (MAXARGS - length qs) None.

Definition exec_at (h : list node) (ws : list (list Z)) (n : nat) : Prop :=
  exists argv eargv, h !! n = Some (EXEC argv eargv) /\ args_at ws argv eargv /\ (length ws < MAXARGS)%nat.

Fixpoint rep (h : list node) (c : cmd) (n : nat) : Prop :=
  match c with
  | CExec ws => exec_at h ws n
  | CRedir c f mode fd => exists sub q e, h !! n = Some (REDIR sub q e mode fd) /\ word_at q e f /\ rep h c sub
  | CPipe l r => exists a b, h !! n = Some (PIPE a b) /\ rep h l a /\ rep h r b
  | CList l r => exists a b, h !! n = Some (LIST a b) /\ rep h l a /\ rep h r b
  | CBack c => exists a, h !! n = Some (BACK a) /\ rep h c a
  end.

(** A chain of redirections, outermost first, from node [n] to node [e]. *)
Fixpoint chain (h : list node) (rs : list redir) (e n : nat) : Prop :=
  match rs with
  | [] => n = e
  | (f, mode, fd) :: rs' =>
      exists sub q qe, h !! n = Some (REDIR sub q qe mode fd) /\ word_at q qe f /\ chain h rs' e sub
  end.

Lemma lookup_prefix {A} (h h' : list A) n x : h `prefix_of` h' -> h !! n = Some x -> h' !! n = Some x.
Proof. intros [k ->] Hn. rewrite lookup_app_l; [done|]. by apply lookup_lt_Some in Hn. Qed.

Lemma rep_prefix h h' c n : h `prefix_of` h' -> rep h c n -> rep h' c n.
Proof.
  intros Hp. revert n. induction c; intros n; cbn [rep].
  - intros (a & ea & Hn & Ha). exists a, ea. split; [by eapply lookup_prefix|done].
  - intros (sub & q & e & Hn & Hw & Hc). exists sub, q, e. split; [by eapply lookup_prefix|auto].
  - intros (a & b & Hn & Hl & Hr). exists a, b. split; [by eapply lookup_prefix|auto].
  - intros (a & b & Hn & Hl & Hr). exists a, b. split; [by eapply lookup_prefix|auto].
  - intros (a & Hn & Hc). exists a. split; [by eapply lookup_prefix|auto].
Qed.

Lemma chain_prefix h h' rs e n : h `prefix_of` h' -> chain h rs e n -> chain h' rs e n.
Proof.
  intros Hp. revert n. induction rs as [|[[f m] fd] rs IH]; intros n; cbn [chain]; [done|].
  intros (sub & q & qe & Hn & Hw & Hc). exists sub, q, qe. split; [by eapply lookup_prefix|auto].
Qed.

Lemma chain_rep h rs c e n : chain h rs e n -> rep h c e -> rep h (wrap rs c) n.
Proof.
  revert n. induction rs as [|[[f m] fd] rs IH]; intros n; cbn [chain wrap foldr]; [by intros ->|].
  intros (sub & q & qe & Hn & Hw & Hc) Hr. cbn [rep]. exists sub, q, qe. split_and!; [done|done|by apply IH].
Qed.

(** Filling in the command at the end of a chain. *)
Lemma chain_insert h rs e n a ea a' ea' :
  h !! e = Some (EXEC a ea) -> chain h rs e n -> chain (<[e := EXEC a' ea']> h) rs e n.
Proof.
  intros He. revert n. induction rs as [|[[f m] fd] rs IH]; intros n; cbn [chain]; [done|].
  intros (sub & q & qe & Hn & Hw & Hc). exists sub, q, qe. split_and!; [|done|by apply IH].
  rewrite list_lookup_insert_ne; [done|]. intros ->. congruence.
Qed.

(** ** Parsing steps *)

(** The state is on the line, with memory for two nodes per token and [k] more. *)
Definition sane (k : nat) (s : parser) : Prop :=
  on_line txt junk s /\ (2 * length (toks s) + k <= room s)%nat.

Lemma new_node_spec nd k s :
  sane (S k) s ->
  wp (new_node nd) s (fun p s' =>
    p = length (nodes s) /\ sane k s' /\ toks s' = toks s /\ nodes s' = nodes s ++ [nd]).
Proof.
  intros [Hl Hr]. unfold wp, new_node. destruct (room s) as [|r] eqn:E; [lia|].
  split_and!; try done. split; [done|]. cbn [room]. change (toks (Parser _ _ _ _)) with (toks s). lia.
Qed.

Lemma sane_set_pos k s s' :
  s' = set_pos (pos s') s -> on_line txt junk s' -> (length (toks s') <= length (toks s))%nat ->
  sane k s -> sane (k + 2 * (length (toks s) - length (toks s'))) s' /\ nodes s' = nodes s.
Proof.
  intros Hs Ho Hlen [_ Hr]. rewrite Hs. cbn [nodes set_pos]. split; [|done].
  rewrite <- Hs. split; [done|]. rewrite Hs at 3. cbn [room set_pos]. lia.
Qed.

(** [peek] for symbols keeps everything but spaces. *)
Lemma peek_step tk k s :
  Forall (fun c => is_symbol c = true) tk -> sane k s ->
  wp (peek es tk) s (fun b s' =>
    b = starts (toks s) tk /\ sane k s' /\ toks s' = toks s /\ nodes s' = nodes s).
Proof.
  intros Htk Hs. eapply wp_mono; [apply (peek_spec txt junk Htxt); [apply Hs|done]|]. cbn beta.
  intros b s' (Es & Ho & Ht & -> & _). destruct (sane_set_pos k s s' Es Ho) as [Hk Hn]; [by rewrite Ht|done|].
  rewrite Ht, Nat.sub_diag, Nat.add_0_r in Hk. by split_and!.
Qed.

(** [gettoken] with a token left frees room for two nodes. *)
Lemma gettoken_step k s t ts :
  toks s = t :: ts -> sane k s ->
  wp (gettoken es) s (fun '(tok, q, e) s' =>
    tok = code t /\ sane (S (S k)) s' /\ toks s' = ts /\ nodes s' = nodes s /\
    (forall w, t = TWord w -> word_at q e w)).
Proof.
  intros Hts Hs. eapply wp_mono; [apply (gettoken_spec txt junk Htxt), Hs|]. rewrite Hts.
  intros [[tok q] e] s' (Es & Ho & -> & Ht & Hw).
  destruct (sane_set_pos k s s' Es Ho) as [Hk Hn]; [rewrite Ht, Hts; cbn; lia|done|].
  rewrite Ht, Hts in Hk. cbn [length] in Hk. split_and!; try done.
  by replace (S (S k)) with (k + 2 * (S (length ts) - length ts))%nat by lia.
Qed.

Lemma gettoken_end k s :
  toks s = [] -> sane k s ->
  wp (gettoken es) s (fun '(tok, q, e) s' =>
    tok = 0 /\ sane k s' /\ toks s' = [] /\ nodes s' = nodes s).
Proof.
  intros Hts Hs. eapply wp_mono; [apply (gettoken_spec txt junk Htxt), Hs|]. rewrite Hts.
  intros [[tok q] e] s' (Es & Ho & -> & Ht).
  destruct (sane_set_pos k s s' Es Ho) as [Hk Hn]; [by rewrite Ht, Hts|done|].
  rewrite Ht, Hts, Nat.sub_diag, Nat.add_0_r in Hk. by split_and!.
Qed.
Lemma toks_length s : (length (toks s) <= es)%nat.
Proof. unfold ShSpec.toks. pose proof (lex_length (drop (pos s) txt)) as Hl. rewrite length_drop in Hl. lia. Qed.

Lemma toks_ok s t ts : toks s = t :: ts -> tok_ok t.
Proof.
  intros E. pose proof (lex_ok (drop (pos s) txt)) as Hok. unfold ShSpec.toks in E. rewrite E in Hok.
  by apply Forall_cons in Hok as [? _].
Qed.

(** The node made for a redirection operator. *)
Lemma redir_node k s t mode fd f n q e rs b :
  redir_of t = Some (mode, fd) -> sane (S k) s -> word_at q e f -> chain (nodes s) rs b n ->
  wp (if code t =? ch "<" then cmd <- redircmd n q e O_RDONLY 0 ;; ret (inl cmd)
      else if code t =? ch ">" then
        cmd <- redircmd n q e (Z.lor O_WRONLY (Z.lor O_CREATE O_TRUNC)) 1 ;; ret (inl cmd)
      else if code t =? ch "+" then
        cmd <- redircmd n q e (Z.lor O_WRONLY O_CREATE) 1 ;; ret (inl cmd)
      else ret (inl n)) s (fun r s' => exists n', r = @inl nat nat n' /\
    sane k s' /\ toks s' = toks s /\ nodes s `prefix_of` nodes s' /\
    chain (nodes s') ((f, mode, fd) :: rs) b n').
Proof.
  intros Hr Hs Hw Hc.
  assert (Hnew : wp (cmd <- redircmd n q e mode fd ;; ret (inl cmd)) s (fun r s' => exists n', r = @inl nat nat n' /\
    sane k s' /\ toks s' = toks s /\ nodes s `prefix_of` nodes s' /\
    chain (nodes s') ((f, mode, fd) :: rs) b n')).
  { apply wp_bind. eapply wp_mono; [by apply new_node_spec|]. cbn beta. intros p s' (-> & Hs' & Ht & Hn).
    apply wp_ret. exists (length (nodes s)). split_and!; try done; rewrite Hn; [by eexists|].
    cbn [chain]. exists n, q, e. split_and!; [|done|eapply chain_prefix; [by eexists|done]].
    by rewrite lookup_app_r, Nat.sub_diag by lia. }
  destruct t as [w|c|]; [done| |by injection Hr as <- <-].
  cbn [redir_of code] in *. destruct (c =? ch "<"); [by injection Hr as <- <-|].
  destruct (c =? ch ">"); [by injection Hr as <- <-|done].
Qed.

Lemma parseredirs_spec k s rs b n :
  sane k s -> chain (nodes s) rs b n ->
  wpe (parseredirs es n) s (fun n' s' => exists rs',
      r_redirs (toks s) rs = inr (rs', toks s') /\ sane k s' /\ nodes s `prefix_of` nodes s' /\
      chain (nodes s') rs' b n' /\ (length (toks s') <= length (toks s))%nat)
    (fun err => r_redirs (toks s) rs = inl err).
Proof.
  intros Hs Hc. unfold parseredirs.
  eapply (wpe_loop (fun n' s' => exists rs', sane k s' /\ nodes s `prefix_of` nodes s' /\
    chain (nodes s') rs' b n' /\ r_redirs (toks s') rs' = r_redirs (toks s) rs /\
    (length (toks s') <= length (toks s))%nat) (fun _ s' => length (toks s'))).
  2: { exists rs. split_and!; done. }
  2: { pose proof (toks_length s). lia. }
  intros n1 s1 (rs1 & Hs1 & Hp1 & Hc1 & <- & Hle).
  eapply wpe_then; [apply (peek_step (str "<>") k); [by repeat constructor|done]|]. cbn beta.
  intros b1 s2 (-> & Hs2 & Ht2 & Hn2). rewrite <- Ht2, <- Hn2 in *. clear s1 Hs1 Ht2 Hn2.
  destruct (toks s2) as [|t ts] eqn:Et.
  { apply wpe_ret. exists rs1. cbn [r_redirs]. rewrite Et. by split_and!. }
  rewrite starts_redir. cbn [r_redirs]. destruct (redir_of t) as [[mode fd]|] eqn:Er.
  2: { apply wpe_ret. exists rs1. rewrite Et. by split_and!. }
  eapply wpe_then; [by apply (gettoken_step k s2 t ts)|]. cbn beta.
  intros [[tok q0] e0] s3 (-> & Hs3 & Ht3 & Hn3 & _). cbn beta iota.
  destruct ts as [|t1 ts].
  { eapply wpe_then; [by apply (gettoken_end (S (S k)) s3)|]. cbn beta.
    intros [[tok q] e] s4 (-> & _). by apply wpe_panic. }
  eapply wpe_then; [by apply (gettoken_step (S (S k)) s3 t1 ts)|]. cbn beta.
  intros [[tok q] e] s4 (-> & Hs4 & Ht4 & Hn4 & Hw). cbn beta iota.
  rewrite (code_word t1) by (by eapply toks_ok). destruct t1 as [f|c|]; [|by apply wpe_panic..].
  cbn [negb]. eapply wpe_wp, wp_mono; [eapply (redir_node (S (S (S k)))); try done|].
  { apply Hw. done. }
  { rewrite Hn4, Hn3. done. }
  cbn beta. intros r s5 (n5 & -> & Hs5 & Ht5 & Hp5 & Hc5). rewrite Ht5, Ht4.
  split; [|cbn; lia]. exists ((f, mode, fd) :: rs1). split_and!; try done.
  - destruct Hs5 as [Ho Hr]. split; [done|lia].
  - etrans; [done|]. by rewrite <- Hn3, <- Hn4.
  - cbn [length] in *. lia.
Qed.
(** ** Simple commands *)

Definition no_redir (ts : list token) : Prop :=
  match ts with t :: _ => redir_of t = None | [] => True end.

(** Leading redirections of a simple command. *)
Lemma r_simple_redirs ts rs ws :
  match r_redirs ts rs with
  | inl err => r_simple ts rs ws = inl err
  | inr (rs', ts') => no_redir ts' /\ r_simple ts rs ws = r_simple ts' rs' ws
  end.
Proof.
  revert rs. induction ts as [ts IH] using (induction_ltof1 _ (@length token)). unfold ltof in IH.
  intros rs. destruct ts as [|t ts]; [done|]. cbn [r_redirs].
  destruct (redir_of t) as [[mode fd]|] eqn:E; [|by split].
  destruct ts as [|[f|c|] ts]; cbn [r_simple]; rewrite ?E; try done.
  specialize (IH ts ltac:(cbn; lia) ((f, mode, fd) :: rs)).
  by destruct (r_redirs ts ((f, mode, fd) :: rs)) as [err|[rs' ts']].
Qed.

Lemma fill_arg {A} (f : A -> option nat) (qs : list A) x m :
  <[length qs := f x]> (map f qs ++ replicate (S m) None) = map f (qs ++ [x]) ++ replicate m None.
Proof.
  rewrite <- (length_map f qs). rewrite <- (Nat.add_0_r (length _)), insert_app_r.
  rewrite map_app, <- app_assoc. done.
Qed.

(** Storing the next argument. *)
Lemma set_arg_spec s n ws q e w :
  exec_at (nodes s) ws n -> word_at q e w ->
  wp (set_arg n (length ws) (Some q) (Some e)) s (fun _ s' =>
    ((S (length ws) < MAXARGS)%nat -> exec_at (nodes s') (ws ++ [w]) n) /\
    exists a ea a' ea', nodes s !! n = Some (EXEC a ea) /\
      s' = set_nodes (<[n := EXEC a' ea']> (nodes s)) s).
Proof.
  intros (a & ea & Hn & (qs & Hq & -> & ->) & Hlt) Hw. unfold wp, set_arg. rewrite Hn.
  destruct (Nat.ltb_spec (length ws) MAXARGS) as [_|?]; [|lia].
  pose proof (Forall2_length _ _ _ Hq) as Hlen. split; [|by do 4 eexists].
  intros Hlt'. unfold exec_at. cbn [nodes set_nodes].
  do 2 eexists. split; [apply list_lookup_insert_eq; by apply lookup_lt_Some in Hn|].
  split; [|rewrite length_app; cbn; lia]. exists (qs ++ [(q, e)]).
  replace (MAXARGS - length qs)%nat with (S (MAXARGS - length (qs ++ [(q, e)])))
    by (rewrite length_app; cbn [length]; lia).
  rewrite <- Hlen, (fill_arg (fun qe => Some (fst qe)) qs (q, e)),
    (fill_arg (fun qe => Some (snd qe)) qs (q, e)).
  split_and!; try done. apply Forall2_app; [done|]. by constructor; [|constructor].
Qed.

(** The final null pointers are there already. *)
Lemma set_arg_end s n ws :
  exec_at (nodes s) ws n -> wp (set_arg n (length ws) None None) s (fun _ s' => s' = s).
Proof.
  intros (a & ea & Hn & (qs & Hq & -> & ->) & Hlt). unfold wp, set_arg. rewrite Hn.
  destruct (Nat.ltb_spec (length ws) MAXARGS) as [_|?]; [|lia].
  pose proof (Forall2_length _ _ _ Hq) as Hlen.
  assert (Hid : forall A (f : A -> option nat) (l : list A), length l = length ws ->
    <[length ws := None]> (map f l ++ replicate (MAXARGS - length l) None) =
    map f l ++ replicate (MAXARGS - length l) None).
  { intros A f l Hl. apply list_insert_id. rewrite lookup_app_r by (rewrite length_map; lia).
    apply lookup_replicate. rewrite length_map. split; [done|lia]. }
  rewrite !Hid by done. unfold set_nodes. rewrite list_insert_id by done. by destruct s.
Qed.
(** The outcome of a parsing function against a reference parser. *)
Definition parses (k : nat) (p : P nat) (r : list token -> string + (cmd * list token)) (s : parser) : Prop :=
  wpe p s (fun n s' => exists c,
      r (toks s) = inr (c, toks s') /\ sane k s' /\ nodes s `prefix_of` nodes s' /\
      rep (nodes s') c n /\ (length (toks s') <= length (toks s))%nat)
    (fun err => r (toks s) = inl err).

Lemma insert_prefix {A} (h h' : list A) n x :
  h `prefix_of` h' -> (length h <= n)%nat -> h `prefix_of` <[n := x]> h'.
Proof.
  intros [k ->] Hn. replace n with (length h + (n - length h))%nat by lia.
  rewrite insert_app_r. by eexists.
Qed.

Definition exec_inv (k : nat) (s0 s : parser) (x : nat * nat) : Prop :=
  exists rs ws, snd x = length ws /\ sane k s /\ exec_at (nodes s) ws (length (nodes s0)) /\
    chain (nodes s) rs (length (nodes s0)) (fst x) /\ nodes s0 `prefix_of` nodes s /\
    no_redir (toks s) /\ r_simple (toks s) rs ws = r_simple (toks s0) [] [] /\
    (length (toks s) <= length (toks s0))%nat.

Lemma exec_inv_done k s0 s r argc rs ws :
  snd (r, argc) = length ws -> sane k s -> exec_at (nodes s) ws (length (nodes s0)) ->
  chain (nodes s) rs (length (nodes s0)) r -> nodes s0 `prefix_of` nodes s ->
  (length (toks s) <= length (toks s0))%nat ->
  inr (wrap rs (CExec ws), toks s) = r_simple (toks s0) [] [] ->
  wp (set_arg (length (nodes s0)) argc None None >>> ret (@inr (nat * nat) nat r)) s (fun v s' =>
    match v with
    | inl x => exec_inv k s0 s' x /\ (length (toks s') < length (toks s))%nat
    | inr n => exists c, r_simple (toks s0) [] [] = inr (c, toks s') /\ sane k s' /\
        nodes s0 `prefix_of` nodes s' /\ rep (nodes s') c n /\ (length (toks s') <= length (toks s0))%nat
    end).
Proof.
  cbn [snd]. intros -> Hs He Hc Hp Hle Hr. apply wp_bind. eapply wp_mono; [by apply set_arg_end|].
  cbn beta. intros _ s' ->. apply wp_ret. exists (wrap rs (CExec ws)). split_and!; try done.
  by eapply chain_rep.
Qed.

Lemma exec_loop_body k s0 s x :
  exec_inv k s0 s x ->
  wpe ((fun '(r, argc) =>
      b <- peek es (str "|)&;") ;;
      if b then set_arg (length (nodes s0)) argc None None >>> ret (inr r)
      else
        t <- gettoken es ;;
        let '(tok, q, eq) := t in
        if tok =? 0 then set_arg (length (nodes s0)) argc None None >>> ret (inr r)
        else if negb (tok =? ch "a") then panic "syntax"
        else
          set_arg (length (nodes s0)) argc (Some q) (Some eq) >>>
          let argc := S argc in
          if (MAXARGS <=? argc)%nat then panic "too many args"
          else r <- parseredirs es r ;; ret (inl (r, argc))) x) s (fun v s' =>
    match v with
    | inl x => exec_inv k s0 s' x /\ (length (toks s') < length (toks s))%nat
    | inr n => exists c, r_simple (toks s0) [] [] = inr (c, toks s') /\ sane k s' /\
        nodes s0 `prefix_of` nodes s' /\ rep (nodes s') c n /\ (length (toks s') <= length (toks s0))%nat
    end) (fun err => r_simple (toks s0) [] [] = inl err).
Proof.
  destruct x as [r argc]. intros (rs & ws & Hargc & Hs & He & Hc & Hp & Hnr & Hr & Hle).
  cbn [fst snd] in *. subst argc.
  eapply wpe_then; [apply (peek_step (str "|)&;") k); [by repeat constructor|done]|]. cbn beta.
  intros b1 s1 (-> & Hs1 & Ht1 & Hn1). rewrite <- Ht1, <- Hn1 in *. clear s Hs Ht1 Hn1.
  destruct (toks s1) as [|t ts] eqn:Et.
  { eapply wpe_then; [by apply (gettoken_end k s1)|]. cbn beta.
    intros [[tok q] e] s2 (-> & Hs2 & Ht2 & Hn2). rewrite <- Hn2 in *. apply wpe_wp.
    eapply wp_mono; [eapply (exec_inv_done k s0 s2 r); rewrite ?Ht2; done|].
    intros [x|n] s3; [rewrite Ht2; intros [_ ?]; cbn in *; lia|done]. }
  cbn [no_redir] in Hnr. cbn [r_simple] in Hr. rewrite Hnr in Hr.
  destruct (starts (t :: ts) (str "|)&;")) eqn:Es.
  { apply wpe_wp. rewrite <- Et. eapply exec_inv_done; rewrite ?Et; done. }
  eapply wpe_then; [by apply (gettoken_step k s1 t ts)|]. cbn beta.
  intros [[tok q] e] s2 (-> & Hs2 & Ht2 & Hn2 & Hw). cbn beta iota. pose proof (toks_ok _ _ _ Et) as Hok.
  rewrite code_nonzero, code_word by done. destruct t as [w|c|]; [|by apply wpe_panic..]. cbn [negb].
  rewrite <- Hn2 in *. eapply wpe_then; [by eapply set_arg_spec; [|apply Hw]|]. cbn beta.
  intros _ s3 [Hexec (a & ea & a' & ea' & Hn & ->)].
  destruct (Nat.leb_spec MAXARGS (S (length ws))) as [?|Hlt]; [by apply wpe_panic|].
  set (s3 := set_nodes _ s2). apply wpe_bind. eapply wpe_mono; [apply (parseredirs_spec (S (S k)) s3 rs)| |].
  - done.
  - by eapply chain_insert.
  - cbn beta. intros n s4 (rs' & Hrr & Hs4 & Hp4 & Hc4 & Hle4). apply wpe_ret.
    change (toks s3) with (toks s2) in *. rewrite Ht2 in *.
    pose proof (r_simple_redirs ts rs (ws ++ [w])) as Hsr. rewrite Hrr in Hsr. destruct Hsr as [Hnr' Hsr].
    split; [|cbn; lia]. exists rs', (ws ++ [w]). split_and!; try done.
    + rewrite length_app. cbn. lia.
    + destruct Hs4 as [Ho4 Hr4]. split; [done|lia].
    + destruct (Hexec Hlt) as (b & eb & Hb & ?). exists b, eb. split; [by eapply lookup_prefix|done].
    + etrans; [|done]. apply insert_prefix; [done|lia].
    + by rewrite <- Hsr.
    + cbn in Hle. lia.
  - cbn beta. intros err Hrr. change (toks s3) with (toks s2) in *. rewrite Ht2 in *.
    pose proof (r_simple_redirs ts rs (ws ++ [w])) as Hsr. rewrite Hrr in Hsr. by rewrite <- Hr.
Qed.
Lemma parse_simple k s :
  sane (S k) s -> starts (toks s) (str "(") = false ->
  parses k (cmd <- execcmd ;;
    r <- parseredirs es cmd ;;
    loop (S es) (fun '(r, argc) =>
      b <- peek es (str "|)&;") ;;
      if b then set_arg cmd argc None None >>> ret (inr r)
      else
        t <- gettoken es ;;
        let '(tok, q, eq) := t in
        if tok =? 0 then set_arg cmd argc None None >>> ret (inr r)
        else if negb (tok =? ch "a") then panic "syntax"
        else
          set_arg cmd argc (Some q) (Some eq) >>>
          let argc := S argc in
          if (MAXARGS <=? argc)%nat then panic "too many args"
          else r <- parseredirs es r ;; ret (inl (r, argc))) (r, 0%nat)) (fun ts => r_simple ts [] []) s.
Proof.
  intros Hs Hst. unfold parses. eapply wpe_then; [by apply new_node_spec|]. cbn beta.
  intros p s1 (-> & Hs1 & Ht1 & Hn1).
  assert (He1 : exec_at (nodes s1) [] (length (nodes s))).
  { do 2 eexists. rewrite Hn1, lookup_app_r, Nat.sub_diag by lia. split; [done|].
    split; [|unfold MAXARGS; cbn; lia]. exists []. by split_and!. }
  apply wpe_bind. eapply wpe_mono; [by apply (parseredirs_spec k s1 [] (length (nodes s)))| |].
  - cbn beta. intros n s2 (rs & Hrr & Hs2 & Hp2 & Hc2 & Hle2).
    pose proof (r_simple_redirs (toks s1) [] []) as Hsr. rewrite Hrr in Hsr. destruct Hsr as [Hnr Hsr].
    eapply wpe_loop with (I := fun x s' => exec_inv k s s' x) (meas := fun _ s' => length (toks s')).
    + intros x s' HI. by apply exec_loop_body.
    + exists rs, []. rewrite Hn1 in Hp2. split_and!; try done.
      * destruct He1 as (b & eb & Hb & ?). exists b, eb. split; [|done]. rewrite Hn1 in Hb. by eapply lookup_prefix.
      * etrans; [|exact Hp2]. by eexists.
      * by rewrite <- Hsr, Ht1.
      * by rewrite <- Ht1.
    + pose proof (toks_length s2). lia.
  - cbn beta. intros err Hrr. pose proof (r_simple_redirs (toks s1) [] []) as Hsr. rewrite Hrr in Hsr.
    by rewrite <- Ht1.
Qed.

(** A sub-parser's claims, for inputs of fewer than [n] tokens. *)
Definition parses_upto (n : nat) (p : P nat) (r : list token -> string + (cmd * list token)) : Prop :=
  forall k s, sane (S k) s -> (length (toks s) < n)%nat -> parses k p r s.

Lemma starts_cons s c :
  c <> ch ">" -> starts (toks s) [c] = true -> exists ts, toks s = TSym c :: ts.
Proof. intros Hc Hs. by apply starts_one. Qed.

Lemma parse_block k n p r s :
  parses_upto n p r -> sane (S k) s -> starts (toks s) (str "(") = true -> (length (toks s) <= n)%nat ->
  parses k (parseblock p es) (r_block r) s.
Proof.
  intros Hp Hs Hst Hlen. destruct (starts_cons s (ch "(") ltac:(done) Hst) as (ts & Et).
  unfold parses, parseblock, r_block. rewrite Et. cbn [tail].
  eapply wpe_then; [apply (peek_step (str "(") (S k)); [by repeat constructor|done]|]. cbn beta.
  intros b s1 (-> & Hs1 & Ht1 & Hn1). rewrite Hst. cbn [negb].
  eapply wpe_then; [apply (gettoken_step (S k) s1 (TSym (ch "(")) ts); [by rewrite Ht1|done]|]. cbn beta.
  intros [[tok q] e] s2 (_ & Hs2 & Ht2 & Hn2 & _). rewrite <- Hn1, <- Hn2.
  apply wpe_bind. eapply wpe_mono; [apply (Hp k)| |].
  - destruct Hs2 as [Ho Hr]. split; [done|lia].
  - rewrite Ht2. rewrite Et in Hlen. cbn in Hlen. lia.
  - cbn beta. rewrite Ht2. intros n1 s3 (c & Hr & Hs3 & Hp3 & Hc & Hle3). rewrite Hr. cbn [then_].
    eapply wpe_then; [apply (peek_step (str ")") k); [by repeat constructor|done]|]. cbn beta.
    intros b s4 (-> & Hs4 & Ht4 & Hn4). rewrite <- Ht4. destruct (starts (toks s4) (str ")")) eqn:Est.
    2: { by apply wpe_panic. }
    cbn [negb]. destruct (starts_cons s4 (ch ")") ltac:(done) Est) as (ts4 & Et4). rewrite Et4. cbn [tail].
    eapply wpe_then; [by apply (gettoken_step k s4 (TSym (ch ")")) ts4)|]. cbn beta.
    intros [[tok1 q1] e1] s5 (_ & Hs5 & Ht5 & Hn5 & _).
    eapply wpe_mono; [by apply (parseredirs_spec (S (S k)) s5 [] n1 n1)| |].
    + cbn beta. rewrite Ht5. intros n2 s6 (rs & -> & Hs6 & Hp6 & Hc6 & Hle6). cbn [then_].
      rewrite Hn5, Hn4 in Hp6. exists (wrap rs c). split_and!; try done.
      * destruct Hs6 as [Ho Hrm]. split; [done|lia].
      * by etrans.
      * eapply chain_rep; [done|]. by eapply rep_prefix.
      * rewrite <- Ht4, Et4 in Hle3. cbn [length] in *. lia.
    + cbn beta. rewrite Ht5. by intros err ->.
  - cbn beta. rewrite Ht2. by intros err ->.
Qed.
Lemma parseexec_parses k n p r s :
  parses_upto n p r -> sane (S k) s -> (length (toks s) <= n)%nat ->
  parses k (parseexec (parseblock p es) es) (r_exec r) s.
Proof.
  intros Hp Hs Hlen. unfold parses, parseexec.
  eapply wpe_then; [apply (peek_step (str "(") (S k)); [by repeat constructor|done]|]. cbn beta.
  intros b s1 (-> & Hs1 & Ht1 & Hn1). unfold r_exec. rewrite <- Ht1, <- Hn1 in *.
  destruct (starts (toks s1) (str "(")) eqn:Est; [by eapply parse_block|by apply parse_simple].
Qed.

(** The symbol [c] between two commands: [p] parses the second. *)
Lemma parse_binary k c mk mkn (mkc : cmd -> cmd -> cmd) p r m n1 c1 s :
  c <> ch ">" -> is_symbol c = true -> (forall a b, mk a b = new_node (mkn a b)) ->
  (forall h x y a b n, rep h x a -> rep h y b -> h !! n = Some (mkn a b) -> rep h (mkc x y) n) ->
  parses_upto m p r -> sane k s -> rep (nodes s) c1 n1 -> (length (toks s) <= m)%nat ->
  parses k (b <- peek es [c] ;;
    if b then gettoken es >>> right <- p ;; mk n1 right else ret n1)
    (fun ts => if starts ts [c] then then_ (r (tail ts)) (fun '(c', ts) => inr (mkc c1 c', ts)) else inr (c1, ts)) s.
Proof.
  intros Hne Hsym Hmk Hrep Hp Hs Hc1 Hlen. unfold parses.
  eapply wpe_then; [apply (peek_step [c] k); [by repeat constructor|done]|]. cbn beta.
  intros b s1 (-> & Hs1 & Ht1 & Hn1). rewrite <- Ht1, <- Hn1 in *.
  destruct (starts (toks s1) [c]) eqn:Est.
  2: { apply wpe_ret. exists c1. by split_and!. }
  destruct (starts_cons s1 c Hne Est) as (ts & Et). rewrite Et in *. cbn [tail length] in *.
  eapply wpe_then; [by apply (gettoken_step k s1 (TSym c) ts)|]. cbn beta.
  intros [[tok q] e] s2 (_ & Hs2 & Ht2 & Hn2 & _). rewrite <- Hn2 in *.
  apply wpe_bind. eapply wpe_mono; [apply (Hp (S k)); [done|rewrite Ht2; lia]| |].
  - cbn beta. rewrite Ht2. intros n2 s3 (c2 & -> & Hs3 & Hp3 & Hc2 & Hle3). cbn [then_]. rewrite Hmk.
    eapply wpe_wp, wp_mono; [by apply new_node_spec|]. cbn beta. intros n s4 (-> & Hs4 & Ht4 & Hn4).
    assert (Hp4 : nodes s3 `prefix_of` nodes s4) by (rewrite Hn4; by eexists).
    exists (mkc c1 c2). rewrite Ht4. split_and!; try done.
    + by etrans.
    + eapply Hrep; [eapply rep_prefix; [|exact Hc1]; by etrans|by eapply rep_prefix|].
      by rewrite Hn4, lookup_app_r, Nat.sub_diag by lia.
    + lia.
  - cbn beta. rewrite Ht2. by intros err ->.
Qed.

(** Sequencing a parser with what follows it. *)
Lemma parses_then k p r (f : nat -> P nat) g s :
  parses k p r s ->
  (forall c n s', sane k s' -> rep (nodes s') c n -> (length (toks s') <= length (toks s))%nat ->
     parses k (f n) (g c) s') ->
  parses k (bind p f) (fun ts => then_ (r ts) (fun '(c, ts) => g c ts)) s.
Proof.
  intros Hp Hf. unfold parses. apply wpe_bind. eapply wpe_mono; [apply Hp| |].
  - cbn beta. intros n s1 (c & -> & Hs1 & Hp1 & Hc1 & Hle1). cbn [then_].
    eapply wpe_mono; [by apply Hf|cbn beta|done].
    intros n2 s2 (c2 & Hr2 & Hs2 & Hp2 & Hc2 & Hle2). exists c2. split_and!; try done; [by etrans|lia].
  - cbn beta. by intros err ->.
Qed.

Lemma parsepipe_parses k m fuel p r s :
  (forall k s, sane (S k) s -> (length (toks s) < m)%nat -> parses k p r s) ->
  sane (S k) s -> (length (toks s) < fuel)%nat -> (length (toks s) < m)%nat ->
  parses k (parsepipe fuel p es) (r_pipe fuel r) s.
Proof.
  intros Hp. revert k s. induction fuel as [|f IH]; intros k s Hs Hf Hm; [lia|]. cbn [parsepipe r_pipe].
  apply parses_then; [by apply Hp|]. intros c n s' Hs' Hc Hle.
  apply (parse_binary k (ch "|") _ PIPE _ _ _ (length (toks s'))); try done.
  - intros h x y a b n' Hx Hy Hn. by exists a, b.
  - intros k' s'' Hs'' Hlt. apply IH; [done|lia|lia].
Qed.

Lemma parse_backs_parses k c n s :
  sane k s -> rep (nodes s) c n ->
  parses k (parse_backs es n) (fun ts => inr (r_backs ts c)) s.
Proof.
  intros Hs Hc. unfold parses, parse_backs. apply wpe_wp.
  eapply (wp_loop_st (fun n' s' => exists c', sane k s' /\ nodes s `prefix_of` nodes s' /\ rep (nodes s') c' n' /\
    r_backs (toks s') c' = r_backs (toks s) c /\ (length (toks s') <= length (toks s))%nat)
    (fun _ s' => length (toks s'))).
  2: { exists c. by split_and!. }
  2: { pose proof (toks_length s). lia. }
  intros n1 s1 (c1 & Hs1 & Hp1 & Hc1 & <- & Hle). apply wp_bind.
  eapply wp_mono; [apply (peek_step (str "&") k); [by repeat constructor|done]|]. cbn beta.
  intros b s2 (-> & Hs2 & Ht2 & Hn2). rewrite <- Ht2, <- Hn2 in *.
  destruct (starts (toks s2) (str "&")) eqn:Est.
  - destruct (starts_cons s2 (ch "&") ltac:(done) Est) as (ts & Et). rewrite Et in *.
    apply wp_bind. eapply wp_mono; [by apply (gettoken_step k s2 (TSym (ch "&")) ts)|]. cbn beta.
    intros [[tok q] e] s3 (_ & Hs3 & Ht3 & Hn3 & _). apply wp_bind.
    eapply wp_mono; [by apply new_node_spec|]. cbn beta. intros n4 s4 (-> & Hs4 & Ht4 & Hn4).
    apply wp_ret. rewrite Ht4, Ht3. split; [|cbn; lia]. exists (CBack c1). split_and!.
    + destruct Hs4 as [Ho Hr]. split; [done|lia].
    + rewrite Hn4, Hn3. etrans; [done|by eexists].
    + exists n1. rewrite Hn4. split; [by rewrite lookup_app_r, Nat.sub_diag by lia|].
      eapply rep_prefix; [|exact Hc1]. rewrite Hn3. by eexists.
    + cbn [r_backs]. by rewrite Est.
    + cbn in Hle. lia.
  - apply wp_ret. exists c1. split_and!; try done. destruct (toks s2) as [|t ts]; [done|].
    cbn [r_backs]. by rewrite Est.
Qed.

Lemma parseline_parses fuel : parses_upto fuel (parseline fuel es) (r_line fuel).
Proof.
  induction fuel as [|f IH]; intros k s Hs Hlt; [lia|]. cbn [parseline r_line].
  apply parses_then.
  - apply (parsepipe_parses k (S f) (S f)); [|done|done|done].
    intros k' s' Hs' Hlt'. eapply parseexec_parses; [done|done|lia].
  - intros c n s' Hs' Hc Hle. cbn beta.
    apply (parses_then k _ (fun ts => inr (r_backs ts c)) _
      (fun c ts => if starts ts (str ";")
        then then_ (r_line f (tail ts)) (fun '(c', ts) => inr (CList c c', ts)) else inr (c, ts))).
    + by apply parse_backs_parses.
    + intros c' n' s'' Hs'' Hc' Hle'.
      apply (parse_binary k (ch ";") _ LIST _ _ _ f); try done; [|lia].
      intros h x y a b n'' Hx Hy Hn. by exists a, b.
Qed.
End heap.
