(* ===== verification/ShGrammar.v ===== *)
(** The reference parser accepts exactly the grammar, and [parsecmd] of
    user/sh.c as a whole. *)

From Stdlib Require Import Ascii.
From S2P Require Import Prelude.
From S2P Require Import UserIO.
From S2P Require Import Sh.
From S2P Require Import ShSpec.
From S2P Require Import ShParse.

(** ** What may follow *)

(** The rest is empty or starts with one of the symbols. *)
Definition follows (syms : list Z) (ts : list token) : Prop := ts = [] \/ starts ts syms = true.

Lemma follows_no_redir ts : follows (str "|)&;") ts -> no_redir ts.
Proof.
  intros [->|Hs]; [done|]. destruct ts as [|[w|c|] ts]; try done. revert Hs.
  cbn [starts first_sym no_redir redir_of member existsb str].
  destruct (c =? ch "<") eqn:E1; [bool_simp; by subst|].
  destruct (c =? ch ">") eqn:E2; [bool_simp; by subst|done].
Qed.

(** Weaker and disjoint sets of symbols. *)
Lemma follows_weaken a b ts :
  (forall c, member c a = true -> member c b = true) -> follows a ts -> follows b ts.
Proof.
  intros Hab [->|Hs]; [by left|]. right. destruct ts as [|t ts]; [done|]. cbn [starts] in *.
  destruct (first_sym t); auto.
Qed.

Lemma follows_not a b ts :
  (forall c, member c a = true -> member c b = false) -> follows a ts -> starts ts b = false.
Proof.
  intros Hab [->|Hs]; [done|]. destruct ts as [|t ts]; [done|]. cbn [starts] in *.
  destruct (first_sym t); auto.
Qed.

Ltac members :=
  let x := fresh "x" in let H := fresh "H" in
  intros x H; cbn in H; rewrite ?orb_true_iff, ?Z.eqb_eq in H;
  repeat (destruct H as [->|H]; [done|]); done.

Ltac len := repeat (rewrite length_app in * || cbn [length] in * ); lia.

(** ** Completeness *)

Lemma r_redirs_complete ts rs' :
  redirs_g ts rs' -> forall rest rs, no_redir rest -> r_redirs (ts ++ rest) rs = inr (rs' ++ rs, rest).
Proof.
  induction 1 as [|t f mode fd ts rs' Ht _ IH]; intros rest rs Hr.
  - destruct rest as [|t rest]; [done|]. cbn in *. by rewrite Hr.
  - cbn [app r_redirs]. rewrite Ht, IH by done. by rewrite <- app_assoc.
Qed.

Lemma r_simple_complete ts rs' ws' :
  simple_g ts rs' ws' -> forall rest rs ws, follows (str "|)&;") rest -> (length ws + length ws' < MAXARGS)%nat ->
  r_simple (ts ++ rest) rs ws = inr (wrap (rs' ++ rs) (CExec (ws ++ ws')), rest).
Proof.
  induction 1 as [|w ts rs' ws' _ IH|t f mode fd ts rs' ws' Ht _ IH]; intros rest rs ws Hr Hl.
  - rewrite app_nil_r. destruct rest as [|t rest]; [done|]. cbn [app r_simple].
    pose proof (follows_no_redir _ Hr) as Hn. cbn [no_redir] in Hn. rewrite Hn.
    destruct Hr as [?|Hr]; [done|]. by rewrite Hr.
  - cbn [app r_simple redir_of starts first_sym length] in *.
    destruct (Nat.leb_spec MAXARGS (S (length ws))) as [?|_]; [lia|].
    rewrite IH; [by rewrite <- app_assoc|done|rewrite length_app; cbn; lia].
  - cbn [app r_simple]. rewrite Ht, IH by done. by rewrite <- app_assoc.
Qed.

Scheme line_mind := Minimality for line_g Sort Prop
  with pipe_mind := Minimality for pipe_g Sort Prop
  with exec_mind := Minimality for exec_g Sort Prop.
Combined Scheme grammar_ind from line_mind, pipe_mind, exec_mind.

Lemma r_backs_complete n c rest :
  starts rest (str "&") = false -> r_backs (replicate n (TSym (ch "&")) ++ rest) c = (backs n c, rest).
Proof.
  intros Hr. revert c. induction n as [|n IH]; intros c.
  - destruct rest as [|t rest]; [done|]. cbn [replicate app r_backs]. by rewrite Hr.
  - cbn [replicate app r_backs]. change (starts (TSym (ch "&") :: _) (str "&")) with true. cbn beta iota.
    rewrite IH. unfold backs. by rewrite Nat.iter_succ_r.
Qed.

Definition after_exec : list Z := str "|)&;".
Definition after_pipe : list Z := str ")&;".
Definition after_line : list Z := str ")".

Lemma follows_backs n rest :
  follows after_pipe rest -> follows after_pipe (replicate n (TSym (ch "&")) ++ rest).
Proof. destruct n; [done|]. by right. Qed.

(** The pipe symbol or the end of the pipeline. *)
Lemma simple_first ts rs ws rest :
  simple_g ts rs ws -> follows after_exec rest -> starts (ts ++ rest) (str "(") = false.
Proof.
  intros Hs Hr. destruct Hs as [|w ts rs ws|t f mode fd ts rs ws Ht]; [|done|].
  - by apply (follows_not after_exec); [members|].
  - destruct t as [w|c|]; try done. cbn [app starts first_sym]. cbn [redir_of] in Ht.
    destruct (c =? ch "<") eqn:E1; [bool_simp; by subst|].
    destruct (c =? ch ">") eqn:E2; [bool_simp; by subst|done].
Qed.

Lemma r_complete :
  (forall ts c, line_g ts c -> forall fuel rest, follows after_line rest -> (length (ts ++ rest) < fuel)%nat ->
     r_line fuel (ts ++ rest) = inr (c, rest)) /\
  (forall ts c, pipe_g ts c -> forall fuel f rest, follows after_pipe rest ->
     (length (ts ++ rest) < fuel)%nat -> (length (ts ++ rest) <= f)%nat ->
     r_pipe fuel (r_exec (r_line f)) (ts ++ rest) = inr (c, rest)) /\
  (forall ts c, exec_g ts c -> forall f rest, follows after_exec rest -> (length (ts ++ rest) <= f)%nat ->
     r_exec (r_line f) (ts ++ rest) = inr (c, rest)).
Proof.
  apply grammar_ind.
  - intros ts c n _ IH fuel rest Hr Hf. destruct fuel as [|f]; [lia|]. cbn [r_line].
    rewrite <- app_assoc in *. rewrite IH; [|apply follows_backs, (follows_weaken after_line); [members|done]|done|lia]. cbn [then_].
    rewrite r_backs_complete by (by apply (follows_not after_line); [members|]).
    by rewrite (follows_not after_line) by (done || members).
  - intros ts c n ts' c' _ IH _ IH' fuel rest Hr Hf. destruct fuel as [|f]; [lia|]. cbn [r_line].
    repeat (rewrite <- app_assoc in * || rewrite <- app_comm_cons in * ). rewrite IH; [|apply follows_backs; by right|done|lia]. cbn [then_].
    rewrite r_backs_complete by done. change (starts (TSym (ch ";") :: _) (str ";")) with true. cbn [tail].
    rewrite IH'; [done|done|len].
  - intros ts c _ IH fuel f rest Hr Hf Hl. destruct fuel as [|fu]; [lia|]. cbn [r_pipe].
    rewrite IH; [|apply (follows_weaken after_pipe); [members|done]|done]. cbn [then_].
    by rewrite (follows_not after_pipe) by (done || members).
  - intros ts c ts' c' _ IH _ IH' fuel f rest Hr Hf Hl. destruct fuel as [|fu]; [lia|]. cbn [r_pipe].
    rewrite <- app_assoc, <- app_comm_cons in *. rewrite IH; [|by right|done]. cbn [then_].
    change (starts (TSym (ch "|") :: _) (str "|")) with true. cbn [tail].
    rewrite IH'; [done|done|len..].
  - intros ts rs ws Hs Hl f rest Hr Hf. unfold r_exec. rewrite (simple_first ts rs ws) by done.
    rewrite (r_simple_complete ts rs ws) by done. by rewrite app_nil_r.
  - intros ts c ts' rs _ IH Hrs f rest Hr Hf. unfold r_exec.
    change (starts (_ :: _) (str "(")) with true. cbn beta iota. unfold r_block. cbn [app tail].
    rewrite <- app_assoc, <- app_comm_cons.
    rewrite IH; [|by right|cbn [app length] in *; len]. cbn [then_]. change (starts (TSym (ch ")") :: _) (str ")")) with true. cbn [tail].
    rewrite (r_redirs_complete ts' rs) by (done || by apply follows_no_redir). cbn [then_]. by rewrite app_nil_r.
Qed.

(** ** Soundness *)

Lemma r_redirs_sound ts rs rs' ts' :
  r_redirs ts rs = inr (rs', ts') -> exists t0 new, ts = t0 ++ ts' /\ rs' = new ++ rs /\ redirs_g t0 new.
Proof.
  revert rs. induction ts as [ts IH] using (induction_ltof1 _ (@length token)). unfold ltof in IH.
  intros rs. destruct ts as [|t ts]; cbn [r_redirs].
  { intros [= <- <-]. exists [], []. split_and!; [done|done|constructor]. }
  destruct (redir_of t) as [[mode fd]|] eqn:E.
  - destruct ts as [|[f|c|] ts]; try done. intros Hr.
    apply IH in Hr as (t0 & new & -> & -> & Hg); [|cbn; lia].
    exists (t :: TWord f :: t0), (new ++ [(f, mode, fd)]). rewrite <- app_assoc. split_and!; [done|done|].
    by constructor.
  - intros [= <- <-]. exists [], []. split_and!; [done|done|constructor].
Qed.

Lemma r_simple_sound ts rs ws c ts' :
  r_simple ts rs ws = inr (c, ts') -> (length ws < MAXARGS)%nat ->
  exists t0 rs' ws', ts = t0 ++ ts' /\ simple_g t0 rs' ws' /\
    c = wrap (rs' ++ rs) (CExec (ws ++ ws')) /\ (length (ws ++ ws') < MAXARGS)%nat.
Proof.
  revert rs ws. induction ts as [ts IH] using (induction_ltof1 _ (@length token)). unfold ltof in IH.
  intros rs ws. destruct ts as [|t ts]; cbn [r_simple].
  { intros [= <- <-] Hl. exists [], [], []. rewrite (app_nil_r ws). split_and!; [done|constructor|done|done]. }
  destruct (redir_of t) as [[mode fd]|] eqn:E.
  - destruct ts as [|[f|d|] ts]; try done. intros Hr Hl.
    apply IH in Hr as (t0 & rs' & ws' & -> & Hg & -> & Hl'); [|cbn; lia|done].
    exists (t :: TWord f :: t0), (rs' ++ [(f, mode, fd)]), ws'. rewrite <- app_assoc.
    split_and!; [done|by constructor|done|done].
  - destruct (starts (t :: ts) (str "|)&;")).
    { intros [= <- <-] Hl. exists [], [], []. rewrite (app_nil_r ws). split_and!; [done|constructor|done|done]. }
    destruct t as [w|d|]; try done.
    destruct (Nat.leb_spec MAXARGS (S (length ws))) as [?|Hlt]; [done|]. intros Hr Hl.
    apply IH in Hr as (t0 & rs' & ws' & -> & Hg & -> & Hl'); [|cbn; lia|rewrite length_app; cbn; lia].
    rewrite <- app_assoc in *. cbn [app] in *. exists (TWord w :: t0), rs', (w :: ws').
    split_and!; [done|by constructor|done|done].
Qed.

(** A reference parser is sound for a grammar. *)
Definition sound (r : list token -> string + (cmd * list token)) (g : list token -> cmd -> Prop) : Prop :=
  forall ts c ts', r ts = inr (c, ts') -> exists t0, ts = t0 ++ ts' /\ g t0 c.

Lemma starts_tail c ts : c <> ch ">" -> starts ts [c] = true -> ts = TSym c :: tail ts.
Proof. intros Hc Hs. by destruct (starts_one ts c Hc Hs) as (ts' & ->). Qed.

Lemma r_exec_sound rl : sound rl line_g -> sound (r_exec rl) exec_g.
Proof.
  intros Hl ts c ts'. unfold r_exec. destruct (starts ts (str "(")) eqn:Es.
  - apply (starts_tail (ch "(")) in Es; [|done]. unfold r_block.
    destruct (rl (tail ts)) as [e|[c1 ts1]] eqn:E1; [done|]. cbn [then_].
    apply Hl in E1 as (t1 & E1 & Hg1). destruct (starts ts1 (str ")")) eqn:Es1; [|done].
    apply (starts_tail (ch ")")) in Es1; [|done].
    destruct (r_redirs (tail ts1) []) as [e|[rs ts2]] eqn:E2; [done|]. cbn [then_]. intros [= <- <-].
    apply r_redirs_sound in E2 as (t2 & new & E2 & -> & Hg2). rewrite app_nil_r.
    exists (TSym (ch "(") :: t1 ++ TSym (ch ")") :: t2). split; [|by constructor].
    rewrite Es, E1, Es1, E2. by rewrite <- app_comm_cons, <- app_assoc.
  - intros Hr. apply r_simple_sound in Hr as (t0 & rs & ws & -> & Hg & -> & Hlen); [|unfold MAXARGS; cbn; lia].
    exists t0. split; [done|]. rewrite app_nil_r. by constructor.
Qed.

Lemma r_pipe_sound fuel re : sound re exec_g -> sound (r_pipe fuel re) pipe_g.
Proof.
  intros He. induction fuel as [|f IH]; intros ts c ts'; [done|]. cbn [r_pipe].
  destruct (re ts) as [e|[c1 ts1]] eqn:E1; [done|]. cbn [then_]. apply He in E1 as (t1 & -> & Hg1).
  destruct (starts ts1 (str "|")) eqn:Es.
  - apply (starts_tail (ch "|")) in Es; [|done].
    destruct (r_pipe f re (tail ts1)) as [e|[c2 ts2]] eqn:E2; [done|]. cbn [then_]. intros [= <- <-].
    apply IH in E2 as (t2 & E2 & Hg2). exists (t1 ++ TSym (ch "|") :: t2). split; [|by constructor].
    rewrite Es, E2. by rewrite <- app_assoc.
  - intros [= <- <-]. exists t1. split; [done|by constructor].
Qed.

Lemma r_backs_sound ts c c' ts' :
  r_backs ts c = (c', ts') -> exists n, ts = replicate n (TSym (ch "&")) ++ ts' /\ c' = backs n c.
Proof.
  revert c. induction ts as [|t ts IH]; intros c; cbn [r_backs].
  { intros [= <- <-]. by exists 0%nat. }
  destruct (starts (t :: ts) (str "&")) eqn:Es.
  - apply (starts_tail (ch "&")) in Es as [= ->]; [|done]. intros Hr. apply IH in Hr as (n & -> & ->).
    exists (S n). split; [done|]. unfold backs. by rewrite <- Nat.iter_succ_r.
  - intros [= <- <-]. by exists 0%nat.
Qed.

Lemma r_line_sound fuel : sound (r_line fuel) line_g.
Proof.
  induction fuel as [|f IH]; intros ts c ts'; [done|]. cbn [r_line].
  destruct (r_pipe (S f) (r_exec (r_line f)) ts) as [e|[c1 ts1]] eqn:E1; [done|]. cbn [then_].
  apply (r_pipe_sound _ _ (r_exec_sound _ IH)) in E1 as (t1 & -> & Hg1).
  destruct (r_backs ts1 c1) as [c2 ts2] eqn:E2. apply r_backs_sound in E2 as (n & -> & ->).
  destruct (starts ts2 (str ";")) eqn:Es.
  - apply (starts_tail (ch ";")) in Es; [|done].
    destruct (r_line f (tail ts2)) as [e|[c3 ts3]] eqn:E3; [done|]. cbn [then_]. intros [= <- <-].
    apply IH in E3 as (t3 & E3 & Hg3).
    exists (t1 ++ replicate n (TSym (ch "&")) ++ TSym (ch ";") :: t3). split; [|by constructor].
    rewrite Es, E3. by rewrite <- !app_assoc.
  - intros [= <- <-]. exists (t1 ++ replicate n (TSym (ch "&"))). rewrite <- app_assoc. split; [done|by constructor].
Qed.

(** The nesting of a command is bounded by its tokens. *)
Fixpoint depth (c : cmd) : nat :=
  match c with
  | CExec _ => 1
  | CRedir c _ _ _ | CBack c => S (depth c)
  | CPipe l r | CList l r => S (Nat.max (depth l) (depth r))
  end.

Lemma depth_wrap rs c : depth (wrap rs c) = (length rs + depth c)%nat.
Proof. induction rs as [|[[f m] fd] rs IH]; [done|]. cbn [wrap foldr]. cbn [depth length]. fold (wrap rs c). lia. Qed.

Lemma depth_backs n c : depth (backs n c) = (n + depth c)%nat.
Proof. induction n as [|n IH]; [done|]. change (backs (S n) c) with (CBack (backs n c)). cbn [depth]. lia. Qed.

Lemma redirs_length ts rs : redirs_g ts rs -> length ts = (2 * length rs)%nat.
Proof. induction 1; [done|]. len. Qed.

Lemma simple_length ts rs ws : simple_g ts rs ws -> length ts = (2 * length rs + length ws)%nat.
Proof. induction 1; [done|len..]. Qed.

Lemma depth_grammar :
  (forall ts c, line_g ts c -> (depth c <= length ts + 1)%nat) /\
  (forall ts c, pipe_g ts c -> (depth c <= length ts + 1)%nat) /\
  (forall ts c, exec_g ts c -> (depth c <= length ts + 1)%nat).
Proof.
  apply grammar_ind; intros; cbn [depth] in *; rewrite ?depth_wrap, ?depth_backs in *;
    repeat match goal with
    | H : simple_g _ _ _ |- _ => apply simple_length in H
    | H : redirs_g _ _ |- _ => apply redirs_length in H
    end; rewrite ?length_app, ?length_replicate; cbn [depth length] in *;
    rewrite ?length_app, ?length_replicate; cbn [length]; lia.
Qed.

(** ** nulterminate *)

(** The nodes at [n] are the command [c], its strings NUL-terminated in the
    line. *)
Fixpoint tree (ln : list Z) (h : list node) (c : cmd) (n : nat) : Prop :=
  match c with
  | CExec ws => exists qs eargv,
      h !! n = Some (EXEC (map Some qs ++ replicate (MAXARGS - length qs) None) eargv) /\
      Forall2 (fun q w => cstring (drop q ln) = w) qs ws /\ (length ws < MAXARGS)%nat
  | CRedir c f mode fd => exists sub q e,
      h !! n = Some (REDIR sub q e mode fd) /\ cstring (drop q ln) = f /\ tree ln h c sub
  | CPipe l r => exists a b, h !! n = Some (PIPE a b) /\ tree ln h l a /\ tree ln h r b
  | CList l r => exists a b, h !! n = Some (LIST a b) /\ tree ln h l a /\ tree ln h r b
  | CBack c => exists a, h !! n = Some (BACK a) /\ tree ln h c a
  end.

Section nul.
Context (txt junk : list Z).
Abbreviation word_at := (word_at txt).

(** The line keeps the characters of words; other characters may be NULs. *)
Definition keeps (ln : list Z) : Prop :=
  length ln = S (length txt + length junk) /\
  forall i c, txt !! i = Some c -> plain c = true -> ln !! i = Some c.

(** NULs stay. *)
Definition later (ln ln' : list Z) : Prop := forall i, ln !! i = Some 0 -> ln' !! i = Some 0.

Lemma put_nul_spec s q e w :
  keeps (line s) -> word_at q e w ->
  wp (put_nul e) s (fun _ s' => nodes s' = nodes s /\ keeps (line s') /\ later (line s) (line s') /\
    line s' !! e = Some 0).
Proof.
  intros [Hlen Hk] (_ & _ & He & _ & _ & Hn). unfold wp, put_nul.
  destruct (Nat.ltb_spec e (length (line s))) as [Hlt|?]; [|lia].
  cbn [nodes line set_line]. split_and!; [done| | |by apply list_lookup_insert_eq].
  - split; [by rewrite length_insert|]. intros i c Hi Hp. destruct (decide (i = e)) as [->|Hne].
    + rewrite (drop_S _ _ _ Hi) in Hn. cbn in Hn. congruence.
    + rewrite list_lookup_insert_ne by done. by apply Hk.
  - intros i Hi. destruct (decide (i = e)) as [->|Hne]; [by apply list_lookup_insert_eq|].
    by rewrite list_lookup_insert_ne by done.
Qed.

(** A word whose end is a NUL reads back. *)
Lemma word_reads ln q e w :
  keeps ln -> word_at q e w -> ln !! e = Some 0 -> cstring (drop q ln) = w.
Proof.
  intros [Hlen Hk] (Hw & -> & He & Hne & Hp & _) H0.
  assert (drop q ln = w ++ 0 :: drop (S (q + length w)) ln) as ->.
  { apply list_eq. intros i. rewrite lookup_drop. destruct (decide (i < length w)%nat) as [Hi|Hi].
    - rewrite lookup_app_l by done. apply lookup_lt_is_Some in Hi as [c Hc]. rewrite Hc. apply Hk.
      + rewrite <- lookup_drop, Hw. by rewrite lookup_app_l by (by apply lookup_lt_Some in Hc).
      + rewrite Forall_lookup in Hp. by eapply Hp.
    - rewrite lookup_app_r by lia. destruct (i - length w)%nat as [|j] eqn:Ej.
      + by replace (q + i)%nat with (q + length w)%nat by lia.
      + change (ln !! (q + i)%nat = drop (S (q + length w)) ln !! j). rewrite lookup_drop. f_equal. lia. }
  apply cstring_app. eapply Forall_impl; [exact Hp|]. cbn. intros c Hc. by apply plain_iff in Hc as [? _].
Qed.

(** The ends of the words of a command are NULs. *)
Fixpoint ended (ln : list Z) (h : list node) (c : cmd) (n : nat) : Prop :=
  match c with
  | CExec ws => exists qs eargv,
      h !! n = Some (EXEC (map (fun qe => Some (fst qe)) qs ++ replicate (MAXARGS - length qs) None) eargv) /\
      Forall2 (fun qe w => word_at (fst qe) (snd qe) w) qs ws /\ (length ws < MAXARGS)%nat /\
      Forall (fun qe => ln !! (snd qe) = Some 0) qs
  | CRedir c f mode fd => exists sub q e,
      h !! n = Some (REDIR sub q e mode fd) /\ word_at q e f /\ ln !! e = Some 0 /\ ended ln h c sub
  | CPipe l r => exists a b, h !! n = Some (PIPE a b) /\ ended ln h l a /\ ended ln h r b
  | CList l r => exists a b, h !! n = Some (LIST a b) /\ ended ln h l a /\ ended ln h r b
  | CBack c => exists a, h !! n = Some (BACK a) /\ ended ln h c a
  end.

Lemma ended_later ln ln' h c n : later ln ln' -> ended ln h c n -> ended ln' h c n.
Proof.
  intros Hl. revert n. induction c; intros n; cbn [ended].
  - intros (qs & ea & Hn & Hq & Hlen & Hz). exists qs, ea. split_and!; try done.
    eapply Forall_impl; [exact Hz|]. cbn. auto.
  - intros (sub & q & e & Hn & Hw & Hz & Hc). exists sub, q, e. split_and!; auto.
  - intros (a & b & Hn & Ha & Hb). exists a, b. split_and!; auto.
  - intros (a & b & Hn & Ha & Hb). exists a, b. split_and!; auto.
  - intros (a & Hn & Ha). exists a. split_and!; auto.
Qed.

Lemma ended_tree ln h c n : keeps ln -> ended ln h c n -> tree ln h c n.
Proof.
  intros Hk. revert n. induction c; intros n; cbn [ended tree].
  - intros (qs & ea & Hn & Hq & Hlen & Hz). exists (map fst qs), ea. rewrite map_map, length_map.
    split_and!; [done| |done]. clear Hn Hlen. induction Hq as [|[q e] w qs ws Hw _ IH]; cbn [map]; constructor.
    + apply Forall_cons in Hz as [Hz _]. by eapply word_reads.
    + apply IH. by apply Forall_cons in Hz as [_ ?].
  - intros (sub & q & e & Hn & Hw & Hz & Hc). exists sub, q, e. split_and!; [done|by eapply word_reads|auto].
  - intros (a & b & Hn & Ha & Hb). exists a, b. split_and!; auto.
  - intros (a & b & Hn & Ha & Hb). exists a, b. split_and!; auto.
  - intros (a & Hn & Ha). exists a. split_and!; auto.
Qed.
Lemma nul_args_spec s qs ws m :
  keeps (line s) -> Forall2 (fun qe w => word_at (fst qe) (snd qe) w) qs ws ->
  wp (nul_args (map (fun qe => Some (fst qe)) qs ++ replicate (S m) None)
       (map (fun qe => Some (snd qe)) qs ++ replicate (S m) None)) s
    (fun _ s' => nodes s' = nodes s /\ keeps (line s') /\ later (line s) (line s') /\
       Forall (fun qe => line s' !! (snd qe) = Some 0) qs).
Proof.
  intros Hk Hq. revert s Hk. induction Hq as [|[q e] w qs ws Hw Hq IH]; intros s Hk; cbn [map app].
  { cbn [replicate nul_args]. apply wp_ret. split_and!; try done. by intros i. }
  cbn [nul_args fst snd]. apply wp_bind. eapply wp_mono; [by eapply put_nul_spec|]. cbn beta.
  intros _ s1 (Hn1 & Hk1 & Hl1 & Hz1). eapply wp_mono; [by apply IH|]. cbn beta.
  intros _ s2 (Hn2 & Hk2 & Hl2 & Hz2). split_and!; [congruence|done|by intros i Hi; apply Hl2, Hl1|].
  apply Forall_cons. split; [by apply Hl2|done].
Qed.

Lemma nulterminate_spec fuel c s n :
  (depth c <= fuel)%nat -> keeps (line s) -> rep txt (nodes s) c n ->
  wp (nulterminate fuel n) s (fun _ s' => nodes s' = nodes s /\ keeps (line s') /\
    later (line s) (line s') /\ ended (line s') (nodes s) c n).
Proof.
  revert c s n. induction fuel as [|f IH]; intros c s n Hd Hk Hr; [destruct c; cbn in Hd; lia|].
  assert (Hnode : forall nd k (Q : unit -> parser -> Prop), nodes s !! n = Some nd -> wp (k nd) s Q ->
    wp (bind (get_node n) k) s Q).
  { intros nd k Q Hnd HQ. apply wp_bind. unfold wp at 1, get_node. by rewrite Hnd. }
  assert (Htwo : forall l r a b, (depth l <= f)%nat -> (depth r <= f)%nat ->
    rep txt (nodes s) l a -> rep txt (nodes s) r b ->
    wp (nulterminate f a >>> nulterminate f b) s (fun _ s' => nodes s' = nodes s /\ keeps (line s') /\
      later (line s) (line s') /\ ended (line s') (nodes s) l a /\ ended (line s') (nodes s) r b)).
  { intros l r a b Hl Hr' Ha Hb. apply wp_bind. eapply wp_mono; [by apply (IH l)|]. cbn beta.
    intros _ s1 (Hn1 & Hk1 & Hl1 & He1). eapply wp_mono; [apply (IH r); [done|done|by rewrite Hn1]|]. cbn beta.
    intros _ s2 (Hn2 & Hk2 & Hl2 & He2). rewrite Hn1 in *.
    split_and!; try done; [by intros i Hi; apply Hl2, Hl1|by eapply ended_later]. }
  cbn [nulterminate]. destruct c as [ws|c file mode fd|l r|l r|c]; cbn [rep depth ended] in *.
  - destruct Hr as (a & ea & Hn & (qs & Hq & -> & ->) & Hlt). eapply Hnode; [exact Hn|].
    pose proof (Forall2_length _ _ _ Hq) as Hlen.
    destruct (MAXARGS - length qs)%nat as [|m] eqn:Em; [lia|].
    eapply wp_mono; [by eapply nul_args_spec|]. cbn beta. intros _ s1 (Hn1 & Hk1 & Hl1 & Hz1).
    split_and!; try done. exists qs. eexists. rewrite Em. by split_and!.
  - destruct Hr as (sub & q & e & Hn & Hw & Hc). eapply Hnode; [exact Hn|]. apply wp_bind.
    eapply wp_mono; [apply (IH c); [lia|done|done]|]. cbn beta. intros _ s1 (Hn1 & Hk1 & Hl1 & He1).
    eapply wp_mono; [by eapply put_nul_spec|]. cbn beta. intros _ s2 (Hn2 & Hk2 & Hl2 & Hz2).
    split_and!; [congruence|done|by intros i Hi; apply Hl2, Hl1|].
    exists sub, q, e. split_and!; try done. by eapply ended_later.
  - destruct Hr as (a & b & Hn & Ha & Hb). eapply Hnode; [exact Hn|].
    eapply wp_mono; [apply (Htwo l r); [lia|lia|done|done]|]. cbn beta.
    intros _ s1 (Hn1 & Hk1 & Hl1 & He1 & He2). split_and!; try done. by exists a, b.
  - destruct Hr as (a & b & Hn & Ha & Hb). eapply Hnode; [exact Hn|].
    eapply wp_mono; [apply (Htwo l r); [lia|lia|done|done]|]. cbn beta.
    intros _ s1 (Hn1 & Hk1 & Hl1 & He1 & He2). split_and!; try done. by exists a, b.
  - destruct Hr as (a & Hn & Ha). eapply Hnode; [exact Hn|].
    eapply wp_mono; [apply (IH c); [lia|done|done]|]. cbn beta.
    intros _ s1 (Hn1 & Hk1 & Hl1 & He1). split_and!; try done. by exists a.
Qed.
End nul.

(** ** parsecmd *)

Lemma lex_nil l : no_head is_space l -> lex l = [] -> l = [].
Proof.
  destruct l as [|c l]; [done|]. cbn [no_head lex]. intros ->. destruct (c =? ch ">").
  { destruct l as [|c1 l]; [done|]. by destruct (c1 =? ch ">"). }
  destruct (is_symbol c); [done|]. destruct l as [|c1 l]; [done|]. destruct (plain c1); [|done].
  by destruct (lex (c1 :: l)) as [|[]].
Qed.

(** The reference parser on a whole line. *)
Lemma r_line_whole fuel ts :
  (length ts < fuel)%nat ->
  match r_line fuel ts with
  | inr (c, []) => line_g ts c /\ forall c', line_g ts c' -> c' = c
  | _ => ~ exists c, line_g ts c
  end.
Proof.
  intros Hf. pose proof (proj1 r_complete) as Hc.
  assert (Hall : forall c, line_g ts c -> r_line fuel ts = inr (c, [])).
  { intros c Hg. rewrite <- (app_nil_r ts) at 1. apply Hc; [done|by left|]. by rewrite app_nil_r. }
  destruct (r_line fuel ts) as [e|[c [|t ts']]] eqn:E.
  - intros [c Hg]. by apply Hall in Hg.
  - split.
    + apply r_line_sound in E as (t0 & -> & Hg). by rewrite app_nil_r.
    + intros c' Hg. apply Hall in Hg. congruence.
  - intros [c' Hg]. by apply Hall in Hg.
Qed.

Lemma keeps_line txt junk : keeps txt junk (txt ++ 0 :: junk).
Proof.
  split; [rewrite length_app; cbn; lia|]. intros i c Hi _.
  by rewrite lookup_app_l by (by apply lookup_lt_Some in Hi).
Qed.

(** C9. [parsecmd] of sh.c recognises exactly the command grammar: on every
    line it either returns the tree of the line's only derivation, with each
    word NUL-terminated in place, or panics, and then the line has no
    derivation.  It reads and writes inside the line and stops, given memory
    for two nodes per character. *)
Theorem parsecmd_grammar txt junk fuel s :
  Forall (fun c => c <> 0) txt -> line s = txt ++ 0 :: junk -> pos s = 0%nat ->
  (2 * length txt + 1 <= room s)%nat -> (length txt < fuel)%nat ->
  wpe (parsecmd fuel) s
    (fun n s' => exists c, line_g (lex txt) c /\ (forall c', line_g (lex txt) c' -> c' = c) /\
       tree (line s') (nodes s') c n)
    (fun _ => ~ exists c, line_g (lex txt) c).
Proof.
  intros Htxt Hl Hp0 Hroom Hfuel. pose proof (lex_length txt) as Hlex.
  assert (Htoks : toks txt s = lex txt) by (unfold toks; by rewrite Hp0).
  pose proof (r_line_whole fuel (lex txt) ltac:(lia)) as Hwhole.
  unfold parsecmd. eapply (wpe_then _ _ _ (fun es s' => es = length txt /\ s' = s)).
  { unfold wp, line_strlen. rewrite Hl, cstring_app by done.
    destruct (Nat.ltb_spec (length txt) (length (txt ++ 0 :: junk))) as [_|Hge]; [done|].
    rewrite length_app in Hge. cbn in Hge. lia. }
  intros es s0 (-> & ->). apply wpe_bind.
  eapply wpe_mono; [apply (parseline_parses txt junk Htxt fuel 0%nat s)| |].
  - split; [split; [done|lia]|]. rewrite Htoks. lia.
  - rewrite Htoks. lia.
  - cbn beta. rewrite Htoks. intros n s1 (c & Hr & [Ho1 _] & _ & Hc & _). rewrite Hr in Hwhole.
    eapply wpe_then; [by apply (peek_spec txt junk Htxt)|]. cbn beta.
    intros b s2 (Es2 & [Hl2 Hp2] & Ht2 & _ & Hn2). apply wpe_bind, wpe_gets.
    assert (nodes s2 = nodes s1) as Hnodes by (by rewrite Es2).
    destruct (Nat.eqb_spec (pos s2) (length txt)) as [Heq|Hne]; cbn [negb].
    + assert (toks txt s1 = []) as Hnil. { rewrite <- Ht2. unfold toks. by rewrite Heq, drop_all. }
      rewrite Hnil in Hwhole. destruct Hwhole as [Hg Hu]. apply wpe_wp, wp_bind.
      pose proof (proj1 depth_grammar _ _ Hg) as Hdep.
      eapply wp_mono; [apply (nulterminate_spec txt junk fuel c s2 n)|].
      * lia.
      * rewrite Hl2. apply keeps_line.
      * by rewrite Hnodes.
      * cbn beta. intros _ s3 (Hn3 & Hk3 & _ & He3). apply wp_ret. exists c. split_and!; try done.
        rewrite Hn3. by eapply ended_tree.
    + apply wpe_panic. destruct (toks txt s1) as [|t ts] eqn:Et; [|done]. exfalso. apply Hne.
      assert (drop (pos s2) txt = []) as Hd by (by apply lex_nil).
      apply (f_equal length) in Hd. rewrite length_drop in Hd. cbn in Hd. lia.
  - cbn beta. rewrite Htoks. intros err Hr. by rewrite Hr in Hwhole.
Qed.

(** [ls -l | grep x > out ; (cat) & ] *)
Definition demo_line : list Z := str "ls -l | grep x > out ; (cat) &".

Lemma parsecmd_grammar_witness :
  let s := Parser (demo_line ++ 0 :: replicate 69 0) 0 [] 61 in
  (length demo_line < 31)%nat /\
  wpe (parsecmd 31) s
    (fun n s' => exists c, line_g (lex demo_line) c /\ (forall c', line_g (lex demo_line) c' -> c' = c) /\
       tree (line s') (nodes s') c n)
    (fun _ => ~ exists c, line_g (lex demo_line) c).
Proof.
  split; [vm_compute; lia|].
  apply (parsecmd_grammar demo_line (replicate 69 0)); [|done|done|vm_compute; lia|vm_compute; lia].
  vm_compute. repeat constructor; done.
Defined.
