(* ===== verification/Fs.v ===== *)
(** The file system on disk: fs.c.

    Blocks, inodes, directories and path names.  A pointer to an inode is its
    index in [itable.inode] plus one, so that 0 is the null pointer.  A C
    string is a list of characters that ends where the list ends or at a 0. *)

From Stdlib Require Import Ascii.
From S2P Require Import Prelude.
From S2P Require Import Memory.
From S2P Require Import Spinlock.
From S2P Require Import Riscv.
From S2P Require Import Kalloc.
From S2P Require Import UserMem.
From S2P Require Import Proc.
From S2P Require Import FsState.
From S2P Require Import Bio.
From S2P Require Import Log.
From S2P Require Import Console.
From S2P Require Import UserIO.
From S2P Require Import Printf.

(** ** fs.h, stat.h *)

Definition ROOTDEV : Z := 1.
Definition ROOTINO : Z := 1.
Definition FSMAGIC : Z := 0x10203040.
Definition MAXFILE : nat := NDIRECT + NINDIRECT.
(** [sizeof(struct dinode)] and the inodes of a block. *)
Definition DINODE : nat := 64.
Definition IPB : Z := 16.
Definition IBLOCK (i : Z) (sb : superblock) : Z := u32 (i / IPB + sb_inodestart sb).
Definition BPB : Z := Z.of_nat BSIZE * 8.
Definition BBLOCK (b : Z) (sb : superblock) : Z := u32 (b / BPB + sb_bmapstart sb).
Definition DIRSIZ : nat := 14.
(** [sizeof(struct dirent)]. *)
Definition DIRENT : nat := 16.
Definition T_DIR : Z := 1.
Definition T_FILE : Z := 2.
Definition T_DEVICE : Z := 3.

(** ** Fields of disk structures *)

Definition get16 (d : block) (o : nat) : Z :=
  match d !! o, d !! (o + 1)%nat with Some a, Some b => a + 256 * b | _, _ => 0 end.
Definition put16 (d : block) (o : nat) (v : Z) : block :=
  <[(o + 1)%nat := u8 (u16 v / 2 ^ 8)]> (<[o := u8 v]> d).

(** [m] bytes from [o] on, and overwriting from [o] on. *)
Definition slice (d : list Z) (o m : nat) : list Z := take m (drop o d).
Definition splice (d : list Z) (o : nat) (bs : list Z) : list Z := take o d ++ bs ++ drop (o + length bs) d.

(** [(struct dinode* )bp->data + inum%IPB], as an offset. *)
Definition dinode_at (inum : Z) : nat := (Z.to_nat (inum mod IPB) * DINODE)%nat.

(** [a[0]], ..., [a[n-1]] of an array of [uint] at offset [o]. *)
Definition get_addrs (d : block) (o n : nat) : list Z := map (fun q => get32 d (o + 4 * q)) (seq 0 n).
Fixpoint put_addrs (d : block) (o : nat) (a : list Z) : block :=
  match a with
  | [] => d
  | v :: a' => put_addrs (put32 d o v) (o + 4) a'
  end.

(** The assignments of [iupdate] and of [ilock]. *)
Definition put_dinode (x : inode) (o : nat) (d : block) : block :=
  let d := put16 d o (i_type x) in
  let d := put16 d (o + 2) (i_major x) in
  let d := put16 d (o + 4) (i_minor x) in
  let d := put16 d (o + 6) (i_nlink x) in
  let d := put32 d (o + 8) (i_size x) in
  put_addrs d (o + 12) (i_addrs x).

Definition get_dinode (d : block) (o : nat) (x : inode) : inode :=
  Inode (i_dev x) (i_inum x) (i_ref x) (i_valid x)
    (i16 (get16 d o)) (i16 (get16 d (o + 2))) (i16 (get16 d (o + 4))) (i16 (get16 d (o + 6)))
    (get32 d (o + 8)) (get_addrs d (o + 12) (S NDIRECT)).

Definition get_superblock (d : block) : superblock :=
  Superblock (get32 d 0) (get32 d 4) (get32 d 8) (get32 d 12) (get32 d 16) (get32 d 20) (get32 d 24) (get32 d 28).

Definition set_i_ref v x := Inode (i_dev x) (i_inum x) v (i_valid x) (i_type x) (i_major x) (i_minor x) (i_nlink x) (i_size x) (i_addrs x).
Definition set_i_valid v x := Inode (i_dev x) (i_inum x) (i_ref x) v (i_type x) (i_major x) (i_minor x) (i_nlink x) (i_size x) (i_addrs x).
Definition set_i_type v x := Inode (i_dev x) (i_inum x) (i_ref x) (i_valid x) v (i_major x) (i_minor x) (i_nlink x) (i_size x) (i_addrs x).
Definition set_i_nlink v x := Inode (i_dev x) (i_inum x) (i_ref x) (i_valid x) (i_type x) (i_major x) (i_minor x) v (i_size x) (i_addrs x).
Definition set_i_size v x := Inode (i_dev x) (i_inum x) (i_ref x) (i_valid x) (i_type x) (i_major x) (i_minor x) (i_nlink x) v (i_addrs x).
Definition set_i_addrs v x := Inode (i_dev x) (i_inum x) (i_ref x) (i_valid x) (i_type x) (i_major x) (i_minor x) (i_nlink x) (i_size x) v.

(** ** Strings *)

(** [strncmp] and [strncpy] of string.c on strings of the kernel's stack. *)
Fixpoint strncmp_n (n : nat) (p q : list Z) : Z :=
  match n with
  | O => 0
  | S n' =>
      let c := hd 0 p in let e := hd 0 q in
      if negb (c =? 0) && (c =? e) then strncmp_n n' (tl p) (tl q) else c - e
  end.

Fixpoint strncpy_n (n : nat) (t : list Z) : list Z :=
  match n with
  | O => []
  | S n' => let c := hd 0 t in if c =? 0 then replicate n 0 else c :: strncpy_n n' (tl t)
  end.

Definition namecmp (s t : list Z) : Z := strncmp_n DIRSIZ s t.

Definition SLASH : Z := 47.

(** The loops of [skipelem]: over slashes, and over an element. *)
Fixpoint skip_slashes (path : list Z) : list Z :=
  match path with
  | c :: path' => if c =? SLASH then skip_slashes path' else path
  | [] => []
  end.

Fixpoint elem_split (path : list Z) : list Z * list Z :=
  match path with
  | c :: path' =>
      if negb (c =? SLASH) && negb (c =? 0)
      then let '(e, rest) := elem_split path' in (c :: e, rest)
      else ([], path)
  | [] => ([], [])
  end.

(** The path after the next element, and the array [name] with that element. *)
Definition skipelem (path name : list Z) : option (list Z * list Z) :=
  let path := skip_slashes path in
  if hd 0 path =? 0 then None
  else
    let '(s, path) := elem_split path in
    let name := if (DIRSIZ <=? length s)%nat then splice name 0 (take DIRSIZ s) else splice name 0 (s ++ [0]) in
    Some (skip_slashes path, name).

Section code.
Context `{LinkerSyms} (swtch : M (kernel fsys) unit) (fuel : nat).
Context (virtio_disk_rw : nat -> bool -> M (kernel fsys) unit).
Abbreviation K := (M (kernel fsys)).
Abbreviation bread := (bread swtch fuel virtio_disk_rw).

(** [printf], with the lock. *)
Definition printk (fmt : list Z) (ap : list varg) : K unit :=
  lock_acquire PrLock >>>
  kprintf consputc kdigits fmt ap >>>
  lock_release PrLock.

(** ** Blocks *)

Definition readsb (dev : Z) : K unit :=
  bp <- bread dev 1 ;;
  x <- getb bp ;;
  fmod (set_fs_sb (get_superblock (b_data x))) >>>
  brelse bp.

Definition bzero (dev bno : Z) : K unit :=
  bp <- bread dev (u32 bno) ;;
  setb bp (set_b_data (replicate BSIZE 0)) >>>
  log_write bp >>>
  brelse bp.

(** [bp->data[i]]. *)
Definition data_byte (bp i : nat) : K Z :=
  x <- getb bp ;;
  match b_data x !! i with Some c => ret c | None => crash end.
Definition set_data_byte (bp i : nat) (c : Z) : K unit :=
  setb bp (fun x => set_b_data (<[i := u8 c]> (b_data x)) x).

Definition balloc (dev : Z) : K Z :=
  sb <- fgets fs_sb ;;
  loop (S (Z.to_nat (sb_size sb))) (fun b =>
    if b <? sb_size sb then
      bp <- bread dev (BBLOCK b sb) ;;
      r <- loop (S (Z.to_nat BPB)) (fun bi =>
        if (bi <? BPB) && (b + bi <? sb_size sb) then
          let m := Z.shiftl 1 (bi mod 8) in
          c <- data_byte bp (Z.to_nat (bi / 8)) ;;
          if Z.land c m =? 0 then
            set_data_byte bp (Z.to_nat (bi / 8)) (Z.lor c m) >>>
            log_write bp >>>
            brelse bp >>>
            bzero dev (b + bi) >>>
            ret (inr (Some (b + bi)))
          else ret (inl (bi + 1))
        else ret (inr None)) 0 ;;
      match r with
      | Some b => ret (inr b)
      | None => brelse bp >>> ret (inl (b + BPB))
      end
    else printk (str "balloc: out of blocks" ++ [NEWLINE]) [] >>> ret (inr 0)) 0.

Definition bfree (dev b : Z) : K unit :=
  sb <- fgets fs_sb ;;
  bp <- bread dev (BBLOCK b sb) ;;
  let bi := b mod BPB in
  let m := Z.shiftl 1 (bi mod 8) in
  c <- data_byte bp (Z.to_nat (bi / 8)) ;;
  if Z.land c m =? 0 then panic "freeing free block"
  else
    set_data_byte bp (Z.to_nat (bi / 8)) (Z.land c (Z.lnot m)) >>>
    log_write bp >>>
    brelse bp.

(** ** The inode table *)

Definition geti (ip : Z) : K inode := fun k =>
  if ip <? 1 then Crash
  else match fs_inode (k_files k) !! Z.to_nat (ip - 1) with Some x => Ok (x, k) | None => Crash end.
Definition seti (ip : Z) (f : inode -> inode) : K unit :=
  x <- geti ip ;; fmod (fun s => set_fs_inode (<[Z.to_nat (ip - 1) := f x]> (fs_inode s)) s).

Definition iinit : K unit :=
  loop (S NINODE) (fun i =>
    if (i <? NINODE)%nat then initsleeplock (INODE_LOCK (Z.of_nat i + 1)) >>> ret (inl (S i))
    else ret (inr tt)) 0%nat.

(** The scan of [iget]: the entry of the inode, or the first free one. *)
Definition iget_scan (dev inum : Z) : K (Z + option Z) :=
  loop (S NINODE) (fun '(ip, empty) =>
    if ip <? 1 + Z.of_nat NINODE then
      x <- geti ip ;;
      if (0 <? i_ref x) && (i_dev x =? dev) && (i_inum x =? inum)
      then ret (inr (inl ip))
      else ret (inl (ip + 1, match empty with
                             | None => if i_ref x =? 0 then Some ip else None
                             | Some e => Some e
                             end))
    else ret (inr (inr empty))) (1, None).

Definition iget (dev inum : Z) : K Z :=
  lock_acquire ItableLock >>>
  r <- iget_scan dev inum ;;
  match r with
  | inl ip =>
      seti ip (fun x => set_i_ref (i_ref x + 1) x) >>>
      lock_release ItableLock >>>
      ret ip
  | inr None => panic "iget: no inodes"
  | inr (Some ip) =>
      seti ip (fun x => Inode dev inum 1 0 (i_type x) (i_major x) (i_minor x) (i_nlink x) (i_size x) (i_addrs x)) >>>
      lock_release ItableLock >>>
      ret ip
  end.

Definition inode_dup (ip : Z) : K Z :=
  lock_acquire ItableLock >>>
  seti ip (fun x => set_i_ref (i_ref x + 1) x) >>>
  lock_release ItableLock >>>
  ret ip.

Definition ialloc (dev type : Z) : K Z :=
  sb <- fgets fs_sb ;;
  loop (S (Z.to_nat (sb_ninodes sb))) (fun inum =>
    if inum <? sb_ninodes sb then
      bp <- bread dev (IBLOCK inum sb) ;;
      x <- getb bp ;;
      if i16 (get16 (b_data x) (dinode_at inum)) =? 0 then
        setb bp (fun x => set_b_data (splice (b_data x) (dinode_at inum) (replicate DINODE 0)) x) >>>
        setb bp (fun x => set_b_data (put16 (b_data x) (dinode_at inum) type) x) >>>
        log_write bp >>>
        brelse bp >>>
        ip <- iget dev inum ;;
        ret (inr ip)
      else brelse bp >>> ret (inl (inum + 1))
    else printk (str "ialloc: no inodes" ++ [NEWLINE]) [] >>> ret (inr 0)) 1.

Definition iupdate (ip : Z) : K unit :=
  x <- geti ip ;;
  sb <- fgets fs_sb ;;
  bp <- bread (i_dev x) (IBLOCK (i_inum x) sb) ;;
  setb bp (fun b => set_b_data (put_dinode x (dinode_at (i_inum x)) (b_data b)) b) >>>
  log_write bp >>>
  brelse bp.

Definition ilock (ip : Z) : K unit :=
  if ip =? 0 then panic "ilock"
  else
    x <- geti ip ;;
    if i_ref x <? 1 then panic "ilock"
    else
      acquiresleep swtch fuel (INODE_LOCK ip) >>>
      x <- geti ip ;;
      if i_valid x =? 0 then
        sb <- fgets fs_sb ;;
        bp <- bread (i_dev x) (IBLOCK (i_inum x) sb) ;;
        b <- getb bp ;;
        seti ip (get_dinode (b_data b) (dinode_at (i_inum x))) >>>
        brelse bp >>>
        seti ip (set_i_valid 1) >>>
        x <- geti ip ;;
        if i_type x =? 0 then panic "ilock: no type" else ret tt
      else ret tt.

Definition iunlock (ip : Z) : K unit :=
  if ip =? 0 then panic "iunlock"
  else
    h <- holdingsleep (INODE_LOCK ip) ;;
    if negb h then panic "iunlock"
    else
      x <- geti ip ;;
      if i_ref x <? 1 then panic "iunlock" else releasesleep (INODE_LOCK ip).

(** ** The blocks of an inode *)

(** [ip->addrs[i]] and an assignment to it. *)
Definition get_addr (ip : Z) (i : nat) : K Z :=
  x <- geti ip ;;
  match i_addrs x !! i with Some a => ret a | None => crash end.
Definition set_addr (ip : Z) (i : nat) (a : Z) : K unit :=
  seti ip (fun x => set_i_addrs (<[i := a]> (i_addrs x)) x).

(** [a[bn]] of the indirect block in buffer [bp]. *)
Definition get_indirect (bp bn : nat) : K Z := x <- getb bp ;; ret (get32 (b_data x) (4 * bn)).
Definition set_indirect (bp bn : nat) (a : Z) : K unit :=
  setb bp (fun x => set_b_data (put32 (b_data x) (4 * bn) a) x).

(** The first step of both cases of [bmap]: the address at index [i], which
    is allocated if it is 0; 0 if that fails. *)
Definition addr_or_alloc (ip : Z) (i : nat) : K Z :=
  addr <- get_addr ip i ;;
  if addr =? 0 then
    x <- geti ip ;;
    addr <- balloc (i_dev x) ;;
    if addr =? 0 then ret 0 else set_addr ip i addr >>> ret addr
  else ret addr.

Definition bmap (ip bn : Z) : K Z :=
  if bn <? Z.of_nat NDIRECT then addr_or_alloc ip (Z.to_nat bn)
  else
    let bn := bn - Z.of_nat NDIRECT in
    if bn <? Z.of_nat NINDIRECT then
      addr <- addr_or_alloc ip NDIRECT ;;
      if addr =? 0 then ret 0
      else
        x <- geti ip ;;
        bp <- bread (i_dev x) addr ;;
        addr <- get_indirect bp (Z.to_nat bn) ;;
        addr <- (if addr =? 0 then
                   addr <- balloc (i_dev x) ;;
                   (if negb (addr =? 0) then set_indirect bp (Z.to_nat bn) addr >>> log_write bp else ret tt) >>>
                   ret addr
                 else ret addr) ;;
        brelse bp >>>
        ret addr
    else panic "bmap: out of range".

(** The loop of [itrunc] over the direct blocks, and the one over the
    addresses of the indirect block. *)
Definition free_direct (ip : Z) : K unit :=
  loop (S NDIRECT) (fun i =>
    if (i <? NDIRECT)%nat then
      a <- get_addr ip i ;;
      (if negb (a =? 0) then x <- geti ip ;; bfree (i_dev x) a >>> set_addr ip i 0 else ret tt) >>>
      ret (inl (S i))
    else ret (inr tt)) 0%nat.

Definition free_indirect (dev : Z) (bp : nat) : K unit :=
  loop (S NINDIRECT) (fun j =>
    if (j <? NINDIRECT)%nat then
      a <- get_indirect bp j ;;
      (if negb (a =? 0) then bfree dev a else ret tt) >>>
      ret (inl (S j))
    else ret (inr tt)) 0%nat.

Definition itrunc (ip : Z) : K unit :=
  free_direct ip >>>
  a <- get_addr ip NDIRECT ;;
  (if negb (a =? 0) then
     x <- geti ip ;;
     bp <- bread (i_dev x) a ;;
     free_indirect (i_dev x) bp >>>
     brelse bp >>>
     bfree (i_dev x) a >>>
     set_addr ip NDIRECT 0
   else ret tt) >>>
  seti ip (set_i_size 0) >>>
  iupdate ip.

Definition inode_put (ip : Z) : K unit :=
  lock_acquire ItableLock >>>
  x <- geti ip ;;
  (if (i_ref x =? 1) && negb (i_valid x =? 0) && (i_nlink x =? 0) then
     acquiresleep swtch fuel (INODE_LOCK ip) >>>
     lock_release ItableLock >>>
     itrunc ip >>>
     seti ip (set_i_type 0) >>>
     iupdate ip >>>
     seti ip (set_i_valid 0) >>>
     releasesleep (INODE_LOCK ip) >>>
     lock_acquire ItableLock
   else ret tt) >>>
  seti ip (fun x => set_i_ref (i_ref x - 1) x) >>>
  lock_release ItableLock.

Definition iunlockput (ip : Z) : K unit := iunlock ip >>> inode_put ip.

Definition ireclaim (dev : Z) : K unit :=
  sb <- fgets fs_sb ;;
  loop (S (Z.to_nat (sb_ninodes sb))) (fun inum =>
    if inum <? sb_ninodes sb then
      bp <- bread dev (IBLOCK inum sb) ;;
      x <- getb bp ;;
      ip <- (if negb (i16 (get16 (b_data x) (dinode_at inum)) =? 0) && (i16 (get16 (b_data x) (dinode_at inum + 6)) =? 0)
             then printk (str "ireclaim: orphaned inode %d" ++ [NEWLINE]) [VNum inum] >>> iget dev inum
             else ret 0) ;;
      brelse bp >>>
      (if negb (ip =? 0) then
         log_begin_op swtch fuel >>>
         ilock ip >>>
         iunlock ip >>>
         inode_put ip >>>
         log_end_op swtch fuel virtio_disk_rw
       else ret tt) >>>
      ret (inl (inum + 1))
    else ret (inr tt)) 1.

Definition fsinit (dev : Z) : K unit :=
  readsb dev >>>
  sb <- fgets fs_sb ;;
  if negb (sb_magic sb =? FSMAGIC) then panic "invalid file system"
  else initlog swtch fuel virtio_disk_rw dev >>> ireclaim dev.

(** ** Contents *)

(** The destination of [readi]: a user address, a kernel address, or a local
    variable with the bytes it has received; and the source of [writei]. *)
Inductive dest := UserDst (va : Z) | KernelDst (pa : Z) | LocalDst (got : list Z).
Inductive source := UserSrc (va : Z) | LocalSrc (bs : list Z).

(** [either_copyout] and [either_copyin], with the pointer advanced. *)
Definition either_copyout (dst : dest) (src : list Z) : K (Z * dest) :=
  let n := Z.of_nat (length src) in
  match dst with
  | UserDst va => rc <- either_copyout_user va src ;; ret (rc, UserDst (u64 (va + n)))
  | KernelDst pa => on_m (modify (fun s => set_mem (write_bytes (mem s) pa src) s)) >>> ret (0, KernelDst (u64 (pa + n)))
  | LocalDst got => ret (0, LocalDst (got ++ src))
  end.

(** The result, the bytes copied, which are fewer than [n] if it fails, and
    the source. *)
Definition either_copyin (src : source) (n : nat) : K (Z * list Z * source) :=
  match src with
  | UserSrc va => r <- either_copyin_user va n ;; ret (r, UserSrc (u64 (va + Z.of_nat n)))
  | LocalSrc bs => ret (0, take n bs, LocalSrc (drop n bs))
  end.

Record stat := Stat { st_dev : Z; st_ino : Z; st_type : Z; st_nlink : Z; st_size : Z }.

Definition stati (ip : Z) : K stat :=
  x <- geti ip ;;
  ret (Stat (i32 (i_dev x)) (i_inum x) (i_type x) (i_nlink x) (i_size x)).

(** [min(n - tot, BSIZE - off%BSIZE)]. *)
Definition chunk (n tot off : Z) : Z := Z.min (u32 (n - tot)) (Z.of_nat BSIZE - off mod Z.of_nat BSIZE).

Definition readi (ip : Z) (dst : dest) (off n : Z) : K (Z * dest) :=
  x <- geti ip ;;
  if (i_size x <? off) || (u32 (off + n) <? off) then ret (0, dst)
  else
    let n := if i_size x <? u32 (off + n) then u32 (i_size x - off) else n in
    loop (S (Z.to_nat n)) (fun '(tot, off, dst) =>
      if tot <? n then
        addr <- bmap ip (off / Z.of_nat BSIZE) ;;
        if addr =? 0 then ret (inr (i32 tot, dst))
        else
          x <- geti ip ;;
          bp <- bread (i_dev x) addr ;;
          let m := chunk n tot off in
          b <- getb bp ;;
          r <- either_copyout dst (slice (b_data b) (Z.to_nat (off mod Z.of_nat BSIZE)) (Z.to_nat m)) ;;
          let '(rc, dst) := r in
          if rc =? -1 then brelse bp >>> ret (inr (-1, dst))
          else brelse bp >>> ret (inl (u32 (tot + m), u32 (off + m), dst))
      else ret (inr (i32 tot, dst))) (0, off, dst).

(** The loop of [writei]; the bytes that [either_copyin] has copied are in the
    buffer also when it fails. *)
Definition writei_loop (ip : Z) (src : source) (off n : Z) : K (Z * Z) :=
  loop (S (Z.to_nat n)) (fun '(tot, off, src) =>
    if tot <? n then
      addr <- bmap ip (off / Z.of_nat BSIZE) ;;
      if addr =? 0 then ret (inr (tot, off))
      else
        x <- geti ip ;;
        bp <- bread (i_dev x) addr ;;
        let m := chunk n tot off in
        r <- either_copyin src (Z.to_nat m) ;;
        let '(rc, bs, src) := r in
        setb bp (fun b => set_b_data (splice (b_data b) (Z.to_nat (off mod Z.of_nat BSIZE)) bs) b) >>>
        if rc =? -1 then brelse bp >>> ret (inr (tot, off))
        else
          log_write bp >>>
          brelse bp >>>
          ret (inl (u32 (tot + m), u32 (off + m), src))
    else ret (inr (tot, off))) (0, off, src).

Definition writei (ip : Z) (src : source) (off n : Z) : K Z :=
  x <- geti ip ;;
  if (i_size x <? off) || (u32 (off + n) <? off) then ret (-1)
  else if Z.of_nat MAXFILE * Z.of_nat BSIZE <? u32 (off + n) then ret (-1)
  else
    r <- writei_loop ip src off n ;;
    let '(tot, off) := r in
    x <- geti ip ;;
    (if i_size x <? off then seti ip (set_i_size off) else ret tt) >>>
    iupdate ip >>>
    ret (i32 tot).

(** ** Directories *)

(** Read the [struct dirent] at [off]; [None] if [readi] comes short. *)
Definition read_dirent (dp off : Z) : K (option (list Z)) :=
  r <- readi dp (LocalDst []) off (Z.of_nat DIRENT) ;;
  match r with
  | (n, LocalDst de) => if n =? Z.of_nat DIRENT then ret (Some de) else ret None
  | _ => crash
  end.
Definition de_inum (de : list Z) : Z := get16 de 0.
Definition de_name (de : list Z) : list Z := drop 2 de.
Definition new_dirent (name : list Z) (inum : Z) : list Z :=
  put16 (replicate 2 0 ++ strncpy_n DIRSIZ name) 0 inum.

(** The inode and the offset of the entry. *)
Definition dirlookup (dp : Z) (name : list Z) : K (option (Z * Z)) :=
  x <- geti dp ;;
  if negb (i_type x =? T_DIR) then panic "dirlookup not DIR"
  else
    loop (S (Z.to_nat (i_size x))) (fun off =>
      x <- geti dp ;;
      if off <? i_size x then
        r <- read_dirent dp off ;;
        match r with
        | None => panic "dirlookup read"
        | Some de =>
            if de_inum de =? 0 then ret (inl (u32 (off + Z.of_nat DIRENT)))
            else if namecmp name (de_name de) =? 0 then
              ip <- iget (i_dev x) (de_inum de) ;;
              ret (inr (Some (ip, off)))
            else ret (inl (u32 (off + Z.of_nat DIRENT)))
        end
      else ret (inr None)) 0.

(** The offset of the first empty entry, or the size of the directory. *)
Definition find_empty (dp : Z) : K Z :=
  x <- geti dp ;;
  loop (S (Z.to_nat (i_size x))) (fun off =>
    x <- geti dp ;;
    if u32 off <? i_size x then
      r <- read_dirent dp off ;;
      match r with
      | None => panic "dirlink read"
      | Some de => if de_inum de =? 0 then ret (inr off) else ret (inl (i32 (off + Z.of_nat DIRENT)))
      end
    else ret (inr off)) 0.

Definition dirlink (dp : Z) (name : list Z) (inum : Z) : K Z :=
  r <- dirlookup dp name ;;
  match r with
  | Some (ip, _) => inode_put ip >>> ret (-1)
  | None =>
      off <- find_empty dp ;;
      n <- writei dp (LocalSrc (new_dirent name inum)) (u32 off) (Z.of_nat DIRENT) ;;
      ret (if n =? Z.of_nat DIRENT then 0 else -1)
  end.

(** ** Paths *)

(** The inode, and the array [name]. *)
Definition namex (path : list Z) (nameiparent : bool) (name : list Z) : K (Z * list Z) :=
  ip <- (if hd 0 path =? SLASH then iget ROOTDEV ROOTINO
         else i <- myproc ;; p <- getp i ;; inode_dup (p_cwd p)) ;;
  loop (S (length path)) (fun '(ip, path, name) =>
    match skipelem path name with
    | None => if nameiparent then inode_put ip >>> ret (inr (0, name)) else ret (inr (ip, name))
    | Some (path, name) =>
        ilock ip >>>
        x <- geti ip ;;
        if negb (i_type x =? T_DIR) then iunlockput ip >>> ret (inr (0, name))
        else if nameiparent && (hd 0 path =? 0) then iunlock ip >>> ret (inr (ip, name))
        else
          r <- dirlookup ip name ;;
          match r with
          | None => iunlockput ip >>> ret (inr (0, name))
          | Some (next, _) => iunlockput ip >>> ret (inl (next, path, name))
          end
    end) (ip, path, name).

Definition namei (path : list Z) : K Z := r <- namex path false (replicate DIRSIZ 0) ;; ret (fst r).
Definition nameiparent (path name : list Z) : K (Z * list Z) := namex path true name.
End code.
