(* ===== verification/FsOp.v ===== *)
(** File system code inside a transaction.

    [inop k0 V L D B k] is the state of fs.c between begin_op and end_op:
    [V] is the contents of the blocks as the code sees them, [L] the blocks it
    has locked with their buffers, [D] those of them it has changed and not
    yet given to log_write, and [B] the blocks the transaction may write.  The
    rules below are what bread, brelse, log_write and assignments to buffers
    do to that state; the log and the buffer cache are out of sight. *)

From S2P Require Import Prelude.
From S2P Require Import Spinlock.
From S2P Require Import Proc.
From S2P Require Import FsState.
From S2P Require Import Bio.
From S2P Require Import BioSpec.
From S2P Require Import Log.
From S2P Require Import LogSpec.
From S2P Require Import LogTheorems.

(** ** References beyond one's own locks *)

Definition cnt (L : gmap Z nat) (b : Z) : nat := if L !! b is Some _ then 1%nat else 0%nat.

Definition others (A : cache) (L : gmap Z nat) : gset Z :=
  filter (fun b => (cnt L b < refs A b)%nat) (dom (cr A)).

Lemma elem_others A L b : b ∈ others A L <-> (cnt L b < refs A b)%nat.
Proof.
  unfold others. rewrite elem_of_filter, elem_of_dom. split; [by intros [? _]|]. intros Hb. split; [done|].
  unfold refs in Hb. destruct (cr A !! b); [done|]. cbn in Hb. lia.
Qed.

Lemma cnt_insert L b j : cnt (<[b := j]> L) b = 1%nat.
Proof. unfold cnt. by rewrite lookup_insert_eq. Qed.
Lemma cnt_insert_ne L b b' j : b <> b' -> cnt (<[b := j]> L) b' = cnt L b'.
Proof. intros. unfold cnt. by rewrite lookup_insert_ne. Qed.
Lemma cnt_delete L b : cnt (delete b L) b = 0%nat.
Proof. unfold cnt. by rewrite lookup_delete_eq. Qed.
Lemma cnt_delete_ne L b b' : b <> b' -> cnt (delete b L) b' = cnt L b'.
Proof. intros. unfold cnt. by rewrite lookup_delete_ne. Qed.
Lemma cnt_some L b j : L !! b = Some j -> cnt L b = 1%nat.
Proof. intros E. unfold cnt. by rewrite E. Qed.
Lemma cnt_none L b : L !! b = None -> cnt L b = 0%nat.
Proof. intros E. unfold cnt. by rewrite E. Qed.
Lemma cnt_le L b : (cnt L b <= 1)%nat.
Proof. unfold cnt. destruct (L !! b); lia. Qed.

Lemma refs_drop_eq A b : refs (a_drop b A) b = pred (refs A b).
Proof.
  unfold refs at 1. cbn. case_decide as E; [rewrite lookup_delete_eq; cbn; lia|]. by rewrite lookup_insert_eq.
Qed.

(** Locking and unlocking do not change them. *)
Lemma others_take A L b j : L !! b = None -> others (a_take b A) (<[b := j]> L) = others A L.
Proof.
  intros HL. apply set_eq. intros b'. rewrite !elem_others. destruct (decide (b = b')) as [<-|Hne].
  - rewrite refs_take, cnt_insert, (cnt_none _ _ HL). lia.
  - by rewrite refs_take_ne, cnt_insert_ne.
Qed.

Lemma others_drop A L b j : L !! b = Some j -> (0 < refs A b)%nat -> others (a_drop b A) (delete b L) = others A L.
Proof.
  intros HL Hr. apply set_eq. intros b'. rewrite !elem_others. destruct (decide (b = b')) as [<-|Hne].
  - rewrite refs_drop_eq, cnt_delete, (cnt_some _ _ _ HL). lia.
  - by rewrite refs_drop_ne, cnt_delete_ne.
Qed.

(** Pinning adds the block. *)
Lemma others_pin A L b : others (a_take b A) L ⊆ {[b]} ∪ others A L.
Proof.
  intros b'. rewrite elem_of_union, elem_of_singleton, !elem_others. destruct (decide (b = b')) as [<-|Hne]; [by left|].
  rewrite refs_take_ne by done. by right.
Qed.

Lemma size_refs A L : refs_ok A -> (size (cr A) <= size (others A L) + size L)%nat.
Proof.
  intros Hok. rewrite <- size_dom, <- (size_dom L).
  assert (dom (cr A) ⊆ others A L ∪ dom L) as Hs%subseteq_size.
  { intros b Hb. rewrite elem_of_union, elem_others, elem_of_dom. apply elem_of_dom in Hb as [n Hn].
    pose proof (Hok b n Hn). unfold cnt, refs. rewrite Hn. cbn. destruct (L !! b); [right; by eexists|by left]. }
  rewrite size_union_alt in Hs. pose proof (subseteq_size (dom L ∖ others A L) (dom L) ltac:(set_solver)). lia.
Qed.

(** ** The state *)

Section op.
Context (i : nat) (pid dev : Z).
Implicit Types k : kernel fsys.
Abbreviation here := (here i pid dev).

(** No buffer is in use. *)
Definition quiet (k : kernel fsys) : Prop := Forall (fun x => b_refcnt x = 0) (bc_buf (fs_bc (k_files k))).

Record inop_at (k0 : kernel fsys) (V : Z -> block) (L : gmap Z nat) (D B : gset Z) (k : kernel fsys)
    (A : cache) (bs : list Z) : Prop := {
  io_here : here (relog (fs_log (k_files k)) k0) A L k;
  io_view b : cv A b = V b;
  io_tx : tx dev (fs_log (k_files k)) bs;
  io_op : same_op (fs_log (k_files k0)) (fs_log (k_files k));
  io_out b : b ∈ B -> 1 <= lg_outstanding (fs_log (k_files k));
  io_len : length (lh_block (fs_log (k_files k))) = 30%nat;
  io_pin b : b ∈ bs -> b ∈ others A L /\ b ∈ B;
  io_clean b : b ∉ bs -> b ∉ D -> cv A b = cd A b;
  io_refs b : Z.of_nat (refs A b) + 4 <= 2 ^ 32 + Z.of_nat (cnt L b) + (if decide (b ∈ bs) then 1 else 0);
  io_room : (size (others A L ∪ B) + 2 <= NBUF)%nat;
  io_base b : quiet k0 -> (refs A b <= cnt L b + (if decide (b ∈ bs) then 1 else 0))%nat
}.

Definition inop k0 V L D B k : Prop := exists A bs, inop_at k0 V L D B k A bs.

Lemma inop_ext k0 V V' L D B k : (forall b, V b = V' b) -> inop k0 V L D B k -> inop k0 V' L D B k.
Proof.
  intros E (A & bs & [H1 H2 H3 H4 H5 H6 H7 H8 H9 H10 H11]). exists A, bs. split; try done.
  intros b. by rewrite H2, E.
Qed.

Lemma inop_getb k0 V L D B k b j (Q : buf -> kernel fsys -> Prop) :
  inop k0 V L D B k -> L !! b = Some j -> (forall x, b_data x = V b -> Q x k) -> wp (getb j) k Q.
Proof.
  intros (A & bs & H) HL HQ. eapply here_getb; [exact (io_here _ _ _ _ _ _ _ _ H)|done|].
  intros x Hx _. apply HQ. by rewrite Hx, (io_view _ _ _ _ _ _ _ _ H).
Qed.

Lemma inop_setb k0 V L D B k b j f g (Q : unit -> kernel fsys -> Prop) :
  inop k0 V L D B k -> L !! b = Some j -> (forall x, f x = set_b_data (g (b_data x)) x) ->
  (forall k', inop k0 (upd V b (g (V b))) L ({[b]} ∪ D) B k' -> Q tt k') -> wp (setb j f) k Q.
Proof.
  intros (A & bs & H) HL Hf HQ. eapply here_set; [exact (io_here _ _ _ _ _ _ _ _ H)|done|exact Hf|].
  intros k' H'. apply HQ. exists (a_set b (g (cv A b)) A), bs.
  pose proof (relog_log _ _ _ _ _ _ _ _ H') as El. rewrite <- El in H'.
  destruct H as [_ H2 H3 H4 H5 H6 H7 H8 H9 H10 H11]. rewrite <- El in H3, H4, H5, H6. split; try done.
  - intros b'. cbn. rewrite H2. unfold upd. case_decide; [done|apply H2].
  - intros b' Hb' Hd. cbn. rewrite upd_ne by set_solver. apply H8; [done|set_solver].
Qed.

Lemma here_join k0 l A L k l' A' L' k' :
  here (relog l k0) A L k -> here (relog l' k) A' L' k' -> here (relog l' k0) A' L' k'.
Proof.
  intros [_ W R _] [Hh W' R' C']. split; try done.
  - eapply (woke_trans _ k); [by destruct W|]. by destruct W'.
  - destruct R as [R1 R2 R3 R4 R5 R6 R7 R8], R' as [S1 S2 S3 S4 S5 S6 S7 S8].
    split; try done; cbn in *; try congruence. intros id Hid. by rewrite S1, R1.
Qed.

Lemma logged_in bs b b' : b' ∈ logged bs b <-> b' = b \/ b' ∈ bs.
Proof. unfold logged. case_decide; rewrite ?elem_of_app, ?list_elem_of_singleton; naive_solver. Qed.

Lemma inop_log_write k0 V L D B k b j (Q : unit -> kernel fsys -> Prop) :
  inop k0 V L D B k -> L !! b = Some j -> b ∈ B -> 0 <= b < 2 ^ 31 -> off_log (lg_start (fs_log (k_files k0))) b ->
  (forall k', inop k0 V L (D ∖ {[b]}) B k' -> Q tt k') -> wp (log_write j) k Q.
Proof.
  intros (A & bs & H) HL HB Hb Ho HQ. destruct H as [H1 H2 H3 H4 H5 H6 H7 H8 H9 H10 H11].
  destruct (mine_buf pid dev _ _ _ _ _ (he_cache _ _ _ _ _ _ _ H1) HL) as (_ & _ & _ & Hpos & _).
  assert (Hlen : (length bs <= size B)%nat).
  { rewrite <- (size_list_to_set (C := gset Z) bs) by apply H3. apply subseteq_size. intros x Hx%elem_of_list_to_set. by apply H7. }
  pose proof (subseteq_size B (others A L ∪ B) ltac:(set_solver)) as HsB. change NBUF with 30%nat in H10.
  pose proof (H9 b) as Hr. rewrite (cnt_some _ _ _ HL) in Hr. specialize (H5 b HB).
  eapply wp_mono; [apply (log_write_spec i pid dev k A L b j bs); try done|].
  - by eapply here_now.
  - lia.
  - destruct H4 as (-> & _). done.
  - case_decide; lia.
  - cbn beta. intros [] k' (l' & H' & T & S'). apply HQ. exists (if decide (b ∈ bs) then A else a_take b A), (logged bs b).
    pose proof (relog_log _ _ _ _ _ _ _ _ H') as El. subst l'.
    assert (Hmono : forall b', b' ∈ others A L -> b' ∈ others (if decide (b ∈ bs) then A else a_take b A) L).
    { intros b'. case_decide; [done|]. rewrite !elem_others. destruct (decide (b = b')) as [<-|]; [rewrite refs_take; lia|by rewrite refs_take_ne]. }
    split; try done.
    + by eapply here_join.
    + intros b'. rewrite <- H2. by case_decide.
    + destruct H4 as (? & ? & ? & ?), S' as (? & ? & ? & ?). split_and!; congruence.
    + destruct S' as (_ & -> & _). done.
    + destruct S' as (_ & _ & _ & ->). done.
    + intros b' [->|Hb']%logged_in; [|by destruct (H7 b' Hb'); auto]. split; [|done].
      destruct (decide (b ∈ bs)) as [Hin|Hin]; [by apply H7|]. rewrite elem_others, refs_take, (cnt_some _ _ _ HL). lia.
    + intros b' Hb' Hd. rewrite logged_in in Hb'. specialize (H8 b' ltac:(naive_solver) ltac:(set_solver)). by case_decide.
    + intros b'. specialize (H9 b'). destruct (decide (b ∈ bs)) as [Hin|Hin].
      * replace (logged bs b) with bs; [done|]. unfold logged. by rewrite (decide_True _ _ Hin).
      * destruct (decide (b = b')) as [<-|Hne].
        -- rewrite refs_take, (decide_True (P := b ∈ logged bs b)) by (apply logged_in; by left).
           rewrite (decide_False (P := b ∈ bs)) in H9 by done. lia.
        -- rewrite refs_take_ne by done. destruct (decide (b' ∈ logged bs b)) as [E|E], (decide (b' ∈ bs)) as [E'|E']; try lia.
           rewrite logged_in in E. naive_solver.
    + assert (Hsub : others (if decide (b ∈ bs) then A else a_take b A) L ∪ B ⊆ others A L ∪ B).
      { pose proof (others_pin A L b). case_decide; set_solver. }
      apply subseteq_size in Hsub. change NBUF with 30%nat. lia.
    + intros b' Hq. specialize (H11 b' Hq). destruct (decide (b ∈ bs)) as [Hin|Hin].
      * replace (logged bs b) with bs; [done|]. unfold logged. by rewrite (decide_True _ _ Hin).
      * destruct (decide (b = b')) as [<-|Hne].
        -- rewrite refs_take, (decide_True (P := b ∈ logged bs b)) by (apply logged_in; by left).
           rewrite (decide_False (P := b ∈ bs)) in H11 by done. lia.
        -- rewrite refs_take_ne by done. destruct (decide (b' ∈ logged bs b)) as [E|E], (decide (b' ∈ bs)) as [E'|E']; try lia.
           exfalso. apply E, logged_in. by right.
Qed.

(** Changing a locked block and logging it. *)
Lemma inop_write {X} k0 V L B k b j f g (m : M (kernel fsys) X) (Q : X -> kernel fsys -> Prop) :
  inop k0 V L ∅ B k -> L !! b = Some j -> (forall x, f x = set_b_data (g (b_data x)) x) ->
  b ∈ B -> 0 <= b < 2 ^ 31 /\ off_log (lg_start (fs_log (k_files k0))) b ->
  (forall k', inop k0 (upd V b (g (V b))) L ∅ B k' -> wp m k' Q) -> wp (setb j f >>> log_write j >>> m) k Q.
Proof.
  intros H HL Hf HB [Hb Ho] HQ. apply wp_bind. eapply inop_setb; [exact H|exact HL|exact Hf|]. intros k1 H1.
  apply wp_bind. eapply inop_log_write; [exact H1|exact HL|done|done|done|]. intros k2 H2. apply HQ.
  by replace (({[b]} ∪ ∅ : gset Z) ∖ {[b]}) with (∅ : gset Z) in H2 by set_solver.
Qed.

(** ** The rest of the state *)

(** The inode table, and what the console has shown. *)
Definition reinode (l : list inode) (k : kernel fsys) : kernel fsys := set_k_files (set_fs_inode l (k_files k)) k.
Definition refile (l : list file) (k : kernel fsys) : kernel fsys := set_k_files (set_fs_file l (k_files k)) k.
Definition reuart (u : uart) (k : kernel fsys) : kernel fsys := set_k_files (set_fs_uart u (k_files k)) k.

Lemma inop_inodes k0 V L D B k : inop k0 V L D B k -> fs_inode (k_files k) = fs_inode (k_files k0).
Proof. intros (A & bs & H). apply (sr_inode _ _ (he_rest _ _ _ _ _ _ _ (io_here _ _ _ _ _ _ _ _ H))). Qed.

Lemma inop_sb k0 V L D B k : inop k0 V L D B k -> fs_sb (k_files k) = fs_sb (k_files k0).
Proof. intros (A & bs & H). apply (sr_sb _ _ (he_rest _ _ _ _ _ _ _ (io_here _ _ _ _ _ _ _ _ H))). Qed.

Lemma inop_uart k0 V L D B k : inop k0 V L D B k -> fs_uart (k_files k) = fs_uart (k_files k0).
Proof. intros (A & bs & H). apply (sr_uart _ _ (he_rest _ _ _ _ _ _ _ (io_here _ _ _ _ _ _ _ _ H))). Qed.

Lemma inop_host k0 V L D B k : inop k0 V L D B k -> host i pid k.
Proof. intros (A & bs & H). apply (he_host _ _ _ _ _ _ _ (io_here _ _ _ _ _ _ _ _ H)). Qed.

Lemma inop_reinode k0 V L D B k l : inop k0 V L D B k -> inop (reinode l k0) V L D B (reinode l k).
Proof.
  intros (A & bs & [H1 H2 H3 H4 H5 H6 H7 H8 H9 H10 H11]). exists A, bs. split; try done.
  destruct H1 as [Hh W R C]. split; [by destruct Hh|by destruct W|by destruct R|by destruct C].
Qed.

Lemma inop_refile k0 V L D B k l : inop k0 V L D B k -> inop (refile l k0) V L D B (refile l k).
Proof.
  intros (A & bs & [H1 H2 H3 H4 H5 H6 H7 H8 H9 H10 H11]). exists A, bs. split; try done.
  destruct H1 as [Hh W R C]. split; [by destruct Hh|by destruct W|by destruct R|by destruct C].
Qed.

Lemma inop_files k0 V L D B k : inop k0 V L D B k -> fs_file (k_files k) = fs_file (k_files k0).
Proof. intros (A & bs & H). apply (sr_file _ _ (he_rest _ _ _ _ _ _ _ (io_here _ _ _ _ _ _ _ _ H))). Qed.

Lemma inop_reuart k0 V L D B k u : inop k0 V L D B k -> inop (reuart u k0) V L D B (reuart u k).
Proof.
  intros (A & bs & [H1 H2 H3 H4 H5 H6 H7 H8 H9 H10 H11]). exists A, bs. split; try done.
  destruct H1 as [Hh W R C]. split; [by destruct Hh|by destruct W|by destruct R|by destruct C].
Qed.
End op.

(** ** Locking and unlocking blocks *)

Section lock.
Context (swtch : M (kernel fsys) unit) (fuel : nat) (Hfuel : can_wait fuel).
Context (rw : nat -> bool -> M (kernel fsys) unit) (Hrw : driver_ok rw).
Context (i : nat) (pid dev : Z).
Implicit Types k : kernel fsys.
Abbreviation bread := (bread swtch fuel rw).
Abbreviation inop := (inop i pid dev).

Lemma inop_bread k0 V L D B k b (Q : nat -> kernel fsys -> Prop) :
  inop k0 V L D B k -> L !! b = None -> (size L < 2)%nat ->
  (forall j k', inop k0 V (<[b := j]> L) D B k' -> Q j k') -> wp (bread dev b) k Q.
Proof.
  intros (A & bs & H) HL Hsz HQ. pose proof (caches_refs _ _ _ _ _ (he_cache _ _ _ _ _ _ _ (io_here _ _ _ _ _ _ _ _ _ _ _ H))) as Hok.
  pose proof (io_refs _ _ _ _ _ _ _ _ _ _ _ H b) as Hr. rewrite (cnt_none _ _ HL) in Hr.
  pose proof (io_room _ _ _ _ _ _ _ _ _ _ _ H) as Hroom. pose proof (size_refs A L Hok) as Hs.
  pose proof (subseteq_size (others A L) (others A L ∪ B) ltac:(set_solver)).
  eapply (here_bread swtch fuel Hfuel rw Hrw i pid dev); [exact (io_here _ _ _ _ _ _ _ _ _ _ _ H)|done|right; lia|case_decide; lia|].
  intros j k' H'. apply HQ. exists (a_take b A), bs.
  pose proof (relog_log _ _ _ _ _ _ _ _ H') as El. rewrite <- El in H'.
  destruct H as [_ H2 H3 H4 H5 H6 H7 H8 H9 H10 H11]. rewrite <- El in H3, H4, H5, H6. split; try done.
  - intros b' Hb'. rewrite others_take by done. by apply H7.
  - intros b'. specialize (H9 b'). destruct (decide (b = b')) as [<-|Hne].
    + rewrite refs_take, cnt_insert. rewrite (cnt_none _ _ HL) in H9. lia.
    + by rewrite refs_take_ne, cnt_insert_ne.
  - by rewrite others_take.
  - intros b' Hq. specialize (H11 b' Hq). destruct (decide (b = b')) as [<-|Hne].
    + rewrite refs_take, cnt_insert. rewrite (cnt_none _ _ HL) in H11. lia.
    + by rewrite refs_take_ne, cnt_insert_ne.
Qed.

Lemma inop_brelse k0 V L D B k b j (Q : unit -> kernel fsys -> Prop) :
  inop k0 V L D B k -> L !! b = Some j -> b ∉ D ->
  (forall k', inop k0 V (delete b L) D B k' -> Q tt k') -> wp (brelse j) k Q.
Proof.
  intros (A & bs & H) HL HD HQ. pose proof (io_here _ _ _ _ _ _ _ _ _ _ _ H) as Hh.
  destruct (mine_buf pid dev _ _ _ _ _ (he_cache _ _ _ _ _ _ _ Hh) HL) as (_ & _ & _ & Hpos & _).
  eapply (here_brelse fuel Hfuel rw Hrw i pid dev); [exact Hh|done| |].
  - intros Hr. apply (io_clean _ _ _ _ _ _ _ _ _ _ _ H); [|done]. intros Hb.
    apply (io_pin _ _ _ _ _ _ _ _ _ _ _ H) in Hb as [Hb%elem_others _]. rewrite (cnt_some _ _ _ HL) in Hb. lia.
  - intros k' H'. apply HQ. exists (a_drop b A), bs.
    pose proof (relog_log _ _ _ _ _ _ _ _ H') as El. rewrite <- El in H'.
    destruct H as [_ H2 H3 H4 H5 H6 H7 H8 H9 H10 H11]. rewrite <- El in H3, H4, H5, H6. split; try done.
    + intros b' Hb'. rewrite (others_drop _ _ _ _ HL Hpos). by apply H7.
    + intros b'. specialize (H9 b'). destruct (decide (b = b')) as [<-|Hne].
      * rewrite refs_drop_eq, cnt_delete. rewrite (cnt_some _ _ _ HL) in H9. lia.
      * by rewrite refs_drop_ne, cnt_delete_ne.
    + by rewrite (others_drop _ _ _ _ HL Hpos).
    + intros b' Hq. specialize (H11 b' Hq). destruct (decide (b = b')) as [<-|Hne].
      * rewrite refs_drop_eq, cnt_delete. rewrite (cnt_some _ _ _ HL) in H11. lia.
      * by rewrite refs_drop_ne, cnt_delete_ne.
Qed.
End lock.
