(* ===== verification/FsBitmap.v ===== *)
(** The layout of the disk and the allocator of blocks: balloc, bzero and
    bfree of fs.c.

    The free map is the list [free_list] of the blocks whose bit is clear.
    [balloc] takes its first element and [bfree] puts a block back. *)

From Stdlib Require Import Ascii.
From S2P Require Import Prelude.
From S2P Require Import Spinlock.
From S2P Require Import Riscv.
From S2P Require Import Proc.
From S2P Require Import FsState.
From S2P Require Import Bio.
From S2P Require Import BioSpec.
From S2P Require Import Log.
From S2P Require Import LogSpec.
From S2P Require Import LogTheorems.
From S2P Require Import UserIO.
From S2P Require Import Printf.
From S2P Require Import Console.
From S2P Require Import Fs.
From S2P Require Import FsOp.

(** ** Bits *)

Definition bit (d : block) (bi : Z) : bool := Z.testbit (nth (Z.to_nat (bi / 8)) d 0) (bi mod 8).

(** The byte of bit [bi] after [f]. *)
Definition set_bit (d : block) (bi : Z) (f : Z -> Z) : block :=
  <[Z.to_nat (bi / 8) := u8 (f (nth (Z.to_nat (bi / 8)) d 0))]> d.
Definition mask (bi : Z) : Z := Z.shiftl 1 (bi mod 8).

Lemma testbit_u8 z n : 0 <= n < 8 -> Z.testbit (u8 z) n = Z.testbit z n.
Proof. intros. unfold u8. apply Z.mod_pow2_bits_low. lia. Qed.

Lemma mask_bit bi n : 0 <= n -> Z.testbit (mask bi) n = (n =? bi mod 8).
Proof.
  intros Hn. unfold mask. rewrite Z.shiftl_1_l, Z.pow2_bits_eqb by dlia. apply Z.eqb_sym.
Qed.

Lemma bit_test d bi : (Z.land (nth (Z.to_nat (bi / 8)) d 0) (mask bi) =? 0) = negb (bit d bi).
Proof.
  unfold bit. rewrite <- has_flag_bit by dlia. unfold has_flag, mask. by rewrite negb_involutive.
Qed.

Lemma bit_set d bi f bi' :
  (Z.to_nat (bi / 8) < length d)%nat -> 0 <= bi -> 0 <= bi' ->
  bit (set_bit d bi f) bi' =
    if (Z.to_nat (bi' / 8) =? Z.to_nat (bi / 8))%nat
    then Z.testbit (f (nth (Z.to_nat (bi / 8)) d 0)) (bi' mod 8) else bit d bi'.
Proof.
  intros Hl Hb Hb'. unfold bit, set_bit. rewrite !nth_lookup. destruct (Nat.eqb_spec (Z.to_nat (bi' / 8)) (Z.to_nat (bi / 8))) as [->|Hne].
  - rewrite list_lookup_insert_eq by done. cbn. apply testbit_u8. dlia.
  - by rewrite list_lookup_insert_ne.
Qed.

Definition mark (d : block) (bi : Z) : block := set_bit d bi (fun c => Z.lor c (mask bi)).
Definition unmark (d : block) (bi : Z) : block := set_bit d bi (fun c => Z.land c (Z.lnot (mask bi))).

Lemma same_bit bi bi' : 0 <= bi -> 0 <= bi' -> Z.to_nat (bi' / 8) = Z.to_nat (bi / 8) -> (bi' mod 8 =? bi mod 8) = (bi' =? bi).
Proof. intros. destruct (Z.eqb_spec bi' bi) as [->|Hne]; [apply Z.eqb_refl|]. apply Z.eqb_neq. dlia. Qed.

Lemma bit_mark d bi bi' : (Z.to_nat (bi / 8) < length d)%nat -> 0 <= bi -> 0 <= bi' ->
  bit (mark d bi) bi' = (bi' =? bi) || bit d bi'.
Proof.
  intros Hl Hb Hb'. unfold mark. rewrite bit_set by done. destruct (Nat.eqb_spec (Z.to_nat (bi' / 8)) (Z.to_nat (bi / 8))).
  - rewrite Z.lor_spec, mask_bit by dlia. rewrite same_bit by lia. unfold bit. replace (Z.to_nat (bi' / 8)) with (Z.to_nat (bi / 8)) by done.
    apply orb_comm.
  - destruct (Z.eqb_spec bi' bi) as [->|]; [done|]. done.
Qed.

Lemma bit_unmark d bi bi' : (Z.to_nat (bi / 8) < length d)%nat -> 0 <= bi -> 0 <= bi' ->
  bit (unmark d bi) bi' = negb (bi' =? bi) && bit d bi'.
Proof.
  intros Hl Hb Hb'. unfold unmark. rewrite bit_set by done. destruct (Nat.eqb_spec (Z.to_nat (bi' / 8)) (Z.to_nat (bi / 8))).
  - rewrite Z.land_spec, Z.lnot_spec, mask_bit by dlia. rewrite same_bit by lia. unfold bit. replace (Z.to_nat (bi' / 8)) with (Z.to_nat (bi / 8)) by done.
    apply andb_comm.
  - destruct (Z.eqb_spec bi' bi) as [->|]; [done|]. done.
Qed.

Lemma mark_length d bi : length (mark d bi) = length d.
Proof. apply length_insert. Qed.
Lemma unmark_length d bi : length (unmark d bi) = length d.
Proof. apply length_insert. Qed.

(** ** The layout *)

(** The blocks before the data: boot block, superblock, log, inodes, free
    map, in the order that fs.h gives. *)
Definition nmeta (sb : superblock) : Z := sb_bmapstart sb + sb_size sb / BPB + 1.

Record layout (sb : superblock) (start : Z) : Prop := {
  ly_log : 2 <= start;
  ly_inode : start + 30 < sb_inodestart sb;
  ly_ninodes : 0 <= sb_ninodes sb;
  ly_bmap : sb_inodestart sb + sb_ninodes sb / IPB < sb_bmapstart sb;
  ly_data : nmeta sb <= sb_size sb;
  ly_size : sb_size sb < 2 ^ 31
}.

Definition in_use (sb : superblock) (V : Z -> block) (b : Z) : bool := bit (V (BBLOCK b sb)) (b mod BPB).
Definition free_list (sb : superblock) (V : Z -> block) : list Z :=
  filter (fun b => in_use sb V b = false) (seqZ 0 (sb_size sb)).

Record disk_ok (sb : superblock) (V : Z -> block) : Prop := {
  dk_len b : sb_inodestart sb <= b -> length (V b) = BSIZE;
  dk_meta b : 0 <= b < nmeta sb -> in_use sb V b = true
}.

Section layout.
Context (sb : superblock) (start : Z) (Hly : layout sb start).
Implicit Types V : Z -> block.

Lemma nmeta_pos : 34 <= nmeta sb.
Proof. destruct Hly. unfold nmeta, BPB, IPB, BSIZE in *. cbn in *. dlia. Qed.

Lemma BBLOCK_eq b : 0 <= b < sb_size sb -> BBLOCK b sb = b / BPB + sb_bmapstart sb.
Proof. intros Hb. destruct Hly. unfold BBLOCK, nmeta, BPB, IPB, BSIZE in *. apply u32_id. cbn in *. dlia. Qed.

Lemma BBLOCK_meta b : 0 <= b < sb_size sb -> sb_bmapstart sb <= BBLOCK b sb < nmeta sb.
Proof. intros Hb. rewrite BBLOCK_eq by done. unfold nmeta, BPB, BSIZE. cbn. dlia. Qed.

Lemma IBLOCK_eq n : 0 <= n < sb_ninodes sb -> IBLOCK n sb = n / IPB + sb_inodestart sb.
Proof. intros Hn. destruct Hly. unfold IBLOCK, nmeta, BPB, IPB, BSIZE in *. apply u32_id. cbn in *. dlia. Qed.

Lemma IBLOCK_meta n : 0 <= n < sb_ninodes sb -> sb_inodestart sb <= IBLOCK n sb < sb_bmapstart sb.
Proof. intros Hn. rewrite IBLOCK_eq by done. destruct Hly. unfold IPB in *. dlia. Qed.

Lemma bmap_len V b : disk_ok sb V -> 0 <= b < sb_size sb -> length (V (BBLOCK b sb)) = BSIZE.
Proof. intros Hd Hb. apply (dk_len _ _ Hd). pose proof (BBLOCK_meta b Hb). pose proof (IBLOCK_meta 0). destruct Hly. unfold IPB in *. dlia. Qed.

Lemma iblock_len V n : disk_ok sb V -> 0 <= n < sb_ninodes sb -> length (V (IBLOCK n sb)) = BSIZE.
Proof. intros Hd Hn. apply (dk_len _ _ Hd). by apply IBLOCK_meta. Qed.

Lemma data_len V b : disk_ok sb V -> nmeta sb <= b -> length (V b) = BSIZE.
Proof. intros Hd Hb. apply (dk_len _ _ Hd). destruct Hly. unfold nmeta, BPB, IPB, BSIZE in *. cbn in *. dlia. Qed.

Lemma meta_off b : sb_inodestart sb <= b -> b < sb_size sb -> 0 <= b < 2 ^ 31 /\ off_log start b.
Proof. intros H1 H2. destruct Hly. split; [lia|right; lia]. Qed.

Lemma bmap_off b : 0 <= b < sb_size sb -> 0 <= BBLOCK b sb < 2 ^ 31 /\ off_log start (BBLOCK b sb).
Proof. intros Hb. pose proof (BBLOCK_meta b Hb). destruct Hly. apply meta_off; unfold IPB in *; dlia. Qed.

Lemma in_use_upd V c d b :
  0 <= b < sb_size sb -> c < sb_bmapstart sb \/ nmeta sb <= c -> in_use sb (upd V c d) b = in_use sb V b.
Proof. intros Hb Hc. unfold in_use. rewrite upd_ne; [done|]. pose proof (BBLOCK_meta b Hb). lia. Qed.

(** Writing the free map. *)
Lemma in_use_set V b b' (f : block -> Z -> block) (g : bool -> bool) :
  0 <= b < sb_size sb -> 0 <= b' < sb_size sb ->
  (forall bi, 0 <= bi < BPB -> bit (f (V (BBLOCK b sb)) (b mod BPB)) bi =
     if bi =? b mod BPB then g (bit (V (BBLOCK b sb)) bi) else bit (V (BBLOCK b sb)) bi) ->
  in_use sb (upd V (BBLOCK b sb) (f (V (BBLOCK b sb)) (b mod BPB))) b' =
    if b' =? b then g (in_use sb V b) else in_use sb V b'.
Proof.
  intros Hb Hb' Hf. unfold in_use, upd. pose proof (BBLOCK_eq b Hb) as E. pose proof (BBLOCK_eq b' Hb') as E'.
  destruct (decide (BBLOCK b' sb = BBLOCK b sb)) as [Eb|Nb].
  - rewrite Hf, Eb by (unfold BPB, BSIZE; dlia). assert (b' / BPB = b / BPB) by lia.
    destruct (Z.eqb_spec b' b) as [->|Hne]; [by rewrite Z.eqb_refl|].
    rewrite (proj2 (Z.eqb_neq _ _)); [done|]. unfold BPB, BSIZE in *. cbn in *. dlia.
  - destruct (Z.eqb_spec b' b) as [->|Hne]; [done|done].
Qed.

Lemma bit_index b (d : block) : length d = BSIZE -> (Z.to_nat (b mod BPB / 8) < length d)%nat.
Proof. intros ->. unfold BPB, BSIZE. cbn. dlia. Qed.

Lemma in_use_mark V b b' :
  disk_ok sb V -> 0 <= b < sb_size sb -> 0 <= b' < sb_size sb ->
  in_use sb (upd V (BBLOCK b sb) (mark (V (BBLOCK b sb)) (b mod BPB))) b' = (b' =? b) || in_use sb V b'.
Proof.
  intros Hd Hb Hb'. rewrite (in_use_set V b b' mark (fun _ => true)); [by destruct (b' =? b)|done|done|].
  intros bi Hbi. rewrite bit_mark; [by destruct (bi =? b mod BPB)|by apply bit_index, bmap_len|unfold BPB, BSIZE; dlia|lia].
Qed.

Lemma in_use_unmark V b b' :
  disk_ok sb V -> 0 <= b < sb_size sb -> 0 <= b' < sb_size sb ->
  in_use sb (upd V (BBLOCK b sb) (unmark (V (BBLOCK b sb)) (b mod BPB))) b' = negb (b' =? b) && in_use sb V b'.
Proof.
  intros Hd Hb Hb'. rewrite (in_use_set V b b' unmark (fun _ => false)); [by destruct (b' =? b)|done|done|].
  intros bi Hbi. rewrite bit_unmark; [by destruct (bi =? b mod BPB)|by apply bit_index, bmap_len|unfold BPB, BSIZE; dlia|lia].
Qed.
End layout.

(** ** The free list *)

Lemma filter_ext_in {A} (P Q : A -> Prop) `{!forall x, Decision (P x), !forall x, Decision (Q x)} (l : list A) :
  (forall x, x ∈ l -> P x <-> Q x) -> filter P l = filter Q l.
Proof.
  induction l as [|x l IH]; intros HE; [done|]. rewrite !filter_cons.
  assert (P x <-> Q x) by (apply HE, elem_of_cons; by left).
  rewrite IH by (intros y Hy; apply HE, elem_of_cons; by right). repeat case_decide; tauto.
Qed.

Lemma filter_none {A} (P : A -> Prop) `{!forall x, Decision (P x)} (l : list A) :
  (forall x, x ∈ l -> ~ P x) -> filter P l = [].
Proof.
  induction l as [|x l IH]; intros HN; [done|]. rewrite filter_cons_False by (apply HN, elem_of_cons; by left).
  apply IH. intros y Hy. apply HN, elem_of_cons. by right.
Qed.

Section free.
Context (sb : superblock) (start : Z) (Hly : layout sb start).
Implicit Types V : Z -> block.

Lemma elem_free V b : b ∈ free_list sb V <-> 0 <= b < sb_size sb /\ in_use sb V b = false.
Proof. unfold free_list. rewrite list_elem_of_filter, elem_of_seqZ. naive_solver lia. Qed.

Lemma free_ext V V' : (forall b, 0 <= b < sb_size sb -> in_use sb V' b = in_use sb V b) -> free_list sb V' = free_list sb V.
Proof. intros HE. apply filter_ext_in. intros b Hb%elem_of_seqZ. by rewrite HE by lia. Qed.

Lemma free_data V b : disk_ok sb V -> b ∈ free_list sb V -> nmeta sb <= b < sb_size sb.
Proof.
  intros Hd [Hb Hu]%elem_free. destruct (decide (b < nmeta sb)) as [Hlt|]; [|lia].
  rewrite (dk_meta _ _ Hd) in Hu by lia. done.
Qed.

Lemma free_nodup V : NoDup (free_list sb V).
Proof. apply NoDup_filter, NoDup_seqZ. Qed.

(** The first free block is the one before which all are in use. *)
Lemma free_head V b :
  0 <= b < sb_size sb -> in_use sb V b = false -> (forall c, 0 <= c < b -> in_use sb V c = true) ->
  exists fl, free_list sb V = b :: fl.
Proof.
  intros Hb Hu Hbefore. unfold free_list.
  replace (sb_size sb) with (b + (sb_size sb - b)) by lia. rewrite seqZ_app, filter_app by lia.
  rewrite (filter_none _ (seqZ 0 b)).
  - rewrite seqZ_cons by lia. rewrite filter_cons_True by (by rewrite Z.add_0_l). rewrite Z.add_0_l. by eexists.
  - intros c Hc%elem_of_seqZ. rewrite Hbefore by lia. done.
Qed.

Lemma free_nil V : (forall c, 0 <= c < sb_size sb -> in_use sb V c = true) -> free_list sb V = [].
Proof. intros Hall. apply filter_none. intros c Hc%elem_of_seqZ. rewrite Hall by lia. done. Qed.

(** [balloc]'s update of the disk. *)
Definition alloc (V : Z -> block) (b : Z) : Z -> block :=
  upd (upd V (BBLOCK b sb) (mark (V (BBLOCK b sb)) (b mod BPB))) b (replicate BSIZE 0).

Lemma alloc_in_use V b b' :
  disk_ok sb V -> nmeta sb <= b < sb_size sb -> 0 <= b' < sb_size sb ->
  in_use sb (alloc V b) b' = (b' =? b) || in_use sb V b'.
Proof.
  intros Hd Hb Hb'. unfold alloc. rewrite (in_use_upd sb start Hly) by lia. apply (in_use_mark sb start Hly); [done| |done].
  pose proof (nmeta_pos sb start Hly). lia.
Qed.

Lemma alloc_free V b fl : disk_ok sb V -> free_list sb V = b :: fl -> free_list sb (alloc V b) = fl.
Proof.
  intros Hd Hf. assert (Hb : b ∈ free_list sb V) by (rewrite Hf; apply elem_of_cons; by left).
  pose proof (free_data V b Hd Hb) as Hdata. pose proof (free_nodup V) as Hnd. rewrite Hf in Hnd. apply NoDup_cons in Hnd as [Hnin Hnd].
  transitivity (filter (fun c => c <> b) (free_list sb V)).
  - unfold free_list at 2. rewrite list_filter_filter. apply filter_ext_in. intros c Hc%elem_of_seqZ.
    rewrite alloc_in_use by (done || lia). destruct (Z.eqb_spec c b); naive_solver.
  - rewrite Hf, filter_cons_False by naive_solver. rewrite (filter_ext_in _ (fun _ => True)); [|naive_solver].
    clear. induction fl as [|x l IH]; [done|]. by rewrite filter_cons_True, IH.
Qed.

Lemma alloc_ok V b : disk_ok sb V -> nmeta sb <= b < sb_size sb -> disk_ok sb (alloc V b).
Proof.
  intros Hd Hb. split.
  - intros c Hc. unfold alloc, upd. repeat case_decide; subst; rewrite ?mark_length; [apply length_replicate|by apply (dk_len _ _ Hd)..].
  - intros c Hc. pose proof (ly_data _ _ Hly). rewrite alloc_in_use by (done || lia). rewrite (dk_meta _ _ Hd) by lia. apply orb_true_r.
Qed.

Lemma alloc_other V b c : c <> b -> c < sb_bmapstart sb \/ nmeta sb <= c -> 0 <= b < sb_size sb -> alloc V b c = V c.
Proof.
  intros Hne Hc Hb. unfold alloc. pose proof (BBLOCK_meta sb start Hly b Hb). rewrite upd_ne, upd_ne by lia. done.
Qed.
End free.
