(* ===== verification/FsAlloc.v ===== *)
(** What balloc, bzero and bfree of fs.c do in a transaction. *)

From Stdlib Require Import Ascii.
From S2P Require Import Prelude.
From S2P Require Import Spinlock.
From S2P Require Import Riscv.
From S2P Require Import Proc.
From S2P Require Import FsState.
From S2P Require Import Bio.
From S2P Require Import BioSpec.
From S2P Require Import Log.
From S2P Require Import LogSpec.
From S2P Require Import LogTheorems.
From S2P Require Import UserIO.
From S2P Require Import Printf.
From S2P Require Import Console.
From S2P Require Import Fs.
From S2P Require Import FsOp.
From S2P Require Import FsBitmap.

(** ** Messages *)

Definition plain (fmt : list Z) : Prop := Forall (fun c => 0 < c < 256 /\ c <> ch "%") fmt.
Definition shown (fmt : list Z) (u : uart) : uart := Uart (u_sent u ++ map u8 fmt) (u_busy u).

Lemma consputc_shows c k (Q : unit -> kernel fsys -> Prop) :
  0 < c < 256 -> Q tt (reuart (shown [c] (fs_uart (k_files k))) k) -> wp (consputc c) k Q.
Proof.
  intros Hc HQ. unfold consputc. destruct (Z.eqb_spec c BACKSPACE) as [->|]; [unfold BACKSPACE in Hc; lia|]. exact HQ.
Qed.

Lemma reuart_reuart u u' k : reuart u (reuart u' k) = reuart u k.
Proof. done. Qed.

Lemma shown_app l l' u : shown l' (shown l u) = shown (l ++ l') u.
Proof. unfold shown. cbn. by rewrite map_app, app_assoc. Qed.

Lemma kprintf_plain digits fmt ap k (Q : unit -> kernel fsys -> Prop) :
  plain fmt -> Q tt (reuart (shown fmt (fs_uart (k_files k))) k) -> wp (kprintf consputc digits fmt ap) k Q.
Proof.
  intros Hp HQ. unfold kprintf.
  apply (wp_loop_st (fun '(q, _) k' => (q <= length fmt)%nat /\ k' = reuart (shown (take q fmt) (fs_uart (k_files k))) k)
    (fun '(q, _) _ => (length fmt - q)%nat)).
  - intros [q ap'] k' [Hq ->]. unfold at_. destruct (decide (q < length fmt)%nat) as [Hlt|Hge].
    + destruct (lookup_lt_is_Some_2 fmt q Hlt) as [c Hc]. rewrite nth_lookup, Hc. cbn [default from_option id].
      unfold plain in Hp. rewrite Forall_lookup in Hp. destruct (Hp q c Hc) as [Hc0 Hcp].
      destruct (Z.eqb_spec c 0); [lia|]. destruct (Z.eqb_spec c (ch "%")); [done|]. cbn [negb].
      apply wp_bind, consputc_shows; [done|]. apply wp_ret. split; [|lia]. split; [lia|].
      by rewrite (take_S_r _ _ _ Hc), <- shown_app.
    + rewrite nth_overflow by lia. cbn [Z.eqb]. apply wp_ret. by rewrite take_ge in * by lia.
  - split; [lia|]. rewrite take_0. unfold shown. cbn. rewrite app_nil_r. by destruct k as [? ? ? ? ? ? [? ? ? ? ? ? ? ? ? []]].
  - lia.
Qed.

Lemma printk_plain fmt ap k (Q : unit -> kernel fsys -> Prop) :
  held k = [] -> plain fmt -> Q tt (reuart (shown fmt (fs_uart (k_files k))) k) -> wp (printk fmt ap) k Q.
Proof.
  intros Hh Hp HQ. unfold printk. apply wp_bind, acquire_first; [done|]. apply wp_bind, kprintf_plain; [done|].
  apply release_only; [done|]. unfold reuart. rewrite set_held_files by done. exact HQ.
Qed.

(** ** The allocator *)

Section alloc.
Context (swtch : M (kernel fsys) unit) (fuel : nat) (Hfuel : can_wait fuel).
Context (rw : nat -> bool -> M (kernel fsys) unit) (Hrw : driver_ok rw).
Context (i : nat) (pid dev : Z) (sb : superblock) (start : Z) (Hly : layout sb start).
Implicit Types (k : kernel fsys) (V : Z -> block).
Abbreviation inop := (inop i pid dev).
Abbreviation alloc := (alloc sb).

(** The superblock and the log of a transaction that began in [k0]. *)
Definition based (k0 : kernel fsys) : Prop := fs_sb (k_files k0) = sb /\ lg_start (fs_log (k_files k0)) = start.

Lemma inop_data_byte k0 V L D B k b j q c (Q : Z -> kernel fsys -> Prop) :
  inop k0 V L D B k -> L !! b = Some j -> V b !! q = Some c -> Q c k -> wp (data_byte j q) k Q.
Proof.
  intros H HL Hc HQ. unfold data_byte. apply wp_bind. eapply inop_getb; [exact H|exact HL|]. intros x ->. by rewrite Hc.
Qed.

Lemma bzero_spec k0 V L B k b (Q : unit -> kernel fsys -> Prop) :
  based k0 -> inop k0 V L ∅ B k -> L !! b = None -> (size L < 2)%nat -> b ∈ B -> nmeta sb <= b < sb_size sb ->
  (forall k', inop k0 (upd V b (replicate BSIZE 0)) L ∅ B k' -> Q tt k') -> wp (bzero swtch fuel rw dev b) k Q.
Proof.
  intros [Hsb Hst] H HL Hsz HB Hb HQ. unfold bzero. destruct (meta_off sb start Hly b) as [Hr Ho]; [|lia|].
  { pose proof (nmeta_pos sb start Hly). destruct Hly. unfold nmeta, BPB, BSIZE, IPB in *. cbn in *. dlia. }
  rewrite u32_id by lia. apply wp_bind. eapply (inop_bread swtch fuel Hfuel rw Hrw); [exact H|done|done|]. intros j k1 H1.
  assert (HL1 : <[b := j]> L !! b = Some j) by apply lookup_insert_eq.
  eapply (inop_write i pid dev k0 V _ B k1 b j _ (fun _ => replicate BSIZE 0)); [exact H1|exact HL1|done|done|by rewrite Hst|].
  intros k2 H2. eapply (inop_brelse fuel Hfuel rw Hrw); [exact H2|exact HL1|set_solver|]. intros k3 H3. apply HQ.
  by rewrite delete_insert_id in H3.
Qed.

(** Whether [balloc] finds a block, and what the transaction must allow. *)
Definition may_alloc (V : Z -> block) (L : gmap Z nat) (B : gset Z) : Prop :=
  forall b, head (free_list sb V) = Some b -> BBLOCK b sb ∈ B /\ b ∈ B /\ L !! b = None.

Lemma bitmap_block V b c : disk_ok sb V -> 0 <= c < sb_size sb -> exists e, V (BBLOCK c sb) !! Z.to_nat (b mod BPB / 8) = Some e.
Proof. intros Hd Hc. apply lookup_lt_is_Some_2, bit_index. by apply (bmap_len sb start Hly). Qed.

(** The rest of [balloc] once a clear bit is found. *)
Lemma balloc_take {X} k0 V L B k b j e (m : M (kernel fsys) X) (Q : X -> kernel fsys -> Prop) :
  based k0 -> disk_ok sb V -> inop k0 V (<[BBLOCK b sb := j]> L) ∅ B k -> L !! BBLOCK b sb = None -> (size L < 2)%nat ->
  b ∈ free_list sb V -> BBLOCK b sb ∈ B -> b ∈ B -> L !! b = None ->
  V (BBLOCK b sb) !! Z.to_nat (b mod BPB / 8) = Some e ->
  (forall k', inop k0 (alloc V b) L ∅ B k' -> wp m k' Q) ->
  wp (set_data_byte j (Z.to_nat (b mod BPB / 8)) (Z.lor e (mask (b mod BPB))) >>> log_write j >>> brelse j >>>
      bzero swtch fuel rw dev b >>> m) k Q.
Proof.
  intros Hk0 Hd H HLb Hsz Hfree HBb HB HL He HQ. pose proof (free_data sb V b Hd Hfree) as Hdata.
  pose proof (nmeta_pos sb start Hly) as Hpos. destruct (bmap_off sb start Hly b) as [Hr Ho]; [lia|].
  assert (HL1 : <[BBLOCK b sb := j]> L !! BBLOCK b sb = Some j) by apply lookup_insert_eq.
  eapply (inop_write i pid dev k0 V _ B k (BBLOCK b sb) j _ (fun d => <[Z.to_nat (b mod BPB / 8) := u8 (Z.lor e (mask (b mod BPB)))]> d));
    [exact H|exact HL1|done|done|destruct Hk0 as [_ ->]; done|]. intros k2 H2.
  apply wp_bind. eapply (inop_brelse fuel Hfuel rw Hrw); [exact H2|exact HL1|set_solver|]. intros k3 H3.
  rewrite delete_insert_id in H3 by done.
  apply wp_bind. eapply bzero_spec; [done|exact H3|done|done|done|done|]. intros k4 H4. apply HQ.
  unfold FsBitmap.alloc, mark, set_bit. by rewrite nth_lookup, He.
Qed.

Lemma balloc_inner k0 V L B k b j :
  based k0 -> disk_ok sb V -> inop k0 V (<[BBLOCK b sb := j]> L) ∅ B k -> L !! BBLOCK b sb = None -> (size L < 2)%nat ->
  may_alloc V L B -> 0 <= b < sb_size sb -> b mod BPB = 0 -> (forall c, 0 <= c < b -> in_use sb V c = true) ->
  wp (loop (S (Z.to_nat BPB)) (fun bi =>
        if (bi <? BPB) && (b + bi <? sb_size sb) then
          let m := Z.shiftl 1 (bi mod 8) in
          c <- data_byte j (Z.to_nat (bi / 8)) ;;
          if Z.land c m =? 0 then
            set_data_byte j (Z.to_nat (bi / 8)) (Z.lor c m) >>> log_write j >>> brelse j >>>
            bzero swtch fuel rw dev (b + bi) >>> ret (inr (Some (b + bi)))
          else ret (inl (bi + 1))
        else ret (inr None)) 0) k (fun r k' =>
    match r with
    | Some c => head (free_list sb V) = Some c /\ inop k0 (alloc V c) L ∅ B k'
    | None => k' = k /\ forall c, 0 <= c < Z.min (b + BPB) (sb_size sb) -> in_use sb V c = true
    end).
Proof.
  intros Hk0 Hd H HLb Hsz Hmay Hb Hb0 Hbefore.
  apply (wp_loop_st (fun bi k' => k' = k /\ 0 <= bi <= BPB /\ forall c, 0 <= c < Z.min (b + bi) (sb_size sb) -> in_use sb V c = true)
    (fun bi _ => Z.to_nat (BPB - bi))).
  - intros bi k' (-> & Hbi & Hused). destruct (Z.ltb_spec bi BPB) as [Hlt|Hge]; cbn [andb].
    2:{ apply wp_ret. split; [done|]. by replace BPB with bi by lia. }
    destruct (Z.ltb_spec (b + bi) (sb_size sb)) as [Hlt'|Hge']; [|apply wp_ret; split; [done|]; intros c Hc; apply Hused; lia].
    assert (E : (b + bi) mod BPB = bi) by (rewrite <- Z.add_mod_idemp_l, Hb0 by done; apply Z.mod_small; lia).
    assert (EB : BBLOCK (b + bi) sb = BBLOCK b sb).
    { rewrite !(BBLOCK_eq sb start Hly) by lia. unfold BPB, BSIZE in *. cbn in *. dlia. }
    destruct (bitmap_block V (b + bi) b Hd ltac:(lia)) as [e He]. rewrite E in He.
    apply wp_bind. eapply inop_data_byte; [exact H|apply lookup_insert_eq|exact He|].
    pose proof (bit_test (V (BBLOCK b sb)) bi) as Hbt. rewrite nth_lookup, He in Hbt. cbn [default from_option id] in Hbt.
    fold (mask bi). rewrite Hbt.
    assert (Hiu : bit (V (BBLOCK b sb)) bi = in_use sb V (b + bi)) by (unfold in_use; by rewrite EB, E). rewrite Hiu.
    destruct (in_use sb V (b + bi)) eqn:Eu; cbn [negb].
    + apply wp_ret. split; [|lia]. split_and!; [done|lia|lia|]. intros c Hc. destruct (decide (c = b + bi)) as [->|]; [done|]. apply Hused. lia.
    + destruct (free_head sb V (b + bi)) as [fl Hfl]; [lia|done|intros c Hc; apply Hused; lia|].
      destruct (Hmay (b + bi)) as (HB1 & HB2 & HL2); [by rewrite Hfl|]. rewrite <- EB in H, HLb, He.
      rewrite <- E at 1 2. eapply balloc_take; try done; [rewrite Hfl; apply elem_of_cons; by left|by rewrite E|].
      intros k' H'. apply wp_ret. by rewrite Hfl.
  - split_and!; [done|lia|unfold BPB; lia|]. rewrite Z.add_0_r. intros c Hc. apply Hbefore. lia.
  - lia.
Qed.

(** The message [balloc] prints. *)
Definition out_of_blocks : list Z := str "balloc: out of blocks" ++ [NEWLINE].

Lemma balloc_spec k0 V L B k (Q : Z -> kernel fsys -> Prop) :
  based k0 -> disk_ok sb V -> inop k0 V L ∅ B k -> (forall c, c < nmeta sb -> L !! c = None) -> (size L < 2)%nat ->
  may_alloc V L B ->
  match free_list sb V with
  | b :: _ => forall k', inop k0 (alloc V b) L ∅ B k' -> Q b k'
  | [] => forall k', inop (reuart (shown out_of_blocks (fs_uart (k_files k0))) k0) V L ∅ B k' -> Q 0 k'
  end ->
  wp (balloc swtch fuel rw dev) k Q.
Proof.
  intros Hk0 Hd H HL Hsz Hmay HQ. unfold balloc. apply wp_bind, wp_fgets.
  rewrite (inop_sb _ _ _ _ _ _ _ _ _ H), (proj1 Hk0).
  apply (wp_loop_st (fun b k' => inop k0 V L ∅ B k' /\ 0 <= b /\ b mod BPB = 0 /\ forall c, 0 <= c < Z.min b (sb_size sb) -> in_use sb V c = true)
    (fun b _ => Z.to_nat (sb_size sb - b))).
  - intros b k' (H' & Hb0 & Hbm & Hused). destruct (Z.ltb_spec b (sb_size sb)) as [Hlt|Hge].
    + pose proof (BBLOCK_meta sb start Hly b) as Hmeta. apply wp_bind.
      eapply (inop_bread swtch fuel Hfuel rw Hrw); [exact H'|apply HL; lia|done|]. intros j k1 H1.
      apply wp_bind. eapply wp_mono; [apply (balloc_inner k0 V L B); try done; [apply HL; lia|intros c Hc; apply Hused; lia]|].
      cbn beta. intros [c|] k2.
      * intros [Hc H2]. apply wp_ret. destruct (free_list sb V) as [|b0 fl]; [done|]. injection Hc as ->. by apply HQ.
      * intros [-> Hall]. apply wp_bind. eapply (inop_brelse fuel Hfuel rw Hrw); [exact H1|apply lookup_insert_eq|set_solver|].
        intros k3 H3. rewrite delete_insert_id in H3 by (apply HL; lia). apply wp_ret. split; [|unfold BPB, BSIZE; lia].
        split_and!; [done|unfold BPB, BSIZE; lia|rewrite <- Z.add_mod_idemp_r, Z.mod_same, Z.add_0_r by done; done|done].
    + apply wp_bind, printk_plain; [apply (ho_held _ _ _ (inop_host _ _ _ _ _ _ _ _ _ H'))|apply (bool_decide_unpack _); by vm_compute|].
      apply wp_ret. rewrite (free_nil sb V) in HQ by (intros c Hc; apply Hused; lia). apply HQ.
      rewrite (inop_uart _ _ _ _ _ _ _ _ _ H'). by apply inop_reuart.
  - split_and!; [done|lia|done|intros c Hc; lia].
  - rewrite Z.sub_0_r. lia.
Qed.

(** [bfree]'s update of the disk. *)
Definition dealloc (V : Z -> block) (b : Z) : Z -> block :=
  upd V (BBLOCK b sb) (unmark (V (BBLOCK b sb)) (b mod BPB)).

Lemma bfree_spec k0 V L B k b (Q : unit -> kernel fsys -> Prop) :
  based k0 -> disk_ok sb V -> inop k0 V L ∅ B k -> L !! BBLOCK b sb = None -> (size L < 2)%nat ->
  0 <= b < sb_size sb -> in_use sb V b = true -> BBLOCK b sb ∈ B ->
  (forall k', inop k0 (dealloc V b) L ∅ B k' -> Q tt k') ->
  wp (bfree swtch fuel rw dev b) k Q.
Proof.
  intros Hk0 Hd H HL Hsz Hb Hu HB HQ. unfold bfree. apply wp_bind, wp_fgets. rewrite (inop_sb _ _ _ _ _ _ _ _ _ H), (proj1 Hk0).
  apply wp_bind. eapply (inop_bread swtch fuel Hfuel rw Hrw); [exact H|done|done|]. intros j k1 H1.
  assert (HL1 : <[BBLOCK b sb := j]> L !! BBLOCK b sb = Some j) by apply lookup_insert_eq.
  destruct (bitmap_block V b b Hd ltac:(lia)) as [e He].
  apply wp_bind. eapply inop_data_byte; [exact H1|exact HL1|exact He|].
  pose proof (bit_test (V (BBLOCK b sb)) (b mod BPB)) as Hbt. rewrite nth_lookup, He in Hbt. cbn [default from_option id] in Hbt.
  fold (mask (b mod BPB)). rewrite Hbt. unfold in_use in Hu. rewrite Hu. cbn [negb].
  destruct (bmap_off sb start Hly b Hb) as [Hr Ho].
  eapply (inop_write i pid dev k0 V _ B k1 (BBLOCK b sb) j _ (fun d => <[Z.to_nat (b mod BPB / 8) := u8 (Z.land e (Z.lnot (mask (b mod BPB))))]> d));
    [exact H1|exact HL1|done|done|destruct Hk0 as [_ ->]; done|]. intros k2 H2.
  eapply (inop_brelse fuel Hfuel rw Hrw); [exact H2|exact HL1|set_solver|]. intros k3 H3. apply HQ.
  rewrite delete_insert_id in H3 by done. unfold dealloc, unmark, set_bit. by rewrite nth_lookup, He.
Qed.

(** Freeing a free block is a panic. *)
Lemma bfree_panics k0 V L B k b :
  based k0 -> disk_ok sb V -> inop k0 V L ∅ B k -> L !! BBLOCK b sb = None -> (size L < 2)%nat ->
  0 <= b < sb_size sb -> in_use sb V b = false ->
  wpe (bfree swtch fuel rw dev b) k (fun _ _ => False) (fun e => e = "freeing free block"%string).
Proof.
  intros Hk0 Hd H HL Hsz Hb Hu. unfold bfree. apply wpe_bind, wpe_wp, wp_fgets. rewrite (inop_sb _ _ _ _ _ _ _ _ _ H), (proj1 Hk0).
  apply wpe_bind, wpe_wp. eapply (inop_bread swtch fuel Hfuel rw Hrw); [exact H|done|done|]. intros j k1 H1.
  destruct (bitmap_block V b b Hd ltac:(lia)) as [e He].
  apply wpe_bind, wpe_wp. eapply inop_data_byte; [exact H1|apply lookup_insert_eq|exact He|].
  pose proof (bit_test (V (BBLOCK b sb)) (b mod BPB)) as Hbt. rewrite nth_lookup, He in Hbt. cbn [default from_option id] in Hbt.
  fold (mask (b mod BPB)). rewrite Hbt. unfold in_use in Hu. rewrite Hu. by apply wpe_panic.
Qed.
End alloc.
