(* ===== verification/FsInode.v ===== *)
(** The blocks of a file: bmap, readi and writei of fs.c.

    [slot V x s] is the address in slot [s] of inode [x], the last slot being
    that of the indirect block.  [content V x] is the file as a list of bytes. *)

From S2P Require Import Prelude.
From S2P Require Import Spinlock.
From S2P Require Import Riscv.
From S2P Require Import Kalloc.
From S2P Require Import Proc.
From S2P Require Import FsState.
From S2P Require Import Bio.
From S2P Require Import BioSpec.
From S2P Require Import Log.
From S2P Require Import LogSpec.
From S2P Require Import LogTheorems.
From S2P Require Import Fs.
From S2P Require Import FsOp.
From S2P Require Import FsBitmap.
From S2P Require Import FsAlloc.

(** ** Addresses *)

Definition indirect (x : inode) : Z := nth NDIRECT (i_addrs x) 0.

Definition addr_of (V : Z -> block) (x : inode) (bn : nat) : Z :=
  if (bn <? NDIRECT)%nat then nth bn (i_addrs x) 0
  else if indirect x =? 0 then 0 else get32 (V (indirect x)) (4 * (bn - NDIRECT)).

Definition slot (V : Z -> block) (x : inode) (s : nat) : Z :=
  if (s =? MAXFILE)%nat then indirect x else addr_of V x s.

Lemma slot_addr V x bn : (bn < MAXFILE)%nat -> slot V x bn = addr_of V x bn.
Proof. intros Hb. unfold slot. rewrite (proj2 (Nat.eqb_neq _ _)); [done|lia]. Qed.
Lemma slot_ind V x : slot V x MAXFILE = indirect x.
Proof. unfold slot. by rewrite Nat.eqb_refl. Qed.

Record inode_ok (dev : Z) (sb : superblock) (V : Z -> block) (x : inode) : Prop := {
  in_dev : i_dev x = dev;
  in_inum : 0 < i_inum x < sb_ninodes sb;
  in_len : length (i_addrs x) = S NDIRECT;
  in_size : 0 <= i_size x <= Z.of_nat MAXFILE * Z.of_nat BSIZE;
  in_full bn : Z.of_nat bn * Z.of_nat BSIZE < i_size x -> addr_of V x bn <> 0;
  in_data s : (s <= MAXFILE)%nat -> slot V x s <> 0 -> nmeta sb <= slot V x s < sb_size sb /\ in_use sb V (slot V x s) = true;
  in_inj s s' : (s <= MAXFILE)%nat -> (s' <= MAXFILE)%nat -> slot V x s <> 0 -> slot V x s = slot V x s' -> s = s'
}.

(** ** Contents *)

Definition byte_at (V : Z -> block) (x : inode) (o : nat) : Z := nth (o mod BSIZE) (V (addr_of V x (o / BSIZE))) 0.
Definition content (V : Z -> block) (x : inode) : list Z := map (byte_at V x) (seq 0 (Z.to_nat (i_size x))).

Lemma content_length V x : length (content V x) = Z.to_nat (i_size x).
Proof. unfold content. by rewrite length_map, length_seq. Qed.

Lemma content_lookup V x o : (o < Z.to_nat (i_size x))%nat -> content V x !! o = Some (byte_at V x o).
Proof. intros Ho. unfold content. by rewrite list_lookup_fmap, lookup_seq_lt. Qed.

Lemma block_offset bn o : (o < BSIZE)%nat -> ((bn * BSIZE + o) mod BSIZE = o /\ (bn * BSIZE + o) / BSIZE = bn)%nat.
Proof.
  intros Ho. assert (BSIZE <> 0%nat) by done. rewrite (Nat.add_comm (bn * BSIZE)).
  rewrite Nat.Div0.mod_add, Nat.div_add, Nat.mod_small, Nat.div_small by done. done.
Qed.

(** Part of one block of the file. *)
Lemma content_slice V x bn o m :
  length (V (addr_of V x bn)) = BSIZE -> (o + m <= BSIZE)%nat -> (bn * BSIZE + o + m <= Z.to_nat (i_size x))%nat ->
  slice (V (addr_of V x bn)) o m = slice (content V x) (bn * BSIZE + o) m.
Proof.
  intros Hl Hm Hs. apply list_eq. intros q. unfold slice. destruct (decide (q < m)%nat) as [Hq|Hq].
  - rewrite !lookup_take_lt, !lookup_drop by done. rewrite content_lookup by lia. unfold byte_at.
    destruct (block_offset bn (o + q)) as [E1 E2]; [lia|]. rewrite Nat.add_assoc in E1, E2. rewrite E1, E2.
    destruct (lookup_lt_is_Some_2 (V (addr_of V x bn)) (o + q)) as [c Hc]; [lia|]. by rewrite Hc, (nth_lookup_Some _ _ _ _ Hc).
  - rewrite !lookup_take_ge by lia. done.
Qed.

Lemma slice_app d o m m' : slice d o (m + m') = slice d o m ++ slice d (o + m) m'.
Proof. unfold slice. rewrite <- drop_drop. symmetry. apply take_take_drop. Qed.

Section bmap.
Context (swtch : M (kernel fsys) unit) (fuel : nat) (Hfuel : can_wait fuel).
Context (rw : nat -> bool -> M (kernel fsys) unit) (Hrw : driver_ok rw).
Context (i : nat) (pid dev : Z) (sb : superblock) (start : Z) (Hly : layout sb start).
Implicit Types (k : kernel fsys) (V : Z -> block) (x : inode).
Abbreviation inop := (inop i pid dev).
Abbreviation inode_ok := (inode_ok dev sb).

(** Entry [ip] of the inode table. *)
Definition entry (k : kernel fsys) (ip : Z) (x : inode) : Prop := 1 <= ip /\ fs_inode (k_files k) !! Z.to_nat (ip - 1) = Some x.

Lemma inop_geti k0 V L D B k ip x (Q : inode -> kernel fsys -> Prop) :
  inop k0 V L D B k -> entry k0 ip x -> Q x k -> wp (geti ip) k Q.
Proof.
  intros H [Hip Hx] HQ. unfold wp, geti. rewrite (inop_inodes _ _ _ _ _ _ _ _ _ H), Hx.
  destruct (Z.ltb_spec ip 1); [lia|done].
Qed.

Lemma inop_get_addr k0 V L D B k ip x q (Q : Z -> kernel fsys -> Prop) :
  inop k0 V L D B k -> entry k0 ip x -> (q < length (i_addrs x))%nat -> Q (nth q (i_addrs x) 0) k -> wp (get_addr ip q) k Q.
Proof.
  intros H Hx Hq HQ. unfold get_addr. apply wp_bind. eapply inop_geti; [exact H|exact Hx|].
  destruct (lookup_lt_is_Some_2 (i_addrs x) q Hq) as [a Ha]. rewrite Ha. apply wp_ret.
  by rewrite (nth_lookup_Some _ _ _ _ Ha) in HQ.
Qed.

Lemma inop_get_indirect k0 V L D B k b j q (Q : Z -> kernel fsys -> Prop) :
  inop k0 V L D B k -> L !! b = Some j -> Q (get32 (V b) (4 * q)) k -> wp (get_indirect j q) k Q.
Proof.
  intros H HL HQ. unfold get_indirect. apply wp_bind. eapply inop_getb; [exact H|exact HL|]. intros x ->. by apply wp_ret.
Qed.

(** [bmap] of a block that the file has. *)
Lemma bmap_has k0 V L B k ip x bn (Q : Z -> kernel fsys -> Prop) :
  inop k0 V L ∅ B k -> entry k0 ip x -> i_dev x = dev -> length (i_addrs x) = S NDIRECT ->
  (bn < MAXFILE)%nat -> addr_of V x bn <> 0 -> L !! indirect x = None -> (size L < 2)%nat ->
  (forall k', inop k0 V L ∅ B k' -> Q (addr_of V x bn) k') ->
  wp (bmap swtch fuel rw ip (Z.of_nat bn)) k Q.
Proof.
  intros H Hx Hdev Hlen Hbn Ha HL Hsz HQ. unfold bmap, addr_of in *.
  destruct (Nat.ltb_spec bn NDIRECT) as [Hlt|Hge].
  - rewrite (proj2 (Z.ltb_lt _ _)), Nat2Z.id by lia. unfold addr_or_alloc. apply wp_bind.
    eapply inop_get_addr; [exact H|exact Hx|lia|]. rewrite (proj2 (Z.eqb_neq _ _)) by done. apply wp_ret. by apply HQ.
  - destruct (Z.eqb_spec (indirect x) 0) as [E|Hind]; [done|].
    rewrite (proj2 (Z.ltb_ge _ _)), (proj2 (Z.ltb_lt _ _)) by (unfold MAXFILE in Hbn; lia).
    unfold addr_or_alloc. apply wp_bind, wp_bind. eapply inop_get_addr; [exact H|exact Hx|lia|]. fold (indirect x).
    rewrite (proj2 (Z.eqb_neq _ _)) by done. apply wp_ret. rewrite (proj2 (Z.eqb_neq _ _)) by done.
    apply wp_bind. eapply inop_geti; [exact H|exact Hx|]. rewrite Hdev. apply wp_bind.
    eapply (inop_bread swtch fuel Hfuel rw Hrw); [exact H|done|done|]. intros j k1 H1. apply wp_bind.
    eapply inop_get_indirect; [exact H1|apply lookup_insert_eq|].
    replace (Z.to_nat (Z.of_nat bn - Z.of_nat NDIRECT)) with (bn - NDIRECT)%nat by lia.
    rewrite (proj2 (Z.eqb_neq _ _)) by done. apply wp_bind, wp_ret, wp_bind.
    eapply (inop_brelse fuel Hfuel rw Hrw); [exact H1|apply lookup_insert_eq|set_solver|]. intros k2 H2.
    rewrite delete_insert_id in H2 by done. apply wp_ret. by apply HQ.
Qed.

(** ** readi *)

Context `{HLS : LinkerSyms}.

(** [I got dst k0]: [dst] has received the bytes [got], of the bytes [all]. *)
Definition sink_ok (all : list Z) (I : list Z -> dest -> kernel fsys -> Prop) : Prop :=
  forall got dst k0 V L B k bs (Q : Z * dest -> kernel fsys -> Prop),
    I got dst k0 -> (got ++ bs) `prefix_of` all -> inop k0 V L ∅ B k ->
    (forall dst' k0' k', I (got ++ bs) dst' k0' -> k_files k0' = k_files k0 -> inop k0' V L ∅ B k' -> Q (0, dst') k') ->
    wp (either_copyout dst bs) k Q.

Lemma chunk_eq n tot off :
  0 <= tot < n -> n < 2 ^ 32 -> 0 <= off ->
  chunk n tot off = Z.min (n - tot) (Z.of_nat BSIZE - off mod Z.of_nat BSIZE) /\ 0 < chunk n tot off <= n - tot.
Proof. intros Ht Hn Ho. unfold chunk. rewrite u32_id by lia. split; [done|]. unfold BSIZE. dlia. Qed.

(** The block of an offset. *)
Lemma offset_block V x off :
  0 <= off < i_size x -> inode_ok V x ->
  let bn := Z.to_nat (off / Z.of_nat BSIZE) in
  (bn < MAXFILE)%nat /\ addr_of V x bn <> 0 /\ off / Z.of_nat BSIZE = Z.of_nat bn /\
  Z.to_nat off = (bn * BSIZE + Z.to_nat (off mod Z.of_nat BSIZE))%nat.
Proof.
  intros Ho Hok bn. pose proof (in_size _ _ _ _ Hok) as Hs. assert (E : off / Z.of_nat BSIZE = Z.of_nat bn).
  { unfold bn. rewrite Z2Nat.id; [done|]. unfold BSIZE. dlia. }
  assert (Hlt : Z.of_nat bn * Z.of_nat BSIZE <= off) by (rewrite <- E; unfold BSIZE; dlia).
  split_and!; [| |done|].
  - apply Nat2Z.inj_lt. rewrite <- E. unfold BSIZE in *. dlia.
  - apply (in_full _ _ _ _ Hok). lia.
  - unfold bn. unfold BSIZE. dlia.
Qed.

Lemma data_unlocked V x s : inode_ok V x -> (s <= MAXFILE)%nat -> slot V x s <> 0 -> sb_inodestart sb <= slot V x s.
Proof.
  intros Hok Hs Hne. destruct (in_data _ _ _ _ Hok s Hs Hne) as [Hd _]. destruct Hly. unfold nmeta, IPB, BPB, BSIZE in *. cbn in *. dlia.
Qed.

Lemma readi_step k0 V B k ip x dst tot off n I all got (Q : (Z * Z * dest) + (Z * dest) -> kernel fsys -> Prop) :
  sink_ok all I -> (got ++ slice (content V x) (Z.to_nat off) (Z.to_nat (n - tot))) `prefix_of` all -> inop k0 V ∅ ∅ B k -> entry k0 ip x -> disk_ok sb V -> inode_ok V x -> I got dst k0 ->
  0 <= tot < n -> n <= i_size x -> 0 <= off -> off + (n - tot) <= i_size x ->
  (forall m dst' k0' k', 0 < m <= n - tot -> I (got ++ slice (content V x) (Z.to_nat off) (Z.to_nat m)) dst' k0' ->
    k_files k0' = k_files k0 -> inop k0' V ∅ ∅ B k' -> Q (inl (tot + m, off + m, dst')) k') ->
  wp (addr <- bmap swtch fuel rw ip (off / Z.of_nat BSIZE) ;;
      if addr =? 0 then ret (inr (i32 tot, dst))
      else
        x <- geti ip ;;
        bp <- bread swtch fuel rw (i_dev x) addr ;;
        let m := chunk n tot off in
        b <- getb bp ;;
        r <- either_copyout dst (slice (b_data b) (Z.to_nat (off mod Z.of_nat BSIZE)) (Z.to_nat m)) ;;
        let '(rc, dst) := r in
        if rc =? -1 then brelse bp >>> ret (inr (-1, dst))
        else brelse bp >>> ret (inl (u32 (tot + m), u32 (off + m), dst))) k Q.
Proof.
  intros HI Hpre H Hx Hd Hok Hgot Ht Hns Ho Hn HQ. pose proof (in_size _ _ _ _ Hok) as Hs. unfold MAXFILE, NDIRECT, NINDIRECT, BSIZE in Hs.
  destruct (offset_block V x off) as (Hbn & Ha & E & Eo); [lia|done|]. set (bn := Z.to_nat (off / Z.of_nat BSIZE)) in *. rewrite E.
  destruct (chunk_eq n tot off) as [Em Hm]; [lia|lia|lia|]. set (m := chunk n tot off) in *.
  apply wp_bind. eapply bmap_has; [exact H|exact Hx|apply Hok|apply Hok|done|done|apply lookup_empty|rewrite map_size_empty; lia|].
  intros k1 H1. rewrite (proj2 (Z.eqb_neq _ _)) by done. apply wp_bind. eapply inop_geti; [exact H1|exact Hx|].
  rewrite (in_dev _ _ _ _ Hok). apply wp_bind.
  eapply (inop_bread swtch fuel Hfuel rw Hrw); [exact H1|apply lookup_empty|rewrite map_size_empty; lia|]. intros j k2 H2.
  apply wp_bind. eapply inop_getb; [exact H2|apply lookup_insert_eq|]. intros b ->. apply wp_bind.
  rewrite content_slice; [|rewrite <- (slot_addr V x) in * by done; by apply (data_len sb start Hly), (in_data _ _ _ _ Hok); [|lia|]|unfold BSIZE in *; dlia|lia]. rewrite <- Eo.
  eapply HI; [exact Hgot| |exact H2|].
  { etransitivity; [|exact Hpre]. apply prefix_app. unfold slice. eexists (drop (Z.to_nat m) (take (Z.to_nat (n - tot)) _)). rewrite <- (take_drop (Z.to_nat m) (take (Z.to_nat (n - tot)) _)) at 1. f_equal. rewrite take_take. f_equal. lia. }
  intros dst' k0' k3 Hgot' Hf H3. cbn [Z.eqb]. apply wp_bind.
  eapply (inop_brelse fuel Hfuel rw Hrw); [exact H3|apply lookup_insert_eq|set_solver|]. intros k4 H4.
  rewrite delete_insert_id in H4 by apply lookup_empty. apply wp_ret. rewrite !u32_id by lia. by eapply HQ.
Qed.

Lemma readi_spec k0 V B k ip x dst off n I (Q : Z * dest -> kernel fsys -> Prop) :
  sink_ok (slice (content V x) (Z.to_nat off) (Z.to_nat (Z.min n (i_size x - off)))) I ->
  inop k0 V ∅ ∅ B k -> entry k0 ip x -> disk_ok sb V -> inode_ok V x -> I [] dst k0 ->
  0 <= off <= i_size x -> 0 <= n -> off + n < 2 ^ 32 ->
  (let r := Z.min n (i_size x - off) in
   forall dst' k0' k', I (slice (content V x) (Z.to_nat off) (Z.to_nat r)) dst' k0' -> k_files k0' = k_files k0 ->
     inop k0' V ∅ ∅ B k' -> Q (r, dst') k') ->
  wp (readi swtch fuel rw ip dst off n) k Q.
Proof.
  intros HI H Hx Hd Hok Hgot Ho Hn Hov HQ. cbn zeta in HQ. pose proof (in_size _ _ _ _ Hok) as Hs. unfold MAXFILE, NDIRECT, NINDIRECT, BSIZE in Hs.
  unfold readi. apply wp_bind. eapply inop_geti; [exact H|exact Hx|]. rewrite u32_id by lia.
  destruct (Z.ltb_spec (i_size x) off); [lia|]. destruct (Z.ltb_spec (off + n) off); [lia|]. cbn [orb].
  set (r := Z.min n (i_size x - off)) in *.
  replace (if i_size x <? off + n then u32 (i_size x - off) else n) with r.
  2:{ destruct (Z.ltb_spec (i_size x) (off + n)); [rewrite u32_id by lia|]; lia. }
  apply (wp_loop_st (fun '(tot, off', dst') k' => 0 <= tot <= r /\ off' = off + tot /\ exists k0',
      I (slice (content V x) (Z.to_nat off) (Z.to_nat tot)) dst' k0' /\ k_files k0' = k_files k0 /\ inop k0' V ∅ ∅ B k')
    (fun '(tot, _, _) _ => Z.to_nat (r - tot))).
  - intros [[tot off'] dst'] k' (Ht & -> & k0' & Hgot' & Hf & H'). destruct (Z.ltb_spec tot r) as [Hlt|Hge].
    + eapply (readi_step k0' V B k' ip x dst' tot (off + tot) r I); try done; [| |lia..|].
      { rewrite Z2Nat.inj_add, <- slice_app by lia. by replace (Z.to_nat tot + Z.to_nat (r - tot))%nat with (Z.to_nat r) by lia. }
      { unfold entry. by rewrite Hf. }
      intros m dst2 k2 k3 Hm Hgot2 Hf2 H2. split; [|lia]. split_and!; [lia|lia|lia|]. exists k2. split_and!; [|congruence|done].
      rewrite Z2Nat.inj_add, slice_app by lia. by rewrite Z2Nat.inj_add in Hgot2 by lia.
    + apply wp_ret. assert (tot = r) as -> by lia. rewrite i32_id by lia. by eapply HQ.
  - split_and!; [lia|lia|lia|]. exists k0. split_and!; [|done|done]. unfold slice. by rewrite take_0.
  - lia.
Qed.

(** Reading into a local variable. *)
Lemma local_sink all k0 : sink_ok all (fun got dst k0' => dst = LocalDst got /\ k0' = k0).
Proof.
  intros got dst k0' V L B k bs Q [-> ->] _ H HQ. unfold either_copyout. apply wp_ret. by eapply HQ.
Qed.

Lemma readi_local k0 V B k ip x off n (Q : Z * dest -> kernel fsys -> Prop) :
  inop k0 V ∅ ∅ B k -> entry k0 ip x -> disk_ok sb V -> inode_ok V x ->
  0 <= off <= i_size x -> 0 <= n -> off + n < 2 ^ 32 ->
  (let r := Z.min n (i_size x - off) in
   forall k', inop k0 V ∅ ∅ B k' -> Q (r, LocalDst (slice (content V x) (Z.to_nat off) (Z.to_nat r))) k') ->
  wp (readi swtch fuel rw ip (LocalDst []) off n) k Q.
Proof.
  intros H Hx Hd Hok Ho Hn Hov HQ. eapply readi_spec; [apply (local_sink _ k0)|exact H|exact Hx|done..|].
  cbn zeta. intros dst' k0' k' [-> ->] _ H'. by apply HQ.
Qed.
End bmap.
