(* ===== verification/FsGrow.v ===== *)
(** A file that gets blocks: bmap of fs.c when it allocates.

    [grows V x V' x'] says how the disk and the inode may change: slots are
    only filled, with blocks that were free and are zeroed, and nothing else
    that is in use changes. *)

From S2P Require Import Prelude.
From S2P Require Import Spinlock.
From S2P Require Import Riscv.
From S2P Require Import Kalloc.
From S2P Require Import Proc.
From S2P Require Import FsState.
From S2P Require Import Bio.
From S2P Require Import BioSpec.
From S2P Require Import Log.
From S2P Require Import LogSpec.
From S2P Require Import LogTheorems.
From S2P Require Import Fs.
From S2P Require Import FsOp.
From S2P Require Import FsBitmap.
From S2P Require Import FsAlloc.
From S2P Require Import FsInode.

(** The inodes differ in the addresses only. *)
Definition same_meta (x x' : inode) : Prop := x' = set_i_addrs (i_addrs x') x.

Lemma same_meta_refl x : same_meta x x.
Proof. by destruct x. Qed.

Lemma same_meta_trans x y z : same_meta x y -> same_meta y z -> same_meta x z.
Proof. destruct x, y, z. unfold same_meta. cbn. intros [= -> -> -> -> -> -> -> -> ->] [= -> -> -> -> -> -> -> -> ->]. done. Qed.

Section grow.
Context (dev : Z) (sb : superblock) (start : Z) (Hly : layout sb start) (B : gset Z).
Implicit Types (V : Z -> block) (x : inode).
Abbreviation inode_ok := (inode_ok dev sb).
Abbreviation alloc := (alloc sb).

(** Blocks in use, outside the free map and other than the indirect block of
    [x]: those that growing [x] does not touch. *)
Definition settled V x (c : Z) : Prop :=
  (c < sb_bmapstart sb \/ nmeta sb <= c < sb_size sb /\ in_use sb V c = true) /\ (indirect x <> 0 -> c <> indirect x).

(** The file keeps its blocks and may have more. *)
Record extends V x V' x' : Prop := {
  ex_disk : disk_ok sb V';
  ex_inode : inode_ok V' x';
  ex_meta : same_meta x x';
  ex_slot s : (s <= MAXFILE)%nat -> slot V x s <> 0 -> slot V' x' s = slot V x s;
  ex_fresh s : (s <= MAXFILE)%nat -> slot V x s = 0 -> slot V' x' s <> 0 -> slot V' x' s ∈ free_list sb V /\ slot V' x' s ∈ B;
  ex_used c : 0 <= c < sb_size sb -> in_use sb V c = true -> in_use sb V' c = true
}.

Record grows V x V' x' : Prop := {
  gr_ext :> extends V x V' x';
  gr_new s : (s < MAXFILE)%nat -> slot V x s = 0 -> slot V' x' s <> 0 -> V' (slot V' x' s) = replicate BSIZE 0;
  gr_block c : settled V x c -> V' c = V c
}.

Lemma extends_refl V x : disk_ok sb V -> inode_ok V x -> extends V x V x.
Proof. intros Hd Hok. split; try done. apply same_meta_refl. Qed.

Lemma grows_refl V x : disk_ok sb V -> inode_ok V x -> grows V x V x.
Proof. intros Hd Hok. split; try done. by apply extends_refl. Qed.

(** An address in use is not free, and not a block of the free map. *)
Lemma slot_settled V x s b :
  inode_ok V x -> (s <= MAXFILE)%nat -> slot V x s <> 0 -> b ∈ free_list sb V -> slot V x s <> b.
Proof.
  intros Hok Hs Hne [_ Hb]%elem_free E. destruct (in_data _ _ _ _ Hok s Hs Hne) as [_ Hu]. congruence.
Qed.

Lemma ind_slot V x : indirect x = slot V x MAXFILE.
Proof. by rewrite slot_ind. Qed.

Lemma alloc_slot V x b s :
  disk_ok sb V -> inode_ok V x -> b ∈ free_list sb V -> slot (alloc V b) x s = slot V x s.
Proof.
  intros Hd Hok Hb. unfold slot, addr_of. destruct (s =? MAXFILE)%nat; [done|]. destruct (s <? NDIRECT)%nat; [done|].
  destruct (Z.eqb_spec (indirect x) 0) as [|Hne]; [done|]. rewrite (ind_slot V x) in Hne |- *.
  destruct (in_data _ _ _ _ Hok MAXFILE ltac:(done) Hne) as [Hdat _].
  pose proof (free_data sb V b Hd Hb). pose proof (nmeta_pos sb start Hly).
  rewrite (alloc_other sb start Hly); [done|by apply slot_settled|lia|lia].
Qed.

(** One block is allocated and put into slot [s]. *)
Lemma grows_step V x b fl V' x' s :
  disk_ok sb V -> inode_ok V x -> free_list sb V = b :: fl -> b ∈ B -> (s <= MAXFILE)%nat -> slot V x s = 0 ->
  same_meta x x' -> length (i_addrs x') = S NDIRECT ->
  (forall s', (s' <= MAXFILE)%nat -> slot V' x' s' = if decide (s' = s) then b else slot V x s') ->
  (forall c, (indirect x <> 0 -> c <> indirect x) -> V' c = alloc V b c) -> (indirect x <> 0 -> length (V' (indirect x)) = BSIZE) ->
  grows V x V' x' /\ free_list sb V' = fl.
Proof.
  intros Hd Hok Hfl HB Hs H0 Hmeta Hlen Hslot HV Hlind.
  assert (Hb : b ∈ free_list sb V) by (rewrite Hfl; apply elem_of_cons; by left).
  pose proof (free_data sb V b Hd Hb) as Hbd. pose proof (nmeta_pos sb start Hly) as Hpos.
  assert (Hind : indirect x = 0 \/ nmeta sb <= indirect x < sb_size sb).
  { destruct (decide (indirect x = 0)) as [|Hne]; [by left|right]. rewrite (ind_slot V x) in Hne |- *. by apply (in_data _ _ _ _ Hok). }
  assert (Huse : forall c, 0 <= c < sb_size sb -> in_use sb V' c = in_use sb (alloc V b) c).
  { intros c Hc. unfold in_use. rewrite HV; [done|]. pose proof (BBLOCK_meta sb start Hly c Hc). lia. }
  assert (Huse' : forall c, 0 <= c < sb_size sb -> in_use sb V' c = (c =? b) || in_use sb V c).
  { intros c Hc. rewrite Huse by done. by apply (alloc_in_use sb start Hly). }
  assert (Hdisk : disk_ok sb V').
  { destruct (alloc_ok sb start Hly V b Hd Hbd) as [Hl Hm]. split.
    - intros c Hc. destruct (decide (indirect x <> 0 /\ c = indirect x)) as [[? ->]|Hne]; [auto|]. rewrite HV by naive_solver. by apply Hl.
    - intros c Hc. pose proof (ly_data _ _ Hly). rewrite Huse by lia. by apply Hm. }
  split; [|rewrite (free_ext sb (alloc V b) V' Huse); by apply (alloc_free sb start Hly)].
  assert (Hx' : i_dev x' = i_dev x /\ i_inum x' = i_inum x /\ i_size x' = i_size x) by (by rewrite Hmeta).
  assert (Hext : extends V x V' x').
  { split; try done.
  - destruct Hx' as (Ed & En & Esz). split; try done; rewrite ?Ed, ?En, ?Esz; try apply Hok.
    + intros bn Hbn. pose proof (in_size _ _ _ _ Hok) as Hsz.
      assert (bn < MAXFILE)%nat by (unfold BSIZE in *; lia).
      rewrite <- (slot_addr V' x' bn), Hslot by lia. case_decide; [lia|]. rewrite slot_addr by done. by apply (in_full _ _ _ _ Hok).
    + intros s' Hs'. rewrite Hslot by done. case_decide.
      * intros _. split; [done|]. rewrite Huse', Z.eqb_refl by lia. done.
      * intros Hne. destruct (in_data _ _ _ _ Hok s' Hs' Hne) as [Hdat Hu]. split; [done|]. rewrite Huse', Hu by lia. apply orb_true_r.
    + intros s1 s2 Hs1 Hs2. rewrite !Hslot by done. repeat case_decide; try done; try congruence.
      * intros _ E. exfalso. apply (slot_settled V x s2 b); try done. rewrite <- E. lia.
      * intros Hne E. exfalso. by apply (slot_settled V x s1 b).
      * by apply (in_inj _ _ _ _ Hok).
  - intros s' Hs' Hne. rewrite Hslot by done. case_decide; [congruence|done].
  - intros s' Hs' Hz. rewrite Hslot by lia. by case_decide.
  - intros c Hc Hu. rewrite Huse', Hu by done. apply orb_true_r. }
  split; [done| |].
  - intros s' Hs' Hz. rewrite Hslot by lia. case_decide; [|done]. intros _. rewrite HV.
    + unfold FsBitmap.alloc. by rewrite upd_eq.
    + intros Hne ->. rewrite (ind_slot V x) in Hne, Hb. by apply (slot_settled V x MAXFILE (slot V x MAXFILE)).
  - intros c [Hc Hci]. rewrite HV by done. apply (alloc_other sb start Hly); [|lia|lia]. intros ->.
    pose proof (BBLOCK_meta sb start Hly b). destruct Hc as [Hc|[_ Hc]]; [lia|]. apply elem_free in Hb as [_ Hb]. congruence.
Qed.

Lemma settled_slot V x s :
  inode_ok V x -> (s < MAXFILE)%nat -> slot V x s <> 0 -> settled V x (slot V x s).
Proof.
  intros Hok Hs Hne. split; [right; apply (in_data _ _ _ _ Hok); [lia|done]|]. intros Hi E. rewrite (ind_slot V x) in E.
  assert (s = MAXFILE) by (apply (in_inj _ _ _ _ Hok); [lia|done|done|done]). lia.
Qed.

Lemma settled_extends V x V' x' c : extends V x V' x' -> settled V x c -> settled V' x' c.
Proof.
  intros G [Hc Hi]. split.
  - destruct Hc as [Hc|[Hc Hu]]; [by left|right]. split; [done|]. apply (ex_used _ _ _ _ G); [|done]. pose proof (nmeta_pos sb start Hly). lia.
  - intros Hne. destruct (decide (indirect x = 0)) as [E|E].
    + rewrite (ind_slot V' x'), (ind_slot V x) in *. pose proof (ex_fresh _ _ _ _ G MAXFILE ltac:(done) E Hne) as [Hf _].
      intros ->. apply elem_free in Hf as [_ Hf]. destruct Hc as [Hc|[_ Hc]]; [|congruence].
      destruct (in_data _ _ _ _ (ex_inode _ _ _ _ G) MAXFILE ltac:(done) Hne) as [Hd _].
      pose proof (BBLOCK_meta sb start Hly (slot V' x' MAXFILE)). pose proof (nmeta_pos sb start Hly). lia.
    + rewrite (ind_slot V' x'), (ex_slot _ _ _ _ G), <- (ind_slot V x); [by apply Hi|done|by rewrite <- ind_slot].
Qed.

Lemma extends_trans V x V1 x1 V2 x2 : extends V x V1 x1 -> extends V1 x1 V2 x2 -> extends V x V2 x2.
Proof.
  intros G1 G2. split; try apply G2.
  - eapply same_meta_trans; [apply G1|apply G2].
  - intros s Hs Hne. rewrite (ex_slot _ _ _ _ G2), (ex_slot _ _ _ _ G1); try done. by rewrite (ex_slot _ _ _ _ G1).
  - intros s Hs H0 Hne. destruct (decide (slot V1 x1 s = 0)) as [E|E].
    + destruct (ex_fresh _ _ _ _ G2 s Hs E Hne) as [[Hr Hf]%elem_free HB]. split; [|done]. apply elem_free. split; [done|].
      destruct (in_use sb V _) eqn:Eu; [|done]. apply (ex_used _ _ _ _ G1) in Eu; [congruence|done].
    + rewrite (ex_slot _ _ _ _ G2) by done. by apply (ex_fresh _ _ _ _ G1).
  - intros c Hc Hu. apply (ex_used _ _ _ _ G2); [done|]. by apply (ex_used _ _ _ _ G1).
Qed.

Lemma grows_trans V x V1 x1 V2 x2 : grows V x V1 x1 -> grows V1 x1 V2 x2 -> grows V x V2 x2.
Proof.
  intros G1 G2. split; [by eapply extends_trans; [apply G1|apply G2]| |].
  - intros s Hs H0 Hne. destruct (decide (slot V1 x1 s = 0)) as [E|E]; [by apply (gr_new _ _ _ _ G2)|].
    rewrite (ex_slot _ _ _ _ G2) by (done || lia). rewrite (gr_block _ _ _ _ G2); [by apply (gr_new _ _ _ _ G1)|].
    apply settled_slot; [apply (gr_ext _ _ _ _ G1)|done|done].
  - intros c Hc. rewrite (gr_block _ _ _ _ G2), (gr_block _ _ _ _ G1); [done|done|].
    eapply settled_extends; [apply (gr_ext _ _ _ _ G1)|done].
Qed.

(** The contents stay. *)
Lemma content_grows V x V' x' : inode_ok V x -> grows V x V' x' -> content V' x' = content V x.
Proof.
  intros Hok G. unfold content. assert (i_size x' = i_size x) as -> by (by rewrite (ex_meta _ _ _ _ G)).
  apply map_ext_in. intros o Ho%in_seq. unfold byte_at. pose proof (in_size _ _ _ _ Hok) as Hsz.
  assert (Hbn : (o / BSIZE < MAXFILE)%nat) by (apply Nat.Div0.div_lt_upper_bound; lia).
  assert (Ha : addr_of V x (o / BSIZE) <> 0).
  { apply (in_full _ _ _ _ Hok). pose proof (Nat.Div0.mul_div_le o BSIZE). lia. }
  rewrite <- !slot_addr by done. rewrite <- (slot_addr V x) in Ha by done.
  rewrite (ex_slot _ _ _ _ G) by (done || lia). by rewrite (gr_block _ _ _ _ G) by (by apply settled_slot).
Qed.
End grow.

(** ** Filling a slot *)

Lemma get32_zeros o : get32 (replicate BSIZE 0) o = 0.
Proof.
  assert (Hl : forall q, replicate BSIZE 0 !! q = Some 0 \/ replicate BSIZE 0 !! q = None).
  { intros q. destruct (replicate BSIZE 0 !! q) as [c|] eqn:E; [left|by right]. apply lookup_replicate in E as [-> _]. done. }
  unfold get32. destruct (Hl o) as [->| ->]; [|done]. destruct (Hl (o + 1)%nat) as [->| ->]; [|done].
  destruct (Hl (o + 2)%nat) as [->| ->]; [|done]. by destruct (Hl (o + 3)%nat) as [->| ->].
Qed.

Lemma nth_insert (l : list Z) q q' b : (q < length l)%nat -> nth q' (<[q := b]> l) 0 = if decide (q' = q) then b else nth q' l 0.
Proof.
  intros Hq. rewrite !nth_lookup. case_decide as E; [subst; by rewrite list_lookup_insert_eq|]. by rewrite list_lookup_insert_ne.
Qed.

Lemma slot_direct V x q b s :
  (q < NDIRECT)%nat -> length (i_addrs x) = S NDIRECT ->
  slot V (set_i_addrs (<[q := b]> (i_addrs x)) x) s = if decide (s = q) then b else slot V x s.
Proof.
  intros Hq Hl. unfold slot, addr_of, indirect. cbn [i_addrs set_i_addrs]. rewrite !nth_insert by lia.
  rewrite (decide_False (P := NDIRECT = q)) by lia.
  destruct (Nat.eqb_spec s MAXFILE) as [->|]; [by rewrite decide_False by (unfold MAXFILE; lia)|].
  destruct (Nat.ltb_spec s NDIRECT); [done|]. by rewrite decide_False by lia.
Qed.

Lemma slot_new_indirect V x b s :
  V b = replicate BSIZE 0 -> indirect x = 0 -> b <> 0 -> length (i_addrs x) = S NDIRECT -> (s <= MAXFILE)%nat ->
  slot V (set_i_addrs (<[NDIRECT := b]> (i_addrs x)) x) s = if decide (s = MAXFILE) then b else slot V x s.
Proof.
  intros HV H0 Hb Hl Hs. unfold slot, addr_of. assert (E : indirect (set_i_addrs (<[NDIRECT := b]> (i_addrs x)) x) = b).
  { unfold indirect. cbn [i_addrs set_i_addrs]. rewrite nth_insert, decide_True by (done || lia). done. }
  rewrite E, H0. cbn [i_addrs set_i_addrs]. rewrite nth_insert by lia.
  destruct (Nat.eqb_spec s MAXFILE) as [->|Hne]; [by rewrite (decide_True (P := MAXFILE = MAXFILE))|]. rewrite (decide_False (P := s = MAXFILE)) by done.
  destruct (Nat.ltb_spec s NDIRECT); [by rewrite decide_False by lia|].
  rewrite (proj2 (Z.eqb_neq b 0)), HV, get32_zeros by done. done.
Qed.

Lemma slot_entry V x bn b s :
  (NDIRECT <= bn < MAXFILE)%nat -> indirect x <> 0 -> length (V (indirect x)) = BSIZE -> 0 <= b < 2 ^ 32 -> (s <= MAXFILE)%nat ->
  slot (upd V (indirect x) (put32 (V (indirect x)) (4 * (bn - NDIRECT)) b)) x s = if decide (s = bn) then b else slot V x s.
Proof.
  intros Hbn Hi Hl Hb Hs. unfold slot, addr_of. rewrite upd_eq, (proj2 (Z.eqb_neq _ _)) by done.
  destruct (Nat.eqb_spec s MAXFILE) as [->|Hne]; [by rewrite decide_False by lia|].
  destruct (Nat.ltb_spec s NDIRECT); [by rewrite decide_False by lia|]. destruct (decide (s = bn)) as [->|Hsb].
  - rewrite get32_put32; [by apply u32_id|]. rewrite Hl. unfold MAXFILE, NDIRECT, NINDIRECT, BSIZE in *. lia.
  - apply get32_put32_ne. lia.
Qed.

(** ** The code *)

(** Entry [ip] of the inode table becomes [x]. *)
Definition putx (ip : Z) (x : inode) (k : kernel fsys) : kernel fsys :=
  reinode (<[Z.to_nat (ip - 1) := x]> (fs_inode (k_files k))) k.

Lemma putx_putx ip x y k : putx ip x (putx ip y k) = putx ip x k.
Proof. unfold putx, reinode. cbn. by rewrite list_insert_insert_eq. Qed.

Lemma putx_entry ip x y k : entry k ip y -> entry (putx ip x k) ip x.
Proof. intros [Hip Hy]. split; [done|]. cbn. apply list_lookup_insert_eq. by eapply lookup_lt_Some. Qed.

Lemma putx_same ip x k : entry k ip x -> putx ip x k = k.
Proof. intros [_ Hx]. unfold putx. rewrite list_insert_id by done. by destruct k as [? ? ? ? ? ? []]. Qed.

Section code.
Context (swtch : M (kernel fsys) unit) (fuel : nat) (Hfuel : can_wait fuel).
Context (rw : nat -> bool -> M (kernel fsys) unit) (Hrw : driver_ok rw).
Context (i : nat) (pid dev : Z) (sb : superblock) (start : Z) (Hly : layout sb start).
Implicit Types (k : kernel fsys) (V : Z -> block) (x : inode).
Abbreviation inop := (inop i pid dev).
Abbreviation inode_ok := (inode_ok dev sb).
Abbreviation grows := (grows dev sb).
Abbreviation based := (based sb start).

Lemma inop_seti k0 V L D B k ip x f (Q : unit -> kernel fsys -> Prop) :
  inop k0 V L D B k -> entry k0 ip x -> (forall k', inop (putx ip (f x) k0) V L D B k' -> Q tt k') -> wp (seti ip f) k Q.
Proof.
  intros H Hx HQ. unfold seti. apply wp_bind. eapply inop_geti; [exact H|exact Hx|]. apply wp_fmod, HQ.
  unfold putx. rewrite <- (inop_inodes _ _ _ _ _ _ _ _ _ H). by apply inop_reinode.
Qed.

(** What the transaction may write when the next [n] blocks are allocated. *)
Definition allows (B : gset Z) V x (n : nat) : Prop :=
  (n <= length (free_list sb V))%nat /\ (forall b, b ∈ take n (free_list sb V) -> b ∈ B /\ BBLOCK b sb ∈ B) /\
  (indirect x <> 0 -> indirect x ∈ B).

Lemma allows_head B V x n : allows B V x (S n) -> exists b fl, free_list sb V = b :: fl /\ b ∈ B /\ BBLOCK b sb ∈ B.
Proof.
  intros (Hn & HB & _). destruct (free_list sb V) as [|b fl]; [cbn in Hn; lia|]. exists b, fl. split; [done|].
  apply HB. cbn. apply elem_of_cons. by left.
Qed.

Lemma set_addrs_ok x q b : length (i_addrs x) = S NDIRECT ->
  length (i_addrs (set_i_addrs (<[q := b]> (i_addrs x)) x)) = S NDIRECT.
Proof. intros Hl. cbn. by rewrite length_insert. Qed.

Lemma addr_or_alloc_has k0 V L B k ip x q (Q : Z -> kernel fsys -> Prop) :
  inop k0 V L ∅ B k -> entry k0 ip x -> (q < length (i_addrs x))%nat -> nth q (i_addrs x) 0 <> 0 ->
  Q (nth q (i_addrs x) 0) k -> wp (addr_or_alloc swtch fuel rw ip q) k Q.
Proof.
  intros H Hx Hq Ha HQ. unfold addr_or_alloc. apply wp_bind. eapply inop_get_addr; [exact H|exact Hx|done|].
  rewrite (proj2 (Z.eqb_neq _ _)) by done. by apply wp_ret.
Qed.

Lemma addr_or_alloc_new k0 V B k ip x q b fl (Q : Z -> kernel fsys -> Prop) :
  based k0 -> disk_ok sb V -> inop k0 V ∅ ∅ B k -> entry k0 ip x -> i_dev x = dev -> (q < length (i_addrs x))%nat ->
  nth q (i_addrs x) 0 = 0 -> free_list sb V = b :: fl -> b ∈ B -> BBLOCK b sb ∈ B ->
  (forall k', inop (putx ip (set_i_addrs (<[q := b]> (i_addrs x)) x) k0) (alloc sb V b) ∅ ∅ B k' -> Q b k') ->
  wp (addr_or_alloc swtch fuel rw ip q) k Q.
Proof.
  intros Hk0 Hd H Hx Hdev Hq Ha Hfl HB HBb HQ. unfold addr_or_alloc. apply wp_bind. eapply inop_get_addr; [exact H|exact Hx|done|].
  rewrite Ha. cbn [Z.eqb]. apply wp_bind. eapply inop_geti; [exact H|exact Hx|]. rewrite Hdev. apply wp_bind.
  assert (Hfree : b ∈ free_list sb V) by (rewrite Hfl; apply elem_of_cons; by left).
  pose proof (free_data sb V b Hd Hfree) as Hdata. pose proof (nmeta_pos sb start Hly).
  eapply (balloc_spec swtch fuel Hfuel rw Hrw i pid dev sb start Hly); [done|done|exact H|intros; apply lookup_empty|rewrite map_size_empty; lia| |].
  { intros c Hc. rewrite Hfl in Hc. injection Hc as <-. split_and!; [done|done|apply lookup_empty]. }
  rewrite Hfl. intros k1 H1. rewrite (proj2 (Z.eqb_neq b 0)) by lia. apply wp_bind.
  eapply (inop_seti _ _ _ _ _ _ _ x); [exact H1|exact Hx|]. intros k2 H2. apply wp_ret. by apply HQ.
Qed.

(** [bmap] past the direct blocks, with an indirect block that has no address
    for [bn] yet. *)
Lemma bmap_entry k0 V B k x bn b fl (Q : Z -> kernel fsys -> Prop) :
  based k0 -> disk_ok sb V -> inode_ok V x -> inop k0 V ∅ ∅ B k -> (NDIRECT <= bn < MAXFILE)%nat ->
  indirect x <> 0 -> indirect x ∈ B -> addr_of V x bn = 0 -> free_list sb V = b :: fl -> b ∈ B -> BBLOCK b sb ∈ B ->
  (forall k' V', grows B V x V' x -> free_list sb V' = fl -> addr_of V' x bn = b -> inop k0 V' ∅ ∅ B k' -> Q b k') ->
  wp (bp <- bread swtch fuel rw (i_dev x) (indirect x) ;;
      addr <- get_indirect bp (bn - NDIRECT) ;;
      addr <- (if addr =? 0 then
                 addr <- balloc swtch fuel rw (i_dev x) ;;
                 (if negb (addr =? 0) then set_indirect bp (bn - NDIRECT) addr >>> log_write bp else ret tt) >>>
                 ret addr
               else ret addr) ;;
      brelse bp >>> ret addr) k Q.
Proof.
  intros Hk0 Hd Hok H Hbn Hi HBi Ha Hfl HB HBb HQ. set (ind := indirect x) in *.
  assert (Hfree : b ∈ free_list sb V) by (rewrite Hfl; apply elem_of_cons; by left).
  pose proof (free_data sb V b Hd Hfree) as Hdata. pose proof (nmeta_pos sb start Hly) as Hpos.
  assert (Hind : nmeta sb <= ind < sb_size sb /\ ind <> b).
  { unfold ind in *. rewrite (ind_slot V x) in *. split; [by apply (in_data _ _ _ _ Hok)|]. by apply (slot_settled dev sb). }
  destruct (meta_off sb start Hly ind) as [Hr Ho]; [|lia|].
  { unfold ind. rewrite (ind_slot V x). apply (data_unlocked dev sb start Hly V x); [done|done|by rewrite <- ind_slot]. }
  rewrite (in_dev _ _ _ _ Hok). apply wp_bind.
  eapply (inop_bread swtch fuel Hfuel rw Hrw); [exact H|apply lookup_empty|rewrite map_size_empty; lia|]. intros j k1 H1.
  assert (HL1 : <[ind := j]> (∅ : gmap Z nat) !! ind = Some j) by apply lookup_insert_eq.
  apply wp_bind. eapply inop_get_indirect; [exact H1|exact HL1|].
  assert (E : get32 (V ind) (4 * (bn - NDIRECT)) = 0).
  { unfold addr_of in Ha. rewrite (proj2 (Nat.ltb_ge _ _)), (proj2 (Z.eqb_neq _ _)) in Ha by (done || lia). done. }
  rewrite E. cbn [Z.eqb]. apply wp_bind, wp_bind.
  eapply (balloc_spec swtch fuel Hfuel rw Hrw i pid dev sb start Hly); [done|done|exact H1| | | |].
  { intros c Hc. rewrite lookup_insert_ne by lia. apply lookup_empty. }
  { rewrite insert_empty, map_size_singleton. lia. }
  { intros c Hc. rewrite Hfl in Hc. injection Hc as <-. rewrite lookup_insert_ne by naive_solver. split_and!; [done|done|apply lookup_empty]. }
  rewrite Hfl. intros k2 H2. rewrite (proj2 (Z.eqb_neq b 0)) by lia. cbn [negb]. apply wp_bind.
  unfold set_indirect. apply wp_bind. eapply (inop_setb _ _ _ _ _ _ _ _ _ ind j _ (fun d => put32 d (4 * (bn - NDIRECT)) b)); [exact H2|exact HL1|done|].
  intros k3 H3. eapply inop_log_write; [exact H3|exact HL1|done|done|destruct Hk0 as [_ ->]; done|]. intros k4 H4.
  replace (({[ind]} ∪ ∅ : gset Z) ∖ {[ind]}) with (∅ : gset Z) in H4 by set_solver. apply wp_ret, wp_bind.
  eapply (inop_brelse fuel Hfuel rw Hrw); [exact H4|exact HL1|set_solver|]. intros k5 H5.
  rewrite delete_insert_id in H5 by apply lookup_empty. apply wp_ret.
  assert (EV : alloc sb V b ind = V ind) by (apply (alloc_other sb start Hly); lia). rewrite EV in H5.
  assert (Hslot : forall s, (s <= MAXFILE)%nat -> slot (upd (alloc sb V b) ind (put32 (V ind) (4 * (bn - NDIRECT)) b)) x s =
    if decide (s = bn) then b else slot V x s).
  { intros s Hs. rewrite <- (alloc_slot dev sb start Hly V x b s) by done. rewrite <- EV at 1.
    apply slot_entry; [done|done| |destruct Hly; lia|done]. unfold ind in EV. rewrite EV. apply (data_len sb start Hly); [done|apply Hind]. }
  destruct (grows_step dev sb start Hly B V x b fl (upd (alloc sb V b) ind (put32 (V ind) (4 * (bn - NDIRECT)) b)) x bn) as [G Hfl']; try done.
  - lia.
  - rewrite slot_addr by lia. done.
  - apply same_meta_refl.
  - apply Hok.
  - intros c Hc. by rewrite upd_ne by (by apply Hc).
  - intros _. fold ind. rewrite upd_eq, put32_length. apply (data_len sb start Hly); [done|lia].
  - apply (HQ k5 (upd (alloc sb V b) ind (put32 (V ind) (4 * (bn - NDIRECT)) b))); [done|done| |done].
    rewrite <- slot_addr by lia. rewrite Hslot, decide_True by (done || lia). done.
Qed.

(** The blocks [bmap] may need: one for the data and one for the addresses. *)
Definition wanted x : nat := if indirect x =? 0 then 2 else 1.

Lemma wanted_pos x : (1 <= wanted x <= 2)%nat.
Proof. unfold wanted. case_if; lia. Qed.

Lemma putx_based k0 ip x : based k0 -> based (putx ip x k0).
Proof. done. Qed.

(** The second step, from a state with an indirect block. *)
Lemma bmap_second k0 V B k ip x a bn (Q : Z -> kernel fsys -> Prop) :
  based k0 -> disk_ok sb V -> inode_ok V x -> inop k0 V ∅ ∅ B k -> entry k0 ip x -> (NDIRECT <= bn < MAXFILE)%nat ->
  a = indirect x -> indirect x <> 0 -> allows B V x 1 ->
  (forall k' V' c, grows B V x V' x -> (c <= 1)%nat -> free_list sb V' = drop c (free_list sb V) -> addr_of V' x bn <> 0 ->
    inop k0 V' ∅ ∅ B k' -> Q (addr_of V' x bn) k') ->
  wp (x <- geti ip ;;
      bp <- bread swtch fuel rw (i_dev x) a ;;
      addr <- get_indirect bp (bn - NDIRECT) ;;
      addr <- (if addr =? 0 then
                 addr <- balloc swtch fuel rw (i_dev x) ;;
                 (if negb (addr =? 0) then set_indirect bp (bn - NDIRECT) addr >>> log_write bp else ret tt) >>>
                 ret addr
               else ret addr) ;;
      brelse bp >>> ret addr) k Q.
Proof.
  intros Hk0 Hd Hok H Hx Hbn -> Hi Hall HQ. apply wp_bind. eapply inop_geti; [exact H|exact Hx|].
  destruct (decide (addr_of V x bn = 0)) as [Ha|Ha].
  - destruct (allows_head B V x 0 Hall) as (b & fl & Hfl & HB & HBb). pose proof (proj2 (proj2 Hall) Hi) as HBi.
    eapply (bmap_entry k0 V B k x bn b fl); try done. intros k' V' G Hfl' Ea H'. rewrite <- Ea.
    apply (HQ k' V' 1%nat); try done; [by rewrite Hfl, Hfl'|]. rewrite Ea. pose proof (nmeta_pos sb start Hly).
    pose proof (free_data sb V b Hd ltac:(rewrite Hfl; apply elem_of_cons; by left)). lia.
  - rewrite (in_dev _ _ _ _ Hok). apply wp_bind.
    eapply (inop_bread swtch fuel Hfuel rw Hrw); [exact H|apply lookup_empty|rewrite map_size_empty; lia|]. intros j k1 H1.
    apply wp_bind. eapply inop_get_indirect; [exact H1|apply lookup_insert_eq|].
    assert (E : get32 (V (indirect x)) (4 * (bn - NDIRECT)) = addr_of V x bn).
    { unfold addr_of. by rewrite (proj2 (Nat.ltb_ge _ _)), (proj2 (Z.eqb_neq _ _)) by (done || lia). }
    rewrite E, (proj2 (Z.eqb_neq _ _)) by done. apply wp_bind, wp_ret, wp_bind.
    eapply (inop_brelse fuel Hfuel rw Hrw); [exact H1|apply lookup_insert_eq|set_solver|]. intros k2 H2.
    rewrite delete_insert_id in H2 by apply lookup_empty. apply wp_ret.
    apply (HQ k2 V 0%nat); try done; [by apply grows_refl|lia].
Qed.

(** A direct block. *)
Lemma bmap_direct k0 V B k ip x bn (Q : Z -> kernel fsys -> Prop) :
  based k0 -> disk_ok sb V -> inode_ok V x -> inop k0 V ∅ ∅ B k -> entry k0 ip x -> (bn < NDIRECT)%nat ->
  allows B V x (wanted x) ->
  (forall k' V' x' c, grows B V x V' x' -> (c + wanted x' <= S (wanted x))%nat -> free_list sb V' = drop c (free_list sb V) ->
    addr_of V' x' bn <> 0 -> inop (putx ip x' k0) V' ∅ ∅ B k' -> Q (addr_of V' x' bn) k') ->
  wp (addr_or_alloc swtch fuel rw ip bn) k Q.
Proof.
  intros Hk0 Hd Hok H Hx Hlt Hall HQ. pose proof (in_len _ _ _ _ Hok) as Hlen. pose proof (nmeta_pos sb start Hly) as Hpos.
  assert (Hbn : (bn < MAXFILE)%nat) by (unfold MAXFILE; lia).
  assert (Ea : addr_of V x bn = nth bn (i_addrs x) 0) by (unfold addr_of; by rewrite (proj2 (Nat.ltb_lt _ _))).
  destruct (decide (nth bn (i_addrs x) 0 = 0)) as [E|E].
  - assert (exists n, wanted x = S n) as [n Hn] by (unfold wanted; destruct (indirect x =? 0); by eexists). rewrite Hn in Hall.
    destruct (allows_head B V x n Hall) as (b & fl & Hfl & HB & HBb).
    eapply (addr_or_alloc_new k0 V B k ip x bn b fl); try done; [apply Hok|lia|]. intros k1 H1.
    destruct (grows_step dev sb start Hly B V x b fl (alloc sb V b) (set_i_addrs (<[bn := b]> (i_addrs x)) x) bn) as [G Hfl']; try done.
    * lia.
    * by rewrite slot_addr, Ea by lia.
    * by apply set_addrs_ok.
    * intros s Hs. rewrite slot_direct by done. by rewrite (alloc_slot dev sb start Hly) by (done || rewrite Hfl; apply elem_of_cons; by left).
    * intros Hne. apply (data_len sb start Hly).
      { apply (alloc_ok sb start Hly); [done|]. apply (free_data sb V b Hd). rewrite Hfl. apply elem_of_cons; by left. }
      rewrite (ind_slot V x) in Hne |- *. by apply (in_data _ _ _ _ Hok).
    * assert (Eb : addr_of (alloc sb V b) (set_i_addrs (<[bn := b]> (i_addrs x)) x) bn = b).
      { rewrite <- slot_addr, slot_direct, decide_True by (done || lia). done. }
      rewrite <- Eb. apply (HQ _ _ _ 1%nat G); [|by rewrite Hfl, Hfl'| |done].
      -- unfold wanted, indirect. cbn [i_addrs set_i_addrs]. rewrite nth_insert, decide_False by lia. lia.
      -- rewrite Eb. pose proof (free_data sb V b Hd ltac:(rewrite Hfl; apply elem_of_cons; by left)). lia.
  - eapply addr_or_alloc_has; [exact H|exact Hx|lia|done|]. rewrite <- Ea.
    apply (HQ k V x 0%nat); [by apply grows_refl|lia|done|by rewrite Ea|by rewrite putx_same].
Qed.

Lemma bmap_grows k0 V B k ip x bn (Q : Z -> kernel fsys -> Prop) :
  based k0 -> disk_ok sb V -> inode_ok V x -> inop k0 V ∅ ∅ B k -> entry k0 ip x -> (bn < MAXFILE)%nat ->
  allows B V x (wanted x) ->
  (forall k' V' x' c, grows B V x V' x' -> (c + wanted x' <= S (wanted x))%nat -> free_list sb V' = drop c (free_list sb V) ->
    addr_of V' x' bn <> 0 -> inop (putx ip x' k0) V' ∅ ∅ B k' -> Q (addr_of V' x' bn) k') ->
  wp (bmap swtch fuel rw ip (Z.of_nat bn)) k Q.
Proof.
  intros Hk0 Hd Hok H Hx Hbn Hall HQ. pose proof (in_len _ _ _ _ Hok) as Hlen. pose proof (nmeta_pos sb start Hly) as Hpos.
  unfold bmap. destruct (decide (bn < NDIRECT)%nat) as [Hlt|Hge].
  - rewrite (proj2 (Z.ltb_lt _ _)), Nat2Z.id by lia.
    by apply (bmap_direct k0 V B k ip x bn).
  - rewrite (proj2 (Z.ltb_ge _ _)), (proj2 (Z.ltb_lt _ _)) by (unfold MAXFILE in Hbn; lia). apply wp_bind.
    replace (Z.to_nat (Z.of_nat bn - Z.of_nat NDIRECT)) with (bn - NDIRECT)%nat by lia.
    destruct (decide (indirect x = 0)) as [E|E].
    + assert (Ew : wanted x = 2%nat) by (unfold wanted; by rewrite E). rewrite Ew in *.
      destruct (allows_head B V x 1 Hall) as (b & fl & Hfl & HB & HBb).
      assert (Hfree : b ∈ free_list sb V) by (rewrite Hfl; apply elem_of_cons; by left).
      pose proof (free_data sb V b Hd Hfree) as Hdata.
      eapply (addr_or_alloc_new k0 V B k ip x NDIRECT b fl); try done; [apply Hok|lia|]. intros k1 H1.
      set (x1 := set_i_addrs (<[NDIRECT := b]> (i_addrs x)) x) in *.
      assert (Ei : indirect x1 = b) by (unfold indirect, x1; cbn [i_addrs set_i_addrs]; rewrite nth_insert by lia; by rewrite decide_True).
      destruct (grows_step dev sb start Hly B V x b fl (alloc sb V b) x1 MAXFILE) as [G Hfl']; try done.
      * by apply set_addrs_ok.
      * intros s Hs. unfold x1. rewrite slot_new_indirect; [|by unfold alloc; rewrite upd_eq|done|lia|done|done].
        by rewrite (alloc_slot dev sb start Hly) by done.
      * rewrite (proj2 (Z.eqb_neq b 0)) by lia.
        eapply (bmap_second (putx ip x1 k0) (alloc sb V b) B k1 ip x1 b bn); try done; [apply (gr_ext _ _ _ _ _ _ _ G)|apply (gr_ext _ _ _ _ _ _ _ G)|by eapply putx_entry|lia|lia| |].
        -- unfold allows in *. rewrite Hfl'. rewrite Hfl in Hall. cbn [length] in Hall. split_and!; [lia| |by rewrite Ei].
           intros c Hc. apply Hall. cbn [take]. apply elem_of_cons. by right.
        -- intros k2 V2 c G2 Hc Hfl2 Ha2 H2.
           apply (HQ k2 V2 x1 (S c)); [by eapply (grows_trans dev sb start Hly B)| |by rewrite Hfl2, Hfl', Hfl|done|done].
           unfold wanted. rewrite Ei, (proj2 (Z.eqb_neq b 0)) by lia. lia.
    + assert (Ew : wanted x = 1%nat) by (unfold wanted; by rewrite (proj2 (Z.eqb_neq _ _))). rewrite Ew in *.
      eapply addr_or_alloc_has; [exact H|exact Hx|lia|done|]. fold (indirect x). rewrite (proj2 (Z.eqb_neq _ _)) by done.
      eapply (bmap_second k0 V B k ip x); try done; [lia|]. intros k2 V2 c G2 Hc Hfl2 Ha2 H2.
      apply (HQ k2 V2 x c); [done|lia|done|done|by rewrite putx_same].
Qed.
End code.
