(* ===== verification/FsWrite.v ===== *)
(** Writing to a file: writei and iupdate of fs.c.

    [wrote V x V' x' off bs] says that the bytes [bs] have been put into the
    file from offset [off] on and that nothing else has changed. *)

From S2P Require Import Prelude.
From S2P Require Import Spinlock.
From S2P Require Import Riscv.
From S2P Require Import Kalloc.
From S2P Require Import Proc.
From S2P Require Import FsState.
From S2P Require Import Bio.
From S2P Require Import BioSpec.
From S2P Require Import Log.
From S2P Require Import LogSpec.
From S2P Require Import LogTheorems.
From S2P Require Import Fs.
From S2P Require Import FsOp.
From S2P Require Import FsBitmap.
From S2P Require Import FsAlloc.
From S2P Require Import FsInode.
From S2P Require Import FsGrow.

Lemma splice_len d o bs : (o + length bs <= length d)%nat -> length (splice d o bs) = length d.
Proof. intros Hl. unfold splice. rewrite !length_app, length_take, length_drop. lia. Qed.

Lemma splice_nth d o bs q :
  (o + length bs <= length d)%nat ->
  nth q (splice d o bs) 0 = if decide (o <= q < o + length bs)%nat then nth (q - o) bs 0 else nth q d 0.
Proof.
  intros Hl. unfold splice. rewrite !nth_lookup. destruct (decide (q < o)%nat) as [Hq|Hq].
  - rewrite lookup_app_l, lookup_take_lt, decide_False by (rewrite ?length_take; lia). done.
  - rewrite lookup_app_r, length_take, Nat.min_l by (rewrite ?length_take; lia). case_decide as Hin.
    + by rewrite lookup_app_l by lia.
    + rewrite lookup_app_r, lookup_drop by lia. do 2 f_equal. lia.
Qed.

Section wrote.
Context (dev : Z) (sb : superblock) (start : Z) (Hly : layout sb start) (B : gset Z).
Implicit Types (V : Z -> block) (x : inode).
Abbreviation inode_ok := (inode_ok dev sb).
Abbreviation grows := (grows dev sb B).

(** ** Data blocks *)

Lemma slot_data V x s : inode_ok V x -> (s <= MAXFILE)%nat -> slot V x s <> 0 -> nmeta sb <= slot V x s < sb_size sb.
Proof. intros Hok Hs Hne. by apply (in_data _ _ _ _ Hok). Qed.

Lemma slot_not_ind V x s : inode_ok V x -> (s < MAXFILE)%nat -> slot V x s <> 0 -> slot V x s <> indirect x.
Proof.
  intros Hok Hs Hne E. rewrite (ind_slot V x) in E. assert (s = MAXFILE) by (apply (in_inj _ _ _ _ Hok); [lia|done|done|done]). lia.
Qed.

(** Writing a data block of the file. *)
Lemma data_slot V x s d s' :
  inode_ok V x -> (s < MAXFILE)%nat -> slot V x s <> 0 -> slot (upd V (slot V x s) d) x s' = slot V x s'.
Proof.
  intros Hok Hs Hne. unfold slot at 1 3, addr_of. rewrite upd_ne; [done|]. intros E. by apply (slot_not_ind V x s).
Qed.

Lemma data_in_use V x s d c :
  inode_ok V x -> (s < MAXFILE)%nat -> slot V x s <> 0 -> 0 <= c < sb_size sb ->
  in_use sb (upd V (slot V x s) d) c = in_use sb V c.
Proof.
  intros Hok Hs Hne Hc. apply (in_use_upd sb start Hly); [done|]. right. apply slot_data; [done|lia|done].
Qed.

Lemma data_disk V x s d :
  disk_ok sb V -> inode_ok V x -> (s < MAXFILE)%nat -> slot V x s <> 0 -> length d = BSIZE -> disk_ok sb (upd V (slot V x s) d).
Proof.
  intros Hd Hok Hs Hne Hl. split.
  - intros c Hc. unfold upd. case_decide; [done|by apply Hd].
  - intros c Hc. pose proof (ly_data _ _ Hly). rewrite data_in_use by (done || lia). by apply Hd.
Qed.

Lemma data_inode V x s d :
  disk_ok sb V -> inode_ok V x -> (s < MAXFILE)%nat -> slot V x s <> 0 -> inode_ok (upd V (slot V x s) d) x.
Proof.
  intros Hd Hok Hs Hne. pose proof (fun s' => data_slot V x s d s' Hok Hs Hne) as Hslot. split; try apply Hok.
  - intros bn Hbn. pose proof (in_size _ _ _ _ Hok). assert (bn < MAXFILE)%nat by (unfold BSIZE in *; lia).
    rewrite <- slot_addr, Hslot, slot_addr by done. by apply (in_full _ _ _ _ Hok).
  - intros s' Hs'. rewrite Hslot. intros Hne'. pose proof (nmeta_pos sb start Hly).
    destruct (in_data _ _ _ _ Hok s' Hs' Hne') as [Hr Hu]. split; [done|]. rewrite data_in_use by (done || lia). done.
  - intros s1 s2 H1 H2. rewrite !Hslot. by apply (in_inj _ _ _ _ Hok).
Qed.

Lemma data_byte_at V x s d o :
  inode_ok V x -> (s < MAXFILE)%nat -> slot V x s <> 0 -> (o / BSIZE < MAXFILE)%nat -> addr_of V x (o / BSIZE) <> 0 ->
  byte_at (upd V (slot V x s) d) x o = if decide (o / BSIZE = s)%nat then nth (o mod BSIZE) d 0 else byte_at V x o.
Proof.
  intros Hok Hs Hne Ho Ha. unfold byte_at. rewrite <- !slot_addr by done. rewrite data_slot by done.
  rewrite <- (slot_addr V x) in Ha by done. unfold upd at 1. destruct (decide (o / BSIZE = s)%nat) as [E|E].
  - by rewrite E, decide_True.
  - rewrite decide_False; [done|]. intros E'. apply E. apply (in_inj _ _ _ _ Hok); [lia|lia|done|done].
Qed.

Lemma byte_grows V x V' x' o :
  inode_ok V x -> grows V x V' x' -> (o / BSIZE < MAXFILE)%nat -> addr_of V x (o / BSIZE) <> 0 -> byte_at V' x' o = byte_at V x o.
Proof.
  intros Hok G Ho Ha. unfold byte_at. rewrite <- !slot_addr by done. rewrite <- (slot_addr V x) in Ha by done.
  rewrite (ex_slot _ _ _ _ _ _ _ G) by (done || lia). by rewrite (gr_block _ _ _ _ _ _ _ G) by (by apply (settled_slot dev sb)).
Qed.

(** ** What has been written *)

(** Blocks that are not the file's. *)
Definition foreign V x (c : Z) : Prop := settled sb V x c /\ forall s, (s < MAXFILE)%nat -> slot V x s <> 0 -> slot V x s <> c.

Record wrote V x V' x' (off : nat) (bs : list Z) : Prop := {
  wr_ext :> extends dev sb B V x V' x';
  wr_block c : foreign V x c -> V' c = V c;
  wr_has bn : (bn * BSIZE < off + length bs)%nat -> addr_of V' x' bn <> 0;
  wr_in q c : bs !! q = Some c -> byte_at V' x' (off + q) = c;
  wr_out o : (o < Z.to_nat (i_size x))%nat -> (o < off \/ off + length bs <= o)%nat -> byte_at V' x' o = byte_at V x o
}.

Lemma wrote_nil V x off :
  disk_ok sb V -> inode_ok V x -> (off <= Z.to_nat (i_size x))%nat -> wrote V x V x off [].
Proof.
  intros Hd Hok Ho. split; try done; [by apply extends_refl|].
  intros bn Hbn. apply (in_full _ _ _ _ Hok). cbn in Hbn. lia.
Qed.

Lemma foreign_extends V x V' x' c : extends dev sb B V x V' x' -> foreign V x c -> foreign V' x' c.
Proof.
  intros E [Hs Hf]. split; [by eapply (settled_extends dev sb start Hly B)|].
  intros s Hlt Hne. destruct (decide (slot V x s = 0)) as [E0|E0].
  - destruct (ex_fresh _ _ _ _ _ _ _ E s ltac:(lia) E0 Hne) as [Hfr _].
    pose proof (slot_data V' x' s (ex_inode _ _ _ _ _ _ _ E) ltac:(lia) Hne) as Hd.
    intros Ec. subst c. apply elem_free in Hfr as [_ Hfr]. destruct Hs as [[Hc|[_ Hc]] _]; [|congruence].
    pose proof (nmeta_pos sb start Hly). pose proof (BBLOCK_meta sb start Hly (slot V' x' s)). lia.
  - rewrite (ex_slot _ _ _ _ _ _ _ E) by (done || lia). by apply Hf.
Qed.

(** The bytes written and those kept have an address. *)
Lemma wrote_addr V x V' x' off bs o :
  inode_ok V x -> wrote V x V' x' off bs -> (off + length bs <= MAXFILE * BSIZE)%nat ->
  (o < Z.to_nat (i_size x) \/ o < off + length bs)%nat -> (o / BSIZE < MAXFILE)%nat /\ addr_of V' x' (o / BSIZE) <> 0.
Proof.
  intros Hok Hw Hmax Ho. pose proof (in_size _ _ _ _ Hok) as Hs. pose proof (Nat.Div0.mul_div_le o BSIZE).
  assert (Hlt : (o / BSIZE < MAXFILE)%nat) by (apply Nat.Div0.div_lt_upper_bound; lia). split; [done|].
  destruct Ho as [Ho|Ho]; [|apply (wr_has _ _ _ _ _ _ Hw); lia].
  assert (Ha : slot V x (o / BSIZE) <> 0) by (rewrite slot_addr by done; apply (in_full _ _ _ _ Hok); lia).
  rewrite <- slot_addr by done. by rewrite (ex_slot _ _ _ _ _ _ _ Hw) by (done || lia).
Qed.

Lemma wrote_grow V x V1 x1 V2 x2 off bs :
  inode_ok V x -> (off + length bs <= MAXFILE * BSIZE)%nat ->
  wrote V x V1 x1 off bs -> grows V1 x1 V2 x2 -> wrote V x V2 x2 off bs.
Proof.
  intros Hok Hmax Hw G. pose proof (ex_inode _ _ _ _ _ _ _ Hw) as Hok1.
  assert (Hb : forall o, (o < Z.to_nat (i_size x) \/ o < off + length bs)%nat -> byte_at V2 x2 o = byte_at V1 x1 o).
  { intros o Ho. destruct (wrote_addr V x V1 x1 off bs o Hok Hw Hmax Ho) as [H1 H2]. by apply byte_grows. }
  split.
  - eapply extends_trans; [apply (wr_ext _ _ _ _ _ _ Hw)|apply (gr_ext _ _ _ _ _ _ _ G)].
  - intros c Hc. rewrite (gr_block _ _ _ _ _ _ _ G); [by apply (wr_block _ _ _ _ _ _ Hw)|].
    apply (foreign_extends V x V1 x1 c (wr_ext _ _ _ _ _ _ Hw) Hc).
  - intros bn Hbn. pose proof (wr_has _ _ _ _ _ _ Hw bn Hbn) as Ha.
    assert (bn < MAXFILE)%nat by (unfold BSIZE in *; lia). rewrite <- slot_addr in * by done.
    by rewrite (ex_slot _ _ _ _ _ _ _ G) by (done || lia).
  - intros q c Hq. pose proof (lookup_lt_Some _ _ _ Hq). rewrite Hb by lia. by apply (wr_in _ _ _ _ _ _ Hw).
  - intros o Ho Hout. rewrite Hb by lia. by apply (wr_out _ _ _ _ _ _ Hw).
Qed.

Lemma block_of bn t : (bn * BSIZE <= t < bn * BSIZE + BSIZE)%nat -> (t / BSIZE = bn)%nat.
Proof. intros Ht. symmetry. apply (Nat.div_unique t BSIZE bn (t - bn * BSIZE)); lia. Qed.

(** The bytes of the file after a write within block [bn]. *)
Lemma chunk_byte V x bn o bs t :
  inode_ok V x -> (bn < MAXFILE)%nat -> slot V x bn <> 0 -> length (V (slot V x bn)) = BSIZE -> (o + length bs <= BSIZE)%nat ->
  (t / BSIZE < MAXFILE)%nat -> addr_of V x (t / BSIZE) <> 0 ->
  byte_at (upd V (slot V x bn) (splice (V (slot V x bn)) o bs)) x t =
    if decide (bn * BSIZE + o <= t < bn * BSIZE + o + length bs)%nat then nth (t - (bn * BSIZE + o)) bs 0 else byte_at V x t.
Proof.
  intros Hok Hbn Hne Hl Hfit Ht Ha. pose proof (Nat.div_mod t BSIZE ltac:(done)) as Etm.
  pose proof (Nat.mod_upper_bound t BSIZE ltac:(done)) as Htm. rewrite (data_byte_at V x bn) by done.
  destruct (decide (t / BSIZE = bn)%nat) as [Eb|Eb].
  - rewrite splice_nth by lia. rewrite Eb in Etm. destruct (decide (o <= t mod BSIZE < o + length bs)%nat) as [Hi|Hi].
    + rewrite decide_True by lia. f_equal. lia.
    + rewrite decide_False by lia. unfold byte_at. by rewrite Eb, slot_addr.
  - rewrite decide_False; [done|]. intros Hi. apply Eb, block_of. lia.
Qed.

(** One round of [writei]: the next bytes go into the block of their offset. *)
Lemma wrote_chunk V x V' x' off bs bs2 bn o :
  inode_ok V x -> wrote V x V' x' off bs -> (off + length bs = bn * BSIZE + o)%nat ->
  (o + length bs2 <= BSIZE)%nat -> (bn < MAXFILE)%nat -> (off + length bs <= MAXFILE * BSIZE)%nat -> slot V' x' bn <> 0 ->
  wrote V x (upd V' (slot V' x' bn) (splice (V' (slot V' x' bn)) o bs2)) x' off (bs ++ bs2).
Proof.
  intros Hok Hw Ep Hfit Hbn Hp Ha. pose proof (ex_inode _ _ _ _ _ _ _ Hw) as Hok1. pose proof (ex_disk _ _ _ _ _ _ _ Hw) as Hd1.
  assert (Hl : length (V' (slot V' x' bn)) = BSIZE) by (apply (data_len sb start Hly); [done|apply slot_data; [done|lia|done]]).
  assert (Hbyte : forall t, (t < Z.to_nat (i_size x) \/ t < bn * BSIZE + o + length bs2)%nat ->
    byte_at (upd V' (slot V' x' bn) (splice (V' (slot V' x' bn)) o bs2)) x' t =
      if decide (bn * BSIZE + o <= t < bn * BSIZE + o + length bs2)%nat then nth (t - (bn * BSIZE + o)) bs2 0 else byte_at V' x' t).
  { intros t Ht. assert (Hta : (t / BSIZE < MAXFILE)%nat /\ addr_of V' x' (t / BSIZE) <> 0).
    - destruct (decide (t < Z.to_nat (i_size x) \/ t < off + length bs)%nat) as [Hin|Hnin]; [by apply (wrote_addr V x V' x' off bs)|].
      rewrite (block_of bn t) by lia. split; [done|]. by rewrite <- slot_addr.
    - destruct Hta. by apply chunk_byte. }
  assert (Hslot : forall s, slot (upd V' (slot V' x' bn) (splice (V' (slot V' x' bn)) o bs2)) x' s = slot V' x' s) by (intros s; by apply data_slot).
  split.
  - split; try apply Hw.
    + apply (data_disk V' x' bn); try done. rewrite splice_len; lia.
    + by apply data_inode.
    + intros s Hs Hne. rewrite Hslot. by apply (ex_slot _ _ _ _ _ _ _ Hw).
    + intros s Hs H0. rewrite Hslot. by apply (ex_fresh _ _ _ _ _ _ _ Hw).
    + intros c Hc Hu. rewrite data_in_use by done. by apply (ex_used _ _ _ _ _ _ _ Hw).
  - intros c Hc. rewrite upd_ne; [by apply (wr_block _ _ _ _ _ _ Hw)|]. intros ->.
    by apply (proj2 (foreign_extends V x V' x' _ (wr_ext _ _ _ _ _ _ Hw) Hc) bn).
  - intros bn' Hb'. rewrite length_app in Hb'. assert (Hle : (bn' <= bn)%nat) by (unfold BSIZE in *; lia).
    rewrite <- slot_addr, Hslot, slot_addr by lia. destruct (decide (bn' = bn)) as [->|Hne]; [by rewrite <- slot_addr|].
    apply (wr_has _ _ _ _ _ _ Hw). unfold BSIZE in *. lia.
  - intros q c Hq. rewrite Hbyte by (apply lookup_lt_Some in Hq; rewrite length_app in Hq; lia).
    apply lookup_app_Some in Hq as [Hq|[Hge Hq]]; pose proof (lookup_lt_Some _ _ _ Hq).
    + rewrite decide_False by lia. by apply (wr_in _ _ _ _ _ _ Hw).
    + rewrite decide_True by lia. apply nth_lookup_Some. by replace (off + q - (bn * BSIZE + o))%nat with (q - length bs)%nat by lia.
  - intros t Ht Hout. rewrite length_app in Hout. rewrite Hbyte, decide_False by lia. apply (wr_out _ _ _ _ _ _ Hw); [done|lia].
Qed.
End wrote.

(** ** The code *)

Lemma max_bytes : Z.of_nat MAXFILE * Z.of_nat BSIZE = 274432.
Proof. done. Qed.

(** The blocks of the bytes from [off] on, [n] of them. *)
Definition spans (off n : nat) : nat := if (n =? 0)%nat then 0 else S ((off + n - 1) / BSIZE - off / BSIZE).

Lemma spans_step off n m :
  (0 < n)%nat -> m = Nat.min n (BSIZE - off mod BSIZE) -> (S (spans (off + m) (n - m)) <= spans off n)%nat.
Proof.
  intros Hn Hm. pose proof (Nat.div_mod off BSIZE ltac:(done)) as Eo. pose proof (Nat.mod_upper_bound off BSIZE ltac:(done)).
  unfold spans. rewrite (proj2 (Nat.eqb_neq n 0)) by lia. destruct (Nat.eqb_spec (n - m) 0) as [|Hne]; [lia|].
  replace (off + m + (n - m) - 1)%nat with (off + n - 1)%nat by lia.
  assert (E1 : ((off + m) / BSIZE = S (off / BSIZE))%nat) by (apply block_of; lia).
  assert (E2 : ((off + m) / BSIZE <= (off + n - 1) / BSIZE)%nat) by (apply Nat.Div0.div_le_mono; lia). lia.
Qed.

Section code.
Context (swtch : M (kernel fsys) unit) (fuel : nat) (Hfuel : can_wait fuel).
Context (rw : nat -> bool -> M (kernel fsys) unit) (Hrw : driver_ok rw).
Context (i : nat) (pid dev : Z) (sb : superblock) (start : Z) (Hly : layout sb start).
Context `{HLS : LinkerSyms}.
Implicit Types (k : kernel fsys) (V : Z -> block) (x : inode) (B : gset Z).
Abbreviation inop := (inop i pid dev).
Abbreviation inode_ok := (inode_ok dev sb).
Abbreviation grows := (grows dev sb).
Abbreviation wrote := (wrote dev sb).
Abbreviation based := (based sb start).
Abbreviation allows := (allows sb).

(** [J bs src k0]: [src] gives the bytes [bs]. *)
Definition source_ok (J : list Z -> source -> kernel fsys -> Prop) : Prop :=
  (forall bs src k0 f, J bs src k0 -> J bs src (set_k_files f k0)) /\
  forall bs src k0 V L B k m (Q : Z * list Z * source -> kernel fsys -> Prop),
    J bs src k0 -> (m <= length bs)%nat -> inop k0 V L ∅ B k ->
    (forall src' k0' k', J (drop m bs) src' k0' -> k_files k0' = k_files k0 -> inop k0' V L ∅ B k' -> Q (0, take m bs, src') k') ->
    wp (either_copyin src m) k Q.

Lemma local_source : source_ok (fun bs src _ => src = LocalSrc bs).
Proof.
  split; [done|]. intros bs src k0 V L B k m Q -> Hm H HQ. unfold either_copyin. apply wp_ret. by eapply HQ.
Qed.

Lemma entry_files k k' ip x : k_files k' = k_files k -> entry k ip x -> entry k' ip x.
Proof. intros E [H1 H2]. split; [done|]. by rewrite E. Qed.

Lemma putx_files k k' ip x y : k_files k' = k_files (putx ip y k) -> k_files (putx ip x k') = k_files (putx ip x k).
Proof. intros E. unfold putx, reinode. cbn. rewrite E. cbn. by rewrite list_insert_insert_eq. Qed.

Lemma based_files k k' : k_files k' = k_files k -> based k -> based k'.
Proof. unfold FsAlloc.based. by intros ->. Qed.

Lemma allows_drop B V x V' x' c m :
  extends dev sb B V x V' x' -> allows B V x (c + m) -> free_list sb V' = drop c (free_list sb V) -> allows B V' x' m.
Proof.
  intros E (Hn & HB & Hi) Hf. unfold FsGrow.allows. rewrite Hf. split_and!.
  - rewrite length_drop. lia.
  - intros b Hb. apply HB. rewrite <- (take_drop c (free_list sb V)) in Hb |- *.
    rewrite drop_app_ge, length_take in Hb by (rewrite length_take; lia).
    replace (c - c `min` length (free_list sb V))%nat with 0%nat in Hb by lia. rewrite drop_0 in Hb.
    rewrite take_app_ge by (rewrite length_take; lia). apply elem_of_app. right.
    rewrite length_take, Nat.min_l by lia. by replace (c + m - c)%nat with m by lia.
  - intros Hne. destruct (decide (indirect x = 0)) as [E0|E0].
    + rewrite (ind_slot V' x') in *. rewrite (ind_slot V x) in E0. by apply (ex_fresh _ _ _ _ _ _ _ E).
    + rewrite (ind_slot V' x'), (ex_slot _ _ _ _ _ _ _ E); [|done|by rewrite <- ind_slot]. rewrite <- ind_slot. by apply Hi.
Qed.

(** One round: [off] is where the next bytes go and [bs] is what is left. *)
Lemma writei_step k0 V B k ip x src tot off n J bs (Q : (Z * Z * source) + (Z * Z) -> kernel fsys -> Prop) :
  source_ok J -> based k0 -> disk_ok sb V -> inode_ok V x -> inop k0 V ∅ ∅ B k -> entry k0 ip x -> J bs src k0 ->
  let bn := Z.to_nat (off / Z.of_nat BSIZE) in
  let o := Z.to_nat (off mod Z.of_nat BSIZE) in
  0 <= tot < n -> n < 2 ^ 31 -> 0 <= off -> off < Z.of_nat MAXFILE * Z.of_nat BSIZE -> length bs = Z.to_nat (n - tot) -> allows B V x (wanted x) ->
  (addr_of V x bn <> 0 -> addr_of V x bn ∈ B) ->
  (forall V' x' c m src' k0' k', grows B V x V' x' -> (c + wanted x' <= S (wanted x))%nat -> free_list sb V' = drop c (free_list sb V) ->
    slot V' x' bn <> 0 -> m = Z.min (n - tot) (Z.of_nat BSIZE - Z.of_nat o) -> 0 < m -> J (drop (Z.to_nat m) bs) src' k0' ->
    k_files k0' = k_files (putx ip x' k0) ->
    inop k0' (upd V' (slot V' x' bn) (splice (V' (slot V' x' bn)) o (take (Z.to_nat m) bs))) ∅ ∅ B k' ->
    Q (inl (tot + m, off + m, src')) k') ->
  wp (addr <- bmap swtch fuel rw ip (off / Z.of_nat BSIZE) ;;
      if addr =? 0 then ret (inr (tot, off))
      else
        x <- geti ip ;;
        bp <- bread swtch fuel rw (i_dev x) addr ;;
        let m := chunk n tot off in
        r <- either_copyin src (Z.to_nat m) ;;
        let '(rc, bs, src) := r in
        setb bp (fun b => set_b_data (splice (b_data b) (Z.to_nat (off mod Z.of_nat BSIZE)) bs) b) >>>
        if rc =? -1 then brelse bp >>> ret (inr (tot, off))
        else log_write bp >>> brelse bp >>> ret (inl (u32 (tot + m), u32 (off + m), src))) k Q.
Proof.
  intros [HJ1 HJ2] Hk0 Hd Hok H Hx Hsrc bn o Ht Hn31 Ho Hmax Hlen Hall HaB HQ.
  assert (E : off / Z.of_nat BSIZE = Z.of_nat bn) by (unfold bn; rewrite Z2Nat.id; [done|unfold BSIZE; dlia]). rewrite E.
  assert (Hbn : (bn < MAXFILE)%nat) by (apply Nat2Z.inj_lt; rewrite <- E; apply Z.div_lt_upper_bound; [done|lia]).
  destruct (chunk_eq n tot off) as [Em Hm]; [lia|lia|lia|]. set (m := chunk n tot off) in *.
  apply wp_bind. eapply (bmap_grows swtch fuel Hfuel rw Hrw i pid dev sb start Hly); [done|done|done|exact H|exact Hx|done|done|].
  intros k1 V' x' c G Hc Hf Ha H1. rewrite (proj2 (Z.eqb_neq _ _)) by done. apply wp_bind.
  pose proof (putx_entry ip x' x k0 Hx) as Hx'. eapply inop_geti; [exact H1|exact Hx'|].
  pose proof (ex_inode _ _ _ _ _ _ _ G) as Hok'. rewrite (in_dev _ _ _ _ Hok'). rewrite <- slot_addr in Ha |- * by done.
  set (a := slot V' x' bn) in *. apply wp_bind.
  eapply (inop_bread swtch fuel Hfuel rw Hrw); [exact H1|apply lookup_empty|rewrite map_size_empty; lia|]. intros j k2 H2.
  assert (HL : <[a := j]> (∅ : gmap Z nat) !! a = Some j) by apply lookup_insert_eq.
  apply wp_bind. eapply HJ2; [apply HJ1, Hsrc|lia|exact H2|]. intros src' k0' k3 Hsrc' Hk0' H3. cbn [Z.eqb].
  assert (HB : a ∈ B).
  { destruct (decide (slot V x bn = 0)) as [E0|E0]; [by apply (ex_fresh _ _ _ _ _ _ _ G); [lia|done|]|].
    unfold a. rewrite (ex_slot _ _ _ _ _ _ _ G) by (done || lia). rewrite slot_addr in E0 |- * by done. by apply HaB. }
  destruct (meta_off sb start Hly a) as [Hr Hoff].
  { apply (data_unlocked dev sb start Hly V' x'); [done|lia|done]. }
  { apply (slot_data dev sb V' x'); [done|lia|done]. }
  eapply (inop_write i pid dev k0' V' _ B k3 a j _ (fun d => splice d o (take (Z.to_nat m) bs))); [exact H3|exact HL|done|done| |].
  { rewrite Hk0'. cbn. destruct Hk0 as [_ ->]. done. }
  intros k4 H4. apply wp_bind. eapply (inop_brelse fuel Hfuel rw Hrw); [exact H4|exact HL|set_solver|]. intros k5 H5.
  rewrite delete_insert_id in H5 by apply lookup_empty. apply wp_ret. pose proof max_bytes. rewrite !u32_id by lia.
  eapply HQ; try done; [|lia]. rewrite Em. unfold o. rewrite Z2Nat.id; [done|unfold BSIZE; dlia].
Qed.

Lemma allows_free B V x V' n : free_list sb V' = free_list sb V -> allows B V x n -> allows B V' x n.
Proof. unfold FsGrow.allows. by intros ->. Qed.

Lemma allows_le B V x n m : (n <= m)%nat -> allows B V x m -> allows B V x n.
Proof.
  intros Hle (A1 & A2 & A3). split_and!; [lia| |done]. intros b Hb. apply A2.
  replace (take n _) with (take n (take m (free_list sb V))) in Hb by (rewrite take_take; f_equal; lia).
  apply list_elem_of_lookup in Hb as [q Hq]. apply lookup_take_Some in Hq as [Hq _]. by eapply list_elem_of_lookup_2.
Qed.

(** The state of the loop after [t] bytes. *)
Definition writing J k0 V x B ip (off : nat) bs (t : nat) (src' : source) k' : Prop :=
  exists V' x' k0', wrote B V x V' x' off (take t bs) /\ J (drop t bs) src' k0' /\ k_files k0' = k_files (putx ip x' k0) /\
    inop k0' V' ∅ ∅ B k' /\ allows B V' x' (pred (spans (off + t) (length bs - t) + wanted x')) /\
    (length (free_list sb V) + spans (off + t) (length bs - t) + wanted x' <= length (free_list sb V') + spans off (length bs) + wanted x)%nat.

(** The blocks of the file that are overwritten. *)
Definition covers B V x (off n : nat) : Prop :=
  forall bn, (bn * BSIZE < off + n)%nat -> (off / BSIZE <= bn)%nat -> addr_of V x bn <> 0 -> addr_of V x bn ∈ B.

Lemma writing_next J k0 V x B ip off bs t src k (Q : (Z * Z * source) + (Z * Z) -> kernel fsys -> Prop) :
  source_ok J -> based k0 -> disk_ok sb V -> inode_ok V x -> entry k0 ip x -> covers B V x off (length bs) ->
  (off + length bs <= MAXFILE * BSIZE)%nat -> (t < length bs)%nat -> writing J k0 V x B ip off bs t src k ->
  let tot := Z.of_nat t in let o := Z.of_nat off + tot in let n := Z.of_nat (length bs) in
  (forall m src' k', (0 < m)%nat -> (t + m <= length bs)%nat -> writing J k0 V x B ip off bs (t + m) src' k' ->
    Q (inl (tot + Z.of_nat m, o + Z.of_nat m, src')) k') ->
  wp (addr <- bmap swtch fuel rw ip (o / Z.of_nat BSIZE) ;;
      if addr =? 0 then ret (inr (tot, o))
      else
        x <- geti ip ;;
        bp <- bread swtch fuel rw (i_dev x) addr ;;
        let m := chunk n tot o in
        r <- either_copyin src (Z.to_nat m) ;;
        let '(rc, bs, src) := r in
        setb bp (fun b => set_b_data (splice (b_data b) (Z.to_nat (o mod Z.of_nat BSIZE)) bs) b) >>>
        if rc =? -1 then brelse bp >>> ret (inr (tot, o))
        else log_write bp >>> brelse bp >>> ret (inl (u32 (tot + m), u32 (o + m), src))) k Q.
Proof.
  intros HJ Hk0 Hd Hok Hx Hcov Hmax Ht (V1 & x1 & k1 & Hw & Hsrc & Hf & H & Hall & Hlen) tot o n HQ. pose proof max_bytes as Hmb.
  pose proof (ex_inode _ _ _ _ _ _ _ Hw) as Hok1. pose proof (ex_disk _ _ _ _ _ _ _ Hw) as Hd1.
  assert (Hlt : length (take t bs) = t) by (rewrite length_take; lia).
  assert (Eo : o = Z.of_nat (off + t)) by (unfold o, tot; lia).
  assert (Ebn : Z.to_nat (o / Z.of_nat BSIZE) = ((off + t) / BSIZE)%nat) by (by rewrite Eo, <- Nat2Z.inj_div, Nat2Z.id).
  assert (Em : Z.to_nat (o mod Z.of_nat BSIZE) = ((off + t) mod BSIZE)%nat) by (by rewrite Eo, <- Nat2Z.inj_mod, Nat2Z.id).
  pose proof (Nat.div_mod (off + t) BSIZE ltac:(done)) as Edm. pose proof (Nat.mod_upper_bound (off + t) BSIZE ltac:(done)) as Hmod.
  set (bn := ((off + t) / BSIZE)%nat) in *. set (r := ((off + t) mod BSIZE)%nat) in *.
  assert (Hbn : (bn < MAXFILE)%nat) by (apply Nat.Div0.div_lt_upper_bound; lia).
  assert (Hsp : (0 < spans (off + t) (length bs - t))%nat) by (unfold spans; destruct (Nat.eqb_spec (length bs - t) 0); lia).
  assert (Hx1 : entry k1 ip x1) by (eapply entry_files; [exact Hf|by eapply putx_entry]).
  eapply (writei_step k1 V1 B k ip x1 src tot o n J (drop t bs)); rewrite ?Ebn, ?Em; try done.
  - eapply based_files; [exact Hf|done].
  - unfold n, tot. lia.
  - unfold n. lia.
  - lia.
  - lia.
  - rewrite length_drop. unfold n, tot. lia.
  - eapply allows_le; [|exact Hall]. lia.
  - intros Ha. destruct (decide (slot V x bn = 0)) as [E0|E0].
    + rewrite <- slot_addr in * by done. by apply (ex_fresh _ _ _ _ _ _ _ Hw); [lia|..].
    + rewrite <- slot_addr by done. rewrite (ex_slot _ _ _ _ _ _ _ Hw) by (done || lia). rewrite slot_addr in * by done.
      apply Hcov; [lia|apply Nat.Div0.div_le_mono; lia|done].
  - intros V2 x2 c m src' k2 k' G Hc Hfl Hs Hm Hm0 Hsrc' Hf2 H2.
    assert (Hmn : Z.to_nat m = Nat.min (length bs - t) (BSIZE - r)) by (unfold n, tot in *; lia).
    replace m with (Z.of_nat (Z.to_nat m)) by lia. set (mn := Z.to_nat m) in *.
    pose proof (ex_inode _ _ _ _ _ _ _ G) as Hok2.
    assert (Efl : forall d, free_list sb (upd V2 (slot V2 x2 bn) d) = free_list sb V2).
    { intros d. apply free_ext. intros e He. by apply (data_in_use dev sb start Hly V2 x2). }
    pose proof (spans_step (off + t) (length bs - t) mn ltac:(lia) Hmn) as Hss. pose proof (wanted_pos x2).
    replace (off + t + mn)%nat with (off + (t + mn))%nat in Hss by lia. replace (length bs - t - mn)%nat with (length bs - (t + mn))%nat in Hss by lia.
    apply HQ; [lia|lia|]. eexists _, x2, k2. split_and!.
    + replace (take (t + mn) bs) with (take t bs ++ take mn (drop t bs)) by apply take_take_drop.
      eapply (wrote_chunk dev sb start Hly B V x V2 x2 off (take t bs) _ bn r); try done; [|lia|rewrite length_take, length_drop; lia|lia].
      eapply (wrote_grow dev sb start Hly); [done|lia|exact Hw|done].
    + by rewrite drop_drop in Hsrc'.
    + rewrite Hf2. by eapply putx_files.
    + done.
    + eapply (allows_free B V2 x2); [apply Efl|].
      eapply (allows_drop B V1 x1); [apply (gr_ext _ _ _ _ _ _ _ G)| |exact Hfl].
      eapply allows_le; [|exact Hall]. lia.
    + rewrite Efl, Hfl, length_drop. lia.
Qed.
End code.
