(* ===== verification/FsWritei.v ===== *)
(** The inode on disk: what iupdate writes, ilock reads back, and the other
    inodes of the block stay. *)

From S2P Require Import Prelude.
From S2P Require Import Spinlock.
From S2P Require Import Riscv.
From S2P Require Import Kalloc.
From S2P Require Import Proc.
From S2P Require Import FsState.
From S2P Require Import Bio.
From S2P Require Import BioSpec.
From S2P Require Import Log.
From S2P Require Import LogSpec.
From S2P Require Import LogTheorems.
From S2P Require Import Fs.
From S2P Require Import FsOp.
From S2P Require Import FsBitmap.
From S2P Require Import FsAlloc.
From S2P Require Import FsInode.
From S2P Require Import FsGrow.
From S2P Require Import FsWrite.

(** ** Fields *)

(** [d'] is [d] with other bytes from [o] on, [n] of them at most. *)
Definition within (d d' : block) (o n : nat) : Prop :=
  length d' = length d /\ forall q, (q < o \/ o + n <= q)%nat -> d' !! q = d !! q.

Lemma within_refl d o n : within d d o n.
Proof. done. Qed.

Lemma within_trans d d1 d2 o n : within d d1 o n -> within d1 d2 o n -> within d d2 o n.
Proof. intros [L1 H1] [L2 H2]. split; [congruence|]. intros q Hq. by rewrite H2, H1. Qed.

Lemma within_wider d d' o n o' n' : (o' <= o)%nat -> (o + n <= o' + n')%nat -> within d d' o n -> within d d' o' n'.
Proof. intros H1 H2 [L H]. split; [done|]. intros q Hq. apply H. lia. Qed.

Lemma put16_within d o v : within d (put16 d o v) o 2.
Proof. split; [unfold put16; by rewrite !length_insert|]. intros q Hq. unfold put16. by rewrite !list_lookup_insert_ne by lia. Qed.

Lemma put32_within d o v : within d (put32 d o v) o 4.
Proof. split; [apply put32_length|]. intros q Hq. unfold put32. by rewrite !list_lookup_insert_ne by lia. Qed.

Lemma put_addrs_within a : forall d o, within d (put_addrs d o a) o (4 * length a).
Proof.
  induction a as [|v a IH]; intros d o; [done|]. cbn [put_addrs length].
  eapply within_trans; [eapply (within_wider _ _ o 4); [..|apply put32_within]; lia|].
  eapply within_wider; [..|apply IH]; lia.
Qed.

Lemma get16_within d d' o n q : within d d' o n -> (q + 2 <= o \/ o + n <= q)%nat -> get16 d' q = get16 d q.
Proof. intros [_ H] Hq. unfold get16. by rewrite !H by lia. Qed.

Lemma get32_within d d' o n q : within d d' o n -> (q + 4 <= o \/ o + n <= q)%nat -> get32 d' q = get32 d q.
Proof. intros [_ H] Hq. unfold get32. by rewrite !H by lia. Qed.

Lemma get16_put16 d o v : (o + 2 <= length d)%nat -> get16 (put16 d o v) o = u16 v.
Proof.
  intros Hl. unfold get16, put16. rewrite list_lookup_insert_ne, list_lookup_insert_eq by lia.
  rewrite list_lookup_insert_eq by (rewrite length_insert; lia). unfold u8, u16. change (2 ^ 16) with 65536. change (2 ^ 8) with 256. dlia.
Qed.

Lemma i16_u16 v : - 2 ^ 15 <= v < 2 ^ 15 -> i16 (u16 v) = v.
Proof. intros Hv. unfold i16, u16. rewrite Z.add_mod_idemp_l by lia. rewrite Z.mod_small; lia. Qed.

Lemma get_addrs_put a : forall d o,
  (o + 4 * length a <= length d)%nat -> Forall (fun v => 0 <= v < 2 ^ 32) a -> get_addrs (put_addrs d o a) o (length a) = a.
Proof.
  induction a as [|v a IH]; intros d o Hl Ha; [done|]. apply Forall_cons in Ha as [Hv Ha]. cbn [put_addrs length] in *.
  unfold get_addrs. rewrite <- cons_seq. cbn [map]. f_equal.
  - rewrite (get32_within _ _ _ _ _ (put_addrs_within a (put32 d o v) (o + 4))) by lia.
    rewrite Nat.mul_0_r, Nat.add_0_r, get32_put32 by lia. by apply u32_id.
  - rewrite <- (IH (put32 d o v) (o + 4)%nat) at 2; [|rewrite put32_length; lia|done]. unfold get_addrs.
    rewrite <- seq_shift, map_map. apply map_ext. intros q. f_equal. lia.
Qed.

(** ** The inode *)

(** The fields are in the range of their types. *)
Definition in_range (x : inode) : Prop :=
  (- 2 ^ 15 <= i_type x < 2 ^ 15 /\ - 2 ^ 15 <= i_major x < 2 ^ 15 /\ - 2 ^ 15 <= i_minor x < 2 ^ 15 /\
   - 2 ^ 15 <= i_nlink x < 2 ^ 15 /\ 0 <= i_size x < 2 ^ 32) /\
  length (i_addrs x) = S NDIRECT /\ Forall (fun v => 0 <= v < 2 ^ 32) (i_addrs x).

Lemma put_dinode_within x o d : length (i_addrs x) = S NDIRECT -> within d (put_dinode x o d) o DINODE.
Proof.
  intros Hl. unfold put_dinode, DINODE.
  assert (W : forall d q v, (o <= q)%nat -> (q + 2 <= o + 64)%nat -> within d (put16 d q v) o 64).
  { intros. eapply within_wider; [..|apply put16_within]; lia. }
  cbv zeta. eapply within_trans; [|eapply within_wider; [..|apply put_addrs_within]; unfold NDIRECT in *; lia].
  eapply within_trans; [|eapply within_wider; [..|apply put32_within]; lia].
  do 3 (eapply within_trans; [|apply W; lia]). apply W; lia.
Qed.

(** The same inode in memory: the fields that are not on disk are from [y]. *)
Definition with_disk (x y : inode) : inode :=
  Inode (i_dev y) (i_inum y) (i_ref y) (i_valid y) (i_type x) (i_major x) (i_minor x) (i_nlink x) (i_size x) (i_addrs x).

Lemma get_put_dinode x y o d :
  in_range x -> (o + DINODE <= length d)%nat -> get_dinode (put_dinode x o d) o y = with_disk x y.
Proof.
  intros ((Ht & Hma & Hmi & Hn & Hs) & Hl & Ha) Hd. unfold DINODE in Hd. unfold get_dinode, with_disk, put_dinode.
  set (d1 := put16 d o (i_type x)). set (d2 := put16 d1 (o + 2) (i_major x)). set (d3 := put16 d2 (o + 4) (i_minor x)).
  set (d4 := put16 d3 (o + 6) (i_nlink x)). set (d5 := put32 d4 (o + 8) (i_size x)). set (d6 := put_addrs d5 (o + 12) (i_addrs x)).
  destruct (put16_within d o (i_type x)) as [L1 _]. pose proof (put16_within d1 (o + 2) (i_major x)) as W2.
  pose proof (put16_within d2 (o + 4) (i_minor x)) as W3. pose proof (put16_within d3 (o + 6) (i_nlink x)) as W4.
  pose proof (put32_within d4 (o + 8) (i_size x)) as W5. pose proof (put_addrs_within (i_addrs x) d5 (o + 12)) as W6.
  fold d1 in L1. fold d2 in W2. fold d3 in W3. fold d4 in W4. fold d5 in W5. fold d6 in W6.
  pose proof (proj1 W2). pose proof (proj1 W3). pose proof (proj1 W4). pose proof (proj1 W5).
  f_equal.
  - rewrite (get16_within _ _ _ _ _ W6), (get16_within _ _ _ _ _ W5), (get16_within _ _ _ _ _ W4), (get16_within _ _ _ _ _ W3), (get16_within _ _ _ _ _ W2) by lia.
    unfold d1. rewrite get16_put16 by lia. by apply i16_u16.
  - rewrite (get16_within _ _ _ _ _ W6), (get16_within _ _ _ _ _ W5), (get16_within _ _ _ _ _ W4), (get16_within _ _ _ _ _ W3) by lia.
    unfold d2. rewrite get16_put16 by lia. by apply i16_u16.
  - rewrite (get16_within _ _ _ _ _ W6), (get16_within _ _ _ _ _ W5), (get16_within _ _ _ _ _ W4) by lia.
    unfold d3. rewrite get16_put16 by lia. by apply i16_u16.
  - rewrite (get16_within _ _ _ _ _ W6), (get16_within _ _ _ _ _ W5) by lia.
    unfold d4. rewrite get16_put16 by lia. by apply i16_u16.
  - rewrite (get32_within _ _ _ _ _ W6) by lia. unfold d5. rewrite get32_put32 by lia. by apply u32_id.
  - rewrite <- Hl. apply get_addrs_put; [|done]. unfold NDIRECT in *. lia.
Qed.

(** The other inodes of the block. *)
Lemma get_dinode_other d d' o o' y :
  within d d' o DINODE -> (o' + DINODE <= o \/ o + DINODE <= o')%nat -> get_dinode d' o' y = get_dinode d o' y.
Proof.
  intros W Ho. unfold DINODE in Ho, W. unfold get_dinode, get_addrs.
  rewrite !(get16_within _ _ _ _ _ W), (get32_within _ _ _ _ _ W) by lia. f_equal.
  apply map_ext_in. intros q Hq%in_seq. apply (get32_within _ _ _ _ _ W). unfold NDIRECT in Hq. lia.
Qed.

Lemma dinode_at_bound n : (dinode_at n + DINODE <= BSIZE)%nat.
Proof. unfold dinode_at, DINODE, BSIZE, IPB. dlia. Qed.

Lemma dinode_at_apart n n' : n mod IPB <> n' mod IPB -> (dinode_at n + DINODE <= dinode_at n' \/ dinode_at n' + DINODE <= dinode_at n)%nat.
Proof. intros Hne. unfold dinode_at, DINODE, IPB in *. dlia. Qed.

(** * writei of fs.c as a whole, with the inode it writes back. *)

(** ** The inode block *)

Section inodes.
Context (dev : Z) (sb : superblock) (start : Z) (Hly : layout sb start).
Implicit Types (V : Z -> block) (x y : inode).
Abbreviation inode_ok := (inode_ok dev sb).

(** [iupdate]'s update of the disk. *)
Definition put_inode V x : Z -> block :=
  let c := IBLOCK (i_inum x) sb in upd V c (put_dinode x (dinode_at (i_inum x)) (V c)).

(** The inode [n] on disk. *)
Definition disk_inode V (n : Z) (y : inode) : inode := get_dinode (V (IBLOCK n sb)) (dinode_at n) y.

Lemma put_inode_other V x c : c <> IBLOCK (i_inum x) sb -> put_inode V x c = V c.
Proof. intros Hc. unfold put_inode. by rewrite upd_ne. Qed.

Section one.
Context V x (Hn : 0 <= i_inum x < sb_ninodes sb) (Hlen : length (i_addrs x) = S NDIRECT).

Lemma put_inode_data c : nmeta sb <= c -> put_inode V x c = V c.
Proof.
  intros Hc. apply put_inode_other. pose proof (IBLOCK_meta sb start Hly _ Hn). pose proof (nmeta_pos sb start Hly).
  pose proof (BBLOCK_meta sb start Hly 0). destruct Hly. lia.
Qed.

Lemma put_inode_use c : 0 <= c < sb_size sb -> in_use sb (put_inode V x) c = in_use sb V c.
Proof. intros Hc. apply (in_use_upd sb start Hly); [done|]. left. apply (IBLOCK_meta sb start Hly _ Hn). Qed.

Lemma put_inode_disk : disk_ok sb V -> disk_ok sb (put_inode V x).
Proof.
  intros Hd. split.
  - intros c Hc. unfold put_inode, upd. case_decide; [subst c|by apply Hd]. rewrite (proj1 (put_dinode_within x _ _ Hlen)). by apply Hd.
  - intros c Hc. pose proof (ly_data _ _ Hly). rewrite put_inode_use by lia. by apply Hd.
Qed.

Lemma put_inode_slot y s : inode_ok V y -> slot (put_inode V x) y s = slot V y s.
Proof.
  intros Hok. unfold slot, addr_of. destruct (s =? MAXFILE)%nat; [done|]. destruct (s <? NDIRECT)%nat; [done|].
  destruct (Z.eqb_spec (indirect y) 0) as [|Hne]; [done|]. rewrite put_inode_data; [done|].
  rewrite (ind_slot V y) in Hne |- *. by apply (in_data _ _ _ _ Hok).
Qed.

Lemma put_inode_ok y : inode_ok V y -> inode_ok (put_inode V x) y.
Proof.
  intros Hok. pose proof (fun s => put_inode_slot y s Hok) as Hslot. split; try apply Hok.
  - intros bn Hbn. pose proof (in_size _ _ _ _ Hok). assert (bn < MAXFILE)%nat by (unfold BSIZE in *; lia).
    rewrite <- slot_addr, Hslot, slot_addr by done. by apply (in_full _ _ _ _ Hok).
  - intros s Hs. rewrite Hslot. intros Hne. destruct (in_data _ _ _ _ Hok s Hs Hne) as [Hr Hu]. split; [done|].
    pose proof (nmeta_pos sb start Hly). by rewrite put_inode_use by lia.
  - intros s s' Hs Hs'. rewrite !Hslot. by apply (in_inj _ _ _ _ Hok).
Qed.

Lemma put_inode_byte y o : inode_ok V y -> (o < Z.to_nat (i_size y))%nat -> byte_at (put_inode V x) y o = byte_at V y o.
Proof.
  intros Hok Ho. pose proof (in_size _ _ _ _ Hok) as Hs. pose proof (Nat.Div0.mul_div_le o BSIZE).
  assert (Hlt : (o / BSIZE < MAXFILE)%nat) by (apply Nat.Div0.div_lt_upper_bound; lia).
  unfold byte_at. rewrite <- !slot_addr, put_inode_slot by done. rewrite put_inode_data; [done|].
  apply (in_data _ _ _ _ Hok); [lia|]. rewrite slot_addr by done. apply (in_full _ _ _ _ Hok). lia.
Qed.

Lemma put_inode_content y : inode_ok V y -> content (put_inode V x) y = content V y.
Proof. intros Hok. apply map_ext_in. intros o Ho%in_seq. apply put_inode_byte; [done|lia]. Qed.

(** The inode is on disk, and the others stay. *)
Lemma put_inode_get y : in_range x -> length (V (IBLOCK (i_inum x) sb)) = BSIZE -> disk_inode (put_inode V x) (i_inum x) y = with_disk x y.
Proof.
  intros Hr Hl. unfold disk_inode, put_inode. rewrite upd_eq. apply get_put_dinode; [done|]. rewrite Hl. apply dinode_at_bound.
Qed.

Lemma put_inode_get_other n y : 0 <= n < sb_ninodes sb -> n <> i_inum x -> disk_inode (put_inode V x) n y = disk_inode V n y.
Proof.
  intros Hn' Hne. unfold disk_inode, put_inode, upd. case_decide as E; [|done]. rewrite E.
  rewrite !(IBLOCK_eq sb start Hly) in E by done.
  eapply get_dinode_other; [by apply put_dinode_within|]. apply or_comm, dinode_at_apart. intros Em. apply Hne. unfold IPB in *. dlia.
Qed.
End one.

Lemma ok_in_range V x : inode_ok V x ->
  - 2 ^ 15 <= i_type x < 2 ^ 15 -> - 2 ^ 15 <= i_major x < 2 ^ 15 -> - 2 ^ 15 <= i_minor x < 2 ^ 15 -> - 2 ^ 15 <= i_nlink x < 2 ^ 15 ->
  in_range x.
Proof.
  intros Hok H1 H2 H3 H4. pose proof (in_size _ _ _ _ Hok) as Hs. pose proof max_bytes. split; [split_and!; lia|]. split; [apply Hok|].
  apply Forall_lookup. intros q v Hq. pose proof (lookup_lt_Some _ _ _ Hq) as Hlt. rewrite (in_len _ _ _ _ Hok) in Hlt.
  assert (Hv : exists s, (s <= MAXFILE)%nat /\ slot V x s = v).
  { destruct (decide (q = NDIRECT)) as [->|Hne].
    - exists MAXFILE. split; [done|]. rewrite slot_ind. by apply nth_lookup_Some.
    - exists q. split; [unfold MAXFILE; lia|]. rewrite slot_addr by (unfold MAXFILE; lia). unfold addr_of.
      rewrite (proj2 (Nat.ltb_lt _ _)) by lia. by apply nth_lookup_Some. }
  destruct Hv as (s & Hs' & <-). destruct (decide (slot V x s = 0)) as [->|Hne]; [lia|].
  pose proof (in_data _ _ _ _ Hok s Hs' Hne) as [Hd _]. pose proof (nmeta_pos sb start Hly). destruct Hly. lia.
Qed.
End inodes.

(** ** The code *)

Section code.
Context (swtch : M (kernel fsys) unit) (fuel : nat) (Hfuel : can_wait fuel).
Context (rw : nat -> bool -> M (kernel fsys) unit) (Hrw : driver_ok rw).
Context (i : nat) (pid dev : Z) (sb : superblock) (start : Z) (Hly : layout sb start).
Context `{HLS : LinkerSyms}.
Implicit Types (k : kernel fsys) (V : Z -> block) (x : inode) (B : gset Z).
Abbreviation inop := (inop i pid dev).
Abbreviation inode_ok := (inode_ok dev sb).
Abbreviation wrote := (wrote dev sb).
Abbreviation based := (based sb start).
Abbreviation allows := (allows sb).
Abbreviation put_inode := (put_inode sb).

Lemma iupdate_spec k0 V B k ip x (Q : unit -> kernel fsys -> Prop) :
  based k0 -> inop k0 V ∅ ∅ B k -> entry k0 ip x -> i_dev x = dev -> 0 <= i_inum x < sb_ninodes sb -> IBLOCK (i_inum x) sb ∈ B ->
  (forall k', inop k0 (put_inode V x) ∅ ∅ B k' -> Q tt k') -> wp (iupdate swtch fuel rw ip) k Q.
Proof.
  intros Hk0 H Hx Hdev Hn HB HQ. unfold iupdate. apply wp_bind. eapply inop_geti; [exact H|exact Hx|].
  apply wp_bind, wp_fgets. rewrite (inop_sb _ _ _ _ _ _ _ _ _ H), (proj1 Hk0), Hdev. apply wp_bind.
  eapply (inop_bread swtch fuel Hfuel rw Hrw); [exact H|apply lookup_empty|rewrite map_size_empty; lia|]. intros j k1 H1.
  set (c := IBLOCK (i_inum x) sb) in *. assert (HL : <[c := j]> (∅ : gmap Z nat) !! c = Some j) by apply lookup_insert_eq.
  destruct (meta_off sb start Hly c) as [Hr Ho].
  { apply (IBLOCK_meta sb start Hly _ Hn). }
  { pose proof (IBLOCK_meta sb start Hly _ Hn). pose proof (BBLOCK_meta sb start Hly 0). destruct Hly. pose proof (nmeta_pos sb start Hly). unfold c. lia. }
  eapply (inop_write i pid dev k0 V _ B k1 c j _ (put_dinode x (dinode_at (i_inum x)))); [exact H1|exact HL|done|done|destruct Hk0 as [_ ->]; done|].
  intros k2 H2. eapply (inop_brelse fuel Hfuel rw Hrw); [exact H2|exact HL|set_solver|]. intros k3 H3. apply HQ.
  by rewrite delete_insert_id in H3 by apply lookup_empty.
Qed.

Lemma writei_loop_spec k0 V B k ip x src off bs J (Q : Z * Z -> kernel fsys -> Prop) :
  source_ok i pid dev J -> based k0 -> disk_ok sb V -> inode_ok V x -> inop k0 V ∅ ∅ B k -> entry k0 ip x -> J bs src k0 ->
  (off <= Z.to_nat (i_size x))%nat -> (off + length bs <= MAXFILE * BSIZE)%nat ->
  allows B V x (pred (spans off (length bs) + wanted x)) -> covers B V x off (length bs) ->
  (forall V' x' k0' k', wrote B V x V' x' off bs ->
    (length (free_list sb V) + wanted x' <= length (free_list sb V') + spans off (length bs) + wanted x)%nat -> (exists src', J [] src' k0') -> k_files k0' = k_files (putx ip x' k0) -> inop k0' V' ∅ ∅ B k' ->
    Q (Z.of_nat (length bs), Z.of_nat off + Z.of_nat (length bs)) k') ->
  wp (writei_loop swtch fuel rw ip src (Z.of_nat off) (Z.of_nat (length bs))) k Q.
Proof.
  intros HJ Hk0 Hd Hok H Hx Hsrc Ho Hmax Hall Hcov HQ. unfold writei_loop.
  apply (wp_loop_st (fun '(tot, off', src') k' => exists t, tot = Z.of_nat t /\ off' = Z.of_nat off + Z.of_nat t /\ (t <= length bs)%nat /\
      writing i pid dev sb J k0 V x B ip off bs t src' k')
    (fun '(tot, _, _) _ => Z.to_nat (Z.of_nat (length bs) - tot))).
  - intros [[tot off'] src'] k' (t & -> & -> & Ht & W). destruct (Z.ltb_spec (Z.of_nat t) (Z.of_nat (length bs))) as [Hlt|Hge].
    + eapply (writing_next swtch fuel Hfuel rw Hrw i pid dev sb start Hly J k0 V x B ip off bs t); try done; [lia|].
      intros m src2 k2 Hm Hle W2. split; [|lia]. exists (t + m)%nat. split_and!; [lia|lia|lia|done].
    + apply wp_ret. assert (t = length bs) as -> by lia. destruct W as (V' & x' & k0' & Hw & Hj & Hf & H' & _ & Hfl).
      rewrite take_ge in Hw by lia. rewrite drop_ge in Hj by lia. eapply HQ; [done|lia|by exists src'|done|done].
  - exists 0%nat. split_and!; [done|lia|lia|]. exists V, x, k0. split_and!; [by apply wrote_nil|by rewrite drop_0| |done|by rewrite Nat.add_0_r, Nat.sub_0_r|rewrite Nat.add_0_r, Nat.sub_0_r; lia].
    by rewrite putx_same.
  - lia.
Qed.

(** The file after [writei]. *)
Definition written x (x' : inode) (off : nat) (bs : list Z) : inode :=
  if i_size x <? Z.of_nat off + Z.of_nat (length bs) then set_i_size (Z.of_nat off + Z.of_nat (length bs)) x' else x'.

Lemma written_slot V x x' off bs s : slot V (written x x' off bs) s = slot V x' s.
Proof. unfold written. by destruct (i_size x <? _). Qed.

Lemma written_size x x' off bs :
  same_meta x x' -> i_size (written x x' off bs) = Z.max (i_size x) (Z.of_nat off + Z.of_nat (length bs)).
Proof.
  intros E. unfold written. destruct (Z.ltb_spec (i_size x) (Z.of_nat off + Z.of_nat (length bs))); cbn; [lia|].
  assert (i_size x' = i_size x) as -> by (by rewrite E). lia.
Qed.

Lemma written_ok B V x V' x' off bs :
  inode_ok V x -> wrote B V x V' x' off bs -> (off + length bs <= MAXFILE * BSIZE)%nat -> inode_ok V' (written x x' off bs).
Proof.
  intros Hok Hw Hmax. pose proof (ex_inode _ _ _ _ _ _ _ Hw) as Hok'. pose proof (ex_meta _ _ _ _ _ _ _ Hw) as Hm.
  pose proof (in_size _ _ _ _ Hok) as Hs. pose proof (written_size x x' off bs Hm) as Es. split; try (unfold written; destruct (i_size x <? _); apply Hok').
  - rewrite Es. lia.
  - intros bn Hbn. rewrite Es in Hbn. assert (Hb : (bn < MAXFILE)%nat) by (unfold BSIZE in *; lia).
    rewrite <- slot_addr, written_slot, slot_addr by done. destruct (decide (bn * BSIZE < off + length bs)%nat) as [Hin|Hout]; [by apply (wr_has _ _ _ _ _ _ _ _ _ Hw)|].
    apply (in_full _ _ _ _ Hok'). assert (i_size x' = i_size x) as -> by (by rewrite Hm). lia.
Qed.

(** The new contents. *)
Lemma written_content B V x V' x' off bs :
  inode_ok V x -> wrote B V x V' x' off bs -> (off <= Z.to_nat (i_size x))%nat ->
  content V' (written x x' off bs) = splice (content V x) off bs.
Proof.
  intros Hok Hw Ho. pose proof (ex_meta _ _ _ _ _ _ _ Hw) as Hm. pose proof (written_size x x' off bs Hm) as Es.
  apply list_eq. intros o. unfold splice.
  assert (Hb : byte_at V' (written x x' off bs) o = byte_at V' x' o) by (unfold written; by destruct (i_size x <? _)).
  destruct (decide (o < Z.to_nat (i_size (written x x' off bs)))%nat) as [Hlt|Hge].
  - rewrite content_lookup, Hb by done. rewrite Es in Hlt. destruct (decide (o < off)%nat) as [H1|H1].
    + rewrite lookup_app_l, lookup_take_lt, content_lookup by (rewrite ?length_take, ?content_length; lia).
      by rewrite (wr_out _ _ _ _ _ _ _ _ _ Hw) by lia.
    + rewrite lookup_app_r, length_take, content_length, Nat.min_l by (rewrite ?length_take, ?content_length; lia).
      destruct (decide (o < off + length bs)%nat) as [H2|H2].
      * rewrite lookup_app_l by lia. destruct (lookup_lt_is_Some_2 bs (o - off)) as [c Hc]; [lia|]. rewrite Hc.
        pose proof (wr_in _ _ _ _ _ _ _ _ _ Hw _ _ Hc) as E. by replace (off + (o - off))%nat with o in E by lia; rewrite E.
      * rewrite lookup_app_r, lookup_drop by lia. replace (off + length bs + (o - off - length bs))%nat with o by lia.
        rewrite content_lookup by lia. by rewrite (wr_out _ _ _ _ _ _ _ _ _ Hw) by lia.
  - rewrite lookup_ge_None_2 by (rewrite content_length; lia). symmetry. apply lookup_ge_None_2.
    rewrite Es in Hge. rewrite !length_app, length_take, length_drop, content_length. lia.
Qed.

(** What [writei] does to the disk and the inode. *)
Record updates_file V x V' x' (off : nat) (bs : list Z) : Prop := {
  uf_disk : disk_ok sb V';
  uf_inode : inode_ok V' x';
  uf_content : content V' x' = splice (content V x) off bs;
  uf_meta : x' = set_i_size (i_size x') (set_i_addrs (i_addrs x') x);
  uf_block c : foreign sb V x c -> c <> IBLOCK (i_inum x) sb -> V' c = V c;
  uf_used c : 0 <= c < sb_size sb -> in_use sb V c = true -> in_use sb V' c = true;
  uf_dinode y : in_range x -> disk_inode sb V' (i_inum x) y = with_disk x' y;
  uf_other n y : 0 <= n < sb_ninodes sb -> n <> i_inum x -> disk_inode sb V' n y = disk_inode sb V n y;
  uf_slot s : (s <= MAXFILE)%nat -> slot V' x' s <> 0 -> slot V' x' s = slot V x s \/ slot V' x' s ∈ free_list sb V;
  uf_free : (length (free_list sb V) + wanted x' <= length (free_list sb V') + spans off (length bs) + wanted x)%nat
}.

Lemma iblock_foreign V x n : 0 <= n < sb_ninodes sb -> inode_ok V x -> foreign sb V x (IBLOCK n sb).
Proof.
  intros Hn Hok. pose proof (IBLOCK_meta sb start Hly n Hn) as Hi. pose proof (nmeta_pos sb start Hly).
  pose proof (BBLOCK_meta sb start Hly 0) as H0. pose proof (ly_data _ _ Hly).
  assert (Hne : forall s, (s <= MAXFILE)%nat -> slot V x s <> 0 -> slot V x s <> IBLOCK n sb).
  { intros s Hs Hz. destruct (in_data _ _ _ _ Hok s Hs Hz) as [Hd _]. lia. }
  split; [split; [left; lia|]|].
  - intros Hz. rewrite (ind_slot V x) in *. intros E. by apply (Hne MAXFILE).
  - intros s Hs. apply Hne. lia.
Qed.

Lemma wrote_updates B V x V' x' off bs :
  inode_ok V x -> wrote B V x V' x' off bs -> (off <= Z.to_nat (i_size x))%nat -> (off + length bs <= MAXFILE * BSIZE)%nat ->
  (length (free_list sb V) + wanted x' <= length (free_list sb V') + spans off (length bs) + wanted x)%nat ->
  updates_file V x (put_inode V' (written x x' off bs)) (written x x' off bs) off bs.
Proof.
  intros Hok Hw Ho Hmax Hfl. pose proof (written_ok B V x V' x' off bs Hok Hw Hmax) as Hok2. set (x2 := written x x' off bs) in *.
  pose proof (in_inum _ _ _ _ Hok) as Hnum. pose proof (ex_meta _ _ _ _ _ _ _ Hw) as Hm.
  assert (En : i_inum x2 = i_inum x) by (unfold x2, written; rewrite Hm; by destruct (i_size x <? _)).
  assert (Hn2 : 0 <= i_inum x2 < sb_ninodes sb) by (rewrite En; lia). pose proof (in_len _ _ _ _ Hok2) as Hl2.
  assert (Hmeta : x2 = set_i_size (i_size x2) (set_i_addrs (i_addrs x2) x)).
  { unfold x2, written. rewrite Hm. destruct (i_size x <? _); by destruct x. }
  split.
  - apply (put_inode_disk sb start Hly V' x2); [done|done|apply Hw].
  - by apply (put_inode_ok dev sb start Hly).
  - rewrite (put_inode_content dev sb start Hly) by done. by eapply written_content.
  - done.
  - intros c Hc Hne. rewrite put_inode_other by (by rewrite En). by apply (wr_block _ _ _ _ _ _ _ _ _ Hw).
  - intros c Hc Hu. rewrite (put_inode_use sb start Hly) by done. by apply (ex_used _ _ _ _ _ _ _ Hw).
  - intros y (Hr & _). rewrite <- En. apply (put_inode_get sb V' x2).
    + rewrite Hmeta in Hok2 |- *. apply (ok_in_range dev sb start Hly V'); cbn; tauto.
    + rewrite En. apply (iblock_len sb start Hly); [apply Hw|lia].
  - intros n y Hn Hne. rewrite (put_inode_get_other sb start Hly) by (done || by rewrite En).
    unfold disk_inode. rewrite (wr_block _ _ _ _ _ _ _ _ _ Hw); [done|]. by apply iblock_foreign.
  - intros s Hs. rewrite (put_inode_slot dev sb start Hly) by done. unfold x2. rewrite written_slot. intros Hne.
    destruct (decide (slot V x s = 0)) as [E|E]; [right; by apply (ex_fresh _ _ _ _ _ _ _ Hw)|left; by apply (ex_slot _ _ _ _ _ _ _ Hw)].
  - rewrite (free_ext sb V' (put_inode V' x2)) by (intros c Hc; by apply (put_inode_use sb start Hly)).
    replace (wanted x2) with (wanted x'); [done|]. unfold x2, written. by destruct (i_size x <? _).
Qed.

Lemma writei_spec k0 V B k ip x src off bs J (Q : Z -> kernel fsys -> Prop) :
  source_ok i pid dev J -> based k0 -> disk_ok sb V -> inode_ok V x -> inop k0 V ∅ ∅ B k -> entry k0 ip x -> J bs src k0 ->
  (off <= Z.to_nat (i_size x))%nat -> (off + length bs <= MAXFILE * BSIZE)%nat ->
  allows B V x (pred (spans off (length bs) + wanted x)) -> covers B V x off (length bs) -> IBLOCK (i_inum x) sb ∈ B ->
  (forall V' x' k0' k', updates_file V x V' x' off bs -> (exists src', J [] src' k0') ->
    k_files k0' = k_files (putx ip x' k0) -> inop k0' V' ∅ ∅ B k' -> Q (Z.of_nat (length bs)) k') ->
  wp (writei swtch fuel rw ip src (Z.of_nat off) (Z.of_nat (length bs))) k Q.
Proof.
  intros HJ Hk0 Hd Hok H Hx Hsrc Ho Hmax Hall Hcov HB HQ. pose proof max_bytes as Hmb. pose proof (in_size _ _ _ _ Hok) as Hs.
  unfold writei. apply wp_bind. eapply inop_geti; [exact H|exact Hx|]. rewrite u32_id by lia.
  destruct (Z.ltb_spec (i_size x) (Z.of_nat off)); [lia|]. destruct (Z.ltb_spec (Z.of_nat off + Z.of_nat (length bs)) (Z.of_nat off)); [lia|]. cbn [orb].
  destruct (Z.ltb_spec (Z.of_nat MAXFILE * Z.of_nat BSIZE) (Z.of_nat off + Z.of_nat (length bs))); [lia|].
  apply wp_bind. eapply writei_loop_spec; try done. intros V' x' k0' k' Hw Hfl [src' Hj] Hf H'.
  pose proof (wrote_updates B V x V' x' off bs Hok Hw Ho Hmax Hfl) as Hu. pose proof (ex_meta _ _ _ _ _ _ _ Hw) as Hm.
  assert (Es : i_size x' = i_size x) by (by rewrite Hm). assert (En : i_inum x' = i_inum x) by (by rewrite Hm).
  assert (Hx' : entry k0' ip x') by (eapply entry_files; [exact Hf|by eapply putx_entry]).
  apply wp_bind. eapply inop_geti; [exact H'|exact Hx'|]. rewrite Es, i32_id by lia.
  assert (Hend : forall k1 k2, inop k1 V' ∅ ∅ B k2 -> J [] src' k1 -> k_files k1 = k_files (putx ip (written x x' off bs) k0) ->
    wp (iupdate swtch fuel rw ip >>> ret (Z.of_nat (length bs))) k2 Q).
  { intros k1 k2 Hk2 Hj2 Hf2. pose proof (uf_inode _ _ _ _ _ _ Hu) as Hok2. pose proof (in_inum _ _ _ _ Hok2) as Hn2.
    apply wp_bind. eapply (iupdate_spec k1 V' B k2 ip (written x x' off bs)); try done.
    - eapply based_files; [exact Hf2|done].
    - eapply entry_files; [exact Hf2|by eapply putx_entry].
    - apply Hok2.
    - lia.
    - rewrite (uf_meta _ _ _ _ _ _ Hu). done.
    - intros k3 Hk3. apply wp_ret. eapply HQ; [done|by exists src'|done|done]. }
  apply wp_bind. unfold written in Hend. destruct (i_size x <? Z.of_nat off + Z.of_nat (length bs)) eqn:E.
  - eapply inop_seti; [exact H'|exact Hx'|]. intros k2 Hk2. eapply Hend; [exact Hk2|by apply (proj1 HJ)|]. by eapply putx_files.
  - apply wp_ret. by eapply Hend.
Qed.
End code.
