(* ===== verification/FsTable.v ===== *)
(** The inode table: iget, idup, ilock, iunlock and iput of fs.c.

    An entry in use is a copy of the inode on disk once it is valid; [iget]
    gives the one entry of an inode, and [ilock] fills it in. *)

From S2P Require Import Prelude.
From S2P Require Import Spinlock.
From S2P Require Import Riscv.
From S2P Require Import Kalloc.
From S2P Require Import Proc.
From S2P Require Import FsState.
From S2P Require Import Bio.
From S2P Require Import BioSpec.
From S2P Require Import Log.
From S2P Require Import LogSpec.
From S2P Require Import LogTheorems.
From S2P Require Import Fs.
From S2P Require Import FsOp.
From S2P Require Import FsBitmap.
From S2P Require Import FsAlloc.
From S2P Require Import FsInode.
From S2P Require Import FsGrow.
From S2P Require Import FsWritei.

(** ** The table as a list *)

(** Entry [x] is in use for inode [n]. *)
Definition holds (dev n : Z) (x : inode) : Prop := 0 < i_ref x /\ i_dev x = dev /\ i_inum x = n.
#[export] Instance holds_dec dev n x : Decision (holds dev n x).
Proof. apply _. Defined.

Definition unused (x : inode) : Prop := i_ref x = 0.
#[export] Instance unused_dec x : Decision (unused x).
Proof. apply _. Defined.

(** An entry that [iget] has just set up. *)
Definition new_entry (dev n : Z) (x : inode) : inode :=
  Inode dev n 1 0 (i_type x) (i_major x) (i_minor x) (i_nlink x) (i_size x) (i_addrs x).

(** The entry [iget] gives and its contents; [None] is the panic. *)
Definition iget_of (dev n : Z) (T : list inode) : option (nat * inode) :=
  match list_find (holds dev n) T with
  | Some (j, x) => Some (j, set_i_ref (i_ref x + 1) x)
  | None =>
      match list_find unused T with
      | Some (j, x) => Some (j, new_entry dev n x)
      | None => None
      end
  end.

Lemma iget_of_holds dev n T j x : iget_of dev n T = Some (j, x) -> holds dev n x /\ (j < length T)%nat.
Proof.
  unfold iget_of. destruct (list_find (holds dev n) T) as [[q y]|] eqn:E.
  - apply list_find_Some in E as (Hq & (Hr & Hd & Hn) & _). intros [= <- <-].
    split; [unfold holds; cbn; split_and!; [lia|done|done]|by eapply lookup_lt_Some].
  - destruct (list_find unused T) as [[q y]|] eqn:E'; [|done]. apply list_find_Some in E' as (Hq & _ & _). intros [= <- <-].
    split; [unfold holds; cbn; split_and!; [lia|done|done]|by eapply lookup_lt_Some].
Qed.

(** One entry per inode in use. *)
Definition unique (T : list inode) : Prop :=
  forall j j' x x', T !! j = Some x -> T !! j' = Some x' -> 0 < i_ref x -> 0 < i_ref x' ->
    i_dev x = i_dev x' -> i_inum x = i_inum x' -> j = j'.

Lemma iget_unique dev n T j x : unique T -> iget_of dev n T = Some (j, x) -> unique (<[j := x]> T).
Proof.
  intros U E. pose proof (iget_of_holds _ _ _ _ _ E) as [(Hr & Hd & Hn) Hj].
  assert (Hother : forall q y, T !! q = Some y -> q <> j -> 0 < i_ref y -> i_dev y = dev -> i_inum y = n -> False).
  { intros q y Hq Hne Hry Hdy Hny. unfold iget_of in E. destruct (list_find (holds dev n) T) as [[p z]|] eqn:F.
    - apply list_find_Some in F as (Hp & (Hrz & Hdz & Hnz) & _). injection E as <- _. apply Hne. apply (U q p y z); congruence.
    - rewrite list_find_None, Forall_lookup in F. by apply (F q y Hq). }
  intros a b y z. rewrite !list_lookup_insert_Some. intros [(-> & <- & _)|[Ha Hy]] [(-> & <- & _)|[Hb Hz]] Hry Hrz Ed En; try done.
  - exfalso. apply (Hother b z); congruence.
  - exfalso. apply (Hother a y); congruence.
  - by apply (U a b y z).
Qed.

(** ** The code *)

Section code.
Context (i : nat) (pid dev : Z).
Implicit Types (k : kernel fsys) (V : Z -> block) (x : inode) (B : gset Z).
Abbreviation inop := (inop i pid dev).

Definition table k : list inode := fs_inode (k_files k).

Lemma wp_geti k q x (Q : inode -> kernel fsys -> Prop) :
  table k !! q = Some x -> Q x k -> wp (geti (Z.of_nat q + 1)) k Q.
Proof.
  intros Hx HQ. unfold wp, geti. rewrite (proj2 (Z.ltb_ge _ _)) by lia. rewrite Z.add_simpl_r, Nat2Z.id.
  unfold table in Hx. by rewrite Hx.
Qed.

Lemma wp_seti k q x f (Q : unit -> kernel fsys -> Prop) :
  table k !! q = Some x -> Q tt (reinode (<[q := f x]> (table k)) k) -> wp (seti (Z.of_nat q + 1) f) k Q.
Proof.
  intros Hx HQ. unfold seti. apply wp_bind, (wp_geti k q x); [done|]. apply wp_fmod. by rewrite Z.add_simpl_r, Nat2Z.id.
Qed.

(** The pointer to entry [j]. *)
Definition iptr (j : nat) : Z := Z.of_nat j + 1.

Lemma iget_scan_spec k n (Q : Z + option Z -> kernel fsys -> Prop) :
  length (table k) = NINODE ->
  Q (match list_find (holds dev n) (table k) with
     | Some (j, _) => inl (iptr j)
     | None => inr ((fun p => iptr (fst p)) <$> list_find unused (table k))
     end) k ->
  wp (iget_scan dev n) k Q.
Proof.
  intros Hlen HQ. unfold iget_scan.
  apply (wp_loop_st (fun '(ip, empty) k' => k' = k /\ exists q, ip = iptr q /\ (q <= NINODE)%nat /\
      list_find (holds dev n) (take q (table k)) = None /\ empty = (fun p => iptr (fst p)) <$> list_find unused (take q (table k)))
    (fun '(ip, _) _ => Z.to_nat (1 + Z.of_nat NINODE - ip))).
  - intros [ip empty] k' (-> & q & -> & Hq & Hno & ->). unfold iptr at 1. destruct (Z.ltb_spec (Z.of_nat q + 1) (1 + Z.of_nat NINODE)) as [Hlt|Hge].
    + destruct (lookup_lt_is_Some_2 (table k) q) as [x Hx]; [lia|]. apply wp_bind, (wp_geti k q x); [done|].
      assert (Et : take (S q) (table k) = take q (table k) ++ [x]) by (by apply take_S_r).
      assert (Hlq : length (take q (table k)) = q) by (rewrite length_take; lia).
      destruct (decide (holds dev n x)) as [Hh|Hh].
      * assert ((0 <? i_ref x) && (i_dev x =? dev) && (i_inum x =? n) = true) as ->.
        { destruct Hh as (? & ? & ?). rewrite !andb_true_iff, Z.ltb_lt, !Z.eqb_eq. done. }
        apply wp_ret. replace (list_find (holds dev n) (table k)) with (Some (q, x)) in HQ; [done|]. symmetry.
        apply list_find_Some. split_and!; [done|done|]. intros j y Hj Hlt'. rewrite list_find_None, Forall_lookup in Hno.
        apply (Hno j y). by rewrite lookup_take_lt.
      * assert ((0 <? i_ref x) && (i_dev x =? dev) && (i_inum x =? n) = false) as ->.
        { apply not_true_is_false. rewrite !andb_true_iff, Z.ltb_lt, !Z.eqb_eq. unfold holds in Hh. tauto. }
        apply wp_ret. split; [|unfold iptr; lia]. split; [done|]. exists (S q). split_and!; [unfold iptr; lia|lia| |].
        -- rewrite Et, list_find_app_r by done. cbn. by rewrite decide_False.
        -- rewrite Et. destruct (list_find unused (take q (table k))) as [[e y]|] eqn:F.
           ++ by erewrite list_find_app_l by exact F.
           ++ rewrite list_find_app_r by done. cbn. unfold unused. destruct (Z.eqb_spec (i_ref x) 0); [rewrite decide_True by done|by rewrite decide_False].
              cbn. unfold iptr. do 2 f_equal. lia.
    + assert (q = NINODE) as -> by (unfold iptr in *; lia). rewrite take_ge in * by lia. apply wp_ret. by rewrite Hno in HQ.
  - split; [done|]. exists 0%nat. split_and!; [done|lia|done|done].
  - unfold NINODE. lia.
Qed.

Definition puti (j : nat) x k : kernel fsys := reinode (<[j := x]> (table k)) k.

Lemma puti_putx j x k : puti j x k = putx (iptr j) x k.
Proof. unfold puti, putx, iptr. by rewrite Z.add_simpl_r, Nat2Z.id. Qed.

Lemma iget_spec k0 V L D B k n j x (Q : Z -> kernel fsys -> Prop) :
  inop k0 V L D B k -> length (table k0) = NINODE -> iget_of dev n (table k0) = Some (j, x) ->
  (forall k', inop (puti j x k0) V L D B k' -> Q (iptr j) k') -> wp (iget dev n) k Q.
Proof.
  intros H Hlen E HQ. pose proof (inop_inodes _ _ _ _ _ _ _ _ _ H) as Et. pose proof (inop_host _ _ _ _ _ _ _ _ _ H) as Hh.
  unfold iget. apply wp_bind, acquire_first; [apply Hh|]. apply wp_bind, iget_scan_spec; [change (length (fs_inode (k_files k)) = NINODE); by rewrite Et|].
  assert (Hend : forall f y, table k0 !! j = Some y -> f y = x ->
    wp (seti (iptr j) f >>> lock_release ItableLock >>> ret (iptr j)) (set_held [ItableLock] k) Q).
  { intros f y Hy Hf. apply wp_bind, (wp_seti _ j y); [unfold table; cbn; by rewrite Et|]. apply wp_bind, release_only; [done|].
    apply wp_ret. unfold reinode. rewrite set_held_files by apply Hh. apply HQ. rewrite Hf. unfold table. cbn. rewrite Et. by apply inop_reinode. }
  change (table (set_held [ItableLock] k)) with (fs_inode (k_files k)). rewrite Et. fold (table k0). unfold iget_of in E.
  destruct (list_find (holds dev n) (table k0)) as [[q y]|] eqn:F.
  - apply list_find_Some in F as (Hq & _ & _). injection E as -> <-. by apply (Hend _ y).
  - destruct (list_find unused (table k0)) as [[q y]|] eqn:G; [|done]. apply list_find_Some in G as (Hq & _ & _). injection E as -> <-.
    cbn [fmap option_fmap option_map fst]. by apply (Hend _ y).
Qed.

Lemma iget_full k0 V L D B k n :
  inop k0 V L D B k -> length (table k0) = NINODE -> iget_of dev n (table k0) = None ->
  wpe (iget dev n) k (fun _ _ => False) (fun e => e = "iget: no inodes"%string).
Proof.
  intros H Hlen E. pose proof (inop_inodes _ _ _ _ _ _ _ _ _ H) as Et. pose proof (inop_host _ _ _ _ _ _ _ _ _ H) as Hh.
  unfold iget. apply wpe_bind, wpe_wp, acquire_first; [apply Hh|].
  apply wpe_bind, wpe_wp, iget_scan_spec; [change (length (fs_inode (k_files k)) = NINODE); by rewrite Et|].
  change (table (set_held [ItableLock] k)) with (fs_inode (k_files k)). rewrite Et. fold (table k0). unfold iget_of in E.
  destruct (list_find (holds dev n) (table k0)) as [[q y]|]; [done|]. destruct (list_find unused (table k0)) as [[q y]|]; [done|].
  by apply wpe_panic.
Qed.

(** Changing a field of entry [j] under the table's lock. *)
Lemma table_update k0 V L D B k j y f (Q : unit -> kernel fsys -> Prop) :
  inop k0 V L D B k -> table k0 !! j = Some y -> (forall k', inop (puti j (f y) k0) V L D B k' -> Q tt k') ->
  wp (seti (iptr j) f >>> lock_release ItableLock) (set_held [ItableLock] k) Q.
Proof.
  intros H Hy HQ. pose proof (inop_inodes _ _ _ _ _ _ _ _ _ H) as Et. pose proof (inop_host _ _ _ _ _ _ _ _ _ H) as Hh.
  apply wp_bind, (wp_seti _ j y); [unfold table; cbn; by rewrite Et|]. apply release_only; [done|].
  unfold reinode. rewrite set_held_files by apply Hh. apply HQ. unfold table. cbn. rewrite Et. by apply inop_reinode.
Qed.

Lemma inode_dup_spec k0 V L D B k j y (Q : Z -> kernel fsys -> Prop) :
  inop k0 V L D B k -> table k0 !! j = Some y ->
  (forall k', inop (puti j (set_i_ref (i_ref y + 1) y) k0) V L D B k' -> Q (iptr j) k') -> wp (inode_dup (iptr j)) k Q.
Proof.
  intros H Hy HQ. unfold inode_dup. apply wp_bind, acquire_first; [apply (inop_host _ _ _ _ _ _ _ _ _ H)|].
  pose proof (inop_inodes _ _ _ _ _ _ _ _ _ H) as Et. pose proof (inop_host _ _ _ _ _ _ _ _ _ H) as Hh.
  apply wp_bind, (wp_seti _ j y); [unfold table; cbn; by rewrite Et|]. apply wp_bind, release_only; [done|]. apply wp_ret.
  unfold reinode. rewrite set_held_files by apply Hh. apply HQ. unfold table. cbn. rewrite Et. by apply inop_reinode.
Qed.
End code.

(** ** Locking an inode *)

(** The sleep lock [id] becomes [s]. *)
Definition relock (id : Z) (s : sleeplock) (k : kernel fsys) : kernel fsys :=
  set_k_files (set_fs_sl (upd (fs_sl (k_files k)) id s) (k_files k)) k.

Lemma caches_relock dev pid fs A L id s :
  Z.of_nat NBUF <= id -> caches dev pid fs A L -> caches dev pid (set_fs_sl (upd (fs_sl fs) id s) fs) A L.
Proof.
  intros Hid C. destruct C as [C1 C2 C3 C4 C5 C6 C7 C8 C9 C10 C11 C12]. split; try done.
  - intros q Hq HL. cbn. rewrite upd_ne by lia. by apply C11.
  - intros b q HL. destruct (C12 b q HL) as (Hsl & x & Hx & Hr). split; [|by exists x]. cbn. rewrite upd_ne; [done|].
    pose proof (lookup_lt_Some _ _ _ (proj1 Hx)). lia.
Qed.

Section lock.
Context (swtch : M (kernel fsys) unit) (fuel : nat) (Hfuel : can_wait fuel).
Context (rw : nat -> bool -> M (kernel fsys) unit) (Hrw : driver_ok rw).
Context (i : nat) (pid dev : Z) (sb : superblock) (start : Z) (Hly : layout sb start).
Implicit Types (k : kernel fsys) (V : Z -> block) (x : inode) (B : gset Z).
Abbreviation inop := (inop i pid dev).
Abbreviation based := (based sb start).

Lemma inop_relock k0 V L D B k k' id s :
  Z.of_nat NBUF <= id -> inop k0 V L D B k -> woke k k' -> k_files k' = set_fs_sl (upd (fs_sl (k_files k)) id s) (k_files k) ->
  inop (relock id s k0) V L D B k'.
Proof.
  intros Hid (A & bs & [H1 H2 H3 H4 H5 H6 H7 H8 H9 H10 H11]) W E. exists A, bs.
  assert (El : fs_log (k_files k') = fs_log (k_files k)) by (by rewrite E). rewrite <- El in *. split; try done.
  destruct H1 as [Hh W1 R C]. split.
  - by eapply woke_host.
  - eapply (woke_trans _ k); [by destruct W1|done].
  - rewrite E. destruct R as [R1 R2 R3 R4 R5 R6 R7 R8]. split; try done. intros id' Hid'. cbn. unfold upd. case_decide; [done|]. by apply R1.
  - rewrite E. by apply caches_relock.
Qed.

Lemma inop_lock_word k0 V L D B k id : inop k0 V L D B k -> Z.of_nat NBUF <= id -> fs_sl (k_files k) id = fs_sl (k_files k0) id.
Proof. intros (A & bs & H) Hid. by apply (sr_sl _ _ (he_rest _ _ _ _ _ _ _ (io_here _ _ _ _ _ _ _ _ _ _ _ H))). Qed.

Lemma inode_lock_big j : Z.of_nat NBUF <= INODE_LOCK (iptr j).
Proof. unfold INODE_LOCK, iptr, NBUF. lia. Qed.

(** The entry after [ilock]. *)
Definition loaded V x : inode := if i_valid x =? 0 then set_i_valid 1 (disk_inode sb V (i_inum x) x) else x.

Definition unlocked_at k (j : nat) : Prop := sl_locked (fs_sl (k_files k) (INODE_LOCK (iptr j))) = 0.
Definition lock_inode (j : nat) k : kernel fsys := relock (INODE_LOCK (iptr j)) (Sleeplock 1 pid) k.
Definition unlock_inode (j : nat) k : kernel fsys := relock (INODE_LOCK (iptr j)) (Sleeplock 0 0) k.

Lemma iptr_pos j : iptr j <> 0.
Proof. unfold iptr. lia. Qed.

Lemma inop_geti_at k0 V L D B k j x (Q : inode -> kernel fsys -> Prop) :
  inop k0 V L D B k -> table k0 !! j = Some x -> Q x k -> wp (geti (iptr j)) k Q.
Proof. intros H Hx HQ. apply (wp_geti k j x); [|done]. unfold table in *. by rewrite (inop_inodes _ _ _ _ _ _ _ _ _ H). Qed.

Lemma inop_seti_at k0 V L D B k j x f (Q : unit -> kernel fsys -> Prop) :
  inop k0 V L D B k -> table k0 !! j = Some x -> (forall k', inop (puti j (f x) k0) V L D B k' -> Q tt k') -> wp (seti (iptr j) f) k Q.
Proof.
  intros H Hx HQ. apply (wp_seti k j x); [unfold table in *; by rewrite (inop_inodes _ _ _ _ _ _ _ _ _ H)|].
  apply HQ. unfold puti, table. rewrite (inop_inodes _ _ _ _ _ _ _ _ _ H). by apply inop_reinode.
Qed.

Lemma ilock_spec k0 V B k j x (Q : unit -> kernel fsys -> Prop) :
  based k0 -> inop k0 V ∅ ∅ B k -> table k0 !! j = Some x -> 0 < i_ref x -> i_dev x = dev -> 0 <= i_inum x < sb_ninodes sb ->
  unlocked_at k0 j -> (i_valid x = 0 -> i_type (disk_inode sb V (i_inum x) x) <> 0) ->
  (forall k', inop (puti j (loaded V x) (lock_inode j k0)) V ∅ ∅ B k' -> Q tt k') ->
  wp (ilock swtch fuel rw (iptr j)) k Q.
Proof.
  intros Hk0 H Hx Hr Hdev Hn Hu Ht HQ. unfold ilock. rewrite (proj2 (Z.eqb_neq _ _)) by apply iptr_pos.
  apply wp_bind. eapply inop_geti_at; [exact H|exact Hx|]. destruct (Z.ltb_spec (i_ref x) 1); [lia|].
  pose proof (inode_lock_big j) as Hb. apply wp_bind, (acquiresleep_spec swtch fuel i pid).
  { apply (inop_host _ _ _ _ _ _ _ _ _ H). }
  { by rewrite (inop_lock_word _ _ _ _ _ _ _ H Hb). }
  { exact Hfuel. }
  set (k1 := set_k_files _ k). assert (H1 : inop (lock_inode j k0) V ∅ ∅ B k1).
  { apply (inop_relock _ _ _ _ _ k); [done|done|apply woke_files|done]. }
  apply wp_bind. eapply inop_geti_at; [exact H1|exact Hx|]. unfold loaded in HQ. destruct (i_valid x =? 0) eqn:Ev.
  - apply Z.eqb_eq in Ev. apply wp_bind, wp_fgets. rewrite (inop_sb _ _ _ _ _ _ _ _ _ H1). change (fs_sb (k_files (lock_inode j k0))) with (fs_sb (k_files k0)).
    rewrite (proj1 Hk0), Hdev. apply wp_bind.
    eapply (inop_bread swtch fuel Hfuel rw Hrw); [exact H1|apply lookup_empty|rewrite map_size_empty; lia|]. intros q k2 H2.
    apply wp_bind. eapply inop_getb; [exact H2|apply lookup_insert_eq|]. intros b ->. apply wp_bind.
    eapply (inop_seti_at _ _ _ _ _ _ j x); [exact H2|exact Hx|]. intros k3 H3. apply wp_bind.
    eapply (inop_brelse fuel Hfuel rw Hrw); [exact H3|apply lookup_insert_eq|set_solver|]. intros k4 H4.
    rewrite delete_insert_id in H4 by apply lookup_empty. fold (disk_inode sb V (i_inum x) x) in H4.
    assert (Hj : (j < length (table (lock_inode j k0)))%nat) by (change (j < length (table k0))%nat; by eapply lookup_lt_Some).
    apply wp_bind. eapply (inop_seti_at _ _ _ _ _ _ j (disk_inode sb V (i_inum x) x)); [exact H4|by apply list_lookup_insert_eq|]. intros k5 H5.
    apply wp_bind. eapply (inop_geti_at _ _ _ _ _ _ j); [exact H5|cbn; rewrite list_insert_insert_eq; by apply list_lookup_insert_eq|].
    cbn [i_type set_i_valid]. rewrite (proj2 (Z.eqb_neq _ _)) by (by apply Ht). apply wp_ret, HQ.
    unfold puti, reinode, table in H5 |- *. cbn in H5 |- *. by rewrite list_insert_insert_eq in H5.
  - apply wp_ret, HQ. unfold puti. rewrite list_insert_id by done. by destruct k0 as [? ? ? ? ? ? []].
Qed.

Lemma iunlock_spec k0 V L D B k j x (Q : unit -> kernel fsys -> Prop) :
  inop k0 V L D B k -> table k0 !! j = Some x -> 0 < i_ref x -> fs_sl (k_files k0) (INODE_LOCK (iptr j)) = Sleeplock 1 pid ->
  (forall k', inop (unlock_inode j k0) V L D B k' -> Q tt k') -> wp (iunlock (iptr j)) k Q.
Proof.
  intros H Hx Hr Hl HQ. unfold iunlock. rewrite (proj2 (Z.eqb_neq _ _)) by apply iptr_pos. pose proof (inode_lock_big j) as Hb.
  pose proof (inop_host _ _ _ _ _ _ _ _ _ H) as Hh. apply wp_bind, (holdingsleep_spec i pid); [done|].
  rewrite (inop_lock_word _ _ _ _ _ _ _ H Hb), Hl. cbn [sl_locked sl_pid Z.eqb negb andb]. rewrite Z.eqb_refl. cbn [negb].
  apply wp_bind. eapply inop_geti_at; [exact H|exact Hx|]. destruct (Z.ltb_spec (i_ref x) 1); [lia|].
  apply (releasesleep_spec i pid); [done|]. intros k' W E. apply HQ. by eapply inop_relock.
Qed.

(** [iput] that does not free the inode. *)
Lemma inode_put_spec k0 V L D B k j x (Q : unit -> kernel fsys -> Prop) :
  inop k0 V L D B k -> table k0 !! j = Some x -> i_ref x <> 1 \/ i_valid x = 0 \/ i_nlink x <> 0 ->
  (forall k', inop (puti j (set_i_ref (i_ref x - 1) x) k0) V L D B k' -> Q tt k') -> wp (inode_put swtch fuel rw (iptr j)) k Q.
Proof.
  intros H Hx Hkeep HQ. unfold inode_put. apply wp_bind, acquire_first; [apply (inop_host _ _ _ _ _ _ _ _ _ H)|].
  apply wp_bind, (wp_geti _ j x); [unfold table in *; cbn; by rewrite (inop_inodes _ _ _ _ _ _ _ _ _ H)|].
  assert ((i_ref x =? 1) && negb (i_valid x =? 0) && (i_nlink x =? 0) = false) as ->.
  { apply not_true_is_false. rewrite !andb_true_iff, negb_true_iff, !Z.eqb_eq, Z.eqb_neq. tauto. }
  apply wp_bind, wp_ret. by eapply table_update.
Qed.
End lock.
