(* ===== verification/FsDir.v ===== *)
(** Directories: dirlookup and dirlink of fs.c.

    A directory is the list of the 16-byte entries of its contents.  The
    lookup finds the first entry in use with the name, and the link writes an
    entry in the first free place. *)

From S2P Require Import Prelude.
From S2P Require Import Spinlock.
From S2P Require Import Riscv.
From S2P Require Import Kalloc.
From S2P Require Import Proc.
From S2P Require Import FsState.
From S2P Require Import Bio.
From S2P Require Import BioSpec.
From S2P Require Import Log.
From S2P Require Import LogSpec.
From S2P Require Import LogTheorems.
From S2P Require Import Fs.
From S2P Require Import FsOp.
From S2P Require Import FsBitmap.
From S2P Require Import FsAlloc.
From S2P Require Import FsInode.
From S2P Require Import FsGrow.
From S2P Require Import FsWritei.
From S2P Require Import FsWrite.
From S2P Require Import FsTable.

(** ** Names *)

(** [namecmp] compares the names as [strncpy] stores them. *)
Lemma strncmp_strncpy n : forall p q, strncmp_n n p q = 0 <-> strncpy_n n p = strncpy_n n q.
Proof.
  induction n as [|n IH]; intros p q; [done|]. cbn [strncmp_n strncpy_n].
  destruct (Z.eqb_spec (hd 0 p) 0) as [Ep|Ep]; cbn [negb andb].
  - rewrite Ep. destruct (Z.eqb_spec (hd 0 q) 0) as [Eq|Eq]; [rewrite Eq; done|]. cbn [replicate].
    split; [lia|intros [=]; lia].
  - destruct (Z.eqb_spec (hd 0 p) (hd 0 q)) as [E|E].
    + rewrite <- E. rewrite (proj2 (Z.eqb_neq _ _)) by done. rewrite IH. split; [by intros ->|by intros [=]].
    + split; [lia|]. destruct (Z.eqb_spec (hd 0 q) 0); cbn [replicate]; intros [=]; lia.
Qed.

Lemma strncpy_length n : forall t, length (strncpy_n n t) = n.
Proof. induction n as [|n IH]; intros t; [done|]. cbn [strncpy_n]. case_if; [by rewrite length_replicate|cbn; by rewrite IH]. Qed.

Lemma strncpy_zeros n : strncpy_n n (replicate n 0) = replicate n 0.
Proof. by destruct n. Qed.

Lemma strncpy_idem n : forall t, strncpy_n n (strncpy_n n t) = strncpy_n n t.
Proof.
  induction n as [|n IH]; intros t; [done|]. cbn [strncpy_n]. destruct (Z.eqb_spec (hd 0 t) 0) as [E|E]; [done|].
  cbn [hd tl]. rewrite (proj2 (Z.eqb_neq _ _)) by done. by rewrite IH.
Qed.

(** ** The entries *)

Definition dirent_at (d : list Z) (e : nat) : list Z := slice d (e * DIRENT) DIRENT.
Definition dirents (d : list Z) : list (list Z) := map (dirent_at d) (seq 0 (length d / DIRENT)).

(** The entry is in use under [name]. *)
Definition named (name de : list Z) : Prop := de_inum de <> 0 /\ strncpy_n DIRSIZ name = strncpy_n DIRSIZ (de_name de).
#[export] Instance named_dec name de : Decision (named name de).
Proof. apply _. Defined.

Definition empty_entry (de : list Z) : Prop := de_inum de = 0.
#[export] Instance empty_entry_dec de : Decision (empty_entry de).
Proof. apply _. Defined.

(** The position and the inode number that a directory gives for a name. *)
Definition dir_find (name d : list Z) : option (nat * Z) :=
  match list_find (named name) (dirents d) with Some (e, de) => Some (e, de_inum de) | None => None end.

(** Where the next entry goes. *)
Definition dir_free (d : list Z) : nat :=
  match list_find empty_entry (dirents d) with Some (e, _) => e | None => length (dirents d) end.

Lemma dirents_lookup d e : (e < length d / DIRENT)%nat -> dirents d !! e = Some (dirent_at d e).
Proof. intros He. unfold dirents. by rewrite list_lookup_fmap, lookup_seq_lt. Qed.

Lemma dirents_length d : length (dirents d) = (length d / DIRENT)%nat.
Proof. unfold dirents. by rewrite length_map, length_seq. Qed.

Lemma dirents_elem d e de : dirents d !! e = Some de -> (e < length d / DIRENT)%nat /\ de = dirent_at d e.
Proof.
  intros H. pose proof (lookup_lt_Some _ _ _ H) as Hl. rewrite dirents_length in Hl. split; [done|].
  rewrite dirents_lookup in H by done. by injection H.
Qed.

Lemma slice_splice d o bs : (o <= length d)%nat -> slice (splice d o bs) o (length bs) = bs.
Proof.
  intros Ho. unfold slice, splice. rewrite drop_app_length' by (rewrite length_take; lia). by rewrite take_app_length.
Qed.

Lemma slice_splice_before d o bs o' m : (o <= length d)%nat -> (o' + m <= o)%nat -> slice (splice d o bs) o' m = slice d o' m.
Proof.
  intros Ho Hm. apply list_eq. intros q. unfold slice, splice. destruct (decide (q < m)%nat).
  - rewrite !lookup_take_lt, !lookup_drop by lia. rewrite lookup_app_l by (rewrite length_take; lia). by rewrite lookup_take_lt by lia.
  - by rewrite !lookup_take_ge by lia.
Qed.

Lemma slice_splice_after d o bs o' m : (o + length bs <= o')%nat -> (o <= length d)%nat -> slice (splice d o bs) o' m = slice d o' m.
Proof.
  intros Ho Hd. unfold slice, splice. f_equal. rewrite drop_app_ge by (rewrite length_take; lia).
  rewrite drop_app_ge by (rewrite length_take; lia). rewrite length_take, drop_drop. f_equal. lia.
Qed.

Lemma splice_size d o bs : (o <= length d)%nat -> length (splice d o bs) = Nat.max (length d) (o + length bs).
Proof. intros Ho. unfold splice. rewrite !length_app, length_take, length_drop. lia. Qed.

(** A directory's contents are whole entries. *)
Definition whole (d : list Z) : Prop := (length d mod DIRENT = 0)%nat.

Lemma whole_length d : whole d -> length d = (length (dirents d) * DIRENT)%nat.
Proof. intros H. rewrite dirents_length. pose proof (Nat.div_mod (length d) DIRENT ltac:(done)) as E. unfold whole in H. lia. Qed.

Lemma dirent_length d e : (e < length (dirents d))%nat -> whole d -> length (dirent_at d e) = DIRENT.
Proof.
  intros He Hw. pose proof (whole_length d Hw). unfold dirent_at, slice. rewrite length_take, length_drop. nia.
Qed.

Section entries.
Context (d : list Z) (Hw : whole d) (e : nat) (He : (e <= length (dirents d))%nat) (de : list Z) (Hde : length de = DIRENT).

Lemma link_length : length (splice d (e * DIRENT) de) = (Nat.max (length (dirents d)) (S e) * DIRENT)%nat.
Proof. pose proof (whole_length d Hw). rewrite splice_size by nia. nia. Qed.

Lemma link_whole : whole (splice d (e * DIRENT) de).
Proof. unfold whole. rewrite link_length. apply Nat.Div0.mod_mul. Qed.

Lemma link_dirents q :
  dirents (splice d (e * DIRENT) de) !! q = if decide (q = e) then Some de else dirents d !! q.
Proof.
  pose proof (whole_length d Hw) as Hl. pose proof link_length as Hl'.
  assert (Hn : (length (splice d (e * DIRENT) de) / DIRENT = Nat.max (length (dirents d)) (S e))%nat) by (rewrite Hl'; by apply Nat.div_mul).
  case_decide as Eq.
  - subst q. rewrite dirents_lookup by lia. f_equal. unfold dirent_at.
    pose proof (slice_splice d (e * DIRENT) de) as E. rewrite Hde in E. apply E. nia.
  - destruct (decide (q < length (dirents d))%nat) as [Hq|Hq].
    + rewrite !dirents_lookup by (rewrite ?dirents_length in *; lia). f_equal. unfold dirent_at.
      destruct (decide (q < e)%nat); [apply slice_splice_before; nia|apply slice_splice_after; nia].
    + rewrite !lookup_ge_None_2; [done|lia|rewrite dirents_length; lia].
Qed.
End entries.

(** ** Looking up and linking *)

(** The new entry is found under its name, and the other names keep theirs. *)
Lemma new_dirent_length name n : length (new_dirent name n) = DIRENT.
Proof. unfold new_dirent, put16. by rewrite !length_insert, length_app, strncpy_length. Qed.

Lemma new_dirent_inum name n : de_inum (new_dirent name n) = u16 n.
Proof. unfold de_inum, new_dirent. apply get16_put16. rewrite length_app. cbn. lia. Qed.

Lemma new_dirent_name name n : de_name (new_dirent name n) = strncpy_n DIRSIZ name.
Proof. done. Qed.

Lemma new_dirent_named name n : u16 n <> 0 -> named name (new_dirent name n).
Proof. intros Hn. split; [by rewrite new_dirent_inum|]. rewrite new_dirent_name. symmetry. apply strncpy_idem. Qed.

Section link.
Context (d : list Z) (Hw : whole d) (name : list Z) (n : Z) (Hn : u16 n <> 0).
Abbreviation d' := (splice d (dir_free d * DIRENT) (new_dirent name n)).

Lemma dir_free_le : (dir_free d <= length (dirents d))%nat.
Proof.
  unfold dir_free. destruct (list_find empty_entry (dirents d)) as [[e de]|] eqn:E; [|done].
  apply list_find_Some in E as (E & _). apply lookup_lt_Some in E. lia.
Qed.

Lemma dir_free_unnamed other de : dirents d !! dir_free d = Some de -> ~ named other de.
Proof.
  unfold dir_free. destruct (list_find empty_entry (dirents d)) as [[e x]|] eqn:E.
  - apply list_find_Some in E as (E & Hx & _). rewrite E. intros [= <-] [H _]. by apply H.
  - intros H. apply lookup_lt_Some in H. lia.
Qed.

Lemma linked_lookup q : dirents d' !! q = if decide (q = dir_free d) then Some (new_dirent name n) else dirents d !! q.
Proof. apply link_dirents; [done|apply dir_free_le|apply new_dirent_length]. Qed.

Lemma dir_find_new : dir_find name d = None -> dir_find name d' = Some (dir_free d, u16 n).
Proof.
  unfold dir_find at 1. destruct (list_find (named name) (dirents d)) as [[]|] eqn:E; [done|]. intros _.
  apply list_find_None in E. rewrite Forall_lookup in E.
  unfold dir_find. rewrite (proj2 (list_find_Some (named name) (dirents d') (dir_free d) (new_dirent name n))).
  - by rewrite new_dirent_inum.
  - split_and!; [by rewrite linked_lookup, decide_True|by apply new_dirent_named|]. intros q y Hq Hlt.
    rewrite linked_lookup, (decide_False (P := q = dir_free d)) in Hq by lia. by apply (E q).
Qed.

Lemma dir_find_other other : strncpy_n DIRSIZ other <> strncpy_n DIRSIZ name -> dir_find other d' = dir_find other d.
Proof.
  intros Ho. assert (Hnot : ~ named other (new_dirent name n)).
  { intros [_ H]. rewrite new_dirent_name, strncpy_idem in H. done. }
  unfold dir_find. destruct (list_find (named other) (dirents d)) as [[e de]|] eqn:E.
  - apply list_find_Some in E as (He & Hde & Hlt).
    assert (e <> dir_free d) by (intros ->; by eapply dir_free_unnamed).
    rewrite (proj2 (list_find_Some (named other) (dirents d') e de)); [done|]. split_and!; [by rewrite linked_lookup, decide_False|done|].
    intros q y Hq Hqe. rewrite linked_lookup in Hq. case_decide; [by injection Hq as <-|by apply (Hlt q)].
  - apply list_find_None in E. rewrite Forall_lookup in E. rewrite (proj2 (list_find_None (named other) (dirents d'))); [done|].
    apply Forall_lookup. intros q y Hq. rewrite linked_lookup in Hq. case_decide; [by injection Hq as <-|by apply (E q)].
Qed.
End link.

Section code.
Context `{HLS : LinkerSyms} (swtch : M (kernel fsys) unit) (fuel : nat) (Hfuel : can_wait fuel).
Context (rw : nat -> bool -> M (kernel fsys) unit) (Hrw : driver_ok rw).
Context (i : nat) (pid dev : Z) (sb : superblock) (start : Z) (Hly : layout sb start).
Implicit Types (k : kernel fsys) (V : Z -> block) (x : inode) (B : gset Z).
Abbreviation inop := (inop i pid dev).
Abbreviation based := (based sb start).
Abbreviation inode_ok := (inode_ok dev sb).

(** [x] is a directory. *)
Definition is_dir V x : Prop := i_type x = T_DIR /\ whole (content V x).

Lemma dir_size V x : inode_ok V x -> is_dir V x -> i_size x = Z.of_nat (length (dirents (content V x)) * DIRENT).
Proof.
  intros Hok [_ Hw]. rewrite <- (whole_length _ Hw), content_length. pose proof (in_size _ _ _ _ Hok). lia.
Qed.

Lemma read_dirent_spec k0 V B k ip x e (Q : option (list Z) -> kernel fsys -> Prop) :
  inop k0 V ∅ ∅ B k -> entry k0 ip x -> disk_ok sb V -> inode_ok V x -> is_dir V x -> (e < length (dirents (content V x)))%nat ->
  (forall k', inop k0 V ∅ ∅ B k' -> Q (Some (dirent_at (content V x) e)) k') ->
  wp (read_dirent swtch fuel rw ip (Z.of_nat (e * DIRENT))) k Q.
Proof.
  intros H Hx Hd Hok Hdir He HQ. pose proof (dir_size _ _ Hok Hdir) as Hs. pose proof (in_size _ _ _ _ Hok). pose proof max_bytes.
  assert (DIRENT = 16%nat) as E16 by done. unfold read_dirent. apply wp_bind.
  eapply (readi_local swtch fuel Hfuel rw Hrw); [exact Hly|exact H|exact Hx|done|done|lia|lia|lia|].
  cbn zeta. intros k' H'. rewrite Z.min_l by lia. rewrite Z.eqb_refl. apply wp_ret. rewrite !Nat2Z.id. by apply HQ.
Qed.

Lemma dirlookup_spec k0 V B k ip x name (Q : option (Z * Z) -> kernel fsys -> Prop) :
  inop k0 V ∅ ∅ B k -> entry k0 ip x -> disk_ok sb V -> inode_ok V x -> is_dir V x -> length (table k0) = NINODE ->
  match dir_find name (content V x) with
  | None => forall k', inop k0 V ∅ ∅ B k' -> Q None k'
  | Some (e, n) => exists j y, iget_of dev n (table k0) = Some (j, y) /\
      forall k', inop (puti j y k0) V ∅ ∅ B k' -> Q (Some (iptr j, Z.of_nat (e * DIRENT))) k'
  end ->
  wp (dirlookup swtch fuel rw ip name) k Q.
Proof.
  intros H Hx Hd Hok Hdir Hlen HQ. pose proof (dir_size _ _ Hok Hdir) as Hs. pose proof (in_size _ _ _ _ Hok) as Hsz. pose proof max_bytes.
  assert (DIRENT = 16%nat) as E16 by done. set (d := content V x) in *. set (N := length (dirents d)) in *.
  unfold dirlookup. apply wp_bind. eapply inop_geti; [exact H|exact Hx|]. rewrite (proj1 Hdir). cbn [negb Z.eqb T_DIR].
  apply (wp_loop (fun off k => exists e, off = Z.of_nat (e * DIRENT) /\ (e <= N)%nat /\ inop k0 V ∅ ∅ B k /\
    forall q de, (q < e)%nat -> dirents d !! q = Some de -> ~ named name de) (fun off => Z.to_nat (i_size x - off)));
    [|exists 0%nat; split_and!; [done|lia|done|lia]|lia].
  intros off k1 (e & -> & He & H1 & Hbefore). apply wp_bind. eapply inop_geti; [exact H1|exact Hx|].
  destruct (Z.ltb_spec (Z.of_nat (e * DIRENT)) (i_size x)) as [Hlt|Hge].
  - assert (Hne : (e < N)%nat) by nia. apply wp_bind. eapply read_dirent_spec; [exact H1|done..|]. intros k2 H2. fold d.
    assert (Ede : dirents d !! e = Some (dirent_at d e)) by (apply dirents_lookup; by rewrite <- dirents_length).
    assert (Hnext : ~ named name (dirent_at d e) -> wp (ret (inl (u32 (Z.of_nat (e * DIRENT) + Z.of_nat DIRENT)))) k2 (fun r s' =>
      match r with inl x' => (exists e, x' = Z.of_nat (e * DIRENT) /\ (e <= N)%nat /\ inop k0 V ∅ ∅ B s' /\
        forall q de, (q < e)%nat -> dirents d !! q = Some de -> ~ named name de) /\
        (Z.to_nat (i_size x - x') < Z.to_nat (i_size x - Z.of_nat (e * DIRENT)))%nat | inr v => Q v s' end)).
    { intros Hno. apply wp_ret. rewrite u32_id by lia. split; [|lia]. exists (S e). split_and!; [lia|lia|done|].
      intros q de Hq Hqd. destruct (decide (q = e)) as [->|]; [rewrite Ede in Hqd; by injection Hqd as <-|]. by apply (Hbefore q); [lia|]. }
    destruct (Z.eqb_spec (de_inum (dirent_at d e)) 0) as [Ez|Ez]; [apply Hnext; by intros [? _]|].
    destruct (Z.eqb_spec (namecmp name (de_name (dirent_at d e))) 0) as [En|En].
    + unfold dir_find in HQ. rewrite (proj2 (list_find_Some (named name) (dirents d) e (dirent_at d e))) in HQ.
      * destruct HQ as (j & y & Ej & HQ). rewrite (in_dev _ _ _ _ Hok). apply wp_bind.
        eapply iget_spec; [exact H2|done|exact Ej|]. intros k3 H3. by apply wp_ret, HQ.
      * split_and!; [done|split; [done|by apply strncmp_strncpy]|]. intros q y Hq Hlt'. by apply (Hbefore q).
    + apply Hnext. intros [_ E]. by apply En, strncmp_strncpy.
  - apply wp_ret. assert (e = N) as -> by nia. unfold dir_find in HQ.
    rewrite (proj2 (list_find_None (named name) (dirents d))) in HQ; [by apply HQ|].
    apply Forall_lookup. intros q y Hq. by apply (Hbefore q); [apply lookup_lt_Some in Hq|].
Qed.

Lemma find_empty_spec k0 V B k ip x (Q : Z -> kernel fsys -> Prop) :
  inop k0 V ∅ ∅ B k -> entry k0 ip x -> disk_ok sb V -> inode_ok V x -> is_dir V x ->
  (forall k', inop k0 V ∅ ∅ B k' -> Q (Z.of_nat (dir_free (content V x) * DIRENT)) k') ->
  wp (find_empty swtch fuel rw ip) k Q.
Proof.
  intros H Hx Hd Hok Hdir HQ. pose proof (dir_size _ _ Hok Hdir) as Hs. pose proof (in_size _ _ _ _ Hok) as Hsz. pose proof max_bytes.
  assert (DIRENT = 16%nat) as E16 by done. set (d := content V x) in *. set (N := length (dirents d)) in *.
  unfold find_empty. apply wp_bind. eapply inop_geti; [exact H|exact Hx|].
  apply (wp_loop (fun off k => exists e, off = Z.of_nat (e * DIRENT) /\ (e <= N)%nat /\ inop k0 V ∅ ∅ B k /\
    forall q de, (q < e)%nat -> dirents d !! q = Some de -> ~ empty_entry de) (fun off => Z.to_nat (i_size x - off)));
    [|exists 0%nat; split_and!; [done|lia|done|lia]|lia].
  intros off k1 (e & -> & He & H1 & Hbefore). apply wp_bind. eapply inop_geti; [exact H1|exact Hx|]. rewrite u32_id by nia.
  destruct (Z.ltb_spec (Z.of_nat (e * DIRENT)) (i_size x)) as [Hlt|Hge].
  - assert (Hne : (e < N)%nat) by nia. apply wp_bind. eapply read_dirent_spec; [exact H1|done..|]. intros k2 H2. fold d.
    assert (Ede : dirents d !! e = Some (dirent_at d e)) by (apply dirents_lookup; by rewrite <- dirents_length).
    destruct (Z.eqb_spec (de_inum (dirent_at d e)) 0) as [Ez|Ez]; apply wp_ret.
    + unfold dir_free in HQ. rewrite (proj2 (list_find_Some empty_entry (dirents d) e (dirent_at d e))) in HQ; [by apply HQ|].
      split_and!; [done|done|]. intros q y Hq Hlt'. by apply (Hbefore q).
    + rewrite i32_id by lia. split; [|lia]. exists (S e). split_and!; [lia|lia|done|].
      intros q de Hq Hqd. destruct (decide (q = e)) as [->|]; [rewrite Ede in Hqd; by injection Hqd as <-|]. by apply (Hbefore q); [lia|].
  - apply wp_ret. assert (e = N) as -> by nia. unfold dir_free in HQ.
    rewrite (proj2 (list_find_None empty_entry (dirents d))) in HQ; [by apply HQ|].
    apply Forall_lookup. intros q y Hq. by apply (Hbefore q); [apply lookup_lt_Some in Hq|].
Qed.

Lemma iget_of_kept n T j y : iget_of dev n T = Some (j, y) -> i_ref y <> 1 \/ i_valid y = 0 \/ i_nlink y <> 0.
Proof.
  unfold iget_of. destruct (list_find (holds dev n) T) as [[q z]|] eqn:E.
  - apply list_find_Some in E as (_ & (Hr & _) & _). intros [= <- <-]. left. cbn. lia.
  - destruct (list_find unused T) as [[q z]|]; [|done]. intros [= <- <-]. by right; left.
Qed.

(** A name that is there already: nothing is written. *)
Lemma dirlink_exists k0 V B k ip x name inum e n j y (Q : Z -> kernel fsys -> Prop) :
  inop k0 V ∅ ∅ B k -> entry k0 ip x -> disk_ok sb V -> inode_ok V x -> is_dir V x -> length (table k0) = NINODE ->
  dir_find name (content V x) = Some (e, n) -> iget_of dev n (table k0) = Some (j, y) ->
  (forall k', inop (puti j (set_i_ref (i_ref y - 1) y) k0) V ∅ ∅ B k' -> Q (-1) k') ->
  wp (dirlink swtch fuel rw ip name inum) k Q.
Proof.
  intros H Hx Hd Hok Hdir Hlen Hf Hj HQ. unfold dirlink. apply wp_bind. eapply dirlookup_spec; [exact H|done..|]. rewrite Hf.
  exists j, y. split; [done|]. intros k1 H1. destruct (iget_of_holds _ _ _ _ _ Hj) as [_ Hl]. apply wp_bind.
  eapply (inode_put_spec swtch fuel rw); [exact H1|by apply list_lookup_insert_eq|by eapply iget_of_kept|].
  intros k2 H2. apply wp_ret, HQ. unfold puti, reinode, table in H2 |- *. cbn in H2 |- *. by rewrite list_insert_insert_eq in H2.
Qed.

Lemma spans_dirent e : spans (e * DIRENT) DIRENT = 1%nat.
Proof.
  assert (EB : BSIZE = 1024%nat) by done. unfold spans. change DIRENT with 16%nat. rewrite (proj2 (Nat.eqb_neq 16 0)) by done. f_equal.
  pose proof (Nat.div_mod (e * 16) BSIZE ltac:(done)) as E. pose proof (Nat.mod_upper_bound (e * 16) BSIZE ltac:(done)).
  rewrite <- (Nat.div_unique (e * 16 + 16 - 1) BSIZE (e * 16 / BSIZE) ((e * 16) mod BSIZE + 15)); lia.
Qed.

(** A new name: the entry is written in the first free place. *)
Lemma dirlink_spec k0 V B k ip x name inum (Q : Z -> kernel fsys -> Prop) :
  inop k0 V ∅ ∅ B k -> based k0 -> entry k0 ip x -> disk_ok sb V -> inode_ok V x -> is_dir V x -> length (table k0) = NINODE ->
  dir_find name (content V x) = None -> let off := (dir_free (content V x) * DIRENT)%nat in
  (off + DIRENT <= MAXFILE * BSIZE)%nat -> allows sb B V x (wanted x) -> covers B V x off DIRENT -> IBLOCK (i_inum x) sb ∈ B ->
  (forall V' x' k0' k', updates_file dev sb V x V' x' off (new_dirent name inum) -> k_files k0' = k_files (putx ip x' k0) ->
    inop k0' V' ∅ ∅ B k' -> Q 0 k') ->
  wp (dirlink swtch fuel rw ip name inum) k Q.
Proof.
  intros H Hk0 Hx Hd Hok Hdir Hlen Hf off Hmax Hall Hcov HB HQ. unfold dirlink. apply wp_bind.
  eapply dirlookup_spec; [exact H|done..|]. rewrite Hf. intros k1 H1. apply wp_bind. eapply find_empty_spec; [exact H1|done..|].
  intros k2 H2. fold off. pose proof (new_dirent_length name inum) as El. pose proof (dir_size _ _ Hok Hdir) as Hs.
  pose proof (dir_free_le (content V x)). pose proof (in_size _ _ _ _ Hok). pose proof max_bytes.
  assert (Ho : (off <= Z.to_nat (i_size x))%nat) by (rewrite Hs, Nat2Z.id; unfold off; nia).
  rewrite u32_id by lia. apply wp_bind. rewrite <- El.
  eapply (writei_spec swtch fuel Hfuel rw Hrw i pid dev sb start Hly) with (J := fun bs src _ => src = LocalSrc bs) (bs := new_dirent name inum);
    [by apply local_source|done|done|done|exact H2|exact Hx|done|done|by rewrite El| |by rewrite El|done|].
  - rewrite El. unfold off. by rewrite spans_dirent.
  - intros V' x' k0' k' Hu _ Hf' H'. rewrite Z.eqb_refl. apply wp_ret. by eapply HQ.
Qed.
End code.
