(* ===== verification/FsTree.v ===== *)
(** Paths: skipelem of fs.c.

    A path is the list of its elements; [skipelem] takes them off one by one,
    cut to [DIRSIZ] bytes. *)

From S2P Require Import Prelude.
From S2P Require Import Spinlock.
From S2P Require Import Riscv.
From S2P Require Import Kalloc.
From S2P Require Import Proc.
From S2P Require Import FsState.
From S2P Require Import Bio.
From S2P Require Import BioSpec.
From S2P Require Import Log.
From S2P Require Import LogSpec.
From S2P Require Import LogTheorems.
From S2P Require Import Fs.
From S2P Require Import FsOp.
From S2P Require Import FsBitmap.
From S2P Require Import FsAlloc.
From S2P Require Import FsInode.
From S2P Require Import FsGrow.
From S2P Require Import FsWrite.
From S2P Require Import FsWritei.
From S2P Require Import FsTable.
From S2P Require Import FsDir.

(** ** The elements of a path *)

(** The elements between the slashes. *)
Fixpoint split_path (cur path : list Z) : list (list Z) :=
  match path with
  | [] => [cur]
  | c :: path' => if c =? SLASH then cur :: split_path [] path' else split_path (cur ++ [c]) path'
  end.

Definition elements (path : list Z) : list (list Z) := filter (fun e => e <> []) (split_path [] path).

(** A C string holds no NUL. *)
Definition no_nul (path : list Z) : Prop := Forall (fun c => c <> 0) path.

Lemma elements_slash path : elements (SLASH :: path) = elements path.
Proof. done. Qed.

Lemma elements_skip path : elements (skip_slashes path) = elements path.
Proof. induction path as [|c path IH]; [done|]. cbn [skip_slashes]. destruct (Z.eqb_spec c SLASH) as [->|]; [by rewrite IH|done]. Qed.

Lemma skip_head path : hd 0 (skip_slashes path) <> SLASH.
Proof. induction path as [|c path IH]; [done|]. cbn [skip_slashes]. by destruct (Z.eqb_spec c SLASH). Qed.

Lemma skip_length path : (length (skip_slashes path) <= length path)%nat.
Proof. induction path as [|c path IH]; [done|]. cbn [skip_slashes]. destruct (c =? SLASH); cbn; lia. Qed.

Lemma skip_no_nul path : no_nul path -> no_nul (skip_slashes path).
Proof. induction 1 as [|c path Hc Hp IH]; [constructor|]. cbn [skip_slashes]. destruct (c =? SLASH); [done|by constructor]. Qed.

Lemma split_elem path : forall cur e rest, no_nul path -> elem_split path = (e, rest) ->
  path = e ++ rest /\ (rest = [] \/ hd 0 rest = SLASH) /\ split_path cur path = split_path (cur ++ e) rest.
Proof.
  induction path as [|c path IH]; intros cur e rest Hn E; cbn [elem_split] in E.
  - injection E as <- <-. rewrite !app_nil_r. auto.
  - inversion Hn; subst. destruct (Z.eqb_spec c SLASH) as [->|Hc]; cbn [negb andb] in E.
    + injection E as <- <-. rewrite !app_nil_r. auto.
    + rewrite (proj2 (Z.eqb_neq c 0)) in E by done. cbn [negb] in E. destruct (elem_split path) as [e' r] eqn:Es. injection E as <- <-.
      cbn [split_path]. rewrite (proj2 (Z.eqb_neq c SLASH)) by done. destruct (IH (cur ++ [c]) e' r) as (-> & Hr & ->); [done|done|].
      split; [done|]. split; [done|]. by rewrite <- app_assoc.
Qed.

Lemma elem_nonempty path e rest : no_nul path -> path <> [] -> hd 0 path <> SLASH -> elem_split path = (e, rest) -> e <> [].
Proof.
  destruct path as [|c path]; [done|]. intros Hn _ Hs E. inversion Hn; subst. cbn [elem_split hd] in *.
  rewrite (proj2 (Z.eqb_neq c SLASH)), (proj2 (Z.eqb_neq c 0)) in E by done. cbn in E. destruct (elem_split path). by injection E as <- _.
Qed.

Lemma elements_cons e rest : e <> [] -> rest = [] \/ hd 0 rest = SLASH -> filter (fun e => e <> []) (split_path e rest) = e :: elements rest.
Proof.
  intros He [->|Hr]; [cbn; by rewrite decide_True|]. destruct rest as [|c rest]; [done|]. cbn in Hr. subst c. rewrite elements_slash.
  cbn [split_path]. rewrite Z.eqb_refl. by rewrite filter_cons_True.
Qed.

(** ** skipelem *)

(** The array read back gives the element cut to [DIRSIZ]. *)
Lemma strncpy_end n : forall s t, no_nul s -> strncpy_n n (s ++ 0 :: t) = strncpy_n n s.
Proof.
  induction n as [|n IH]; intros s t Hs; [done|]. destruct s as [|c s]; [done|]. inversion Hs; subst.
  cbn [strncpy_n app hd tl]. by rewrite IH.
Qed.

Lemma strncpy_take n : forall s t, no_nul s -> (n <= length s)%nat -> strncpy_n n (take n s ++ t) = strncpy_n n s.
Proof.
  induction n as [|n IH]; intros s t Hs Hl; [done|]. destruct s as [|c s]; [cbn in Hl; lia|]. inversion Hs; subst.
  cbn [strncpy_n take app hd tl]. rewrite IH; [done|done|cbn in Hl; lia].
Qed.

Lemma skipelem_none path name : no_nul path -> elements path = [] <-> skipelem path name = None.
Proof.
  intros Hn. unfold skipelem. rewrite <- elements_skip. pose proof (skip_head path) as Hh. pose proof (skip_no_nul _ Hn) as Hn'.
  set (p := skip_slashes path) in *. destruct (Z.eqb_spec (hd 0 p) 0) as [E|E].
  - destruct p as [|c p]; [done|]. cbn in E. inversion Hn'; subst. done.
  - destruct (elem_split p) as [e rest] eqn:Es. split; [|done]. intros Ee. assert (Hp : p <> []) by (by intros ->).
    pose proof (elem_nonempty _ _ _ Hn' Hp Hh Es) as Hne. destruct (split_elem p [] e rest Hn' Es) as (_ & Hr & Hs).
    unfold elements in Ee. rewrite Hs in Ee. cbn [app] in Ee. by rewrite elements_cons in Ee.
Qed.

Lemma skipelem_some path name rest name' : no_nul path -> skipelem path name = Some (rest, name') ->
  exists e, elements path = e :: elements rest /\ strncpy_n DIRSIZ name' = strncpy_n DIRSIZ e /\ no_nul rest /\
    (hd 0 rest = 0 <-> elements rest = []) /\ (length rest < length path)%nat.
Proof.
  intros Hn. unfold skipelem. rewrite <- (elements_skip path). pose proof (skip_head path) as Hh. pose proof (skip_no_nul _ Hn) as Hn'.
  pose proof (skip_length path) as Hl. set (p := skip_slashes path) in *. destruct (Z.eqb_spec (hd 0 p) 0) as [|E]; [done|].
  destruct (elem_split p) as [e r] eqn:Es. intros Eq.
  apply Some_inj, pair_eq in Eq as [<- <-]. assert (Hp : p <> []) by (by intros ->).
  pose proof (elem_nonempty _ _ _ Hn' Hp Hh Es) as Hne. destruct (split_elem p [] e r Hn' Es) as (Ep & Hr & Hs).
  assert (He : no_nul e /\ no_nul r) by (apply Forall_app; by rewrite <- Ep). destruct He as [He Hnr].
  pose proof (skip_no_nul _ Hnr) as Hnr'. exists e. rewrite elements_skip. split_and!.
  - unfold elements. rewrite Hs. cbn [app]. by rewrite elements_cons.
  - destruct (Nat.leb_spec DIRSIZ (length e)); unfold splice; rewrite take_0, app_nil_l.
    + by apply strncpy_take.
    + rewrite <- app_assoc. by apply strncpy_end.
  - done.
  - rewrite <- (elements_skip r), (skipelem_none _ name Hnr'). unfold skipelem. pose proof (skip_head r).
    destruct (skip_slashes r) as [|c q]; [done|]. cbn [hd] in *. inversion Hnr'; subst. cbn [skip_slashes]. rewrite (proj2 (Z.eqb_neq c SLASH)) by done.
    cbn [hd]. rewrite (proj2 (Z.eqb_neq c 0)) by done. destruct (elem_split (c :: q)). split; done.
  - pose proof (skip_length r). apply (f_equal length) in Ep. rewrite length_app in Ep. destruct e; [done|cbn in Ep; lia].
Qed.

(** * The tree of directories on disk, and the references to its inodes.

    Resolving a path is a walk over the directories on disk.  The inode table
    counts the references to each inode; [iget] adds one and [iput] takes one
    away, and the entries in use stay copies of the inodes on disk. *)

(** ** The tree on disk *)

Section tree.
Context (dev : Z) (sb : superblock).
Implicit Types (V : Z -> block) (x y : inode) (T : list inode) (live : Z -> Prop).

(** Inode [n] as it is on disk. *)
Definition on_disk V (n : Z) : inode := disk_inode sb V n (Inode dev n 0 0 0 0 0 0 0 []).
Definition dir_of V (n : Z) : list Z := content V (on_disk V n).

(** The inode that a path leads to from [n], or the directory of its last element. *)
Fixpoint walk (parent : bool) V (n : Z) (es : list (list Z)) : option Z :=
  match es with
  | [] => if parent then None else Some n
  | e :: es' =>
      if decide (i_type (on_disk V n) = T_DIR) then
        if parent && bool_decide (es' = []) then Some n
        else match dir_find e (dir_of V n) with None => None | Some (_, m) => walk parent V m es' end
      else None
  end.

(** The inodes in [live] are files and directories, whose names lead to inodes in [live]. *)
Record tree V live : Prop := {
  tr_inum n : live n -> 0 < n < sb_ninodes sb;
  tr_type n : live n -> i_type (on_disk V n) <> 0;
  tr_nlink n : live n -> i_nlink (on_disk V n) <> 0;
  tr_inode n : live n -> inode_ok dev sb V (on_disk V n);
  tr_whole n : live n -> i_type (on_disk V n) = T_DIR -> whole (dir_of V n);
  tr_dir n name e m : live n -> i_type (on_disk V n) = T_DIR -> dir_find name (dir_of V n) = Some (e, m) -> live m
}.

(** An entry of the table in use is for a live inode, and is its copy when it is valid. *)
Definition entry_ok V live x : Prop :=
  0 <= i_ref x /\ (0 < i_ref x -> i_dev x = dev /\ live (i_inum x) /\ (i_valid x <> 0 -> disk_inode sb V (i_inum x) x = x)).

Record table_ok V live T : Prop := {
  tb_len : length T = NINODE;
  tb_unique : unique T;
  tb_entry : Forall (entry_ok V live) T
}.

Lemma copy_fields V n y : i_dev y = dev -> i_inum y = n -> disk_inode sb V n y = y ->
  i_type y = i_type (on_disk V n) /\ i_nlink y = i_nlink (on_disk V n) /\ content V y = dir_of V n /\
  (inode_ok dev sb V (on_disk V n) -> inode_ok dev sb V y).
Proof.
  intros Hd Hn E. rewrite <- E. split_and!; try done.
  intros [H1 H2 H3 H4 H5 H6 H7]. split; try done. by cbn; rewrite Hn.
Qed.

(** ** References *)

Definition total (f : inode -> Z) T : Z := foldr (fun x a => f x + a) 0 T.

Lemma total_insert f T : forall j x y, T !! j = Some x -> total f (<[j := y]> T) = total f T - f x + f y.
Proof.
  induction T as [|z T IH]; intros [|j] x y Hj; [done|done| |].
  - injection Hj as ->. cbn. lia.
  - change (f z + total f (<[j := y]> T) = f z + total f T - f x + f y). rewrite (IH j x y) by done. lia.
Qed.

Definition share (m : Z) x : Z := if i_inum x =? m then i_ref x else 0.
Definition idle x : Z := if i_ref x =? 0 then 1 else 0.

(** The references to inode [m], and the entries not in use. *)
Definition inode_refs T m : Z := total (share m) T.
Definition spare T : Z := total idle T.

Lemma spare_pos T : 0 < spare T -> exists j x, list_find unused T = Some (j, x).
Proof.
  intros H. destruct (list_find unused T) as [[j x]|] eqn:E; [by eauto|]. apply list_find_None in E.
  assert (spare T = 0); [|lia]. clear H. induction E as [|x T Hx HT IH]; [done|].
  change (idle x + spare T = 0). rewrite IH. unfold idle. by rewrite (proj2 (Z.eqb_neq _ _)).
Qed.

Lemma entry_at V live T j x : table_ok V live T -> T !! j = Some x -> entry_ok V live x.
Proof. intros H Hj. by apply (Forall_lookup_1 _ _ _ _ (tb_entry _ _ _ H) Hj). Qed.

Lemma table_ok_insert V live T j x y : table_ok V live T -> T !! j = Some x -> entry_ok V live y -> (0 < i_ref y -> holds (i_dev y) (i_inum y) x) ->
  table_ok V live (<[j := y]> T).
Proof.
  intros [Hl Hu He] Hj Hy Hxy. split; [by rewrite length_insert| |by apply Forall_insert].
  intros a b u v. rewrite !list_lookup_insert_Some. intros [(<- & <- & _)|[Ha Hau]] [(<- & <- & _)|[Hb Hbv]] Hru Hrv Ed En; try done.
  - destruct (Hxy Hru) as (? & ? & ?). apply (Hu j b x v); congruence.
  - destruct (Hxy Hrv) as (? & ? & ?). apply (Hu a j u x); congruence.
  - by apply (Hu a b u v).
Qed.

(** [iget] of a live inode adds one reference to it. *)
Lemma iget_table V live T n : table_ok V live T -> live n -> 0 < spare T -> exists j y,
  iget_of dev n T = Some (j, y) /\ holds dev n y /\ table_ok V live (<[j := y]> T) /\
  (forall m, inode_refs (<[j := y]> T) m = inode_refs T m + (if m =? n then 1 else 0)) /\ spare T - 1 + (if i_ref y =? 1 then 0 else 1) <= spare (<[j := y]> T) /\
  (forall q x, T !! q = Some x -> 0 < i_ref x -> exists r, <[j := y]> T !! q = Some (set_i_ref r x) /\ r = i_ref x + (if decide (q = j) then 1 else 0)).
Proof.
  intros Hok Hn Hsp. destruct (iget_of dev n T) as [[j y]|] eqn:E.
  2:{ exfalso. unfold iget_of in E. destruct (spare_pos T Hsp) as (q & z & F). rewrite F in E. by destruct (list_find (holds dev n) T) as [[]|]. }
  exists j, y. split; [done|]. destruct (iget_of_holds _ _ _ _ _ E) as [Hy Hj]. split; [done|].
  pose proof (iget_unique _ _ _ _ _ (tb_unique _ _ _ Hok) E) as Hu. unfold iget_of in E.
  assert (Hcase : exists x, T !! j = Some x /\ (holds dev n x /\ y = set_i_ref (i_ref x + 1) x \/ unused x /\ y = new_entry dev n x)).
  { destruct (list_find (holds dev n) T) as [[q z]|] eqn:F.
    - apply list_find_Some in F as (Hq & Hz & _). injection E as -> <-. exists z. auto.
    - destruct (list_find unused T) as [[q z]|] eqn:G; [|done]. apply list_find_Some in G as (Hq & Hz & _). injection E as -> <-. exists z. auto. }
  destruct Hcase as (x & Hx & Hcase). pose proof (entry_at _ _ _ _ _ Hok Hx) as [Hxr Hxe]. destruct Hok as [Hl _ He]. split_and!.
  - split; [by rewrite length_insert|done|]. apply Forall_insert; [done|].
    destruct Hcase as [[(Hr & Hd & Hi) ->]|[Hr ->]].
    + split; [cbn; lia|]. intros _. destruct (Hxe Hr) as (Hd' & Hl' & Hv). split_and!; [done|done|]. intros Hv'. cbn in Hv'.
      change (set_i_ref (i_ref x + 1) (disk_inode sb V (i_inum x) x) = set_i_ref (i_ref x + 1) x). by rewrite Hv.
    + split; [cbn; lia|]. intros _. split_and!; done.
  - intros m. unfold inode_refs. rewrite (total_insert _ _ _ _ _ Hx). unfold share. destruct Hcase as [[(Hr & Hd & Hi) ->]|[Hr ->]]; cbn.
    + rewrite Hi, (Z.eqb_sym m n). destruct (n =? m); lia.
    + rewrite (Z.eqb_sym m n). unfold unused in Hr. rewrite Hr. destruct (i_inum x =? m), (n =? m); lia.
  - unfold spare. rewrite (total_insert _ _ _ _ _ Hx). unfold idle. destruct Hcase as [[(Hr & Hd & Hi) ->]|[Hr ->]]; cbn.
    + rewrite (proj2 (Z.eqb_neq (i_ref x) 0)), (proj2 (Z.eqb_neq (i_ref x + 1) 0)) by lia. case_if; lia.
    + unfold unused in Hr. rewrite Hr. cbn. lia.
  - intros q z Hq Hr. destruct (decide (q = j)) as [->|Hne].
    + rewrite list_lookup_insert_eq by done. rewrite Hx in Hq. injection Hq as ->. eexists. split; [|done].
      destruct Hcase as [[_ ->]|[Hu' _]]; [done|]. unfold unused in Hu'. lia.
    + rewrite list_lookup_insert_ne by done. exists (i_ref z). split; [|lia]. rewrite Hq. by destruct z.
Qed.

(** [ilock] makes an entry the copy of its inode. *)
Lemma loaded_same V x : i_ref (loaded sb V x) = i_ref x /\ i_dev (loaded sb V x) = i_dev x /\ i_inum (loaded sb V x) = i_inum x.
Proof. unfold loaded. by case_if. Qed.

Lemma loaded_copy V live x : entry_ok V live x -> 0 < i_ref x ->
  i_valid (loaded sb V x) <> 0 /\ disk_inode sb V (i_inum x) (loaded sb V x) = loaded sb V x.
Proof.
  intros [_ He] Hr. destruct (He Hr) as (_ & _ & Hv). unfold loaded. destruct (Z.eqb_spec (i_valid x) 0); [done|by auto].
Qed.

Lemma load_table V live T j x : table_ok V live T -> T !! j = Some x -> 0 < i_ref x ->
  let T' := <[j := loaded sb V x]> T in table_ok V live T' /\ (forall m, inode_refs T' m = inode_refs T m) /\ spare T' = spare T.
Proof.
  intros Hok Hj Hr T'. pose proof (entry_at _ _ _ _ _ Hok Hj) as He. destruct (loaded_same V x) as (Er & Ed & En).
  destruct (loaded_copy _ _ _ He Hr) as [Hv Hc]. split_and!.
  - apply (table_ok_insert _ _ _ _ x); [done|done| |].
    + destruct He as [H0 He]. split; [by rewrite Er|]. rewrite Er, Ed, En. intros _. destruct (He Hr) as (? & ? & _). done.
    + intros _. by split_and!.
  - intros m. unfold T', inode_refs. rewrite (total_insert _ _ _ _ _ Hj). unfold share. rewrite Er, En. lia.
  - unfold T', spare. rewrite (total_insert _ _ _ _ _ Hj). unfold idle. rewrite Er. lia.
Qed.

(** [iput] that keeps the inode takes one reference away. *)
Lemma put_table V live T j x : table_ok V live T -> T !! j = Some x -> 0 < i_ref x ->
  let T' := <[j := set_i_ref (i_ref x - 1) x]> T in
  table_ok V live T' /\ (forall m, inode_refs T' m = inode_refs T m - (if m =? i_inum x then 1 else 0)) /\
  spare T' = spare T + (if i_ref x =? 1 then 1 else 0).
Proof.
  intros Hok Hj Hr T'. pose proof (entry_at _ _ _ _ _ Hok Hj) as [H0 He]. destruct (He Hr) as (Hd & Hl & Hv). split_and!.
  - apply (table_ok_insert _ _ _ _ x); [done|done| |].
    + split; [cbn; lia|]. intros _. split_and!; [done|done|]. intros Hv'.
      change (set_i_ref (i_ref x - 1) (disk_inode sb V (i_inum x) x) = set_i_ref (i_ref x - 1) x). by rewrite Hv.
    + intros _. by split_and!.
  - intros m. unfold T', inode_refs. rewrite (total_insert _ _ _ _ _ Hj). unfold share. cbn. rewrite (Z.eqb_sym m). case_if; lia.
  - unfold T', spare. rewrite (total_insert _ _ _ _ _ Hj). unfold idle. cbn.
    rewrite (proj2 (Z.eqb_neq (i_ref x) 0)) by lia. destruct (Z.eqb_spec (i_ref x - 1) 0), (Z.eqb_spec (i_ref x) 1); lia.
Qed.
End tree.
