(* ===== verification/FsNamex.v ===== *)
(** Resolving a path: namex, namei and nameiparent of fs.c.

    The code gives the inode that the walk over the directories on disk gives.
    It holds one reference at a time: when it is over the table has one more
    reference, to the inode returned, and none if the path does not resolve. *)

From S2P Require Import Prelude.
From S2P Require Import Spinlock.
From S2P Require Import Riscv.
From S2P Require Import Kalloc.
From S2P Require Import Proc.
From S2P Require Import ProcInv.
From S2P Require Import FsState.
From S2P Require Import Bio.
From S2P Require Import BioSpec.
From S2P Require Import Log.
From S2P Require Import LogSpec.
From S2P Require Import LogTheorems.
From S2P Require Import Fs.
From S2P Require Import FsOp.
From S2P Require Import FsBitmap.
From S2P Require Import FsAlloc.
From S2P Require Import FsInode.
From S2P Require Import FsGrow.
From S2P Require Import FsWritei.
From S2P Require Import FsWrite.
From S2P Require Import FsTable.
From S2P Require Import FsDir.
From S2P Require Import FsTree.

Section code.
Context `{HLS : LinkerSyms} (swtch : M (kernel fsys) unit) (fuel : nat) (Hfuel : can_wait fuel).
Context (rw : nat -> bool -> M (kernel fsys) unit) (Hrw : driver_ok rw).
Context (i : nat) (pid dev : Z) (sb : superblock) (start : Z) (Hly : layout sb start).
Context (V : Z -> block) (Hd : disk_ok sb V) (live : Z -> Prop) (Htr : tree dev sb V live) (B : gset Z).
Implicit Types (k : kernel fsys) (x : inode).
Abbreviation inop := (inop i pid dev).
Abbreviation table_ok := (table_ok dev sb V live).
Abbreviation holds := (holds dev).

(** No inode is locked, and the table is in order. *)
Record at_rest k0 : Prop := {
  ar_based : based sb start k0;
  ar_table : table_ok (table k0);
  ar_free j : unlocked_at k0 j
}.

(** Inode [j] is locked. *)
Record visiting (j : nat) k0 : Prop := {
  vi_based : based sb start k0;
  vi_table : table_ok (table k0);
  vi_lock : fs_sl (k_files k0) (INODE_LOCK (iptr j)) = Sleeplock 1 pid;
  vi_free q : q <> j -> unlocked_at k0 q
}.

Lemma inode_lock_ne q j : q <> j -> INODE_LOCK (iptr q) <> INODE_LOCK (iptr j).
Proof. unfold INODE_LOCK, iptr. lia. Qed.

Lemma table_puti j x k : table (puti j x k) = <[j := x]> (table k).
Proof. done. Qed.

(** [k'] is [k] but for the inodes and their locks. *)
Definition moved k k' : Prop := exists t sl, k' = set_k_files (set_fs_inode t (set_fs_sl sl (k_files k))) k.

Lemma moved_refl k : moved k k.
Proof. exists (fs_inode (k_files k)), (fs_sl (k_files k)). by destruct k as [? ? ? ? ? ? []]. Qed.

Lemma moved_trans k k' k'' : moved k k' -> moved k' k'' -> moved k k''.
Proof. intros (t & sl & ->) (t' & sl' & ->). by exists t', sl'. Qed.

Lemma moved_puti k k' j x : moved k k' -> moved k (puti j x k').
Proof. intros (t & sl & ->). eexists _, sl. done. Qed.

Lemma moved_relock k k' id s : moved k k' -> moved k (relock id s k').
Proof. intros (t & sl & ->). eexists t, _. done. Qed.

Lemma visit_spec k0 k j x (Q : unit -> kernel fsys -> Prop) :
  inop k0 V ∅ ∅ B k -> at_rest k0 -> table k0 !! j = Some x -> 0 < i_ref x ->
  (forall k0' k', inop k0' V ∅ ∅ B k' -> moved k0 k0' -> visiting j k0' -> table k0' = <[j := loaded sb V x]> (table k0) -> Q tt k') ->
  wp (ilock swtch fuel rw (iptr j)) k Q.
Proof.
  intros H [Hb Ht Hf] Hj Hr HQ. pose proof (entry_at _ _ _ _ _ _ _ Ht Hj) as [_ He]. destruct (He Hr) as (Ed & Hl & _).
  pose proof (tr_inum _ _ _ _ Htr _ Hl). eapply (ilock_spec swtch fuel Hfuel rw Hrw); [exact Hly|exact Hb|exact H|done|done|done|lia|apply Hf| |].
  - intros _. apply (tr_type _ _ _ _ Htr _ Hl).
  - intros k' H'. apply (HQ _ _ H'); [apply moved_puti, moved_relock, moved_refl| |done]. split; [done|by apply load_table| |].
    + cbn. by rewrite upd_eq.
    + intros q Hq. unfold unlocked_at. cbn. rewrite upd_ne by (by apply inode_lock_ne). apply Hf.
Qed.

(** Leaving a locked inode, and dropping the reference to it. *)
Lemma unlock_spec k0 k j x (Q : unit -> kernel fsys -> Prop) :
  inop k0 V ∅ ∅ B k -> visiting j k0 -> table k0 !! j = Some x -> 0 < i_ref x ->
  (forall k0' k', inop k0' V ∅ ∅ B k' -> moved k0 k0' -> at_rest k0' -> table k0' = table k0 -> Q tt k') ->
  wp (iunlock (iptr j)) k Q.
Proof.
  intros H [Hb Ht Hl Hf] Hj Hr HQ. eapply iunlock_spec; [exact H|exact Hj|done|exact Hl|]. intros k' H'.
  apply (HQ _ _ H'); [apply moved_relock, moved_refl| |done]. split; [done|done|]. intros q. unfold unlocked_at. cbn. destruct (decide (q = j)) as [->|Hq].
  - by rewrite upd_eq.
  - rewrite upd_ne by (by apply inode_lock_ne). by apply Hf.
Qed.

Lemma put_spec k0 k j x (Q : unit -> kernel fsys -> Prop) :
  inop k0 V ∅ ∅ B k -> at_rest k0 -> table k0 !! j = Some x -> 0 < i_ref x ->
  (forall k0' k', inop k0' V ∅ ∅ B k' -> moved k0 k0' -> at_rest k0' -> table k0' = <[j := set_i_ref (i_ref x - 1) x]> (table k0) -> Q tt k') ->
  wp (inode_put swtch fuel rw (iptr j)) k Q.
Proof.
  intros H [Hb Ht Hf] Hj Hr HQ. pose proof (entry_at _ _ _ _ _ _ _ Ht Hj) as [_ He]. destruct (He Hr) as (Ed & Hl & Hv).
  eapply inode_put_spec; [exact H|exact Hj| |].
  - destruct (decide (i_valid x = 0)) as [|Hv0]; [by auto|]. right. right.
    destruct (copy_fields dev sb V _ x Ed eq_refl (Hv Hv0)) as (_ & -> & _). apply (tr_nlink _ _ _ _ Htr _ Hl).
  - intros k' H'. apply (HQ _ _ H'); [apply moved_puti, moved_refl| |done]. split; [done|by apply put_table|done].
Qed.

Lemma leave_spec k0 k j x (Q : unit -> kernel fsys -> Prop) :
  inop k0 V ∅ ∅ B k -> visiting j k0 -> table k0 !! j = Some x -> 0 < i_ref x ->
  (forall k0' k', inop k0' V ∅ ∅ B k' -> moved k0 k0' -> at_rest k0' -> table k0' = <[j := set_i_ref (i_ref x - 1) x]> (table k0) -> Q tt k') ->
  wp (iunlockput swtch fuel rw (iptr j)) k Q.
Proof.
  intros H Hv Hj Hr HQ. unfold iunlockput. apply wp_bind. eapply unlock_spec; [exact H|done|exact Hj|done|]. intros k1 k' H1 M1 A1 E1.
  eapply put_spec; [exact H1|done|by rewrite E1|done|]. rewrite E1. intros k2 k3 H2 M2. apply HQ; [done|]. by eapply moved_trans.
Qed.

(** The current inode of the walk: one reference beyond [R]. *)
Definition standing (R : Z -> Z) k0 (j : nat) (n : Z) : Prop :=
  exists x, table k0 !! j = Some x /\ holds n x /\ (forall m, inode_refs (table k0) m = R m + (if m =? n then 1 else 0)) /\
    2 <= spare (table k0) + (if i_ref x =? 1 then 1 else 0).

(** The lookup and the step to the next inode. *)
Lemma step_spec k0 k j n x name (R : Z -> Z) (Q : option (Z * Z) -> kernel fsys -> Prop) :
  inop k0 V ∅ ∅ B k -> visiting j k0 -> table k0 !! j = Some x -> holds n x -> i_valid x <> 0 -> i_type x = T_DIR ->
  (forall m, inode_refs (table k0) m = R m + (if m =? n then 1 else 0)) -> 2 <= spare (table k0) + (if i_ref x =? 1 then 1 else 0) ->
  match dir_find name (dir_of dev sb V n) with
  | None => forall k', inop k0 V ∅ ∅ B k' -> Q None k'
  | Some (e, m) => forall q k0' k', live m -> inop k0' V ∅ ∅ B k' -> moved k0 k0' -> visiting j k0' ->
      (exists x', table k0' !! j = Some x' /\ 0 < i_ref x' /\ forall k0'', table k0'' = <[j := set_i_ref (i_ref x' - 1) x']> (table k0') -> standing R k0'' q m) ->
      Q (Some (iptr q, Z.of_nat (e * DIRENT))) k'
  end ->
  wp (dirlookup swtch fuel rw (iptr j) name) k Q.
Proof.
  intros H Hvi Hj (Hr & Ed & En) Hv Hty HR Hsp HQ. pose proof (vi_table _ _ Hvi) as Ht.
  pose proof (entry_at _ _ _ _ _ _ _ Ht Hj) as [_ He]. destruct (He Hr) as (_ & Hl & Hc). rewrite En in Hl, Hc.
  destruct (copy_fields dev sb V _ x Ed En (Hc Hv)) as (E1 & _ & E3 & E4). pose proof (E4 (tr_inode _ _ _ _ Htr _ Hl)) as Hok.
  rewrite Hty in E1. symmetry in E1.
  eapply (dirlookup_spec swtch fuel Hfuel rw Hrw); [exact Hly|exact H| |done|exact Hok| |apply Ht|].
  - split; [unfold iptr; lia|]. unfold iptr. rewrite Z.add_simpl_r, Nat2Z.id. exact Hj.
  - split; [done|]. rewrite E3. by apply (tr_whole _ _ _ _ Htr).
  - rewrite E3. destruct (dir_find name (dir_of dev sb V n)) as [[e m]|] eqn:Ef; [|exact HQ].
    pose proof (tr_dir _ _ _ _ Htr _ _ _ _ Hl E1 Ef) as Hm. destruct (iget_table dev sb V live (table k0) m Ht Hm) as (q & y & Eq & Hy & Ht' & HR' & Hsp' & Hold).
    { destruct (i_ref x =? 1); lia. }
    exists q, y. split; [done|]. intros k' H'. apply (HQ q _ k' Hm H'); [apply moved_puti, moved_refl|..].
    + destruct Hvi as [Hb _ Hlk Hfr]. by split.
    + destruct (Hold j x Hj Hr) as (r & Ej & Er). exists (set_i_ref r x). rewrite table_puti. split; [exact Ej|].
      split; [cbn; case_decide; lia|]. intros k2 E2.
      assert (Hr0 : 0 < i_ref (set_i_ref r x)) by (cbn; case_decide; lia).
      destruct (put_table dev sb V live _ j (set_i_ref r x) Ht' Ej Hr0) as (_ & HR2 & Hsp2). rewrite <- E2 in HR2, Hsp2.
      assert (HRm : forall m', inode_refs (table k2) m' = R m' + (if m' =? m then 1 else 0)).
      { intros m'. rewrite HR2, HR', HR. cbn. rewrite En. lia. }
      destruct (iget_of_holds _ _ _ _ _ Eq) as [_ Hq]. destruct (decide (j = q)) as [->|Hne].
      * rewrite list_lookup_insert_eq in Ej by done. injection Ej as ->. exists (set_i_ref (r - 1) x). rewrite E2. cbn [i_ref set_i_ref] in *.
        rewrite list_lookup_insert_eq by (by rewrite length_insert). split; [done|]. destruct Hy as (_ & _ & Hy). cbn in Hy.
        split; [split_and!; [cbn; lia|done|done]|]. split; [rewrite <- E2; exact HRm|]. rewrite <- E2. cbn [i_ref set_i_ref].
        replace (r - 1) with (i_ref x) by lia. destruct (Z.eqb_spec r 1), (Z.eqb_spec (i_ref x) 1); lia.
      * exists y. rewrite E2, list_lookup_insert_ne, list_lookup_insert_eq by done. split; [done|]. split; [done|]. rewrite <- E2.
        split; [exact HRm|]. cbn [i_ref set_i_ref] in Hsp2. replace r with (i_ref x) in Hsp2 by lia. destruct (i_ref x =? 1), (i_ref y =? 1); lia.
Qed.

(** What the walk leaves: the inode [w] with a reference, or nothing. *)
Definition arrives (R : Z -> Z) (w : option Z) k0 (r : Z) : Prop :=
  at_rest k0 /\ match w with
  | None => r = 0 /\ forall m, inode_refs (table k0) m = R m
  | Some n => exists j, r = iptr j /\ standing R k0 j n
  end.

Lemma dir_find_name name name' d : strncpy_n DIRSIZ name = strncpy_n DIRSIZ name' -> dir_find name d = dir_find name' d.
Proof.
  intros E. unfold dir_find. rewrite (list_find_ext (named name) (named name')); [done|]. intros de. unfold named. by rewrite E.
Qed.

Lemma reference_back R k0 k0' j n x : table_ok (table k0) -> table k0 !! j = Some x -> holds n x ->
  (forall m, inode_refs (table k0) m = R m + (if m =? n then 1 else 0)) -> table k0' = <[j := set_i_ref (i_ref x - 1) x]> (table k0) ->
  forall m, inode_refs (table k0') m = R m.
Proof.
  intros Ht Hj (Hr & _ & En) HR E m. destruct (put_table dev sb V live _ j x Ht Hj Hr) as (_ & H & _). rewrite E, H, HR, En. lia.
Qed.

(** One element of the path. *)
Lemma namex_step parent k0 k j n e es path name R (Q : Z * list Z * list Z + Z * list Z -> kernel fsys -> Prop) :
  inop k0 V ∅ ∅ B k -> at_rest k0 -> standing R k0 j n -> strncpy_n DIRSIZ name = strncpy_n DIRSIZ e -> (hd 0 path = 0 <-> es = []) ->
  (forall k0' k' r, inop k0' V ∅ ∅ B k' -> moved k0 k0' -> arrives R (walk dev sb parent V n (e :: es)) k0' r ->
    (parent = true -> walk dev sb parent V n (e :: es) <> None -> es = []) -> Q (inr (r, name)) k') ->
  (forall m k0' k' q, inop k0' V ∅ ∅ B k' -> moved k0 k0' -> at_rest k0' -> standing R k0' q m ->
    walk dev sb parent V n (e :: es) = walk dev sb parent V m es -> (parent = true -> es <> []) -> Q (inl (iptr q, path, name)) k') ->
  wp (ilock swtch fuel rw (iptr j) >>>
      x <- geti (iptr j) ;;
      if negb (i_type x =? T_DIR) then iunlockput swtch fuel rw (iptr j) >>> ret (inr (0, name))
      else if parent && (hd 0 path =? 0) then iunlock (iptr j) >>> ret (inr (iptr j, name))
      else
        r <- dirlookup swtch fuel rw (iptr j) name ;;
        match r with
        | None => iunlockput swtch fuel rw (iptr j) >>> ret (inr (0, name))
        | Some (next, _) => iunlockput swtch fuel rw (iptr j) >>> ret (inl (next, path, name))
        end) k Q.
Proof.
  intros H Har (x & Hj & (Hr & Ed & En) & HR & Hsp) Hnm Hes HQr HQl. apply wp_bind. eapply visit_spec; [exact H|done|exact Hj|done|].
  intros k1 k' H1 M1 Hv1 E1. destruct (load_table dev sb V live _ j x (ar_table _ Har) Hj Hr) as (_ & HR1 & Hs1). rewrite <- E1 in HR1, Hs1.
  pose proof (entry_at _ _ _ _ _ _ _ (ar_table _ Har) Hj) as He. destruct (loaded_copy dev sb V live x He Hr) as [Hval Hcp].
  destruct (loaded_same sb V x) as (Ey1 & Ey2 & Ey3). set (y := loaded sb V x) in *.
  assert (Hy : table k1 !! j = Some y) by (rewrite E1; apply list_lookup_insert_eq; by eapply lookup_lt_Some).
  assert (Hh : holds n y) by (split_and!; congruence). assert (Hry : 0 < i_ref y) by lia.
  setoid_rewrite HR in HR1. rewrite <- Hs1, <- Ey1 in Hsp. rewrite En in Hcp.
  destruct (copy_fields dev sb V n y (proj1 (proj2 Hh)) (proj2 (proj2 Hh)) Hcp) as (Ety & _). cbn [walk] in *.
  apply wp_bind. eapply inop_geti_at; [exact H1|exact Hy|].
  set (w := if decide _ then _ else _) in *.
  assert (Hfail : forall k', inop k1 V ∅ ∅ B k' -> w = None -> wp (iunlockput swtch fuel rw (iptr j) >>> ret (inr (0, name))) k' Q).
  { intros k2 H2 Ew. apply wp_bind. eapply leave_spec; [exact H2|done|exact Hy|done|]. intros k3 k4 H3 M3 A3 E3. apply wp_ret.
    apply (HQr _ _ _ H3); rewrite ?Ew; [by eapply moved_trans| |done]. split; [done|]. split; [done|]. eapply reference_back; [apply Hv1|exact Hy|done|done|done]. }
  destruct (Z.eqb_spec (i_type y) T_DIR) as [Hdir|Hdir]; cbn [negb].
  2:{ apply Hfail; [done|]. unfold w. rewrite decide_False by congruence. done. }
  unfold w in *. clear w. rewrite (decide_True (P := i_type (on_disk dev sb V n) = T_DIR)) in * by congruence.
  assert (Eb : bool_decide (es = []) = (hd 0 path =? 0)) by (apply Bool.eq_iff_eq_true; by rewrite bool_decide_eq_true, Z.eqb_eq). rewrite Eb in *.
  destruct (parent && (hd 0 path =? 0)) eqn:Ep.
  - apply andb_true_iff in Ep as [_ Ep]. apply Z.eqb_eq, Hes in Ep. apply wp_bind. eapply unlock_spec; [exact H1|done|exact Hy|done|].
    intros k2 k3 H2 M2 A2 E2. apply wp_ret, (HQr _ _ _ H2); [by eapply moved_trans| |done]. split; [done|]. exists j. split; [done|]. exists y. by rewrite E2.
  - assert (Hpe : parent = true -> es <> []).
    { intros -> E. rewrite (proj2 Hes E) in Ep. done. }
    apply wp_bind. eapply step_spec; [exact H1|done|exact Hy|exact Hh|done|done|exact HR1|exact Hsp|].
    rewrite (dir_find_name name e) by done. destruct (dir_find e (dir_of dev sb V n)) as [[e' m]|] eqn:Ef; [|by intros; apply Hfail].
    intros q k2 k3 Hm H2 M2 Hv2 (x' & Hx' & Hr' & Hst). apply wp_bind. eapply leave_spec; [exact H2|done|exact Hx'|done|].
    intros k4 k5 H4 M4 A4 E4. apply wp_ret. apply (HQl m _ _ q H4); [exact (moved_trans _ _ _ M1 (moved_trans _ _ _ M2 M4))|done|by apply Hst|done|done].
Qed.

(** After nameiparent the array [name] has the last element. *)
Definition last_name (parent : bool) (es : list (list Z)) (w : option Z) (name : list Z) : Prop :=
  parent = true -> w <> None -> exists e, last es = Some e /\ strncpy_n DIRSIZ name = strncpy_n DIRSIZ e.

Lemma namex_loop parent k0 k j n path name R (Q : Z * list Z -> kernel fsys -> Prop) :
  inop k0 V ∅ ∅ B k -> at_rest k0 -> standing R k0 j n -> no_nul path ->
  let w := walk dev sb parent V n (elements path) in
  (forall k0' k' r name', inop k0' V ∅ ∅ B k' -> moved k0 k0' -> arrives R w k0' r -> last_name parent (elements path) w name' -> Q (r, name') k') ->
  wp (loop (S (length path)) (fun '(ip, path, name) =>
    match skipelem path name with
    | None => if parent then inode_put swtch fuel rw ip >>> ret (inr (0, name)) else ret (inr (ip, name))
    | Some (path, name) =>
        ilock swtch fuel rw ip >>>
        x <- geti ip ;;
        if negb (i_type x =? T_DIR) then iunlockput swtch fuel rw ip >>> ret (inr (0, name))
        else if parent && (hd 0 path =? 0) then iunlock ip >>> ret (inr (ip, name))
        else
          r <- dirlookup swtch fuel rw ip name ;;
          match r with
          | None => iunlockput swtch fuel rw ip >>> ret (inr (0, name))
          | Some (next, _) => iunlockput swtch fuel rw ip >>> ret (inl (next, path, name))
          end
    end) (iptr j, path, name)) k Q.
Proof.
  intros H Har Hst Hnn w HQ.
  apply (wp_loop (fun '(ip, p, _) k => exists k1 j n, ip = iptr j /\ inop k1 V ∅ ∅ B k /\ moved k0 k1 /\ at_rest k1 /\ standing R k1 j n /\ no_nul p /\
      walk dev sb parent V n (elements p) = w /\ (parent = true -> w <> None -> last (elements p) = last (elements path)))
    (fun '(_, p, _) => length p)); [|by exists k0, j, n; split_and!; [| |apply moved_refl|..]|lia].
  clearbody w. clear k j n H Har Hst Hnn. intros [[ip p] nm] k (k2 & j & n & -> & H & M & Har & Hst & Hnn & Hw & Hlast). destruct (skipelem p nm) as [[rest nm']|] eqn:Es.
  - destruct (skipelem_some _ _ _ _ Hnn Es) as (e & Ee & Enm & Hnr & Hend & Hlt). rewrite Ee in Hw, Hlast.
    eapply namex_step; [exact H|done|exact Hst|exact Enm|exact Hend| |]; rewrite Hw.
    + intros k1 k' r H1 M1 Ha Hes. apply (HQ _ _ _ _ H1 ltac:(by eapply moved_trans) Ha). intros Hp Hw'. exists e. split; [|done]. rewrite <- (Hlast Hp Hw'), (Hes Hp Hw'). done.
    + intros m k1 k' q H1 M1 A1 Hs1 Hw1 Hpe. split; [|done]. exists k1, q, m. split_and!; try done; [by eapply moved_trans|]. intros Hp Hw'. rewrite <- (Hlast Hp Hw').
      specialize (Hpe Hp). by destruct (elements rest).
  - apply (skipelem_none _ nm Hnn) in Es. rewrite Es in Hw. cbn [walk] in Hw. destruct parent.
    + destruct Hst as (x & Hj & Hh & HR & Hsp). apply wp_bind. eapply put_spec; [exact H|done|exact Hj|apply Hh|]. intros k1 k' H1 M1 A1 E1.
      apply wp_ret, (HQ _ _ _ _ H1); rewrite <- ?Hw; [by eapply moved_trans| |by intros _ []]. split; [done|]. split; [done|].
      eapply reference_back; [apply Har|exact Hj|done|done|done].
    + apply wp_ret, (HQ _ _ _ _ H); rewrite <- ?Hw; [done| |by intros [=]]. split; [done|]. by exists j.
Qed.

(** A path from the root. *)
Lemma namex_root parent k0 k path name (Q : Z * list Z -> kernel fsys -> Prop) :
  dev = ROOTDEV -> inop k0 V ∅ ∅ B k -> at_rest k0 -> live ROOTINO -> 2 <= spare (table k0) -> no_nul path -> hd 0 path = SLASH ->
  let w := walk dev sb parent V ROOTINO (elements path) in
  (forall k0' k' r name', inop k0' V ∅ ∅ B k' -> moved k0 k0' -> arrives (inode_refs (table k0)) w k0' r -> last_name parent (elements path) w name' -> Q (r, name') k') ->
  wp (namex swtch fuel rw path parent name) k Q.
Proof.
  intros Edev H [Hb Ht Hf] Hroot Hsp Hnn Hs w HQ. unfold namex. rewrite Hs, Z.eqb_refl. apply wp_bind. rewrite <- Edev.
  destruct (iget_table dev sb V live (table k0) ROOTINO Ht Hroot ltac:(lia)) as (j & y & Ej & Hy & Ht' & HR & Hsp' & _).
  eapply iget_spec; [exact H|apply Ht|exact Ej|]. intros k1 H1. eapply namex_loop; [exact H1|by split| |done|exact HQ].
  exists y. rewrite table_puti. split; [apply list_lookup_insert_eq; by apply iget_of_holds in Ej as [_ ?]|]. split; [done|]. split; [exact HR|].
  destruct (i_ref y =? 1); lia.
Qed.

(** A path from the current directory. *)
Lemma namex_cwd parent k0 k path name j n x (Q : Z * list Z -> kernel fsys -> Prop) :
  inop k0 V ∅ ∅ B k -> at_rest k0 -> table k0 !! j = Some x -> holds n x -> (forall p, k_procs k !! i = Some p -> p_cwd p = iptr j) ->
  2 <= spare (table k0) -> no_nul path -> hd 0 path <> SLASH ->
  let w := walk dev sb parent V n (elements path) in
  (forall k0' k' r name', inop k0' V ∅ ∅ B k' -> moved k0 k0' -> arrives (inode_refs (table k0)) w k0' r -> last_name parent (elements path) w name' -> Q (r, name') k') ->
  wp (namex swtch fuel rw path parent name) k Q.
Proof.
  intros H Har Hj Hh Hcwd Hsp Hnn Hs w HQ. unfold namex. rewrite (proj2 (Z.eqb_neq _ _)) by done. pose proof (inop_host _ _ _ _ _ _ _ _ _ H) as Hho.
  destruct (ho_self _ _ _ Hho) as (p & Hp & _). apply wp_bind, wp_bind, (wp_myproc i); [apply Hho|]. apply wp_bind. eapply wp_getp; [exact Hp|].
  rewrite (Hcwd p Hp). eapply inode_dup_spec; [exact H|exact Hj|]. intros k1 H1. destruct Har as [Hb Ht Hf].
  pose proof (entry_at _ _ _ _ _ _ _ Ht Hj) as [_ He]. destruct Hh as (Hr & Ed & En). destruct (He Hr) as (_ & Hl & Hv).
  eapply namex_loop; [exact H1| | |done|exact HQ].
  - split; [done| |done]. rewrite table_puti. apply (table_ok_insert _ _ _ _ _ _ x); [done|done| |by intros _].
    split; [cbn; lia|]. intros _. split_and!; [done|done|]. intros Hv'.
    change (set_i_ref (i_ref x + 1) (disk_inode sb V (i_inum x) x) = set_i_ref (i_ref x + 1) x). by rewrite Hv.
  - exists (set_i_ref (i_ref x + 1) x). rewrite table_puti. split; [apply list_lookup_insert_eq; by eapply lookup_lt_Some|].
    split; [split_and!; [cbn; lia|done|done]|]. unfold inode_refs, spare. setoid_rewrite (total_insert _ _ _ _ _ Hj). split.
    + intros m. unfold share. cbn. rewrite En, (Z.eqb_sym m). case_if; lia.
    + unfold spare, idle in *. cbn. rewrite (proj2 (Z.eqb_neq (i_ref x) 0)), (proj2 (Z.eqb_neq (i_ref x + 1) 0)) by lia. case_if; lia.
Qed.

(** Where the resolution of a path starts. *)
Definition starts_at k0 k (path : list Z) (n : Z) : Prop :=
  if hd 0 path =? SLASH then n = ROOTINO /\ dev = ROOTDEV /\ live ROOTINO
  else exists j x, table k0 !! j = Some x /\ holds n x /\ forall p, k_procs k !! i = Some p -> p_cwd p = iptr j.

Lemma namex_spec parent k0 k path name n (Q : Z * list Z -> kernel fsys -> Prop) :
  inop k0 V ∅ ∅ B k -> at_rest k0 -> 2 <= spare (table k0) -> no_nul path -> starts_at k0 k path n ->
  let w := walk dev sb parent V n (elements path) in
  (forall k0' k' r name', inop k0' V ∅ ∅ B k' -> moved k0 k0' -> arrives (inode_refs (table k0)) w k0' r -> last_name parent (elements path) w name' -> Q (r, name') k') ->
  wp (namex swtch fuel rw path parent name) k Q.
Proof.
  intros H Har Hsp Hnn Hst w HQ. unfold starts_at in Hst. destruct (Z.eqb_spec (hd 0 path) SLASH) as [Es|Es].
  - destruct Hst as (-> & Hdv & Hroot). by eapply namex_root.
  - destruct Hst as (j & x & Hj & Hx & Hcwd). by eapply namex_cwd.
Qed.
End code.
