(* ===== verification/FsTrunc.v ===== *)
(** Truncating a file: itrunc of fs.c.

    All the blocks of the file, the indirect block too, become free, and no
    other block does. *)

From S2P Require Import Prelude.
From S2P Require Import Spinlock.
From S2P Require Import Riscv.
From S2P Require Import Kalloc.
From S2P Require Import Proc.
From S2P Require Import FsState.
From S2P Require Import Bio.
From S2P Require Import BioSpec.
From S2P Require Import Log.
From S2P Require Import LogSpec.
From S2P Require Import LogTheorems.
From S2P Require Import Fs.
From S2P Require Import FsOp.
From S2P Require Import FsBitmap.
From S2P Require Import FsAlloc.
From S2P Require Import FsInode.
From S2P Require Import FsGrow.
From S2P Require Import FsWritei.
From S2P Require Import FsWrite.
From S2P Require Import FsTable.

Section pure.
Context (dev : Z) (sb : superblock) (start : Z) (Hly : layout sb start).
Implicit Types (V : Z -> block) (x : inode).
Abbreviation inode_ok := (inode_ok dev sb).

(** The blocks in the first [s] slots of a file. *)
Definition blocks V x (s : nat) : list Z := filter (fun b => b <> 0) (map (slot V x) (seq 0 s)).

(** [V'] is [V] with the blocks [F] free. *)
Record freed V V' (F : list Z) : Prop := {
  fr_disk : disk_ok sb V';
  fr_use c : 0 <= c < sb_size sb -> in_use sb V' c = in_use sb V c && negb (bool_decide (c ∈ F));
  fr_same c : c < sb_bmapstart sb \/ nmeta sb <= c -> V' c = V c
}.

Lemma freed_nil V : disk_ok sb V -> freed V V [].
Proof. intros Hd. split; [done| |done]. intros c _. by rewrite andb_true_r. Qed.

Lemma freed_cons V V' F b : freed V V' F -> nmeta sb <= b < sb_size sb -> freed V (dealloc sb V' b) (F ++ [b]).
Proof.
  intros [Hd Hu Hs] Hb. pose proof (nmeta_pos sb start Hly). pose proof (BBLOCK_meta sb start Hly b ltac:(lia)) as HB. split.
  - split.
    + intros c Hc. unfold dealloc, upd. case_decide; [subst c; rewrite unmark_length|]; by apply Hd.
    + intros c Hc. pose proof (ly_data _ _ Hly). unfold dealloc. rewrite (in_use_unmark sb start Hly) by (done || lia).
      rewrite (proj2 (Z.eqb_neq c b)) by lia. by apply Hd.
  - intros c Hc. unfold dealloc. rewrite (in_use_unmark sb start Hly), Hu by (done || lia).
    destruct (Z.eqb_spec c b) as [->|Hne]; cbn [negb andb].
    + rewrite (bool_decide_eq_true_2 (b ∈ F ++ [b])) by set_solver. by rewrite andb_false_r.
    + f_equal. f_equal. apply bool_decide_ext. set_solver.
  - intros c Hc. unfold dealloc. rewrite upd_ne by lia. by apply Hs.
Qed.

Lemma blocks_S V x s : blocks V x (S s) = blocks V x s ++ (if decide (slot V x s = 0) then [] else [slot V x s]).
Proof.
  unfold blocks. rewrite seq_S, map_app, filter_app, Nat.add_0_l. cbn [map]. destruct (decide (slot V x s = 0)) as [E|E].
  - by rewrite filter_cons_False by (rewrite E; auto).
  - by rewrite filter_cons_True by done.
Qed.

Lemma elem_blocks V x s c : c ∈ blocks V x s <-> exists q, (q < s)%nat /\ slot V x q = c /\ c <> 0.
Proof.
  unfold blocks. rewrite list_elem_of_filter, list_elem_of_fmap. setoid_rewrite elem_of_seq. split.
  - intros (Hc & q & -> & Hq). exists q. split; [lia|done].
  - intros (q & Hq & <- & Hc). split; [done|]. exists q. split; [done|lia].
Qed.

(** A block not yet freed is in use. *)
Lemma still_used V V' x s : inode_ok V x -> freed V V' (blocks V x s) -> (s <= MAXFILE)%nat -> slot V x s <> 0 ->
  nmeta sb <= slot V x s < sb_size sb /\ in_use sb V' (slot V x s) = true.
Proof.
  intros Hok Hf Hs Hz. destruct (in_data _ _ _ _ Hok s Hs Hz) as [Hr Hu]. split; [done|]. pose proof (nmeta_pos sb start Hly).
  rewrite (fr_use _ _ _ Hf), Hu by lia. rewrite bool_decide_eq_false_2; [done|]. intros (q & Hq & E & _)%elem_blocks.
  assert (s = q); [|lia]. apply (in_inj _ _ _ _ Hok); [done|lia|done|done].
Qed.

Lemma freed_slot V V' x s : inode_ok V x -> freed V V' (blocks V x s) -> (s <= MAXFILE)%nat -> slot V x s <> 0 ->
  freed V (dealloc sb V' (slot V x s)) (blocks V x (S s)).
Proof.
  intros Hok Hf Hs Hz. rewrite blocks_S, (decide_False (P := slot V x s = 0)) by done. apply freed_cons; [done|].
  by apply (in_data _ _ _ _ Hok).
Qed.

Lemma freed_skip V V' x s : freed V V' (blocks V x s) -> slot V x s = 0 -> freed V V' (blocks V x (S s)).
Proof. intros Hf Hz. rewrite blocks_S, (decide_True (P := slot V x s = 0)) by done. by rewrite app_nil_r. Qed.

(** The first [s] direct addresses are cleared. *)
Definition cleared (s : nat) x : inode := set_i_addrs (replicate s 0 ++ drop s (i_addrs x)) x.

Lemma cleared_nth s x q : (s <= q)%nat -> nth q (i_addrs (cleared s x)) 0 = nth q (i_addrs x) 0.
Proof.
  intros Hq. cbn. rewrite app_nth2 by (rewrite length_replicate; lia). rewrite length_replicate, !nth_lookup, lookup_drop. do 2 f_equal. lia.
Qed.

Lemma cleared_S s x : (s < length (i_addrs x))%nat -> set_i_addrs (<[s := 0]> (i_addrs (cleared s x))) (cleared s x) = cleared (S s) x.
Proof.
  intros Hs. unfold cleared, set_i_addrs. cbn. f_equal. destruct (lookup_lt_is_Some_2 _ _ Hs) as [a Ha]. rewrite (drop_S _ _ _ Ha).
  rewrite insert_app_r_alt by (rewrite length_replicate; lia). rewrite length_replicate, Nat.sub_diag.
  change (replicate s 0 ++ 0 :: drop (S s) (i_addrs x) = (0 :: replicate s 0) ++ drop (S s) (i_addrs x)).
  by rewrite <- (replicate_S s 0), replicate_S_end, <- app_assoc.
Qed.

Lemma cleared_skip s x : (s < length (i_addrs x))%nat -> nth s (i_addrs x) 0 = 0 -> cleared s x = cleared (S s) x.
Proof.
  intros Hs Hz. rewrite <- cleared_S by done. rewrite list_insert_id; [by destruct x|]. cbn.
  rewrite lookup_app_r by (rewrite length_replicate; lia). rewrite length_replicate, lookup_drop, Nat.sub_diag, Nat.add_0_r.
  destruct (lookup_lt_is_Some_2 _ _ Hs) as [a Ha]. rewrite (nth_lookup_Some _ _ _ _ Ha) in Hz. by rewrite Ha, Hz.
Qed.
End pure.

Section code.
Context (swtch : M (kernel fsys) unit) (fuel : nat) (Hfuel : can_wait fuel).
Context (rw : nat -> bool -> M (kernel fsys) unit) (Hrw : driver_ok rw).
Context (i : nat) (pid dev : Z) (sb : superblock) (start : Z) (Hly : layout sb start).
Implicit Types k : kernel fsys.
Abbreviation inop := (inop i pid dev).
Abbreviation based := (based sb start).
Abbreviation freed := (freed sb).

Context (V : Z -> block) (x : inode) (Hok : inode_ok dev sb V x) (B : gset Z).
Context (HB : forall s, (s <= MAXFILE)%nat -> slot V x s <> 0 -> BBLOCK (slot V x s) sb ∈ B).

(** [bfree] of the block in slot [s]. *)
Lemma bfree_slot k0 V1 L k s (Q : unit -> kernel fsys -> Prop) :
  based k0 -> inop k0 V1 L ∅ B k -> freed V V1 (blocks V x s) -> (s <= MAXFILE)%nat -> slot V x s <> 0 ->
  (forall c, c < nmeta sb -> L !! c = None) -> (size L < 2)%nat ->
  (forall k' V2, inop k0 V2 L ∅ B k' -> freed V V2 (blocks V x (S s)) -> Q tt k') ->
  wp (bfree swtch fuel rw dev (slot V x s)) k Q.
Proof.
  intros Hk0 H Hf Hs Hz HL Hsz HQ. destruct (still_used dev sb start Hly _ _ _ _ Hok Hf Hs Hz) as [Hr Hu]. pose proof (nmeta_pos sb start Hly).
  pose proof (BBLOCK_meta sb start Hly (slot V x s) ltac:(lia)).
  eapply (bfree_spec swtch fuel Hfuel rw Hrw); [exact Hly|exact Hk0|apply Hf|exact H|apply HL; lia|done|lia|done|by apply HB|].
  intros k' H'. eapply HQ; [exact H'|]. by apply (freed_slot dev sb start Hly).
Qed.

Lemma free_direct_spec k0 k ip (Q : unit -> kernel fsys -> Prop) :
  based k0 -> inop k0 V ∅ ∅ B k -> entry k0 ip x -> disk_ok sb V ->
  (forall k' V1, inop (putx ip (cleared NDIRECT x) k0) V1 ∅ ∅ B k' -> freed V V1 (blocks V x NDIRECT) -> Q tt k') ->
  wp (free_direct swtch fuel rw ip) k Q.
Proof.
  intros Hk0 H Hx Hd HQ. pose proof (in_len _ _ _ _ Hok) as Hlen. unfold free_direct.
  apply (wp_loop (fun s k => exists V1, (s <= NDIRECT)%nat /\ inop (putx ip (cleared s x) k0) V1 ∅ ∅ B k /\ freed V V1 (blocks V x s))
    (fun s => (NDIRECT - s)%nat)); [|exists V; split_and!; [lia| |by apply freed_nil]|lia].
  2:{ replace (cleared 0 x) with x by (by destruct x). by rewrite putx_same. }
  intros s k1 (V1 & Hs & H1 & Hf). destruct (Nat.ltb_spec s NDIRECT) as [Hlt|Hge].
  2:{ apply wp_ret. assert (s = NDIRECT) as -> by lia. by eapply HQ. }
  assert (Hx1 : entry (putx ip (cleared s x) k0) ip (cleared s x)) by (by eapply putx_entry).
  assert (Hl1 : length (i_addrs (cleared s x)) = S NDIRECT) by (cbn; rewrite length_app, length_replicate, length_drop; lia).
  assert (Es : slot V x s = nth s (i_addrs x) 0).
  { rewrite slot_addr by (unfold MAXFILE; lia). unfold addr_of. by rewrite (proj2 (Nat.ltb_lt _ _)). }
  apply wp_bind. eapply inop_get_addr; [exact H1|exact Hx1|lia|]. rewrite cleared_nth, <- Es by done.
  destruct (Z.eqb_spec (slot V x s) 0) as [Ez|Ez]; cbn [negb]; apply wp_bind.
  - apply wp_ret, wp_ret. split; [|lia]. exists V1. split_and!; [lia| |by apply freed_skip]. rewrite <- (cleared_skip s x); [done|lia|congruence].
  - apply wp_bind. eapply inop_geti; [exact H1|exact Hx1|]. change (i_dev (cleared s x)) with (i_dev x). rewrite (in_dev _ _ _ _ Hok). apply wp_bind.
    eapply bfree_slot; [|exact H1|done|unfold MAXFILE; lia|done|intros; apply lookup_empty|rewrite map_size_empty; lia|]; [exact Hk0|].
    intros k2 V2 H2 Hf2. eapply inop_seti; [exact H2|exact Hx1|]. intros k3 H3. apply wp_ret. split; [|lia]. exists V2.
    rewrite putx_putx, cleared_S in H3 by lia. split_and!; [lia|done|done].
Qed.

Lemma free_indirect_spec k0 V0 k bp (Q : unit -> kernel fsys -> Prop) :
  based k0 -> inop k0 V0 {[indirect x := bp]} ∅ B k -> freed V V0 (blocks V x NDIRECT) -> indirect x <> 0 ->
  (forall k' V1, inop k0 V1 {[indirect x := bp]} ∅ B k' -> freed V V1 (blocks V x MAXFILE) -> Q tt k') ->
  wp (free_indirect swtch fuel rw dev bp) k Q.
Proof.
  intros Hk0 H Hf0 Hi HQ. unfold free_indirect.
  destruct (in_data _ _ _ _ Hok MAXFILE (le_n _) ltac:(by rewrite slot_ind)) as [Hr _]. rewrite slot_ind in Hr.
  apply (wp_loop (fun q k => exists V1, (q <= NINDIRECT)%nat /\ inop k0 V1 {[indirect x := bp]} ∅ B k /\ freed V V1 (blocks V x (NDIRECT + q)))
    (fun q => (NINDIRECT - q)%nat)); [|by exists V0; rewrite Nat.add_0_r; split_and!; [unfold NINDIRECT; lia|..]|lia].
  intros q k1 (V1 & Hq & H1 & Hf). destruct (Nat.ltb_spec q NINDIRECT) as [Hlt|Hge].
  2:{ apply wp_ret. assert (q = NINDIRECT) as -> by lia. by eapply HQ. }
  assert (Es : slot V x (NDIRECT + q) = get32 (V1 (indirect x)) (4 * q)).
  { rewrite (fr_same _ _ _ _ Hf) by lia. rewrite slot_addr by (unfold MAXFILE; lia). unfold addr_of.
    rewrite (proj2 (Nat.ltb_ge _ _)), (proj2 (Z.eqb_neq _ _)) by (done || lia). f_equal. lia. }
  apply wp_bind. eapply inop_get_indirect; [exact H1|apply lookup_singleton_eq|]. rewrite <- Es.
  destruct (Z.eqb_spec (slot V x (NDIRECT + q)) 0) as [Ez|Ez]; cbn [negb]; apply wp_bind.
  - apply wp_ret, wp_ret. split; [|lia]. exists V1. rewrite Nat.add_succ_r. split_and!; [lia|done|by apply freed_skip].
  - eapply bfree_slot; [exact Hk0|exact H1|done|unfold MAXFILE; lia|done| |rewrite map_size_singleton; lia|].
    + intros c Hc. apply lookup_singleton_None. lia.
    + intros k2 V2 H2 Hf2. apply wp_ret. split; [|lia]. exists V2. rewrite Nat.add_succ_r. split_and!; [lia|done|done].
Qed.

(** The empty file. *)
Definition emptied : inode := set_i_size 0 (set_i_addrs (replicate (S NDIRECT) 0) x).

Lemma itrunc_spec k0 k ip (Q : unit -> kernel fsys -> Prop) :
  based k0 -> inop k0 V ∅ ∅ B k -> entry k0 ip x -> disk_ok sb V -> IBLOCK (i_inum x) sb ∈ B ->
  (forall k' V1, freed V V1 (blocks V x (S MAXFILE)) -> inop (putx ip emptied k0) (put_inode sb V1 emptied) ∅ ∅ B k' -> Q tt k') ->
  wp (itrunc swtch fuel rw ip) k Q.
Proof.
  intros Hk0 H Hx Hd HI HQ. pose proof (in_len _ _ _ _ Hok) as Hlen. pose proof (in_dev _ _ _ _ Hok) as Hdev. unfold itrunc.
  set (x1 := cleared NDIRECT x). set (x2 := set_i_addrs (replicate (S NDIRECT) 0) x).
  assert (Hend : forall k2 V2, inop (putx ip x2 k0) V2 ∅ ∅ B k2 -> freed V V2 (blocks V x (S MAXFILE)) ->
    wp (seti ip (set_i_size 0) >>> iupdate swtch fuel rw ip) k2 Q).
  { intros k2 V2 H2 Hf2. apply wp_bind. eapply inop_seti; [exact H2|by eapply putx_entry|]. intros k3 H3. rewrite putx_putx in H3.
    change (set_i_size 0 x2) with emptied in H3.
    eapply (iupdate_spec swtch fuel Hfuel rw Hrw); [exact Hly| |exact H3|by eapply putx_entry|done| |done|].
    - exact Hk0.
    - pose proof (in_inum _ _ _ _ Hok). cbn. lia.
    - intros k4 H4. by eapply HQ. }
  apply wp_bind. eapply free_direct_spec; [done|exact H|exact Hx|done|]. intros k1 V1 H1 Hf1. fold x1 in H1.
  assert (Hx1 : entry (putx ip x1 k0) ip x1) by (by eapply putx_entry).
  assert (Hl1 : length (i_addrs x1) = S NDIRECT) by (unfold x1, cleared, set_i_addrs; cbn [i_addrs]; rewrite length_app, length_replicate, length_drop; lia).
  assert (E2 : set_i_addrs (<[NDIRECT := 0]> (i_addrs x1)) x1 = x2).
  { unfold x1. rewrite cleared_S by lia. unfold x2, cleared. rewrite drop_ge by lia. by rewrite app_nil_r. }
  assert (Ei : nth NDIRECT (i_addrs x1) 0 = indirect x) by (by apply cleared_nth).
  apply wp_bind. eapply inop_get_addr; [exact H1|exact Hx1|lia|]. rewrite Ei.
  destruct (Z.eqb_spec (indirect x) 0) as [Ez|Ez]; cbn [negb]; apply wp_bind.
  - apply wp_ret. apply (Hend _ V1).
    + rewrite <- E2. unfold x1. rewrite cleared_S, <- cleared_skip by (done || lia). done.
    + assert (E : blocks V x (S MAXFILE) = blocks V x NDIRECT); [|by rewrite E].
      unfold blocks. replace (S MAXFILE) with (NDIRECT + S NINDIRECT)%nat by done. rewrite seq_app, map_app, filter_app.
      rewrite (filter_none _ (map (slot V x) (seq (0 + NDIRECT) (S NINDIRECT)))); [by rewrite app_nil_r|].
      intros b (s & -> & Hs%elem_of_seq)%list_elem_of_fmap Hn. apply Hn. unfold slot, addr_of. rewrite Ez.
      destruct (s =? MAXFILE)%nat; [done|]. by rewrite (proj2 (Nat.ltb_ge _ _)) by lia.
  - apply wp_bind. eapply inop_geti; [exact H1|exact Hx1|]. change (i_dev x1) with (i_dev x). rewrite Hdev. apply wp_bind.
    eapply (inop_bread swtch fuel Hfuel rw Hrw); [exact H1|apply lookup_empty|rewrite map_size_empty; lia|]. intros bp k2 H2. rewrite insert_empty in H2.
    apply wp_bind. eapply free_indirect_spec; [|exact H2|done|done|]; [exact Hk0|]. intros k3 V3 H3 Hf3. apply wp_bind.
    eapply (inop_brelse fuel Hfuel rw Hrw); [exact H3|apply lookup_singleton_eq|set_solver|]. intros k4 H4. rewrite delete_singleton_eq in H4.
    apply wp_bind. rewrite <- (slot_ind V x).
    eapply bfree_slot; [|exact H4|done|done|by rewrite slot_ind|intros; apply lookup_empty|rewrite map_size_empty; lia|]; [exact Hk0|].
    intros k5 V5 H5 Hf5. eapply inop_seti; [exact H5|exact Hx1|]. intros k6 H6. rewrite putx_putx, E2 in H6. by apply (Hend _ V5).
Qed.
End code.

Lemma emptied_slot V x s : slot V (emptied x) s = 0.
Proof.
  unfold slot, addr_of. change (indirect (emptied x)) with 0. cbn [Z.eqb]. destruct (s =? MAXFILE)%nat; [done|].
  destruct (s <? NDIRECT)%nat; [|done]. change (i_addrs (emptied x)) with (replicate (S NDIRECT) 0). rewrite nth_lookup.
  destruct (replicate (S NDIRECT) 0 !! s) eqn:E; [by apply lookup_replicate in E as [-> _]|done].
Qed.

Lemma emptied_ok dev sb V V' x : inode_ok dev sb V x -> inode_ok dev sb V' (emptied x).
Proof.
  intros [H1 H2 H3 H4 H5 H6 H7]. split; try done.
  - intros bn Hbn. cbn in Hbn. lia.
  - intros s _ Hs. by rewrite emptied_slot in Hs.
  - intros s s' _ _ Hs. by rewrite emptied_slot in Hs.
Qed.

Lemma emptied_range x : in_range x -> in_range (emptied x).
Proof. intros ((H1 & H2 & H3 & H4 & H5) & _). split; [cbn; lia|]. split; [done|]. apply Forall_replicate. lia. Qed.
