(* ===== verification/FsTheorems.v ===== *)
(** The theorems on the file system of fs.c: files keep what is written to
    them, directories the names linked in them, paths lead where the
    directories on disk lead, and blocks are allocated and freed exactly. *)

From S2P Require Import Prelude.
From S2P Require Import Spinlock.
From S2P Require Import Riscv.
From S2P Require Import Kalloc.
From S2P Require Import Proc.
From S2P Require Import ProcInv.
From S2P Require Import FsState.
From S2P Require Import Bio.
From S2P Require Import BioSpec.
From S2P Require Import Log.
From S2P Require Import LogSpec.
From S2P Require Import LogTheorems.
From S2P Require Import Fs.
From S2P Require Import FsOp.
From S2P Require Import FsBitmap.
From S2P Require Import FsAlloc.
From S2P Require Import FsInode.
From S2P Require Import FsGrow.
From S2P Require Import FsWritei.
From S2P Require Import FsWrite.
From S2P Require Import FsTable.
From S2P Require Import FsDir.
From S2P Require Import FsTree.
From S2P Require Import FsNamex.
From S2P Require Import FsTrunc.

(** ** Other files *)

(** No block is in both files. *)
Definition apart (V : Z -> block) (x y : inode) : Prop :=
  forall s s', (s <= MAXFILE)%nat -> (s' <= MAXFILE)%nat -> slot V x s <> 0 -> slot V x s <> slot V y s'.

Section files.
Context (dev : Z) (sb : superblock) (start : Z) (Hly : layout sb start).
Implicit Types (V : Z -> block) (x y : inode).

Lemma addr_same V V' y bn : (bn < MAXFILE)%nat -> (indirect y <> 0 -> V' (indirect y) = V (indirect y)) -> addr_of V' y bn = addr_of V y bn.
Proof.
  intros Hb Hi. unfold addr_of. destruct (bn <? NDIRECT)%nat; [done|]. destruct (Z.eqb_spec (indirect y) 0); [done|]. by rewrite Hi.
Qed.

Lemma content_same V V' y : inode_ok dev sb V y -> (forall s, (s <= MAXFILE)%nat -> slot V y s <> 0 -> V' (slot V y s) = V (slot V y s)) ->
  content V' y = content V y.
Proof.
  intros Hok Hs. assert (Hi : indirect y <> 0 -> V' (indirect y) = V (indirect y)).
  { rewrite <- (slot_ind V y). by apply Hs. }
  unfold content. apply map_ext_in. intros o Ho%in_seq. pose proof (in_size _ _ _ _ Hok). pose proof max_bytes.
  pose proof (Nat.div_mod o BSIZE ltac:(done)) as Eo. pose proof (Nat.mod_upper_bound o BSIZE ltac:(done)).
  assert (Hbn : (o / BSIZE < MAXFILE)%nat) by (apply Nat.Div0.div_lt_upper_bound; lia).
  assert (Hz : addr_of V y (o / BSIZE) <> 0) by (apply (in_full _ _ _ _ Hok); lia).
  unfold byte_at. rewrite (addr_same V V' y _ Hbn Hi). rewrite <- (slot_addr V y) in Hz |- * by done. rewrite Hs; [done|lia|done].
Qed.

(** A write to one file leaves another as it is. *)
Lemma update_apart V x V' x' off bs y :
  inode_ok dev sb V x -> inode_ok dev sb V y -> apart V x y -> updates_file dev sb V x V' x' off bs -> content V' y = content V y.
Proof.
  intros Hx Hy Ha Hu. apply content_same; [done|]. intros s Hs Hz. destruct (in_data _ _ _ _ Hy s Hs Hz) as [Hr Huse].
  apply (uf_block _ _ _ _ _ _ _ _ Hu).
  - split; [split; [by right|]|].
    + intros Hi E. apply (Ha MAXFILE s); [lia|done|by rewrite slot_ind|by rewrite slot_ind].
    + intros q Hq Hqz E. by apply (Ha q s); [lia|..].
  - pose proof (in_inum _ _ _ _ Hx). pose proof (IBLOCK_meta sb start Hly (i_inum x) ltac:(lia)).
    pose proof (BBLOCK_meta sb start Hly 0). pose proof (nmeta_pos sb start Hly). pose proof (ly_data _ _ Hly). lia.
Qed.
End files.

Section theorems.
Context `{HLS : LinkerSyms} (swtch : M (kernel fsys) unit) (fuel : nat) (Hfuel : can_wait fuel).
Context (rw : nat -> bool -> M (kernel fsys) unit) (Hrw : driver_ok rw).
Context (i : nat) (pid dev : Z) (sb : superblock) (start : Z) (Hly : layout sb start).
Implicit Types (k : kernel fsys) (V : Z -> block) (x : inode) (B : gset Z).
Abbreviation inop := (inop i pid dev).
Abbreviation inode_ok := (inode_ok dev sb).

(** A write is read back.  [writei] stores all the bytes at the offset and
    grows the file with them, allocating the blocks it lacks; [readi] gives
    them back.  The inode is updated on disk, no other inode on disk changes,
    and a file that shares no block with this one keeps its contents. *)
Theorem writei_readi_roundtrip k0 V B k ip x off bs :
  inop k0 V ∅ ∅ B k -> based sb start k0 -> entry k0 ip x -> disk_ok sb V -> inode_ok V x -> in_range x ->
  (off <= Z.to_nat (i_size x))%nat -> (off + length bs <= MAXFILE * BSIZE)%nat ->
  allows sb B V x (pred (spans off (length bs) + wanted x)) -> covers B V x off (length bs) -> IBLOCK (i_inum x) sb ∈ B ->
  let n := Z.of_nat (length bs) in
  wp (w <- writei swtch fuel rw ip (LocalSrc bs) (Z.of_nat off) n ;;
      r <- readi swtch fuel rw ip (LocalDst []) (Z.of_nat off) n ;;
      ret (w, r)) k
    (fun r k' => r = (n, (n, LocalDst bs)) /\ exists k0' V' x', inop k0' V' ∅ ∅ B k' /\ entry k0' ip x' /\
      disk_ok sb V' /\ inode_ok V' x' /\ content V' x' = splice (content V x) off bs /\
      (forall y, disk_inode sb V' (i_inum x) y = with_disk x' y) /\
      (forall m y, 0 <= m < sb_ninodes sb -> m <> i_inum x -> disk_inode sb V' m y = disk_inode sb V m y) /\
      (forall y, inode_ok V y -> apart V x y -> content V' y = content V y)).
Proof.
  intros H Hk0 Hx Hd Hok Hrg Ho Hmax Hall Hcov HB n. pose proof max_bytes. apply wp_bind.
  eapply (writei_spec swtch fuel Hfuel rw Hrw i pid dev sb start Hly) with (J := fun bs src _ => src = LocalSrc bs);
    [by apply local_source|done|done|done|exact H|exact Hx|done|done|done|done|done|done|].
  intros V' x' k1 k' Hu _ Hf H1. assert (Hx1 : entry k1 ip x') by (eapply entry_files; [exact Hf|by eapply putx_entry]).
  assert (Es : length (content V' x') = Nat.max (Z.to_nat (i_size x)) (off + length bs)).
  { rewrite (uf_content _ _ _ _ _ _ _ _ Hu), splice_size by (by rewrite content_length). by rewrite content_length. }
  rewrite content_length in Es. pose proof (in_size _ _ _ _ (uf_inode _ _ _ _ _ _ _ _ Hu)).
  apply wp_bind. eapply (readi_local swtch fuel Hfuel rw Hrw); [exact Hly|exact H1|exact Hx1|apply Hu|apply Hu|lia|lia|lia|].
  cbn zeta. intros k2 Hk2. rewrite Z.min_l by lia. apply wp_ret. split.
  - rewrite (uf_content _ _ _ _ _ _ _ _ Hu). unfold n. rewrite !Nat2Z.id. rewrite slice_splice by (by rewrite content_length). done.
  - exists k1, V', x'. split_and!; [done|done|apply Hu|apply Hu|apply Hu| | |].
    + intros y. by apply (uf_dinode _ _ _ _ _ _ _ _ Hu).
    + intros m y Hm Hne. by apply (uf_other _ _ _ _ _ _ _ _ Hu).
    + intros y Hy Ha. by apply (update_apart dev sb start Hly V x V' x' off bs).
Qed.

(** What [writei] and [readi] refuse: an offset past the end of the file, a
    length that wraps around, and a write beyond the largest file.  Nothing
    changes, and nothing is read or written. *)
Theorem file_bounds k ip x src off n :
  entry k ip x -> 0 <= off < 2 ^ 32 -> 0 <= n < 2 ^ 32 ->
  (i_size x < off \/ 2 ^ 32 <= off + n \/ Z.of_nat MAXFILE * Z.of_nat BSIZE < off + n ->
    writei swtch fuel rw ip src off n k = Ok (-1, k)) /\
  (forall dst, i_size x < off \/ 2 ^ 32 <= off + n -> readi swtch fuel rw ip dst off n k = Ok ((0, dst), k)).
Proof.
  intros [Hip Hx] Ho Hn. assert (Eg : geti ip k = Ok (x, k)) by (unfold geti; rewrite (proj2 (Z.ltb_ge _ _)), Hx by done; done).
  pose proof max_bytes. assert (Hw : 2 ^ 32 <= off + n -> (u32 (off + n) <? off) = true).
  { intros Hov. apply Z.ltb_lt. unfold u32. dlia. }
  split.
  - intros Hc. unfold writei, bind. rewrite Eg. destruct (Z.ltb_spec (i_size x) off) as [|Hs]; [done|]. cbn [orb].
    destruct (decide (2 ^ 32 <= off + n)) as [Hov|Hov]; [by rewrite Hw|]. rewrite u32_id by lia.
    rewrite (proj2 (Z.ltb_ge _ off)) by lia. by rewrite (proj2 (Z.ltb_lt _ (off + n))) by lia.
  - intros dst Hc. unfold readi, bind. rewrite Eg. destruct (Z.ltb_spec (i_size x) off) as [|Hs]; [done|]. cbn [orb]. by rewrite Hw by lia.
Qed.

Lemma iget_of_spare n T q y : T !! q = Some y -> i_ref y = 0 -> exists j z, iget_of dev n T = Some (j, z).
Proof.
  intros Hq Hy. unfold iget_of. destruct (list_find (holds dev n) T) as [[a b]|]; [by eauto|].
  destruct (list_find unused T) as [[a b]|] eqn:E; [by eauto|]. apply list_find_None in E. rewrite Forall_lookup in E. by destruct (E q y Hq).
Qed.

(** C21. A name that is linked is found.  [dirlink] of a new name writes an
    entry in the first free place of the directory and returns 0; [dirlookup]
    then gives the inode with that number, with a reference to it, and the
    place of the entry.  Every other name gives what it gave before. *)
Theorem dirlink_dirlookup_roundtrip k0 V B k dp x name inum q y :
  inop k0 V ∅ ∅ B k -> based sb start k0 -> entry k0 dp x -> disk_ok sb V -> inode_ok V x -> is_dir V x -> length (table k0) = NINODE ->
  table k0 !! q = Some y -> i_ref y = 0 -> 0 < inum < 2 ^ 16 ->
  dir_find name (content V x) = None -> let off := (dir_free (content V x) * DIRENT)%nat in
  (off + DIRENT <= MAXFILE * BSIZE)%nat -> allows sb B V x (wanted x) -> covers B V x off DIRENT -> IBLOCK (i_inum x) sb ∈ B ->
  wp (w <- dirlink swtch fuel rw dp name inum ;;
      r <- dirlookup swtch fuel rw dp name ;;
      ret (w, r)) k
    (fun r k' => exists j z k0' V' x', r = (0, Some (iptr j, Z.of_nat off)) /\ table k' !! j = Some z /\ holds dev inum z /\
      inop k0' V' ∅ ∅ B k' /\ is_dir V' x' /\ dir_find name (content V' x') = Some (dir_free (content V x), inum) /\
      (forall other, strncpy_n DIRSIZ other <> strncpy_n DIRSIZ name -> dir_find other (content V' x') = dir_find other (content V x))).
Proof.
  intros H Hk0 Hx Hd Hok Hdir Hlen Hq Hy Hn Hf off Hmax Hall Hcov HB. apply wp_bind.
  eapply (dirlink_spec swtch fuel Hfuel rw Hrw); [exact Hly|exact H|done..|]. intros V' x' k1 k' Hu Hfl H1.
  assert (Hu16 : u16 inum = inum) by (apply Z.mod_small; lia). assert (Hu0 : u16 inum <> 0) by lia.
  assert (Ec : content V' x' = splice (content V x) off (new_dirent name inum)) by apply Hu.
  pose proof (uf_meta _ _ _ _ _ _ _ _ Hu) as Em. destruct Hdir as [Hty Hw].
  assert (Hdir' : is_dir V' x').
  { split; [rewrite Em; exact Hty|]. rewrite Ec. apply link_whole; [done|apply dir_free_le|apply new_dirent_length]. }
  pose proof (dir_find_new (content V x) Hw name inum Hu0 Hf) as Ef. fold off in Ef. rewrite <- Ec, Hu16 in Ef.
  assert (Et : table k1 = <[Z.to_nat (dp - 1) := x']> (table k0)) by (unfold table; by rewrite Hfl).
  assert (Hsp : exists q' y', table k1 !! q' = Some y' /\ i_ref y' = 0).
  { exists q. rewrite Et. destruct (decide (Z.to_nat (dp - 1) = q)) as [<-|Hne].
    - exists x'. rewrite list_lookup_insert_eq by (by eapply lookup_lt_Some). split; [done|]. rewrite Em. destruct Hx as [_ Hx].
      unfold table in Hq. rewrite Hx in Hq. by injection Hq as ->.
    - exists y. by rewrite list_lookup_insert_ne. }
  destruct Hsp as (q' & y' & Hq' & Hy'). destruct (iget_of_spare inum _ _ _ Hq' Hy') as (j & z & Ej).
  apply wp_bind. eapply (dirlookup_spec swtch fuel Hfuel rw Hrw);
    [exact Hly|exact H1|eapply entry_files; [exact Hfl|by eapply putx_entry]|apply Hu|apply Hu|done|by rewrite Et, length_insert|].
  rewrite Ef. exists j, z. split; [done|]. intros k2 H2. apply wp_ret. destruct (iget_of_holds _ _ _ _ _ Ej) as [Hz Hj].
  exists j, z, (puti j z k1), V', x'. split_and!; try done.
  - unfold table. rewrite (inop_inodes _ _ _ _ _ _ _ _ _ H2). by apply list_lookup_insert_eq.
  - intros other Ho. rewrite Ec. by apply dir_find_other.
Qed.

Abbreviation starts_at := (starts_at i dev).

(** The entry that is returned, and the references to each inode. *)
Definition led_to k0 k' (w : option Z) (r : Z) : Prop :=
  match w with
  | None => r = 0 /\ forall m, inode_refs (table k') m = inode_refs (table k0) m
  | Some m => (exists j x, r = iptr j /\ table k' !! j = Some x /\ holds dev m x) /\
      forall m', inode_refs (table k') m' = inode_refs (table k0) m' + (if m' =? m then 1 else 0)
  end.

(** C20. A path leads where the directories on disk lead.  [namex] walks them
    from the root or the current directory, takes the empty elements for
    nothing and cuts the others to 14 bytes, and stops at the parent for
    [nameiparent], with the last element in the array.  It returns an entry of
    the table for the inode that the walk gives and 0 if there is none.  The
    table then has one more reference, to that inode, and none otherwise, and
    its entries are still one per inode and copies of the disk; the disk and
    its cache are as before. *)
Theorem namex_resolves live k0 V B k path parent name n :
  disk_ok sb V -> tree dev sb V live -> inop k0 V ∅ ∅ B k -> at_rest dev sb start V live k0 -> 2 <= spare (table k0) ->
  no_nul path -> starts_at live k0 k path n ->
  let w := walk dev sb parent V n (elements path) in
  wp (namex swtch fuel rw path parent name) k (fun '(r, name') k' =>
    table_ok dev sb V live (table k') /\ (exists k0', inop k0' V ∅ ∅ B k' /\ at_rest dev sb start V live k0') /\
    last_name parent (elements path) w name' /\
    led_to k0 k' w r).
Proof.
  intros Hd Htr H Har Hsp Hnn Hst w.
  assert (Hend : forall k0' k' r name', inop k0' V ∅ ∅ B k' -> arrives dev sb start V live (inode_refs (table k0)) w k0' r -> last_name parent (elements path) w name' ->
    table_ok dev sb V live (table k') /\ (exists k0', inop k0' V ∅ ∅ B k' /\ at_rest dev sb start V live k0') /\ last_name parent (elements path) w name' /\
    led_to k0 k' w r).
  { intros k1 k' r name' H1 [Har1 Hw] Hl. assert (table k' = table k1) as -> by apply (inop_inodes _ _ _ _ _ _ _ _ _ H1).
    split; [apply Har1|]. split; [by exists k1|]. split; [done|]. unfold led_to.
    assert (table k' = table k1) as -> by apply (inop_inodes _ _ _ _ _ _ _ _ _ H1). destruct w as [m|]; [|done].
    destruct Hw as (j & -> & x & Hj & Hx & HR & _). split; [by exists j, x|done]. }
  eapply (namex_spec swtch fuel Hfuel rw Hrw); [exact Hly|exact Hd|exact Htr|exact H|exact Har|done|done|exact Hst|].
  intros k1 k' r name' H1 _. by eapply Hend.
Qed.

(** C22. Truncating a file frees its blocks and no other.  After [itrunc] every
    block of the file, direct, indirect and the block of the indirect
    addresses, is free, every other block is as it was in the free map, and the
    contents of all blocks but the free map and the inode's block are
    unchanged.  The inode is empty, in the table and on disk. *)
Theorem itrunc_frees k0 V B k ip x :
  inop k0 V ∅ ∅ B k -> based sb start k0 -> entry k0 ip x -> disk_ok sb V -> inode_ok V x -> in_range x ->
  (forall s, (s <= MAXFILE)%nat -> slot V x s <> 0 -> BBLOCK (slot V x s) sb ∈ B) -> IBLOCK (i_inum x) sb ∈ B ->
  wp (itrunc swtch fuel rw ip) k (fun _ k' => exists k0' V', let x' := emptied x in
    inop k0' V' ∅ ∅ B k' /\ entry k' ip x' /\ disk_ok sb V' /\ inode_ok V' x' /\
    (forall y, disk_inode sb V' (i_inum x) y = with_disk x' y) /\
    (forall c, 0 <= c < sb_size sb -> in_use sb V' c = in_use sb V c && negb (bool_decide (c ∈ blocks V x (S MAXFILE)))) /\
    (forall c, c < sb_bmapstart sb \/ nmeta sb <= c -> c <> IBLOCK (i_inum x) sb -> V' c = V c)).
Proof.
  intros H Hk0 Hx Hd Hok Hrg HB HI. eapply (itrunc_spec swtch fuel Hfuel rw Hrw); [exact Hly|exact Hok|exact HB|exact Hk0|exact H|done..|].
  intros k' V1 Hf H'. set (x' := emptied x) in *. pose proof (in_inum _ _ _ _ Hok) as Hn.
  assert (Hn' : 0 <= i_inum x' < sb_ninodes sb) by (cbn; lia). assert (Hl' : length (i_addrs x') = S NDIRECT) by done.
  exists (putx ip x' k0), (put_inode sb V1 x'). split_and!.
  - done.
  - destruct (putx_entry ip x' x k0 Hx) as [Hip He]. split; [done|]. by rewrite (inop_inodes _ _ _ _ _ _ _ _ _ H').
  - apply (put_inode_disk sb start Hly); [done|done|apply Hf].
  - by eapply emptied_ok.
  - intros y. apply (put_inode_get sb V1 x' y); [by apply emptied_range|apply (iblock_len sb start Hly); [apply Hf|done]].
  - intros c Hc. rewrite (put_inode_use sb start Hly) by done. by apply Hf.
  - intros c Hc Hne. rewrite put_inode_other by done. by apply Hf.
Qed.

(** [balloc] gives the first free block.  It marks that block in use and
    clears it, and changes no other block but the free map.  If no block is
    free it says so on the console and gives 0. *)
Theorem balloc_first_free k0 V B k :
  inop k0 V ∅ ∅ B k -> based sb start k0 -> disk_ok sb V -> may_alloc sb V ∅ B ->
  wp (balloc swtch fuel rw dev) k (fun r k' => exists k0' V', inop k0' V' ∅ ∅ B k' /\ disk_ok sb V' /\
    match free_list sb V with
    | b :: fl => r = b /\ nmeta sb <= b < sb_size sb /\ V' b = replicate BSIZE 0 /\ free_list sb V' = fl /\
        (forall c, 0 <= c < sb_size sb -> in_use sb V' c = (c =? b) || in_use sb V c) /\
        (forall c, c <> b -> c < sb_bmapstart sb \/ nmeta sb <= c -> V' c = V c)
    | [] => r = 0 /\ V' = V /\ fs_uart (k_files k') = shown out_of_blocks (fs_uart (k_files k))
    end).
Proof.
  intros H Hk0 Hd Hmay. eapply (balloc_spec swtch fuel Hfuel rw Hrw);
    [exact Hly|exact Hk0|exact Hd|exact H|intros; apply lookup_empty|rewrite map_size_empty; lia|exact Hmay|].
  destruct (free_list sb V) as [|b fl] eqn:Ef.
  - intros k' H'. exists (reuart (shown out_of_blocks (fs_uart (k_files k0))) k0), V. split_and!; try done.
    rewrite (inop_uart _ _ _ _ _ _ _ _ _ H'), (inop_uart _ _ _ _ _ _ _ _ _ H). done.
  - intros k' H'. assert (Hb : nmeta sb <= b < sb_size sb) by (apply (free_data sb V); [done|rewrite Ef; by left]).
    pose proof (nmeta_pos sb start Hly). exists k0, (alloc sb V b). split_and!; try done.
    + by apply (alloc_ok sb start Hly).
    + lia.
    + lia.
    + unfold alloc. by rewrite upd_eq.
    + by apply (alloc_free sb start Hly).
    + intros c Hc. by apply (alloc_in_use sb start Hly).
    + intros c Hc Hm. apply (alloc_other sb start Hly); [done|done|lia].
Qed.
End theorems.
