(* ===== verification/FsDemo.v ===== *)
(** A small file system for the witnesses of the inode layer: a root directory
    with one file of two bytes. *)

From S2P Require Import Prelude.
From S2P Require Import Spinlock.
From S2P Require Import Riscv.
From S2P Require Import Kalloc.
From S2P Require Import Proc.
From S2P Require Import ProcInv.
From S2P Require Import FsState.
From S2P Require Import Bio.
From S2P Require Import BioSpec.
From S2P Require Import Log.
From S2P Require Import LogSpec.
From S2P Require Import LogTheorems.
From S2P Require Import Fs.
From S2P Require Import FsOp.
From S2P Require Import FsBitmap.
From S2P Require Import FsAlloc.
From S2P Require Import FsInode.
From S2P Require Import FsGrow.
From S2P Require Import FsWritei.
From S2P Require Import FsWrite.
From S2P Require Import FsTable.
From S2P Require Import FsDir.
From S2P Require Import FsTree.
From S2P Require Import FsNamex.
From S2P Require Import FsTrunc.
From S2P Require Import FsTheorems.
From S2P Require Import FsBoot.

Definition demo_sb : superblock := Superblock FSMAGIC 100 62 16 30 2 33 35.

Definition root_inode : inode := Inode 1 1 1 1 T_DIR 0 0 1 48 (36 :: replicate 12 0).
Definition file_inode : inode := Inode 1 2 1 1 T_FILE 0 0 1 2 (37 :: replicate 12 0).
Definition no_inode : inode := Inode 0 0 0 0 0 0 0 0 0 (replicate 13 0).
Definition demo_table : list inode := root_inode :: file_inode :: replicate 48 no_inode.

Definition DOT : Z := 46.
Definition demo_dir : list Z := new_dirent [DOT] 1 ++ new_dirent [DOT; DOT] 1 ++ new_dirent [97] 2.

Definition demo_disk (b : Z) : block :=
  if b =? 33 then put_dinode file_inode 128 (put_dinode root_inode 64 zeros)
  else if b =? 35 then replicate 4 255 ++ 63 :: replicate 1019 0
  else if b =? 36 then demo_dir ++ replicate 976 0
  else if b =? 37 then [104; 105] ++ replicate 1022 0
  else zeros.

(** The blocks that the operations write. *)
Definition demo_writes : gset Z := {[33; 35; 36; 37; 38; 39]}.

Lemma demo_layout : layout demo_sb 2.
Proof. split; cbn; unfold IPB, BSIZE; cbn; try lia; by vm_compute. Qed.

Lemma zlt_forall (P : Z -> Prop) n : Forall P (seqZ 0 n) -> forall b, 0 <= b < n -> P b.
Proof. intros H b Hb. rewrite Forall_forall in H. apply H, elem_of_seqZ. lia. Qed.

Lemma demo_ok : disk_ok demo_sb demo_disk.
Proof.
  split.
  - intros b. unfold demo_disk. repeat case_if; by vm_compute.
  - apply zlt_forall, (bool_decide_unpack _). by vm_compute.
Qed.

Lemma demo_use b : 0 <= b < 38 -> in_use demo_sb demo_disk b = true.
Proof. revert b. apply zlt_forall, (bool_decide_unpack _). by vm_compute. Qed.

(** A file with one block. *)
Lemma one_block V x a s : i_addrs x = a :: replicate 12 0 -> slot V x s <> 0 -> s = 0%nat /\ slot V x s = a.
Proof.
  intros Ea. unfold slot, addr_of. assert (Ei : indirect x = 0) by (unfold indirect; by rewrite Ea). rewrite Ei, Ea. cbn [Z.eqb].
  destruct (s =? MAXFILE)%nat eqn:E; [done|]. destruct (Nat.ltb_spec s NDIRECT) as [Hs|]; [|done]. unfold NDIRECT in Hs.
  do 12 (destruct s as [|s]; [done|]). lia.
Qed.

Lemma one_block_ok V x a : (forall b, 0 <= b < 38 -> in_use demo_sb V b = true) ->
  i_dev x = 1 -> 0 < i_inum x < 16 -> i_addrs x = a :: replicate 12 0 -> 0 <= i_size x <= 1024 -> 36 <= a < 38 -> inode_ok 1 demo_sb V x.
Proof.
  intros Huse Hd Hn Ea Hs Ha. split.
  - done.
  - done.
  - by rewrite Ea.
  - rewrite max_bytes. lia.
  - intros bn Hbn. assert (bn = 0%nat) as -> by (unfold BSIZE in Hbn; lia). unfold addr_of. cbn. rewrite Ea. cbn. lia.
  - intros s Hs' Hz. destruct (one_block _ _ _ _ Ea Hz) as [_ ->]. split; [|apply Huse; lia]. change (nmeta demo_sb) with 36. cbn. lia.
  - intros s s' _ _ Hz E. destruct (one_block _ _ _ _ Ea Hz) as [-> _]. rewrite E in Hz. by destruct (one_block _ _ _ _ Ea Hz) as [-> _].
Qed.

Lemma root_ok : inode_ok 1 demo_sb demo_disk root_inode.
Proof. apply (one_block_ok _ _ 36 demo_use); cbn; done || lia. Qed.
Lemma file_ok : inode_ok 1 demo_sb demo_disk file_inode.
Proof. apply (one_block_ok _ _ 37 demo_use); cbn; done || lia. Qed.

Lemma root_content : content demo_disk root_inode = demo_dir.
Proof. by vm_compute. Qed.

Lemma root_is_dir : is_dir demo_disk root_inode.
Proof. split; [done|]. by rewrite root_content. Qed.

(** The kernel in an operation on this disk. *)
Lemma demo_ready : exists k, inop 0 1 1 k demo_disk ∅ ∅ demo_writes k /\ based demo_sb 2 k /\ table k = demo_table /\
  forall id, Z.of_nat NBUF <= id -> fs_sl (k_files k) id = Sleeplock 0 0.
Proof.
  set (k0 := set_k_files (set_fs_inode demo_table (set_fs_sb demo_sb (blank demo_disk blank_log))) (blank_kernel demo_disk blank_log)).
  assert (Hh : host 0 1 k0) by (split; try done; by exists running_proc).
  pose proof (binit_spec 1 1 k0 zeros ltac:(lia) eq_refl) as Hw.
  apply wp_exists in Hw as (u & k & W & R & C). exists k. split_and!.
  - pose proof (sr_log _ _ R) as El. change (fs_log (k_files k0)) with blank_log in El.
    exists (Cache demo_disk demo_disk ∅ []), []. split; rewrite ?El; try done.
    + assert (relog blank_log k = k) as -> by (rewrite <- El; by destruct k as [? ? ? ? ? ? []]).
      split; [by eapply woke_host|apply woke_refl|apply same_rest_refl|exact C].
    + split; try done; [cbn; lia|constructor|intros b Hb; by apply not_elem_of_nil in Hb..].
    + intros b Hb. by apply not_elem_of_nil in Hb.
    + apply (bool_decide_unpack _). by vm_compute.
  - split; [apply R|by rewrite (sr_log _ _ R)].
  - apply R.
  - intros id Hid. by rewrite (sr_sl _ _ R).
Qed.

(** ** The tree *)

Definition demo_live (n : Z) : Prop := n = 1 \/ n = 2.

Lemma disk_root : on_disk 1 demo_sb demo_disk 1 = set_i_valid 0 (set_i_ref 0 root_inode).
Proof. by vm_compute. Qed.
Lemma disk_file : on_disk 1 demo_sb demo_disk 2 = set_i_valid 0 (set_i_ref 0 file_inode).
Proof. by vm_compute. Qed.

Lemma root_names name e m : dir_find name demo_dir = Some (e, m) -> demo_live m.
Proof.
  unfold dir_find. destruct (list_find (named name) (dirents demo_dir)) as [[q de]|] eqn:E; [|done]. intros [= <- <-].
  apply list_find_Some in E as (Hq & _). assert (Hl : Forall (fun de => demo_live (de_inum de)) (dirents demo_dir)).
  { apply (Forall_cons_2 _ (new_dirent [DOT] 1)); [by left|]. apply (Forall_cons_2 _ (new_dirent [DOT; DOT] 1)); [by left|].
    apply (Forall_cons_2 _ (new_dirent [97] 2)); [by right|constructor]. }
  by apply (Forall_lookup_1 _ _ _ _ Hl Hq).
Qed.

(** A disk with the same directory, and the file [f] for the one of two bytes. *)
Lemma one_file_tree V f :
  (forall b, 0 <= b < 38 -> in_use demo_sb V b = true) -> on_disk 1 demo_sb V 1 = set_i_valid 0 (set_i_ref 0 root_inode) -> content V root_inode = demo_dir ->
  on_disk 1 demo_sb V 2 = set_i_valid 0 (set_i_ref 0 f) -> i_dev f = 1 -> i_inum f = 2 -> i_type f = T_FILE -> i_nlink f = 1 ->
  i_addrs f = 37 :: replicate 12 0 -> 0 <= i_size f <= 1024 -> tree 1 demo_sb V demo_live.
Proof.
  intros Huse E1 Ec E2 Hd Hn Ht Hl Ea Hs. split.
  - intros n [-> | ->]; cbn; lia.
  - intros n [-> | ->]; rewrite ?E1, ?E2; cbn; by rewrite ?Ht.
  - intros n [-> | ->]; rewrite ?E1, ?E2; cbn; by rewrite ?Hl.
  - intros n [-> | ->]; rewrite ?E1, ?E2; [apply (one_block_ok _ _ 36 Huse)|apply (one_block_ok _ _ 37 Huse)]; cbn; done || lia.
  - intros n [-> | ->]; unfold dir_of; rewrite ?E1, ?E2; cbn [i_type set_i_valid set_i_ref]; [|by rewrite Ht]. intros _.
    change (whole (content V root_inode)). by rewrite Ec.
  - intros n name e m [-> | ->]; unfold dir_of; rewrite ?E1, ?E2; cbn [i_type set_i_valid set_i_ref]; [|by rewrite Ht]. intros _.
    change (content V (set_i_valid 0 (set_i_ref 0 root_inode))) with (content V root_inode). rewrite Ec. apply root_names.
Qed.

Lemma demo_tree : tree 1 demo_sb demo_disk demo_live.
Proof. by apply (one_file_tree _ file_inode demo_use disk_root root_content disk_file). Qed.

Lemma demo_table_ok : table_ok 1 demo_sb demo_disk demo_live demo_table.
Proof.
  split.
  - done.
  - assert (Hu : forall j x, demo_table !! j = Some x -> 0 < i_ref x -> i_inum x = Z.of_nat j + 1).
    { intros [|[|j]] x Hj Hr; [by injection Hj as <-..|]. apply lookup_replicate in Hj as [-> _]. done. }
    intros j j' x x' Hj Hj' Hr Hr' _ En. rewrite (Hu j x), (Hu j' x') in En by done. lia.
  - unfold demo_table. apply Forall_cons. split.
    { split; [cbn; lia|]. intros _. split_and!; [done|by left|]. intros _. by vm_compute. }
    apply Forall_cons. split.
    { split; [cbn; lia|]. intros _. split_and!; [done|by right|]. intros _. by vm_compute. }
    apply Forall_replicate. split; [cbn; lia|]. intros Hr. cbn in Hr. lia.
Qed.

(** ** Witnesses *)

Lemma demo_allows x : indirect x = 0 -> allows demo_sb demo_writes demo_disk x 2.
Proof.
  intros Hi. split_and!; [by apply (bool_decide_unpack _); vm_compute| |by intros []].
  assert (Hf : Forall (fun b => b ∈ demo_writes /\ BBLOCK b demo_sb ∈ demo_writes) (take 2 (free_list demo_sb demo_disk))).
  { apply (bool_decide_unpack _). by vm_compute. }
  by rewrite Forall_forall in Hf.
Qed.

Lemma demo_covers x a off n : i_addrs x = a :: replicate 12 0 -> a ∈ demo_writes -> covers demo_writes demo_disk x off n.
Proof.
  intros Ea Ha bn _ _ Hz. destruct (decide (bn < MAXFILE)%nat) as [Hb|Hb].
  - rewrite <- slot_addr in Hz |- * by done. by destruct (one_block _ _ _ _ Ea Hz) as [_ ->].
  - exfalso. apply Hz. unfold addr_of. rewrite (proj2 (Nat.ltb_ge _ _)) by (unfold MAXFILE in Hb; lia). unfold indirect. by rewrite Ea.
Qed.

Lemma demo_written b : bool_decide (b ∈ demo_writes) = true -> b ∈ demo_writes.
Proof. apply bool_decide_eq_true. Qed.

Lemma file_in_range x a : i_addrs x = a :: replicate 12 0 -> 0 <= a < 100 -> 0 <= i_size x <= 1024 ->
  i_type x = T_DIR \/ i_type x = T_FILE -> i_major x = 0 -> i_minor x = 0 -> i_nlink x = 1 -> in_range x.
Proof.
  intros Ea Ha Hs Ht E0 E1 E2. split; [|rewrite Ea; split; [done|]].
  - rewrite E0, E1, E2. unfold T_DIR, T_FILE in Ht. lia.
  - apply Forall_cons. split; [lia|]. apply Forall_replicate. lia.
Qed.

Lemma writei_readi_roundtrip_witness : exists k,
  wp (w <- writei no_switch 1 ideal_rw 2 (LocalSrc [33; 10]) 2 2 ;;
      r <- readi no_switch 1 ideal_rw 2 (LocalDst []) 2 2 ;;
      ret (w, r)) k (fun r _ => r = (2, (2, LocalDst [33; 10]))).
Proof.
  destruct demo_ready as (k & H & Hb & Ht & _). exists k.
  eapply wp_mono; [apply (writei_readi_roundtrip no_switch 1 (Nat.lt_0_succ 0) ideal_rw ideal_ok 0 1 1 demo_sb 2 demo_layout
    k demo_disk demo_writes k 2 file_inode 2 [33; 10] H Hb)|].
  - split; [lia|]. fold (table k). by rewrite Ht.
  - apply demo_ok.
  - apply file_ok.
  - apply (file_in_range _ 37); cbn; auto; lia.
  - cbn. lia.
  - pose proof max_bytes. cbn [length]. lia.
  - by apply demo_allows.
  - by apply (demo_covers _ 37); [|apply demo_written].
  - by apply demo_written.
  - cbn beta. by intros r k' [-> _].
Defined.

Lemma file_bounds_witness :
  let k := set_k_files (set_fs_inode demo_table (blank demo_disk blank_log)) (blank_kernel demo_disk blank_log) in
  writei no_switch 1 ideal_rw 2 (LocalSrc [33]) 3 1 k = Ok (-1, k) /\
  writei no_switch 1 ideal_rw 2 (LocalSrc []) 2 (2 ^ 32 - 1) k = Ok (-1, k) /\
  writei no_switch 1 ideal_rw 2 (LocalSrc []) 2 274431 k = Ok (-1, k).
Proof.
  intros k. assert (Hx : entry k 2 file_inode) by (split; [lia|done]). pose proof max_bytes as Hm.
  split_and!; eapply (file_bounds no_switch 1 ideal_rw k 2 file_inode _ _ _ Hx); change (i_size file_inode) with 2; rewrite ?Hm; lia.
Defined.

Lemma dirlink_dirlookup_roundtrip_witness : exists k,
  wp (w <- dirlink no_switch 1 ideal_rw 1 [98] 3 ;;
      r <- dirlookup no_switch 1 ideal_rw 1 [98] ;;
      ret (w, r)) k (fun r _ => exists j, r = (0, Some (iptr j, 48))).
Proof.
  destruct demo_ready as (k & H & Hb & Ht & _). exists k.
  assert (Ef : dir_free (content demo_disk root_inode) = 3%nat) by (by vm_compute).
  eapply wp_mono; [apply (dirlink_dirlookup_roundtrip no_switch 1 (Nat.lt_0_succ 0) ideal_rw ideal_ok 0 1 1 demo_sb 2 demo_layout
    k demo_disk demo_writes k 1 root_inode [98] 3 2 no_inode H Hb)|].
  - split; [lia|]. fold (table k). by rewrite Ht.
  - apply demo_ok.
  - apply root_ok.
  - apply root_is_dir.
  - by rewrite Ht.
  - by rewrite Ht.
  - done.
  - lia.
  - by vm_compute.
  - rewrite Ef. pose proof max_bytes. unfold DIRENT. lia.
  - by apply demo_allows.
  - by apply (demo_covers _ 36); [|apply demo_written].
  - by apply demo_written.
  - cbn beta. rewrite Ef. intros r k' (j & z & _ & _ & _ & -> & _). by exists j.
Defined.

Lemma namex_resolves_witness : exists k,
  wp (namex no_switch 1 ideal_rw [SLASH; DOT; SLASH; SLASH; 97] false (replicate DIRSIZ 0)) k
    (fun '(r, _) k' => exists j x, r = iptr j /\ table k' !! j = Some x /\ holds 1 2 x).
Proof.
  destruct demo_ready as (k & H & Hb & Ht & Hl). exists k.
  assert (Hf : forall j, unlocked_at k j).
  { intros j. unfold unlocked_at. by rewrite Hl by apply inode_lock_big. }
  eapply wp_mono; [apply (namex_resolves no_switch 1 (Nat.lt_0_succ 0) ideal_rw ideal_ok 0 1 1 demo_sb 2 demo_layout
    demo_live k demo_disk demo_writes k [SLASH; DOT; SLASH; SLASH; 97] false (replicate DIRSIZ 0) ROOTINO demo_ok demo_tree H)|].
  - split; [done|rewrite Ht; apply demo_table_ok|done].
  - rewrite Ht. by vm_compute.
  - by repeat constructor.
  - split_and!; [done|done|by left].
  - assert (walk 1 demo_sb false demo_disk ROOTINO (elements [SLASH; DOT; SLASH; SLASH; 97]) = Some 2) as -> by (by vm_compute).
    intros [r name] k' (_ & _ & _ & Hr & _). exact Hr.
Defined.

Lemma itrunc_frees_witness : exists k,
  wp (itrunc no_switch 1 ideal_rw 2) k (fun _ k' => exists k0 V', inop 0 1 1 k0 V' ∅ ∅ demo_writes k' /\
    in_use demo_sb V' 37 = false /\ in_use demo_sb V' 36 = true /\ entry k' 2 (emptied file_inode)).
Proof.
  destruct demo_ready as (k & H & Hb & Ht & _). exists k.
  eapply wp_mono; [apply (itrunc_frees no_switch 1 (Nat.lt_0_succ 0) ideal_rw ideal_ok 0 1 1 demo_sb 2 demo_layout
    k demo_disk demo_writes k 2 file_inode H Hb)|].
  - split; [lia|]. fold (table k). by rewrite Ht.
  - apply demo_ok.
  - apply file_ok.
  - apply (file_in_range _ 37); cbn; auto; lia.
  - intros s _ Hz. destruct (one_block demo_disk file_inode 37 s eq_refl Hz) as [_ ->]. by apply demo_written.
  - by apply demo_written.
  - cbn beta. intros _ k' (k0 & V' & H' & He & _ & _ & _ & Hu & _). exists k0, V'.
    split_and!; [done|rewrite Hu by (cbn; lia); by vm_compute..|done].
Defined.

Lemma balloc_first_free_witness : exists k,
  wp (balloc no_switch 1 ideal_rw 1) k (fun r k' => r = 38).
Proof.
  destruct demo_ready as (k & H & Hb & Ht & _). exists k.
  eapply wp_mono; [apply (balloc_first_free no_switch 1 (Nat.lt_0_succ 0) ideal_rw ideal_ok 0 1 1 demo_sb 2 demo_layout
    k demo_disk demo_writes k H Hb demo_ok)|].
  - intros b E. assert (head (free_list demo_sb demo_disk) = Some 38) as Eh by (by vm_compute). rewrite Eh in E. injection E as <-.
    split_and!; [by apply demo_written..|apply lookup_empty].
  - cbn beta. intros r k' (k0 & V' & _ & _ & Hr). assert (Eh : head (free_list demo_sb demo_disk) = Some 38) by (by vm_compute).
    destruct (free_list demo_sb demo_disk) as [|b fl]; [done|]. injection Eh as ->. apply Hr.
Defined.
