(* ===== verification/Cat.v ===== *)
(** Displaying files: custom_cat.c. *)

From Stdlib Require Import Ascii.
From S2P Require Import Prelude.
From S2P Require Import UserIO.
From S2P Require Import Wc.

(** ** The program *)

Record cat_opts := CatOpts {
  opt_number : bool; opt_number_nb : bool; opt_show_ends : bool; opt_show_tabs : bool; opt_show_nonprint : bool; opt_squeeze : bool
}.

(** What is printed: a line number, with ["%6ld\t"], or a character. *)
Inductive shown := Num (z : Z) | Chr (c : Z).

(** The variables of [cat_file]; [lineno] is static. *)
Record cat_vars := CatVars { lineno : Z; prev : Z; blank_count : Z; line_started : bool; num_printed : bool }.

(** How a character other than a newline is printed. *)
Definition cat_show (o : cat_opts) (c : Z) : list shown :=
  if (c =? TAB) && opt_show_tabs o then [Chr (ch "^"); Chr (ch "I")]
  else if opt_show_nonprint o && ((c <? 32) || (c =? 127)) && negb (c =? TAB) then
    if c <? 32 then [Chr (ch "^"); Chr (c + 64)] else [Chr (ch "^"); Chr (ch "?")]
  else [Chr c].

(** The body of the loop of [cat_file]. *)
Definition cat_char (o : cat_opts) (s : cat_vars) (c : Z) : cat_vars * list shown :=
  let blank := if opt_squeeze o then if (c =? NL) && (prev s =? NL) then i32 (blank_count s + 1) else 0 else blank_count s in
  if opt_squeeze o && ((c =? NL) && (prev s =? NL)) && (1 <? blank)
  then (CatVars (lineno s) c blank (line_started s) (num_printed s), [])
  else
    let '(n, started, printed, o1) :=
      if prev s =? NL then
        if opt_number o && negb (opt_number_nb o) then (i64 (lineno s + 1), true, true, [Num (i64 (lineno s + 1))])
        else (lineno s, true, false, [])
      else (lineno s, line_started s, num_printed s, []) in
    let '(n, printed, o2) :=
      if opt_number_nb o && negb printed && started && negb (isspace c) && negb (c =? NL)
      then (i64 (n + 1), true, [Num (i64 (n + 1))]) else (n, printed, []) in
    let '(started, o3) :=
      if c =? NL then (false, (if opt_show_ends o then [Chr (ch "$")] else []) ++ [Chr NL])
      else (started, cat_show o c) in
    (CatVars n c blank started printed, o1 ++ o2 ++ o3).

Fixpoint cat_loop (o : cat_opts) (s : cat_vars) (f : list Z) : cat_vars * list shown :=
  match f with
  | [] => (s, [])
  | c :: f' => let '(s1, out) := cat_char o s c in let '(s2, out') := cat_loop o s1 f' in (s2, out ++ out')
  end.

(** [lineno] afterwards, and what is printed. *)
Definition cat_file (o : cat_opts) (n : Z) (f : list Z) : Z * list shown :=
  let '(s, out) := cat_loop o (CatVars n NL 0 false false) f in (lineno s, out).

(** The [switch] of [main] on the letter that [getopt] gives; [None] prints the
    usage. *)
Definition cat_option (o : cat_opts) (opt : ascii) : option cat_opts :=
  match opt with
  | "n" => Some (CatOpts true (opt_number_nb o) (opt_show_ends o) (opt_show_tabs o) (opt_show_nonprint o) (opt_squeeze o))
  | "b" => Some (CatOpts false true (opt_show_ends o) (opt_show_tabs o) (opt_show_nonprint o) (opt_squeeze o))
  | "A" => Some (CatOpts (opt_number o) (opt_number_nb o) true true true (opt_squeeze o))
  | "E" => Some (CatOpts (opt_number o) (opt_number_nb o) true (opt_show_tabs o) (opt_show_nonprint o) (opt_squeeze o))
  | "T" => Some (CatOpts (opt_number o) (opt_number_nb o) (opt_show_ends o) true (opt_show_nonprint o) (opt_squeeze o))
  | "v" => Some (CatOpts (opt_number o) (opt_number_nb o) (opt_show_ends o) (opt_show_tabs o) true (opt_squeeze o))
  | "s" => Some (CatOpts (opt_number o) (opt_number_nb o) (opt_show_ends o) (opt_show_tabs o) (opt_show_nonprint o) true)
  | _ => None
  end%char.

Fixpoint cat_options (o : cat_opts) (opts : list ascii) : option cat_opts :=
  match opts with
  | [] => Some o
  | opt :: opts' => o' ← cat_option o opt; cat_options o' opts'
  end.

(** The loop of [main] over the files: a name and its contents, [None] where
    [fopen] fails; the standard input is at its end after the first use. *)
Fixpoint cat_args (o : cat_opts) (n : Z) (stdin : list Z) (args : list (list Z * option (list Z))) : list shown :=
  match args with
  | [] => []
  | (name, file) :: args' =>
      if decide (name = str "-") then let '(n', out) := cat_file o n stdin in out ++ cat_args o n' [] args'
      else match file with
           | None => cat_args o n stdin args'
           | Some f => let '(n', out) := cat_file o n f in out ++ cat_args o n' stdin args'
           end
  end.

(** [main]: the output and the exit status. *)
Definition cat_main (opts : list ascii) (stdin : list Z) (args : list (list Z * option (list Z))) : list shown * Z :=
  match cat_options (CatOpts false false false false false false) opts with
  | None => ([], 1)
  | Some o => (match args with [] => snd (cat_file o 0 stdin) | _ => cat_args o 0 stdin args end, 0)
  end.

(** ** What is displayed *)

(** With -s, a blank line after a blank line is dropped. *)
Fixpoint squeeze (after_blank : bool) (ls : list (list Z * bool)) : list (list Z * bool) :=
  match ls with
  | [] => []
  | (l, e) :: ls' =>
      let blank := bool_decide (l = []) in
      if after_blank && blank then squeeze true ls' else (l, e) :: squeeze blank ls'
  end.

(** The spaces at the start of a line, and the rest. *)
Fixpoint indent (l : list Z) : list Z * list Z :=
  match l with
  | c :: l' => if isspace c then let '(a, b) := indent l' in (c :: a, b) else ([], l)
  | [] => ([], [])
  end.

(** A line after [n] numbers: whether it has a number, and how it is printed. *)
Definition numbered (o : cat_opts) (l : list Z) : bool :=
  if opt_number_nb o then negb (bool_decide (snd (indent l) = [])) else opt_number o.

Definition show_line (o : cat_opts) (n : Z) (l : list Z) (ended : bool) : list shown :=
  let num := if numbered o l then [Num (n + 1)] else [] in
  let '(a, b) := if opt_number_nb o then indent l else ([], l) in
  flat_map (cat_show o) a ++ num ++ flat_map (cat_show o) b ++
  (if ended then (if opt_show_ends o then [Chr (ch "$")] else []) ++ [Chr NL] else []).

Fixpoint show_lines (o : cat_opts) (n : Z) (ls : list (list Z * bool)) : Z * list shown :=
  match ls with
  | [] => (n, [])
  | (l, e) :: ls' =>
      let '(n', out) := show_lines o (if numbered o l then n + 1 else n) ls' in (n', show_line o n l e ++ out)
  end.

(** ** The loop *)

Lemma cat_loop_app o f g : forall s, cat_loop o s (f ++ g) =
  let '(s1, out) := cat_loop o s f in let '(s2, out') := cat_loop o s1 g in (s2, out ++ out').
Proof.
  induction f as [|c f IH]; intros s; cbn [app cat_loop].
  - by destruct (cat_loop o s g).
  - destruct (cat_char o s c) as [s1 o1]. rewrite IH. destruct (cat_loop o s1 f) as [s2 o2], (cat_loop o s2 g) as [s3 o3]. by rewrite app_assoc.
Qed.

Section line.
Context (o : cat_opts).

(** Inside a line the number is still to come. *)
Definition pending (s : cat_vars) : bool := opt_number_nb o && negb (num_printed s).

(** A character inside a line. *)
Lemma cat_inside s c : prev s <> NL -> c <> NL -> line_started s = true -> - 2 ^ 63 <= lineno s + 1 < 2 ^ 63 ->
  let put := pending s && negb (isspace c) in
  cat_char o s c = (CatVars (if put then lineno s + 1 else lineno s) c (if opt_squeeze o then 0 else blank_count s) true (put || num_printed s),
    (if put then [Num (lineno s + 1)] else []) ++ cat_show o c).
Proof.
  intros Hp Hc Hs Hb put. unfold cat_char. rewrite (proj2 (Z.eqb_neq c NL)), (proj2 (Z.eqb_neq (prev s) NL)) by done. cbn [andb].
  rewrite andb_false_r. cbn [andb]. rewrite Hs, !andb_true_r. unfold put, pending. destruct (opt_number_nb o && negb (num_printed s) && negb (isspace c)).
  - by rewrite i64_id by lia.
  - done.
Qed.

(** The state at the end of a line, before its newline. *)
Definition mid (s : cat_vars) (n : Z) (l : list Z) (s' : cat_vars) : Prop :=
  lineno s' = n /\ prev s' <> NL /\ blank_count s' = (if opt_squeeze o && negb (bool_decide (l = [])) then 0 else blank_count s).

Lemma mid_cons s s1 n c l s' : blank_count s1 = (if opt_squeeze o then 0 else blank_count s) -> mid s1 n l s' -> mid s n (c :: l) s'.
Proof.
  intros E (H1 & H2 & H3). split_and!; [done|done|]. rewrite H3, E. cbn. rewrite andb_true_r. by destruct (opt_squeeze o), (bool_decide (l = [])).
Qed.

(** The rest of a line when its number is printed, or when it has none. *)
Lemma cat_rest l : forall s, Forall (fun c => c <> NL) l -> prev s <> NL -> line_started s = true -> pending s = false -> - 2 ^ 63 <= lineno s + 1 < 2 ^ 63 ->
  exists s', cat_loop o s l = (s', flat_map (cat_show o) l) /\ mid s (lineno s) l s'.
Proof.
  induction l as [|c l IH]; intros s Hl Hp Hs Hpe Hb.
  - exists s. split; [done|]. split_and!; [done|done|]. cbn. by rewrite andb_false_r.
  - inversion Hl as [|? ? Hc Hl']; subst. pose proof (cat_inside s c Hp Hc Hs Hb) as E. rewrite Hpe in E. cbn in E. cbn [cat_loop]. rewrite E.
    destruct (IH (CatVars (lineno s) c (if opt_squeeze o then 0 else blank_count s) true (num_printed s))) as (s' & -> & Hm); try done.
    exists s'. split; [done|]. by eapply mid_cons; [|exact Hm].
Qed.

(** With -b, the number comes before the first character that is no space. *)
Lemma cat_rest_pending l : forall s, Forall (fun c => c <> NL) l -> prev s <> NL -> line_started s = true -> pending s = true -> - 2 ^ 63 <= lineno s + 1 < 2 ^ 63 -> - 2 ^ 63 <= lineno s + 2 < 2 ^ 63 ->
  let '(a, b) := indent l in let put := negb (bool_decide (b = [])) in
  exists s', cat_loop o s l = (s', flat_map (cat_show o) a ++ (if put then [Num (lineno s + 1)] else []) ++ flat_map (cat_show o) b) /\
    mid s (if put then lineno s + 1 else lineno s) l s'.
Proof.
  induction l as [|c l IH]; intros s Hl Hp Hs Hpe Hb Hb2.
  - exists s. split; [done|]. split_and!; [done|done|]. cbn. by rewrite andb_false_r.
  - inversion Hl as [|? ? Hc Hl']; subst. pose proof (cat_inside s c Hp Hc Hs Hb) as E. rewrite Hpe in E. cbn [andb] in E. cbn [cat_loop indent].
    rewrite E. destruct (isspace c); cbn [negb orb app] in *.
    + specialize (IH (CatVars (lineno s) c (if opt_squeeze o then 0 else blank_count s) true (num_printed s)) Hl' Hc eq_refl Hpe Hb Hb2).
      destruct (indent l) as [a b]. destruct IH as (s' & -> & Hm). exists s'. cbn [flat_map]. rewrite <- app_assoc. split; [done|]. by eapply mid_cons; [|exact Hm].
    + destruct (cat_rest l (CatVars (lineno s + 1) c (if opt_squeeze o then 0 else blank_count s) true true)) as (s' & -> & Hm); try done.
      { unfold pending. cbn. apply andb_false_r. }
      { cbn. lia. }
      exists s'. cbn. split; [done|]. by eapply mid_cons; [|exact Hm].
Qed.

(** The first character of a line, after the number that -n gives. *)
Definition line_start (s : cat_vars) : cat_vars :=
  let n := opt_number o && negb (opt_number_nb o) in CatVars (if n then lineno s + 1 else lineno s) 0 (blank_count s) true n.

Lemma cat_first s c : prev s = NL -> c <> NL -> - 2 ^ 63 <= lineno s + 1 < 2 ^ 63 ->
  cat_char o s c = let '(s1, out) := cat_char o (line_start s) c in
    (s1, (if opt_number o && negb (opt_number_nb o) then [Num (lineno s + 1)] else []) ++ out).
Proof.
  intros Hp Hc Hb. unfold cat_char. rewrite Hp, (proj2 (Z.eqb_neq c NL)) by done. cbn [andb prev line_start Z.eqb NL]. rewrite !andb_false_r. cbn [andb].
  rewrite i64_id by lia. unfold line_start. destruct (opt_number o && negb (opt_number_nb o)) eqn:En; cbn.
  - by rewrite !andb_false_r.
  - destruct (opt_number_nb o && true && true && negb (isspace c) && true); done.
Qed.

(** A line up to its end. *)
Lemma cat_text s c l : prev s = NL -> Forall (fun c => c <> NL) (c :: l) -> 0 <= lineno s < 2 ^ 63 - 2 ->
  exists s', cat_loop o s (c :: l) = (s', show_line o (lineno s) (c :: l) false) /\
    mid s (if numbered o (c :: l) then lineno s + 1 else lineno s) (c :: l) s'.
Proof.
  intros Hp Hl Hb. inversion Hl as [|? ? Hc Hl']; subst.
  assert (E : cat_loop o s (c :: l) = let '(s1, out) := cat_loop o (line_start s) (c :: l) in
    (s1, (if opt_number o && negb (opt_number_nb o) then [Num (lineno s + 1)] else []) ++ out)).
  { cbn [cat_loop]. rewrite cat_first by (done || lia). destruct (cat_char o (line_start s) c) as [s1 o1]. destruct (cat_loop o s1 l) as [s2 o2].
    by rewrite app_assoc. }
  rewrite E. clear E. unfold show_line, numbered.
  assert (Hns : prev (line_start s) <> NL) by done. assert (Hbl : blank_count (line_start s) = blank_count s) by done.
  destruct (opt_number_nb o) eqn:Eb.
  - assert (Hpe : pending (line_start s) = true) by (unfold pending, line_start; rewrite Eb; cbn; by rewrite andb_false_r).
    assert (En : lineno (line_start s) = lineno s) by (unfold line_start; rewrite Eb; cbn; by rewrite andb_false_r).
    pose proof (cat_rest_pending (c :: l) (line_start s) Hl Hns eq_refl Hpe) as H. rewrite En in H. specialize (H ltac:(lia) ltac:(lia)).
    destruct (indent (c :: l)) as [a b]. destruct H as (s' & -> & Hm). cbn [snd]. rewrite andb_false_r. exists s'. cbn [app]. by rewrite app_nil_r.
  - assert (Hpe : pending (line_start s) = false) by (unfold pending; by rewrite Eb).
    destruct (cat_rest (c :: l) (line_start s) Hl Hns eq_refl Hpe) as (s' & -> & Hm).
    { unfold line_start. cbn. case_match; lia. }
    exists s'. rewrite andb_true_r, app_nil_r. cbn [flat_map app]. unfold line_start in Hm. rewrite Eb, andb_true_r in Hm. by destruct (opt_number o).
Qed.

Definition line_end : list shown := (if opt_show_ends o then [Chr (ch "$")] else []) ++ [Chr NL].

Lemma cat_newline s : prev s <> NL ->
  cat_char o s NL = (CatVars (lineno s) NL (if opt_squeeze o then 0 else blank_count s) false (num_printed s), line_end).
Proof.
  intros Hp. unfold cat_char. rewrite (proj2 (Z.eqb_neq (prev s) NL)) by done. rewrite andb_false_r. cbn [andb]. rewrite andb_false_r. cbn.
  by rewrite ?andb_false_r.
Qed.

Lemma cat_blank s : prev s = NL -> 0 <= lineno s < 2 ^ 63 - 2 -> 0 <= blank_count s < 2 ^ 31 - 1 ->
  exists s', prev s' = NL /\ blank_count s' = (if opt_squeeze o then blank_count s + 1 else blank_count s) /\
    let skip := opt_squeeze o && (1 <=? blank_count s) in
    lineno s' = (if negb skip && numbered o [] then lineno s + 1 else lineno s) /\
    cat_char o s NL = (s', if skip then [] else show_line o (lineno s) [] true).
Proof.
  intros Hp Hb Hbc. unfold cat_char. rewrite Hp, Z.eqb_refl, i32_id by lia. cbn [andb].
  assert (Es : (1 <? blank_count s + 1) = (1 <=? blank_count s)) by (apply Bool.eq_iff_eq_true; rewrite Z.ltb_lt, Z.leb_le; lia).
  destruct (opt_squeeze o) eqn:Eq; cbn [andb].
  - rewrite Es. destruct (1 <=? blank_count s).
    + eexists (CatVars _ _ _ _ _); cbn; by repeat split.
    + unfold show_line, numbered. destruct (opt_number_nb o), (opt_number o); cbn; rewrite ?i64_id by lia; eexists (CatVars _ _ _ _ _); cbn; by repeat split.
  - unfold show_line, numbered. destruct (opt_number_nb o), (opt_number o); cbn; rewrite ?i64_id by lia; eexists (CatVars _ _ _ _ _); cbn; by repeat split.
Qed.

Lemma bump (b : bool) x : x <= (if b then x + 1 else x) <= x + 1.
Proof. destruct b; lia. Qed.

(** One line with its end. *)
Lemma cat_ended s l : prev s = NL -> Forall (fun c => c <> NL) l -> l <> [] -> 0 <= lineno s < 2 ^ 63 - 2 ->
  exists s', cat_loop o s (l ++ [NL]) = (s', show_line o (lineno s) l true) /\ prev s' = NL /\
    lineno s' = (if numbered o l then lineno s + 1 else lineno s) /\ blank_count s' = (if opt_squeeze o then 0 else blank_count s).
Proof.
  intros Hp Hl Hne Hb. destruct l as [|c l]; [done|]. destruct (cat_text s c l Hp Hl Hb) as (s1 & E & H1 & H2 & H3).
  rewrite cat_loop_app, E. cbn [cat_loop]. rewrite cat_newline by done.
  exists (CatVars (lineno s1) NL (if opt_squeeze o then 0 else blank_count s1) false (num_printed s1)). split; [|split_and!; [done|exact H1|]].
  - rewrite app_nil_r. unfold show_line. destruct (if opt_number_nb o then indent (c :: l) else ([], c :: l)) as [a b].
    by rewrite app_nil_r, <- !app_assoc.
  - cbn. rewrite H3. cbn. rewrite andb_true_r. by destruct (opt_squeeze o).
Qed.

Lemma cat_lines ls : forall s, proper_lines ls -> prev s = NL -> 0 <= lineno s -> lineno s + Z.of_nat (length ls) < 2 ^ 63 - 2 ->
  0 <= blank_count s -> blank_count s + Z.of_nat (length ls) < 2 ^ 31 - 1 ->
  exists s' out, cat_loop o s (concat (map line_bytes ls)) = (s', out) /\
    (lineno s', out) = show_lines o (lineno s) (if opt_squeeze o then squeeze (1 <=? blank_count s) ls else ls).
Proof.
  induction ls as [|[l e] ls IH]; intros s Hpl Hp Hn Hn2 Hbc Hbc2.
  - exists s, []. split; [done|]. by destruct (opt_squeeze o).
  - destruct Hpl as (Hl & He & Hpl). cbn [length] in Hn2, Hbc2. cbn [map concat]. unfold line_bytes at 1. cbn [fst snd].
    destruct e; [|destruct (He eq_refl) as [Hne ->]].
    + rewrite cat_loop_app. destruct (decide (l = [])) as [->|Hne].
      * destruct (cat_blank s Hp ltac:(lia) ltac:(lia)) as (s1 & Hp1 & Hb1 & Hl1 & E). cbn [app cat_loop]. rewrite E. cbn zeta in *.
        assert (Hs1 : lineno s <= lineno s1 <= lineno s + 1) by (rewrite Hl1; apply bump).
        destruct (IH s1 Hpl Hp1 ltac:(lia) ltac:(lia)) as (s' & out & E2 & Eo); [rewrite Hb1; destruct (opt_squeeze o); lia..|].
        rewrite E2, app_nil_r. destruct (opt_squeeze o) eqn:Eq; cbn [andb negb squeeze] in *.
        -- rewrite (bool_decide_eq_true_2 ([] = [])), andb_true_r by done. rewrite Hb1, (proj2 (Z.leb_le 1 (blank_count s + 1))) in Eo by lia. destruct (1 <=? blank_count s); cbn [andb negb] in *.
           ++ rewrite Hl1 in Eo. by eauto.
           ++ do 2 eexists. split; [done|]. cbn [show_lines]. rewrite <- Hl1. by rewrite <- Eo.
        -- do 2 eexists. split; [done|]. cbn [show_lines]. rewrite <- Hl1. by rewrite <- Eo.
      * destruct (cat_ended s l Hp Hl Hne ltac:(lia)) as (s1 & E & Hp1 & Hl1 & Hb1). rewrite E.
        assert (Hs1 : lineno s <= lineno s1 <= lineno s + 1) by (rewrite Hl1; apply bump).
        destruct (IH s1 Hpl Hp1 ltac:(lia) ltac:(lia)) as (s' & out & E2 & Eo); [rewrite Hb1; destruct (opt_squeeze o); lia..|].
        rewrite E2. do 2 eexists. split; [done|]. destruct (opt_squeeze o) eqn:Eq; cbn [squeeze show_lines].
        -- rewrite (bool_decide_eq_false_2 (l = [])), andb_false_r by done. cbn [show_lines]. rewrite Hb1 in Eo. cbn in Eo. rewrite <- Hl1. by rewrite <- Eo.
        -- rewrite <- Hl1. by rewrite <- Eo.
    + destruct l as [|c l]; [done|]. destruct (cat_text s c l Hp Hl ltac:(lia)) as (s1 & E & H1 & _). cbn [map concat app].
      rewrite !app_nil_r, E. do 2 eexists. split; [done|]. destruct (opt_squeeze o); cbn [squeeze].
      * rewrite (bool_decide_eq_false_2 (c :: l = [])), andb_false_r by done. cbn [show_lines]. by rewrite app_nil_r, H1.
      * cbn [show_lines]. by rewrite app_nil_r, H1.
Qed.
End line.

(** C32. custom_cat displays a file line by line: with -s only the first of
    several blank lines, with -n or -b a number, -b numbering the lines that
    are not blank, each character as -T and -v ask, and with -E a dollar sign
    before the newline.  The numbers run on from the file before.  With -b the
    number of an indented line comes after its spaces, inside the line. *)
Theorem cat_displays o n f :
  0 <= n -> n + Z.of_nat (length f) < 2 ^ 63 - 2 -> Z.of_nat (length f) < 2 ^ 31 - 1 ->
  cat_file o n f = show_lines o n (if opt_squeeze o then squeeze false (file_lines f) else file_lines f).
Proof.
  intros Hn Hn2 Hf. destruct (file_lines_ok f) as [Ef Hp]. pose proof (file_lines_length f).
  destruct (cat_lines o (file_lines f) (CatVars n NL 0 false false) Hp eq_refl) as (s & out & E & Eo); [cbn; lia..|].
  rewrite Ef in E. unfold cat_file. rewrite E, Eo. done.
Qed.

Lemma cat_displays_witness :
  cat_file (CatOpts false true true false false true) 0 (str "a" ++ [NL; NL; NL] ++ str " b") =
    (2, [Num 1; Chr (ch "a"); Chr (ch "$"); Chr NL; Chr (ch "$"); Chr NL; Chr (ch " "); Num 2; Chr (ch "b")]).
Proof. rewrite cat_displays; [by vm_compute|done..]. Defined.
