(* ===== verification/HeadTail.v ===== *)
(** The first and last lines of a file: custom_head_tail.c. *)

From Stdlib Require Import Ascii.
From S2P Require Import Prelude.
From S2P Require Import UserIO.
From S2P Require Import Wc.

(** ** The program *)

Definition MAX_LINES : nat := Z.to_nat 10000.
Definition MAX_LEN : nat := 1024.

(** [atoi] of the C library: spaces, a sign and digits; [strtol] stops at the
    ends of [long], and the result is cut to [int]. *)
Fixpoint digits_value (acc : Z) (s : list Z) : Z :=
  match s with
  | c :: s' => if (ch "0" <=? c) && (c <=? ch "9") then digits_value (acc * 10 + (c - ch "0")) s' else acc
  | [] => acc
  end.

Fixpoint skip_space (s : list Z) : list Z :=
  match s with
  | c :: s' => if isspace c then skip_space s' else s
  | [] => []
  end.

Definition libc_atoi (s : list Z) : Z :=
  let s := skip_space s in
  let v := match s with
           | c :: s' => if c =? ch "-" then - digits_value 0 s' else if c =? ch "+" then digits_value 0 s' else digits_value 0 s
           | [] => 0
           end in
  i32 (Z.max (- 2 ^ 63) (Z.min v (2 ^ 63 - 1))).

Record ht_opts := HtOpts { ht_n : Z; show_head : bool; show_tail : bool; filename : option (list Z) }.

(** The loop over the arguments. *)
Fixpoint ht_args (o : ht_opts) (args : list (list Z)) : ht_opts :=
  match args with
  | [] => o
  | a :: args' =>
      match args' with
      | v :: args'' =>
          if decide (a = str "-n") then ht_args (HtOpts (libc_atoi v) (show_head o) (show_tail o) (filename o)) args''
          else if decide (a = str "-h") then ht_args (HtOpts (ht_n o) (show_head o) false (filename o)) args'
          else if decide (a = str "-t") then ht_args (HtOpts (ht_n o) false (show_tail o) (filename o)) args'
          else ht_args (HtOpts (ht_n o) (show_head o) (show_tail o) (Some a)) args'
      | [] =>
          if decide (a = str "-h") then HtOpts (ht_n o) (show_head o) false (filename o)
          else if decide (a = str "-t") then HtOpts (ht_n o) false (show_tail o) (filename o)
          else HtOpts (ht_n o) (show_head o) (show_tail o) (Some a)
      end
  end.

(** The loop that reads the file: the array [lines], whose elements are copies
    up to the first NUL; an element beyond the array is written to other
    memory. *)
Fixpoint ht_read (fuel : nat) (f : list Z) (lines : list (list Z)) : outcome (list (list Z)) :=
  match fuel with
  | O => NoFuel
  | S fuel' =>
      let '(buffer, rest) := c_fgets (MAX_LEN - 1) f in
      match buffer with
      | [] => Ok lines
      | _ => if (MAX_LINES <=? length lines)%nat then Crash else ht_read fuel' rest (lines ++ [cstring buffer])
      end
  end.

(** What is printed: the two headings, and a line. *)
Inductive ht_out := HHead (n : Z) | HTail (n : Z) | HLine (l : list Z).

(** The loops over the lines, from [i] on. *)
Fixpoint ht_head (fuel : nat) (lines : list (list Z)) (n i : Z) : list ht_out :=
  match fuel with
  | O => []
  | S fuel' =>
      if (i <? n) && (i <? Z.of_nat (length lines)) then HLine (nth (Z.to_nat i) lines []) :: ht_head fuel' lines n (i + 1) else []
  end.

Fixpoint ht_tail (fuel : nat) (lines : list (list Z)) (i : Z) : list ht_out :=
  match fuel with
  | O => []
  | S fuel' =>
      if i <? Z.of_nat (length lines)
      then (if 0 <=? i then [HLine (nth (Z.to_nat i) lines [])] else []) ++ ht_tail fuel' lines (i + 1) else []
  end.

(** [main] on the contents of the file; the turns of the second loop are as
    many as [n], and of the first at most as many as the lines. *)
Definition ht_file (o : ht_opts) (f : list Z) : outcome (list ht_out) :=
  match ht_read (S (length f)) f [] with
  | Ok lines =>
      Ok ((if show_head o then HHead (ht_n o) :: ht_head (length lines) lines (ht_n o) 0 else []) ++
          (if show_tail o then
             let i := i32 (Z.of_nat (length lines) - ht_n o) in
             HTail (ht_n o) :: ht_tail (Z.to_nat (Z.of_nat (length lines) - i)) lines i else []))
  | Panic e => Panic e | Crash => Crash | Spin => Spin | NoFuel => NoFuel
  end.

(** [main]: what is printed and the exit status. *)
Definition ht_main (open : list Z -> option (list Z)) (args : list (list Z)) : outcome (list ht_out * Z) :=
  let o := ht_args (HtOpts 10 true true None) args in
  match filename o with
  | None => Ok ([], 1)
  | Some name =>
      match open name with
      | None => Ok ([], 1)
      | Some f => match ht_file o f with
                  | Ok out => Ok (out, 0)
                  | Panic e => Panic e | Crash => Crash | Spin => Spin | NoFuel => NoFuel
                  end
      end
  end.

(** ** What is read *)

(** The lines fit the buffer and hold no NUL. *)
Definition fits (le : list Z * bool) : Prop := (length (fst le) < MAX_LEN - 1)%nat /\ Forall (fun c => c <> 0) (fst le).

Lemma cstring_line le : fits le -> cstring (line_bytes le) = line_bytes le.
Proof. intros [_ H]. apply cstring_id, Forall_app. split; [done|]. destruct (snd le); by repeat constructor. Qed.

Lemma ht_read_lines ls : forall fuel acc, proper_lines ls -> Forall fits ls -> (length ls < fuel)%nat -> (length acc <= MAX_LINES)%nat ->
  ht_read fuel (concat (map line_bytes ls)) acc =
    if decide (length acc + length ls <= MAX_LINES)%nat then Ok (acc ++ map line_bytes ls) else Crash.
Proof.
  induction ls as [|[l e] ls IH]; intros [|fuel] acc Hp Hf Hn Ha; cbn [length] in Hn; try lia.
  - cbn. rewrite Nat.add_0_r, app_nil_r. by rewrite decide_True.
  - destruct Hp as (Hl & He & Hp). inversion Hf as [|? ? Hfl Hfs]; subst. pose proof (cstring_line _ Hfl) as Hc. destruct Hfl as [Hlen _]. cbn [fst] in Hlen.
    assert (E : c_fgets (MAX_LEN - 1) (concat (map line_bytes ((l, e) :: ls))) = (line_bytes (l, e), concat (map line_bytes ls))).
    { cbn [map concat]. unfold line_bytes at 1 3. cbn [fst snd]. destruct e.
      - rewrite <- app_assoc. cbn [app]. by apply fgets_line.
      - destruct (He eq_refl) as [_ ->]. cbn [map concat]. rewrite !app_nil_r. by apply fgets_last. }
    cbn [ht_read]. rewrite E, Hc. destruct (line_bytes (l, e)) as [|c b] eqn:El.
    { unfold line_bytes in El. cbn in El. apply app_eq_nil in El as [-> El]. destruct e; [done|]. by destruct (He eq_refl). }
    rewrite <- El. cbn [length]. destruct (Nat.leb_spec MAX_LINES (length acc)).
    + by rewrite decide_False by lia.
    + rewrite IH by (done || (rewrite ?length_app; cbn; lia)). rewrite length_app. cbn [length map]. rewrite <- app_assoc. cbn [app].
      repeat case_decide; done || lia.
Qed.

(** ** What is printed *)

Lemma ht_head_take lines n : forall fuel i, 0 <= i -> (Z.to_nat i <= length lines)%nat -> (length lines - Z.to_nat i <= fuel)%nat ->
  ht_head fuel lines n i = map HLine (take (Z.to_nat (n - i)) (drop (Z.to_nat i) lines)).
Proof.
  induction fuel as [|fuel IH]; intros i Hi Hl Hf.
  - rewrite drop_ge by lia. by rewrite take_nil.
  - cbn [ht_head]. destruct (Z.ltb_spec i n), (Z.ltb_spec i (Z.of_nat (length lines))); cbn [andb].
    + rewrite IH by lia. destruct (lookup_lt_is_Some_2 lines (Z.to_nat i)) as [l E]; [lia|]. rewrite (drop_S _ _ _ E).
      rewrite (nth_lookup_Some _ _ _ _ E). replace (Z.to_nat (n - i)) with (S (Z.to_nat (n - (i + 1)))) by lia. cbn [take map].
      by replace (Z.to_nat (i + 1)) with (S (Z.to_nat i)) by lia.
    + rewrite drop_ge by lia. by rewrite take_nil.
    + replace (Z.to_nat (n - i)) with 0%nat by lia. by rewrite take_0.
    + rewrite drop_ge by lia. by rewrite take_nil.
Qed.

Lemma ht_tail_drop lines : forall fuel i, Z.of_nat (length lines) - i <= Z.of_nat fuel ->
  ht_tail fuel lines i = map HLine (drop (Z.to_nat i) lines).
Proof.
  induction fuel as [|fuel IH]; intros i Hf.
  - by rewrite drop_ge by lia.
  - cbn [ht_tail]. destruct (Z.ltb_spec i (Z.of_nat (length lines))); [|by rewrite drop_ge by lia]. rewrite IH by lia.
    destruct (Z.leb_spec 0 i).
    + destruct (lookup_lt_is_Some_2 lines (Z.to_nat i)) as [l E]; [lia|]. rewrite (drop_S _ _ _ E), (nth_lookup_Some _ _ _ _ E).
      by replace (Z.to_nat (i + 1)) with (S (Z.to_nat i)) by lia.
    + cbn [app]. by replace (Z.to_nat (i + 1)) with (Z.to_nat i) by lia.
Qed.

(** custom_head_tail prints the first and the last [n] lines of a file of at
    most 10000 lines, all of them if the file has fewer and none if [n] is not
    positive.  On a longer file it writes past the end of its array. *)
Theorem head_tail_prints o f :
  Forall fits (file_lines f) -> - 2 ^ 31 + 10000 < ht_n o < 2 ^ 31 ->
  let lines := map line_bytes (file_lines f) in let n := Z.to_nat (ht_n o) in
  ht_file o f =
    if decide (length lines <= MAX_LINES)%nat then
      Ok ((if show_head o then HHead (ht_n o) :: map HLine (take n lines) else []) ++
          (if show_tail o then HTail (ht_n o) :: map HLine (drop (length lines - n) lines) else []))
    else Crash.
Proof.
  intros Hf Hn lines n. destruct (file_lines_ok f) as [Ef Hp]. pose proof (file_lines_length f). unfold ht_file.
  rewrite <- Ef at 2. rewrite ht_read_lines; [|done|done|lia|cbn; lia]. cbn [length]. rewrite app_nil_l, Nat.add_0_l. fold lines.
  assert (El : length lines = length (file_lines f)) by apply length_map. rewrite <- El.
  assert (Z.of_nat MAX_LINES = 10000) by done. case_decide; [|done]. rewrite ht_head_take by lia. rewrite i32_id by lia. rewrite ht_tail_drop by lia.
  rewrite drop_0, Z.sub_0_r. do 2 f_equal. destruct (show_tail o); [|done]. do 2 f_equal. unfold n.
  destruct (decide (0 <= ht_n o)); [f_equal; lia|by rewrite !drop_ge by lia].
Qed.

Lemma head_tail_prints_witness :
  ht_file (HtOpts 1 true true None) (str "a" ++ [NL] ++ str "b" ++ [NL] ++ str "c") =
    Ok [HHead 1; HLine (str "a" ++ [NL]); HTail 1; HLine (str "c")].
Proof.
  rewrite head_tail_prints; [by vm_compute| |by vm_compute].
  repeat apply Forall_cons_2; [split; [cbn; lia|by repeat constructor]..|constructor].
Defined.
