(* ===== verification/CustomGrep.v ===== *)
(** Searching for patterns: custom_grep.c.

    The regular expressions of the C library and the file system are
    parameters: [regcomp] gives the test that [regexec] makes, and [env] what
    stat, fopen and readdir give for a path. *)

From Stdlib Require Import Ascii.
From S2P Require Import Prelude.
From S2P Require Import UserIO.

(** ** The program *)

Record grep_opts := GrepOpts {
  g_ignore_case : bool; g_invert : bool; g_line_num : bool; g_count : bool; g_list_files : bool; g_recursive : bool;
  g_whole_word : bool; g_whole_line : bool; g_quiet : bool; g_force_fname : bool; g_no_fname : bool; g_pattern : option (list Z)
}.

(** What is printed: ["%s:"], ["%ld:"], a matching line, a count, the name of a
    file with a match; and a message on the standard error. *)
Inductive gout := GName (s : list Z) | GNum (n : Z) | GLine (l : list Z) | GCount (n : Z) | GList (s : list Z) | GErr (s : list Z).

Definition STDIN : list Z := str "(stdin)".

(** [printf("%s:", filename)], which is not defined for a null pointer. *)
Definition print_name (filename : option (list Z)) : outcome (list gout) :=
  match filename with Some s => Ok [GName s] | None => Crash end.

(** The loop of [do_grep] over the lines that [getline] gives: what is printed,
    and either the early return or [match_count]. *)
Fixpoint grep_loop (o : grep_opts) (filename : option (list Z)) (print_fname : bool) (re : list Z -> bool)
    (ls : list (list Z * bool)) (lineno match_count : Z) : outcome (list gout * option Z) :=
  match ls with
  | [] => Ok ([], Some match_count)
  | (line, _) :: ls' =>
      let lineno := i64 (lineno + 1) in
      let line := cstring line in
      let matched := if g_invert o then negb (re line) else re line in
      if matched then
        let match_count := i64 (match_count + 1) in
        if g_quiet o then Ok ([], None)
        else if g_list_files o then Ok ([GList (default STDIN filename)], None)
        else if g_count o then grep_loop o filename print_fname re ls' lineno match_count
        else
          match (if print_fname then print_name filename else Ok []) with
          | Ok name =>
              match grep_loop o filename print_fname re ls' lineno match_count with
              | Ok (out, r) => Ok (name ++ (if g_line_num o then [GNum lineno] else []) ++ [GLine line] ++ out, r)
              | e => e
              end
          | Panic e => Panic e | Crash => Crash | Spin => Spin | NoFuel => NoFuel
          end
      else grep_loop o filename print_fname re ls' lineno match_count
  end.

(** [do_grep]: what is printed, and the value returned; [found_any] is set when
    it is true. *)
Definition do_grep (o : grep_opts) (multi_file : bool) (filename : option (list Z)) (f : list Z) (re : list Z -> bool) : outcome (list gout * bool) :=
  let print_fname := (multi_file || g_force_fname o) && negb (g_no_fname o) in
  match grep_loop o filename print_fname re (file_lines f) 0 0 with
  | Ok (out, None) => Ok (out, true)
  | Ok (out, Some match_count) =>
      Ok (out ++ (if g_count o then (if print_fname then [GName (default STDIN filename)] else []) ++ [GCount match_count] else []), 0 <? match_count)
  | Panic e => Panic e | Crash => Crash | Spin => Spin | NoFuel => NoFuel
  end.

(** What the system calls give for a path: [None] where they fail. *)
Record env := Env { is_dir : list Z -> option bool; contents : list Z -> option (list Z); entries : list Z -> option (list (list Z)) }.

(** [snprintf] into 4096 bytes. *)
Definition PATHBUF : nat := 4095.
Definition child_path (dirpath name : list Z) : list Z := take PATHBUF (dirpath ++ str "/" ++ name).

(** Two runs one after the other. *)
Definition then_grep (a : outcome (list gout * bool)) (b : outcome (list gout * bool)) : outcome (list gout * bool) :=
  match a with
  | Ok (o1, r1) => match b with Ok (o2, r2) => Ok (o1 ++ o2, r1 || r2) | e => e end
  | e => e
  end.

(** [grep_path] and, for the entries of a directory, [grep_dir]; the fuel is
    the depth. *)
Fixpoint grep_path (fuel : nat) (o : grep_opts) (multi_file : bool) (e : env) (re : list Z -> bool) (path : list Z) : outcome (list gout * bool) :=
  match fuel with
  | O => NoFuel
  | S fuel' =>
      match is_dir e path with
      | None => Ok ([GErr path], false)
      | Some true =>
          if g_recursive o then
            match entries e path with
            | None => Ok ([GErr path], false)
            | Some names =>
                (fix grep_dir (names : list (list Z)) :=
                  match names with
                  | [] => Ok ([], false)
                  | name :: names' =>
                      if decide (name = str ".") then grep_dir names'
                      else if decide (name = str "..") then grep_dir names'
                      else then_grep (grep_path fuel' o multi_file e re (child_path path name)) (grep_dir names')
                  end) names
            end
          else Ok ([GErr path], false)
      | Some false =>
          match contents e path with
          | None => Ok ([GErr path], false)
          | Some f => do_grep o multi_file (Some path) f re
          end
      end
  end.

(** The [switch] of [main]; [arg] is [optarg], and [None] prints the usage. *)
Definition grep_option (o : grep_opts) (opt : ascii) (arg : list Z) : option grep_opts :=
  let 'GrepOpts i v n c l r w x q H h p := o in
  match opt with
  | "i" => Some (GrepOpts true v n c l r w x q H h p)
  | "v" => Some (GrepOpts i true n c l r w x q H h p)
  | "n" => Some (GrepOpts i v true c l r w x q H h p)
  | "c" => Some (GrepOpts i v n true l r w x q H h p)
  | "l" => Some (GrepOpts i v n c true r w x q H h p)
  | "r" => Some (GrepOpts i v n c l true w x q H h p)
  | "w" => Some (GrepOpts i v n c l r true x q H h p)
  | "x" => Some (GrepOpts i v n c l r w true q H h p)
  | "q" => Some (GrepOpts i v n c l r w x true H h p)
  | "H" => Some (GrepOpts i v n c l r w x q true h p)
  | "h" => Some (GrepOpts i v n c l r w x q H true p)
  | "e" => Some (GrepOpts i v n c l r w x q H h (Some arg))
  | _ => None
  end%char.

Fixpoint grep_options (o : grep_opts) (opts : list (ascii * list Z)) : option grep_opts :=
  match opts with
  | [] => Some o
  | (opt, arg) :: opts' => o' ← grep_option o opt arg; grep_options o' opts'
  end.

(** The regular expression built around the pattern. *)
Definition grep_pattern (o : grep_opts) (p : list Z) : list Z :=
  take PATHBUF
    (if g_whole_line o then str "^(" ++ p ++ str ")$"
     else if g_whole_word o then str "(^|[^[:alnum:]_])(" ++ p ++ str ")([^[:alnum:]_]|$)"
     else p).

(** The loop of [main] over the files. *)
Fixpoint grep_args (fuel : nat) (o : grep_opts) (multi_file : bool) (e : env) (re : list Z -> bool) (args : list (list Z)) : outcome (list gout * bool) :=
  match args with
  | [] => Ok ([], false)
  | a :: args' => then_grep (grep_path fuel o multi_file e re a) (grep_args fuel o multi_file e re args')
  end.

(** [main]: what is printed, and the exit status. *)
Definition grep_main (regcomp : list Z -> bool -> option (list Z -> bool)) (fuel : nat) (e : env) (stdin : list Z)
    (opts : list (ascii * list Z)) (args : list (list Z)) : outcome (list gout * Z) :=
  match grep_options (GrepOpts false false false false false false false false false false false None) opts with
  | None => Ok ([GErr (str "Usage")], 2)
  | Some o =>
      match (match g_pattern o with Some p => Some (p, args) | None => match args with p :: args' => Some (p, args') | [] => None end end) with
      | None => Ok ([GErr (str "missing pattern")], 2)
      | Some (p, args) =>
          match regcomp (grep_pattern o p) (g_ignore_case o) with
          | None => Ok ([GErr p], 2)
          | Some re =>
              let multi_file := (1 <? length args)%nat in
              match (match args with [] => do_grep o multi_file None stdin re | _ => grep_args fuel o multi_file e re args end) with
              | Ok (out, found_any) => Ok (out, if found_any then 0 else 1)
              | Panic e => Panic e | Crash => Crash | Spin => Spin | NoFuel => NoFuel
              end
          end
      end
  end.

(** ** What is printed *)

(** The lines that are selected, with their numbers. *)
Definition selects (o : grep_opts) (re : list Z -> bool) (l : list Z) : bool := xorb (g_invert o) (re l).

Definition texts (f : list Z) : list (list Z) := map (fun le => cstring (fst le)) (file_lines f).
Definition selected (o : grep_opts) (re : list Z -> bool) (n : Z) (ls : list (list Z)) : list (Z * list Z) :=
  filter (fun nl => selects o re (snd nl) = true) (zip (seqZ (n + 1) (Z.of_nat (length ls))) ls).

Definition shows_name (o : grep_opts) (multi_file : bool) : bool := (multi_file || g_force_fname o) && negb (g_no_fname o).

(** A selected line as it is printed. *)
Definition show_match (o : grep_opts) (name : option (list Z)) (nl : Z * list Z) : list gout :=
  (match name with Some s => [GName s] | None => [] end) ++ (if g_line_num o then [GNum (fst nl)] else []) ++ [GLine (snd nl)].

Lemma selected_cons o re n l ls :
  selected o re n (l :: ls) = (if selects o re l then [(n + 1, l)] else []) ++ selected o re (n + 1) ls.
Proof.
  unfold selected. cbn [length]. rewrite Nat2Z.inj_succ, seqZ_cons by lia. rewrite Z.pred_succ. cbn [zip].
  change (Z.succ (n + 1)) with (n + 1 + 1). rewrite filter_cons. cbn [snd]. destruct (selects o re l) eqn:E.
  - by rewrite decide_True.
  - by rewrite decide_False by done.
Qed.

Lemma select_if o re l : (if g_invert o then negb (re l) else re l) = selects o re l.
Proof. unfold selects. by destruct (g_invert o). Qed.

(** The loop goes through all the lines, or stops at the first that is selected. *)
Lemma grep_loop_all o filename pf re : forall ls n m, g_quiet o = false -> g_list_files o = false ->
  0 <= n -> n + Z.of_nat (length ls) < 2 ^ 63 -> 0 <= m -> m + Z.of_nat (length ls) < 2 ^ 63 ->
  let sel := selected o re n (map (fun le => cstring (fst le)) ls) in
  (pf = true -> g_count o = false -> filename = None -> sel = []) ->
  grep_loop o filename pf re ls n m =
    Ok (if g_count o then [] else flat_map (show_match o (if pf then filename else None)) sel, Some (m + Z.of_nat (length sel))).
Proof.
  intros ls. induction ls as [|[l e] ls IH]; intros n m Hq Hl Hn0 Hnb Hm0 Hmb sel Hn.
  - cbn. rewrite Z.add_0_r. by destruct (g_count o).
  - cbn [length] in Hnb, Hmb. unfold sel in *. clear sel. cbn [map fst] in *. rewrite selected_cons in *. cbn [grep_loop].
    rewrite !i64_id by lia. rewrite Hq, Hl, (select_if o re (cstring l)). destruct (selects o re (cstring l)); cbn [app length] in *.
    + set (sel := selected o re (n + 1) _) in *. assert (Hn' : pf = true -> g_count o = false -> filename = None -> sel = []) by (intros A B C; discriminate (Hn A B C)).
      rewrite (IH (n + 1) (m + 1)) by (done || lia). fold sel. rewrite Nat2Z.inj_succ. replace (m + 1 + Z.of_nat (length sel)) with (m + Z.succ (Z.of_nat (length sel))) by lia.
      destruct (g_count o) eqn:Ec; [done|]. cbn [flat_map]. unfold show_match at 2. cbn [fst snd]. destruct pf; cbn [app].
      * destruct filename as [s|]; [|discriminate (Hn eq_refl eq_refl eq_refl)]. cbn. by rewrite <- !app_assoc.
      * by rewrite <- !app_assoc.
    + rewrite IH by (done || lia). done.
Qed.

Lemma grep_loop_stops o filename pf re : forall ls n m, g_quiet o || g_list_files o = true ->
  0 <= n -> n + Z.of_nat (length ls) < 2 ^ 63 ->
  grep_loop o filename pf re ls n m =
    if decide (selected o re n (map (fun le => cstring (fst le)) ls) = []) then Ok ([], Some m)
    else Ok (if g_quiet o then [] else [GList (default STDIN filename)], None).
Proof.
  intros ls. induction ls as [|[l e] ls IH]; intros n m Hq Hn Hb; [done|]. cbn [length] in Hb. cbn [map fst]. rewrite selected_cons.
  cbn [grep_loop]. rewrite (i64_id (n + 1)) by lia. rewrite (select_if o re (cstring l)).
  destruct (selects o re (cstring l)); cbn [app].
  - rewrite decide_False by done. destruct (g_quiet o); [done|]. cbn in Hq. by rewrite Hq.
  - apply IH; [done|lia|lia].
Qed.

Lemma selected_none o re ls : forall n n', selected o re n ls = [] <-> selected o re n' ls = [].
Proof. induction ls as [|l ls IH]; intros n n'; [done|]. rewrite !selected_cons. destruct (selects o re l); [done|]. apply IH. Qed.

(** With a null file name the first line that is to be printed is not defined. *)
Lemma grep_loop_null o re : forall ls n m, g_quiet o = false -> g_list_files o = false -> g_count o = false -> 0 <= n -> n + Z.of_nat (length ls) < 2 ^ 63 ->
  selected o re n (map (fun le => cstring (fst le)) ls) <> [] -> grep_loop o None true re ls n m = Crash.
Proof.
  intros ls. induction ls as [|[l e] ls IH]; intros n m Hq Hl Hc Hn Hb Hs; [done|]. cbn [length] in Hb. cbn [map fst] in Hs. rewrite selected_cons in Hs.
  cbn [grep_loop]. rewrite Hq, Hl, Hc. rewrite (i64_id (n + 1)) by lia.
  rewrite (select_if o re (cstring l)). destruct (selects o re (cstring l)); [done|]. by apply IH; [..|lia|lia|].
Qed.

(** The line with the count, and all that is printed for a file. *)
Definition show_count (o : grep_opts) (multi : bool) (name : option (list Z)) (n : Z) : list gout :=
  (if shows_name o multi then [GName (default STDIN name)] else []) ++ [GCount n].

Definition grep_shows (o : grep_opts) (multi : bool) (name : option (list Z)) (sel : list (Z * list Z)) : list gout :=
  if g_quiet o || g_list_files o then
    match sel with
    | [] => if g_count o then show_count o multi name 0 else []
    | _ => if g_quiet o then [] else [GList (default STDIN name)]
    end
  else if g_count o then show_count o multi name (Z.of_nat (length sel))
  else flat_map (show_match o (if shows_name o multi then name else None)) sel.

(** C33. custom_grep prints the lines of a file that match, or with -v those that
    do not, each with the name of the file and its number as asked; with -c
    their count, with -l the name of the file if there are any, and with -q
    nothing if there are any.  The value returned is whether a line is
    selected.  With -H on the standard input a null pointer is printed as the
    name of the first selected line. *)
Theorem do_grep_prints o multi name f re :
  Z.of_nat (length f) < 2 ^ 63 - 1 ->
  let sel := selected o re 0 (texts f) in
  let null := bool_decide (name = None) && shows_name o multi && negb (g_quiet o) && negb (g_list_files o) && negb (g_count o) in
  do_grep o multi name f re =
    if null && negb (bool_decide (sel = [])) then Crash else Ok (grep_shows o multi name sel, negb (bool_decide (sel = []))).
Proof.
  intros Hf sel null. pose proof (file_lines_length f). unfold do_grep, null, grep_shows, show_count. fold (shows_name o multi).
  destruct (g_quiet o || g_list_files o) eqn:Eq.
  - assert (En : negb (g_quiet o) && negb (g_list_files o) = false) by (by rewrite <- negb_orb, Eq). rewrite <- !andb_assoc, (andb_assoc (negb (g_quiet o))), En, !andb_false_r.
    cbn [andb]. rewrite grep_loop_stops by (done || lia). fold (texts f). fold sel. destruct sel as [|p sel']; [|by destruct (g_quiet o)].
    by rewrite decide_True.
  - apply orb_false_iff in Eq as [E1 E2]. rewrite E1, E2. cbn [negb]. rewrite !andb_true_r.
    destruct (bool_decide (name = None) && shows_name o multi && negb (g_count o) && negb (bool_decide (sel = []))) eqn:En.
    + rewrite !andb_true_iff, !negb_true_iff, bool_decide_eq_true, bool_decide_eq_false in En. destruct En as [[[-> ->] Ec] Hs].
      by rewrite grep_loop_null by (done || lia).
    + rewrite grep_loop_all; [|done|done|lia|lia|lia|lia|].
      * fold (texts f). fold sel. rewrite Z.add_0_l. do 2 f_equal.
        -- by destruct (g_count o); [|rewrite app_nil_r].
        -- destruct sel; [done|]. cbn [length]. by rewrite (proj2 (Z.ltb_lt _ _)) by lia.
      * fold (texts f). fold sel. intros H1 H2 ->. rewrite H1, H2 in En. by destruct sel.
Qed.

Lemma do_grep_prints_witness :
  do_grep (GrepOpts false true true false false false false false false false false None) true (Some (str "f"))
    (str "ab" ++ [NL] ++ str "cd") (fun l => bool_decide (l = str "ab")) = Ok ([GName (str "f"); GNum 2; GLine (str "cd")], true).
Proof. rewrite do_grep_prints; by vm_compute. Defined.
