(* ===== verification/Shell.v ===== *)
(** The command loop of Shell.c. *)

From Stdlib Require Import Ascii.
From S2P Require Import Prelude.
From S2P Require Import UserIO.
From S2P Require Import Wc.

(** ** The program *)

Definition MAX_INPUT : nat := 1024.
Definition MAX_ARGS : nat := 128.

(** The delimiters of [strtok]: [" \t"]. *)
Definition delim (c : Z) : bool := (c =? 32) || (c =? TAB).

(** [strtok]: the next token and the rest of the string. *)
Fixpoint skip_delims (s : list Z) : list Z :=
  match s with
  | c :: s' => if delim c then skip_delims s' else s
  | [] => []
  end.

Fixpoint token_of (s : list Z) : list Z * list Z :=
  match s with
  | c :: s' => if delim c then ([], s') else let '(t, r) := token_of s' in (c :: t, r)
  | [] => ([], [])
  end.

Definition strtok (s : list Z) : option (list Z * list Z) :=
  match skip_delims s with
  | [] => None
  | s' => Some (token_of s')
  end.

(** The loop of [parse_input]; the fuel is the room in [args]. *)
Fixpoint parse_loop (room : nat) (s : list Z) : list (list Z) :=
  match room with
  | O => []
  | S room' => match strtok s with None => [] | Some (t, r) => t :: parse_loop room' r end
  end.

Definition parse_input (line : list Z) : list (list Z) := parse_loop (MAX_ARGS - 1) line.

(** What the shell does: it prints its banner, the prompt, a newline or
    "Goodbye!"; forks a child that runs a program with its arguments and waits
    for it, or reports that it cannot fork; or reports an unknown command. *)
Inductive event :=
  | Banner | Prompt | EndLine | Goodbye
  | Run (path : list Z) (args : list (list Z)) | ForkFailed | Unknown (cmd : list Z).

(** [run_custom_wc] and the like, with the result of [fork]. *)
Definition run_custom (forked : bool) (path : list Z) (args : list (list Z)) : event :=
  if forked then Run path (path :: args) else ForkFailed.

(** The dispatch of [main]. *)
Definition dispatch (forked : bool) (cmd : list Z) (args : list (list Z)) : event :=
  if decide (cmd = str "custom_echo") then run_custom forked (str "./custom_echo") args
  else if decide (cmd = str "custom_wc") then run_custom forked (str "./custom_wc") args
  else if decide (cmd = str "custom_cat") then run_custom forked (str "./custom_cat") args
  else if decide (cmd = str "custom_ls") then run_custom forked (str "./custom_ls") args
  else Unknown cmd.

(** The bytes up to the newline: [line[strcspn(line, "\n")] = 0]. *)
Fixpoint chomp (line : list Z) : list Z :=
  match line with
  | c :: line' => if c =? NL then [] else c :: chomp line'
  | [] => []
  end.

(** The loop of [main]; [forks] gives the results of [fork]. *)
Fixpoint shell_loop (fuel : nat) (stdin : list Z) (forks : nat -> bool) (t : nat) : outcome (list event) :=
  match fuel with
  | O => NoFuel
  | S fuel' =>
      let next out rest := match shell_loop fuel' rest forks (S t) with Ok es => Ok (Prompt :: out ++ es) | e => e end in
      match c_fgets (MAX_INPUT - 1) stdin with
      | ([], _) => Ok [Prompt; EndLine]
      | (buffer, rest) =>
          let line := chomp (cstring buffer) in
          match line with
          | [] => next [] rest
          | _ =>
              match parse_input line with
              | [] => next [] rest
              | cmd :: args => if decide (cmd = str "exit") then Ok [Prompt; Goodbye] else next [dispatch (forks t) cmd args] rest
              end
          end
      end
  end.

Definition shell_main (stdin : list Z) (forks : nat -> bool) : outcome (list event) :=
  match shell_loop (S (length stdin)) stdin forks 0 with Ok es => Ok (Banner :: es) | e => e end.

(** ** The words of a line *)

Lemma fields_skip s : fields delim (skip_delims s) = fields delim s.
Proof. induction s as [|c s IH]; [done|]. cbn [skip_delims]. destruct (delim c) eqn:E; [|done]. rewrite IH. cbn. by rewrite E. Qed.

Lemma skip_first s c s' : skip_delims s = c :: s' -> delim c = false.
Proof. induction s as [|e s IH]; [done|]. cbn. destruct (delim e) eqn:E; [done|]. by intros [= <- _]. Qed.

Lemma fields_token s : forall c, delim c = false -> fields delim (c :: s) = let '(t, r) := token_of (c :: s) in t :: fields delim r.
Proof.
  induction s as [|e s IH]; intros c Hc; cbn [fields token_of]; rewrite Hc; [done|]. destruct (delim e) eqn:E.
  - done.
  - specialize (IH e E). cbn [fields token_of] in IH. rewrite E in IH. destruct (token_of s) as [t r]. by rewrite IH.
Qed.

Lemma parse_fields n : forall s, parse_loop n s = take n (fields delim s).
Proof.
  induction n as [|n IH]; intros s; [done|]. cbn [parse_loop]. unfold strtok. rewrite <- (fields_skip s).
  destruct (skip_delims s) as [|c s'] eqn:E; [done|]. rewrite fields_token by (by eapply skip_first). destruct (token_of (c :: s')) as [t r].
  cbn [take]. by rewrite IH.
Qed.

(** ** What the shell does *)

(** A line is run as a command, its words cut to the room for them. *)
Fixpoint run_lines (ls : list (list Z)) (forks : nat -> bool) (t : nat) : list event :=
  match ls with
  | [] => [Prompt; EndLine]
  | l :: ls' =>
      Prompt :: match take (MAX_ARGS - 1) (fields delim l) with
                | [] => run_lines ls' forks (S t)
                | cmd :: args => if decide (cmd = str "exit") then [Goodbye] else dispatch (forks t) cmd args :: run_lines ls' forks (S t)
                end
  end.

(** The lines fit the buffer and hold no NUL. *)
Definition line_fits (le : list Z * bool) : Prop := (length (fst le) < MAX_INPUT - 1)%nat /\ Forall (fun c => c <> 0) (fst le).

Lemma chomp_line l r : Forall (fun c => c <> NL) l -> chomp (l ++ NL :: r) = l /\ chomp l = l.
Proof. induction 1 as [|c l Hc _ [IH1 IH2]]; [done|]. cbn. rewrite (proj2 (Z.eqb_neq c NL)) by done. by rewrite IH1, IH2. Qed.

Lemma line_read le : Forall (fun c => c <> NL) (fst le) -> line_fits le -> chomp (cstring (line_bytes le)) = fst le.
Proof.
  intros Hl [_ Hz]. rewrite (cstring_id (line_bytes le)).
  - unfold line_bytes. destruct (chomp_line (fst le) [] Hl) as [E1 E2]. destruct (snd le); [exact E1|by rewrite app_nil_r].
  - apply Forall_app. split; [done|]. destruct (snd le); by repeat constructor.
Qed.

Lemma shell_lines ls forks : forall fuel t, proper_lines ls -> Forall line_fits ls -> (length ls < fuel)%nat ->
  shell_loop fuel (concat (map line_bytes ls)) forks t = Ok (run_lines (map fst ls) forks t).
Proof.
  induction ls as [|[l e] ls IH]; intros [|fuel] t Hp Hf Hn; cbn [length] in Hn; try lia; [done|].
  destruct Hp as (Hl & He & Hp). inversion Hf as [|? ? Hfl Hfs]; subst. pose proof (line_read (l, e) Hl Hfl) as Hc. destruct Hfl as [Hlen _]. cbn [fst] in Hlen, Hc.
  assert (E : c_fgets (MAX_INPUT - 1) (concat (map line_bytes ((l, e) :: ls))) = (line_bytes (l, e), concat (map line_bytes ls))).
  { cbn [map concat]. unfold line_bytes at 1 3. cbn [fst snd]. destruct e.
    - rewrite <- app_assoc. cbn [app]. by apply fgets_line.
    - destruct (He eq_refl) as [_ ->]. cbn [map concat]. rewrite !app_nil_r. by apply fgets_last. }
  cbn [shell_loop]. rewrite E. destruct (line_bytes (l, e)) as [|c b] eqn:El.
  { unfold line_bytes in El. cbn in El. apply app_eq_nil in El as [-> El]. destruct e; [done|]. by destruct (He eq_refl). }
  rewrite Hc, (IH fuel (S t)) by (done || lia). cbn [map fst run_lines]. unfold parse_input. rewrite parse_fields.
  destruct l as [|c' l']; [done|]. destruct (take (MAX_ARGS - 1) (fields delim (c' :: l'))) as [|cmd args]; [done|]. by case_decide.
Qed.


