(* ===== verification/PosixFs.v ===== *)
(** The file system calls that the utilities of Project 2 make.

    The calls are those of the operating system the utilities run on.  The
    class [Posix] states what POSIX documents of them and the utilities rely
    on, in terms of a view of the tree: a map from the names on the way from
    the root to what is there.  Any call may fail, and then changes nothing. *)

From S2P Require Import Prelude.
From S2P Require Import UserIO.

Definition S_IWUSR : Z := 128.
Definition ENOENT : Z := 2.

(** The fields of [struct stat] that the utilities use. *)
Record stat_buf := StatBuf { st_isdir : bool; st_mode : Z }.
Record node := Node { n_stat : stat_buf; n_data : list Z }.

Abbreviation key := (list (list Z)).
Abbreviation tree := (gmap key node).

(** A name that [readdir] gives beside [.] and [..]. *)
Definition SEP : Z := 47.
Definition plain (n : list Z) : Prop := n <> [] /\ n <> str "." /\ n <> str ".." /\ Forall (fun c => c <> 0 /\ c <> SEP) n.

Definition join (p n : list Z) : list Z := p ++ [SEP] ++ n.

Class Posix (St : Type) := {
  view : St -> tree;
  key_of : list Z -> key;
  lstat : list Z -> M St (stat_buf + Z);
  unlink : list Z -> M St (unit + Z);
  rmdir : list Z -> M St (unit + Z);
  opendir : list Z -> M St (list (list Z) + Z);

  (** A path that ends in a name leads to the entry of that name. *)
  key_join p n : plain n -> key_of (join p n) = key_of p ++ [n];
  (** What is in the tree is in a directory. *)
  view_parent s k n : is_Some (view s !! (k ++ [n])) -> exists d, view s !! k = Some d /\ st_isdir (n_stat d) = true;

  lstat_law p s : wp (lstat p) s (fun r s' => view s' = view s /\
    match r with
    | inl st => exists d, view s !! key_of p = Some d /\ n_stat d = st
    | inr e => e = ENOENT -> view s !! key_of p = None
    end);
  unlink_law p s : wp (unlink p) s (fun r s' =>
    match r with
    | inl _ => view s' = delete (key_of p) (view s) /\ exists d, view s !! key_of p = Some d /\ st_isdir (n_stat d) = false
    | inr e => view s' = view s /\ (e = ENOENT -> view s !! key_of p = None)
    end);
  rmdir_law p s : wp (rmdir p) s (fun r s' =>
    match r with
    | inl _ => view s' = delete (key_of p) (view s) /\ forall n, view s !! (key_of p ++ [n]) = None
    | inr _ => view s' = view s
    end);
  (** [opendir] and the names that [readdir] gives from it. *)
  opendir_law p s : wp (opendir p) s (fun r s' => view s' = view s /\
    match r with
    | inl names => (forall n, is_Some (view s !! (key_of p ++ [n])) -> n ∈ names) /\
        Forall (fun n => n = str "." \/ n = str ".." \/ plain n) names
    | inr _ => True
    end)
}.

(** ** The state of a program *)

(** The system, the standard input, and what is printed. *)
Record prog (St Out : Type) := Prog { os : St; stdin : list Z; printed : list Out }.
Arguments Prog {St Out} _ _ _.
Arguments os {St Out} _.
Arguments stdin {St Out} _.
Arguments printed {St Out} _.

Section prog.
Context {St Out : Type}.

(** A system call. *)
Definition sys {A} (m : M St A) : M (prog St Out) A := fun p =>
  match m (os p) with
  | Ok (a, s) => Ok (a, Prog s (stdin p) (printed p))
  | Panic e => Panic e | Crash => Crash | Spin => Spin | NoFuel => NoFuel
  end.

Definition print (o : Out) : M (prog St Out) unit := modify (fun p => Prog (os p) (stdin p) (printed p ++ [o])).

(** [fgetc(stdin)]; [None] is [EOF]. *)
Definition getc : M (prog St Out) (option Z) := fun p =>
  match stdin p with
  | [] => Ok (None, p)
  | c :: l => Ok (Some c, Prog (os p) l (printed p))
  end.

Lemma wp_sys {A} (m : M St A) p (Q : A -> prog St Out -> Prop) :
  wp m (os p) (fun a s => Q a (Prog s (stdin p) (printed p))) -> wp (sys m) p Q.
Proof. unfold wp, sys. by destruct (m (os p)) as [[a s]| | | |]. Qed.
End prog.

(** ** Below a key *)

Lemma prefix_snoc (k q : key) : k `prefix_of` q -> q = k \/ exists n, (k ++ [n]) `prefix_of` q.
Proof.
  intros [l ->]. destruct l as [|n l]; [left; by rewrite app_nil_r|]. right. exists n. exists l. by rewrite <- app_assoc.
Qed.

(** Nothing is below a key that is not in the tree. *)
Lemma view_below `{HP : Posix St} s k : view s !! k = None -> forall q, k `prefix_of` q -> view s !! q = None.
Proof.
  intros Hk q [l ->]. induction l as [|n l IH] using rev_ind; [by rewrite app_nil_r|]. rewrite app_assoc.
  destruct (view s !! ((k ++ l) ++ [n])) eqn:E; [|done]. exfalso. destruct (view_parent s (k ++ l) n) as (d & Hd & _); [by eexists|]. congruence.
Qed.

(** * Copying through file descriptors.

    The class [Files] states what POSIX documents of the calls on files that
    custom_cp and custom_mv make: a path leads to a file, several paths may
    lead to the same one, and a descriptor has an offset in it.  Reads and
    writes may be short.  A call that fails changes no file. *)

(** The fields of [struct stat] that the two programs use. *)
Record file_stat := FileStat { fs_isdir : bool; fs_mode : Z; fs_id : Z * Z; fs_mtime : Z; fs_atime : Z }.

Definition EXDEV : Z := 18.

Class Files (St : Type) := {
  (** The file that a path leads to, by its device and inode numbers; the
      contents of files; and the open descriptors: a file and an offset. *)
  leads : St -> list Z -> option (Z * Z);
  data : St -> Z * Z -> list Z;
  opened : St -> Z -> option ((Z * Z) * nat);
  (** The paths that never end in a symbolic link. *)
  linkfree : list Z -> Prop;

  f_stat : list Z -> M St (file_stat + Z);
  f_lstat : list Z -> M St (file_stat + Z);
  open_read : list Z -> M St (Z + Z);
  open_write : list Z -> Z -> M St (Z + Z);
  f_unlink : list Z -> M St (unit + Z);
  f_read : Z -> nat -> M St (list Z + Z);
  f_write : Z -> list Z -> M St (nat + Z);
  f_close : Z -> M St unit;
  utime : list Z -> Z -> Z -> M St unit;
  chmod : list Z -> Z -> M St unit;
  rename : list Z -> list Z -> M St (unit + Z);
  f_mkdir : list Z -> Z -> M St (unit + Z);
  f_rmdir : list Z -> M St (unit + Z);
  f_opendir : list Z -> M St (list (list Z) + Z);

  f_stat_law p s : wp (f_stat p) s (fun r s' => s' = s /\ match r with inl st => leads s p = Some (fs_id st) | inr _ => leads s p = None end);
  f_lstat_law p s : wp (f_lstat p) s (fun r s' => s' = s);
  open_read_law p s : wp (open_read p) s (fun r s' => leads s' = leads s /\ data s' = data s /\
    match r with
    | inl fd => opened s fd = None /\ exists i, leads s p = Some i /\ opened s' = upd (opened s) fd (Some (i, 0%nat))
    | inr _ => opened s' = opened s
    end);
  (** With [O_WRONLY | O_CREAT | O_TRUNC]: the file is empty afterwards, and new
      if the path led nowhere. *)
  open_write_law p mode s : wp (open_write p mode) s (fun r s' =>
    match r with
    | inl fd => opened s fd = None /\ exists i, leads s' p = Some i /\ data s' = upd (data s) i [] /\
        opened s' = upd (opened s) fd (Some (i, 0%nat)) /\ (forall q j, leads s q = Some j -> leads s' q = Some j) /\
        match leads s p with Some j => i = j | None => (forall q, leads s q <> Some i) /\ forall f j o, opened s f = Some (j, o) -> j <> i end
    | inr _ => leads s' = leads s /\ data s' = data s /\ opened s' = opened s
    end);
  f_unlink_law p s : wp (f_unlink p) s (fun r s' => data s' = data s /\ opened s' = opened s /\
    (r = inl tt -> leads s' p = None) /\ (forall q, leads s' q = leads s q \/ leads s' q = None) /\
    (linkfree p -> forall q, leads s q <> leads s p -> leads s' q = leads s q));
  f_read_law fd n s i o : opened s fd = Some (i, o) -> wp (f_read fd n) s (fun r s' => leads s' = leads s /\ data s' = data s /\
    match r with
    | inl bs => exists rest, drop o (data s i) = bs ++ rest /\ (length bs <= n)%nat /\ (bs = [] -> n = 0%nat \/ rest = []) /\
        opened s' = upd (opened s) fd (Some (i, (o + length bs)%nat))
    | inr _ => opened s' = opened s
    end);
  f_write_law fd bs s i o : opened s fd = Some (i, o) -> bs <> [] -> wp (f_write fd bs) s (fun r s' => leads s' = leads s /\
    match r with
    | inl n => (0 < n <= length bs)%nat /\ data s' = upd (data s) i (splice (data s i) o (take n bs)) /\
        opened s' = upd (opened s) fd (Some (i, (o + n)%nat))
    | inr _ => data s' = data s /\ opened s' = opened s
    end);
  f_close_law fd s : wp (f_close fd) s (fun _ s' => leads s' = leads s /\ data s' = data s /\ opened s' = upd (opened s) fd None);
  utime_law p a m s : wp (utime p a m) s (fun _ s' => leads s' = leads s /\ data s' = data s /\ opened s' = opened s);
  chmod_law p m s : wp (chmod p m) s (fun _ s' => leads s' = leads s /\ data s' = data s /\ opened s' = opened s);
  (** [rename] fails with [EXDEV] on files of different file systems. *)
  rename_law p q s : wp (rename p q) s (fun r s' => data s' = data s /\
    match r with
    | inl _ => linkfree p -> leads s' q = leads s p
    | inr e => leads s' = leads s /\ opened s' = opened s /\ (e = EXDEV -> leads s p <> None -> leads s q <> leads s p)
    end)
}.

(** ** The loop of both programs *)

Section copy.
Context {St : Type} {HF : Files St}.
Implicit Types (s : St) (i j : Z * Z).

Definition BUF_SIZE : nat := Z.to_nat (1024 * 1024).

(** The inner loop: all of the buffer is written, or a write fails. *)
Fixpoint write_all (fuel : nat) (out : Z) (bs : list Z) : M St bool :=
  match bs with
  | [] => ret true
  | _ =>
      match fuel with
      | O => fun _ => NoFuel
      | S fuel' => r <- f_write out bs ;; match r with inl n => write_all fuel' out (drop n bs) | inr _ => ret false end
      end
  end.

(** What ended the loop. *)
Inductive copied := Done | ReadError | WriteError.

Definition copy_data (fuel : nat) (inp out : Z) : M St copied :=
  loop fuel (fun _ =>
    r <- f_read inp BUF_SIZE ;;
    match r with
    | inr _ => ret (inr ReadError)
    | inl [] => ret (inr Done)
    | inl bs => ok <- write_all (length bs) out bs ;; if (ok : bool) then ret (inl tt) else ret (inr WriteError)
    end) tt.

(** The first [m] bytes of the source are in the destination, [n] are read. *)
Record copying (inp out : Z) i j s0 (n m : nat) s : Prop := {
  cg_leads : leads s = leads s0;
  cg_in : opened s inp = Some (i, n);
  cg_out : opened s out = Some (j, m);
  cg_rest f : f <> inp -> f <> out -> opened s f = opened s0 f;
  cg_dst : data s j = take m (data s0 i);
  cg_data q : q <> j -> data s q = data s0 q;
  cg_len : (m <= n <= length (data s0 i))%nat;
  cg_ne : i <> j /\ inp <> out
}.

Lemma splice_end (d bs : list Z) o : length d = o -> splice d o bs = d ++ bs.
Proof. intros <-. unfold splice. by rewrite take_ge, drop_ge, app_nil_r by lia. Qed.

Lemma take_more {A} (d : list A) m n : take m d ++ take n (drop m d) = take (m + n) d.
Proof. by rewrite take_take_drop. Qed.

Lemma write_all_spec inp out i j s0 n : forall fuel m s bs (Q : bool -> St -> Prop),
  copying inp out i j s0 n m s -> bs = take (n - m) (drop m (data s0 i)) -> (length bs <= fuel)%nat ->
  (forall s', copying inp out i j s0 n n s' -> Q true s') -> (forall m' s', copying inp out i j s0 n m' s' -> Q false s') ->
  wp (write_all fuel out bs) s Q.
Proof.
  induction fuel as [|fuel IH]; intros m s bs Q C Eb Hf HQt HQf.
  - destruct bs; [|cbn in Hf; lia]. apply wp_ret, HQt. pose proof (cg_len _ _ _ _ _ _ _ _ C) as Hl. symmetry in Eb.
    apply (f_equal length) in Eb. rewrite length_take, length_drop in Eb. cbn in Eb. by replace n with m at 2 by lia.
  - pose proof (cg_len _ _ _ _ _ _ _ _ C) as Hl. assert (Elen : length bs = (n - m)%nat) by (subst bs; rewrite length_take, length_drop; lia).
    destruct (decide (bs = [])) as [->|Hne]; [apply wp_ret, HQt; cbn in Elen; by replace n with m at 2 by lia|].
    assert (E : write_all (S fuel) out bs = (r <- f_write out bs ;; match r with inl w => write_all fuel out (drop w bs) | inr _ => ret false end)).
    { by destruct bs. }
    rewrite E. apply wp_bind. eapply wp_mono; [apply (f_write_law out bs s j m); [apply C|done]|]. cbn beta. intros [w|e] s' [El H].
    + destruct H as (Hw & Ed & Eo). eapply (IH (m + w)%nat); [| | |exact HQt|exact HQf].
      * destruct C as [C1 C2 C3 C4 C5 C6 C7 [C8 C9]]. split; [congruence|rewrite Eo, upd_ne; done|by rewrite Eo, upd_eq| | | |lia|done].
        -- intros f H1 H2. rewrite Eo, upd_ne by done. by apply C4.
        -- rewrite Ed, upd_eq, C5. rewrite splice_end by (rewrite length_take; lia). rewrite Eb, take_take, take_more. f_equal. lia.
        -- intros q Hq. rewrite Ed, upd_ne by done. by apply C6.
      * rewrite Eb, skipn_firstn_comm, drop_drop. f_equal; lia || (f_equal; lia).
      * rewrite length_drop. lia.
    + destruct H as [Ed Eo]. apply wp_ret, (HQf m). destruct C. split; congruence || (intros; rewrite ?Eo, ?Ed; auto).
Qed.

Lemma copy_data_spec inp out i j s0 s fuel (Q : copied -> St -> Prop) :
  copying inp out i j s0 0 0 s -> (length (data s0 i) < fuel)%nat ->
  (forall s', copying inp out i j s0 (length (data s0 i)) (length (data s0 i)) s' -> Q Done s') ->
  (forall c n m s', copying inp out i j s0 n m s' -> c <> Done -> Q c s') ->
  wp (copy_data fuel inp out) s Q.
Proof.
  intros C Hf HQd HQe. unfold copy_data.
  apply (wp_loop_st (fun _ s => exists n, copying inp out i j s0 n n s)
    (fun _ s => match opened s inp with Some (_, n) => (length (data s0 i) - n)%nat | None => 0%nat end)); [|by exists 0%nat|rewrite (cg_in _ _ _ _ _ _ _ _ C); lia].
  clear s C. intros [] s [n C]. pose proof (cg_len _ _ _ _ _ _ _ _ C) as Hl. apply wp_bind.
  eapply wp_mono; [apply (f_read_law inp BUF_SIZE s i n), C|]. cbn beta. intros [bs|e] s1 (El & Ed & H).
  2:{ apply wp_ret. eapply (HQe _ n n); [|done]. destruct C. split; congruence || (intros; rewrite ?H, ?Ed; auto). }
  destruct H as (rest & Hd & Hb & Hend & Eo). assert (Esrc : data s i = data s0 i) by (apply C, C). rewrite Esrc in Hd.
  assert (Hlen : (length (data s0 i) - n = length bs + length rest)%nat) by (rewrite <- length_drop, Hd, length_app; done).
  destruct bs as [|b bs].
  - apply wp_ret. destruct (Hend eq_refl) as [|Hr]; [done|]. subst rest. cbn in Hlen. assert (n = length (data s0 i)) as -> by lia. apply HQd.
    destruct C as [C1 C2 C3 C4 C5 C6 C7 C8]. cbn [length] in Eo. rewrite Nat.add_0_r in Eo.
    split; try congruence; [by rewrite Eo, upd_eq|rewrite Eo, upd_ne; [done|]; naive_solver|intros f H1 H2; rewrite Eo, upd_ne by done; by apply C4|intros; rewrite Ed; auto].
  - set (bs' := b :: bs) in *. apply wp_bind. destruct C as [C1 C2 C3 C4 C5 C6 C7 [C8 C9]].
    eapply (write_all_spec inp out i j s0 (n + length bs') (length bs') n); [| |done| |].
    + split; try congruence; [by rewrite Eo, upd_eq|rewrite Eo, upd_ne; done|intros f H1 H2; rewrite Eo, upd_ne by done; by apply C4|intros; rewrite Ed; auto|lia|done].
    + rewrite Hd. replace (n + length bs' - n)%nat with (length bs') by lia. by rewrite take_app_length.
    + intros s2 C2'. apply wp_ret. split; [by eexists|]. rewrite (cg_in _ _ _ _ _ _ _ _ C2'). rewrite C2. cbn in Hlen |- *. lia.
    + intros m' s2 C2'. apply wp_ret. by eapply HQe.
Qed.
End copy.
