(* ===== verification/Rm.v ===== *)
(** Removing files: custom_rm.c. *)

From Stdlib Require Import Ascii.
From S2P Require Import Prelude.
From S2P Require Import UserIO.
From S2P Require Import PosixFs.

(** ** The program *)

Record rm_opts := RmOpts { r_recursive : bool; r_force : bool; r_verbose : bool; r_interactive : bool; r_dir : bool }.

(** What is printed: the messages, the questions and the reports. *)
Inductive rm_out :=
  | CannotOpen (p : list Z) | TooLong (p n : list Z) | CannotRemove (p : list Z) | IsDirectory (p : list Z)
  | AskDir (p : list Z) | AskFile (p : list Z) | AskProtected (p : list Z)
  | RemovedDir (p : list Z) | Removed (p : list Z) | Missing | UsageRm.

Definition PATH_MAX : nat := 4096.

Section code.
Context {St : Type} {HP : Posix St} (o : rm_opts).
Abbreviation P := (M (prog St rm_out)).

(** The loop of [ask] that reads to the end of the line. *)
Fixpoint drop_line (l : list Z) : list Z :=
  match l with
  | c :: l' => if c =? NL then l' else drop_line l'
  | [] => []
  end.

Definition ask (question : rm_out) : P bool :=
  print question >>>
  c <- getc ;;
  match c with
  | None => ret false
  | Some c => modify (fun p => Prog (os p) (drop_line (stdin p)) (printed p)) >>> ret ((c =? ch "y") || (c =? ch "Y"))
  end.

(** [build_path]: [None] if the path does not fit. *)
Definition build_path (p1 p2 : list Z) : option (list Z) :=
  let p := join p1 p2 in if (PATH_MAX <=? length p)%nat then None else Some p.

(** [rmdir] after the question, in [rm_path] with -d. *)
Definition rm_empty (path : list Z) : P Z :=
  go <- (if r_interactive o then ask (AskDir path) else ret true) ;;
  if negb go then ret 0
  else
    r <- sys (rmdir path) ;;
    match r with
    | inr _ => print (CannotRemove path) >>> ret 1
    | inl _ => (if r_verbose o then print (RemovedDir path) else ret tt) >>> ret 0
    end.

(** The last part of [rm_path]: files and symbolic links. *)
Definition rm_file (path : list Z) (st : stat_buf) : P Z :=
  go <- (if r_interactive o then ask (AskFile path) else ret true) ;;
  if negb go then ret 0
  else
    go <- (if negb (r_force o) && (Z.land (st_mode st) S_IWUSR =? 0) then ask (AskProtected path) else ret true) ;;
    if negb go then ret 0
    else
      r <- sys (unlink path) ;;
      match r with
      | inr e => if r_force o && (e =? ENOENT) then ret 0 else print (CannotRemove path) >>> ret 1
      | inl _ => (if r_verbose o then print (Removed path) else ret tt) >>> ret 0
      end.

(** The loop of [rm_dir] over the names in the directory. *)
Fixpoint rm_names (rm_path : list Z -> P Z) (path : list Z) (names : list (list Z)) (res : Z) : P Z :=
  match names with
  | [] => ret res
  | n :: names' =>
      if decide (n = str "." \/ n = str "..") then rm_names rm_path path names' res
      else
        match build_path path n with
        | None => print (TooLong path n) >>> rm_names rm_path path names' 1
        | Some child => r <- rm_path child ;; rm_names rm_path path names' (Z.lor res r)
        end
  end.

(** [rm_dir]. *)
Definition rm_dir (rm_path : list Z -> P Z) (path : list Z) : P Z :=
  d <- sys (opendir path) ;;
  match d with
  | inr _ => if r_force o then ret 0 else print (CannotOpen path) >>> ret 1
  | inl names =>
      res <- rm_names rm_path path names 0 ;;
      if res =? 0 then
        go <- (if r_interactive o then ask (AskDir path) else ret true) ;;
        if negb go then ret 0
        else
          r <- sys (rmdir path) ;;
          match r with
          | inr _ => if r_force o then ret 0 else print (CannotRemove path) >>> ret 1
          | inl _ => (if r_verbose o then print (RemovedDir path) else ret tt) >>> ret 0
          end
      else ret res
  end.

(** [rm_path]; the fuel is the depth of the tree. *)
Fixpoint rm_path (fuel : nat) (path : list Z) : P Z :=
  match fuel with
  | O => fun _ => NoFuel
  | S fuel' =>
      r <- sys (lstat path) ;;
      match r with
      | inr e => if r_force o && (e =? ENOENT) then ret 0 else print (CannotRemove path) >>> ret 1
      | inl st =>
          if st_isdir st then
            if negb (r_recursive o) && negb (r_dir o) then print (IsDirectory path) >>> ret 1
            else if r_recursive o then rm_dir (rm_path fuel') path
            else rm_empty path
          else rm_file path st
      end
  end.

(** The loop of [main] over the arguments. *)
Fixpoint rm_args (fuel : nat) (args : list (list Z)) (res : Z) : P Z :=
  match args with
  | [] => ret res
  | a :: args' => r <- rm_path fuel a ;; rm_args fuel args' (Z.lor res r)
  end.
End code.

(** The [switch] of [main]; [None] prints the usage. *)
Definition rm_option (o : rm_opts) (opt : ascii) : option rm_opts :=
  let 'RmOpts r f v i d := o in
  match opt with
  | "r" | "R" => Some (RmOpts true f v i d)
  | "f" => Some (RmOpts r true v false d)
  | "v" => Some (RmOpts r f true i d)
  | "i" => Some (RmOpts r false v true d)
  | "d" => Some (RmOpts r f v i true)
  | _ => None
  end%char.

Fixpoint rm_options (o : rm_opts) (opts : list ascii) : option rm_opts :=
  match opts with
  | [] => Some o
  | opt :: opts' => o' ← rm_option o opt; rm_options o' opts'
  end.

Definition rm_main `{HP : Posix St} (fuel : nat) (opts : list ascii) (args : list (list Z)) : M (prog St rm_out) Z :=
  match rm_options (RmOpts false false false false false) opts with
  | None => print UsageRm >>> ret 1
  | Some o =>
      match args with
      | [] => if r_force o then ret 0 else print Missing >>> ret 1
      | _ => rm_args o fuel args 0
      end
  end.

(** ** What is removed *)

Section spec.
Context {St : Type} {HP : Posix St} (o : rm_opts).
Implicit Types (p : prog St rm_out) (v : tree) (k q : key).
Abbreviation v_ p := (view (os p)).

(** Only what is at [k] or below it is removed. *)
Definition confined k v v' : Prop := v' ⊆ v /\ forall q, ~ k `prefix_of` q -> v' !! q = v !! q.

(** Nothing is left at [k] or below it. *)
Definition gone k v : Prop := forall q, k `prefix_of` q -> v !! q = None.

(** No question comes up: neither -i nor -f is given, and the files can be written. *)
Definition plain_run k v : Prop :=
  r_force o = false /\ r_interactive o = false /\
  forall q d, k `prefix_of` q -> v !! q = Some d -> st_isdir (n_stat d) = false -> Z.land (st_mode (n_stat d)) S_IWUSR <> 0.

Lemma confined_refl k v : confined k v v.
Proof. by split. Qed.

Lemma confined_trans k v1 v2 v3 : confined k v1 v2 -> confined k v2 v3 -> confined k v1 v3.
Proof. intros [H1 H2] [H3 H4]. split; [by trans v2|]. intros q Hq. by rewrite H4, H2. Qed.

Lemma confined_child k n v v' : confined (k ++ [n]) v v' -> confined k v v'.
Proof. intros [H1 H2]. split; [done|]. intros q Hq. apply H2. intros Hp. apply Hq. by eapply prefix_app_l. Qed.

Lemma confined_delete k v : confined k v (delete k v).
Proof. split; [apply delete_subseteq|]. intros q Hq. apply lookup_delete_ne. intros ->. by apply Hq. Qed.

Lemma gone_less k v v' : v' ⊆ v -> gone k v -> gone k v'.
Proof. intros Hs Hg q Hq. eapply lookup_weaken_None; [by apply Hg|done]. Qed.

Lemma plain_less k k' v v' : v' ⊆ v -> k `prefix_of` k' -> plain_run k v -> plain_run k' v'.
Proof.
  intros Hs Hk (H1 & H2 & H3). split_and!; [done|done|]. intros q d Hq Hd. apply (H3 q); [by trans k'|]. by eapply lookup_weaken.
Qed.

Lemma view_gone (s : St) k : view s !! k = None -> gone k (view s).
Proof. intros H q Hq. by eapply view_below. Qed.

(** What a step of the program promises for the path with key [k]. *)
Definition removes k p (r : Z) p' : Prop := confined k (v_ p) (v_ p') /\ (plain_run k (v_ p) -> r = 0 -> gone k (v_ p')).

Lemma removes_none k p p' r : v_ p' = v_ p -> r <> 0 \/ r_force o = true \/ r_interactive o = true -> removes k p r p'.
Proof. intros E Hr. unfold removes. rewrite E. split; [apply confined_refl|]. intros (Hf & Hi & _) ->. destruct Hr as [|[|]]; congruence. Qed.

Lemma wp_print (x : rm_out) p (Q : unit -> prog St rm_out -> Prop) : Q tt (Prog (os p) (stdin p) (printed p ++ [x])) -> wp (print x) p Q.
Proof. done. Qed.

(** A question leaves the files as they are. *)
Lemma ask_spec x p (Q : bool -> prog St rm_out -> Prop) : (forall b p', os p' = os p -> Q b p') -> wp (ask x) p Q.
Proof.
  intros HQ. unfold ask. apply wp_bind, wp_print, wp_bind. unfold wp, getc. cbn [stdin]. destruct (stdin p) as [|c l]; by apply HQ.
Qed.

Lemma ask_if (b : bool) x p (Q : bool -> prog St rm_out -> Prop) :
  (forall p' go, os p' = os p -> b = true \/ go = true -> Q go p') -> wp (if b then ask x else ret true) p Q.
Proof. intros HQ. destruct b; [apply ask_spec; intros go p' E; by apply HQ; [|left]|apply wp_ret, HQ; [done|by right]]. Qed.

(** The end of a removal. *)
Lemma report_spec (b : bool) x r p (Q : Z -> prog St rm_out -> Prop) :
  (forall p', os p' = os p -> Q r p') -> wp ((if b then print x else ret tt) >>> ret r) p Q.
Proof. intros HQ. apply wp_bind. destruct b; [apply wp_print|apply wp_ret]; by apply wp_ret, HQ. Qed.

Lemma rmdir_removes path p (Q : unit + Z -> prog St rm_out -> Prop) :
  (forall p' r, match r with inl _ => removes (key_of path) p 0 p' | inr _ => v_ p' = v_ p end -> Q r p') -> wp (sys (rmdir path)) p Q.
Proof.
  intros HQ. apply wp_sys. eapply wp_mono; [apply rmdir_law|]. cbn beta. intros [u|e] s' H; apply HQ; [|done].
  destruct H as [E Hc]. split; cbn [os]; rewrite E; [apply confined_delete|]. intros _ _. rewrite <- E. apply view_gone. rewrite E. apply lookup_delete_eq.
Qed.

Lemma removes_os k p p1 r p2 : os p1 = os p -> removes k p1 r p2 -> removes k p r p2.
Proof. intros E. unfold removes. by rewrite E. Qed.
Lemma removes_end k p r p1 p2 : removes k p r p1 -> os p2 = os p1 -> removes k p r p2.
Proof. unfold removes. by intros H ->. Qed.

Lemma rm_empty_spec path p : wp (rm_empty o path) p (fun r p' => removes (key_of path) p r p').
Proof.
  unfold rm_empty. apply wp_bind, ask_if. intros p1 go E1 Hgo. destruct go; cbn [negb].
  2:{ apply wp_ret, removes_none; [by rewrite E1|]. right; right. by destruct Hgo. }
  apply wp_bind, rmdir_removes. intros p2 [u|e] H2.
  - apply report_spec. intros p3 E3. eapply removes_end; [|exact E3]. by eapply removes_os.
  - apply wp_bind, wp_print, wp_ret, removes_none; [cbn; congruence|]. by left.
Qed.

Lemma rm_file_spec path p d : v_ p !! key_of path = Some d -> st_isdir (n_stat d) = false ->
  wp (rm_file o path (n_stat d)) p (fun r p' => removes (key_of path) p r p').
Proof.
  intros Hd Hdir. unfold rm_file. apply wp_bind, ask_if. intros p1 go E1 Hgo. destruct go; cbn [negb].
  2:{ apply wp_ret, removes_none; [by rewrite E1|]. right; right. by destruct Hgo. }
  apply wp_bind, ask_if. intros p2 go E2 Hgo2. destruct go; cbn [negb].
  2:{ apply wp_ret. split; [rewrite E2, E1; apply confined_refl|]. intros (Hf & _ & Hw) _. destruct Hgo2 as [Hgo2|]; [|done].
      apply andb_true_iff in Hgo2 as [_ Hz]. apply Z.eqb_eq in Hz. by apply (Hw (key_of path) d) in Hz. }
  apply wp_bind, wp_sys. eapply wp_mono; [apply unlink_law|]. cbn beta. rewrite E2, E1. intros [u|e] s' H.
  - destruct H as [E _]. apply report_spec. intros p3 E3. split; rewrite E3; cbn [os]; rewrite E; [apply confined_delete|].
    intros _ _. rewrite <- E. apply view_gone. rewrite E. apply lookup_delete_eq.
  - destruct H as [E _]. destruct (r_force o && (e =? ENOENT)) eqn:Ef.
    + apply wp_ret, removes_none; [done|]. right; left. by apply andb_true_iff in Ef as [? _].
    + apply wp_bind, wp_print, wp_ret, removes_none; [done|]. by left.
Qed.

(** The fuel is enough for what is below [k]. *)
Definition deep_enough k v (fuel : nat) : Prop :=
  (1 <= fuel)%nat /\ forall q, is_Some (v !! q) -> k `prefix_of` q -> (length q + 1 < length k + fuel)%nat.

Lemma deep_less k v v' fuel : v' ⊆ v -> deep_enough k v fuel -> deep_enough k v' fuel.
Proof. intros Hs [H1 H2]. split; [done|]. intros q [d Hd] Hq. apply H2; [|done]. exists d. by eapply lookup_weaken. Qed.

(** The loop over the names, with what [rec] promises for the children. *)
Lemma rm_names_spec (rec : list Z -> M (prog St rm_out) Z) path fuel :
  (forall c p, deep_enough (key_of c) (v_ p) fuel -> wp (rec c) p (fun r p' => removes (key_of c) p r p')) ->
  forall names res p, Forall (fun n => n = str "." \/ n = str ".." \/ plain n) names ->
  deep_enough (key_of path) (v_ p) (S fuel) -> (1 <= fuel)%nat ->
  wp (rm_names rec path names res) p (fun r p' => confined (key_of path) (v_ p) (v_ p') /\
    (plain_run (key_of path) (v_ p) -> r = 0 -> res = 0 /\ forall n, n ∈ names -> plain n -> gone (key_of path ++ [n]) (v_ p'))).
Proof.
  intros Hrec names. induction names as [|n names IH]; intros res p Hn Hd Hf; cbn [rm_names].
  - apply wp_ret. split; [apply confined_refl|]. intros _ Hr. split; [done|]. intros n Hn'. by apply not_elem_of_nil in Hn'.
  - apply Forall_cons in Hn as [Hn Hns]. case_decide as Edot.
    { eapply wp_mono; [by apply IH|]. intros r p' [H1 H2]. split; [done|]. intros Hp Hr. destruct (H2 Hp Hr) as [H3 H4]. split; [done|].
      intros n' [->|Hn']%elem_of_cons Hpl; [|by apply H4]. by destruct Hpl as (_ & Hp1 & Hp2 & _), Edot. }
    assert (Hpl : plain n) by (destruct Hn as [|[|]]; tauto). unfold build_path. case_if.
    + apply wp_bind, wp_print. eapply wp_mono; [by apply IH|]. intros r p' [H1 H2]. split; [done|]. intros Hp Hr. by destruct (H2 Hp Hr).
    + pose proof (key_join path n Hpl) as Ek. apply wp_bind. eapply wp_mono; [apply Hrec|].
      * rewrite Ek. split; [done|]. intros q Hq Hpre. rewrite length_app. cbn. destruct Hd as [_ Hd].
        assert (Hpp : key_of path `prefix_of` q) by (by eapply prefix_app_l). specialize (Hd q Hq Hpp). lia.
      * cbn beta. rewrite Ek. intros r1 p1 [C1 G1]. eapply wp_mono; [apply IH; [done| |done]|].
        { eapply deep_less; [apply C1|done]. }
        intros r p' [C2 G2]. split; [eapply confined_trans; [by eapply confined_child|done]|]. intros Hp Hr.
        assert (Hp1 : plain_run (key_of path) (v_ p1)) by (eapply plain_less; [apply C1|done|done]).
        destruct (G2 Hp1 Hr) as [Hlor G3]. apply Z.lor_eq_0_iff in Hlor as [-> ->]. split; [done|].
        intros n' [->|Hn']%elem_of_cons Hpl'; [|by apply G3]. eapply gone_less; [apply C2|]. apply G1; [|done].
        eapply plain_less; [done|by apply prefix_app_r|done].
Qed.

Lemma rm_dir_spec (rec : list Z -> M (prog St rm_out) Z) path p fuel :
  (forall c p, deep_enough (key_of c) (v_ p) fuel -> wp (rec c) p (fun r p' => removes (key_of c) p r p')) ->
  deep_enough (key_of path) (v_ p) (S fuel) -> (1 <= fuel)%nat ->
  wp (rm_dir o rec path) p (fun r p' => removes (key_of path) p r p').
Proof.
  intros Hrec Hd Hf. unfold rm_dir. apply wp_bind, wp_sys. eapply wp_mono; [apply opendir_law|]. cbn beta. intros [names|e] s [Es Hnames].
  2:{ destruct (r_force o) eqn:Ef; [apply wp_ret|apply wp_bind, wp_print, wp_ret]; apply removes_none; [done|by right; left|done|by left]. }
  destruct Hnames as [_ Hpl]. set (p1 := Prog _ _ _).
  apply wp_bind. eapply wp_mono; [apply (rm_names_spec rec path fuel Hrec names 0 p1 Hpl); [cbn; by rewrite Es|done]|]. cbn beta.
  intros res p2 [C2 G2]. change (v_ p1) with (view s) in C2, G2. rewrite Es in C2, G2. destruct (Z.eqb_spec res 0) as [->|Hne].
  2:{ apply wp_ret. split; [done|]. by intros _ ->. }
  apply wp_bind, ask_if. intros p3 go E3 Hgo. destruct go; cbn [negb].
  2:{ apply wp_ret. split; [by rewrite E3|]. intros (_ & Hi & _). destruct Hgo; congruence. }
  apply wp_bind, rmdir_removes. intros p4 [u|e] H4.
  - apply report_spec. intros p5 E5. destruct H4 as [C4 G4]. rewrite E3 in C4, G4. split; rewrite E5; [by eapply confined_trans|].
    intros Hp _. apply G4; [|done]. eapply plain_less; [apply C2|done|done].
  - assert (C5 : confined (key_of path) (v_ p) (v_ p4)) by (by rewrite H4, E3).
    destruct (r_force o) eqn:Ef; [apply wp_ret|apply wp_bind, wp_print, wp_ret]; split; try done. intros (Hff & _). congruence.
Qed.

Lemma rm_path_spec fuel : forall path p, deep_enough (key_of path) (v_ p) fuel ->
  wp (rm_path o fuel path) p (fun r p' => removes (key_of path) p r p').
Proof.
  induction fuel as [|fuel IH]; intros path p Hd; [destruct Hd; lia|]. cbn [rm_path]. apply wp_bind, wp_sys.
  eapply wp_mono; [apply lstat_law|]. cbn beta. intros [st|e] s [Es Hst].
  2:{ destruct (r_force o && (e =? ENOENT)) eqn:Ef; [apply wp_ret|apply wp_bind, wp_print, wp_ret]; apply removes_none; [done| |done|by left].
      right; left. by apply andb_true_iff in Ef as [? _]. }
  destruct Hst as (d & Hk & <-). set (p1 := Prog s _ _). assert (E1 : v_ p1 = v_ p) by done.
  assert (Hgo : forall m, wp m p1 (fun r p' => removes (key_of path) p1 r p') -> wp m p1 (fun r p' => removes (key_of path) p r p')).
  { intros m Hm. eapply wp_mono; [exact Hm|]. unfold removes. by rewrite E1. }
  destruct (st_isdir (n_stat d)) eqn:Ed.
  - destruct (negb (r_recursive o) && negb (r_dir o)); [apply wp_bind, wp_print, wp_ret, removes_none; [done|by left]|].
    destruct (r_recursive o); [|apply Hgo, rm_empty_spec]. apply Hgo, (rm_dir_spec _ _ _ fuel IH); [by rewrite E1|].
    destruct Hd as [_ Hd]. specialize (Hd (key_of path) ltac:(by eexists) ltac:(done)). lia.
  - apply Hgo, rm_file_spec; [by rewrite E1|done].
Qed.

End spec.
