(* ===== verification/Cp.v ===== *)
(** Copying files: custom_cp.c. *)

From Stdlib Require Import Ascii.
From S2P Require Import Prelude.
From S2P Require Import UserIO.
From S2P Require Import PosixFs.

(** ** The program *)

Record cp_opts := CpOpts { c_recursive : bool; c_verbose : bool; c_force : bool; c_preserve : bool; c_noclobber : bool; c_update : bool }.

(** The messages, and the report of -v. *)
Inductive cp_out :=
  | CannotStat (p : list Z) | SameFile (p q : list Z) | CannotOpen (p : list Z) | CannotCreate (p : list Z) | NoMemory
  | WriteErr (p : list Z) | ReadErr (p : list Z) | Copied (p q : list Z)
  | CannotMkdir (p : list Z) | Perror (p : list Z) | OmitDir (p : list Z) | UsageCp | MissingOperand | NotDirectory (p : list Z).

Definition EEXIST : Z := 17.

Section code.
Context {St : Type} {HF : Files St} (o : cp_opts) (malloc_ok : bool) (fuel : nat).
Abbreviation P := (M (prog St cp_out)).

(** [stat(p, &st) == 0], with the buffer. *)
Definition exists_ (p : list Z) : P (option file_stat) :=
  r <- sys (f_stat p) ;; ret (match r with inl st => Some st | inr _ => None end).

(** The descriptor of the destination; with -f a second try after [unlink]. *)
Definition open_dst (dst : list Z) (mode : Z) : P (Z + Z) :=
  r <- sys (open_write dst mode) ;;
  match r with
  | inl fd => ret (inl fd)
  | inr e => if c_force o then sys (f_unlink dst) >>> sys (open_write dst mode) else ret (inr e)
  end.

(** [copy_file] once both files are open. *)
Definition copy_open (src dst : list Z) (src_st : file_stat) (in_fd out_fd : Z) : P Z :=
  if negb malloc_ok then print NoMemory >>> sys (f_close in_fd) >>> sys (f_close out_fd) >>> ret 1
  else
    c <- sys (copy_data fuel in_fd out_fd) ;;
    res <- (match c with
            | Done => ret 0
            | WriteError => print (WriteErr dst) >>> ret 1
            | ReadError => print (ReadErr src) >>> ret 1
            end) ;;
    sys (f_close in_fd) >>>
    sys (f_close out_fd) >>>
    (if (res =? 0) && c_preserve o then sys (utime dst (fs_atime src_st) (fs_mtime src_st)) >>> sys (chmod dst (fs_mode src_st)) else ret tt) >>>
    (if (res =? 0) && c_verbose o then print (Copied src dst) else ret tt) >>>
    ret res.

(** The tests of [copy_file] that end it before it opens a file: the same file,
    -n and -u. *)
Definition skip_copy (src dst : list Z) (src_st : file_stat) : P (option Z) :=
  d <- exists_ dst ;;
  if match d with Some dst_st => bool_decide (fs_id src_st = fs_id dst_st) | None => false end
  then print (SameFile src dst) >>> ret (Some 1)
  else
    d <- (if c_noclobber o then exists_ dst else ret None) ;;
    match d with
    | Some _ => ret (Some 0)
    | None =>
        d <- (if c_update o then exists_ dst else ret None) ;;
        match d with
        | Some dst_st => if fs_mtime src_st <=? fs_mtime dst_st then ret (Some 0) else ret None
        | None => ret None
        end
    end.

Definition copy_file (src dst : list Z) : P Z :=
  r <- sys (f_stat src) ;;
  match r with
  | inr _ => print (CannotStat src) >>> ret 1
  | inl src_st =>
      skip <- skip_copy src dst src_st ;;
      match skip with
      | Some res => ret res
      | None =>
          r <- sys (open_read src) ;;
          match r with
          | inr _ => print (CannotOpen src) >>> ret 1
          | inl in_fd =>
              r <- open_dst dst (Z.land (fs_mode src_st) 511) ;;
              match r with
              | inr _ => print (CannotCreate dst) >>> sys (f_close in_fd) >>> ret 1
              | inl out_fd => copy_open src dst src_st in_fd out_fd
              end
          end
      end
  end.

(** [snprintf] into 4096 bytes. *)
Definition cut (p : list Z) : list Z := take 4095 p.

(** The loop of [copy_dir] over the names in the directory. *)
Fixpoint copy_names (copy_path : list Z -> list Z -> P Z) (src dst : list Z) (names : list (list Z)) (res : Z) : P Z :=
  match names with
  | [] => ret res
  | n :: names' =>
      if decide (n = str "." \/ n = str "..") then copy_names copy_path src dst names' res
      else r <- copy_path (cut (join src n)) (cut (join dst n)) ;; copy_names copy_path src dst names' (Z.lor res r)
  end.

Definition copy_dir (copy_path : list Z -> list Z -> P Z) (src dst : list Z) : P Z :=
  r <- sys (f_stat src) ;;
  match r with
  | inr _ => print (Perror src) >>> ret 1
  | inl st =>
      r <- sys (f_mkdir dst 511) ;;
      if match r with inr e => negb (e =? EEXIST) | inl _ => false end then print (CannotMkdir dst) >>> ret 1
      else
        d <- sys (f_opendir src) ;;
        match d with
        | inr _ => print (Perror src) >>> ret 1
        | inl names =>
            res <- copy_names copy_path src dst names 0 ;;
            (if c_preserve o then sys (chmod dst (fs_mode st)) else ret tt) >>>
            ret res
        end
  end.

(** [copy_path]; [depth] bounds the directories below one another. *)
Fixpoint copy_path (depth : nat) (src dst : list Z) : P Z :=
  match depth with
  | O => fun _ => NoFuel
  | S depth' =>
      r <- sys (f_lstat src) ;;
      match r with
      | inr _ => print (Perror src) >>> ret 1
      | inl st =>
          if fs_isdir st then
            if negb (c_recursive o) then print (OmitDir src) >>> ret 1 else copy_dir (copy_path depth') src dst
          else copy_file src dst
      end
  end.

(** The part of a path after its last slash. *)
Fixpoint base_name (p : list Z) : list Z :=
  match p with
  | [] => []
  | c :: p' => if existsb (Z.eqb SEP) p' then base_name p' else if c =? SEP then p' else c :: p'
  end.

(** The loop of [main] over the sources. *)
Fixpoint cp_args (depth : nat) (dst : list Z) (dst_is_dir : bool) (args : list (list Z)) (res : Z) : P Z :=
  match args with
  | [] => ret res
  | a :: args' =>
      r <- copy_path depth a (cut (if dst_is_dir then join dst (base_name a) else dst)) ;;
      cp_args depth dst dst_is_dir args' (Z.lor res r)
  end.
End code.

(** The [switch] of [main]; [None] prints the usage. *)
Definition cp_option (o : cp_opts) (opt : ascii) : option cp_opts :=
  let 'CpOpts r v f p n u := o in
  match opt with
  | "r" | "R" => Some (CpOpts true v f p n u)
  | "v" => Some (CpOpts r true f p n u)
  | "f" => Some (CpOpts r v true p n u)
  | "p" => Some (CpOpts r v f true n u)
  | "n" => Some (CpOpts r v f p true u)
  | "u" => Some (CpOpts r v f p n true)
  | _ => None
  end%char.

Fixpoint cp_options (o : cp_opts) (opts : list ascii) : option cp_opts :=
  match opts with
  | [] => Some o
  | opt :: opts' => o' ← cp_option o opt; cp_options o' opts'
  end.

(** [main] with the arguments after the options. *)
Definition cp_main `{HF : Files St} (malloc_ok : bool) (fuel depth : nat) (opts : list ascii) (args : list (list Z)) : M (prog St cp_out) Z :=
  match cp_options (CpOpts false false false false false false) opts with
  | None => print UsageCp >>> ret 1
  | Some o =>
      match last args with
      | None => print MissingOperand >>> ret 1
      | Some dst =>
          if (length args <? 2)%nat then print MissingOperand >>> ret 1
          else
            d <- exists_ dst ;;
            let dst_is_dir := match d with Some st => fs_isdir st | None => false end in
            if (2 <? length args)%nat && negb dst_is_dir then print (NotDirectory dst) >>> ret 1
            else cp_args o malloc_ok fuel depth dst dst_is_dir (removelast args) 0
      end
  end.

(** ** What is copied *)

Section spec.
Context {St : Type} {HF : Files St} (o : cp_opts) (malloc_ok : bool) (fuel : nat).
Implicit Types (p : prog St cp_out) (s : St).

(** Only the file that [dst] leads to has changed, and no descriptor is left. *)
Definition only_dst (dst : list Z) s s' : Prop :=
  (forall q, leads s' dst <> Some q -> data s' q = data s q) /\ forall f, opened s' f = opened s f.

(** The destination has the bytes of the source, or -n or -u kept it. *)
Definition copied_or_kept (src dst : list Z) s s' : Prop :=
  (exists i j, leads s src = Some i /\ leads s' dst = Some j /\ data s' j = data s i) \/
  (c_noclobber o || c_update o = true /\ leads s dst <> None /\ s' = s).

Lemma exists_spec path p (Q : option file_stat -> prog St cp_out -> Prop) :
  (forall st, leads (os p) path = Some (fs_id st) -> Q (Some st) p) -> (leads (os p) path = None -> Q None p) -> wp (exists_ path) p Q.
Proof.
  intros H1 H2. unfold exists_. apply wp_bind, wp_sys. eapply wp_mono; [apply f_stat_law|]. cbn beta. intros r s [-> Hr].
  destruct p. destruct r; apply wp_ret; auto.
Qed.

Lemma wp_printed {Out} (x : Out) (p : prog St Out) (Q : unit -> prog St Out -> Prop) : Q tt (Prog (os p) (stdin p) (printed p ++ [x])) -> wp (print x) p Q.
Proof. done. Qed.

(** The tests change nothing; if they let the copy go on, the files differ. *)
Lemma skip_copy_spec src dst st p (Q : option Z -> prog St cp_out -> Prop) :
  leads (os p) src = Some (fs_id st) ->
  (forall p' r, os p' = os p -> r = 1 \/ r = 0 /\ c_noclobber o || c_update o = true /\ leads (os p) dst <> None -> Q (Some r) p') ->
  (leads (os p) dst <> Some (fs_id st) -> Q None p) ->
  wp (skip_copy o src dst st) p Q.
Proof.
  intros Hs HQs HQn. unfold skip_copy.
  assert (Hgo : leads (os p) dst <> Some (fs_id st) -> wp (
    d <- (if c_noclobber o then exists_ dst else ret None) ;;
    match d with
    | Some _ => ret (Some 0)
    | None =>
        d <- (if c_update o then exists_ dst else ret None) ;;
        match d with
        | Some dst_st => if fs_mtime st <=? fs_mtime dst_st then ret (Some 0) else ret None
        | None => ret None
        end
    end) p Q).
  { intros Hne. specialize (HQn Hne).
    assert (Hu : wp (d <- (if c_update o then exists_ dst else ret None) ;;
        match d with Some dst_st => if fs_mtime st <=? fs_mtime dst_st then ret (Some 0) else ret None | None => ret None end) p Q).
    { apply wp_bind. destruct (c_update o) eqn:Eu; [|apply wp_ret; by apply wp_ret]. apply exists_spec; [|by intros; apply wp_ret].
      intros st' Hl. case_if; apply wp_ret; [|done]. apply HQs; [done|]. right. rewrite orb_true_r, Hl. done. }
    apply wp_bind. destruct (c_noclobber o) eqn:En; [|by apply wp_ret]. apply exists_spec; [|done].
    intros st' Hl. apply wp_ret, HQs; [done|]. right. rewrite Hl. done. }
  apply wp_bind, exists_spec.
  - intros st' Hl. case_bool_decide as E.
    + apply wp_bind, wp_printed, wp_ret, HQs; [done|by left].
    + apply Hgo. rewrite Hl. congruence.
  - intros Hl. apply Hgo. by rewrite Hl.
Qed.

Lemma open_dst_spec dst mode p in_fd i n (Q : Z + Z -> prog St cp_out -> Prop) :
  opened (os p) in_fd = Some (i, n) -> leads (os p) dst <> Some i ->
  (forall p' fd j, j <> i -> opened (os p) fd = None -> leads (os p') dst = Some j -> data (os p') = upd (data (os p)) j [] ->
     opened (os p') = upd (opened (os p)) fd (Some (j, 0%nat)) -> Q (inl fd) p') ->
  (forall p' e, data (os p') = data (os p) -> opened (os p') = opened (os p) -> Q (inr e) p') ->
  wp (open_dst o dst mode) p Q.
Proof.
  intros Hin Hne HQl HQr. unfold open_dst.
  assert (Hopen : forall p1, data (os p1) = data (os p) -> opened (os p1) = opened (os p) -> leads (os p1) dst = leads (os p) dst \/ leads (os p1) dst = None ->
    forall Q', (forall p' fd j, j <> i -> opened (os p) fd = None -> leads (os p') dst = Some j -> data (os p') = upd (data (os p)) j [] ->
      opened (os p') = upd (opened (os p)) fd (Some (j, 0%nat)) -> Q' (inl fd) p') ->
    (forall p' e, data (os p') = data (os p) -> opened (os p') = opened (os p) -> leads (os p') = leads (os p1) -> Q' (inr e) p') ->
    wp (sys (open_write dst mode)) p1 Q').
  { intros p1 Ed Eo El Q' H1 H2. apply wp_sys. eapply wp_mono; [apply open_write_law|]. cbn beta. rewrite Ed, Eo. intros [fd|e] s.
    - intros (Hf & j & Hj & Hd & Ho & _ & Hwhich). apply (H1 _ fd j); try done. destruct (leads (os p1) dst) as [j'|] eqn:E.
      + subst j. intros ->. destruct El as [El|El]; congruence.
      + destruct Hwhich as [_ Hw]. intros ->. by apply (Hw in_fd i n).
    - intros (Hl & Hd & Ho). by apply H2. }
  apply wp_bind, Hopen; [done|done|by left| |].
  - intros. apply wp_ret. by eapply HQl.
  - intros p1 e Ed Eo El. destruct (c_force o); [|by apply wp_ret, HQr]. apply wp_bind, wp_sys. eapply wp_mono; [apply f_unlink_law|]. cbn beta.
    intros r s (Hd & Ho & _ & Hl & _). apply Hopen; cbn [os]; [congruence|congruence| |done|by intros; apply HQr].
    destruct (Hl dst) as [->| ->]; [rewrite El; by left|by right].
Qed.

Lemma close_spec {Out} fd (p : prog St Out) (Q : unit -> prog St Out -> Prop) :
  (forall p' : prog St Out, leads (os p') = leads (os p) -> data (os p') = data (os p) -> opened (os p') = upd (opened (os p)) fd None -> Q tt p') ->
  wp (sys (f_close fd)) p Q.
Proof. intros HQ. apply wp_sys. eapply wp_mono; [apply f_close_law|]. cbn beta. intros [] s (H1 & H2 & H3). by apply HQ. Qed.

(** Closing the two descriptors that were opened. *)
Lemma closed_again (g g' : Z -> option (Z * Z * nat)) a b : g a = None -> g b = None -> (forall f, f <> a -> f <> b -> g' f = g f) ->
  forall f, upd (upd g' a None) b None f = g f.
Proof. intros Ha Hb Hg f. unfold upd. repeat case_decide; subst; auto. Qed.

Lemma copy_open_spec src dst st p in_fd out_fd i j (g : Z -> option (Z * Z * nat)) (Q : Z -> prog St cp_out -> Prop) :
  copying in_fd out_fd i j (os p) 0 0 (os p) -> (length (data (os p) i) < fuel)%nat -> leads (os p) dst = Some j ->
  g in_fd = None -> g out_fd = None -> (forall f, f <> in_fd -> f <> out_fd -> opened (os p) f = g f) ->
  (forall r p', leads (os p') dst = Some j -> (forall q, q <> j -> data (os p') q = data (os p) q) -> (forall f, opened (os p') f = g f) ->
    (r = 0 -> data (os p') j = data (os p) i) -> Q r p') ->
  wp (copy_open o malloc_ok fuel src dst st in_fd out_fd) p Q.
Proof.
  intros C Hf Hl Hg1 Hg2 Hg HQ. unfold copy_open. destruct (negb malloc_ok).
  { apply wp_bind, wp_printed, wp_bind, close_spec. intros p1 L1 D1 O1. apply wp_bind, close_spec. intros p2 L2 D2 O2. apply wp_ret.
    cbn [os] in *. apply HQ; [congruence|by intros; rewrite D2, D1|rewrite O2, O1; by apply closed_again|done]. }
  assert (Hend : forall r p1 n m, copying in_fd out_fd i j (os p) n m (os p1) -> (r = 0 -> data (os p1) j = data (os p) i) ->
    wp (sys (f_close in_fd) >>> sys (f_close out_fd) >>>
        (if (r =? 0) && c_preserve o then sys (utime dst (fs_atime st) (fs_mtime st)) >>> sys (chmod dst (fs_mode st)) else ret tt) >>>
        (if (r =? 0) && c_verbose o then print (Copied src dst) else ret tt) >>> ret r) p1 Q).
  { intros r p1 n m C1 Hr. apply wp_bind, close_spec. intros p2 L2 D2 O2. apply wp_bind, close_spec. intros p3 L3 D3 O3.
    assert (Hfin : forall p4, leads (os p4) = leads (os p3) -> data (os p4) = data (os p3) -> opened (os p4) = opened (os p3) -> Q r p4).
    { intros p4 L4 D4 O4. apply HQ.
      - rewrite L4, L3, L2, (cg_leads _ _ _ _ _ _ _ _ C1). done.
      - intros q Hq. rewrite D4, D3, D2. by apply (cg_data _ _ _ _ _ _ _ _ C1).
      - rewrite O4, O3, O2. apply closed_again; [done|done|]. intros f H1 H2. rewrite (cg_rest _ _ _ _ _ _ _ _ C1) by done. by apply Hg.
      - intros E. rewrite D4, D3, D2. by apply Hr. }
    assert (Hv : forall p4, leads (os p4) = leads (os p3) -> data (os p4) = data (os p3) -> opened (os p4) = opened (os p3) ->
      wp ((if (r =? 0) && c_verbose o then print (Copied src dst) else ret tt) >>> ret r) p4 Q).
    { intros p4 L4 D4 O4. apply wp_bind. destruct ((r =? 0) && c_verbose o); [apply wp_printed|apply wp_ret]; by apply wp_ret, Hfin. }
    apply wp_bind. destruct ((r =? 0) && c_preserve o); [|by apply wp_ret, Hv].
    apply wp_bind, wp_sys. eapply wp_mono; [apply utime_law|]. cbn beta. intros [] s4 (L4 & D4 & O4).
    apply wp_sys. eapply wp_mono; [apply chmod_law|]. cbn beta. intros [] s5 (L5 & D5 & O5). apply Hv; cbn [os] in *; congruence. }
  apply wp_bind, wp_sys. eapply (copy_data_spec in_fd out_fd i j); [exact C|done| |].
  - intros s1 C1. apply wp_bind, wp_ret. eapply Hend; [exact C1|]. intros _. cbn [os]. rewrite (cg_dst _ _ _ _ _ _ _ _ C1). by rewrite take_ge.
  - intros c n m s1 C1 Hc. apply wp_bind. destruct c; [done|..]; apply wp_bind, wp_printed, wp_ret; by eapply Hend; [exact C1|].
Qed.

(** C30. custom_cp copies a file byte for byte, however short the reads and writes
    of the system are.  It returns 0 only if the destination has the bytes of
    the source, or if -n or -u tells it to keep a destination that exists.  In
    any case no other file changes, the source in particular, also when both
    names lead to the same file, and no descriptor is left open. *)
Theorem cp_copies src dst p :
  (forall i, leads (os p) src = Some i -> (length (data (os p) i) < fuel)%nat) ->
  wp (copy_file o malloc_ok fuel src dst) p (fun r p' => only_dst dst (os p) (os p') /\ (r = 0 -> copied_or_kept src dst (os p) (os p')) /\
    forall i, leads (os p) src = Some i -> data (os p') i = data (os p) i).
Proof.
  intros Hfuel. unfold copy_file. apply wp_bind, wp_sys. eapply wp_mono; [apply f_stat_law|]. cbn beta. intros r s [-> Hs].
  assert (Hsame : forall r p', os p' = os p -> (r = 0 -> copied_or_kept src dst (os p) (os p')) ->
    only_dst dst (os p) (os p') /\ (r = 0 -> copied_or_kept src dst (os p) (os p')) /\ forall i, leads (os p) src = Some i -> data (os p') i = data (os p) i).
  { intros r' p' E Hr. split; [by split; rewrite E|]. split; [done|]. by rewrite E. }
  destruct r as [st|e]; [|apply wp_bind, wp_printed, wp_ret; by apply Hsame]. set (p0 := Prog (os p) _ _).
  apply wp_bind, (skip_copy_spec src dst st p0 _ Hs).
  { intros p' r E Hr. apply wp_ret, Hsame; [done|]. intros ->. destruct Hr as [|(_ & H1 & H2)]; [done|]. right. by rewrite E. }
  intros Hne. cbn [os] in Hne. specialize (Hfuel _ Hs). set (i := fs_id st) in *.
  apply wp_bind, wp_sys. eapply wp_mono; [apply open_read_law|]. cbn beta. change (os p0) with (os p). intros [in_fd|e] s1 (L1 & D1 & H1).
  2:{ apply wp_bind, wp_printed, wp_ret. cbn [os]. split; [split; cbn [os]; [by rewrite D1|by rewrite H1]|]. split; [done|]. intros j _. by rewrite D1. }
  destruct H1 as (Hfree & i' & Hi' & O1). assert (i' = i) as -> by congruence. apply wp_bind.
  eapply (open_dst_spec dst _ _ in_fd i 0); cbn [os]; [by rewrite O1, upd_eq|by rewrite L1| |].
  - intros p2 out_fd j Hj Hfo L2 D2 O2. rewrite D1 in D2. rewrite O1 in Hfo, O2.
    assert (Hio : in_fd <> out_fd) by (intros ->; by rewrite upd_eq in Hfo). rewrite upd_ne in Hfo by done.
    eapply (copy_open_spec src dst st p2 in_fd out_fd i j (opened (os p))); [| |exact L2|done|done| |].
    + split; try done; [by rewrite O2, upd_ne, upd_eq by done|by rewrite O2, upd_eq|by rewrite D2, upd_eq|lia].
    + by rewrite D2, upd_ne.
    + intros f H1 H2. by rewrite O2, !upd_ne by done.
    + intros r p3 L3 D3 O3 Hr. assert (Hd : forall q, q <> j -> data (os p3) q = data (os p) q) by (intros q Hq; by rewrite D3, D2, upd_ne).
      split; [split; [|done]; intros q Hq; apply Hd; congruence|]. split.
      * intros E. left. exists i, j. split_and!; [done|done|]. by rewrite (Hr E), D2, upd_ne.
      * intros i2 Hi2. apply Hd. congruence.
  - intros p2 e D2 O2. apply wp_bind, wp_printed, wp_bind, close_spec. intros p3 L3 D3 O3. cbn [os] in *. apply wp_ret. split.
    + split; [intros q _; by rewrite D3, D2, D1|]. intros f. rewrite O3, O2, O1. unfold upd. repeat case_decide; congruence.
    + split; [done|]. intros i2 _. by rewrite D3, D2, D1.
Qed.
End spec.
