(* ===== verification/Mv.v ===== *)
(** Moving files: custom_mv.c. *)

From Stdlib Require Import Ascii.
From S2P Require Import Prelude.
From S2P Require Import UserIO.
From S2P Require Import PosixFs.
From S2P Require Import Cp.

(** ** The program *)

Record mv_opts := MvOpts { m_verbose : bool; m_force : bool; m_noclobber : bool; m_update : bool; m_interactive : bool }.

Inductive mv_out :=
  | MvPerror (p : list Z) | MvNoMemory | MvCannotStat (p : list Z) | MvAsk (p : list Z) | MvDenied (p : list Z)
  | Moved (p q : list Z) | CannotMove (p q : list Z) | UsageMv | MvMissing | MvNotDirectory (p : list Z).

Section code.
Context {St : Type} {HF : Files St} (o : mv_opts) (malloc_ok : bool) (fuel : nat).
Abbreviation P := (M (prog St mv_out)).

Definition copy_file_raw (src dst : list Z) (src_st : file_stat) : P Z :=
  r <- sys (open_read src) ;;
  match r with
  | inr _ => print (MvPerror src) >>> ret 1
  | inl in_fd =>
      r <- sys (open_write dst (Z.land (fs_mode src_st) 511)) ;;
      match r with
      | inr _ => print (MvPerror dst) >>> sys (f_close in_fd) >>> ret 1
      | inl out_fd =>
          if negb malloc_ok then print MvNoMemory >>> sys (f_close in_fd) >>> sys (f_close out_fd) >>> ret 1
          else
            c <- sys (copy_data fuel in_fd out_fd) ;;
            res <- (match c with
                    | Done => ret 0
                    | WriteError => print (MvPerror (str "write")) >>> ret 1
                    | ReadError => print (MvPerror (str "read")) >>> ret 1
                    end) ;;
            sys (f_close in_fd) >>>
            sys (f_close out_fd) >>>
            (if res =? 0 then
               sys (utime dst (fs_atime src_st) (fs_mtime src_st)) >>>
               sys (chmod dst (fs_mode src_st)) >>>
               _ <- sys (f_unlink src) ;; ret tt
             else ret tt) >>>
            ret res
      end
  end.

(** The loop of [copy_dir_recursive] over the names in the directory. *)
Fixpoint move_names (move_path : list Z -> list Z -> P Z) (src dst : list Z) (names : list (list Z)) (res : Z) : P Z :=
  match names with
  | [] => ret res
  | n :: names' =>
      if decide (n = str "." \/ n = str "..") then move_names move_path src dst names' res
      else r <- move_path (cut (join src n)) (cut (join dst n)) ;; move_names move_path src dst names' (Z.lor res r)
  end.

Definition copy_dir_recursive (move_path : list Z -> list Z -> P Z) (src dst : list Z) : P Z :=
  r <- sys (f_stat src) ;;
  match r with
  | inr _ => print (MvPerror src) >>> ret 1
  | inl st =>
      r <- sys (f_mkdir dst (fs_mode st)) ;;
      if match r with inr e => negb (e =? EEXIST) | inl _ => false end then print (MvPerror dst) >>> ret 1
      else
        d <- sys (f_opendir src) ;;
        match d with
        | inr _ => print (MvPerror src) >>> ret 1
        | inl names => res <- move_names move_path src dst names 0 ;; _ <- sys (f_rmdir src) ;; ret res
        end
  end.

(** The loop that reads to the end of the line of the answer. *)
Fixpoint flush_line (l : list Z) : list Z :=
  match l with
  | c :: l' => if c =? NL then l' else flush_line l'
  | [] => []
  end.

(** The question of -i. *)
Definition overwrite (dst : list Z) : P bool :=
  print (MvAsk dst) >>>
  c <- getc ;;
  modify (fun p => Prog (os p) (flush_line (stdin p)) (printed p)) >>>
  ret (match c with Some c => (c =? ch "y") || (c =? ch "Y") | None => false end).

(** [rename], or copying and removing on another device. *)
Definition move_now (move_path : list Z -> list Z -> P Z) (src dst : list Z) (src_st : file_stat) : P Z :=
  r <- sys (rename src dst) ;;
  match r with
  | inl _ => (if m_verbose o then print (Moved src dst) else ret tt) >>> ret 0
  | inr e =>
      if e =? EXDEV then
        res <- (if fs_isdir src_st then copy_dir_recursive move_path src dst else copy_file_raw src dst src_st) ;;
        (if (res =? 0) && m_verbose o then print (Moved src dst) else ret tt) >>>
        ret res
      else print (CannotMove src dst) >>> ret 1
  end.

(** [move_path]; [depth] bounds the directories below one another. *)
Fixpoint move_path (depth : nat) (src dst : list Z) : P Z :=
  match depth with
  | O => fun _ => NoFuel
  | S depth' =>
      r <- sys (f_lstat src) ;;
      match r with
      | inr _ => print (MvCannotStat src) >>> ret 1
      | inl src_st =>
          r <- sys (f_lstat dst) ;;
          let dst_st := match r with inl st => Some st | inr _ => None end in
          if m_noclobber o && bool_decide (is_Some dst_st) then ret 0
          else if m_update o && match dst_st with Some st => fs_mtime src_st <=? fs_mtime st | None => false end then ret 0
          else
            go <- (if m_interactive o && bool_decide (is_Some dst_st) then overwrite dst else ret true) ;;
            if negb go then ret 0
            else if negb (m_force o) && match dst_st with Some st => Z.land (fs_mode st) S_IWUSR =? 0 | None => false end
            then print (MvDenied dst) >>> ret 1
            else move_now (move_path depth') src dst src_st
      end
  end.

(** The loop of [main] over the sources. *)
Fixpoint mv_args (depth : nat) (dst : list Z) (dst_is_dir : bool) (args : list (list Z)) (res : Z) : P Z :=
  match args with
  | [] => ret res
  | a :: args' =>
      r <- move_path depth a (cut (if dst_is_dir then join dst (base_name a) else dst)) ;;
      mv_args depth dst dst_is_dir args' (Z.lor res r)
  end.
End code.

(** The [switch] of [main]; [None] prints the usage. *)
Definition mv_option (o : mv_opts) (opt : ascii) : option mv_opts :=
  let 'MvOpts v f n u i := o in
  match opt with
  | "v" => Some (MvOpts true f n u i)
  | "f" => Some (MvOpts v true n u false)
  | "n" => Some (MvOpts v f true u i)
  | "i" => Some (MvOpts v false n u true)
  | "u" => Some (MvOpts v f n true i)
  | _ => None
  end%char.

Fixpoint mv_options (o : mv_opts) (opts : list ascii) : option mv_opts :=
  match opts with
  | [] => Some o
  | opt :: opts' => o' ← mv_option o opt; mv_options o' opts'
  end.

(** [main] with the arguments after the options. *)
Definition mv_main `{HF : Files St} (malloc_ok : bool) (fuel depth : nat) (opts : list ascii) (args : list (list Z)) : M (prog St mv_out) Z :=
  match mv_options (MvOpts false false false false false) opts with
  | None => print UsageMv >>> ret 1
  | Some o =>
      match last args with
      | None => print MvMissing >>> ret 1
      | Some dst =>
          if (length args <? 2)%nat then print MvMissing >>> ret 1
          else
            d <- sys (f_stat dst) ;;
            let dst_is_dir := match d with inl st => fs_isdir st | inr _ => false end in
            if (2 <? length args)%nat && negb dst_is_dir then print (MvNotDirectory dst) >>> ret 1
            else mv_args o malloc_ok fuel depth dst dst_is_dir (removelast args) 0
      end
  end.

(** ** Nothing is lost *)

Section spec.
Context {St : Type} {HF : Files St} (o : mv_opts) (malloc_ok : bool) (fuel : nat).
Implicit Types (p : prog St mv_out) (s : St).

(** The file [i] is at the destination, or still at the source. *)
Definition arrived (dst : list Z) i s s' : Prop := exists j, leads s' dst = Some j /\ data s' j = data s i.
Definition stayed (src : list Z) i s s' : Prop := leads s' src = Some i /\ data s' i = data s i.

Lemma copy_file_raw_spec src dst st p i : leads (os p) src = Some i -> leads (os p) dst <> Some i -> linkfree src -> (length (data (os p) i) < fuel)%nat ->
  wp (copy_file_raw malloc_ok fuel src dst st) p (fun r p' => if r =? 0 then arrived dst i (os p) (os p') else stayed src i (os p) (os p')).
Proof.
  intros Hs Hne Hlf Hf. unfold copy_file_raw. apply wp_bind, wp_sys. eapply wp_mono; [apply open_read_law|]. cbn beta. intros [in_fd|e] s1 (L1 & D1 & H1).
  2:{ apply wp_bind, wp_printed, wp_ret. split; cbn; congruence. }
  destruct H1 as (Hfree & i' & Hi' & O1). assert (i' = i) as -> by congruence.
  apply wp_bind, wp_sys. eapply wp_mono; [apply open_write_law|]. cbn [os]. cbn beta. intros [out_fd|e] s2.
  2:{ intros (L2 & D2 & O2). apply wp_bind, wp_printed, wp_bind, close_spec. intros p3 L3 D3 O3. apply wp_ret. split; cbn in *; congruence. }
  intros (Hfo & j & Hj & D2 & O2 & Hkeep & Hwhich). rewrite O1 in Hfo, O2. rewrite L1 in Hkeep, Hwhich.
  assert (Hio : in_fd <> out_fd) by (intros ->; by rewrite upd_eq in Hfo).
  assert (Hij : i <> j).
  { destruct (leads (os p) dst) as [j'|]; [congruence|]. destruct Hwhich as [Hw _]. intros ->. by apply (Hw src). }
  assert (Hsrc2 : leads s2 src = Some i) by (by apply Hkeep). assert (Di : data s2 i = data (os p) i) by (by rewrite D2, upd_ne, D1).
  assert (C : copying in_fd out_fd i j s2 0 0 s2).
  { split; try done; [by rewrite O2, upd_ne, upd_eq by done|by rewrite O2, upd_eq|by rewrite D2, upd_eq|lia]. }
  assert (Hstay : forall p3 s4 n m, copying in_fd out_fd i j s2 n m s4 -> leads (os p3) = leads s4 -> data (os p3) = data s4 -> stayed src i (os p) (os p3)).
  { intros p3 s4 n m C4 L3 D3. split; [rewrite L3, (cg_leads _ _ _ _ _ _ _ _ C4); done|]. rewrite D3, (cg_data _ _ _ _ _ _ _ _ C4) by done. done. }
  destruct (negb malloc_ok).
  { apply wp_bind, wp_printed, wp_bind, close_spec. intros p3 L3 D3 _. apply wp_bind, close_spec. intros p4 L4 D4 _. apply wp_ret.
    eapply (Hstay p4); [exact C|cbn in *; congruence..]. }
  apply wp_bind, wp_sys. eapply (copy_data_spec in_fd out_fd i j); [exact C|by rewrite Di| |].
  - intros s3 C3. apply wp_bind, wp_ret, wp_bind, close_spec. intros p4 L4 D4 _. apply wp_bind, close_spec. intros p5 L5 D5 _. cbn [Z.eqb].
    apply wp_bind, wp_bind, wp_sys. eapply wp_mono; [apply utime_law|]. cbn beta. intros [] s6 (L6 & D6 & _).
    apply wp_bind, wp_sys. eapply wp_mono; [apply chmod_law|]. cbn beta. intros [] s7 (L7 & D7 & _).
    apply wp_bind, wp_sys. eapply wp_mono; [apply f_unlink_law|]. cbn beta. intros r s8 (D8 & _ & _ & _ & L8). apply wp_ret, wp_ret.
    cbn [os] in *. assert (L : leads s7 = leads s2) by (rewrite L7, L6, L5, L4; apply C3). exists j. split.
    + rewrite L8; [by rewrite L|done|]. rewrite L, Hj, Hsrc2. congruence.
    + rewrite D8, D7, D6, D5, D4, (cg_dst _ _ _ _ _ _ _ _ C3). by rewrite take_ge.
  - intros c n m s3 C3 Hc. apply wp_bind. assert (Hend : forall x : mv_out, wp (print x >>> ret 1) (Prog s3 (stdin p) (printed p)) (fun res p3 =>
      wp (sys (f_close in_fd) >>> sys (f_close out_fd) >>> (if res =? 0 then sys (utime dst (fs_atime st) (fs_mtime st)) >>> sys (chmod dst (fs_mode st)) >>> _ <- sys (f_unlink src) ;; ret tt else ret tt) >>> ret res) p3
        (fun r p' => if r =? 0 then arrived dst i (os p) (os p') else stayed src i (os p) (os p')))).
    { intros x. apply wp_bind, wp_printed, wp_ret, wp_bind, close_spec. intros p4 L4 D4 _. apply wp_bind, close_spec. intros p5 L5 D5 _.
      cbn [Z.eqb]. apply wp_bind, wp_ret, wp_ret. eapply (Hstay p5); [exact C3|cbn in *; congruence..]. }
    destruct c; [done|apply Hend..].
Qed.

(** What a move leaves. *)
Definition moves (src dst : list Z) i s (r : Z) s' : Prop := (arrived dst i s s' \/ stayed src i s s') /\ (r <> 0 -> stayed src i s s').

Lemma moves_none src dst i s r : leads s src = Some i -> moves src dst i s r s.
Proof. intros Hs. assert (H : stayed src i s s) by done. split; [by right|done]. Qed.

Lemma verbose_spec (b : bool) (x : mv_out) r p (Q : Z -> prog St mv_out -> Prop) :
  (forall p', os p' = os p -> Q r p') -> wp ((if b then print x else ret tt) >>> ret r) p Q.
Proof. intros HQ. apply wp_bind. destruct b; [apply wp_printed|apply wp_ret]; by apply wp_ret, HQ. Qed.

Lemma move_now_spec rec src dst st p i :
  leads (os p) src = Some i -> linkfree src -> (length (data (os p) i) < fuel)%nat -> fs_isdir st = false ->
  wp (move_now o malloc_ok fuel rec src dst st) p (fun r p' => moves src dst i (os p) r (os p')).
Proof.
  intros Hs Hlf Hf Hdir. unfold move_now. apply wp_bind, wp_sys. eapply wp_mono; [apply rename_law|]. cbn beta. intros [u|e] s [Ed H].
  - apply verbose_spec. intros p' E. rewrite E. cbn [os]. split; [|done]. left. exists i. rewrite Ed. split; [|done]. by rewrite H.
  - destruct H as (L & O & Hx). destruct (Z.eqb_spec e EXDEV) as [->|].
    + rewrite Hdir. set (p1 := Prog s _ _). apply wp_bind. eapply wp_mono.
      * apply (copy_file_raw_spec src dst st p1 i); cbn [os p1]; [by rewrite L|rewrite L, <- Hs; apply Hx; [done|congruence]|done|by rewrite Ed].
      * cbn beta. intros r p2 H2. apply verbose_spec. intros p3 E3. rewrite E3. change (os p1) with s in H2. unfold arrived, stayed in H2. rewrite Ed in H2.
        destruct (Z.eqb_spec r 0) as [->|]; [split; [by left|done]|split; [by right|done]].
    + apply wp_bind, wp_printed, wp_ret. cbn [os]. assert (Hst : stayed src i (os p) s) by (split; congruence). split; [by right|done].
Qed.

End spec.
