(* ===== verification/PosixDemo.v ===== *)
(** A tree that behaves as [Posix] says, for the witnesses of the utilities. *)

From S2P Require Import Prelude.
From S2P Require Import UserIO.
From S2P Require Import PosixFs.
From S2P Require Import Rm.
From S2P Require Import Cp.
From S2P Require Import Mv.

(** ** Paths *)

Fixpoint split_sep (cur p : list Z) : key :=
  match p with
  | [] => [cur]
  | c :: p' => if c =? SEP then cur :: split_sep [] p' else split_sep (cur ++ [c]) p'
  end.
Definition path_key (p : list Z) : key := filter (fun n => n <> []) (split_sep [] p).

Lemma split_plain n : forall cur, Forall (fun c => c <> 0 /\ c <> SEP) n -> split_sep cur n = [cur ++ n].
Proof.
  induction n as [|c n IH]; intros cur Hn; cbn; [by rewrite app_nil_r|]. apply Forall_cons in Hn as [[_ Hc] Hn].
  rewrite (proj2 (Z.eqb_neq c SEP)) by done. rewrite IH by done. by rewrite <- app_assoc.
Qed.

Lemma split_join p n : forall cur, split_sep cur (p ++ SEP :: n) = split_sep cur p ++ split_sep [] n.
Proof.
  induction p as [|c p IH]; intros cur; cbn; [done|]. destruct (c =? SEP); [cbn; by rewrite IH|by rewrite IH].
Qed.

Lemma path_key_join p n : plain n -> path_key (join p n) = path_key p ++ [n].
Proof.
  intros (Hne & _ & _ & Hn). unfold path_key, join. cbn [app]. rewrite split_join, filter_app, (split_plain n) by done.
  cbn [app]. by rewrite filter_cons_True.
Qed.

(** ** The tree *)

Definition closed (m : tree) : Prop :=
  forall k n, is_Some (m !! (k ++ [n])) -> plain n /\ exists d, m !! k = Some d /\ st_isdir (n_stat d) = true.

Record disk_tree := DiskTree { dt : tree; dt_closed : closed dt }.

Definition childless (m : tree) (k : key) : Prop := map_Forall (fun q _ => ~ exists n, q = k ++ [n]) m.
#[export] Instance child_dec (k q : key) : Decision (exists n, q = k ++ [n]).
Proof.
  destruct (last q) as [n|] eqn:E.
  - destruct (decide (q = k ++ [n])) as [->|Hne]; [left; by exists n|]. right. intros [n' ->]. rewrite last_snoc in E. by injection E as ->.
  - right. intros [n ->]. by rewrite last_snoc in E.
Defined.
#[export] Instance childless_dec m k : Decision (childless m k).
Proof. apply _. Defined.

Lemma closed_delete m k : closed m -> childless m k -> closed (delete k m).
Proof.
  intros Hc Hk k' n [d Hd]. apply lookup_delete_Some in Hd as [Hne Hd]. destruct (Hc k' n ltac:(by eexists)) as (Hp & d' & Hd' & Hdir).
  split; [done|]. exists d'. split; [|done]. rewrite lookup_delete_ne; [done|]. intros ->. apply (Hk _ _ Hd). by exists n.
Qed.

Lemma file_childless m k d : closed m -> m !! k = Some d -> st_isdir (n_stat d) = false -> childless m k.
Proof. intros Hc Hk Hd q e Hq [n ->]. destruct (Hc k n ltac:(by eexists)) as (_ & d' & Hd' & Hdir). congruence. Qed.

Definition EIO : Z := 5.

Definition t_lstat (p : list Z) : M disk_tree (stat_buf + Z) := fun s =>
  Ok (match dt s !! path_key p with Some d => inl (n_stat d) | None => inr ENOENT end, s).

Definition drop_leaf (k : key) (s : disk_tree) (H : childless (dt s) k) : disk_tree := DiskTree (delete k (dt s)) (closed_delete _ _ (dt_closed s) H).

Definition t_delete (p : list Z) : M disk_tree (unit + Z) := fun s =>
  match decide (childless (dt s) (path_key p)) with
  | left H => Ok (inl tt, drop_leaf (path_key p) s H)
  | right _ => Ok (inr EIO, s)
  end.

(** The calls fail on a node of the wrong kind. *)
Definition t_rmdir (p : list Z) : M disk_tree (unit + Z) := fun s =>
  match dt s !! path_key p with
  | None => Ok (inr ENOENT, s)
  | Some d => if st_isdir (n_stat d) then t_delete p s else Ok (inr EIO, s)
  end.

Definition t_unlink (p : list Z) : M disk_tree (unit + Z) := fun s =>
  match dt s !! path_key p with
  | None => Ok (inr ENOENT, s)
  | Some d => if st_isdir (n_stat d) then Ok (inr EIO, s) else t_delete p s
  end.

Definition child_name (k q : key) : option (list Z) :=
  match last q with Some n => if decide (q = k ++ [n]) then Some n else None | None => None end.

Definition t_opendir (p : list Z) : M disk_tree (list (list Z) + Z) := fun s =>
  Ok (inl (str "." :: str ".." :: omap (fun kd => child_name (path_key p) (fst kd)) (map_to_list (dt s))), s).

Lemma child_name_some k q n : child_name k q = Some n <-> q = k ++ [n].
Proof.
  unfold child_name. split.
  - destruct (last q) as [n'|]; [|done]. case_decide; [|done]. by intros [= ->].
  - intros ->. rewrite last_snoc. by rewrite decide_True.
Qed.

#[export] Program Instance tree_posix : Posix disk_tree := {|
  view := dt; key_of := path_key; lstat := t_lstat; unlink := t_unlink; rmdir := t_rmdir; opendir := t_opendir
|}.
Next Obligation. intros. by apply path_key_join. Qed.
Next Obligation. intros s k n H. by apply (dt_closed s k n). Qed.
Next Obligation. intros p s. unfold wp, t_lstat. split; [done|]. destruct (dt s !! path_key p) as [d|]; [by exists d|done]. Qed.
Next Obligation.
  intros p s. unfold wp, t_unlink, t_delete. destruct (dt s !! path_key p) as [d|] eqn:E; [|done]. destruct (st_isdir (n_stat d)) eqn:Ed; [done|].
  destruct (decide _) as [H|H]; [by split; [|exists d]|]. destruct H. by eapply file_childless; [apply dt_closed|..].
Qed.
Next Obligation.
  intros p s. unfold wp, t_rmdir, t_delete. destruct (dt s !! path_key p) as [d|]; [|done]. destruct (st_isdir (n_stat d)); [|done]. destruct (decide _) as [H|H]; [|done]. split; [done|]. intros n.
  destruct (dt s !! (path_key p ++ [n])) eqn:E; [|done]. destruct (H _ _ E). by exists n.
Qed.
Next Obligation.
  intros p s. unfold wp, t_opendir. split; [done|]. split.
  - intros n [d Hd]. do 2 (apply elem_of_cons; right). apply list_elem_of_omap. exists (path_key p ++ [n], d). split; [by apply elem_of_map_to_list|].
    by apply child_name_some.
  - repeat apply Forall_cons_2; [by left|by right; left|]. apply Forall_forall. intros n (kd & Hkd & Hn)%list_elem_of_omap. right; right.
    apply child_name_some in Hn. destruct kd as [k d]. apply elem_of_map_to_list in Hkd. cbn in Hn. subst k. by destruct (dt_closed s (path_key p) n) as [? _].
Qed.

(** ** A directory with a file *)

Definition a_dir : node := Node (StatBuf true 493) [].
Definition a_file : node := Node (StatBuf false 420) (str "hi").
Definition demo_map : tree := {[ [] := a_dir; [str "d"] := a_dir; [str "d"; str "f"] := a_file; [str "g"] := a_file ]}.

Lemma demo_closed : closed demo_map.
Proof.
  intros k n [d Hd]. unfold demo_map in Hd.
  apply lookup_insert_Some in Hd as [[E _]|[_ Hd]]; [by destruct k|].
  apply lookup_insert_Some in Hd as [[E _]|[_ Hd]]; [|apply lookup_insert_Some in Hd as [[E _]|[_ Hd]]; [|apply lookup_singleton_Some in Hd as [E _]]].
  - apply (app_inj_2 [] k [str "d"] [n]) in E as [<- [= <-]]; [|done]. split; [split_and!; try done; by repeat constructor|by exists a_dir].
  - apply (app_inj_2 [str "d"] k [str "f"] [n]) in E as [<- [= <-]]; [|done]. split; [split_and!; try done; by repeat constructor|by exists a_dir].
  - apply (app_inj_2 [] k [str "g"] [n]) in E as [<- [= <-]]; [|done]. split; [split_and!; try done; by repeat constructor|by exists a_dir].
Qed.

Definition demo_tree_state : prog disk_tree rm_out := Prog (DiskTree demo_map demo_closed) [] [].


(** * Files that behave as [Files] says, for the witnesses of custom_cp and
    custom_mv. *)

(** Inode numbers and descriptors below [d_next] are in use. *)
Record plain_files := PlainFiles { d_leads : list Z -> option (Z * Z); d_data : Z * Z -> list Z; d_opened : Z -> option ((Z * Z) * nat); d_next : Z }.

Definition in_order (s : plain_files) : Prop :=
  (forall p i, d_leads s p = Some i -> snd i < d_next s) /\ (forall f i o, d_opened s f = Some (i, o) -> snd i < d_next s /\ f < d_next s).

Record demo_files := DemoFiles { df : plain_files; df_order : in_order df }.

Definition a_stat (i : Z * Z) : file_stat := FileStat false 420 i 0 0.

Definition x_stat (p : list Z) : M demo_files (file_stat + Z) := fun s =>
  Ok (match d_leads (df s) p with Some i => inl (a_stat i) | None => inr ENOENT end, s).

Lemma order_open s f i o : in_order s -> snd i < d_next s -> f < d_next s + 1 ->
  in_order (PlainFiles (d_leads s) (d_data s) (upd (d_opened s) f (Some (i, o))) (d_next s + 1)).
Proof.
  intros [H1 H2] Hi Hf. split; cbn.
  - intros p j Hp. specialize (H1 p j Hp). lia.
  - intros g j o'. unfold upd. case_decide as E; [intros [= <- <-]; subst; lia|]. intros Hg. specialize (H2 g j o' Hg). lia.
Qed.

Definition x_open_read (p : list Z) : M demo_files (Z + Z) := fun s =>
  (match d_leads (df s) p as r return d_leads (df s) p = r -> _ with
   | Some i => fun E => Ok (inl (d_next (df s)), DemoFiles _ (order_open (df s) (d_next (df s)) i 0 (df_order s) (proj1 (df_order s) p i E) ltac:(lia)))
   | None => fun _ => Ok (inr ENOENT, s)
   end) eq_refl.

Lemma order_create s p : in_order s -> in_order (PlainFiles (upd (d_leads s) p (Some (0, d_next s))) (d_data s) (d_opened s) (d_next s + 1)).
Proof.
  intros [H1 H2]. split; cbn.
  - intros q j. unfold upd. case_decide; [intros [= <-]; cbn; lia|]. intros Hq. specialize (H1 q j Hq). lia.
  - intros g j o' Hg. specialize (H2 g j o' Hg). lia.
Qed.

Lemma order_data s d : in_order s -> in_order (PlainFiles (d_leads s) d (d_opened s) (d_next s)).
Proof. done. Qed.

(** The file of a path, made if there is none. *)
Definition ensure (p : list Z) (s : demo_files) : demo_files :=
  match d_leads (df s) p with Some _ => s | None => DemoFiles _ (order_create (df s) p (df_order s)) end.

Definition x_open_write (p : list Z) (_ : Z) : M demo_files (Z + Z) := fun s =>
  let s1 := ensure p s in
  (match d_leads (df s1) p as r return d_leads (df s1) p = r -> _ with
   | Some i => fun E =>
       Ok (inl (d_next (df s1)), DemoFiles _ (order_data _ (upd (d_data (df s1)) i [])
         (order_open (df s1) (d_next (df s1)) i 0 (df_order s1) (proj1 (df_order s1) p i E) ltac:(lia))))
   | None => fun _ => Ok (inr ENOENT, s)
   end) eq_refl.

Lemma order_unlink s p : in_order s -> in_order (PlainFiles (upd (d_leads s) p None) (d_data s) (d_opened s) (d_next s)).
Proof. intros [H1 H2]. split; cbn; [|done]. intros q j. unfold upd. case_decide; [done|apply H1]. Qed.

Definition x_unlink (p : list Z) : M demo_files (unit + Z) := fun s => Ok (inl tt, DemoFiles _ (order_unlink (df s) p (df_order s))).

(** Every two files are on different devices. *)
Definition x_rename (p q : list Z) : M demo_files (unit + Z) := fun s =>
  Ok (inr (if decide (d_leads (df s) p = d_leads (df s) q) then ENOENT else EXDEV), s).

Lemma order_seek s f i o o' : in_order s -> d_opened s f = Some (i, o) -> in_order (PlainFiles (d_leads s) (d_data s) (upd (d_opened s) f (Some (i, o'))) (d_next s)).
Proof.
  intros [H1 H2] Hf. split; cbn; [done|]. intros g j o2. unfold upd. case_decide as E; [|apply H2]. intros [= <- <-]. subst g. by apply (H2 f i o).
Qed.

Definition x_read (f : Z) (n : nat) : M demo_files (list Z + Z) := fun s =>
  (match d_opened (df s) f as r return d_opened (df s) f = r -> _ with
   | Some (i, o) => fun E => let bs := take n (drop o (d_data (df s) i)) in
       Ok (inl bs, DemoFiles _ (order_seek (df s) f i o (o + length bs) (df_order s) E))
   | None => fun _ => Ok (inr ENOENT, s)
   end) eq_refl.

Definition x_write (f : Z) (bs : list Z) : M demo_files (nat + Z) := fun s =>
  (match d_opened (df s) f as r return d_opened (df s) f = r -> _ with
   | Some (i, o) => fun E =>
       Ok (inl (length bs), DemoFiles _ (order_data _ (upd (d_data (df s)) i (splice (d_data (df s) i) o bs)) (order_seek (df s) f i o (o + length bs) (df_order s) E)))
   | None => fun _ => Ok (inr ENOENT, s)
   end) eq_refl.

Lemma order_close s f : in_order s -> in_order (PlainFiles (d_leads s) (d_data s) (upd (d_opened s) f None) (d_next s)).
Proof. intros [H1 H2]. split; cbn; [done|]. intros g j o. unfold upd. case_decide; [done|apply H2]. Qed.

Definition x_close (f : Z) : M demo_files unit := fun s => Ok (tt, DemoFiles _ (order_close (df s) f (df_order s))).

#[export] Program Instance demo_is_files : Files demo_files := {|
  leads s := d_leads (df s); data s := d_data (df s); opened s := d_opened (df s); linkfree _ := True;
  f_stat := x_stat; f_lstat := x_stat; open_read := x_open_read; open_write := x_open_write; f_unlink := x_unlink;
  f_read := x_read; f_write := x_write; f_close := x_close; utime _ _ _ := ret tt; chmod _ _ := ret tt;
  rename := x_rename; f_mkdir _ _ := ret (inr ENOENT); f_rmdir _ := ret (inr ENOENT); f_opendir _ := ret (inr ENOENT)
|}.
Next Obligation. intros p s. unfold wp, x_stat. split; [done|]. by destruct (d_leads (df s) p). Qed.
Next Obligation. done. Qed.
Next Obligation.
  intros p s. unfold wp, x_open_read. generalize (eq_refl (d_leads (df s) p)). generalize (d_leads (df s) p) at 2 3. intros [i|] E; [|done].
  split; [done|]. split; [done|]. split; [|by exists i]. destruct (d_opened (df s) (d_next (df s))) as [[j o]|] eqn:Eo; [|done].
  apply (df_order s) in Eo. lia.
Qed.
Next Obligation.
  intros p mode s. unfold wp, x_open_write. set (s1 := ensure p s).
  assert (H1 : d_leads (df s1) p = (match d_leads (df s) p with Some i => Some i | None => Some (0, d_next (df s)) end) /\
    d_data (df s1) = d_data (df s) /\ d_opened (df s1) = d_opened (df s) /\ d_next (df s) <= d_next (df s1) /\
    forall q j, d_leads (df s) q = Some j -> d_leads (df s1) q = Some j).
  { unfold s1, ensure. destruct (d_leads (df s) p) as [i|] eqn:E; [split_and!; done || lia|]. cbn. rewrite upd_eq. split_and!; try (done || lia).
    intros q j Hq. rewrite upd_ne; [done|congruence]. }
  destruct H1 as (Hl & Hd & Ho & Hn & Hkeep). generalize (eq_refl (d_leads (df s1) p)). generalize (d_leads (df s1) p) at 2 3. intros [i|] E; [|done].
  assert (Hfree : forall f j o, d_opened (df s) f = Some (j, o) -> snd j < d_next (df s) /\ f < d_next (df s)) by apply (df_order s).
  split.
  - destruct (d_opened (df s) (d_next (df s1))) as [[j o]|] eqn:Eo; [|done]. apply Hfree in Eo. lia.
  - exists i. cbn. rewrite Hd, Ho. split_and!; [done|done|done|done|]. rewrite Hl in E. destruct (d_leads (df s) p) as [j|]; [congruence|]. injection E as <-. split.
    + intros q Hq. apply (df_order s) in Hq. cbn in Hq. lia.
    + intros f j o Hf ->. apply Hfree in Hf. cbn in Hf. lia.
Qed.
Next Obligation.
  intros p s. unfold wp, x_unlink. cbn. split_and!; try done.
  - intros _. by rewrite upd_eq.
  - intros q. unfold upd. case_decide; [by right|by left].
  - intros _ q Hq. rewrite upd_ne; [done|congruence].
Qed.
Next Obligation.
  intros f n s i o Hf. unfold wp, x_read. generalize (eq_refl (d_opened (df s) f)). generalize (d_opened (df s) f) at 2 3. intros [[j o']|] E; [|congruence].
  assert (j = i /\ o' = o) as [-> ->] by (split; congruence). cbn zeta. split; [done|]. split; [done|]. exists (drop n (drop o (d_data (df s) i))).
  split_and!; [by rewrite take_drop|rewrite length_take; lia| |done]. intros Hb. destruct n; [by left|]. right.
  destruct (drop o (d_data (df s) i)); [done|discriminate Hb].
Qed.
Next Obligation.
  intros f bs s i o Hf Hne. unfold wp, x_write. generalize (eq_refl (d_opened (df s) f)). generalize (d_opened (df s) f) at 2 3. intros [[j o']|] E; [|congruence].
  assert (j = i /\ o' = o) as [-> ->] by (split; congruence). split; [done|]. split_and!; [destruct bs; [done|cbn; lia]|lia| |done]. by rewrite take_ge by lia.
Qed.
Next Obligation. done. Qed.
Next Obligation. done. Qed.
Next Obligation. done. Qed.
Next Obligation.
  intros p q s. unfold wp, x_rename. split; [done|]. split; [done|]. split; [done|]. cbn. case_decide as E; [done|]. intros _ _ E'. by apply E.
Qed.

(** ** A file to copy *)

Definition two_files : plain_files :=
  PlainFiles (fun p => if decide (p = str "a") then Some (0, 0) else if decide (p = str "b") then Some (0, 1) else None)
    (fun i => if decide (i = (0, 0)) then str "new" else str "old") (fun _ => None) 2.

Lemma two_files_order : in_order two_files.
Proof. split; [|done]. intros p i. cbn. repeat case_decide; intros [= <-]; cbn; lia. Qed.

Lemma cp_copies_witness :
  let p := Prog (DemoFiles two_files two_files_order) [] [] in
  wp (copy_file (CpOpts false false false false false false) true 4 (str "a") (str "b")) p (fun r p' =>
    data (os p') (0, 0) = str "new" /\ (r = 0 -> exists j, leads (os p') (str "b") = Some j /\ data (os p') j = str "new")).
Proof.
  intros p. eapply wp_mono; [apply (cp_copies (CpOpts false false false false false false) true 4 (str "a") (str "b") p)|].
  - intros i [= <-]. apply (bool_decide_unpack _). by vm_compute.
  - cbn beta. intros r p' (_ & Hr & Hs). split; [by apply (Hs (0, 0))|]. intros E. destruct (Hr E) as [(i & j & Hi & Hj & Hd)|[Hk _]]; [|done].
    exists j. split; [done|]. rewrite Hd. by injection Hi as <-.
Defined.

