(* ===== verification/Ls.v ===== *)
(** Listing directories: custom_ls.c.

    The sorting function of the C library is a parameter: [qsort] sorts with
    any comparison that orders its arguments. *)

From Stdlib Require Import Ascii Sorted.
From S2P Require Import Prelude.
From S2P Require Import UserIO.
From S2P Require Import Wc.

(** ** The program *)

Definition MAX_ENTRIES : nat := Z.to_nat 8192.
Definition NAME_MAX : nat := 255.

(** The fields of [struct stat] that are used; all 0 where [lstat] fails. *)
Record ls_stat := LsStat { l_mode : Z; l_nlink : Z; l_uid : Z; l_gid : Z; l_size : Z; l_mtime : Z; l_blocks : Z }.
Record Entry := MkEntry { e_name : list Z; e_st : ls_stat }.
Definition no_stat : ls_stat := LsStat 0 0 0 0 0 0 0.

Record ls_opts := LsOpts { l_long : bool; l_all : bool; l_human : bool; l_reverse : bool; l_time : bool; l_one : bool }.

(** [human_size]: how often the size is divided by 1024. *)
Fixpoint human_unit (fuel : nat) (size : Z) (u : Z) : Z :=
  match fuel with
  | O => u
  | S fuel' => if 1024 ^ (u + 1) <=? size then human_unit fuel' size (u + 1) else u
  end.

(** The bits of [st_mode]. *)
Definition S_IFMT : Z := 61440.
Definition perm_type (mode : Z) : ascii :=
  let f := Z.land mode S_IFMT in
  if f =? 16384 then "d"%char else if f =? 40960 then "l"%char else if f =? 8192 then "c"%char
  else if f =? 24576 then "b"%char else if f =? 4096 then "p"%char else if f =? 49152 then "s"%char else "-"%char.
Definition perm_bit (mode b : Z) (c : ascii) : ascii := if negb (Z.land mode b =? 0) then c else "-"%char.
Definition perm_exec (mode special b : Z) (s : ascii) : ascii := if negb (Z.land mode special =? 0) then s else perm_bit mode b "x".

Definition print_permissions (mode : Z) : list ascii :=
  [perm_type mode; perm_bit mode 256 "r"; perm_bit mode 128 "w"; perm_exec mode 2048 64 "s";
   perm_bit mode 32 "r"; perm_bit mode 16 "w"; perm_exec mode 1024 8 "s";
   perm_bit mode 4 "r"; perm_bit mode 2 "w"; perm_exec mode 512 1 "t"].

(** [strcasecmp] on names of bytes. *)
Definition to_lower (c : Z) : Z := if (ch "A" <=? c) && (c <=? ch "Z") then c + 32 else c.
Fixpoint strcasecmp (a b : list Z) : Z :=
  match a, b with
  | [], [] => 0
  | [], d :: _ => - to_lower d
  | c :: _, [] => to_lower c
  | c :: a', d :: b' => if to_lower c =? to_lower d then strcasecmp a' b' else to_lower c - to_lower d
  end.

Definition cmp_name (o : ls_opts) (a b : Entry) : Z :=
  let r := strcasecmp (e_name a) (e_name b) in if l_reverse o then - r else r.

Definition cmp_time (o : ls_opts) (a b : Entry) : Z :=
  if l_mtime (e_st a) <? l_mtime (e_st b) then if l_reverse o then -1 else 1
  else if l_mtime (e_st b) <? l_mtime (e_st a) then if l_reverse o then 1 else -1
  else 0.

Definition cmp_of (o : ls_opts) : Entry -> Entry -> Z := if l_time o then cmp_time o else cmp_name o.

(** The loop that reads the directory: the names that [readdir] gives, with what
    [lstat] gives. *)
Fixpoint read_entries (o : ls_opts) (des : list (list Z * option ls_stat)) (entries : list Entry) : list Entry :=
  match des with
  | [] => entries
  | (name, st) :: des' =>
      if (length entries <? MAX_ENTRIES)%nat then
        if negb (l_all o) && (hd 0 name =? ch ".") then read_entries o des' entries
        else read_entries o des' (entries ++ [MkEntry (take NAME_MAX name) (default no_stat st)])
      else entries
  end.

(** What is printed: the total, a line of the long format with the permissions,
    the number of links, the owner and group, the size and its unit, the time
    and whether it is recent, and the name; or a name and what separates it. *)
Inductive ls_out :=
  | LTotal (n : Z) | LLong (perm : list ascii) (nlink uid gid size unit_ mtime : Z) (recent : bool) (name : list Z)
  | LName (name : list Z) (newline : bool) | LEnd | LHead (path : list Z) | LErr (path : list Z).

Section code.
Context (qsort : (Entry -> Entry -> Z) -> list Entry -> list Entry) (isatty : bool) (now : Z) (o : ls_opts).

Definition show_entry (e : Entry) : ls_out :=
  let st := e_st e in
  if l_long o then
    LLong (print_permissions (l_mode st)) (l_nlink st) (l_uid st) (l_gid st) (l_size st)
      (if l_human o then human_unit 5 (l_size st) 0 else 0) (l_mtime st) (now - l_mtime st <? 6 * 30 * 24 * 3600) (e_name e)
  else LName (e_name e) (l_one o || negb isatty).

(** [list_dir] on the entries of the directory; [None] if [opendir] fails. *)
Definition list_dir (path : list Z) (des : option (list (list Z * option ls_stat))) : list ls_out :=
  match des with
  | None => [LErr path]
  | Some des =>
      let entries := qsort (cmp_of o) (read_entries o des []) in
      (if l_long o then [LTotal (Z.quot (foldr (fun e a => l_blocks (e_st e) + a) 0 entries) 2)] else []) ++
      map show_entry entries ++
      (if negb (l_long o) && negb (l_one o) && isatty then [LEnd] else [])
  end.

(** The loop of [main] over the paths. *)
Fixpoint ls_paths (several : bool) (open : list Z -> option (list (list Z * option ls_stat))) (paths : list (list Z)) : list ls_out :=
  match paths with
  | [] => []
  | p :: paths' =>
      (if several then [LHead p] else []) ++ list_dir p (open p) ++
      (if several && negb (bool_decide (paths' = [])) then [LEnd] else []) ++ ls_paths several open paths'
  end.
End code.

Definition ls_option (o : ls_opts) (opt : ascii) : option ls_opts :=
  let 'LsOpts l a h r t n := o in
  match opt with
  | "l" => Some (LsOpts true a h r t n)
  | "a" => Some (LsOpts l true h r t n)
  | "h" => Some (LsOpts l a true r t n)
  | "r" => Some (LsOpts l a h true t n)
  | "t" => Some (LsOpts l a h r true n)
  | "1" => Some (LsOpts l a h r t true)
  | _ => None
  end%char.

Fixpoint ls_options (o : ls_opts) (opts : list ascii) : option ls_opts :=
  match opts with
  | [] => Some o
  | opt :: opts' => o' ← ls_option o opt; ls_options o' opts'
  end.

(** [main]: what is printed and the exit status. *)
Definition ls_main (qsort : (Entry -> Entry -> Z) -> list Entry -> list Entry) (isatty : bool) (now : Z)
    (open : list Z -> option (list (list Z * option ls_stat))) (opts : list ascii) (args : list (list Z)) : list ls_out * Z :=
  match ls_options (LsOpts false false false false false false) opts with
  | None => ([], 1)
  | Some o =>
      (match args with
       | [] => list_dir qsort isatty now o (str ".") (open (str "."))
       | _ => ls_paths qsort isatty now o (1 <? length args)%nat open args
       end, 0)
  end.

(** ** The order *)

(** A comparison that orders its arguments, as [qsort] needs it. *)
Record ordering {A} (P : A -> Prop) (cmp : A -> A -> Z) : Prop := {
  or_anti a b : P a -> P b -> (cmp a b <= 0 <-> 0 <= cmp b a);
  or_trans a b c : P a -> P b -> P c -> cmp a b <= 0 -> cmp b c <= 0 -> cmp a c <= 0
}.

Definition name_bytes (n : list Z) : Prop := Forall (fun c => 0 < c) n.
Definition good_entry (e : Entry) : Prop := name_bytes (e_name e).

Lemma strcasecmp_opp : forall a b, strcasecmp b a = - strcasecmp a b.
Proof.
  induction a as [|c a IH]; intros [|d b]; cbn; [done|lia|done|]. rewrite (Z.eqb_sym (to_lower d)). destruct (to_lower c =? to_lower d); [apply IH|lia].
Qed.

Lemma to_lower_pos c : 0 < c -> 0 < to_lower c.
Proof. intros Hc. unfold to_lower. case_match; lia. Qed.

Lemma strcasecmp_trans : forall a b c, name_bytes a -> name_bytes b -> name_bytes c ->
  strcasecmp a b <= 0 -> strcasecmp b c <= 0 -> strcasecmp a c <= 0.
Proof.
  assert (Hpos : forall x l, name_bytes (x :: l) -> 0 < to_lower x) by (intros x l H; apply to_lower_pos; by inversion H).
  induction a as [|x a IH]; intros [|y b] [|z c] Ha Hb Hc; cbn; intros H1 H2; try lia;
    try (pose proof (Hpos _ _ Ha)); try (pose proof (Hpos _ _ Hb)); try (pose proof (Hpos _ _ Hc)); try lia.
  - apply Forall_cons in Ha as [_ Ha], Hb as [_ Hb], Hc as [_ Hc].
    destruct (Z.eqb_spec (to_lower x) (to_lower y)) as [E1|], (Z.eqb_spec (to_lower y) (to_lower z)) as [E2|], (Z.eqb_spec (to_lower x) (to_lower z)); try lia.
    by apply (IH b c).
Qed.

Lemma cmp_orders o : ordering good_entry (cmp_of o).
Proof.
  unfold cmp_of. destruct (l_time o); split.
  - intros a b _ _. unfold cmp_time. destruct (Z.ltb_spec (l_mtime (e_st a)) (l_mtime (e_st b))), (Z.ltb_spec (l_mtime (e_st b)) (l_mtime (e_st a))), (l_reverse o); lia.
  - intros a b c _ _ _. unfold cmp_time.
    destruct (Z.ltb_spec (l_mtime (e_st a)) (l_mtime (e_st b))), (Z.ltb_spec (l_mtime (e_st b)) (l_mtime (e_st a))),
      (Z.ltb_spec (l_mtime (e_st b)) (l_mtime (e_st c))), (Z.ltb_spec (l_mtime (e_st c)) (l_mtime (e_st b))),
      (Z.ltb_spec (l_mtime (e_st a)) (l_mtime (e_st c))), (Z.ltb_spec (l_mtime (e_st c)) (l_mtime (e_st a))), (l_reverse o); lia.
  - intros a b _ _. unfold cmp_name. pose proof (strcasecmp_opp (e_name a) (e_name b)). destruct (l_reverse o); lia.
  - intros a b c Ha Hb Hc. unfold cmp_name. destruct (l_reverse o); [|by apply strcasecmp_trans].
    pose proof (strcasecmp_opp (e_name b) (e_name a)). pose proof (strcasecmp_opp (e_name c) (e_name b)). pose proof (strcasecmp_opp (e_name c) (e_name a)).
    pose proof (strcasecmp_trans (e_name c) (e_name b) (e_name a) Hc Hb Ha). lia.
Qed.

(** ** What is listed *)

Definition hidden (o : ls_opts) (de : list Z * option ls_stat) : Prop := l_all o = false /\ hd 0 (fst de) = ch ".".
#[export] Instance hidden_dec o de : Decision (hidden o de).
Proof. apply _. Defined.

Definition entry_of (de : list Z * option ls_stat) : Entry := MkEntry (take NAME_MAX (fst de)) (default no_stat (snd de)).
Definition listed (o : ls_opts) (des : list (list Z * option ls_stat)) : list Entry := map entry_of (filter (fun de => ~ hidden o de) des).

Lemma read_entries_all o des : forall es, (length es + length (listed o des) <= MAX_ENTRIES)%nat -> read_entries o des es = es ++ listed o des.
Proof.
  induction des as [|[name st] des IH]; intros es Hl; cbn [read_entries]; [by rewrite app_nil_r|]. unfold listed in *. rewrite filter_cons in Hl |- *.
  assert (Hh : negb (l_all o) && (hd 0 name =? ch ".") = bool_decide (hidden o (name, st))).
  { apply Bool.eq_iff_eq_true. rewrite andb_true_iff, negb_true_iff, Z.eqb_eq, bool_decide_eq_true. done. }
  rewrite Hh. destruct (decide (~ hidden o (name, st))) as [Hn|Hn]; cbn [map length] in *.
  - rewrite (proj2 (Nat.ltb_lt _ _)) by lia. rewrite bool_decide_eq_false_2 by done. rewrite IH by (rewrite length_app; cbn; lia). by rewrite <- app_assoc.
  - apply dec_stable in Hn. rewrite bool_decide_eq_true_2 by done. destruct (Nat.ltb_spec (length es) MAX_ENTRIES); [by apply IH|].
    destruct (filter (fun de => ~ hidden o de) des); [by rewrite app_nil_r|cbn in Hl; lia].
Qed.


(** Insertion sort, for the witness. *)
Fixpoint insert_by {A} (cmp : A -> A -> Z) (x : A) (l : list A) : list A :=
  match l with
  | [] => [x]
  | y :: l' => if cmp x y <=? 0 then x :: l else y :: insert_by cmp x l'
  end.
Definition sort_by {A} (cmp : A -> A -> Z) (l : list A) : list A := foldr (insert_by cmp) [] l.

Lemma insert_by_perm {A} (cmp : A -> A -> Z) x l : insert_by cmp x l ≡ₚ x :: l.
Proof. induction l as [|y l IH]; [done|]. cbn. case_match; [done|]. rewrite IH. apply Permutation_swap. Qed.

Lemma sort_by_perm {A} (cmp : A -> A -> Z) l : sort_by cmp l ≡ₚ l.
Proof. induction l as [|x l IH]; [done|]. cbn. rewrite insert_by_perm. by rewrite <- IH at 2. Qed.

Lemma insert_by_sorted {A} (P : A -> Prop) (cmp : A -> A -> Z) x l : ordering P cmp -> P x -> Forall P l ->
  StronglySorted (fun a b => cmp a b <= 0) l -> StronglySorted (fun a b => cmp a b <= 0) (insert_by cmp x l).
Proof.
  intros [Ha Ht] Px Pl Hs. induction Hs as [|y l Hs IH Hy]; [by repeat constructor|]. apply Forall_cons in Pl as [Py Pl]. cbn. destruct (Z.leb_spec (cmp x y) 0) as [Hxy|Hxy].
  - constructor; [by constructor|]. constructor; [done|]. rewrite Forall_forall in Hy, Pl |- *. intros z Hz. apply (Ht x y z); auto.
  - constructor; [by apply IH|]. rewrite insert_by_perm. constructor; [|done]. apply Ha; [done|done|lia].
Qed.

Lemma sort_by_sorted {A} (cmp : A -> A -> Z) (P : A -> Prop) l : ordering P cmp -> Forall P l -> StronglySorted (fun a b => cmp a b <= 0) (sort_by cmp l).
Proof.
  intros Ho Hl. induction Hl as [|x l Hx Hl IH]; [constructor|]. cbn. apply (insert_by_sorted P); [done|done| |done]. change (Forall P (sort_by cmp l)). by rewrite sort_by_perm.
Qed.

