(* ===== verification/Umalloc.v ===== *)
(** The memory allocator of user/umalloc.c.

    Addresses are counted in headers of 16 bytes.  The state is the headers in
    memory, the static pointer [freep], and the end of the heap; [sbrk] is a
    parameter that moves the end of the heap or fails. *)

From stdpp Require Import sorting.
From S2P Require Import Prelude.

(** ** The program *)

(** [s.ptr] and [s.size]. *)
Record header := Header { h_ptr : Z; h_size : Z }.
Record heap := Heap { hdr : Z -> header; freep : Z; brk : Z }.

Definition HEADER : Z := 16.

Section code.
Context (BASE : Z) (sbrk : Z -> M heap (option Z)).
Abbreviation U := (M heap).

Definition get_ptr (p : Z) : U Z := gets (fun h => h_ptr (hdr h p)).
Definition get_size (p : Z) : U Z := gets (fun h => h_size (hdr h p)).
Definition set_ptr (p v : Z) : U unit := modify (fun h => Heap (upd (hdr h) p (Header v (h_size (hdr h p)))) (freep h) (brk h)).
Definition set_size (p v : Z) : U unit := modify (fun h => Heap (upd (hdr h) p (Header (h_ptr (hdr h p)) v)) (freep h) (brk h)).
Definition set_freep (p : Z) : U unit := modify (fun h => Heap (hdr h) p (brk h)).

(** More than the steps of any walk around the list: blocks are at least one
    header long. *)
Definition steps (h : heap) : nat := Z.to_nat (2 * (brk h - BASE) + 8).

(** The loop of [free]: the block after which [bp] belongs. *)
Definition free_scan (bp : Z) : U Z :=
  fuel <- gets steps ;;
  p <- gets freep ;;
  loop fuel (fun p =>
    next <- get_ptr p ;;
    if (p <? bp) && (bp <? next) then ret (inr p)
    else if (next <=? p) && ((p <? bp) || (bp <? next)) then ret (inr p)
    else ret (inl next)) p.

Definition free (ap : Z) : U unit :=
  let bp := ap - 1 in
  p <- free_scan bp ;;
  next <- get_ptr p ;;
  size <- get_size bp ;;
  (if bp + size =? next then
     nsize <- get_size next ;;
     nnext <- get_ptr next ;;
     set_size bp (u32 (size + nsize)) >>>
     set_ptr bp nnext
   else set_ptr bp next) >>>
  psize <- get_size p ;;
  (if p + psize =? bp then
     bsize <- get_size bp ;;
     bnext <- get_ptr bp ;;
     set_size p (u32 (psize + bsize)) >>>
     set_ptr p bnext
   else set_ptr p bp) >>>
  set_freep p.

(** 0 if there is no more memory; the argument of [sbrk] is an [int]. *)
Definition morecore (nu : Z) : U Z :=
  let nu := if nu <? 4096 then 4096 else nu in
  r <- sbrk (i32 (nu * HEADER)) ;;
  match r with
  | None => ret 0
  | Some hp => set_size hp nu >>> free (hp + 1) >>> gets freep
  end.

(** A block of [nunits] from the free block [p], the one after [prevp]. *)
Definition take_units (prevp p size nunits : Z) : U Z :=
  p <- (if size =? nunits then next <- get_ptr p ;; set_ptr prevp next >>> ret p
        else set_size p (u32 (size - nunits)) >>> set_size (p + (size - nunits)) nunits >>> ret (p + (size - nunits))) ;;
  set_freep prevp >>>
  ret (p + 1).

(** An iteration of the loop of [malloc]. *)
Definition malloc_body (nunits : Z) : Z * Z -> U (Z * Z + Z) := fun '(prevp, p) =>
  size <- get_size p ;;
  if nunits <=? size then r <- take_units prevp p size nunits ;; ret (inr r)
  else
    f <- gets freep ;;
    p <- (if p =? f then morecore nunits else ret p) ;;
    if p =? 0 then ret (inr 0)
    else next <- get_ptr p ;; ret (inl (p, next)).

(** [nbytes], with the header, in headers. *)
Definition nunits (nbytes : Z) : Z := u32 ((nbytes + HEADER - 1) / HEADER + 1).

Definition malloc (nbytes : Z) : U Z :=
  f <- gets freep ;;
  prevp <- (if f =? 0 then set_freep BASE >>> set_ptr BASE BASE >>> set_size BASE 0 >>> ret BASE else ret f) ;;
  p <- get_ptr prevp ;;
  fuel <- gets steps ;;
  loop fuel (malloc_body (nunits nbytes)) (prevp, p).
End code.

(** ** The invariant

    [l] is the circular list in the order of addresses, the static [base]
    first, and [live] the blocks handed out and not freed yet; a block is the
    address of its header and its length. *)

Definition first (l : list (Z * Z)) (nxt : Z) : Z := match l with (a, _) :: _ => a | [] => nxt end.

Fixpoint chain (f : Z -> header) (l : list (Z * Z)) (nxt : Z) : Prop :=
  match l with
  | [] => True
  | (a, s) :: l' => f a = Header (first l' nxt) s /\ chain f l' nxt
  end.

Definition before (b c : Z * Z) : Prop := fst b + snd b < fst c.
Definition units (b : Z * Z) : list Z := seqZ (fst b) (snd b).
Definition all_units (bs : list (Z * Z)) : list Z := concat (map units bs).
Definition within (b : Z * Z) (x : Z) : Prop := fst b <= x < fst b + snd b.

Record heap_ok (BASE lo : Z) (l live : list (Z * Z)) (h : heap) : Prop := {
  ho_base : head l = Some (BASE, 0);
  ho_place : 0 < BASE < lo;
  ho_chain : chain (hdr h) l BASE;
  ho_sorted : StronglySorted before l;
  ho_nodes : Forall (fun b => b = (BASE, 0) \/ lo <= fst b /\ 0 < snd b) l;
  ho_freep : freep h ∈ map fst l;
  ho_live : Forall (fun b => 0 < snd b /\ h_size (hdr h (fst b)) = snd b) live;
  ho_units : all_units (l ++ live) ≡ₚ seqZ lo (brk h - lo);
  ho_small : 0 <= brk h - lo < 2 ^ 32 }.

(** The blocks in use keep their headers and their contents. *)
Definition keeps (live : list (Z * Z)) (h h' : heap) : Prop :=
  forall b x, b ∈ live -> within b x -> hdr h' x = hdr h x.

(** ** Lists of blocks *)

Lemma all_units_app bs cs : all_units (bs ++ cs) = all_units bs ++ all_units cs.
Proof. unfold all_units. by rewrite map_app, concat_app. Qed.

Lemma all_units_cons b bs : all_units (b :: bs) = units b ++ all_units bs.
Proof. done. Qed.

#[export] Instance all_units_proper : Proper ((≡ₚ) ==> (≡ₚ)) all_units.
Proof.
  intros bs cs H. unfold all_units. induction H as [|b bs cs _ IH|b c bs|bs cs ds _ IH1 _ IH2]; cbn; [done|by rewrite IH| |].
  - rewrite !app_assoc. apply Permutation_app_tail, Permutation_app_comm.
  - by rewrite IH1.
Qed.

Lemma units_join a s t : 0 <= s -> 0 <= t -> units (a, s + t) = units (a, s) ++ units (a + s, t).
Proof. intros. unfold units. cbn [fst snd]. by rewrite seqZ_app. Qed.

Lemma elem_units b x : x ∈ units b <-> within b x.
Proof. unfold units, within. rewrite elem_of_seqZ. lia. Qed.

Lemma units_length b : 0 <= snd b -> Z.of_nat (length (units b)) = snd b.
Proof. intros. unfold units. rewrite length_seqZ. lia. Qed.

Lemma chain_app f l1 l2 nxt : chain f (l1 ++ l2) nxt <-> chain f l1 (first l2 nxt) /\ chain f l2 nxt.
Proof.
  induction l1 as [|[a s] l1 IH]; cbn [chain app]; [tauto|]. rewrite IH.
  assert (first (l1 ++ l2) nxt = first l1 (first l2 nxt)) as -> by by destruct l1 as [|[]]. tauto.
Qed.

Lemma chain_ext f g l nxt : (forall b, b ∈ l -> g (fst b) = f (fst b)) -> chain f l nxt -> chain g l nxt.
Proof.
  induction l as [|[a s] l IH]; [done|]. cbn. intros Hg [Ha Hl]. split.
  - rewrite <- Ha. apply (Hg (a, s)). left.
  - apply IH; [|done]. intros b Hb. apply Hg. by right.
Qed.

Lemma two_apart a s b t : 0 < s -> 0 < t -> NoDup (units (a, s) ++ units (b, t)) -> a + s <= b \/ b + t <= a.
Proof.
  intros Hs Ht (_ & Hd & _)%NoDup_app. destruct (decide (a + s <= b \/ b + t <= a)) as [|Hn]; [done|].
  exfalso. apply (Hd (Z.max a b)); apply elem_units; unfold within; cbn; lia.
Qed.

Lemma elem_all_units x bs : x ∈ all_units bs <-> exists b, b ∈ bs /\ within b x.
Proof.
  induction bs as [|b bs IH]; [cbn; set_solver|]. rewrite all_units_cons, elem_of_app, IH, elem_units. set_solver.
Qed.

Lemma all_units_length bs : Forall (fun b => 0 < snd b) bs -> (length bs <= length (all_units bs))%nat.
Proof.
  induction 1 as [|b bs Hb _ IH]; [cbn; lia|]. rewrite all_units_cons, length_app. cbn [length].
  pose proof (units_length b). lia.
Qed.

(** Blocks that tile an interval. *)
Section tiling.
Context (lo n : Z) (bs : list (Z * Z)) (Ht : all_units bs ≡ₚ seqZ lo n).

Lemma tile_nodup : NoDup (all_units bs).
Proof using Ht. rewrite Ht. apply NoDup_seqZ. Qed.

Lemma tile_in b x : b ∈ bs -> within b x -> lo <= x < lo + n.
Proof using Ht. intros Hb Hx. apply elem_of_seqZ. rewrite <- Ht. apply elem_all_units. by exists b. Qed.

Lemma tile_size b : b ∈ bs -> 0 <= n -> snd b <= n.
Proof using Ht.
  intros Hb Hn. destruct (decide (0 < snd b)) as [Hp|]; [|lia].
  pose proof (tile_in b (fst b) Hb). pose proof (tile_in b (fst b + snd b - 1) Hb). unfold within in *. lia.
Qed.

Lemma tile_apart b c cs : bs ≡ₚ b :: c :: cs -> 0 < snd b -> 0 < snd c -> fst b + snd b <= fst c \/ fst c + snd c <= fst b.
Proof using Ht.
  intros Hp Hb Hc. pose proof tile_nodup as Hn. rewrite Hp, !all_units_cons, app_assoc in Hn.
  apply NoDup_app in Hn as (Hn & _). destruct b, c. by apply two_apart in Hn.
Qed.
End tiling.

Section facts.
Context {BASE lo : Z} {l live : list (Z * Z)} {h : heap} (Hk : heap_ok BASE lo l live h).

Lemma live_in c x : c ∈ live -> within c x -> lo <= x < brk h.
Proof using Hk. intros Hc Hx. pose proof (tile_in _ _ _ (ho_units _ _ _ _ _ Hk) c x). ospecialize (H _ _); [set_solver|done|lia]. Qed.

(** The headers in the list are not in blocks in use. *)
Lemma node_free b x c : b ∈ l -> c ∈ live -> within c x -> x <> fst b.
Proof using Hk.
  intros Hb Hc Hx ->. pose proof (tile_nodup _ _ _ (ho_units _ _ _ _ _ Hk)) as Hn.
  destruct (proj1 (Forall_forall _ _) (ho_nodes _ _ _ _ _ Hk) b Hb) as [->|[_ Hp]].
  - pose proof (live_in c BASE Hc Hx). pose proof (ho_place _ _ _ _ _ Hk). cbn in *. lia.
  - rewrite all_units_app in Hn. apply NoDup_app in Hn as (_ & Hn & _).
    apply (Hn (fst b)); apply elem_all_units; eexists; (split; [done|]); [unfold within; lia|done].
Qed.

(** Only the base is empty. *)
Lemma after_base X b Y : l = X ++ b :: Y -> X <> [] \/ fst b <> BASE -> lo <= fst b /\ 0 < snd b.
Proof using Hk.
  intros -> Hx. pose proof (ho_nodes _ _ _ _ _ Hk) as Hn. apply Forall_app in Hn as [_ [[->|?] _]%Forall_cons]; [|done].
  destruct Hx as [Hx|]; [|done]. pose proof (ho_base _ _ _ _ _ Hk) as Hb. pose proof (ho_sorted _ _ _ _ _ Hk) as Hs.
  destruct X as [|c X]; [done|]. injection Hb as ->. apply StronglySorted_cons in Hs as [Hs _].
  apply Forall_app in Hs as [_ [Hs _]%Forall_cons]. unfold before in Hs. cbn in Hs. lia.
Qed.

Lemma ring_length : Z.of_nat (length l) <= brk h - lo + 1.
Proof using Hk.
  pose proof after_base as Hab. destruct l as [|b l']; [pose proof (ho_small _ _ _ _ _ Hk); cbn; lia|].
  assert (Forall (fun b => 0 < snd b) l') as Hp.
  { apply Forall_forall. intros c (X & Y & ->)%list_elem_of_split. apply (Hab (b :: X) c Y); [by cbn|by left]. }
  apply all_units_length in Hp. pose proof (Permutation_length (ho_units _ _ _ _ _ Hk)) as Hu.
  cbn [app] in Hu. rewrite all_units_cons, all_units_app, !length_app, length_seqZ in Hu.
  pose proof (ho_small _ _ _ _ _ Hk). cbn [length]. lia.
Qed.
End facts.

(** ** free *)

Section spec.
Context (BASE lo : Z).
Implicit Types (l live X Y : list (Z * Z)) (h : heap).
Abbreviation heap_ok := (heap_ok BASE lo).

Lemma node_header l live h X a s Y : heap_ok l live h -> l = X ++ (a, s) :: Y -> hdr h a = Header (first Y BASE) s.
Proof. intros Hk ->. pose proof (ho_chain _ _ _ _ _ Hk) as Hc. by apply chain_app in Hc as [_ [Hc _]]. Qed.

Lemma sorted_next l live h X a s b t Y : heap_ok l live h -> l = X ++ (a, s) :: (b, t) :: Y -> 0 <= s /\ a + s < b.
Proof.
  intros Hk ->. pose proof (ho_sorted _ _ _ _ _ Hk) as Hs. apply StronglySorted_app in Hs as (_ & _ & Hs).
  apply StronglySorted_cons in Hs as [[Hs _]%Forall_cons _]. unfold before in Hs. cbn in Hs. split; [|done].
  pose proof (ho_nodes _ _ _ _ _ Hk) as Hn. apply Forall_app in Hn as [_ [[[= -> ->]|[_ ?]] _]%Forall_cons]; cbn in *; lia.
Qed.

Lemma node_above l live h a s : heap_ok l live h -> (a, s) ∈ l -> BASE <= a.
Proof.
  intros Hk Hin. pose proof (ho_place _ _ _ _ _ Hk).
  destruct (proj1 (Forall_forall _ _) (ho_nodes _ _ _ _ _ Hk) _ Hin) as [[= -> ->]|[? _]]; cbn in *; lia.
Qed.

(** Where the list continues after a node. *)
Lemma ring_next l live h X a s Y : heap_ok l live h -> l = X ++ (a, s) :: Y ->
  exists X' s' Y', l = X' ++ (first Y BASE, s') :: Y' /\
    ((Y = [] /\ (length Y' < length l)%nat) \/ (a < first Y BASE /\ (length Y' < length Y)%nat)).
Proof.
  intros Hk El. destruct Y as [|[b t] Y].
  - pose proof (ho_base _ _ _ _ _ Hk) as Hb. destruct l as [|c l']; [done|]. injection Hb as ->.
    exists [], 0, l'. split; [done|]. left. split; [done|cbn; lia].
  - exists (X ++ [(a, s)]), t, Y. split; [by rewrite <- app_assoc|]. right.
    destruct (sorted_next l live h X a s b t Y Hk El). cbn. split; lia.
Qed.

Lemma bp_facts l live h bp s : heap_ok l ((bp, s) :: live) h ->
  0 < s /\ lo <= bp /\ bp + s <= brk h /\ h_size (hdr h bp) = s /\ forall b, b ∈ l -> fst b <> bp.
Proof.
  intros Hk. pose proof (ho_live _ _ _ _ _ Hk) as [[Hs Hh] _]%Forall_cons. cbn in Hs, Hh.
  pose proof (live_in Hk (bp, s) bp) as H1. pose proof (live_in Hk (bp, s) (bp + s - 1)) as H2. unfold within in H1, H2. cbn in H1, H2.
  ospecialize (H1 _ _); [left|lia|]. ospecialize (H2 _ _); [left|lia|]. split_and!; [lia..|done|].
  intros b Hb E. apply (node_free Hk b bp (bp, s)); [done|left|unfold within; cbn; lia|done].
Qed.

Lemma free_scan_spec l live h bp s : heap_ok l ((bp, s) :: live) h ->
  wp (free_scan BASE bp) h (fun p h' => h' = h /\
    exists X sp Y, l = X ++ (p, sp) :: Y /\ p < bp /\ (Y = [] \/ bp < first Y BASE)).
Proof.
  intros Hk. destruct (bp_facts _ _ _ _ _ Hk) as (Hs & Hlo & Hbrk & Hsz & Hne).
  pose proof (ho_place _ _ _ _ _ Hk) as Hpl. pose proof (ring_length Hk) as Hlen.
  unfold free_scan. wp_steps.
  eapply (wp_loop_nat (fun n q h' => h' = h /\ exists X sq Y, l = X ++ (q, sq) :: Y /\
    ((q < bp /\ (length Y <= n)%nat) \/ (length Y + length l + 1 <= n)%nat))) with (n := (2 * length l)%nat).
  - intros n q h' (-> & X & sq & Y & El & Hn). unfold get_ptr. wp_steps.
    rewrite (node_header _ _ _ _ _ _ _ Hk El). cbn [h_ptr].
    destruct (ring_next _ _ _ _ _ _ _ Hk El) as (X' & s' & Y' & El' & Hnx).
    assert (first Y BASE <> bp) as Hb by (apply (Hne (first Y BASE, s')); rewrite El'; set_solver).
    assert (q <> bp) as Hq by (apply (Hne (q, sq)); rewrite El; set_solver).
    assert (BASE <= q) by (apply (node_above _ _ _ _ sq Hk); rewrite El; set_solver).
    destruct Hnx as [[-> Hnx]|[Hlt Hnx]]; cbn [first length] in *.
    + repeat case_if; try lia; apply wp_ret; cbn.
      all: try (split; [done|]; exists X, sq, []; split; [done|]; split; [lia|by left]).
      all: exists (pred n); (split; [lia|]); (split; [done|]); exists X', s', Y'; (split; [done|]); lia.
    + repeat case_if; try lia; apply wp_ret; cbn.
      all: try (split; [done|]; exists X, sq, Y; split; [done|]; split; [lia|right; lia]).
      all: exists (pred n); (split; [lia|]); (split; [done|]); exists X', s', Y'; (split; [done|]); lia.
  - split; [done|]. pose proof (ho_freep _ _ _ _ _ Hk) as Hf. apply list_elem_of_fmap in Hf as ([q sq] & -> & Hq).
    apply list_elem_of_split in Hq as (X & Y & El). exists X, sq, Y. split; [done|]. right. rewrite El, length_app. cbn. lia.
  - unfold steps. lia.
Qed.

Lemma live_apart l live h bp s c x : heap_ok l ((bp, s) :: live) h -> c ∈ live -> within c x -> x <> bp.
Proof.
  intros Hk Hc Hx ->. destruct (bp_facts _ _ _ _ _ Hk) as (Hs & _).
  pose proof (tile_nodup _ _ _ (ho_units _ _ _ _ _ Hk)) as Hn. rewrite all_units_app, all_units_cons in Hn.
  apply NoDup_app in Hn as (_ & _ & (_ & Hn & _)%NoDup_app).
  apply (Hn bp); [apply elem_units; unfold within; cbn; lia|apply elem_all_units; by exists c].
Qed.

(** The nodes after one that lies beyond [e]. *)
Lemma nodes_beyond l live h X Y e : heap_ok l live h -> l = X ++ Y -> Y = [] \/ e < first Y BASE -> forall y, y ∈ Y -> e < fst y.
Proof.
  intros Hk -> Hf y Hy. destruct Y as [|[a s] Y]; [by apply not_elem_of_nil in Hy|]. destruct Hf as [|Hf]; [done|]. cbn in Hf.
  apply elem_of_cons in Hy as [->|Hy]; [done|].
  pose proof (ho_sorted _ _ _ _ _ Hk) as Hs. apply StronglySorted_app in Hs as (_ & _ & [Hs _]%StronglySorted_cons).
  apply (proj1 (Forall_forall _ _) Hs) in Hy. unfold before in Hy. cbn in Hy.
  pose proof (ho_nodes _ _ _ _ _ Hk) as Hn. apply Forall_app in Hn as [_ [[[= -> ->]|[_ ?]] _]%Forall_cons]; cbn in *; lia.
Qed.

Lemma node_size l live h b : heap_ok l live h -> b ∈ l -> 0 <= snd b.
Proof. intros Hk Hb. destruct (proj1 (Forall_forall _ _) (ho_nodes _ _ _ _ _ Hk) b Hb) as [->|[_ ?]]; cbn; lia. Qed.

Lemma nodes_differ l live h X p sp Y b : heap_ok l live h -> l = X ++ (p, sp) :: Y -> b ∈ X ++ Y -> fst b <> p.
Proof.
  intros Hk -> Hin. pose proof (ho_sorted _ _ _ _ _ Hk) as Hs.
  pose proof (node_size _ _ _ b Hk). pose proof (node_size _ _ _ (p, sp) Hk).
  apply StronglySorted_app in Hs as (HX & _ & [HY _]%StronglySorted_cons). apply elem_of_app in Hin as [Hin|Hin].
  - assert (before b (p, sp)) as Hb by (apply HX; set_solver). unfold before in Hb. cbn in Hb.
    assert (0 <= snd b) by set_solver. lia.
  - apply (proj1 (Forall_forall _ _) HY) in Hin. unfold before in Hin. cbn in *. assert (0 <= sp) by set_solver. lia.
Qed.

(** Replacing the nodes from [p] up to those of [Y2] by [mid]. *)
Lemma relink l live h h' X p sp bp s Z' Y2 mid :
  heap_ok l ((bp, s) :: live) h -> l = X ++ (p, sp) :: Z' ++ Y2 ->
  fst <$> head mid = Some p -> (X = [] -> head mid = Some (BASE, 0)) ->
  all_units mid ≡ₚ units (p, sp) ++ units (bp, s) ++ all_units Z' ->
  StronglySorted before mid -> Forall (fun b => p <= fst b) mid -> Forall (fun b => b = (BASE, 0) \/ lo <= fst b /\ 0 < snd b) mid ->
  (forall m y, m ∈ mid -> y ∈ Y2 -> before m y) ->
  chain (hdr h') mid (first Y2 BASE) ->
  (forall x, x <> p -> x <> bp -> hdr h' x = hdr h x) -> freep h' = p -> brk h' = brk h ->
  heap_ok (X ++ mid ++ Y2) live h' /\ keeps live h h'.
Proof.
  intros Hk El Hhd Hx Hu Hsm Hge Hnm Hmy Hcm Hfr Hf Hb.
  assert (keeps live h h') as Hkeep.
  { intros c x Hc Hxw. apply Hfr; [|by apply (live_apart _ _ _ _ _ _ _ Hk Hc Hxw)].
    apply (node_free Hk (p, sp) x c); [rewrite El; set_solver|by right|done]. }
  split; [|done]. assert (forall b, b ∈ X ++ Y2 -> hdr h' (fst b) = hdr h (fst b)) as Hold.
  { intros b Hin. apply Hfr; [apply (nodes_differ _ _ _ _ _ _ _ _ Hk El)|apply (bp_facts _ _ _ _ _ Hk); rewrite El]; set_solver. }
  destruct Hk as [H1 H2 H3 H4 H5 H6 H7 H8 H9]. rewrite El in H1, H3, H4, H5, H8.
  apply StronglySorted_app in H4 as (HX & HsX & [_ HY]%StronglySorted_cons).
  apply StronglySorted_app in HY as (_ & _ & HY). apply Forall_app in H5 as [H5 [_ H5y]%Forall_cons].
  apply Forall_app in H5y as [_ H5y]. apply Forall_cons in H7 as [_ H7].
  apply chain_app in H3 as [Hc1 [_ Hc2]]. apply chain_app in Hc2 as [_ Hc2].
  assert (first (mid ++ Y2) BASE = p) as Hfm by (destruct mid as [|[] ?]; [done|by injection Hhd]).
  split; try done.
  - destruct X; [destruct mid; [done|by apply Hx]|done].
  - apply chain_app. rewrite Hfm. split; [|apply chain_app; split; [done|]].
    all: (eapply chain_ext; [|eassumption]); intros b Hb'; apply Hold; set_solver.
  - apply StronglySorted_app. split_and!; [|done|by apply StronglySorted_app].
    intros b c Hb' Hc. apply elem_of_app in Hc as [Hc|Hc]; [|apply HX; set_solver].
    assert (before b (p, sp)) as Hbp by (apply HX; set_solver). apply (proj1 (Forall_forall _ _) Hge) in Hc.
    unfold before in *. cbn in *. lia.
  - by rewrite !Forall_app.
  - rewrite Hf. destruct mid as [|[] ?]; [done|]. injection Hhd as ->. rewrite !map_app. set_solver.
  - apply Forall_forall. intros c Hc. destruct (proj1 (Forall_forall _ _) H7 c Hc) as [Hp Hh].
    split; [done|]. rewrite (Hkeep c (fst c)); [done|done|unfold within; lia].
  - rewrite Hb, <- H8. rewrite !all_units_app, !all_units_cons, !all_units_app, Hu. solve_Permutation.
  - by rewrite Hb.
Qed.

(** [h'] is [h] with the header [v] at [p]. *)
Definition with_hdr (p : Z) (v : header) (h h' : heap) : Prop :=
  hdr h' p = v /\ (forall q, q <> p -> hdr h' q = hdr h q) /\ freep h' = freep h /\ brk h' = brk h.

Lemma wp_set_ptr p v h (Q : unit -> heap -> Prop) :
  (forall h', with_hdr p (Header v (h_size (hdr h p))) h h' -> Q tt h') -> wp (set_ptr p v) h Q.
Proof. intros HQ. apply wp_modify, HQ. split_and!; cbn; [apply upd_eq|apply upd_ne|done..]. Qed.

Lemma wp_set_size p v h (Q : unit -> heap -> Prop) :
  (forall h', with_hdr p (Header (h_ptr (hdr h p)) v) h h' -> Q tt h') -> wp (set_size p v) h Q.
Proof. intros HQ. apply wp_modify, HQ. split_and!; cbn; [apply upd_eq|apply upd_ne|done..]. Qed.

(** Setting both fields. *)
Lemma wp_set_both p n a h (Q : unit -> heap -> Prop) :
  (forall h', with_hdr p (Header a n) h h' -> Q tt h') -> wp (set_size p n >>> set_ptr p a) h Q.
Proof.
  intros HQ. apply wp_bind, wp_set_size. intros h1 (E1 & F1 & Ff & Fb). apply wp_set_ptr. intros h2 (E2 & F2 & Gf & Gb).
  apply HQ. split_and!; [by rewrite E2, E1| |congruence..]. intros q Hq. by rewrite F2, F1.
Qed.

(** The end of [free]: the two merges, as one change of the headers at [bp]
    and [p].  [Z'] is what is merged on the right. *)
Definition joined (bp s : Z) (Z' : list (Z * Z)) (s2 : Z) : Prop :=
  (Z' = [] /\ s2 = s) \/ (exists t, Z' = [(bp + s, t)] /\ s2 = s + t).

Lemma right_merge l live h X p sp Y bp s : heap_ok l ((bp, s) :: live) h -> l = X ++ (p, sp) :: Y -> p < bp ->
  Y = [] \/ bp < first Y BASE ->
  exists Z' Y2 s2, Y = Z' ++ Y2 /\ joined bp s Z' s2 /\ s <= s2 /\ bp + s2 <= brk h /\ p + sp <= bp /\ (p = BASE -> sp = 0) /\
    (forall y, y ∈ Y2 -> bp + s2 < fst y) /\
    forall (Q : unit -> heap -> Prop), (forall h', with_hdr bp (Header (first Y2 BASE) s2) h h' -> Q tt h') ->
    wp (if bp + s =? first Y BASE then
          nsize <- get_size (first Y BASE) ;; nnext <- get_ptr (first Y BASE) ;;
          set_size bp (u32 (s + nsize)) >>> set_ptr bp nnext
        else set_ptr bp (first Y BASE)) h Q.
Proof.
  intros Hk El Hp Hy. destruct (bp_facts _ _ _ _ _ Hk) as (Hs & Hlo & Hbrk & Hsz & Hne).
  pose proof (ho_place _ _ _ _ _ Hk) as Hpl.
  assert (p + sp <= bp /\ (p = BASE -> sp = 0)) as [Hpb Hpz].
  { assert ((p, sp) ∈ l) as Hin by (rewrite El; set_solver).
    destruct (proj1 (Forall_forall _ _) (ho_nodes _ _ _ _ _ Hk) _ Hin) as [[= -> ->]|[? Hsp]]; cbn in *; [lia|]. split; [|lia].
    destruct (tile_apart _ _ _ (ho_units _ _ _ _ _ Hk) (p, sp) (bp, s) (X ++ Y ++ live)); cbn in *; try lia. rewrite El. solve_Permutation. }
  assert (forall r sr Y', Y = (r, sr) :: Y' -> bp + s <= r /\ r + sr <= brk h /\ 0 < sr) as Hr.
  { intros r sr Y' ->. destruct Hy as [|Hy]; [done|]. cbn in Hy.
    destruct (after_base Hk (X ++ [(p, sp)]) (r, sr) Y') as [? Hsr]; [by rewrite <- app_assoc|left; by destruct X|]. cbn in *.
    pose proof (tile_in _ _ _ (ho_units _ _ _ _ _ Hk) (r, sr) (r + sr - 1)) as Ht. unfold within in Ht. cbn in Ht.
    ospecialize (Ht _ _); [rewrite El; set_solver|lia|].
    destruct (tile_apart _ _ _ (ho_units _ _ _ _ _ Hk) (r, sr) (bp, s) (X ++ (p, sp) :: Y' ++ live)); cbn in *; try lia.
    rewrite El. solve_Permutation. }
  pose proof (ho_small _ _ _ _ _ Hk) as Hsm.
  destruct (bp + s =? first Y BASE) eqn:E; bool_simp.
  - destruct Y as [|[r sr] Y2]; [cbn in E; lia|]. cbn [first] in E |- *. subst r.
    destruct (Hr _ _ _ eq_refl) as (_ & Hrb & Hsr).
    exists [(bp + s, sr)], Y2, (s + sr). split_and!; [done|right; by exists sr|lia|lia|lia|done| |].
    + intros y Hy'. pose proof (ho_sorted _ _ _ _ _ Hk) as Hss. rewrite El in Hss.
      apply StronglySorted_app in Hss as (_ & _ & [_ [Hss _]%StronglySorted_cons]%StronglySorted_cons).
      apply (proj1 (Forall_forall _ _) Hss) in Hy'. unfold before in Hy'. cbn in Hy'. lia.
    + intros Q HQ. assert (hdr h (bp + s) = Header (first Y2 BASE) sr) as Eh.
      { apply (node_header _ _ _ (X ++ [(p, sp)]) _ _ _ Hk). by rewrite <- app_assoc. }
      unfold get_size, get_ptr. wp_step. wp_step. wp_step. wp_step. rewrite Eh. cbn [h_size h_ptr].
      rewrite u32_id by lia. by apply wp_set_both.
  - exists [], Y, s. split_and!; [done|by left|lia|lia|lia|done| |].
    + apply (nodes_beyond _ _ _ (X ++ [(p, sp)]) _ _ Hk); [by rewrite <- app_assoc|].
      destruct Y as [|[r sr] Y']; [by left|right]. destruct (Hr _ _ _ eq_refl). cbn in *. lia.
    + intros Q HQ. apply wp_set_ptr. intros h' Hh. apply HQ. by rewrite Hsz in Hh.
Qed.

(** [free] moves a block from those in use to the list. *)
Definition freed (live : list (Z * Z)) (l : list (Z * Z)) (s : Z) (h h' : heap) : Prop :=
  exists l', heap_ok l' live h' /\ keeps live h h' /\ brk h' = brk h /\
    Exists (fun b => s <= snd b) l' /\ (length l' <= S (length l))%nat.

Lemma free_spec l live h bp s : heap_ok l ((bp, s) :: live) h -> wp (free BASE (bp + 1)) h (fun _ h' => freed live l s h h').
Proof.
  intros Hk. unfold free. replace (bp + 1 - 1) with bp by lia. apply wp_bind.
  eapply wp_mono; [by apply (free_scan_spec _ _ _ _ _ Hk)|]. intros p ? (-> & X & sp & Y & El & Hp & Hy).
  destruct (bp_facts _ _ _ _ _ Hk) as (Hs & Hlo & Hbrk & Hsz & Hne). pose proof (ho_place _ _ _ _ _ Hk) as Hpl.
  destruct (right_merge _ _ _ _ _ _ _ _ _ Hk El Hp Hy) as (Z' & Y2 & s2 & -> & Hj & Hs2 & Hs2b & Hpb & Hpz & Hy2 & Hm).
  assert (hdr h p = Header (first (Z' ++ Y2) BASE) sp) as Ep by apply (node_header _ _ _ _ _ _ _ Hk El).
  assert (0 <= sp) as Hsp by (apply (node_size _ _ _ (p, sp) Hk); rewrite El; set_solver).
  assert (p = BASE \/ lo <= p /\ 0 < sp) as Hpn.
  { pose proof (ho_nodes _ _ _ _ _ Hk) as Hn. rewrite El in Hn. apply Forall_app in Hn as [_ [[[= -> ->]|?] _]%Forall_cons]; auto. }
  assert (X = [] -> p = BASE /\ sp = 0) as HX.
  { intros ->. pose proof (ho_base _ _ _ _ _ Hk) as Hb. rewrite El in Hb. by injection Hb as -> ->. }
  assert (units (bp, s2) ≡ₚ units (bp, s) ++ all_units Z') as Hu2.
  { destruct Hj as [[-> ->]|(t & -> & ->)]; cbn; [by rewrite app_nil_r|]. rewrite app_nil_r. rewrite units_join; [done|lia|lia]. }
  unfold get_ptr at 1, get_size at 1. wp_step. wp_step. rewrite Ep. cbn [h_ptr]. wp_step. wp_step. rewrite Hsz. wp_step.
  apply Hm. clear Hm. intros h1 (E1 & F1 & Ff & Fb). unfold get_size at 1. wp_step. wp_step.
  rewrite F1, Ep by lia. cbn [h_size]. wp_step.
  destruct (p + sp =? bp) eqn:E; bool_simp.
  - unfold get_size, get_ptr. wp_step. wp_step. wp_step. wp_step. rewrite E1. cbn [h_size h_ptr]. apply wp_set_both.
    intros h2 (E2 & F2 & Gf & Gb). apply wp_modify.
    assert (sp + s2 <= brk h - lo) as Hbig by lia.
    rewrite u32_id in E2 by (pose proof (ho_small _ _ _ _ _ Hk); lia).
    destruct (relink l live h (Heap (hdr h2) p (brk h2)) X p sp bp s Z' Y2 [(p, sp + s2)]) as [Hk' Hkeep]; try done.
    + intros HX0. destruct (HX HX0). lia.
    + cbn. rewrite app_nil_r, units_join by lia. by rewrite E, Hu2.
    + repeat constructor.
    + by repeat constructor.
    + apply Forall_singleton. right. cbn. lia.
    + intros m y Hm%list_elem_of_singleton Hy'%Hy2. subst m. unfold before. cbn. lia.
    + intros x Hx1 Hx2. cbn. by rewrite F2, F1.
    + cbn. congruence.
    + exists (X ++ [(p, sp + s2)] ++ Y2). split_and!; [done|done|cbn; congruence| |].
      * apply Exists_app. right. apply Exists_cons_hd. cbn. lia.
      * rewrite El, !length_app. cbn. rewrite length_app. lia.
  - apply wp_set_ptr. intros h2 (E2 & F2 & Gf & Gb). apply wp_modify. rewrite F1, Ep in E2 by lia. cbn [h_size] in E2.
    destruct (relink l live h (Heap (hdr h2) p (brk h2)) X p sp bp s Z' Y2 [(p, sp); (bp, s2)]) as [Hk' Hkeep]; try done.
    + intros HX0. by destruct (HX HX0) as [-> ->].
    + cbn. by rewrite app_nil_r, Hu2.
    + repeat constructor. unfold before. cbn. lia.
    + repeat constructor; cbn; lia.
    + apply Forall_cons. split; [destruct Hpn as [->|]; [left; by rewrite Hpz|by right]|]. apply Forall_singleton. right. cbn. lia.
    + intros m y Hm Hy'%Hy2. unfold before. set_unfold in Hm. destruct Hm as [->|[->|[]]]; cbn; lia.
    + cbn. split; [done|]. by rewrite F2, E1 by lia.
    + intros x Hx1 Hx2. cbn. by rewrite F2, F1.
    + cbn. congruence.
    + exists (X ++ [(p, sp); (bp, s2)] ++ Y2). split_and!; [done|done|cbn; congruence| |].
      * apply Exists_app. right. apply Exists_cons_tl, Exists_cons_hd. cbn. lia.
      * rewrite El, !length_app. cbn. rewrite length_app. lia.
Qed.

(** ** malloc *)

Context (sbrk : Z -> M heap (option Z)).

(** [sbrk] fails, or appends the bytes asked for to the heap, which stays below
    [LIMIT]; the memory below the old end is left alone. *)
Definition sbrk_law (LIMIT : Z) : Prop := forall n h, 0 < n -> n mod HEADER = 0 ->
  wp (sbrk n) h (fun r h' => (r = None /\ h' = h) \/
    (r = Some (brk h) /\ freep h' = freep h /\ brk h' = brk h + n / HEADER /\ brk h' <= LIMIT /\
     forall a, a < brk h -> hdr h' a = hdr h a)).

Lemma node_below l live h b : heap_ok l live h -> b ∈ l -> fst b < brk h \/ b = (BASE, 0).
Proof.
  intros Hk Hb. destruct (proj1 (Forall_forall _ _) (ho_nodes _ _ _ _ _ Hk) b Hb) as [->|[_ Hs]]; [by right|left].
  pose proof (tile_in _ _ _ (ho_units _ _ _ _ _ Hk) b (fst b)) as Ht. unfold within in Ht. ospecialize (Ht _ _); [set_solver|lia|lia].
Qed.

(** The memory from [sbrk] is a block in use. *)
Lemma sbrk_grown l live h h' n : heap_ok l live h -> 0 < n -> brk h' = brk h + n -> brk h' - lo < 2 ^ 32 -> freep h' = freep h ->
  (forall a, a < brk h -> hdr h' a = hdr h a) -> h_size (hdr h' (brk h)) = n ->
  heap_ok l ((brk h, n) :: live) h' /\ keeps live h h'.
Proof.
  intros Hk Hn Hb Hlim Hf Hold Hsz.
  assert (keeps live h h') as Hkeep by (intros c x Hc Hx; apply Hold, (live_in Hk c x Hc Hx)).
  split; [|done]. pose proof (ho_place _ _ _ _ _ Hk) as Hpl. pose proof (ho_small _ _ _ _ _ Hk) as Hsm.
  pose proof (fun b => node_below l live h b Hk) as Hnb. destruct Hk as [H1 H2 H3 H4 H5 H6 H7 H8 H9]. split; try done.
  - eapply chain_ext; [|done]. intros b Hb'. apply Hold. destruct (Hnb b Hb') as [?| ->]; cbn; lia.
  - by rewrite Hf.
  - apply Forall_cons. split; [done|]. apply Forall_forall. intros c Hc.
    destruct (proj1 (Forall_forall _ _) H7 c Hc) as [Hp Hh]. split; [done|]. by rewrite (Hkeep c (fst c)) by (done || unfold within; lia).
  - rewrite Hb. replace (brk h + n - lo) with ((brk h - lo) + n) by lia. rewrite seqZ_app by lia.
    replace (lo + (brk h - lo)) with (brk h) by lia. rewrite <- H8, !all_units_app, all_units_cons. unfold units at 1. cbn [fst snd]. solve_Permutation.
  - lia.
Qed.

Lemma keeps_trans live h1 h2 h3 : keeps live h1 h2 -> keeps live h2 h3 -> keeps live h1 h3.
Proof. intros H1 H2 b x Hb Hx. by rewrite (H2 b x Hb Hx), (H1 b x Hb Hx). Qed.

Lemma morecore_spec LIMIT l live h nu : sbrk_law LIMIT -> LIMIT - lo < 2 ^ 32 ->
  heap_ok l live h -> 1 <= nu -> nu * HEADER < 2 ^ 31 ->
  wp (morecore BASE sbrk nu) h (fun r h' => (r = 0 /\ h' = h) \/
    (r = freep h' /\ exists l', heap_ok l' live h' /\ keeps live h h' /\ Exists (fun b => nu <= snd b) l' /\ (length l' <= S (length l))%nat)).
Proof.
  intros Hsb Hlim Hk Hnu Hmax. unfold morecore. unfold HEADER in *. set (n := if nu <? 4096 then 4096 else nu).
  assert (nu <= n /\ 1 <= n /\ n * 16 < 2 ^ 31) as (Hn1 & Hn2 & Hn3) by (unfold n; case_if; lia).
  clearbody n. rewrite i32_id by lia. apply wp_bind. eapply wp_mono; [apply Hsb; unfold HEADER; dlia|].
  intros r h1 [[-> ->]|(-> & Ff & Fb & Hle & Fold)]; [by left|]. unfold HEADER in Fb. rewrite Z.div_mul in Fb by lia.
  apply wp_bind, wp_set_size. intros h2 (E2 & F2 & Gf & Gb).
  destruct (sbrk_grown l live h h2 n) as [Hk2 Hkeep]; try done; [lia|congruence|rewrite Gb; lia|congruence| |by rewrite E2|].
  { intros a Ha. rewrite F2 by lia. by apply Fold. }
  apply wp_bind. eapply wp_mono; [by apply (free_spec _ _ _ _ _ Hk2)|]. intros [] h3 (l' & Hk3 & Hkeep3 & _ & Hex & Hlen).
  wp_step. right. split; [done|]. exists l'. split_and!; [done|by eapply keeps_trans| |done].
  eapply Exists_impl; [done|]. cbn. lia.
Qed.

Lemma block_free l live h b c x : heap_ok l live h -> b ∈ l -> c ∈ live -> within b x -> ~ within c x.
Proof.
  intros Hk Hb Hc Hx Hy. pose proof (tile_nodup _ _ _ (ho_units _ _ _ _ _ Hk)) as Hn.
  rewrite all_units_app in Hn. apply NoDup_app in Hn as (_ & Hn & _).
  apply (Hn x); apply elem_all_units; by eexists.
Qed.

(** Nodes on both sides of a free block. *)
Lemma around l live h X a s Y : heap_ok l live h -> l = X ++ (a, s) :: Y ->
  (forall b, b ∈ X -> fst b < a) /\ (forall b, b ∈ Y -> a + s < fst b).
Proof.
  intros Hk El. pose proof (ho_sorted _ _ _ _ _ Hk) as Hs. rewrite El in Hs.
  apply StronglySorted_app in Hs as (HX & _ & [HY _]%StronglySorted_cons). split; intros b Hb.
  - assert (0 <= snd b) by (apply (node_size _ _ _ b Hk); rewrite El; set_solver).
    assert (before b (a, s)) as Hba by (apply HX; set_solver). unfold before in Hba. cbn in Hba. lia.
  - apply (proj1 (Forall_forall _ _) HY) in Hb. unfold before in Hb. by cbn in Hb.
Qed.

(** A block leaves the list. *)
Lemma unlink_ok l live h h1 X q sq p s Y : heap_ok l live h -> l = X ++ (q, sq) :: (p, s) :: Y ->
  with_hdr q (Header (first Y BASE) sq) h h1 ->
  heap_ok (X ++ (q, sq) :: Y) ((p, s) :: live) (Heap (hdr h1) q (brk h1)) /\ keeps live h (Heap (hdr h1) q (brk h1)).
Proof.
  intros Hk El (E1 & F1 & _ & Fb). destruct (sorted_next _ _ _ _ _ _ _ _ _ Hk El) as [Hsq Hqp].
  assert (hdr h p = Header (first Y BASE) s) as Ep by (apply (node_header _ _ _ (X ++ [(q, sq)]) _ _ _ Hk); by rewrite <- app_assoc).
  destruct (after_base Hk (X ++ [(q, sq)]) (p, s) Y) as [Hplo Hps]; [by rewrite <- app_assoc|left; by destruct X|]. cbn in Hplo, Hps.
  assert (keeps live h (Heap (hdr h1) q (brk h1))) as Hkeep.
  { intros c x Hc Hx. apply F1. apply (node_free Hk (q, sq) x c); [rewrite El; set_solver|done|done]. }
  split; [|done]. destruct (around _ _ _ _ _ _ _ Hk El) as [HX HY].
  destruct Hk as [H1 H2 H3 H4 H5 H6 H7 H8 H9]. rewrite El in H1, H3, H4, H5, H8.
  apply chain_app in H3 as (Hc1 & _ & _ & Hc2). split; cbn [hdr freep brk]; try done.
  - by destruct X.
  - apply chain_app. split; [|split; [done|]].
    + eapply chain_ext; [|done]. intros b Hb%HX. apply F1. lia.
    + eapply chain_ext; [|done]. intros b Hb. apply F1. assert (q + sq < fst b) by set_solver. lia.
  - apply StronglySorted_app in H4 as (H4a & H4b & [H4c [H4d H4e]%StronglySorted_cons]%StronglySorted_cons).
    apply StronglySorted_app. split_and!; [set_solver|done|]. apply StronglySorted_cons. split; [|done]. by apply Forall_cons in H4c as [_ ?].
  - decompose_Forall_hyps. apply Forall_app. auto.
  - rewrite map_app. set_solver.
  - apply Forall_cons. split; [cbn; split; [done|]; rewrite F1, Ep by lia; done|]. apply Forall_forall. intros c Hc.
    destruct (proj1 (Forall_forall _ _) H7 c Hc) as [Hp Hh]. split; [done|]. rewrite <- Hh. f_equal. apply (Hkeep c); [done|unfold within; lia].
  - rewrite Fb, <- H8, !all_units_app, !all_units_cons. solve_Permutation.
  - by rewrite Fb.
Qed.

(** The tail of a block is handed out. *)
Lemma split_ok l live h h1 h2 X q sq p s Y n v : heap_ok l live h -> l = X ++ (q, sq) :: (p, s) :: Y -> 1 <= n < s ->
  with_hdr p (Header (first Y BASE) (s - n)) h h1 -> with_hdr (p + (s - n)) (Header v n) h1 h2 ->
  let h' := Heap (hdr h2) q (brk h2) in
  heap_ok (X ++ (q, sq) :: (p, s - n) :: Y) ((p + (s - n), n) :: live) h' /\ keeps live h h'.
Proof.
  intros Hk El Hn (E1 & F1 & _ & Fb) (E2 & F2 & _ & Gb) h'. destruct (sorted_next _ _ _ _ _ _ _ _ _ Hk El) as [Hsq Hqp].
  assert (l = (X ++ [(q, sq)]) ++ (p, s) :: Y) as El2 by by rewrite <- app_assoc.
  destruct (after_base Hk _ _ _ El2) as [Hplo Hps]; [left; by destruct X|]. cbn in Hplo, Hps.
  destruct (around _ _ _ _ _ _ _ Hk El2) as [HX HY].
  assert (keeps live h h') as Hkeep.
  { intros c x Hc Hx. unfold h'. cbn [hdr]. assert ((p, s) ∈ l) as Hin by (rewrite El2; set_solver).
    rewrite F2, F1; [done|apply (node_free Hk (p, s) x c); done|]. intros ->.
    apply (block_free _ _ _ (p, s) c (p + (s - n)) Hk); [done|done|unfold within; cbn; lia|done]. }
  split; [|done]. assert (forall b, b ∈ (X ++ [(q, sq)]) ++ Y -> hdr h2 (fst b) = hdr h (fst b)) as Hold.
  { intros b [Hb%HX|Hb%HY]%elem_of_app; rewrite F2, F1 by lia; done. }
  destruct Hk as [H1 H2 H3 H4 H5 H6 H7 H8 H9]. rewrite El2 in H1, H3, H4, H5, H8.
  replace (X ++ (q, sq) :: (p, s - n) :: Y) with ((X ++ [(q, sq)]) ++ (p, s - n) :: Y) by by rewrite <- app_assoc.
  apply chain_app in H3 as (Hc1 & _ & Hc2). unfold h'. split; cbn [hdr freep brk]; try done.
  - by destruct X.
  - apply chain_app. split; [|split; [by rewrite F2, E1 by lia|]]; (eapply chain_ext; [|done]; intros b Hb; apply Hold; set_solver).
  - apply StronglySorted_app in H4 as (H4a & H4b & [H4c H4d]%StronglySorted_cons).
    apply StronglySorted_app. split_and!; [|done|apply StronglySorted_cons; split; [|done]].
    + intros b c Hb [->|Hc]%elem_of_cons; [|apply H4a; set_solver]. assert (before b (p, s)) as Hbp by (apply H4a; set_solver). exact Hbp.
    + apply Forall_forall. intros b Hb%HY. unfold before. cbn. lia.
  - apply Forall_app in H5 as [H5a [_ H5b]%Forall_cons]. apply Forall_app. split; [done|]. apply Forall_cons. split; [right; cbn; lia|done].
  - rewrite !map_app. set_solver.
  - apply Forall_cons. split; [cbn; split; [lia|]; by rewrite E2|]. apply Forall_forall. intros c Hc.
    destruct (proj1 (Forall_forall _ _) H7 c Hc) as [Hp Hh]. split; [done|]. rewrite <- Hh. f_equal. apply (Hkeep c); [done|unfold within; lia].
  - rewrite Gb, Fb, <- H8, !all_units_app, !all_units_cons.
    replace (units (p, s)) with (units (p, s - n) ++ units (p + (s - n), n)) by (rewrite <- units_join by lia; do 2 f_equal; lia). solve_Permutation.
  - by rewrite Gb, Fb.
Qed.

(** The list as a walk from the block after [freep] meets it. *)
Definition turn (l : list (Z * Z)) (f : Z) (C : list (Z * Z)) : Prop :=
  exists A sf B, l = A ++ (f, sf) :: B /\ C = B ++ A ++ [(f, sf)].

Lemma turn_perm l f C : turn l f C -> C ≡ₚ l.
Proof. intros (A & sf & B & -> & ->). solve_Permutation. Qed.

Lemma turn_exists l live h : heap_ok l live h -> exists C, turn l (freep h) C /\ C <> [] /\ length C = length l.
Proof.
  intros Hk. pose proof (ho_freep _ _ _ _ _ Hk) as Hf. apply list_elem_of_fmap in Hf as ([q sq] & -> & Hq).
  apply list_elem_of_split in Hq as (A & B & El). exists (B ++ A ++ [(q, sq)]).
  assert (turn l q (B ++ A ++ [(q, sq)])) as Ht by by exists A, sq, B. split; [done|].
  split; [destruct B, A; done|]. by rewrite (turn_perm _ _ _ Ht).
Qed.

Lemma turn_chain l live h f C : heap_ok l live h -> turn l f C -> chain (hdr h) C (first C 0).
Proof.
  intros Hk (A & sf & B & El & ->). pose proof (ho_chain _ _ _ _ _ Hk) as Hc. pose proof (ho_base _ _ _ _ _ Hk) as Hb.
  rewrite El in Hc, Hb. apply chain_app in Hc as (HA & Hf & HB). cbn [first] in HA.
  assert (first (A ++ [(f, sf)]) 0 = BASE) as EA by (destruct A as [|[] ?]; injection Hb; cbn; congruence).
  apply chain_app. split; [by destruct A as [|[] ?]; cbn in *; subst|].
  apply chain_app. split; [done|]. split; [|done]. cbn. rewrite Hf. f_equal. destruct B as [|[] ?]; [cbn|done].
  cbn in EA. by rewrite EA.
Qed.

Lemma turn_next l live h C V p s W : heap_ok l live h -> turn l (freep h) C -> C = V ++ (p, s) :: W ->
  h_size (hdr h p) = s /\ (p, s) ∈ l /\ ((W = [] /\ p = freep h) \/ (W <> [] /\ p <> freep h /\ h_ptr (hdr h p) = first W 0)).
Proof.
  intros Hk Ht EC. pose proof (turn_chain _ _ _ _ _ Hk Ht) as Hc. rewrite EC in Hc at 1. apply chain_app in Hc as (_ & Hc & _).
  assert ((p, s) ∈ l) as Hin by (rewrite <- (turn_perm _ _ _ Ht), EC; set_solver).
  rewrite Hc. split; [done|]. split; [done|]. destruct Ht as (A & sf & B & El & EC2). rewrite EC in EC2.
  destruct W as [|w W] using rev_ind; [left|right; clear IHW].
  - split; [done|]. rewrite !app_assoc in EC2. apply app_inj_2 in EC2 as [_ [= -> _]]; done.
  - replace (V ++ (p, s) :: W ++ [w]) with ((V ++ (p, s) :: W) ++ [w]) in EC2 by by rewrite <- !app_assoc.
    rewrite app_assoc in EC2. apply app_inj_2 in EC2 as [EC2 _]; [|done].
    split; [by destruct W|]. split; [|cbn; destruct W as [|[] ?], w; done].
    apply (nodes_differ _ _ _ A (freep h) sf B (p, s) Hk El). rewrite Permutation_app_comm, <- EC2. set_solver.
Qed.

Definition allocated (live : list (Z * Z)) (n : Z) (h : heap) (r : Z) (h' : heap) : Prop :=
  exists p l', r = p + 1 /\ heap_ok l' ((p, n) :: live) h' /\ keeps live h h'.

Lemma take_units_spec l live h X q sq Y n : heap_ok l live h -> l = X ++ (q, sq) :: Y ->
  1 <= n <= h_size (hdr h (first Y BASE)) ->
  wp (take_units q (first Y BASE) (h_size (hdr h (first Y BASE))) n) h (allocated live n h).
Proof.
  intros Hk El Hn. pose proof (ho_base _ _ _ _ _ Hk) as Hb.
  assert (hdr h BASE = Header (h_ptr (hdr h BASE)) 0) as EB.
  { destruct l as [|b l']; [done|]. injection Hb as ->. by rewrite (node_header _ _ _ [] BASE 0 l' Hk eq_refl). }
  destruct Y as [|[p s] Y]; [cbn in Hn; rewrite EB in Hn; cbn in Hn; lia|]. cbn [first] in *.
  assert (hdr h q = Header p sq) as Eq by apply (node_header _ _ _ _ _ _ _ Hk El).
  assert (hdr h p = Header (first Y BASE) s) as Ep by (apply (node_header _ _ _ (X ++ [(q, sq)]) _ _ _ Hk); by rewrite <- app_assoc).
  rewrite Ep in Hn |- *. cbn [h_size] in Hn |- *.
  assert (s < 2 ^ 32) as Hs32.
  { pose proof (tile_size _ _ _ (ho_units _ _ _ _ _ Hk) (p, s)) as Ht. pose proof (ho_small _ _ _ _ _ Hk).
    ospecialize (Ht _ _); [rewrite El; set_solver|lia|]. cbn in Ht. lia. }
  unfold take_units. wp_step. destruct (s =? n) eqn:E; bool_simp.
  - unfold get_ptr. wp_step. wp_step. rewrite Ep. cbn [h_ptr]. wp_step. apply wp_set_ptr. rewrite Eq. cbn [h_size]. intros h1 Hh1.
    destruct (unlink_ok _ _ _ _ _ _ _ _ _ _ Hk El Hh1) as [Hk' Hkeep]. subst n. unfold set_freep. wp_steps. by exists p, (X ++ (q, sq) :: Y).
  - rewrite u32_id by lia. wp_step. apply wp_set_size. rewrite Ep. cbn [h_ptr]. intros h1 Hh1. wp_step. apply wp_set_size. intros h2 Hh2.
    destruct (split_ok l live h h1 h2 X q sq p s Y n _ Hk El ltac:(lia) Hh1 Hh2) as [Hk' Hkeep].
    unfold set_freep. wp_steps. by eexists _, _.
Qed.

(** The loop of [malloc] in a list [l] with the blocks [live] in use: [W] is
    what remains of the turn, and [V] did not fit. *)
Definition searching (live l0 : list (Z * Z)) (n : Z) (h0 : heap) (m : nat) (x : Z * Z) (h : heap) : Prop :=
  exists l C V W, heap_ok l live h /\ keeps live h0 h /\ turn l (freep h) C /\ C = V ++ W /\ W <> [] /\
    Forall (fun b => snd b < n) V /\ snd x = first W 0 /\
    (exists X sq Y, l = X ++ (fst x, sq) :: Y /\ snd x = first Y BASE) /\
    ((Exists (fun b => n <= snd b) l /\ (length W <= m)%nat) \/ (h = h0 /\ l = l0 /\ (length W + length l + 1 < m)%nat)).

(** The start of a turn. *)
Lemma search_start live l n h l0 h0 m : heap_ok l live h -> keeps live h0 h ->
  ((Exists (fun b => n <= snd b) l /\ (length l <= m)%nat) \/ (h = h0 /\ l = l0 /\ (2 * length l + 1 < m)%nat)) ->
  searching live l0 n h0 m (freep h, h_ptr (hdr h (freep h))) h.
Proof.
  intros Hk Hkeep Hm. destruct (turn_exists _ _ _ Hk) as (C & Ht & HC & HL). exists l, C, [], C.
  destruct Ht as (A & sf & B & El & EC). pose proof (node_header _ _ _ _ _ _ _ Hk El) as Ef.
  split_and!; [done|done|by exists A, sf, B|done|done|done| | |]; cbn [fst snd].
  - rewrite Ef, EC. destruct B as [|[] ?]; [|done]. cbn. pose proof (ho_base _ _ _ _ _ Hk) as Hb. rewrite El in Hb.
    destruct A as [|[] ?]; injection Hb; cbn; congruence.
  - exists A, sf, B. split; [done|]. by rewrite Ef.
  - rewrite HL. destruct Hm as [[]|(-> & -> & ?)]; [left|right]; split_and!; try done. lia.
Qed.

(** No block fits, or one is handed out. *)
Definition malloc_done (live l : list (Z * Z)) (n : Z) (h : heap) (r : Z) (h' : heap) : Prop :=
  (r = 0 /\ h' = h /\ Forall (fun b => snd b < n) l) \/ allocated live n h r h'.

Lemma freep_pos l live h : heap_ok l live h -> 0 < freep h.
Proof.
  intros Hk. pose proof (ho_freep _ _ _ _ _ Hk) as Hf. apply list_elem_of_fmap in Hf as ([q sq] & -> & Hq).
  pose proof (node_above _ _ _ _ _ Hk Hq). pose proof (ho_place _ _ _ _ _ Hk). cbn. lia.
Qed.

Section loop.
Context (LIMIT : Z) (Hsb : sbrk_law LIMIT) (Hlim : LIMIT - lo < 2 ^ 32).
Context (live l0 : list (Z * Z)) (n : Z) (h0 : heap) (Hn : 1 <= n) (Hmax : n * HEADER < 2 ^ 31).

Abbreviation stepped m r h' := (match r with inl x' => exists m', (m' < m)%nat /\ searching live l0 n h0 m' x' h' | inr v => malloc_done live l0 n h0 v h' end).

(** The end of a turn on which nothing fitted. *)
Lemma malloc_turned m l C h : heap_ok l live h -> turn l (freep h) C -> Forall (fun b => snd b < n) C -> keeps live h0 h ->
  (Exists (fun b => n <= snd b) l) \/ (h = h0 /\ l = l0 /\ (length l + 2 < m)%nat) ->
  wp (p <- morecore BASE sbrk n ;; if p =? 0 then ret (inr 0) else next <- get_ptr p ;; ret (inl (p, next))) h (fun r h' => stepped m r h').
Proof.
  intros Hk Ht Hsmall Hkeep [Hbig|(-> & -> & Hm)].
  { exfalso. rewrite (turn_perm _ _ _ Ht) in Hsmall. apply Exists_exists in Hbig as (b & Hb & Hb').
    apply (proj1 (Forall_forall _ _) Hsmall) in Hb. lia. }
  apply wp_bind. eapply wp_mono; [by apply (morecore_spec LIMIT l0 live h0 n)|].
  intros r h1 [[-> ->]|(-> & l' & Hk1 & Hkeep1 & Hex & Hlen)]; cbn beta.
  - apply wp_ret. left. split_and!; [done|done|]. by rewrite <- (turn_perm _ _ _ Ht).
  - pose proof (freep_pos _ _ _ Hk1). case_if; [lia|]. unfold get_ptr. wp_steps. exists (S (length l0)). split; [lia|].
    apply (search_start live l'); [done|done|]. left. split; [done|lia].
Qed.

Lemma malloc_body_spec m x h : searching live l0 n h0 m x h -> wp (malloc_body BASE sbrk n x) h (fun r h' => stepped m r h').
Proof.
  destruct x as [prevp p]. intros (l & C & V & W & Hk & Hkeep & Ht & EC & HW & Hsmall & Ep & (X & sq & Y & El & Ep') & Hm).
  cbn [fst snd] in *. destruct W as [|[p' s] W]; [done|]. cbn [first] in Ep. subst p'.
  destruct (turn_next _ _ _ _ _ _ _ _ Hk Ht EC) as (Esz & Hin & Hnx).
  unfold malloc_body. unfold get_size. wp_step. wp_step. rewrite Esz. case_if.
  - apply wp_bind. rewrite <- Esz, Ep'. eapply wp_mono; [apply (take_units_spec _ _ _ _ _ _ _ n Hk El); rewrite <- Ep'; lia|].
    intros r h' (q & l' & -> & Hk' & Hkeep'). apply wp_ret. right. exists q, l'. split_and!; [done|done|by eapply keeps_trans].
  - wp_step. wp_step. assert (Forall (fun b => snd b < n) (V ++ [(p, s)])) as Hs2 by (apply Forall_app; split; [done|by apply Forall_singleton]).
    case_if.
    + destruct Hnx as [[-> _]|(_ & ? & _)]; [|done]. apply (malloc_turned m l C); [done|done|by rewrite EC|done|].
      destruct Hm as [[? _]|(-> & -> & Hm)]; [by left|right]. split_and!; [done|done|]. cbn in Hm. lia.
    + destruct Hnx as [[_ ?]|(HW' & _ & Enx)]; [done|]. wp_steps.
      pose proof (node_above _ _ _ _ _ Hk Hin). pose proof (ho_place _ _ _ _ _ Hk). case_if; [lia|]. unfold get_ptr. wp_steps.
      exists (pred m). assert (0 < length W)%nat by (destruct W; [done|cbn; lia]). cbn [length] in Hm. split; [lia|].
      apply list_elem_of_split in Hin as (X' & Y' & El').
      exists l, C, (V ++ [(p, s)]), W. split_and!; try done; [by rewrite EC, <- app_assoc| |].
      * exists X', s, Y'. split; [done|]. cbn. by rewrite (node_header _ _ _ _ _ _ _ Hk El').
      * destruct Hm as [[? ?]|(-> & -> & ?)]; [left|right]; split_and!; try done; lia.
Qed.
End loop.

Lemma malloc_search LIMIT l live h nbytes : sbrk_law LIMIT -> LIMIT - lo < 2 ^ 32 -> 0 <= nbytes <= 2 ^ 31 - 64 ->
  heap_ok l live h ->
  wp (p <- get_ptr (freep h) ;; fuel <- gets (steps BASE) ;; loop fuel (malloc_body BASE sbrk (nunits nbytes)) (freep h, p)) h
     (malloc_done live l (nunits nbytes) h).
Proof.
  intros Hsb Hlim Hnb Hk. unfold get_ptr. wp_steps.
  assert (1 <= nunits nbytes /\ nunits nbytes * HEADER < 2 ^ 31) as [Hn1 Hn2] by (unfold nunits, u32, HEADER; dlia).
  eapply (wp_loop_nat (searching live l (nunits nbytes) h)) with (n := (2 * length l + 2)%nat).
  - intros m x h' Hs. by apply (malloc_body_spec LIMIT).
  - apply (search_start live l); [done|by intros ?|]. right. split_and!; [done|done|lia].
  - pose proof (ring_length Hk). pose proof (ho_place _ _ _ _ _ Hk). unfold steps. lia.
Qed.

(** Before the first call. *)
Record fresh (l live : list (Z * Z)) (h : heap) : Prop := {
  fr_freep : freep h = 0;
  fr_list : l = [(BASE, 0)];
  fr_live : live = [];
  fr_brk : brk h = lo;
  fr_place : 0 < BASE < lo }.

Lemma fresh_ok l live h f : fresh l live h -> f BASE = Header BASE 0 -> heap_ok l live (Heap f BASE (brk h)).
Proof.
  intros [_ -> -> Hb Hp] Hf. split; cbn; try done.
  - by repeat constructor.
  - apply Forall_singleton. by left.
  - left.
  - rewrite Hb. by replace (lo - lo) with 0 by lia.
  - lia.
Qed.

Definition usable (l live : list (Z * Z)) (h : heap) : Prop := fresh l live h \/ heap_ok l live h.
End spec.

Lemma malloc_usable BASE lo sbrk LIMIT l live h nbytes :
  sbrk_law sbrk LIMIT -> LIMIT - lo < 2 ^ 32 -> 0 <= nbytes <= 2 ^ 31 - 64 -> usable BASE lo l live h ->
  wp (malloc BASE sbrk nbytes) h (fun r h' => keeps live h h' /\
    ((r = 0 /\ heap_ok BASE lo l live h' /\ brk h' = brk h /\ Forall (fun b => snd b < nunits nbytes) l) \/
     (exists p l', r = p + 1 /\ nbytes <= (nunits nbytes - 1) * HEADER /\
        heap_ok BASE lo l' ((p, nunits nbytes) :: live) h'))).
Proof.
  intros Hsb Hlim Hnb Hu.
  assert (nbytes <= (nunits nbytes - 1) * HEADER) as Hfit by (unfold nunits, u32, HEADER; dlia).
  assert (forall h1 r h', keeps live h h1 -> brk h1 = brk h -> heap_ok BASE lo l live h1 ->
    malloc_done BASE lo live l (nunits nbytes) h1 r h' -> keeps live h h' /\
    ((r = 0 /\ heap_ok BASE lo l live h' /\ brk h' = brk h /\ Forall (fun b => snd b < nunits nbytes) l) \/
     (exists p l', r = p + 1 /\ nbytes <= (nunits nbytes - 1) * HEADER /\ heap_ok BASE lo l' ((p, nunits nbytes) :: live) h'))) as Hdone.
  { intros h1 r h' Hkeep Hb Hk [(-> & -> & Hs)|(p & l' & -> & Hk' & Hkeep')].
    - split; [done|]. left. by split_and!.
    - split; [by eapply keeps_trans|]. right. by exists p, l'. }
  unfold malloc. wp_step. wp_step. wp_step. destruct Hu as [Hfr|Hk].
  - rewrite (fr_freep _ _ _ _ _ Hfr). cbn [Z.eqb]. unfold set_freep. wp_step. wp_step. wp_step. apply wp_set_ptr. intros h1 (E1 & F1 & G1 & B1).
    wp_step. apply wp_set_size. intros h2 (E2 & F2 & G2 & B2). apply wp_ret. rewrite E1 in E2. cbn in E2, G1, B1.
    assert (heap_ok BASE lo l live h2) as Hk.
    { destruct h2 as [f2 fp2 b2]. cbn in *. subst fp2 b2. rewrite B1, G1. by apply fresh_ok. }
    pose proof (malloc_search BASE lo sbrk LIMIT l live h2 nbytes Hsb Hlim Hnb Hk) as Hm.
    replace (freep h2) with BASE in Hm by congruence. eapply wp_mono; [exact Hm|]. intros r h'. apply Hdone; [|congruence|done].
    intros b x Hb. rewrite (fr_live _ _ _ _ _ Hfr) in Hb. by apply not_elem_of_nil in Hb.
  - pose proof (freep_pos _ _ _ _ _ Hk). case_if; [lia|]. apply wp_ret.
    eapply wp_mono; [by apply (malloc_search BASE lo sbrk LIMIT l live)|]. intros r h'. by apply Hdone.
Qed.

(** [malloc] of a number of bytes whose block is smaller than 2 GB, called
    when no block has been allocated yet or when the list [l] and the blocks
    [live] in use tile the heap: it returns, with 0 if no block of the list is
    large enough and sbrk refuses, and then list and blocks in use are what
    they were; otherwise with the address after the header of a block that is
    long enough, that no free block and no block in use overlaps, and the heap
    is again tiled by the list and the blocks in use.  No block in use is
    written to. *)
Theorem malloc_allocates BASE lo sbrk LIMIT l live h nbytes :
  sbrk_law sbrk LIMIT -> LIMIT - lo < 2 ^ 32 -> 0 <= nbytes <= 2 ^ 31 - 64 -> usable BASE lo l live h ->
  wp (malloc BASE sbrk nbytes) h (fun r h' => keeps live h h' /\
    ((r = 0 /\ heap_ok BASE lo l live h' /\ brk h' = brk h /\ Forall (fun b => snd b < nunits nbytes) l) \/
     (exists p l', r = p + 1 /\ nbytes <= (nunits nbytes - 1) * HEADER /\
        heap_ok BASE lo l' ((p, nunits nbytes) :: live) h'))).
Proof. apply malloc_usable. Qed.

Lemma heap_ok_perm BASE lo l live live' h : live ≡ₚ live' -> heap_ok BASE lo l live h -> heap_ok BASE lo l live' h.
Proof. intros Hp [H1 H2 H3 H4 H5 H6 H7 H8 H9]. split; try done; by rewrite <- Hp. Qed.

(** [free] of a block in use returns, with the block in the list again, joined
    to the free blocks that touch it: no two blocks of the list are adjacent,
    the list is in the order of addresses, and it tiles the heap together with
    the blocks that are still in use, which are not written to. *)
Theorem free_returns BASE lo l live h bp s :
  heap_ok BASE lo l live h -> (bp, s) ∈ live ->
  wp (free BASE (bp + 1)) h (fun _ h' => exists l' live', live ≡ₚ (bp, s) :: live' /\
    heap_ok BASE lo l' live' h' /\ keeps live' h h' /\ brk h' = brk h /\ Exists (fun b => s <= snd b) l').
Proof.
  intros Hk Hin. apply elem_of_Permutation in Hin as (live' & Hp).
  eapply wp_mono; [by apply (free_spec BASE lo l live'), (heap_ok_perm _ _ _ _ _ _ Hp)|].
  intros [] h' (l' & Hk' & Hkeep & Hb & Hex & _). by exists l', live'.
Qed.

(** ** Any use of the allocator *)

(** The payload of a block: all of it but the header. *)
Definition payload (b : Z * Z) (x : Z) : Prop := fst b < x < fst b + snd b.

Section uses.
Context (BASE lo : Z) (sbrk : Z -> M heap (option Z)) (LIMIT : Z).
Context (Hsb : sbrk_law sbrk LIMIT) (Hlim : LIMIT - lo < 2 ^ 32).

(** The heaps that a program can reach which allocates and frees blocks and
    writes what it likes to the payloads of the blocks it has. *)
Inductive uses : list (Z * Z) -> heap -> Prop :=
  | uses_start h : fresh BASE lo [(BASE, 0)] [] h -> uses [] h
  | uses_malloc live h n p h' : uses live h -> 0 <= n <= 2 ^ 31 - 64 ->
      malloc BASE sbrk n h = Ok (p + 1, h') -> p + 1 <> 0 -> uses ((p, nunits n) :: live) h'
  | uses_full live h n h' : uses live h -> 0 <= n <= 2 ^ 31 - 64 -> malloc BASE sbrk n h = Ok (0, h') -> uses live h'
  | uses_free live h bp s live' h' : uses live h -> live ≡ₚ (bp, s) :: live' -> free BASE (bp + 1) h = Ok (tt, h') -> uses live' h'
  | uses_write live h f : uses live h -> (forall x, (forall b, b ∈ live -> ~ payload b x) -> f x = hdr h x) ->
      uses live (Heap f (freep h) (brk h)).

Lemma live_disjoint l live h b c cs : heap_ok BASE lo l live h -> live ≡ₚ b :: c :: cs -> forall x, within b x -> ~ within c x.
Proof.
  intros Hk Hp x Hb Hc. pose proof (tile_nodup _ _ _ (ho_units _ _ _ _ _ Hk)) as Hn.
  rewrite all_units_app, Hp, !all_units_cons in Hn. apply NoDup_app in Hn as (_ & _ & (_ & Hn & _)%NoDup_app).
  apply (Hn x); [by apply elem_units|]. apply elem_of_app. left. by apply elem_units.
Qed.

(** A header is in no payload. *)
Lemma header_kept l live h b c : heap_ok BASE lo l live h -> b ∈ l ++ live -> c ∈ live -> ~ payload c (fst b).
Proof.
  intros Hk Hb Hc Hp. assert (Hw : within c (fst b)) by (unfold payload, within in *; lia). apply elem_of_app in Hb as [Hb|Hb].
  - by apply (node_free Hk b (fst b) c).
  - destruct (decide (b = c)) as [->|Hne]; [unfold payload in Hp; lia|].
    assert (exists cs, live ≡ₚ b :: c :: cs) as [cs Hcs].
    { apply elem_of_Permutation in Hb as (l1 & H1). rewrite H1 in Hc. apply elem_of_cons in Hc as [->|Hc]; [done|].
      apply elem_of_Permutation in Hc as (cs & H2). exists cs. by rewrite H1, H2. }
    assert (Hbp : 0 < snd b).
    { pose proof (ho_live _ _ _ _ _ Hk) as Hl. rewrite Hcs in Hl. by apply Forall_cons in Hl as [[? _] _]. }
    by apply (live_disjoint _ _ _ b c cs Hk Hcs (fst b)); [unfold within; lia|].
Qed.

Lemma write_ok l live h f : heap_ok BASE lo l live h -> (forall x, (forall b, b ∈ live -> ~ payload b x) -> f x = hdr h x) ->
  heap_ok BASE lo l live (Heap f (freep h) (brk h)).
Proof.
  intros Hk Hf. assert (Hh : forall b, b ∈ l ++ live -> f (fst b) = hdr h (fst b)).
  { intros b Hb. apply Hf. intros c Hc. by apply (header_kept l live h b c). }
  destruct Hk as [H1 H2 H3 H4 H5 H6 H7 H8 H9]. split; try done; cbn [hdr freep brk].
  - eapply chain_ext; [|done]. intros b Hb. apply Hh. set_solver.
  - apply Forall_forall. intros b Hb. destruct (proj1 (Forall_forall _ _) H7 b Hb). rewrite Hh by set_solver. done.
Qed.

Lemma uses_usable live h : uses live h -> exists l, usable BASE lo l live h.
Proof.
  induction 1 as [h Hf|live h n p h' _ [l IH] Hn Hm Hp|live h n h' _ [l IH] Hn Hm|live h bp s live' h' _ [l IH] Hlp Hm|live h f _ [l IH] Hf].
  - exists [(BASE, 0)]. by left.
  - pose proof (malloc_usable BASE lo sbrk LIMIT l live h n Hsb Hlim Hn IH) as H. unfold wp in H. rewrite Hm in H.
    destruct H as [_ [(E & _)|(q & l' & E & _ & Hk)]]; [done|]. exists l'. right. by replace p with q by lia.
  - pose proof (malloc_usable BASE lo sbrk LIMIT l live h n Hsb Hlim Hn IH) as H. unfold wp in H. rewrite Hm in H.
    destruct H as [_ [(_ & Hk & _)|(q & l' & E & _ & Hk)]]; [exists l; by right|].
    pose proof (ho_place _ _ _ _ _ Hk). pose proof (live_in Hk (q, nunits n) q) as Hq. ospecialize (Hq _ _); [left| |lia].
    pose proof (ho_live _ _ _ _ _ Hk) as [[? _] _]%Forall_cons. unfold within. cbn in *. lia.
  - destruct IH as [Hf|Hk].
    { rewrite (fr_live _ _ _ _ _ Hf) in Hlp. by apply Permutation_nil_cons in Hlp. }
    pose proof (free_spec BASE lo l live' h bp s (heap_ok_perm _ _ _ _ _ _ Hlp Hk)) as H. unfold wp in H. rewrite Hm in H.
    destruct H as (l' & Hk' & _). exists l'. by right.
  - exists l. destruct IH as [[F1 F2 F3 F4 F5]|Hk]; [left; by split|right; by apply write_ok].
Qed.
End uses.


(** ** A heap *)

Definition demo_sbrk (n : Z) : M heap (option Z) := fun h =>
  if brk h + n / HEADER <=? 20000 then Ok (Some (brk h), Heap (hdr h) (freep h) (brk h + n / HEADER)) else Ok (None, h).
Definition demo_heap : heap := Heap (fun _ => Header 0 0) 0 512.

Lemma demo_sbrk_law : sbrk_law demo_sbrk 20000.
Proof.
  intros n h Hn Hm. unfold wp, demo_sbrk. destruct (brk h + n / HEADER <=? 20000) eqn:E; bool_simp; [right|by left].
  split_and!; try done.
Qed.

Lemma demo_fresh : fresh 256 512 [(256, 0)] [] demo_heap.
Proof. by split. Qed.

Definition demo_used : heap := final (malloc 256 demo_sbrk 100) demo_heap.

Lemma malloc_allocates_witness : returns (malloc 256 demo_sbrk 100) demo_heap = Some 4601 /\
  exists p l', heap_ok 256 512 l' [(p, 8)] demo_used.
Proof.
  assert (returns (malloc 256 demo_sbrk 100) demo_heap = Some 4601) as Hr by (vm_compute; reflexivity).
  split; [exact Hr|].
  pose proof (malloc_allocates 256 512 demo_sbrk 20000 [(256, 0)] [] demo_heap 100 demo_sbrk_law ltac:(lia) ltac:(lia) (or_introl demo_fresh)) as H.
  apply (wp_final _ _ _ 4601) in H; [|exact Hr]. destruct H as [_ [(Hn & _)|(p & l' & _ & _ & Hk)]]; [discriminate|].
  exists p, l'. exact Hk.
Defined.

Lemma demo_used_ok : heap_ok 256 512 [(256, 0); (512, 4088)] [(4600, 8)] demo_used.
Proof.
  assert (brk demo_used = 4608) as Hb by (vm_compute; reflexivity). split; rewrite ?Hb; try (vm_compute; done).
  - repeat constructor.
  - apply Forall_cons. split; [by left|]. apply Forall_singleton. right. cbn. lia.
  - vm_compute. left.
  - apply Forall_singleton. split; [done|]. vm_compute. reflexivity.
Qed.

Lemma free_returns_witness : exists l' live', [(4600, 8)] ≡ₚ (4600, 8) :: live' /\
  heap_ok 256 512 l' live' (final (free 256 4601) demo_used) /\ Exists (fun b => 8 <= snd b) l'.
Proof.
  assert ((4600, 8) ∈ [(4600, 8)]) as Hin by left.
  pose proof (free_returns 256 512 [(256, 0); (512, 4088)] [(4600, 8)] demo_used 4600 8 demo_used_ok Hin) as H.
  apply (wp_final _ _ _ tt) in H; [|vm_compute; reflexivity].
  destruct H as (l' & live' & Hp & Hk & _ & _ & Hex). exists l', live'. exact (conj Hp (conj Hk Hex)).
Defined.

(** [free] of a block beyond the base, into the empty list. *)
Lemma free_alone BASE h bp (Q : unit -> heap -> Prop) : hdr h BASE = Header BASE 0 -> freep h = BASE -> BASE < bp -> bp < brk h ->
  0 <= h_size (hdr h bp) ->
  (forall h', hdr h' BASE = Header bp 0 -> hdr h' bp = Header BASE (h_size (hdr h bp)) -> freep h' = BASE -> brk h' = brk h -> Q tt h') ->
  wp (free BASE (bp + 1)) h Q.
Proof.
  intros EB Ef Hlt Hbrk Hs HQ. unfold free. replace (bp + 1 - 1) with bp by lia. unfold free_scan. wp_step. wp_step. wp_step. wp_step. wp_step.
  rewrite Ef. assert (exists k, steps BASE h = S k) as [k ->] by (exists (Nat.pred (steps BASE h)); unfold steps; lia).
  cbn [loop]. unfold get_ptr at 1. wp_step. wp_step. wp_step. rewrite EB. cbn [h_ptr]. rewrite (proj2 (Z.ltb_ge bp BASE)), andb_false_r by lia.
  rewrite Z.leb_refl, (proj2 (Z.ltb_lt BASE bp)) by done. cbn [andb orb]. wp_steps. unfold get_ptr at 1. wp_steps. rewrite EB. cbn [h_ptr].
  unfold get_size at 1. wp_steps. case_if; [lia|]. apply wp_set_ptr. intros h1 (E1 & F1 & G1 & B1). unfold get_size at 1. wp_steps.
  rewrite F1, EB by lia. cbn [h_size]. case_if; [lia|]. apply wp_set_ptr. rewrite F1, EB by lia. cbn [h_size].
  intros h2 (E2 & F2 & G2 & B2). apply wp_modify, HQ; cbn; [done|by rewrite F2, E1 by lia|done|congruence].
Qed.

(** C36. The size of a request of 2^32 - 1 bytes, counted in bytes, is cut to an
    [int] for sbrk: if 16 bytes can be had, the first such request succeeds,
    with a block whose header claims 2^28 + 1 units where the heap has one. *)
Theorem malloc_wraps BASE lo sbrk h l :
  fresh BASE lo l [] h ->
  (forall h1, brk h1 = brk h -> wp (sbrk HEADER) h1 (fun r h2 => r = Some (brk h) /\ freep h2 = freep h1 /\
     brk h2 = brk h + 1 /\ forall a, a < brk h -> hdr h2 a = hdr h1 a)) ->
  wp (malloc BASE sbrk (2 ^ 32 - 1)) h (fun r h' => r = brk h + 1 /\ brk h' = brk h + 1 /\ h_size (hdr h' (brk h)) = 2 ^ 28 + 1).
Proof.
  intros Hfr Hsb. pose proof (fr_place _ _ _ _ _ Hfr) as Hpl. pose proof (fr_brk _ _ _ _ _ Hfr) as Hb.
  unfold malloc. wp_step. wp_step. rewrite (fr_freep _ _ _ _ _ Hfr). cbn [Z.eqb].
  unfold set_freep. wp_step. wp_step. wp_step. wp_step. apply wp_set_ptr. intros h1 (E1 & F1 & G1 & B1). cbn in G1, B1.
  wp_step. apply wp_set_size. rewrite E1. cbn [h_ptr]. intros h2 (E2 & F2 & G2 & B2). apply wp_ret. unfold get_ptr at 1.
  wp_step. wp_step. rewrite E2. cbn [h_ptr]. wp_step. wp_step.
  replace (nunits (2 ^ 32 - 1)) with (2 ^ 28 + 1) by reflexivity.
  assert (exists k, steps BASE h2 = S (S k)) as [k ->] by (exists (Nat.pred (Nat.pred (steps BASE h2))); unfold steps; lia).
  cbn [loop]. unfold malloc_body at 1. unfold get_size at 1. wp_step. wp_step. wp_step. rewrite E2. cbn [h_size].
  case_if; [lia|]. wp_step. wp_step. rewrite G2, G1, Z.eqb_refl. wp_step. unfold morecore. case_if; [lia|].
  replace (i32 ((2 ^ 28 + 1) * HEADER)) with HEADER by reflexivity. wp_step.
  eapply wp_mono; [apply Hsb; congruence|]. intros r h3 (-> & G3 & B3 & F3).
  wp_step. apply wp_set_size. intros h4 (E4 & F4 & G4 & B4). wp_step.
  apply free_alone; [rewrite F4, F3 by lia; done|congruence|lia|rewrite B4; lia|rewrite E4; cbn; lia|].
  rewrite E4. cbn [h_size]. intros h5 E5 E5' G5 B5. wp_steps. rewrite G5. case_if; [lia|]. unfold get_ptr. wp_steps. rewrite E5. cbn [h_ptr].
  unfold malloc_body at 1. unfold get_size. wp_steps. rewrite E5'. cbn [h_size]. unfold take_units. case_if; [|lia]. rewrite Z.eqb_refl. unfold get_ptr. wp_steps.
  apply wp_set_ptr. rewrite E5, E5'. cbn [h_ptr h_size]. intros h6 (_ & F6 & _ & B6). wp_steps. cbn.
  split_and!; [done|congruence|]. rewrite F6, E5' by lia. done.
Qed.

Lemma malloc_wraps_witness : wp (malloc 256 demo_sbrk (2 ^ 32 - 1)) demo_heap
  (fun r h' => r = 513 /\ brk h' = 513 /\ h_size (hdr h' 512) = 2 ^ 28 + 1).
Proof.
  apply (malloc_wraps 256 512 demo_sbrk demo_heap [(256, 0)] demo_fresh). intros h1 Hb. unfold wp, demo_sbrk. rewrite Hb. cbn. done.
Defined.

