(* ===== verification/FsTx.v ===== *)
(** The boundaries of a transaction: what begin_op and end_op of log.c do for
    the code of fs.c in between, and the memory of the caller as the source of
    a write. *)

From S2P Require Import Prelude.
From S2P Require Import Spinlock.
From S2P Require Import Riscv.
From S2P Require Import Kalloc.
From S2P Require Import AddrSpace.
From S2P Require Import UserCopy.
From S2P Require Import UserMem.
From S2P Require Import Proc.
From S2P Require Import ProcInv.
From S2P Require Import ProcCtl.
From S2P Require Import SysSpec.
From S2P Require Import FsState.
From S2P Require Import Bio.
From S2P Require Import BioSpec.
From S2P Require Import Log.
From S2P Require Import LogSpec.
From S2P Require Import LogTheorems.
From S2P Require Import Fs.
From S2P Require Import FsOp.
From S2P Require Import FsWrite.
From S2P Require Import PipeSpec.
From S2P Require Import FsInode.

Section idle.
Context (i : nat) (pid dev : Z).
Implicit Types (k : kernel fsys) (V : Z -> block) (B : gset Z).
Abbreviation inop := (inop i pid dev).
Abbreviation here := (here i pid dev).

(** No operation is running: the log is empty, no buffer is in use, and the
    blocks in the cache are the blocks on disk. *)
Record idle (V : Z -> block) (k : kernel fsys) : Prop := {
  id_log : let l := fs_log (k_files k) in
    lg_dev l = dev /\ lh_n l = 0 /\ lg_outstanding l = 0 /\ lg_committing l = 0 /\ length (lh_block l) = 30%nat;
  id_quiet : quiet k;
  id_cache : exists A, here k A ∅ k /\ (forall b, cv A b = V b /\ cd A b = V b) /\ (forall b, refs A b = 0%nat)
}.

Lemma idle_disk V k b : idle V k -> d_block (fs_disk (k_files k)) b = V b.
Proof. intros [_ _ (A & H & Hv & _)]. rewrite (ca_disk _ _ _ _ _ (he_cache _ _ _ _ _ _ _ H)). apply Hv. Qed.

Lemma idle_host V k : idle V k -> host i pid k.
Proof. intros [_ _ (A & H & _)]. apply H. Qed.

(** A cache without references has no buffer in use. *)
Lemma caches_quiet k A : caches dev pid (k_files k) A ∅ -> (forall b, refs A b = 0%nat) -> quiet k.
Proof.
  intros C Hr. apply Forall_lookup. intros j x Hx. destruct (ca_ref _ _ _ _ _ C j x Hx) as [Hb Hd].
  destruct (decide (b_refcnt x = 0)) as [|Hne]; [done|]. destruct (Hd Hne) as [Ed _].
  assert (E : cr A !! b_blockno x = Some (Z.to_nat (b_refcnt x))).
  { apply (ca_cr _ _ _ _ _ C). split; [lia|]. exists j, x. split; [by split|lia]. }
  specialize (Hr (b_blockno x)). unfold refs in Hr. rewrite E in Hr. cbn in Hr. lia.
Qed.

(** Reading needs no transaction. *)
Lemma idle_inop V k : idle V k -> inop k V ∅ ∅ ∅ k.
Proof.
  intros [Hl Hq (A & H & Hv & Hr)]. cbn zeta in Hl. destruct Hl as (Ld & Ln & Lo & Lc & Ll). exists A, [].
  assert (T : tx dev (fs_log (k_files k)) []).
  { split; try done; try (intros b Hb; by apply not_elem_of_nil in Hb); [cbn; lia|constructor]. }
  assert (Ho : others A ∅ ≡ ∅) by (intros b; rewrite elem_others, Hr; set_solver by lia).
  split; try done; try (intros b Hb; set_solver).
  - destruct H as [h1 h2 h3 h4]. split; try done. destruct k as [? ? ? ? ? ? []]. apply woke_refl.
  - intros b. apply Hv.
  - intros b _ _. destruct (Hv b) as [-> ->]. done.
  - intros b. rewrite Hr. case_decide; lia.
  - rewrite (leibniz_equiv _ _ Ho), (union_empty_l_L ∅), size_empty. unfold NBUF. lia.
  - intros b _. rewrite Hr. lia.
Qed.

Lemma inop_idle V k0 k :
  inop k0 V ∅ ∅ ∅ k -> quiet k0 -> lg_outstanding (fs_log (k_files k0)) = 0 -> lg_committing (fs_log (k_files k0)) = 0 -> idle V k.
Proof.
  intros (A & bs & [H1 H2 H3 H4 H5 H6 H7 H8 H9 H10 H11]) Hq Ho Hc. destruct H4 as (Es & Eo & Ec & El).
  assert (bs = []) as -> by (destruct bs as [|b bs]; [done|]; destruct (H7 b); [apply elem_of_cons; by left|set_solver]).
  assert (Hr : forall b, refs A b = 0%nat).
  { intros b. specialize (H11 b Hq). rewrite (cnt_none ∅ b) in H11 by apply lookup_empty. rewrite decide_False in H11 by apply not_elem_of_nil. lia. }
  split.
  - cbn zeta. split_and!; [apply H3|apply H3|congruence|congruence|done].
  - eapply caches_quiet; [apply H1|done].
  - exists A. split; [by eapply here_now|]. split; [|done]. intros b. split; [done|]. rewrite <- H8, H2; [done|apply not_elem_of_nil|set_solver].
Qed.
End idle.

Section tx.
Context `{HLS : LinkerSyms} (swtch : M (kernel fsys) unit) (fuel : nat) (Hfuel : can_wait fuel).
Context (rw : nat -> bool -> M (kernel fsys) unit) (Hrw : driver_ok rw).
Context (i : nat) (pid dev : Z).
Implicit Types (k : kernel fsys) (V : Z -> block) (B : gset Z).
Abbreviation inop := (inop i pid dev).
Abbreviation here := (here i pid dev).
Abbreviation idle := (idle i pid dev).

(** The state in which a transaction starts. *)
Definition opened_log k : kernel fsys := relog (set_lg_outstanding 1 (fs_log (k_files k))) k.

Lemma begin_op_idle V B k (Q : unit -> kernel fsys -> Prop) :
  idle V k -> (size B + 2 <= NBUF)%nat ->
  (forall k', inop (opened_log k) V ∅ ∅ B k' -> Q tt k') -> wp (log_begin_op swtch fuel) k Q.
Proof.
  intros [Hl Hq (A & H & Hv & Hr)] HB HQ. cbn zeta in Hl. destruct Hl as (Ld & Ln & Lo & Lc & Ll).
  eapply wp_mono; [apply (begin_op_reserves swtch fuel Hfuel i pid); [apply H|done|lia|lia|rewrite Ln, Lo; done]|].
  cbn beta. intros [] k' [-> _]. apply HQ. unfold opened_log. rewrite Lo. change (0 + 1) with 1.
  set (l := set_lg_outstanding 1 (fs_log (k_files k))). exists A, [].
  assert (T : tx dev l []).
  { split; try done; try (intros b Hb; by apply not_elem_of_nil in Hb); [cbn; lia|constructor]. }
  assert (Ho : others A ∅ ≡ ∅) by (intros b; rewrite elem_others, Hr; set_solver by lia).
  split; try done.
  - cbn. rewrite relog_relog. by apply here_relog.
  - intros b. apply Hv.
  - intros b Hb. by apply not_elem_of_nil in Hb.
  - intros b _ _. destruct (Hv b) as [-> ->]. done.
  - intros b. rewrite Hr. case_decide; lia.
  - rewrite (leibniz_equiv _ _ Ho), (union_empty_l_L B). done.
  - intros b _. rewrite Hr. lia.
Qed.

(** The rest of the state, in the other direction. *)
Definition log_apart k k' : Prop := woke k k' /\ same_rest (set_fs_log (fs_log (k_files k')) (k_files k)) (k_files k').

Lemma end_op_idle V B k0 k (Q : unit -> kernel fsys -> Prop) :
  inop k0 V ∅ ∅ B k -> quiet k0 -> lg_outstanding (fs_log (k_files k0)) = 1 -> lg_committing (fs_log (k_files k0)) = 0 ->
  (forall V' k', idle V' k' -> log_apart k0 k' -> lg_start (fs_log (k_files k')) = lg_start (fs_log (k_files k0)) ->
     (forall b, off_log (lg_start (fs_log (k_files k0))) b -> V' b = V b) -> Q tt k') ->
  wp (log_end_op swtch fuel rw) k Q.
Proof.
  intros (A & bs & [H1 H2 H3 H4 H5 H6 H7 H8 H9 H10 H11]) Hq Ho Hc HQ. destruct H4 as (Es & Eo & Ec & El).
  pose proof (caches_refs _ _ _ _ _ (he_cache _ _ _ _ _ _ _ H1)) as Hok. pose proof (size_refs A ∅ Hok) as Hsz. rewrite map_size_empty in Hsz.
  assert (Hcnt : forall b, cnt ∅ b = 0%nat) by (intros b; apply cnt_none, lookup_empty).
  assert (Hot : (size (others A ∅) + 2 <= NBUF)%nat) by (pose proof (subseteq_size (others A ∅) (others A ∅ ∪ B) ltac:(set_solver)); lia).
  eapply (end_op_spec swtch fuel Hfuel rw Hrw i pid dev k A bs); [by eapply here_now|done| |congruence|congruence|].
  { split_and!; [lia| |].
    - intros b. specialize (H9 b). rewrite Hcnt in H9. case_decide; lia.
    - intros b Hb. apply H7 in Hb as [Hb%elem_others _]. rewrite Hcnt in Hb. lia. }
  intros A' k' H' Hd Hr Hag. set (l' := set_lh_n 0 _) in H'. pose proof (relog_log _ _ _ _ _ _ _ _ H') as El'.
  assert (Hr0 : forall b, refs A' b = 0%nat) by (intros b; specialize (Hr b); specialize (H11 b Hq); rewrite Hcnt in H11; lia).
  apply (HQ (cv A')).
  - split.
    + cbn zeta. rewrite El'. unfold l'. cbn. split_and!; [apply H3|done|done|congruence|done].
    + eapply caches_quiet; [apply H'|done].
    + exists A'. split; [by eapply here_now|]. split; [|done].
      intros b. split; [done|]. symmetry. apply Hag. destruct (decide (b ∈ bs)); [by left|right]. apply H8; [done|set_solver].
  - pose proof (here_join _ _ _ _ _ _ _ _ _ _ _ _ H1 H') as [_ W R _]. split; [by destruct W|]. by rewrite El'.
  - rewrite El'. exact Es.
  - intros b Hb. rewrite <- Es in Hb. destruct (Hd b Hb) as [_ ->]. apply H2.
Qed.
End tx.

(** ** The caller's memory *)

Lemma woke_kinv k k' l `{HLS : LinkerSyms} : woke k k' -> kinv k l -> kinv k' l.
Proof.
  intros [Em En _ _ _ Elen Hp] Hk.
  assert (Hf : Forall2 same_core (k_procs k) (k_procs k')).
  { apply Forall2_same_length_lookup. split; [done|]. intros j q q' Hq Hq'. destruct (Hp j q Hq) as (q2 & Hq2 & [->|(_ & Hs & ->)]); simplify_eq.
    - apply same_core_refl.
    - split; try done; cbn; rewrite ?Hs; naive_solver. }
  destruct (kinv_map k l (k_procs k') Hk Hf) as [K1 K2 K3 K4]. split; by rewrite ?Em, ?En.
Qed.

Lemma reads_split e a bs m : reads e a bs -> reads e a (take m bs) /\ reads e (a + Z.of_nat (length (take m bs))) (drop m bs).
Proof.
  intros [Hb Hr]. rewrite <- (take_drop m bs) in Hb, Hr. set (xs := take m bs) in *. set (ys := drop m bs) in *. rewrite length_app in Hb, Hr. split; split.
  - intros Hne. specialize (Hb ltac:(destruct xs; done)). lia.
  - intros j Hj. destruct (Hr j) as (fl & E & HU); [lia|]. rewrite app_nth1 in E by done. eauto.
  - intros Hne. specialize (Hb ltac:(destruct xs; [done|by destruct ys])). lia.
  - intros j Hj. destruct (Hr (length xs + j)%nat) as (fl & E & HU); [lia|]. exists fl. split; [|done].
    rewrite app_nth2, Nat.add_comm, Nat.add_sub in E by lia. rewrite <- E. f_equal. lia.
Qed.

Lemma writable_sub e a n o m : writable_word e a n -> (o + m <= n)%nat -> writable_word e (a + Z.of_nat o) m.
Proof.
  intros [Hb Hw] Hle. split; [lia|]. intros j Hj. replace (a + Z.of_nat o + Z.of_nat j) with (a + Z.of_nat (o + j)) by lia. apply Hw. lia.
Qed.

Section user.
Context `{HLS : LinkerSyms} (i : nat) (pid dev : Z) (p : proc) (ks : kernel fsys).
Context (Hcur : k_cur ks = Some i) (Hp : k_procs ks !! i = Some p) (Hlive : p_state p <> UNUSED).
Implicit Types (k : kernel fsys) (V : Z -> block) (B D : gset Z).
Abbreviation inop := (inop i pid dev).

Definition user_view k : uview := ubyte (mem (k_m k)) (p_pagetable p).

(** [k] is [ks], but for memory, files and processes woken. *)
Record ran k : Prop := {
  rn_inv : exists l, kinv k l;
  rn_woke : woke (set_k_m (k_m k) ks) k
}.

Lemma ran_proc k : ran k -> k_cur k = Some i /\ k_procs k !! i = Some p.
Proof.
  intros [_ W]. pose proof (wk_cur _ _ W) as Ec. cbn in Ec. split; [congruence|].
  destruct (wk_proc _ _ W i p Hp) as (p' & Hp' & [->|(Hne & _)]); [done|]. by cbn in Hne.
Qed.

Lemma ran_woke k k' : ran k -> woke k k' -> ran k'.
Proof.
  intros [[l Hk] W] W'. split; [exists l; by eapply woke_kinv|]. rewrite (wk_m _ _ W'). by eapply woke_trans.
Qed.

Lemma ran_files k f : ran k -> ran (set_k_files f k).
Proof. intros H. eapply ran_woke; [exact H|apply woke_files]. Qed.

Lemma ran_mem k s' l' : ran k -> kinv (set_k_m s' k) l' -> ran (set_k_m s' k).
Proof. intros [_ [W1 W2 W3 W4 W5 W6 W7]] Hk. split; [by exists l'|]. by split. Qed.

(** A change of memory in the middle of an operation. *)
Lemma inop_touch k0 V L D B k s' :
  inop k0 V L D B k -> held (set_k_m s' k) = held k ->
  inop (set_k_files (k_files k0) (set_k_m s' k)) V L D B (set_k_m s' k).
Proof.
  intros (A & bs & [H1 H2 H3 H4 H5 H6 H7 H8 H9 H10 H11]) Hh. exists A, bs. split; try done.
  destruct H1 as [[h1 h2 h3 h4] W R C]. split; try done.
  - split; try done. congruence.
  - split; try done. intros j q Hq. exists q. auto.
Qed.

Lemma inop_ran k0 V L D B k : inop k0 V L D B k -> ran k0 -> ran k.
Proof. intros (A & bs & H) Hr. destruct (he_woke _ _ _ _ _ _ _ (io_here _ _ _ _ _ _ _ _ _ _ _ H)). eapply ran_woke; [exact Hr|]. by split. Qed.

(** The bytes to write are in user memory, which may gain zeroed pages. *)
Definition user_source (bs : list Z) (src : source) k0 : Prop :=
  exists va, src = UserSrc va /\ 0 <= va < 2 ^ 64 /\ ran k0 /\ reads (user_view k0) va bs /\
    lazy_ext (p_sz p) (user_view ks) (user_view k0).

Lemma user_source_ok : source_ok i pid dev user_source.
Proof.
  split.
  { intros bs src k0 f (va & -> & Hva & Hr & Hrd & Hlz). exists va. split_and!; try done; try lia. by apply ran_files. }
  intros bs src k0 V L B k m Q (va & -> & Hva & Hr & Hrd & Hlz) Hm H HQ.
  pose proof (inop_ran _ _ _ _ _ _ H Hr) as Hrk. destruct (ran_proc k Hrk) as [Ec Ep]. destruct (rn_inv _ Hrk) as [l Hk].
  assert (Em : k_m k = k_m k0).
  { destruct H as (A & ? & H). apply (wk_m _ _ (he_woke _ _ _ _ _ _ _ (io_here _ _ _ _ _ _ _ _ _ _ _ H))). }
  assert (Hend : va + Z.of_nat m < 2 ^ 64).
  { destruct bs as [|b bs]; [cbn in Hm; lia|]. pose proof (proj1 Hrd ltac:(done)). assert (TRAPFRAME < 2 ^ 64) by (by vm_compute). cbn [length] in *. lia. }
  unfold either_copyin, either_copyin_user. apply wp_bind, wp_bind, (wp_myproc i); [done|].
  apply wp_bind, (wp_getp i p); [done|]. eapply wp_mono; [apply (proc_copyin k l i p va m); done|]. intros r k' Hc.
  pose proof Hc as (s' & l' & -> & Hst & Hlz' & _). apply wp_ret.
  destruct (reads_split _ va bs m Hrd) as [Hrd1 Hrd2]. assert (Elen : length (take m bs) = m) by (rewrite length_take; lia).
  assert (r = (0, take m bs)) as ->.
  { eapply (copyin_mapped k l i p va (take m bs)); [by rewrite Elen|lia|]. by rewrite Em. }
  apply (HQ _ (set_k_files (k_files k0) (set_k_m s' k))); [|done|].
  - exists (va + Z.of_nat m). rewrite Elen in Hrd2. rewrite Em in Hlz'. split_and!.
    + by rewrite u64_id by lia.
    + lia.
    + lia.
    + apply ran_files. eapply ran_mem; [done|apply Hst].
    + by eapply reads_lazy; [lia|..].
    + by eapply lazy_ext_trans.
  - apply inop_touch; [done|]. apply (pv_only _ _ _ _ _ _ _ Hst).
Qed.

(** The bytes read go to user memory. *)
Definition user_sink (dst0 : Z) (got : list Z) (dst : dest) k0 : Prop :=
  dst = UserDst (dst0 + Z.of_nat (length got)) /\ ran k0 /\ out_to (p_sz p) dst0 got (user_view ks) (user_view k0).

Lemma user_sink_ok dst0 all :
  0 <= dst0 -> writable_word (user_view ks) dst0 (length all) -> byte_list all -> sink_ok i pid dev all (user_sink dst0).
Proof.
  intros Hd0 Hw Hby got dst k0 V L B k bs Q (-> & Hr & Ho) Hpre H HQ.
  pose proof (inop_ran _ _ _ _ _ _ H Hr) as Hrk. destruct (ran_proc k Hrk) as [Ec Ep]. destruct (rn_inv _ Hrk) as [l Hk].
  assert (Em : k_m k = k_m k0).
  { destruct H as (A & ? & H). apply (wk_m _ _ (he_woke _ _ _ _ _ _ _ (io_here _ _ _ _ _ _ _ _ _ _ _ H))). }
  pose proof (prefix_length _ _ Hpre) as Hlen. rewrite length_app in Hlen. pose proof (proj1 Hw) as Hend. assert (TRAPFRAME < 2 ^ 64) by (by vm_compute).
  assert (Hbs : byte_list bs) by (destruct Hpre as [e ->]; apply Forall_app in Hby as [[_ Hby]%Forall_app _]; done).
  pose proof (writable_out _ _ _ _ _ _ _ Hd0 Ho Hw) as Hw'.
  unfold either_copyout, either_copyout_user. apply wp_bind, wp_bind, (wp_myproc i); [done|].
  apply wp_bind, (wp_getp i p); [done|]. eapply wp_mono; [apply (proc_copyout k l i p (dst0 + Z.of_nat (length got)) bs); try done; lia|]. intros rc k' Hc.
  pose proof Hc as (s' & l' & n & -> & Hst & _). apply wp_ret.
  destruct (copyout_mapped k l i p _ bs rc _ Hc) as [-> Ho']; [lia|rewrite Em; by apply (writable_sub _ _ (length all)); [|lia]|].
  rewrite Em in Ho'. apply (HQ _ (set_k_files (k_files k0) (set_k_m s' k))); [|done|].
  - split_and!.
    + rewrite u64_id, length_app by lia. f_equal. lia.
    + apply ran_files. eapply ran_mem; [done|apply Hst].
    + by eapply out_to_app.
  - apply inop_touch; [done|]. apply (pv_only _ _ _ _ _ _ _ Hst).
Qed.
End user.
