(* ===== verification/SysFile.v ===== *)
(** Files and the system calls on them: fileread, filewrite and filestat of
    file.c, all of sysfile.c, and sys_pipe2 of sysproc_custom.c.

    [kexec] is an argument, since sys_exec only prepares its arguments. *)

From S2P Require Import Prelude.
From S2P Require Import Memory.
From S2P Require Import Spinlock.
From S2P Require Import Riscv.
From S2P Require Import Kalloc.
From S2P Require Import PageTable.
From S2P Require Import UserMem.
From S2P Require Import Proc.
From S2P Require Import Syscall.
From S2P Require Import FsState.
From S2P Require Import Bio.
From S2P Require Import Log.
From S2P Require Import Pipe.
From S2P Require Import Console.
From S2P Require Import Fs.

(** [param.h], [file.h] and [fcntl.h]. *)
Definition MAXPATH : nat := 128.
Definition MAXARG : nat := 32.
Definition CONSOLE : Z := 1.
Definition O_RDONLY : Z := 0x000.
Definition O_WRONLY : Z := 0x001.
Definition O_RDWR : Z := 0x002.
Definition O_CREATE : Z := 0x200.
Definition O_TRUNC : Z := 0x400.

(** [struct stat] in memory; [pad] is what the four bytes between its fields
    hold. *)
Definition stat_bytes (pad : list Z) (st : stat) : list Z :=
  bytes32 (st_dev st) ++ bytes32 (st_ino st) ++ [u8 (st_type st); u8 (st_type st / 256); u8 (st_nlink st); u8 (st_nlink st / 256)] ++
  pad ++ bytes32 (st_size st) ++ bytes32 (st_size st / 2 ^ 32).

(** A C string in an array: up to the NUL. *)
Fixpoint c_string (bs : list Z) : list Z :=
  match bs with [] => [] | b :: bs' => if b =? 0 then [] else b :: c_string bs' end.

Definition flag (v mask : Z) : bool := negb (Z.land v mask =? 0).
Definition set_f_off x f := File (f_type f) (f_ref f) (f_readable f) (f_writable f) (f_pipe f) (f_ip f) x (f_major f).

Section code.
Context `{LinkerSyms} (swtch : M (kernel fsys) unit) (fuel : nat).
Context (virtio_disk_rw : nat -> bool -> M (kernel fsys) unit).
Abbreviation K := (M (kernel fsys)).
Abbreviation begin_op := (log_begin_op swtch fuel).
Abbreviation end_op := (log_end_op swtch fuel virtio_disk_rw).
Abbreviation iput := (inode_put swtch fuel virtio_disk_rw).
Abbreviation fileclose := (file_close swtch fuel virtio_disk_rw iput).
Abbreviation ilock := (ilock swtch fuel virtio_disk_rw).
Abbreviation iunlockput := (iunlockput swtch fuel virtio_disk_rw).
Abbreviation iupdate := (iupdate swtch fuel virtio_disk_rw).
Abbreviation readi := (readi swtch fuel virtio_disk_rw).
Abbreviation writei := (writei swtch fuel virtio_disk_rw).
Abbreviation namei := (namei swtch fuel virtio_disk_rw).
Abbreviation nameiparent := (nameiparent swtch fuel virtio_disk_rw).
Abbreviation dirlookup := (dirlookup swtch fuel virtio_disk_rw).
Abbreviation dirlink := (dirlink swtch fuel virtio_disk_rw).

(** ** file.c *)

Definition filestat (pad : list Z) (f addr : Z) : K Z :=
  p <- myproc ;;
  x <- getf f ;;
  match f_type x with
  | FD_INODE | FD_DEVICE =>
      ilock (f_ip x) >>>
      st <- stati (f_ip x) ;;
      iunlock (f_ip x) >>>
      q <- getp p ;;
      rc <- on_m (copyout (pview q) (p_pagetable q) addr (stat_bytes pad st)) ;;
      ret (if rc <? 0 then -1 else 0)
  | _ => ret (-1)
  end.

(** [devsw], as consoleinit leaves it. *)
Definition devsw_read (major : Z) : option (Z -> Z -> K Z) := if major =? CONSOLE then Some (consoleread swtch fuel) else None.
Definition devsw_write (major : Z) : option (Z -> Z -> K Z) := if major =? CONSOLE then Some (consolewrite swtch fuel) else None.

Definition fileread_device (x : file) (addr n : Z) : K Z :=
  if (f_major x <? 0) || (NDEV <=? f_major x) then ret (-1)
  else match devsw_read (f_major x) with None => ret (-1) | Some read => read addr n end.

Definition fileread_inode (f : Z) (x : file) (addr n : Z) : K Z :=
  ilock (f_ip x) >>>
  y <- getf f ;;
  r <- readi (f_ip y) (UserDst addr) (f_off y) (u32 n) ;;
  let r := fst r in
  (if 0 <? r then setf f (fun y => set_f_off (u32 (f_off y + r)) y) else ret tt) >>>
  iunlock (f_ip x) >>>
  ret r.

Definition fileread (f addr n : Z) : K Z :=
  x <- getf f ;;
  if f_readable x =? 0 then ret (-1)
  else
    match f_type x with
    | FD_PIPE => piperead swtch fuel (f_pipe x) addr n
    | FD_DEVICE => fileread_device x addr n
    | FD_INODE => fileread_inode f x addr n
    | FD_NONE => panic "fileread"
    end.

Definition filewrite_device (x : file) (addr n : Z) : K Z :=
  if (f_major x <? 0) || (NDEV <=? f_major x) then ret (-1)
  else match devsw_write (f_major x) with None => ret (-1) | Some write => write addr n end.

(** The largest write of one transaction. *)
Definition max_write : Z := (MAXOPBLOCKS - 1 - 1 - 2) / 2 * Z.of_nat BSIZE.

Definition filewrite_inode (f : Z) (x : file) (addr n : Z) : K Z :=
  i <- loop (S (Z.to_nat n)) (fun i =>
    if i <? n then
      let n1 := n - i in
      let n1 := if max_write <? n1 then max_write else n1 in
      begin_op >>>
      ilock (f_ip x) >>>
      y <- getf f ;;
      r <- writei (f_ip y) (UserSrc (u64 (addr + i))) (f_off y) n1 ;;
      (if 0 <? r then setf f (fun y => set_f_off (u32 (f_off y + r)) y) else ret tt) >>>
      iunlock (f_ip x) >>>
      end_op >>>
      if negb (r =? n1) then ret (inr i) else ret (inl (i + r))
    else ret (inr i)) 0 ;;
  ret (if i =? n then n else -1).

Definition filewrite (f addr n : Z) : K Z :=
  x <- getf f ;;
  if f_writable x =? 0 then ret (-1)
  else
    match f_type x with
    | FD_PIPE => pipewrite swtch fuel (f_pipe x) addr n
    | FD_DEVICE => filewrite_device x addr n
    | FD_INODE => filewrite_inode f x addr n
    | FD_NONE => panic "filewrite"
    end.

(** ** sysfile.c *)

(** The descriptor and the file, or [None]. *)
Definition argfd (n : Z) : K (option (Z * Z)) :=
  fd <- argint n ;;
  if (fd <? 0) || (Z.of_nat NOFILE <=? fd) then ret None
  else
    i <- myproc ;;
    p <- getp i ;;
    match p_ofile p !! Z.to_nat fd with
    | None => crash
    | Some f => ret (if f =? 0 then None else Some (fd, f))
    end.

(** [p->ofile[fd] = f]. *)
Definition set_fd (i : nat) (fd f : Z) : K unit := setp i (fun p => set_ofile (<[Z.to_nat fd := f]> (p_ofile p)) p).

Definition fdalloc (f : Z) : K Z :=
  i <- myproc ;;
  loop (S NOFILE) (fun fd =>
    if fd <? Z.of_nat NOFILE then
      p <- getp i ;;
      match p_ofile p !! Z.to_nat fd with
      | None => crash
      | Some g => if g =? 0 then set_fd i fd f >>> ret (inr fd) else ret (inl (fd + 1))
      end
    else ret (inr (-1))) 0.

Definition sys_dup : K Z :=
  a <- argfd 0 ;;
  match a with
  | None => ret (u64 (-1))
  | Some (_, f) =>
      fd <- fdalloc f ;;
      if fd <? 0 then ret (u64 (-1))
      else file_dup f >>> ret fd
  end.

Definition sys_read : K Z :=
  p <- argaddr 1 ;;
  n <- argint 2 ;;
  a <- argfd 0 ;;
  match a with
  | None => ret (u64 (-1))
  | Some (_, f) => r <- fileread f p n ;; ret (u64 r)
  end.

Definition sys_write : K Z :=
  p <- argaddr 1 ;;
  n <- argint 2 ;;
  a <- argfd 0 ;;
  match a with
  | None => ret (u64 (-1))
  | Some (_, f) => r <- filewrite f p n ;; ret (u64 r)
  end.

Definition sys_close : K Z :=
  a <- argfd 0 ;;
  match a with
  | None => ret (u64 (-1))
  | Some (fd, f) =>
      i <- myproc ;;
      set_fd i fd 0 >>>
      fileclose f >>>
      ret 0
  end.

Definition sys_fstat (pad : list Z) : K Z :=
  st <- argaddr 1 ;;
  a <- argfd 0 ;;
  match a with
  | None => ret (u64 (-1))
  | Some (_, f) => r <- filestat pad f st ;; ret (u64 r)
  end.

(** [argstr] of a path: [None] if it fails. *)
Definition argpath (n : Z) : K (option (list Z)) :=
  r <- argstr n MAXPATH ;;
  ret (if fst r <? 0 then None else Some (c_string (snd r))).

(** The array [name] before nameiparent fills it. *)
Definition NAME : list Z := replicate DIRSIZ 0.

(** [bad:] of [sys_link]. *)
Definition link_bad (ip : Z) : K Z :=
  ilock ip >>>
  seti ip (fun x => set_i_nlink (i16 (i_nlink x - 1)) x) >>>
  iupdate ip >>>
  iunlockput ip >>>
  end_op >>>
  ret (u64 (-1)).

Definition sys_link : K Z :=
  old <- argpath 0 ;;
  match old with
  | None => ret (u64 (-1))
  | Some old =>
      new <- argpath 1 ;;
      match new with
      | None => ret (u64 (-1))
      | Some new =>
          begin_op >>>
          ip <- namei old ;;
          if ip =? 0 then end_op >>> ret (u64 (-1))
          else
            ilock ip >>>
            x <- geti ip ;;
            if i_type x =? T_DIR then iunlockput ip >>> end_op >>> ret (u64 (-1))
            else
              seti ip (fun x => set_i_nlink (i16 (i_nlink x + 1)) x) >>>
              iupdate ip >>>
              iunlock ip >>>
              dn <- nameiparent new NAME ;;
              let '(dp, name) := dn in
              if dp =? 0 then link_bad ip
              else
                ilock dp >>>
                d <- geti dp ;;
                x <- geti ip ;;
                r <- (if negb (i_dev d =? i_dev x) then ret (-1) else dirlink dp name (i_inum x)) ;;
                if r <? 0 then iunlockput dp >>> link_bad ip
                else iunlockput dp >>> iput ip >>> end_op >>> ret 0
      end
  end.

Definition isdirempty (dp : Z) : K bool :=
  x <- geti dp ;;
  loop (S (Z.to_nat (i_size x))) (fun off =>
    x <- geti dp ;;
    if u32 off <? i_size x then
      r <- read_dirent swtch fuel virtio_disk_rw dp off ;;
      match r with
      | None => panic "isdirempty: readi"
      | Some de => if negb (de_inum de =? 0) then ret (inr false) else ret (inl (i32 (off + Z.of_nat DIRENT)))
      end
    else ret (inr true)) (2 * Z.of_nat DIRENT).

(** [bad:] of [sys_unlink]. *)
Definition unlink_bad (dp : Z) : K Z := iunlockput dp >>> end_op >>> ret (u64 (-1)).

Definition DOT : list Z := [46].
Definition DOTDOT : list Z := [46; 46].

Definition sys_unlink : K Z :=
  path <- argpath 0 ;;
  match path with
  | None => ret (u64 (-1))
  | Some path =>
      begin_op >>>
      dn <- nameiparent path NAME ;;
      let '(dp, name) := dn in
      if dp =? 0 then end_op >>> ret (u64 (-1))
      else
        ilock dp >>>
        if (namecmp name DOT =? 0) || (namecmp name DOTDOT =? 0) then unlink_bad dp
        else
          r <- dirlookup dp name ;;
          match r with
          | None => unlink_bad dp
          | Some (ip, off) =>
              ilock ip >>>
              x <- geti ip ;;
              if i_nlink x <? 1 then panic "unlink: nlink < 1"
              else
                full <- (if i_type x =? T_DIR then e <- isdirempty ip ;; ret (negb e) else ret false) ;;
                if (full : bool) then iunlockput ip >>> unlink_bad dp
                else
                  n <- writei dp (LocalSrc (replicate DIRENT 0)) off (Z.of_nat DIRENT) ;;
                  if negb (n =? Z.of_nat DIRENT) then panic "unlink: writei"
                  else
                    x <- geti ip ;;
                    (if i_type x =? T_DIR
                     then seti dp (fun d => set_i_nlink (i16 (i_nlink d - 1)) d) >>> iupdate dp
                     else ret tt) >>>
                    iunlockput dp >>>
                    seti ip (fun x => set_i_nlink (i16 (i_nlink x - 1)) x) >>>
                    iupdate ip >>>
                    iunlockput ip >>>
                    end_op >>>
                    ret 0
          end
  end.

(** [fail:] of [create]. *)
Definition create_fail (ip dp : Z) : K Z :=
  seti ip (set_i_nlink 0) >>>
  iupdate ip >>>
  iunlockput ip >>>
  iunlockput dp >>>
  ret 0.

Definition create (path : list Z) (type major minor : Z) : K Z :=
  dn <- nameiparent path NAME ;;
  let '(dp, name) := dn in
  if dp =? 0 then ret 0
  else
    ilock dp >>>
    r <- dirlookup dp name ;;
    match r with
    | Some (ip, _) =>
        iunlockput dp >>>
        ilock ip >>>
        x <- geti ip ;;
        if (type =? T_FILE) && ((i_type x =? T_FILE) || (i_type x =? T_DEVICE)) then ret ip
        else iunlockput ip >>> ret 0
    | None =>
        d <- geti dp ;;
        ip <- ialloc swtch fuel virtio_disk_rw (i_dev d) type ;;
        if ip =? 0 then iunlockput dp >>> ret 0
        else
          ilock ip >>>
          seti ip (fun x => Inode (i_dev x) (i_inum x) (i_ref x) (i_valid x) (i_type x) major minor 1 (i_size x) (i_addrs x)) >>>
          iupdate ip >>>
          x <- geti ip ;;
          d <- geti dp ;;
          dots <- (if type =? T_DIR then
                     r <- dirlink ip DOT (i_inum x) ;;
                     if r <? 0 then ret false
                     else r <- dirlink ip DOTDOT (i_inum d) ;; ret (negb (r <? 0))
                   else ret true) ;;
          if negb dots then create_fail ip dp
          else
            r <- dirlink dp name (i_inum x) ;;
            if r <? 0 then create_fail ip dp
            else
              (if type =? T_DIR
               then seti dp (fun d => set_i_nlink (i16 (i_nlink d + 1)) d) >>> iupdate dp
               else ret tt) >>>
              iunlockput dp >>>
              ret ip
    end.

(** The inode that [sys_open] opens, locked, or 0. *)
Definition open_inode (path : list Z) (omode : Z) : K Z :=
  if flag omode O_CREATE then create path T_FILE 0 0
  else
    ip <- namei path ;;
    if ip =? 0 then ret 0
    else
      ilock ip >>>
      x <- geti ip ;;
      if (i_type x =? T_DIR) && negb (omode =? O_RDONLY) then iunlockput ip >>> ret 0 else ret ip.

(** [f] after the assignments of [sys_open]. *)
Definition opened_file (omode ip : Z) (x : inode) (f : file) : file :=
  let device := i_type x =? T_DEVICE in
  File (if device then FD_DEVICE else FD_INODE) (f_ref f)
    (if flag omode O_WRONLY then 0 else 1) (if flag omode O_WRONLY || flag omode O_RDWR then 1 else 0)
    (f_pipe f) ip (if device then f_off f else 0) (if device then i_major x else f_major f).

Definition sys_open : K Z :=
  omode <- argint 1 ;;
  path <- argpath 0 ;;
  match path with
  | None => ret (u64 (-1))
  | Some path =>
      begin_op >>>
      ip <- open_inode path omode ;;
      if ip =? 0 then end_op >>> ret (u64 (-1))
      else
        x <- geti ip ;;
        if (i_type x =? T_DEVICE) && ((i_major x <? 0) || (NDEV <=? i_major x)) then
          iunlockput ip >>> end_op >>> ret (u64 (-1))
        else
          f <- filealloc ;;
          fd <- (if f =? 0 then ret (-1) else fdalloc f) ;;
          if fd <? 0 then
            (if negb (f =? 0) then fileclose f else ret tt) >>>
            iunlockput ip >>> end_op >>> ret (u64 (-1))
          else
            setf f (opened_file omode ip x) >>>
            (if flag omode O_TRUNC && (i_type x =? T_FILE) then itrunc swtch fuel virtio_disk_rw ip else ret tt) >>>
            iunlock ip >>>
            end_op >>>
            ret fd
  end.

(** [sys_mkdir] and [sys_mknod] after [create]. *)
Definition made (ip : Z) : K Z :=
  if ip =? 0 then end_op >>> ret (u64 (-1)) else iunlockput ip >>> end_op >>> ret 0.

Definition sys_mkdir : K Z :=
  begin_op >>>
  path <- argpath 0 ;;
  ip <- match path with None => ret 0 | Some path => create path T_DIR 0 0 end ;;
  made ip.

Definition sys_mknod : K Z :=
  begin_op >>>
  major <- argint 1 ;;
  minor <- argint 2 ;;
  path <- argpath 0 ;;
  ip <- match path with None => ret 0 | Some path => create path T_DEVICE (i16 major) (i16 minor) end ;;
  made ip.

Definition sys_chdir : K Z :=
  i <- myproc ;;
  begin_op >>>
  path <- argpath 0 ;;
  ip <- match path with None => ret 0 | Some path => namei path end ;;
  if ip =? 0 then end_op >>> ret (u64 (-1))
  else
    ilock ip >>>
    x <- geti ip ;;
    if negb (i_type x =? T_DIR) then iunlockput ip >>> end_op >>> ret (u64 (-1))
    else
      iunlock ip >>>
      p <- getp i ;;
      iput (p_cwd p) >>>
      end_op >>>
      setp i (set_cwd ip) >>>
      ret 0.

(** ** sys_exec *)

(** [kfree] of the pages of [argv]. *)
Fixpoint free_args (argv : list Z) : K unit :=
  match argv with
  | [] => ret tt
  | a :: argv' => if a =? 0 then ret tt else on_m (kfree a) >>> free_args argv'
  end.

(** [fetchstr] into a page: the bytes it wrote are in memory also when it
    fails. *)
Definition fetchstr_page (addr pa : Z) : K Z :=
  r <- fetchstr addr (Z.to_nat PGSIZE) ;;
  on_m (modify (fun s => set_mem (write_bytes (mem s) pa (snd r)) s)) >>>
  ret (fst r).

(** The loop over the arguments: whether it reached the null pointer, and the
    pages it has filled. *)
Definition fetch_args (uargv : Z) : K (bool * list Z) :=
  loop (S (S MAXARG)) (fun '(i, argv) =>
    if Z.of_nat MAXARG <=? i then ret (inr (false, argv))
    else
      r <- fetchaddr (u64 (uargv + 8 * i)) ;;
      let '(rc, uarg) := r in
      if rc <? 0 then ret (inr (false, argv))
      else if uarg =? 0 then ret (inr (true, argv))
      else
        pa <- on_m kalloc ;;
        if pa =? 0 then ret (inr (false, argv))
        else
          rc <- fetchstr_page uarg pa ;;
          if rc <? 0 then ret (inr (false, argv ++ [pa]))
          else ret (inl (i + 1, argv ++ [pa]))) (0, []).

Definition sys_exec (kexec : list Z -> list Z -> K Z) : K Z :=
  uargv <- argaddr 1 ;;
  path <- argpath 0 ;;
  match path with
  | None => ret (u64 (-1))
  | Some path =>
      r <- fetch_args uargv ;;
      let '(ok, argv) := r in
      if (ok : bool) then
        rc <- kexec path argv ;;
        free_args argv >>>
        ret (u64 rc)
      else free_args argv >>> ret (u64 (-1))
  end.

(** ** Pipes *)

(** [sys_pipe] after the pipe has been allocated, and the same lines of
    [sys_pipe2]. *)
Definition pipe_fds (fdarray rf wf : Z) : K Z :=
  i <- myproc ;;
  fd0 <- fdalloc rf ;;
  fd1 <- (if fd0 <? 0 then ret (-1) else fdalloc wf) ;;
  if (fd0 <? 0) || (fd1 <? 0) then
    (if 0 <=? fd0 then set_fd i fd0 0 else ret tt) >>>
    fileclose rf >>>
    fileclose wf >>>
    ret (u64 (-1))
  else
    p <- getp i ;;
    rc <- on_m (copyout (pview p) (p_pagetable p) fdarray (bytes32 fd0)) ;;
    rc <- (if rc <? 0 then ret rc else on_m (copyout (pview p) (p_pagetable p) (u64 (fdarray + 4)) (bytes32 fd1))) ;;
    if rc <? 0 then
      set_fd i fd0 0 >>>
      set_fd i fd1 0 >>>
      fileclose rf >>>
      fileclose wf >>>
      ret (u64 (-1))
    else ret 0.

Definition sys_pipe : K Z :=
  fdarray <- argaddr 0 ;;
  r <- pipealloc swtch fuel virtio_disk_rw iput ;;
  let '(rc, rf, wf) := r in
  if rc <? 0 then ret (u64 (-1)) else pipe_fds fdarray rf wf.

(** The flags are read and not used. *)
Definition sys_pipe2 : K Z :=
  fdarray <- argaddr 0 ;;
  flags <- argint 1 ;;
  r <- pipealloc swtch fuel virtio_disk_rw iput ;;
  let '(rc, rf, wf) := r in
  if rc <? 0 then ret (u64 (-1)) else pipe_fds fdarray rf wf.

(** The entries of [syscalls] for these calls. *)
Definition file_calls (kexec : list Z -> list Z -> K Z) (pad : list Z) (num : Z) : option (K Z) :=
  match num with
  | 4 => Some sys_pipe
  | 5 => Some sys_read
  | 7 => Some (sys_exec kexec)
  | 8 => Some (sys_fstat pad)
  | 9 => Some sys_chdir
  | 10 => Some sys_dup
  | 15 => Some sys_open
  | 16 => Some sys_write
  | 17 => Some sys_mknod
  | 18 => Some sys_unlink
  | 19 => Some sys_link
  | 20 => Some sys_mkdir
  | 21 => Some sys_close
  | 23 => Some sys_pipe2
  | _ => None
  end.
End code.
