(* ===== verification/FsFile.v ===== *)
(** read and write on an inode: the loops of file.c over transactions.

    [filewrite] cuts a write into transactions that fit in the log.  The
    theorems put the pieces together: what the disk holds when it returns, and
    what the process sees in its memory after [fileread]. *)

From S2P Require Import Prelude.
From S2P Require Import Spinlock.
From S2P Require Import Riscv.
From S2P Require Import Kalloc.
From S2P Require Import AddrSpace.
From S2P Require Import Uvm.
From S2P Require Import UserCopy.
From S2P Require Import UserMem.
From S2P Require Import Proc.
From S2P Require Import ProcInv.
From S2P Require Import ProcCtl.
From S2P Require Import Syscall.
From S2P Require Import SysSpec.
From S2P Require Import FsState.
From S2P Require Import Bio.
From S2P Require Import BioSpec.
From S2P Require Import Log.
From S2P Require Import LogSpec.
From S2P Require Import LogTheorems.
From S2P Require Import Pipe.
From S2P Require Import Fs.
From S2P Require Import FsOp.
From S2P Require Import FsBitmap.
From S2P Require Import FsAlloc.
From S2P Require Import FsInode.
From S2P Require Import FsGrow.
From S2P Require Import FsWrite.
From S2P Require Import FsWritei.
From S2P Require Import FsTable.
From S2P Require Import FsDir.
From S2P Require Import FsTheorems.
From S2P Require Import FsTx.
From S2P Require Import SysFile.
From S2P Require Import Boot.
From S2P Require Import Witness.
From S2P Require Import FsBoot.
From S2P Require Import PipeWitness.
From S2P Require Import FsDemo.

(** ** Disks that differ in the log only *)

Section disks.
Context (dev : Z) (sb : superblock) (start : Z) (Hly : layout sb start).
Implicit Types (V : Z -> block) (x : inode).
Abbreviation inode_ok := (inode_ok dev sb).

Definition off_log_same V V' : Prop := forall b, off_log start b -> V' b = V b.

Lemma past_log b : sb_inodestart sb <= b -> off_log start b.
Proof. intros Hb. right. destruct Hly. lia. Qed.

Lemma data_past b : nmeta sb <= b -> off_log start b.
Proof. intros Hb. apply past_log. destruct Hly. unfold nmeta, BPB, IPB, BSIZE in *. cbn in *. dlia. Qed.

Lemma log_use V V' b : off_log_same V V' -> 0 <= b < sb_size sb -> in_use sb V' b = in_use sb V b.
Proof.
  intros HV Hb. unfold in_use. rewrite HV; [done|]. apply past_log. pose proof (BBLOCK_meta sb start Hly b Hb).
  destruct Hly. unfold IPB in *. dlia.
Qed.

Lemma log_free V V' : off_log_same V V' -> free_list sb V' = free_list sb V.
Proof. intros HV. apply free_ext. intros b Hb. by apply log_use. Qed.

Lemma log_disk V V' : off_log_same V V' -> disk_ok sb V -> disk_ok sb V'.
Proof.
  intros HV Hd. split.
  - intros b Hb. rewrite HV by (by apply past_log). by apply Hd.
  - intros b Hb. pose proof (ly_data _ _ Hly). rewrite (log_use V V') by (done || lia). by apply Hd.
Qed.

Lemma log_slot V V' x s : off_log_same V V' -> inode_ok V x -> slot V' x s = slot V x s.
Proof.
  intros HV Hok. unfold slot, addr_of. destruct (s =? MAXFILE)%nat; [done|]. destruct (s <? NDIRECT)%nat; [done|].
  destruct (Z.eqb_spec (indirect x) 0) as [|Hne]; [done|]. rewrite HV; [done|]. apply data_past.
  rewrite (ind_slot V x) in Hne |- *. by apply (in_data _ _ _ _ Hok).
Qed.

Lemma log_inode V V' x : off_log_same V V' -> inode_ok V x -> inode_ok V' x.
Proof.
  intros HV Hok. split; try apply Hok.
  - intros bn Hbn. pose proof (in_size _ _ _ _ Hok). rewrite <- slot_addr, (log_slot V V'), slot_addr by (done || unfold BSIZE in *; lia). by apply Hok.
  - intros s Hs. rewrite (log_slot V V') by done. intros Hne. destruct (in_data _ _ _ _ Hok s Hs Hne) as [Hr Hu]. split; [done|].
    pose proof (nmeta_pos sb start Hly). rewrite (log_use V V') by (done || lia). done.
  - intros s s' Hs Hs'. rewrite !(log_slot V V') by done. by apply (in_inj _ _ _ _ Hok).
Qed.

Lemma log_content V V' x : off_log_same V V' -> inode_ok V x -> content V' x = content V x.
Proof.
  intros HV Hok. apply map_ext_in. intros o Ho%in_seq. pose proof (in_size _ _ _ _ Hok) as Hs. pose proof max_bytes.
  assert (Hbn : (o / BSIZE < MAXFILE)%nat) by (apply Nat.Div0.div_lt_upper_bound; lia).
  pose proof (Nat.div_mod o BSIZE ltac:(done)) as Eo. pose proof (Nat.mod_upper_bound o BSIZE ltac:(done)).
  unfold byte_at. rewrite <- !slot_addr, (log_slot V V') by done. rewrite HV; [done|]. apply data_past.
  apply (in_data _ _ _ _ Hok); [lia|]. rewrite slot_addr by done. apply (in_full _ _ _ _ Hok). lia.
Qed.

Lemma log_dinode V V' n y : off_log_same V V' -> 0 <= n < sb_ninodes sb -> disk_inode sb V' n y = disk_inode sb V n y.
Proof. intros HV Hn. unfold disk_inode. rewrite HV; [done|]. apply past_log. by apply (IBLOCK_meta sb start Hly). Qed.

(** ** A file rewritten by several transactions *)

(** The blocks of the log apart, this is what one transaction does. *)
Record rewrites V x V' x' (off : nat) (bs : list Z) : Prop := {
  re_disk : disk_ok sb V';
  re_inode : inode_ok V' x';
  re_content : content V' x' = splice (content V x) off bs;
  re_meta : x' = set_i_size (i_size x') (set_i_addrs (i_addrs x') x);
  re_block c : off_log start c -> foreign sb V x c -> c <> IBLOCK (i_inum x) sb -> V' c = V c;
  re_used c : 0 <= c < sb_size sb -> in_use sb V c = true -> in_use sb V' c = true;
  re_dinode y : bs <> [] -> in_range x -> disk_inode sb V' (i_inum x) y = with_disk x' y;
  re_other n y : 0 <= n < sb_ninodes sb -> n <> i_inum x -> disk_inode sb V' n y = disk_inode sb V n y;
  re_slot s : (s <= MAXFILE)%nat -> slot V' x' s <> 0 -> slot V' x' s = slot V x s \/ slot V' x' s ∈ free_list sb V
}.

Lemma rewrites_nil V x off : disk_ok sb V -> inode_ok V x -> rewrites V x V x off [].
Proof.
  intros Hd Hok. split; try done; [|by destruct x|by left].
  unfold splice. by rewrite app_nil_l, Nat.add_0_r, take_drop.
Qed.

Lemma splice_splice (c : list Z) off bs1 bs2 :
  (off <= length c)%nat -> splice (splice c off bs1) (off + length bs1) bs2 = splice c off (bs1 ++ bs2).
Proof.
  intros Ho. unfold splice. rewrite !length_app. assert (El : length (take off c) = off) by (rewrite length_take; lia).
  rewrite (take_app_ge (take off c)), El by lia. replace (off + length bs1 - off)%nat with (length bs1) by lia.
  rewrite take_app_length, <- !app_assoc. do 3 f_equal.
  rewrite (drop_app_ge (take off c)), El by lia. rewrite drop_app_ge, drop_drop by lia. f_equal. lia.
Qed.

Lemma rewrites_size V x V' x' off bs :
  rewrites V x V' x' off bs -> (off <= Z.to_nat (i_size x))%nat -> (off + length bs <= Z.to_nat (i_size x'))%nat.
Proof.
  intros R Ho. rewrite <- (content_length V' x'), (re_content _ _ _ _ _ _ R). unfold splice.
  rewrite !length_app, length_take, content_length, length_drop. lia.
Qed.

Lemma rewrites_foreign V x V' x' off bs c :
  rewrites V x V' x' off bs -> foreign sb V x c -> foreign sb V' x' c.
Proof.
  intros R [[Hc Hi] Hf].
  assert (Hnot : forall s, (s <= MAXFILE)%nat -> slot V' x' s <> 0 -> slot V' x' s <> c).
  { intros s Hs Hne E. destruct (re_slot _ _ _ _ _ _ R s Hs Hne) as [E'|Hin].
    - destruct (decide (s = MAXFILE)) as [->|]; [rewrite E', slot_ind in *; by apply Hi|]. apply (Hf s); [lia|congruence|congruence].
    - rewrite E in Hin. pose proof (in_data _ _ _ _ (re_inode _ _ _ _ _ _ R) s Hs Hne) as [Hr _]. rewrite E in Hr.
      apply elem_free in Hin as [_ Hin]. destruct Hc as [Hc|[_ Hu]]; [|congruence].
      pose proof (BBLOCK_meta sb start Hly 0). destruct Hly. pose proof (nmeta_pos sb start Hly). lia. }
  pose proof (nmeta_pos sb start Hly). split; [split|].
  - destruct Hc as [?|[Hr Hu]]; [by left|right]. split; [done|]. by apply (re_used _ _ _ _ _ _ R); [lia|].
  - intros Hne. rewrite (ind_slot V' x') in *. intros E. by apply (Hnot MAXFILE).
  - intros s Hs. apply Hnot. lia.
Qed.

Lemma rewrites_inum V x V' x' off bs : rewrites V x V' x' off bs -> i_inum x' = i_inum x.
Proof. intros R. by rewrite (re_meta _ _ _ _ _ _ R). Qed.

Lemma rewrites_range V x V' x' off bs : rewrites V x V' x' off bs -> in_range x -> in_range x'.
Proof.
  intros R (Hr & _). pose proof (re_inode _ _ _ _ _ _ R) as Hok. rewrite (re_meta _ _ _ _ _ _ R) in Hok |- *.
  apply (ok_in_range dev sb start Hly V'); cbn; tauto.
Qed.

(** One more transaction. *)
Lemma rewrites_step V x V1 x1 V2 x2 V3 off bs1 bs2 :
  rewrites V x V1 x1 off bs1 -> inode_ok V x -> (off <= Z.to_nat (i_size x))%nat ->
  updates_file dev sb V1 x1 V2 x2 (off + length bs1) bs2 -> off_log_same V2 V3 -> rewrites V x V3 x2 off (bs1 ++ bs2).
Proof.
  intros R Hok Ho U HV. pose proof (rewrites_inum _ _ _ _ _ _ R) as En. pose proof (in_inum _ _ _ _ Hok) as Hn.
  pose proof (uf_inode _ _ _ _ _ _ _ _ U) as Hok2. split.
  - eapply log_disk; [done|apply U].
  - by eapply log_inode.
  - rewrite (log_content V2 V3) by done. rewrite (uf_content _ _ _ _ _ _ _ _ U), (re_content _ _ _ _ _ _ R).
    apply splice_splice. by rewrite content_length.
  - rewrite (uf_meta _ _ _ _ _ _ _ _ U) at 1. rewrite (re_meta _ _ _ _ _ _ R). by destruct x.
  - intros c Hc Hf Hne. rewrite HV by done. rewrite (uf_block _ _ _ _ _ _ _ _ U); [by apply (re_block _ _ _ _ _ _ R)| |by rewrite En].
    by eapply rewrites_foreign.
  - intros c Hc Hu. rewrite (log_use V2 V3) by done. apply (uf_used _ _ _ _ _ _ _ _ U); [done|]. by apply (re_used _ _ _ _ _ _ R).
  - intros y _ Hr. rewrite (log_dinode V2 V3) by (done || lia). rewrite <- En. apply (uf_dinode _ _ _ _ _ _ _ _ U).
    by eapply rewrites_range.
  - intros n y Hrn Hne. rewrite (log_dinode V2 V3) by done. rewrite (uf_other _ _ _ _ _ _ _ _ U) by (done || by rewrite En). by apply (re_other _ _ _ _ _ _ R).
  - intros s Hs. rewrite (log_slot V2 V3) by done. intros Hne. destruct (uf_slot _ _ _ _ _ _ _ _ U s Hs Hne) as [E|Hin].
    + rewrite E in Hne |- *. by apply (re_slot _ _ _ _ _ _ R).
    + right. apply elem_free in Hin as [Hb Hu]. apply elem_free. split; [done|].
      destruct (in_use sb V (slot V2 x2 s)) eqn:Eu; [|done]. rewrite (re_used _ _ _ _ _ _ R) in Hu by done. done.
Qed.

(** Other files, as [update_apart] has it for one transaction. *)
Lemma rewrites_apart V x V' x' off bs y :
  rewrites V x V' x' off bs -> inode_ok V x -> inode_ok V y -> apart V x y -> content V' y = content V y.
Proof.
  intros R Hx Hy Ha. apply (content_same dev sb); [done|]. intros s Hs Hne.
  destruct (in_data _ _ _ _ Hy s Hs Hne) as [Hr Hu]. pose proof (in_inum _ _ _ _ Hx). pose proof (IBLOCK_meta sb start Hly (i_inum x) ltac:(lia)).
  pose proof (BBLOCK_meta sb start Hly 0). pose proof (nmeta_pos sb start Hly). pose proof (ly_data _ _ Hly).
  apply (re_block _ _ _ _ _ _ R); [apply data_past; lia| |lia]. split; [split|].
  - by right.
  - intros Hi. rewrite (ind_slot V x) in *. intros E. by apply (Ha MAXFILE s).
  - intros s' Hs' Hne' E. by apply (Ha s' s); [lia|..].
Qed.
End disks.

(** ** An open file *)

Section code.
Context `{HLS : LinkerSyms} (swtch : M (kernel fsys) unit) (fuel : nat) (Hfuel : can_wait fuel).
Context (rw : nat -> bool -> M (kernel fsys) unit) (Hrw : driver_ok rw).
Context (i : nat) (pid dev : Z) (sb : superblock) (start : Z) (Hly : layout sb start).
Implicit Types (k : kernel fsys) (V : Z -> block) (z : inode) (x : file).
Abbreviation inop := (inop i pid dev).
Abbreviation idle := (idle i pid dev).
Abbreviation inode_ok := (inode_ok dev sb).
Abbreviation based := (based sb start).

(** File [f] is an open inode, entry [j] of the table; [z] is that inode once
    it is read from disk, and nobody has locked it. *)
Record opened V k (f : Z) (j : nat) x z : Prop := {
  od_file : 1 <= f /\ fs_file (k_files k) !! Z.to_nat (f - 1) = Some x;
  od_type : f_type x = FD_INODE;
  od_ip : f_ip x = iptr j;
  od_entry : exists y, table k !! j = Some y /\ 0 < i_ref y /\ loaded sb V y = z /\ (i_valid y = 0 -> i_type (disk_inode sb V (i_inum y) y) <> 0);
  od_lock : fs_sl (k_files k) (INODE_LOCK (iptr j)) = Sleeplock 0 0;
  od_base : based k;
  od_disk : disk_ok sb V;
  od_inode : inode_ok V z
}.

(** The other files, inodes and locks. *)
Record untouched (f : Z) (j : nat) k k' : Prop := {
  un_file q : q <> Z.to_nat (f - 1) -> fs_file (k_files k') !! q = fs_file (k_files k) !! q;
  un_inode q : q <> j -> table k' !! q = table k !! q;
  un_lock id : Z.of_nat NBUF <= id -> id <> INODE_LOCK (iptr j) -> fs_sl (k_files k') id = fs_sl (k_files k) id;
  un_sb : fs_sb (k_files k') = fs_sb (k_files k);
  un_pipe : fs_pipe (k_files k') = fs_pipe (k_files k);
  un_cons : fs_cons (k_files k') = fs_cons (k_files k);
  un_uart : fs_uart (k_files k') = fs_uart (k_files k)
}.

Lemma untouched_refl f j k : untouched f j k k.
Proof. done. Qed.

Lemma untouched_trans f j k1 k2 k3 : untouched f j k1 k2 -> untouched f j k2 k3 -> untouched f j k1 k3.
Proof.
  intros [A1 A2 A3 A4 A5 A6 A7] [B1 B2 B3 B4 B5 B6 B7]. split; try congruence.
  - intros q Hq. by rewrite B1, A1.
  - intros q Hq. by rewrite B2, A2.
  - intros id Hb Hid. by rewrite B3, A3.
Qed.

Lemma untouched_file f j x k : untouched f j k (refile (<[Z.to_nat (f - 1) := x]> (fs_file (k_files k))) k).
Proof. split; try done. intros q Hq. cbn. by rewrite list_lookup_insert_ne. Qed.

Lemma untouched_inode f j y k : untouched f j k (puti j y k).
Proof. split; try done. intros q Hq. unfold puti, table. cbn. by rewrite list_lookup_insert_ne. Qed.

Lemma untouched_lock f j s k : untouched f j k (relock (INODE_LOCK (iptr j)) s k).
Proof. split; try done. intros id _ Hid. cbn. by rewrite upd_ne. Qed.

Lemma untouched_files f j k k1 k2 : k_files k2 = k_files k1 -> untouched f j k k1 -> untouched f j k k2.
Proof. intros E [A1 A2 A3 A4 A5 A6 A7]. split; unfold table in *; by rewrite E. Qed.

Lemma untouched_rest f j k k' : same_rest (set_fs_log (fs_log (k_files k')) (k_files k)) (k_files k') -> untouched f j k k'.
Proof. intros [R1 R2 R3 R4 R5 R6 R7 R8]. split; try done; unfold table; intros; by rewrite ?R1, ?R4, ?R5. Qed.

Lemma inop_untouched f j k0 V L D B k : inop k0 V L D B k -> untouched f j k0 k.
Proof.
  intros (A & bs & H). apply untouched_rest. destruct (he_rest _ _ _ _ _ _ _ (io_here _ _ _ _ _ _ _ _ _ _ _ H)). by split.
Qed.

(** Reading and changing the file's entry. *)
Lemma inop_getf k0 V L D B k f x (Q : file -> kernel fsys -> Prop) :
  inop k0 V L D B k -> 1 <= f -> fs_file (k_files k0) !! Z.to_nat (f - 1) = Some x -> Q x k -> wp (getf f) k Q.
Proof.
  intros H Hf Hx HQ. unfold wp, getf. destruct (Z.ltb_spec f 1); [lia|]. by rewrite (inop_files _ _ _ _ _ _ _ _ _ H), Hx.
Qed.

Lemma inop_setf k0 V L D B k f g x (Q : unit -> kernel fsys -> Prop) :
  inop k0 V L D B k -> 1 <= f -> fs_file (k_files k0) !! Z.to_nat (f - 1) = Some x ->
  (forall k', inop (refile (<[Z.to_nat (f - 1) := g x]> (fs_file (k_files k0))) k0) V L D B k' -> Q tt k') -> wp (setf f g) k Q.
Proof.
  intros H Hf Hx HQ. unfold setf. apply wp_bind. eapply inop_getf; [done..|]. apply wp_fmod, HQ.
  rewrite <- (inop_files _ _ _ _ _ _ _ _ _ H). by apply inop_refile.
Qed.

(** [if(r > 0) f->off += r;] *)
Lemma inop_advance k0 V L D B k f x r (Q : unit -> kernel fsys -> Prop) :
  inop k0 V L D B k -> 1 <= f -> fs_file (k_files k0) !! Z.to_nat (f - 1) = Some x -> 0 <= r -> 0 <= f_off x -> f_off x + r < 2 ^ 32 ->
  (forall k', inop (refile (<[Z.to_nat (f - 1) := set_f_off (f_off x + r) x]> (fs_file (k_files k0))) k0) V L D B k' -> Q tt k') ->
  wp (if 0 <? r then setf f (fun y => set_f_off (u32 (f_off y + r)) y) else ret tt) k Q.
Proof.
  intros H Hf Hx Hr Ho Hlt HQ. destruct (Z.ltb_spec 0 r).
  - eapply inop_setf; [done..|]. by rewrite u32_id by lia.
  - apply wp_ret, HQ. replace r with 0 by lia. replace (set_f_off (f_off x + 0) x) with x by (rewrite Z.add_0_r; by destruct x).
    rewrite list_insert_id by done. by destruct k0 as [? ? ? ? ? ? []].
Qed.

(** ** Locking it *)

Lemma loaded_meta V y : i_dev (loaded sb V y) = i_dev y /\ i_inum (loaded sb V y) = i_inum y /\ i_ref (loaded sb V y) = i_ref y /\
  i_valid (loaded sb V y) <> 0.
Proof. unfold loaded. destruct (Z.eqb_spec (i_valid y) 0); done. Qed.

Lemma opened_ref V k f j x z : opened V k f j x z -> 0 < i_ref z /\ i_valid z <> 0.
Proof. intros O. destruct (od_entry _ _ _ _ _ _ O) as (y & _ & Hr & <- & _). destruct (loaded_meta V y) as (_ & _ & -> & Hv). done. Qed.

Lemma ilock_opened V k0 f j x z B k (Q : unit -> kernel fsys -> Prop) :
  opened V k0 f j x z -> inop k0 V ∅ ∅ B k ->
  (forall k', inop (puti j z (lock_inode pid j k0)) V ∅ ∅ B k' -> Q tt k') -> wp (ilock swtch fuel rw (f_ip x)) k Q.
Proof.
  intros O H HQ. destruct (od_entry _ _ _ _ _ _ O) as (y & Hy & Hr & Ez & Ht). rewrite (od_ip _ _ _ _ _ _ O).
  pose proof (od_inode _ _ _ _ _ _ O) as Hok. destruct (loaded_meta V y) as (Ed & En & _ & _). rewrite Ez in Ed, En.
  pose proof (in_inum _ _ _ _ Hok). subst z.
  eapply (ilock_spec swtch fuel Hfuel rw Hrw i pid dev sb start); try done; [apply O|rewrite <- Ed; apply Hok|lia|].
  unfold unlocked_at. by rewrite (od_lock _ _ _ _ _ _ O).
Qed.

(** The state after the file's entry and the inode have changed. *)
Definition moved (f : Z) (j : nat) x z k0 : kernel fsys :=
  unlock_inode j (refile (<[Z.to_nat (f - 1) := x]> (fs_file (k_files k0))) (puti j z (lock_inode pid j k0))).

Lemma moved_untouched f j x z k0 : untouched f j k0 (moved f j x z k0).
Proof.
  eapply (untouched_trans _ _ _ (lock_inode pid j k0)); [apply untouched_lock|]. eapply (untouched_trans _ _ _ (puti j z (lock_inode pid j k0))); [apply untouched_inode|].
  eapply untouched_trans; [apply (untouched_file f j x)|apply untouched_lock].
Qed.

Lemma moved_opened V k0 V' kb k' f j x x' z z' :
  opened V k0 f j x z -> k_files kb = k_files (moved f j x' z' k0) ->
  same_rest (set_fs_log (fs_log (k_files k')) (k_files kb)) (k_files k') -> lg_start (fs_log (k_files k')) = lg_start (fs_log (k_files kb)) ->
  f_type x' = f_type x -> f_ip x' = f_ip x -> i_ref z' = i_ref z -> i_valid z' = i_valid z -> disk_ok sb V' -> inode_ok V' z' ->
  opened V' k' f j x' z' /\ untouched f j k0 k'.
Proof.
  intros O E R Es Et Ei Er Ev Hd Hok. destruct (opened_ref _ _ _ _ _ _ O) as [Hr Hv]. destruct (od_file _ _ _ _ _ _ O) as [Hf Hx].
  destruct (od_entry _ _ _ _ _ _ O) as (y & Hy & _). pose proof (lookup_lt_Some _ _ _ Hx). pose proof (lookup_lt_Some _ _ _ Hy).
  split.
  2:{ eapply untouched_trans; [apply (moved_untouched f j x' z')|]. eapply (untouched_trans _ _ _ kb); [by eapply untouched_files; [|apply untouched_refl]|by apply untouched_rest]. }
  destruct R as [R1 R2 R3 R4 R5 R6 R7 R8]. split; try done.
  - split; [done|]. rewrite R5. cbn. rewrite E. cbn. by rewrite list_lookup_insert_eq.
  - by rewrite Et, (od_type _ _ _ _ _ _ O).
  - by rewrite Ei, (od_ip _ _ _ _ _ _ O).
  - exists z'. unfold table. rewrite R4. cbn. rewrite E. cbn. rewrite list_lookup_insert_eq by done. split_and!; [done|lia| |congruence].
    unfold loaded. rewrite (proj2 (Z.eqb_neq _ _)) by congruence. done.
  - rewrite R1 by apply inode_lock_big. cbn. rewrite E. cbn. apply upd_eq.
  - destruct (od_base _ _ _ _ _ _ O) as [B1 B2]. split; [rewrite R3; cbn; by rewrite E|rewrite Es, E; done].
Qed.

Lemma inop_rest k0 V L D B k : inop k0 V L D B k ->
  same_rest (set_fs_log (fs_log (k_files k)) (k_files k0)) (k_files k) /\ lg_start (fs_log (k_files k)) = lg_start (fs_log (k_files k0)).
Proof. intros (A & bs & H). split; [apply (io_here _ _ _ _ _ _ _ _ _ _ _ H)|apply (io_op _ _ _ _ _ _ _ _ _ _ _ H)]. Qed.

Lemma iunlock_moved f j x z k0 kb V L D B k (Q : unit -> kernel fsys -> Prop) :
  inop (refile (<[Z.to_nat (f - 1) := x]> (fs_file (k_files k0))) kb) V L D B k -> k_files kb = k_files (puti j z (lock_inode pid j k0)) ->
  (j < length (table k0))%nat -> 0 < i_ref z ->
  (forall kb' k', k_files kb' = k_files (moved f j x z k0) -> woke kb kb' -> inop kb' V L D B k' -> Q tt k') -> wp (iunlock (iptr j)) k Q.
Proof.
  intros H E Hj Hr HQ. eapply (iunlock_spec i pid dev); [exact H| |exact Hr| |].
  - unfold table. cbn. rewrite E. cbn. by rewrite list_lookup_insert_eq.
  - cbn. rewrite E. cbn. apply upd_eq.
  - intros k' H'. eapply HQ; [| |exact H']; [cbn; by rewrite E|]. eapply woke_trans; [apply woke_files|apply woke_files].
Qed.

(** ** One transaction of a write *)

(** The blocks that writing [m] bytes may change: the inode's, the file's in
    that range, and those that may be allocated, with their bits. *)
Definition budget V z (off m : nat) : list Z :=
  let new := take (pred (spans off m + wanted z)) (free_list sb V) in
  IBLOCK (i_inum z) sb :: indirect z :: new ++ map (fun b => BBLOCK b sb) new ++ map (addr_of V z) (seq (off / BSIZE) (spans off m)).

Lemma size_list_to_set_le (xs : list Z) : (size (list_to_set xs : gset Z) <= length xs)%nat.
Proof.
  induction xs as [|b xs IH]; [by rewrite list_to_set_nil, size_empty|]. rewrite list_to_set_cons, size_union_alt, size_singleton.
  pose proof (subseteq_size (list_to_set xs ∖ {[b]} : gset Z) (list_to_set xs) ltac:(set_solver)). cbn [length]. lia.
Qed.

Lemma spans_small off m : (m <= 3 * BSIZE)%nat -> (spans off m <= 4)%nat.
Proof.
  intros Hm. unfold spans. destruct (Nat.eqb_spec m 0); [lia|]. pose proof (Nat.div_mod off BSIZE ltac:(done)) as E. pose proof (Nat.mod_upper_bound off BSIZE ltac:(done)).
  assert ((off + m - 1) / BSIZE < off / BSIZE + 4)%nat; [|lia]. apply Nat.Div0.div_lt_upper_bound. lia.
Qed.

Lemma budget_size V z off m : (m <= 3 * BSIZE)%nat -> (size (list_to_set (budget V z off m) : gset Z) + 2 <= NBUF)%nat.
Proof.
  intros Hm. pose proof (size_list_to_set_le (budget V z off m)) as Hs. pose proof (spans_small off m Hm). pose proof (wanted_pos z).
  assert (length (budget V z off m) <= 16)%nat; [|unfold NBUF; lia].
  unfold budget. cbn [length]. rewrite !length_app, !length_map, length_seq, length_take. lia.
Qed.

Lemma budget_allows V z off m :
  (pred (spans off m + wanted z) <= length (free_list sb V))%nat ->
  allows sb (list_to_set (budget V z off m)) V z (pred (spans off m + wanted z)).
Proof.
  intros Hf. split_and!; [done| |].
  - intros b Hb. unfold budget. rewrite !elem_of_list_to_set, !elem_of_cons, !elem_of_app, !list_elem_of_fmap. naive_solver.
  - intros _. apply elem_of_list_to_set. unfold budget. rewrite !elem_of_cons. auto.
Qed.

Lemma budget_covers V z off m : (0 < m)%nat -> covers (list_to_set (budget V z off m)) V z off m.
Proof.
  intros Hm bn Hbn Hlo _. apply elem_of_list_to_set. unfold budget. rewrite !elem_of_cons, !elem_of_app, !list_elem_of_fmap. do 4 right.
  exists bn. split; [done|]. apply elem_of_seq. unfold spans. rewrite (proj2 (Nat.eqb_neq _ _)) by lia.
  assert (bn <= (off + m - 1) / BSIZE)%nat; [|lia]. apply Nat.div_le_lower_bound; [done|]. lia.
Qed.

(** ** Reading *)

Section user.
Context (k : kernel fsys) (p : proc) (l : list Z).
Context (Hk : kinv k l) (Hp : k_procs k !! i = Some p) (Hlive : p_state p <> UNUSED).
Abbreviation view := (user_view p).

Lemma ran_start : ran k k.
Proof. split; [by exists l|]. destruct k. apply woke_refl. Qed.

(** The process has the bytes [bs] of the file at [addr], the offset has
    advanced, and the disk and the other files are as they were. *)
Record read_done V f j x z addr bs k' : Prop := {
  rd_mem : out_to (p_sz p) addr bs (view k) (view k');
  rd_idle : idle V k';
  rd_opened : opened V k' f j (set_f_off (f_off x + Z.of_nat (length bs)) x) z;
  rd_kept : untouched f j k k';
  rd_ran : ran k k'
}.

Lemma fileread_spec V f j x z addr n :
  idle V k -> opened V k f j x z -> f_readable x <> 0 -> 0 <= f_off x <= i_size z -> 0 <= n < 2 ^ 31 ->
  let r := Z.min n (i_size z - f_off x) in
  let bs := slice (content V z) (Z.to_nat (f_off x)) (Z.to_nat r) in
  0 <= addr -> writable_word (view k) addr (Z.to_nat r) -> byte_list (content V z) ->
  wp (fileread swtch fuel rw f addr n) k (fun r' k' => r' = Z.of_nat (length bs) /\ read_done V f j x z addr bs k').
Proof.
  intros I O Hrd Ho Hn r bs Ha Hw Hb. pose proof (idle_inop i pid dev V k I) as H. destruct (od_file _ _ _ _ _ _ O) as [Hf Hx].
  pose proof (od_inode _ _ _ _ _ _ O) as Hok. pose proof (in_size _ _ _ _ Hok) as Hs. pose proof max_bytes as Hmb.
  assert (Hlen : length bs = Z.to_nat r) by (unfold bs, slice; rewrite length_take, length_drop, content_length; lia).
  unfold fileread. apply wp_bind. eapply inop_getf; [done..|]. rewrite (proj2 (Z.eqb_neq _ _)), (od_type _ _ _ _ _ _ O) by done.
  unfold fileread_inode. apply wp_bind. eapply ilock_opened; [done..|]. intros k1 H1. apply wp_bind. eapply inop_getf; [exact H1|done|exact Hx|].
  rewrite u32_id by lia. apply wp_bind. destruct (od_entry _ _ _ _ _ _ O) as (y & Hy & _). pose proof (lookup_lt_Some _ _ _ Hy) as Hj.
  set (k0 := puti j z (lock_inode pid j k)) in *.
  eapply (readi_spec swtch fuel Hfuel rw Hrw i pid dev sb start Hly k0 V ∅ k1 (f_ip x) z (UserDst addr) (f_off x) n (user_sink p k addr)); try done; try lia.
  - fold r bs. apply user_sink_ok; try done; [apply (ho_cur _ _ _ (idle_host _ _ _ _ _ I))|by rewrite Hlen|]. unfold bs, slice. by apply Forall_take, Forall_drop.
  - rewrite (od_ip _ _ _ _ _ _ O). split; [unfold iptr; lia|]. unfold iptr. rewrite Z.add_simpl_r, Nat2Z.id. cbn. by rewrite list_lookup_insert_eq.
  - apply O.
  - split_and!; [cbn; f_equal; lia|apply ran_files, ran_files, ran_start|apply out_to_nil].
  - cbn zeta. fold r bs. intros dst' k0' k2 (-> & Hran & Hout) E H2. cbn [fst].
    apply wp_bind. eapply inop_advance; [exact H2|done|by rewrite E|lia|lia|lia|]. rewrite E. intros k3 H3. apply wp_bind.
    rewrite (od_ip _ _ _ _ _ _ O). eapply (iunlock_moved f j _ z k k0'); [exact H3|exact E|done|apply (opened_ref _ _ _ _ _ _ O)|].
    intros kb k4 Eb W H4. apply wp_ret. destruct (inop_rest _ _ _ _ _ _ H4) as [R Es].
    destruct (moved_opened V k V kb k4 f j x (set_f_off (f_off x + r) x) z z O Eb R Es) as [O' K]; try done; [apply O|].
    assert (Hran4 : ran k k4) by (eapply inop_ran; [exact H4|by eapply ran_woke]).
    assert (Em : k_m k4 = k_m k0').
    { destruct H4 as (A & ? & H4). rewrite <- (wk_m _ _ W). apply (wk_m _ _ (he_woke _ _ _ _ _ _ _ (io_here _ _ _ _ _ _ _ _ _ _ _ H4))). }
    rewrite Hlen, Z2Nat.id by lia. split; [done|]. split; try done.
    + unfold user_view in *. by rewrite Em.
    + eapply inop_idle; [exact H4|..]; [unfold quiet; rewrite Eb; apply I|rewrite Eb; apply I|rewrite Eb; apply I].
    + by rewrite Hlen, Z2Nat.id by lia.
Qed.

(** ** Writing *)

(** What a transaction of a write leaves. *)
Record write_done V k0 f j x z (off : nat) bs V' k' z' : Prop := {
  wd_idle : idle V' k';
  wd_opened : opened V' k' f j (set_f_off (Z.of_nat off + Z.of_nat (length bs)) x) z';
  wd_update : exists V1, updates_file dev sb V z V1 z' off bs /\ off_log_same start V1 V';
  wd_mem : lazy_ext (p_sz p) (view k) (view k');
  wd_kept : untouched f j k0 k';
  wd_ran : ran k k'
}.

Lemma opened_log_opened V k0 f j x z : opened V k0 f j x z -> opened V (opened_log k0) f j x z.
Proof. intros [O1 O2 O3 O4 O5 O6 O7 O8]. by split. Qed.

Lemma filewrite_round V k0 f j x z off bs va (it : Z) (Q : Z + Z -> kernel fsys -> Prop) :
  idle V k0 -> opened V k0 f j x z -> ran k k0 -> lazy_ext (p_sz p) (view k) (view k0) -> 0 <= va < 2 ^ 64 -> reads (view k) va bs ->
  f_off x = Z.of_nat off -> (off <= Z.to_nat (i_size z))%nat -> (0 < length bs <= 3 * BSIZE)%nat -> (off + length bs <= MAXFILE * BSIZE)%nat ->
  (pred (spans off (length bs) + wanted z) <= length (free_list sb V))%nat ->
  (forall V' k' z', write_done V k0 f j x z off bs V' k' z' -> Q (inl (it + Z.of_nat (length bs))) k') ->
  wp (log_begin_op swtch fuel >>>
      ilock swtch fuel rw (iptr j) >>>
      y <- getf f ;;
      r <- writei swtch fuel rw (f_ip y) (UserSrc va) (f_off y) (Z.of_nat (length bs)) ;;
      (if 0 <? r then setf f (fun y => set_f_off (u32 (f_off y + r)) y) else ret tt) >>>
      iunlock (iptr j) >>>
      log_end_op swtch fuel rw >>>
      if negb (r =? Z.of_nat (length bs)) then ret (inr it) else ret (inl (it + r))) k0 Q.
Proof.
  intros I O Hran Hlz Hva Hrd Eo Ho Hm Hmax Hfree HQ. set (B := list_to_set (budget V z off (length bs)) : gset Z).
  apply wp_bind. eapply (begin_op_idle swtch fuel Hfuel rw Hrw i pid dev V B); [done|apply budget_size; lia|]. intros k1 H1.
  pose proof (opened_log_opened _ _ _ _ _ _ O) as O1. destruct (od_file _ _ _ _ _ _ O) as [Hf Hx]. pose proof (od_ip _ _ _ _ _ _ O) as Eip.
  apply wp_bind. rewrite <- Eip. eapply ilock_opened; [exact O1|exact H1|]. intros k2 H2.
  apply wp_bind. eapply inop_getf; [exact H2|done|exact Hx|]. rewrite Eo.
  set (kl := puti j z (lock_inode pid j (opened_log k0))) in *. pose proof max_bytes as Hmb.
  destruct (od_entry _ _ _ _ _ _ O) as (y & Hy & _). pose proof (lookup_lt_Some _ _ _ Hy) as Hj.
  assert (Hent : entry kl (f_ip x) z).
  { rewrite Eip. split; [unfold iptr; lia|]. unfold iptr. rewrite Z.add_simpl_r, Nat2Z.id. cbn. by rewrite list_lookup_insert_eq. }
  apply wp_bind. eapply (writei_spec swtch fuel Hfuel rw Hrw i pid dev sb start Hly kl V B k2 (f_ip x) z (UserSrc va) off bs (user_source p k)); try done.
  - apply user_source_ok; try done. pose proof (wk_cur _ _ (rn_woke _ _ Hran)) as Ec. cbn in Ec. rewrite <- Ec. apply (ho_cur _ _ _ (idle_host _ _ _ _ _ I)).
  - apply O.
  - apply O.
  - apply O.
  - exists va. split_and!; try done; [lia|lia|do 3 apply ran_files; done|by eapply reads_lazy; [lia|..]].
  - by apply budget_allows.
  - apply budget_covers. lia.
  - apply elem_of_list_to_set, elem_of_cons. by left.
  - intros V1 z' k0' k3 U [src' (va' & _ & _ & Hran' & _ & Hlz')] E H3. pose proof (uf_meta _ _ _ _ _ _ _ _ U) as Em.
    assert (E' : k_files k0' = k_files (puti j z' (lock_inode pid j (opened_log k0)))).
    { rewrite E, Eip. unfold kl. by rewrite !puti_putx, putx_putx. }
    apply wp_bind. eapply inop_advance; [exact H3|done|by rewrite E'|lia|lia|rewrite Eo; lia|]. intros k4 H4.
    rewrite Eo, E' in H4. apply wp_bind. rewrite Eip. eapply (iunlock_moved f j _ z' (opened_log k0) k0'); [exact H4|done|done|rewrite Em; apply (opened_ref _ _ _ _ _ _ O)|].
    intros kb k5 Eb W H5. apply wp_bind. eapply (end_op_idle swtch fuel Hfuel rw Hrw i pid dev V1 B kb); [exact H5|unfold quiet; rewrite Eb; apply I|by rewrite Eb|rewrite Eb; apply I|].
    intros V' k6 I6 [W6 R6] Es HV. rewrite Z.eqb_refl. apply wp_ret, (HQ V' k6 z'). rewrite Eb in HV. replace (lg_start _) with start in HV by (symmetry; apply O).
    assert (Em6 : k_m k6 = k_m k0') by (rewrite (wk_m _ _ W6); apply W).
    destruct (moved_opened V (opened_log k0) V' kb k6 f j x (set_f_off (Z.of_nat off + Z.of_nat (length bs)) x) z z' O1 Eb R6 Es) as [O6 K]; try done; try (by rewrite Em).
    { eapply log_disk; [done|exact HV|apply U]. }
    { eapply log_inode; [done|exact HV|apply U]. }
    split; try done.
    + by exists V1.
    + unfold user_view in *. by rewrite Em6.
    + by destruct K.
    + eapply ran_woke; [|exact W6]. by eapply ran_woke.
Qed.

Lemma spans_split o m r : (0 < m)%nat -> (0 < r)%nat -> (spans o m + spans (o + m) r <= S (spans o (m + r)))%nat.
Proof.
  intros Hm Hr. unfold spans. rewrite !(proj2 (Nat.eqb_neq _ _)) by lia.
  pose proof (Nat.Div0.div_le_mono o (o + m - 1) BSIZE ltac:(lia)). pose proof (Nat.Div0.div_le_mono (o + m - 1) (o + m) BSIZE ltac:(lia)).
  pose proof (Nat.Div0.div_le_mono (o + m) (o + m + r - 1) BSIZE ltac:(lia)). replace (o + (m + r) - 1)%nat with (o + m + r - 1)%nat by lia. lia.
Qed.

(** The blocks that the rest of the write may need. *)
Definition needs z (off n : nat) : nat := (spans off n + n / (3 * BSIZE) + wanted z)%nat.

Lemma needs_step z z' off n m fl fl' :
  (needs z off n <= fl)%nat -> (0 < n)%nat -> m = Nat.min n (3 * BSIZE) -> (fl + wanted z' <= fl' + spans off m + wanted z)%nat ->
  (needs z' (off + m) (n - m) <= fl')%nat /\ (spans off m + wanted z <= fl)%nat.
Proof.
  unfold needs. intros Hf Hn Hm Hfl. destruct (decide (n <= 3 * BSIZE)%nat) as [Hle|Hgt].
  - replace m with n in * by lia. rewrite Nat.sub_diag. unfold spans at 1. cbn [Nat.eqb]. rewrite Nat.Div0.div_0_l. lia.
  - replace m with (3 * BSIZE)%nat in * by lia. pose proof (spans_split off (3 * BSIZE) (n - 3 * BSIZE) ltac:(unfold BSIZE; lia) ltac:(lia)) as Hsp.
    replace (3 * BSIZE + (n - 3 * BSIZE))%nat with n in Hsp by lia.
    assert (E : (n / (3 * BSIZE) = S ((n - 3 * BSIZE) / (3 * BSIZE)))%nat).
    { replace n with ((n - 3 * BSIZE) + 1 * (3 * BSIZE))%nat at 1 by lia. rewrite Nat.div_add by done. lia. }
    assert (0 < spans (off + 3 * BSIZE) (n - 3 * BSIZE))%nat; [|lia].
    unfold spans. rewrite (proj2 (Nat.eqb_neq _ _)) by lia. lia.
Qed.

(** The state of the loop after [t] bytes. *)
Record write_at V f j x z (off : nat) bs (t : nat) k' V' z' : Prop := {
  wa_idle : idle V' k';
  wa_opened : opened V' k' f j (set_f_off (Z.of_nat off + Z.of_nat t) x) z';
  wa_disk : rewrites dev sb start V z V' z' off (take t bs);
  wa_mem : lazy_ext (p_sz p) (view k) (view k');
  wa_kept : untouched f j k k';
  wa_ran : ran k k';
  wa_needs : (needs z' (off + t) (length bs - t) <= length (free_list sb V'))%nat
}.

Lemma write_at_next V f j x z off bs t V1 k1 z1 m V' k' z' :
  opened V k f j x z -> (off <= Z.to_nat (i_size z))%nat -> write_at V f j x z off bs t k1 V1 z1 -> (t < length bs)%nat ->
  m = Nat.min (length bs - t) (3 * BSIZE) ->
  write_done V1 k1 f j (set_f_off (Z.of_nat off + Z.of_nat t) x) z1 (off + t) (take m (drop t bs)) V' k' z' ->
  write_at V f j x z off bs (t + m) k' V' z'.
Proof.
  intros O Ho [A1 A2 A3 A4 A5 A6 A7] Ht Em [D1 D2 (V2 & U & HV) D4 D5 D6].
  assert (El : length (take m (drop t bs)) = m) by (rewrite length_take, length_drop; lia).
  assert (Et : length (take t bs) = t) by (rewrite length_take; lia). split; try done.
  - replace (Z.of_nat off + Z.of_nat (t + m)) with (Z.of_nat (off + t) + Z.of_nat (length (take m (drop t bs)))) by (rewrite El; lia). by destruct x.
  - replace (take (t + m) bs) with (take t bs ++ take m (drop t bs)) by apply take_take_drop.
    eapply (rewrites_step dev sb start Hly V z V1 z1); [done|apply O|done| |exact HV]. by rewrite Et.
  - by eapply untouched_trans.
  - pose proof (uf_free _ _ _ _ _ _ _ _ U) as Hfl. rewrite El, <- (log_free sb start Hly V2 V' HV) in Hfl.
    replace (off + (t + m))%nat with (off + t + m)%nat by lia. replace (length bs - (t + m))%nat with (length bs - t - m)%nat by lia.
    by eapply (needs_step z1 z'); [exact A7|lia|..].
Qed.

(** The bytes of the buffer are on the disk: the file's contents are the old
    ones with these bytes at the offset, no block outside the file and the log
    has changed, no other inode and no other file has, and the offset has
    advanced. *)
Record wrote_all V f j x z bs k' V' z' : Prop := {
  al_idle : idle V' k';
  al_disk b : d_block (fs_disk (k_files k')) b = V' b;
  al_file : rewrites dev sb start V z V' z' (Z.to_nat (f_off x)) bs;
  al_apart y : inode_ok V y -> apart V z y -> content V' y = content V y;
  al_opened : opened V' k' f j (set_f_off (f_off x + Z.of_nat (length bs)) x) z';
  al_mem : lazy_ext (p_sz p) (view k) (view k');
  al_kept : untouched f j k k';
  al_ran : ran k k'
}.

Lemma filewrite_spec V f j x z addr bs :
  idle V k -> opened V k f j x z -> f_writable x <> 0 -> 0 <= f_off x <= i_size z ->
  let off := Z.to_nat (f_off x) in
  (off + length bs <= MAXFILE * BSIZE)%nat -> (needs z off (length bs) <= length (free_list sb V))%nat ->
  0 <= addr < 2 ^ 64 -> reads (view k) addr bs ->
  wp (filewrite swtch fuel rw f addr (Z.of_nat (length bs))) k (fun r k' =>
    r = Z.of_nat (length bs) /\ exists V' z', wrote_all V f j x z bs k' V' z').
Proof.
  intros I O Hwr Ho off Hmax Hneed Ha Hrd. pose proof (od_inode _ _ _ _ _ _ O) as Hz. destruct (od_file _ _ _ _ _ _ O) as [Hf Hx]. pose proof max_bytes as Hmb.
  unfold filewrite. apply wp_bind. eapply (inop_getf k V ∅ ∅ ∅); [by apply idle_inop|done|exact Hx|].
  rewrite (proj2 (Z.eqb_neq _ _)), (od_type _ _ _ _ _ _ O) by done.
  assert (Haddr : forall t, (t < length bs)%nat -> addr + Z.of_nat t < 2 ^ 64).
  { intros t Ht. destruct bs as [|b bs]; [cbn in Ht; lia|]. pose proof (proj1 Hrd ltac:(done)). assert (TRAPFRAME < 2 ^ 64) by (by vm_compute). lia. }
  assert (Eoff : f_off x = Z.of_nat off) by lia. set (n := Z.of_nat (length bs)).
  unfold filewrite_inode. apply wp_bind. rewrite (od_ip _ _ _ _ _ _ O).
  apply (wp_loop_st (fun it k' => exists t V' z', it = Z.of_nat t /\ (t <= length bs)%nat /\ write_at V f j x z off bs t k' V' z')
    (fun it _ => Z.to_nat (n - it))); [|exists 0%nat, V, z; split_and!; [done|lia|]|lia].
  - intros it k1 (t & V1 & z1 & -> & Ht & A). destruct (Z.ltb_spec (Z.of_nat t) n) as [Hlt|Hge].
    2:{ apply wp_ret. assert (t = length bs) as -> by (unfold n in *; lia). apply wp_ret. rewrite Z.eqb_refl. split; [done|].
        destruct A as [A1 A2 A3 A4 A5 A6 A7]. rewrite take_ge in A3 by lia. exists V1, z1. split; try done.
        - intros b. by eapply idle_disk.
        - intros y Hy Hap. by eapply (rewrites_apart dev sb start Hly V z).
        - by rewrite Eoff. }
    set (m := Nat.min (length bs - t) (3 * BSIZE)). set (ch := take m (drop t bs)).
    assert (El : length ch = m) by (unfold ch; rewrite length_take, length_drop; lia).
    assert (Em : (if max_write <? n - Z.of_nat t then max_write else n - Z.of_nat t) = Z.of_nat (length ch)).
    { rewrite El. unfold m, n. change max_write with 3072. destruct (Z.ltb_spec 3072 (Z.of_nat (length bs) - Z.of_nat t)); unfold BSIZE; lia. }
    cbn zeta. rewrite Em. assert (Hm : (0 < m)%nat) by (unfold m, n, BSIZE in *; lia).
    rewrite u64_id by (split; [lia|apply Haddr; unfold n in *; lia]).
    destruct (needs_step z1 z1 (off + t) (length bs - t) m (length (free_list sb V1)) (length (free_list sb V1) + spans (off + t) m + 0) (wa_needs _ _ _ _ _ _ _ _ _ _ _ A)) as [_ Hfr]; [unfold n in *; lia|done|lia|].
    eapply (filewrite_round V1 k1 f j (set_f_off (Z.of_nat off + Z.of_nat t) x) z1 (off + t) ch (addr + Z.of_nat t)); try apply A; try lia.
    + split; [lia|]. apply Haddr. unfold n in *. lia.
    + destruct (reads_split _ addr bs t Hrd) as [_ Hr2]. rewrite length_take, Nat.min_l in Hr2 by lia. by apply (reads_split _ _ (drop t bs) m).
    + cbn. lia.
    + pose proof (rewrites_size _ _ _ _ _ _ _ _ _ (wa_disk _ _ _ _ _ _ _ _ _ _ _ A) ltac:(lia)) as Hsz. rewrite length_take in Hsz. lia.
    + rewrite El. lia.
    + intros V' k' z' D. rewrite El. split; [|unfold n in *; lia]. exists (t + m)%nat, V', z'. split_and!; [lia|lia|].
      eapply write_at_next; [exact O|lia|exact A|unfold n in *; lia|done|exact D].
  - split; try done; rewrite ?take_0, ?Nat.add_0_r, ?Nat.sub_0_r; try done.
    + replace (set_f_off (Z.of_nat off + Z.of_nat 0) x) with x; [done|]. rewrite Z.add_0_r, <- Eoff. by destruct x.
    + apply rewrites_nil; apply O.
    + by apply lazy_ext_eq.
    + apply ran_start.
Qed.

(** ** The system calls *)

(** Descriptor [fd] of the process is file [f]. *)
Definition descriptor (fd f : Z) : Prop := 0 <= fd < Z.of_nat NOFILE /\ p_ofile p !! Z.to_nat fd = Some f /\ f <> 0.

Lemma argfd_spec n fd f (Q : option (Z * Z) -> kernel fsys -> Prop) :
  k_cur k = Some i -> 0 <= n < 6 -> i32 (arg k p n) = fd -> descriptor fd f -> Q (Some (fd, f)) k -> wp (argfd n) k Q.
Proof.
  intros Hc Hn Efd (Hfd & Hof & Hf) HQ. unfold argfd. apply wp_bind, (argint_spec k i p); [done..|]. rewrite Efd.
  destruct (Z.ltb_spec fd 0); [lia|]. destruct (Z.leb_spec (Z.of_nat NOFILE) fd); [lia|]. cbn [orb].
  apply wp_bind, (wp_myproc i); [done|]. apply wp_bind, (wp_getp i p); [done|]. rewrite Hof, (proj2 (Z.eqb_neq _ _)) by done. by apply wp_ret.
Qed.

(** C2. The write system call on a file is durable.  When no other operation is
    running, and the disk has room, [sys_write] writes all of the caller's
    buffer, returns its length, and when it returns the bytes are on the disk
    at the file's offset ([wrote_all]): the file is as before around them,
    every other file is as before, and the caller's memory has changed only by
    zeroed pages.  The buffer may be longer than a transaction allows: the
    loop of [filewrite] cuts it so that each piece fits in the log. *)
Theorem sys_write_durable V fd f j x z bs :
  let addr := arg k p 1 in
  idle V k -> opened V k f j x z -> f_writable x <> 0 -> 0 <= f_off x <= i_size z ->
  i32 (arg k p 0) = fd -> descriptor fd f -> i32 (arg k p 2) = Z.of_nat (length bs) ->
  (Z.to_nat (f_off x) + length bs <= MAXFILE * BSIZE)%nat -> (needs z (Z.to_nat (f_off x)) (length bs) <= length (free_list sb V))%nat ->
  0 <= addr < 2 ^ 64 -> reads (view k) addr bs ->
  wp (sys_write swtch fuel rw) k (fun r k' => r = Z.of_nat (length bs) /\ exists V' z', wrote_all V f j x z bs k' V' z').
Proof.
  intros addr I O Hw Ho Efd Hd En Hmax Hneed Ha Hrd. pose proof (ho_cur _ _ _ (idle_host _ _ _ _ _ I)) as Hc. pose proof max_bytes.
  unfold sys_write. apply wp_bind, (argaddr_spec k i p); [done..|]. apply wp_bind, (argint_spec k i p); [done..|].
  apply wp_bind, (argfd_spec 0 fd f); [done..|]. apply wp_bind. rewrite En.
  eapply wp_mono; [by eapply (filewrite_spec V f j x z addr bs)|]. cbn beta. intros r k' [-> HW]. apply wp_ret. split; [|done].
  rewrite u64_id by lia. done.
Qed.

(** The read system call gives the caller the bytes of the file at its
    offset: as many as it asks for or as the file has, in the caller's buffer
    ([read_done]), and it returns their number. *)
Theorem sys_read_reads V fd f j x z n :
  let addr := arg k p 1 in
  let r := Z.min n (i_size z - f_off x) in
  let bs := slice (content V z) (Z.to_nat (f_off x)) (Z.to_nat r) in
  idle V k -> opened V k f j x z -> f_readable x <> 0 -> 0 <= f_off x <= i_size z ->
  i32 (arg k p 0) = fd -> descriptor fd f -> i32 (arg k p 2) = n -> 0 <= n ->
  0 <= addr -> writable_word (view k) addr (Z.to_nat r) -> byte_list (content V z) ->
  wp (sys_read swtch fuel rw) k (fun r' k' => r' = Z.of_nat (length bs) /\ read_done V f j x z addr bs k').
Proof.
  intros addr r bs I O Hw Ho Efd Hd En Hn Ha Hwr Hb. pose proof (ho_cur _ _ _ (idle_host _ _ _ _ _ I)) as Hc.
  pose proof (i32_range (arg k p 2)) as Hr. rewrite En in Hr.
  unfold sys_read. apply wp_bind, (argaddr_spec k i p); [done..|]. apply wp_bind, (argint_spec k i p); [done..|].
  apply wp_bind, (argfd_spec 0 fd f); [done..|]. apply wp_bind. rewrite En.
  eapply wp_mono; [by apply (fileread_spec V f j x z addr n); try done; lia|]. cbn beta. fold r bs. intros r' k' [-> HW]. apply wp_ret. split; [|done].
  apply u64_id. unfold bs, slice. rewrite length_take. lia.
Qed.
End user.

(** ** Reading back *)

Lemma opened_other V k V' k' f g j x xg z0 z' :
  opened V k g j xg z0 -> opened V' k' f j x z' -> untouched f j k k' -> f <> g -> f_ip xg = iptr j -> opened V' k' g j xg z'.
Proof.
  intros G O K Hne Hip. destruct (od_file _ _ _ _ _ _ G) as [Hg Hx], (od_file _ _ _ _ _ _ O) as [Hf _].
  split; try apply O; try apply G. split; [done|]. rewrite (un_file _ _ _ _ K) by lia. done.
Qed.

Lemma splice_bytes (c : list Z) off bs : byte_list c -> byte_list bs -> byte_list (splice c off bs).
Proof. intros Hc Hb. apply Forall_app. split; [by apply Forall_take|]. apply Forall_app. split; [done|by apply Forall_drop]. Qed.

(** C19. Reading after writing.  Two files open on one inode are at the same
    offset.  What is written through one is what is read through the other,
    byte for byte, into another part of the caller's memory. *)
Theorem write_read_back k p l V f g j x xg z addr dst bs :
  kinv k l -> k_procs k !! i = Some p -> p_state p <> UNUSED ->
  idle V k -> opened V k f j x z -> opened V k g j xg z -> f <> g -> f_writable x <> 0 -> f_readable xg <> 0 ->
  0 <= f_off x <= i_size z -> f_off xg = f_off x ->
  (Z.to_nat (f_off x) + length bs <= MAXFILE * BSIZE)%nat -> (needs z (Z.to_nat (f_off x)) (length bs) <= length (free_list sb V))%nat ->
  0 <= addr < 2 ^ 64 -> reads (user_view p k) addr bs -> byte_list bs -> byte_list (content V z) ->
  0 <= dst -> writable_word (user_view p k) dst (length bs) ->
  let n := Z.of_nat (length bs) in
  wp (r1 <- filewrite swtch fuel rw f addr n ;; r2 <- fileread swtch fuel rw g dst n ;; ret (r1, r2)) k (fun r k' =>
    r = (n, n) /\ out_to (p_sz p) dst bs (user_view p k) (user_view p k') /\ exists V', idle V' k').
Proof.
  intros Hk Hp Hlive I O G Hne Hwr Hrd Ho Eo Hmax Hneed Ha Hreads Hbs Hc Hd Hw n. pose proof (od_inode _ _ _ _ _ _ O) as Hok. pose proof max_bytes.
  apply wp_bind. eapply wp_mono; [by eapply (filewrite_spec k p l Hk Hp Hlive V f j x z addr bs)|]. cbn beta. intros r k1 [-> (V' & z' & W)].
  pose proof (ho_cur _ _ _ (idle_host _ _ _ _ _ I)) as Hcur. pose proof (al_ran _ _ _ _ _ _ _ _ _ _ _ W) as Hran. destruct (rn_inv _ _ Hran) as [l1 Hk1].
  destruct (ran_proc i p k Hcur Hp k1 Hran) as [_ Hp1]. pose proof (opened_other _ _ _ _ _ _ _ _ _ _ _ G (al_opened _ _ _ _ _ _ _ _ _ _ _ W) (al_kept _ _ _ _ _ _ _ _ _ _ _ W) Hne (od_ip _ _ _ _ _ _ G)) as G1.
  pose proof (rewrites_size _ _ _ _ _ _ _ _ _ (al_file _ _ _ _ _ _ _ _ _ _ _ W) ltac:(lia)) as Hsz.
  pose proof (re_content _ _ _ _ _ _ _ _ _ (al_file _ _ _ _ _ _ _ _ _ _ _ W)) as Ec. pose proof (in_size _ _ _ _ (od_inode _ _ _ _ _ _ G1)).
  assert (Er : Z.min n (i_size z' - f_off xg) = n) by (unfold n; lia).
  assert (Eb : slice (content V' z') (Z.to_nat (f_off xg)) (Z.to_nat n) = bs).
  { rewrite Ec, Eo. unfold n. rewrite Nat2Z.id. apply slice_splice. rewrite content_length. lia. }
  pose proof (fileread_spec k1 p l1 Hk1 Hp1 Hlive V' g j xg z' dst n (al_idle _ _ _ _ _ _ _ _ _ _ _ W) G1 Hrd) as HR. cbn zeta in HR. rewrite Er, Eb in HR.
  apply wp_bind. eapply wp_mono; [apply HR|]; try (unfold n; lia).
  - unfold n. rewrite Nat2Z.id. by eapply writable_lazy; [done| |apply W].
  - rewrite Ec. by apply splice_bytes.
  - cbn beta. intros r k2 [-> R]. apply wp_ret. split; [done|]. split; [|exists V'; apply R].
    apply (out_to_app _ _ [] _ _ (user_view p k1)); [done|eapply out_to_lazy; [done|apply out_to_nil|apply W]|]. rewrite Z.add_0_r. apply R.
Qed.
End code.

(** ** An example *)

(** Two files open on inode 2, one to write and one to read. *)
Definition demo_wfile : file := File FD_INODE 1 0 1 0 2 0 0.
Definition demo_rfile : file := File FD_INODE 1 1 0 0 2 0 0.
Definition demo_files : fsys :=
  set_fs_file [demo_wfile; demo_rfile] (set_fs_inode demo_table (set_fs_sb demo_sb (blank demo_disk (set_lg_outstanding 0 blank_log)))).

(** Descriptor 0 is the file to write. *)
Definition demo_proc (p : proc) : proc := set_ofile (<[0%nat := 1]> (p_ofile p)) p.

Lemma demo_proc_inv (k : kernel counts) l p :
  kinv k l -> k_procs k !! 0%nat = Some p -> p_state p = RUNNING ->
  kinv (set_k_procs (<[0%nat := demo_proc p]> (k_procs k)) k) l.
Proof.
  intros [K1 K2 K3 K4] Hp Hr. split; try done.
  - cbn. destruct K2 as [M1 M2]. pose proof (lookup_lt_Some _ _ _ Hp) as Hlt.
    assert (Hback : forall j q, <[0%nat := demo_proc p]> (k_procs k) !! j = Some q -> exists q0, k_procs k !! j = Some q0 /\
      p_pagetable q = p_pagetable q0 /\ p_trapframe q = p_trapframe q0 /\ p_sz q = p_sz q0).
    { intros j q Hj. destruct (decide (j = 0%nat)) as [->|Hne].
      - rewrite list_lookup_insert_eq in Hj by done. simplify_eq. exists p. done.
      - rewrite list_lookup_insert_ne in Hj by done. by exists q. }
    split.
    + intros j q Hj. destruct (Hback j q Hj) as (q0 & Hq & E1 & E2 & E3). specialize (M1 j q0 Hq). unfold proc_mem in *. by rewrite E1, E2, E3.
    + intros j1 j2 q1 q2 a Hne Hj1 Hj2. destruct (Hback j1 q1 Hj1) as (r1 & Hr1 & E1 & E2 & _), (Hback j2 q2 Hj2) as (r2 & Hr2 & F1 & F2 & _).
      unfold foot. rewrite E1, E2, F1, F2. by apply (M2 j1 j2 r1 r2 a).
  - cbn. eapply procs_wf_insert; [done|exact Hp|lia| |intros _; left; split; [done|by rewrite Hr]].
    destruct (pw_proc _ _ K3 0%nat p Hp) as [W1 W2 W3 W4 W5 W6]. split; cbn; try done; rewrite ?Hr; try done; [naive_solver|by rewrite length_insert].
Qed.

Lemma demo_opened (k : kernel fsys) f x :
  same_rest demo_files (k_files k) -> 1 <= f -> [demo_wfile; demo_rfile] !! Z.to_nat (f - 1) = Some x ->
  f_type x = FD_INODE -> f_ip x = 2 -> opened 1 demo_sb 2 demo_disk k f 1 x file_inode.
Proof.
  intros R Hf Hx Ht Hi. split; try done.
  - by rewrite (sr_file _ _ R).
  - exists file_inode. unfold table. rewrite (sr_inode _ _ R). split_and!; [done|cbn; lia|done|]. intros E. discriminate E.
  - by rewrite (sr_sl _ _ R) by (by vm_compute).
  - split; [by rewrite (sr_sb _ _ R)|by rewrite (sr_log _ _ R)].
  - apply demo_ok.
  - apply file_ok.
Qed.

Lemma demo_write_ready : exists (k : kernel fsys) l p,
  kinv k l /\ k_procs k !! 0%nat = Some p /\ p_state p = RUNNING /\ idle 0 1 1 demo_disk k /\
  opened 1 demo_sb 2 demo_disk k 1 1 demo_wfile file_inode /\ opened 1 demo_sb 2 demo_disk k 2 1 demo_rfile file_inode /\
  arg k p 0 = 0 /\ arg k p 1 = 16 /\ arg k p 2 = 4000 /\ descriptor p 0 1 /\
  forall va, 0 <= va < 8192 -> user_view p k va = Some (Z.lor (uperm PTE_W) PTE_V, 0).
Proof.
  destruct (calling_ok 0 16 ltac:(lia) ltac:(lia)) as (k & l & p & A & E0 & E1 & Hv).
  destruct (poke_ok k l p 8192 TF_a2 4000 A ltac:(by vm_compute) ltac:(by vm_compute)) as [A1 V1].
  assert (F0 : arg (poke k (p_trapframe p) TF_a2 4000) p 0 = 0).
  { etransitivity; [|exact E0]. unfold arg. rewrite Z.mul_0_r, Z.add_0_r. apply poke_other. unfold TF_a0, TF_a2. lia. }
  assert (F1 : arg (poke k (p_trapframe p) TF_a2 4000) p 1 = 16).
  { etransitivity; [|exact E1]. unfold arg. rewrite <- !Z.add_assoc. apply poke_other. unfold TF_a0, TF_a2. lia. }
  assert (F2 : arg (poke k (p_trapframe p) TF_a2 4000) p 2 = 4000).
  { unfold arg. rewrite <- Z.add_assoc. change (TF_a0 + 8 * 2) with TF_a2. apply poke_read. lia. }
  assert (Hlt : 8192 < TRAPFRAME) by (by vm_compute).
  assert (Hv1 : forall va, 0 <= va < 8192 -> ubyte (mem (k_m (poke k (p_trapframe p) TF_a2 4000))) (p_pagetable p) va = Some (Z.lor (uperm PTE_W) PTE_V, 0)).
  { intros va Hva. rewrite V1 by lia. auto. }
  clear E0 E1 Hv A V1. generalize dependent (poke k (p_trapframe p) TF_a2 4000). clear k. intros k A F0 F1 F2 Hv.
  pose proof (demo_proc_inv k l p (al_inv _ _ _ _ A) (al_proc _ _ _ _ A) (al_state _ _ _ _ A)) as Hk1.
  set (k1 := with_fs demo_files (set_k_procs (<[0%nat := demo_proc p]> (k_procs k)) k)).
  pose proof (lookup_lt_Some _ _ _ (al_proc _ _ _ _ A)) as Hl0.
  assert (Hp1 : k_procs k1 !! 0%nat = Some (demo_proc p)) by (cbn; by apply list_lookup_insert_eq).
  assert (Hh : host 0 1 k1).
  { split; [apply A|cbn; rewrite length_insert; apply (ki_wf _ _ (al_inv _ _ _ _ A))|apply A|exists (demo_proc p); split; [done|apply A]]. }
  pose proof (binit_spec 1 1 k1 zeros ltac:(lia) eq_refl) as Hw. apply wp_exists in Hw as (u & k2 & W & R & C).
  assert (Hp2 : k_procs k2 !! 0%nat = Some (demo_proc p)).
  { destruct (wk_proc _ _ W _ _ Hp1) as (q & Hq & [->|(Hne & _)]); [done|]. exfalso. apply Hne, A. }
  exists k2, l, (demo_proc p). split_and!.
  - eapply woke_kinv; [exact W|]. destruct Hk1. by split.
  - done.
  - apply A.
  - split.
    + cbn zeta. rewrite (sr_log _ _ R). split_and!; done.
    + eapply caches_quiet; [exact C|]. intros b. unfold refs. cbn. by rewrite lookup_empty.
    + eexists. split; [split; [by eapply woke_host|apply woke_refl|apply same_rest_refl|exact C]|]. split; [done|].
      intros b. unfold refs. cbn. by rewrite lookup_empty.
  - by apply demo_opened.
  - by apply demo_opened.
  - unfold arg in *. by rewrite (wk_m _ _ W).
  - unfold arg in *. by rewrite (wk_m _ _ W).
  - unfold arg in *. by rewrite (wk_m _ _ W).
  - split; [unfold NOFILE; lia|]. cbn. rewrite (al_ofile _ _ _ _ A). done.
  - intros va Hva. unfold user_view. rewrite (wk_m _ _ W). by apply Hv.
Qed.

(** A buffer of zeroes, longer than one transaction, at address 16. *)
Lemma demo_buffer (k : kernel fsys) p n :
  (forall va, 0 <= va < 8192 -> user_view p k va = Some (Z.lor (uperm PTE_W) PTE_V, 0)) -> Z.of_nat n <= 8000 ->
  reads (user_view p k) 16 (replicate n 0) /\ writable_word (user_view p k) 16 n.
Proof.
  intros Hv Hn. assert (Hlt : 8192 < TRAPFRAME) by (by vm_compute). split; split; rewrite ?length_replicate; try lia.
  - intros q Hq. exists (Z.lor (uperm PTE_W) PTE_V). rewrite Hv by lia. split; [|by vm_compute]. by rewrite nth_lookup, lookup_replicate_2.
  - intros q Hq. exists (Z.lor (uperm PTE_W) PTE_V), 0. rewrite Hv by lia. by vm_compute.
Qed.

Lemma demo_room n : (n <= 4000)%nat -> (needs file_inode 0 n <= length (free_list demo_sb demo_disk))%nat.
Proof.
  intros Hn. assert (E : length (free_list demo_sb demo_disk) = 62%nat) by (by vm_compute). rewrite E. unfold needs.
  assert (spans 0 n <= 5)%nat.
  { unfold spans. destruct (n =? 0)%nat; [lia|]. assert ((0 + n - 1) / BSIZE < 5)%nat; [|lia]. apply Nat.Div0.div_lt_upper_bound. unfold BSIZE. lia. }
  assert (n / (3 * BSIZE) < 2)%nat by (apply Nat.Div0.div_lt_upper_bound; unfold BSIZE; lia). pose proof (wanted_pos file_inode). lia.
Qed.

(** 4000 bytes go to the file that held two, in two transactions. *)
Lemma sys_write_durable_witness : exists k,
  wp (sys_write no_switch 1 ideal_rw) k (fun r k' => r = 4000 /\ exists V' z',
    (forall b, d_block (fs_disk (k_files k')) b = V' b) /\ content V' z' = splice (content demo_disk file_inode) 0 (replicate 4000 0)).
Proof.
  destruct demo_write_ready as (k & l & p & Hk & Hp & Hr & I & O & _ & E0 & E1 & E2 & Hd & Hv). exists k.
  destruct (demo_buffer k p 4000 Hv ltac:(lia)) as [Hrd _].
  eapply wp_mono; [apply (sys_write_durable no_switch 1 (Nat.lt_0_succ 0) ideal_rw ideal_ok 0 1 1 demo_sb 2 demo_layout k p l Hk Hp ltac:(by rewrite Hr)
    demo_disk 0 1 1 demo_wfile file_inode (replicate 4000 0))|]; rewrite ?E0, ?E1, ?E2, ?length_replicate; try done.
  - pose proof max_bytes. change (Z.to_nat (f_off demo_wfile)) with 0%nat. lia.
  - by apply demo_room.
  - cbn beta. intros r k' (-> & V' & z' & W). split; [done|]. exists V', z'. split; [apply W|]. apply (re_content _ _ _ _ _ _ _ _ _ (al_file _ _ _ _ _ _ _ _ _ _ _ _ _ _ _ _ W)).
Defined.

Lemma write_read_back_witness : exists k,
  wp (r1 <- filewrite no_switch 1 ideal_rw 1 16 3 ;; r2 <- fileread no_switch 1 ideal_rw 2 16 3 ;; ret (r1, r2)) k
    (fun r _ => r = (3, 3)).
Proof.
  destruct demo_write_ready as (k & l & p & Hk & Hp & Hr & I & O & G & _ & _ & _ & _ & Hv). exists k.
  destruct (demo_buffer k p 3 Hv ltac:(lia)) as [Hrd Hw].
  eapply wp_mono; [apply (write_read_back no_switch 1 (Nat.lt_0_succ 0) ideal_rw ideal_ok 0 1 1 demo_sb 2 demo_layout k p l
    demo_disk 1 2 1 demo_wfile demo_rfile file_inode 16 16 [0; 0; 0])|]; try done.
  - by rewrite Hr.
  - pose proof max_bytes. change (Z.to_nat (f_off demo_wfile)) with 0%nat. cbn [length]. lia.
  - apply demo_room. cbn. lia.
  - apply (Forall_replicate _ 3 0). lia.
  - apply (bool_decide_unpack _). by vm_compute.
  - cbn beta. by intros r k' (-> & _).
Defined.
