(* ===== verification/Exec.v ===== *)
(** exec.c and elf.h: the exec system call.

    [kexec] reads an ELF file, builds a new address space from its segments,
    puts the arguments on a new stack and exchanges the new address space for
    the old one.  The abstract loader [exec_image] says what the new memory is,
    as a function of the contents of the file and the arguments alone. *)

From S2P Require Import Prelude.
From S2P Require Import Memory.
From S2P Require Import Spinlock.
From S2P Require Import Riscv.
From S2P Require Import Kalloc.
From S2P Require Import PageTable.
From S2P Require Import AddrSpace.
From S2P Require Import Uvm.
From S2P Require Import UserMem.
From S2P Require Import UserCopy.
From S2P Require Import ProcMem.
From S2P Require Import Proc.
From S2P Require Import ProcInv.
From S2P Require Import ProcCtl.
From S2P Require Import Fork.
From S2P Require Import Syscall.
From S2P Require Import SysSpec.
From S2P Require Import FsState.
From S2P Require Import Bio.
From S2P Require Import BioSpec.
From S2P Require Import Log.
From S2P Require Import LogSpec.
From S2P Require Import LogTheorems.
From S2P Require Import Fs.
From S2P Require Import FsOp.
From S2P Require Import FsBitmap.
From S2P Require Import FsAlloc.
From S2P Require Import FsInode.
From S2P Require Import FsWrite.
From S2P Require Import FsWritei.
From S2P Require Import FsTable.
From S2P Require Import FsDir.
From S2P Require Import FsTree.
From S2P Require Import FsNamex.
From S2P Require Import FsTx.
From S2P Require Import SysFile.
From S2P Require Import Boot.
From S2P Require Import Witness.
From S2P Require Import FsBoot.
From S2P Require Import PipeWitness.
From S2P Require Import FsTheorems.
From S2P Require Import FsDemo.

(** ** elf.h *)

Definition ELF_MAGIC : Z := 0x464C457F.
Definition ELF_PROG_LOAD : Z := 1.
Definition USERSTACK : Z := 1.

Definition get64 (d : block) (o : nat) : Z := get32 d o + 2 ^ 32 * get32 d (o + 4).

(** [struct elfhdr] and [struct proghdr] as bytes, and the fields in use. *)
Definition ELFHDR : Z := 64.
Definition elf_magic (d : block) : Z := get32 d 0.
Definition elf_entry (d : block) : Z := get64 d 24.
Definition elf_phoff (d : block) : Z := get64 d 32.
Definition elf_phnum (d : block) : Z := get16 d 56.

Definition PROGHDR : Z := 56.
Definition ph_type (d : block) : Z := get32 d 0.
Definition ph_flags (d : block) : Z := get32 d 4.
Definition ph_off (d : block) : Z := get64 d 8.
Definition ph_vaddr (d : block) : Z := get64 d 16.
Definition ph_filesz (d : block) : Z := get64 d 32.
Definition ph_memsz (d : block) : Z := get64 d 40.

(** ** exec.c *)

Definition flags2perm (flags : Z) : Z :=
  let perm := if flag flags 0x1 then PTE_X else 0 in
  if flag flags 0x2 then Z.lor perm PTE_W else perm.

(** The part of the path after the last slash. *)
Fixpoint last_elem (last s : list Z) : list Z :=
  match s with
  | [] => last
  | c :: s' => last_elem (if c =? SLASH then s' else last) s'
  end.

Section code.
Context `{LinkerSyms} (swtch : M (kernel fsys) unit) (fuel : nat).
Context (virtio_disk_rw : nat -> bool -> M (kernel fsys) unit).
Abbreviation K := (M (kernel fsys)).
Abbreviation begin_op := (log_begin_op swtch fuel).
Abbreviation end_op := (log_end_op swtch fuel virtio_disk_rw).
Abbreviation ilock := (ilock swtch fuel virtio_disk_rw).
Abbreviation iunlockput := (iunlockput swtch fuel virtio_disk_rw).
Abbreviation readi := (readi swtch fuel virtio_disk_rw).
Abbreviation namei := (namei swtch fuel virtio_disk_rw).

(** [readi] into a structure on the stack. *)
Definition read_struct (ip off n : Z) : K (option (list Z)) :=
  r <- readi ip (LocalDst []) off n ;;
  match r with
  | (m, LocalDst d) => ret (if m =? n then Some d else None)
  | _ => crash
  end.

Definition loadseg (pagetable va ip offset sz : Z) : K Z :=
  loop (S (Z.to_nat sz)) (fun i =>
    if i <? sz then
      pa <- on_m (walkaddr pagetable (u64 (va + i))) ;;
      if pa =? 0 then panic "loadseg: address should exist"
      else
        let n := if u32 (sz - i) <? PGSIZE then u32 (sz - i) else PGSIZE in
        r <- readi ip (KernelDst pa) (u32 (offset + i)) n ;;
        if negb (u32 (fst r) =? n) then ret (inr (-1))
        else ret (inl (u32 (i + PGSIZE)))
    else ret (inr 0)) 0.

(** One round of the loop over the program headers: whether it succeeds, and
    [sz] after it. *)
Definition exec_segment (pagetable ip off sz : Z) : K (bool * Z) :=
  r <- read_struct ip (u32 off) PROGHDR ;;
  match r with
  | None => ret (false, sz)
  | Some ph =>
      if negb (ph_type ph =? ELF_PROG_LOAD) then ret (true, sz)
      else if ph_memsz ph <? ph_filesz ph then ret (false, sz)
      else if u64 (ph_vaddr ph + ph_memsz ph) <? ph_vaddr ph then ret (false, sz)
      else if negb (ph_vaddr ph mod PGSIZE =? 0) then ret (false, sz)
      else
        sz1 <- on_m (uvmalloc pagetable sz (u64 (ph_vaddr ph + ph_memsz ph)) (flags2perm (ph_flags ph))) ;;
        if sz1 =? 0 then ret (false, sz)
        else
          rc <- loadseg pagetable (ph_vaddr ph) ip (u32 (ph_off ph)) (u32 (ph_filesz ph)) ;;
          ret (negb (rc <? 0), sz1)
  end.

(** [off] is an int. *)
Definition exec_segments (pagetable ip : Z) (elf : list Z) : K (bool * Z) :=
  loop (S (Z.to_nat (elf_phnum elf))) (fun '(i, off, sz) =>
    if i <? elf_phnum elf then
      r <- exec_segment pagetable ip off sz ;;
      let '(ok, sz) := r in
      if (ok : bool) then ret (inl (i + 1, i32 (off + PROGHDR), sz)) else ret (inr (false, sz))
    else ret (inr (true, sz))) (0, i32 (elf_phoff elf), 0).

(** [bad:], with the inode while it is locked. *)
Definition exec_bad (pagetable sz ip : Z) : K Z :=
  (if negb (pagetable =? 0) then on_m (proc_freepagetable pagetable sz) else ret tt) >>>
  (if negb (ip =? 0) then iunlockput ip >>> end_op else ret tt) >>>
  ret (-1).

(** [strlen] of a string in memory; it is in one page. *)
Definition kstrlen (a : Z) : K Z := fun k =>
  match strlen (Z.to_nat PGSIZE) (mem (k_m k)) a with
  | Ok n => Ok (n, k)
  | Panic e => Panic e
  | Crash => Crash
  | Spin => Spin
  | NoFuel => NoFuel
  end.

(** [copyout] from kernel memory, with [myproc()] for page faults. *)
Definition exec_copyout (pagetable va : Z) (src : list Z) : K Z :=
  i <- myproc ;;
  p <- getp i ;;
  on_m (copyout (ProcView (p_sz p) (p_pagetable p)) pagetable va src).

(** The strings; the stack pointer and [ustack] after them. *)
Definition exec_args (pagetable stackbase sp : Z) (argv : list Z) : K (option (Z * list Z)) :=
  loop (S (length argv)) (fun '(sp, ustack, argv) =>
    match argv with
    | [] => ret (inr (Some (sp, ustack)))
    | a :: argv =>
        if (MAXARG <=? length ustack)%nat then ret (inr None)
        else
          n <- kstrlen a ;;
          let sp := u64 (sp - (n + 1)) in
          let sp := u64 (sp - sp mod 16) in
          if sp <? stackbase then ret (inr None)
          else
            n <- kstrlen a ;;
            src <- on_m (gets (fun s => read_bytes (mem s) a (Z.to_nat (n + 1)))) ;;
            rc <- exec_copyout pagetable sp src ;;
            if rc <? 0 then ret (inr None) else ret (inl (sp, ustack ++ [sp], argv))
    end) (sp, [], argv).

(** [ustack] in memory. *)
Definition bytes64 (v : Z) : list Z := bytes32 v ++ bytes32 (v / 2 ^ 32).

(** From the registers of the new program to the end of the old one. *)
Definition exec_commit (i : nat) (path : list Z) (oldsz pagetable sz sp entry argc : Z) : K Z :=
  p <- getp i ;;
  on_m (store64 (p_trapframe p + TF_a1) sp) >>>
  setp i (fun p => set_name (str_copy (p_name p) (last_elem path path) 16) p) >>>
  setp i (fun p => set_sz sz (set_pagetable pagetable p)) >>>
  on_m (store64 (p_trapframe p + TF_epc) entry) >>>
  on_m (store64 (p_trapframe p + TF_sp) sp) >>>
  on_m (proc_freepagetable (p_pagetable p) oldsz) >>>
  ret argc.

(** The stack, the arguments and the exchange.  [ustack[argc] = 0] is inside
    the array for less than MAXARG arguments. *)
Definition exec_stack (path argv : list Z) (pagetable sz entry : Z) : K Z :=
  i <- myproc ;;
  p <- getp i ;;
  let oldsz := p_sz p in
  let sz := PGROUNDUP sz in
  sz1 <- on_m (uvmalloc pagetable sz (u64 (sz + (USERSTACK + 1) * PGSIZE)) PTE_W) ;;
  if sz1 =? 0 then exec_bad pagetable sz 0
  else
    let sz := sz1 in
    on_m (uvmclear pagetable (u64 (sz - (USERSTACK + 1) * PGSIZE))) >>>
    let stackbase := u64 (sz - USERSTACK * PGSIZE) in
    r <- exec_args pagetable stackbase sz argv ;;
    match r with
    | None => exec_bad pagetable sz 0
    | Some (sp, ustack) =>
        (if (length ustack <? MAXARG)%nat then ret tt else crash) >>>
        let argc := Z.of_nat (length ustack) in
        let sp := u64 (sp - (argc + 1) * 8) in
        let sp := u64 (sp - sp mod 16) in
        if sp <? stackbase then exec_bad pagetable sz 0
        else
          rc <- exec_copyout pagetable sp (concat (map bytes64 (ustack ++ [0]))) ;;
          if rc <? 0 then exec_bad pagetable sz 0
          else exec_commit i path oldsz pagetable sz sp entry argc
    end.

Definition kexec (path argv : list Z) : K Z :=
  i <- myproc ;;
  begin_op >>>
  ip <- namei path ;;
  if ip =? 0 then end_op >>> ret (-1)
  else
    ilock ip >>>
    r <- read_struct ip 0 ELFHDR ;;
    match r with
    | None => exec_bad 0 0 ip
    | Some elf =>
        if negb (elf_magic elf =? ELF_MAGIC) then exec_bad 0 0 ip
        else
          p <- getp i ;;
          pagetable <- on_m (proc_pagetable (p_trapframe p)) ;;
          if pagetable =? 0 then exec_bad 0 0 ip
          else
            r <- exec_segments pagetable ip elf ;;
            let '(ok, sz) := r in
            if (ok : bool) then
              iunlockput ip >>>
              end_op >>>
              exec_stack path argv pagetable sz (elf_entry elf)
            else exec_bad pagetable sz ip
    end.
End code.

(** ** The new memory, abstractly *)

(** Zeroed pages from [lo] to [hi]. *)
Definition fill_view (e : uview) (lo hi perm : Z) : uview := fun va =>
  if (lo <=? va) && (va <? hi) then Some (Z.lor (uperm perm) PTE_V, 0) else e va.

(** The page at [lo] out of reach of user code. *)
Definition clear_view (e : uview) (lo : Z) : uview := fun va =>
  if (lo <=? va) && (va <? lo + PGSIZE) then
    match e va with Some (fl, b) => Some (Z.land fl (Z.lnot PTE_U), b) | None => None end
  else e va.

(** The bytes of a file at [off], if it has them. *)
Definition file_bytes (C : list Z) (off n : Z) : option (list Z) :=
  if (n =? 0) || (off + n <=? Z.of_nat (length C)) then Some (slice C (Z.to_nat off) (Z.to_nat n)) else None.

(** The program header at [off]: the memory and its size afterwards.  There is
    none for a segment that reaches beyond the memory of user code. *)
Definition load_seg (C : list Z) (off : Z) (e : uview) (sz : Z) : option (uview * Z) :=
  ph ← file_bytes C (u32 off) PROGHDR;
  if negb (ph_type ph =? ELF_PROG_LOAD) then Some (e, sz)
  else if (ph_memsz ph <? ph_filesz ph) || (TRAPFRAME <? ph_vaddr ph + ph_memsz ph) || negb (ph_vaddr ph mod PGSIZE =? 0) then None
  else
    let sz' := Z.max sz (ph_vaddr ph + ph_memsz ph) in
    if sz' =? 0 then None
    else
      seg ← file_bytes C (u32 (ph_off ph)) (ph_filesz ph);
      Some (overwrite (fill_view e (PGROUNDUP sz) (PGROUNDUP sz') (flags2perm (ph_flags ph))) (ph_vaddr ph) seg, sz').

Fixpoint load_segs (C : list Z) (n : nat) (off : Z) (e : uview) (sz : Z) : option (uview * Z) :=
  match n with
  | O => Some (e, sz)
  | S n => '(e, sz) ← load_seg C off e sz; load_segs C n (i32 (off + PROGHDR)) e sz
  end.

Definition align16 (sp : Z) : Z := sp - sp mod 16.

(** The strings from the top of the stack down, and their addresses. *)
Fixpoint push_strings (base : Z) (e : uview) (sp : Z) (args : list (list Z)) : option (uview * Z * list Z) :=
  match args with
  | [] => Some (e, sp, [])
  | s :: args =>
      let sp := align16 (sp - (Z.of_nat (length s) + 1)) in
      if sp <? base then None
      else '(e, sp', us) ← push_strings base (overwrite e sp (s ++ [0])) sp args; Some (e, sp', sp :: us)
  end.

Record image := Image { im_view : uview; im_sz : Z; im_sp : Z; im_entry : Z; im_argc : Z }.

Definition stack_image (e : uview) (sz entry : Z) (args : list (list Z)) : option image :=
  let guard := PGROUNDUP sz in
  let base := guard + PGSIZE in
  let top := base + USERSTACK * PGSIZE in
  '(e, sp, us) ← push_strings base (clear_view (fill_view e guard top PTE_W) guard) top args;
  let sp := align16 (sp - (Z.of_nat (length us) + 1) * 8) in
  if sp <? base then None
  else Some (Image (overwrite e sp (concat (map bytes64 (us ++ [0])))) top sp entry (Z.of_nat (length us))).

Definition exec_image (C : list Z) (args : list (list Z)) : option image :=
  elf ← file_bytes C 0 ELFHDR;
  if negb (elf_magic elf =? ELF_MAGIC) then None
  else
    '(e, sz) ← load_segs C (Z.to_nat (elf_phnum elf)) (i32 (elf_phoff elf)) (fun _ => None) 0;
    stack_image e sz (elf_entry elf) args.

(** ** Pages *)

Section pages.
Context `{LinkerSyms}.

(** RAM has 32768 pages. *)
Lemma free_bound s l : kmem_inv s l -> PGSIZE * Z.of_nat (length l) <= 2 ^ 27.
Proof.
  intros [_ _ Hnd Hv _]. set (f := fun p => Z.to_nat ((p - KERNBASE) / PGSIZE)).
  assert (Hr : forall p, p ∈ l -> p mod PGSIZE = 0 /\ KERNBASE <= p < PHYSTOP).
  { intros p Hp. rewrite Forall_forall in Hv. specialize (Hv p Hp). apply is_valid_pa_spec in Hv as [Ha Hb]. pose proof sym_end_range. lia. }
  assert (Hn : NoDup (map f l)).
  { apply NoDup_fmap_2_strong; [|done]. intros p q Hp%Hr Hq%Hr. unfold f, PHYSTOP, KERNBASE, PGSIZE in *. dlia. }
  assert (Hs : (length (map f l) <= length (seq 0 (Z.to_nat 32768)))%nat).
  { apply submseteq_length, NoDup_submseteq; [done|]. intros n (p & -> & Hp%Hr)%list_elem_of_fmap. apply elem_of_seq. unfold f, PHYSTOP, KERNBASE, PGSIZE in *. split; [lia|]. rewrite Nat.add_0_l. apply Z2Nat.inj_lt; dlia. }
  rewrite length_map, length_seq in Hs. unfold PGSIZE. lia.
Qed.

Lemma page_between lo hi va : lo mod PGSIZE = 0 -> hi mod PGSIZE = 0 -> lo <= PGROUNDDOWN va < hi <-> lo <= va < hi.
Proof. intros H1 H2. rewrite PGROUNDDOWN_eq. unfold PGSIZE in *. dlia. Qed.

Lemma fill_view_ok perm m m' r l l' lo hi :
  uspace TRAPFRAME m r l -> 0 <= perm < 1024 -> lo mod PGSIZE = 0 -> hi mod PGSIZE = 0 ->
  grow_post TRAPFRAME (zero_fill perm) m m' r l l' lo hi -> view_eq (fill_view (ubyte m r) lo hi perm) (ubyte m' r).
Proof.
  intros Hu Hperm Hlo Hhi Hg va Hva. destruct (page_of va Hva) as [Hp Hlt]. destruct (page_split va).
  pose proof (gp_map _ _ _ _ _ _ _ _ _ Hg _ Hp) as Hf. pose proof (page_between lo hi va Hlo Hhi) as Hb. unfold ubyte, fill_view.
  destruct ((lo <=? va) && (va <? hi)) eqn:E.
  - assert (Hr : lo <= PGROUNDDOWN va < hi) by lia. rewrite (proj2 (Z.leb_le _ _)), (proj2 (Z.ltb_lt _ _)) in Hf by lia. cbn [andb zero_fill] in Hf.
    destruct Hf as (p & Hx & _ & Hv & Hz). rewrite Hx. pose proof (is_valid_pa_pos p Hv). apply is_valid_pa_spec in Hv as [Hal _].
    pose proof (uperm_range perm Hperm). rewrite mk_pte_PA, Hz, mk_pte_eq, PTE_FLAGS_mk by (done || lia || by apply lor_range; [|apply PTE_V_range]). done.
  - assert (Hn : ~ (lo <= PGROUNDDOWN va < hi)) by (rewrite Hb; lia).
    assert ((lo <=? PGROUNDDOWN va) && (PGROUNDDOWN va <? hi) = false) as Ef by lia. rewrite Ef in Hf. rewrite Hf.
    destruct (xlate m r (PGROUNDDOWN va)) as [pte|] eqn:Ex; [|done]. do 2 f_equal. eapply kept_leaf; [exact Hu|apply Hg|done|done|exact Ex|lia].
Qed.
End pages.

(** ** An address space under construction

    The table [r] is made of pages of the free list [l0]; together with the
    pages still free they are all of [l0], and nothing else is written. *)

Section fresh.
Context `{LinkerSyms} (s0 : machine) (l0 : list Z) (tf : Z).
Context (Hk0 : kmem_inv s0 l0) (Htf : is_valid_pa tf = true) (Htl : tf ∉ l0).

Record built (r sz : Z) (s : machine) (l : list Z) : Prop := {
  md_kmem : kmem_inv s l;
  md_space : proc_space (mem s) r l sz tf;
  md_own q : owned TRAPFRAME (mem s) r l q <-> q ∈ l0;
  md_out : outside_kept (mem s0) (mem s) l0;
  md_held : mheld s = mheld s0
}.

(** What it holds, and how many pages it has taken. *)
Record fresh (r sz : Z) (e : uview) (s : machine) (l : list Z) : Prop := {
  fr_made : built r sz s l;
  fr_view : view_eq e (ubyte (mem s) r);
  fr_room : PGROUNDUP sz + PGSIZE * Z.of_nat (length l) <= PGSIZE * Z.of_nat (length l0);
  fr_use : PGSIZE * Z.of_nat (length l0) <= PGSIZE * Z.of_nat (length l) + 5 * PGSIZE + 3 * PGROUNDUP sz
}.

(** Too few free pages for a program of size [sz]. *)
Definition short (sz : Z) : Prop := PGSIZE * Z.of_nat (length l0) < 3 * sz + 8 * PGSIZE.

Lemma fresh_size r sz e s l : fresh r sz e s l -> 0 <= sz <= PGROUNDUP sz /\ PGROUNDUP sz <= 2 ^ 27 /\ PGROUNDUP sz mod PGSIZE = 0.
Proof.
  intros [[_ [_ Hsz _ _ _ _] _ _ _] _ Hr _]. pose proof (free_bound _ _ Hk0). destruct TRAPFRAME_ok.
  destruct (PGROUNDUP_props sz) as ((_ & ?) & ? & _); [lia|]. unfold PGSIZE in *. lia.
Qed.

Lemma built_contained r sz s l s' l' sz' :
  built r sz s l -> kmem_inv s' l' -> proc_space (mem s') r l' sz' tf -> contained (mem s) (mem s') r l l' -> mheld s' = mheld s -> built r sz' s' l'.
Proof.
  intros [F1 F2 F3 F4 F5] Hk Hp [Co Ca] Hh. split; auto.
  - intros q. by rewrite Co.
  - intros q Hq Hl x Hx. rewrite (Ca q), (F4 q); auto; [by apply is_valid_pa_spec in Hq as [? _]|by rewrite F3].
  - congruence.
Qed.

Lemma fresh_view r sz e e' s l : fresh r sz e s l -> view_eq e e' -> fresh r sz e' s l.
Proof. intros [F1 F2 F3 F4] He. split; auto. intros va Hva. rewrite F2, He by done. done. Qed.

Lemma fresh_start :
  wp (proc_pagetable tf) s0 (fun r s => (r <> 0 /\ exists l, fresh r 0 (fun _ => None) s l) \/
    (r = 0 /\ short 0 /\ exists l, kmem_inv s l /\ mheld s = mheld s0 /\ outside_kept (mem s0) (mem s) l0 /\ forall q, q ∈ l <-> q ∈ l0)).
Proof.
  eapply wp_mono; [by apply proc_pagetable_spec|]. cbn beta. intros r s (l & Hs & Hh & Ho & [(-> & Hn & Hq)|(Hr & Hn & Hps & Hfrom & Hno)]).
  - right. split; [done|]. split; [unfold short, PGSIZE; lia|]. by exists l.
  - left. split; [done|]. exists l. split; [split; try done|..].
    + intros q. rewrite (Hfrom q). unfold owned, in_tree. split; [|tauto]. intros [?|[?|(va & Hva & Hlt & E)]]; auto. unfold upage in E. by rewrite Hno in E.
    + intros va Hva. destruct (page_of va Hva). unfold ubyte. by rewrite Hno.
    + change (PGROUNDUP 0) with 0. unfold PGSIZE. lia.
    + change (PGROUNDUP 0) with 0. unfold PGSIZE. lia.
Qed.

Lemma fill_view_nil e lo perm va : fill_view e lo lo perm va = e va.
Proof. unfold fill_view. case_if; [lia|done..]. Qed.

Lemma fresh_alloc r sz e s l newsz perm :
  fresh r sz e s l -> 0 <= newsz -> 0 <= perm < 1024 ->
  wp (uvmalloc r sz newsz perm) s (fun rc s' => exists l',
    (rc = Z.max sz newsz /\ fresh r rc (fill_view e (PGROUNDUP sz) (PGROUNDUP rc) perm) s' l') \/
    (rc = 0 /\ short newsz /\ built r sz s' l')).
Proof.
  intros F Hn Hp. destruct (fresh_size _ _ _ _ _ F) as (Hs1 & Hs2 & Hs3). pose proof (free_bound _ _ Hk0) as Hb.
  pose proof F as [M Hv Hroom Huse]. pose proof (md_space _ _ _ _ M) as Hps. destruct TRAPFRAME_ok as [Hto Htm].
  assert (Htp : 2 ^ 27 < TRAPFRAME) by (by vm_compute).
  destruct (Z.ltb_spec newsz sz).
  { unfold uvmalloc. rewrite (proj2 (Z.ltb_lt _ _)) by done. apply wp_ret. exists l. left. rewrite Z.max_l by lia. split; [done|].
    eapply fresh_view; [exact F|]. intros va _. apply fill_view_nil. }
  eapply wp_mono; [apply (uvmalloc_room TRAPFRAME r sz newsz perm s l); [apply M|apply Hps|lia|lia|done|lia|lia|]|].
  { intros va Hva Hr. apply Hps; try done; [lia|lia|]. destruct TRAMPOLINE_ok. lia. }
  cbn beta. intros rc s' (l' & Hk' & Hu' & Hh' & [(-> & Hnb & Hc1 & Hc2 & Hg)|(-> & Hc & Hq)]); exists l'.
  - left. rewrite Z.max_r by lia. split; [done|].
    destruct (PGROUNDUP_props newsz) as ((_ & Hal) & Hn1 & Hn2); [lia|]. split; [| |unfold PGSIZE in *; lia..].
    + eapply (built_contained r sz s l); try done.
      * eapply proc_space_grow; [exact Hps|done|exact Hg|by apply zero_fill_ok|unfold PGSIZE in *; lia|]. intros va [_ Hva] Hr. unfold PGSIZE in *. dlia.
      * apply kept_contained; apply Hg.
    + intros va Hva. rewrite (fill_view_ok perm _ _ _ _ _ _ _ (ps_user _ _ _ _ _ Hps) Hp Hs3 Hal Hg va Hva). unfold fill_view. by rewrite Hv.
  - right. split; [done|]. split; [unfold short, PGSIZE in *; lia|].
    eapply (built_contained r sz s l); try done; [by eapply proc_space_quiet|apply kept_contained; apply Hq].
Qed.

(** ** Writing to it *)

Lemma overwrite_eq e e' dst bs : view_eq e e' -> view_eq (overwrite e dst bs) (overwrite e' dst bs).
Proof. intros He va Hva. unfold overwrite. by rewrite He. Qed.

Lemma overwrite_app e dst a b va : overwrite (overwrite e dst a) (dst + Z.of_nat (length a)) b va = overwrite e dst (a ++ b) va.
Proof.
  unfold overwrite. rewrite length_app. destruct (e va) as [[fl c]|]; repeat case_if; try done; try lia.
  - rewrite app_nth2 by lia. do 3 f_equal. lia.
  - by rewrite app_nth1 by lia.
Qed.

Lemma overwrite_nil e dst va : overwrite e dst [] va = e va.
Proof. unfold overwrite. cbn. case_if; [lia|done..]. Qed.

Lemma overwrite_flags e dst bs va fl b : e va = Some (fl, b) -> exists b', overwrite e dst bs va = Some (fl, b').
Proof. intros E. unfold overwrite. rewrite E. case_if; eauto. Qed.

Lemma overwrite_readable e dst bs va : readable e va -> readable (overwrite e dst bs) va.
Proof. intros (fl & b & E & HU). destruct (overwrite_flags e dst bs va fl b E) as [b' E']. by exists fl, b'. Qed.

Lemma overwrite_writable e dst bs va : writable e va -> writable (overwrite e dst bs) va.
Proof. intros (fl & b & E & HU). destruct (overwrite_flags e dst bs va fl b E) as [b' E']. by exists fl, b'. Qed.

Lemma fresh_store r sz e s l va0 v o bs :
  fresh r sz e s l -> va_ok va0 -> va0 < TRAPFRAME -> xlate (mem s) r va0 = Some v -> 0 <= o -> o + Z.of_nat (length bs) <= PGSIZE -> byte_list bs ->
  fresh r sz (overwrite e (va0 + o) bs) (set_mem (write_bytes (mem s) (PTE2PA v + o) bs) s) l /\
  forall va, xlate (write_bytes (mem s) (PTE2PA v + o) bs) r va = xlate (mem s) r va.
Proof.
  intros [M Hv Hr Hu] Hva Hlt Hx Ho Hlen Hb. pose proof (md_space _ _ _ _ M) as Hps. pose proof (ps_user _ _ _ _ _ Hps) as Hus.
  destruct (uwrite_space (mem s) r l va0 v o bs) as [Hss Ht]; auto. destruct (uwrite_leaf (mem s) r l va0 v) as (L1 & L2 & L3 & L4); auto.
  split; [|apply Hss]. split; auto.
  - eapply (built_contained r sz s l); auto; cbn [mem set_mem].
    + eapply (kmem_inv_write s l (PTE2PA v)); eauto; [apply M|by eapply uwrite_frame|]. apply write_bytes_ok. by apply (km_bytes s l), M.
    + by eapply proc_space_same.
    + by apply (uwrite_contained _ _ _ va0).
  - intros va Hv'. rewrite (uwrite_view (mem s) r l va0 v o bs) by auto. by apply overwrite_eq.
Qed.

(** A byte that user code can read is in a page that [walkaddr] finds. *)
Lemma fresh_page r sz e s l va :
  fresh r sz e s l -> 0 <= va < TRAPFRAME -> readable e va ->
  exists v, xlate (mem s) r (PGROUNDDOWN va) = Some v /\ has_flag v PTE_U = true /\ user_pa (mem s) r (PGROUNDDOWN va) = PTE2PA v /\
    PTE2PA v <> 0 /\ is_valid_pa (PTE2PA v) = true /\ (writable e va -> has_flag v PTE_W = true).
Proof.
  intros [M Hv _ _] Hva (fl & b & E & HU). pose proof (ps_user _ _ _ _ _ (md_space _ _ _ _ M)) as Hus. destruct (page_of va Hva) as [Hp Hlt].
  specialize (Hv va Hva). unfold ubyte in Hv. rewrite E in Hv. destruct (xlate (mem s) r (PGROUNDDOWN va)) as [v|] eqn:Ex; [|done].
  injection Hv as <- <-. rewrite has_U_flags in HU. exists v. destruct (us_leaf _ _ _ _ Hus (PGROUNDDOWN va) (PTE2PA v)) as (Hval & _); auto.
  { unfold upage. by rewrite Ex. }
  pose proof (is_valid_pa_pos _ Hval). unfold user_pa. rewrite Ex, HU. split_and!; auto; [lia|].
  intros (fl & b & E' & _ & HW). rewrite E in E'. injection E' as <- _. by rewrite has_W_flags in HW.
Qed.

Lemma fresh_copyout_step pv r sz e s l dst bs :
  fresh r sz e s l -> 0 <= dst < TRAPFRAME -> writable e dst -> bs <> [] -> byte_list bs ->
  wp (copyout_step pv r (dst, bs)) s (fun res s' => exists n, (0 < n <= length bs)%nat /\
    ((n < length bs)%nat -> fst (default (0, []) (match res with inl x => Some x | _ => None end)) = dst + Z.of_nat n) /\
    (exists next, res = inl (next, drop n bs)) /\ fresh r sz (overwrite e dst (take n bs)) s' l).
Proof.
  intros F Hd Hw Hne Hb. pose proof Hw as (fl & b & E & HU & HW).
  destruct (fresh_page r sz e s l dst F Hd) as (v & Hx & Uv & Hpa & Hn0 & Hval & Wv); [by exists fl, b|]. specialize (Wv Hw).
  pose proof (md_space _ _ _ _ (fr_made _ _ _ _ _ F)) as Hps. pose proof (ps_user _ _ _ _ _ Hps) as Hus.
  destruct (page_of dst Hd) as [Hp Hlt], (page_split dst) as [Hsp Hmod], TRAPFRAME_ok as [_ Htm]. unfold copyout_step. set (va0 := PGROUNDDOWN dst) in *.
  rewrite (proj2 (Z.leb_gt _ _)) by lia. apply wp_bind. unfold user_page. apply wp_bind. eapply walkaddr_spec; [apply Hus|].
  rewrite (proj2 (Z.leb_gt _ _)) by lia. rewrite Hpa, (proj2 (Z.eqb_neq _ 0)) by done. apply wp_ret. rewrite (proj2 (Z.eqb_neq _ 0)) by done.
  destruct (copyout_entry r va0 s l v Hus Hlt Hx) as (pte & Hslot & Hpte & Hld).
  apply wp_bind, walk_noalloc; [lia|]. rewrite Hslot. cbn [default from_option id]. rewrite (proj2 (Z.eqb_neq pte 0)) by done.
  apply wp_bind. unfold load64. apply wp_gets. rewrite Hld, Wv. cbn [negb].
  set (n := Z.min (PGSIZE - (dst - va0)) (Z.of_nat (length bs))). assert (Hlen : (length bs <> 0)%nat) by (by destruct bs).
  assert (Hn : 0 < n <= Z.of_nat (length bs)) by lia. apply wp_bind, wp_modify, wp_ret. exists (Z.to_nat n). split; [lia|]. split.
  { cbn. intros Hlt'. rewrite MAXVA_eq in *. destruct Hp. rewrite u64_id by (unfold PGSIZE; lia). unfold PGSIZE in *. lia. }
  split; [by eexists|]. destruct (fresh_store r sz e s l va0 v (dst - va0) (take (Z.to_nat n) bs)) as [F' _]; auto; try lia.
  - rewrite length_take. lia.
  - by apply Forall_take.
  - by replace (va0 + (dst - va0)) with dst in F' by lia.
Qed.

(** [copyout] to mapped memory asks for no page. *)
Lemma fresh_copyout pv r sz e s l dst bs :
  fresh r sz e s l -> 0 <= dst -> dst + Z.of_nat (length bs) <= TRAPFRAME ->
  (forall va, dst <= va < dst + Z.of_nat (length bs) -> writable e va) -> byte_list bs ->
  wp (copyout pv r dst bs) s (fun rc s' => rc = 0 /\ fresh r sz (overwrite e dst bs) s' l).
Proof.
  intros F Hd Hend Hw Hb. unfold copyout.
  apply (wp_loop (fun x s1 => exists k, (k <= length bs)%nat /\ x.2 = drop k bs /\ ((k < length bs)%nat -> x.1 = dst + Z.of_nat k) /\
      fresh r sz (overwrite e dst (take k bs)) s1 l) (fun x => length x.2)).
  - intros [dv sr] s1 (k & Hk & Hsr & Hdv & F1). cbn [fst snd] in *. assert (Hlen : length sr = (length bs - k)%nat) by (by rewrite Hsr, length_drop).
    destruct sr as [|b sr'].
    { cbn in Hlen. apply wp_ret. split; [done|]. by rewrite take_ge in F1 by lia. }
    cbn in Hlen. rewrite (Hdv ltac:(lia)), Hsr.
    eapply wp_mono; [apply (fresh_copyout_step pv r sz _ s1 l (dst + Z.of_nat k) (drop k bs) F1); [lia|apply overwrite_writable, Hw; lia|by rewrite <- Hsr|by apply Forall_drop]|].
    cbn beta. rewrite length_drop. intros res s2 (n & Hn & Hnext & (next & ->) & F2). cbn in Hnext. split.
    + exists (k + n)%nat. cbn [fst snd]. rewrite drop_drop. split; [lia|]. split; [done|]. split; [intros; rewrite Hnext by lia; lia|].
      eapply fresh_view; [exact F2|]. intros va _. rewrite <- take_take_drop, <- overwrite_app, length_take, Nat.min_l by lia. done.
    + cbn [snd]. rewrite !length_drop. lia.
  - exists 0%nat. split; [lia|]. split; [done|]. split; [cbn; lia|]. eapply fresh_view; [exact F|]. intros va _. apply overwrite_nil.
  - cbn. lia.
Qed.

(** ** The guard page *)

Lemma clear_range v : 0 <= v < 2 ^ 64 -> 0 <= Z.land v (Z.lnot PTE_U) < 2 ^ 64.
Proof.
  intros Hv. assert (E : Z.land v (Z.lnot PTE_U) = Z.land v (Z.lnot PTE_U) mod 2 ^ 64).
  { rewrite <- Z.land_ones by lia. rewrite <- Z.land_assoc, (Z.land_comm (Z.lnot _)), Z.land_assoc, Z.land_ones, (Z.mod_small v) by lia. done. }
  rewrite E. apply Z.mod_pos_bound. lia.
Qed.

Lemma clear_PA v : PTE2PA (Z.land v (Z.lnot PTE_U)) = PTE2PA v.
Proof. unfold PTE2PA. rewrite Z.shiftr_land. change (Z.shiftr (Z.lnot PTE_U) 10) with (-1). by rewrite Z.land_m1_r. Qed.

Lemma clear_flags v : PTE_FLAGS (Z.land v (Z.lnot PTE_U)) = Z.land (PTE_FLAGS v) (Z.lnot PTE_U).
Proof. unfold PTE_FLAGS. by rewrite <- !Z.land_assoc, (Z.land_comm (Z.lnot _)). Qed.

Lemma clear_V v : has_flag (Z.land v (Z.lnot PTE_U)) PTE_V = has_flag v PTE_V.
Proof. unfold has_flag. by rewrite <- Z.land_assoc. Qed.

(** An entry that maps the same page with other flags. *)
Lemma reflag_space s r l va a v w :
  uspace TRAPFRAME (mem s) r l -> va_ok va -> pte_slot (mem s) r va = Some a -> xlate (mem s) r va = Some v ->
  0 <= w < 2 ^ 64 -> has_flag w PTE_V = true -> PTE2PA w = PTE2PA v ->
  let m' := st64 (mem s) a w in
  uspace TRAPFRAME m' r l /\ kept (mem s) m' r l l /\ (forall q, owned TRAPFRAME m' r l q <-> owned TRAPFRAME (mem s) r l q) /\
  (forall va', va_ok va' -> xlate m' r va' = if va' =? va then Some w else xlate (mem s) r va') /\
  (forall va', va_ok va' -> upage m' r va' = upage (mem s) r va').
Proof.
  intros Hu Hva Hslot Hx Hw HV HP m'. pose proof (us_tree _ _ _ _ Hu) as Ht.
  assert (Ex : forall va', va_ok va' -> xlate m' r va' = if va' =? va then Some w else xlate (mem s) r va').
  { intros va' Hva'. destruct (Z.eqb_spec va' va) as [->|Hne].
    - unfold m'. rewrite (leaf_store_same _ _ l va a w) by done. by rewrite HV.
    - by apply (leaf_store_other _ _ l va a w). }
  assert (Eu : forall va', va_ok va' -> upage m' r va' = upage (mem s) r va').
  { intros va' Hva'. unfold upage. rewrite Ex by done. destruct (Z.eqb_spec va' va) as [->|Hne]; [|done]. rewrite Hx. cbn. by rewrite HP. }
  pose proof (leaf_store_post (mem s) r l va a w Ht Hslot) as Hp. fold m' in Hp.
  assert (Epg : forall π, path_ok 2 π -> page_at m' r π = page_at (mem s) r π) by (intros; by apply (leaf_store_page _ _ l va a w)).
  split_and!; auto.
  - split; [apply Hp|..].
    + intros va' q Hva' Hlt. rewrite Eu by done. intros E. destruct (us_leaf _ _ _ _ Hu va' q Hva' Hlt E) as (? & ? & Ho). split_and!; auto.
      intros π Hπ. rewrite Epg by done. auto.
    + intros va1 va2 q H1 H2 L1 L2. rewrite !Eu by done. by apply (us_inj _ _ _ _ Hu).
  - by apply tbl_post_kept.
  - intros q. unfold owned. f_equiv. f_equiv.
    + f_equiv. intros π. split; intros [Hπ E]; (split; [done|]); [rewrite <- Epg|rewrite Epg]; done.
    + f_equiv. intros va'. split; intros (Hva' & Hlt & E); (split_and!; [done..|]); [rewrite <- Eu|rewrite Eu]; done.
Qed.

Lemma fresh_clear r sz e s l va :
  fresh r sz e s l -> va_ok va -> va < TRAPFRAME -> readable e va ->
  wp (uvmclear r va) s (fun _ s' => fresh r sz (clear_view e va) s' l).
Proof.
  intros F Hva Hlt Hrd. destruct TRAPFRAME_ok as [Hto Htm], TRAMPOLINE_ok as [Htro Htrm]. destruct F as [M Hv Hr Hu] eqn:EF. clear EF.
  destruct (fresh_page r sz e s l va F ltac:(destruct Hva; lia) Hrd) as (v & Hx & _). pose proof Hva as [_ Hal].
  assert (Epg : PGROUNDDOWN va = va) by (rewrite PGROUNDDOWN_eq; unfold PGSIZE in *; dlia). rewrite Epg in Hx.
  pose proof (md_space _ _ _ _ M) as Hps. pose proof (ps_user _ _ _ _ _ Hps) as Hus.
  destruct (copyout_entry r va s l v Hus Hlt Hx) as (a & Hslot & Ha & Hld). unfold uvmclear. apply wp_bind, walk_noalloc; [lia|].
  rewrite Hslot. cbn [default from_option id]. rewrite (proj2 (Z.eqb_neq a 0)) by done. apply wp_bind. unfold load64. apply wp_gets. rewrite Hld.
  unfold store64. apply wp_modify. set (w := Z.land v (Z.lnot PTE_U)).
  assert (Hvr : 0 <= v < 2 ^ 64) by (rewrite <- Hld; apply ld64_range; by apply (km_bytes s l), M).
  assert (HV : has_flag v PTE_V = true) by (unfold xlate in Hx; rewrite Hslot in Hx; cbn in Hx; rewrite Hld in Hx; by destruct (has_flag v PTE_V)).
  destruct (reflag_space s r l va a v w) as (Hus' & Hk & Ho & Ex & Eu); auto; [by apply clear_range|by unfold w; rewrite clear_V|apply clear_PA|].
  assert (Hkm : kmem_inv (set_mem (st64 (mem s) a w) s) l) by (eapply leaf_store_inv; [apply M|apply Hus|exact Hslot]).
  split; [| |done|done].
  - eapply (built_contained r sz s l); try done; cbn [mem set_mem]; [|by apply kept_contained].
    destruct Hps as [P1 P2 P3 P4 P5 P6]. split; try done.
    + intros va' Hva' Hge H1 H2. rewrite Ex by done. destruct (Z.eqb_spec va' va) as [->|Hne]; [|by apply P3]. rewrite P3 in Hx by done. done.
    + rewrite Ex by done. rewrite (proj2 (Z.eqb_neq _ _)) by lia. done.
    + rewrite Ex by done. rewrite (proj2 (Z.eqb_neq _ _)) by lia. done.
    + apply (spare_kept _ (mem s) _ r l); auto. intros va' Hva' _. rewrite Eu by done. by left.
  - intros va' Hva'. destruct (page_of va' Hva') as [Hp Hplt], (page_split va') as [Hsp Hmod]. cbn [mem set_mem]. unfold clear_view, ubyte. rewrite Ex by done.
    pose proof (page_between va (va + PGSIZE) va' Hal ltac:(unfold PGSIZE in *; dlia)) as Hb. pose proof (Hv va' Hva') as Hv'. unfold ubyte in Hv'.
    destruct (Z.eqb_spec (PGROUNDDOWN va') va) as [E|Hne].
    + assert ((va <=? va') && (va' <? va + PGSIZE) = true) as -> by (unfold PGSIZE in *; lia). rewrite <- Hv', E, Hx. unfold w. rewrite clear_flags, clear_PA.
      do 2 f_equal. eapply (kept_leaf (mem s) _ r l l va v); try done. lia.
    + assert ((va <=? va') && (va' <? va + PGSIZE) = false) as ->.
      { apply not_true_iff_false. intros E. apply Hne. destruct Hp. unfold PGSIZE in *. dlia. }
      rewrite <- Hv'. destruct (xlate (mem s) r (PGROUNDDOWN va')) as [v'|] eqn:Ex'; [|done]. do 2 f_equal.
      eapply (kept_leaf (mem s) _ r l l (PGROUNDDOWN va') v'); try done. lia.
Qed.

(** ** Giving it up *)

Lemma built_free r sz s l : built r sz s l ->
  wp (proc_freepagetable r sz) s (fun _ s' => exists l', kmem_inv s' l' /\ mheld s' = mheld s0 /\ outside_kept (mem s0) (mem s') l0 /\ forall q, q ∈ l' <-> q ∈ l0).
Proof.
  intros [M1 M2 M3 M4 M5]. eapply wp_mono; [apply (proc_freepagetable_spec r sz s l); try apply M2; done|]. cbn beta. intros _ s' (l' & Hk & Hh & Hq & Ho).
  assert (Eq : forall q, q ∈ l' <-> q ∈ l0) by (intros q; by rewrite Hq, M3). exists l'. split_and!; auto; [congruence|].
  intros q Hv Hl x Hx. rewrite (Ho q), (M4 q); auto. by rewrite Eq.
Qed.

(** ** Exchanging it for the old one *)

Lemma space_view m m' r l sz tf' :
  proc_space m r l sz tf' -> same_space m m' r -> (forall q, used m r q -> agree q PGSIZE m m') -> view_eq (ubyte m r) (ubyte m' r).
Proof.
  intros Hps Hss Hag va Hva. destruct (page_of va Hva) as [Hp Hlt], (page_split va). unfold ubyte. rewrite (ss_xlate _ _ _ Hss).
  destruct (xlate m r (PGROUNDDOWN va)) as [pte|] eqn:E; [|done]. do 2 f_equal. apply (Hag (PTE2PA pte)); [|lia].
  right. exists (PGROUNDDOWN va). split_and!; try done. unfold upage. by rewrite E.
Qed.

Lemma built_used r sz s l q : built r sz s l -> used (mem s) r q -> q ∈ l0 /\ (q ∉ l) /\ is_valid_pa q = true /\ q <> tf.
Proof.
  intros M Hq. destruct (used_valid _ _ _ _ _ _ (md_space _ _ _ _ M) Hq) as (Hv & Hl & Hne). split_and!; try done.
  apply (md_own _ _ _ _ M), owned_used. by right.
Qed.

Lemma frame_page q m m' x : mem_frame q m m' -> is_valid_pa q = true -> is_valid_pa x = true -> x <> q -> agree x PGSIZE m m'.
Proof. intros Hf Hq%is_valid_pa_spec Hx%is_valid_pa_spec Hne. by apply (frame_agree q x); [done|apply Hq|apply Hx|]. Qed.

Lemma built_exchange r sz s l old oldsz m1 :
  built r sz s l -> proc_space (mem s0) old l0 oldsz tf -> mem_frame tf (mem s) m1 -> bytes_ok m1 ->
  wp (proc_freepagetable old oldsz) (set_mem m1 s) (fun _ s2 => exists l2, kmem_inv s2 l2 /\ mheld s2 = mheld s0 /\ proc_space (mem s2) r l2 sz tf /\
    view_eq (ubyte (mem s) r) (ubyte (mem s2) r) /\ agree tf PGSIZE m1 (mem s2) /\
    (forall q, used (mem s2) r q <-> used (mem s) r q) /\ (forall q, q ∈ l2 <-> q ∈ l \/ used (mem s0) old q) /\
    (forall q, is_valid_pa q = true -> q ∉ l0 -> ~ used (mem s0) old q -> q <> tf -> agree q PGSIZE (mem s0) (mem s2))).
Proof.
  intros M Hold Hf Hb. pose proof (md_space _ _ _ _ M) as Hps. assert (Hsub : forall q, q ∈ l -> q ∈ l0) by (intros q Hq; apply (md_own _ _ _ _ M); by left).
  assert (Htfl : tf ∉ l) by (intros ?%Hsub; done).
  assert (Hag1 : forall q, is_valid_pa q = true -> q <> tf -> agree q PGSIZE (mem s) m1) by (intros q Hq Hne; by apply (frame_page tf)).
  destruct (proc_space_frame (mem s) m1 r l l sz tf Hps) as [Hps1 Hss1]; [|done|].
  { intros q Hq. destruct (built_used _ _ _ _ _ M Hq) as (_ & ? & ? & ?). split; auto. }
  assert (Hold1 : forall q, used (mem s0) old q -> agree q PGSIZE (mem s0) m1 /\ (q ∉ l)).
  { intros q Hq. destruct (used_valid _ _ _ _ _ _ Hold Hq) as (Hv & Hl & Hne). split; [|by intros ?%Hsub]. intros x Hx. rewrite (Hag1 q), (md_out _ _ _ _ M q); auto. }
  destruct (proc_space_frame (mem s0) m1 old l0 l oldsz tf Hold Hold1 Htfl) as [Hps0 Hss0].
  assert (Hk1 : kmem_inv (set_mem m1 s) l) by (eapply (kmem_inv_write s l tf); auto; apply M).
  eapply wp_mono; [apply (proc_freepagetable_spec old oldsz (set_mem m1 s) l); try apply Hps0; done|]. cbn [mem set_mem mheld].
  intros _ s2 (l2 & Hk2 & Hh2 & Hq2 & Ho2). exists l2.
  assert (E2 : forall q, q ∈ l2 <-> q ∈ l \/ used (mem s0) old q) by (intros q; rewrite Hq2, owned_used, (used_space _ _ _ _ Hss0); done).
  assert (Hr2 : forall q, used m1 r q -> agree q PGSIZE m1 (mem s2) /\ (q ∉ l2)).
  { intros q Hq. rewrite (used_space _ _ _ _ Hss1) in Hq. destruct (built_used _ _ _ _ _ M Hq) as (H1 & H2 & H3 & _).
    assert (q ∉ l2) by (rewrite E2; intros [?|Hu]; [done|]; by destruct (used_valid _ _ _ _ _ _ Hold Hu) as (_ & ? & _)). split; auto. }
  assert (Ht2 : tf ∉ l2) by (rewrite E2; intros [?|Hu]; [done|]; by destruct (used_valid _ _ _ _ _ _ Hold Hu) as (_ & _ & ?)).
  destruct (proc_space_frame m1 (mem s2) r l l2 sz tf Hps1 Hr2 Ht2) as [Hps2 Hss2]. split_and!; auto.
  - rewrite Hh2. apply M.
  - intros va Hva. rewrite (space_view m1 (mem s2) r l sz tf Hps1 Hss2 (fun q Hq => proj1 (Hr2 q Hq)) va Hva).
    apply (space_view (mem s) m1 r l sz tf Hps Hss1); [|done]. intros q Hq. destruct (built_used _ _ _ _ _ M Hq) as (_ & _ & ? & ?). auto.
  - intros q. by rewrite (used_space _ _ _ _ Hss2), (used_space _ _ _ _ Hss1).
  - intros q Hv Hl Hu Hne x Hx. rewrite (Ho2 q), (Hag1 q), (md_out _ _ _ _ M q); auto. rewrite E2. intros [?%Hsub|?]; done.
Qed.

Lemma fresh_roundup r sz e s l : fresh r sz e s l -> fresh r (PGROUNDUP sz) e s l /\ PGROUNDUP (PGROUNDUP sz) = PGROUNDUP sz.
Proof.
  intros F. destruct (fresh_size _ _ _ _ _ F) as (H1 & H2 & H3). assert (E : PGROUNDUP (PGROUNDUP sz) = PGROUNDUP sz) by (apply PGROUNDUP_id; split; [lia|done]).
  split; [|done]. destruct F as [[M1 [P1 P2 P3 P4 P5 P6] M3 M4 M5] Hv Hr Hu]. split; rewrite ?E; try done. split; try done. split; try done.
  - assert (2 ^ 27 < TRAPFRAME) by (by vm_compute). lia.
  - intros va Hva Hge. apply P3; [done|lia].
Qed.
End fresh.

(** ** Segments *)

(** User code could read all of the first [sz] bytes. *)
Definition solid (e : uview) (sz : Z) : Prop := forall va, 0 <= va < PGROUNDUP sz -> readable e va.

Lemma solid_overwrite e sz dst bs : solid e sz -> solid (overwrite e dst bs) sz.
Proof. intros He va Hva. by apply overwrite_readable, He. Qed.

Lemma get32_bounds d o : byte_list d -> 0 <= get32 d o < 2 ^ 32.
Proof.
  intros Hb0. unfold get32. assert (Hb : forall j x, d !! j = Some x -> 0 <= x < 256) by (intros j x E; by apply (Forall_lookup_1 _ _ _ _ Hb0 E)).
  destruct (d !! o) eqn:E0, (d !! (o + 1)%nat) eqn:E1, (d !! (o + 2)%nat) eqn:E2, (d !! (o + 3)%nat) eqn:E3; try lia.
  apply Hb in E0, E1, E2, E3. lia.
Qed.

Lemma get64_bounds d o : byte_list d -> 0 <= get64 d o < 2 ^ 64.
Proof. intros Hb. unfold get64. pose proof (get32_bounds d o Hb). pose proof (get32_bounds d (o + 4) Hb). lia. Qed.

Lemma flags2perm_range f : 0 <= flags2perm f < 1024.
Proof. unfold flags2perm. destruct (flag f 1), (flag f 2); by vm_compute. Qed.

Lemma file_bytes_ok C off n bs : byte_list C -> file_bytes C off n = Some bs -> byte_list bs.
Proof. intros HC. unfold file_bytes. destruct (_ || _); [|done]. intros [= <-]. unfold slice. by apply Forall_take, Forall_drop. Qed.

Lemma filled_readable e lo hi perm va : lo <= va < hi -> readable (fill_view e lo hi perm) va.
Proof.
  intros Hr. exists (Z.lor (uperm perm) PTE_V), 0. unfold fill_view. rewrite (proj2 (Z.leb_le _ _)), (proj2 (Z.ltb_lt _ _)) by lia. split; [done|].
  unfold has_flag. rewrite Z.land_lor_distr_l. unfold uperm. rewrite !Z.land_lor_distr_l. change (Z.land PTE_R PTE_U) with 0. change (Z.land PTE_V PTE_U) with 0.
  change (Z.land PTE_U PTE_U) with 16. rewrite Z.lor_0_l, Z.lor_0_r. destruct (Z.eqb_spec (Z.lor 16 (Z.land perm PTE_U)) 0) as [E|]; [|done].
  apply Z.lor_eq_0_iff in E as [E _]. done.
Qed.

Lemma solid_fill e sz sz' perm : solid e sz -> solid (fill_view e (PGROUNDUP sz) (PGROUNDUP sz') perm) sz'.
Proof.
  intros He va Hva. destruct (decide (PGROUNDUP sz <= va)); [apply filled_readable; lia|]. destruct (He va) as (fl & b & E & HU); [lia|].
  exists fl, b. unfold fill_view. rewrite (proj2 (Z.leb_gt _ _)) by lia. done.
Qed.

Lemma load_seg_solid C off e sz e' sz' : load_seg C off e sz = Some (e', sz') -> solid e sz -> solid e' sz' /\ sz <= sz'.
Proof.
  unfold load_seg. destruct (file_bytes C (u32 off) PROGHDR) as [ph|]; [|done]. cbn. destruct (negb _); [by intros [= <- <-]|]. destruct (_ || _); [done|]. destruct (_ =? 0); [done|].
  destruct (file_bytes C (u32 (ph_off ph)) (ph_filesz ph)) as [seg|]; [|done]. cbn. intros [= <- <-] He. split; [|lia]. by apply solid_overwrite, solid_fill.
Qed.

Lemma load_segs_solid C n : forall off e sz e' sz', load_segs C n off e sz = Some (e', sz') -> solid e sz -> solid e' sz' /\ sz <= sz'.
Proof.
  induction n as [|n IH]; intros off e sz e' sz'; cbn [load_segs]; [by intros [= <- <-]|].
  destruct (load_seg C off e sz) as [[e1 sz1]|] eqn:E; [|done]. cbn. intros E2 He. destruct (load_seg_solid _ _ _ _ _ _ E He) as [He1 Hle].
  destruct (IH _ _ _ _ _ E2 He1). split; [done|lia].
Qed.

Lemma load_segs_bound C n : forall off e sz e' sz', load_segs C n off e sz = Some (e', sz') -> sz <= TRAPFRAME -> sz' <= TRAPFRAME.
Proof.
  induction n as [|n IH]; intros off e sz e' sz'; cbn [load_segs]; [by intros [= <- <-]|].
  destruct (load_seg C off e sz) as [[e1 sz1]|] eqn:E; [|done]. cbn [mbind option_bind]. intros E2 Hs. eapply IH; [exact E2|]. revert E. unfold load_seg.
  destruct (file_bytes C (u32 off) PROGHDR) as [ph|]; [|done]. cbn [mbind option_bind]. destruct (negb _); [by intros [= <- <-]|].
  destruct (_ <? _); [done|]. destruct (Z.ltb_spec TRAPFRAME (ph_vaddr ph + ph_memsz ph)); [done|]. cbn [orb]. destruct (negb _); [done|]. destruct (_ =? 0); [done|].
  destruct (file_bytes C (u32 (ph_off ph)) (ph_filesz ph)) as [seg|]; [|done]. cbn [mbind option_bind]. intros [= _ <-]. lia.
Qed.

(** The image is larger than the segments. *)
Lemma image_size C n off e sz entry args im :
  load_segs C n off (fun _ => None) 0 = Some (e, sz) -> stack_image e sz entry args = Some im -> 0 <= sz <= im_sz im.
Proof.
  intros EW. assert (Hlo : 0 <= sz).
  { apply (load_segs_solid _ _ _ _ _ _ _ EW). intros va Hva. change (PGROUNDUP 0) with 0 in Hva. lia. }
  pose proof (load_segs_bound _ _ _ _ _ _ _ EW ltac:(by vm_compute)) as Hhi. destruct TRAPFRAME_ok as [_ Htm]. unfold stack_image.
  destruct (push_strings _ _ _ _) as [[[e1 sp] us]|]; [|done]. cbn [mbind option_bind]. case_if; [done|]. intros [= <-]. cbn [im_sz].
  destruct (PGROUNDUP_props sz) as (_ & ? & _); [lia|]. unfold USERSTACK, PGSIZE in *. lia.
Qed.

Lemma short_mono l sz sz' : sz <= sz' -> short l sz -> short l sz'.
Proof. unfold short. lia. Qed.

Lemma phnum_pos elf : byte_list elf -> 0 <= elf_phnum elf.
Proof.
  intros Hb. unfold elf_phnum, get16. destruct (elf !! 56%nat) as [a|] eqn:Ea, (elf !! (56 + 1)%nat) as [b|] eqn:Eb; try lia.
  apply (Forall_lookup_1 _ _ _ _ Hb) in Ea, Eb. lia.
Qed.

(** ** The code *)

Section code_spec.
Context `{HLS : LinkerSyms} (swtch : M (kernel fsys) unit) (fuel : nat) (Hfuel : can_wait fuel).
Context (rw : nat -> bool -> M (kernel fsys) unit) (Hrw : driver_ok rw).
Context (i : nat) (pid dev : Z) (sb : superblock) (start : Z) (Hly : layout sb start).
Context (V : Z -> block) (Hd : disk_ok sb V) (B : gset Z).
Context (ks : kernel fsys).
Implicit Types (k : kernel fsys) (x : inode) (P : machine -> Prop).
Abbreviation inop := (inop i pid dev).
Abbreviation inode_ok := (inode_ok dev sb).

(** The state since [ks]: memory as [P] says, processes woken, file system. *)
Definition during P k : Prop := P (k_m k) /\ woke (set_k_m (k_m k) ks) k.

Lemma during_woke P k k' : during P k -> woke k k' -> during P k'.
Proof. intros [HP W] W'. unfold during. rewrite (wk_m _ _ W'). split; [done|]. by eapply woke_trans. Qed.

Lemma during_mem P P' k s' : during P k -> P' s' -> during P' (set_k_m s' k).
Proof. intros [_ [W1 W2 W3 W4 W5 W6 W7]] HP. split; [done|]. by split. Qed.

Lemma during_mono P P' k : during P k -> (P (k_m k) -> P' (k_m k)) -> during P' k.
Proof. intros [HP W] HPP. split; auto. Qed.

Lemma inop_woke k0 V' L D B' k : inop k0 V' L D B' k -> woke k0 k.
Proof. intros (A & bs & H). destruct (he_woke _ _ _ _ _ _ _ (io_here _ _ _ _ _ _ _ _ _ _ _ H)). by split. Qed.

(** Code on memory in the middle of a transaction. *)
Lemma inop_on_m {A} (m : M machine A) P (R : A -> machine -> Prop) k0 k (Q : A -> kernel fsys -> Prop) :
  inop k0 V ∅ ∅ B k -> during P k0 -> (forall s, P s -> wp m s (fun a s' => mheld s' = mheld s /\ R a s')) ->
  (forall a k0' k', inop k0' V ∅ ∅ B k' -> k_files k0' = k_files k0 -> during (R a) k0' -> Q a k') -> wp (on_m m) k Q.
Proof.
  intros H HP Hm HQ. pose proof (inop_woke _ _ _ _ _ _ H) as W. pose proof (during_woke _ _ _ HP W) as HPk.
  apply wp_on_m. eapply wp_mono; [apply Hm, HPk|]. cbn beta. intros a s' [Hh Ha].
  apply (HQ a (set_k_files (k_files k0) (set_k_m s' k))); [by apply inop_touch|done|].
  eapply during_woke; [by eapply (during_mem P (R a)); [exact HPk|]|apply woke_files].
Qed.

(** ** Reading the file *)

Lemma readi_out k0 k ip x dst off n (Q : Z * dest -> kernel fsys -> Prop) :
  inop k0 V ∅ ∅ B k -> entry k0 ip x -> inode_ok V x -> 0 <= off < 2 ^ 32 -> 0 <= n < 2 ^ 31 -> i_size x < off \/ 2 ^ 32 <= off + n ->
  Q (0, dst) k -> wp (readi swtch fuel rw ip dst off n) k Q.
Proof.
  intros H Hx Hok Ho Hn Hout HQ. unfold readi. apply wp_bind. eapply inop_geti; [exact H|exact Hx|].
  destruct (Z.ltb_spec (i_size x) off) as [|Hge]; [by apply wp_ret|]. cbn [orb].
  assert (u32 (off + n) = off + n - 2 ^ 32) as -> by (unfold u32; dlia). rewrite (proj2 (Z.ltb_lt _ _)) by lia. by apply wp_ret.
Qed.

Lemma read_struct_spec k0 k ip x off n (Q : option (list Z) -> kernel fsys -> Prop) :
  inop k0 V ∅ ∅ B k -> entry k0 ip x -> inode_ok V x -> 0 <= off < 2 ^ 32 -> 0 < n < 2 ^ 31 ->
  (forall k', inop k0 V ∅ ∅ B k' -> Q (file_bytes (content V x) off n) k') -> wp (read_struct swtch fuel rw ip off n) k Q.
Proof.
  intros H Hx Hok Ho Hn HQ. unfold read_struct. apply wp_bind. pose proof (in_size _ _ _ _ Hok) as Hs. pose proof max_bytes as Hmb.
  unfold file_bytes in HQ. rewrite content_length, (proj2 (Z.eqb_neq n 0)), Z2Nat.id in HQ by lia. cbn [orb] in HQ.
  destruct (decide (i_size x < off \/ 2 ^ 32 <= off + n)) as [Hout|Hin].
  - eapply readi_out; [exact H|exact Hx|done|done|lia|done|]. apply wp_ret. rewrite (proj2 (Z.eqb_neq 0 n)) by lia.
    rewrite (proj2 (Z.leb_gt _ _)) in HQ by lia. by apply HQ.
  - eapply (readi_local swtch fuel Hfuel rw Hrw i pid dev sb start Hly k0 V B k ip x off n); try done; try lia. cbn zeta. intros k' H'. apply wp_ret.
    destruct (Z.leb_spec (off + n) (i_size x)).
    + rewrite Z.min_l, Z.eqb_refl by lia. by apply HQ.
    + rewrite (proj2 (Z.eqb_neq _ n)) by lia. by apply HQ.
Qed.

(** ** Loading a segment *)

Context (l0 : list Z) (tf : Z).
Abbreviation fresh_mem r sz e := (fun s => exists l, fresh (k_m ks) l0 tf r sz e s l).
Abbreviation built_mem r sz := (fun s => exists l, built (k_m ks) l0 tf r sz s l).

Lemma fresh_made r sz e k : during (fresh_mem r sz e) k -> during (built_mem r sz) k.
Proof. intros HD. eapply during_mono; [exact HD|]. intros [l F]. exists l. apply F. Qed.

(** The bytes read go to the page [v] that is mapped at [va]. *)
Definition page_sink (r sz : Z) (e : uview) (va v : Z) (got : list Z) (dst : dest) k : Prop :=
  dst = KernelDst (PTE2PA v + Z.of_nat (length got)) /\ during (fun s => fresh_mem r sz (overwrite e va got) s /\ xlate (mem s) r va = Some v) k.

Lemma page_sink_ok r sz e va v all :
  va_ok va -> va < TRAPFRAME -> Z.of_nat (length all) <= PGSIZE -> byte_list all -> is_valid_pa (PTE2PA v) = true ->
  sink_ok i pid dev all (page_sink r sz e va v).
Proof.
  intros Hva Hlt Hlen Hby Hval got dst k0 V' L B' k bs Q (-> & HD) Hpre H HQ. pose proof (inop_woke _ _ _ _ _ _ H) as W.
  pose proof (during_woke _ _ _ HD W) as HDk. destruct (proj1 HDk) as [[l F] Hx]. apply is_valid_pa_pos in Hval.
  pose proof (prefix_length _ _ Hpre) as Hle. rewrite length_app in Hle.
  assert (Hbs : byte_list bs) by (destruct Hpre as [e' ->]; apply Forall_app in Hby as [[_ Hby]%Forall_app _]; done).
  destruct (fresh_store _ _ _ r sz _ (k_m k) l va v (Z.of_nat (length got)) bs F) as [F' Hx']; try done; try lia.
  unfold either_copyout. apply wp_bind, wp_on_m, wp_modify, wp_ret. set (s' := set_mem _ (k_m k)) in *.
  apply (HQ _ (set_k_files (k_files k0) (set_k_m s' k))); [|done|by apply inop_touch]. split.
  - rewrite u64_id, length_app by (unfold PGSIZE in *; lia). f_equal. lia.
  - eapply during_woke; [eapply (during_mem _ _ _ s' HDk)|apply woke_files]. split; [|exact (eq_trans (Hx' va) Hx)].
    exists l. eapply fresh_view; [exact F'|]. intros a _. by rewrite overwrite_app.
Qed.

(** One page of a segment. *)
Lemma loadseg_page r sz e k0 k ip x va off n (Q : Z * dest -> kernel fsys -> Prop) v :
  inop k0 V ∅ ∅ B k -> entry k0 ip x -> inode_ok V x -> byte_list (content V x) ->
  during (fun s => fresh_mem r sz e s /\ xlate (mem s) r va = Some v) k0 -> va_ok va -> va < TRAPFRAME -> is_valid_pa (PTE2PA v) = true ->
  0 <= off < 2 ^ 32 -> 0 < n <= PGSIZE ->
  match file_bytes (content V x) off n with
  | Some bs => forall k0' k' d, inop k0' V ∅ ∅ B k' -> k_files k0' = k_files k0 -> during (fresh_mem r sz (overwrite e va bs)) k0' -> Q (n, d) k'
  | None => forall m k0' k' d, 0 <= m < n -> inop k0' V ∅ ∅ B k' -> k_files k0' = k_files k0 -> during (built_mem r sz) k0' -> Q (m, d) k'
  end ->
  wp (readi swtch fuel rw ip (KernelDst (PTE2PA v)) off n) k Q.
Proof.
  intros H Hx Hok Hby HD Hva Hlt Hval Ho Hn HQ. pose proof (in_size _ _ _ _ Hok) as Hs. pose proof max_bytes as Hmb.
  unfold file_bytes in HQ. rewrite content_length, (proj2 (Z.eqb_neq n 0)), Z2Nat.id in HQ by lia. cbn [orb] in HQ.
  assert (HD' : during (fresh_mem r sz e) k0) by (eapply during_mono; [exact HD|]; by intros [? _]).
  destruct (decide (i_size x < off \/ 2 ^ 32 <= off + n)) as [Hout|Hin].
  - eapply readi_out; [exact H|exact Hx|done|done|unfold PGSIZE in *; lia|done|].
    rewrite (proj2 (Z.leb_gt _ _)) in HQ by lia. apply (HQ 0 k0); [lia|done|done|]. by eapply fresh_made.
  - eapply (readi_spec swtch fuel Hfuel rw Hrw i pid dev sb start Hly k0 V B k ip x _ off n (page_sink r sz e va v)); try done; try lia.
    + apply page_sink_ok; try done; unfold slice; [rewrite length_take; lia|by apply Forall_take, Forall_drop].
    + split; [cbn; f_equal; lia|]. eapply during_mono; [exact HD|]. intros [[l F] Hx']. split; [|done]. exists l.
      eapply fresh_view; [exact F|]. intros a _. apply overwrite_nil.
    + cbn zeta. intros d k0' k' (_ & HD2) Hf H'.
      assert (HD3 : during (fresh_mem r sz (overwrite e va (slice (content V x) (Z.to_nat off) (Z.to_nat (Z.min n (i_size x - off)))))) k0') by (eapply during_mono; [exact HD2|]; by intros [? _]).
      destruct (Z.leb_spec (off + n) (i_size x)).
      * rewrite Z.min_l in HD3 |- * by lia. by eapply HQ.
      * apply (HQ _ k0'); [lia|done|done|]. by eapply fresh_made.
Qed.

Lemma walkaddr_fresh r sz e va s :
  fresh_mem r sz e s -> va_ok va -> va < TRAPFRAME -> readable e va ->
  wp (walkaddr r va) s (fun pa s' => mheld s' = mheld s /\ fresh_mem r sz e s' /\ exists v, pa = PTE2PA v /\ pa <> 0 /\ is_valid_pa pa = true /\ xlate (mem s') r va = Some v).
Proof.
  intros [l F] Hva Hlt Hrd. pose proof Hva as [Hb Hal]. destruct TRAPFRAME_ok as [_ Htm].
  destruct (fresh_page _ _ _ r sz e s l va F ltac:(lia) Hrd) as (v & Hx & _ & Hpa & Hne & Hval & _).
  assert (Epg : PGROUNDDOWN va = va) by (rewrite PGROUNDDOWN_eq; unfold PGSIZE in *; dlia). rewrite Epg in Hx, Hpa.
  eapply walkaddr_spec; [apply (ps_user _ _ _ _ _ (md_space _ _ _ _ _ _ _ (fr_made _ _ _ _ _ _ _ _ F)))|].
  rewrite (proj2 (Z.leb_gt _ _)), Hpa by lia. split; [done|]. split; [by exists l|]. by exists v.
Qed.

Lemma loadseg_spec r sz e k0 k ip x va off n (Q : Z -> kernel fsys -> Prop) :
  inop k0 V ∅ ∅ B k -> entry k0 ip x -> inode_ok V x -> byte_list (content V x) -> during (fresh_mem r sz e) k0 -> solid e sz ->
  va mod PGSIZE = 0 -> 0 <= va -> 0 <= n -> va + n <= PGROUNDUP sz <= 2 ^ 27 -> 0 <= off < 2 ^ 32 ->
  match file_bytes (content V x) off n with
  | Some bs => forall k0' k', inop k0' V ∅ ∅ B k' -> k_files k0' = k_files k0 -> during (fresh_mem r sz (overwrite e va bs)) k0' -> Q 0 k'
  | None => forall k0' k', inop k0' V ∅ ∅ B k' -> k_files k0' = k_files k0 -> during (built_mem r sz) k0' -> Q (-1) k'
  end ->
  wp (loadseg swtch fuel rw r va ip off n) k Q.
Proof.
  intros H Hx Hok Hby HD Hso Hal Hva Hn Hend Ho HQ. pose proof (in_size _ _ _ _ Hok) as Hs. pose proof max_bytes as Hmb.
  set (C := content V x) in *. assert (El : Z.of_nat (length C) = i_size x) by (unfold C; rewrite content_length; lia).
  assert (Htp : 2 ^ 27 < TRAPFRAME) by (by vm_compute). unfold loadseg.
  apply (wp_loop (fun j k' => 0 <= j < n + PGSIZE /\ j mod PGSIZE = 0 /\ (j = 0 \/ off + Z.min j n <= i_size x) /\ exists k0',
      inop k0' V ∅ ∅ B k' /\ k_files k0' = k_files k0 /\ during (fresh_mem r sz (overwrite e va (slice C (Z.to_nat off) (Z.to_nat (Z.min j n))))) k0')
    (fun j => Z.to_nat (n - j))).
  - intros j k' (Hj & Hja & Hjs & k1 & H1 & Hf1 & HD1). destruct (Z.ltb_spec j n) as [Hlt|Hge].
    + rewrite Z.min_l in Hjs, HD1 by lia. rewrite u64_id by (unfold PGSIZE in *; lia). apply wp_bind.
      assert (Hvj : va_ok (va + j)) by (split; [lia|unfold PGSIZE in *; dlia]).
      set (e1 := overwrite e va (slice C (Z.to_nat off) (Z.to_nat j))) in *.
      eapply inop_on_m; [exact H1|exact HD1| |].
      { intros s Hs'. apply (walkaddr_fresh r sz e1); [done|done|lia|]. apply overwrite_readable, Hso. unfold PGSIZE in *. lia. }
      intros pa k2 k3 H2 Hf2 HD2. destruct (proj1 HD2) as (_ & v & -> & Hne & Hval & Hxv). rewrite (proj2 (Z.eqb_neq _ 0)) by done.
      assert (Hoj : 0 <= off + j < 2 ^ 32) by lia. rewrite (u32_id (n - j)), (u32_id (off + j)) by lia. apply wp_bind.
      set (m := if n - j <? PGSIZE then n - j else PGSIZE). assert (Hm : 0 < m <= PGSIZE /\ m <= n - j /\ (m = PGSIZE \/ m = n - j)) by (unfold m, PGSIZE; case_if; lia).
      eapply (loadseg_page r sz e1 k2 k3 ip x (va + j) (off + j) m _ v); try done; try lia.
      * eapply entry_files; [|exact Hx]. congruence.
      * eapply during_mono; [exact HD2|]. by intros (F & _).
      * fold C. unfold file_bytes. rewrite (proj2 (Z.eqb_neq m 0)), El by lia. cbn [orb]. destruct (Z.leb_spec (off + j + m) (i_size x)) as [Hin|Hout].
        -- intros k4 k5 d H4 Hf4 HD4. cbn [fst]. rewrite (u32_id m), Z.eqb_refl by (unfold PGSIZE in *; lia). apply wp_ret. rewrite u32_id by (unfold PGSIZE in *; lia).
           split; [|unfold PGSIZE in *; lia]. assert (Emin : Z.min (j + PGSIZE) n = j + m) by lia.
           split; [unfold PGSIZE in *; lia|]. split; [unfold PGSIZE in *; dlia|]. split; [right; lia|]. exists k4. split; [done|]. split; [congruence|].
           rewrite Emin. eapply during_mono; [exact HD4|]. intros [l F]. exists l. eapply fresh_view; [exact F|]. intros a _. unfold e1.
           rewrite (Z2Nat.inj_add off j), (Z2Nat.inj_add j m), slice_app, <- overwrite_app by lia. do 2 f_equal. unfold slice. rewrite length_take, length_drop. lia.
        -- intros q k4 k5 d Hq H4 Hf4 HD4. cbn [fst]. rewrite u32_id, (proj2 (Z.eqb_neq q m)) by (unfold PGSIZE in *; lia). cbn [negb]. apply wp_ret.
           unfold file_bytes in HQ. rewrite (proj2 (Z.eqb_neq n 0)), El, (proj2 (Z.leb_gt _ _)) in HQ by lia. eapply HQ; [exact H4|congruence|done].
    + apply wp_ret. rewrite Z.min_r in Hjs, HD1 by lia. unfold file_bytes in HQ.
      assert ((n =? 0) || (off + n <=? Z.of_nat (length C)) = true) as Et by lia. rewrite Et in HQ. by eapply HQ.
  - split; [unfold PGSIZE; lia|]. split; [done|]. split; [by left|]. exists k0. split; [done|]. split; [done|]. rewrite Z.min_l by lia.
    eapply during_mono; [exact HD|]. intros [l F]. exists l. eapply fresh_view; [exact F|]. intros a _. unfold slice. rewrite take_0. apply overwrite_nil.
  - lia.
Qed.

(** ** The program headers *)

Context (Hk0 : kmem_inv (k_m ks) l0).
Abbreviation short := (short l0).

Lemma exec_segment_spec r sz e k0 k ip x off (Q : bool * Z -> kernel fsys -> Prop) :
  inop k0 V ∅ ∅ B k -> entry k0 ip x -> inode_ok V x -> byte_list (content V x) -> during (fresh_mem r sz e) k0 -> solid e sz ->
  (forall sz1 k0' k', inop k0' V ∅ ∅ B k' -> k_files k0' = k_files k0 -> during (built_mem r sz1) k0' ->
     (forall e' sz', load_seg (content V x) off e sz = Some (e', sz') -> short sz') -> Q (false, sz1) k') ->
  (forall e' sz' k0' k', load_seg (content V x) off e sz = Some (e', sz') -> inop k0' V ∅ ∅ B k' -> k_files k0' = k_files k0 ->
     during (fresh_mem r sz' e') k0' -> Q (true, sz') k') ->
  wp (exec_segment swtch fuel rw r ip off sz) k Q.
Proof.
  intros H Hx Hok Hby HD Hso Hbad Hgood. pose proof (fresh_made _ _ _ _ HD) as HM. unfold load_seg in Hbad, Hgood.
  unfold exec_segment. apply wp_bind. eapply read_struct_spec; [exact H|exact Hx|done|apply u32_range|done|]. intros k1 H1.
  destruct (file_bytes (content V x) (u32 off) PROGHDR) as [ph|] eqn:Eph; [|by apply wp_ret, (Hbad sz k0)]. cbn [mbind option_bind] in Hbad, Hgood.
  pose proof (file_bytes_ok _ _ _ _ Hby Eph) as Hph. pose proof (get64_bounds ph 16 Hph) as Bv. pose proof (get64_bounds ph 32 Hph) as Bf. pose proof (get64_bounds ph 40 Hph) as Bm.
  fold (ph_vaddr ph) in Bv. fold (ph_filesz ph) in Bf. fold (ph_memsz ph) in Bm.
  destruct (negb (ph_type ph =? ELF_PROG_LOAD)); [by apply wp_ret, (Hgood e sz k0)|].
  destruct (ph_memsz ph <? ph_filesz ph) eqn:Emf; [by apply wp_ret, (Hbad sz k0)|]. apply Z.ltb_ge in Emf. cbn [orb] in Hbad, Hgood.
  assert (Htp : 2 ^ 27 < TRAPFRAME < 2 ^ 64) by (by vm_compute).
  destruct (Z.leb_spec (2 ^ 64) (ph_vaddr ph + ph_memsz ph)) as [Hov|Hov].
  { rewrite (proj2 (Z.ltb_lt TRAPFRAME _)) in Hbad by lia. assert (u64 (ph_vaddr ph + ph_memsz ph) = ph_vaddr ph + ph_memsz ph - 2 ^ 64) as -> by (unfold u64; dlia). rewrite (proj2 (Z.ltb_lt _ _)) by lia. by apply wp_ret, (Hbad sz k0). }
  rewrite u64_id, (proj2 (Z.ltb_ge _ _)) by lia.
  destruct (Z.eqb_spec (ph_vaddr ph mod PGSIZE) 0) as [Hal|]; cbn [negb] in Hbad, Hgood |- *; rewrite ?orb_true_r, ?orb_false_r in Hbad, Hgood; [|by apply wp_ret, (Hbad sz k0)].
  apply wp_bind. set (nsz := ph_vaddr ph + ph_memsz ph) in *. set (perm := flags2perm (ph_flags ph)) in *.
  eapply (inop_on_m _ _ (fun rc s' => (rc = Z.max sz nsz /\ rc <> 0 /\ fresh_mem r rc (fill_view e (PGROUNDUP sz) (PGROUNDUP rc) perm) s') \/
      (rc = 0 /\ (short nsz \/ Z.max sz nsz = 0) /\ built_mem r sz s'))); [exact H1|exact HD| |].
  { intros s [l F]. pose proof (proj1 (fresh_size (k_m ks) l0 tf Hk0 _ _ _ _ _ F)) as Hsz.
    eapply wp_mono; [apply (fresh_alloc (k_m ks) l0 tf Hk0 r sz e s l nsz perm F); [lia|apply flags2perm_range]|].
    cbn beta. intros rc s' (l' & [[-> F']|(-> & Hsh & M')]); pose proof (md_held _ _ _ _ _ _ _ (fr_made _ _ _ _ _ _ _ _ F)) as Hh.
    - pose proof (fr_made _ _ _ _ _ _ _ _ F') as M'. split; [rewrite (md_held _ _ _ _ _ _ _ M'); congruence|].
      destruct (decide (Z.max sz nsz = 0)) as [E|Hne]; [right|left; split_and!; [done|done|by exists l']].
      split; [done|]. split; [by right|]. exists l'. rewrite E in M'. by replace sz with 0 by lia.
    - split; [rewrite (md_held _ _ _ _ _ _ _ M'); congruence|]. right. split_and!; [done|by left|by exists l']. }
  intros rc k2 k3 H2 Hf2 HD2. pose proof (proj1 HD2) as [(-> & Hne & [l F])|(-> & Hsh & _)].
  2:{ apply wp_ret, (Hbad sz k2 k3 H2 Hf2); [eapply during_mono; [exact HD2|]; intros [(_ & Hne & _)|(_ & _ & M)]; done|].
      intros e' sz'. destruct (_ <? _); [done|]. destruct (Z.eqb_spec (Z.max sz nsz) 0); [done|]. destruct (file_bytes (content V x) (u32 (ph_off ph)) (ph_filesz ph)); [|done].
      cbn. intros [= _ <-]. destruct Hsh; [unfold Exec.short in *; lia|done]. }
  set (sz1 := Z.max sz nsz) in *. rewrite (proj2 (Z.eqb_neq sz1 0)) in Hbad, Hgood |- * by done.
  pose proof (fresh_size (k_m ks) l0 tf Hk0 _ _ _ _ _ F) as (Hs1 & Hs2 & _). rewrite (proj2 (Z.ltb_ge TRAPFRAME nsz)) in Hbad, Hgood by lia. assert (Hin : ph_vaddr ph + ph_filesz ph <= sz1) by lia.
  rewrite (u32_id (ph_filesz ph)) by lia. apply wp_bind. set (e1 := fill_view e (PGROUNDUP sz) (PGROUNDUP sz1) perm) in *.
  assert (HD3 : during (fresh_mem r sz1 e1) k2) by (eapply during_mono; [exact HD2|]; intros [(_ & _ & M)|(E & _)]; done).
  eapply (loadseg_spec r sz1 e1 k2 k3 ip x); try done; try lia; [by eapply entry_files|by apply solid_fill|apply u32_range|].
  destruct (file_bytes (content V x) (u32 (ph_off ph)) (ph_filesz ph)) as [seg|]; intros k4 k5 H4 Hf4 HD4; apply wp_ret; cbn [Z.ltb Z.compare negb].
  - by eapply Hgood; [|exact H4|congruence|].
  - by eapply Hbad; [exact H4|congruence| |].
Qed.

Lemma exec_segments_spec r k0 k ip x elf (Q : bool * Z -> kernel fsys -> Prop) :
  inop k0 V ∅ ∅ B k -> entry k0 ip x -> inode_ok V x -> byte_list (content V x) -> during (fresh_mem r 0 (fun _ => None)) k0 -> 0 <= elf_phnum elf ->
  let W := load_segs (content V x) (Z.to_nat (elf_phnum elf)) (i32 (elf_phoff elf)) (fun _ => None) 0 in
  (forall sz1 k0' k', inop k0' V ∅ ∅ B k' -> k_files k0' = k_files k0 -> during (built_mem r sz1) k0' -> (forall e' sz', W = Some (e', sz') -> short sz') -> Q (false, sz1) k') ->
  (forall e' sz' k0' k', W = Some (e', sz') -> inop k0' V ∅ ∅ B k' -> k_files k0' = k_files k0 -> during (fresh_mem r sz' e') k0' -> Q (true, sz') k') ->
  wp (exec_segments swtch fuel rw r ip elf) k Q.
Proof.
  intros H Hx Hok Hby HD Hn W Hbad Hgood. unfold exec_segments. set (N := elf_phnum elf) in *.
  apply (wp_loop (fun '(j, off, sz) k' => 0 <= j <= N /\ exists e k0', solid e sz /\ load_segs (content V x) (Z.to_nat (N - j)) off e sz = W /\
      inop k0' V ∅ ∅ B k' /\ k_files k0' = k_files k0 /\ during (fresh_mem r sz e) k0') (fun '(j, _, _) => Z.to_nat (N - j))).
  - intros [[j off] sz] k' (Hj & e & k1 & He & EW & H1 & Hf1 & HD1). destruct (Z.ltb_spec j N) as [Hlt|Hge].
    + replace (Z.to_nat (N - j)) with (S (Z.to_nat (N - (j + 1)))) in EW by lia. cbn [load_segs] in EW. apply wp_bind.
      eapply exec_segment_spec; [exact H1|by eapply entry_files|done|done|exact HD1|done|..].
      * intros sz1 k2 k3 H2 Hf2 HD2 Hsh. apply wp_ret, (Hbad sz1 k2); [done|congruence|done|]. intros e' sz' Ew. rewrite Ew in EW.
        destruct (load_seg (content V x) off e sz) as [[e1 sz2]|] eqn:E1; [|done]. cbn in EW. specialize (Hsh _ _ eq_refl).
        destruct (load_seg_solid _ _ _ _ _ _ E1 He) as [He1 _]. destruct (load_segs_solid _ _ _ _ _ _ _ EW He1). unfold Exec.short in *. lia.
      * intros e1 sz1 k2 k3 E1 H2 Hf2 HD2. apply wp_ret. rewrite E1 in EW. cbn in EW. destruct (load_seg_solid _ _ _ _ _ _ E1 He) as [He1 _].
        split; [|lia]. split; [lia|]. exists e1, k2. split_and!; try done. congruence.
    + apply wp_ret. replace (Z.to_nat (N - j)) with 0%nat in EW by lia. cbn in EW. by eapply Hgood.
  - split; [lia|]. exists (fun _ => None), k0. rewrite Z.sub_0_r. split_and!; try done. intros va Hva. change (PGROUNDUP 0) with 0 in Hva. lia.
  - lia.
Qed.
End code_spec.

(** ** The stack and the exchange *)

Section stack_spec.
Context `{HLS : LinkerSyms} (swtch : M (kernel fsys) unit) (fuel : nat) (rw : nat -> bool -> M (kernel fsys) unit).
Context (i : nat) (ks : kernel fsys) (p : proc) (l0 : list Z).
Context (Hinv : kinv ks l0) (Hcur : k_cur ks = Some i) (Hp : k_procs ks !! i = Some p) (Hlive : p_state p <> UNUSED).
Implicit Types (k : kernel fsys).
Abbreviation tf := (p_trapframe p).
Abbreviation fresh_mem r sz e := (fun s => exists l, fresh (k_m ks) l0 tf r sz e s l).
Abbreviation built_mem r sz := (fun s => exists l, built (k_m ks) l0 tf r sz s l).
Abbreviation during := (during ks).

Lemma exec_self : p_pagetable p <> 0 /\ tf <> 0 /\ is_valid_pa tf = true /\ (tf ∉ l0) /\ proc_space (mem (k_m ks)) (p_pagetable p) l0 (p_sz p) tf.
Proof.
  destruct (wf_live _ _ _ (pw_proc _ _ (ki_wf _ _ Hinv) i p Hp) Hlive) as (_ & Hpt & Ht). pose proof (pm_proc _ _ _ (ki_mem _ _ Hinv) i p Hp) as Hm.
  destruct (foot_valid _ _ _ tf Hm) as [Hv Hl]; [by left|]. unfold proc_mem in Hm. rewrite (proj2 (Z.eqb_neq _ 0)) in Hm by done. destruct Hm as [_ Hps]. done.
Qed.

Lemma during_self P k : during P k -> k_cur k = Some i /\ k_procs k !! i = Some p.
Proof.
  intros [_ W]. pose proof (wk_cur _ _ W) as Ec. cbn in Ec. split; [congruence|]. destruct (wk_proc _ _ W i p Hp) as (p' & Hp' & [->|(Hne & _)]); [done|]. by cbn in Hne.
Qed.

(** The invariant of the processes, in the state [ks] but for wakeups. *)
Lemma during_inv P k : during P k -> kinv (set_k_m (k_m ks) k) l0.
Proof. intros [_ [W1 W2 W3 W4 W5 W6 W7]]. eapply woke_kinv; [|exact Hinv]. by split. Qed.

Definition exec_name (path : list Z) : list Z := str_copy (p_name p) (last_elem path path) 16.

(** The process after exec. *)
Definition exec_proc (path : list Z) (im : image) (r : Z) : proc := set_sz (im_sz im) (set_pagetable r (set_name (exec_name path) p)).

Record execed (path : list Z) (im : image) (r : Z) (k' : kernel fsys) : Prop := {
  xc_proc : k_procs k' !! i = Some (exec_proc path im r);
  xc_others j q : j <> i -> k_procs ks !! j = Some q -> exists q', k_procs k' !! j = Some q' /\ (q' = q \/ p_state q = SLEEPING /\ q' = set_state RUNNABLE q);
  xc_held : held k' = held ks;
  xc_cur : k_cur k' = Some i;
  xc_inv : exists l', kinv k' l' /\ forall q, q ∈ l' \/ used (mem (k_m k')) r q <-> q ∈ l0 \/ used (mem (k_m ks)) (p_pagetable p) q;
  xc_view : view_eq (im_view im) (ubyte (mem (k_m k')) r);
  xc_epc : ld64 (mem (k_m k')) (tf + TF_epc) = im_entry im;
  xc_sp : ld64 (mem (k_m k')) (tf + TF_sp) = im_sp im;
  xc_a1 : ld64 (mem (k_m k')) (tf + TF_a1) = im_sp im;
  xc_regs o : 0 <= o < TF_SIZE -> o < TF_epc \/ TF_epc + 8 <= o -> o < TF_sp \/ TF_sp + 8 <= o -> o < TF_a1 \/ TF_a1 + 8 <= o ->
    mem (k_m k') (tf + o) = mem (k_m ks) (tf + o)
}.

(** The three registers. *)
Definition exec_regs (m : memory) (sp entry : Z) : memory := st64 (st64 (st64 m (tf + TF_a1) sp) (tf + TF_epc) entry) (tf + TF_sp) sp.

Lemma exec_regs_frame m sp entry : mem_frame tf m (exec_regs m sp entry) /\ (bytes_ok m -> bytes_ok (exec_regs m sp entry)).
Proof.
  split; [|intros; by repeat apply st_bytes_ok]. intros x Hx. unfold exec_regs, TF_a1, TF_epc, TF_sp, PGSIZE in *. rewrite !st_other by lia. done.
Qed.

Lemma exec_regs_read m sp entry : 0 <= sp < 2 ^ 64 -> 0 <= entry < 2 ^ 64 -> let m' := exec_regs m sp entry in
  ld64 m' (tf + TF_epc) = entry /\ ld64 m' (tf + TF_sp) = sp /\ ld64 m' (tf + TF_a1) = sp /\
  forall o, o < TF_epc \/ TF_epc + 8 <= o -> o < TF_sp \/ TF_sp + 8 <= o -> o < TF_a1 \/ TF_a1 + 8 <= o -> m' (tf + o) = m (tf + o).
Proof.
  intros Hs He. unfold exec_regs, TF_a1, TF_epc, TF_sp. cbn zeta. split_and!.
  - rewrite ld_st_other by lia. by apply ld64_st64.
  - by apply ld64_st64.
  - rewrite !ld_st_other by lia. by apply ld64_st64.
  - intros o H1 H2 H3. by rewrite !st_other by lia.
Qed.

Lemma exec_commit_spec path r sz e sp entry argc k :
  during (fresh_mem r sz e) k -> r <> 0 -> 0 <= sp < 2 ^ 64 -> 0 <= entry < 2 ^ 64 ->
  wp (exec_commit i path (p_sz p) r sz sp entry argc) k (fun rc k' => rc = argc /\ k_files k' = k_files k /\ execed path (Image e sz sp entry argc) r k').
Proof.
  intros HD Hr Hsp Hen. destruct exec_self as (Hpt & Ht0 & Htv & Htl & Hold). destruct (during_self _ _ HD) as [Ec Ep]. pose proof (during_inv _ _ HD) as Hkv.
  destruct HD as [[l F] W]. destruct (exec_regs_frame (mem (k_m k)) sp entry) as [Hf Hb]. pose proof (fr_made _ _ _ _ _ _ _ _ F) as M.
  unfold exec_commit. apply wp_bind, (wp_getp i p); [done|]. apply wp_bind, wp_on_m. unfold store64. apply wp_modify. apply wp_bind. eapply wp_setp; [exact Ep|].
  apply wp_bind. eapply wp_setp; [cbn; apply list_lookup_insert_eq; by eapply lookup_lt_Some|]. apply wp_bind, wp_on_m, wp_modify, wp_bind, wp_on_m, wp_modify. apply wp_bind, wp_on_m.
  cbn [k_m k_procs set_k_procs set_k_m mem set_mem]. rewrite list_insert_insert_eq. fold (exec_name path). change (st64 (st64 (st64 _ _ _) _ _) _ _) with (exec_regs (mem (k_m k)) sp entry).
  eapply wp_mono; [exact (built_exchange (k_m ks) l0 tf Htv Htl r sz (k_m k) l (p_pagetable p) (p_sz p) _ M Hold Hf (Hb (km_bytes _ _ (md_kmem _ _ _ _ _ _ _ M))))|].
  cbn beta. intros _ s2 (l2 & Hk2 & Hh2 & Hps2 & Hv2 & Hag & Hu2 & Hl2 & Ho2). apply wp_ret. split; [done|]. split; [done|].
  destruct (exec_regs_read (mem (k_m k)) sp entry Hsp Hen) as (R1 & R2 & R3 & R4). set (m1 := exec_regs (mem (k_m k)) sp entry) in *.
  assert (Hld : forall o, 0 <= o -> o + 8 <= PGSIZE -> ld64 (mem s2) (tf + o) = ld64 m1 (tf + o)) by (intros o H1 H2; apply ld_agree; intros x Hx; apply Hag; lia).
  assert (Hsub : forall q, q ∈ l -> q ∈ l0) by (intros q Hq; apply (md_own _ _ _ _ _ _ _ M); by left).
  pose proof (lookup_lt_Some _ _ _ Ep) as Hlt. set (p' := set_sz sz (set_pagetable r (set_name (exec_name path) p))).
  split; cbn [k_m k_procs k_cur set_k_m set_k_procs im_sz im_view im_entry im_sp].
  - by apply list_lookup_insert_eq.
  - intros j q Hj Hq. rewrite list_lookup_insert_ne by done. destruct (wk_proc _ _ W j q Hq) as (q' & Hq' & [->|(_ & Hs & ->)]); eauto 6.
  - exact Hh2.
  - exact Ec.
  - exists l2. split.
    + split; cbn [k_m k_procs k_nextpid set_k_m set_k_procs]; [done| | |apply Hkv].
      * eapply (procs_mem_step (mem (k_m ks)) (mem s2) l0 l2 _ i p p'); [apply (ki_mem _ _ Hkv)|exact Ep|..].
        -- unfold proc_mem, p'. cbn. by rewrite (proj2 (Z.eqb_neq r 0)) by done.
        -- intros q [[_ ->]|[_ Hu]]; cbn in *; [right; by left|]. left. apply Hu2 in Hu. by apply (built_used _ _ _ _ _ _ _ _ M).
        -- intros q Hq Hql Hqf. split.
           ++ apply Ho2; try done; [intros Hu; apply Hqf; by right|intros ->; apply Hqf; by left].
           ++ rewrite Hl2. intros [?%Hsub|Hu]; [done|]. apply Hqf. by right.
      * eapply procs_wf_insert; [apply (ki_wf _ _ Hkv)|exact Ep|done| |by left].
        destruct (pw_proc _ _ (ki_wf _ _ Hkv) i p Ep) as [w1 w2 w3 w4 w5 w6]. split; try done; cbn.
        -- intros _. destruct (w2 Hlive) as (? & _ & ?). done.
        -- unfold exec_name. by rewrite str_copy_length.
    + intros q. rewrite Hl2, Hu2. rewrite <- (md_own _ _ _ _ _ _ _ M q), owned_used. tauto.
  - intros va Hva. rewrite Hv2 by done. by apply (fr_view _ _ _ _ _ _ _ _ F).
  - exact (eq_trans (Hld TF_epc ltac:(unfold TF_epc; lia) ltac:(unfold TF_epc, PGSIZE; lia)) R1).
  - exact (eq_trans (Hld TF_sp ltac:(unfold TF_sp; lia) ltac:(unfold TF_sp, PGSIZE; lia)) R2).
  - exact (eq_trans (Hld TF_a1 ltac:(unfold TF_a1; lia) ltac:(unfold TF_a1, PGSIZE; lia)) R3).
  - intros o Ho H1 H2 H3. rewrite (Hag (tf + o)) by (unfold TF_SIZE, PGSIZE in *; lia). unfold m1. rewrite R4 by done.
    apply (md_out _ _ _ _ _ _ _ M tf); [done|done|unfold TF_SIZE, PGSIZE in *; lia].
Qed.

(** ** The arguments *)

Lemma cstr_bytes m s : bytes_ok m -> forall a, cstr m a s -> byte_list s /\ read_bytes m a (length s + 1) = s ++ [0].
Proof.
  intros Hb. induction s as [|c s IH]; intros a; cbn.
  - intros ->. split; [constructor|done].
  - intros (E & _ & Hs). destruct (IH _ Hs) as [H1 H2]. split; [constructor; [rewrite <- E; apply Hb|done]|]. by rewrite E, H2.
Qed.

(** A string in a page that is nobody else's. *)
Definition arg_at (a : Z) (s : list Z) : Prop :=
  is_valid_pa a = true /\ (a ∉ l0) /\ cstr (mem (k_m ks)) a s /\ Z.of_nat (length s) < PGSIZE.

Lemma arg_now r sz e k a s : during (fresh_mem r sz e) k -> arg_at a s ->
  cstr (mem (k_m k)) a s /\ byte_list s /\ read_bytes (mem (k_m k)) a (length s + 1) = s ++ [0].
Proof.
  intros [[l F] _] (Hv & Hl & Hc & Hlen). pose proof (fr_made _ _ _ _ _ _ _ _ F) as M.
  assert (Hc' : cstr (mem (k_m k)) a s) by (eapply cstr_agree; [exact Hc|]; intros x Hx; apply (md_out _ _ _ _ _ _ _ M a); [done|done|lia]).
  split; [done|]. apply cstr_bytes; [|done]. apply (km_bytes _ _ (md_kmem _ _ _ _ _ _ _ M)).
Qed.

Lemma kstrlen_spec k a s (Q : Z -> kernel fsys -> Prop) :
  cstr (mem (k_m k)) a s -> Z.of_nat (length s) < PGSIZE -> Q (Z.of_nat (length s)) k -> wp (kstrlen a) k Q.
Proof.
  intros Hc Hlen HQ. unfold wp, kstrlen, strlen. rewrite (strlen_loop_cstr _ _ a 0 s); [done|by rewrite Z.add_0_r|lia|unfold PGSIZE in *; lia|lia].
Qed.

Lemma exec_copyout_spec r sz e k dst bs (Q : Z -> kernel fsys -> Prop) :
  during (fresh_mem r sz e) k -> 0 <= dst -> dst + Z.of_nat (length bs) <= TRAPFRAME -> (forall va, dst <= va < dst + Z.of_nat (length bs) -> writable e va) -> byte_list bs ->
  (forall k', during (fresh_mem r sz (overwrite e dst bs)) k' -> k_files k' = k_files k -> Q 0 k') -> wp (exec_copyout r dst bs) k Q.
Proof.
  intros HD Hd Hend Hw Hb HQ. destruct (during_self _ _ HD) as [Ec Ep]. destruct (proj1 HD) as [l F].
  unfold exec_copyout. apply wp_bind, (wp_myproc i); [done|]. apply wp_bind, (wp_getp i p); [done|]. apply wp_on_m.
  eapply wp_mono; [by apply (fresh_copyout (k_m ks) l0 tf _ r sz e (k_m k) l)|]. cbn beta. intros rc s' [-> F']. apply HQ; [|done].
  eapply during_mem; [exact HD|]. by exists l.
Qed.

Lemma align16_props a : align16 a <= a < align16 a + 16 /\ (0 <= a -> 0 <= align16 a).
Proof. unfold align16. dlia. Qed.

(** What is pushed lies between [base] and the old stack pointer. *)
Lemma push_strings_sp base args : forall e sp e' sp' us, push_strings base e sp args = Some (e', sp', us) -> base <= sp ->
  base <= sp' <= sp /\ length us = length args /\ forall va, writable e va -> writable e' va.
Proof.
  induction args as [|s args IH]; intros e sp e' sp' us; cbn [push_strings]; [intros [= <- <- <-]; auto with lia|].
  destruct (Z.ltb_spec (align16 (sp - (Z.of_nat (length s) + 1))) base) as [|Hge]; [done|]. pose proof (align16_props (sp - (Z.of_nat (length s) + 1))) as [Ha _].
  set (sp1 := align16 _) in *. destruct (push_strings base (overwrite e sp1 (s ++ [0])) sp1 args) as [[[e2 sp2] us2]|] eqn:E; [|done]. cbn. intros [= <- <- <-] Hb.
  destruct (IH _ _ _ _ _ E Hge) as (H1 & H2 & H3). split; [lia|]. split; [cbn; lia|]. intros va Hw. by apply H3, overwrite_writable.
Qed.

Lemma exec_args_spec r sz e k base sp argv args (Q : option (Z * list Z) -> kernel fsys -> Prop) :
  during (fresh_mem r sz e) k -> Forall2 arg_at argv args -> (length args <= MAXARG)%nat -> PGSIZE <= base <= sp -> sp <= TRAPFRAME ->
  (forall va, base <= va < sp -> writable e va) ->
  match push_strings base e sp args with
  | Some (e', sp', us) => forall k', during (fresh_mem r sz e') k' -> k_files k' = k_files k -> Q (Some (sp', us)) k'
  | None => forall e' k', during (fresh_mem r sz e') k' -> k_files k' = k_files k -> Q None k'
  end ->
  wp (exec_args r base sp argv) k Q.
Proof.
  intros HD Hargs Hmax Hb Htop Hw HQ. set (W := push_strings base e sp args) in *. unfold exec_args. assert (Htp : TRAPFRAME < 2 ^ 64) by (by vm_compute).
  apply (wp_loop (fun '(sp1, us, rest) k' => exists e1 rargs, Forall2 arg_at rest rargs /\ (length us + length rargs <= MAXARG)%nat /\ base <= sp1 <= sp /\
      W = ('(e', sp', us') ← push_strings base e1 sp1 rargs; Some (e', sp', us ++ us')) /\ (forall va, base <= va < sp -> writable e1 va) /\
      during (fresh_mem r sz e1) k' /\ k_files k' = k_files k) (fun '(_, _, rest) => length rest)).
  - intros [[sp1 us] rest] k1 (e1 & rargs & Hf & Hn & Hs1 & EW & Hw1 & HD1 & Hk1). destruct Hf as [|a s rest rargs Ha Hf].
    { apply wp_ret. cbn in EW. rewrite app_nil_r in EW. rewrite EW in HQ. by apply HQ. }
    cbn [length] in Hn. rewrite (proj2 (Nat.leb_gt _ _)) by lia. destruct (arg_now _ _ _ _ _ _ HD1 Ha) as (Hc & Hby & Hrd). pose proof Ha as (_ & _ & _ & Hlen).
    apply wp_bind, (kstrlen_spec k1 a s); [done..|]. set (d := sp1 - (Z.of_nat (length s) + 1)). pose proof (align16_props d) as [Hal Hal0].
    rewrite (u64_id d) by lia. change (d - d mod 16) with (align16 d). rewrite u64_id by lia. cbn [push_strings] in EW. fold d in EW.
    destruct (Z.ltb_spec (align16 d) base) as [Hlt|Hge]; cbn in EW.
    { apply wp_ret. rewrite EW in HQ. by apply (HQ e1). }
    apply wp_bind, (kstrlen_spec k1 a s); [done..|]. apply wp_bind, wp_on_m, wp_gets. replace (Z.to_nat (Z.of_nat (length s) + 1)) with (length s + 1)%nat by lia. rewrite Hrd.
    replace (set_k_m (k_m k1) k1) with k1 by (by destruct k1). apply wp_bind. eapply (exec_copyout_spec r sz e1 k1); [exact HD1|lia|rewrite length_app; cbn; lia| | |].
    + intros va Hva. apply Hw1. rewrite length_app in Hva. cbn in Hva. lia.
    + apply Forall_app. split; [done|]. constructor; [lia|constructor].
    + intros k2 HD2 Hk2. cbn [Z.ltb Z.compare]. apply wp_ret. split; [|cbn; lia]. exists (overwrite e1 (align16 d) (s ++ [0])), rargs. split_and!; try done; try lia.
      * rewrite length_app. cbn. lia.
      * rewrite EW. destruct (push_strings base _ _ rargs) as [[[e2 sp2] us2]|]; [|done]. cbn. by rewrite <- app_assoc.
      * intros va Hva. by apply overwrite_writable, Hw1.
      * congruence.
  - exists e, args. split_and!; try done; try lia. fold W. destruct W as [[[e' sp'] us']|]; done.
  - lia.
Qed.

(** Memory as before, but for the order of the free list. *)
Definition undone_mem (s : machine) : Prop :=
  exists l, kmem_inv s l /\ mheld s = mheld (k_m ks) /\ outside_kept (mem (k_m ks)) (mem s) l0 /\ forall q, q ∈ l <-> q ∈ l0.

Lemma exec_bad_done r sz k (Q : Z -> kernel fsys -> Prop) :
  during (built_mem r sz) k -> r <> 0 -> (forall k', during undone_mem k' -> k_files k' = k_files k -> Q (-1) k') -> wp (exec_bad swtch fuel rw r sz 0) k Q.
Proof.
  intros HD Hr HQ. unfold exec_bad. rewrite (proj2 (Z.eqb_neq r 0)) by done. cbn [negb Z.eqb]. apply wp_bind, wp_on_m. destruct (proj1 HD) as [l M].
  eapply wp_mono; [by apply (built_free (k_m ks) l0 tf r sz (k_m k) l)|]. cbn beta. intros _ s' Hs'. apply wp_bind, wp_ret, wp_ret, HQ; [|done]. by eapply during_mem.
Qed.

Lemma bytes64_length v : length (bytes64 v) = 8%nat.
Proof. done. Qed.

Lemma bytes64_list us : length (concat (map bytes64 us)) = (8 * length us)%nat /\ byte_list (concat (map bytes64 us)).
Proof.
  induction us as [|u us [IH1 IH2]]; cbn [map concat]; [split; [done|constructor]|]. rewrite length_app, bytes64_length, IH1. split; [cbn; lia|].
  apply Forall_app. split; [|done]. repeat (constructor; [apply Z.mod_pos_bound; lia|]). constructor.
Qed.

Lemma stack_writable e guard va : guard + PGSIZE <= va < guard + PGSIZE + PGSIZE -> writable (clear_view (fill_view e guard (guard + PGSIZE + PGSIZE) PTE_W) guard) va.
Proof.
  intros Hva. exists (Z.lor (uperm PTE_W) PTE_V), 0. unfold clear_view, fill_view. rewrite (proj2 (Z.ltb_ge va (guard + PGSIZE))), andb_false_r by lia.
  rewrite (proj2 (Z.leb_le _ _)), (proj2 (Z.ltb_lt _ _)) by (unfold PGSIZE in *; lia). done.
Qed.

Lemma exec_stack_spec path r sz e entry argv args k (Q : Z -> kernel fsys -> Prop) :
  during (fresh_mem r sz e) k -> r <> 0 -> Forall2 arg_at argv args -> (length args < MAXARG)%nat -> 0 <= entry < 2 ^ 64 ->
  (forall k', during undone_mem k' -> k_files k' = k_files k -> (forall im, stack_image e sz entry args = Some im -> short l0 (im_sz im)) -> Q (-1) k') ->
  (forall im k', stack_image e sz entry args = Some im -> k_files k' = k_files k -> execed path im r k' -> Q (im_argc im) k') ->
  wp (exec_stack swtch fuel rw path argv r sz entry) k Q.
Proof.
  intros HD Hr Hargs Hmax Hen Hbad Hgood. destruct (proj1 HD) as [l F]. destruct (fresh_roundup _ _ _ (ki_kmem _ _ Hinv) _ _ _ _ _ F) as [F0 E0].
  destruct (fresh_size _ _ _ (ki_kmem _ _ Hinv) _ _ _ _ _ F) as (Hs1 & Hs2 & Hs3). unfold exec_stack. destruct (during_self _ _ HD) as [Ec0 Ep0].
  apply wp_bind, (wp_myproc i); [exact Ec0|]. apply wp_bind, (wp_getp i p); [exact Ep0|]. set (guard := PGROUNDUP sz) in *.
  assert (Htp : 2 ^ 27 + 2 ^ 20 < TRAPFRAME) by (by vm_compute). assert (Hpg : PGSIZE = 4096) by done.
  replace (guard + (USERSTACK + 1) * PGSIZE) with (guard + PGSIZE + PGSIZE) by (unfold USERSTACK; lia). rewrite (u64_id (guard + PGSIZE + PGSIZE)) by lia.
  set (top := guard + PGSIZE + PGSIZE) in *. apply wp_bind, wp_on_m. eapply wp_mono; [apply (fresh_alloc (k_m ks) l0 tf (ki_kmem _ _ Hinv) r guard e (k_m k) l top PTE_W F0); [lia|done]|].
  assert (Etop : PGROUNDUP top = top) by (apply PGROUNDUP_id; split; [lia|unfold top; rewrite Hpg in *; dlia]).
  unfold stack_image in Hbad, Hgood. fold guard in Hbad, Hgood. replace (guard + PGSIZE + USERSTACK * PGSIZE) with top in Hbad, Hgood by (unfold top, USERSTACK; lia).
  cbn beta. intros rc s1 (l1 & [[-> F1]|(-> & Hsh & M1)]).
  2:{ cbn [Z.eqb]. eapply exec_bad_done; [eapply during_mem; [exact HD|by exists l1]|done|]. intros k' HD' Hk'. apply Hbad; [done|done|].
      intros im. destruct (push_strings _ _ top args) as [[[e2 sp2] us]|]; [|done]. cbn. case_if; [done|]. by intros [= <-]. }
  rewrite Z.max_r, Etop, E0 in F1 by lia. rewrite Z.max_r, (proj2 (Z.eqb_neq top 0)) by lia.
  replace (top - (USERSTACK + 1) * PGSIZE) with guard by (unfold top, USERSTACK; lia). replace (top - USERSTACK * PGSIZE) with (guard + PGSIZE) by (unfold top, USERSTACK; lia).
  rewrite !u64_id by lia. apply wp_bind, wp_on_m.
  eapply wp_mono; [apply (fresh_clear (k_m ks) l0 tf r top _ s1 l1 guard F1); [split; [lia|done]|lia|apply filled_readable; lia]|].
  cbn beta. intros _ s2 F2. assert (HD2 : during (fresh_mem r top (clear_view (fill_view e guard top PTE_W) guard)) (set_k_m s2 (set_k_m s1 k))).
  { eapply (during_mem _ (fun _ => True)); [by eapply (during_mem _ _ (fun _ => True)); [exact HD|]|]. by exists l1. }
  set (e2 := clear_view (fill_view e guard top PTE_W) guard) in *. apply wp_bind.
  assert (Hw2 : forall va, guard + PGSIZE <= va < top -> writable e2 va) by (intros va Hva; by apply stack_writable).
  eapply exec_args_spec; [exact HD2|exact Hargs|lia|lia|lia|exact Hw2|].
  destruct (push_strings (guard + PGSIZE) e2 top args) as [[[e3 sp3] us]|] eqn:Ep; cbn in Hbad, Hgood.
  2:{ intros e3 k3 HD3 Hk3. cbn in Hk3. eapply exec_bad_done; [by eapply fresh_made|done|]. intros k4 HD4 Hk4. apply Hbad; [done|congruence|done]. }
  intros k3 HD3 Hk3. cbn in Hk3. destruct (push_strings_sp _ _ _ _ _ _ _ Ep) as (Hsp3 & Hlen & Hw3); [lia|]. unfold MAXARG in *.
  apply wp_bind. rewrite (proj2 (Nat.ltb_lt _ _)) by lia. apply wp_ret. set (d := sp3 - (Z.of_nat (length us) + 1) * 8) in *. pose proof (align16_props d) as [Hal Hal0].
  rewrite (u64_id d) by lia. change (d - d mod 16) with (align16 d). rewrite u64_id by lia. destruct (Z.ltb_spec (align16 d) (guard + PGSIZE)) as [Hlt|Hge].
  { eapply exec_bad_done; [by eapply fresh_made|done|]. intros k4 HD4 Hk4. apply Hbad; [done|congruence|done]. }
  destruct (bytes64_list (us ++ [0])) as [Hbl Hbb]. rewrite length_app in Hbl. cbn [length] in Hbl. apply wp_bind.
  eapply exec_copyout_spec; [exact HD3|lia|lia| |done|].
  - intros va Hva. apply Hw3, Hw2. lia.
  - intros k4 HD4 Hk4. cbn [Z.ltb Z.compare]. eapply wp_mono; [apply (exec_commit_spec path r top _ (align16 d) entry (Z.of_nat (length us)) k4 HD4 Hr); lia|].
    cbn beta. intros rc k5 (-> & Hk5 & X). exact (Hgood _ k5 eq_refl ltac:(congruence) X).
Qed.
End stack_spec.

(** ** The system call *)

Section kexec_spec.
Context `{HLS : LinkerSyms} (swtch : M (kernel fsys) unit) (fuel : nat) (Hfuel : can_wait fuel).
Context (rw : nat -> bool -> M (kernel fsys) unit) (Hrw : driver_ok rw).
Context (i : nat) (pid dev : Z) (sb : superblock) (start : Z) (Hly : layout sb start).
Context (V : Z -> block) (Hd : disk_ok sb V) (live : Z -> Prop) (Htr : tree dev sb V live).
Context (ks : kernel fsys) (p : proc) (l0 : list Z).
Context (Hidle : idle i pid dev V ks) (Hrest : at_rest dev sb start V live ks).
Context (Hinv : kinv ks l0) (Hp : k_procs ks !! i = Some p) (Hlive : p_state p <> UNUSED).
Implicit Types (k : kernel fsys).
Abbreviation inop := (inop i pid dev).
Abbreviation at_rest := (at_rest dev sb start V live).
Abbreviation visiting := (visiting pid dev sb start V live).
Abbreviation during := (during ks).
Abbreviation tf := (p_trapframe p).
Abbreviation undone_mem := (undone_mem ks l0).
Abbreviation fresh_mem r sz e := (fun s => exists l, fresh (k_m ks) l0 tf r sz e s l).
Abbreviation built_mem r sz := (fun s => exists l, built (k_m ks) l0 tf r sz s l).
Abbreviation refs k m := (inode_refs (table k) m).

Lemma exec_cur : k_cur ks = Some i.
Proof. apply (ho_cur _ _ _ (idle_host _ _ _ _ _ Hidle)). Qed.

(** In the transaction of [ks], but for the inodes and their locks. *)
Definition open_tx k0 : Prop := exists t sl, k_files k0 = set_fs_inode t (set_fs_sl sl (k_files (opened_log ks))).

Lemma open_moved k0 k1 : moved k0 k1 -> open_tx k0 -> open_tx k1.
Proof. intros (t & sl & ->) (t' & sl' & E). exists t, sl. cbn. by rewrite E. Qed.

Lemma open_files k0 k1 : k_files k1 = k_files k0 -> open_tx k0 -> open_tx k1.
Proof. unfold open_tx. by intros ->. Qed.

Lemma during_moved P k0 k1 : moved k0 k1 -> during P k0 -> during P k1.
Proof. intros (t & sl & ->) HD. eapply during_woke; [exact HD|apply woke_files]. Qed.

(** The file system afterwards: no transaction, the disk as before but for the
    area of the log, no inode locked and the same references to inodes. *)
Record settled k' : Prop := {
  se_idle : exists V', idle i pid dev V' k' /\ forall b, off_log start b -> V' b = V b;
  se_rest : at_rest k';
  se_refs m : refs k' m = refs ks m;
  se_file : fs_file (k_files k') = fs_file (k_files ks);
  se_pipe : fs_pipe (k_files k') = fs_pipe (k_files ks);
  se_cons : fs_cons (k_files k') = fs_cons (k_files ks)
}.

Lemma settled_files k k' : settled k -> k_files k' = k_files k -> host i pid k' -> settled k'.
Proof.
  intros [(V' & [I1 I2 (A & [_ _ _ C] & Hv & Hr)] & HV) [R1 R2 R3] H1 H2 H3 H4] E Hh.
  split; unfold table in *; rewrite ?E; try done.
  - exists V'. split; [|done]. split; [by rewrite E|unfold quiet; by rewrite E|]. exists A. split; [|done]. split; [done|apply woke_refl|done|by rewrite E].
  - split; unfold based, table, unlocked_at in *; by rewrite ?E.
Qed.

Lemma end_spec P k0 k (Q : unit -> kernel fsys -> Prop) :
  inop k0 V ∅ ∅ ∅ k -> open_tx k0 -> at_rest k0 -> (forall m, refs k0 m = refs ks m) -> during P k0 ->
  (forall k', settled k' -> during P k' -> Q tt k') -> wp (log_end_op swtch fuel rw) k Q.
Proof.
  intros H (t & sl & E) [[A1 A1'] A2 A3] HR HD HQ. destruct Hidle as [(_ & _ & _ & Hc & _) Hq _].
  eapply (end_op_idle swtch fuel Hfuel rw Hrw i pid dev V ∅ k0); [exact H|unfold quiet; by rewrite E|by rewrite E|by rewrite E|].
  intros V' k' HI [W [S1 _ S3 S4 S5 S6 S7 _]] Hs HV. apply HQ; [|by eapply during_woke].
  split; unfold table in *; rewrite ?S4, ?S5, ?S6, ?S7; cbn; try (by rewrite E); try done.
  - exists V'. split; [done|]. intros b Hb. apply HV. by rewrite A1'.
  - split; unfold based, table, unlocked_at in *; rewrite ?S3, ?S4, ?Hs; [done|done|]. intros j. rewrite S1 by apply inode_lock_big. apply A3.
Qed.

(** The file is open: its inode [j] is locked and has one more reference. *)
Record reading (j : nat) (n : Z) k0 : Prop := {
  rg_open : open_tx k0;
  rg_visit : visiting j k0;
  rg_entry : exists y, table k0 !! j = Some y /\ holds dev n y /\ content V y = content V (on_disk dev sb V n) /\ inode_ok dev sb V y;
  rg_refs m : refs k0 m = refs ks m + (if m =? n then 1 else 0)
}.

Lemma reading_files j n k0 k1 : k_files k1 = k_files k0 -> reading j n k0 -> reading j n k1.
Proof.
  intros E [R1 [v1 v2 v3 v4] R3 R4]. split; [by eapply open_files| |unfold table in *; by rewrite E..].
  split; unfold based, table, unlocked_at in *; by rewrite ?E.
Qed.

Lemma lock_program k0 k j n P (Q : unit -> kernel fsys -> Prop) :
  inop k0 V ∅ ∅ ∅ k -> open_tx k0 -> at_rest k0 -> standing dev (inode_refs (table ks)) k0 j n -> during P k0 ->
  (forall k0' k', inop k0' V ∅ ∅ ∅ k' -> reading j n k0' -> during P k0' -> Q tt k') -> wp (ilock swtch fuel rw (iptr j)) k Q.
Proof.
  intros H Ho Har (x & Hj & (Hr & Ed & En) & HR & _) HD HQ.
  eapply (visit_spec swtch fuel Hfuel rw Hrw); [exact Hly|exact Htr|exact H|exact Har|exact Hj|done|]. intros k1 k' H1 M1 Hv1 E1.
  destruct (load_table dev sb V live _ j x (ar_table _ _ _ _ _ _ Har) Hj Hr) as (_ & HR1 & _). rewrite <- E1 in HR1.
  pose proof (entry_at _ _ _ _ _ _ _ (ar_table _ _ _ _ _ _ Har) Hj) as He. destruct (proj2 He Hr) as (_ & Hl & _). rewrite En in Hl.
  destruct (loaded_copy dev sb V live x He Hr) as [_ Hcp]. destruct (loaded_same sb V x) as (Ey1 & Ey2 & Ey3). rewrite En in Hcp.
  destruct (copy_fields dev sb V n _ (eq_trans Ey2 Ed) (eq_trans Ey3 En) Hcp) as (_ & _ & Ec & Hok).
  apply (HQ _ _ H1); [|by eapply during_moved]. split; [by eapply open_moved|done| |by intros m; rewrite HR1, HR].
  exists (loaded sb V x). split; [rewrite E1; apply list_lookup_insert_eq; by eapply lookup_lt_Some|].
  split; [split_and!; congruence|]. split; [done|]. by apply Hok, (tr_inode _ _ _ _ Htr).
Qed.

Lemma leave_program k0 k j n P (Q : unit -> kernel fsys -> Prop) :
  inop k0 V ∅ ∅ ∅ k -> reading j n k0 -> during P k0 ->
  (forall k0' k', inop k0' V ∅ ∅ ∅ k' -> open_tx k0' -> at_rest k0' -> (forall m, refs k0' m = refs ks m) -> during P k0' -> Q tt k') ->
  wp (iunlockput swtch fuel rw (iptr j)) k Q.
Proof.
  intros H [Ho Hv (y & Hy & Hh & _) HR] HD HQ. pose proof Hh as (Hr & _).
  eapply (leave_spec swtch fuel rw); [exact Htr|exact H|exact Hv|exact Hy|done|]. intros k1 k' H1 M1 A1 E1.
  apply (HQ _ _ H1); [by eapply open_moved|done| |by eapply during_moved].
  eapply reference_back; [apply Hv|exact Hy|exact Hh|exact HR|exact E1].
Qed.

(** [bad:] with the file open. *)
Lemma exec_bad_file r sz k0 k j n (Q : Z -> kernel fsys -> Prop) :
  inop k0 V ∅ ∅ ∅ k -> reading j n k0 -> (r = 0 /\ during undone_mem k0 \/ r <> 0 /\ during (built_mem r sz) k0) ->
  (forall k', settled k' -> during undone_mem k' -> Q (-1) k') -> wp (exec_bad swtch fuel rw r sz (iptr j)) k Q.
Proof.
  intros H Hg HM HQ.
  assert (Hend : forall k1 k', inop k1 V ∅ ∅ ∅ k' -> reading j n k1 -> during undone_mem k1 ->
    wp ((if negb (iptr j =? 0) then iunlockput swtch fuel rw (iptr j) >>> log_end_op swtch fuel rw else ret tt) >>> ret (-1)) k' Q).
  { intros k1 k2 H1 G1 D1. rewrite (proj2 (Z.eqb_neq _ 0)) by apply iptr_pos. apply wp_bind, wp_bind. eapply leave_program; [exact H1|exact G1|exact D1|].
    intros k3 k4 H3 O3 A3 R3 D3. eapply end_spec; [exact H3|done..|exact D3|]. intros k5 S5 D5. by apply wp_ret, HQ. }
  unfold exec_bad. apply wp_bind. destruct HM as [[-> HD]|[Hr HD]].
  - apply wp_ret. by eapply Hend.
  - rewrite (proj2 (Z.eqb_neq r 0)) by done. cbn [negb]. eapply (inop_on_m _ _ _ _ _ _ _ _ (fun _ => undone_mem)); [exact H|exact HD| |].
    + intros s [l M]. eapply wp_mono; [by apply (built_free (k_m ks) l0 tf r sz s l)|]. cbn beta. intros _ s' Hs'.
      split; [|exact Hs']. destruct Hs' as (? & _ & Hh & _). rewrite Hh. symmetry. apply M.
    + intros _ k1 k2 H1 E1 D1. eapply Hend; [exact H1|by eapply reading_files|exact D1].
Qed.

(** The state after a failure: no page is lost, and what is outside the free
    pages is as before. *)
Record undone k' : Prop := {
  ud_woke : woke (set_k_m (k_m k') ks) k';
  ud_inv : exists l', kinv k' l' /\ forall q, q ∈ l' <-> q ∈ l0;
  ud_mem : outside_kept (mem (k_m ks)) (mem (k_m k')) l0
}.

Lemma undone_done k' : during undone_mem k' -> undone k'.
Proof.
  intros HD. pose proof (during_inv ks l0 Hinv _ _ HD) as [_ K2 K3 K4]. destruct (during_self i ks p exec_cur Hp _ _ HD) as [_ Ep].
  destruct HD as [(l & Hk & Hh & Ho & Hq) W]. split; [done| |done]. exists l. split; [|done]. split; [done| |done..].
  rewrite <- (list_insert_id (k_procs k') i p) by done.
  destruct (proc_mem_frame (mem (k_m ks)) (mem (k_m k')) l0 l p) as [Hm Hf].
  { apply (pm_proc _ _ _ K2 i p Ep). }
  { intros q Hfq. destruct (foot_valid _ _ _ _ (pm_proc _ _ _ K2 i p Ep) Hfq) as [Hv Hl]. split; [by apply Ho|by rewrite Hq]. }
  eapply (procs_mem_step (mem (k_m ks)) _ l0 l _ i p p); [exact K2|exact Ep|exact Hm|intros q Hfq; right; by apply Hf|].
  intros q Hv Hl _. split; [by apply Ho|by rewrite Hq].
Qed.

(** What exec comes to, for the image [w]. *)
Definition exec_result (path : list Z) (w : option image) (rc : Z) k' : Prop :=
  settled k' /\
  ((exists im r, w = Some im /\ rc = im_argc im /\ execed i ks p l0 path im r k') \/
   (rc = -1 /\ undone k' /\ forall im, w = Some im -> short l0 (im_sz im))).

Lemma execed_host path im r k' : execed i ks p l0 path im r k' -> host i pid k'.
Proof.
  intros [X1 _ X3 X4 (l & Hk & _) _ _ _ _ _]. destruct (idle_host _ _ _ _ _ Hidle) as [_ _ Hh (p' & Hp' & Hpid)].
  split; [done|apply (ki_wf _ _ Hk)|congruence|]. eexists. split; [exact X1|]. cbn. by simplify_eq.
Qed.

Lemma undone_host k' : undone k' -> held k' = held ks -> host i pid k'.
Proof.
  intros [W (l & Hk & _) _] E. destruct (idle_host _ _ _ _ _ Hidle) as [Hc _ Hh (p' & Hp' & Hpid)]. pose proof (wk_cur _ _ W) as Ec. cbn in Ec.
  split; [congruence|apply (ki_wf _ _ Hk)|congruence|]. destruct (wk_proc _ _ W i p' Hp') as (q & Hq & [->|(Hne & _)]); [eauto|]. by cbn in Hne.
Qed.

Lemma exec_undone k k' path w : settled k -> k_files k' = k_files k -> during undone_mem k' -> (forall im, w = Some im -> short l0 (im_sz im)) -> exec_result path w (-1) k'.
Proof.
  intros S E HD Hsh. pose proof (undone_done _ HD) as U. split; [|by right]. eapply settled_files; [exact S|done|]. apply undone_host; [done|].
  destruct HD as [(l & _ & Hh & _) _]. exact Hh.
Qed.

(** From the last segment on. *)
Lemma kexec_finish path argv args r sz e entry k0 k j n w (Q : Z -> kernel fsys -> Prop) :
  inop k0 V ∅ ∅ ∅ k -> reading j n k0 -> during (fresh_mem r sz e) k0 -> r <> 0 -> Forall2 (arg_at ks l0) argv args -> (length args < MAXARG)%nat ->
  0 <= entry < 2 ^ 64 -> stack_image e sz entry args = w -> (forall rc k', exec_result path w rc k' -> Q rc k') ->
  wp (iunlockput swtch fuel rw (iptr j) >>> log_end_op swtch fuel rw >>> exec_stack swtch fuel rw path argv r sz entry) k Q.
Proof.
  intros H Hg HD Hr Hargs Hmax Hen <- HQ. apply wp_bind. eapply leave_program; [exact H|exact Hg|exact HD|]. intros k1 k2 H1 O1 A1 R1 D1.
  apply wp_bind. eapply end_spec; [exact H1|done..|exact D1|]. intros k3 S3 D3.
  eapply (exec_stack_spec swtch fuel rw i ks p l0 Hinv exec_cur Hp Hlive); [exact D3|done|exact Hargs|done|done|..].
  - intros k4 D4 E4 Hsh. by eapply HQ, exec_undone.
  - intros im k4 Eim E4 X4. apply HQ. split; [|left; by exists im, r]. eapply settled_files; [exact S3|done|]. by eapply execed_host.
Qed.

(** Making the page table. *)
Lemma fresh_start_k P k0 k (Q : Z -> kernel fsys -> Prop) :
  inop k0 V ∅ ∅ ∅ k -> during P k0 -> (forall s, P s -> s = k_m ks) ->
  (forall r k1 k', inop k1 V ∅ ∅ ∅ k' -> k_files k1 = k_files k0 ->
    (r <> 0 /\ during (fresh_mem r 0 (fun _ => None)) k1) \/ (r = 0 /\ short l0 0 /\ during undone_mem k1) -> Q r k') ->
  wp (on_m (proc_pagetable tf)) k Q.
Proof.
  intros H HD HP HQ. destruct (exec_self i ks p l0 Hinv Hp Hlive) as (_ & _ & Htv & Htl & _).
  eapply (inop_on_m _ _ _ _ _ _ _ _ (fun r s => (r <> 0 /\ fresh_mem r 0 (fun _ => None) s) \/ (r = 0 /\ short l0 0 /\ undone_mem s))); [exact H|exact HD| |].
  - intros s ->%HP. eapply wp_mono; [apply (fresh_start (k_m ks) l0 tf (ki_kmem _ _ Hinv) Htv Htl)|].
    cbn beta. intros r s' [[Hr [l F]]|(-> & Hsh & Hu)].
    + split; [apply (fr_made _ _ _ _ _ _ _ _ F)|]. left. split; [done|by exists l].
    + split; [by destruct Hu as (? & _ & Hh & _)|]. by right.
  - intros r k1 k' H1 E1 D1. apply (HQ r k1 k' H1 E1). destruct (proj1 D1) as [[Hr F]|(-> & Hsh & U)].
    + left. split; [done|]. eapply during_mono; [exact D1|]. by intros [[_ ?]|[? _]].
    + right. split_and!; [done|done|]. eapply during_mono; [exact D1|]. by intros [[? _]|(_ & _ & ?)].
Qed.

Lemma undone_start : undone_mem (k_m ks).
Proof. exists l0. split; [apply Hinv|]. by split_and!. Qed.

(** From the header of the file on. *)
Lemma kexec_program path argv args k0 k j n (Q : Z -> kernel fsys -> Prop) :
  let C := content V (on_disk dev sb V n) in
  inop k0 V ∅ ∅ ∅ k -> reading j n k0 -> during (fun s => s = k_m ks) k0 -> byte_list C ->
  Forall2 (arg_at ks l0) argv args -> (length args < MAXARG)%nat -> (forall rc k', exec_result path (exec_image C args) rc k' -> Q rc k') ->
  wp (r <- read_struct swtch fuel rw (iptr j) 0 ELFHDR ;;
      match r with
      | None => exec_bad swtch fuel rw 0 0 (iptr j)
      | Some elf =>
          if negb (elf_magic elf =? ELF_MAGIC) then exec_bad swtch fuel rw 0 0 (iptr j)
          else
            p <- getp i ;;
            pagetable <- on_m (proc_pagetable (p_trapframe p)) ;;
            if pagetable =? 0 then exec_bad swtch fuel rw 0 0 (iptr j)
            else
              r <- exec_segments swtch fuel rw pagetable (iptr j) elf ;;
              let '(ok, sz) := r in
              if (ok : bool) then
                iunlockput swtch fuel rw (iptr j) >>> log_end_op swtch fuel rw >>> exec_stack swtch fuel rw path argv pagetable sz (elf_entry elf)
              else exec_bad swtch fuel rw pagetable sz (iptr j)
      end) k Q.
Proof.
  intros C H Hg HD Hby Hargs Hmax HQ. pose proof (rg_entry _ _ _ Hg) as (y & Hy & _ & Ec & Hok). fold C in Ec.
  assert (Hen : forall k1, k_files k1 = k_files k0 -> entry k1 (iptr j) y).
  { intros k1 E1. unfold entry, iptr. rewrite E1, Z.add_simpl_r, Nat2Z.id. split; [lia|exact Hy]. }
  assert (HU : during undone_mem k0) by (eapply during_mono; [exact HD|]; intros ->; apply undone_start).
  assert (Hbad : forall r sz k1 k', inop k1 V ∅ ∅ ∅ k' -> k_files k1 = k_files k0 -> (r = 0 /\ during undone_mem k1 \/ r <> 0 /\ during (built_mem r sz) k1) ->
    (forall im, exec_image C args = Some im -> short l0 (im_sz im)) -> wp (exec_bad swtch fuel rw r sz (iptr j)) k' Q).
  { intros r sz k1 k' H1 E1 HM Hsh. eapply exec_bad_file; [exact H1|by eapply reading_files|exact HM|]. intros k2 S2 D2. by eapply HQ, exec_undone. }
  unfold exec_image in Hbad, HQ. apply wp_bind. eapply (read_struct_spec swtch fuel Hfuel rw Hrw); [exact Hly|exact Hd|exact H|by apply Hen|done|done|done|]. rewrite Ec.
  intros k1 H1. destruct (file_bytes C 0 ELFHDR) as [elf|] eqn:Eelf; cbn [mbind option_bind] in Hbad, HQ; [|by eapply Hbad; [exact H1|done|left|]].
  destruct (negb (elf_magic elf =? ELF_MAGIC)); [by eapply Hbad; [exact H1|done|left|]|].
  pose proof (file_bytes_ok _ _ _ _ Hby Eelf) as Helf. destruct (during_self i ks p exec_cur Hp _ _ (during_woke _ _ _ _ HD (inop_woke _ _ _ _ _ _ _ _ _ H1))) as [_ Ep].
  apply wp_bind, (wp_getp i p); [done|]. apply wp_bind. eapply fresh_start_k; [exact H1|exact HD|done|].
  set (W := load_segs _ _ _ _ _) in *. intros r k2 k3 H2 E2 [[Hr D2]|(-> & Hsh & D2)].
  2:{ cbn [Z.eqb]. eapply Hbad; [exact H2|done|by left|]. intros im Eim. destruct W as [[e sz]|] eqn:EW; [|done]. cbn in Eim.
      eapply short_mono; [|exact Hsh]. pose proof (image_size _ _ _ _ _ _ _ _ EW Eim); lia. }
  rewrite (proj2 (Z.eqb_neq r 0)) by done. apply wp_bind.
  eapply (exec_segments_spec swtch fuel Hfuel rw Hrw i pid dev sb start Hly V Hd ∅ ks l0 tf (ki_kmem _ _ Hinv) r k2 k3 (iptr j) y elf);
    [exact H2|by apply Hen|done|by rewrite Ec|exact D2|by apply phnum_pos|..]; rewrite Ec; fold W.
  - intros sz1 k4 k5 H4 E4 D4 Hsh. eapply Hbad; [exact H4|congruence|by right|]. intros im Eim. destruct W as [[e sz]|] eqn:EW; [|done]. cbn in Eim.
    eapply short_mono; [|by eapply Hsh]. pose proof (image_size _ _ _ _ _ _ _ _ EW Eim); lia.
  - intros e sz k4 k5 EW H4 E4 D4. eapply kexec_finish; [exact H4|eapply reading_files; [|exact Hg]; congruence|exact D4|done|exact Hargs|done| |done|].
    + by apply get64_bounds.
    + intros rc k6 X. apply HQ. rewrite EW. exact X.
Qed.

(** C3. The exec system call loads the program that the path leads to.  The
    new memory, stack and registers are the image that [exec_image] computes
    from the contents of the file and the arguments: its segments at their
    addresses with zeros after them, a page out of reach below the stack, and
    the strings and their addresses on it.  The result is argc, the old
    address space is freed and no page is lost.  If there is no such file or no
    such image the result is -1 and the old program is as before; with an image
    that happens only if memory is short.  In each case the transaction is
    over, the disk is as before outside the log, no inode is locked and the
    references to inodes are as before. *)
Theorem kexec_loads path argv args n :
  no_nul path -> starts_at i dev live ks ks path n -> 2 <= spare (table ks) -> Forall2 (arg_at ks l0) argv args -> (length args < MAXARG)%nat ->
  let w := walk dev sb false V n (elements path) in
  (forall m, w = Some m -> byte_list (content V (on_disk dev sb V m))) ->
  wp (kexec swtch fuel rw path argv) ks (exec_result path (m ← w; exec_image (content V (on_disk dev sb V m)) args)).
Proof.
  intros Hnn Hst Hsp Hargs Hmax w Hby. unfold kexec. apply wp_bind, (wp_myproc i); [apply exec_cur|]. apply wp_bind.
  eapply (begin_op_idle swtch fuel Hfuel rw Hrw i pid dev V ∅); [exact Hidle|rewrite size_empty; unfold NBUF; lia|]. intros k1 H1.
  assert (D0 : during (fun s => s = k_m ks) (opened_log ks)) by (split; [done|]; split; try done; intros j q Hq; exists q; auto).
  destruct (during_self i ks p exec_cur Hp _ _ (during_woke _ _ _ _ D0 (inop_woke _ _ _ _ _ _ _ _ _ H1))) as [_ Ep].
  assert (O0 : open_tx (opened_log ks)) by (eexists _, _; by destruct ks as [? ? ? ? ? ? []]). destruct Hrest as [A1 A2 A3].
  apply wp_bind. unfold namei. apply wp_bind. eapply (namex_spec swtch fuel Hfuel rw Hrw); [exact Hly|exact Hd|exact Htr|exact H1|by split|done|done| |].
  { unfold starts_at in *. destruct (hd 0 path =? SLASH); [exact Hst|]. destruct Hst as (j & x & Hj & Hh & Hcwd). exists j, x. split_and!; [done|done|].
    intros p' Hp'. apply Hcwd. congruence. }
  intros k2 k3 r name H2 M2 [Har Hw] _. fold w in Hw. apply wp_ret. cbn [fst]. pose proof (open_moved _ _ M2 O0) as O2. pose proof (during_moved _ _ _ M2 D0) as D2.
  destruct w as [m|]; cbn [mbind option_bind].
  - destruct Hw as (j & -> & Hs). rewrite (proj2 (Z.eqb_neq _ 0)) by apply iptr_pos. apply wp_bind.
    eapply lock_program; [exact H2|done|done|exact Hs|exact D2|]. intros k4 k5 H4 G4 D4. eapply kexec_program; [exact H4|exact G4|done|by apply Hby|exact Hargs|done|done].
  - destruct Hw as [-> HR]. cbn [Z.eqb]. apply wp_bind. eapply end_spec; [exact H2|done|done|exact HR|exact D2|]. intros k4 S4 D4. apply wp_ret.
    eapply exec_undone; [exact S4|done| |done]. eapply during_mono; [exact D4|]. intros ->. apply undone_start.
Qed.
End kexec_spec.

(** ** A program *)

(** An instruction at address 0 and four zeros after it. *)
Definition program : list Z :=
  bytes32 ELF_MAGIC ++ replicate 20 0 ++ bytes64 0 ++ bytes64 ELFHDR ++ replicate 16 0 ++ [1; 0] ++ replicate 6 0 ++
  bytes32 ELF_PROG_LOAD ++ bytes32 5 ++ bytes64 120 ++ bytes64 0 ++ bytes64 0 ++ bytes64 4 ++ bytes64 8 ++ bytes64 PGSIZE ++ [19; 0; 0; 0].

Definition program_inode : inode := Inode 1 2 1 1 T_FILE 0 0 1 124 (37 :: replicate 12 0).

Definition program_disk (b : Z) : block :=
  if b =? 33 then put_dinode program_inode 128 (put_dinode root_inode 64 zeros)
  else if b =? 37 then program ++ replicate 900 0
  else demo_disk b.

Definition program_files : fsys :=
  set_fs_inode (root_inode :: replicate 49 no_inode) (set_fs_sb demo_sb (blank program_disk (set_lg_outstanding 0 blank_log))).

Lemma program_ok : disk_ok demo_sb program_disk.
Proof.
  split.
  - intros b. unfold program_disk, demo_disk. repeat case_if; by vm_compute.
  - apply zlt_forall, (bool_decide_unpack _). by vm_compute.
Qed.

Lemma program_tree : tree 1 demo_sb program_disk demo_live.
Proof.
  apply (one_file_tree _ program_inode); try done; [apply zlt_forall, (bool_decide_unpack _)|..]; by vm_compute.
Qed.

Lemma program_table : table_ok 1 demo_sb program_disk demo_live (fs_inode program_files).
Proof.
  cbn [fs_inode program_files set_fs_inode]. split; [done|..].
  - assert (Hu : forall j x, (root_inode :: replicate 49 no_inode) !! j = Some x -> 0 < i_ref x -> j = 0%nat).
    { intros [|j] x Hj Hr; [done|]. apply lookup_replicate in Hj as [-> _]. done. }
    intros j j' x x' Hj Hj' Hr Hr' _ _. by rewrite (Hu j x), (Hu j' x').
  - apply Forall_cons. split; [|apply Forall_replicate; split; [cbn; lia|]; intros Hr; cbn in Hr; lia].
    split; [cbn; lia|]. intros _. split_and!; [done|by left|]. intros _. by vm_compute.
Qed.

(** The image has a page for the program, one out of reach, and the stack. *)
Definition image_fields (im : image) := (im_argc im, im_sz im, im_sp im, im_entry im, (im_view im 0, im_view im 4, im_view im 4096)).

Lemma program_image : image_fields <$> exec_image (content program_disk (on_disk 1 demo_sb program_disk 2)) [] =
  Some (0, 12288, 12272, 0, (Some (27, 19), Some (27, 0), Some (7, 0))).
Proof. by vm_compute. Qed.

Lemma program_ready : exists (k : kernel fsys) l p,
  kinv k l /\ k_procs k !! 0%nat = Some p /\ p_state p = RUNNING /\ idle 0 1 1 program_disk k /\ at_rest 1 demo_sb 2 program_disk demo_live k /\ 2 <= spare (table k).
Proof.
  destruct running_ok as (k & l & p & A & _). set (k1 := with_fs program_files k).
  assert (Hh : host 0 1 k1).
  { split; [apply A|apply (ki_wf _ _ (al_inv _ _ _ _ A))|apply A|exists p; split; apply A]. }
  pose proof (binit_spec 1 1 k1 zeros ltac:(lia) eq_refl) as Hw. apply wp_exists in Hw as (u & k2 & W & R & C).
  exists k2, l, p. split_and!.
  - eapply woke_kinv; [exact W|]. destruct (al_inv _ _ _ _ A). by split.
  - destruct (wk_proc _ _ W 0%nat p (al_proc _ _ _ _ A)) as (q & Hq & [->|(Hne & _)]); [done|]. exfalso. apply Hne, A.
  - apply A.
  - split.
    + cbn zeta. rewrite (sr_log _ _ R). split_and!; done.
    + eapply caches_quiet; [exact C|]. intros b. unfold refs. cbn. by rewrite lookup_empty.
    + eexists. split; [split; [by eapply woke_host|apply woke_refl|apply same_rest_refl|exact C]|]. split; [done|].
      intros b. unfold refs. cbn. by rewrite lookup_empty.
  - split.
    + split; [apply R|by rewrite (sr_log _ _ R)].
    + unfold table. rewrite (sr_inode _ _ R). apply program_table.
    + intros j. unfold unlocked_at. rewrite (sr_sl _ _ R) by apply inode_lock_big. done.
  - unfold table. rewrite (sr_inode _ _ R). by vm_compute.
Qed.

Lemma kexec_loads_witness : exists k : kernel fsys,
  wp (kexec no_switch 1 ideal_rw [SLASH; 97] []) k (fun rc k' =>
    (rc = 0 /\ exists p', k_procs k' !! 0%nat = Some p' /\ p_sz p' = 12288 /\ ubyte (mem (k_m k')) (p_pagetable p') 0 = Some (27, 19)) \/ rc = -1).
Proof.
  destruct program_ready as (k & l & p & Hk & Hp & Hr & I & A & Hs). exists k.
  assert (H0 : 0 <= 0 < TRAPFRAME) by (by vm_compute).
  assert (Ew : walk 1 demo_sb false program_disk ROOTINO (elements [SLASH; 97]) = Some 2) by (by vm_compute).
  eapply wp_mono; [apply (kexec_loads no_switch 1 (Nat.lt_0_succ 0) ideal_rw ideal_ok 0 1 1 demo_sb 2 demo_layout program_disk program_ok demo_live program_tree
    k p l I A Hk Hp ltac:(by rewrite Hr) [SLASH; 97] [] [] ROOTINO)|].
  - by repeat constructor.
  - split_and!; [done|done|by left].
  - done.
  - constructor.
  - unfold MAXARG. cbn. lia.
  - rewrite Ew. intros m [= <-]. apply (bool_decide_unpack _). by vm_compute.
  - rewrite Ew. cbn [mbind option_bind]. intros rc k' [_ [(im & r & E & -> & X)|(-> & _)]]; [left|by right].
    pose proof program_image as Eim. rewrite E in Eim. injection Eim as E1 E2 _ _ E3 _ _. split; [exact E1|]. eexists. split; [apply X|]. split; [exact E2|]. etransitivity; [|exact E3]. exact (xc_view _ _ _ _ _ _ _ _ X 0 H0).
Defined.
